(* ===== verification/_CoqProject ===== *)
-Q . S2P
Prelude.v
GoStrings.v
StateError.v
Bytes.v
Base64.v
Sha256.v
Regex.v
Redact.v
LogRing.v
Engine.v
EngineFacts.v
Command.v
Journal.v
Apply.v
ApplyCrash.v
ApplyReplay.v
ApplyConverge.v
Netip.v
Text.v
Messages.v
Json.v
JsonFacts.v
GoTime.v
JsonStruct.v
Url.v
Subnet.v
Facts.v
Parse.v
HotspotConf.v
HotspotFacts.v
Supervisor.v
SupervisorFacts.v
Plan.v
PlanFacts.v
Nft.v
NftFacts.v
Steps.v
StepsFacts.v
Detect.v
DetectFacts.v
Frame.v
Packet.v
PacketFacts.v
Decoy.v
Split.v
Hello.v
RateLimit.v
Session.v
Auth.v
AuthFacts.v
Password.v
Desktop.v
State.v
StateFacts.v
Link.v
LinkFacts.v
LinkDoc.v
Xcfg.v
XcfgFacts.v
XcfgDoc.v
Diag.v
Privsvc.v
Service.v
Refresh.v
ServiceFacts.v
ServiceDemo.v
XcfgService.v
Wire.v
WireFacts.v
Assembly.v
Qr.v
QrStream.v
QrFacts.v
PanelView.v
Panel.v
PanelFacts.v
InternetSharing.v
SharingFacts.v
MobileHotspot.v
SimKernel.v
