(* ===== verification/Prelude.v ===== *)
(** * Caspian: a verification development

    Caspian turns a small machine into a hotspot whose clients reach the
    internet only through the owner's proxy server. A web panel
    ([internal/panel]) signs the owner in, keeps what they paste and choose in a
    settings file ([internal/state]) and asks a privileged service
    ([internal/privsvc]) over a socket to switch the hotspot on and off. The
    service reads the machine, plans and applies changes to its network with a
    journal of their inverses ([internal/netcfg]), starts the access point
    ([internal/hotspot]) and a proxy engine ([internal/engine]), which is given
    a document composed by [internal/xcfg] from a link parsed by
    [internal/link]. [internal/snispoof] sends a decoy ClientHello or splits the
    real one on connections it relays. This library models the parts that decide
    something and proves what they promise each other.

    ** Files

    What the sources use of Go's library, with its round trips:
    - [Prelude], [StateError]: the result type and its notation, tactics, list
      lemmas; functions from a state to an outcome and a state, in which what
      was changed before an error stays changed.
    - [GoStrings], [Text], [Bytes], [Base64], [Sha256], [Regex],
      [Netip], [Url], [GoTime]: strings, strconv, unicode/utf8,
      encoding/binary, base64, sha256, regexp, net/netip, net/url, time.
    - [Json], [JsonFacts], [JsonStruct]: encoding/json, values as text and
      structs with tagged fields.

    internal/netcfg:
    - [Command]: command.go, idempotence.go, recorder.go and the lists of
      platform.go. A [Runner] executes one command against a machine of any
      state type [K]; no proof assumes anything about what it does.
    - [Journal]: journal.go. A disk holds the file's whole lines and a possibly
      torn last one; every write can fail at any of its points.
    - [Apply]: apply.go. Apply, Teardown and Recover thread a [World]: machine,
      disk, open journal, and a trace of what ran and what was written.
      [ApplyCrash]: a journal entry precedes every change, at every crash point.
      [ApplyReplay]: the two passes of a replay, that a crash loses no inverse,
      and that the journal afterwards holds exactly what was not undone. [ApplyConverge]: a second Apply changes nothing; two limits of
      the journal.
    - [Facts], [Parse], [Detect]: facts.go, parse.go, detect.go and verify.go;
      [DetectFacts]: whatever a machine prints, the facts are well formed.
      [Desktop]: the detection and the readbacks of macOS and Windows
      (darwinnet_detect.go, darwinnet_proxy_detect.go, darwinnet_steps.go,
      winnet.go) and what a build of Windows can do (winversion.go): on a Mac a
      plan's hotspot is on a built-in radio that is not the uplink; the Windows
      inventory reads back as it was written.
    - [Subnet], [Plan], [PlanFacts]: subnet.go, plan.go, uplink.go. The planner
      is one pure function of the facts; a refusal is a value of [plan_error].
    - [Nft], [NftFacts]: nftables.go. The chains as data, printed to the text
      that is loaded and evaluated on a packet; golden files by their SHA-256.
    - [Steps], [StepsFacts]: route.go, darwinnet_steps.go, winnet.go,
      system_socks.go and the backend table.
    - [Frame]: what running commands leaves alone.
    - [SimKernel]: simulated_kernel.go, the machine the repository tests its
      steps against: on it the inverses of a Linux plan are true inverses.

    internal/hotspot:
    - [HotspotConf], [HotspotFacts]: apconfig.go, hostapd.go, dnsmasq.go,
      radio.go, plan.go and leases.go, the files read back as the daemons read
      them.
    - [Supervisor], [SupervisorFacts]: supervisor.go over the interface of
      system.go.
    - [InternetSharing], [SharingFacts]: internetsharing.go, the access point of
      macOS: the preferences file as text, read back by a strict reader of
      property lists into a dictionary given by arithmetic of its own, and the
      driver with a record of what it asked and saw.
    - [MobileHotspot]: mobilehotspot.go, the access point of Windows, over a
      helper program that reads and answers JSON.

    internal/engine: [Redact], [LogRing], [Engine], [EngineFacts]: redact.go,
    logring.go, engine.go and tundevice.go. xray-core is a class of the model.

    internal/snispoof: [Packet], [PacketFacts], [Decoy]: packet.go, ethernet.go
    and the handshake watcher of forwarder.go, a step relation in which packets,
    the injecting goroutine and the clean-up interleave. [Split], [Hello]:
    split.go and hello.go, against the layout of a ClientHello and of records
    written apart from the code. Every index into a packet is checked, so a panic is a
    value.

    internal/state: [State], [StateFacts]: the settings, their migrations and
    the file, over a disk with failures and power cuts. [Password]: password.go
    over an Argon2id of which it is assumed only that it returns as many bytes
    as asked for.

    internal/link and internal/xcfg: [Link], [LinkFacts], [LinkDoc]; [Xcfg],
    [XcfgFacts], [XcfgDoc]. The vendored share-link parser and the engine's
    config structs are the class [Conf]. The engine's router is the class
    [Router]: what build.go says of its rules is the class [RouterDocumented],
    and the sources contradict each other on whether a rule that states no
    network takes UDP, so the theorems hold for either answer.

    internal/privsvc:
    - [Privsvc], [Service]: requests and refusals; start.go, cut.go,
      readback.go, service.go. Start, Stop, Cut, Restore and the two halves of
      Recover hold the operation lock, so each is one function on the state;
      Status, Detect, Refresh and EngineLog do not, and are taken between them,
      one at a time, not while one runs. [ServiceFacts]: a lifecycle and its refinement.
      [ServiceDemo]: what is hashed of a request determines it; the measured
      machine, run from end to end.
    - [Diag], [Refresh]: diag.go and refresh.go.
    - [Wire], [WireFacts]: wire.go, peer.go, server.go, client.go, with the
      connections handled in turn; server.go has a goroutine for each.
    - [Assembly], [XcfgService]: the service with its engine, its
      supervisor, its links and its documents, through the classes it is
      written against.

    internal/panel:
    - [RateLimit], [Session], [Auth], [AuthFacts]: ratelimit.go, session.go,
      the route table, the gate and the handlers that sign in and out, requests
      served one at a time. Sessions are shared
      objects, so the store maps keys to references into a heap; the order in
      which Go ranges over a map is a parameter.
    - [Messages]: i18n.go and i18n_messages.go, every key and both catalogues.
    - [PanelView]: words.go, events.go, hotspot.go, subscription.go, listen.go,
      identifiers.go and view.go: what a page and the polled status say; and of
      cmd/caspian/serve_panel.go where the panel listens, look after look.
    - [Panel], [PanelFacts]: the private handlers of handlers.go and sni.go over
      the class [Privileged], which records the calls made of the service.
    - [Qr], [QrStream], [QrFacts]: the join code, against a strict reader
      written from the standard, with tables of blocks and alignment patterns
      of its own.

    ** What the theorems show

    Safety of the machine: every change is journalled before it happens and
    undone or kept for the next start, the firewall is loaded first and removed
    last, what it forwards is exactly tunnel traffic, and off means the engine,
    the access point and the changes of the network were each asked to go. Safety of the plan: the connection being shared is not given up.
    Safety of the tunnel: the document sends a client's traffic to the owner's
    server and a refresh stays inside it. Safety of the panel: a private page
    needs a session, guesses are bounded per time, nothing is started that was
    not checked, what is stored keeps its shape and, with a private subnet, is
    accepted on the other side of the socket, and no address it listens on can be
    reached from outside. The conditions of each (no torn last line of a journal,
    texts that are valid UTF-8, a directory that exists, and the like) are in its
    comment.
    Refinement: the service of its lifecycle, the socket of sessions of
    requests, the event ring of a history. Functional correctness of
    parsers, printers and packet builders, on every branch, with panics
    excluded. What modelling showed against the code is in lemmas beside the
    theorems, each named in the list of findings.

    ** Fuel and bounds

    Recursion is structural on the input wherever the source loops over one.
    Where it is not ([TrimSpace], integer printing, IPv6 text, the eviction loop
    of the limiter, the cuts of a split), fuel is the length of the input or the
    number of digits or fields the type can hold; the splitter and the limiter
    have it proved. The JSON reader has twice the length of the text and one;
    every value takes at least one byte per level. A migration has as many steps
    as there are versions, and is proved to end. Polling loops have the bounds
    of the source: 30 readings of a daemon that stops, 20 tries to bring one
    up, 400 readings of a tunnel device being released, 30 of the bridge of
    macOS and 40 of the hotspot of Windows. A refresh follows at most the redirects the policy allows. Machine
    integers are [Z] with their wrap-around written out where the code can reach
    it. Two sentences print a float (the time up, the gigabytes used): they are
    computed exactly, and the definitions say where that can differ.

    ** Not modelled

    The executors and sockets of each platform and the raw packet capture: they
    are system calls or programs behind the interfaces modelled here. The recorders of the
    tests: the proofs quantify over the machine instead. HTML templates and assets; the JSON of
    replies on the socket; operations of the service or requests of the panel that
    overlap in time; the command line but for where the panel listens. Error texts are kept only where
    code reads or shows them. Third-party code, Argon2id, the IDNA conversion
    and networksetup are parameters. *)

From stdpp Require Export base list gmap sets strings numbers sorting.
From Stdlib Require Export ZArith Lia.

(** ** Go's error convention

    A Go [error] is [nil] or a value whose [Error()] is a string. Where the
    code only tests for [nil] or reads the text, the model keeps
    [option string]; where the code distinguishes refusals, a component has an
    inductive type of its own and returns [res]. *)
Abbreviation error := (option string).

Inductive res (E A : Type) : Type :=
| Ok (a : A)
| Err (e : E).
Arguments Ok {E A} a.
Arguments Err {E A} e.

Declare Scope caspian_scope.
Delimit Scope caspian_scope with caspian.

Notation "'let?' x ':=' m 'in' k" :=
  (match m with Ok x => k | Err e => Err e end)
    (at level 10, x pattern, m at level 100, k at level 200) : caspian_scope.
Open Scope caspian_scope.

Definition is_ok {E A} (r : res E A) : bool :=
  match r with Ok _ => true | Err _ => false end.

(** ** Tactics shared by the components *)

(** Split the innermost [match]/[if] of the goal, keeping the equation. *)
Ltac destruct_match :=
  match goal with
  | |- context [match ?x with _ => _ end] =>
      lazymatch x with
      | context [match _ with _ => _ end] => fail
      | _ => let E := fresh "E" in destruct x eqn:E
      end
  end.

(** The same on a hypothesis. *)
Ltac destruct_match_in H :=
  match type of H with
  | context [match ?x with _ => _ end] =>
      lazymatch x with
      | context [match _ with _ => _ end] => fail
      | _ => let E := fresh "E" in destruct x eqn:E
      end
  end.

(** Turn boolean tests into the propositions they decide. *)
Ltac breflect :=
  repeat match goal with
  | H : _ && _ = true |- _ => apply andb_true_iff in H as [? ?]
  | H : _ || _ = false |- _ => apply orb_false_iff in H as [? ?]
  | H : negb _ = true |- _ => apply negb_true_iff in H
  | H : negb _ = false |- _ => apply negb_false_iff in H
  | H : (_ =? _)%Z = true |- _ => apply Z.eqb_eq in H
  | H : (_ =? _)%Z = false |- _ => apply Z.eqb_neq in H
  | H : (_ <? _)%Z = true |- _ => apply Z.ltb_lt in H
  | H : (_ <? _)%Z = false |- _ => apply Z.ltb_ge in H
  | H : (_ <=? _)%Z = true |- _ => apply Z.leb_le in H
  | H : (_ <=? _)%Z = false |- _ => apply Z.leb_gt in H
  | H : (_ =? _)%nat = true |- _ => apply Nat.eqb_eq in H
  | H : (_ =? _)%nat = false |- _ => apply Nat.eqb_neq in H
  | H : (_ <? _)%nat = true |- _ => apply Nat.ltb_lt in H
  | H : (_ <? _)%nat = false |- _ => apply Nat.ltb_ge in H
  | H : (_ <=? _)%nat = true |- _ => apply Nat.leb_le in H
  | H : (_ <=? _)%nat = false |- _ => apply Nat.leb_gt in H
  | H : bool_decide _ = true |- _ => apply bool_decide_eq_true in H
  | H : bool_decide _ = false |- _ => apply bool_decide_eq_false in H
  | H : (_ =? _)%string = true |- _ => apply String.eqb_eq in H
  | H : (_ =? _)%string = false |- _ => apply String.eqb_neq in H
  end.

Create HintDb caspian discriminated.

(** ** Lists *)

Section Lists.
Context {A B : Type}.
Implicit Types l : list A.

Lemma elem_of_rev x l : x ∈ rev l ↔ x ∈ l.
Proof. rewrite !list_elem_of_In. by rewrite <- in_rev. Qed.

Lemma elem_of_filterb (p : A → bool) x l : x ∈ List.filter p l ↔ x ∈ l ∧ p x = true.
Proof. by rewrite !list_elem_of_In, filter_In. Qed.

Lemma rev_Permutation l : rev l ≡ₚ l.
Proof. symmetry. apply Permutation_rev. Qed.

#[export] Instance filterb_Permutation (p : A → bool) :
  Proper ((≡ₚ) ==> (≡ₚ)) (List.filter p).
Proof.
  induction 1 as [|x l l' _ IH|x y l|l1 l2 l3 _ IH1 _ IH2]; simpl;
    repeat case_match; eauto using Permutation_swap; by rewrite ?IH, ?IH1.
Qed.

Lemma filterb_sublist (p : A → bool) l : sublist (List.filter p l) l.
Proof. induction l as [|a l IH]; simpl; [constructor|]. destruct (p a); by constructor. Qed.

(** Two filters that never both accept select disjoint parts of a list. *)
Lemma filterb_disjoint_submseteq (p q : A → bool) l :
  (∀ x, p x = true → q x = false) →
  List.filter p l ++ List.filter q l ⊆+ l.
Proof.
  intros Hpq. induction l as [|a l IH]; simpl; [done|]. destruct (p a) eqn:Ep; simpl.
  - rewrite (Hpq a Ep). by apply submseteq_skip.
  - destruct (q a); [|by apply submseteq_cons].
    rewrite <- Permutation_middle. by apply submseteq_skip.
Qed.

Lemma NoDup_fmap_submseteq (f : A → B) l1 l2 :
  l1 ⊆+ l2 → NoDup (f <$> l2) → NoDup (f <$> l1).
Proof.
  intros H Hd. apply submseteq_Permutation in H as [k H]. rewrite H, fmap_app in Hd.
  by apply NoDup_app in Hd as [? _].
Qed.

Lemma elem_of_submseteq' l1 l2 x : l1 ⊆+ l2 → x ∈ l1 → x ∈ l2.
Proof. intros H Hx. eapply elem_of_submseteq; eauto. Qed.

End Lists.

Create Rewrite HintDb elems.
#[export] Hint Rewrite @elem_of_rev @elem_of_filterb @elem_of_app @elem_of_cons : elems.
