(* ===== verification/GoStrings.v ===== *)
(** * Go strings

    The functions of Go's [strings] package the modelled code calls, over the
    Standard Library's [string] (one [ascii] per byte, as a Go string is a
    byte sequence). [ToLower] maps the ASCII letters: the modelled callers
    compare against ASCII markers and names only. *)

From S2P Require Import Prelude.
From Stdlib Require Export Ascii.
From Stdlib Require Import String.

Local Open Scope string_scope.

(** strings.HasPrefix *)
Definition HasPrefix (s p : string) : bool := String.prefix p s.

(** strings.Contains *)
Fixpoint Contains (s m : string) : bool :=
  String.prefix m s ||
  match s with
  | EmptyString => false
  | String _ s' => Contains s' m
  end.

Definition lower_ascii (c : ascii) : ascii :=
  let n := nat_of_ascii c in
  if (65 <=? n)%nat && (n <=? 90)%nat then ascii_of_nat (n + 32) else c.

(** strings.ToLower *)
Fixpoint ToLower (s : string) : string :=
  match s with
  | EmptyString => EmptyString
  | String c s' => String (lower_ascii c) (ToLower s')
  end.

(** The code points [unicode.IsSpace] accepts, in UTF-8. *)
Definition spaces : list (list ascii) :=
  List.map (List.map ascii_of_nat) (List.concat
    [List.map (fun n => [n]) [9; 10; 11; 12; 13; 32];
     [[194; 133]; [194; 160]; [225; 154; 128]];
     List.map (fun n => [226; 128; n]) (seq 128 11);
     List.map (fun n => [226; 128; n]) [168; 169; 175];
     [[226; 129; 159]; [227; 128; 128]]])%nat.

(** [l] without one of [ps] in front, if it starts with one. *)
Fixpoint strip_one (ps : list (list ascii)) (l : list ascii) : option (list ascii) :=
  match ps with
  | [] => None
  | p :: ps => if decide (p `prefix_of` l) then Some (drop (List.length p) l) else strip_one ps l
  end.

(** Each round removes at least one byte. *)
Fixpoint strip_all (fuel : nat) (ps : list (list ascii)) (l : list ascii) : list ascii :=
  match fuel, strip_one ps l with
  | S f, Some l' => strip_all f ps l'
  | _, _ => l
  end.

(** strings.TrimSpace *)
Definition TrimSpace (s : string) : string :=
  let l := list_ascii_of_string s in
  let l := strip_all (List.length l) spaces l in
  string_of_list_ascii (rev (strip_all (List.length l) (List.map (@rev ascii) spaces) (rev l))).

(** strings.Join *)
Definition Join (l : list string) (sep : string) : string := String.concat sep l.

(** strings.Split by a one-byte separator: never the empty list. *)
Fixpoint split_ascii (c : ascii) (l : list ascii) : list (list ascii) :=
  match l with
  | [] => [[]]
  | a :: l' =>
      if Ascii.eqb a c then [] :: split_ascii c l'
      else match split_ascii c l' with
           | w :: ws => (a :: w) :: ws
           | [] => [[a]]
           end
  end.

Definition Split (s : string) (c : ascii) : list string :=
  string_of_list_ascii <$> split_ascii c (list_ascii_of_string s).

(** Decimal rendering: [strconv.Itoa] for a non-negative value, [%d]. *)
Fixpoint digits_fuel (fuel : nat) (n : N) (acc : string) : string :=
  match fuel with
  | O => acc
  | S f =>
      let d := String (ascii_of_N (48 + n mod 10)) acc in
      if (n / 10 =? 0)%N then d else digits_fuel f (n / 10) d
  end.

Definition Itoa (z : Z) : string :=
  let n := Z.abs_N z in
  let body := digits_fuel (S (N.to_nat (N.log2 n))) n "" in
  if (z <? 0)%Z then String "-" body else body.

Example Itoa_ex : Itoa 65535 = "65535" /\ Itoa 0 = "0" /\ Itoa (-7) = "-7".
Proof. repeat split; reflexivity. Qed.

(** The double quote, and [%q] over ASCII text. *)
Definition dquote : ascii := "034"%char.

Definition hex_char (n : nat) : ascii :=
  ascii_of_nat (if (n <? 10)%nat then 48 + n else 87 + n)%nat.

Definition quote_char (c : ascii) : string :=
  let n := nat_of_ascii c in
  if (n =? 34)%nat then String "\" (String dquote "")
  else if (n =? 92)%nat then "\\"
  else if (n =? 7)%nat then "\a"
  else if (n =? 8)%nat then "\b"
  else if (n =? 9)%nat then "\t"
  else if (n =? 10)%nat then "\n"
  else if (n =? 11)%nat then "\v"
  else if (n =? 12)%nat then "\f"
  else if (n =? 13)%nat then "\r"
  else if (n <? 32)%nat || (n =? 127)%nat then
    "\x" ++ String (hex_char (n / 16)) (String (hex_char (n mod 16)) "")
  else String c "".

Fixpoint quote_body (s : string) : string :=
  match s with
  | EmptyString => ""
  | String c s' => quote_char c ++ quote_body s'
  end.

Definition Quote (s : string) : string :=
  String dquote (quote_body s ++ String dquote "").

Lemma append_cons (c : ascii) (s t : string) : String c s ++ t = String c (s ++ t).
Proof. reflexivity. Qed.

Lemma append_nil_r (s : string) : s ++ "" = s.
Proof. induction s as [|c s IH]; [done|]. by rewrite append_cons, IH. Qed.

Lemma append_assoc (a b c : string) : (a ++ b) ++ c = a ++ b ++ c.
Proof. induction a as [|x a IH]; [done|]. by rewrite !append_cons, IH. Qed.

(** strings.TrimSuffix *)
Definition TrimSuffix (s t : string) : string :=
  let n := (String.length s - String.length t)%nat in
  if (String.length t <=? String.length s)%nat && (String.substring n (String.length t) s =? t)
  then String.substring 0 n s else s.

Example TrimSpace_ex : TrimSpace "  a b
" = "a b" /\ TrimSuffix "a.b." "." = "a.b" /\ TrimSuffix "a" "." = "a".
Proof. repeat split; vm_compute; reflexivity. Qed.

(** * UTF-8 (unicode/utf8)

    Runes of a byte sequence, as Go reads them: a byte that starts no
    well-formed sequence is a rune of its own, U+FFFD. *)

(** unicode/utf8: the width of the first rune of a text; a byte that starts no
    well-formed sequence is a rune of its own (U+FFFD). *)
Definition cont (lo hi : nat) (o : option ascii) : bool :=
  match o with
  | Some c => (lo <=? nat_of_ascii c)%nat && (nat_of_ascii c <=? hi)%nat
  | None => false
  end.

Definition rune_width (s : list ascii) : nat :=
  match s with
  | [] => 0
  | c :: s' =>
      let n := nat_of_ascii c in
      let b (lo hi : nat) := (lo <=? n)%nat && (n <=? hi)%nat in
      let c1 (lo hi : nat) := cont lo hi (s' !! 0%nat) in
      let c2 := cont 128 191 (s' !! 1%nat) in
      let c3 := cont 128 191 (s' !! 2%nat) in
      if b 194 223 && c1 128 191 then 2
      else if (b 224 224 && c1 160 191 || b 225 236 && c1 128 191
               || b 237 237 && c1 128 159 || b 238 239 && c1 128 191) && c2 then 3
      else if (b 240 240 && c1 144 191 || b 241 243 && c1 128 191
               || b 244 244 && c1 128 143) && c2 && c3 then 4
      else 1
  end%nat.

Fixpoint count_go (skip : nat) (s : list ascii) : nat :=
  match s with
  | [] => 0
  | _ :: s' => match skip with
               | S k => count_go k s'
               | O => S (count_go (rune_width s - 1) s')
               end
  end.

(** [len([]rune(v))] *)
Definition rune_count (s : list ascii) : nat := count_go 0 s.

(** utf8.ValidString *)
Fixpoint valid_go (skip : nat) (s : list ascii) : bool :=
  match s with
  | [] => true
  | c :: s' => match skip with
               | S k => valid_go k s'
               | O => ((nat_of_ascii c <? 128)%nat || (1 <? rune_width s)%nat) && valid_go (rune_width s - 1) s'
               end
  end.

Definition ValidString (s : string) : bool := valid_go 0 (String.list_ascii_of_string s).

Lemma count_go_le s : ∀ skip, (count_go skip s ≤ List.length s)%nat.
Proof.
  induction s as [|c s IH]; intros [|k]; simpl; [lia..| |].
  - apply le_n_S, IH.
  - etransitivity; [apply IH|lia].
Qed.
