(* ===== verification/StateError.v ===== *)
(** * State and error

    Go code that changes state and may return early with an error, as functions
    from a state to an outcome and a state: the state changed before an error
    stays changed. *)

From S2P Require Import Prelude.

Definition SE (S E A : Type) : Type := S → res E A * S.

Section Operations.
Context {S E : Type}.

Definition ret {A} (a : A) : SE S E A := λ s, (Ok a, s).
Definition bind {A B} (m : SE S E A) (f : A → SE S E B) : SE S E B := λ s,
  let '(r, s) := m s in
  match r with
  | Ok a => f a s
  | Err e => (Err e, s)
  end.
Definition raise {A} (e : E) : SE S E A := λ s, (Err e, s).
Definition lift_res {A} (r : res E A) : SE S E A := λ s, (r, s).
(** An error handled here: the operation goes on with the outcome as a value. *)
Definition attempt_ {A} (m : SE S E A) : SE S E (res E A) := λ s, let '(r, s) := m s in (Ok r, s).
Definition get : SE S E S := λ s, (Ok s, s).
Definition put (s : S) : SE S E unit := λ _, (Ok tt, s).
(** A loop over a list, stopped by the first error. *)
Fixpoint each {A} (f : A → SE S E unit) (l : list A) : SE S E unit :=
  match l with
  | [] => ret tt
  | a :: l => bind (f a) (λ _, each f l)
  end.

Lemma bind_ok {A B} (m : SE S E A) (f : A → SE S E B) s a s1 : m s = (Ok a, s1) → bind m f s = f a s1.
Proof. unfold bind. by intros ->. Qed.
Lemma attempt_eq {A} (m : SE S E A) s r s1 : m s = (r, s1) → attempt_ m s = (Ok r, s1).
Proof. unfold attempt_. by intros ->. Qed.
End Operations.

Declare Scope svc_scope.
Delimit Scope svc_scope with svc.
Notation "x '<--' m ';;' k" := (bind m (λ x, k)) (at level 100, m at next level, k at level 200, right associativity) : svc_scope.
Notation "m ';;;' k" := (bind m (λ _, k)) (at level 100, k at level 200, right associativity) : svc_scope.

(** ** Accounting for the state

    A relation between the states before and after that is reflexive and
    transitive holds across a program when each of its steps keeps it. *)
Section Keeps.
Context {S E : Type} (R : S → S → Prop) `{!Reflexive R} `{!Transitive R}.

Definition keeps {A} (m : SE S E A) : Prop := ∀ s, R s (m s).2.

Lemma keeps_pure {A} (m : SE S E A) : (∀ s, (m s).2 = s) → keeps m.
Proof. intros Hm s. by rewrite Hm. Qed.
Lemma keeps_ret {A} (a : A) : keeps (ret a).
Proof. by apply keeps_pure. Qed.
Lemma keeps_raise {A} e : keeps (raise (A := A) e).
Proof. by apply keeps_pure. Qed.
Lemma keeps_lift {A} (r : res E A) : keeps (lift_res r).
Proof. by apply keeps_pure. Qed.
Lemma keeps_get : keeps get.
Proof. by apply keeps_pure. Qed.
Lemma keeps_bind {A B} (m : SE S E A) (f : A → SE S E B) : keeps m → (∀ a, keeps (f a)) → keeps (bind m f).
Proof.
  intros Hm Hf s. unfold bind. specialize (Hm s). destruct (m s) as [[a|e] s1]; [|done]. etransitivity; [exact Hm|apply Hf].
Qed.
Lemma keeps_attempt {A} (m : SE S E A) : keeps m → keeps (attempt_ m).
Proof. intros Hm s. specialize (Hm s). unfold attempt_. by destruct (m s). Qed.
Lemma keeps_each {A} (f : A → SE S E unit) l : (∀ a, keeps (f a)) → keeps (each f l).
Proof. intros Hf. induction l as [|a l IH]; simpl; [apply keeps_ret|]. by apply keeps_bind. Qed.
End Keeps.

(** ** Triples

    From [P], the program ends in [Q] of its value, or raises in [F]. *)
Section Hoare.
Context {S E : Type}.

Definition hoare {A} (P : S → Prop) (m : SE S E A) (Q : A → S → Prop) (F : S → Prop) : Prop :=
  ∀ s, P s → match m s with (Ok a, s') => Q a s' | (Err _, s') => F s' end.

Lemma hoare_conseq {A} (P P' : S → Prop) (m : SE S E A) Q Q' (F F' : S → Prop) :
  hoare P' m Q' F' → (∀ s, P s → P' s) → (∀ a s, Q' a s → Q a s) → (∀ s, F' s → F s) → hoare P m Q F.
Proof. intros T HP HQ HF s Hs. specialize (T s (HP s Hs)). destruct (m s) as [[a|e] s']; auto. Qed.

Lemma hoare_bind {A B} P (m : SE S E A) R (f : A → SE S E B) Q F :
  hoare P m R F → (∀ a, hoare (R a) (f a) Q F) → hoare P (bind m f) Q F.
Proof. intros Hm Hf s Hs. specialize (Hm s Hs). unfold bind. destruct (m s) as [[a|e] s']; [|done]. by apply Hf. Qed.

Lemma hoare_ret {A} (P : S → Prop) (a : A) Q F : (∀ s, P s → Q a s) → hoare P (ret a) Q F.
Proof. intros HQ s Hs. simpl. auto. Qed.

Lemma hoare_raise {A} (P F : S → Prop) e (Q : A → S → Prop) : (∀ s, P s → F s) → hoare P (raise e) Q F.
Proof. intros HF s Hs. simpl. auto. Qed.

Lemma hoare_lift {A} (P F : S → Prop) (r : res E A) : (∀ s, P s → F s) → hoare P (lift_res r) (λ _, P) F.
Proof. intros HF s Hs. unfold lift_res. destruct r; auto. Qed.

Lemma hoare_get (P F : S → Prop) : hoare P get (λ _, P) F.
Proof. by intros s Hs. Qed.

Lemma hoare_attempt {A} P (m : SE S E A) Q F (R : res E A → S → Prop) G :
  hoare P m Q F → (∀ a s, Q a s → R (Ok a) s) → (∀ e s, F s → R (Err e) s) → hoare P (attempt_ m) R G.
Proof. intros T HQ HF s Hs. specialize (T s Hs). unfold attempt_. destruct (m s) as [[a|e] s']; auto. Qed.
End Hoare.

(** The steps of a particular development. *)
Create HintDb keeps discriminated.

(** Take a program apart, splitting on what it inspects. *)
Ltac keeps_step :=
  first
    [ solve [auto with keeps]
    | apply keeps_ret; [apply _..]
    | apply keeps_raise; [apply _..]
    | apply keeps_lift; [apply _..]
    | apply keeps_get; [apply _..]
    | apply keeps_attempt
    | apply keeps_each; [apply _..|intros ?]
    | apply keeps_bind; [apply _..| |intros ?]
    | match goal with
      | |- keeps _ (match ?x with _ => _ end) => destruct x
      end ].

(** ** Programs that never raise *)
Section Quiet.
Context {S E : Type}.

Definition quiet {A} (m : SE S E A) : Prop := ∀ s, ∃ a s', m s = (Ok a, s').

Lemma quiet_ret {A} (a : A) : quiet (ret a).
Proof. intros s. by exists a, s. Qed.
Lemma quiet_get : quiet get.
Proof. intros s. by exists s, s. Qed.
Lemma quiet_attempt {A} (m : SE S E A) : quiet (attempt_ m).
Proof. intros s. unfold attempt_. destruct (m s) as [r s']. by exists r, s'. Qed.
Lemma quiet_bind {A B} (m : SE S E A) (f : A → SE S E B) : quiet m → (∀ a, quiet (f a)) → quiet (bind m f).
Proof. intros Hm Hf s. destruct (Hm s) as (a & s1 & E1). rewrite (bind_ok _ _ _ _ _ E1). apply Hf. Qed.
End Quiet.

Create HintDb quiet discriminated.

Ltac quiet_step :=
  first
    [ solve [auto with quiet]
    | apply quiet_ret
    | apply quiet_get
    | apply quiet_attempt
    | apply quiet_bind; [|intros ?]
    | match goal with
      | |- quiet (match ?x with _ => _ end) => destruct x
      end ].
