(* ===== verification/Bytes.v ===== *)
(** * Byte slices

    A Go [[]byte] is a list of integers in [0, 256). Indexing and slicing out
    of range panics in Go: reads are in the option monad, [None] being the
    panic, so that "never panics" is a theorem about each function. Go's slice
    expression allows the upper bound to reach the capacity; [slice] refuses it
    already above the length, which is stricter. *)

From S2P Require Import Prelude.

Local Open Scope Z_scope.

Definition byte_ok (b : Z) : Prop := 0 ≤ b < 256.
Definition bytes_ok (l : list Z) : Prop := Forall byte_ok l.

Definition u8 (z : Z) : Z := z mod 2 ^ 8.
Definition u16 (z : Z) : Z := z mod 2 ^ 16.
Definition u32 (z : Z) : Z := z mod 2 ^ 32.

(** [b[lo:hi]] *)
Definition slice (b : list Z) (lo hi : nat) : option (list Z) :=
  if (lo <=? hi)%nat && (hi <=? length b)%nat then Some (take (hi - lo) (drop lo b)) else None.

(** binary.BigEndian.Uint16 and Uint32, of a slice that starts at [i]. *)
Definition Uint16 (b : list Z) (i : nat) : option Z :=
  x ← b !! i; y ← b !! (i + 1)%nat; Some (256 * x + y).

Definition Uint32 (b : list Z) (i : nat) : option Z :=
  x ← Uint16 b i; y ← Uint16 b (i + 2); Some (65536 * x + y).

(** binary.BigEndian.AppendUint16 *)
Definition AppendUint16 (b : list Z) (v : Z) : list Z := b ++ [u16 v / 256; v mod 256].

(** binary.BigEndian.PutUint16 and PutUint32 at offset [i] *)
Definition PutUint16 (b : list Z) (i : nat) (v : Z) : option (list Z) :=
  if (i + 2 <=? length b)%nat
  then Some (<[i := u16 v / 256]> (<[(i + 1)%nat := v mod 256]> b)) else None.

Definition PutUint32 (b : list Z) (i : nat) (v : Z) : option (list Z) :=
  b ← PutUint16 b i (u32 v / 65536); PutUint16 b (i + 2) v.

(** [b[i] = v] *)
Definition set_byte (b : list Z) (i : nat) (v : Z) : option (list Z) :=
  if (i <? length b)%nat then Some (<[i := v]> b) else None.

(** ** Lemmas *)

Lemma slice_spec b lo hi l :
  slice b lo hi = Some l ↔ (lo ≤ hi ≤ length b)%nat ∧ l = take (hi - lo) (drop lo b).
Proof.
  unfold slice. destruct (_ && _) eqn:E.
  - breflect. split; [intros [= <-]; auto|by intros [_ ->]].
  - apply andb_false_iff in E. split; [done|]. intros [[? ?] _]. destruct E; breflect; lia.
Qed.

Lemma slice_is_Some b lo hi : (lo ≤ hi ≤ length b)%nat → slice b lo hi = Some (take (hi - lo) (drop lo b)).
Proof. intros. by apply slice_spec. Qed.

Lemma Uint16_is_Some b i : (i + 1 < length b)%nat → is_Some (Uint16 b i).
Proof.
  intros H. unfold Uint16.
  destruct (lookup_lt_is_Some_2 b i) as [x ->]; [lia|].
  destruct (lookup_lt_is_Some_2 b (i + 1)) as [y ->]; [lia|]. simpl. eauto.
Qed.

Lemma Uint32_is_Some b i : (i + 3 < length b)%nat → is_Some (Uint32 b i).
Proof.
  intros H. unfold Uint32.
  destruct (Uint16_is_Some b i) as [x ->]; [lia|].
  destruct (Uint16_is_Some b (i + 2)) as [y ->]; [lia|]. simpl. eauto.
Qed.

Lemma bytes_ok_lookup l i x : bytes_ok l → l !! i = Some x → 0 ≤ x < 256.
Proof. intros H Hi. by apply (Forall_lookup_1 _ _ _ _ H Hi). Qed.

Lemma Uint16_bound b i v : bytes_ok b → Uint16 b i = Some v → 0 ≤ v < 65536.
Proof.
  intros Hb. unfold Uint16. destruct (b !! i) as [x|] eqn:Ex; [|done].
  destruct (b !! (i + 1)%nat) as [y|] eqn:Ey; [|done]. intros [= <-].
  pose proof (bytes_ok_lookup _ _ _ Hb Ex). pose proof (bytes_ok_lookup _ _ _ Hb Ey). lia.
Qed.

Lemma Uint32_bound b i v : bytes_ok b → Uint32 b i = Some v → 0 ≤ v < 2 ^ 32.
Proof.
  intros Hb. unfold Uint32. destruct (Uint16 b i) as [x|] eqn:Ex; [|done].
  destruct (Uint16 b (i + 2)) as [y|] eqn:Ey; [|done]. intros [= <-].
  pose proof (Uint16_bound _ _ _ Hb Ex). pose proof (Uint16_bound _ _ _ Hb Ey). lia.
Qed.

Lemma PutUint16_spec b i v b' :
  PutUint16 b i v = Some b' ↔
  (i + 2 ≤ length b)%nat ∧ b' = <[i := u16 v / 256]> (<[(i + 1)%nat := v mod 256]> b).
Proof.
  unfold PutUint16. destruct (_ <=? _)%nat eqn:E; breflect; split.
  - by intros [= <-].
  - by intros [_ ->].
  - done.
  - intros [? _]. lia.
Qed.

Lemma PutUint16_length b i v b' : PutUint16 b i v = Some b' → length b' = length b.
Proof. intros [_ ->]%PutUint16_spec. by rewrite !length_insert. Qed.

Lemma u16_split v : 256 * (u16 v / 256) + v mod 256 = u16 v.
Proof.
  unfold u16. rewrite (Z.div_mod (v mod 2 ^ 16) 256) at 2 by lia. f_equal.
  symmetry. apply Z.mod_mod_divide. by exists 256.
Qed.

Lemma PutUint16_same b i v b' : PutUint16 b i v = Some b' → Uint16 b' i = Some (u16 v).
Proof.
  intros [Hl ->]%PutUint16_spec. unfold Uint16.
  rewrite list_lookup_insert_eq by (rewrite length_insert; lia).
  rewrite list_lookup_insert_ne, list_lookup_insert_eq by lia. simpl. by rewrite u16_split.
Qed.

Lemma PutUint16_other b i v b' j :
  PutUint16 b i v = Some b' → (j < i ∨ i + 1 < j)%nat → b' !! j = b !! j.
Proof. intros [Hl ->]%PutUint16_spec Hj. rewrite !list_lookup_insert_ne by lia. done. Qed.

Lemma Uint16_ext b b' i :
  b' !! i = b !! i → b' !! (i + 1)%nat = b !! (i + 1)%nat → Uint16 b' i = Uint16 b i.
Proof. unfold Uint16. by intros -> ->. Qed.

Lemma u32_idemp v : u32 (u32 v) = u32 v.
Proof. by apply Z.mod_mod. Qed.

Lemma u32_bound v : 0 ≤ u32 v < 2 ^ 32.
Proof. by apply Z.mod_pos_bound. Qed.

Lemma u16_small v : 0 ≤ v < 65536 → u16 v = v.
Proof. apply Z.mod_small. Qed.

Lemma u8_bounds v : byte_ok (v mod 256).
Proof. apply Z.mod_pos_bound. lia. Qed.

Lemma u16_hi_bounds v : byte_ok (u16 v / 256).
Proof.
  unfold byte_ok, u16. pose proof (Z.mod_pos_bound v (2 ^ 16) ltac:(lia)).
  split; [apply Z.div_pos; lia|apply Z.div_lt_upper_bound; lia].
Qed.

Lemma bytes_ok_insert b i v : bytes_ok b → byte_ok v → bytes_ok (<[i := v]> b).
Proof. intros Hb Hv. by apply Forall_insert. Qed.

Lemma PutUint16_ok b i v b' : PutUint16 b i v = Some b' → bytes_ok b → bytes_ok b'.
Proof. intros [_ ->]%PutUint16_spec Hb. auto using bytes_ok_insert, u8_bounds, u16_hi_bounds. Qed.

Lemma PutUint16_is_Some b i v : (i + 2 ≤ length b)%nat → is_Some (PutUint16 b i v).
Proof. intros H. eexists. by apply PutUint16_spec. Qed.

Lemma Uint16_put_other b i v b' j :
  PutUint16 b i v = Some b' → (j + 1 < i ∨ i + 1 < j)%nat → Uint16 b' j = Uint16 b j.
Proof. intros H Hj. apply Uint16_ext; apply (PutUint16_other _ _ _ _ _ H); lia. Qed.

(** ** Views: a write inside a slice is a write to the slice *)

Lemma set_byte_spec b i v b' : set_byte b i v = Some b' ↔ (i < length b)%nat ∧ b' = <[i := v]> b.
Proof.
  unfold set_byte. destruct (_ <? _)%nat eqn:E; breflect; split.
  - by intros [= <-].
  - by intros [_ ->].
  - done.
  - intros [? _]. lia.
Qed.

(** Clearing two neighbouring bytes is writing a zero word. *)
Lemma clear_word b i : (b ← set_byte b i 0; set_byte b (S i) 0) = PutUint16 b i 0.
Proof.
  unfold set_byte, PutUint16. change (u16 0 / 256) with 0. change (0 mod 256) with 0.
  destruct (i <? length b)%nat eqn:E; simpl; breflect.
  - rewrite length_insert. destruct (S i <? length b)%nat eqn:E2; breflect.
    + rewrite (proj2 (Nat.leb_le _ _)) by lia. rewrite list_insert_insert_ne by lia.
      by rewrite Nat.add_1_r.
    + by rewrite (proj2 (Nat.leb_gt _ _)) by lia.
  - by rewrite (proj2 (Nat.leb_gt _ _)) by lia.
Qed.

Lemma lookup_slice b lo hi l i :
  slice b lo hi = Some l → (i < hi - lo)%nat → l !! i = b !! (lo + i)%nat.
Proof. intros [_ ->]%slice_spec Hi. by rewrite lookup_take_lt, lookup_drop. Qed.

Lemma slice_length b lo hi l :
  slice b lo hi = Some l → length l = (hi - lo)%nat ∧ (lo ≤ hi ≤ length b)%nat.
Proof. intros [? ->]%slice_spec. rewrite length_take, length_drop. lia. Qed.

Lemma slice_ok b lo hi l : slice b lo hi = Some l → bytes_ok b → bytes_ok l.
Proof. intros [_ ->]%slice_spec Hb. by apply Forall_take, Forall_drop. Qed.

Lemma slice_ext b b' lo hi :
  length b = length b' → (∀ j, (lo ≤ j < hi)%nat → b' !! j = b !! j) → slice b' lo hi = slice b lo hi.
Proof.
  intros Hl Hj. unfold slice. rewrite Hl. destruct (_ && _) eqn:E; [|done]. breflect. f_equal.
  apply list_eq. intros i. destruct (decide (i < hi - lo)%nat).
  - rewrite !lookup_take_lt, !lookup_drop by lia. apply Hj. lia.
  - by rewrite !lookup_take_ge by lia.
Qed.

Lemma slice_put b lo hi l i v b' l' :
  slice b lo hi = Some l → PutUint16 b (lo + i) v = Some b' → PutUint16 l i v = Some l' →
  slice b' lo hi = Some l'.
Proof.
  intros Hs Hb Hl. pose proof (slice_length _ _ _ _ Hs) as [Hlen Hbnd].
  pose proof (PutUint16_length _ _ _ _ Hb). apply PutUint16_spec in Hb as [? ->], Hl as [? ->].
  apply slice_spec. split; [by rewrite !length_insert in *; lia|].
  apply slice_spec in Hs as [_ ->]. apply list_eq. intros j.
  destruct (decide (j < hi - lo)%nat) as [Hj|Hj].
  - rewrite (lookup_take_lt (drop _ (<[_ := _]> _))), lookup_drop by lia.
    destruct (decide (j = i)) as [->|]; [|destruct (decide (j = i + 1)%nat) as [->|]].
    + rewrite !list_lookup_insert_eq by (rewrite ?length_insert; lia). done.
    + rewrite !list_lookup_insert_ne by lia. rewrite Nat.add_assoc, list_lookup_insert_eq by lia.
      by rewrite list_lookup_insert_ne, list_lookup_insert_eq by lia.
    + rewrite !list_lookup_insert_ne by lia. by rewrite lookup_take_lt, lookup_drop.
  - rewrite (lookup_take_ge (drop _ (<[_ := _]> _))) by lia. apply lookup_ge_None_2.
    rewrite !length_insert. lia.
Qed.

Lemma lor_byte x y : byte_ok x → byte_ok y → byte_ok (Z.lor x y).
Proof.
  unfold byte_ok. intros Hx Hy. assert (0 ≤ Z.lor x y) by (apply Z.lor_nonneg; lia).
  split; [done|]. destruct (decide (Z.lor x y = 0)) as [->|Hn]; [lia|].
  change 256 with (2 ^ 8). apply Z.log2_lt_pow2; [lia|]. rewrite Z.log2_lor by lia.
  assert (∀ z, 0 ≤ z < 256 → Z.log2 z < 8) as Hz.
  { intros z Hz. destruct (decide (z = 0)) as [->|]; [done|]. apply Z.log2_lt_pow2; lia. }
  apply Z.max_lub_lt; by apply Hz.
Qed.

#[export] Hint Resolve u8_bounds u16_hi_bounds bytes_ok_insert : caspian.
