(* ===== verification/Base64.v ===== *)
(** * Unpadded base64 (encoding/base64, RawURLEncoding and RawStdEncoding.Strict)

    Encoding and strict decoding over an alphabet of 64 characters; decoding an
    encoding gives the bytes back. *)

From S2P Require Import Prelude GoStrings Bytes.

Local Open Scope Z_scope.

Definition url_alphabet : list ascii :=
  String.list_ascii_of_string "ABCDEFGHIJKLMNOPQRSTUVWXYZabcdefghijklmnopqrstuvwxyz0123456789-_".
Definition std_alphabet : list ascii :=
  String.list_ascii_of_string "ABCDEFGHIJKLMNOPQRSTUVWXYZabcdefghijklmnopqrstuvwxyz0123456789+/".

Section Codec.
Context (alphabet : list ascii).

Definition b64_char (n : Z) : ascii := nth (Z.to_nat n) alphabet "A"%char.

Fixpoint b64_encode (l : list Z) : list ascii :=
  match l with
  | a :: b :: c :: l =>
      b64_char (Z.shiftr a 2) :: b64_char (Z.lor (Z.shiftl (Z.land a 3) 4) (Z.shiftr b 4)) ::
      b64_char (Z.lor (Z.shiftl (Z.land b 15) 2) (Z.shiftr c 6)) :: b64_char (Z.land c 63) :: b64_encode l
  | [a; b] =>
      [b64_char (Z.shiftr a 2); b64_char (Z.lor (Z.shiftl (Z.land a 3) 4) (Z.shiftr b 4));
       b64_char (Z.shiftl (Z.land b 15) 2)]
  | [a] => [b64_char (Z.shiftr a 2); b64_char (Z.shiftl (Z.land a 3) 4)]
  | [] => []
  end.

Definition b64_index (c : ascii) : option Z :=
  match list_find (eq c) alphabet with Some (i, _) => Some (Z.of_nat i) | None => None end.

(** Four sextets make three bytes; two or three at the end make one or two, and
    strict decoding wants their spare bits to be zero. *)
Fixpoint b64_sextets (l : list Z) : option (list Z) :=
  match l with
  | i :: j :: k :: m :: l =>
      r ← b64_sextets l;
      Some (i * 4 + j / 16 :: j mod 16 * 16 + k / 4 :: k mod 4 * 64 + m :: r)
  | [i; j; k] => if k mod 4 =? 0 then Some [i * 4 + j / 16; j mod 16 * 16 + k / 4] else None
  | [i; j] => if j mod 16 =? 0 then Some [i * 4 + j / 16] else None
  | [_] => None
  | [] => Some []
  end.

(** The decoder skips line ends. *)
Definition line_end (c : ascii) : bool := Ascii.eqb c "010" || Ascii.eqb c "013".

Definition b64_decode (l : list ascii) : option (list Z) :=
  idx ← mapM b64_index (List.filter (λ c, negb (line_end c)) l); b64_sextets idx.

(** ** Decoding inverts encoding *)

Context (index_char : ∀ n, 0 ≤ n < 64 → b64_index (b64_char n) = Some n).
Context (no_line_end : ∀ n, 0 ≤ n < 64 → line_end (b64_char n) = false).

Lemma lor_shiftl_add x y n : 0 ≤ n → 0 ≤ y < 2 ^ n → Z.lor (Z.shiftl x n) y = x * 2 ^ n + y.
Proof.
  intros Hn Hy.
  assert (Hd : Z.land (Z.shiftl x n) y = 0).
  { apply Z.bits_inj. intros i. rewrite Z.land_spec, Z.bits_0.
    destruct (decide (i < n)) as [Hi|Hi]; [by rewrite Z.shiftl_spec_low|].
    rewrite (proj1 (Z.bounded_iff_bits_nonneg n y ltac:(lia) ltac:(lia))) by lia. apply andb_false_r. }
  rewrite <- Z.shiftl_mul_pow2 by done. by rewrite Z.add_nocarry_lxor, Z.lxor_lor.
Qed.

(** The sextets of three bytes, in arithmetic. *)
Lemma sextets a b c :
  byte_ok a → byte_ok b → byte_ok c →
  Z.shiftr a 2 = a / 4 ∧ Z.lor (Z.shiftl (Z.land a 3) 4) (Z.shiftr b 4) = a mod 4 * 16 + b / 16 ∧
  Z.lor (Z.shiftl (Z.land b 15) 2) (Z.shiftr c 6) = b mod 16 * 4 + c / 64 ∧ Z.land c 63 = c mod 64 ∧
  Z.shiftl (Z.land a 3) 4 = a mod 4 * 16 ∧ Z.shiftl (Z.land b 15) 2 = b mod 16 * 4.
Proof.
  unfold byte_ok. intros Ha Hb Hc.
  change 3 with (Z.ones 2). change 15 with (Z.ones 4). change 63 with (Z.ones 6).
  rewrite !Z.shiftr_div_pow2, !Z.land_ones by done. change (2 ^ 2) with 4. change (2 ^ 4) with 16. change (2 ^ 6) with 64.
  split; [done|]. split; [|split; [|split; [done|by rewrite !Z.shiftl_mul_pow2]]];
    (apply lor_shiftl_add; [done|]; split; [apply Z.div_pos; lia|apply Z.div_lt_upper_bound; lia]).
Qed.

Ltac byte_digits :=
  repeat match goal with
  | H : byte_ok ?a |- _ =>
      unfold byte_ok in H; pose proof (Z.div_mod a 4 ltac:(lia)); pose proof (Z.mod_pos_bound a 4 ltac:(lia));
      pose proof (Z.div_mod a 16 ltac:(lia)); pose proof (Z.mod_pos_bound a 16 ltac:(lia));
      pose proof (Z.div_mod a 64 ltac:(lia)); pose proof (Z.mod_pos_bound a 64 ltac:(lia))
  end.

Lemma triples_ind (P : list Z → Prop) :
  P [] → (∀ a, P [a]) → (∀ a b, P [a; b]) → (∀ a b c l, P l → P (a :: b :: c :: l)) → ∀ l, P l.
Proof.
  intros H0 H1 H2 H3 l. assert (H : P l ∧ (∀ a, P (a :: l)) ∧ (∀ a b, P (a :: b :: l))); [|by destruct H].
  induction l as [|x l (IH1 & IH2 & IH3)]; split_and!; auto.
Qed.

(** The numbers of the characters [b64_encode] writes. *)
Fixpoint sextets_of (l : list Z) : list Z :=
  match l with
  | a :: b :: c :: l => a / 4 :: a mod 4 * 16 + b / 16 :: b mod 16 * 4 + c / 64 :: c mod 64 :: sextets_of l
  | [a; b] => [a / 4; a mod 4 * 16 + b / 16; b mod 16 * 4]
  | [a] => [a / 4; a mod 4 * 16]
  | [] => []
  end.

Lemma encode_sextets l : bytes_ok l →
  b64_encode l = b64_char <$> sextets_of l ∧ Forall (λ n, 0 ≤ n < 64) (sextets_of l).
Proof.
  induction l as [|a|a b|a b c l IH] using triples_ind; intros Hl; [by split| | |];
    apply Forall_cons in Hl as [Ha Hl]; try (apply Forall_cons in Hl as [Hb Hl]);
    try (apply Forall_cons in Hl as [Hc Hl]).
  - destruct (sextets a a a Ha Ha Ha) as (S1 & _ & _ & _ & S5 & _). simpl. rewrite S1, S5.
    byte_digits. split; [done|]. repeat constructor; lia.
  - destruct (sextets a b b Ha Hb Hb) as (S1 & S2 & _ & _ & _ & S6). simpl. rewrite S1, S2, S6.
    byte_digits. split; [done|]. repeat constructor; lia.
  - destruct (sextets a b c Ha Hb Hc) as (S1 & S2 & S3 & S4 & _). destruct (IH Hl) as [E F].
    cbn [b64_encode sextets_of fmap list_fmap]. rewrite S1, S2, S3, S4, E. byte_digits.
    split; [done|]. repeat (constructor; [lia|]). done.
Qed.

Lemma mod_add_mul x y k : 0 < k → 0 ≤ y < k → (x * k + y) mod k = y ∧ (x * k + y) / k = x.
Proof.
  intros Hk Hy. rewrite Z.add_comm, Z.mod_add, Z.div_add, Z.mod_small, Z.div_small by lia. lia.
Qed.

Lemma sextets_inverse l : bytes_ok l → b64_sextets (sextets_of l) = Some l.
Proof.
  induction l as [|a|a b|a b c l IH] using triples_ind; intros Hl; [done| | |];
    apply Forall_cons in Hl as [Ha Hl]; try (apply Forall_cons in Hl as [Hb Hl]);
    try (apply Forall_cons in Hl as [Hc Hl]); byte_digits; cbn [sextets_of b64_sextets].
  - rewrite Z.mod_mul, Z.div_mul by lia. simpl. do 2 f_equal. lia.
  - destruct (mod_add_mul (a mod 4) (b / 16) 16) as [-> ->]; [lia..|].
    rewrite Z.mod_mul, Z.div_mul by lia. simpl. repeat f_equal; lia.
  - destruct (mod_add_mul (a mod 4) (b / 16) 16) as [-> ->]; [lia..|].
    destruct (mod_add_mul (b mod 16) (c / 64) 4) as [-> ->]; [lia..|].
    rewrite (IH Hl). simpl. repeat f_equal; lia.
Qed.

Lemma b64_decode_encode l : bytes_ok l → b64_decode (b64_encode l) = Some l.
Proof.
  intros Hl. destruct (encode_sextets l Hl) as [-> HF]. unfold b64_decode.
  assert (E : mapM b64_index (List.filter (λ c, negb (line_end c)) (b64_char <$> sextets_of l)) = Some (sextets_of l)).
  { induction HF as [|n s Hn _ IH]; [done|]. rewrite fmap_cons. cbn [List.filter]. rewrite no_line_end by done.
    cbn [negb mapM]. rewrite index_char by done. cbn [mbind option_bind]. by rewrite IH. }
  rewrite E. by apply sextets_inverse.
Qed.

Lemma b64_encode_inj l l' : bytes_ok l → bytes_ok l' → b64_encode l = b64_encode l' → l = l'.
Proof.
  intros Hl Hl' E. apply b64_decode_encode in Hl, Hl'. rewrite E in Hl. congruence.
Qed.

(** The characters written belong to the alphabet. *)
Lemma b64_encode_chars l c : bytes_ok l → c ∈ b64_encode l → ∃ n, 0 ≤ n < 64 ∧ c = b64_char n.
Proof.
  intros Hl. destruct (encode_sextets l Hl) as [-> HF]. intros (n & -> & Hn)%list_elem_of_fmap.
  exists n. split; [|done]. by apply (Forall_forall (λ n, 0 ≤ n < 64) (sextets_of l)).
Qed.

End Codec.

(** ** The two alphabets qualify *)

Definition alphabet_ok (al : list ascii) : bool :=
  forallb (λ n, bool_decide (b64_index al (b64_char al n) = Some n) && negb (line_end (b64_char al n))) (seqZ 0 64).

Lemma alphabet_ok_spec al : alphabet_ok al = true → ∀ n, 0 ≤ n < 64 →
  b64_index al (b64_char al n) = Some n ∧ line_end (b64_char al n) = false.
Proof.
  unfold alphabet_ok. rewrite forallb_forall. intros H n Hn.
  specialize (H n). rewrite <- list_elem_of_In, elem_of_seqZ in H. specialize (H ltac:(lia)). by breflect.
Qed.

Lemma url_ok : alphabet_ok url_alphabet = true.
Proof. vm_compute. reflexivity. Qed.

Lemma std_ok : alphabet_ok std_alphabet = true.
Proof. vm_compute. reflexivity. Qed.

Lemma url_encode_inj l l' :
  bytes_ok l → bytes_ok l' → b64_encode url_alphabet l = b64_encode url_alphabet l' → l = l'.
Proof. apply b64_encode_inj; intros n Hn; by destruct (alphabet_ok_spec _ url_ok n Hn). Qed.

Lemma std_decode_encode l : bytes_ok l → b64_decode std_alphabet (b64_encode std_alphabet l) = Some l.
Proof. apply b64_decode_encode; intros n Hn; by destruct (alphabet_ok_spec _ std_ok n Hn). Qed.

(** ** With padding (StdEncoding), as encoding/json writes a []byte *)

(** Without Strict the spare bits may be anything. *)
Fixpoint lax_sextets (l : list Z) : option (list Z) :=
  match l with
  | i :: j :: k :: m :: l =>
      r ← lax_sextets l;
      Some (i * 4 + j / 16 :: j mod 16 * 16 + k / 4 :: k mod 4 * 64 + m :: r)
  | [i; j; k] => Some [i * 4 + j / 16; j mod 16 * 16 + k / 4]
  | [i; j] => Some [i * 4 + j / 16]
  | [_] => None
  | [] => Some []
  end.

Definition padding (n : nat) : list ascii :=
  match (n mod 3)%nat with 1%nat => ["="%char; "="%char] | 2%nat => ["="%char] | _ => [] end.

Definition std_encode (l : list Z) : list ascii := b64_encode std_alphabet l ++ padding (List.length l).

(** At most two of them end a text whose length is a multiple of four. *)
Definition strip_padding (l : list ascii) : list ascii :=
  match rev l with
  | "="%char :: "="%char :: r | "="%char :: r => rev r
  | _ => l
  end.

Definition std_decode (l : list ascii) : option (list Z) :=
  let l := List.filter (λ c, negb (line_end c)) l in
  if (List.length l mod 4 =? 0)%nat then idx ← mapM (b64_index std_alphabet) (strip_padding l); lax_sextets idx else None.

Lemma strict_lax l r : b64_sextets l = Some r → lax_sextets l = Some r.
Proof.
  remember (List.length l) as n eqn:En. revert l r En. induction n as [n IH] using lt_wf_ind. intros l r ->. destruct l as [|i [|j [|k [|m l]]]]; try done.
  - simpl. by destruct (_ =? 0).
  - simpl. by destruct (_ =? 0).
  - cbn [b64_sextets lax_sextets]. destruct (b64_sextets l) as [r'|] eqn:E; [|done]. by rewrite (IH (List.length l) ltac:(simpl; lia) l r' eq_refl E).
Qed.

Lemma encode_length al l : (List.length (b64_encode al l ++ padding (List.length l)) mod 4 = 0)%nat.
Proof.
  induction l as [|a|a b|a b c l IH] using triples_ind; [done..|]. cbn [b64_encode app List.length].
  assert (padding (S (S (S (List.length l)))) = padding (List.length l)) as ->.
  { unfold padding. by replace (S (S (S (List.length l)))) with (List.length l + 1 * 3)%nat by lia; rewrite Nat.Div0.mod_add. }
  rewrite <- (Nat.Div0.mod_add _ 1 4) in IH. etransitivity; [|exact IH]. f_equal. lia.
Qed.

Lemma std_char_plain n : 0 ≤ n < 64 → b64_char std_alphabet n ≠ "="%char ∧ (nat_of_ascii (b64_char std_alphabet n) < 128)%nat.
Proof.
  intros Hn. assert (forallb (λ n, negb (Ascii.eqb (b64_char std_alphabet n) "=") && (nat_of_ascii (b64_char std_alphabet n) <? 128)%nat) (seqZ 0 64) = true) as H
    by (vm_compute; reflexivity).
  rewrite forallb_forall in H. specialize (H n). rewrite <- list_elem_of_In, elem_of_seqZ in H. specialize (H ltac:(lia)).
  apply andb_true_iff in H as [H1 H2]. split; [intros E; by rewrite E in H1|by apply Nat.ltb_lt].
Qed.

Lemma strip_padded l n : (∀ c, c ∈ l → c ≠ "="%char) → strip_padding (l ++ padding n) = l.
Proof.
  intros Hl. assert (∀ k, (k ≤ 2)%nat → strip_padding (l ++ replicate k "="%char) = l) as H.
  { intros k Hk. unfold strip_padding. rewrite rev_app_distr. destruct (rev l) as [|c r] eqn:E.
    - apply (f_equal (@rev ascii)) in E. rewrite rev_involutive in E. subst l. destruct k as [|[|[|]]]; [done..|lia].
    - assert (c ≠ "="%char) as Hc by (apply Hl; apply list_elem_of_In, in_rev; rewrite E; by left).
      assert (l = rev (c :: r)) as -> by (by rewrite <- E, rev_involutive).
      destruct k as [|[|[|]]]; [| | |lia]; simpl replicate; cbn [rev app]; rewrite ?app_nil_r.
      + by destruct c as [[] [] [] [] [] [] [] []].
      + by destruct c as [[] [] [] [] [] [] [] []].
      + done. }
  unfold padding. destruct (n mod 3)%nat as [|[|[|]]]; [apply (H 0%nat)|apply (H 2%nat)|apply (H 1%nat)|apply (H 0%nat)]; lia.
Qed.

Lemma std_round_trip l : bytes_ok l → std_decode (std_encode l) = Some l.
Proof.
  intros Hl. pose proof (std_decode_encode l Hl) as Hd. unfold std_decode, std_encode.
  assert (∀ c, c ∈ b64_encode std_alphabet l → ∃ n, 0 ≤ n < 64 ∧ c = b64_char std_alphabet n) as Hc by (intros c; by apply b64_encode_chars).
  assert (List.filter (λ c, negb (line_end c)) (b64_encode std_alphabet l ++ padding (List.length l)) = b64_encode std_alphabet l ++ padding (List.length l)) as ->.
  { apply forallb_filter_id, forallb_forall. intros c. rewrite in_app_iff, <- list_elem_of_In. intros [H|H].
    - destruct (Hc c H) as (n & Hn & ->). by rewrite (proj2 (alphabet_ok_spec _ std_ok n Hn)).
    - unfold padding in H. destruct (_ mod 3)%nat as [|[|[|]]]; simpl in H; naive_solver. }
  rewrite encode_length. cbn [Nat.eqb]. rewrite strip_padded.
  - unfold b64_decode in Hd. rewrite forallb_filter_id in Hd.
    + destruct (mapM _ _) as [idx|]; [|done]. by apply strict_lax.
    + apply forallb_forall. intros c. rewrite <- list_elem_of_In. intros H. destruct (Hc c H) as (n & Hn & ->).
      by rewrite (proj2 (alphabet_ok_spec _ std_ok n Hn)).
  - intros c H. destruct (Hc c H) as (n & Hn & ->). by apply std_char_plain.
Qed.

(** What is written is ASCII. *)
Lemma std_encode_ascii l : bytes_ok l → Forall (λ c, (nat_of_ascii c < 128)%nat) (std_encode l).
Proof.
  intros Hl. unfold std_encode. apply Forall_app. split.
  - apply Forall_forall. intros c H. destruct (b64_encode_chars std_alphabet l c Hl H) as (n & Hn & ->). by apply std_char_plain.
  - unfold padding. destruct (_ mod 3)%nat as [|[|[|]]]; repeat constructor; vm_compute; lia.
Qed.
