(* ===== verification/Sha256.v ===== *)
(** * SHA-256 (FIPS 180-4)

    [crypto/sha256.Sum256] and [encoding/hex] as the code uses them: the
    identity of a command's standard input ([netcfg.RunnerKey]) and the key of
    a session ([panel.sessionKey]). 32-bit words are [Z] with the wrap-around
    written out. *)

From S2P Require Import Prelude GoStrings.

Local Open Scope Z_scope.

Definition w32 (z : Z) : Z := Z.land z 0xffffffff.
Definition rotr (n x : Z) : Z := w32 (Z.lor (Z.shiftr x n) (Z.shiftl x (32 - n))).

Definition ch (x y z : Z) : Z := Z.lxor (Z.land x y) (Z.land (Z.lxor x 0xffffffff) z).
Definition maj (x y z : Z) : Z := Z.lxor (Z.lxor (Z.land x y) (Z.land x z)) (Z.land y z).
Definition bsig0 (x : Z) : Z := Z.lxor (Z.lxor (rotr 2 x) (rotr 13 x)) (rotr 22 x).
Definition bsig1 (x : Z) : Z := Z.lxor (Z.lxor (rotr 6 x) (rotr 11 x)) (rotr 25 x).
Definition ssig0 (x : Z) : Z := Z.lxor (Z.lxor (rotr 7 x) (rotr 18 x)) (Z.shiftr x 3).
Definition ssig1 (x : Z) : Z := Z.lxor (Z.lxor (rotr 17 x) (rotr 19 x)) (Z.shiftr x 10).

(** The constants, by their definition: the first 32 bits of the fractional
    parts of the cube roots (round constants) and square roots (initial state)
    of the first primes. *)
Definition primes : list Z :=
  List.filter (fun n => forallb (fun d => negb (n mod d =? 0)) (seqZ 2 (Z.sqrt n - 1))) (seqZ 2 310).

Definition cube_root (n : Z) : Z :=
  foldl (fun r i => let t := r + Z.shiftl 1 (Z.of_nat i) in if t * t * t <=? n then t else r)
    0 (rev (seq 0 40)).

Definition sha_k : list Z :=
  Eval vm_compute in (fun p => w32 (cube_root (Z.shiftl p 96))) <$> primes.

Definition sha_h0 : list Z :=
  Eval vm_compute in (fun p => w32 (Z.sqrt (Z.shiftl p 64))) <$> take 8 primes.

Definition bytes_of_string (s : string) : list Z :=
  (fun c => Z.of_N (N_of_ascii c)) <$> String.list_ascii_of_string s.

Definition be_bytes (n : nat) (z : Z) : list Z :=
  (fun i => Z.land (Z.shiftr z (8 * Z.of_nat (n - 1 - i))) 255) <$> seq 0 n.

Definition sha_pad (m : list Z) : list Z :=
  let l := length m in
  let zeros := ((64 - (l + 9) mod 64) mod 64)%nat in
  m ++ [0x80] ++ replicate zeros 0 ++ be_bytes 8 (8 * Z.of_nat l).

Fixpoint words (fuel : nat) (l : list Z) : list Z :=
  match fuel, l with
  | S f, a :: b :: c :: d :: r =>
      (Z.shiftl a 24 + Z.shiftl b 16 + Z.shiftl c 8 + d) :: words f r
  | _, _ => []
  end.

(** The message schedule, newest word first. *)
Fixpoint schedule (fuel : nat) (w : list Z) : list Z :=
  match fuel with
  | O => w
  | S f =>
      let g i := nth i w 0 in
      schedule f (w32 (ssig1 (g 1%nat) + g 6%nat + ssig0 (g 14%nat) + g 15%nat) :: w)
  end.

Definition sha_round (s : list Z) (kw : Z * Z) : list Z :=
  match s with
  | [a; b; c; d; e; f; g; h] =>
      let t1 := h + bsig1 e + ch e f g + kw.1 + kw.2 in
      let t2 := bsig0 a + maj a b c in
      [w32 (t1 + t2); a; b; c; w32 (d + t1); e; f; g]
  | _ => s
  end.

Definition sha_block (h : list Z) (blk : list Z) : list Z :=
  let w := rev (schedule 48 (rev (words 16 blk))) in
  zip_with (fun x y => w32 (x + y)) h (foldl sha_round h (zip sha_k w)).

Fixpoint sha_blocks (fuel : nat) (h : list Z) (m : list Z) : list Z :=
  match fuel with
  | O => h
  | S f => match m with
           | [] => h
           | _ => sha_blocks f (sha_block h (take 64 m)) (drop 64 m)
           end
  end.

(** sha256.Sum256: 32 bytes. *)
Definition Sum256 (m : list Z) : list Z :=
  let p := sha_pad m in
  mjoin (be_bytes 4 <$> sha_blocks (length p) sha_h0 p).

Definition hex_digit (n : Z) : ascii :=
  ascii_of_N (Z.to_N (if n <? 10 then 48 + n else 87 + n)).

(** hex.EncodeToString, and [%x] of a byte slice. *)
Fixpoint EncodeToString (l : list Z) : string :=
  match l with
  | [] => EmptyString
  | b :: r => String (hex_digit (Z.shiftr b 4)) (String (hex_digit (Z.land b 15)) (EncodeToString r))
  end.

Example Sum256_abc :
  EncodeToString (Sum256 (bytes_of_string "abc")) =
  "ba7816bf8f01cfea414140de5dae2223b00361a396177a9cb410ff61f20015ad"%string.
Proof. vm_compute. reflexivity. Qed.

Example Sum256_two_blocks :
  EncodeToString (Sum256 (bytes_of_string "abcdbcdecdefdefgefghfghighijhijkijkljklmklmnlmnomnopnopq")) =
  "248d6a61d20638b8e5c026930c3e6039a33ce45964ff2167f6ecedd419db06c1"%string.
Proof. vm_compute. reflexivity. Qed.
