(* ===== verification/Regex.v ===== *)
(** * Regular expressions

    The part of Go's [regexp] package the sources use: patterns built from
    byte classes, sequences, alternatives, greedy repetition of a class, the
    word boundary, the end of the text and the opening of a group, matched
    leftmost-first (the preference order of the alternatives and of greedy
    repetition, which RE2 keeps). Texts are bytes. The repetitions of the
    modelled patterns are of classes only, so matching is structural on the
    text and needs no fuel. *)

From S2P Require Import Prelude GoStrings.

Abbreviation bytes := (list ascii).

(** A Go string literal as bytes. *)
Definition lit (s : string) : bytes := String.list_ascii_of_string s.

Inductive re : Type :=
| Eps
| Cls (p : ascii → bool)      (* one byte of the class *)
| Cat (r1 r2 : re)
| Alt (r1 r2 : re)            (* the left one is preferred *)
| Star (p : ascii → bool)     (* greedy *)
| WordB                       (* \b *)
| EndText                     (* $ without the m flag *)
| Open.                       (* a group opens here; its offset is recorded *)

Fixpoint Rep (n : nat) (p : ascii → bool) : re :=
  match n with O => Eps | S n => Cat (Cls p) (Rep n p) end.

(** Greedy repetition of a class, trying the longest run first. *)
Fixpoint star {X} (p : ascii → bool) (pv : option ascii) (s : bytes)
    (k : option ascii → bytes → option X) : option X :=
  match s with
  | c :: s' => if p c then match star p (Some c) s' k with
                           | Some x => Some x
                           | None => k pv s
                           end
               else k pv s
  | [] => k pv s
  end.

Definition in_range (lo hi : ascii) (c : ascii) : bool :=
  (nat_of_ascii lo <=? nat_of_ascii c)%nat && (nat_of_ascii c <=? nat_of_ascii hi)%nat.

Definition digit (c : ascii) : bool := in_range "0" "9" c.
Definition letter (c : ascii) : bool := in_range "a" "z" c || in_range "A" "Z" c.
(** [\w] and [\s] are ASCII classes in RE2. *)
Definition wordc (c : ascii) : bool := digit c || letter c || Ascii.eqb c "_".
Definition spacec (c : ascii) : bool :=
  existsb (fun n => nat_of_ascii c =? n)%nat [9; 10; 12; 13; 32]%nat.

Definition is_word (o : option ascii) : bool :=
  match o with Some c => wordc c | None => false end.

(** One match at a position: [pv] is the byte before it, [caps] the texts
    remaining where groups opened, last first, and [k] the rest of the
    pattern. *)
Fixpoint rmatch {X} (r : re) (caps : list bytes) (pv : option ascii) (s : bytes)
    (k : list bytes → option ascii → bytes → option X) : option X :=
  match r with
  | Eps => k caps pv s
  | Cls p => match s with c :: s' => if p c then k caps (Some c) s' else None | [] => None end
  | Cat r1 r2 => rmatch r1 caps pv s (fun caps pv s => rmatch r2 caps pv s k)
  | Alt r1 r2 => match rmatch r1 caps pv s k with Some x => Some x | None => rmatch r2 caps pv s k end
  | Star p => star p pv s (k caps)
  | WordB => if xorb (is_word pv) (is_word (head s)) then k caps pv s else None
  | EndText => match s with [] => k caps pv s | _ => None end
  | Open => k (s :: caps) pv s
  end.

(** The match at this position: the texts where groups opened and the text
    after the match. *)
Definition match_here (r : re) (pv : option ascii) (s : bytes) : option (list bytes * bytes) :=
  rmatch r [] pv s (fun caps _ rest => Some (caps, rest)).

(** The leftmost match of the text. *)
Fixpoint find (r : re) (pv : option ascii) (s : bytes) : option (list bytes * bytes) :=
  match match_here r pv s with
  | Some m => Some m
  | None => match s with [] => None | c :: s' => find r (Some c) s' end
  end.

(** Regexp.MatchString *)
Definition MatchString (r : re) (s : bytes) : bool :=
  match find r None s with Some _ => true | None => false end.

(** Regexp.ReplaceAllStringFunc for a pattern that does not match the empty
    text: [skip] counts the bytes of the last match still to be passed over. *)
Fixpoint replace_go (r : re) (f : bytes → bytes) (skip : nat) (pv : option ascii) (s : bytes) : bytes :=
  match s with
  | [] => []
  | c :: s' =>
      match skip with
      | S k => replace_go r f k (Some c) s'
      | O => match match_here r pv s with
             | Some (_, rest) =>
                 let n := (List.length s - List.length rest)%nat in
                 f (take n s) ++ replace_go r f (n - 1) (Some c) s'
             | None => c :: replace_go r f 0 (Some c) s'
             end
      end
  end.

Definition ReplaceAllStringFunc (r : re) (s : bytes) (f : bytes → bytes) : bytes :=
  replace_go r f 0 None s.

(** A letter under [(?i)]: both cases, and the two letters outside ASCII that
    fold to one inside it, the long s (U+017F) and the Kelvin sign (U+212A). *)
Definition fold (c : ascii) : re :=
  let l := lower_ascii c in
  let ascii_fold := Cls (fun x => Ascii.eqb (lower_ascii x) l) in
  if Ascii.eqb l "s" then Alt ascii_fold (Cat (Cls (Ascii.eqb "197")) (Cls (Ascii.eqb "191")))
  else if Ascii.eqb l "k" then
    Alt ascii_fold (Cat (Cls (Ascii.eqb "226")) (Cat (Cls (Ascii.eqb "132")) (Cls (Ascii.eqb "170"))))
  else ascii_fold.

Fixpoint word (s : bytes) : re :=
  match s with [] => Eps | c :: s => Cat (fold c) (word s) end.

Fixpoint one_of (l : list re) : re :=
  match l with
  | [] => Cls (fun _ => false)
  | [r] => r
  | r :: l => Alt r (one_of l)
  end.

(** strings.ReplaceAll for an [old] that is not empty: leftmost occurrences, none
    overlapping; [skip] counts the bytes of the last one still to be passed. *)
Fixpoint replace_all (old new : bytes) (skip : nat) (s : bytes) : bytes :=
  match s with
  | [] => []
  | c :: s' =>
      match skip with
      | S k => replace_all old new k s'
      | O => if decide (old `prefix_of` s) then new ++ replace_all old new (List.length old - 1) s'
             else c :: replace_all old new 0 s'
      end
  end.

(** strings.Split by a separator that is not empty: leftmost occurrences, none
    overlapping. Never the empty list. *)
Fixpoint split_go (sep : bytes) (skip : nat) (s : bytes) : list bytes :=
  match s with
  | [] => [[]]
  | c :: s' =>
      match skip with
      | S k => split_go sep k s'
      | O => if decide (sep `prefix_of` s) then [] :: split_go sep (List.length sep - 1) s'
             else match split_go sep 0 s' with
                  | w :: ws => (c :: w) :: ws
                  | [] => [[c]]
                  end
      end
  end.

Definition SplitOn (s sep : bytes) : list bytes := split_go sep 0 s.

Fixpoint JoinWith (sep : bytes) (l : list bytes) : bytes :=
  match l with
  | [] => []
  | [w] => w
  | w :: l => w ++ sep ++ JoinWith sep l
  end.

(** ** What a match means *)

(** The texts before and after a match, as a relation. *)
Inductive den : re → option ascii → bytes → option ascii → bytes → Prop :=
| den_eps pv s : den Eps pv s pv s
| den_cls p pv c s : p c = true → den (Cls p) pv (c :: s) (Some c) s
| den_cat r1 r2 pv s pv1 s1 pv2 s2 :
    den r1 pv s pv1 s1 → den r2 pv1 s1 pv2 s2 → den (Cat r1 r2) pv s pv2 s2
| den_alt_l r1 r2 pv s pv' s' : den r1 pv s pv' s' → den (Alt r1 r2) pv s pv' s'
| den_alt_r r1 r2 pv s pv' s' : den r2 pv s pv' s' → den (Alt r1 r2) pv s pv' s'
| den_star_nil p pv s : den (Star p) pv s pv s
| den_star_cons p pv c s pv' s' :
    p c = true → den (Star p) (Some c) s pv' s' → den (Star p) pv (c :: s) pv' s'
| den_wordb pv s : xorb (is_word pv) (is_word (head s)) = true → den WordB pv s pv s
| den_end pv : den EndText pv [] pv []
| den_open pv s : den Open pv s pv s.

Lemma star_sound {X} p (k : option ascii → bytes → option X) s : ∀ pv x,
  star p pv s k = Some x → ∃ pv' s', den (Star p) pv s pv' s' ∧ k pv' s' = Some x.
Proof.
  induction s as [|c s IH]; intros pv x H; simpl in H.
  - exists pv, []. split; [constructor|done].
  - destruct (p c) eqn:Ec; [destruct (star p (Some c) s k) eqn:E|];
      [|exists pv, (c :: s); split; [constructor|done] ..].
    simplify_eq. apply IH in E as (pv' & s' & Hd & Hk). exists pv', s'.
    split; [by constructor|done].
Qed.

Lemma den_suffix r pv s pv' s' : den r pv s pv' s' → ∃ u, s = u ++ s'.
Proof.
  induction 1 as [| |????????? [u1 ->] ? [u2 ->]| | | |??????? ? [u ->]| | |];
    try (by exists []); try done.
  - by exists [c].
  - exists (u1 ++ u2). by rewrite <- app_assoc.
  - by exists (c :: u).
Qed.

(** Every match the matcher reports is one, and its groups open inside the
    text. *)
Lemma rmatch_sound {X} r : ∀ caps pv s (k : list bytes → option ascii → bytes → option X) x,
  rmatch r caps pv s k = Some x →
  ∃ new pv' s', den r pv s pv' s' ∧ Forall (fun t => t `suffix_of` s) new
    ∧ k (new ++ caps) pv' s' = Some x.
Proof.
  induction r; intros caps pv s k x H; simpl in H.
  - exists [], pv, s. split_and!; [constructor|done|done].
  - destruct s as [|c s]; [done|]. destruct (p c) eqn:E; [|done].
    eexists [], _, _; split_and!; [by constructor|done|done].
  - apply IHr1 in H as (c1 & p1 & s1 & Hd1 & Hc1 & H).
    apply IHr2 in H as (c2 & p2 & s2 & Hd2 & Hc2 & H). rewrite app_assoc in H.
    exists (c2 ++ c1), p2, s2; split_and!; [by econstructor| |done].
    apply Forall_app; split; [|done]. apply den_suffix in Hd1 as [u ->].
    eapply Forall_impl; [exact Hc2|]. intros t [w ->]. exists (u ++ w). by rewrite app_assoc.
  - destruct (rmatch r1 caps pv s k) eqn:E.
    + simplify_eq. apply IHr1 in E as (c1 & p1 & s1 & Hd1 & Hc & E).
      exists c1, p1, s1; split_and!; [by apply den_alt_l|done|done].
    + apply IHr2 in H as (c1 & p1 & s1 & Hd1 & Hc & H).
      exists c1, p1, s1; split_and!; [by apply den_alt_r|done|done].
  - apply star_sound in H as (pv' & s' & Hd & H). exists [], pv', s'; split_and!; done.
  - destruct (xorb _ _) eqn:E; [|done]. exists [], pv, s; split_and!; [by constructor|done|done].
  - destruct s; [|done]. exists [], pv, []; split_and!; [constructor|done|done].
  - exists [s], pv, s; split_and!; [constructor|by repeat constructor|done].
Qed.

Lemma match_here_sound r pv s caps rest :
  match_here r pv s = Some (caps, rest) →
  (∃ pv', den r pv s pv' rest) ∧ Forall (fun t => t `suffix_of` s) caps.
Proof.
  unfold match_here. intros H. apply rmatch_sound in H as (new & pv' & s' & Hd & Hn & H).
  rewrite app_nil_r in H. simplify_eq. eauto.
Qed.

Lemma find_sound r s : ∀ pv caps rest,
  find r pv s = Some (caps, rest) →
  ∃ u t pv1 pv2, s = u ++ t ∧ den r pv1 t pv2 rest ∧ Forall (fun t => t `suffix_of` s) caps.
Proof.
  induction s as [|c s IH]; intros pv caps rest H; cbn [find] in H.
  - destruct (match_here r pv []) as [[]|] eqn:E; simplify_eq.
    apply match_here_sound in E as [[pv' ?] ?]. by exists [], [], pv, pv'.
  - destruct (match_here r pv (c :: s)) as [[]|] eqn:E; simplify_eq.
    + apply match_here_sound in E as [[pv' ?] ?]. by exists [], (c :: s), pv, pv'.
    + apply IH in H as (u & t & pv1 & pv2 & -> & ? & Hc). exists (c :: u), t, pv1, pv2.
      split_and!; [done..|]. eapply Forall_impl; [exact Hc|].
      intros t' [w Hw]. exists (c :: w). by rewrite Hw.
Qed.

(** The bytes of the class at the front of a text. *)
Fixpoint run_len (p : ascii → bool) (s : bytes) : nat :=
  match s with [] => 0 | c :: s => if p c then S (run_len p s) else 0 end.

Lemma star_run {X} p pv s (k : option ascii → bytes → option X) :
  (∀ pv s, is_Some (k pv s)) →
  ∃ pv', star p pv s k = k pv' (drop (run_len p s) s).
Proof.
  intros Hk. revert pv. induction s as [|c s IH]; intros pv; simpl; [by exists pv|].
  destruct (p c); [|by exists pv]. destruct (IH (Some c)) as [pv' ->].
  exists pv'. destruct (Hk pv' (drop (run_len p s) s)) as [x Hx]. cbn [drop]. by rewrite Hx.
Qed.

(** At least [n] bytes of a class: a match is the whole run, if it is long
    enough. *)
Lemma match_run n p pv s :
  match_here (Cat (Rep n p) (Star p)) pv s =
  if (n <=? run_len p s)%nat then Some ([], drop (run_len p s) s) else None.
Proof.
  unfold match_here. revert pv s. cbn [rmatch].
  induction n as [|n IH]; intros pv s; cbn [Rep rmatch].
  - destruct (star_run p pv s (fun _ rest => Some (@nil bytes, rest))) as [pv' ->]; [|done].
    intros; by eexists.
  - destruct s as [|c s]; cbn [run_len]; [done|]. destruct (p c); [|done].
    rewrite IH. cbn [drop]. done.
Qed.

Lemma take_run p s : run_len p (take (run_len p s) s) = run_len p s.
Proof. induction s as [|c s IH]; simpl; [done|]. destruct (p c) eqn:E; simpl; [by rewrite E, IH|done]. Qed.

Lemma run_len_le p s : (run_len p s ≤ List.length s)%nat.
Proof. induction s as [|c s IH]; simpl; [lia|]. destruct (p c); lia. Qed.

Lemma run_drop p s : run_len p (drop (run_len p s) s) = 0%nat.
Proof. induction s as [|c s IH]; simpl; [done|]. destruct (p c) eqn:E; simpl; [done|by rewrite E]. Qed.
