(* ===== verification/Redact.v ===== *)
(** * Redaction of engine messages

    engine/redact.go: the messages of the proxy engine go through [Redact]
    before anything keeps or shows them. The patterns are those of the source,
    as values of [Regex.re]. *)

From S2P Require Import Prelude GoStrings Regex.

(** ** The operations of redact.go *)

Definition markerPrefix : bytes := lit "[redacted ".

Definition mask (v : bytes) : bytes :=
  markerPrefix ++ lit (Itoa (Z.of_nat (rune_count v))) ++ lit " chars]".

Definition quote : re := Cls (Ascii.eqb dquote).
Definition spaces_re : re := Star spacec.
Definition colon : re := Cls (Ascii.eqb ":").
(** A value: a byte that is no space and all that follows, with the offset of its group recorded. *)
Definition tail_value : re :=
  Cat Open (Cat (Cls (fun c => negb (spacec c)))
           (Cat (Star (fun c => negb (Ascii.eqb c "010"))) EndText)).

Definition key_names : re :=
  one_of
    [word (lit "privateKey"); word (lit "publicKey"); word (lit "password");
     word (lit "mldsa65Seed"); word (lit "mldsa65Verify");
     Cat (word (lit "shortIds["))
         (Cat (Cls digit) (Cat (Star digit) (Cls (Ascii.eqb "]"))));
     word (lit "shortIds"); word (lit "shortId"); word (lit "id")].

Definition keyedTail : re :=
  Cat Open (Cat quote (Cat key_names (Cat quote
    (Cat spaces_re (Cat colon (Cat spaces_re tail_value)))))).

Definition unkeyedTail : re :=
  Cat Open (Cat (one_of [word (lit "can not be the same value"); word (lit "invalid UUID")])
    (Cat spaces_re (Cat colon (Cat spaces_re tail_value)))).

Definition hexc (c : ascii) : bool := digit c || in_range "a" "f" c || in_range "A" "F" c.
Definition dash : re := Cls (Ascii.eqb "-").

Definition uuidShape : re :=
  Cat WordB (Cat (Rep 8 hexc) (Cat dash (Cat (Rep 4 hexc) (Cat dash (Cat (Rep 4 hexc)
    (Cat dash (Cat (Rep 4 hexc) (Cat dash (Cat (Rep 12 hexc) WordB))))))))).

Definition b64c (c : ascii) : bool :=
  letter c || digit c || Ascii.eqb c "_" || Ascii.eqb c "-".

Definition base64URLShape : re := Cat (Rep 32 b64c) (Star b64c).

(** The last group of the modelled tail patterns runs to the end of the
    segment, so its text is the one remaining where it opened. *)
Definition replaceTail (segment : bytes) (r : re) : bytes :=
  match find r None segment with
  | Some (value :: _, _) =>
      if decide (markerPrefix `prefix_of` value) then segment
      else take (List.length segment - List.length value) segment ++ mask value
  | _ => segment
  end.

Definition replaceShape (segment : bytes) (r : re) : bytes :=
  ReplaceAllStringFunc r segment mask.

Definition redactSegment (segment : bytes) : bytes :=
  let segment := replaceTail segment keyedTail in
  let segment := replaceTail segment unkeyedTail in
  let segment := replaceShape segment uuidShape in
  replaceShape segment base64URLShape.

Definition redactLine (line : bytes) : bytes :=
  JoinWith (lit " > ") (redactSegment <$> SplitOn line (lit " > ")).

Definition newline : bytes := ["010"%char].

Definition redact_bytes (msg : bytes) : bytes :=
  match msg with
  | [] => msg
  | _ => JoinWith newline (redactLine <$> SplitOn msg newline)
  end.

Definition Redact (msg : string) : string :=
  String.string_of_list_ascii (redact_bytes (lit msg)).

Definition ContainsSecretShape (s : string) : bool :=
  MatchString uuidShape (lit s) || MatchString base64URLShape (lit s).

(** Messages of redact_test.go and the ones the source quotes. *)
Definition q (s : string) : string := (String dquote s ++ String dquote "")%string.

Example redact_key :
  Redact ("infra/conf: failed > invalid " ++ q "privateKey" ++ ": abc def")%string
  = ("infra/conf: failed > invalid " ++ q "privateKey" ++ ": [redacted 7 chars]")%string.
Proof. vm_compute. reflexivity. Qed.

Example redact_uuid :
  Redact "reverse: user 66ad4540-b58c-4ad2-9926-ea63445a9b57 doesn't exist anymore"
  = "reverse: user [redacted 36 chars] doesn't exist anymore".
Proof. vm_compute. reflexivity. Qed.

Example redact_spider :
  Redact ("invalid " ++ q "spiderX" ++ ": foo")%string = ("invalid " ++ q "spiderX" ++ ": foo")%string.
Proof. vm_compute. reflexivity. Qed.

(** ** No run of key characters survives *)

(** No [n] bytes of the class [p] in a row. *)
Fixpoint no_run (p : ascii → bool) (n : nat) (s : bytes) : Prop :=
  match s with [] => True | _ :: s' => (run_len p s < n)%nat ∧ no_run p n s' end.

Section Runs.
Context (p : ascii → bool) (n : nat) (Hn : (0 < n)%nat).

Lemma no_run_app s t : no_run p n s → no_run p n t → run_len p t = 0%nat → no_run p n (s ++ t).
Proof.
  intros Hs Ht H0. induction s as [|a s IH]; [done|]. destruct Hs as [Ha Hs].
  split; [|by apply IH]. clear -Ha H0.
  assert (run_len p (s ++ t) = run_len p s) as E.
  { clear Ha. induction s as [|b s IH]; simpl; [done|]. by rewrite IH. }
  simpl in *. by rewrite E.
Qed.

Lemma no_run_short s : (List.length s < n)%nat → no_run p n s.
Proof.
  induction s as [|a s IH]; simpl; [done|]. intros H. split; [|apply IH; lia].
  pose proof (run_len_le p (a :: s)). simpl in *. lia.
Qed.

(** Bytes outside the class separate runs. *)
Lemma no_run_sep sep t : Forall (fun c => p c = false) sep → no_run p n t → no_run p n (sep ++ t).
Proof. intros H Ht. induction H as [|c sep Hc _ IH]; simpl; [done|]. by rewrite Hc. Qed.

Lemma run_len_sep sep t :
  Forall (fun c => p c = false) sep → run_len p t = 0%nat → run_len p (sep ++ t) = 0%nat.
Proof. intros H Ht. destruct H as [|c sep Hc _]; simpl; [done|]. by rewrite Hc. Qed.

Lemma no_run_join c sep l :
  Forall (fun c => p c = false) (c :: sep) → Forall (no_run p n) l → no_run p n (JoinWith (c :: sep) l).
Proof.
  intros Hs Hl. induction Hl as [|w [|w' l] Hw Hl IH]; [done|done|].
  cbn [JoinWith] in *. apply no_run_app; [done|by apply no_run_sep|].
  inversion_clear Hs as [|? ? Hc _]. simpl. by rewrite Hc.
Qed.

(** Replacing every run of at least [n] bytes of the class by texts that hold
    no such run, and end and start outside the class, leaves none. *)
Lemma replace_no_run f B s : ∀ skip pv,
  (∀ v, (List.length v ≤ B)%nat → no_run p n (f v) ∧ ∀ t, run_len p (f v ++ t) = 0%nat) →
  (List.length s ≤ B)%nat →
  let out := replace_go (Cat (Rep n p) (Star p)) f skip pv s in
  no_run p n out ∧
  (run_len p out ≤ let m := run_len p (drop skip s) in if decide (m < n)%nat then m else 0)%nat.
Proof using Hn.
  induction s as [|c s IH]; intros skip pv Hf HB; cbn [replace_go].
  { by destruct skip; simpl; case_decide. }
  cbn [List.length] in HB. assert (List.length s ≤ B)%nat as HB' by lia.
  destruct skip as [|k]; [|by apply IH].
  rewrite match_run. destruct (Nat.leb_spec n (run_len p (c :: s))) as [Hr|Hr].
  - pose proof (run_len_le p (c :: s)) as Hle. rewrite length_drop.
    replace (List.length (c :: s) - (List.length (c :: s) - run_len p (c :: s)))%nat
      with (run_len p (c :: s)) by lia.
    set (m := run_len p (c :: s)) in *.
    destruct (Hf (take m (c :: s))) as [Hv H0]; [rewrite length_take; simpl; lia|].
    destruct (IH (m - 1)%nat (Some c) Hf HB') as [I1 I2].
    replace (drop (m - 1) s) with (drop m (c :: s)) in I2
      by (replace m with (S (m - 1)) at 1 by lia; done).
    unfold m in I2 at 2. rewrite run_drop in I2. rewrite decide_True in I2 by lia.
    split; [apply no_run_app; [done|done|lia]|]. rewrite H0. lia.
  - destruct (IH 0%nat (Some c) Hf HB') as [I1 I2]. rewrite drop_0 in I2 |- *.
    rewrite decide_True by lia. simpl in Hr |- *.
    destruct (p c); [|split; [split; [lia|done]|lia]].
    rewrite decide_True in I2 by lia. split; [split; [lia|done]|lia].
Qed.

End Runs.

(** Decimal numbers below ten to the [k] have at most [k] digits. *)
Lemma digits_length fuel : ∀ k n acc,
  (0 < k)%nat → (n < 10 ^ N.of_nat k)%N →
  (String.length (digits_fuel fuel n acc) ≤ k + String.length acc)%nat.
Proof.
  induction fuel as [|f IH]; intros k n acc Hk Hn; cbn [digits_fuel]; [lia|].
  destruct (n / 10 =? 0)%N eqn:E; [simpl; lia|]. apply N.eqb_neq in E.
  destruct k as [|[|k]]; [lia| |].
  { exfalso. apply E. apply N.div_small. exact Hn. }
  etransitivity; [apply (IH (S k)); [lia|]|simpl; lia].
  apply N.Div0.div_lt_upper_bound.
  rewrite (Nat2N.inj_succ (S k)), N.pow_succ_r' in Hn. lia.
Qed.

Lemma Itoa_length n : (Z.of_nat n < 10 ^ 31)%Z → (List.length (lit (Itoa (Z.of_nat n))) ≤ 31)%nat.
Proof.
  intros H. unfold Itoa. replace (Z.of_nat n <? 0)%Z with false by lia.
  unfold lit. rewrite <- (String.string_of_list_ascii_of_string (digits_fuel _ _ _)) at 1.
  set (d := digits_fuel _ _ _).
  assert (∀ s, List.length (String.list_ascii_of_string s) = String.length s) as Hl
    by (induction s; simpl; congruence).
  rewrite Hl, String.string_of_list_ascii_of_string. unfold d.
  etransitivity; [apply (digits_length _ 31)|simpl; lia]; [lia|].
  change (N.of_nat 31) with 31%N. lia.
Qed.

Lemma b64_marks : Forall (fun c => b64c c = false) (lit " ") ∧ Forall (fun c => b64c c = false) (lit " > ")
  ∧ Forall (fun c => b64c c = false) newline.
Proof. split_and!; repeat constructor. Qed.

(** What replaces a value holds no long run, whatever the value. *)
Lemma mask_no_run v : (Z.of_nat (List.length v) < 10 ^ 31)%Z →
  no_run b64c 32 (mask v) ∧ ∀ t, run_len b64c (mask v ++ t) = 0%nat.
Proof.
  intros Hv. split; [|done]. unfold mask.
  change markerPrefix with (lit "[redacted" ++ lit " "). rewrite <- app_assoc.
  apply no_run_app; [by vm_compute; repeat split; lia| |done].
  apply no_run_sep; [lia|apply b64_marks|].
  apply no_run_app; [|by vm_compute; repeat split; lia|done].
  apply no_run_short; [lia|]. eapply Nat.le_lt_trans; [apply Itoa_length|lia].
  pose proof (count_go_le v 0). unfold rune_count. lia.
Qed.

(** ** Lengths: the earlier stages add at most a bounded text *)

Lemma mask_length v : (Z.of_nat (List.length v) < 10 ^ 31)%Z → (List.length (mask v) ≤ 48)%nat.
Proof.
  intros Hv. unfold mask. rewrite !length_app.
  pose proof (Itoa_length (rune_count v)) as H. pose proof (count_go_le v 0).
  change (List.length markerPrefix) with 10%nat. change (List.length (lit " chars]")) with 7%nat.
  unfold rune_count in *. lia.
Qed.

Lemma replaceTail_length s r : (Z.of_nat (List.length s) < 10 ^ 31)%Z →
  (List.length (replaceTail s r) ≤ List.length s + 48)%nat.
Proof.
  intros Hs. unfold replaceTail. destruct (find r None s) as [[[|v caps] rest]|] eqn:E; [lia| |lia].
  case_decide; [lia|]. apply find_sound in E as (_ & _ & _ & _ & _ & _ & Hc).
  inversion_clear Hc as [|? ? [w Hw] _].
  assert (List.length v ≤ List.length s)%nat by (subst s; rewrite length_app; lia).
  rewrite length_app, length_take. pose proof (mask_length v). lia.
Qed.

Lemma replace_go_length r f B s : ∀ skip pv,
  (∀ v, (List.length v ≤ B)%nat → (List.length (f v) ≤ 48)%nat) → (List.length s ≤ B)%nat →
  (List.length (replace_go r f skip pv s) ≤ 49 * List.length s)%nat.
Proof.
  induction s as [|c s IH]; intros skip pv Hf HB; cbn [replace_go]; [simpl; lia|].
  cbn [List.length] in HB |- *. assert (List.length s ≤ B)%nat as HB' by lia.
  destruct skip as [|k]; [|specialize (IH k (Some c) Hf HB'); lia].
  destruct (match_here r pv (c :: s)) as [[caps rest]|]; cbn [List.length].
  - set (n := (S (List.length s) - List.length rest)%nat). rewrite length_app.
    specialize (IH (n - 1)%nat (Some c) Hf HB').
    pose proof (Hf (take n (c :: s))) as Hm. rewrite length_take in Hm. simpl in Hm. lia.
  - specialize (IH 0%nat (Some c) Hf HB'). lia.
Qed.

Lemma split_length sep s : ∀ skip,
  Forall (fun w => (List.length w ≤ List.length s)%nat) (split_go sep skip s).
Proof.
  induction s as [|c s IH]; intros skip; cbn [split_go]; [by repeat constructor|].
  assert (∀ k, Forall (fun w => (List.length w ≤ List.length (c :: s))%nat) (split_go sep k s)) as Hw.
  { intros k. eapply Forall_impl; [apply IH|]. simpl. lia. }
  destruct skip; [|by auto]. case_decide; [constructor; [simpl; lia|auto]|].
  specialize (IH 0%nat). specialize (Hw 0%nat). destruct (split_go sep 0 s); [constructor; [simpl; lia|done]|].
  inversion_clear IH. inversion_clear Hw. constructor; [simpl; lia|done].
Qed.

(** ** A redacted message carries no secret shape *)

Definition go_string (s : bytes) : Prop := (Z.of_nat (List.length s) < 2 ^ 63)%Z.

Lemma redactSegment_no_run s : go_string s → no_run b64c 32 (redactSegment s).
Proof.
  unfold go_string, redactSegment. intros Hs.
  pose proof (replaceTail_length s keyedTail ltac:(lia)) as H1.
  set (s1 := replaceTail s keyedTail) in *.
  pose proof (replaceTail_length s1 unkeyedTail ltac:(lia)) as H2.
  set (s2 := replaceTail s1 unkeyedTail) in *.
  pose proof (replace_go_length uuidShape mask (List.length s2) s2 0 None) as H3.
  specialize (H3 ltac:(intros; apply mask_length; lia) ltac:(done)).
  unfold replaceShape, ReplaceAllStringFunc. set (s3 := replace_go uuidShape mask 0 None s2) in *.
  eapply (replace_no_run b64c 32 ltac:(lia) mask (List.length s3)); [|done].
  intros v Hv. apply mask_no_run. lia.
Qed.

Lemma redact_no_run msg : go_string msg → no_run b64c 32 (redact_bytes msg).
Proof.
  intros Hm. unfold redact_bytes. destruct msg as [|c msg]; [done|].
  destruct b64_marks as (_ & Hsep & Hnl).
  apply no_run_join; [lia|exact Hnl|]. apply Forall_fmap.
  eapply Forall_impl; [apply (split_length newline (c :: msg) 0)|]. intros line Hl.
  apply no_run_join; [lia|exact Hsep|]. apply Forall_fmap.
  eapply Forall_impl; [apply (split_length (lit " > ") line 0)|]. intros seg Hseg.
  apply redactSegment_no_run. unfold go_string in *. lia.
Qed.

(** A match of [n] bytes of a class starts with [n] of them. *)
Lemma den_rep n p pv s pv' s' :
  den (Rep n p) pv s pv' s' → ∃ u, s = u ++ s' ∧ List.length u = n ∧ Forall (fun c => p c = true) u.
Proof.
  revert pv s. induction n as [|n IH]; intros pv s H; cbn [Rep] in H; inversion H; subst.
  - by exists [].
  - match goal with H : den (Cls _) _ _ _ _ |- _ => inversion H; subst end.
    match goal with H : den (Rep _ _) _ _ _ _ |- _ => apply IH in H as (u & -> & Hl & Hu) end.
    exists (c :: u). split_and!; [done|simpl; by rewrite Hl|by constructor].
Qed.

Lemma run_len_app p u s :
  Forall (fun c => p c = true) u → run_len p (u ++ s) = (List.length u + run_len p s)%nat.
Proof. induction 1 as [|c u Hc _ IH]; simpl; [done|]. by rewrite Hc, IH. Qed.

Lemma hexc_b64 c : hexc c = true → b64c c = true.
Proof.
  destruct c as [[] [] [] [] [] [] [] []]; vm_compute; congruence.
Qed.

Lemma den_hex n pv s pv' s' :
  den (Rep n hexc) pv s pv' s' → run_len b64c s = (n + run_len b64c s')%nat.
Proof.
  intros H. apply den_rep in H as (u & -> & <- & Hu). apply run_len_app.
  eapply Forall_impl; [exact Hu|]. apply hexc_b64.
Qed.

Lemma den_dash pv s pv' s' : den dash pv s pv' s' → run_len b64c s = S (run_len b64c s').
Proof.
  intros H. inversion H as [|? ? c ? Hc| | | | | | | |]; subst. apply Ascii.eqb_eq in Hc. by subst c.
Qed.

(** A UUID is a run of 36 of the characters. *)
Lemma den_uuid pv s pv' s' : den uuidShape pv s pv' s' → (36 ≤ run_len b64c s)%nat.
Proof.
  unfold uuidShape. generalize (den_hex 4) (den_hex 8) (den_hex 12).
  generalize (Rep 4 hexc) (Rep 8 hexc) (Rep 12 hexc). intros r4 r8 r12 H4 H8 H12 H.
  repeat match goal with
  | H : den r4 _ _ _ _ |- _ => apply H4 in H
  | H : den r8 _ _ _ _ |- _ => apply H8 in H
  | H : den r12 _ _ _ _ |- _ => apply H12 in H
  | H : den (Cat _ _) _ _ _ _ |- _ => inversion H; subst; clear H
  | H : den WordB _ _ _ _ |- _ => inversion H; subst; clear H
  | H : den dash _ _ _ _ |- _ => apply den_dash in H
  end. lia.
Qed.

Lemma den_b64 pv s pv' s' : den base64URLShape pv s pv' s' → (32 ≤ run_len b64c s)%nat.
Proof.
  unfold base64URLShape. generalize (den_rep 32 b64c). generalize (Rep 32 b64c).
  intros r Hr H. inversion H; subst.
  match goal with H : den r _ _ _ _ |- _ => apply Hr in H as (u & -> & Hl & Hu) end.
  rewrite run_len_app by done. lia.
Qed.

Lemma no_run_find r s n :
  (∀ pv t pv' t', den r pv t pv' t' → (n ≤ run_len b64c t)%nat) → (0 < n)%nat →
  no_run b64c n s → MatchString r s = false.
Proof.
  intros Hr Hn Hs. unfold MatchString. destruct (find r None s) as [[caps rest]|] eqn:E; [|done].
  exfalso. apply find_sound in E as (u & t & pv1 & pv2 & -> & Hd & _). apply Hr in Hd.
  assert (no_run b64c n t) as Ht by (clear -Hs; induction u as [|a u IH]; [done|by apply IH, Hs]).
  destruct t; simpl in *; lia.
Qed.

(** Whatever the engine says, the redacted message holds no UUID and no run of
    32 or more base64url characters. *)
Lemma redact_lines_safe (msg : string) :
  go_string (lit msg) → ContainsSecretShape (Redact msg) = false.
Proof.
  intros Hm. pose proof (redact_no_run (lit msg) Hm) as H.
  unfold ContainsSecretShape, Redact, lit at 1 3.
  rewrite !String.list_ascii_of_string_of_list_ascii.
  apply orb_false_iff; split.
  - apply (no_run_find _ _ 32); [|lia|done]. intros pv t pv' t' Hd. apply den_uuid in Hd. lia.
  - apply (no_run_find _ _ 32); [|lia|done]. apply den_b64.
Qed.

(** ** A keyed value is replaced whole *)

Definition key_list : list string :=
  ["privateKey"; "publicKey"; "password"; "mldsa65Seed"; "mldsa65Verify";
   "shortIds[0]"; "shortIds[17]"; "shortIds"; "shortId"; "id"].

(** How the engine names the key in front of the value. *)
Definition keyed (name : string) (v : bytes) : bytes :=
  dquote :: lit name ++ dquote :: ":"%char :: " "%char :: v.

(** A value in the sense of the patterns: not empty, no space in front, no
    line break, no segment separator, and not a marker already. *)
Definition plain_value (v : bytes) : Prop :=
  match v with [] => False | c :: _ => spacec c = false end
  ∧ Forall (fun c => c ≠ "010"%char ∧ c ≠ ">"%char) v
  ∧ ¬ markerPrefix `prefix_of` v.

Lemma star_all {X} p (k : option ascii → bytes → option X) v : ∀ pv,
  Forall (fun c => p c = true) v → (∀ pv, is_Some (k pv [])) → ∃ pv', star p pv v k = k pv' [].
Proof.
  induction v as [|c v IH]; intros pv Hv Hk; simpl; [by exists pv|].
  inversion_clear Hv as [|? ? Hc Hv']. rewrite Hc. destruct (IH (Some c) Hv' Hk) as [pv' ->].
  exists pv'. by destruct (Hk pv') as [x ->].
Qed.

Lemma tail_value_match caps pv v :
  plain_value v →
  rmatch tail_value caps pv v (fun caps _ rest => Some (caps, rest)) = Some (v :: caps, []).
Proof.
  intros (Hc & Hv & _). destruct v as [|c v]; [done|]. cbn [tail_value rmatch]. rewrite Hc. cbn [negb].
  inversion_clear Hv as [|? ? _ Hv'].
  edestruct (star_all (fun c => negb (Ascii.eqb c "010"))
    (fun pv s => match s with [] => Some (((c :: v) :: caps), s) | _ => None end) v (Some c))
    as [pv' ->]; [|by eauto|done].
  eapply Forall_impl; [exact Hv'|]. intros a [Ha _]. by apply negb_true_iff, Ascii.eqb_neq.
Qed.

Lemma names_match {X} name caps pv rest (K : list bytes → option ascii → bytes → option X) x :
  name ∈ key_list → (∀ pv, K caps pv (dquote :: rest) = Some x) →
  rmatch key_names caps pv (lit name ++ dquote :: rest) K = Some x.
Proof.
  intros Hn HK. unfold key_list in Hn. change dquote with "034"%char in *.
  repeat (apply elem_of_cons in Hn as [->|Hn]; [vm_compute; by rewrite HK|]).
  by apply elem_of_nil in Hn.
Qed.

(** The key pattern matches in front of a value, up to it. *)
Lemma keyed_match name pv v :
  name ∈ key_list → plain_value v →
  match_here keyedTail pv (keyed name v) = Some ([v; keyed name v], []).
Proof.
  intros Hn Hv. pose proof (tail_value_match [keyed name v] (Some " "%char) v Hv) as Ht.
  assert (∃ c v', v = c :: v' ∧ spacec c = false) as (c & v' & -> & Hc)
    by (destruct v as [|c v']; [by destruct Hv|destruct Hv; eauto]).
  unfold match_here, keyedTail. cbn [rmatch quote]. unfold keyed at 1. rewrite Ascii.eqb_refl.
  apply names_match; [done|]. intros pv'. rewrite Ascii.eqb_refl.
  cbn [spaces_re colon rmatch star].
  change (spacec ":") with false. change (Ascii.eqb ":" ":") with true.
  change (spacec " ") with true. cbv iota. rewrite Hc. by rewrite Ht.
Qed.

(** Nothing before the first quote can start a match of the key pattern. *)
Lemma keyed_find name pre v : ∀ pv,
  name ∈ key_list → plain_value v → Forall (fun c => c ≠ dquote) pre →
  find keyedTail pv (pre ++ keyed name v) = Some ([v; keyed name v], []).
Proof.
  induction pre as [|c pre IH]; intros pv Hn Hv Hp.
  - cbn [app]. pose proof (keyed_match name pv v Hn Hv) as Hm.
    remember (keyed name v) as kv. by destruct kv; cbn [find]; rewrite Hm.
  - inversion_clear Hp as [|? ? Hc Hp']. cbn [app find].
    assert (match_here keyedTail pv (c :: pre ++ keyed name v) = None) as ->; [|by apply IH].
    unfold match_here, keyedTail. cbn [rmatch quote].
    destruct (Ascii.eqb_spec dquote c); [congruence|done].
Qed.

Lemma keyed_tail name pre v :
  name ∈ key_list → plain_value v → Forall (fun c => c ≠ dquote) pre →
  replaceTail (pre ++ keyed name v) keyedTail = pre ++ keyed name (mask v).
Proof.
  intros Hn Hv Hp. unfold replaceTail. rewrite (keyed_find name pre v None Hn Hv Hp).
  rewrite decide_False by apply Hv.
  assert (∀ w, pre ++ keyed name w = (pre ++ keyed name []) ++ w) as E.
  { intros w. unfold keyed. rewrite <- !app_assoc. cbn [app]. by rewrite <- app_assoc. }
  rewrite (E v), (E (mask v)). f_equal. rewrite length_app, Nat.add_sub.
  by rewrite take_app_length.
Qed.

(** A text that starts with a byte foreign to the separator and never holds
    the byte [d] of it goes whole to the last piece. *)
Definition foreign (sep : bytes) (d : ascii) (y : bytes) : Prop :=
  (d ∈ sep) ∧ (d ∉ y) ∧ (match y with [] => False | e :: _ => e ∉ sep end).

Lemma prefix_foreign sep d x y : foreign sep d y → sep `prefix_of` x ++ y ↔ sep `prefix_of` x.
Proof.
  intros (_ & _ & He). destruct y as [|e y]; [done|]. split; [|by apply prefix_app_r].
  intros [t Ht]. apply app_eq_inv in Ht as [(k & Hk & _)|(k & Hk & Ek)]; [by exists k|].
  destruct k as [|f k]; [exists []; by rewrite Hk, !app_nil_r|].
  injection Ek as <- _. exfalso. apply He. rewrite Hk. apply elem_of_app. right. by left.
Qed.

Lemma split_absent sep d y : d ∈ sep → d ∉ y → split_go sep 0 y = [y].
Proof.
  intros Hd. induction y as [|c y IH]; intros Hy; [done|]. cbn [split_go].
  rewrite decide_False; [|intros [t Ht]; apply Hy; rewrite Ht; apply elem_of_app; by left].
  rewrite IH; [done|]. intros H. apply Hy. apply elem_of_cons. by right.
Qed.

Lemma split_app sep d x : ∀ skip, (skip ≤ List.length x)%nat →
  ∃ ws w, (∀ c, c ∈ w → c ∈ x) ∧ ∀ y, foreign sep d y → split_go sep skip (x ++ y) = ws ++ [w ++ y].
Proof.
  induction x as [|c x IH]; intros skip Hs; cbn [List.length] in Hs.
  { assert (skip = 0)%nat as -> by lia. exists [], []. split; [done|].
    intros y (Hd & Hy & _). by apply (split_absent sep d). }
  destruct skip as [|k].
  2: { destruct (IH k) as (ws & w & Hw & H); [lia|]. exists ws, w.
       split; [intros; apply elem_of_cons; auto|]. intros y Hy. by apply H. }
  destruct (decide (sep `prefix_of` c :: x)) as [Hp|Hp].
  - destruct (IH (List.length sep - 1)%nat) as (ws & w & Hw & H).
    { apply prefix_length in Hp. simpl in Hp. lia. }
    exists ([] :: ws), w. split; [intros; apply elem_of_cons; auto|]. intros y Hy. cbn [app split_go].
    rewrite decide_True by (by apply (prefix_foreign _ d (c :: x))). by rewrite H.
  - destruct (IH 0%nat) as (ws & w & Hw & H); [lia|].
    assert (∀ y, foreign sep d y → ¬ sep `prefix_of` c :: x ++ y) as Hn.
    { intros y Hy. by rewrite (prefix_foreign _ d (c :: x) y Hy). }
    destruct ws as [|w' ws].
    + exists [], (c :: w). split; [intros a; rewrite !elem_of_cons; naive_solver|].
      intros y Hy. cbn [app split_go]. by rewrite decide_False, H by auto.
    + exists ((c :: w') :: ws), w. split; [intros; apply elem_of_cons; auto|].
      intros y Hy. cbn [app split_go]. by rewrite decide_False, H by auto.
Qed.

Lemma join_last sep l : ∃ ctx, ∀ w, JoinWith sep (l ++ [w]) = ctx ++ w.
Proof.
  induction l as [|a l [ctx IH]]; [by exists []|]. exists (a ++ sep ++ ctx). intros w.
  cbn [app]. rewrite <- !app_assoc, <- IH. by destruct l.
Qed.

(** What precedes a text without separators contributes a fixed context and
    the front of the last segment. *)
Lemma redact_context pre : ∃ ctx seg, (∀ c, c ∈ seg → c ∈ pre) ∧
  ∀ y, foreign newline "010" y → foreign (lit " > ") ">" y →
    redact_bytes (pre ++ y) = ctx ++ redactSegment (seg ++ y).
Proof.
  destruct (split_app newline "010" pre 0) as (ls & l & Hl & El); [lia|].
  destruct (split_app (lit " > ") ">" l 0) as (ss & s & Hs & Es); [lia|].
  destruct (join_last (lit " > ") (redactSegment <$> ss)) as [c1 H1].
  destruct (join_last newline (redactLine <$> ls)) as [c2 H2].
  exists (c2 ++ c1), s. split; [auto|]. intros y Hy1 Hy2.
  assert (redact_bytes (pre ++ y) = JoinWith newline (redactLine <$> SplitOn (pre ++ y) newline)) as ->.
  { destruct y; [by destruct Hy1 as (_ & _ & ?)|]. unfold redact_bytes.
    destruct (pre ++ a :: y) eqn:E; [|done]. apply app_nil in E as [_ ?]. done. }
  unfold SplitOn at 1. rewrite El by done. rewrite fmap_app. cbn [fmap list_fmap]. rewrite H2.
  unfold redactLine, SplitOn. rewrite Es by done. rewrite fmap_app. cbn [fmap list_fmap]. rewrite H1.
  by rewrite app_assoc.
Qed.

Lemma keyed_foreign name v : name ∈ key_list → plain_value v →
  foreign newline "010" (keyed name v) ∧ foreign (lit " > ") ">" (keyed name v).
Proof.
  intros Hn (_ & Hv & _). rewrite Forall_forall in Hv.
  assert (∀ d, d = "010"%char ∨ d = ">"%char → d ∉ keyed name v) as Hk.
  { assert (Forall (fun d => d ≠ "010"%char ∧ d ≠ ">"%char) (lit name)) as Hname.
    { unfold key_list in Hn.
      repeat (apply elem_of_cons in Hn as [->|Hn]; [vm_compute; by repeat constructor|]).
      by apply elem_of_nil in Hn. }
    rewrite Forall_forall in Hname. intros d Hd H. unfold keyed in H.
    rewrite elem_of_cons, elem_of_app, !elem_of_cons in H.
    destruct H as [->|[H|[->|[->|[->|H]]]]]; try (by destruct Hd);
      [apply Hname in H|apply Hv in H]; destruct Hd as [->| ->]; tauto. }
  assert (∀ sep, Forall (fun c => c ≠ dquote) sep → dquote ∉ sep) as Hq.
  { intros sep Hs H. rewrite Forall_forall in Hs. by apply (Hs dquote). }
  split; (split; [|split; [by auto|apply Hq; by repeat constructor]]); vm_compute; by repeat constructor.
Qed.

(** Of a secret the engine prints behind its key, only the length reaches
    the panel: two messages that differ in that value alone, and not in its
    length, are redacted to the same text. *)
Theorem redact_keyed_value_hidden (pre : bytes) (name : string) (v1 v2 : bytes) :
  name ∈ key_list → Forall (fun c => c ≠ dquote) pre →
  plain_value v1 → plain_value v2 → rune_count v1 = rune_count v2 →
  redact_bytes (pre ++ keyed name v1) = redact_bytes (pre ++ keyed name v2).
Proof.
  intros Hn Hp H1 H2 Hl. destruct (redact_context pre) as (ctx & seg & Hseg & Hctx).
  assert (Forall (fun c => c ≠ dquote) seg) as Hs.
  { rewrite Forall_forall in Hp |- *. auto. }
  destruct (keyed_foreign name v1 Hn H1) as [F1 G1], (keyed_foreign name v2 Hn H2) as [F2 G2].
  rewrite !Hctx by done. unfold redactSegment. rewrite !keyed_tail by done.
  unfold mask. by rewrite Hl.
Qed.

Lemma redact_keyed_value_hidden_witness :
  plain_value (lit "hunter2") ∧
  redact_bytes (lit "config > invalid " ++ keyed "password" (lit "hunter2"))
  = redact_bytes (lit "config > invalid " ++ keyed "password" (lit "qwertyu")).
Proof.
  assert (∀ v, v = lit "hunter2" ∨ v = lit "qwertyu" → plain_value v) as Hv.
  { intros v [-> | ->]; (split; [by vm_compute|]; split; [vm_compute; by repeat constructor|]);
      intros [t Ht]; by vm_compute in Ht. }
  split; [auto|]. apply redact_keyed_value_hidden; [| |auto..|by vm_compute].
  - unfold key_list. rewrite !elem_of_cons. tauto.
  - vm_compute. by repeat constructor.
Defined.

(** A second pass can still change a message: where the first pass removes the
    text in front of a marker it had stopped at, the second one looks further.
    The message must hold a marker of its own for that. *)
Definition twice_msg : string :=
  "aaaaaaaaaaaaaaaaaaaaaaaaaaaaaainvalid UUID: [redacted 5 chars] invalid UUID: hunter2".

(** Redact is not idempotent on every text, as redact.go says it is. *)
Theorem redact_not_idempotent : Redact (Redact twice_msg) ≠ Redact twice_msg.
Proof. vm_compute. discriminate. Qed.
