(* ===== verification/LogRing.v ===== *)
(** * The engine's log ring

    engine/logring.go: the recent lines of the proxy engine, in a ring of fixed
    capacity, redacted on the way in. The ring is shown to refine its
    description in one line: it shows the last [capacity] lines added since the
    last reset, oldest first, and counts the others. *)

From S2P Require Import Prelude GoStrings Regex Redact.

(** ** The operations of logring.go *)

Definition DefaultLogCapacity : Z := 256.

Record LogEntry : Type := mkEntry { At : Z; Text : string }.

Definition noEntry : LogEntry := mkEntry 0 "".

Record LogRing : Type := mkRing {
  buf : list LogEntry;
  next : nat;
  filled : bool;
  dropped : Z; (* uint64 *)
}.

Definition u64 (z : Z) : Z := (z mod 2 ^ 64)%Z.

Definition NewLogRing (capacity : Z) : LogRing :=
  let capacity := if (capacity <=? 0)%Z then DefaultLogCapacity else capacity in
  mkRing (replicate (Z.to_nat capacity) noEntry) 0 false 0.

(** The body of Add after the lock; indexing a slice out of range, or taking
    the remainder by a length of zero, panics. *)
Definition add_entry (r : LogRing) (entry : LogEntry) : option LogRing :=
  let d := if filled r then u64 (dropped r + 1) else dropped r in
  if (next r <? List.length (buf r))%nat then
    let b := <[next r := entry]> (buf r) in
    let n := ((next r + 1) mod List.length b)%nat in
    Some (mkRing b n ((n =? 0)%nat || filled r) d)
  else None.

(** A receiver is a pointer: [None] is [nil]. *)
Definition Add (r : option LogRing) (now : Z) (text : string) : option (option LogRing) :=
  match r with
  | None => Some None
  | Some r => Some <$> add_entry r (mkEntry now (Redact text))
  end.

Definition Entries (r : option LogRing) : list LogEntry :=
  match r with
  | None => []
  | Some r =>
      let out := if filled r then drop (next r) (buf r) else [] in
      out ++ take (next r) (buf r)
  end.

Definition Dropped (r : option LogRing) : Z :=
  match r with None => 0 | Some r => dropped r end.

Definition Reset (r : option LogRing) : option LogRing :=
  match r with
  | None => None
  | Some r => Some (mkRing (replicate (List.length (buf r)) noEntry) 0 false 0)
  end.

(** ringSink.Handle: a message for whichever ring is active. *)
Definition Handle (sinkRing : option LogRing) (now : Z) (msg : option string) : option (option LogRing) :=
  match sinkRing, msg with
  | Some r, Some m => Add (Some r) now m
  | r, _ => Some r
  end.

(** ** The promise *)

(** All the lines since the last reset. *)
Record Log : Type := mkLog { cap : nat; lines : list LogEntry }.

Definition log_add (l : Log) (e : LogEntry) : Log := mkLog (cap l) (lines l ++ [e]).
Definition log_reset (l : Log) : Log := mkLog (cap l) [].
Definition log_entries (l : Log) : list LogEntry := drop (List.length (lines l) - cap l) (lines l).
Definition log_dropped (l : Log) : Z := u64 (Z.of_nat (List.length (lines l) - cap l)).

(** One call of the ring, and what it returns. *)
Inductive call : Type :=
| CAdd (now : Z) (text : string)
| CReset
| CEntries
| CDropped.

Inductive answer : Type :=
| ANone
| AEntries (l : list LogEntry)
| ADropped (n : Z).

Definition ring_call (r : LogRing) (c : call) : option (LogRing * answer) :=
  match c with
  | CAdd now text => r' ← Add (Some r) now text; r' ← r'; Some (r', ANone)
  | CReset => r' ← Reset (Some r); Some (r', ANone)
  | CEntries => Some (r, AEntries (Entries (Some r)))
  | CDropped => Some (r, ADropped (Dropped (Some r)))
  end.

Definition log_call (l : Log) (c : call) : Log * answer :=
  match c with
  | CAdd now text => (log_add l (mkEntry now (Redact text)), ANone)
  | CReset => (log_reset l, ANone)
  | CEntries => (l, AEntries (log_entries l))
  | CDropped => (l, ADropped (log_dropped l))
  end.

Fixpoint ring_run (r : LogRing) (cs : list call) : option (LogRing * list answer) :=
  match cs with
  | [] => Some (r, [])
  | c :: cs => '(r, a) ← ring_call r c; '(r, l) ← ring_run r cs; Some (r, a :: l)
  end.

Fixpoint log_run (l : Log) (cs : list call) : Log * list answer :=
  match cs with
  | [] => (l, [])
  | c :: cs => let '(l, a) := log_call l c in let '(l, r) := log_run l cs in (l, a :: r)
  end.

(** ** The simulation *)

(** The line number [j] of the log, if still kept, is in slot [j] modulo the
    capacity. *)
Record sim (r : LogRing) (l : Log) : Prop := mkSim {
  sim_cap : List.length (buf r) = cap l;
  sim_pos : (0 < cap l)%nat;
  sim_next : next r = (List.length (lines l) mod cap l)%nat;
  sim_filled : filled r = (cap l <=? List.length (lines l))%nat;
  sim_dropped : dropped r = log_dropped l;
  sim_slot : ∀ j, (List.length (lines l) - cap l ≤ j < List.length (lines l))%nat →
    buf r !! (j mod cap l)%nat = lines l !! j;
}.

Lemma sim_new c : sim (NewLogRing c)
  (mkLog (Z.to_nat (if (c <=? 0)%Z then DefaultLogCapacity else c)) []).
Proof.
  assert (0 < Z.to_nat (if (c <=? 0)%Z then DefaultLogCapacity else c))%nat as Hp.
  { destruct (Z.leb_spec c 0); unfold DefaultLogCapacity; lia. }
  split; simpl.
  - by rewrite length_replicate.
  - done.
  - by rewrite Nat.Div0.mod_0_l.
  - symmetry. apply Nat.leb_gt. done.
  - done.
  - lia.
Qed.

Lemma sim_reset r l : sim r l →
  sim (mkRing (replicate (List.length (buf r)) noEntry) 0 false 0) (log_reset l).
Proof.
  intros [Hc Hp _ _ _ _]. split; simpl.
  - by rewrite length_replicate.
  - done.
  - by rewrite Nat.Div0.mod_0_l.
  - symmetry. apply Nat.leb_gt. done.
  - done.
  - lia.
Qed.

Lemma mod_window (c n j : nat) : (0 < c)%nat → (n < j + c)%nat → (j < n)%nat → (j mod c ≠ n mod c)%nat.
Proof.
  intros Hc Hj Hn E. pose proof (Nat.div_mod_eq j c). pose proof (Nat.div_mod_eq n c).
  assert (n / c = j / c ∨ n / c ≥ j / c + 1 ∨ n / c + 1 ≤ j / c)%nat as [Hq|[Hq|Hq]] by lia; nia.
Qed.

Lemma succ_mod (c n : nat) : (0 < c)%nat →
  (((n mod c + 1) mod c) = (n + 1) mod c)%nat.
Proof. intros Hc. by rewrite Nat.Div0.add_mod_idemp_l. Qed.

Lemma sim_add r l e : sim r l → ∃ r', add_entry r e = Some r' ∧ sim r' (log_add l e).
Proof.
  intros [Hc Hp Hn Hf Hd Hs]. set (n := List.length (lines l)) in *.
  assert (next r < List.length (buf r))%nat as Hlt by (rewrite Hn, Hc; apply Nat.mod_upper_bound; lia).
  unfold add_entry. apply Nat.ltb_lt in Hlt as ->. eexists. split; [done|].
  rewrite length_insert, Hc, Hn, succ_mod by done.
  assert (List.length (lines (log_add l e)) = (n + 1)%nat) as Hl by (simpl; by rewrite length_app).
  split; cbn [buf next filled dropped cap lines log_add]; rewrite ?Hl.
  - by rewrite length_insert.
  - done.
  - fold n. by rewrite length_app.
  - rewrite length_app. cbn [List.length]. fold n. rewrite Hf.
    destruct (Nat.leb_spec (cap l) n), (Nat.leb_spec (cap l) (n + 1)); try lia; try by rewrite orb_true_r.
    + replace (n + 1)%nat with (cap l) by lia. by rewrite Nat.Div0.mod_same.
    + rewrite Nat.mod_small by lia. by destruct n.
  - unfold log_dropped in *. cbn [cap lines log_add] in *. rewrite length_app. cbn [List.length]. fold n.
    rewrite Hf, Hd. fold n. destruct (Nat.leb_spec (cap l) n).
    + unfold u64. rewrite Zplus_mod_idemp_l. f_equal. lia.
    + do 2 f_equal. lia.
  - rewrite length_app. cbn [List.length]. fold n. intros j Hj.
    destruct (decide (j = n)) as [->|Hjn].
    + rewrite list_lookup_insert_eq by (rewrite Hc; apply Nat.mod_upper_bound; lia).
      by rewrite lookup_app_r, Nat.sub_diag by lia.
    + rewrite list_lookup_insert_ne by (apply not_eq_sym, mod_window; lia).
      rewrite lookup_app_l by lia. apply Hs. lia.
Qed.

(** Reading the ring from its oldest slot gives the lines kept, in order. *)
Lemma sim_entries r l : sim r l → Entries (Some r) = log_entries l.
Proof.
  intros [Hc Hp Hn Hf Hd Hs]. unfold Entries, log_entries. set (n := List.length (lines l)) in *.
  pose proof (Nat.div_mod_eq n (cap l)) as Hdiv. pose proof (Nat.mod_upper_bound n (cap l) ltac:(lia)).
  rewrite Hf, Hn. destruct (Nat.leb_spec (cap l) n) as [Hle|Hlt].
  - destruct (n / cap l)%nat as [|q]; [lia|]. rewrite Nat.mul_succ_r, (Nat.mul_comm _ q) in Hdiv.
    apply list_eq. intros i. rewrite lookup_drop.
    destruct (decide (i < cap l)%nat) as [Hi|Hi].
    2: { rewrite !lookup_ge_None_2; [done|fold n; lia|].
         rewrite length_app, length_drop, length_take. lia. }
    rewrite <- Hs by lia. destruct (decide (i < cap l - n mod cap l)%nat) as [Hi'|Hi'].
    + rewrite lookup_app_l by (rewrite length_drop; lia). rewrite lookup_drop. f_equal.
      replace (n - cap l + i)%nat with (n mod cap l + i + q * cap l)%nat by lia.
      rewrite Nat.Div0.mod_add, (Nat.mod_small (n mod cap l + i)); lia.
    + rewrite lookup_app_r by (rewrite length_drop; lia). rewrite length_drop, lookup_take_lt by lia.
      f_equal. replace (n - cap l + i)%nat
        with ((i - (List.length (buf r) - n mod cap l)) + S q * cap l)%nat by lia.
      rewrite Nat.Div0.mod_add, (Nat.mod_small (i - _)); lia.
  - rewrite Nat.mod_small by lia. replace (n - cap l)%nat with 0%nat by lia. rewrite drop_0. cbn [app].
    apply list_eq. intros i. destruct (decide (i < n)%nat).
    + rewrite lookup_take_lt by lia. rewrite <- Hs by lia. by rewrite Nat.mod_small by lia.
    + rewrite !lookup_ge_None_2; [done|fold n; lia|]. rewrite length_take. lia.
Qed.

(** One call of the ring answers as the log does, and stays related to it. *)
Lemma sim_call r l c : sim r l →
  ∃ r', ring_call r c = Some (r', snd (log_call l c)) ∧ sim r' (fst (log_call l c)).
Proof.
  intros H. destruct c as [now text| | |]; cbn [ring_call log_call fst snd].
  - destruct (sim_add r l (mkEntry now (Redact text)) H) as (r' & E & H').
    exists r'. unfold Add. by rewrite E.
  - eexists. split; [reflexivity|]. by apply sim_reset.
  - exists r. by rewrite (sim_entries r l H).
  - exists r. split; [|done]. cbn [Dropped]. by rewrite (sim_dropped _ _ H).
Qed.

Lemma sim_run cs : ∀ r l, sim r l →
  ∃ r', ring_run r cs = Some (r', snd (log_run l cs)) ∧ sim r' (fst (log_run l cs)).
Proof.
  induction cs as [|c cs IH]; intros r l H; [by exists r|]. cbn [ring_run log_run].
  destruct (sim_call r l c H) as (r1 & -> & H1). destruct (log_call l c) as [l1 a].
  destruct (IH r1 l1 H1) as (r2 & E & H2). exists r2. cbn [mbind option_bind] in *. simpl in *.
  rewrite E. by destruct (log_run l1 cs).
Qed.

(** The lines a new ring has kept of all those added. *)
Definition new_log (capacity : Z) : Log :=
  mkLog (Z.to_nat (if (capacity <=? 0)%Z then DefaultLogCapacity else capacity)) [].

(** A new ring, whatever its capacity and whatever is then called on it,
    never panics and answers every call as the list of all lines does: the last
    [capacity] lines since the reset, oldest first, and how many more there
    were, modulo 2^64. *)
Theorem log_ring_refines (capacity : Z) (cs : list call) :
  ∃ r, ring_run (NewLogRing capacity) cs = Some (r, snd (log_run (new_log capacity) cs)).
Proof. destruct (sim_run cs _ _ (sim_new capacity)) as (r & H & _). by exists r. Qed.

(** The lines of the log come from [Redact]. *)
Lemma log_run_redacted cs : ∀ l,
  Forall (fun e => e ∈ lines l ∨ ∃ now t, CAdd now t ∈ cs ∧ e = mkEntry now (Redact t))
    (lines (fst (log_run l cs))).
Proof.
  induction cs as [|c cs IH]; intros l; cbn [log_run].
  { apply Forall_forall. by left. }
  destruct (log_call l c) as [l1 a] eqn:E. specialize (IH l1).
  destruct (log_run l1 cs) as [l2 r] eqn:E2. cbn [fst] in IH |- *.
  eapply Forall_impl; [exact IH|]. intros e [He|(now & t & Hin & ->)].
  - destruct c; cbn [log_call] in E; simplify_eq; cbn [lines log_add log_reset] in He;
      [|by apply elem_of_nil in He|by left..].
    apply elem_of_app in He as [He|He%list_elem_of_singleton]; [by left|]. subst e.
    right. exists now, text. split; [by left|done].
  - right. exists now, t. split; [by right|done].
Qed.

(** Whatever the engine logs and however long it runs, no line the ring
    shows holds anything of the shape of a key. *)
Theorem ring_shows_no_secret (capacity : Z) (cs : list call) (r : LogRing) (answers : list answer) :
  Forall (fun c => match c with CAdd _ t => go_string (lit t) | _ => True end) cs →
  ring_run (NewLogRing capacity) cs = Some (r, answers) →
  Forall (fun e => ContainsSecretShape (Text e) = false) (Entries (Some r)).
Proof.
  intros Hgo Hrun. destruct (sim_run cs _ _ (sim_new capacity)) as (r' & H & Hsim).
  rewrite H in Hrun. injection Hrun as -> _. rewrite (sim_entries _ _ Hsim). apply Forall_drop.
  eapply Forall_impl; [apply log_run_redacted|].
  intros e [He|(now & t & Hin & ->)]; [by apply elem_of_nil in He|]. cbn [Text].
  rewrite Forall_forall in Hgo. apply redact_lines_safe. by apply (Hgo _ Hin).
Qed.

Lemma ring_shows_no_secret_witness :
  ∃ r, ring_run (NewLogRing 2)
    [CAdd 1 "started"; CAdd 2 "user 66ad4540-b58c-4ad2-9926-ea63445a9b57"; CAdd 3 "stopped"]
    = Some (r, [ANone; ANone; ANone])
  ∧ Forall (fun e => ContainsSecretShape (Text e) = false) (Entries (Some r)).
Proof.
  eexists. split; [by vm_compute|].
  eapply (ring_shows_no_secret 2
    [CAdd 1 "started"; CAdd 2 "user 66ad4540-b58c-4ad2-9926-ea63445a9b57"; CAdd 3 "stopped"]);
    [repeat constructor; by vm_compute|by vm_compute].
Defined.
