(* ===== verification/Engine.v ===== *)
(** * The tunnel engine (internal/engine)

    engine.go and tundevice.go, with forceLogToRing of logring.go. xray-core is a
    parameter: a document loads or not, an instance is constructed, started and
    closed, and while it does any of these it may create tunnel devices and log
    lines. The operation lock makes each operation one function on the state. *)

From S2P Require Import Prelude GoStrings StateError Redact LogRing.

Local Open Scope Z_scope.
Local Open Scope svc_scope.

(** ** The loaded configuration *)

Inductive LogType := LogNone | LogConsole | LogFile.

Record LogConfig := MkLogConfig {
  ErrorLogType : LogType;
  ErrorLogPath : string;
  ErrorLogLevel : Z;
  AccessLogType : LogType;
  AccessLogPath : string;
  EnableDnsLog : bool
}.

(** One entry of config.App: an app/log configuration, one that does not decode,
    or another application's. *)
Inductive AppConfig := AppLog (lc : LogConfig) | AppLogBroken (msg : string) | AppOther.

(** One inbound: the device name of a TUN inbound, or anything else. *)
Inductive Inbound := InTun (name : string) | InOther.

Record CoreConfig := MkCoreConfig { App : list AppConfig; Inbounds : list Inbound }.

Definition severity_warning : Z := 2.

Definition silenced (lc : LogConfig) : LogConfig := MkLogConfig LogConsole "" (ErrorLogLevel lc) LogNone "" false.

(** The loop of forceLogToRing: the first app/log configuration is rewritten. *)
Fixpoint force_apps (l : list AppConfig) : res string (option (list AppConfig)) :=
  match l with
  | [] => Ok None
  | AppLogBroken msg :: _ => Err msg
  | AppLog lc :: l => Ok (Some (AppLog (silenced lc) :: l))
  | AppOther :: l => let? r := force_apps l in Ok (cons AppOther <$> r)
  end.

Definition forceLogToRing (cfg : CoreConfig) : res string CoreConfig :=
  let? r := force_apps (App cfg) in
  match r with
  | Some apps => Ok (MkCoreConfig apps (Inbounds cfg))
  | None =>
      Ok (MkCoreConfig (AppLog (MkLogConfig LogConsole "" severity_warning LogNone "" false) :: App cfg) (Inbounds cfg))
  end.

(** tunInboundNames *)
Definition tunInboundNames (cfg : CoreConfig) : list string :=
  omap (λ i, match i with InTun name => if (name =? "")%string then None else Some name | InOther => None end) (Inbounds cfg).

(** ** The parameters *)

(** xray-core and the kernel's links and descriptors. The lines are what the
    call logged. *)
Class Core (K I : Type) := {
  LoadJSONConfig : string → K → res string CoreConfig * list string * K;
  core_New : CoreConfig → K → res string I * list string * K;
  inst_Start : I → K → option string * list string * K;
  inst_Close : I → K → option string * list string * K;
  lookupLinkIndex : string → K → option Z;
  deleteLink : string → K → option string * K;
  tunDescriptors : K → list Z;
  closeDescriptor : Z → K → option string * K;
  ctx_Err : K → option string;
  core_now : K → Z;
  core_wait : K → K                       (* time.Sleep(5ms) *)
}.

(** ** The engine *)

Inductive Phase := PhaseStopped | PhaseStarting | PhaseRunning | PhaseFailed.

#[export] Instance Phase_eq_dec : EqDecision Phase.
Proof. solve_decision. Defined.

Record tunDevice := MkTun { tun_name : string; tun_index : Z }.
Record tunHold := MkHold { devices : list tunDevice; fds : list Z }.

(** What was done to instances and devices, in order. *)
Inductive EEvent (I : Type) :=
| ENew (i : I)
| EClose (i : I)
| EDelete (name : string) (index : Z)   (* the index the link had when it was deleted *)
| ECloseFd (fd : Z).
Arguments ENew {I}. Arguments EClose {I}. Arguments EDelete {I}. Arguments ECloseFd {I}.

Record Engine (K I : Type) := MkEngine {
  core : K;
  phase : Phase;
  reason : string;
  since : Z;
  inst : option I;
  tun : option tunHold;
  logs : LogRing;
  history : list (EEvent I)
}.
Arguments MkEngine {K I}. Arguments core {K I}. Arguments phase {K I}. Arguments reason {K I}. Arguments since {K I}.
Arguments inst {K I}. Arguments tun {K I}. Arguments logs {K I}. Arguments history {K I}.

Section Engine.
Context {K I : Type} `{Core K I}.

Definition EM (A : Type) : Type := SE (Engine K I) string A.

Definition NewWithLogCapacity (capacity : Z) (k : K) : Engine K I :=
  MkEngine k PhaseStopped "" (core_now k) None None (NewLogRing capacity) [].

Definition setState (p : Phase) (why : string) : EM unit := λ e,
  (Ok tt, MkEngine (core e) p why (core_now (core e)) (inst e) (tun e) (logs e) (history e)).

Definition hold_instance (i : option I) (h : option tunHold) : EM unit := λ e,
  (Ok tt, MkEngine (core e) (phase e) (reason e) (since e) i h (logs e) (history e)).

Definition record (ev : EEvent I) : EM unit := λ e,
  (Ok tt, MkEngine (core e) (phase e) (reason e) (since e) (inst e) (tun e) (logs e) (history e ++ [ev])).

Definition set_logs (f : LogRing → LogRing) : EM unit := λ e,
  (Ok tt, MkEngine (core e) (phase e) (reason e) (since e) (inst e) (tun e) (f (logs e)) (history e)).

(** LogRing.Add on the engine's ring *)
Definition add_line (now : Z) (r : LogRing) (text : string) : LogRing :=
  match Add (Some r) now text with Some (Some r') => r' | _ => r end.

Definition logs_Add (text : string) : EM unit := λ e,
  (Ok tt, MkEngine (core e) (phase e) (reason e) (since e) (inst e) (tun e)
     (add_line (core_now (core e)) (logs e) text) (history e)).

(** A call of xray-core: its lines go through the ring's sink. *)
Definition in_core {A} (f : K → A * list string * K) : EM A := λ e,
  let '(a, lines, k) := f (core e) in
  (Ok a, MkEngine k (phase e) (reason e) (since e) (inst e) (tun e)
     (foldl (add_line (core_now k)) (logs e) lines) (history e)).

Definition in_kernel {A} (f : K → A * K) : EM A := in_core (λ k, let '(a, k) := f k in (a, [], k)).

(** ** tundevice.go *)

(** tunReleaseGrace in steps of the 5 millisecond sleep *)
Definition release_polls : nat := 400.

Fixpoint wait_removed (n : nat) (name : string) : EM (option string) :=
  match n with
  | O => ret (Some ("the tunnel device " ++ name ++ " is still present 2s after it was deleted")%string)
  | S n =>
      e <-- get;;
      match lookupLinkIndex name (core e) with
      | None => ret None
      | Some _ => in_kernel (λ k, (tt, core_wait k));;; wait_removed n name
      end
  end.

Definition removeTunDevice (d : tunDevice) : EM (option string) :=
  e <-- get;;
  match lookupLinkIndex (tun_name d) (core e) with
  | None => ret None
  | Some index =>
      if negb (index =? tun_index d) then
        ret (Some ("the tunnel device " ++ tun_name d ++ " is now interface " ++ Itoa index ++ " and not the " ++
                   Itoa (tun_index d) ++ " this engine created, so it was left alone")%string)
      else
        record (EDelete (tun_name d) index);;;
        r <-- in_kernel (deleteLink (tun_name d));;
        match r with
        | Some msg => ret (Some ("deleting the tunnel device " ++ tun_name d ++ ": " ++ msg)%string)
        | None => wait_removed release_polls (tun_name d)
        end
  end.

Definition opt_list {A} (o : option A) : list A := match o with Some a => [a] | None => [] end.

(** Both loops of release keep going past every failure. *)
Fixpoint remove_all (ds : list tunDevice) : EM (list string) :=
  match ds with
  | [] => ret []
  | d :: ds => r <-- removeTunDevice d;; rs <-- remove_all ds;; ret (opt_list r ++ rs)%list
  end.

Fixpoint close_all (l : list Z) : EM (list string) :=
  match l with
  | [] => ret []
  | fd :: l =>
      record (ECloseFd fd);;;
      r <-- in_kernel (closeDescriptor fd);;
      rs <-- close_all l;;
      ret ((match r with Some msg => [("closing the tunnel descriptor: " ++ msg)%string] | None => [] end) ++ rs)%list
  end.

(** errors.Join of a list of texts *)
Definition join_errors (l : list string) : option string :=
  match l with [] => None | _ => Some (Join l (String "010" "")) end.

Definition release (h : option tunHold) : EM (option string) :=
  match h with
  | None => ret None
  | Some h => e1 <-- remove_all (devices h);; e2 <-- close_all (fds h);; ret (join_errors (e1 ++ e2)%list)
  end.

Definition captureTunHold (cfg : CoreConfig) (before : list Z) : EM tunHold :=
  e <-- get;;
  ret (MkHold
    (omap (λ name, MkTun name <$> lookupLinkIndex name (core e)) (tunInboundNames cfg))
    (List.filter (λ fd, negb (bool_decide (fd ∈ before))) (tunDescriptors (core e)))).

(** ** engine.go *)

Definition releaseAfterFailedStart (h : tunHold) : EM unit :=
  r <-- release (Some h);;
  match r with
  | Some msg => logs_Add ("the tunnel device was not released after a start that failed: " ++ msg)%string
  | None => ret tt
  end.

Definition close_instance (i : I) : EM (option string) := record (EClose i);;; in_core (inst_Close i).

(** Giving up a start after the instance was constructed. *)
Definition abandon {A} (i : I) (h : tunHold) (msg : string) : EM A :=
  close_instance i;;; releaseAfterFailedStart h;;; raise msg.

Definition buildAndStart (configJSON : string) : EM (I * tunHold) :=
  set_logs (λ r, default r (Reset (Some r)));;;
  r <-- in_core (LoadJSONConfig configJSON);;
  cfg <-- lift_res r;;
  cfg <-- lift_res (forceLogToRing cfg);;
  e <-- get;;
  let before := tunDescriptors (core e) in
  r <-- in_core (core_New cfg);;
  h <-- captureTunHold cfg before;;
  match r with
  | Err msg => releaseAfterFailedStart h;;; raise msg
  | Ok i =>
      record (ENew i);;;
      e <-- get;;
      match ctx_Err (core e) with
      | Some msg => abandon i h msg
      | None =>
          r <-- in_core (inst_Start i);;
          match r with
          | Some msg => abandon i h msg
          | None => ret (i, h)
          end
      end
  end.

(** wrap: every error an operation returns is redacted *)
Definition Start (configJSON : string) : EM unit :=
  e <-- get;;
  if bool_decide (phase e = PhaseRunning) then ret tt
  else match ctx_Err (core e) with
       | Some msg => raise (Redact msg)
       | None =>
           setState PhaseStarting "";;;
           r <-- attempt_ (buildAndStart configJSON);;
           match r with
           | Err msg => setState PhaseFailed (Redact msg);;; raise (Redact msg)
           | Ok (i, h) => hold_instance (Some i) (Some h);;; setState PhaseRunning ""
           end
       end.

Definition Stop : EM unit :=
  e <-- get;;
  let held := inst e in
  let h := tun e in
  hold_instance None None;;;
  errs <-- match held with
           | None => release h
           | Some i => c <-- close_instance i;; r <-- release h;; ret (join_errors (opt_list c ++ opt_list r)%list)
           end;;
  setState PhaseStopped "";;;
  match errs with
  | Some msg => raise (Redact msg)
  | None => ret tt
  end.

(** Validate builds and opens nothing. *)
Definition Validate (configJSON : string) : EM unit :=
  r <-- in_core (LoadJSONConfig configJSON);;
  match r with Err msg => raise (Redact msg) | Ok _ => ret tt end.

End Engine.
