(* ===== verification/EngineFacts.v ===== *)
(** * What the tunnel engine guarantees *)

From S2P Require Import Prelude GoStrings StateError Redact LogRing Engine.

Local Open Scope Z_scope.

(** ** One instance at a time *)

(** A run of instance events that ends holding [o]: an instance is constructed
    only while none is held, and the one held is the one that is closed. *)
Inductive slot {I} : list (EEvent I) → option I → Prop :=
| slot_nil : slot [] None
| slot_new l i : slot l None → slot (l ++ [ENew i]) (Some i)
| slot_close l i : slot l (Some i) → slot (l ++ [EClose i]) None
| slot_delete l n x o : slot l o → slot (l ++ [EDelete n x]) o
| slot_fd l fd o : slot l o → slot (l ++ [ECloseFd fd]) o.

Inductive engine_op := EStart (doc : string) | EStop | EValidate (doc : string).

Section Engine.
Context {K I : Type} `{Core K I}.

Definition engine_step (e : Engine K I) (o : engine_op) : Engine K I :=
  match o with
  | EStart doc => (Start doc e).2
  | EStop => (Stop e).2
  | EValidate doc => (Validate doc e).2
  end.

Definition engine_run (capacity : Z) (k : K) (ops : list engine_op) : Engine K I :=
  foldl engine_step (NewWithLogCapacity capacity k) ops.

(** Work on devices, descriptors and log lines only. *)
Definition is_device (ev : EEvent I) : Prop := match ev with EDelete _ _ | ECloseFd _ => True | _ => False end.

Definition on_devices (e e' : Engine K I) : Prop :=
  inst e' = inst e ∧ phase e' = phase e ∧ tun e' = tun e ∧
  ∃ evs, history e' = (history e ++ evs)%list ∧ Forall is_device evs.

#[local] Instance on_devices_refl : Reflexive on_devices.
Proof. intros e. split_and!; [done..|]. exists []. by rewrite app_nil_r. Qed.
#[local] Instance on_devices_trans : Transitive on_devices.
Proof.
  intros e1 e2 e3 (I1 & P1 & T1 & v1 & H1 & F1) (I2 & P2 & T2 & v2 & H2 & F2). split_and!; [congruence..|].
  exists (v1 ++ v2)%list. rewrite H2, H1, app_assoc. split; [done|]. by apply Forall_app.
Qed.

Local Abbreviation gentle m := (keeps on_devices m).

Lemma gentle_core {A} (f : K → A * list string * K) : gentle (in_core f).
Proof.
  intros e. unfold in_core. destruct (f (core e)) as [[a l] k]. split_and!; [done..|]. exists []. by rewrite app_nil_r.
Qed.
Lemma gentle_kernel {A} (f : K → A * K) : gentle (in_kernel f).
Proof. apply gentle_core. Qed.
Lemma gentle_record ev : is_device ev → gentle (record ev).
Proof. intros Hd e. split_and!; [done..|]. exists [ev]. by repeat constructor. Qed.
Lemma gentle_logs f : gentle (set_logs f).
Proof. intros e. split_and!; [done..|]. exists []. by rewrite app_nil_r. Qed.
Lemma gentle_line t : gentle (logs_Add t).
Proof. intros e. split_and!; [done..|]. exists []. by rewrite app_nil_r. Qed.
Local Hint Resolve gentle_core gentle_kernel gentle_logs gentle_line : keeps.
Local Hint Extern 1 (keeps on_devices (record _)) => apply gentle_record; exact Logic.I : keeps.

Lemma gentle_link_wait n name : gentle (wait_removed n name).
Proof. induction n as [|n IH]; simpl; repeat keeps_step. Qed.
Local Hint Resolve gentle_link_wait : keeps.

Lemma gentle_remove d : gentle (removeTunDevice d).
Proof. unfold removeTunDevice. repeat keeps_step. Qed.
Local Hint Resolve gentle_remove : keeps.

Lemma gentle_remove_all ds : gentle (remove_all ds).
Proof. induction ds as [|d ds IH]; simpl; repeat keeps_step. Qed.
Lemma gentle_close_all l : gentle (close_all l).
Proof. induction l as [|fd l IH]; simpl; repeat keeps_step. Qed.
Local Hint Resolve gentle_remove_all gentle_close_all : keeps.

Lemma gentle_release h : gentle (release h).
Proof. unfold release. repeat keeps_step. Qed.
Local Hint Resolve gentle_release : keeps.
(** Releasing reports its failures in its value. *)
Lemma quiet_core {A} (f : K → A * list string * K) : quiet (in_core (I := I) f).
Proof. intros e. unfold in_core. destruct (f (core e)) as [[a l] k]. eauto. Qed.
Lemma quiet_kernel {A} (f : K → A * K) : quiet (in_kernel (I := I) f).
Proof. apply quiet_core. Qed.
Lemma quiet_record (ev : EEvent I) : quiet (record (K := K) ev).
Proof. intros e. by eexists _, _. Qed.
Local Hint Resolve quiet_core quiet_kernel quiet_record : quiet.
Lemma quiet_wait n name : quiet (wait_removed n name).
Proof. induction n as [|n IH]; simpl; repeat quiet_step. Qed.
Local Hint Resolve quiet_wait : quiet.
Lemma quiet_release h : quiet (release h).
Proof.
  assert (∀ ds, quiet (remove_all ds)) as Hr.
  { induction ds as [|d ds IH]; simpl; [quiet_step|]. unfold removeTunDevice. repeat quiet_step. }
  assert (∀ l, quiet (close_all l)) as Hc by (induction l as [|fd l IH]; simpl; repeat quiet_step).
  unfold release. repeat quiet_step.
Qed.

Lemma gentle_failed h : gentle (releaseAfterFailedStart h).
Proof. unfold releaseAfterFailedStart. repeat keeps_step. Qed.
Lemma gentle_capture cfg before : gentle (captureTunHold cfg before).
Proof. unfold captureTunHold. repeat keeps_step. Qed.
Local Hint Resolve gentle_failed gentle_capture : keeps.

Lemma slot_devices l evs (o : option I) : Forall is_device evs → slot l o → slot (l ++ evs)%list o.
Proof.
  intros Hd. revert l. induction Hd as [|ev evs Hev Hd IH]; intros l Hs; [by rewrite app_nil_r|].
  replace (l ++ ev :: evs)%list with ((l ++ [ev]) ++ evs)%list by by rewrite <- app_assoc.
  apply IH. destruct ev; try done; by constructor.
Qed.

(** The phase and the instance of the fields, and the instance of the events. *)
Definition at_ (p : Phase) (i : option I) (o : option I) (e : Engine K I) : Prop :=
  phase e = p ∧ inst e = i ∧ slot (history e) o.

Lemma at_gentle {A} (m : EM A) p i o : gentle m → hoare (at_ p i o) m (λ _, at_ p i o) (at_ p i o).
Proof.
  intros Hm e (Hp & Hi & Hs). destruct (Hm e) as (Ei & Ep & _ & evs & Eh & Hd). destruct (m e) as [[a|x] e']; simpl in *;
    (split_and!; [congruence..|]); rewrite Eh; by apply slot_devices.
Qed.

Lemma at_bind {A B} (m : EM A) (f : A → EM B) p i o Q F :
  gentle m → (∀ s, at_ p i o s → F s) → (∀ a, hoare (at_ p i o) (f a) Q F) → hoare (at_ p i o) (bind m f) Q F.
Proof.
  intros Hm HF Hf. eapply hoare_bind; [|exact Hf]. eapply hoare_conseq; [by apply at_gentle|done|done|done].
Qed.

Lemma at_release h p i o F : hoare (at_ p i o) (release h) (λ _, at_ p i o) F.
Proof.
  intros e He. destruct (quiet_release h e) as (r & e' & E). pose proof (at_gentle _ p i o (gentle_release h) e He) as Ha.
  rewrite E in *. exact Ha.
Qed.

Lemma at_new i0 p i : hoare (at_ p i0 None) (record (ENew i)) (λ _, at_ p i0 (Some i)) (λ _, False).
Proof. intros e (Hp & Hi & Hs). split_and!; [done..|]. simpl. by constructor. Qed.

Lemma at_close i0 p i F : hoare (at_ p i0 (Some i)) (close_instance i) (λ _, at_ p i0 None) F.
Proof.
  unfold close_instance. eapply hoare_bind with (R := λ _, at_ p i0 None).
  - intros e (Hp & Hi & Hs). split_and!; [done..|]. simpl. by constructor.
  - intros _ e (Hp & Hi & Hs). unfold in_core. destruct (inst_Close i (core e)) as [[c l] k]. done.
Qed.

Lemma at_abandon {A} i0 p i h msg (Q : A → _) : hoare (at_ p i0 (Some i)) (abandon i h msg) Q (at_ p i0 None).
Proof.
  unfold abandon. eapply hoare_bind; [apply at_close|]. intros c. apply at_bind; [auto with keeps|done|]. intros [].
  by apply hoare_raise.
Qed.

(** A construction that failed has closed what it constructed; one that succeeded
    holds it. *)
Lemma at_build i0 p doc :
  hoare (at_ p i0 None) (buildAndStart doc) (λ x, at_ p i0 (Some x.1)) (at_ p i0 None).
Proof.
  unfold buildAndStart. cbv zeta. apply at_bind; [auto with keeps|done|]. intros [].
  apply at_bind; [auto with keeps|done|]. intros r.
  apply at_bind; [apply keeps_lift, _|done|]. intros cfg. apply at_bind; [apply keeps_lift, _|done|]. intros cfg'.
  apply at_bind; [apply keeps_get, _|done|]. intros e. apply at_bind; [auto with keeps|done|]. intros r'.
  apply at_bind; [auto with keeps|done|]. intros h. destruct r' as [i|msg].
  - eapply hoare_bind; [eapply hoare_conseq; [apply (at_new i0 p i)|done|done|done]|]. intros [].
    eapply hoare_bind; [apply hoare_get|]. intros e1. destruct (ctx_Err (core e1)) as [msg|]; [apply at_abandon|].
    eapply hoare_bind with (R := λ _, at_ p i0 (Some i)).
    { intros e2 (Hp & Hi & Hs). unfold in_core. destruct (inst_Start i (core e2)) as [[c l] k]. done. }
    intros [msg|]; [apply at_abandon|by apply hoare_ret].
  - apply at_bind; [auto with keeps|done|]. intros []. by apply hoare_raise.
Qed.

(** What holds between two operations. *)
Definition engine_inv (e : Engine K I) : Prop :=
  slot (history e) (inst e) ∧ (phase e = PhaseRunning ↔ is_Some (inst e)) ∧ phase e ≠ PhaseStarting.

Lemma start_inv doc e : engine_inv e → engine_inv (Start doc e).2.
Proof.
  intros (Hs & Hr & Hn). unfold Start, bind at 1, get. case_bool_decide as Ep; [done|].
  destruct (ctx_Err (core e)) as [msg|]; [done|].
  assert (inst e = None) as Ei by (destruct (inst e) eqn:Ei; [|done]; exfalso; apply Ep, Hr; eauto).
  assert (hoare (at_ PhaseStarting None None)
    (bind (attempt_ (buildAndStart doc)) (λ r, match r with
      | Err msg => bind (setState PhaseFailed (Redact msg)) (λ _, raise (Redact msg))
      | Ok (i, h) => bind (hold_instance (Some i) (Some h)) (λ _, setState PhaseRunning "") end))
    (λ _, engine_inv) engine_inv) as HT.
  { eapply hoare_bind.
    - eapply hoare_attempt with (R := λ r, at_ PhaseStarting None (match r with Ok x => Some x.1 | Err _ => None end));
        [apply at_build|done|done].
    - intros [[i h]|msg]; intros e1 (Hp & Hi & Hsl).
      + split_and!; [done|by split; eauto|done].
      + split_and!; [simpl; by rewrite Hi|simpl; rewrite Hi; split; [done|by intros []]|done]. }
  specialize (HT (setState PhaseStarting "" e).2). unfold bind at 1, setState. unfold setState in HT. simpl in HT.
  specialize (HT ltac:(split_and!; [done|exact Ei|simpl; by rewrite <- Ei])).
  by destruct (bind _ _ _) as [[u|x] e'].
Qed.

Lemma stop_inv e : engine_inv e → engine_inv (Stop e).2.
Proof.
  intros (Hs & Hr & Hn). unfold Stop, bind at 1, get. cbv zeta. set (p := phase e).
  assert (hoare (at_ p None (inst e))
    (bind (match inst e with
           | None => release (tun e)
           | Some i => bind (close_instance i) (λ c, bind (release (tun e)) (λ r, ret (join_errors (opt_list c ++ opt_list r)%list)))
           end) (λ errs, bind (setState PhaseStopped "") (λ _, match errs with Some msg => raise (Redact msg) | None => ret tt end)))
    (λ _, engine_inv) engine_inv) as HT.
  { assert (∀ errs : option string, hoare (at_ p None None)
      (bind (setState PhaseStopped "") (λ _, match errs with Some msg => raise (Redact msg) | None => ret tt end))
      (λ _, engine_inv) engine_inv) as Hend.
    { intros errs e1 (Hp & Hi & Hsl). assert (engine_inv (setState PhaseStopped "" e1).2) as Hi'.
      { split_and!; simpl; [by rewrite Hi|rewrite Hi; split; [done|by intros []]|done]. }
      by destruct errs. }
    eapply hoare_bind with (R := λ _, at_ p None None); [|exact Hend]. destruct (inst e) as [i|].
    - eapply hoare_bind; [apply at_close|]. intros c.
      eapply hoare_bind; [apply at_release|]. intros r. by apply hoare_ret.
    - apply at_release. }
  specialize (HT (hold_instance None None e).2). unfold bind at 1, hold_instance. unfold hold_instance in HT. simpl in HT.
  specialize (HT ltac:(split_and!; done)). by destruct (bind _ _ _) as [[u|x] e'].
Qed.

(** Whatever the close and the release report, a stop holds nothing afterwards. *)
Definition holds_same (e e' : Engine K I) : Prop := inst e' = inst e ∧ tun e' = tun e.
#[local] Instance holds_refl : Reflexive holds_same.
Proof. done. Qed.
#[local] Instance holds_trans : Transitive holds_same.
Proof. intros e1 e2 e3 [] []. split; congruence. Qed.

Lemma holds_release h : keeps holds_same (release h).
Proof. intros e. destruct (gentle_release h e) as (? & _ & ? & _). done. Qed.
Lemma holds_close i : keeps holds_same (close_instance i).
Proof. intros e. unfold close_instance, bind, record, in_core. simpl. by destruct (inst_Close i (core e)) as [[? ?] ?]. Qed.
Lemma holds_state p w : keeps holds_same (setState p w).
Proof. done. Qed.
Local Hint Resolve holds_release holds_close holds_state : keeps.

Lemma stop_holds_nothing e : inst (Stop e).2 = None ∧ tun (Stop e).2 = None.
Proof.
  enough (holds_same (hold_instance None None e).2 (Stop e).2) as [-> ->] by done.
  unfold Stop. cbv zeta. unfold bind at 1, get. unfold bind at 1, hold_instance. cbn [snd].
  match goal with |- holds_same ?e0 (?m ?e0).2 => enough (keeps holds_same m) as Hm by apply Hm end.
  repeat keeps_step.
Qed.

(** One instance at a time, none leaked: over any sequence of starts, stops
    and validations, an xray-core instance is constructed only when none is held,
    every instance that was constructed has been closed unless it is the one held,
    and the engine reports running exactly when it holds one. *)
Theorem engine_holds_one_instance capacity k ops : engine_inv (engine_run capacity k ops).
Proof.
  unfold engine_run. assert (engine_inv (NewWithLogCapacity capacity k)) as H0.
  { split_and!; [constructor|split; [done|by intros []]|done]. }
  revert H0. generalize (NewWithLogCapacity capacity k) as e. induction ops as [|o ops IH]; intros e He; simpl; [done|].
  apply IH. destruct o; simpl; [by apply start_inv|by apply stop_inv|].
  destruct He as (Hs & Hr & Hn). unfold Validate, bind, in_core. destruct (LoadJSONConfig doc (core e)) as [[[c|msg] l] x];
    by split_and!.
Qed.

(** ** Devices *)

(** The events a release adds name only the devices and descriptors it holds. *)
Definition held_by (h : tunHold) (ev : EEvent I) : Prop :=
  match ev with
  | EDelete n x => MkTun n x ∈ devices h
  | ECloseFd fd => fd ∈ fds h
  | _ => False
  end.

Definition frees (h : tunHold) (e e' : Engine K I) : Prop :=
  ∃ evs, history e' = (history e ++ evs)%list ∧ Forall (held_by h) evs.

#[local] Instance frees_refl h : Reflexive (frees h).
Proof. intros e. exists []. by rewrite app_nil_r. Qed.
#[local] Instance frees_trans h : Transitive (frees h).
Proof.
  intros e1 e2 e3 (v1 & E1 & F1) (v2 & E2 & F2). exists (v1 ++ v2)%list. rewrite E2, E1, app_assoc. split; [done|].
  by apply Forall_app.
Qed.

Lemma frees_kernel {A} h (f : K → A * K) : keeps (frees h) (in_kernel f).
Proof. intros e. unfold in_kernel, in_core. destruct (f (core e)). exists []. by rewrite app_nil_r. Qed.
Lemma frees_record h ev : held_by h ev → keeps (frees h) (record ev).
Proof. intros Hh e. exists [ev]. by repeat constructor. Qed.
Local Hint Resolve frees_kernel frees_record : keeps.
Lemma frees_wait h n name : keeps (frees h) (wait_removed n name).
Proof. induction n as [|n IH]; simpl; repeat keeps_step. Qed.
Local Hint Resolve frees_wait : keeps.

Lemma frees_remove h d : d ∈ devices h → keeps (frees h) (removeTunDevice d).
Proof.
  intros Hd. unfold removeTunDevice. apply keeps_bind; [apply _|apply keeps_get, _|]. intros e.
  destruct (lookupLinkIndex _ _) as [x|]; [|apply keeps_ret, _]. destruct (negb _) eqn:Ex; [apply keeps_ret, _|]. breflect. subst x.
  apply keeps_bind; [apply _| |intros _; by repeat keeps_step]. apply frees_record. by destruct d.
Qed.

(** A release gives back what it took and nothing else: whatever fails, it
    deletes only links whose name and index it recorded, each while the link still
    has that index, closes only descriptors it recorded, and returns. *)
Theorem release_frees_only_held h e : ∃ r e', release (Some h) e = (Ok r, e') ∧ frees h e e'.
Proof.
  destruct (quiet_release (Some h) e) as (r & e' & E). exists r, e'. split; [done|]. change e' with (Ok (E := string) r, e').2.
  rewrite <- E. unfold release.
  assert (∀ ds, ds ⊆ devices h → keeps (frees h) (remove_all ds)) as Hr.
  { induction ds as [|d ds IH]; intros Hs; simpl; [apply keeps_ret, _|].
    apply keeps_bind; [apply _|apply frees_remove; set_solver|]. intros x.
    apply keeps_bind; [apply _|apply IH; set_solver|]. intros y. apply keeps_ret, _. }
  assert (∀ l, l ⊆ fds h → keeps (frees h) (close_all l)) as Hc.
  { induction l as [|fd l IH]; intros Hs; simpl; [apply keeps_ret, _|].
    apply keeps_bind; [apply _|apply frees_record; simpl; set_solver|]. intros _.
    apply keeps_bind; [apply _|auto with keeps|]. intros x. apply keeps_bind; [apply _|apply IH; set_solver|]. intros y. apply keeps_ret, _. }
  apply keeps_bind; [apply _|by apply Hr|]. intros x. apply keeps_bind; [apply _|by apply Hc|]. intros y. apply keeps_ret, _.
Qed.

(** Once a link was deleted, the rest of the work on devices keeps it on record. *)
Definition deleted (n : string) (x : Z) (e : Engine K I) : Prop := EDelete n x ∈ history e.

Lemma deleted_bind {A B} n x (m : EM A) (f : A → EM B) e :
  deleted n x (m e).2 → (∀ a, gentle (f a)) → deleted n x (bind m f e).2.
Proof.
  intros Hm Hf. unfold bind. destruct (m e) as [[a|msg] e1]; [|done]. simpl in Hm. unfold deleted in *.
  destruct (Hf a e1) as (_ & _ & _ & evs & -> & _). set_solver.
Qed.

Lemma remove_deletes d e : lookupLinkIndex (tun_name d) (core e) = Some (tun_index d) →
  deleted (tun_name d) (tun_index d) (removeTunDevice d e).2.
Proof.
  intros Hx. unfold removeTunDevice, bind at 1, get. rewrite Hx, Z.eqb_refl. cbn [negb].
  apply deleted_bind; [unfold deleted; simpl; set_solver|]. intros _. repeat keeps_step.
Qed.

(** Releasing after a failed start deletes the first recorded device, if it is there. *)
Lemma failed_deletes d ds l e : lookupLinkIndex (tun_name d) (core e) = Some (tun_index d) →
  deleted (tun_name d) (tun_index d) (releaseAfterFailedStart (MkHold (d :: ds) l) e).2.
Proof.
  intros Hx. unfold releaseAfterFailedStart, release. cbn [devices fds remove_all].
  do 3 (apply deleted_bind; [|intros; repeat keeps_step]). by apply remove_deletes.
Qed.

(** A start that fails to create its tunnel device deletes the one that was
    already there: the index is looked up by name after the construction, so when
    another program holds a link of the configured name and the construction fails
    because of it, that link's own index is recorded and the link is deleted. *)
Theorem failed_start_deletes_existing_link doc e cfg cfg' n x msg :
  phase e ≠ PhaseRunning → ctx_Err (core e) = None →
  LoadJSONConfig doc (core e) = (Ok cfg, [], core e) → forceLogToRing cfg = Ok cfg' → tunInboundNames cfg' = [n] →
  core_New cfg' (core e) = (Err msg, [], core e) → lookupLinkIndex n (core e) = Some x →
  EDelete n x ∈ history (Start doc e).2.
Proof.
  intros Hp Hc Hl Hf Hn Hnew Hx. unfold Start, bind at 1, get. rewrite bool_decide_eq_false_2 by done. rewrite Hc.
  unfold bind at 1, setState. set (e0 := MkEngine _ _ _ _ _ _ _ _).
  assert (deleted n x (buildAndStart doc e0).2) as Hin.
  { unfold buildAndStart. unfold bind at 1, set_logs. unfold bind at 1, in_core at 1. cbn [core]. change (core e0) with (core e). rewrite Hl.
    unfold bind at 1, lift_res at 1. unfold bind at 1, lift_res at 1. rewrite Hf. unfold bind at 1, get.
    cbv zeta. unfold bind at 1, in_core at 1. cbn [core]. rewrite Hnew. unfold bind at 1, captureTunHold.
    unfold bind at 1, get, ret. cbn [core]. rewrite Hn. cbn [omap list_omap]. rewrite Hx. cbn [fmap option_fmap option_map].
    apply deleted_bind; [|intros; repeat keeps_step]. by apply (failed_deletes (MkTun n x)). }
  unfold bind at 1, attempt_. by destruct (buildAndStart doc e0) as [[[i h]|m] e1].
Qed.

End Engine.

(** A machine on which another program already has xray0, and a construction that
    fails because of it. *)
Module Taken.

Definition taken_config : CoreConfig := MkCoreConfig [AppOther] [InOther; InTun "xray0"].

#[local] Instance taken_core : Core (list (string * Z)) unit := {|
  LoadJSONConfig := λ _ k, (Ok taken_config, [], k);
  core_New := λ _ k, (Err "failed to create the device xray0: device or resource busy", [], k);
  inst_Start := λ _ k, (None, [], k);
  inst_Close := λ _ k, (None, [], k);
  lookupLinkIndex := λ n k, snd <$> List.find (λ l, (l.1 =? n)%string) k;
  deleteLink := λ n k, (None, List.filter (λ l, negb (l.1 =? n)%string) k);
  tunDescriptors := λ _, [];
  closeDescriptor := λ _ k, (None, k);
  ctx_Err := λ _, None;
  core_now := λ _, 0;
  core_wait := λ k, k
|}.

Definition idle : Engine.Engine (list (string * Z)) unit := NewWithLogCapacity 10 [("xray0"%string, 7)].

(** The other program's link is gone afterwards. *)
Example link_is_gone : core (Engine.Start "{}" idle).2 = [].
Proof. vm_compute. reflexivity. Qed.

Lemma failed_start_deletes_existing_link_witness : EDelete "xray0" 7 ∈ history (Engine.Start "{}" idle).2.
Proof.
  apply (failed_start_deletes_existing_link "{}" idle taken_config
    (MkCoreConfig [AppLog (MkLogConfig LogConsole "" 2 LogNone "" false); AppOther] [InOther; InTun "xray0"])
    "xray0" 7 "failed to create the device xray0: device or resource busy"); try reflexivity. done.
Defined.

End Taken.
