(* ===== verification/Command.v ===== *)
(** * Commands, runners and the idempotence rules (internal/netcfg)

    [command.go], [idempotence.go], the identity functions and the recording
    runner of [recorder.go], and the allowlist of [platform.go]. A command is
    one argument vector; a [Runner] executes it against a machine whose state
    is the type parameter [K]. *)

From S2P Require Import Prelude GoStrings Sha256.

Local Open Scope string_scope.

(** ** Data *)

Record Command := MkCommand {
  Path : string;
  Args : list string;
  Stdin : string;
  CmdWhy : string
}.

Definition zero_command : Command := MkCommand "" [] "" "".

Record Result := MkResult {
  Stdout : string;
  Stderr : string;
  ExitCode : Z
}.

#[export] Instance Command_eq_dec : EqDecision Command.
Proof. solve_decision. Defined.
#[export] Instance Result_eq_dec : EqDecision Result.
Proof. solve_decision. Defined.

(** The one-method interface between this package and the machine. *)
Class Runner (K : Type) := Run : Command -> K -> (Result * error) * K.

(** Command.IsZero *)
Definition IsZero (c : Command) : bool :=
  (Path c =? "") && match Args c with [] => true | _ => false end.

(** recorder.go, CommandLine: what a person reads; not an identity. *)
Definition CommandLine (c : Command) : string :=
  match Args c with
  | [] => Path c
  | args => Path c ++ " " ++ Join args " "
  end.

(** recorder.go, RunnerKey: the identity, with a digest of standard input. *)
Definition RunnerKey (c : Command) : string :=
  let k := CommandLine c in
  if Stdin c =? "" then k
  else k ++ " <stdin:" ++ EncodeToString (take 8 (Sum256 (bytes_of_string (Stdin c)))) ++ ">".

(** ** The allowlist *)

Definition BinIP := "ip".
Definition BinIw := "iw".
Definition BinNft := "nft".
Definition BinSysctl := "sysctl".
Definition BinNmcli := "nmcli".

Definition allowedBinaries : list string := [BinIP; BinIw; BinNft; BinSysctl; BinNmcli].

Definition BinRoute := "route".
Definition BinIfconfig := "ifconfig".
Definition BinPfctl := "pfctl".
Definition BinNetworksetup := "networksetup".

Definition darwinAllowedBinaries : list string :=
  [BinRoute; BinIfconfig; BinPfctl; BinSysctl; BinNetworksetup].

Definition BinIPHelper := "iphlpapi".
Definition BinWFP := "wfp".
Definition BinWintun := "wintun".

Definition windowsAllowedBinaries : list string := [BinIPHelper; BinWFP; BinWintun].

(** platform.go: [Platform] is a Go string type; the empty one means Linux and
    an unknown one gets the refusing backend. *)
Inductive Platform :=
| PlatformUnset
| PlatformLinux
| PlatformDarwin
| PlatformWindows
| PlatformOther (name : string).

#[export] Instance Platform_eq_dec : EqDecision Platform.
Proof. solve_decision. Defined.

Definition AllowedBinaries (pl : Platform) : list string :=
  match pl with
  | PlatformUnset | PlatformLinux => allowedBinaries
  | PlatformDarwin => darwinAllowedBinaries
  | PlatformWindows => windowsAllowedBinaries
  | PlatformOther _ => []
  end.

Inductive command_error :=
| EmptyCommand
| ErrDisallowedBinary (path : string)
| NulArgument (i : nat) (path : string).

Fixpoint contains_nul (s : string) : bool :=
  match s with
  | EmptyString => false
  | String c s' => (c =? "000")%char || contains_nul s'
  end.

Fixpoint find_nul (i : nat) (args : list string) : option nat :=
  match args with
  | [] => None
  | a :: args' => if contains_nul a then Some i else find_nul (S i) args'
  end.

(** platform.go, ValidateCommandOn: what a runner checks before it executes. *)
Definition ValidateCommandOn (pl : Platform) (c : Command) : res command_error unit :=
  if IsZero c then Err EmptyCommand
  else if negb (bool_decide (Path c ∈ AllowedBinaries pl)) then Err (ErrDisallowedBinary (Path c))
  else match find_nul 0 (Args c) with
       | Some i => Err (NulArgument i (Path c))
       | None => Ok tt
       end.

(** command.go, ValidateCommand: the Linux list. *)
Definition ValidateCommand (c : Command) : res command_error unit :=
  if IsZero c then Err EmptyCommand
  else if negb (bool_decide (Path c ∈ allowedBinaries)) then Err (ErrDisallowedBinary (Path c))
  else match find_nul 0 (Args c) with
       | Some i => Err (NulArgument i (Path c))
       | None => Ok tt
       end.

(** ** Interface names *)

Definition in_range (c : ascii) (lo hi : ascii) : bool :=
  (nat_of_ascii lo <=? nat_of_ascii c)%nat && (nat_of_ascii c <=? nat_of_ascii hi)%nat.

Definition alnum (c : ascii) : bool :=
  in_range c "A" "Z" || in_range c "a" "z" || in_range c "0" "9".

Definition one_of (c : ascii) (s : string) : bool :=
  existsb (Ascii.eqb c) (String.list_ascii_of_string s).

(** ifaceNamePattern: [^[A-Za-z0-9_.:-]{1,15}$] *)
Definition ValidInterfaceName (name : string) : bool :=
  (1 <=? String.length name)%nat && (String.length name <=? 15)%nat &&
  forallb (fun c => alnum c || one_of c "_.:-") (String.list_ascii_of_string name).

(** windowsIfaceNamePattern: [^[A-Za-z0-9 _.()#*:-]{1,255}$] *)
Definition ValidInterfaceNameOn (pl : Platform) (name : string) : bool :=
  if bool_decide (pl = PlatformWindows) then
    (1 <=? String.length name)%nat && (String.length name <=? 255)%nat &&
    forallb (fun c => alnum c || one_of c " _.()#*:-") (String.list_ascii_of_string name)
  else ValidInterfaceName name.

(** ** What a failure means *)

Definition alreadyExistsMarkers : list string := ["file exists"; "object exists"].

(** idempotence.go, IsAlreadyExists *)
Definition IsAlreadyExists (r : Result) (err : error) : bool :=
  match err with
  | None => false
  | Some msg =>
      let hay := ToLower (Stderr r ++ " " ++ msg) in
      existsb (Contains hay) alreadyExistsMarkers
  end.

Definition notFoundMarkers : list string :=
  ["no such device"; "no such file or directory"; "no such process";
   "cannot find device"; "cannot assign requested address"; "not in table"].

(** idempotence.go, IsNotFound *)
Definition IsNotFound (r : Result) (err : error) : bool :=
  match err with
  | None => false
  | Some msg =>
      let hay := ToLower (Stderr r ++ " " ++ msg) in
      existsb (Contains hay) notFoundMarkers
  end.

Fixpoint removes_args (args : list string) : bool :=
  match args with
  | [] => false
  | a :: args' =>
      if (a =? "del") || (a =? "delete") then true
      else if (a =? "add") || (a =? "replace") || (a =? "set") then false
      else removes_args args'
  end.

(** idempotence.go, commandRemoves: the first verb decides. *)
Definition commandRemoves (c : Command) : bool := removes_args (Args c).

(** idempotence.go, AlreadyApplied *)
Record AlreadyApplied := MkAlreadyApplied {
  Query : Command;
  Satisfied : Result -> error -> bool
}.

(** idempotence.go, ifacePresent *)
Definition ifacePresent (name : string) : AlreadyApplied := {|
  Query := MkCommand BinIP ["-br"; "link"; "show"; "dev"; name] ""
    "iw's refusal when the interface name is taken is not a wording this package has measured, so it asks instead of relying on the error";
  Satisfied r err :=
    match err with
    | None => negb (TrimSpace (Stdout r) =? "")
    | Some _ => false
    end
|}.

(** route.go, Step: one change together with its inverse. *)
Record Step := MkStep {
  Op : string;
  Why : string;
  Do : Command;
  Undo : Command;
  Pre : option AlreadyApplied
}.

Definition OpSysctl := "sysctl".
Definition OpAddr := "addr".
Definition OpLink := "link".
Definition OpRoute := "route".
Definition OpRule := "rule".
Definition OpNft := "nft".
Definition OpProxy := "proxy".
Definition OpCreateIface := "iface".

(** darwinnet_steps.go and winnet.go: the ops of the other two firewalls. *)
Definition OpPf := "pf".
Definition OpWFP := "wfp".

(** ** The recording runner (recorder.go), the substitute for the executor *)

Record RecordingRunner := MkRecording {
  cmds : list Command;
  RPlatform : Platform;
  Responses : gmap string Result;
  Errors : gmap string string
}.

Definition command_error_text (e : command_error) : string :=
  match e with
  | EmptyCommand => "netcfg: empty command"
  | ErrDisallowedBinary p =>
      "netcfg: command names a binary that is not on the allowlist: " ++ Quote p
  | NulArgument i p =>
      "netcfg: argument " ++ Itoa (Z.of_nat i) ++ " of " ++ Quote p ++ " contains a NUL byte"
  end.

(** RecordingRunner.Run, with no [Fallback] registered. *)
#[export] Instance recording_run : Runner RecordingRunner := fun c r =>
  match ValidateCommandOn (RPlatform r) c with
  | Err e => ((MkResult "" "" 0, Some (command_error_text e)), r)
  | Ok _ =>
      let r' := MkRecording (cmds r ++ [c])%list (RPlatform r) (Responses r) (Errors r) in
      let k := RunnerKey c in
      match Errors r !! k with
      | Some err =>
          let res :=
            match Responses r !! k with
            | None => MkResult "" err 2
            | Some canned =>
                MkResult (Stdout canned)
                  (if Stderr canned =? "" then err else Stderr canned)
                  (if (ExitCode canned =? 0)%Z then 2 else ExitCode canned)
            end in
          ((res, Some err), r')
      | None =>
          match Responses r !! k with
          | Some res => ((res, None), r')
          | None => ((MkResult "" "" 0, None), r')
          end
      end
  end.

(** FailingRunner.Run: every command fails with the same error. *)
Definition failing_run {K} (msg : string) : Runner K := fun c k =>
  ((MkResult "" "" 0, Some (msg ++ " (refused " ++ Path c ++ ")")), k).

(** ** Lemmas *)

Lemma RunnerKey_no_stdin c : Stdin c = "" -> RunnerKey c = CommandLine c.
Proof. intros E. unfold RunnerKey. by rewrite E. Qed.

Lemma IsZero_spec c : IsZero c = true <-> Path c = "" /\ Args c = [].
Proof.
  unfold IsZero. rewrite andb_true_iff, String.eqb_eq.
  destruct (Args c); split; intros [? ?]; done.
Qed.

Lemma ValidateCommand_on_linux c : ValidateCommand c = ValidateCommandOn PlatformLinux c.
Proof. reflexivity. Qed.

(** A command a runner accepts names a binary of the platform's closed list. *)
Lemma validated_allowed pl c :
  ValidateCommandOn pl c = Ok tt -> Path c ∈ AllowedBinaries pl.
Proof.
  unfold ValidateCommandOn. intros H. repeat destruct_match_in H; try discriminate.
  by breflect.
Qed.
