(* ===== verification/Journal.v ===== *)
(** * The journal of inverses (internal/netcfg/journal.go)

    The file is JSON lines. The model keeps it as the sequence of its
    newline-terminated lines, each either a record or a line that does not
    parse, and the unterminated tail a killed or failed write leaves behind:
    a later append lands on the same physical line as such a tail. The record's
    time stamp is not kept, since nothing reads it back. *)

From S2P Require Import Prelude GoStrings Command.

Local Open Scope Z_scope.

(** ** Data *)

Inductive Phase :=
| PhaseBegin | PhaseDone | PhaseFailed | PhaseUndone | PhasePreexisting
| PhaseText (s : string).

#[export] Instance Phase_eq_dec : EqDecision Phase.
Proof. solve_decision. Defined.

(** journal.go, Record: one line. *)
Record JRecord := MkRecord {
  rSeq : Z;
  rPhase : Phase;
  rOp : string;
  rWhy : string;
  rDo : Command;
  rUndo : Command;
  rErr : string
}.

(** journal.go, Entry: a step as reconstructed from the journal. *)
Record Entry := MkEntry {
  eSeq : Z;
  eOp : string;
  eWhy : string;
  eDo : Command;
  eUndo : Command;
  ePhase : Phase
}.

#[export] Instance JRecord_eq_dec : EqDecision JRecord.
Proof. solve_decision. Defined.
#[export] Instance Entry_eq_dec : EqDecision Entry.
Proof. solve_decision. Defined.

(** Entry.NeedsUndo *)
Definition NeedsUndo (e : Entry) : bool :=
  match ePhase e with
  | PhaseUndone => false
  | PhasePreexisting => false
  | _ => negb (IsZero (eUndo e))
  end.

(** ** The file *)

Record JFile := MkJFile {
  jlines : list (option JRecord);
  jtail : option (option JRecord)
}.

Definition empty_file : JFile := MkJFile [] None.

(** What one write, or one other file operation, meets. *)
Inductive Fault :=
| FOk                    (** succeeds *)
| FNone                  (** fails with nothing written *)
| FTorn (whole : bool)   (** fails, or is killed, part way; [whole]: all but the newline *)
| FSync.                 (** written, and the flush reports an error *)

Definition append_line (f : JFile) (r : JRecord) : JFile :=
  match jtail f with
  | None => MkJFile (jlines f ++ [Some r]) None
  | Some _ => MkJFile (jlines f ++ [None]) None
  end.

Definition append_torn (f : JFile) (whole : bool) (r : JRecord) : JFile :=
  match jtail f with
  | None => MkJFile (jlines f) (Some (if whole then Some r else None))
  | Some _ => MkJFile (jlines f) (Some None)
  end.

Definition append_file (flt : Fault) (r : JRecord) (f : JFile) : JFile :=
  match flt with
  | FOk | FSync => append_line f r
  | FNone => f
  | FTorn whole => append_torn f whole r
  end.

(** The scanner's view: a final line without its newline is still a line. *)
Definition scan (f : JFile) : list (option JRecord) :=
  jlines f ++ match jtail f with Some t => [t] | None => [] end.

(** ** LoadJournal *)

Definition load_record (m : gmap Z Entry) (r : JRecord) : gmap Z Entry :=
  let e := default (MkEntry (rSeq r) "" "" zero_command zero_command (PhaseText ""))
             (m !! rSeq r) in
  let e := match rPhase r with
           | PhaseBegin => MkEntry (eSeq e) (rOp r) (rWhy r) (rDo r) (rUndo r) (ePhase e)
           | _ => e
           end in
  <[rSeq r := MkEntry (eSeq e) (eOp e) (eWhy e) (eDo e) (eUndo e) (rPhase r)]> m.

Definition load_line (m : gmap Z Entry) (l : option JRecord) : gmap Z Entry :=
  match l with Some r => load_record m r | None => m end.

Definition bySeq (ls : list (option JRecord)) : gmap Z Entry := foldl load_line ∅ ls.

Definition keep (e : Entry) : bool := negb (IsZero (eDo e) && IsZero (eUndo e)).

Definition seq_le (a b : Entry) : Prop := eSeq a ≤ eSeq b.
#[export] Instance seq_le_dec a b : Decision (seq_le a b).
Proof. unfold seq_le. apply _. Defined.
#[export] Instance seq_le_total : Total seq_le.
Proof. intros a b. unfold seq_le. lia. Qed.
#[export] Instance seq_le_trans : Transitive seq_le.
Proof. intros a b c. unfold seq_le. lia. Qed.

Definition entries_of (m : gmap Z Entry) : list Entry :=
  merge_sort seq_le (List.filter keep (map_to_list m).*2).

Definition load_file (f : option JFile) : list Entry :=
  match f with
  | None => []
  | Some f => entries_of (bySeq (scan f))
  end.

(** The disk as this package sees it: the one journal file, the outcomes the
    next file operations meet ([FOk] once the list is exhausted), and whether
    reading fails. *)
Record Disk := MkDisk {
  file : option JFile;
  faults : list Fault;
  readFails : bool
}.

Inductive jerror :=
| JEmptyPath | JReadErr | JOpenErr | JWriteErr | JSyncErr | JCloseErr | JRewriteErr.

Definition next_fault (d : Disk) : Fault * Disk :=
  match faults d with
  | [] => (FOk, d)
  | x :: xs => (x, MkDisk (file d) xs (readFails d))
  end.

(** LoadJournal *)
Definition LoadJournal (d : Disk) : res jerror (list Entry) :=
  match file d with
  | None => Ok []
  | Some f => if readFails d then Err JReadErr else Ok (load_file (Some f))
  end.

(** ** The open journal *)

Record Journal := MkJournal {
  jseq : Z;
  jopen : bool
}.

Definition max_seq (es : list Entry) : Z :=
  foldl (fun next e => if next <? eSeq e then eSeq e else next) 0 es.

(** OpenJournal *)
Definition OpenJournal (path : string) (d : Disk) : res jerror Journal * Disk :=
  if (path =? "")%string then (Err JEmptyPath, d)
  else match LoadJournal d with
       | Err e => (Err e, d)
       | Ok existing =>
           let next := max_seq existing in
           match next_fault d with
           | (FOk, d) =>
               (Ok (MkJournal next true),
                MkDisk (Some (default empty_file (file d))) (faults d) (readFails d))
           | (_, d) => (Err JOpenErr, d)
           end
       end.

(** Journal.write; the outcome is reported so that a caller can log it. *)
Definition write (j : Journal) (r : JRecord) (d : Disk) : option jerror * Fault * Disk :=
  if negb (jopen j) then (Some JWriteErr, FNone, d)
  else
    let '(flt, d) := next_fault d in
    let d' := MkDisk (Some (append_file flt r (default empty_file (file d)))) (faults d) (readFails d) in
    (match flt with
     | FOk => None
     | FSync => Some JSyncErr
     | FNone | FTorn _ => Some JWriteErr
     end, flt, d').

Definition begin_record (seq : Z) (s : Step) : JRecord :=
  MkRecord seq PhaseBegin (Op s) (Why s) (Do s) (Undo s) "".

Definition mark_record (seq : Z) (p : Phase) (cause : error) : JRecord :=
  MkRecord seq p "" "" zero_command zero_command (default ""%string cause).

(** Journal.Begin: takes the next sequence number, then writes. *)
Definition Begin (j : Journal) (s : Step) (d : Disk) :
    Journal * Z * option jerror * Fault * Disk :=
  let j := MkJournal (jseq j + 1) (jopen j) in
  let '(err, flt, d) := write j (begin_record (jseq j) s) d in
  (j, jseq j, err, flt, d).

Definition Done (j : Journal) (seq : Z) (d : Disk) := write j (mark_record seq PhaseDone None) d.
Definition Failed (j : Journal) (seq : Z) (cause : error) (d : Disk) :=
  write j (mark_record seq PhaseFailed cause) d.
Definition Preexisting (j : Journal) (seq : Z) (cause : error) (d : Disk) :=
  write j (mark_record seq PhasePreexisting cause) d.
Definition Undone (j : Journal) (seq : Z) (d : Disk) := write j (mark_record seq PhaseUndone None) d.

(** Journal.Close *)
Definition CloseJournal (j : Journal) (d : Disk) : option jerror * Journal * Disk :=
  if negb (jopen j) then (None, j, d)
  else
    let '(flt, d) := next_fault d in
    (match flt with FOk => None | _ => Some JCloseErr end, MkJournal (jseq j) false, d).

(** Journal.Discard *)
Definition Discard (j : Journal) (d : Disk) : option jerror * Journal * Disk :=
  let '(err, j, d) := CloseJournal j d in
  match err with
  | Some e => (Some e, j, d)
  | None =>
      match next_fault d with
      | (FOk, d) => (None, j, MkDisk None (faults d) (readFails d))
      | (_, d) => (Some JRewriteErr, j, d)
      end
  end.

Definition rewrite_record (e : Entry) : JRecord :=
  MkRecord (eSeq e) PhaseBegin (eOp e) (eWhy e) (eDo e) (eUndo e) "".

(** RewriteJournal: a new file renamed over the old one, or the old one
    removed when nothing is left. Every failure leaves the old file. *)
Definition RewriteJournal (entries : list Entry) (d : Disk) : option jerror * Disk :=
  let '(flt, d) := next_fault d in
  match flt with
  | FOk =>
      (None,
       match entries with
       | [] => MkDisk None (faults d) (readFails d)
       | _ => MkDisk (Some (MkJFile (Some ∘ rewrite_record <$> entries) None)) (faults d) (readFails d)
       end)
  | _ => (Some JRewriteErr, d)
  end.

(** ** Loading: what the reconstruction keeps *)

Definition key_ok (m : gmap Z Entry) : Prop := ∀ k e, m !! k = Some e → eSeq e = k.

Lemma load_record_lookup m r :
  load_record m r !! rSeq r =
  Some (let e := default (MkEntry (rSeq r) "" "" zero_command zero_command (PhaseText ""))
                   (m !! rSeq r) in
        match rPhase r with
        | PhaseBegin => MkEntry (eSeq e) (rOp r) (rWhy r) (rDo r) (rUndo r) PhaseBegin
        | p => MkEntry (eSeq e) (eOp e) (eWhy e) (eDo e) (eUndo e) p
        end).
Proof. unfold load_record. rewrite lookup_insert_eq. by destruct (rPhase r). Qed.

Lemma load_record_lookup_ne m r k : k ≠ rSeq r → load_record m r !! k = m !! k.
Proof. intros H. unfold load_record. by rewrite lookup_insert_ne by done. Qed.

Lemma load_record_key_ok m r : key_ok m → key_ok (load_record m r).
Proof.
  intros Hm k e. destruct (decide (k = rSeq r)) as [->|Hne].
  - rewrite load_record_lookup. intros [= <-].
    destruct (m !! rSeq r) as [e0|] eqn:E; simpl.
    + apply Hm in E. by destruct (rPhase r).
    + by destruct (rPhase r).
  - rewrite load_record_lookup_ne by done. apply Hm.
Qed.

Lemma load_line_key_ok m l : key_ok m → key_ok (load_line m l).
Proof. destruct l; simpl; [apply load_record_key_ok|done]. Qed.

Lemma foldl_load_key_ok ls m : key_ok m → key_ok (foldl load_line m ls).
Proof. revert m. induction ls as [|l ls IH]; simpl; eauto using load_line_key_ok. Qed.

Lemma bySeq_key_ok ls : key_ok (bySeq ls).
Proof. apply foldl_load_key_ok. intros k e. by rewrite lookup_empty. Qed.

Lemma bySeq_app ls1 ls2 : bySeq (ls1 ++ ls2) = foldl load_line (bySeq ls1) ls2.
Proof. apply foldl_app. Qed.

Lemma elem_of_entries m e :
  key_ok m → e ∈ entries_of m ↔ m !! eSeq e = Some e ∧ keep e = true.
Proof.
  intros Hm. unfold entries_of.
  rewrite (merge_sort_Permutation seq_le).
  rewrite list_elem_of_In, filter_In, <- list_elem_of_In, list_elem_of_fmap.
  split.
  - intros [([k e'] & -> & Hin) Hk]. apply elem_of_map_to_list in Hin. simpl in *.
    by rewrite (Hm _ _ Hin).
  - intros [Hl Hk]. split; [|done]. exists (eSeq e, e). by rewrite elem_of_map_to_list.
Qed.

Definition seq_lt (a b : Entry) : Prop := eSeq a < eSeq b.

Lemma entries_NoDup m : key_ok m → NoDup (eSeq <$> entries_of m).
Proof.
  intros Hm. unfold entries_of. rewrite (merge_sort_Permutation seq_le).
  assert (Hall : NoDup (eSeq <$> (map_to_list m).*2)).
  { rewrite <- list_fmap_compose.
    replace (compose eSeq snd <$> map_to_list m) with ((map_to_list m).*1).
    - apply NoDup_fst_map_to_list.
    - apply list_fmap_ext. intros i [k e] Hi. simpl.
      symmetry. apply Hm. apply elem_of_map_to_list, list_elem_of_lookup. eauto. }
  revert Hall. generalize ((map_to_list m).*2) as l. intros l.
  induction l as [|e l IH]; simpl; [done|].
  rewrite NoDup_cons. intros [Hn Hd]. destruct (keep e); simpl; [|auto].
  apply NoDup_cons. split; [|auto].
  rewrite list_elem_of_fmap in *. intros (e' & E & Hin). apply Hn. exists e'. split; [done|].
  rewrite list_elem_of_In in *. by apply filter_In in Hin as [? _].
Qed.

Lemma StronglySorted_strict l :
  StronglySorted seq_le l → NoDup (eSeq <$> l) → StronglySorted seq_lt l.
Proof.
  induction 1 as [|e l Hs IH Hall]; [constructor|]. simpl. rewrite NoDup_cons.
  intros [Hn Hd]. constructor; [auto|]. rewrite Forall_forall in *.
  intros e' Hin. specialize (Hall e' Hin). unfold seq_le, seq_lt in *.
  assert (eSeq e ≠ eSeq e'); [|lia]. intros E. apply Hn, list_elem_of_fmap. eauto.
Qed.

Lemma entries_sorted m : key_ok m → StronglySorted seq_lt (entries_of m).
Proof.
  intros Hm. apply StronglySorted_strict; [|by apply entries_NoDup].
  apply StronglySorted_merge_sort; apply _.
Qed.

(** A strictly ordered list is determined by its members. *)
Lemma strict_sorted_ext l1 l2 :
  StronglySorted seq_lt l1 → StronglySorted seq_lt l2 →
  (∀ e, e ∈ l1 ↔ e ∈ l2) → l1 = l2.
Proof.
  intros H1. revert l2. induction H1 as [|a l1 Hs1 IH Ha]; intros l2 H2 Hin.
  - destruct l2 as [|b l2]; [done|]. exfalso.
    by apply (not_elem_of_nil b), Hin, list_elem_of_here.
  - destruct H2 as [|b l2 Hs2 Hb].
    { exfalso. by apply (not_elem_of_nil a), Hin, list_elem_of_here. }
    rewrite Forall_forall in Ha, Hb. unfold seq_lt in Ha, Hb.
    assert (a = b) as ->.
    { assert (a ∈ b :: l2) as [->|Ha2]%elem_of_cons by apply Hin, list_elem_of_here; [done|].
      assert (b ∈ a :: l1) as [->|Hb1]%elem_of_cons by apply Hin, list_elem_of_here; [done|].
      specialize (Ha _ Hb1). specialize (Hb _ Ha2). lia. }
    f_equal. apply IH; [done|]. intros e. specialize (Hin e). rewrite !elem_of_cons in Hin.
    split; intros He.
    + destruct (proj1 Hin (or_intror He)) as [->|]; [|done]. specialize (Ha _ He). lia.
    + destruct (proj2 Hin (or_intror He)) as [->|]; [|done]. specialize (Hb _ He). lia.
Qed.

(** ** Appending *)

Definition fmap_of (f : JFile) : gmap Z Entry := bySeq (scan f).

Lemma fmap_of_append_line f r :
  jtail f = None → fmap_of (append_line f r) = load_record (fmap_of f) r.
Proof.
  intros Ht. unfold fmap_of, append_line, scan. rewrite Ht. simpl.
  by rewrite !app_nil_r, bySeq_app.
Qed.

(** On a file with no torn tail a write, whatever it meets, either leaves the
    reconstruction alone or adds exactly this record to it. *)
Lemma fmap_of_append_file flt f r :
  jtail f = None →
  fmap_of (append_file flt r f) = fmap_of f ∨
  fmap_of (append_file flt r f) = load_record (fmap_of f) r.
Proof.
  intros Ht. destruct flt as [| | w |]; simpl; auto using fmap_of_append_line.
  unfold fmap_of, append_torn, scan. rewrite Ht. simpl.
  destruct w; rewrite app_nil_r, bySeq_app; auto.
Qed.

Lemma append_ok_tail flt f r :
  flt = FOk ∨ flt = FNone → jtail f = None → jtail (append_file flt r f) = None.
Proof. intros [-> | ->] Ht; simpl; [|done]. unfold append_line. by rewrite Ht. Qed.

(** ** Rewriting and loading again *)

Definition pending_begin (e : Entry) : Entry :=
  MkEntry (eSeq e) (eOp e) (eWhy e) (eDo e) (eUndo e) PhaseBegin.

Lemma foldl_rewrite_lookup es m k :
  NoDup (eSeq <$> es) →
  foldl load_line m (Some ∘ rewrite_record <$> es) !! k =
  match list_find (λ e, eSeq e = k) es with
  | Some (_, e) =>
      Some (MkEntry (eSeq (default e (m !! k))) (eOp e) (eWhy e) (eDo e) (eUndo e) PhaseBegin)
  | None => m !! k
  end.
Proof.
  revert m. induction es as [|e es IH]; intros m Hd; [done|].
  simpl in Hd. rewrite NoDup_cons in Hd. destruct Hd as [Hn Hd]. simpl. rewrite IH by done.
  destruct (decide (eSeq e = k)) as [<-|Hne].
  - assert (list_find (λ e', eSeq e' = eSeq e) es = None) as ->.
    { apply list_find_None, Forall_forall. intros e' Hin E. apply Hn, list_elem_of_fmap. eauto. }
    pose proof (load_record_lookup m (rewrite_record e)) as H. simpl in H. rewrite H.
    by destruct (m !! eSeq e).
  - pose proof (load_record_lookup_ne m (rewrite_record e) k) as H. simpl in H.
    rewrite H by congruence. destruct (list_find (λ e', eSeq e' = k) es) as [[i e']|]; simpl; by rewrite ?H by congruence.
Qed.

Lemma bySeq_rewrite es e :
  NoDup (eSeq <$> es) →
  bySeq (Some ∘ rewrite_record <$> es) !! eSeq e = Some e ↔
  ∃ e', e' ∈ es ∧ e = pending_begin e'.
Proof.
  intros Hd. unfold bySeq. rewrite foldl_rewrite_lookup by done. rewrite lookup_empty. simpl.
  destruct (list_find (λ e', eSeq e' = eSeq e) es) as [[i e']|] eqn:E.
  - apply list_find_Some in E as (Hi & Heq & _). split.
    + intros [= <-]. exists e'. split; [|done]. apply list_elem_of_lookup. eauto.
    + intros (e2 & Hin & ->). simpl in *. f_equal.
      assert (e' = e2) as ->; [|done].
      apply list_elem_of_lookup in Hin as [i2 Hi2].
      assert (i = i2) as ->; [|congruence].
      eapply NoDup_lookup; [exact Hd| |];
        rewrite list_lookup_fmap, ?Hi, ?Hi2; simpl; by rewrite ?Heq.
  - split; [done|]. intros (e2 & Hin & ->). apply list_find_None in E.
    rewrite Forall_forall in E. by destruct (E e2 Hin).
Qed.

Lemma load_rewrite es :
  NoDup (eSeq <$> es) → Forall (λ e, keep e = true) es →
  entries_of (bySeq (Some ∘ rewrite_record <$> es)) = pending_begin <$> merge_sort seq_le es.
Proof.
  intros Hd Hk. apply strict_sorted_ext.
  - apply entries_sorted, bySeq_key_ok.
  - apply StronglySorted_strict.
    + assert (Hs : StronglySorted seq_le (merge_sort seq_le es))
        by (apply StronglySorted_merge_sort; apply _).
      revert Hs. generalize (merge_sort seq_le es) as l. induction 1 as [|e l Hs IH Ha]; simpl; [constructor|].
      constructor; [done|]. rewrite Forall_fmap. exact Ha.
    + rewrite <- list_fmap_compose.
      replace (eSeq ∘ pending_begin <$> merge_sort seq_le es) with (eSeq <$> merge_sort seq_le es)
        by done.
      by rewrite (merge_sort_Permutation seq_le).
  - intros e. rewrite elem_of_entries by apply bySeq_key_ok. rewrite bySeq_rewrite by done.
    rewrite list_elem_of_fmap. setoid_rewrite (merge_sort_Permutation seq_le).
    split.
    + intros [(e' & Hin & ->) _]. eauto.
    + intros (e' & -> & Hin). split; [eauto|]. rewrite Forall_forall in Hk. exact (Hk e' Hin).
Qed.
