(* ===== verification/Apply.v ===== *)
(** * Applying, tearing down and recovering (internal/netcfg/apply.go)

    The [Applier] runs steps against a [Runner] and keeps the journal one
    write ahead of the machine. The world threads the machine's state, the
    disk, the open journal and a trace of what reached either, in order: the
    trace is what the crash theorems quantify over. *)

From S2P Require Import Prelude GoStrings Command Journal.

Local Open Scope Z_scope.

(** ** Reports *)

Record StepResult := MkStepResult {
  srStep : Step;
  srErr : error;
  srStderr : string;
  srSkipped : bool;
  srReason : string
}.

Record Report := MkReport {
  Results : list StepResult;
  repFailed : Z;
  repSkipped : Z
}.

Definition empty_report : Report := MkReport [] 0 0.

(** Report.add *)
Definition add (r : Report) (x : StepResult) : Report :=
  MkReport (Results r ++ [x])
    (match srErr x with Some _ => repFailed r + 1 | None => repFailed r end)
    (if srSkipped x then repSkipped r + 1 else repSkipped r).

(** Report.FailedStep *)
Definition FailedStep (r : Report) : option Step :=
  srStep <$> List.find (λ x, match srErr x with Some _ => true | None => false end) (Results r).

(** ** The world *)

Inductive Event :=
| EvQuery (c : Command)
| EvRun (c : Command) (r : Result * error)
| EvAppend (r : JRecord) (flt : Fault).

Record World (K : Type) := MkWorld {
  kern : K;
  disk : Disk;
  jrn : Journal;
  trace : list Event
}.
Arguments MkWorld {K}.
Arguments kern {K}. Arguments disk {K}. Arguments jrn {K}. Arguments trace {K}.

Inductive apply_error :=
| AEJournal (e : jerror)
| AEStep (s : Step) (cause : string).

Section Applier.
Context {K : Type} `{Runner K}.

Definition run_cmd (c : Command) (w : World K) : (Result * error) * World K :=
  let '(r, k) := Run c (kern w) in
  (r, MkWorld k (disk w) (jrn w) (trace w ++ [EvRun c r])).

Definition run_query (c : Command) (w : World K) : (Result * error) * World K :=
  let '(r, k) := Run c (kern w) in
  (r, MkWorld k (disk w) (jrn w) (trace w ++ [EvQuery c])).

Definition jwrite (r : JRecord) (w : World K) : option jerror * World K :=
  let '(err, flt, d) := write (jrn w) r (disk w) in
  (err, MkWorld (kern w) d (jrn w) (trace w ++ [EvAppend r flt])).

(** Journal.Begin within the world. *)
Definition jbegin (s : Step) (w : World K) : Z * option jerror * World K :=
  let seq := jseq (jrn w) + 1 in
  let w := MkWorld (kern w) (disk w) (MkJournal seq (jopen (jrn w))) (trace w) in
  let '(err, w) := jwrite (begin_record seq s) w in
  (seq, err, w).

(** NewApplier: opens the journal; the runner is never nil here. *)
Definition NewApplier (path : string) (k : K) (d : Disk) : res jerror (World K) :=
  match OpenJournal path d with
  | (Ok j, d) => Ok (MkWorld k d j [])
  | (Err e, _) => Err e
  end.

(** Applier.currentState: for each resource, the last command that completed. *)
Definition state_entry (out : gmap string string) (e : Entry) : gmap string string :=
  if IsZero (eDo e) then out
  else match ePhase e with
       | PhaseDone => <[CommandLine (eDo e) := RunnerKey (eDo e)]> out
       | PhaseUndone => delete (CommandLine (eDo e)) out
       | _ => out
       end.

Definition currentState (entries : list Entry) : gmap string string :=
  foldl state_entry ∅ entries.

Definition skipped (s : Step) (stderr reason : string) : StepResult :=
  MkStepResult s None stderr true reason.

Definition in_force (state : gmap string string) (s : Step) : bool :=
  (default "" (state !! CommandLine (Do s)) =? RunnerKey (Do s))%string.

Definition pre_satisfied (s : Step) (w : World K) : bool * World K :=
  match Pre s with
  | None => (false, w)
  | Some pre =>
      let '((r, qerr), w) := run_query (Query pre) w in
      (Satisfied pre r qerr, w)
  end.

(** The body of Apply's loop once the step is neither empty, nor in force, nor
    already present: begin, run, and record what happened. *)
Definition run_step (s : Step) (rep : Report) (w : World K) :
    Report * option apply_error * World K :=
  let '(seq, err, w) := jbegin s w in
  match err with
  | Some e => (rep, Some (AEJournal e), w)
  | None =>
      let '((r, runErr), w) := run_cmd (Do s) w in
      match runErr with
      | Some msg =>
          if commandRemoves (Do s) && IsNotFound r runErr then
            let '(jerr, w) := jwrite (mark_record seq PhasePreexisting runErr) w in
            match jerr with
            | Some e => (rep, Some (AEJournal e), w)
            | None =>
                (add rep (skipped s (Stderr r)
                   "already gone, so nothing was changed and the inverse was retracted"), None, w)
            end
          else if IsAlreadyExists r runErr then
            let '(jerr, w) := jwrite (mark_record seq PhasePreexisting runErr) w in
            match jerr with
            | Some e => (rep, Some (AEJournal e), w)
            | None =>
                (add rep (skipped s (Stderr r)
                   "already existed, so nothing was changed and the inverse was retracted"), None, w)
            end
          else
            let rep := add rep (MkStepResult s runErr (Stderr r) false "") in
            let '(jerr, w) := jwrite (mark_record seq PhaseFailed runErr) w in
            match jerr with
            | Some e => (rep, Some (AEJournal e), w)
            | None => (rep, Some (AEStep s msg), w)
            end
      | None =>
          let rep := add rep (MkStepResult s None (Stderr r) false "") in
          let '(jerr, w) := jwrite (mark_record seq PhaseDone None) w in
          match jerr with
          | Some e => (rep, Some (AEJournal e), w)
          | None => (rep, None, w)
          end
      end
  end.

Definition apply_step (state : gmap string string) (s : Step) (rep : Report) (w : World K) :
    Report * option apply_error * World K :=
  if IsZero (Do s) then (rep, None, w)
  else if in_force state s then
    (add rep (skipped s ""
       "this exact change is the one already in force, recorded in the journal"), None, w)
  else
    let '(sat, w) := pre_satisfied s w in
    if sat then
      (add rep (skipped s ""
         "already present on this machine and not recorded as ours, so it is left alone and no inverse is journalled"), None, w)
    else run_step s rep w.

Fixpoint apply_loop (state : gmap string string) (steps : list Step) (rep : Report)
    (w : World K) : Report * option apply_error * World K :=
  match steps with
  | [] => (rep, None, w)
  | s :: steps' =>
      let '(rep, err, w) := apply_step state s rep w in
      match err with
      | Some e => (rep, Some e, w)
      | None => apply_loop state steps' rep w
      end
  end.

(** Applier.Apply *)
Definition Apply (steps : list Step) (w : World K) : Report * option apply_error * World K :=
  match LoadJournal (disk w) with
  | Err e => (empty_report, Some (AEJournal e), w)
  | Ok entries => apply_loop (currentState entries) steps empty_report w
  end.

(** ** Replaying inverses *)

Definition undo_step (e : Entry) : Step := MkStep (eOp e) (eWhy e) (eUndo e) (eDo e) None.

(** [j != nil] is [journalled]; the error of recording it is dropped. *)
Definition mark_undone (journalled : bool) (e : Entry) (w : World K) : World K :=
  if journalled then (jwrite (mark_record (eSeq e) PhaseUndone None) w).2 else w.

(** undoOne *)
Definition undoOne (journalled : bool) (e : Entry) (x : Report * list Entry * World K) :
    Report * list Entry * World K :=
  let '(rep, remaining, w) := x in
  let '((r, err), w) := run_cmd (eUndo e) w in
  match err with
  | Some _ =>
      if commandRemoves (eUndo e) && IsNotFound r err then
        (MkReport (Results rep ++ [skipped (undo_step e) (Stderr r)
            "nothing to undo: the object was already gone"]) (repFailed rep) (repSkipped rep + 1),
         remaining, mark_undone journalled e w)
      else
        (MkReport (Results rep ++ [MkStepResult (undo_step e) err (Stderr r) false ""])
           (repFailed rep + 1) (repSkipped rep),
         remaining ++ [e], w)
  | None =>
      (MkReport (Results rep ++ [MkStepResult (undo_step e) None (Stderr r) false ""])
         (repFailed rep) (repSkipped rep),
       remaining, mark_undone journalled e w)
  end.

Definition is_nft (e : Entry) : bool := (eOp e =? OpNft)%string.

(** Pass one: everything that is not the firewall. *)
Fixpoint pass_one (journalled : bool) (es : list Entry) (x : Report * list Entry * World K) :=
  match es with
  | [] => x
  | e :: es' =>
      if negb (NeedsUndo e) || is_nft e then pass_one journalled es' x
      else pass_one journalled es' (undoOne journalled e x)
  end.

Definition held_reason : string :=
  "held: an earlier inverse failed, so the fail-closed ruleset stays loaded rather than being taken away from a machine that is still carrying routes, addresses or forwarding. It stays in the journal and the next start retries it".

(** Pass two: the firewall, only if nothing has failed. *)
Fixpoint pass_two (journalled : bool) (es : list Entry) (x : Report * list Entry * World K) :=
  match es with
  | [] => x
  | e :: es' =>
      if negb (NeedsUndo e) || negb (is_nft e) then pass_two journalled es' x
      else
        let '(rep, remaining, w) := x in
        if 0 <? repFailed rep then
          pass_two journalled es'
            (MkReport (Results rep ++ [skipped (undo_step e) "" held_reason])
               (repFailed rep) (repSkipped rep + 1),
             remaining ++ [e], w)
        else pass_two journalled es' (undoOne journalled e x)
  end.

(** replay: newest first, both passes, and the remainder turned round. *)
Definition replay (journalled : bool) (entries : list Entry) (w : World K) :
    Report * list Entry * World K :=
  let newest := rev entries in
  let '(rep, remaining, w) :=
    pass_two journalled newest (pass_one journalled newest (empty_report, [], w)) in
  (rep, rev remaining, w).

(** Applier.Teardown *)
Definition Teardown (w : World K) : Report * option jerror * World K :=
  match LoadJournal (disk w) with
  | Err e => (empty_report, Some e, w)
  | Ok entries =>
      let '(rep, remaining, w) := replay true entries w in
      let '(cerr, j, d) := CloseJournal (jrn w) (disk w) in
      let w := MkWorld (kern w) d j (trace w) in
      match cerr with
      | Some e => (rep, Some e, w)
      | None =>
          let '(rerr, d) := RewriteJournal remaining (disk w) in
          (rep, rerr, MkWorld (kern w) d (jrn w) (trace w))
      end
  end.

(** Recover: the journal of a killed process, replayed before anything else. *)
Definition Recover (w : World K) : Report * option jerror * World K :=
  match LoadJournal (disk w) with
  | Err e => (empty_report, Some e, w)
  | Ok [] => (empty_report, None, w)
  | Ok entries =>
      let '(rep, remaining, w) := replay false entries w in
      let '(rerr, d) := RewriteJournal remaining (disk w) in
      (rep, rerr, MkWorld (kern w) d (jrn w) (trace w))
  end.

End Applier.

(** ** A two-step plan on the recording runner, for the witnesses *)

Module Demo.
Local Open Scope string_scope.

Definition fw : Step :=
  MkStep OpNft "block first"
    (MkCommand BinNft ["-f"; "-"] "table inet caspian {}" "") 
    (MkCommand BinNft ["delete"; "table"; "inet"; "caspian"] "" "") None.

Definition rule : Step :=
  MkStep OpRule "select the tunnel table"
    (MkCommand BinIP ["rule"; "add"; "from"; "10.83.51.0/24"; "lookup"; "8410"] "" "")
    (MkCommand BinIP ["rule"; "del"; "from"; "10.83.51.0/24"; "lookup"; "8410"] "" "") None.

Definition steps : list Step := [fw; rule].

Definition machine : RecordingRunner := MkRecording [] PlatformLinux ∅ ∅.

(** The same machine when the rule's inverse is refused. *)
Definition stuck : RecordingRunner :=
  MkRecording [] PlatformLinux ∅ {[ RunnerKey (Undo rule) := "exit status 2" ]}.

Definition world (m : RecordingRunner) (f : JFile) : World RecordingRunner :=
  MkWorld m (MkDisk (Some f) [] false) (MkJournal 0 true) [].

(** The journal both steps leave. *)
Definition applied : JFile :=
  MkJFile (Some <$> [begin_record 1 fw; mark_record 1 PhaseDone None;
                     begin_record 2 rule; mark_record 2 PhaseDone None]) None.
End Demo.
