(* ===== verification/ApplyCrash.v ===== *)
(** * Crash consistency of Apply

    Apply's contract (apply.go, [Applier]) is that the inverse reaches the disk
    before the change reaches the kernel. The trace of a run is shown to follow
    a grammar, and every point at which the process can be killed, a torn
    journal write included, is then a prefix of that grammar. *)

From S2P Require Import Prelude GoStrings Command Journal Apply.

Local Open Scope Z_scope.

(** ** Crash points *)

Definition file_event (f : JFile) (e : Event) : JFile :=
  match e with
  | EvAppend r flt => append_file flt r f
  | _ => f
  end.

(** The journal file after the events [done] of a run that would have gone on
    with [rest]: as the last completed write left it, or with part of the next
    record on it. *)
Inductive crashed (f0 : JFile) (done rest : list Event) : JFile → Prop :=
| crashed_between : crashed f0 done rest (foldl file_event f0 done)
| crashed_writing r flt rest' whole :
    rest = EvAppend r flt :: rest' →
    crashed f0 done rest (append_torn (foldl file_event f0 done) whole r).

Definition nothing_changed (s : Step) (r : Result * error) : bool :=
  commandRemoves (Do s) && IsNotFound r.1 r.2 || IsAlreadyExists r.1 r.2.

Definition dfile {K} (w : World K) : JFile := default empty_file (file (disk w)).

(** ** The grammar of a run *)

Inductive asked : list Event → Prop :=
| asked_nothing : asked []
| asked_query c : asked [EvQuery c].

Inductive marked (s : Step) (r : Result * error) : Phase → Prop :=
| marked_done : r.2 = None → marked s r PhaseDone
| marked_failed : marked s r PhaseFailed
| marked_preexisting : nothing_changed s r = true → marked s r PhasePreexisting.

(** The events of one step: from sequence number [seq], whether the loop goes
    on, and the sequence number it leaves. *)
Inductive step_events (s : Step) (seq : Z) : list Event → bool → Z → Prop :=
| se_skip q : asked q → step_events s seq q true seq
| se_refused q flt :
    asked q → flt ≠ FOk →
    step_events s seq (q ++ [EvAppend (begin_record (seq + 1) s) flt]) false (seq + 1)
| se_ran q r p cause flt cont :
    asked q → IsZero (Do s) = false → marked s r p → (cont = true → flt = FOk) →
    step_events s seq
      (q ++ [EvAppend (begin_record (seq + 1) s) FOk; EvRun (Do s) r;
             EvAppend (mark_record (seq + 1) p cause) flt]) cont (seq + 1).

Inductive run_events : list Step → Z → list Event → Prop :=
| re_nil seq : run_events [] seq []
| re_stop s steps seq evs cont seq' :
    step_events s seq evs cont seq' → run_events (s :: steps) seq evs
| re_cons s steps seq evs seq' evs' :
    step_events s seq evs true seq' → run_events steps seq' evs' →
    run_events (s :: steps) seq (evs ++ evs').

(** ** Apply follows the grammar *)

Section Traces.
Context {K : Type} `{Runner K}.

(** [w'] is [w] after the events [evs]. *)
Definition extends (w : World K) (evs : list Event) (w' : World K) : Prop :=
  trace w' = trace w ++ evs ∧ dfile w' = foldl file_event (dfile w) evs.

Lemma extends_refl w : extends w [] w.
Proof. split; [by rewrite app_nil_r|done]. Qed.

Lemma extends_trans w1 w2 w3 e1 e2 : extends w1 e1 w2 → extends w2 e2 w3 → extends w1 (e1 ++ e2) w3.
Proof. intros [T1 F1] [T2 F2]. split; [by rewrite T2, T1, app_assoc|by rewrite F2, F1, foldl_app]. Qed.

Lemma run_cmd_extends c w r w' :
  run_cmd c w = (r, w') → extends w [EvRun c r] w' ∧ jrn w' = jrn w.
Proof. unfold run_cmd. destruct (Run c (kern w)) as [r0 k]. intros [= <- <-]. done. Qed.

Lemma run_query_extends c w r w' :
  run_query c w = (r, w') → extends w [EvQuery c] w' ∧ jrn w' = jrn w.
Proof. unfold run_query. destruct (Run c (kern w)) as [r0 k]. intros [= <- <-]. done. Qed.

Lemma jwrite_extends r w err w' :
  jwrite r w = (err, w') →
  ∃ flt, extends w [EvAppend r flt] w' ∧ jrn w' = jrn w ∧ (err = None ↔ flt = FOk).
Proof.
  unfold jwrite, write. intros E. destruct (jopen (jrn w)); simpl in E.
  - destruct (next_fault (disk w)) as [flt d] eqn:Ef. simplify_eq/=. exists flt.
    assert (Hd : file d = file (disk w))
      by (unfold next_fault in Ef; destruct (faults (disk w)); by simplify_eq/=).
    unfold extends, dfile. simpl. rewrite Hd. repeat split; destruct flt; done.
  - simplify_eq/=. exists FNone. done.
Qed.

Lemma jbegin_extends s w seq err w' :
  jbegin s w = (seq, err, w') →
  seq = jseq (jrn w) + 1 ∧
  ∃ flt, extends w [EvAppend (begin_record seq s) flt] w' ∧ jseq (jrn w') = seq ∧
         (err = None ↔ flt = FOk).
Proof.
  unfold jbegin. destruct (jwrite _ _) as [err0 w0] eqn:E. intros [= <- <- <-]. split; [done|].
  apply jwrite_extends in E as (flt & Hx & Hj & He). exists flt. by rewrite Hj.
Qed.

Lemma pre_satisfied_extends s w b w' :
  pre_satisfied s w = (b, w') → ∃ q, asked q ∧ extends w q w' ∧ jrn w' = jrn w.
Proof.
  unfold pre_satisfied. destruct (Pre s) as [pre|].
  - destruct (run_query (Query pre) w) as [[r qerr] w0] eqn:E. intros [= <- <-].
    apply run_query_extends in E as [Hx Hj]. eauto using asked_query.
  - intros [= <- <-]. eauto using asked_nothing, extends_refl.
Qed.

(** The part of a step after the precondition. *)
Lemma run_step_events s rep w rep' err w' q :
  asked q → IsZero (Do s) = false → run_step s rep w = (rep', err, w') →
  ∃ evs cont, extends w evs w' ∧
    step_events s (jseq (jrn w)) (q ++ evs) cont (jseq (jrn w')) ∧ (err = None → cont = true).
Proof.
  intros Hq Hz. unfold run_step. destruct (jbegin s w) as [[seq berr] w1] eqn:Eb.
  apply jbegin_extends in Eb as (-> & flt & Hx1 & Hj1 & Hb).
  destruct berr as [e|].
  { intros [= <- <- <-]. exists [EvAppend (begin_record (jseq (jrn w) + 1) s) flt], false.
    rewrite Hj1. split_and!; [done| |done]. apply se_refused; [done|].
    intros ->. by destruct Hb as [_ Hb]; specialize (Hb eq_refl). }
  assert (flt = FOk) as -> by (by apply Hb).
  destruct (run_cmd (Do s) w1) as [[r runErr] w2] eqn:Er.
  apply run_cmd_extends in Er as [Hx2 Hj2].
  pose proof (extends_trans _ _ _ _ _ Hx1 Hx2) as Hx12. simpl in Hx12.
  assert (Hfin : ∀ p cause rep0 (err0 : option apply_error) w3 jerr,
    marked s (r, runErr) p → jwrite (mark_record (jseq (jrn w) + 1) p cause) w2 = (jerr, w3) →
    (err0 = None → jerr = None) → (rep0, err0, w3) = (rep', err, w') →
    ∃ evs cont, extends w evs w' ∧
      step_events s (jseq (jrn w)) (q ++ evs) cont (jseq (jrn w')) ∧ (err = None → cont = true)).
  { intros p cause rep0 err0 w3 jerr Hm Hw Hc [= <- <- <-].
    apply jwrite_extends in Hw as (flt & Hx3 & Hj3 & Hf).
    eexists _, (match err0 with None => true | Some _ => false end).
    split; [exact (extends_trans _ _ _ _ _ Hx12 Hx3)|].
    rewrite Hj3, Hj2, Hj1. split; [|by intros ->].
    apply se_ran; [done..|]. destruct err0; [done|]. intros _. apply Hf. auto. }
  (* Each branch writes one mark and stops on the journal's error. *)
  assert (Hpre : nothing_changed s (r, runErr) = true → ∀ jerr w3 rep0,
    jwrite (mark_record (jseq (jrn w) + 1) PhasePreexisting runErr) w2 = (jerr, w3) →
    match jerr with
    | Some e => (rep, Some (AEJournal e), w3)
    | None => (rep0, None, w3)
    end = (rep', err, w') →
    ∃ evs cont, extends w evs w' ∧
      step_events s (jseq (jrn w)) (q ++ evs) cont (jseq (jrn w')) ∧ (err = None → cont = true)).
  { intros Hn [e|] w3 rep0 Hw Hres; (eapply Hfin; [by apply marked_preexisting|exact Hw| |exact Hres]);
      done. }
  destruct runErr as [msg|].
  - destruct (commandRemoves (Do s) && IsNotFound r (Some msg)) eqn:Erm.
    { destruct (jwrite _ w2) as [jerr w3] eqn:Ew. eapply Hpre; [|done].
      unfold nothing_changed; cbn [fst snd]. by rewrite Erm. }
    destruct (IsAlreadyExists r (Some msg)) eqn:Eex.
    { destruct (jwrite _ w2) as [jerr w3] eqn:Ew. eapply Hpre; [|done].
      unfold nothing_changed; cbn [fst snd]. by rewrite Eex, orb_true_r. }
    clear Hpre. destruct (jwrite _ w2) as [[e|] w3] eqn:Ew; intros Hres;
      (eapply Hfin; [apply marked_failed|exact Ew| |exact Hres]); done.
  - clear Hpre. destruct (jwrite _ w2) as [[e|] w3] eqn:Ew; intros Hres;
      (eapply Hfin; [by apply marked_done|exact Ew| |exact Hres]); done.
Qed.

Lemma apply_step_events st s rep w rep' err w' :
  apply_step st s rep w = (rep', err, w') →
  ∃ evs cont, extends w evs w' ∧
    step_events s (jseq (jrn w)) evs cont (jseq (jrn w')) ∧ (err = None → cont = true).
Proof.
  unfold apply_step. intros E.
  assert (Hskip : ∃ evs cont, extends w evs w ∧
    step_events s (jseq (jrn w)) evs cont (jseq (jrn w)) ∧ (err = None → cont = true)).
  { exists [], true. split_and!; [apply extends_refl| |done]. repeat constructor. }
  destruct (IsZero (Do s)) eqn:Hz; [by simplify_eq|].
  destruct (in_force st s); [by simplify_eq|].
  destruct (pre_satisfied s w) as [sat w1] eqn:Ep.
  apply pre_satisfied_extends in Ep as (q & Hq & Hx & Hj). destruct sat.
  - simplify_eq. exists q, true. rewrite Hj. split_and!; [done| |done]. by constructor.
  - apply (run_step_events _ _ _ _ _ _ q Hq Hz) in E as (evs & cont & Hx2 & Hs & Hc).
    rewrite Hj in Hs. exists (q ++ evs), cont. eauto using extends_trans.
Qed.

Lemma apply_loop_events st steps rep w rep' err w' :
  apply_loop st steps rep w = (rep', err, w') →
  ∃ evs, extends w evs w' ∧ run_events steps (jseq (jrn w)) evs.
Proof.
  revert rep w. induction steps as [|s steps IH]; simpl; intros rep w E.
  - simplify_eq. exists []. eauto using extends_refl, run_events.
  - destruct (apply_step st s rep w) as [[rep1 err1] w1] eqn:Es.
    apply apply_step_events in Es as (evs & cont & Hx & Hs & Hc). destruct err1 as [e|].
    + simplify_eq. eauto using run_events.
    + rewrite (Hc eq_refl) in Hs. apply IH in E as (evs' & Hx' & Hr).
      eauto using run_events, extends_trans.
Qed.

End Traces.

(** ** What a crash leaves in the reconstruction *)

Definition map_event (m : gmap Z Entry) (e : Event) : gmap Z Entry :=
  match e with EvAppend r _ => load_record m r | _ => m end.

Definition ok_event (e : Event) : Prop :=
  match e with EvAppend _ flt => flt = FOk | _ => True end.

Lemma foldl_ok_events f evs :
  jtail f = None → Forall ok_event evs →
  fmap_of (foldl file_event f evs) = foldl map_event (fmap_of f) evs ∧
  jtail (foldl file_event f evs) = None.
Proof.
  intros Ht Hall. revert f Ht. induction Hall as [|e evs He Hall IH]; intros f Ht; [done|].
  simpl. destruct e as [c|c r|r flt]; simpl in *; [by apply IH..|]. subst flt. simpl.
  destruct (IH (append_line f r)) as [-> ->]; [by unfold append_line; rewrite Ht|].
  by rewrite fmap_of_append_line.
Qed.

Lemma step_events_ok s seq evs cont seq' :
  step_events s seq evs cont seq' →
  Forall ok_event (removelast evs) ∧ (cont = true → Forall ok_event evs).
Proof.
  assert (Hq : ∀ q, asked q → Forall ok_event q) by (intros q []; repeat constructor).
  intros [q Ha|q flt Ha Hf|q r p cause flt cont' Ha Hz Hm Hc].
  - split; [destruct Ha; simpl; constructor|auto].
  - rewrite removelast_last. split; [auto|done].
  - rewrite removelast_app by done. split; [|intros ->; specialize (Hc eq_refl)];
      apply Forall_app; (split; [auto|]); repeat constructor; done.
Qed.

Lemma run_events_ok steps seq evs : run_events steps seq evs → Forall ok_event (removelast evs).
Proof.
  induction 1 as [|s steps seq evs cont seq' Hs|s steps seq evs seq' evs' Hs Hr IH];
    [constructor|by apply step_events_ok in Hs as [? _]|].
  apply step_events_ok in Hs as [Hl Hs]. destruct evs' as [|e evs'].
  - by rewrite app_nil_r.
  - rewrite removelast_app by done. apply Forall_app. auto.
Qed.

(** Every crash leaves the reconstruction of a prefix of the records, and that
    prefix ran the same commands. *)
Lemma crash_map f0 done rest f :
  jtail f0 = None → Forall ok_event (removelast (done ++ rest)) → crashed f0 done rest f →
  ∃ q q', done ++ rest = q ++ q' ∧ fmap_of f = foldl map_event (fmap_of f0) q ∧
          ∀ c r, EvRun c r ∈ done → EvRun c r ∈ q.
Proof.
  intros Ht Hok Hc.
  assert (Hdone : rest ≠ [] → Forall ok_event done).
  { intros Hr. rewrite removelast_app in Hok by done. by apply Forall_app in Hok as [? _]. }
  destruct Hc as [|r flt rest' whole ->].
  - destruct rest as [|e rest].
    + rewrite app_nil_r in *. destruct (decide (done = [])) as [->|Hne].
      { exists [], []. done. }
      rewrite (app_removelast_last (EvQuery zero_command) Hne) in *.
      set (q := removelast done) in *. set (x := List.last done _) in *. clearbody q x.
      rewrite removelast_last in Hok. destruct (foldl_ok_events f0 q Ht Hok) as [Hm Htq].
      rewrite foldl_app. simpl. destruct x as [c|c r|r flt]; simpl.
      * exists (q ++ [EvQuery c]), []. rewrite app_nil_r, foldl_app. by rewrite Hm.
      * exists (q ++ [EvRun c r]), []. rewrite app_nil_r, foldl_app. by rewrite Hm.
      * destruct (fmap_of_append_file flt (foldl file_event f0 q) r Htq) as [E|E].
        -- exists q, [EvAppend r flt]. rewrite E, Hm. split_and!; [done..|].
           intros c r0. rewrite elem_of_app, list_elem_of_singleton. by intros [?|?].
        -- exists (q ++ [EvAppend r flt]), []. rewrite app_nil_r, foldl_app, E, Hm. done.
    + destruct (foldl_ok_events f0 done Ht (Hdone ltac:(done))) as [Hm _]. eauto.
  - destruct (foldl_ok_events f0 done Ht (Hdone ltac:(done))) as [Hm Htd].
    destruct (fmap_of_append_file (FTorn whole) _ r Htd) as [E|E]; simpl in E.
    + exists done, (EvAppend r flt :: rest'). by rewrite E, Hm.
    + exists (done ++ [EvAppend r flt]), rest'. rewrite <- app_assoc, foldl_app, E, Hm.
      split_and!; [done..|]. intros c r0 Hin. apply elem_of_app. by left.
Qed.

(** ** The entry behind every command that ran *)

Definition names_inverse (s : Step) (r : Result * error) (e : Entry) : Prop :=
  eDo e = Do s ∧ eUndo e = Undo s ∧
  (NeedsUndo e = negb (IsZero (Undo s)) ∨
   ePhase e = PhasePreexisting ∧ nothing_changed s r = true).

(** Appends from sequence number [seq] on leave the older entries alone. *)
Definition appends_above (seq : Z) (e : Event) : Prop :=
  match e with EvAppend r _ => seq < rSeq r | _ => True end.

Lemma map_events_below seq m evs k :
  Forall (appends_above seq) evs → k ≤ seq → foldl map_event m evs !! k = m !! k.
Proof.
  intros Hall Hk. revert m. induction Hall as [|e evs He Hall IH]; intros m; [done|]. simpl.
  rewrite IH. destruct e as [| |r flt]; simpl in *; [done..|].
  apply load_record_lookup_ne. lia.
Qed.

Lemma step_events_above s seq evs cont seq' :
  step_events s seq evs cont seq' → seq ≤ seq' ∧ Forall (appends_above seq) evs.
Proof.
  assert (Hq : ∀ q, asked q → Forall (appends_above seq) q) by (intros q []; repeat constructor).
  intros [q Ha|q flt Ha Hf|q r p cause flt cont' Ha Hz Hm Hc]; (split; [lia|]); [auto|..];
    apply Forall_app; (split; [auto|]); repeat constructor; simpl; lia.
Qed.

Lemma run_events_above steps seq evs :
  run_events steps seq evs → Forall (appends_above seq) evs.
Proof.
  induction 1 as [|s steps seq evs cont seq' Hs|s steps seq evs seq' evs' Hs Hr IH];
    [constructor|by apply step_events_above in Hs as [_ ?]|].
  apply step_events_above in Hs as [Hle Hs]. apply Forall_app. split; [done|].
  eapply Forall_impl; [exact IH|]. intros [| |r flt]; simpl; lia.
Qed.

Lemma begin_lookup m seq s :
  ∃ k, load_record m (begin_record seq s) !! seq =
       Some (MkEntry k (Op s) (Why s) (Do s) (Undo s) PhaseBegin).
Proof.
  pose proof (load_record_lookup m (begin_record seq s)) as E. simpl in E. rewrite E. eauto.
Qed.

Lemma mark_lookup m seq s r p cause :
  marked s r p →
  ∃ e, load_record (load_record m (begin_record seq s)) (mark_record seq p cause) !! seq = Some e ∧
       names_inverse s r e.
Proof.
  intros Hm. destruct (begin_lookup m seq s) as [k Eb].
  pose proof (load_record_lookup (load_record m (begin_record seq s)) (mark_record seq p cause)) as E.
  change (rSeq (mark_record seq p cause)) with seq in E. rewrite Eb in E. simpl in E.
  unfold names_inverse, NeedsUndo.
  destruct Hm as [Hr| |Hn]; simpl in E; rewrite E; eexists; (split; [reflexivity|]); simpl; auto.
Qed.

Lemma step_run_entry s seq evs cont seq' m q q' c r :
  step_events s seq evs cont seq' → evs = q ++ q' → EvRun c r ∈ q →
  seq' = seq + 1 ∧ c = Do s ∧ IsZero (Do s) = false ∧
  ∃ e, foldl map_event m q !! (seq + 1) = Some e ∧ names_inverse s r e.
Proof.
  assert (Hq : ∀ p, asked p → EvRun c r ∉ p).
  { intros p []; [apply not_elem_of_nil|]. by rewrite list_elem_of_singleton. }
  intros Hs -> Hin. inversion Hs as [? Ha|? flt Ha|p r0 ph cause flt cont' Ha Hz Hm _ E]; subst.
  - destruct (Hq _ Ha). apply elem_of_app. auto.
  - assert (Hin' : EvRun c r ∈ q ++ q') by (apply elem_of_app; auto).
    match goal with E : _ = q ++ q' |- _ => rewrite <- E in Hin' end.
    apply elem_of_app in Hin' as [?|?%list_elem_of_singleton]; [by destruct (Hq _ Ha)|done].
  - split; [done|].
    assert (Hlen : ∃ q0, (q = p ++ [EvAppend (begin_record (seq + 1) s) FOk; EvRun (Do s) r0] ++ q0)
                   ∧ (q0 = [] ∨ q0 = [EvAppend (mark_record (seq + 1) ph cause) flt])).
    { destruct Ha; simpl in *;
      repeat (destruct q as [|? q]; simpl in *;
              [first [by apply not_elem_of_nil in Hin | by eauto 10 | exfalso; set_solver]
              |simplify_eq/=]); eauto 10. }
    destruct Hlen as (q0 & -> & Hq0).
    assert (Heq : c = Do s ∧ r = r0).
    { rewrite !elem_of_app in Hin. destruct Hin as [?|[?|?]].
      - by destruct (Hq _ Ha).
      - set_solver.
      - destruct Hq0 as [-> | ->]; set_solver. }
    destruct Heq as [-> ->]. split_and!; [done..|].
    rewrite foldl_app.
    assert (Hp : foldl map_event m p = m) by (by destruct Ha). rewrite Hp.
    destruct Hq0 as [-> | ->]; simpl.
    + destruct (begin_lookup m (seq + 1) s) as [k ->]. eexists. split; [reflexivity|].
      unfold names_inverse, NeedsUndo. simpl. auto.
    + by apply mark_lookup.
Qed.

Lemma run_events_entries steps seq evs m q q' :
  run_events steps seq evs → evs = q ++ q' →
  ∀ c r, EvRun c r ∈ q →
  ∃ s k e, s ∈ steps ∧ Do s = c ∧ IsZero (Do s) = false ∧ seq < k ∧
    foldl map_event m q !! k = Some e ∧ names_inverse s r e.
Proof.
  intros Hr. revert m q q'.
  induction Hr as [|s steps seq evs cont seq' Hs|s steps seq evs seq' evs' Hs Hr IH];
    intros m q q' E c r Hin.
  - apply eq_sym, app_eq_nil in E as [-> _]. by apply not_elem_of_nil in Hin.
  - destruct (step_run_entry _ _ _ _ _ m _ _ _ _ Hs E Hin) as (_ & -> & Hz & e & He & Hn).
    exists s, (seq + 1), e. split_and!; [apply list_elem_of_here|done..|lia|done|done].
  - pose proof (step_events_above _ _ _ _ _ Hs) as [Hle _].
    apply app_eq_app in E as (l & [(-> & ->)|(-> & ->)]).
    + (* the crash falls inside this step *)
      destruct (step_run_entry _ _ _ _ _ m _ _ _ _ Hs eq_refl Hin) as (_ & -> & Hz & e & He & Hn).
      exists s, (seq + 1), e. split_and!; [apply list_elem_of_here|done..|lia|done|done].
    + (* or after it *)
      rewrite foldl_app. apply elem_of_app in Hin as [Hin|Hin].
      * destruct (step_run_entry _ _ _ _ _ m evs [] c r Hs) as (-> & -> & Hz & e & He & Hn);
          [by rewrite app_nil_r|done|].
        apply run_events_above, Forall_app in Hr as [Hab _].
        exists s, (seq + 1), e. split_and!; [apply list_elem_of_here|done..|lia| |done].
        by rewrite (map_events_below (seq + 1)) by (done || lia).
      * destruct (IH (foldl map_event m evs) l q' eq_refl _ _ Hin)
          as (s' & k & e & Hs' & Hdo & Hz & Hk & He & Hn).
        exists s', k, e. split_and!; [by apply list_elem_of_further|done..|lia|done|done].
Qed.

(** The two halves of the crash guarantee, on the grammar. *)
Lemma run_crash_entries steps seq f0 done rest f :
  jtail f0 = None → run_events steps seq (done ++ rest) → crashed f0 done rest f →
  (∀ k, k ≤ seq → fmap_of f !! k = fmap_of f0 !! k) ∧
  (∀ c r, EvRun c r ∈ done →
     ∃ s e, s ∈ steps ∧ Do s = c ∧ e ∈ load_file (Some f) ∧ seq < eSeq e ∧ names_inverse s r e).
Proof.
  intros Ht Hr Hc. pose proof (run_events_ok _ _ _ Hr) as Hok.
  destruct (crash_map _ _ _ _ Ht Hok Hc) as (q & q' & Eq & Hm & Hq).
  pose proof (run_events_above _ _ _ Hr) as Hab. rewrite Eq in Hab.
  apply Forall_app in Hab as [Hab _]. rewrite Hm. split.
  - intros k Hk. by apply (map_events_below seq).
  - intros c r Hin.
    destruct (run_events_entries _ _ _ (fmap_of f0) _ _ Hr Eq c r (Hq _ _ Hin))
      as (s & k & e & Hs & Hdo & Hz & Hk & He & Hn).
    rewrite <- Hm in He. pose proof (bySeq_key_ok _ _ _ He) as Hkey.
    exists s, e. split_and!; [done|done| |by rewrite Hkey|done].
    apply elem_of_entries; [apply bySeq_key_ok|]. rewrite Hkey. split; [exact He|].
    unfold keep. destruct Hn as (-> & _). by rewrite Hz.
Qed.

Section Crash.
Context {K : Type} `{Runner K}.

Lemma Apply_events steps (w w' : World K) rep err :
  Apply steps w = (rep, err, w') →
  ∃ evs, trace w' = trace w ++ evs ∧ (evs = [] ∨ run_events steps (jseq (jrn w)) evs).
Proof.
  unfold Apply. destruct (LoadJournal (disk w)) as [es|e]; intros E.
  - apply apply_loop_events in E as (evs & [Htr _] & Hr). eauto.
  - simplify_eq. exists []. split; [by rewrite app_nil_r|by left].
Qed.

(** C1. Starting from a journal file that does not end in a torn line (or from
    none), whatever point an [Apply] is killed at, a journal write in progress
    included, the journal found on disk names every change that reached the
    machine: each command that ran has an entry with its step's inverse, still
    to be replayed unless the command reported that it changed nothing; and the
    entries of earlier runs are as they were. The condition is needed: from a
    file that ends in a torn line the first entry is lost
    (ApplyConverge.torn_tail_loses_inverse). *)
Theorem apply_crash_consistent (steps : list Step) (w w' : World K) rep err :
  jtail (dfile w) = None →
  Apply steps w = (rep, err, w') →
  ∃ evs, trace w' = trace w ++ evs ∧
  ∀ done rest f, evs = done ++ rest → crashed (dfile w) done rest f →
    (∀ k, k ≤ jseq (jrn w) → fmap_of f !! k = fmap_of (dfile w) !! k) ∧
    (∀ c r, EvRun c r ∈ done →
       ∃ s e, s ∈ steps ∧ Do s = c ∧ e ∈ load_file (Some f) ∧ jseq (jrn w) < eSeq e ∧
              names_inverse s r e).
Proof.
  intros Ht E. apply Apply_events in E as (evs & T & Hr). exists evs. split; [done|].
  intros done rest f -> Hc. destruct Hr as [[-> ->]%app_eq_nil|Hr].
  - inversion Hc; subst; [|done]. split; [done|]. by intros c r []%not_elem_of_nil.
  - by apply (run_crash_entries steps _ _ _ rest).
Qed.

End Crash.

(** Killed after the second command ran and before its mark was written: both
    inverses are on disk. *)
Lemma apply_crash_consistent_witness :
  let out := Apply Demo.steps (Demo.world Demo.machine empty_file) in
  length (trace out.2) = 6%nat ∧
  ∃ e, e ∈ load_file (Some (foldl file_event empty_file (take 5 (trace out.2)))) ∧
       eUndo e = Undo Demo.rule ∧ NeedsUndo e = true.
Proof.
  intros out. split; [vm_compute; reflexivity|].
  destruct (apply_crash_consistent Demo.steps (Demo.world Demo.machine empty_file) out.2 out.1.1 out.1.2)
    as (evs & T & H); [reflexivity|unfold out; by destruct (Apply _ _) as [[? ?] ?]|].
  simpl in T. subst evs.
  destruct (H (take 5 (trace out.2)) (drop 5 (trace out.2)) _ (eq_sym (take_drop 5 _)) (crashed_between _ _ _))
    as [_ Hrun].
  destruct (Hrun (Do Demo.rule) (MkResult "" "" 0, None)) as (s & e & Hs & Hdo & He & _ & _ & Hu & Hn).
  { apply list_elem_of_lookup. exists 4%nat. vm_compute. reflexivity. }
  assert (s = Demo.rule) as ->.
  { apply elem_of_cons in Hs as [->|Hs]; [discriminate Hdo|]. by apply list_elem_of_singleton in Hs. }
  exists e. split; [exact He|]. split; [exact Hu|].
  destruct Hn as [Hn|[_ Hn]]; [exact Hn|discriminate Hn].
Defined.
