(* ===== verification/ApplyReplay.v ===== *)
(** * Replaying inverses: fail-closed, complete, convergent

    What [replay] (apply.go) attempts, in which order, what it holds back, and
    what [Teardown] and [Recover] leave for the next start. *)

From S2P Require Import Prelude GoStrings Command Journal Apply ApplyCrash.

Local Open Scope Z_scope.

(** ** The specification of a sweep *)

(** An attempt: an entry with the answer its inverse got. *)
Definition attempt : Type := Entry * (Result * error).

(** The inverse ran, or there was nothing left for it to remove. *)
Definition undone (a : attempt) : bool :=
  match a.2.2 with
  | None => true
  | Some _ => commandRemoves (eUndo a.1) && IsNotFound a.2.1 a.2.2
  end.

Definition pending_other (es : list Entry) : list Entry :=
  List.filter (λ e, NeedsUndo e && negb (is_nft e)) (rev es).
Definition pending_nft (es : list Entry) : list Entry :=
  List.filter (λ e, NeedsUndo e && is_nft e) (rev es).

Definition failures (l : list attempt) : list Entry :=
  (List.filter (λ a, negb (undone a)) l).*1.

(** The commands a stretch of trace handed to the machine, with the answers. *)
Definition runs_of (evs : list Event) : list (Command * (Result * error)) :=
  omap (λ e, match e with EvRun c r => Some (c, r) | _ => None end) evs.

Definition attempts_run (l : list attempt) : list (Command * (Result * error)) :=
  (λ a, (eUndo a.1, a.2)) <$> l.

(** The ruleset's inverses: attempted while nothing has failed, then held. *)
Inductive nft_sweep : bool → list Entry → list attempt → list Entry → Prop :=
| nft_held es : nft_sweep true es [] es
| nft_none : nft_sweep false [] [] []
| nft_attempt e r es att held :
    nft_sweep (negb (undone (e, r))) es att held →
    nft_sweep false (e :: es) ((e, r) :: att) held.

Lemma nft_sweep_entries b es att held :
  nft_sweep b es att held → att.*1 ++ held = es.
Proof. induction 1; simpl; by f_equal. Qed.

Lemma nft_sweep_clean b es att held :
  nft_sweep b es att held → b = false → failures att = [] → held = [].
Proof.
  induction 1 as [es| |e r es att held N IH]; intros Hb Hf; [done|done|].
  unfold failures in *. simpl in Hf. destruct (undone (e, r)); [|done]. by apply IH.
Qed.

Lemma failures_app l1 l2 : failures (l1 ++ l2) = failures l1 ++ failures l2.
Proof. unfold failures. by rewrite List.filter_app, fmap_app. Qed.

Lemma failures_nil l : failures l = [] ↔ Forall (λ a, undone a = true) l.
Proof.
  unfold failures. induction l as [|a l IH]; simpl; [by split|].
  rewrite Forall_cons. destruct (undone a); simpl; [naive_solver|]. split; [done|].
  by intros [? _].
Qed.

Lemma runs_of_app e1 e2 : runs_of (e1 ++ e2) = runs_of e1 ++ runs_of e2.
Proof. apply omap_app. Qed.

(** ** The program meets it *)

Section Replay.
Context {K : Type} `{Runner K}.

Definition state : Type := Report * list Entry * World K.
Definition st_rep (x : state) := x.1.1.
Definition st_rem (x : state) := x.1.2.
Definition st_world (x : state) := x.2.

(** [y] follows [x] by running these attempts and keeping these entries. *)
Record swept (x y : state) (att : list attempt) (kept : list Entry) : Prop := {
  sw_rem : st_rem y = st_rem x ++ kept;
  sw_failed : repFailed (st_rep y) = repFailed (st_rep x) + Z.of_nat (length (failures att));
  sw_trace : ∃ evs, extends (st_world x) evs (st_world y) ∧ runs_of evs = attempts_run att;
  sw_jrn : jrn (st_world y) = jrn (st_world x)
}.

Lemma swept_refl x : swept x x [] [].
Proof.
  split; simpl; [by rewrite app_nil_r|lia| |done].
  exists []. split; [apply extends_refl|done].
Qed.

Lemma swept_trans x y z a1 a2 k1 k2 :
  swept x y a1 k1 → swept y z a2 k2 → swept x z (a1 ++ a2) (k1 ++ k2).
Proof.
  intros [R1 F1 (e1 & T1 & C1) J1] [R2 F2 (e2 & T2 & C2) J2]. split.
  - by rewrite R2, R1, app_assoc.
  - rewrite F2, F1, failures_app, length_app. lia.
  - exists (e1 ++ e2). split; [by eapply extends_trans|].
    unfold attempts_run in *. by rewrite runs_of_app, C1, C2, fmap_app.
  - by rewrite J2.
Qed.

Lemma mark_undone_extends jd e (w : World K) :
  ∃ evs, extends w evs (mark_undone jd e w) ∧ runs_of evs = [] ∧ jrn (mark_undone jd e w) = jrn w.
Proof.
  unfold mark_undone. destruct jd.
  - destruct (jwrite _ w) as [err w'] eqn:E. apply jwrite_extends in E as (flt & Hx & Hj & _). eauto.
  - exists []. eauto using extends_refl.
Qed.

Lemma undoOne_swept jd e x :
  ∃ r, swept x (undoOne jd e x) [(e, r)] (if undone (e, r) then [] else [e]).
Proof.
  destruct x as [[rep rem] w]. unfold undoOne.
  destruct (run_cmd (eUndo e) w) as [[r err] w1] eqn:E.
  apply run_cmd_extends in E as [Hx Hj]. exists (r, err).
  destruct (mark_undone_extends jd e w1) as (evs & Hxm & Hrm & Hjm).
  pose proof (extends_trans _ _ _ _ _ Hx Hxm) as Hxx.
  assert (Hgo : ∀ rep', repFailed rep' = repFailed rep → undone (e, (r, err)) = true →
    swept (rep, rem, w) (rep', rem, mark_undone jd e w1) [(e, (r, err))]
      (if undone (e, (r, err)) then [] else [e])).
  { intros rep' Hf Hu. rewrite Hu. split; unfold st_rem, st_rep, st_world; simpl.
    - by rewrite app_nil_r.
    - unfold failures. cbn [List.filter]. rewrite Hu. simpl. lia.
    - eexists. split; [exact Hxx|]. by rewrite runs_of_app, Hrm.
    - by rewrite Hjm, Hj. }
  unfold undone in *. cbn [fst snd] in *. destruct err as [msg|]; [|by apply Hgo].
  destruct (commandRemoves (eUndo e) && IsNotFound r (Some msg)) eqn:En; [by apply Hgo|].
  split; unfold st_rem, st_rep, st_world; simpl; [done| | |done].
  - unfold failures, undone. cbn [List.filter fst snd]. rewrite En. simpl. lia.
  - eauto.
Qed.

Lemma pass_one_swept jd es x :
  ∃ att, swept x (pass_one jd es x) att (failures att) ∧
         att.*1 = List.filter (λ e, NeedsUndo e && negb (is_nft e)) es.
Proof.
  revert x. induction es as [|e es IH]; intros x; simpl.
  - exists []. split; [apply swept_refl|done].
  - destruct (NeedsUndo e), (is_nft e); simpl; try apply IH.
    destruct (undoOne_swept jd e x) as [r Hs].
    destruct (IH (undoOne jd e x)) as (att & Hs' & Ha).
    exists ((e, r) :: att). split; [|by rewrite fmap_cons, Ha].
    pose proof (swept_trans _ _ _ _ _ _ _ Hs Hs') as Ht. simpl in Ht.
    unfold failures. cbn [List.filter]. by destruct (undone (e, r)).
Qed.

Lemma pass_two_swept jd es x :
  0 ≤ repFailed (st_rep x) →
  ∃ att held, swept x (pass_two jd es x) att (failures att ++ held) ∧
    nft_sweep (0 <? repFailed (st_rep x)) (List.filter (λ e, NeedsUndo e && is_nft e) es) att held.
Proof.
  revert x. induction es as [|e es IH]; intros x Hx; simpl.
  - exists [], []. split; [apply swept_refl|]. destruct (0 <? repFailed (st_rep x)); constructor.
  - destruct (NeedsUndo e), (is_nft e); simpl; try by apply IH.
    destruct x as [[rep rem] w]. cbn [st_rep fst] in *. destruct (0 <? repFailed rep) eqn:Ef.
    + match goal with |- context [pass_two jd es ?y] => destruct (IH y) as (att & held & Hs & Hn) end;
        [done|]. cbn [st_rep fst repFailed] in Hn. rewrite Ef in Hn.
      inversion Hn; subst. exists [], (e :: List.filter (λ e, NeedsUndo e && is_nft e) es).
      split; [|constructor].
      destruct Hs as [R F T J]. cbn [st_rem st_rep st_world fst snd repFailed] in *.
      split; cbn [st_rem st_rep st_world fst snd]; [|done..].
      rewrite R. by rewrite <- app_assoc.
    + destruct (undoOne_swept jd e (rep, rem, w)) as [r Hs].
      pose proof (sw_failed _ _ _ _ Hs) as HF. cbn [st_rep fst] in HF.
      destruct (IH (undoOne jd e (rep, rem, w))) as (att & held & Hs' & Hn); [lia|].
      exists ((e, r) :: att), held. split.
      * pose proof (swept_trans _ _ _ _ _ _ _ Hs Hs') as Ht. simpl in Ht.
        unfold failures. cbn [List.filter]. by destruct (undone (e, r)).
      * constructor. replace (negb (undone (e, r)))
          with (0 <? repFailed (st_rep (undoOne jd e (rep, rem, w)))); [done|].
        rewrite HF. breflect. unfold failures. simpl. destruct (undone (e, r)); simpl.
        -- apply Z.ltb_ge. lia.
        -- apply Z.ltb_lt. lia.
Qed.

Lemma replay_spec jd es w rep remaining w' :
  replay jd es w = (rep, remaining, w') →
  ∃ att1 att2 held evs,
    extends w evs w' ∧ runs_of evs = attempts_run (att1 ++ att2) ∧
    att1.*1 = pending_other es ∧
    nft_sweep (0 <? Z.of_nat (length (failures att1))) (pending_nft es) att2 held ∧
    remaining = rev (failures att1 ++ failures att2 ++ held) ∧
    repFailed rep = Z.of_nat (length (failures (att1 ++ att2))) ∧ jrn w' = jrn w.
Proof.
  unfold replay. intros E.
  destruct (pass_one_swept jd (rev es) (empty_report, [], w)) as (att1 & Hs1 & Ha1).
  pose proof (sw_failed _ _ _ _ Hs1) as HF. cbn [st_rep fst repFailed empty_report] in HF.
  destruct (pass_two_swept jd (rev es) (pass_one jd (rev es) (empty_report, [], w)))
    as (att2 & held & Hs2 & Hn); [lia|]. rewrite HF, Z.add_0_l in Hn.
  destruct (swept_trans _ _ _ _ _ _ _ Hs1 Hs2) as [R F (evs & T & C) J].
  destruct (pass_two jd _ _) as [[rep2 rem2] w2]. simplify_eq.
  cbn [st_rem st_rep st_world fst snd repFailed empty_report] in *.
  exists att1, att2, held, evs. split_and!; [done..| | |done].
  - by rewrite R.
  - by rewrite F.
Qed.

(** C10. The firewall goes last, and only on a clean sweep: the inverses of
    everything else are all attempted, newest first; and if any of them fails,
    no inverse of the nftables ruleset is run at all and every one of them
    stays in what is left for the next start. *)
Theorem replay_fail_closed jd es (w : World K) rep remaining w' :
  replay jd es w = (rep, remaining, w') →
  ∃ att1 att2 evs,
    trace w' = trace w ++ evs ∧ runs_of evs = attempts_run (att1 ++ att2) ∧
    att1.*1 = pending_other es ∧ (∀ e, e ∈ att2.*1 → e ∈ pending_nft es) ∧
    (Exists (λ a, undone a = false) att1 →
       att2 = [] ∧ ∀ e, e ∈ pending_nft es → e ∈ remaining).
Proof.
  intros E. apply replay_spec in E as (att1 & att2 & held & evs & [T _] & C & A1 & N & R & _).
  exists att1, att2, evs. split_and!; [done..| |].
  - intros e He. rewrite <- (nft_sweep_entries _ _ _ _ N). apply elem_of_app. by left.
  - intros Hf. destruct (failures att1) as [|e0 l0] eqn:Ef.
    { apply failures_nil in Ef. rewrite Forall_forall in Ef. apply Exists_exists in Hf as (a & Ha & Hu).
      specialize (Ef a Ha). congruence. }
    rewrite (proj2 (Z.ltb_lt _ _)) in N by (simpl; lia). inversion N; subst. split; [done|].
    intros e He. rewrite elem_of_rev, !elem_of_app. auto.
Qed.

Lemma failures_sublist l : sublist (failures l) (l.*1).
Proof.
  unfold failures. induction l as [|a l IH]; simpl; [constructor|].
  destruct (undone a); simpl; by constructor.
Qed.

Lemma elem_of_failures e l : e ∈ failures l ↔ ∃ r, (e, r) ∈ l ∧ undone (e, r) = false.
Proof.
  unfold failures. rewrite list_elem_of_fmap. split.
  - intros ([e' r] & -> & Hin). apply elem_of_filterb in Hin as [Hin Hu]. breflect. eauto.
  - intros (r & Hin & Hu). exists (e, r). split; [done|]. apply elem_of_filterb. by rewrite Hu.
Qed.

(** What is left is part of what was pending, each entry once. *)
Lemma remaining_submseteq att1 att2 held b es :
  att1.*1 = pending_other es → nft_sweep b (pending_nft es) att2 held →
  rev (failures att1 ++ failures att2 ++ held) ⊆+ List.filter NeedsUndo es.
Proof.
  intros A1 N. rewrite rev_Permutation.
  transitivity (pending_other es ++ pending_nft es).
  - apply submseteq_app; [rewrite <- A1; apply sublist_submseteq, failures_sublist|].
    rewrite <- (nft_sweep_entries _ _ _ _ N). apply submseteq_app; [|done].
    apply sublist_submseteq, failures_sublist.
  - unfold pending_other, pending_nft. rewrite <- (rev_Permutation es) at 3.
    transitivity (List.filter (λ e, negb (is_nft e)) (List.filter NeedsUndo (rev es)) ++
                  List.filter is_nft (List.filter NeedsUndo (rev es))).
    + assert (Hff : ∀ p (l : list Entry),
        List.filter p (List.filter NeedsUndo l) = List.filter (λ e, NeedsUndo e && p e) l).
      { intros p l. induction l as [|e l IH]; simpl; [done|].
        destruct (NeedsUndo e); simpl; [destruct (p e); by rewrite IH|done]. }
      by rewrite !Hff.
    + apply filterb_disjoint_submseteq. intros e. destruct (is_nft e); done.
Qed.

(** What a sweep over [es] did, read off the machine: the pending entries,
    everything but the firewall first and each kind newest first, were attempted
    in that order up to those held back, and the machine was given exactly the
    inverses of those attempted. Only the firewall is held back, and only when
    an inverse failed. *)
Definition sweep (es : list Entry) (evs : list Event) (att : list attempt) (held : list Entry) : Prop :=
  runs_of evs = attempts_run att ∧ att.*1 ++ held = pending_other es ++ pending_nft es ∧
  Forall (λ e, is_nft e = true) held ∧ (held ≠ [] → failures att ≠ []).

(** [replay] is a sweep, and what it leaves is what failed and what was held
    back: nothing exactly when no inverse failed. *)
Lemma replay_accounts jd es (w : World K) rep remaining w' :
  replay jd es w = (rep, remaining, w') →
  ∃ evs att held, trace w' = trace w ++ evs ∧ sweep es evs att held ∧
    remaining ≡ₚ failures att ++ held ∧ remaining ⊆+ List.filter NeedsUndo es ∧
    (remaining = [] ↔ repFailed rep = 0).
Proof.
  intros E. apply replay_spec in E as (att1 & att2 & held & evs & [T _] & C & A1 & N & -> & F & _).
  assert (Hclean : failures (att1 ++ att2) = [] → held = []).
  { rewrite failures_app. intros [E1 E2]%app_eq_nil. rewrite E1 in N. by apply (nft_sweep_clean _ _ _ _ N). }
  exists evs, (att1 ++ att2), held. split_and!; [done| | |by eapply remaining_submseteq|].
  - split_and!; [done| | |intros Hh Hf; by apply Hh, Hclean].
    + by rewrite fmap_app, <- app_assoc, A1, (nft_sweep_entries _ _ _ _ N).
    + apply Forall_forall. intros e He. assert (Hp : e ∈ pending_nft es).
      { rewrite <- (nft_sweep_entries _ _ _ _ N). apply elem_of_app. by right. }
      apply elem_of_filterb in Hp as [_ Hp]. by apply andb_true_iff in Hp as [_ Hp].
  - by rewrite rev_Permutation, app_assoc, <- failures_app.
  - rewrite F, app_assoc, <- failures_app. split.
    + intros En. apply (f_equal (@rev Entry)) in En. rewrite rev_involutive in En.
      by apply app_eq_nil in En as [-> _].
    + intros En. assert (Ef : failures (att1 ++ att2) = [])
        by (destruct (failures (att1 ++ att2)); [done|simpl in En; lia]).
      by rewrite Ef, (Hclean Ef).
Qed.

(** ** What the next start finds *)

(** [es'] is what a sweep over [es] that produced [evs] should leave: in
    sequence order and ready to be retried, the entries whose inverse was run
    and did not undo them and those held back; these and no others. *)
Definition settled (es : list Entry) (evs : list Event) (es' : list Entry) : Prop :=
  StronglySorted seq_lt es' ∧
  ∃ att held, sweep es evs att held ∧ es' ≡ₚ pending_begin <$> (failures att ++ held).

(** So every pending entry was undone or is still there. *)
Lemma settled_accounts es evs es' e :
  settled es evs es' → e ∈ es → NeedsUndo e = true →
  (∃ r, (eUndo e, r) ∈ runs_of evs ∧ undone (e, r) = true) ∨ pending_begin e ∈ es'.
Proof.
  intros (_ & att & held & (C & A & _) & ->) He Hu.
  assert (Hp : e ∈ att.*1 ++ held).
  { rewrite A. unfold pending_other, pending_nft. rewrite elem_of_app, !elem_of_filterb, elem_of_rev, Hu.
    simpl. destruct (is_nft e); auto. }
  rewrite C. apply elem_of_app in Hp as [Hp|Hp].
  - apply list_elem_of_fmap in Hp as ([e' r] & -> & Hin). simpl in *. destruct (undone (e', r)) eqn:Eu.
    + left. exists r. split; [|done]. apply list_elem_of_fmap. by exists (e', r).
    + right. apply list_elem_of_fmap_2, elem_of_app. left. apply elem_of_failures. eauto.
  - right. apply list_elem_of_fmap_2, elem_of_app. by right.
Qed.

Lemma next_fault_fields d flt d' :
  next_fault d = (flt, d') → file d' = file d ∧ readFails d' = readFails d.
Proof. unfold next_fault. destruct (faults d); by intros [= <- <-]. Qed.

Lemma load_journal_props d es :
  LoadJournal d = Ok es →
  StronglySorted seq_lt es ∧ NoDup (eSeq <$> es) ∧ Forall (λ e, keep e = true) es ∧
  (es ≠ [] → readFails d = false).
Proof.
  unfold LoadJournal, load_file. intros E. destruct (file d) as [f|]; [destruct (readFails d); [done|]|];
    simplify_eq.
  - pose proof (bySeq_key_ok (scan f)) as Hk. split_and!; [by apply entries_sorted|by apply entries_NoDup| |done].
    apply Forall_forall. intros e He. by apply elem_of_entries in He as [_ ?].
  - repeat constructor. done.
Qed.

Lemma rewrite_load remaining d d' :
  RewriteJournal remaining d = (None, d') → (remaining ≠ [] → readFails d = false) →
  NoDup (eSeq <$> remaining) → Forall (λ e, keep e = true) remaining →
  LoadJournal d' = Ok (pending_begin <$> merge_sort seq_le remaining) ∧
  (remaining = [] → file d' = None).
Proof.
  unfold RewriteJournal. intros E Hrf Hd Hk.
  destruct (next_fault d) as [flt d1] eqn:En. apply next_fault_fields in En as [_ Hr].
  destruct flt; simplify_eq. destruct remaining as [|e es]; [done|].
  split; [|done]. unfold LoadJournal, load_file. cbn [file readFails].
  rewrite Hr, Hrf by done. unfold scan. cbn [jlines jtail]. rewrite app_nil_r.
  by rewrite load_rewrite.
Qed.

(** The part [Recover] and [Teardown] share: a sweep, then the rewrite. *)
Lemma sweep_settles jd (w w1 : World K) rep remaining d d' es :
  LoadJournal (disk w) = Ok es → replay jd es w = (rep, remaining, w1) →
  readFails d = readFails (disk w) → RewriteJournal remaining d = (None, d') →
  ∃ evs es', trace w1 = trace w ++ evs ∧ LoadJournal d' = Ok es' ∧ settled es evs es' ∧
    (repFailed rep = 0 → file d' = None).
Proof.
  intros Hl E Hrf Hw. apply load_journal_props in Hl as (_ & Hd & Hk & Hr).
  apply replay_accounts in E as (evs & att & held & T & Hsw & Hrem & Hsub & Hz).
  assert (Hin : ∀ e, e ∈ remaining → e ∈ es ∧ NeedsUndo e = true).
  { intros e He. apply (elem_of_submseteq' _ _ _ Hsub) in He. by apply elem_of_filterb. }
  assert (Hsub' : remaining ⊆+ es)
    by (etransitivity; [exact Hsub|apply sublist_submseteq, filterb_sublist]).
  assert (Hkr : Forall (λ e, keep e = true) remaining).
  { rewrite Forall_forall in *. intros e He. by apply Hk, Hin. }
  apply rewrite_load in Hw as [Hload Hfile]; [| |by eapply NoDup_fmap_submseteq|done].
  2:{ intros Hne. rewrite Hrf. apply Hr. intros ->. destruct remaining as [|e l]; [done|].
      destruct (Hin e (list_elem_of_here _ _)) as [Hbad _]. by apply not_elem_of_nil in Hbad. }
  exists evs, (pending_begin <$> merge_sort seq_le remaining). split_and!; [done..| |tauto].
  split; [by apply load_journal_props in Hload as [? _]|].
  exists att, held. split; [done|]. by rewrite (merge_sort_Permutation seq_le), Hrem.
Qed.

(** A property of the world every inverse preserves survives the sweep. *)
Lemma replay_invariant (P : World K → Prop) jd es w rep remaining w' :
  (∀ e x, P x.2 → P (undoOne jd e x).2) →
  replay jd es w = (rep, remaining, w') → P w → P w'.
Proof.
  intros Hu E Hw. unfold replay in E.
  assert (H1 : ∀ l x, P x.2 → P (pass_one jd l x).2).
  { induction l as [|a l IH]; intros x Hx; simpl; [done|]. destruct (_ || _); auto. }
  assert (H2 : ∀ l x, P x.2 → P (pass_two jd l x).2).
  { induction l as [|a l IH]; intros [[rp rm] wx] Hx; cbn [pass_two]; [done|].
    destruct (_ || _); [by apply IH|]. destruct (0 <? _); [by apply IH|]. by apply IH, Hu. }
  specialize (H2 (rev es) _ (H1 (rev es) (empty_report, [], w) Hw)).
  destruct (pass_two _ _ _) as [[? ?] ?]. by simplify_eq.
Qed.

Lemma undoOne_disk_invariant (P : Disk → Prop) jd e x :
  (jd = true → ∀ j r d, P d → P (write j r d).2) →
  P (disk x.2) → P (disk (undoOne jd e x).2).
Proof.
  intros Hw. destruct x as [[rep rem] w]. unfold undoOne, run_cmd.
  destruct (Run (eUndo e) (kern w)) as [[r err] k]. cbn [snd]. intros Hp.
  assert (Hm : ∀ w0 : World K, P (disk w0) → P (disk (mark_undone jd e w0))).
  { intros w0 H0. unfold mark_undone, jwrite. destruct jd; [|done].
    specialize (Hw eq_refl (jrn w0) (mark_record (eSeq e) PhaseUndone None) (disk w0) H0).
    by destruct (write _ _ _) as [[? ?] ?]. }
  destruct err; [destruct (_ && _)|]; simpl; auto.
Qed.

Lemma recover_settled (w w' : World K) rep es :
  LoadJournal (disk w) = Ok es → Recover w = (rep, None, w') →
  ∃ evs es', trace w' = trace w ++ evs ∧ LoadJournal (disk w') = Ok es' ∧ settled es evs es' ∧
    (es ≠ [] → repFailed rep = 0 → file (disk w') = None).
Proof.
  intros Hl. unfold Recover. rewrite Hl. destruct es as [|e es]; [intros [= <- <-]|].
  { exists [], []. split_and!; [by rewrite app_nil_r|done| |done].
    split; [constructor|]. exists [], []. split; [|done]. by split_and!. }
  destruct (replay false (e :: es) w) as [[rep1 remaining] w1] eqn:Er.
  destruct (RewriteJournal remaining (disk w1)) as [rerr d] eqn:Ew. intros [= -> -> <-]. simpl.
  assert (Hdisk : disk w1 = disk w).
  { eapply (replay_invariant (λ x, disk x = disk w)); [|exact Er|done].
    intros a x Hx. by apply (undoOne_disk_invariant (λ d, d = disk w)). }
  destruct (sweep_settles _ _ _ _ _ _ _ _ Hl Er (f_equal readFails Hdisk) Ew)
    as (evs & es' & ? & ? & ? & ?). exists evs, es'. auto.
Qed.

(** C40. [Recover] converges: if it reads a journal and reports no journal
    error, the machine was given the inverses of the pending entries, the
    firewall last, and the journal the next start reads holds exactly the
    entries whose inverse was run and neither succeeded nor found its object
    gone, and the firewall's that were held back because one failed, in sequence
    order and ready to be retried: an entry that was undone is not among them.
    After a sweep in which nothing failed the file is gone. *)
Theorem recover_settles (w w' : World K) rep es :
  LoadJournal (disk w) = Ok es → Recover w = (rep, None, w') →
  ∃ evs es', trace w' = trace w ++ evs ∧ LoadJournal (disk w') = Ok es' ∧ settled es evs es' ∧
    (es ≠ [] → repFailed rep = 0 → file (disk w') = None).
Proof. apply recover_settled. Qed.

Lemma teardown_failed_nonneg (w w' : World K) rep err : Teardown w = (rep, err, w') → 0 ≤ repFailed rep.
Proof.
  unfold Teardown. destruct (LoadJournal (disk w)) as [es|e]; [|by intros [= <- _ _]].
  destruct (replay true es w) as [[rep1 remaining] w1] eqn:Er.
  apply replay_spec in Er as (att1 & att2 & held & evs & Hr).
  destruct (CloseJournal _ _) as [[[ce|] j] d]; [|destruct (RewriteJournal _ _)]; intros [= <- _ _]; decompose [and] Hr; lia.
Qed.

Lemma teardown_settled (w w' : World K) rep es :
  LoadJournal (disk w) = Ok es → Teardown w = (rep, None, w') →
  ∃ evs es', trace w' = trace w ++ evs ∧ LoadJournal (disk w') = Ok es' ∧ settled es evs es' ∧
    (repFailed rep = 0 → file (disk w') = None) ∧ jopen (jrn w') = false.
Proof.
  intros Hl. unfold Teardown. rewrite Hl.
  destruct (replay true es w) as [[rep1 remaining] w1] eqn:Er.
  destruct (CloseJournal (jrn w1) (disk w1)) as [[cerr j] d] eqn:Ec.
  destruct cerr; [done|]. destruct (RewriteJournal remaining _) as [rerr d2] eqn:Ew.
  intros [= -> -> <-]. simpl in *.
  assert (Hrf : readFails d = readFails (disk w) ∧ jopen j = false).
  { unfold CloseJournal in Ec. assert (Hr1 : readFails (disk w1) = readFails (disk w)).
    { eapply (replay_invariant (λ x, readFails (disk x) = readFails (disk w))); [|exact Er|done].
      intros a x Hx. apply (undoOne_disk_invariant (λ d, readFails d = readFails (disk w))); [|done].
      intros _ j0 r d0 H0. unfold write. destruct (jopen j0); simpl; [|done].
      destruct (next_fault d0) as [flt d1] eqn:En. apply next_fault_fields in En as [_ En].
      simpl. by rewrite En. }
    destruct (jopen (jrn w1)) eqn:Eo; simpl in Ec.
    - destruct (next_fault (disk w1)) as [flt d1] eqn:En. apply next_fault_fields in En as [_ En].
      simplify_eq/=. by rewrite En.
    - by simplify_eq. }
  destruct Hrf as [Hrf Hj].
  destruct (sweep_settles _ _ _ _ _ _ _ _ Hl Er Hrf Ew) as (evs & es' & ? & ? & ? & ?).
  exists evs, es'. split_and!; auto.
Qed.

(** [Teardown] keeps the same promise on the open journal it closes and
    replaces, the marks it wrote on the way notwithstanding. *)
Theorem teardown_settles (w w' : World K) rep es :
  LoadJournal (disk w) = Ok es → Teardown w = (rep, None, w') →
  ∃ evs es', trace w' = trace w ++ evs ∧ LoadJournal (disk w') = Ok es' ∧ settled es evs es' ∧
    (repFailed rep = 0 → file (disk w') = None) ∧ jopen (jrn w') = false.
Proof. apply teardown_settled. Qed.

(** C16. No change is lost to a crash: start from a journal whose last write is
    whole, kill an [Apply] at any point, and let the next start, which can read
    the file, [Recover] without a journal error. Then for every command that had
    reached the machine the step has no inverse, or the command reported that it
    changed nothing (a removal found nothing, an addition was already there), or
    its inverse was run by the recovery and succeeded or found nothing left to
    remove, or it is still in the journal, to be run. *)
Theorem crash_recover_loses_nothing (steps : list Step) (w w' w2 w3 : World K) rep err rep2 evs done rest f :
  jtail (dfile w) = None → Apply steps w = (rep, err, w') → trace w' = trace w ++ evs →
  evs = done ++ rest → crashed (dfile w) done rest f →
  file (disk w2) = Some f → readFails (disk w2) = false → Recover w2 = (rep2, None, w3) →
  ∃ evs2 es3, trace w3 = trace w2 ++ evs2 ∧ LoadJournal (disk w3) = Ok es3 ∧
  ∀ c r, EvRun c r ∈ done → ∃ s, s ∈ steps ∧ Do s = c ∧
    (IsZero (Undo s) = true ∨ nothing_changed s r = true ∨
     (∃ r' err', (Undo s, (r', err')) ∈ runs_of evs2 ∧
        (err' = None ∨ commandRemoves (Undo s) = true ∧ IsNotFound r' err' = true)) ∨
     (∃ e, e ∈ es3 ∧ eUndo e = Undo s ∧ NeedsUndo e = true)).
Proof.
  intros Ht E T -> Hc Hf Hrf Hrec.
  assert (Hl : LoadJournal (disk w2) = Ok (load_file (Some f)))
    by (unfold LoadJournal; by rewrite Hf, Hrf).
  destruct (recover_settled w2 w3 rep2 _ Hl Hrec) as (evs2 & es3 & T3 & L3 & Hset & _).
  exists evs2, es3. split_and!; [done..|]. intros c r Hin.
  apply Apply_events in E as (evs & T' & Hr). rewrite T in T'. apply app_inv_head in T' as <-.
  destruct Hr as [[-> _]%app_eq_nil|Hr]; [by apply not_elem_of_nil in Hin|].
  destruct (run_crash_entries _ _ _ _ _ _ Ht Hr Hc) as [_ Hent].
  destruct (Hent c r Hin) as (s & e & Hs & Hdo & He & _ & _ & Hu & Hn).
  exists s. split_and!; [done..|]. destruct Hn as [Hn|[_ Hn]]; [|by auto].
  destruct (IsZero (Undo s)) eqn:Ez; [by left|]. right; right. simpl in Hn. rewrite <- Hu.
  destruct (settled_accounts _ _ _ e Hset He Hn) as [([r' err'] & Hr' & Hok)|Hp]; [left|right].
  - exists r', err'. split; [done|]. unfold undone in Hok. cbn [fst snd] in Hok.
    destruct err'; [right|by left]. by apply andb_true_iff.
  - exists (pending_begin e). split_and!; [done..|]. unfold NeedsUndo. simpl. by rewrite Hu, Ez.
Qed.

End Replay.

(** ** Witnesses *)

(** The rule's inverse is refused, so the ruleset is held. *)
Lemma replay_fail_closed_witness :
  let es := load_file (Some Demo.applied) in
  let out := replay false es (Demo.world Demo.stuck Demo.applied) in
  runs_of (trace out.2) = [(Undo Demo.rule, (MkResult "" "exit status 2" 2, Some "exit status 2"%string))] ∧
  ∀ e, e ∈ pending_nft es → e ∈ out.1.2.
Proof.
  intros es out.
  destruct (replay_fail_closed false es (Demo.world Demo.stuck Demo.applied) out.1.1 out.1.2 out.2)
    as (att1 & att2 & evs & T & C & A1 & A2 & H); [unfold out; by destruct (replay _ _ _) as [[? ?] ?]|].
  assert (Hr : runs_of (trace out.2) =
    [(Undo Demo.rule, (MkResult "" "exit status 2" 2, Some "exit status 2"%string))])
    by (vm_compute; reflexivity).
  split; [exact Hr|]. simpl in T. rewrite T, C in Hr.
  destruct att1 as [|[e1 r1] att1].
  { exfalso. revert A1. vm_compute. discriminate. }
  simpl in Hr. injection Hr as Hu Hr1 Hnil.
  apply H. constructor. unfold undone. simpl. rewrite Hr1, Hu. vm_compute. reflexivity.
Defined.

Lemma recover_settles_witness :
  let w := Demo.world Demo.machine Demo.applied in
  repFailed (Recover w).1.1 = 0 ∧ file (disk (Recover w).2) = None.
Proof.
  intros w. assert (Hz : repFailed (Recover w).1.1 = 0) by (vm_compute; reflexivity).
  split; [exact Hz|].
  destruct (recover_settles w (Recover w).2 (Recover w).1.1 (load_file (Some Demo.applied)))
    as (evs & es' & _ & _ & _ & H); [reflexivity| |].
  - assert (Hn : (Recover w).1.2 = None) by (vm_compute; reflexivity). rewrite <- Hn.
    by destruct (Recover w) as [[? ?] ?].
  - apply H; [|exact Hz]. vm_compute. discriminate.
Defined.

Lemma teardown_settles_witness :
  let w := Demo.world Demo.stuck Demo.applied in
  repFailed (Teardown w).1.1 = 1 ∧
  ∃ es', LoadJournal (disk (Teardown w).2) = Ok es' ∧ StronglySorted seq_lt es'.
Proof.
  intros w. split; [vm_compute; reflexivity|].
  destruct (teardown_settles w (Teardown w).2 (Teardown w).1.1 (load_file (Some Demo.applied)))
    as (evs & es' & _ & Hl & (Hs & _) & _); [reflexivity| |by exists es'].
  assert (Hn : (Teardown w).1.2 = None) by (vm_compute; reflexivity). rewrite <- Hn.
  by destruct (Teardown w) as [[? ?] ?].
Defined.

(** Killed in the middle of the second step's Begin: only the first inverse is
    known, and it is run. *)
Lemma crash_recover_loses_nothing_witness :
  let w := Demo.world Demo.machine empty_file in
  let evs := trace (Apply Demo.steps w).2 in
  let f := append_torn (foldl file_event empty_file (take 3 evs)) false (begin_record 2 Demo.rule) in
  let w2 := Demo.world Demo.machine f in
  ∃ s, s ∈ Demo.steps ∧ Do s = Do Demo.fw ∧
    (∃ r' err', (Undo s, (r', err')) ∈ runs_of (trace (Recover w2).2) ∧
       (err' = None ∨ commandRemoves (Undo s) = true ∧ IsNotFound r' err' = true)).
Proof.
  intros w evs f w2.
  destruct (crash_recover_loses_nothing Demo.steps w (Apply Demo.steps w).2 w2 (Recover w2).2
              (Apply Demo.steps w).1.1 (Apply Demo.steps w).1.2 (Recover w2).1.1
              evs (take 3 evs) (drop 3 evs) f) as (evs2 & es3 & T & L & H).
  - reflexivity.
  - by destruct (Apply Demo.steps w) as [[? ?] ?].
  - reflexivity.
  - by rewrite take_drop.
  - unfold f. eapply (crashed_writing _ _ _ _ FOk (drop 4 evs)). vm_compute. reflexivity.
  - reflexivity.
  - reflexivity.
  - assert (Hn : (Recover w2).1.2 = None) by (vm_compute; reflexivity). rewrite <- Hn.
    by destruct (Recover w2) as [[? ?] ?].
  - destruct (H (Do Demo.fw) (MkResult "" "" 0, None)) as (s & Hs & Hdo & Hcase).
    { apply list_elem_of_lookup. exists 1%nat. vm_compute. reflexivity. }
    exists s. split; [exact Hs|]. split; [exact Hdo|].
    assert (s = Demo.fw) as ->.
    { apply elem_of_cons in Hs as [->|Hs]; [done|]. apply list_elem_of_singleton in Hs as ->.
      discriminate Hdo. }
    change (trace w2) with (@nil Event) in T. cbn [app] in T. rewrite T. destruct Hcase as [Hz|[Hz|[Hr|(e & He & _)]]].
    + discriminate Hz.
    + discriminate Hz.
    + exact Hr.
    + exfalso.
      assert (Hl : LoadJournal (disk (Recover w2).2) = Ok []) by (vm_compute; reflexivity).
      assert (es3 = []) as -> by congruence. by apply not_elem_of_nil in He.
Defined.
