(* ===== verification/ApplyConverge.v ===== *)
(** * Applying a plan twice converges (idempotence.go)

    A second [Apply] of steps that the first one carried out finds every one of
    them in force: it touches neither the machine nor the journal. *)

From S2P Require Import Prelude GoStrings Command Journal Apply ApplyCrash ApplyReplay.

Local Open Scope Z_scope.

Definition nonzero (steps : list Step) : list Step :=
  List.filter (λ s, negb (IsZero (Do s))) steps.

Definition done_entry (k : Z) (s : Step) : Entry :=
  MkEntry k (Op s) (Why s) (Do s) (Undo s) PhaseDone.

(** The trace of a run in which every step was carried out. *)
Inductive done_events : list Step → Z → list Event → Prop :=
| de_nil seq : done_events [] seq []
| de_zero s steps seq evs :
    IsZero (Do s) = true → done_events steps seq evs → done_events (s :: steps) seq evs
| de_step s steps seq q r evs :
    IsZero (Do s) = false → asked q → done_events steps (seq + 1) evs →
    done_events (s :: steps) seq
      (q ++ [EvAppend (begin_record (seq + 1) s) FOk; EvRun (Do s) r;
             EvAppend (mark_record (seq + 1) PhaseDone None) FOk] ++ evs).

Lemma done_events_ok steps seq evs : done_events steps seq evs → Forall ok_event evs.
Proof.
  induction 1 as [| |s steps seq q r evs Hz Ha Hd IH]; [constructor|done|].
  rewrite !Forall_app. split_and!; [destruct Ha; repeat constructor| |done].
  repeat constructor.
Qed.

Lemma begin_done_entry m seq s :
  key_ok m →
  load_record (load_record m (begin_record seq s)) (mark_record seq PhaseDone None) !! seq =
  Some (done_entry seq s).
Proof.
  intros Hk. destruct (begin_lookup m seq s) as [k Eb].
  pose proof (load_record_key_ok m (begin_record seq s) Hk _ _ Eb) as Hkey. simpl in Hkey. subst k.
  pose proof (load_record_lookup (load_record m (begin_record seq s)) (mark_record seq PhaseDone None)) as E.
  change (rSeq (mark_record seq PhaseDone None)) with seq in E. by rewrite Eb in E.
Qed.

(** The reconstruction after such a run: the entries above [seq] are the steps
    in order, done; the others are as before. *)
Lemma done_events_lookup steps seq evs m :
  done_events steps seq evs → key_ok m →
  key_ok (foldl map_event m evs) ∧
  (∀ k, k ≤ seq ∨ seq + Z.of_nat (length (nonzero steps)) < k →
     foldl map_event m evs !! k = m !! k) ∧
  (∀ i s, nonzero steps !! i = Some s →
     foldl map_event m evs !! (seq + 1 + Z.of_nat i) = Some (done_entry (seq + 1 + Z.of_nat i) s)).
Proof.
  intros Hd. revert m. induction Hd as [seq|s steps seq evs Hz Hd IH|s steps seq q r evs Hz Ha Hd IH];
    intros m Hk; cbn [nonzero List.filter].
  - split_and!; [done..|]. intros i s. by rewrite lookup_nil.
  - rewrite Hz. by apply IH.
  - rewrite Hz. cbn [negb length]. fold (nonzero steps). rewrite !foldl_app.
    assert (Hp : foldl map_event m q = m) by (by destruct Ha). rewrite Hp. simpl foldl at 2 4 6.
    set (m1 := load_record (load_record m _) _).
    assert (Hk1 : key_ok m1) by (by do 2 apply load_record_key_ok).
    destruct (IH m1 Hk1) as (Hk2 & Hout & Hin). split_and!; [done| |].
    + intros k Hkk. rewrite Hout by lia. unfold m1.
      rewrite !load_record_lookup_ne; simpl; done || lia.
    + intros [|i] s' Hs'; simpl in Hs'.
      * simplify_eq. rewrite Hout by lia. rewrite Z.add_0_r. by apply begin_done_entry.
      * replace (seq + 1 + Z.of_nat (S i)) with (seq + 1 + 1 + Z.of_nat i) by lia. by apply Hin.
Qed.

(** ** From the program *)

Section Converge.
Context {K : Type} `{Runner K}.

Lemma add_skipped_ge rep x : repSkipped rep ≤ repSkipped (add rep x).
Proof. unfold add. simpl. destruct (srSkipped x); lia. Qed.

(** A step that ends without an error and is not reported as skipped is empty
    or was carried out. *)
Lemma apply_step_done st s rep (w w' : World K) rep' :
  apply_step st s rep w = (rep', None, w') →
  repSkipped rep ≤ repSkipped rep' ∧
  (repSkipped rep' = repSkipped rep →
   (IsZero (Do s) = true ∧ w' = w) ∨
   IsZero (Do s) = false ∧ jseq (jrn w') = jseq (jrn w) + 1 ∧
   ∃ q r, asked q ∧ extends w
     (q ++ [EvAppend (begin_record (jseq (jrn w) + 1) s) FOk; EvRun (Do s) r;
            EvAppend (mark_record (jseq (jrn w) + 1) PhaseDone None) FOk]) w').
Proof.
  unfold apply_step. destruct (IsZero (Do s)) eqn:Hz; [intros [= <- <-]; by auto with lia|].
  destruct (in_force st s); [intros [= <- <-]; split; [apply add_skipped_ge|simpl; lia]|].
  destruct (pre_satisfied s w) as [sat w1] eqn:Ep.
  apply pre_satisfied_extends in Ep as (q & Hq & Hx & Hj).
  destruct sat; [intros [= <- <-]; split; [apply add_skipped_ge|simpl; lia]|].
  unfold run_step. destruct (jbegin s w1) as [[seq berr] w2] eqn:Eb.
  apply jbegin_extends in Eb as (-> & flt & Hx2 & Hj2 & Hb). destruct berr; [done|].
  assert (flt = FOk) as -> by (by apply Hb).
  destruct (run_cmd (Do s) w2) as [[r runErr] w3] eqn:Er. apply run_cmd_extends in Er as [Hx3 Hj3].
  destruct runErr as [msg|].
  - destruct (_ && _), (IsAlreadyExists r (Some msg)); destruct (jwrite _ w3) as [[e|] w4]; intros [= <- <-];
      (split; [apply add_skipped_ge|simpl; lia]).
  - destruct (jwrite _ w3) as [[e|] w4] eqn:Ew; [done|]. intros [= <- <-]. split; [apply add_skipped_ge|].
    intros _. right. apply jwrite_extends in Ew as (flt & Hx4 & Hj4 & Hf).
    assert (flt = FOk) as -> by (by apply Hf). rewrite Hj4, Hj3, Hj2, <- Hj. split_and!; [done..|].
    exists q, (r, None). split; [done|].
    pose proof (extends_trans _ _ _ _ _ (extends_trans _ _ _ _ _ (extends_trans _ _ _ _ _ Hx Hx2) Hx3) Hx4)
      as Hxx. by rewrite <- !app_assoc in Hxx.
Qed.

Lemma apply_loop_done st steps rep (w w' : World K) rep' :
  apply_loop st steps rep w = (rep', None, w') →
  repSkipped rep ≤ repSkipped rep' ∧
  (repSkipped rep' = repSkipped rep →
   ∃ evs, extends w evs w' ∧ done_events steps (jseq (jrn w)) evs).
Proof.
  revert rep w. induction steps as [|s steps IH]; simpl; intros rep w E.
  - simplify_eq. split; [lia|]. intros _. exists []. split; [apply extends_refl|constructor].
  - destruct (apply_step st s rep w) as [[rep1 [e|]] w1] eqn:Es; [done|].
    apply apply_step_done in Es as [Hle1 Hs]. apply IH in E as [Hle2 Hr]. split; [lia|]. intros Heq.
    destruct (Hr ltac:(lia)) as (evs & Hx & Hd).
    destruct (Hs ltac:(lia)) as [[Hz ->]|(Hz & Hj & q & r & Hq & Hx1)].
    + exists evs. split; [done|]. by constructor.
    + rewrite Hj in Hd. eexists. split; [exact (extends_trans _ _ _ _ _ Hx1 Hx)|].
      rewrite <- app_assoc. by constructor.
Qed.

(** ** The state the journal describes *)

Lemma state_entry_other out e k :
  CommandLine (eDo e) ≠ k → state_entry out e !! k = out !! k.
Proof.
  intros Hne. unfold state_entry. destruct (IsZero (eDo e)); [done|].
  destruct (ePhase e); try done; [by rewrite lookup_insert_ne|by rewrite lookup_delete_ne].
Qed.

Lemma currentState_last l1 e l2 :
  IsZero (eDo e) = false → ePhase e = PhaseDone →
  (∀ e2, e2 ∈ l2 → CommandLine (eDo e2) ≠ CommandLine (eDo e)) →
  currentState (l1 ++ e :: l2) !! CommandLine (eDo e) = Some (RunnerKey (eDo e)).
Proof.
  intros Hz Hp. unfold currentState. rewrite foldl_app. cbn [foldl].
  set (out := foldl state_entry ∅ l1). clearbody out.
  assert (H0 : state_entry out e !! CommandLine (eDo e) = Some (RunnerKey (eDo e)))
    by (unfold state_entry; rewrite Hz, Hp; apply lookup_insert_eq).
  revert H0. generalize (state_entry out e) as m. clear out.
  induction l2 as [|e2 l2 IH]; intros m Hm Hall; [done|]. cbn [foldl].
  apply IH; [|intros e3 He3; by apply Hall, list_elem_of_further].
  rewrite state_entry_other; [done|]. by apply Hall, list_elem_of_here.
Qed.

Definition in_force_reason : string :=
  "this exact change is the one already in force, recorded in the journal".

Lemma apply_loop_in_force st steps rep (w : World K) :
  (∀ s, s ∈ nonzero steps → in_force st s = true) →
  apply_loop st steps rep w =
  (foldl (λ rep s, add rep (skipped s "" in_force_reason)) rep (nonzero steps), None, w).
Proof.
  revert rep. induction steps as [|s steps IH]; intros rep Hall; [done|].
  cbn [apply_loop nonzero List.filter]. unfold apply_step. destruct (IsZero (Do s)) eqn:Hz; simpl.
  - apply IH. intros s' Hs'. apply Hall. unfold nonzero. cbn [List.filter]. by rewrite Hz.
  - rewrite (Hall s); [|unfold nonzero; cbn [List.filter]; rewrite Hz; apply list_elem_of_here].
    apply IH. intros s' Hs'. apply Hall. unfold nonzero. cbn [List.filter]. rewrite Hz.
    by apply list_elem_of_further.
Qed.

Lemma skip_report (l : list Step) r :
  let r' := foldl (λ rep s, add rep (skipped s "" in_force_reason)) r l in
  repSkipped r' = repSkipped r + Z.of_nat (length l) ∧ repFailed r' = repFailed r.
Proof.
  revert r. induction l as [|s l IH]; intros r; simpl; [lia|].
  destruct (IH (add r (skipped s "" in_force_reason))) as [-> ->]. simpl. lia.
Qed.

(** After such a run the journal says every step is in force. *)
Lemma done_in_force steps seq m0 evs m s :
  done_events steps seq evs → key_ok m0 → m = foldl map_event m0 evs →
  (∀ e, e ∈ entries_of m0 → eSeq e ≤ seq) →
  NoDup (CommandLine ∘ Do <$> nonzero steps) → s ∈ nonzero steps →
  in_force (currentState (entries_of m)) s = true.
Proof.
  intros Hd Hk -> Hb Hnd [i Hi]%list_elem_of_lookup.
  destruct (done_events_lookup _ _ _ _ Hd Hk) as (Hk1 & Hout & Hin).
  set (m := foldl map_event m0 evs) in *.
  pose proof (Hin i s Hi) as He. set (k := seq + 1 + Z.of_nat i) in *.
  assert (Hz : IsZero (Do s) = false).
  { assert (s ∈ nonzero steps) as [_ Hs']%elem_of_filterb by (apply list_elem_of_lookup; eauto).
    by breflect. }
  assert (Hent : done_entry k s ∈ entries_of m).
  { apply elem_of_entries; [done|]. split; [done|]. unfold keep. simpl. by rewrite Hz. }
  apply list_elem_of_split in Hent as (l1 & l2 & El).
  pose proof (entries_sorted _ Hk1) as Hsort. rewrite El in Hsort |- *.
  unfold in_force. pose proof (currentState_last l1 (done_entry k s) l2 Hz eq_refl) as Hlast.
  change (eDo (done_entry k s)) with (Do s) in Hlast.
  rewrite Hlast; [by apply String.eqb_refl|]. intros e2 He2.
  assert (Hlt : k < eSeq e2).
  { apply StronglySorted_app_1_r in Hsort. inversion Hsort as [|? ? _ Hall]; subst.
    rewrite Forall_forall in Hall. exact (Hall e2 He2). }
  assert (He2' : e2 ∈ entries_of m) by (rewrite El; set_solver).
  apply elem_of_entries in He2' as [Hl2 Hkeep2]; [|done].
  destruct (decide (eSeq e2 ≤ seq + Z.of_nat (length (nonzero steps)))) as [Hle|Hgt].
  - set (j := Z.to_nat (eSeq e2 - seq - 1)).
    destruct (nonzero steps !! j) as [s2|] eqn:Ej; [|apply lookup_ge_None in Ej; lia].
    pose proof (Hin j s2 Ej) as Hj. replace (seq + 1 + Z.of_nat j) with (eSeq e2) in Hj by lia.
    rewrite Hl2 in Hj. injection Hj as ->. simpl. intros Heq.
    assert (i = j); [|lia]. eapply NoDup_lookup; [exact Hnd| |];
      rewrite list_lookup_fmap, ?Hi, ?Ej; simpl; [reflexivity|by rewrite Heq].
  - rewrite Hout in Hl2 by lia. exfalso.
    assert (e2 ∈ entries_of m0) as Hold%Hb by (apply elem_of_entries; done). lia.
Qed.

(** Applying the same steps again converges: once an [Apply] has carried
    out every step, and their command lines are distinct, a second one skips
    every step as in force and leaves the machine, the disk and the journal
    exactly as they are. *)
Theorem apply_twice_converges (steps : list Step) (w w1 : World K) rep :
  jtail (dfile w) = None →
  (∀ e, e ∈ load_file (Some (dfile w)) → eSeq e ≤ jseq (jrn w)) →
  NoDup (CommandLine ∘ Do <$> nonzero steps) →
  Apply steps w = (rep, None, w1) → repSkipped rep = 0 → readFails (disk w1) = false →
  is_Some (file (disk w1)) →
  ∃ rep2, Apply steps w1 = (rep2, None, w1) ∧
          repSkipped rep2 = Z.of_nat (length (nonzero steps)) ∧ repFailed rep2 = 0.
Proof.
  intros Ht Hb Hnd E Hs Hrf [f1 Hf1].
  unfold Apply in E. destruct (LoadJournal (disk w)) as [es|]; [|done].
  apply apply_loop_done in E as [_ E]. destruct (E Hs) as (evs & [_ Hfile] & Hd).
  destruct (foldl_ok_events _ _ Ht (done_events_ok _ _ _ Hd)) as [Hm _].
  rewrite <- Hfile in Hm. unfold dfile in Hm at 1. rewrite Hf1 in Hm. simpl in Hm.
  unfold Apply, LoadJournal. rewrite Hf1, Hrf. cbn [load_file]. fold (fmap_of f1).
  rewrite apply_loop_in_force.
  - eexists. split; [reflexivity|]. destruct (skip_report (nonzero steps) empty_report) as [-> ->].
    simpl. lia.
  - intros s. by apply (done_in_force steps _ _ _ _ _ Hd (bySeq_key_ok (scan (dfile w))) Hm Hb).
Qed.

End Converge.

Lemma apply_twice_converges_witness :
  let w := Demo.world Demo.machine empty_file in
  let w1 := (Apply Demo.steps w).2 in
  ∃ rep2, Apply Demo.steps w1 = (rep2, None, w1) ∧ repSkipped rep2 = 2.
Proof.
  intros w w1.
  destruct (apply_twice_converges Demo.steps w w1 (Apply Demo.steps w).1.1) as (rep2 & E & Hs & _).
  - reflexivity.
  - intros e He. exfalso. revert He. vm_compute. by intros He%not_elem_of_nil.
  - apply (bool_decide_unpack _). vm_compute. exact I.
  - unfold w1. assert (Hn : (Apply Demo.steps w).1.2 = None) by (vm_compute; reflexivity).
    rewrite <- Hn. by destruct (Apply Demo.steps w) as [[? ?] ?].
  - vm_compute. reflexivity.
  - vm_compute. reflexivity.
  - vm_compute. eauto.
  - exists rep2. split; [exact E|exact Hs].
Defined.

(** * Two limits of the journal's guarantees

    Where the guarantees of [ApplyCrash] and [ApplyReplay] stop: a journal file
    with a torn tail, and a firewall whose journal op is not nftables'. *)

Section Limits.
Context {K : Type} `{Runner K}.

(** The file a process leaves when it is killed inside its very first write. *)
Definition torn_file : JFile := MkJFile [] (Some None).

(** A torn first record defeats the write-ahead rule of the run after it.
    [Recover] finds no entries and leaves the file alone, [NewApplier] opens it
    for appending, and [Apply]'s first Begin, reported as written and flushed,
    lands on the torn line: the command then runs with no entry on disk. *)
Theorem torn_tail_loses_inverse (s : Step) (k : K) (path : string) w0 :
  path ≠ ""%string → IsZero (Do s) = false → Pre s = None →
  disk w0 = MkDisk (Some torn_file) [] false →
  Recover w0 = (empty_report, None, w0) ∧
  ∃ w1 r evs, NewApplier path k (disk w0) = Ok w1 ∧
    trace (Apply [s] w1).2 = [EvAppend (begin_record 1 s) FOk; EvRun (Do s) r] ++ evs ∧
    load_file (Some (foldl file_event torn_file [EvAppend (begin_record 1 s) FOk; EvRun (Do s) r])) = [].
Proof.
  intros Hp Hz Hpre Hd. split.
  { unfold Recover, LoadJournal. rewrite Hd. done. }
  unfold NewApplier, OpenJournal, LoadJournal. rewrite Hd.
  apply String.eqb_neq in Hp. rewrite Hp. cbn [file readFails].
  change (load_file (Some torn_file)) with (@nil Entry). eexists.
  destruct (Run (Do s) k) as [r k'] eqn:Er. exists r.
  cut (∃ evs, trace (Apply [s] (MkWorld k (MkDisk (Some torn_file) [] false) (MkJournal 0 true) [])).2 =
              [EvAppend (begin_record 1 s) FOk; EvRun (Do s) r] ++ evs).
  { intros [evs He]. exists evs. split_and!; [reflexivity|exact He|reflexivity]. }
  unfold Apply, LoadJournal. cbn [file readFails disk].
  change (currentState (load_file (Some torn_file))) with (∅ : gmap string string).
  cbn [apply_loop]. unfold apply_step. rewrite Hz.
  assert (Hf : in_force ∅ s = false).
  { unfold in_force. rewrite lookup_empty. cbn [default]. apply String.eqb_neq. intros E.
    unfold RunnerKey, CommandLine, IsZero in *. destruct (Args (Do s)), (Stdin (Do s)), (Path (Do s)); done. }
  rewrite Hf. unfold pre_satisfied. rewrite Hpre. unfold run_step, jbegin, jwrite, write, run_cmd.
  cbn -[Run apply_loop]. rewrite Er. destruct r as [r [msg|]]; cbn -[apply_loop IsNotFound IsAlreadyExists].
  - destruct (_ && _), (IsAlreadyExists r (Some msg)); cbn; eauto.
  - eauto.
Qed.

(** Only nftables is held back. An entry of the macOS or the Windows
    firewall is replayed with everything else: its inverse is run by every
    sweep, whatever failed before it. *)
Theorem other_firewalls_always_removed jd es (w : World K) rep remaining w' e :
  replay jd es w = (rep, remaining, w') →
  e ∈ es → NeedsUndo e = true → eOp e = OpPf ∨ eOp e = OpWFP →
  ∃ evs r, trace w' = trace w ++ evs ∧ (eUndo e, r) ∈ runs_of evs.
Proof.
  intros E He Hn Hop. apply replay_spec in E as (att1 & att2 & held & evs & [T _] & C & A1 & _).
  assert (Hin : e ∈ att1.*1).
  { rewrite A1. apply elem_of_filterb. rewrite elem_of_rev, Hn. split; [done|].
    unfold is_nft. by destruct Hop as [-> | ->]. }
  apply list_elem_of_fmap in Hin as ([e' r] & -> & Hin). exists evs, r. split; [done|].
  rewrite C. apply list_elem_of_fmap. exists (e', r). split; [done|]. apply elem_of_app. by left.
Qed.

End Limits.

Lemma torn_tail_loses_inverse_witness :
  ∃ w1 r evs, NewApplier "/var/lib/caspian/netcfg.journal" Demo.machine
                (disk (Demo.world Demo.machine torn_file)) = Ok w1 ∧
    trace (Apply [Demo.fw] w1).2 = [EvAppend (begin_record 1 Demo.fw) FOk; EvRun (Do Demo.fw) r] ++ evs.
Proof.
  destruct (torn_tail_loses_inverse Demo.fw Demo.machine "/var/lib/caspian/netcfg.journal"
              (Demo.world Demo.machine torn_file)) as [_ (w1 & r & evs & Ha & Ht & _)];
    [discriminate|reflexivity|reflexivity|reflexivity|].
  exists w1, r, evs. split; [exact Ha|exact Ht].
Defined.

(** A macOS journal: the pf anchor is loaded, forwarding is on, and the sysctl
    that turns forwarding off is refused. The anchor is flushed all the same. *)
Definition pf_entry : Entry :=
  MkEntry 1 OpPf "block first" (MkCommand BinPfctl ["-a"; "caspian"; "-f"; "-"] "block" "")
    (MkCommand BinPfctl ["-a"; "caspian"; "-F"; "all"] "" "") PhaseDone.
Definition forward_entry : Entry :=
  MkEntry 2 OpSysctl "forward" (MkCommand BinSysctl ["-w"; "net.inet.ip.forwarding=1"] "" "")
    (MkCommand BinSysctl ["-w"; "net.inet.ip.forwarding=0"] "" "") PhaseDone.
Definition stuck_mac : RecordingRunner :=
  MkRecording [] PlatformDarwin ∅ {[ RunnerKey (eUndo forward_entry) := "exit status 1"%string ]}.

Lemma other_firewalls_always_removed_witness :
  let out := replay false [pf_entry; forward_entry] (Demo.world stuck_mac empty_file) in
  repFailed out.1.1 = 1 ∧ ∃ r, (eUndo pf_entry, r) ∈ runs_of (trace out.2).
Proof.
  intros out. split; [vm_compute; reflexivity|].
  destruct (other_firewalls_always_removed false [pf_entry; forward_entry]
              (Demo.world stuck_mac empty_file) out.1.1 out.1.2 out.2 pf_entry) as (evs & r & T & Hr).
  - unfold out. by destruct (replay _ _ _) as [[? ?] ?].
  - apply list_elem_of_here.
  - reflexivity.
  - by left.
  - exists r. rewrite T. exact Hr.
Defined.
