(* ===== verification/Netip.v ===== *)
(** * IP addresses and prefixes (net/netip)

    The part of Go's [net/netip] the planner uses. An address is absent (the
    zero [netip.Addr]), a 32-bit or a 128-bit number; a prefix is an address
    with a length, valid when the length fits the family. *)

From S2P Require Import Prelude GoStrings.

Local Open Scope Z_scope.

Inductive Addr :=
| NoAddr
| A4 (n : Z)
| A6 (n : Z) (zone : string).

#[export] Instance Addr_eq_dec : EqDecision Addr.
Proof. solve_decision. Defined.

Definition addr_valid (a : Addr) : bool := match a with NoAddr => false | _ => true end.
Definition Is4 (a : Addr) : bool := match a with A4 _ => true | _ => false end.
Definition Is6 (a : Addr) : bool := match a with A6 _ _ => true | _ => false end.
Definition BitLen (a : Addr) : Z := match a with NoAddr => 0 | A4 _ => 32 | A6 _ _ => 128 end.
Definition value (a : Addr) : Z := match a with NoAddr => 0 | A4 n | A6 n _ => n end.
Definition hasZone (a : Addr) : bool := match a with A6 _ z => negb (z =? "")%string | _ => false end.
Definition withoutZone (a : Addr) : Addr := match a with A6 n _ => A6 n "" | a => a end.

Definition Is4In6 (a : Addr) : bool := match a with A6 n _ => Z.shiftr n 32 =? 0xffff | _ => false end.

(** An IPv4-mapped IPv6 address becomes the IPv4 address. *)
Definition Unmap (a : Addr) : Addr := if Is4In6 a then A4 (value a mod 2 ^ 32) else a.

Definition IsLoopback (a : Addr) : bool :=
  match Unmap a with
  | A4 n => Z.shiftr n 24 =? 127
  | A6 n _ => n =? 1
  | NoAddr => false
  end.

Definition IsLinkLocalUnicast (a : Addr) : bool :=
  match Unmap a with
  | A4 n => Z.shiftr n 16 =? 0xa9fe
  | A6 n _ => Z.shiftr n 118 =? 0x3fa
  | NoAddr => false
  end.

(** The address after [a]; the zero address at the end of the space. *)
Definition Next (a : Addr) : Addr :=
  match a with
  | NoAddr => NoAddr
  | A4 n => if n =? 2 ^ 32 - 1 then NoAddr else A4 (n + 1)
  | A6 n z => if n =? 2 ^ 128 - 1 then NoAddr else A6 (n + 1) z
  end.

Record Prefix := MkPrefix { p_addr : Addr; Bits : Z }.

#[export] Instance Prefix_eq_dec : EqDecision Prefix.
Proof. solve_decision. Defined.

Definition NoPrefix : Prefix := MkPrefix NoAddr (-1).

Definition prefix_valid (p : Prefix) : bool :=
  addr_valid (p_addr p) && (0 <=? Bits p) && (Bits p <=? BitLen (p_addr p)).

Definition PrefixFrom (a : Addr) (bits : Z) : Prefix :=
  if addr_valid a && (0 <=? bits) && (bits <=? BitLen a) then MkPrefix (withoutZone a) bits
  else MkPrefix (withoutZone a) (-1).

(** The address with all but its first [bits] bits cleared. *)
Definition mask (a : Addr) (bits : Z) : Addr :=
  let cut n k := Z.shiftl (Z.shiftr n k) k in
  match a with
  | NoAddr => NoAddr
  | A4 n => A4 (cut n (32 - bits))
  | A6 n _ => A6 (cut n (128 - bits)) ""
  end.

(** Prefix.Masked: the zero prefix for an invalid one. *)
Definition Masked (p : Prefix) : Prefix :=
  if prefix_valid p then MkPrefix (mask (p_addr p) (Bits p)) (Bits p) else NoPrefix.

Definition Contains_addr (p : Prefix) (a : Addr) : bool :=
  if negb (prefix_valid p) || hasZone a then false
  else if (BitLen a =? 0) || negb (BitLen (p_addr p) =? BitLen a) then false
  else Z.shiftr (Z.lxor (value a) (value (p_addr p))) (BitLen a - Bits p) =? 0.

(** Prefix.Overlaps *)
Definition prefix_Overlaps (p o : Prefix) : bool :=
  if negb (prefix_valid p) || negb (prefix_valid o) then false
  else if bool_decide (p = o) then true
  else if negb (Bool.eqb (Is4 (p_addr p)) (Is4 (p_addr o))) then false
  else
    let minBits := if Bits p <? Bits o then Bits p else Bits o in
    if minBits =? 0 then true
    else bool_decide (mask (p_addr p) minBits = mask (p_addr o) minBits).

(** ** netip.ParseAddr *)

Definition dec_digit (c : ascii) : option Z :=
  let n := Z.of_nat (nat_of_ascii c) in if (48 <=? n) && (n <=? 57) then Some (n - 48) else None.

Definition hex_value (c : ascii) : option Z :=
  let n := Z.of_nat (nat_of_ascii c) in
  if (48 <=? n) && (n <=? 57) then Some (n - 48)
  else if (97 <=? n) && (n <=? 102) then Some (n - 87)
  else if (65 <=? n) && (n <=? 70) then Some (n - 55)
  else None.

(** One decimal octet: one to three digits, no leading zero, at most 255. *)
Definition octet (l : list ascii) : option Z :=
  match l with
  | [] => None
  | c :: r =>
      ds ← mapM dec_digit l;
      let v := foldl (λ v d, 10 * v + d) 0 ds in
      if (Ascii.eqb c "0" && negb (length r =? 0)%nat) || (255 <? v) then None else Some v
  end.

Definition parseIPv4 (l : list ascii) : option Z :=
  match split_ascii "." l with
  | [a; b; c; d] =>
      a ← octet a; b ← octet b; c ← octet c; d ← octet d;
      Some (((a * 256 + b) * 256 + c) * 256 + d)
  | _ => None
  end.

(** The hexadecimal run in front, its value, and the rest. *)
Fixpoint hex_run (acc : Z) (n : nat) (l : list ascii) : Z * nat * list ascii :=
  match l with
  | c :: r => match hex_value c with
              | Some v => hex_run (acc * 16 + v) (S n) r
              | None => (acc, n, l)
              end
  | [] => (acc, n, [])
  end.

(** The fields so far, how many of them precede the ellipsis, and what is left.
    [fuel] bounds the eight 16-bit fields. *)
Fixpoint v6_fields (fuel : nat) (acc : list Z) (ell : option nat) (l : list ascii) :
    option (list Z * option nat * list ascii) :=
  match fuel with
  | O => Some (acc, ell, l)
  | S fl =>
      let '(v, n, r) := hex_run 0 0 l in
      if (n =? 0)%nat || (4 <? n)%nat then None
      else match r with
           | [] => Some (acc ++ [v], ell, [])
           | "."%char :: _ =>
               if (match ell with None => negb (length acc =? 6)%nat | Some _ => false end) ||
                  (6 <? length acc)%nat then None
               else q ← parseIPv4 l; Some (acc ++ [q / 65536; q mod 65536], ell, [])
           | ":"%char :: [] => None
           | ":"%char :: ":"%char :: r =>
               match ell with
               | Some _ => None
               | None =>
                   let acc := acc ++ [v] in
                   match r with
                   | [] => Some (acc, Some (length acc), [])
                   | _ => v6_fields fl acc (Some (length acc)) r
                   end
               end
           | ":"%char :: r => v6_fields fl (acc ++ [v]) ell r
           | _ => None
           end
  end.

Definition v6_value (fields : list Z) : Z := foldl (λ v f, v * 65536 + f) 0 fields.

Definition v6_finish (zone : string) (r : option (list Z * option nat * list ascii)) : option Addr :=
  match r with
  | None => None
  | Some (fs, ell, rest) =>
      if negb (length rest =? 0)%nat then None
      else if (length fs <? 8)%nat then
        match ell with
        | None => None
        | Some e => Some (A6 (v6_value (take e fs ++ replicate (8 - length fs) 0 ++ drop e fs)) zone)
        end
      else match ell with Some _ => None | None => Some (A6 (v6_value fs) zone) end
  end.

Fixpoint cut_at (c : ascii) (l : list ascii) : list ascii * option (list ascii) :=
  match l with
  | [] => ([], None)
  | a :: r => if Ascii.eqb a c then ([], Some r) else let '(x, y) := cut_at c r in (a :: x, y)
  end.

Definition parseIPv6 (l : list ascii) : option Addr :=
  let '(s, zone) := cut_at "%" l in
  match zone with
  | Some [] => None
  | _ =>
      let zone := String.string_of_list_ascii (default [] zone) in
      match s with
      | ":"%char :: ":"%char :: [] => Some (A6 0 zone)
      | ":"%char :: ":"%char :: r => v6_finish zone (v6_fields 8 [] (Some 0%nat) r)
      | _ => v6_finish zone (v6_fields 8 [] None s)
      end
  end.

Fixpoint first_mark (l : list ascii) : option ascii :=
  match l with
  | [] => None
  | c :: l =>
      if Ascii.eqb c "." || Ascii.eqb c ":" || Ascii.eqb c "%" then Some c else first_mark l
  end.

Definition ParseAddr (s : string) : option Addr :=
  let l := String.list_ascii_of_string s in
  match first_mark l with
  | Some "."%char => n ← parseIPv4 l; Some (A4 n)
  | Some ":"%char => parseIPv6 l
  | _ => None
  end.

Example ParseAddr_ex :
  ParseAddr "127.0.0.1" = Some (A4 0x7f000001) ∧ ParseAddr "::1" = Some (A6 1 "") ∧
  ParseAddr "1.2.3" = None ∧ ParseAddr "01.2.3.4" = None ∧ ParseAddr "1.2.3.256" = None ∧
  ParseAddr "fe80::1%eth0" = Some (A6 0xfe800000000000000000000000000001 "eth0") ∧
  ParseAddr "::ffff:10.0.0.1" = Some (A6 0xffff0a000001 "") ∧ ParseAddr "1::2::3" = None ∧
  ParseAddr "1:2:3:4:5:6:7:8" = Some (A6 0x00010002000300040005000600070008 "") ∧
  ParseAddr "1:2:3:4:5:6:7::8" = None ∧ ParseAddr "a.b" = None ∧ ParseAddr "example" = None.
Proof. vm_compute. repeat split. Qed.

(** ** Text *)

(** The shortest lower-case hexadecimal form of a 16-bit field. *)
Definition hex16 (n : Z) : string :=
  let d k := String (hex_char (Z.to_nat (n / 16 ^ k mod 16))) "" in
  (if (n <? 16)%Z then d 0
   else if (n <? 256)%Z then d 1 ++ d 0
   else if (n <? 4096)%Z then d 2 ++ d 1 ++ d 0
   else d 3 ++ d 2 ++ d 1 ++ d 0)%string.

Definition dotted (n : Z) : string :=
  (Itoa (Z.shiftr n 24) ++ "." ++ Itoa (Z.shiftr n 16 mod 256) ++ "." ++
   Itoa (Z.shiftr n 8 mod 256) ++ "." ++ Itoa (n mod 256))%string.

Definition v6u16 (n : Z) (i : nat) : Z := Z.shiftr n (16 * (7 - Z.of_nat i)) mod 65536.

(** Number of zero fields from [i] on. *)
Fixpoint zero_run (fuel : nat) (n : Z) (i : nat) : nat :=
  match fuel with
  | O => O
  | S fuel => if (v6u16 n i =? 0)%Z then S (zero_run fuel n (S i)) else O
  end.

(** appendTo6: the first of the longest runs of at least two zero fields. *)
Definition longest_run (n : Z) : option (nat * nat) :=
  foldl (λ best i,
    let l := zero_run (8 - i) n i in
    let best_len := match best with Some (a, b) => (b - a)%nat | None => O end in
    if (2 <=? l)%nat && (best_len <? l)%nat then Some (i, (i + l)%nat) else best)
    None (seq 0 8).

Fixpoint v6_text (fuel : nat) (n : Z) (run : option (nat * nat)) (i : nat) : string :=
  match fuel with
  | O => ""
  | S fuel =>
      if (8 <=? i)%nat then ""
      else
        let field i := (hex16 (v6u16 n i) ++ v6_text fuel n run (S i))%string in
        let plain := ((if (0 <? i)%nat then ":" else "") ++ field i)%string in
        match run with
        | Some (a, b) =>
            if (i =? a)%nat then (if (8 <=? b)%nat then "::" else "::" ++ field b)%string else plain
        | None => plain
        end
  end.

Definition addr_String (a : Addr) : string :=
  match a with
  | NoAddr => "invalid IP"
  | A4 n => dotted n
  | A6 n z =>
      (if Is4In6 a then "::ffff:" ++ dotted (n mod 2 ^ 32) else v6_text 9 n (longest_run n) 0) ++
      (if (z =? "")%string then "" else "%" ++ z)
  end%string.

Definition prefix_String (p : Prefix) : string :=
  if negb (prefix_valid p) then "invalid Prefix" else (addr_String (p_addr p) ++ "/" ++ Itoa (Bits p))%string.

Example addr_String_v4 : addr_String (A4 0x0a533301) = "10.83.51.1"%string.
Proof. reflexivity. Qed.
Example addr_String_v6 : addr_String (A6 0x20010db8000000000000000000000001 "") = "2001:db8::1"%string.
Proof. reflexivity. Qed.
Example addr_String_loop : addr_String (A6 1 "") = "::1"%string.
Proof. reflexivity. Qed.
Example addr_String_zone : addr_String (A6 0xfe800000000000000000000000000000 "eth0") = "fe80::%eth0"%string.
Proof. reflexivity. Qed.
