(* ===== verification/Text.v ===== *)
(** * Reading text

    More of Go's [strings] and [strconv], and [netip.ParsePrefix]: what the
    parsers of command output use. Texts are bytes, as in [GoStrings]. *)

From S2P Require Import Prelude GoStrings Netip.

Local Open Scope Z_scope.

Definition to_l (s : string) : list ascii := String.list_ascii_of_string s.
Definition of_l (l : list ascii) : string := String.string_of_list_ascii l.

(** strings.TrimPrefix *)
Definition TrimPrefix (s p : string) : string :=
  if HasPrefix s p then of_l (drop (String.length p) (to_l s)) else s.

(** strings.HasSuffix *)
Definition HasSuffix (s t : string) : bool :=
  (String.length t <=? String.length s)%nat &&
  (String.substring (String.length s - String.length t) (String.length t) s =? t)%string.

(** strings.TrimRight by a set of ASCII bytes *)
Fixpoint drop_while (p : ascii → bool) (l : list ascii) : list ascii :=
  match l with [] => [] | c :: l' => if p c then drop_while p l' else l end.

Definition in_set (set : list ascii) (c : ascii) : bool := existsb (Ascii.eqb c) set.

Definition TrimRight (s : string) (set : list ascii) : string :=
  of_l (rev (drop_while (in_set set) (rev (to_l s)))).

Definition tab : ascii := "009".
Definition newline_byte : ascii := "010".
Definition cr : ascii := "013".

(** strings.IndexByte *)
Fixpoint index_byte (c : ascii) (l : list ascii) : option nat :=
  match l with
  | [] => None
  | a :: l => if Ascii.eqb a c then Some O else S <$> index_byte c l
  end.

Definition IndexByte (s : string) (c : ascii) : option nat := index_byte c (to_l s).

Definition substr_to (s : string) (n : nat) : string := of_l (take n (to_l s)).
Definition substr_from (s : string) (n : nat) : string := of_l (drop n (to_l s)).

(** strings.Cut at a one-byte separator *)
Definition Cut (s : string) (c : ascii) : option (string * string) :=
  match IndexByte s c with
  | Some i => Some (substr_to s i, substr_from s (S i))
  | None => None
  end.

(** strings.SplitN with a one-byte separator and at least one piece. *)
Fixpoint split_n (n : nat) (c : ascii) (s : string) : list string :=
  match n with
  | O => []
  | S O => [s]
  | S n => match Cut s c with
           | Some (a, b) => a :: split_n n c b
           | None => [s]
           end
  end.

(** The bytes a space takes at the front of a text, if one is there. *)
Definition space_width (l : list ascii) : option nat :=
  match strip_one spaces l with
  | Some l' => Some (List.length l - List.length l')%nat
  | None => None
  end.

(** strings.Fields: [cur] is the field being read, reversed. *)
Fixpoint fields_go (skip : nat) (cur : list ascii) (l : list ascii) : list (list ascii) :=
  let flush rest := match cur with [] => rest | _ => rev cur :: rest end in
  match l with
  | [] => flush []
  | c :: l' =>
      match skip with
      | S k => fields_go k cur l'
      | O => match space_width l with
             | Some n => flush (fields_go (n - 1) [] l')
             | None => fields_go 0 (c :: cur) l'
             end
      end
  end.

Definition Fields (s : string) : list string := of_l <$> fields_go 0 [] (to_l s).

(** strconv.Atoi: an optional sign and decimal digits, within an int64. *)
Definition digits_value (l : list ascii) : option Z :=
  match l with
  | [] => None
  | _ => foldl (λ acc c, v ← acc; d ← dec_digit c; Some (10 * v + d)) (Some 0) l
  end.

Definition Atoi (s : string) : option Z :=
  let '(neg, l) := match to_l s with
                   | "-"%char :: l => (true, l)
                   | "+"%char :: l => (false, l)
                   | l => (false, l)
                   end in
  v ← digits_value l;
  let v := if neg : bool then - v else v in
  if (- 2 ^ 63 <=? v) && (v <? 2 ^ 63) then Some v else None.

(** The decimal forms strconv.ParseFloat takes, a sign, digits and a fraction,
    in hundredths, truncated: the only part of the value the readers keep. An
    exponent, a hexadecimal form and the names of the special values are not
    read. *)
Definition parse_hundredths (s : string) : option Z :=
  let '(neg, l) := match to_l s with
                   | "-"%char :: l => (true, l)
                   | "+"%char :: l => (false, l)
                   | l => (false, l)
                   end in
  let '(whole, frac) := cut_at "." l in
  let frac := default [] frac in
  if (List.length whole + List.length frac =? 0)%nat then None
  else
    w ← digits_value ("0"%char :: whole);
    f ← digits_value ("0"%char :: frac);
    let h := w * 100 + f * 100 / 10 ^ Z.of_nat (List.length frac) in
    Some (if neg : bool then - h else h).

(** The last index of a byte. *)
Definition last_index (c : ascii) (l : list ascii) : option nat :=
  (λ i, (List.length l - 1 - i)%nat) <$> index_byte c (rev l).

(** netip.ParsePrefix *)
Definition ParsePrefix (s : string) : option Prefix :=
  let l := to_l s in
  i ← last_index "/" l;
  ip ← ParseAddr (of_l (take i l));
  if hasZone ip then None
  else
    let bits := drop (S i) l in
    if match bits with
       | c :: _ :: _ => match dec_digit c with Some d => d =? 0 | None => true end
       | _ => false
       end then None
    else n ← Atoi (of_l bits);
         if (n <? 0) || (BitLen ip <? n) then None else Some (PrefixFrom ip n).

Example text_ex :
  Fields ("  a" ++ String tab "b  c ")%string = ["a"; "b"; "c"]%string ∧ Atoi "-12" = Some (-12) ∧ Atoi "" = None ∧
  Atoi "12x" = None ∧ Atoi "9223372036854775808" = None ∧
  ParsePrefix "192.168.1.42/24" = Some (MkPrefix (A4 0xc0a8012a) 24) ∧
  ParsePrefix "fe80::1/64" = Some (MkPrefix (A6 0xfe800000000000000000000000000001 "") 64) ∧
  ParsePrefix "10.0.0.0/033" = None ∧ ParsePrefix "10.0.0.0/33" = None ∧ ParsePrefix "10.0.0.0" = None ∧
  split_n 3 ":" "1: lo: a: b" = ["1"; " lo"; " a: b"]%string ∧ parse_hundredths "2412.0" = Some 241200 ∧
  TrimRight "ab  " [" "%char; tab] = "ab"%string ∧ HasSuffix "Band 1:" ":" = true ∧
  parse_hundredths "20.55" = Some 2055.
Proof. vm_compute. repeat split. Qed.

(** ** Fields and joins *)

Lemma to_of l : to_l (of_l l) = l.
Proof. apply String.list_ascii_of_string_of_list_ascii. Qed.

Lemma of_to s : of_l (to_l s) = s.
Proof. apply String.string_of_list_ascii_of_string. Qed.
