(* ===== verification/Messages.v ===== *)
(** * The panel's words (internal/panel/i18n.go, i18n_messages.go)

    The message keys, the two catalogues as they are written, and [T], which
    looks a key up in one language and formats the message with its arguments. *)

From S2P Require Import Prelude GoStrings Text.

Local Open Scope Z_scope.

(** ** The keys *)

Definition MsgAppName : string := "app.name".
Definition MsgSkipToMain : string := "nav.skip".
Definition MsgSignOut : string := "nav.signout".
Definition MsgFooterNote : string := "footer.note".
Definition MsgLanguage : string := "lang.label".
Definition MsgApplyLanguage : string := "lang.apply".
Definition MsgBackToMain : string := "nav.back".
Definition MsgStatusHeading : string := "status.heading".
Definition MsgStatusConnected : string := "status.connected".
Definition MsgStatusNotConn : string := "status.notconnected".
Definition MsgStatusOff : string := "status.off".
Definition MsgStatusStarting : string := "status.starting".
Definition MsgStatusNotWorking : string := "status.notworking".
Definition MsgStatusNoConfig : string := "status.noconfig".
Definition MsgStatusUsing : string := "status.using".
Definition MsgStatusUnreadable : string := "status.unreadable".
Definition MsgStatusLocalProxy : string := "status.localproxy".
Definition MsgSwitchOn : string := "power.on".
Definition MsgSwitchOff : string := "power.off".
Definition MsgWifiHeading : string := "wifi.heading".
Definition MsgWifiQRCaption : string := "wifi.qr.caption".
Definition MsgWifiQRFailed : string := "wifi.qr.failed".
Definition MsgWifiNetworkName : string := "wifi.name".
Definition MsgWifiPassword : string := "wifi.password".
Definition MsgWifiIntro : string := "wifi.intro".
Definition MsgWifiChange : string := "wifi.change".
Definition MsgWifiFormName : string := "wifi.form.name".
Definition MsgWifiFormPass : string := "wifi.form.password".
Definition MsgWifiFormHint : string := "wifi.form.hint".
Definition MsgWifiFormSave : string := "wifi.form.save".
Definition MsgDevicesNone : string := "devices.none".
Definition MsgDevicesOne : string := "devices.one".
Definition MsgDevicesMany : string := "devices.many".
Definition MsgDevicesUnreadable : string := "devices.unreadable".
Definition MsgConfigHeading : string := "config.heading".
Definition MsgConfigNone : string := "config.none".
Definition MsgConfigAdd : string := "config.add".
Definition MsgConfigReplace : string := "config.replace".
Definition MsgConfigPasteLabel : string := "config.paste.label".
Definition MsgConfigPasteHint : string := "config.paste.hint".
Definition MsgConfigPlaceholder : string := "config.placeholder".
Definition MsgConfigNameLabel : string := "config.name.label".
Definition MsgConfigSubmit : string := "config.submit".
Definition MsgDetectedLine : string := "detected.line".
Definition MsgDetectedNone : string := "detected.notfound".
Definition MsgKindEthernet : string := "kind.ethernet".
Definition MsgKindBuiltinWiFi : string := "kind.builtinwifi".
Definition MsgKindUSBWiFi : string := "kind.usbwifi".
Definition MsgKindWiFi : string := "kind.wifi".
Definition MsgConnectionsHeading : string := "connections.heading".
Definition MsgConnectionsHint : string := "connections.hint".
Definition MsgConnectionsApply : string := "connections.apply".
Definition MsgAdvancedShow : string := "advanced.show".
Definition MsgAdvancedHide : string := "advanced.hide".
Definition MsgAdvancedHeading : string := "advanced.heading".
Definition MsgAdvancedHint : string := "advanced.hint".
Definition MsgAdvInternet : string := "advanced.internet".
Definition MsgAdvHotspotIface : string := "advanced.hotspotiface".
Definition MsgAdvChannel : string := "advanced.channel".
Definition MsgAdvBand : string := "advanced.band".
Definition MsgAdvCountry : string := "advanced.country".
Definition MsgAdvCountryHint : string := "advanced.country.hint".
Definition MsgAdvSubnet : string := "advanced.subnet".
Definition MsgAdvSubnetHint : string := "advanced.subnet.hint".
Definition MsgAdvLogLevel : string := "advanced.loglevel".
Definition MsgAdvLogLevelHint : string := "advanced.loglevel.hint".
Definition MsgAdvPanelOnLAN : string := "advanced.panelonlan".
Definition MsgAdvPanelOnLANHint : string := "advanced.panelonlan.hint".
Definition MsgAdvSave : string := "advanced.save".
Definition MsgAdvAuto : string := "advanced.auto".
Definition MsgAdvAutoPlain : string := "advanced.auto.plain".
Definition MsgAdvChannelPinned : string := "advanced.channelpinned".
Definition MsgAdvCannotHostAP : string := "advanced.cannothost".
Definition MsgAdvInUse : string := "advanced.inuse".
Definition MsgAdvFixedHeading : string := "advanced.fixed.heading".
Definition MsgAdvDNSLabel : string := "advanced.dns.label".
Definition MsgAdvDNSValue : string := "advanced.dns.value".
Definition MsgAdvDropLabel : string := "advanced.drop.label".
Definition MsgAdvDropValue : string := "advanced.drop.value".
Definition MsgAdvConfigHeading : string := "advanced.config.heading".
Definition MsgAdvConfigKind : string := "advanced.config.kind".
Definition MsgAdvConfigServer : string := "advanced.config.server".
Definition MsgAdvConfigTransport : string := "advanced.config.transport".
Definition MsgAdvConfigSecurity : string := "advanced.config.security".
Definition MsgAdvConfigSNI : string := "advanced.config.sni".
Definition MsgAdvConfigFP : string := "advanced.config.fingerprint".
Definition MsgAdvConfigFlow : string := "advanced.config.flow".
Definition MsgAdvRealityKey : string := "advanced.reality.publickey".
Definition MsgAdvRealityShortID : string := "advanced.reality.shortid".
Definition MsgAdvRealityPQV : string := "advanced.reality.pqv".
Definition MsgAdvConfigCount : string := "advanced.config.count".
Definition MsgTCPSplit : string := "sni.tcp_split".
Definition MsgTLSRecordSplit : string := "sni.tls_record_split".
Definition MsgSplitHint : string := "sni.split_hint".
Definition MsgSNISpoofHeading : string := "sni.heading".
Definition MsgSNISpoofLabel : string := "sni.label".
Definition MsgSNISpoofHint : string := "sni.hint".
Definition MsgSNISpoofSave : string := "sni.save".
Definition MsgSNISpoofSaved : string := "sni.saved".
Definition MsgSNISpoofInvalid : string := "sni.invalid".
Definition MsgSNISpoofUnsupported : string := "sni.unsupported".
Definition MsgSNISpoofUnavailable : string := "sni.unavailable".
Definition MsgSNIStateOn : string := "sni.state_on".
Definition MsgSNIStateOff : string := "sni.state_off".
Definition MsgSNIActiveLabel : string := "sni.active_label".
Definition MsgSNIActiveName : string := "sni.active_name".
Definition MsgConfigEntriesHeading : string := "config.entries.heading".
Definition MsgConfigEntryNumber : string := "config.entries.number".
Definition MsgConfigEntriesSubmit : string := "config.entries.submit".
Definition MsgConfigDroppedOne : string := "config.entries.dropped.one".
Definition MsgConfigDroppedMany : string := "config.entries.dropped.many".
Definition MsgConfigEntryReset : string := "config.entries.reset".
Definition MsgSelectBadEntry : string := "error.selectentry.headline".
Definition MsgSelectBadEntryAdvice : string := "error.selectentry.advice".
Definition MsgSaveSelectFailed : string := "error.saveselect.headline".
Definition MsgNoticeEntrySelected : string := "notice.entryselected".
Definition MsgNoticeEntryReconn : string := "notice.entryreconnected".
Definition MsgAdvPresent : string := "advanced.present".
Definition MsgAdvAbsent : string := "advanced.absent".
Definition MsgAdvNotSet : string := "advanced.notset".
Definition MsgAdvNoSecrets : string := "advanced.nosecrets".
Definition MsgAdvLogHeading : string := "advanced.log.heading".
Definition MsgAdvLogPhase : string := "advanced.log.phase".
Definition MsgAdvLogReason : string := "advanced.log.reason".
Definition MsgAdvLogDropped : string := "advanced.log.dropped".
Definition MsgAdvLogEmpty : string := "advanced.log.empty".
Definition MsgAdvBand24 : string := "advanced.band.24".
Definition MsgAdvBand5 : string := "advanced.band.5".
Definition MsgPhaseStopped : string := "phase.stopped".
Definition MsgPhaseStarting : string := "phase.starting".
Definition MsgPhaseRunning : string := "phase.running".
Definition MsgPhaseFailed : string := "phase.failed".
Definition MsgLoginTitle : string := "login.title".
Definition MsgLoginHeading : string := "login.heading".
Definition MsgLoginPassword : string := "login.password".
Definition MsgLoginSubmit : string := "login.submit".
Definition MsgLoginHint : string := "login.hint".
Definition MsgLoginWrong : string := "login.wrong.headline".
Definition MsgLoginWrongAdvice : string := "login.wrong.advice".
Definition MsgLoginTooMany : string := "login.toomany.headline".
Definition MsgLoginTooManyWait : string := "login.toomany.advice".
Definition MsgLoginCorrupt : string := "login.corrupt.headline".
Definition MsgLoginCorruptAdvice : string := "login.corrupt.advice".
Definition MsgPasswordHeading : string := "password.heading".
Definition MsgPasswordHint : string := "password.hint".
Definition MsgPasswordCurrent : string := "password.current".
Definition MsgPasswordNew : string := "password.new".
Definition MsgPasswordConfirm : string := "password.confirm".
Definition MsgPasswordSave : string := "password.save".
Definition MsgPasswordWrong : string := "password.wrong".
Definition MsgPasswordShort : string := "password.short".
Definition MsgPasswordMismatch : string := "password.mismatch".
Definition MsgPasswordSaveFailed : string := "password.savefailed".
Definition MsgIdentifiersHeading : string := "identifiers.heading".
Definition MsgIdentifiersHint : string := "identifiers.hint".
Definition MsgIdentifiersUUID : string := "identifiers.uuid".
Definition MsgIdentifiersIMEI : string := "identifiers.imei".
Definition MsgIdentifiersEmpty : string := "identifiers.empty".
Definition MsgIdentifiersGenerate : string := "identifiers.generate".
Definition MsgIdentifiersCopy : string := "identifiers.copy".
Definition MsgIdentifiersWorking : string := "identifiers.working".
Definition MsgIdentifiersReady : string := "identifiers.ready".
Definition MsgIdentifiersFailed : string := "identifiers.failed".
Definition MsgIdentifiersCopied : string := "identifiers.copied".
Definition MsgIdentifiersWarning : string := "identifiers.warning".
Definition MsgSetupTitle : string := "setup.title".
Definition MsgSetupHeading : string := "setup.heading".
Definition MsgSetupNotice : string := "setup.notice".
Definition MsgSetupIntro : string := "setup.intro".
Definition MsgSetupPassword : string := "setup.password".
Definition MsgSetupConfirm : string := "setup.confirm".
Definition MsgSetupHint : string := "setup.hint".
Definition MsgSetupSubmit : string := "setup.submit".
Definition MsgSetupWriteItDown : string := "setup.writeitdown".
Definition MsgSetupShort : string := "setup.short.headline".
Definition MsgSetupShortAdvice : string := "setup.short.advice".
Definition MsgSetupMismatch : string := "setup.mismatch.headline".
Definition MsgSetupMismatchAdvice : string := "setup.mismatch.advice".
Definition MsgSetupDone : string := "setup.done.headline".
Definition MsgSetupDoneAdvice : string := "setup.done.advice".
Definition MsgSeconds : string := "time.seconds".
Definition MsgMinute : string := "time.minute".
Definition MsgMinutes : string := "time.minutes".
Definition MsgNotFound : string := "problem.notfound.headline".
Definition MsgNotFoundAdvice : string := "problem.notfound.advice".
Definition MsgBadForm : string := "problem.badform.headline".
Definition MsgBadFormAdvice : string := "problem.badform.advice".
Definition MsgCrossSite : string := "problem.crosssite.headline".
Definition MsgCrossSiteAdvice : string := "problem.crosssite.advice".
Definition MsgInternalError : string := "problem.internal.headline".
Definition MsgInternalAdvice : string := "problem.internal.advice".
Definition MsgProblemDetail : string := "problem.detail.label".
Definition MsgParseHeadline : string := "problem.parse.headline".
Definition MsgEngineHeadline : string := "problem.engine.headline".
Definition MsgEngineAdvice : string := "problem.engine.advice".
Definition MsgServerHeadline : string := "problem.server.headline".
Definition MsgServerAdvice : string := "problem.server.advice".
Definition MsgEngineInsecureHeadline : string := "problem.engine.insecure.headline".
Definition MsgEngineInsecureAdvice : string := "problem.engine.insecure.advice".
Definition MsgEngineCipherHeadline : string := "problem.engine.cipher.headline".
Definition MsgEngineCipherAdvice : string := "problem.engine.cipher.advice".
Definition MsgParseEmpty : string := "problem.parse.empty.headline".
Definition MsgParseEmptyAdvice : string := "problem.parse.empty.advice".
Definition MsgParseScheme : string := "problem.parse.scheme.advice".
Definition MsgParseNoLink : string := "problem.parse.nolink.advice".
Definition MsgParseUUID : string := "problem.parse.uuid.advice".
Definition MsgParseAddress : string := "problem.parse.address.advice".
Definition MsgParsePort : string := "problem.parse.port.advice".
Definition MsgParseReality : string := "problem.parse.reality.advice".
Definition MsgParseTransport : string := "problem.parse.transport.advice".
Definition MsgParseOther : string := "problem.parse.other.advice".
Definition MsgFaultNoAPAdapter : string := "fault.noapadapter".
Definition MsgFaultIfaceBusy : string := "fault.interfacebusy".
Definition MsgFaultNotRunning : string := "fault.notrunning".
Definition MsgFaultPortInUse : string := "fault.portinuse".
Definition MsgFaultPortInUseAdvice : string := "fault.portinuse.advice".
Definition MsgEventTrafficCut : string := "event.trafficcut".
Definition MsgEventTrafficRestored : string := "event.trafficrestored".
Definition MsgEventWrongPassword : string := "event.wrongpassword".
Definition MsgNoticeCut : string := "notice.cut".
Definition MsgNoticeRestored : string := "notice.restored".
Definition MsgNoticeRecovered : string := "notice.recovered".
Definition MsgNavOutside : string := "nav.outside".
Definition MsgAdvRecoverHeading : string := "advanced.recover.heading".
Definition MsgAdvRecoverHint : string := "advanced.recover.hint".
Definition MsgAdvRecoverButton : string := "advanced.recover.button".
Definition MsgCutButton : string := "cut.button".
Definition MsgCutRestoreButton : string := "cut.restore".
Definition MsgCutBanner : string := "cut.banner".
Definition MsgCutSwitchLabel : string := "cut.switchlabel".
Definition MsgPowerCaption : string := "power.caption".
Definition MsgActionWorking : string := "action.working".
Definition MsgActionStopping : string := "action.stopping".
Definition MsgActionFailed : string := "action.failed".
Definition MsgActionStoppedRemote : string := "action.stoppedremote".
Definition MsgActionStale : string := "action.stale".
Definition MsgCutCaption : string := "cut.caption".
Definition MsgStatusCut : string := "status.cut".
Definition MsgNextAddconfig : string := "next.addconfig".
Definition MsgNextSetwifi : string := "next.setwifi".
Definition MsgNextSwitchon : string := "next.switchon".
Definition MsgNextJoin : string := "next.join".
Definition MsgNextJoined : string := "next.joined".
Definition MsgNextResume : string := "next.resume".
Definition MsgNextProblem : string := "next.problem".
Definition MsgNextStarting : string := "next.starting".
Definition MsgNextLabel : string := "next.label".
Definition MsgHelpHeading : string := "help.heading".
Definition MsgHelpTitle : string := "help.title".
Definition MsgHelpWhatHeading : string := "help.what.heading".
Definition MsgHelpWhatBody : string := "help.what.body".
Definition MsgHelpFlowCaption : string := "help.flow.caption".
Definition MsgHelpFlowDevice : string := "help.flow.device".
Definition MsgHelpFlowBox : string := "help.flow.box".
Definition MsgHelpFlowTunnel : string := "help.flow.tunnel".
Definition MsgHelpFlowServer : string := "help.flow.server".
Definition MsgHelpFlowNote : string := "help.flow.note".
Definition MsgHelpArrangeHeading : string := "help.arrange.heading".
Definition MsgHelpArrangeBody : string := "help.arrange.body".
Definition MsgHelpArrangeAHeading : string := "help.arrange.a.heading".
Definition MsgHelpArrangeATop : string := "help.arrange.a.top".
Definition MsgHelpArrangeABottom : string := "help.arrange.a.bottom".
Definition MsgHelpArrangeAWhen : string := "help.arrange.a.when".
Definition MsgHelpArrangeBHeading : string := "help.arrange.b.heading".
Definition MsgHelpArrangeBTop : string := "help.arrange.b.top".
Definition MsgHelpArrangeBBottom : string := "help.arrange.b.bottom".
Definition MsgHelpArrangeBWhen : string := "help.arrange.b.when".
Definition MsgHelpArrangeNounplug : string := "help.arrange.nounplug".
Definition MsgHelpTwoHeading : string := "help.two.heading".
Definition MsgHelpTwoIntro : string := "help.two.intro".
Definition MsgHelpTwoPowerHeading : string := "help.two.power.heading".
Definition MsgHelpTwoPowerBody : string := "help.two.power.body".
Definition MsgHelpTwoCutHeading : string := "help.two.cut.heading".
Definition MsgHelpTwoCutBody : string := "help.two.cut.body".
Definition MsgHelpTwoLockout : string := "help.two.lockout".
Definition MsgHelpTwoWhich : string := "help.two.which".
Definition MsgHelpTwoRestart : string := "help.two.restart".
Definition MsgHelpControlsHeading : string := "help.controls.heading".
Definition MsgHelpControlsSwitch : string := "help.controls.switch".
Definition MsgHelpControlsCut : string := "help.controls.cut".
Definition MsgHelpControlsConfig : string := "help.controls.config".
Definition MsgHelpControlsWifi : string := "help.controls.wifi".
Definition MsgHelpControlsUplink : string := "help.controls.uplink".
Definition MsgHelpControlsHotspotiface : string := "help.controls.hotspotiface".
Definition MsgHelpControlsChannel : string := "help.controls.channel".
Definition MsgHelpControlsCountry : string := "help.controls.country".
Definition MsgHelpControlsSubnet : string := "help.controls.subnet".
Definition MsgHelpControlsPanelonlan : string := "help.controls.panelonlan".
Definition MsgHelpSecurityHeading : string := "help.security.heading".
Definition MsgHelpSecurityDoesHeading : string := "help.security.does.heading".
Definition MsgHelpSecurityDoesFailclosed : string := "help.security.does.failclosed".
Definition MsgHelpSecurityDoesDns : string := "help.security.does.dns".
Definition MsgHelpSecurityDoesEgress : string := "help.security.does.egress".
Definition MsgHelpSecurityDoesIsolation : string := "help.security.does.isolation".
Definition MsgHelpSecurityDoesSecrets : string := "help.security.does.secrets".
Definition MsgHelpSecurityDoesGiveback : string := "help.security.does.giveback".
Definition MsgHelpSecurityNotHeading : string := "help.security.not.heading".
Definition MsgHelpSecurityNotIntro : string := "help.security.not.intro".
Definition MsgHelpSecurityNotDoh : string := "help.security.not.doh".
Definition MsgHelpSecurityNotIpv6 : string := "help.security.not.ipv6".
Definition MsgHelpSecurityNotOwnbox : string := "help.security.not.ownbox".
Definition MsgHelpSecurityNotEndpoints : string := "help.security.not.endpoints".
Definition MsgHelpSecurityNotWifi : string := "help.security.not.wifi".
Definition MsgHelpTroubleHeading : string := "help.trouble.heading".
Definition MsgHelpTroubleNossidQ : string := "help.trouble.nossid.q".
Definition MsgHelpTroubleNossidA : string := "help.trouble.nossid.a".
Definition MsgHelpTroubleNointernetQ : string := "help.trouble.nointernet.q".
Definition MsgHelpTroubleNointernetA : string := "help.trouble.nointernet.a".
Definition MsgHelpTroubleSlowQ : string := "help.trouble.slow.q".
Definition MsgHelpTroubleSlowA : string := "help.trouble.slow.a".
Definition MsgHelpTroubleLostpanelQ : string := "help.trouble.lostpanel.q".
Definition MsgHelpTroubleLostpanelA : string := "help.trouble.lostpanel.a".
Definition MsgHelpTroubleForgotQ : string := "help.trouble.forgot.q".
Definition MsgHelpTroubleForgotA : string := "help.trouble.forgot.a".
Definition MsgFaultRadioBlocked : string := "fault.radioblocked".
Definition MsgFaultNoInternet : string := "fault.nointernet".
Definition MsgFaultChannel : string := "fault.channelrefused".
Definition MsgFaultHotspot : string := "fault.hotspotfailed".
Definition MsgFaultDHCP : string := "fault.dhcpfailed".
Definition MsgFaultClock : string := "fault.clock".
Definition MsgFaultPermission : string := "fault.permission".
Definition MsgFaultSoftware : string := "fault.softwaremissing".
Definition MsgFaultUnavailable : string := "fault.unavailable".
Definition MsgFaultIPv6Unsupported : string := "fault.ipv6unsupported".
Definition MsgCountryMissing : string := "fault.countrymissing".
Definition MsgCountryAdvice : string := "fault.countrymissing.advice".
Definition MsgCountryAction : string := "fault.countrymissing.action".
Definition MsgFaultUnknown : string := "fault.unknown".
Definition MsgFaultUnrecognised : string := "fault.unrecognised".
Definition MsgTunnelNoHotspot : string := "fault.tunnelnohotspot".
Definition MsgConfigSubscriptionLabel : string := "config.subscription.label".
Definition MsgConfigSubscriptionHint : string := "config.subscription.hint".
Definition MsgConfigSubscriptionSet : string := "config.subscription.set".
Definition MsgConfigRefreshButton : string := "config.refresh.button".
Definition MsgConfigRefreshDisabled : string := "config.refresh.disabled".
Definition MsgRefreshLine : string := "refresh.line".
Definition MsgRefreshWhenJustNow : string := "refresh.when.justnow".
Definition MsgRefreshWhenMinutes : string := "refresh.when.minutes".
Definition MsgRefreshWhenHours : string := "refresh.when.hours".
Definition MsgRefreshWhenDays : string := "refresh.when.days".
Definition MsgRefreshEntriesOne : string := "refresh.entries.one".
Definition MsgRefreshEntriesMany : string := "refresh.entries.many".
Definition MsgRefreshUsed : string := "refresh.used".
Definition MsgRefreshExpires : string := "refresh.expires".
Definition MsgNoticeSubscriptionSaved : string := "notice.subscriptionsaved".
Definition MsgNoticeRefreshed : string := "notice.refreshed".
Definition MsgNoticeRefreshReconn : string := "notice.refreshreconnected".
Definition MsgSaveSubscriptionFailed : string := "error.savesubscription.headline".
Definition MsgSubscriptionNotHTTPS : string := "problem.subscription.nothttps.headline".
Definition MsgSubscriptionNoHost : string := "problem.subscription.nohost.headline".
Definition MsgSubscriptionIPLiteral : string := "problem.subscription.ipliteral.headline".
Definition MsgSubscriptionUserinfo : string := "problem.subscription.userinfo.headline".
Definition MsgSubscriptionTooLong : string := "problem.subscription.toolong.headline".
Definition MsgSubscriptionMalformed : string := "problem.subscription.malformed.headline".
Definition MsgSubscriptionAdvice : string := "problem.subscription.advice".
Definition MsgRefreshNoURL : string := "problem.refresh.nourl.headline".
Definition MsgRefreshNoURLAdvice : string := "problem.refresh.nourl.advice".
Definition MsgRefreshNotRunning : string := "problem.refresh.notrunning.headline".
Definition MsgRefreshBadAddress : string := "problem.refresh.badaddress.headline".
Definition MsgRefreshBadAddressAdvice : string := "problem.refresh.badaddress.advice".
Definition MsgRefreshNoAnswer : string := "problem.refresh.noanswer.headline".
Definition MsgRefreshNoAnswerAdvice : string := "problem.refresh.noanswer.advice".
Definition MsgRefreshTooLarge : string := "problem.refresh.toolarge.headline".
Definition MsgRefreshTooLargeAdvice : string := "problem.refresh.toolarge.advice".
Definition MsgRefreshNotHTTPS : string := "problem.refresh.nothttps.headline".
Definition MsgRefreshNotHTTPSAdvice : string := "problem.refresh.nothttps.advice".
Definition MsgRefreshBadStatus : string := "problem.refresh.badstatus.headline".
Definition MsgRefreshBadStatusAdvice : string := "problem.refresh.badstatus.advice".
Definition MsgRefreshNotConfig : string := "problem.refresh.notconfig.headline".
Definition MsgRefreshNotConfigAdvice : string := "problem.refresh.notconfig.advice".
Definition MsgFaultWindowsTooOld : string := "fault.windowstooold".
Definition MsgRefreshFailedOther : string := "problem.refresh.other.headline".
Definition MsgRefreshFailedOtherAdvice : string := "problem.refresh.other.advice".
Definition MsgEventConfigRefreshed : string := "event.configrefreshed".
Definition MsgEventRefreshFailed : string := "event.refreshfailed".
Definition MsgNoticeOff : string := "notice.off".
Definition MsgNoticeOn : string := "notice.on".
Definition MsgNoticeConfigSaved : string := "notice.configsaved".
Definition MsgNoticeConfigReconn : string := "notice.configreconnected".
Definition MsgNoticeHotspotSaved : string := "notice.hotspotsaved".
Definition MsgNoticeHotspotRenamed : string := "notice.hotspotrenamed".
Definition MsgNoticeAdvancedSaved : string := "notice.advancedsaved".
Definition MsgNoConfigYet : string := "power.noconfig.headline".
Definition MsgNoConfigYetAdvice : string := "power.noconfig.advice".
Definition MsgNoHotspotYet : string := "power.nohotspot.headline".
Definition MsgNoHotspotYetAdvice : string := "power.nohotspot.advice".
Definition MsgSSIDMissing : string := "hotspot.noname.headline".
Definition MsgSSIDMissingAdvice : string := "hotspot.noname.advice".
Definition MsgSSIDTooLong : string := "hotspot.toolong.headline".
Definition MsgSSIDTooLongAdvice : string := "hotspot.toolong.advice".
Definition MsgSSIDBadChars : string := "hotspot.badchars.headline".
Definition MsgSSIDBadCharsAdvice : string := "hotspot.badchars.advice".
Definition MsgSSIDSpaces : string := "hotspot.spaces.headline".
Definition MsgSSIDSpacesAdvice : string := "hotspot.spaces.advice".
Definition MsgPassTooShort : string := "hotspot.short.headline".
Definition MsgPassTooShortAdvice : string := "hotspot.short.advice".
Definition MsgPassTooLong : string := "hotspot.long.headline".
Definition MsgPassTooLongAdvice : string := "hotspot.long.advice".
Definition MsgPassBadChars : string := "hotspot.passchars.headline".
Definition MsgPassBadCharsAdvice : string := "hotspot.passchars.advice".
Definition MsgPassRefused : string := "hotspot.refused.headline".
Definition MsgPassRefusedAdvice : string := "hotspot.refused.advice".
Definition MsgAdvBadInternet : string := "adv.badinternet.headline".
Definition MsgAdvBadInternetAdvice : string := "adv.badinternet.advice".
Definition MsgAdvBadHotspot : string := "adv.badhotspot.headline".
Definition MsgAdvBadHotspotAdvice : string := "adv.badhotspot.advice".
Definition MsgAdvNoAP : string := "adv.noap.headline".
Definition MsgAdvNoAPAdvice : string := "adv.noap.advice".
Definition MsgAdvBadChannel : string := "adv.badchannel.headline".
Definition MsgAdvBadChannelAdvice : string := "adv.badchannel.advice".
Definition MsgAdvChannelNaN : string := "adv.channelnan.headline".
Definition MsgAdvBadBand : string := "adv.badband.headline".
Definition MsgAdvBadBandAdvice : string := "adv.badband.advice".
Definition MsgAdvBadCountry : string := "adv.badcountry.headline".
Definition MsgAdvBadCountryAdvice : string := "adv.badcountry.advice".
Definition MsgAdvBadSubnet : string := "adv.badsubnet.headline".
Definition MsgAdvBadSubnetAdvice : string := "adv.badsubnet.advice".
Definition MsgAdvSubnetV4 : string := "adv.subnetv4.headline".
Definition MsgAdvSubnetV4Advice : string := "adv.subnetv4.advice".
Definition MsgAdvSubnetSmall : string := "adv.subnetsmall.headline".
Definition MsgAdvSubnetSmallAdvice : string := "adv.subnetsmall.advice".
Definition MsgAdvBadLogLevel : string := "adv.badloglevel.headline".
Definition MsgAdvBadLogLevelAdvice : string := "adv.badloglevel.advice".
Definition MsgSaveConfigFailed : string := "error.saveconfig.headline".
Definition MsgSaveHotspotFailed : string := "error.savehotspot.headline".
Definition MsgSaveAdvancedFailed : string := "error.saveadvanced.headline".
Definition MsgSaveFailedAdvice : string := "error.save.advice".
Definition MsgTileStatus : string := "tile.status".
Definition MsgTileDevices : string := "tile.devices".
Definition MsgTileConfig : string := "tile.config".
Definition MsgTileUptime : string := "tile.uptime".
Definition MsgTileConfigNone : string := "tile.config.none".
Definition MsgTileUptimeOff : string := "tile.uptime.off".
Definition MsgUptimeJustNow : string := "uptime.justnow".
Definition MsgUptimeMinutes : string := "uptime.minutes".
Definition MsgUptimeHours : string := "uptime.hours".
Definition MsgUptimeDays : string := "uptime.days".
Definition MsgEventsHeading : string := "events.heading".
Definition MsgEventsEmpty : string := "events.empty".
Definition MsgEventsNote : string := "events.note".
Definition MsgEventSignedIn : string := "event.signedin".
Definition MsgEventSwitchedOn : string := "event.switchedon".
Definition MsgEventSwitchedOff : string := "event.switchedoff".
Definition MsgEventConnected : string := "event.connected".
Definition MsgEventDisconnected : string := "event.disconnected".
Definition MsgEventStartFailed : string := "event.startfailed".
Definition MsgEventConfigAdded : string := "event.configadded".
Definition MsgEventConfigChanged : string := "event.configchanged".
Definition MsgEventHotspotNamed : string := "event.hotspotnamed".
Definition MsgEventAdvancedSaved : string := "event.advancedsaved".

(** ** The catalogues *)

Definition messagesFA_1 : list (string * string) := [
  (MsgSNISpoofHeading, "ضد DPI (عبور از DPI)");
  (MsgTCPSplit, "تقسیم TCP");
  (MsgTLSRecordSplit, "تقسیم رکورد TLS");
  (MsgSplitHint, "هر گزینه مستقل است؛ برای خاموش کردن جعل SNI، نام را خالی بگذارید. تقسیم فقط برای TLS روی TCP است و ممکن است با بعضی سرورها سازگار نباشد. پس از ذخیره، اتصال دوباره برقرار می‌شود.");
  (MsgSNISpoofLabel, "نام جعلی سرور");
  (MsgSNISpoofHint, "پیش از اتصال اصلی، یک پیام آغاز TLS با نام جعلی می‌فرستد. نام سرور در تنظیمات شما تغییر نمی‌کند. برای خاموش کردن، این کادر را خالی بگذارید. به اتصال TCP با IPv4 نیاز دارد.");
  (MsgSNISpoofSave, "ذخیرهٔ تنظیمات ضد DPI");
  (MsgSNISpoofSaved, "تنظیمات ضد DPI ذخیره شد.");
  (MsgSNIStateOn, "روشن");
  (MsgSNIStateOff, "خاموش");
  (MsgSNIActiveLabel, "ضد DPI");
  (MsgSNIActiveName, "نام جعلی");
  (MsgSNISpoofInvalid, "یک نام دامنه با حداکثر 219 نویسهٔ ASCII وارد کنید، یا برای خاموش کردن کادر را خالی بگذارید.");
  (MsgSNISpoofUnsupported, "این گزینه‌ها به VLESS، VMess یا Trojan روی انتقال پشتیبانی‌شدهٔ IPv4 TCP نیاز دارند. تقسیم فقط برای TLS معمولی است و برای REALITY فعال نیست. جعل SNI در Windows ARM64 در دسترس نیست.");
  (MsgSNISpoofUnavailable, "جعل SNI شروع نشد. نصب ابزار دریافت بسته و دسترسی سرویس را بررسی کنید. در ویندوز، بستهٔ x64 دارای WinDivert را نصب کنید.");
  ("app.name", "Caspian");
  ("nav.skip", "رفتن به بخش اصلی");
  ("nav.signout", "خروج");
  ("nav.outside", "دیده‌بان شبکه");
  ("nav.back", "بازگشت به صفحه اصلی");
  ("footer.note", "این صفحه از خود همین دستگاه می‌آید و به خودی خود چیزی از اینترنت نمی‌گیرد.");
  ("footer.developer", "توسعه‌دهنده: ایمان سمیع زاده");
  ("footer.github", "پروژه در GitHub");
  ("lang.label", "زبان");
  ("lang.apply", "اعمال");
  ("status.heading", "وضعیت اتصال");
  ("status.connected", "متصل");
  ("status.notconnected", "متصل نیست");
  ("status.off", "خاموش");
  ("status.starting", "در حال اتصال");
  ("status.notworking", "کار نمی‌کند");
  ("status.noconfig", "هنوز هیچ کانفیگی اضافه نشده است.");
  ("status.using", "در حال استفاده از %s.");
  ("status.unreadable", "کاسپین نمی‌تواند کانفیگ شما را بخواند.");
  ("status.localproxy", "پراکسی محلی");
  ("power.on", "روشن کن");
  ("power.off", "خاموش کن");
  ("tile.status", "اتصال");
  ("tile.devices", "دستگاه‌ها");
  ("tile.config", "کانفیگ");
  ("tile.uptime", "مدت روشن بودن");
  ("tile.config.none", "ندارد");
  ("tile.uptime.off", "روشن نیست");
  ("uptime.justnow", "همین الان");
  ("uptime.minutes", "%d دقیقه");
  ("uptime.hours", "%d ساعت");
  ("uptime.days", "%d روز");
  ("wifi.heading", "وای‌فای شما");
  ("wifi.qr.caption", "دوربین گوشی را روی این تصویر بگیرید تا وصل شود.");
  ("wifi.qr.failed", "تصویر اتصال ساخته نشد. نام و رمز پایین را دستی وارد کنید.");
  ("wifi.name", "نام شبکه");
  ("wifi.password", "رمز شبکه");
  ("wifi.intro", "برای هات‌اسپات یک نام و یک رمز بگذارید. گوشی و لپ‌تاپ شما با همین‌ها به آن وصل می‌شوند.");
  ("wifi.change", "تغییر نام یا رمز وای‌فای");
  ("wifi.form.name", "نام وای‌فای");
  ("wifi.form.password", "رمز وای‌فای");
  ("wifi.form.hint", "دست‌کم 8 کاراکتر. رمزی که در کادر پر شده را همین دستگاه ساخته و انتخاب خوبی است. اگر رمز خودتان را می‌خواهید، روی آن بنویسید.");
  ("wifi.form.save", "ذخیره نام و رمز وای‌فای");
  ("devices.none", "هنوز دستگاهی وصل نشده است");
  ("devices.one", "1 دستگاه متصل است");
  ("devices.many", "%d دستگاه متصل است");
  ("devices.unreadable", " (ممکن است بیشتر باشد؛ بخشی از سابقه خوانده نشد)");
  ("config.heading", "کانفیگ شما");
  ("config.none", "کاسپین برای وصل شدن، به کانفیگی که به شما داده‌اند نیاز دارد.");
  ("config.add", "افزودن کانفیگ");
  ("config.replace", "جایگزین کردن کانفیگ");
  ("config.paste.label", "تمام کانفیگی را که به شما داده‌اند اینجا پیست کنید");
  ("config.paste.hint", "کاسپین این متن را هرگز به شما پس نشان نمی‌دهد و در هیچ گزارشی نمی‌نویسد.");
  ("config.placeholder", "اینجا پیست کنید");
  ("config.name.label", "یک نام برای آن، تا بدانید کدام است (اختیاری)");
  ("config.submit", "افزودن این کانفیگ");
  ("config.entries.heading", "این کانفیگ چند مورد دارد. انتخاب کنید کاسپین از کدام استفاده کند.");
  ("config.entries.number", "مورد %d");
  ("config.entries.submit", "از این مورد استفاده کن");
  ("config.entries.dropped.one", "یک خط از متن خوانده نشد و کنار گذاشته شد.");
  ("config.entries.dropped.many", "%d خط از متن خوانده نشد و کنار گذاشته شد.");
  ("config.entries.reset", "موردی که انتخاب شده بود دیگر در فهرست نیست، بنابراین کاسپین از مورد اول استفاده می‌کند.");
  ("config.subscription.label", "نشانی اشتراک از ارائه‌دهنده شما (اختیاری)");
  ("config.subscription.hint", "یک نشانی https. کاسپین فقط وقتی دکمه را بزنید و فقط از درون تونل آن را می‌گیرد.");
  ("config.subscription.set", "یک نشانی اشتراک ذخیره شده است.");
  ("config.refresh.button", "تازه‌سازی از ارائه‌دهنده");
  ("config.refresh.disabled", "اول کاسپین را روشن کنید. تازه‌سازی از درون تونل می‌گذرد، پس به یک اتصال برقرار نیاز دارد.");
  ("refresh.line", "%s تازه شد، %s.");
  ("refresh.when.justnow", "همین حالا");
  ("refresh.when.minutes", "%d دقیقه پیش");
  ("refresh.when.hours", "%d ساعت پیش");
  ("refresh.when.days", "%d روز پیش");
  ("refresh.entries.one", "یک مورد");
  ("refresh.entries.many", "%d مورد");
  ("refresh.used", "%s از %s مصرف شده است.");
  ("refresh.expires", "تاریخ انقضا %s.");
  ("detected.line", "اینترنت: %s. هات‌اسپات: %s.");
  ("detected.notfound", "پیدا نشد")].

Definition messagesFA_2 : list (string * string) := [
  ("kind.ethernet", "کابل شبکه");
  ("kind.builtinwifi", "وای‌فای داخلی");
  ("kind.usbwifi", "آداپتور وای‌فای USB");
  ("kind.wifi", "وای‌فای");
  ("events.heading", "رویدادها");
  ("events.empty", "هنوز رویدادی ثبت نشده است.");
  ("events.note", "کاسپین این فهرست را فقط در حافظه نگه می‌دارد. با راه‌اندازی دوباره دستگاه پاک می‌شود.");
  ("event.signedin", "کسی وارد این صفحه شد.");
  ("event.switchedon", "کاسپین روشن شد.");
  ("event.switchedoff", "کاسپین خاموش شد.");
  ("event.connected", "اتصال برقرار شد.");
  ("event.disconnected", "اتصال قطع شد.");
  ("event.startfailed", "کاسپین تلاش کرد وصل شود و نتوانست.");
  ("event.configadded", "یک کانفیگ اضافه شد.");
  ("event.configchanged", "کانفیگ عوض شد.");
  ("event.configrefreshed", "کانفیگ از ارائه‌دهنده تازه شد.");
  ("event.refreshfailed", "تازه‌سازی از ارائه‌دهنده کامل نشد.");
  ("event.hotspotnamed", "نام و رمز وای‌فای عوض شد.");
  ("event.advancedsaved", "تنظیمات پیشرفته ذخیره شد.");
  ("advanced.show", "نمایش تنظیمات پیشرفته");
  ("advanced.hide", "پنهان کردن تنظیمات پیشرفته");
  ("advanced.heading", "پیشرفته");
  ("connections.heading", "اتصال اینترنت و هات‌اسپات");
  ("connections.hint", "اینترنت را از کابل شبکه یا وای‌فای بگیرید و با وای‌فای داخلی یا USB به اشتراک بگذارید. استفاده هم‌زمان از یک وای‌فای برای هر دو کار به پشتیبانی سخت‌افزار و درایور نیاز دارد. انتخاب خودکار برای شروع مناسب است. باند ۲٫۴ گیگاهرتز برای دستگاه‌های قدیمی مناسب‌تر است؛ باند ۵ به پشتیبانی آداپتور نیاز دارد.");
  ("connections.apply", "ابتدا اتصال اینترنت را برقرار کنید. برای اعمال تغییرات، ذخیره کنید و کلید اصلی را خاموش و دوباره روشن کنید. هنگام خاموش بودن، اتصال دستگاه‌های متصل قطع می‌شود.");
  ("advanced.hint", "همه این‌ها را کاسپین برای شما انتخاب کرده است. فقط وقتی چیزی را عوض کنید که بدانید چرا. هر کادر را خالی بگذارید تا کاسپین دوباره خودش تصمیم بگیرد.");
  ("advanced.internet", "کدام اتصال به اینترنت می‌رسد");
  ("advanced.hotspotiface", "کدام آداپتور هات‌اسپات را می‌سازد");
  ("advanced.channel", "کانال");
  ("advanced.band", "باند");
  ("advanced.country", "کشور");
  ("advanced.country.hint", "پیش‌فرض، تشخیص خودکار است: این کادر را خالی بگذارید. اگر تشخیص انجام نشد، کد دوحرفی کشور واقعی محل دستگاه را وارد و ذخیره کنید، سپس دوباره تلاش کنید. برای بازگشت به تشخیص خودکار، کادر را خالی کنید.");
  ("advanced.subnet", "شبکه هات‌اسپات");
  ("advanced.subnet.hint", "محدوده آدرس‌هایی که به دستگاه‌های وصل‌شده داده می‌شود. کاسپین محدوده‌ای را انتخاب می‌کند که با شبکه فعلی این دستگاه تداخل نداشته باشد.");
  ("advanced.loglevel", "نرم‌افزار اتصال چقدر جزئیات ثبت کند");
  ("advanced.loglevel.hint", "کاسپین پیش از نمایش این خط‌ها، کلیدها و رمزها را از آن‌ها پاک می‌کند.");
  ("advanced.panelonlan", "این صفحه از شبکه‌ای که این دستگاه به آن وصل است هم باز شود");
  ("advanced.panelonlan.hint", "به‌طور پیش‌فرض خاموش است. این صفحه همیشه از خود هات‌اسپات در دسترس است.");
  ("advanced.save", "ذخیره این تنظیمات");
  ("advanced.auto", "کاسپین تصمیم بگیرد (الان: %s)");
  ("advanced.auto.plain", "کاسپین تصمیم بگیرد");
  ("advanced.channelpinned", "این آداپتور هر دو کار را با هم انجام می‌دهد. پس هات‌اسپات باید روی همان کانالی باشد که این دستگاه برای اینترنت خودش استفاده می‌کند. یک آداپتور وای‌فای USB این محدودیت را برمی‌دارد.");
  ("advanced.cannothost", "نمی‌تواند هات‌اسپات بسازد");
  ("advanced.inuse", "در حال استفاده");
  ("advanced.fixed.heading", "برای شما تعیین شده و اینجا قابل تغییر نیست");
  ("advanced.dns.label", "DNS دستگاه‌های شما");
  ("advanced.dns.value", "روی همین دستگاه پاسخ داده می‌شود و جواب از داخل تونل می‌آید. اگر دستگاهی DNS ثابت خودش را داشته باشد، درخواست‌هایش به همین‌جا هدایت می‌شود و بیرون نمی‌رود.");
  ("advanced.drop.label", "اگر تونل قطع شود");
  ("advanced.drop.value", "ترافیک دستگاه‌های شما متوقف می‌شود و از راه دیگری بیرون نمی‌رود.");
  ("advanced.config.heading", "آنچه کاسپین از کانفیگ شما خواند");
  ("advanced.config.kind", "نوع");
  ("advanced.config.server", "سرور");
  ("advanced.config.transport", "روش انتقال");
  ("advanced.config.security", "امنیت");
  ("advanced.config.sni", "نام سرور");
  ("advanced.config.fingerprint", "اثر انگشت");
  ("advanced.config.flow", "flow");
  ("advanced.reality.publickey", "کلید عمومی REALITY");
  ("advanced.reality.shortid", "شناسه کوتاه REALITY");
  ("advanced.reality.pqv", "کلید تأیید پساکوانتومی");
  ("advanced.config.count", "کاسپین %d مورد پیدا کرد و از مورد %d استفاده می‌کند.");
  ("advanced.present", "هست");
  ("advanced.absent", "نیست");
  ("advanced.notset", "تنظیم نشده");
  ("advanced.nosecrets", "هیچ کلید، رمز یا شناسه‌ای از کانفیگ شما نه اینجا و نه هیچ جای دیگر این صفحه نشان داده نمی‌شود.");
  ("advanced.log.heading", "گزارش نرم‌افزار اتصال");
  ("advanced.log.phase", "وضعیت تونل: %s.");
  ("advanced.log.reason", "آخرین دلیل:");
  ("advanced.log.dropped", "کاسپین %d خط قدیمی‌تر را دور ریخته است، بنابراین این همه سابقه نیست.");
  ("advanced.log.empty", "هنوز چیزی ثبت نشده است.");
  ("advanced.band.24", "2.4 گیگاهرتز (دورتر می‌رسد، کندتر است)");
  ("advanced.band.5", "5 گیگاهرتز (سریع‌تر، برد کمتر)");
  ("phase.stopped", "خاموش");
  ("phase.starting", "در حال شروع");
  ("phase.running", "در حال کار");
  ("phase.failed", "ناموفق");
  ("login.title", "ورود به کاسپین");
  ("login.heading", "ورود");
  ("login.password", "رمز این صفحه");
  ("login.submit", "ورود");
  ("login.hint", "رمز پنل را که هنگام نصب چاپ شد یا در راه‌اندازی انتخاب کردید وارد کنید.");
  ("login.recovery.unix", "لینوکس / مک");
  ("login.recovery.windows", "ویندوز (PowerShell)");
  ("login.recovery", "رمزتان را فراموش کرده‌اید؟");
  ("login.recovery.help", "روی دستگاه کاسپین ترمینال باز کنید یا با SSH به آن وصل شوید. در ویندوز PowerShell را با دسترسی مدیر باز کنید. این دستور را اجرا کنید:");
  ("login.recovery.result", "این دستور رمز تازهٔ پنل را چاپ و پنل را دوباره اجرا می‌کند. تنظیمات وای‌فای و پراکسی حفظ می‌شوند. با رمز تازه وارد شوید.");
  ("login.wrong.headline", "این رمز درست نیست.");
  ("login.wrong.advice", "دوباره امتحان کنید.");
  ("login.toomany.headline", "رمز اشتباه، بیش از حد.");
  ("login.toomany.advice", "حدود %s صبر کنید و دوباره امتحان کنید. چیزی خراب نشده و هیچ چیز برای همیشه قفل نشده است.");
  ("login.corrupt.headline", "کاسپین نمی‌تواند سابقه رمز خودش را بخواند، بنابراین نمی‌تواند رمز شما را بررسی کند.");
  ("login.corrupt.advice", "این ایراد از خود دستگاه است، نه از چیزی که تایپ کردید. در مک از Reset Password در برنامه Caspian، و در دستگاه‌های دیگر از ابزار بازیابی رمز نصب‌کننده استفاده کنید.");
  ("password.heading", "تغییر رمز این صفحه");
  ("password.hint", "برای تغییر رمز، رمز فعلی را وارد کنید. بعد از تغییر، همه نشست‌های قبلی خارج می‌شوند.");
  ("password.current", "رمز فعلی");
  ("password.new", "رمز تازه");
  ("password.confirm", "تکرار رمز تازه");
  ("password.save", "تغییر رمز");
  ("password.wrong", "رمز فعلی درست نیست.");
  ("password.short", "رمز تازه خیلی کوتاه است.");
  ("password.mismatch", "دو رمز تازه یکی نیستند.");
  ("password.savefailed", "ذخیره رمز تازه ممکن نشد.");
  ("identifiers.heading", "ساخت شناسه‌های آزمایشی")].

Definition messagesFA_3 : list (string * string) := [
  ("identifiers.hint", "بعضی ارائه‌دهندگان کانفیگ پیش از صدور کانفیگ یک شناسه می‌خواهند. کاسپین می‌تواند برای آن فرم یک UUID تصادفی نسخه ۴ و یک عدد ۱۵ رقمی با قالب IMEI بسازد.");
  ("identifiers.uuid", "UUID تصادفی نسخه ۴");
  ("identifiers.imei", "عدد آزمایشی با قالب IMEI");
  ("identifiers.empty", "دکمه ساخت را بزنید");
  ("identifiers.generate", "ساخت مقدارهای تازه");
  ("identifiers.copy", "کپی");
  ("identifiers.working", "در حال ساخت روی همین دستگاه…");
  ("identifiers.ready", "مقدارهای تازه ساخته شد. کاسپین آن‌ها را ذخیره نمی‌کند.");
  ("identifiers.failed", "ساخت مقدارها ممکن نشد. دوباره امتحان کنید.");
  ("identifiers.copied", "کپی شد.");
  ("identifiers.warning", "مقدار شبیه IMEI ساختگی است. از این کامپیوتر یا هیچ گوشی‌ای خوانده نشده، چیزی را در دستگاه تغییر نمی‌دهد و نباید به‌عنوان هویت واقعی شبکه موبایل استفاده شود. ممکن است ارائه‌دهنده مقدار آزمایشی را نپذیرد.");
  ("setup.title", "راه‌اندازی کاسپین");
  ("setup.heading", "راه‌اندازی کاسپین");
  ("setup.notice", "این دستگاه هنوز راه‌اندازی نشده است. برای این صفحه یک رمز انتخاب کنید.");
  ("setup.intro", "برای این صفحه یک رمز انتخاب کنید. این رمز از کلید روشن و خاموش، کانفیگ شما و رمز وای‌فای محافظت می‌کند. جلوی هر کس دیگری را که به این دستگاه دسترسی دارد می‌گیرد.");
  ("setup.password", "رمز این صفحه");
  ("setup.confirm", "دوباره تایپ کنید");
  ("setup.hint", "دست‌کم 8 کاراکتر. سه کلمه بی‌ربط به هم، هم راحت‌تر یادتان می‌ماند و هم خیلی سخت‌تر حدس زده می‌شود.");
  ("setup.submit", "ثبت رمز و ادامه");
  ("setup.writeitdown", "آن را جایی بنویسید. هیچ چیز روی این دستگاه نمی‌تواند آن را بازیابی کند و هیچ چیز اینجا نمی‌تواند برایتان ایمیل کند، چون کاسپین با هیچ‌کس حرف نمی‌زند.");
  ("setup.short.headline", "این رمز خیلی کوتاه است.");
  ("setup.short.advice", "دست‌کم 8 کاراکتر بگذارید. سه کلمه بی‌ربط به هم، هم راحت‌تر یادتان می‌ماند و هم خیلی سخت‌تر حدس زده می‌شود.");
  ("setup.mismatch.headline", "دو رمز یکی نیستند.");
  ("setup.mismatch.advice", "در هر دو کادر دوباره تایپش کنید.");
  ("setup.done.headline", "این دستگاه قبلاً راه‌اندازی شده است.");
  ("setup.done.advice", "با رمز همین صفحه وارد شوید.");
  ("time.seconds", "%d ثانیه");
  ("time.minute", "یک دقیقه");
  ("time.minutes", "%d دقیقه");
  ("problem.notfound.headline", "در این نشانی صفحه‌ای نیست.");
  ("problem.notfound.advice", "به صفحه اصلی برگردید.");
  ("problem.badform.headline", "کاسپین نتوانست آن فرم را بخواند.");
  ("problem.badform.advice", "برگردید و دوباره امتحان کنید.");
  ("problem.crosssite.headline", "آن درخواست از یک سایت دیگر آمده بود، بنابراین کاسپین نادیده‌اش گرفت.");
  ("problem.crosssite.advice", "این صفحه را مستقیم باز کنید و دوباره امتحان کنید.");
  ("problem.internal.headline", "چیزی در داخل کاسپین اشتباه پیش رفت.");
  ("problem.internal.advice", "صفحه را دوباره بارگذاری کنید. اگر باز هم تکرار شد، دستگاه را دوباره راه‌اندازی کنید.");
  ("problem.detail.label", "چیزی که نرم‌افزار اتصال گفت:");
  ("problem.parse.headline", "کاسپین نتوانست آن لینک را بخواند.");
  ("problem.engine.headline", "کاسپین آن لینک را خواند، اما همان‌طور که هست قابل استفاده نیست.");
  ("problem.engine.advice", "یکی از تنظیمات داخل آن، تنظیمی نیست که نرم‌افزار اتصال بپذیرد. از کسی که لینک را به شما داده بخواهید دوباره بفرستد. در حالت پیشرفته می‌بینید که نرم‌افزار چه گفت.");
  ("problem.engine.insecure.headline", "این لینک از کاسپین می‌خواهد بررسی هویت سرور را نادیده بگیرد، و نرم‌افزار اتصال دیگر این را نمی‌پذیرد.");
  ("problem.engine.insecure.advice", "از کسی که لینک را به شما داده، لینکی بخواهید که این بررسی را نادیده نگیرد. در حالت پیشرفته می‌بینید که نرم‌افزار چه گفت.");
  ("problem.engine.cipher.headline", "این لینک از یک روش رمزنگاری قدیمی استفاده می‌کند که نرم‌افزار اتصال دیگر از آن پشتیبانی نمی‌کند.");
  ("problem.engine.cipher.advice", "از کسی که لینک را به شما داده، لینکی با روش جدیدتر مانند aes-256-gcm بخواهید. در حالت پیشرفته می‌بینید که نرم‌افزار چه گفت.");
  ("problem.server.headline", "کاسپین آن لینک را خواند و امتحان کرد، اما سرور جواب نداد.");
  ("problem.server.advice", "خود لینک سالم است. اول ببینید همین دستگاه هنوز اینترنت خودش را دارد، بعد دوباره امتحان کنید. اگر دارد، ممکن است سرور خاموش باشد یا کسی که کانفیگ را به شما داده آن را جابه‌جا کرده باشد.");
  ("problem.parse.empty.headline", "چیزی برای افزودن نبود.");
  ("problem.parse.empty.advice", "تمام کانفیگی را که به شما داده‌اند در کادر پیست کنید و بعد دکمه افزودن را بزنید.");
  ("problem.parse.scheme.advice", "این نوع لینک را این دستگاه پشتیبانی نمی‌کند. کاسپین لینک‌هایی را می‌شناسد که با vless، vmess، ss، socks، trojan یا hysteria2 شروع می‌شوند.");
  ("problem.parse.nolink.advice", "در چیزی که پیست کردید هیچ لینک پروکسی‌ای پیدا نشد. تمام آن را از اولین حرف تا آخرین حرف دوباره کپی کنید و یک بار دیگر پیست کنید.");
  ("problem.parse.uuid.advice", "شناسه داخل آن ناقص است، و این وقتی پیش می‌آید که لینک دو تکه کپی شده باشد. لینک را یک‌باره کپی کنید و همه‌اش را پیست کنید.");
  ("problem.parse.address.advice", "در آن نوشته نشده به کدام سرور وصل شود. از کسی که لینک را به شما داده یک نسخه تازه بخواهید.");
  ("problem.parse.port.advice", "شماره پورت قابل استفاده‌ای ندارد. از کسی که لینک را به شما داده یک نسخه تازه بخواهید.");
  ("problem.parse.reality.advice", "یکی از تنظیمات امنیتی آن شکل درستی ندارد، پس احتمالاً بخشی از آن هنگام کپی از دست رفته است. از کسی که لینک را به شما داده یک نسخه تازه بخواهید.");
  ("problem.parse.transport.advice", "این لینک از روش اتصالی استفاده می‌کند که این نسخه کاسپین دیگر ندارد. از کسی که لینک را به شما داده بخواهید لینکی بدهد که از xhttp استفاده کند، و اگر نوع QUIC را می‌خواهید با alpn=h3.");
  ("problem.parse.other.advice", "تمام آن را از اولین حرف تا آخرین حرف دوباره کپی کنید و یک بار دیگر پیست کنید.");
  ("fault.noapadapter", "هیچ آداپتوری روی این دستگاه نمی‌تواند هات‌اسپات بسازد. یک آداپتور وای‌فای USB به آن وصل کنید.");
  ("fault.interfacebusy", "آداپتور وای‌فایی که کاسپین برای هات‌اسپات لازم دارد هنوز به یک شبکه دیگر وصل است. کاسپین آن را از دست آن شبکه نگرفت و متوقف شد. آن شبکه را روی این دستگاه قطع کنید، یا یک آداپتور وای‌فای USB وصل کنید. بعد کاسپین را دوباره روشن کنید.");
  ("fault.portinuse", "برنامهٔ دیگری روی این کامپیوتر از پورت ۱۰۸۰۸ استفاده می‌کند، و کاسپین برای اتصال به همین پورت نیاز دارد.");
  ("fault.portinuse.advice", "برنامه‌های پراکسی یا VPN دیگر را ببندید و کاسپین را دوباره روشن کنید.");
  ("fault.notrunning", "کاسپین روشن نیست، پس ترافیکی برای قطع کردن وجود ندارد. اول آن را روشن کنید.");
  ("event.trafficcut", "ترافیک دستگاه‌ها قطع شد.");
  ("event.trafficrestored", "ترافیک دستگاه‌ها دوباره وصل شد.");
  ("event.wrongpassword", "یک بار رمز اشتباه برای این صفحه زده شد.");
  ("notice.cut", "ترافیک دستگاه‌ها قطع شد.");
  ("notice.restored", "ترافیک دستگاه‌ها دوباره وصل شد.");
  ("notice.recovered", "کاسپین همه‌چیز را به حالت اول برگرداند و دوباره بالا آمد.");
  ("advanced.recover.heading", "اگر چیزی گیر کرد");
  ("advanced.recover.hint", "این دکمه همه‌چیز را می‌خواباند. بعد هر تغییری را که کاسپین در شبکه این دستگاه داده بود پس می‌گیرد و با همین تنظیمات دوباره بالا می‌آورد. حدود 20 ثانیه طول می‌کشد. دستگاه را دوباره راه‌اندازی نمی‌کند و همین صفحه در تمام مدت باز می‌ماند.");
  ("advanced.recover.button", "برگرداندن و دوباره راه‌اندازی");
  ("status.cut", "ترافیک قطع است");
  ("next.addconfig", "کار بعدی: کانفیگی را که به شما داده‌اند در بخش «کانفیگ شما» پیست کنید. بدون آن کاسپین جایی برای وصل شدن ندارد.");
  ("next.setwifi", "کار بعدی: یک نام و رمز برای وای‌فای این دستگاه انتخاب کنید. همین شبکه‌ای است که گوشی و لپ‌تاپتان به آن وصل می‌شوند.");
  ("next.switchon", "کار بعدی: دکمه روشن کردن را بزنید. چند ثانیه طول می‌کشد.");
  ("next.join", "کار بعدی: با دوربین گوشی کد تصویری پایین را بگیرید تا به وای‌فای این دستگاه وصل شوید. هر دستگاهی که وصل شود از تونل بیرون می‌رود.");
  ("next.joined", "همه چیز کار می‌کند. دستگاه‌های وصل از تونل بیرون می‌روند.");
  ("next.resume", "ترافیک را خودتان قطع کرده‌اید. برای برگرداندنش دکمه «وصل دوباره ترافیک دستگاه‌ها» را بزنید.");
  ("next.problem", "کار بعدی: پیام بالا را بخوانید. تا وقتی آن درست نشود کاسپین بالا نمی‌آید.");
  ("next.starting", "کاسپین دارد وصل می‌شود. چند ثانیه صبر کنید. این صفحه خودش تازه می‌شود.");
  ("next.label", "حالا چه کار کنم");
  ("help.heading", "راهنما");
  ("help.title", "راهنمای کاسپین");
  ("help.what.heading", "این دستگاه چه کار می‌کند");
  ("help.what.body", "کاسپین با کانفیگی که خودتان دارید به یک سرور وصل می‌شود و همان اتصال را به شکل یک شبکه وای‌فای پخش می‌کند. هر دستگاهی که به این وای‌فای وصل شود از همان تونل بیرون می‌رود، بدون اینکه لازم باشد روی آن دستگاه چیزی نصب کنید.");
  ("help.flow.caption", "مسیر ترافیک: دستگاه شما، این دستگاه، تونل، سرور");
  ("help.flow.device", "دستگاه شما");
  ("help.flow.box", "این دستگاه");
  ("help.flow.tunnel", "تونل رمزگذاری‌شده");
  ("help.flow.server", "سرور شما");
  ("help.flow.note", "نقطه بالای دستگاه یعنی همین‌جا هم آدرس‌ها ترجمه می‌شوند: درخواست‌های DNS دستگاه‌های شما به همین دستگاه می‌آید و از داخل تونل جواب می‌گیرد، نه از شبکه‌ای که دستگاه روی آن نشسته است.");
  ("help.arrange.heading", "دو حالت سیم‌کشی");
  ("help.arrange.body", "کاسپین به دو چیز نیاز دارد: یک راه رسیدن به اینترنت، و یک آداپتور برای ساختن هات‌اسپات. کدام آداپتور کدام کار را بکند، خودتان انتخاب می‌کنید.");
  ("help.arrange.a.heading", "حالت یک: اینترنت از کابل");
  ("help.arrange.a.top", "کابل شبکه");
  ("help.arrange.a.bottom", "وای‌فای داخلی، هات‌اسپات");
  ("help.arrange.a.when", "ساده‌ترین حالت و پیشنهاد ما اگر کابل دارید. اینترنت از کابل می‌آید و وای‌فای داخلی هات‌اسپات می‌شود. وقتی کاسپین روشن است، وای‌فای داخلی دیگر به شبکه خانه وصل نیست، چون یک آداپتور نمی‌تواند هم‌زمان هر دو کار را بکند.");
  ("help.arrange.b.heading", "حالت دو: اینترنت از وای‌فای");
  ("help.arrange.b.top", "وای‌فای، به شبکه‌ای که اینترنت دارد")].

Definition messagesFA_4 : list (string * string) := [
  ("help.arrange.b.bottom", "آداپتور USB، هات‌اسپات");
  ("help.arrange.b.when", "برای جایی که کابل ندارید. یک آداپتور وای‌فای USB بزنید، اینترنت را از یکی از دو آداپتور بگیرید و هات‌اسپات را روی آن یکی بسازید. هر کدام می‌تواند هر نقشی داشته باشد و در تنظیمات پیشرفته انتخاب می‌کنید.");
  ("help.arrange.nounplug", "لازم نیست کابل را بکشید. اگر هم کابل وصل است و هم وای‌فای، در تنظیمات پیشرفته انتخاب کنید کدام اتصال به اینترنت برسد. کاسپین همان را برمی‌دارد، به شرطی که واقعاً اینترنت داشته باشد.");
  ("help.two.heading", "چرا دو کنترل هست");
  ("help.two.intro", "روی صفحه دو کنترل هست که هر دو می‌توانند اینترنت دستگاه‌های شما را قطع کنند. این دو چیزهای متفاوتی را قطع می‌کنند. پیش از آنکه با عجله یکی را بزنید، این بخش را بخوانید.");
  ("help.two.power.heading", "کلید: روشن و خاموش");
  ("help.two.power.body", "کلید کل دستگاه را روشن و خاموش می‌کند. با خاموش کردن، تونل بسته می‌شود. هات‌اسپات وای‌فای و سرویس آدرس‌دهی و نام‌یابی روی آن هم بسته می‌شود. اگر کاسپین رادیو را باز کرده باشد، دوباره آن را می‌بندد. پس شبکه وای‌فایی که دستگاه‌های شما به آن وصل بودند دیگر وجود ندارد و همه آن‌ها قطع می‌شوند. کاسپین هر تغییری را هم که در شبکه داده بود برمی‌گرداند و دستگاه به همان حالتی برمی‌گردد که کاسپین پیدایش کرده بود.");
  ("help.two.cut.heading", "ترافیک دستگاه‌ها: قطع و وصل");
  ("help.two.cut.body", "این کنترل فقط ترافیکی را قطع می‌کند که کاسپین برای دستگاه‌های شما عبور می‌دهد. چیز دیگری بسته نمی‌شود. تونل بالا می‌ماند. هات‌اسپات بالا می‌ماند، دستگاه‌های شما آدرس خود را نگه می‌دارند و وصل می‌مانند. همین صفحه روی یک دستگاه وصل باز می‌ماند، چون این صفحه ترافیکِ خودِ این دستگاه است، نه ترافیکی که از آن عبور می‌کند. با زدن «وصل دوباره ترافیک دستگاه‌ها» اینترنت دستگاه‌ها برمی‌گردد.");
  ("help.two.lockout", "اگر فقط یک گوشی دستتان باشد که به وای‌فای کاسپین وصل است و دستگاه را خاموش کنید، وای‌فای هم با آن می‌رود. گوشی از شبکه بیرون می‌افتد و دیگر نمی‌تواند همین صفحه را باز کند. این صفحه به‌طور پیش‌فرض فقط روی آدرس هات‌اسپات باز می‌شود. باز کردنش از شبکه محلی تا وقتی خودتان در تنظیمات پیشرفته روشنش نکنید خاموش است. کنترل ترافیک دستگاه‌ها این خطر را ندارد: وای‌فای بالا می‌ماند، گوشی وصل می‌ماند، همین صفحه را باز می‌کند و ترافیک را برمی‌گرداند.");
  ("help.two.which", "وقتی می‌خواهید ترافیک همین حالا بایستد و بعد خودتان برش گردانید، کنترل ترافیک دستگاه‌ها را بزنید. این همان توقف اضطراری است: فوری است، تأیید نمی‌خواهد، و برگرداندنش هزینه‌ای ندارد چون دستگاه‌ها لازم نیست دوباره به وای‌فای وصل شوند. وقتی کارتان با دستگاه تمام شده، یا می‌خواهید آداپتور وای‌فای به شبکه خودتان برگردد، کلید را بزنید. از کلید به‌عنوان توقف اضطراری روی گوشی‌ای که به هات‌اسپات وصل است استفاده نکنید.");
  ("help.two.restart", "قطع ترافیک فقط در حافظه نگه داشته می‌شود و در هیچ فایلی نوشته نمی‌شود، پس با راه‌اندازی دوباره دستگاه از بین می‌رود. کاسپین بعد از راه‌اندازی دوباره خودش روشن نمی‌شود، پس کلید را بزنید تا شروع کند. آن وقت ترافیک دستگاه‌ها دوباره برقرار است.");
  ("help.controls.heading", "هر دکمه چه کار می‌کند");
  ("help.controls.switch", "کل دستگاه را روشن و خاموش می‌کند: هم تونل، هم هات‌اسپات. با خاموش کردن، وای‌فای هم می‌رود و همه دستگاه‌های وصل قطع می‌شوند.");
  ("help.controls.cut", "ترافیک دستگاه‌ها را فوری قطع می‌کند و هات‌اسپات را روشن نگه می‌دارد. دستگاه‌ها وصل می‌مانند و همین صفحه را می‌بینند، ولی چیزی به اینترنت نمی‌رسد. راه‌اندازی دوباره این دستگاه این حالت را پاک می‌کند، ولی کاسپین خاموش بالا می‌آید، پس تا وقتی دکمه روشن کردن را نزنید ترافیک برنمی‌گردد.");
  ("help.controls.config", "لینکی که سرویس‌دهنده به شما داده. کاسپین آن را ذخیره می‌کند، هرگز به شما پس نشان نمی‌دهد و در هیچ گزارشی نمی‌نویسد. برای عوض کردن سرور، لینک تازه را جای آن بگذارید.");
  ("help.controls.wifi", "نام و رمز شبکه‌ای که این دستگاه پخش می‌کند. رمز دست‌کم 8 کاراکتر است. با تغییر آن، دستگاه‌های وصل یک بار قطع می‌شوند و باید دوباره وصل شوند.");
  ("help.controls.uplink", "کدام آداپتور اینترنت را می‌آورد. خالی بگذارید تا کاسپین خودش انتخاب کند. اگر انتخاب کنید، آن آداپتور باید همان لحظه اینترنت داشته باشد وگرنه کاسپین روشن نمی‌شود و می‌گوید چرا.");
  ("help.controls.hotspotiface", "کدام آداپتور هات‌اسپات را می‌سازد. باید آداپتور وای‌فای باشد و نمی‌تواند همان آداپتوری باشد که اینترنت را می‌آورد.");
  ("help.controls.channel", "کانال رادیویی هات‌اسپات. اگر اینترنت و هات‌اسپات روی یک آداپتور باشند، کانال به کانال شبکه‌ای که آن آداپتور به آن وصل است چسبیده و قابل انتخاب نیست.");
  ("help.controls.country", "کد دو حرفی کشور. تعیین می‌کند کدام کانال‌ها و چه توانی مجاز است. اگر اشتباه باشد ممکن است هات‌اسپات اصلاً بالا نیاید.");
  ("help.controls.subnet", "محدوده آدرسی که به دستگاه‌های وصل داده می‌شود. فقط وقتی عوض کنید که با شبکه فعلی خودتان تداخل داشته باشد.");
  ("help.controls.panelonlan", "اجازه می‌دهد همین صفحه از شبکه‌ای که دستگاه روی آن نشسته هم باز شود، نه فقط از هات‌اسپات. به‌طور پیش‌فرض خاموش است.");
  ("help.security.heading", "چه چیزی محافظت می‌شود و چه چیزی نه");
  ("help.security.does.heading", "کارهایی که این دستگاه واقعاً می‌کند");
  ("help.security.does.failclosed", "اگر تونل قطع شود، ترافیک دستگاه‌های شما متوقف می‌شود و از راه دیگری بیرون نمی‌رود. این قاعده به بودن تونل وابسته نیست: فقط نام هات‌اسپات و نام اتصال اینترنت را می‌شناسد، پس اگر تونل ناپدید شود هم باز نمی‌شود.");
  ("help.security.does.dns", "درخواست‌های DNS دستگاه‌های شما به همین دستگاه هدایت می‌شود و از داخل تونل جواب می‌گیرد. DNS روی TLS رد می‌شود و DNS روی QUIC دور انداخته می‌شود تا دستگاهی نتواند از کنار این مسیر رد شود.");
  ("help.security.does.egress", "وقتی کاسپین روشن است، خود این دستگاه هم نمی‌تواند مستقیم به اینترنت برود مگر برای چند کار مشخص: گرفتن آدرس، تنظیم ساعت، ترجمه نام، و رسیدن به سرور شما. پس تا وقتی روشن است، نمی‌توانید نرم‌افزار این دستگاه را به‌روز کنید.");
  ("help.security.does.isolation", "دستگاه‌های وصل به هات‌اسپات نمی‌توانند یکدیگر را ببینند. روی این دستگاه هم فقط به سرویس‌هایی می‌رسند که همین دستگاه به آن‌ها می‌دهد.");
  ("help.security.does.secrets", "کانفیگ شما هرگز روی صفحه نشان داده نمی‌شود و در هیچ گزارشی نوشته نمی‌شود. آدرس سرور از متن خطاها هم پاک می‌شود.");
  ("help.security.does.giveback", "اگر کاسپین آداپتور وای‌فای شما را برای هات‌اسپات بردارد، هر کاری که کرده را ثبت می‌کند و موقع خاموش شدن برعکسش را انجام می‌دهد، تا دستگاه دوباره به شبکه خودتان برگردد.");
  ("help.security.not.heading", "کارهایی که این دستگاه نمی‌کند");
  ("help.security.not.intro", "این فهرست کوتاه نشده تا خیالتان راحت شود. اگر به این دستگاه تکیه می‌کنید، این‌ها همان چیزهایی است که باید بدانید.");
  ("help.security.not.doh", "DNS روی HTTPS، روی پورت 443، از ترافیک عادی HTTPS قابل تشخیص نیست. چنین درخواستی از داخل تونل می‌رود، پس نشتی نیست. ولی این دستگاه آن را نمی‌بیند و نمی‌تواند درباره‌اش چیزی تضمین کند.");
  ("help.security.not.ipv6", "IPv6 برای دستگاه‌های شما همیشه بسته است. این یک تنظیم نیست: این نسخه هیچ مقدار دیگری را قبول نمی‌کند، چون دستگاهی که IPv6 کار دارد آن را به IPv4 ترجیح می‌دهد و از تونل بیرون می‌زند.");
  ("help.security.not.ownbox", "تضمین فقط درباره ترافیکی است که کاسپین برای دستگاه‌های شما عبور می‌دهد. ترافیک خود این دستگاه بیرون از آن تضمین است، چون نرم‌افزار اتصال باید از راه اینترنت به سرور شما برسد، وگرنه اصلاً تونلی وجود ندارد.");
  ("help.security.not.endpoints", "این دستگاه از دستگاه‌های شما در برابر خودشان محافظت نمی‌کند. اگر برنامه‌ای روی گوشی شما اطلاعات را لو بدهد، تونل آن را هم با همان دقت جابه‌جا می‌کند.");
  ("help.security.not.wifi", "هات‌اسپات با WPA2 محافظت می‌شود. هر کسی که رمز وای‌فای را داشته باشد می‌تواند وصل شود، پس رمز را مثل یک کلید در نظر بگیرید.");
  ("help.trouble.heading", "وقتی چیزی درست کار نمی‌کند");
  ("help.trouble.nossid.q", "اسم وای‌فای را نمی‌بینم");
  ("help.trouble.nossid.a", "اول ببینید بالای همین صفحه نوشته «متصل». اگر نوشته چیز دیگری، هات‌اسپات بالا نیامده و دلیلش در همان پیام است. اگر متصل است و باز هم چیزی نمی‌بینید، کانال و کد کشور را در تنظیمات پیشرفته نگاه کنید. کد کشور اشتباه می‌تواند رادیو را ساکت کند.");
  ("help.trouble.nointernet.q", "وصل شدم ولی اینترنت ندارم");
  ("help.trouble.nointernet.a", "وقتی تونل قطع شود، همین را می‌بینید و عمدی است: کاسپین ترافیک را متوقف می‌کند تا از راه دیگری بیرون نرود. بالای صفحه را نگاه کنید. اگر نوشته «ترافیک قطع است»، کسی دکمه قطع را زده و دکمه کناری‌اش آن را برمی‌گرداند.");
  ("help.trouble.slow.q", "کند است");
  ("help.trouble.slow.a", "همه ترافیک از یک اتصال و از یک سرور می‌گذرد، پس سرعت به آن سرور و به فاصله‌تان از آن بستگی دارد. اگر چند کانفیگ دارید، یکی دیگر را امتحان کنید. عوض کردن کانفیگ چند ثانیه طول می‌کشد.");
  ("help.trouble.lostpanel.q", "به این صفحه دسترسی ندارم");
  ("help.trouble.lostpanel.a", "از یک دستگاه وصل به هات‌اسپات باز کنید. اگر کاسپین روشن باشد این صفحه همیشه از روی هات‌اسپات باز می‌شود، حتی وقتی ترافیک قطع است. باز کردن آن از شبکه‌ای که خود دستگاه روی آن نشسته به‌طور پیش‌فرض خاموش است و در تنظیمات پیشرفته روشن می‌شود.");
  ("help.trouble.forgot.q", "رمز این صفحه را فراموش کرده‌ام");
  ("help.trouble.forgot.a", "بازیابی رمز فراموش‌شده به دسترسی به خود دستگاه نیاز دارد. در مک برنامه Caspian را باز کنید و Reset Password را بزنید؛ در دستگاه‌های دیگر از ابزار بازیابی رمز نصب‌کننده استفاده کنید. اگر هنوز رمز را می‌دانید، پس از ورود می‌توانید آن را در بخش رمز صفحه تغییر دهید.");
  ("cut.button", "قطع ترافیک دستگاه‌ها");
  ("cut.switchlabel", "ترافیک دستگاه‌ها");
  ("cut.restore", "وصل دوباره ترافیک دستگاه‌ها");
  ("cut.banner", "ترافیک دستگاه‌ها قطع است. دستگاه‌های شما هنوز به این وای‌فای وصل‌اند و می‌توانند همین صفحه را باز کنند، اما چیزی به اینترنت نمی‌رسد. راه‌اندازی دوباره این دستگاه این حالت را پاک می‌کند، ولی کاسپین خاموش بالا می‌آید، پس تا وقتی دکمه روشن کردن را نزنید ترافیک برنمی‌گردد.");
  ("action.working", "در حال انجام درخواست… صفحه همچنان قابل استفاده است. لطفاً دوباره دکمه را نزنید.");
  ("action.stopping", "در حال خاموش کردن هات‌اسپات و تونل… گوشی ارتباط با این صفحه را از دست می‌دهد. برای روشن کردن دوباره، پنل را روی خود دستگاه باز کنید.");
  ("action.failed", "پاسخ درخواست دریافت نشد؛ ممکن است هنوز در حال انجام باشد. قبل از تلاش دوباره، وضعیت را بررسی کنید. روی مک پنل محلی را باز کنید: 127.0.0.1:8088");
  ("action.stoppedremote", "پس از درخواست خاموش کردن، ارتباط با پنل قطع شد. این اتفاق هنگام خاموش شدن وای‌فای طبیعی است، اما نتیجه هنوز تأیید نشده. برای بررسی و روشن کردن دوباره، پنل را روی خود دستگاه باز کنید؛ روی مک: 127.0.0.1:8088");
  ("action.stale", "وضعیت زنده در دسترس نیست؛ اطلاعات نمایش‌داده‌شده ممکن است قدیمی باشد. ارتباط با دستگاه را بررسی کنید.");
  ("power.caption", "هات‌اسپات و تونل را خاموش می‌کند، نه خود کامپیوتر را. گوشی دسترسی به این صفحه را از دست می‌دهد. برای روشن کردن دوباره روی مک از 127.0.0.1:8088 استفاده کنید. برای قطع موقت اینترنت، کنترل ترافیک را بزنید تا وای‌فای و پنل روشن بمانند.");
  ("cut.caption", "فقط اینترنت دستگاه‌های وصل را قطع می‌کند. وای‌فای روشن می‌ماند و همین صفحه باز می‌ماند.");
  ("fault.radioblocked", "آداپتور بی‌سیم خاموش است. کاسپین تلاش کرد روشنش کند و نتوانست. بعضی دستگاه‌ها برای این کار یک کلید یا یک دکمه روی صفحه‌کلید دارند.");
  ("fault.nointernet", "خود این دستگاه به اینترنت وصل نیست. یک کابل شبکه به آن بزنید، یا آن را به یک شبکه وای‌فای وصل کنید تا کاسپین همان اتصال را به اشتراک بگذارد.");
  ("fault.channelrefused", "آداپتور بی‌سیم کانالی را که به آن داده شد قبول نکرد. وقتی یک آداپتور باید هر دو کار را انجام دهد، هات‌اسپات مجبور است روی همان کانالی باشد که این دستگاه برای اینترنت خودش استفاده می‌کند. یک آداپتور وای‌فای USB این محدودیت را برمی‌دارد.");
  ("fault.hotspotfailed", "هات‌اسپات روشن نشد. دستگاه را دوباره راه‌اندازی کنید و بعد یک بار دیگر امتحان کنید.");
  ("fault.dhcpfailed", "هات‌اسپات روشن شد، اما بخشی که به دستگاه‌های شما آدرس می‌دهد بالا نیامد. برای همین دستگاه‌ها شبکه را می‌بینند و نمی‌توانند به آن وصل شوند. دستگاه را دوباره راه‌اندازی کنید و بعد یک بار دیگر امتحان کنید.");
  ("fault.clock", "ساعت این دستگاه اشتباه است و تا وقتی درست نشود اتصال برقرار نمی‌شود. این ایراد از کانفیگ شما نیست. دستگاه را یک دقیقه به اینترنت وصل بگذارید تا ساعتش را تنظیم کند، بعد دوباره امتحان کنید.");
  ("fault.permission", "به کاسپین اجازه داده نشد تنظیمات شبکه این دستگاه را عوض کند. این ایراد از نحوه نصب کاسپین است، نه از کاری که شما کردید.");
  ("fault.softwaremissing", "نرم‌افزاری که کاسپین به آن نیاز دارد روی این دستگاه نصب نیست. نصب‌کننده کاسپین را دوباره اجرا کنید تا برگردد.");
  ("fault.windowstooold", "این کامپیوتر نسخه‌ای از ویندوز را اجرا می‌کند که نمی‌تواند جست‌وجوی نام‌ها را از درون اتصال محافظت‌شده بفرستد، بنابراین کاسپین روی آن روشن نمی‌شود. ویندوز ۱۰ نسخهٔ ۲۰۰۴، منتشرشده در سال ۲۰۲۰، اولین نسخه‌ای است که می‌تواند. ویندوز را به‌روز کنید و دوباره امتحان کنید. مشکل از کانفیگ شما یا از کاسپین نیست.");
  ("fault.unavailable", "سرویس پس‌زمینه کاسپین جواب نمی‌دهد، بنابراین چیزی روشن یا خاموش نمی‌شود. دستگاه را دوباره راه‌اندازی کنید. اگر باز هم درست نشد، نصب‌کننده کاسپین را دوباره اجرا کنید.");
  ("fault.ipv6unsupported", "فایل تنظیمات این دستگاه می‌گوید به دستگاه‌های شما IPv6 داده شود، و این نسخه نمی‌تواند IPv6 را از اتصال محافظت‌شده عبور دهد. این تنظیم در صفحه پیشرفته نیست و فقط با ویرایش دستی فایل تنظیمات عوض می‌شود. آن را به block برگردانید یا کاسپین را دوباره نصب کنید.");
  ("fault.countrymissing", "کشور وای‌فای مشخص نیست.");
  ("fault.countrymissing.advice", "تشخیص خودکار نتوانست کشور را پیدا کند. در تنظیمات پیشرفته، کد دوحرفی کشور واقعی محل دستگاه را وارد کنید، ذخیره کنید و دوباره تلاش کنید.");
  ("fault.countrymissing.action", "تعیین کشور وای‌فای");
  ("fault.unknown", "چیزی درست پیش نرفت و کاسپین نتوانست بفهمد چه چیزی. جزئیات در حالت پیشرفته هست.");
  ("fault.unrecognised", "چیزی درست پیش نرفت و این نسخه کاسپین دلیلش را نمی‌شناسد. جزئیات در حالت پیشرفته هست.");
  ("fault.tunnelnohotspot", "اتصال برقرار است، اما هات‌اسپات روشن نیست، بنابراین هیچ دستگاهی نمی‌تواند از آن استفاده کند.");
  ("notice.off", "کاسپین خاموش شد. دستگاه‌های شما دیگر از راه آن اتصالی ندارند.");
  ("notice.on", "کاسپین روشن است. با گوشی یا لپ‌تاپ به شبکه وای‌فای پایین وصل شوید.");
  ("notice.configsaved", "کانفیگ شما ذخیره شد. برای استفاده از آن کاسپین را روشن کنید.");
  ("notice.configreconnected", "کانفیگ شما ذخیره شد و کاسپین با آن دوباره وصل شد.");
  ("notice.entryselected", "انتخاب شما ذخیره شد. برای استفاده از آن کاسپین را روشن کنید.");
  ("notice.entryreconnected", "انتخاب شما ذخیره شد و کاسپین با آن دوباره وصل شد.");
  ("notice.subscriptionsaved", "نشانی اشتراک ذخیره شد.");
  ("notice.refreshed", "کانفیگ از ارائه‌دهنده شما تازه شد. برای استفاده از آن کاسپین را روشن کنید.");
  ("notice.refreshreconnected", "کانفیگ از ارائه‌دهنده شما تازه شد و کاسپین با آن دوباره وصل شد.");
  ("notice.hotspotsaved", "نام و رمز وای‌فای ذخیره شد.");
  ("notice.hotspotrenamed", "نام وای‌فای عوض شد. دستگاه‌های شما باید با نام و رمز تازه دوباره به آن وصل شوند.");
  ("notice.advancedsaved", "ذخیره شد. برای اینکه تغییر اثر کند، کاسپین را خاموش و دوباره روشن کنید.");
  ("power.noconfig.headline", "هنوز کانفیگی نیست، پس چیزی برای وصل شدن وجود ندارد.");
  ("power.noconfig.advice", "کانفیگی را که به شما داده‌اند اضافه کنید و بعد کاسپین را روشن کنید.");
  ("power.nohotspot.headline", "هات‌اسپات هنوز نام و رمز ندارد.");
  ("power.nohotspot.advice", "برایش یک نام و یک رمز بگذارید تا دستگاه‌های شما چیزی برای وصل شدن داشته باشند.");
  ("hotspot.noname.headline", "هات‌اسپات به یک نام نیاز دارد.");
  ("hotspot.noname.advice", "این همان نامی است که گوشی شما در فهرست شبکه‌های وای‌فای نشان می‌دهد.");
  ("hotspot.toolong.headline", "این نام برای یک شبکه وای‌فای بلند است.");
  ("hotspot.toolong.advice", "نام وای‌فای حداکثر می‌تواند 32 کاراکتر باشد. حروف فارسی و عربی هر کدام دو یا سه کاراکتر حساب می‌شوند.");
  ("hotspot.badchars.headline", "این نام کاراکترهایی دارد که کاسپین نمی‌تواند استفاده کند.");
  ("hotspot.badchars.advice", "از حروف، عدد، فاصله و خط تیره استفاده کنید.");
  ("hotspot.spaces.headline", "این نام فقط فاصله است.");
  ("hotspot.spaces.advice", "به هات‌اسپات نامی بدهید که در فهرست شبکه‌های وای‌فای بشناسیدش.");
  ("hotspot.short.headline", "این رمز برای وای‌فای کوتاه است.");
  ("hotspot.short.advice", "رمز وای‌فای باید دست‌کم 8 کاراکتر باشد. اگر نمی‌خواهید خودتان فکر کنید، از رمز پیشنهادی استفاده کنید.");
  ("hotspot.long.headline", "این رمز برای وای‌فای بلند است.");
  ("hotspot.long.advice", "رمز وای‌فای حداکثر می‌تواند 63 کاراکتر باشد.")].

Definition messagesFA_5 : list (string * string) := [
  ("hotspot.passchars.headline", "این رمز کاراکترهایی دارد که وای‌فای نمی‌تواند حمل کند.");
  ("hotspot.passchars.advice", "بعضی دستگاه‌ها به شبکه‌ای که رمزش حروف فارسی یا نشانه‌های غیرانگلیسی دارد وصل نمی‌شوند. از حروف a تا z، عدد و نشانه‌های معمولی استفاده کنید.");
  ("hotspot.refused.headline", "این رمز قابل استفاده نیست.");
  ("hotspot.refused.advice", "این یکی از رمزهایی است که مهاجم‌ها اول از همه امتحان می‌کنند. از رمز پیشنهادی استفاده کنید، یا سه کلمه بی‌ربط به هم.");
  ("adv.badinternet.headline", "کاسپین اتصالی با این نام روی این دستگاه نمی‌بیند.");
  ("adv.badinternet.advice", "یکی از اتصال‌های فهرست را انتخاب کنید. خالی بگذارید تا کاسپین تصمیم بگیرد.");
  ("adv.badhotspot.headline", "کاسپین آداپتوری با این نام روی این دستگاه نمی‌بیند.");
  ("adv.badhotspot.advice", "یکی از آداپتورهای فهرست را انتخاب کنید. خالی بگذارید تا کاسپین تصمیم بگیرد.");
  ("adv.noap.headline", "این آداپتور نمی‌تواند هات‌اسپات بسازد.");
  ("adv.noap.advice", "فقط آداپتوری کار می‌کند که بتواند هات‌اسپات بسازد. معمولاً یک آداپتور وای‌فای USB این کار را می‌کند.");
  ("adv.badchannel.headline", "این آداپتور از آن کانال استفاده نمی‌کند.");
  ("adv.badchannel.advice", "یکی از کانال‌های پیشنهادی را انتخاب کنید، یا خالی بگذارید تا کاسپین انتخاب کند.");
  ("adv.channelnan.headline", "این کانال عدد نیست.");
  ("adv.badband.headline", "این باندی نیست که این آداپتور استفاده کند.");
  ("adv.badband.advice", "یکی از باندهای پیشنهادی را انتخاب کنید، یا خالی بگذارید تا کاسپین انتخاب کند.");
  ("adv.badcountry.headline", "این کد کشور نیست.");
  ("adv.badcountry.advice", "کد دو حرفی کشوری را بنویسید که دستگاه در آن است، مثلاً IR. خالی بگذارید تا کاسپین تصمیم بگیرد.");
  ("adv.badsubnet.headline", "این آدرس شبکه نیست.");
  ("adv.badsubnet.advice", "باید چیزی شبیه 10.62.0.0/24 باشد. خالی بگذارید تا کاسپین محدوده‌ای بدون تداخل انتخاب کند.");
  ("adv.subnetv4.headline", "شبکه هات‌اسپات باید محدوده آدرس IPv4 باشد.");
  ("adv.subnetv4.advice", "باید چیزی شبیه 10.62.0.0/24 باشد. خالی بگذارید تا کاسپین یکی انتخاب کند.");
  ("adv.subnetsmall.headline", "این شبکه برای دادن آدرس خیلی کوچک است.");
  ("adv.subnetsmall.advice", "محدوده‌ای مثل 10.62.0.0/24 بگذارید که جای 254 دستگاه دارد.");
  ("adv.badloglevel.headline", "این میزان جزئیاتی نیست که کاسپین بتواند بخواهد.");
  ("adv.badloglevel.advice", "یکی از گزینه‌های پیشنهادی را انتخاب کنید.");
  ("error.saveconfig.headline", "کاسپین نتوانست آن کانفیگ را ذخیره کند.");
  ("error.saveselect.headline", "کاسپین نتوانست انتخاب شما را ذخیره کند.");
  ("error.savesubscription.headline", "کاسپین نتوانست نشانی اشتراک را ذخیره کند.");
  ("problem.subscription.nothttps.headline", "نشانی اشتراک باید با https شروع شود.");
  ("problem.subscription.nohost.headline", "نشانی اشتراک نام سروری در خود ندارد.");
  ("problem.subscription.ipliteral.headline", "نشانی اشتراک باید نام یک سرور باشد، نه یک نشانی عددی.");
  ("problem.subscription.userinfo.headline", "نشانی اشتراک نباید نام کاربری و رمز را پیش از نام سرور داشته باشد.");
  ("problem.subscription.toolong.headline", "نشانی اشتراک بلندتر از آن است که کاسپین ذخیره کند.");
  ("problem.subscription.malformed.headline", "این نشانی‌ای نیست که کاسپین بتواند بخواند.");
  ("problem.subscription.advice", "نشانی اشتراک را از ارائه‌دهنده خود بخواهید. با https شروع می‌شود و نام یک سرور در آن است.");
  ("problem.refresh.nourl.headline", "نشانی اشتراکی برای تازه‌سازی وجود ندارد.");
  ("problem.refresh.nourl.advice", "یکی را در کادر کانفیگ پایین بیفزایید و بعد دوباره دکمه را بزنید.");
  ("problem.refresh.notrunning.headline", "کاسپین وصل نیست، پس نمی‌تواند به ارائه‌دهنده شما برسد.");
  ("problem.refresh.badaddress.headline", "کاسپین از آن نشانی اشتراک چیزی نمی‌گیرد.");
  ("problem.refresh.badaddress.advice", "نشانی اشتراک را از ارائه‌دهنده خود بخواهید. با https شروع می‌شود و نام یک سرور در آن است.");
  ("problem.refresh.noanswer.headline", "ارائه‌دهنده شما پاسخی نداد.");
  ("problem.refresh.noanswer.advice", "تونل برقرار است، اما چیزی از درون آن برنگشت. کانفیگ قبلی شما سر جایش است. یک دقیقه بعد دوباره امتحان کنید.");
  ("problem.refresh.toolarge.headline", "ارائه‌دهنده شما بیش از آنچه کاسپین می‌خواند فرستاد.");
  ("problem.refresh.toolarge.advice", "یک اشتراک فهرست کوتاهی از لینک‌هاست. نشانی سادهٔ اشتراک را از ارائه‌دهنده خود بخواهید، نه نشانی یک صفحه.");
  ("problem.refresh.nothttps.headline", "ارائه‌دهنده شما تازه‌سازی را به جایی فرستاد که کاسپین دنبالش نمی‌رود.");
  ("problem.refresh.nothttps.advice", "کاسپین فقط https را دنبال می‌کند. یک نشانی https از ارائه‌دهنده خود بخواهید.");
  ("problem.refresh.badstatus.headline", "ارائه‌دهنده شما درخواست را رد کرد.");
  ("problem.refresh.badstatus.advice", "ممکن است نشانی منقضی شده باشد یا کد درون آن درست نباشد. یک نشانی تازه از ارائه‌دهنده خود بخواهید.");
  ("problem.refresh.notconfig.headline", "آنچه ارائه‌دهنده شما فرستاد کانفیگی نیست که کاسپین بتواند بخواند.");
  ("problem.refresh.notconfig.advice", "کانفیگ قبلی شما سر جایش است و هنوز کار می‌کند. نشانی اشتراک را از ارائه‌دهنده بخواهید، نه نشانی یک صفحه وب.");
  ("problem.refresh.other.headline", "تازه‌سازی کامل نشد.");
  ("problem.refresh.other.advice", "کانفیگ قبلی شما سر جایش است. دوباره امتحان کنید.");
  ("error.selectentry.headline", "آن مورد در فهرست نیست.");
  ("error.selectentry.advice", "صفحه را دوباره بارگذاری کنید و یکی از موردهای فهرست را انتخاب کنید.");
  ("error.savehotspot.headline", "کاسپین نتوانست نام و رمز هات‌اسپات را ذخیره کند.");
  ("error.saveadvanced.headline", "کاسپین نتوانست آن تنظیمات را ذخیره کند.");
  ("error.save.advice", "دستگاه نتوانست روی حافظه خودش بنویسد. دستگاه را دوباره راه‌اندازی کنید و بعد یک بار دیگر امتحان کنید.")].

Definition messagesFA : list (string * string) := messagesFA_1 ++ messagesFA_2 ++ messagesFA_3 ++ messagesFA_4 ++ messagesFA_5.

Definition messagesEN_1 : list (string * string) := [
  (MsgSNISpoofHeading, "Anti-DPI (DPI circumvention)");
  (MsgTCPSplit, "TCP split");
  (MsgTLSRecordSplit, "TLS-record split");
  (MsgSplitHint, "Each option is independent; leave the fake name blank to disable SNI spoofing. Splitting requires TLS over TCP and may not work with every server. Saving reconnects an active tunnel.");
  (MsgSNISpoofLabel, "Decoy server name");
  (MsgSNISpoofHint, "Send a fake TLS greeting before the real connection. The server name in your configuration stays unchanged. Leave this empty to turn spoofing off. Requires an IPv4 TCP connection.");
  (MsgSNISpoofSave, "Save anti-DPI settings");
  (MsgSNISpoofSaved, "Anti-DPI settings saved.");
  (MsgSNIStateOn, "on");
  (MsgSNIStateOff, "off");
  (MsgSNIActiveLabel, "Anti-DPI");
  (MsgSNIActiveName, "decoy name");
  (MsgSNISpoofInvalid, "Enter a DNS hostname of at most 219 ASCII characters, or leave it empty to turn spoofing off.");
  (MsgSNISpoofUnsupported, "These DPI options require VLESS, VMess, or Trojan over supported IPv4 TCP transports. Splitting requires ordinary TLS, not REALITY. Fake SNI is unavailable on Windows ARM64.");
  (MsgSNISpoofUnavailable, "SNI spoofing could not start. Make sure the packet backend is installed and the service has permission to use it. On Windows, install the x64 package with WinDivert.");
  ("app.name", "Caspian");
  ("nav.skip", "Skip to the controls");
  ("nav.signout", "Sign out");
  ("nav.outside", "Network watch");
  ("nav.back", "Back to the main screen");
  ("footer.note", "This panel comes from this box itself. It fetches nothing from the internet on its own.");
  ("footer.developer", "Developed by Iman Samizadeh");
  ("footer.github", "GitHub project");
  ("lang.label", "Language");
  ("lang.apply", "Apply");
  ("status.heading", "Connection status");
  ("status.connected", "Connected");
  ("status.notconnected", "Not connected");
  ("status.off", "Off");
  ("status.starting", "Starting");
  ("status.notworking", "Not working");
  ("status.noconfig", "No config added yet.");
  ("status.using", "Using %s.");
  ("status.unreadable", "Caspian cannot read your config.");
  ("status.localproxy", "Local proxy");
  ("power.on", "Switch on");
  ("power.off", "Switch off");
  ("tile.status", "Connection");
  ("tile.devices", "Devices");
  ("tile.config", "Config");
  ("tile.uptime", "Running for");
  ("tile.config.none", "None yet");
  ("tile.uptime.off", "Not running");
  ("uptime.justnow", "Just now");
  ("uptime.minutes", "%d minutes");
  ("uptime.hours", "%d hours");
  ("uptime.days", "%d days");
  ("wifi.heading", "Your WiFi");
  ("wifi.qr.caption", "Point a phone camera at this to join.");
  ("wifi.qr.failed", "Caspian could not draw the join code. Type in the network name and password below instead.");
  ("wifi.name", "Network name");
  ("wifi.password", "Password");
  ("wifi.intro", "Give the hotspot a name and a password. Your phone and laptop use these to join it.");
  ("wifi.change", "Change the WiFi name or password");
  ("wifi.form.name", "WiFi name");
  ("wifi.form.password", "WiFi password");
  ("wifi.form.hint", "At least 8 characters. This box made the password that is already filled in, and it is a good choice. If you would rather use your own, type over it.");
  ("wifi.form.save", "Save the WiFi name and password");
  ("devices.none", "No devices have joined yet");
  ("devices.one", "1 device connected");
  ("devices.many", "%d devices connected");
  ("devices.unreadable", " (there may be more; part of the record could not be read)");
  ("config.heading", "Your config");
  ("config.none", "Caspian needs the config you were given before it can connect.");
  ("config.add", "Add a config");
  ("config.replace", "Replace the config");
  ("config.paste.label", "Paste the whole config you were given");
  ("config.paste.hint", "Caspian never shows this back to you and never writes it to a log.");
  ("config.placeholder", "Paste here");
  ("config.name.label", "A name for it, so you know which one it is (optional)");
  ("config.submit", "Add this config");
  ("config.entries.heading", "This config holds several entries. Choose the one Caspian should use.");
  ("config.entries.number", "Entry %d");
  ("config.entries.submit", "Use this entry");
  ("config.entries.dropped.one", "One line could not be read and was skipped.");
  ("config.entries.dropped.many", "%d lines could not be read and were skipped.");
  ("config.entries.reset", "The entry that was chosen is no longer in the list, so Caspian is using the first one.");
  ("config.subscription.label", "Subscription address from your provider (optional)");
  ("config.subscription.hint", "An https address. Caspian fetches it only when you press the button, and only through the tunnel.");
  ("config.subscription.set", "A subscription address is saved.");
  ("config.refresh.button", "Refresh from provider");
  ("config.refresh.disabled", "Switch Caspian on first. The refresh travels through the tunnel, so it needs a working connection.");
  ("refresh.line", "Refreshed %s, %s.");
  ("refresh.when.justnow", "just now");
  ("refresh.when.minutes", "%d minutes ago");
  ("refresh.when.hours", "%d hours ago");
  ("refresh.when.days", "%d days ago");
  ("refresh.entries.one", "one entry");
  ("refresh.entries.many", "%d entries");
  ("refresh.used", "Used %s of %s.");
  ("refresh.expires", "Expires %s.");
  ("detected.line", "Internet: %s. Hotspot: %s.");
  ("detected.notfound", "not found")].

Definition messagesEN_2 : list (string * string) := [
  ("kind.ethernet", "Ethernet");
  ("kind.builtinwifi", "built-in WiFi");
  ("kind.usbwifi", "a USB WiFi adapter");
  ("kind.wifi", "WiFi");
  ("events.heading", "What has happened");
  ("events.empty", "Nothing has happened yet.");
  ("events.note", "Caspian keeps this list in memory only. A restart of the box erases it.");
  ("event.signedin", "Somebody signed in to this panel.");
  ("event.switchedon", "Caspian was switched on.");
  ("event.switchedoff", "Caspian was switched off.");
  ("event.connected", "The connection came up.");
  ("event.disconnected", "The connection dropped.");
  ("event.startfailed", "Caspian tried to connect and could not.");
  ("event.configadded", "A config was added.");
  ("event.configchanged", "The config was replaced.");
  ("event.configrefreshed", "The config was refreshed from the provider.");
  ("event.refreshfailed", "A refresh from the provider did not finish.");
  ("event.hotspotnamed", "The WiFi name and password were changed.");
  ("event.advancedsaved", "Advanced settings were saved.");
  ("advanced.show", "Show advanced settings");
  ("advanced.hide", "Hide advanced settings");
  ("advanced.heading", "Advanced");
  ("connections.heading", "Internet and hotspot connections");
  ("connections.hint", "Take internet from Ethernet or Wi-Fi and share it through built-in or USB Wi-Fi. Using one Wi-Fi adapter for both needs hardware and driver support. Start with automatic selection. 2.4 GHz suits older devices; 5 GHz needs adapter support.");
  ("connections.apply", "Connect the internet source first. Save, then turn the main switch off and on to apply changes. Connected devices lose their connection while it is off.");
  ("advanced.hint", "Caspian chose everything here for you. Change a setting only if you know why. To let Caspian decide again, leave the box empty.");
  ("advanced.internet", "Which connection reaches the internet");
  ("advanced.hotspotiface", "Which adapter makes the hotspot");
  ("advanced.channel", "Channel");
  ("advanced.band", "Band");
  ("advanced.country", "Country");
  ("advanced.country.hint", "Automatic detection is the default: leave this blank. If detection fails, enter the two-letter code for your actual country. Save, then retry. Clear the field to return to automatic detection.");
  ("advanced.subnet", "Hotspot network");
  ("advanced.subnet.hint", "The range of addresses given to devices that join. Caspian picks one that does not clash with the network this box is already on.");
  ("advanced.loglevel", "How much detail the connection software records");
  ("advanced.loglevel.hint", "Caspian removes keys and passwords from these lines before it shows them.");
  ("advanced.panelonlan", "Also open this panel from the network this box is attached to");
  ("advanced.panelonlan.hint", "Off by default. The panel is always reachable from the hotspot itself.");
  ("advanced.save", "Save these settings");
  ("advanced.auto", "Let Caspian decide (now: %s)");
  ("advanced.auto.plain", "Let Caspian decide");
  ("advanced.channelpinned", "This adapter does both jobs at once. The hotspot has to use the same channel as the WiFi this box uses for its own internet. A USB WiFi adapter removes that limit.");
  ("advanced.cannothost", "cannot make a hotspot");
  ("advanced.inuse", "in use");
  ("advanced.fixed.heading", "Decided for you, and you cannot change it here");
  ("advanced.dns.label", "Your devices' DNS");
  ("advanced.dns.value", "Answered on this box and looked up through the tunnel. If a device has a fixed DNS server of its own, Caspian redirects those requests here instead of letting them out.");
  ("advanced.drop.label", "If the tunnel drops");
  ("advanced.drop.value", "Traffic from your devices stops rather than leaving by another route.");
  ("advanced.config.heading", "What Caspian read from your config");
  ("advanced.config.kind", "Kind");
  ("advanced.config.server", "Server");
  ("advanced.config.transport", "Transport");
  ("advanced.config.security", "Security");
  ("advanced.config.sni", "Server name");
  ("advanced.config.fingerprint", "Fingerprint");
  ("advanced.config.flow", "Flow");
  ("advanced.reality.publickey", "REALITY public key");
  ("advanced.reality.shortid", "REALITY short id");
  ("advanced.reality.pqv", "Post-quantum verify key");
  ("advanced.config.count", "Caspian found %d entries and is using entry %d.");
  ("advanced.present", "present");
  ("advanced.absent", "missing");
  ("advanced.notset", "not set");
  ("advanced.nosecrets", "No key, password or identifier from your config is shown here or anywhere else in this panel.");
  ("advanced.log.heading", "Connection software log");
  ("advanced.log.phase", "The tunnel is %s.");
  ("advanced.log.reason", "Last reason:");
  ("advanced.log.dropped", "Caspian discarded %d older lines, so this is not the whole record.");
  ("advanced.log.empty", "Nothing recorded yet.");
  ("advanced.band.24", "2.4 GHz (reaches further, slower)");
  ("advanced.band.5", "5 GHz (faster, shorter range)");
  ("phase.stopped", "stopped");
  ("phase.starting", "starting");
  ("phase.running", "running");
  ("phase.failed", "stopped after it failed");
  ("login.title", "Sign in to Caspian");
  ("login.heading", "Sign in");
  ("login.password", "Panel password");
  ("login.submit", "Sign in");
  ("login.hint", "Use the panel password printed during installation or the one you chose during setup.");
  ("login.recovery.unix", "Linux / macOS");
  ("login.recovery.windows", "Windows (PowerShell)");
  ("login.recovery", "Forgot your password?");
  ("login.recovery.help", "Open a terminal on the Caspian computer, or connect to it with SSH. On Windows, open PowerShell as administrator. Run this command:");
  ("login.recovery.result", "The command prints a new panel password and restarts the panel. Your Wi-Fi and proxy settings stay saved. Use the new password to sign in.");
  ("login.wrong.headline", "That password is not right.");
  ("login.wrong.advice", "Try again.");
  ("login.toomany.headline", "Too many wrong passwords.");
  ("login.toomany.advice", "Wait about %s, then try again. Nothing is broken, and nothing is locked for good.");
  ("login.corrupt.headline", "Caspian cannot read its own record of the panel password, so it cannot check yours.");
  ("login.corrupt.advice", "This is a fault in the box, not in what you typed. On a Mac, choose Reset Password in the Caspian app. On other devices, use the installer's local password recovery tool.");
  ("password.heading", "Change this panel's password");
  ("password.hint", "Enter the current password, then choose a new one. All existing sessions will be signed out.");
  ("password.current", "Current password");
  ("password.new", "New password");
  ("password.confirm", "Repeat new password");
  ("password.save", "Change password");
  ("password.wrong", "The current password is not right.");
  ("password.short", "The new password is too short.");
  ("password.mismatch", "The two new passwords are not the same.");
  ("password.savefailed", "The new password could not be saved.");
  ("identifiers.heading", "Generate test identifiers")].

Definition messagesEN_3 : list (string * string) := [
  ("identifiers.hint", "Some config providers ask for an identifier before issuing a config. Caspian can make a random UUID v4 and a 15-digit IMEI-shaped number for that form.");
  ("identifiers.uuid", "Random UUID v4");
  ("identifiers.imei", "Mock IMEI-shaped number");
  ("identifiers.empty", "Press Generate");
  ("identifiers.generate", "Generate new values");
  ("identifiers.copy", "Copy");
  ("identifiers.working", "Generating on this device…");
  ("identifiers.ready", "New values generated. Caspian does not save them.");
  ("identifiers.failed", "Caspian could not generate values. Try again.");
  ("identifiers.copied", "Copied.");
  ("identifiers.warning", "The IMEI-shaped value is synthetic. It was not read from this computer or a phone, changes nothing on any device, and must not be used as a real cellular identity. A provider may reject mock values.");
  ("setup.title", "Set up Caspian");
  ("setup.heading", "Set up Caspian");
  ("setup.notice", "This box has not been set up yet. Choose a password for this panel.");
  ("setup.intro", "Choose a password for this panel. It protects the switch, your config and the WiFi password from anyone else who can reach this box.");
  ("setup.password", "Panel password");
  ("setup.confirm", "Type it again");
  ("setup.hint", "At least 8 characters. Three unrelated words are easier to remember than a short jumble and far harder to guess.");
  ("setup.submit", "Set the password and continue");
  ("setup.writeitdown", "Write it down somewhere. Nothing on this box can recover it, and nothing here can email it to you, because Caspian talks to nobody.");
  ("setup.short.headline", "That password is too short.");
  ("setup.short.advice", "Use at least 8 characters. Three unrelated words are easier to remember than a short jumble and far harder to guess.");
  ("setup.mismatch.headline", "The two passwords are not the same.");
  ("setup.mismatch.advice", "Type it again in both boxes.");
  ("setup.done.headline", "This box has already been set up.");
  ("setup.done.advice", "Sign in with the panel password.");
  ("time.seconds", "%d seconds");
  ("time.minute", "a minute");
  ("time.minutes", "%d minutes");
  ("problem.notfound.headline", "There is no page at that address.");
  ("problem.notfound.advice", "Go back to the main screen.");
  ("problem.badform.headline", "Caspian could not read that form.");
  ("problem.badform.advice", "Go back and try again.");
  ("problem.crosssite.headline", "That request came from another website, so Caspian ignored it.");
  ("problem.crosssite.advice", "Open the panel directly and try again.");
  ("problem.internal.headline", "Something inside Caspian went wrong.");
  ("problem.internal.advice", "Reload the page. If it happens again, restart the box.");
  ("problem.detail.label", "What the connection software said:");
  ("problem.parse.headline", "Caspian could not read that link.");
  ("problem.engine.headline", "Caspian read that link, but it cannot be used as written.");
  ("problem.engine.advice", "One of the settings inside it is not one the connection software accepts. Ask whoever gave you the link to send it again. Advanced mode shows what the software said.");
  ("problem.engine.insecure.headline", "This link asks Caspian to skip checking who the server is, and the connection software no longer allows that.");
  ("problem.engine.insecure.advice", "Ask whoever gave you the link for one that does not skip that check. Advanced mode shows what the software said.");
  ("problem.engine.cipher.headline", "This link uses an old encryption method that the connection software no longer supports.");
  ("problem.engine.cipher.advice", "Ask whoever gave you the link for one that uses a current method, such as aes-256-gcm. Advanced mode shows what the software said.");
  ("problem.server.headline", "Caspian read that link and tried it, but the server did not answer.");
  ("problem.server.advice", "The link itself is fine. Check that this box still has its own internet connection, then try again. If it does, either the server is switched off, or the person who gave you the config has moved it.");
  ("problem.parse.empty.headline", "There was nothing to add.");
  ("problem.parse.empty.advice", "Paste the whole config you were given into the box, then press Add.");
  ("problem.parse.scheme.advice", "It is a kind of link this box does not support. Caspian can use links that start with vless, vmess, ss, socks, trojan or hysteria2.");
  ("problem.parse.nolink.advice", "Nothing in what you pasted looked like a proxy link. Copy the whole thing again, from the first character to the last, and paste it once more.");
  ("problem.parse.uuid.advice", "The identifier inside it is incomplete. That happens when a link is copied in two pieces. Copy the link again in one go, then paste all of it.");
  ("problem.parse.address.advice", "It does not say which server to connect to. Ask whoever gave you the link for a fresh copy.");
  ("problem.parse.port.advice", "It does not have a usable port number. Ask whoever gave you the link for a fresh copy.");
  ("problem.parse.reality.advice", "One of its security settings has the wrong shape. Part of the link was probably lost when it was copied. Ask whoever gave you the link for a fresh copy.");
  ("problem.parse.transport.advice", "It uses a connection method this version of Caspian no longer carries. Ask whoever gave you the link for one that uses xhttp instead, with alpn=h3 if you want the QUIC kind.");
  ("problem.parse.other.advice", "Copy the whole thing again, from the first character to the last, and paste it once more.");
  ("fault.noapadapter", "No adapter on this box can create a hotspot. Plug in a USB WiFi adapter.");
  ("fault.interfacebusy", "The WiFi adapter Caspian needs for the hotspot is still connected to another network. Caspian stopped rather than take it over. Disconnect that network on this box, or plug in a USB WiFi adapter. Then switch Caspian on again.");
  ("fault.portinuse", "Another program on this computer is already using port 10808, which Caspian needs for its connection.");
  ("fault.portinuse.advice", "Close other proxy or VPN programs, then switch Caspian on again.");
  ("fault.notrunning", "Caspian is not switched on, so there is no client traffic to cut. Switch it on first.");
  ("event.trafficcut", "Client traffic was cut.");
  ("event.trafficrestored", "Client traffic was restored.");
  ("event.wrongpassword", "Somebody tried a wrong password for this page.");
  ("notice.cut", "Client traffic is cut.");
  ("notice.restored", "Client traffic is back.");
  ("notice.recovered", "Caspian put everything back and started again.");
  ("advanced.recover.heading", "If something is stuck");
  ("advanced.recover.hint", "This button stops everything. It then undoes every change Caspian made to this box's network, and starts again with the same settings. It takes about 20 seconds. It does not restart the box, and this page stays open the whole time.");
  ("advanced.recover.button", "Put it back and start again");
  ("status.cut", "Traffic cut");
  ("next.addconfig", "Next: paste the config you were given into Your config. Without one, Caspian has nowhere to connect to.");
  ("next.setwifi", "Next: choose a name and password for this box's WiFi. That is the network your phone and laptop will join.");
  ("next.switchon", "Next: press the switch to turn it on. It takes a few seconds.");
  ("next.join", "Next: point your phone camera at the code below to join this box's WiFi. Every device that joins leaves through the tunnel.");
  ("next.joined", "Everything is working. The devices that have joined are leaving through the tunnel.");
  ("next.resume", "You cut the traffic yourself. Press Resume client traffic to put it back.");
  ("next.problem", "Next: read the message above. Caspian will not start until you fix it.");
  ("next.starting", "Caspian is connecting. Give it a few seconds. This page refreshes itself.");
  ("next.label", "What to do now");
  ("help.heading", "Help");
  ("help.title", "Caspian help");
  ("help.what.heading", "What this box does");
  ("help.what.body", "Caspian uses a config you already have to connect to a server. It shares that one connection as a WiFi network. Every device that joins leaves through the same tunnel, and you install nothing on the device itself.");
  ("help.flow.caption", "How traffic travels: your device, this box, the tunnel, the server");
  ("help.flow.device", "Your device");
  ("help.flow.box", "This box");
  ("help.flow.tunnel", "The encrypted tunnel");
  ("help.flow.server", "Your server");
  ("help.flow.note", "The dot above the box is where names are looked up. DNS requests from your devices come to this box and are answered from inside the tunnel, not from the network the box itself sits on.");
  ("help.arrange.heading", "Two ways to wire it");
  ("help.arrange.body", "Caspian needs two things: a way to reach the internet, and an adapter to make the hotspot with. You choose which adapter does which job.");
  ("help.arrange.a.heading", "Arrangement one: internet over the cable");
  ("help.arrange.a.top", "Network cable");
  ("help.arrange.a.bottom", "Built-in WiFi, the hotspot");
  ("help.arrange.a.when", "The simplest arrangement, and the one to use if you have a cable. The internet arrives on the cable and the built-in WiFi becomes the hotspot. While Caspian is on, the built-in WiFi is no longer joined to your home network, because one adapter cannot do both jobs at once.");
  ("help.arrange.b.heading", "Arrangement two: internet over WiFi");
  ("help.arrange.b.top", "WiFi, joined to a network with internet")].

Definition messagesEN_4 : list (string * string) := [
  ("help.arrange.b.bottom", "USB adapter, the hotspot");
  ("help.arrange.b.when", "For places with no cable. Plug in a USB WiFi adapter, take the internet from one of the two adapters and build the hotspot on the other. Either can play either role, and you choose in advanced settings.");
  ("help.arrange.nounplug", "You do not need to unplug anything. If both a cable and WiFi are connected, choose which one reaches the internet in advanced settings. Caspian uses the one you choose, as long as it really has internet on it.");
  ("help.two.heading", "Why there are two controls");
  ("help.two.intro", "Two controls on the dashboard can stop the internet for your devices. They stop different things. Read this before you press one in a hurry.");
  ("help.two.power.heading", "The switch: on and off");
  ("help.two.power.body", "The switch turns the whole box on and off. Off stops the tunnel. Off also stops the WiFi hotspot and the address and name service on it. If Caspian unblocked the radio, off blocks it again. The WiFi network that your devices joined stops existing, and every one of them disconnects. Caspian also undoes each network change it made, so the box goes back to how Caspian found it.");
  ("help.two.cut.heading", "Client traffic: cut and resume");
  ("help.two.cut.body", "This control stops only the traffic that Caspian forwards for your devices. Nothing else stops. The tunnel stays up. The hotspot stays up, your devices keep their addresses, and they stay joined. This page stays open on a joined device, because the panel is traffic to this box and not traffic through it. Press Resume client traffic, and your devices reach the internet again.");
  ("help.two.lockout", "If you hold only a phone that is on the Caspian WiFi, and you switch the box off, the WiFi goes with it. The phone leaves the network and cannot open this page again. By default this page is open only on the hotspot address. Opening it from the local network stays off until you switch it on in advanced settings. The client traffic control does not have this hazard. The WiFi stays up, so the phone stays joined, opens this page, and puts the traffic back.");
  ("help.two.which", "When you want the traffic to stop now, and you want to put it back yourself, press the client traffic control. It is the emergency stop. It works at once, it asks for no confirmation, and your devices do not have to join the WiFi again afterwards. When you have finished with the box, or you want the WiFi adapter back on your own network, press the switch. Do not use the switch as an emergency stop from a phone on the hotspot.");
  ("help.two.restart", "A cut is held in memory only and is written to no file, so a restart of the box removes it. Caspian does not switch itself on after a restart, so press the switch to start it again. Client traffic then flows.");
  ("help.controls.heading", "What each control does");
  ("help.controls.switch", "Switches the whole box on and off: the tunnel and the hotspot together. Switching off also takes the WiFi down, so every joined device is disconnected.");
  ("help.controls.cut", "Stops client traffic at once while leaving the hotspot up. Devices stay joined and can still open this page, but nothing reaches the internet. Restarting the box clears this state, but Caspian comes back switched off, so traffic does not return until you press the switch.");
  ("help.controls.config", "The link your provider gave you. Caspian stores it, never shows it back to you and never writes it into any log. To use a different server, paste a new link over it.");
  ("help.controls.wifi", "The name and password of the network this box broadcasts. The password is at least 8 characters. Changing either disconnects the devices that are joined, and they have to join again.");
  ("help.controls.uplink", "Which adapter brings the internet in. Leave it empty and Caspian chooses. If you choose, that adapter has to have internet on it at that moment, or Caspian refuses to start and says why.");
  ("help.controls.hotspotiface", "Which adapter makes the hotspot. It has to be a WiFi adapter, and it cannot be the same one that brings the internet in.");
  ("help.controls.channel", "The radio channel of the hotspot. If the internet and the hotspot are on the same adapter, the channel is pinned to whatever network that adapter is joined to and cannot be chosen.");
  ("help.controls.country", "The two-letter country code. It decides which channels and what power are allowed. A wrong code can stop the hotspot from coming up at all.");
  ("help.controls.subnet", "The range of addresses handed to joined devices. Change it only if it clashes with a network you already use.");
  ("help.controls.panelonlan", "Lets this page be opened from the network the box sits on, not only from the hotspot. It is off by default.");
  ("help.security.heading", "What is protected, and what is not");
  ("help.security.does.heading", "What this box really does");
  ("help.security.does.failclosed", "If the tunnel drops, traffic from your devices stops rather than leaving by another route. This rule does not need the tunnel to exist. It names only the hotspot and the internet connection, so a tunnel that disappears cannot loosen it.");
  ("help.security.does.dns", "Caspian redirects DNS requests from your devices to this box and answers them from inside the tunnel. DNS over TLS is rejected and DNS over QUIC is dropped, so a device cannot step around that path.");
  ("help.security.does.egress", "While Caspian is on, the box itself cannot reach the internet directly except for a few named things: getting an address, setting its clock, looking up names, and reaching your server. So you cannot update this box's software until you switch Caspian off.");
  ("help.security.does.isolation", "Devices joined to the hotspot cannot see each other. On this box they reach nothing except the services it offers them.");
  ("help.security.does.secrets", "Your config is never shown back on screen and never written into any log. The server address is stripped even from error text.");
  ("help.security.does.giveback", "If Caspian takes your WiFi adapter for the hotspot, it records every change it makes and reverses each one on the way out, so the box rejoins your own network.");
  ("help.security.not.heading", "What this box does not do");
  ("help.security.not.intro", "This list is not shortened to be reassuring. If you are relying on this box, these are the things to know.");
  ("help.security.not.doh", "DNS over HTTPS, on port 443, looks the same as ordinary HTTPS. Such a request goes through the tunnel, so it is not a leak. This box cannot see it, and can promise nothing about it.");
  ("help.security.not.ipv6", "IPv6 for your devices is always blocked. This is not a setting: this version refuses every other value, because a device with a working IPv6 path prefers it over IPv4 and would go around the tunnel.");
  ("help.security.not.ownbox", "The guarantee covers the traffic Caspian forwards for your devices. The box's own traffic is outside it, because the connection software has to reach your server over the internet, or there is no tunnel at all.");
  ("help.security.not.endpoints", "This box does not protect your devices from themselves. If an app on your phone gives you away, the tunnel carries that just as faithfully.");
  ("help.security.not.wifi", "The hotspot is protected with WPA2. Anybody with the WiFi password can join, so treat it as a key.");
  ("help.trouble.heading", "When something is not working");
  ("help.trouble.nossid.q", "I cannot see the WiFi name");
  ("help.trouble.nossid.a", "First check that the top of this page says connected. If it says something else, the hotspot did not come up and the reason is in that message. If it is connected and you still see nothing, look at the channel and the country code in advanced settings. A wrong country code can silence the radio.");
  ("help.trouble.nointernet.q", "I am joined but there is no internet");
  ("help.trouble.nointernet.a", "When the tunnel drops, this is what you see, and it is deliberate: Caspian stops the traffic instead of letting it out another way. Look at the top of the page. If it says traffic is cut, somebody pressed the cut control, and the button next to it puts the traffic back.");
  ("help.trouble.slow.q", "It is slow");
  ("help.trouble.slow.a", "All traffic goes through one connection and one server, so the speed depends on that server and how far you are from it. If you have more than one config, try another one. A config change takes a few seconds.");
  ("help.trouble.lostpanel.q", "I cannot reach this page");
  ("help.trouble.lostpanel.a", "Open it from a device joined to the hotspot. While Caspian is on, this page is always reachable that way, even while traffic is cut. Reaching it from the network the box itself sits on is off by default and is turned on in advanced settings.");
  ("help.trouble.forgot.q", "I have forgotten the password for this page");
  ("help.trouble.forgot.a", "Recovering a forgotten password requires access to the device itself. On a Mac, open the Caspian app and choose Reset Password. On other devices, use the installer's local password recovery tool. If you still know your password, sign in and change it in the panel's password section.");
  ("cut.button", "Cut client traffic");
  ("cut.switchlabel", "Client traffic");
  ("cut.restore", "Resume client traffic");
  ("cut.banner", "Client traffic is cut. Your devices are still connected to this WiFi and can open this page, but nothing reaches the internet. Restarting this box clears this state, but Caspian comes back switched off, so traffic does not return until you press the switch.");
  ("action.working", "Applying your request… You can still use the page. Please do not submit it again.");
  ("action.stopping", "Stopping the hotspot and tunnel… Your phone will lose this page. To switch on again, open the panel on the host device.");
  ("action.failed", "No response received; the operation may still be running. Check the status before retrying. On a Mac, use the local panel: 127.0.0.1:8088");
  ("action.stoppedremote", "The panel disconnected after the stop request. This is expected if Wi-Fi stopped, but the result is not yet confirmed. Check and restart from the host device; on a Mac: 127.0.0.1:8088");
  ("action.stale", "Live status is unavailable. Displayed information may be out of date. Check your connection to this device.");
  ("power.caption", "Stops the hotspot and tunnel, not your computer. Your phone loses this page. To switch on again on a Mac, use 127.0.0.1:8088. To pause only internet access, use the traffic control and keep Wi-Fi and the panel available.");
  ("cut.caption", "This stops only the internet for the joined devices. The WiFi stays on, and this page stays open.");
  ("fault.radioblocked", "The wireless adapter is switched off. Caspian tried to switch it back on and could not. Some boxes have a switch or a keyboard key for this.");
  ("fault.nointernet", "This box is not connected to the internet itself. Plug in a network cable, or connect it to a WiFi network, and Caspian will share that connection.");
  ("fault.channelrefused", "The wireless adapter would not use the channel it was given. When one adapter has to do both jobs, the hotspot must share the channel of the WiFi this box uses for its own internet. A USB WiFi adapter removes that limit.");
  ("fault.hotspotfailed", "The hotspot did not start. Restart the box, then try again.");
  ("fault.dhcpfailed", "The hotspot started, but the part that gives your devices an address did not. Your devices see the network and cannot join it. Restart the box, then try again.");
  ("fault.clock", "This box's clock is wrong, and the connection cannot be made until the clock is right. This is not a problem with your config. Leave the box connected to the internet for a minute so it can set its clock. Then try again.");
  ("fault.permission", "Caspian was not allowed to change this box's network settings. That is a fault in how Caspian was installed, not in anything you did.");
  ("fault.softwaremissing", "Software that Caspian needs is not installed on this box. Run the Caspian installer again to put it back.");
  ("fault.windowstooold", "This computer runs a version of Windows that cannot send name lookups through the protected connection, so Caspian will not switch on here. Windows 10 version 2004, released in 2020, is the first version that can. Update Windows, then try again. Nothing is wrong with your config or with Caspian.");
  ("fault.unavailable", "Caspian's background service is not answering, so nothing can be switched on or off. Restart the box. If the problem continues, run the Caspian installer again.");
  ("fault.ipv6unsupported", "This box's settings file asks for your devices to get IPv6, and this version cannot carry IPv6 through the protected connection. There is no IPv6 control on the advanced page. This setting only changes if the settings file is edited by hand. Set it back to block, or install Caspian again.");
  ("fault.countrymissing", "Wi-Fi country is not set.");
  ("fault.countrymissing.advice", "Automatic detection could not find a country. Enter the two-letter code for your actual country in Advanced settings, save, and retry.");
  ("fault.countrymissing.action", "Set Wi-Fi country");
  ("fault.unknown", "Something went wrong and Caspian could not work out what. Advanced mode has the detail.");
  ("fault.unrecognised", "Something went wrong and this version of Caspian does not recognise the reason. Advanced mode has the detail.");
  ("fault.tunnelnohotspot", "The connection is up, but the hotspot is not running, so no device can use it.");
  ("notice.off", "Caspian is switched off. Your devices no longer have a connection through it.");
  ("notice.on", "Caspian is on. Join the WiFi network below with your phone or laptop.");
  ("notice.configsaved", "Your config was saved. Switch Caspian on to use it.");
  ("notice.configreconnected", "Your config was saved and Caspian reconnected with it.");
  ("notice.entryselected", "Your choice was saved. Switch Caspian on to use it.");
  ("notice.entryreconnected", "Your choice was saved and Caspian reconnected with it.");
  ("notice.subscriptionsaved", "The subscription address was saved.");
  ("notice.refreshed", "The config was refreshed from your provider. Switch Caspian on to use it.");
  ("notice.refreshreconnected", "The config was refreshed from your provider and Caspian reconnected with it.");
  ("notice.hotspotsaved", "The hotspot name and password were saved.");
  ("notice.hotspotrenamed", "The hotspot was renamed. Your devices will have to join it again with the new name and password.");
  ("notice.advancedsaved", "Saved. Switch Caspian off and on again to apply the change.");
  ("power.noconfig.headline", "There is no config yet, so there is nothing to connect to.");
  ("power.noconfig.advice", "Add the config you were given, then switch Caspian on.");
  ("power.nohotspot.headline", "The hotspot does not have a name and password yet.");
  ("power.nohotspot.advice", "Give it a name and a password so your devices have something to join.");
  ("hotspot.noname.headline", "The hotspot needs a name.");
  ("hotspot.noname.advice", "This is the name your phone will show in its list of WiFi networks.");
  ("hotspot.toolong.headline", "That name is too long for a WiFi network.");
  ("hotspot.toolong.advice", "WiFi names can be at most 32 characters. Persian, Arabic and other non-English letters count as two or three each.");
  ("hotspot.badchars.headline", "That name has characters Caspian cannot use.");
  ("hotspot.badchars.advice", "Use letters, numbers, spaces and hyphens.");
  ("hotspot.spaces.headline", "That name is only spaces.");
  ("hotspot.spaces.advice", "Give the hotspot a name you will recognise in a list of WiFi networks.");
  ("hotspot.short.headline", "That password is too short for WiFi.");
  ("hotspot.short.advice", "WiFi passwords have to be at least 8 characters. If you would rather not think of one, use the password Caspian suggests.");
  ("hotspot.long.headline", "That password is too long for WiFi.");
  ("hotspot.long.advice", "WiFi passwords can be at most 63 characters.")].

Definition messagesEN_5 : list (string * string) := [
  ("hotspot.passchars.headline", "That password has characters WiFi cannot carry.");
  ("hotspot.passchars.advice", "Some devices will not join a network whose password has accented or non-English characters in it. Use letters a to z, numbers, and the usual punctuation.");
  ("hotspot.refused.headline", "That password cannot be used.");
  ("hotspot.refused.advice", "It is one of the passwords attackers try first. Use the suggested one, or three unrelated words.");
  ("adv.badinternet.headline", "Caspian does not see a connection with that name on this box.");
  ("adv.badinternet.advice", "Choose one of the connections in the list. Leave it empty to let Caspian decide.");
  ("adv.badhotspot.headline", "Caspian does not see an adapter with that name on this box.");
  ("adv.badhotspot.advice", "Choose one of the adapters in the list. Leave it empty to let Caspian decide.");
  ("adv.noap.headline", "That adapter cannot create a hotspot.");
  ("adv.noap.advice", "Only an adapter that can create a hotspot will work. A USB WiFi adapter usually can.");
  ("adv.badchannel.headline", "This adapter will not use that channel.");
  ("adv.badchannel.advice", "Pick one of the channels offered, or leave it empty to let Caspian choose.");
  ("adv.channelnan.headline", "That channel is not a number.");
  ("adv.badband.headline", "That is not a band this adapter uses.");
  ("adv.badband.advice", "Choose one of the bands offered, or leave it empty to let Caspian choose.");
  ("adv.badcountry.headline", "That is not a country code.");
  ("adv.badcountry.advice", "Use the two-letter code for the country the box is in, for example IR. Leave it empty to let Caspian decide.");
  ("adv.badsubnet.headline", "That is not a network address.");
  ("adv.badsubnet.advice", "It should look like 10.62.0.0/24. Leave it empty to let Caspian choose one that does not clash.");
  ("adv.subnetv4.headline", "The hotspot network has to be an IPv4 address range.");
  ("adv.subnetv4.advice", "It should look like 10.62.0.0/24. Leave it empty to let Caspian choose one.");
  ("adv.subnetsmall.headline", "That network is too small to hand out addresses.");
  ("adv.subnetsmall.advice", "Use a range like 10.62.0.0/24, which holds 254 devices.");
  ("adv.badloglevel.headline", "That is not a level of detail Caspian can ask for.");
  ("adv.badloglevel.advice", "Choose one of the levels offered.");
  ("error.saveconfig.headline", "Caspian could not save that config.");
  ("error.saveselect.headline", "Caspian could not save your choice.");
  ("error.savesubscription.headline", "Caspian could not save the subscription address.");
  ("problem.subscription.nothttps.headline", "The subscription address has to start with https.");
  ("problem.subscription.nohost.headline", "The subscription address does not name a server.");
  ("problem.subscription.ipliteral.headline", "The subscription address has to name a server, not a numeric address.");
  ("problem.subscription.userinfo.headline", "The subscription address must not carry a user name and password in front of the server.");
  ("problem.subscription.toolong.headline", "The subscription address is longer than Caspian will store.");
  ("problem.subscription.malformed.headline", "That is not an address Caspian can read.");
  ("problem.subscription.advice", "Ask your provider for the subscription address. It starts with https and names a server.");
  ("problem.refresh.nourl.headline", "There is no subscription address to refresh from.");
  ("problem.refresh.nourl.advice", "Add one in the config box below, then press the button again.");
  ("problem.refresh.notrunning.headline", "Caspian is not connected, so it cannot reach your provider.");
  ("problem.refresh.badaddress.headline", "Caspian will not fetch from that subscription address.");
  ("problem.refresh.badaddress.advice", "Ask your provider for the subscription address. It starts with https and names a server.");
  ("problem.refresh.noanswer.headline", "Your provider did not answer.");
  ("problem.refresh.noanswer.advice", "The tunnel is up, but nothing came back through it. Your old config is still in place. Try again in a minute.");
  ("problem.refresh.toolarge.headline", "Your provider sent more than Caspian will read.");
  ("problem.refresh.toolarge.advice", "A subscription is a short list of links. Ask your provider for the plain subscription address rather than a page.");
  ("problem.refresh.nothttps.headline", "Your provider sent the refresh somewhere Caspian will not follow.");
  ("problem.refresh.nothttps.advice", "Caspian follows https and nothing else. Ask your provider for an https address.");
  ("problem.refresh.badstatus.headline", "Your provider refused the request.");
  ("problem.refresh.badstatus.advice", "The address may have expired, or the code inside it may be wrong. Ask your provider for a fresh address.");
  ("problem.refresh.notconfig.headline", "What your provider sent is not a config Caspian can read.");
  ("problem.refresh.notconfig.advice", "Your old config is still in place and still works. Ask your provider for the subscription address, not the address of a web page.");
  ("problem.refresh.other.headline", "The refresh did not finish.");
  ("problem.refresh.other.advice", "Your old config is still in place. Try again.");
  ("error.selectentry.headline", "That entry is not in the list.");
  ("error.selectentry.advice", "Reload the page and choose one of the entries it shows.");
  ("error.savehotspot.headline", "Caspian could not save the hotspot name and password.");
  ("error.saveadvanced.headline", "Caspian could not save those settings.");
  ("error.save.advice", "The box could not write to its own storage. Restart the box, then try again.")].

Definition messagesEN : list (string * string) := messagesEN_1 ++ messagesEN_2 ++ messagesEN_3 ++ messagesEN_4 ++ messagesEN_5.

(** ** Languages and lookups *)

Definition LangFA : string := "fa".
Definition LangEN : string := "en".
Definition DefaultLang : string := LangEN.
Definition Langs : list string := [LangEN; LangFA].

Definition Valid (l : string) : bool := existsb (λ k, (k =? l)%string) Langs.
Definition Dir (l : string) : string := if (l =? LangFA)%string then "rtl" else "ltr".
Definition NativeName (l : string) : string := if (l =? LangFA)%string then "فارسی" else "English".

(** langFor: the language of a request and the cookie it sets, from the query
    parameter (empty when absent) and the cookie the browser sent. *)
Definition langFor (query : string) (cookie : option string) : string * option string :=
  if Valid query then (query, Some query)
  else match cookie with
       | Some v => if Valid v then (v, None) else (DefaultLang, None)
       | None => (DefaultLang, None)
       end.

Fixpoint find_key (k : string) (l : list (string * string)) : option string :=
  match l with
  | [] => None
  | (k', s) :: l => if (k' =? k)%string then Some s else find_key k l
  end.

Definition messages (l : string) : list (string * string) := if (l =? LangFA)%string then messagesFA else messagesEN.

(** ** fmt.Sprintf, for the verbs the catalogues use *)

Inductive arg := AStr (s : string) | AInt (z : Z).

Definition percent : ascii := "%".
Definition arg_type (a : arg) : string := match a with AStr _ => "string" | AInt _ => "int" end.
Definition arg_text (a : arg) : string := match a with AStr s => s | AInt z => Itoa z end.
Definition fits (verb : ascii) (a : arg) : bool :=
  Ascii.eqb verb "v" || match a with AStr _ => Ascii.eqb verb "s" | AInt _ => Ascii.eqb verb "d" end.

Definition typed (a : arg) : string := (arg_type a ++ "=" ++ arg_text a)%string.
Definition show_arg (verb : ascii) (a : arg) : string :=
  if fits verb a then arg_text a else ("%!" ++ String verb "(" ++ typed a ++ ")")%string.

Fixpoint sprintf (l : list ascii) (args : list arg) : list ascii * list arg :=
  match l with
  | [] => ([], args)
  | c :: l =>
      if Ascii.eqb c percent then
        match l with
        | [] => (to_l "%!(NOVERB)", args)
        | v :: l =>
            if Ascii.eqb v percent then let '(o, r) := sprintf l args in (percent :: o, r)
            else match args with
                 | [] => let '(o, r) := sprintf l [] in (to_l ("%!" ++ String v "(MISSING)")%string ++ o, r)
                 | a :: args => let '(o, r) := sprintf l args in (to_l (show_arg v a) ++ o, r)
                 end
        end
      else let '(o, r) := sprintf l args in (c :: o, r)
  end.

Definition Sprintf (s : string) (args : list arg) : string :=
  let '(o, extra) := sprintf (to_l s) args in
  match extra with
  | [] => of_l o
  | _ => (of_l o ++ "%!(EXTRA " ++ Join (typed <$> extra) ", " ++ ")")%string
  end.

Definition missingMarker : string := "!!".

Definition T (l k : string) (args : list arg) : string :=
  let l := if Valid l then l else DefaultLang in
  match find_key k (messages l) with
  | None => (missingMarker ++ k ++ missingMarker)%string
  | Some s => match args with [] => s | _ => Sprintf s args end
  end.

(** ** What a sentence needs to read as one *)

(** The message with its verbs replaced; None when an argument is missing, left
    over or of another kind. *)
Fixpoint fill (l : list ascii) (args : list arg) : option (list ascii) :=
  match l with
  | [] => match args with [] => Some [] | _ => None end
  | c :: l =>
      if Ascii.eqb c percent then
        match l, args with
        | v :: l, a :: args => if fits v a then o ← fill l args; Some (to_l (arg_text a) ++ o) else None
        | _, _ => None
        end
      else o ← fill l args; Some (c :: o)
  end.

Fixpoint verbs (l : list ascii) : list ascii :=
  match l with
  | [] => []
  | c :: l => if Ascii.eqb c percent then match l with [] => [percent] | v :: l => v :: verbs l end else verbs l
  end.

(** A key and the arguments it is shown with, against one language's message. *)
Definition takes (s : string) (args : list arg) : bool :=
  bool_decide (length (verbs (to_l s)) = length args) &&
  forallb (λ va, fits va.1 va.2) (zip (verbs (to_l s)) args) && negb (existsb (Ascii.eqb percent) (verbs (to_l s))).
Definition said_in (l k : string) (args : list arg) : bool :=
  match find_key k (messages l) with Some s => takes s args | None => false end.

(** The empty key is no sentence at all. *)
Definition said (k : string) (args : list arg) : bool := (k =? "")%string || forallb (λ l, said_in l k args) Langs.

(** ** Lemmas *)

Local Arguments Ascii.eqb : simpl never.

Lemma fill_takes l args : length (verbs l) = length args → forallb (λ va, fits va.1 va.2) (zip (verbs l) args) = true →
  existsb (Ascii.eqb percent) (verbs l) = false → is_Some (fill l args).
Proof.
  remember (length l) as n eqn:Hn. revert l args Hn.
  induction (lt_wf n) as [n _ IH]; intros [|c l] args -> Hlen Hf Hp; simpl in *.
  { destruct args; [eexists; reflexivity | discriminate]. }
  destruct (Ascii.eqb c percent).
  - destruct l as [|v l]; simpl in *; [exfalso; eauto using diff_true_false|].
    destruct args as [|a args]; [discriminate|]. simpl in *. apply andb_prop in Hf as [-> Hf].
    apply orb_false_iff in Hp as [_ Hp]. destruct (IH (length l) ltac:(lia) l args eq_refl ltac:(lia) Hf Hp) as [o ->].
    eexists; reflexivity.
  - destruct (IH (length l) ltac:(lia) l args eq_refl Hlen Hf Hp) as [o ->]. eexists; reflexivity.
Qed.

Lemma sprintf_fill l args o : existsb (Ascii.eqb percent) (verbs l) = false → fill l args = Some o → sprintf l args = (o, []).
Proof.
  remember (length l) as n eqn:Hn. revert l args o Hn.
  induction (lt_wf n) as [n _ IH]; intros [|c l] args o -> Hp Ho; simpl in *.
  { destruct args; [congruence | discriminate]. }
  destruct (Ascii.eqb c percent).
  - destruct l as [|v l]; [destruct args; discriminate|]. destruct args as [|a args]; [discriminate|].
    simpl in Hp. apply orb_false_iff in Hp as [Hv Hp]. destruct (fits v a) eqn:Hfit; [|discriminate].
    destruct (fill l args) as [o'|] eqn:E; [|discriminate]. simpl in Ho.
    rewrite (Ascii.eqb_sym v), Hv, (IH (length l) ltac:(simpl; lia) l args o' eq_refl Hp E).
    unfold show_arg. rewrite Hfit. congruence.
  - destruct (fill l args) as [o'|] eqn:E; [|discriminate]. simpl in Ho.
    rewrite (IH (length l) ltac:(simpl; lia) l args o' eq_refl Hp E). congruence.
Qed.

Lemma fill_nil l o : fill l [] = Some o → o = l.
Proof.
  revert o; induction l as [|c l IH]; intros o H; simpl in *; [congruence|].
  destruct (Ascii.eqb c percent); [destruct l; discriminate|].
  destruct (fill l []) as [o'|]; [|discriminate]. simpl in H. rewrite (IH o' eq_refl) in H. congruence.
Qed.

(** In a language the panel serves, or any other name, a key that is said reads as
    its message with the arguments in place. *)
Lemma said_reads l k args : k ≠ ""%string → said k args = true →
  ∃ s o, find_key k (messages (if Valid l then l else DefaultLang)) = Some s ∧
         fill (to_l s) args = Some o ∧ T l k args = of_l o.
Proof.
  intros Hk H. unfold said in H. rewrite (proj2 (String.eqb_neq k "") Hk), orb_false_l in H. unfold T.
  rewrite forallb_forall in H. pose proof (H LangEN ltac:(simpl; auto)) as He. pose proof (H LangFA ltac:(simpl; auto)) as Hfa.
  assert (said_in (if Valid l then l else DefaultLang) k args = true) as Hs.
  { destruct (Valid l) eqn:V; [|exact He]. apply existsb_exists in V as (m & Hm & E%String.eqb_eq). subst m.
    destruct Hm as [<-|[<-|[]]]; assumption. }
  remember (if Valid l then l else DefaultLang) as l' eqn:Hl'. clear Hl' He Hfa H.
  unfold said_in in Hs. destruct (find_key k (messages l')) as [s|]; [|discriminate].
  unfold takes in Hs. apply andb_prop in Hs as [Hs Hp]. apply andb_prop in Hs as [Hl Hf]. apply bool_decide_eq_true in Hl.
  apply negb_true_iff in Hp. destruct (fill_takes (to_l s) args Hl Hf Hp) as [o Ho]. exists s, o. split_and!; auto.
  destruct args as [|a args].
  - rewrite (fill_nil _ _ Ho). unfold of_l, to_l. by rewrite String.string_of_list_ascii_of_string.
  - unfold Sprintf. by rewrite (sprintf_fill _ _ _ Hp Ho).
Qed.

Definition same_shape (a b : string * string) : bool :=
  (a.1 =? b.1)%string && negb (a.2 =? "")%string && negb (b.2 =? "")%string &&
  bool_decide (verbs (to_l a.2) = verbs (to_l b.2)) &&
  forallb (λ v, Ascii.eqb v "s" || Ascii.eqb v "d") (verbs (to_l a.2)).

Definition all_same_shape (x y : list (string * string)) : bool :=
  bool_decide (length x = length y) && forallb (λ p, same_shape p.1 p.2) (zip x y).

Lemma all_same_shape_find x y k : all_same_shape x y = true →
  match find_key k x, find_key k y with
  | Some a, Some b => same_shape (k, a) (k, b) = true
  | None, None => True
  | _, _ => False
  end.
Proof.
  unfold all_same_shape. rewrite andb_true_iff, bool_decide_eq_true.
  revert y; induction x as [|[kx a] x IH]; intros [|[ky b] y] [Hl Hf]; try discriminate; [done|].
  simpl in Hf. apply andb_prop in Hf as [H1 H2]. simpl.
  assert (kx = ky) as <- by (unfold same_shape in H1; simpl in H1; rewrite !andb_true_iff in H1; apply String.eqb_eq; tauto).
  destruct (kx =? k)%string eqn:E; [apply String.eqb_eq in E; subst; exact H1|].
  apply IH. split; [injection Hl as Hl; exact Hl | exact H2].
Qed.

Lemma catalogues_checked : all_same_shape messagesEN messagesFA = true.
Proof. vm_compute. reflexivity. Qed.

(** The two catalogues say the same things: a key has a message in both
    languages or in neither, no message is empty, and the two messages of a key
    take the same arguments in the same order, each printed with %s or %d. *)
Theorem catalogues_agree k :
  match find_key k messagesEN, find_key k messagesFA with
  | Some e, Some f =>
      e ≠ ""%string ∧ f ≠ ""%string ∧ verbs (to_l e) = verbs (to_l f) ∧
      Forall (λ v, v = "s"%char ∨ v = "d"%char) (verbs (to_l e))
  | None, None => True
  | _, _ => False
  end.
Proof.
  pose proof (all_same_shape_find _ _ k catalogues_checked) as H.
  destruct (find_key k messagesEN) as [e|], (find_key k messagesFA) as [f|]; try exact H.
  unfold same_shape in H. simpl in H. rewrite !andb_true_iff, !negb_true_iff, !String.eqb_neq, bool_decide_eq_true in H.
  destruct H as ((((_ & He) & Hf) & Hv) & Hd). split_and!; auto.
  apply Forall_forall. intros v Hin. rewrite forallb_forall in Hd. apply list_elem_of_In, Hd, orb_true_iff in Hin.
  rewrite !Ascii.eqb_eq in Hin. exact Hin.
Qed.
