(* ===== verification/Json.v ===== *)
(** * JSON (encoding/json)

    The text Go's encoder writes, compact or indented, and the values its decoder
    reads. A number keeps its text; an object keeps its members in order, repeated
    keys included. Text is a list of bytes. *)

From S2P Require Import Prelude GoStrings Netip Text.

Local Open Scope char_scope.
Local Open Scope Z_scope.
Local Set Warnings "-register-all".

Inductive json :=
| JNull
| JBool (b : bool)
| JNum (text : list ascii)
| JStr (s : list ascii)
| JArr (l : list json)
| JObj (l : list (list ascii * json)).

Definition bslash : ascii := "092".

(** ** Writing *)

Definition hex_digit_of (n : Z) : ascii := hex_char (Z.to_nat (n mod 16)).
Definition u_escape (n : Z) : list ascii :=
  [bslash; "u"; hex_digit_of (n / 4096); hex_digit_of (n / 256); hex_digit_of (n / 16); hex_digit_of n].

(** One ASCII byte of a string; [html] is SetEscapeHTML. *)
Definition esc_byte (html : bool) (c : ascii) : list ascii :=
  let n := nat_of_ascii c in
  (if (n =? 34) || (n =? 92) then [bslash; c]
   else if (n =? 8) then [bslash; "b"]
   else if (n =? 12) then [bslash; "f"]
   else if (n =? 10) then [bslash; "n"]
   else if (n =? 13) then [bslash; "r"]
   else if (n =? 9) then [bslash; "t"]
   else if (n <? 32) || html && ((n =? 60) || (n =? 62) || (n =? 38)) then u_escape (Z.of_nat n)
   else [c])%nat.

(** U+2028 and U+2029 *)
Definition line_separator (s : list ascii) : option Z :=
  match s with
  | "226" :: "128" :: "168" :: _ => Some 8232
  | "226" :: "128" :: "169" :: _ => Some 8233
  | _ => None
  end.

Fixpoint quote_go (fuel : nat) (html : bool) (s : list ascii) : list ascii :=
  match fuel, s with
  | S fuel, c :: s' =>
      if (nat_of_ascii c <? 128)%nat then esc_byte html c ++ quote_go fuel html s'
      else match line_separator s with
           | Some n => u_escape n ++ quote_go fuel html (drop 3 s)
           | None =>
               let w := rune_width s in
               (if (w =? 1)%nat then u_escape 65533 else take w s) ++ quote_go fuel html (drop w s)
           end
  | _, _ => []
  end.

Definition quoted (html : bool) (s : list ascii) : list ascii :=
  dquote :: quote_go (List.length s) html s ++ [dquote].

(** Where the line breaks go: nowhere, or one per element, indented. *)
Record layout := MkLayout { nl : nat → list ascii; sp : list ascii }.
Definition compact : layout := MkLayout (λ _, []) [].
Definition indented : layout := MkLayout (λ d, "010" :: concat (replicate d [" "; " "])) [" "].

Section Print.
Context (html : bool) (lay : layout).

Definition member (d : nat) (k v : list ascii) : list ascii := quoted html k ++ ":" :: sp lay ++ v.

(** Elements, each printed at depth [S d], between two brackets. *)
Definition bracket (d : nat) (open close : ascii) (elems : list (list ascii)) : list ascii :=
  match elems with
  | [] => [open; close]
  | x :: xs =>
      open :: nl lay (S d) ++ x ++ concat (List.map (λ y, "," :: nl lay (S d) ++ y) xs) ++ nl lay d ++ [close]
  end.

Fixpoint print (d : nat) (v : json) : list ascii :=
  match v with
  | JNull => to_l "null"
  | JBool true => to_l "true"
  | JBool false => to_l "false"
  | JNum t => t
  | JStr s => quoted html s
  | JArr l => bracket d "[" "]" (List.map (print (S d)) l)
  | JObj l => bracket d "{" "}" (List.map (λ p, match p with (k, y) => member d k (print (S d) y) end) l)
  end.
End Print.

(** json.Marshal; Encoder.Encode with SetEscapeHTML(false) and SetIndent *)
Definition Marshal (v : json) : list ascii := print true compact 0 v.
Definition EncodeIndent (v : json) : list ascii := print false indented 0 v ++ ["010"].

(** ** Reading *)

Definition is_ws (c : ascii) : bool := in_set [" "; "009"; "010"; "013"] c.
Fixpoint skip_ws (l : list ascii) : list ascii :=
  match l with c :: l' => if is_ws c then skip_ws l' else l | [] => [] end.

(** utf8.AppendRune *)
Definition surrogate (r : Z) : bool := (0xD800 <=? r) && (r <? 0xE000).
Definition byte_of (z : Z) : ascii := ascii_of_nat (Z.to_nat z).
Definition encode_rune (r : Z) : list ascii :=
  if (r <? 0) || (0x10FFFF <? r) || surrogate r then ["239"; "191"; "189"]
  else if r <? 0x80 then [byte_of r]
  else if r <? 0x800 then [byte_of (0xC0 + r / 64); byte_of (0x80 + r mod 64)]
  else if r <? 0x10000 then [byte_of (0xE0 + r / 4096); byte_of (0x80 + r / 64 mod 64); byte_of (0x80 + r mod 64)]
  else [byte_of (0xF0 + r / 262144); byte_of (0x80 + r / 4096 mod 64); byte_of (0x80 + r / 64 mod 64); byte_of (0x80 + r mod 64)].

Definition hex4 (l : list ascii) : option (Z * list ascii) :=
  match l with
  | a :: b :: c :: d :: l =>
      a ← hex_value a; b ← hex_value b; c ← hex_value c; d ← hex_value d;
      Some (a * 4096 + b * 256 + c * 16 + d, l)
  | _ => None
  end.

(** What follows the letter u: a surrogate half takes the escape after it when
    the two make a pair. *)
Definition u_rune (l : list ascii) : option (Z * list ascii) :=
  '(r, l) ← hex4 l;
  if surrogate r then
    match l with
    | b :: u :: l' =>
        if Ascii.eqb b bslash && Ascii.eqb u "u" then
          match hex4 l' with
          | Some (r2, l'') =>
              if (r <? 0xDC00) && (0xDC00 <=? r2) && (r2 <? 0xE000) then
                Some ((r - 0xD800) * 1024 + (r2 - 0xDC00) + 0x10000, l'')
              else Some (0xFFFD, l)
          | None => Some (0xFFFD, l)
          end
        else Some (0xFFFD, l)
    | _ => Some (0xFFFD, l)
    end
  else Some (r, l).

Definition unescape (c : ascii) : option ascii :=
  if Ascii.eqb c dquote || Ascii.eqb c bslash || Ascii.eqb c "/" then Some c
  else if Ascii.eqb c "b" then Some "008"
  else if Ascii.eqb c "f" then Some "012"
  else if Ascii.eqb c "n" then Some "010"
  else if Ascii.eqb c "r" then Some "013"
  else if Ascii.eqb c "t" then Some "009"
  else None.

(** The inside of a string, up to and over its closing quote. *)
Fixpoint parse_str (fuel : nat) (l : list ascii) : option (list ascii * list ascii) :=
  match fuel, l with
  | S fuel, c :: l' =>
      if Ascii.eqb c dquote then Some ([], l')
      else if Ascii.eqb c bslash then
        match l' with
        | e :: l'' =>
            if Ascii.eqb e "u" then
              '(r, l3) ← u_rune l''; '(s, rest) ← parse_str fuel l3; Some (encode_rune r ++ s, rest)
            else
              x ← unescape e; '(s, rest) ← parse_str fuel l''; Some (x :: s, rest)
        | [] => None
        end
      else if (nat_of_ascii c <? 32)%nat then None
      else if (nat_of_ascii c <? 128)%nat then '(s, rest) ← parse_str fuel l'; Some (c :: s, rest)
      else
        let w := rune_width l in
        '(s, rest) ← parse_str fuel (drop w l);
        Some ((if (w =? 1)%nat then encode_rune 0xFFFD else take w l) ++ s, rest)
  | _, _ => None
  end.

Definition is_digit (c : ascii) : bool := match dec_digit c with Some _ => true | None => false end.
Fixpoint digit_run (l : list ascii) : list ascii * list ascii :=
  match l with
  | c :: l' => if is_digit c then let '(d, r) := digit_run l' in (c :: d, r) else ([], l)
  | [] => ([], [])
  end.

(** A digit at least. *)
Definition digits1 (l : list ascii) : option (list ascii * list ascii) :=
  match digit_run l with ([], _) => None | x => Some x end.

Definition scan_frac (l : list ascii) : option (list ascii * list ascii) :=
  match l with
  | "." :: l' => '(d, r) ← digits1 l'; Some ("." :: d, r)
  | _ => Some ([], l)
  end.

Definition scan_exp (l : list ascii) : option (list ascii * list ascii) :=
  match l with
  | e :: l' =>
      if Ascii.eqb e "e" || Ascii.eqb e "E" then
        match l' with
        | s :: l'' =>
            if Ascii.eqb s "+" || Ascii.eqb s "-" then '(d, r) ← digits1 l''; Some (e :: s :: d, r)
            else '(d, r) ← digits1 l'; Some (e :: d, r)
        | [] => None
        end
      else Some ([], l)
  | [] => Some ([], l)
  end.

Definition scan_unsigned (l : list ascii) : option (list ascii * list ascii) :=
  '(i, l) ← match l with "0" :: l' => Some (["0"], l') | _ => digits1 l end;
  '(f, l) ← scan_frac l; '(e, l) ← scan_exp l; Some (i ++ f ++ e, l).

Definition scan_number (l : list ascii) : option (list ascii * list ascii) :=
  match l with
  | "-" :: l' => '(t, r) ← scan_unsigned l'; Some ("-" :: t, r)
  | _ => scan_unsigned l
  end.

Fixpoint strip (p l : list ascii) : option (list ascii) :=
  match p, l with
  | [], _ => Some l
  | a :: p, b :: l => if Ascii.eqb a b then strip p l else None
  | _, [] => None
  end.

(** [depth] is what is left of maxNestingDepth. *)
Fixpoint parse_value (fuel : nat) (depth : Z) (l : list ascii) {struct fuel} : option (json * list ascii) :=
  match fuel with
  | O => None
  | S fuel =>
      match skip_ws l with
      | [] => None
      | c :: r =>
          if Ascii.eqb c "{" then
            if depth <=? 0 then None
            else match skip_ws r with
                 | "}" :: r' => Some (JObj [], r')
                 | _ => '(ms, r') ← parse_members fuel (depth - 1) r; Some (JObj ms, r')
                 end
          else if Ascii.eqb c "[" then
            if depth <=? 0 then None
            else match skip_ws r with
                 | "]" :: r' => Some (JArr [], r')
                 | _ => '(es, r') ← parse_elems fuel (depth - 1) r; Some (JArr es, r')
                 end
          else if Ascii.eqb c dquote then '(s, r') ← parse_str (List.length r) r; Some (JStr s, r')
          else if Ascii.eqb c "t" then r' ← strip (to_l "rue") r; Some (JBool true, r')
          else if Ascii.eqb c "f" then r' ← strip (to_l "alse") r; Some (JBool false, r')
          else if Ascii.eqb c "n" then r' ← strip (to_l "ull") r; Some (JNull, r')
          else '(t, r') ← scan_number (c :: r); Some (JNum t, r')
      end
  end
with parse_elems (fuel : nat) (depth : Z) (l : list ascii) {struct fuel} : option (list json * list ascii) :=
  match fuel with
  | O => None
  | S fuel =>
      '(v, r) ← parse_value fuel depth l;
      match skip_ws r with
      | "," :: r => '(vs, r') ← parse_elems fuel depth r; Some (v :: vs, r')
      | "]" :: r => Some ([v], r)
      | _ => None
      end
  end
with parse_members (fuel : nat) (depth : Z) (l : list ascii) {struct fuel} : option (list (list ascii * json) * list ascii) :=
  match fuel with
  | O => None
  | S fuel =>
      match skip_ws l with
      | c :: r =>
          if negb (Ascii.eqb c dquote) then None
          else
            '(k, r) ← parse_str (List.length r) r;
            match skip_ws r with
            | ":" :: r =>
                '(v, r) ← parse_value fuel depth r;
                match skip_ws r with
                | "," :: r => '(ms, r') ← parse_members fuel depth r; Some ((k, v) :: ms, r')
                | "}" :: r => Some ([(k, v)], r)
                | _ => None
                end
            | _ => None
            end
      | [] => None
      end
  end.

Definition maxNestingDepth : Z := 10000.

(** The first value of a text, and what is left of it: Decoder.Decode. *)
Definition parse (l : list ascii) : option (json * list ascii) := parse_value (S (2 * List.length l)) maxNestingDepth l.

(** json.Unmarshal takes one value and nothing after it. *)
Definition Unmarshal (l : list ascii) : option json :=
  '(v, r) ← parse l; match skip_ws r with [] => Some v | _ => None end.

(** Decoder.More, which a closing bracket ends too. *)
Definition More (rest : list ascii) : bool :=
  match skip_ws rest with
  | [] => false
  | c :: _ => negb (Ascii.eqb c "]") && negb (Ascii.eqb c "}")
  end.
