(* ===== verification/JsonFacts.v ===== *)
(** * What is written reads back

    Every value whose strings are valid UTF-8 and whose numbers are decimal
    integers reads back as itself from what the encoder prints, in either layout. *)

From S2P Require Import Prelude GoStrings Netip Text Json.

Local Open Scope char_scope.
Local Open Scope Z_scope.

(** ** Strings *)

(** A rune's width depends on its own bytes only. *)
Lemma rune_width_own s t : (1 < rune_width s)%nat → rune_width (take (rune_width s) s ++ t) = rune_width s.
Proof.
  assert (∀ lo hi, cont lo hi None = false) as Hn by done.
  destruct s as [|c s]; [cbn; lia|]. destruct s as [|c1 s]; [|destruct s as [|c2 s]; [|destruct s as [|c3 s]]];
    cbn [rune_width lookup list_lookup]; rewrite ?Hn, ?andb_false_r; cbn [orb]; try lia.
  all: repeat match goal with
    | |- context [if ?b then _ else _] => destruct b eqn:?
    end; try lia; intros _; cbn [take app rune_width lookup list_lookup];
    rewrite ?Hn, ?andb_false_r; cbn [orb];
    repeat match goal with H : ?b = _ |- context [if ?b then _ else _] => rewrite H end; done.
Qed.

Lemma rune_width_bounds s : s ≠ [] → (1 ≤ rune_width s ≤ List.length s)%nat.
Proof.
  assert (∀ lo hi, cont lo hi None = false) as Hn by done.
  intros Hs. destruct s as [|c s]; [done|]. destruct s as [|c1 s]; [|destruct s as [|c2 s]; [|destruct s as [|c3 s]]];
    cbn [rune_width lookup list_lookup List.length]; rewrite ?Hn, ?andb_false_r; cbn [orb];
    repeat match goal with |- context [if ?b then _ else _] => destruct b end; lia.
Qed.

Lemma valid_skip k s : valid_go k s = true → valid_go 0 (drop k s) = true.
Proof. revert s. induction k as [|k IH]; intros [|c s] Hv; try done. simpl in Hv. simpl. by apply IH. Qed.

(** What an ASCII byte is written as: itself, a one-letter escape, or four digits. *)
Lemma esc_byte_cases html c : (nat_of_ascii c < 128)%nat →
  (esc_byte html c = [c] ∧ Ascii.eqb c dquote = false ∧ Ascii.eqb c bslash = false ∧ (nat_of_ascii c <? 32)%nat = false) ∨
  (∃ e, esc_byte html c = [bslash; e] ∧ Ascii.eqb e "u" = false ∧ unescape e = Some c) ∨
  (∃ l r, esc_byte html c = bslash :: "u" :: l ∧ (∀ t, u_rune (l ++ t) = Some (r, t)) ∧ encode_rune r = [c]).
Proof.
  intros Hc. destruct c as [[] [] [] [] [] [] [] []]; try (exfalso; vm_compute in Hc; lia); destruct html;
    first [left; vm_compute; done
          |right; left; eexists; vm_compute; done
          |right; right; eexists _, _; split; [vm_compute; reflexivity|split; [intros t; vm_compute; reflexivity|vm_compute; reflexivity]]].
Qed.

Lemma u_escape_separator n t : n = 8232 ∨ n = 8233 →
  ∃ l, u_escape n = bslash :: "u" :: l ∧ u_rune (l ++ t) = Some (n, t).
Proof. intros [-> | ->]; eexists; split; try reflexivity; vm_compute; reflexivity. Qed.

Lemma line_separator_spec s n : line_separator s = Some n →
  (n = 8232 ∨ n = 8233) ∧ s = (encode_rune n ++ drop 3 s)%list ∧ (3 ≤ List.length s)%nat.
Proof.
  unfold line_separator. intros Hs.
  repeat (match type of Hs with context [match ?x with _ => _ end] => destruct x; try discriminate end);
    injection Hs as <-; (split; [auto|split; [vm_compute; reflexivity|cbn [List.length]; lia]]).
Qed.

Lemma rune_width_ascii c s : (nat_of_ascii c < 128)%nat → rune_width (c :: s) = 1%nat.
Proof.
  intros Hc. cbn [rune_width]. cbv zeta.
  repeat match goal with |- context [if ?b then _ else _] => destruct b eqn:?; [exfalso|] end; [..|done];
    repeat match goal with H : _ && _ = true |- _ => apply andb_prop in H as [H _] end;
    repeat match goal with H : _ || _ = true |- _ => apply orb_prop in H as [H|H] end;
    repeat match goal with H : _ && _ = true |- _ => apply andb_prop in H as [H _] end; breflect; lia.
Qed.

(** A valid rune above ASCII is read as it is written. *)
Lemma valid_rune c s : (128 ≤ nat_of_ascii c)%nat → valid_go 0 (c :: s) = true →
  (1 < rune_width (c :: s) ≤ List.length (c :: s))%nat ∧ valid_go 0 (drop (rune_width (c :: s)) (c :: s)) = true.
Proof.
  intros Hc Hv. pose proof (rune_width_bounds (c :: s) ltac:(done)) as Hb. cbn [valid_go] in Hv. apply andb_prop in Hv as [Hw Hv].
  apply orb_prop in Hw as [Hw|Hw]; breflect; [lia|]. split; [lia|]. apply valid_skip in Hv.
  destruct (rune_width (c :: s)) as [|w]; [lia|]. replace (S w - 1)%nat with w in Hv by lia. exact Hv.
Qed.

Lemma parse_u fuel l r t s rest : u_rune (l ++ t) = Some (r, t) → parse_str fuel t = Some (s, rest) →
  parse_str (S fuel) (bslash :: "u" :: l ++ t) = Some ((encode_rune r ++ s)%list, rest).
Proof. intros Hu Ht. cbn [parse_str]. simpl (Ascii.eqb _ _). cbv iota. rewrite Hu. cbn [mbind option_bind]. by rewrite Ht. Qed.

Lemma parse_quote html fuel : ∀ fuel' s rest, (List.length s ≤ fuel)%nat → (List.length s < fuel')%nat → valid_go 0 s = true →
  parse_str fuel' (quote_go fuel html s ++ dquote :: rest) = Some (s, rest).
Proof.
  induction fuel as [|fuel IH]; intros fuel' [|c s] rest Hf Hf' Hv; try (simpl in Hf; lia);
    destruct fuel' as [|fuel']; try (simpl in Hf'; lia); try done.
  assert (∀ k, (0 < k ≤ List.length (c :: s))%nat → valid_go 0 (drop k (c :: s)) = true →
    parse_str fuel' (quote_go fuel html (drop k (c :: s)) ++ dquote :: rest) = Some (drop k (c :: s), rest)) as Hd.
  { intros k Hk Hv'. cbn [List.length] in *. apply IH; rewrite ?length_drop; cbn [List.length]; [lia|lia|done]. }
  cbn [quote_go]. destruct (nat_of_ascii c <? 128)%nat eqn:Ec; breflect.
  - specialize (Hd 1%nat ltac:(simpl; lia)). change (drop 1 (c :: s)) with s in Hd. rewrite <- app_assoc.
    assert (valid_go 0 s = true) as Hvs.
    { cbn [valid_go] in Hv. apply andb_prop in Hv as [_ Hv]. by rewrite rune_width_ascii in Hv by lia. }
    specialize (Hd Hvs). destruct (esc_byte_cases html c ltac:(lia)) as [(-> & Eq & Eb & E32)|[(e & -> & Eu & Ex)|(l & r & -> & Hu & Er)]].
    + cbn [app parse_str]. rewrite Eq, Eb, E32. replace (nat_of_ascii c <? 128)%nat with true by (symmetry; by apply Nat.ltb_lt).
      by rewrite Hd.
    + cbn [app parse_str]. simpl (Ascii.eqb bslash _). cbv iota. rewrite Eu, Ex. cbn [mbind option_bind]. by rewrite Hd.
    + cbn [app]. rewrite (parse_u _ _ _ _ _ _ (Hu _) Hd), Er. done.
  - destruct (valid_rune c s ltac:(lia) Hv) as [Hw Hvd]. destruct (line_separator (c :: s)) as [n|] eqn:El.
    + destruct (line_separator_spec _ _ El) as (Hn & Es & Hl). rewrite <- app_assoc.
      destruct (u_escape_separator n (quote_go fuel html (drop 3 (c :: s)) ++ dquote :: rest) Hn) as (l & -> & Hu).
      cbn [app]. rewrite (parse_u _ _ _ _ (drop 3 (c :: s)) rest Hu); [by rewrite <- Es|].
      apply Hd; [lia|]. assert (rune_width (c :: s) = 3%nat) as <-; [|exact Hvd].
      rewrite Es. destruct Hn as [-> | ->]; reflexivity.
    + cbv zeta. rewrite (proj2 (Nat.eqb_neq _ _)) by lia. set (w := rune_width (c :: s)) in *. rewrite <- app_assoc.
      pose proof (rune_width_own (c :: s) (quote_go fuel html (drop w (c :: s)) ++ dquote :: rest) ltac:(fold w; lia)) as Ho.
      fold w in Ho. specialize (Hd w ltac:(lia) Hvd). destruct (take w (c :: s)) as [|c' tl] eqn:Et.
      { destruct w; [lia|done]. }
      assert (c' = c) as -> by (destruct w; [lia|]; simpl in Et; congruence).
      cbn [app parse_str]. cbn [app] in Ho. rewrite Ho.
      assert (Ascii.eqb c dquote = false) as -> by (apply Ascii.eqb_neq; intros ->; vm_compute in Ec; lia).
      assert (Ascii.eqb c bslash = false) as -> by (apply Ascii.eqb_neq; intros ->; vm_compute in Ec; lia).
      rewrite (proj2 (Nat.ltb_ge _ 32)), (proj2 (Nat.ltb_ge _ 128)), (proj2 (Nat.eqb_neq w 1)) by lia.
      change (c :: tl ++ ?x) with ((c :: tl) ++ x). rewrite <- Et.
      assert (List.length (take w (c :: s)) = w) as Hlen by (rewrite length_take; lia).
      rewrite drop_app_length', take_app_length' by done. rewrite Hd. cbn [mbind option_bind].
      by rewrite take_drop.
Qed.

(** ** Integers *)

Lemma dec_digit_of n : (n < 10)%N → dec_digit (ascii_of_N (48 + n)) = Some (Z.of_N n).
Proof.
  intros Hn. assert (forallb (λ n, bool_decide (dec_digit (ascii_of_N (48 + Z.to_N n)) = Some n)) (seqZ 0 10) = true) as Ha
    by (vm_compute; reflexivity).
  rewrite forallb_forall in Ha. specialize (Ha (Z.of_N n)). rewrite <- list_elem_of_In, elem_of_seqZ in Ha.
  specialize (Ha ltac:(lia)). breflect. by rewrite N2Z.id in Ha.
Qed.

Definition read_digit (acc : option Z) (c : ascii) : option Z := v ← acc; d ← dec_digit c; Some (10 * v + d).

(** Digits, the first of which is not a zero unless it is the only one; and what
    they are worth. *)
Lemma digits_spec fuel n acc :
  (n < 10 ^ N.of_nat fuel)%N → (0 < fuel)%nat →
  ∃ d ds, to_l (digits_fuel fuel n acc) = (d :: ds) ++ to_l acc ∧ Forall (λ c, is_digit c = true) (d :: ds) ∧
    (d = "0" → ds = []) ∧ foldl read_digit (Some 0) (d :: ds) = Some (Z.of_N n) ∧ (n ≠ 0%N → d ≠ "0").
Proof.
  revert n acc. induction fuel as [|f IH]; intros n acc Hn Hf; [lia|]. cbn [digits_fuel].
  rewrite Nat2N.inj_succ, N.pow_succ_r' in Hn. pose proof (N.Div0.div_mod n 10) as Hdm.
  assert (n mod 10 < 10)%N as Hm by (apply N.mod_lt; lia).
  assert (is_digit (ascii_of_N (48 + n mod 10)) = true) as Hd by (unfold is_digit; by rewrite dec_digit_of).
  destruct (n / 10 =? 0)%N eqn:E.
  - apply N.eqb_eq in E. exists (ascii_of_N (48 + n mod 10)), []. split_and!; [done|by repeat constructor|done| |].
    + simpl. unfold read_digit. simpl. rewrite dec_digit_of by done. simpl. f_equal. lia.
    + intros Hz Hc. apply (f_equal dec_digit) in Hc. rewrite dec_digit_of in Hc by done. change (dec_digit "0") with (Some 0) in Hc. injection Hc as Hc. lia.
  - apply N.eqb_neq in E. destruct (IH (n / 10)%N (String (ascii_of_N (48 + n mod 10)) acc)) as (d & ds & El & Hall & _ & Hv & Hnz).
    { apply N.Div0.div_lt_upper_bound; lia. }
    { destruct f; [|lia]. simpl in Hn. exfalso. apply E, N.div_small. lia. }
    exists d, (ds ++ [ascii_of_N (48 + n mod 10)])%list. specialize (Hnz E). split_and!; [|..|done].
    + rewrite El. unfold to_l. simpl. by rewrite <- app_assoc.
    + change (d :: ds ++ ?x) with ((d :: ds) ++ x). apply Forall_app. split; [done|by repeat constructor].
    + done.
    + change (d :: ds ++ ?x) with ((d :: ds) ++ x). rewrite foldl_app, Hv. simpl. rewrite dec_digit_of by done. simpl. f_equal. lia.
Qed.

Lemma Itoa_nonneg z : 0 ≤ z →
  ∃ d ds, to_l (Itoa z) = d :: ds ∧ Forall (λ c, is_digit c = true) (d :: ds) ∧ (d = "0" → ds = []) ∧
    foldl read_digit (Some 0) (d :: ds) = Some z.
Proof.
  intros Hz. unfold Itoa. rewrite (proj2 (Z.ltb_ge _ _)) by done. set (n := Z.abs_N z).
  destruct (digits_spec (S (N.to_nat (N.log2 n))) n "") as (d & ds & El & Hall & H0 & Hv & _); [|lia|].
  - destruct (decide (n = 0%N)) as [->|Hn]; [done|].
    apply N.lt_le_trans with (2 ^ N.succ (N.log2 n))%N; [apply N.log2_spec; lia|].
    rewrite Nat2N.inj_succ, N2Nat.id. apply N.pow_le_mono_l. lia.
  - exists d, ds. rewrite El, app_nil_r. split_and!; [done..|]. rewrite Hv. f_equal. lia.
Qed.

Lemma Itoa_neg z : z < 0 → Itoa z = String "-" (Itoa (- z)).
Proof.
  intros Hz. unfold Itoa. rewrite (proj2 (Z.ltb_lt z 0)) by done. rewrite (proj2 (Z.ltb_ge (- z) 0)) by lia.
  by rewrite Zabs2N.inj_opp.
Qed.

(** What may follow a number: nothing that could be read as part of it. *)
Definition ends (rest : list ascii) : Prop :=
  match rest with
  | [] => True
  | c :: _ => is_digit c = false ∧ c ≠ "." ∧ c ≠ "e" ∧ c ≠ "E"
  end.

Lemma digit_run_app l rest : Forall (λ c, is_digit c = true) l → ends rest → digit_run (l ++ rest) = (l, rest).
Proof.
  intros Hl Hr. induction Hl as [|c l Hc Hl IH]; simpl; [|by rewrite Hc, IH].
  destruct rest as [|c rest]; [done|]. destruct Hr as [Hr _]. simpl. by rewrite Hr.
Qed.

Lemma scan_ends rest : ends rest → scan_frac rest = Some ([], rest) ∧ scan_exp rest = Some ([], rest).
Proof.
  destruct rest as [|c rest]; [done|]. intros (_ & H1 & H2 & H3). split.
  - unfold scan_frac. destruct c as [[] [] [] [] [] [] [] []]; done.
  - unfold scan_exp. by rewrite (proj2 (Ascii.eqb_neq c "e")), (proj2 (Ascii.eqb_neq c "E")).
Qed.

Lemma scan_digits d ds rest : Forall (λ c, is_digit c = true) (d :: ds) → (d = "0" → ds = []) → ends rest →
  scan_unsigned ((d :: ds) ++ rest) = Some (d :: ds, rest).
Proof.
  intros Hd H0 Hr. destruct (scan_ends rest Hr) as [Hf He]. unfold scan_unsigned.
  assert (match (d :: ds) ++ rest with "0" :: l' => Some (["0"], l') | _ => digits1 ((d :: ds) ++ rest) end = Some (d :: ds, rest)) as ->.
  { pose proof (digit_run_app (d :: ds) rest Hd Hr) as Hrun. unfold digits1. rewrite Hrun. cbn [app].
    destruct (decide (d = "0")) as [->|Hn]; [by rewrite (H0 eq_refl)|]. destruct d as [[] [] [] [] [] [] [] []]; done. }
  cbn [mbind option_bind]. rewrite Hf. cbn [mbind option_bind]. rewrite He. cbn [mbind option_bind]. by rewrite !app_nil_r.
Qed.

Lemma scan_Itoa z rest : ends rest → scan_number (to_l (Itoa z) ++ rest) = Some (to_l (Itoa z), rest).
Proof.
  intros Hr. destruct (decide (0 ≤ z)) as [Hz|Hz].
  - destruct (Itoa_nonneg z Hz) as (d & ds & -> & Hd & H0 & _). pose proof (scan_digits d ds rest Hd H0 Hr) as Hs.
    unfold scan_number. cbn [app] in *. inversion Hd as [|? ? Hdd]; subst. destruct d as [[] [] [] [] [] [] [] []]; done.
  - rewrite Itoa_neg by lia. destruct (Itoa_nonneg (- z) ltac:(lia)) as (d & ds & E & Hd & H0 & _).
    unfold to_l in *. cbn [String.list_ascii_of_string]. rewrite E. cbn [app scan_number].
    change (d :: ds ++ rest) with ((d :: ds) ++ rest). by rewrite scan_digits.
Qed.

Lemma Atoi_Itoa z : - 2 ^ 63 ≤ z < 2 ^ 63 → Atoi (Itoa z) = Some z.
Proof.
  intros Hb. assert (∀ z l, foldl read_digit (Some 0) l = Some z → l ≠ [] → digits_value l = Some z) as Hdv.
  { intros z' l Hl Hn. by destruct l. }
  unfold Atoi. destruct (decide (0 ≤ z)) as [Hz|Hz].
  - destruct (Itoa_nonneg z Hz) as (d & ds & -> & Hd & _ & Hv).
    specialize (Hdv z (d :: ds) Hv ltac:(done)). inversion Hd as [|? ? Hdd]; subst.
    destruct d as [[] [] [] [] [] [] [] []]; try discriminate Hdd; cbv iota; rewrite Hdv; cbn [mbind option_bind];
      by rewrite (proj2 (Z.leb_le _ _)), (proj2 (Z.ltb_lt _ _)) by lia.
  - rewrite Itoa_neg by lia. destruct (Itoa_nonneg (- z) ltac:(lia)) as (d & ds & E & Hd & _ & Hv).
    unfold to_l in *. cbn [String.list_ascii_of_string]. rewrite E. rewrite (Hdv (- z)) by done. cbn [mbind option_bind].
    rewrite Z.opp_involutive, (proj2 (Z.leb_le _ _)), (proj2 (Z.ltb_lt _ _)) by lia. done.
Qed.

(** ** Values *)

Section Induction.
Context (P : json → Prop).
Context (HN : P JNull) (HB : ∀ b, P (JBool b)) (HU : ∀ t, P (JNum t)) (HS : ∀ s, P (JStr s)).
Context (HA : ∀ l, Forall P l → P (JArr l)) (HO : ∀ l, Forall (P ∘ snd) l → P (JObj l)).

Fixpoint json_nested_ind (v : json) : P v :=
  match v with
  | JNull => HN
  | JBool b => HB b
  | JNum t => HU t
  | JStr s => HS s
  | JArr l => HA l ((fix go l := match l return Forall P l with
                                 | [] => Forall_nil_2 P
                                 | x :: l => Forall_cons_2 P x l (json_nested_ind x) (go l)
                                 end) l)
  | JObj l => HO l ((fix go l := match l return Forall (P ∘ snd) l with
                                 | [] => Forall_nil_2 (P ∘ snd)
                                 | x :: l => Forall_cons_2 (P ∘ snd) x l (json_nested_ind (snd x)) (go l)
                                 end) l)
  end.
End Induction.

(** Strings in UTF-8, integers, and no deeper than [d]. *)
Fixpoint plain (d : nat) (v : json) {struct v} : Prop :=
  match v with
  | JNull | JBool _ => True
  | JNum t => ∃ z, t = to_l (Itoa z)
  | JStr s => valid_go 0 s = true
  | JArr l => match d with O => False | S d => foldr and True (List.map (plain d) l) end
  | JObj l => match d with O => False | S d => foldr and True (List.map (λ p, match p with (k, y) => valid_go 0 k = true ∧ plain d y end) l) end
  end.

Fixpoint jsize (v : json) : nat :=
  match v with
  | JArr l => S (foldr (λ n m, S (n + m)) 0 (List.map jsize l))
  | JObj l => S (foldr (λ n m, S (n + m)) 0 (List.map (λ p, match p with (_, y) => jsize y end) l))
  | _ => 1
  end%nat.

Lemma skip_ws_app w l : forallb is_ws w = true → skip_ws (w ++ l) = skip_ws l.
Proof. induction w as [|c w IH]; simpl; [done|]. intros Hw. apply andb_prop in Hw as [-> Hw]. auto. Qed.

Section Roundtrip.
Context (html : bool) (lay : layout).
Hypothesis nl_blank : ∀ d, forallb is_ws (nl lay d) = true.
Hypothesis sp_blank : forallb is_ws (sp lay) = true.

Local Abbreviation text := (print html lay).

Lemma length_quote fuel s : (List.length s ≤ fuel)%nat → (List.length s ≤ List.length (quote_go fuel html s))%nat.
Proof.
  revert s. induction fuel as [|fuel IH]; intros [|c s] Hf; cbn [quote_go List.length] in *; try lia.
  destruct (nat_of_ascii c <? 128)%nat eqn:Ec; breflect.
  - rewrite length_app. specialize (IH s ltac:(lia)).
    destruct (esc_byte_cases html c ltac:(lia)) as [(-> & _)|[(e & -> & _)|(l & r & -> & _)]]; simpl; lia.
  - destruct (line_separator (c :: s)) as [n|] eqn:El.
    + rewrite length_app. specialize (IH (drop 3 (c :: s))). rewrite length_drop in IH. cbn [List.length] in IH.
      specialize (IH ltac:(lia)). change (List.length (u_escape n)) with 6%nat. lia.
    + cbv zeta. pose proof (rune_width_bounds (c :: s) ltac:(done)) as Hw. cbn [List.length] in Hw. rewrite length_app.
      specialize (IH (drop (rune_width (c :: s)) (c :: s))). rewrite length_drop in IH. cbn [List.length] in IH. specialize (IH ltac:(lia)).
      destruct (rune_width (c :: s) =? 1)%nat eqn:E1; breflect; [change (List.length (u_escape 65533)) with 6%nat; lia|].
      rewrite length_take. cbn [List.length]. lia.
Qed.

Lemma parse_quoted s rest : valid_go 0 s = true →
  ∃ r, quoted html s ++ rest = dquote :: r ∧ parse_str (List.length r) r = Some (s, rest).
Proof.
  intros Hv. exists (quote_go (List.length s) html s ++ dquote :: rest). unfold quoted. split; [simpl; by rewrite <- app_assoc|].
  apply parse_quote; [lia| |done]. rewrite length_app. cbn [List.length]. pose proof (length_quote (List.length s) s). lia.
Qed.

(** The first byte of a value is its own: it ends nothing and is no space. *)
Definition opens (l : list ascii) : Prop :=
  match l with c :: _ => is_ws c = false ∧ c ≠ "]" ∧ c ≠ "}" | [] => False end.

Lemma print_opens d n v rest : plain n v → opens (text d v ++ rest).
Proof.
  destruct v as [|[]|t|s|l|l]; cbn [plain print]; try (intros _; hnf; split_and!; done).
  - intros [z ->]. destruct (decide (0 ≤ z)) as [Hz|Hz].
    + destruct (Itoa_nonneg z Hz) as (c & ds & -> & Hd & _). inversion Hd as [|? ? Hc]; subst. simpl.
      destruct c as [[] [] [] [] [] [] [] []]; done.
    + rewrite Itoa_neg by lia. done.
  - intros _. unfold bracket. by destruct (List.map _ l).
  - intros _. unfold bracket. by destruct (List.map _ l).
Qed.

Lemma ends_blank w c rest : forallb is_ws w = true → ends (c :: rest) → ends (w ++ c :: rest).
Proof.
  destruct w as [|a w]; simpl; [done|]. intros Hw _. apply andb_prop in Hw as [Hw _].
  destruct a as [[] [] [] [] [] [] [] []]; try discriminate Hw; split_and!; done.
Qed.

Definition reads_back (v : json) : Prop := ∀ d n fuel depth rest,
  plain n v → Z.of_nat n ≤ depth → (jsize v ≤ fuel)%nat → ends rest →
  parse_value fuel depth (text d v ++ rest) = Some (v, rest).

Lemma parse_value_ws fuel depth w l : forallb is_ws w = true → parse_value fuel depth (w ++ l) = parse_value fuel depth l.
Proof. intros Hw. destruct fuel as [|fuel]; [done|]. cbn [parse_value]. by rewrite skip_ws_app. Qed.

Definition total (l : list nat) : nat := foldr (λ n m, S (n + m)) 0%nat l.

(** The rest of a bracket, after its first element. *)
Definition tail_of (d : nat) (close : ascii) (l : list (list ascii)) (rest : list ascii) : list ascii :=
  concat (List.map (λ y, "," :: nl lay (S d) ++ y) l) ++ nl lay d ++ close :: rest.

Lemma tail_ends d close l rest : ends (close :: rest) → ends (tail_of d close l rest).
Proof. intros Hc. unfold tail_of. destruct l; [by apply ends_blank|done]. Qed.

Lemma tail_cons d close x l rest : tail_of d close (x :: l) rest = "," :: nl lay (S d) ++ x ++ tail_of d close l rest.
Proof. unfold tail_of. simpl. by rewrite <- !app_assoc. Qed.

Lemma tail_nil d close rest : is_ws close = false → skip_ws (tail_of d close [] rest) = close :: rest.
Proof. intros Hc. unfold tail_of. simpl. rewrite skip_ws_app by done. simpl. by rewrite Hc. Qed.

Lemma elems_read_back d n depth rest l : Forall reads_back l → Z.of_nat n ≤ depth → ∀ x w fuel,
  reads_back x → foldr and True (List.map (plain n) (x :: l)) → forallb is_ws w = true →
  (total (List.map jsize (x :: l)) ≤ fuel)%nat →
  parse_elems fuel depth (w ++ text (S d) x ++ tail_of d "]" (List.map (text (S d)) l) rest) = Some (x :: l, rest).
Proof.
  intros Hl Hd. induction Hl as [|y l Hy Hl IH]; intros x w fuel Hx [Hp Hps] Hw Hs; (destruct fuel as [|fuel]; [simpl in Hs; lia|]);
    cbn [List.map total foldr] in Hs; cbn [parse_elems]; rewrite parse_value_ws by done; rewrite (Hx (S d) n) by (done || lia || by apply tail_ends);
    cbn [mbind option_bind].
  - cbn [List.map]. by rewrite tail_nil.
  - cbn [List.map]. rewrite tail_cons. cbn [skip_ws]. change (is_ws ",") with false. cbv iota. rewrite IH; [done|done|done|apply nl_blank|].
    unfold total. cbn [List.map foldr]. lia.
Qed.

Lemma members_read_back d n depth rest l : Forall (reads_back ∘ snd) l → Z.of_nat n ≤ depth → ∀ k x w fuel,
  reads_back x → foldr and True (List.map (λ p, match p with (k, y) => valid_go 0 k = true ∧ plain n y end) ((k, x) :: l)) →
  forallb is_ws w = true → (total (List.map (λ p, match p with (_, y) => jsize y end) ((k, x) :: l)) ≤ fuel)%nat →
  parse_members fuel depth (w ++ member html lay d k (text (S d) x) ++
    tail_of d "}" (List.map (λ p, match p with (k, y) => member html lay d k (text (S d) y) end) l) rest) = Some ((k, x) :: l, rest).
Proof.
  intros Hl Hd. induction Hl as [|[k' y] l Hy Hl IH]; intros k x w fuel Hx [[Hk Hp] Hps] Hw Hs;
    (destruct fuel as [|fuel]; [simpl in Hs; lia|]); cbn [List.map total foldr] in Hs; cbn [parse_members];
    rewrite skip_ws_app by done; unfold member at 1; rewrite <- app_assoc;
    match goal with |- context [quoted html k ++ ?t] => destruct (parse_quoted k t Hk) as (r & -> & Er) end;
    cbn [skip_ws]; change (is_ws dquote) with false; cbv iota; rewrite Ascii.eqb_refl; cbn [negb]; rewrite Er; cbn [mbind option_bind app skip_ws];
    change (is_ws ":") with false; cbv iota; rewrite <- app_assoc; rewrite parse_value_ws by done;
    rewrite (Hx (S d) n) by (done || lia || by apply tail_ends); cbn [mbind option_bind].
  - cbn [List.map]. by rewrite tail_nil.
  - cbn [List.map]. rewrite tail_cons. cbn [skip_ws]. change (is_ws ",") with false. cbv iota. rewrite IH; [done|done|done|apply nl_blank|].
    unfold total. cbn [List.map foldr]. lia.
Qed.

(** A bracket that holds something does not close at once. *)
Lemma skip_ws_opens w l : forallb is_ws w = true → opens l → ∃ c r, skip_ws (w ++ l) = c :: r ∧ c ≠ "]" ∧ c ≠ "}".
Proof.
  intros Hw Ho. rewrite skip_ws_app by done. destruct l as [|c l]; [done|]. destruct Ho as (Hc & H1 & H2).
  exists c, l. simpl. by rewrite Hc.
Qed.

Lemma print_reads_back v : reads_back v.
Proof.
  induction v as [|b|t|s|l IH|l IH] using json_nested_ind; intros d n fuel depth rest Hp Hd Hs Hr;
    (destruct fuel as [|fuel]; [simpl in Hs; lia|]).
  - done.
  - by destruct b.
  - destruct Hp as [z ->]. pose proof (print_opens d n (JNum (to_l (Itoa z))) rest ltac:(by exists z)) as Ho. cbn [print] in *.
    pose proof (scan_Itoa z rest Hr) as Hz. cbn [parse_value]. destruct (to_l (Itoa z) ++ rest) as [|c r] eqn:E; [done|].
    destruct Ho as (Hw & _). cbn [skip_ws]. rewrite Hw.
    assert (is_digit c = true ∨ c = "-") as Hc.
    { destruct (decide (0 ≤ z)) as [Hz0|Hz0].
      - destruct (Itoa_nonneg z Hz0) as (c' & ds & Ec & Hds & _). rewrite Ec in E. cbn [app] in E. injection E as -> _. inversion Hds. auto.
      - rewrite Itoa_neg in E by lia. unfold to_l in E. cbn [String.list_ascii_of_string app] in E. injection E as <- _. auto. }
    clear E. rewrite Hz. destruct Hc as [Hc| ->]; [destruct c as [[] [] [] [] [] [] [] []]; try discriminate Hc|]; reflexivity.
  - destruct (parse_quoted s rest Hp) as (r & E & Er). cbn [print parse_value]. rewrite E. cbn [skip_ws].
    change (is_ws dquote) with false. cbv iota. change (if Ascii.eqb dquote "{" then ?a else if Ascii.eqb dquote "[" then ?b else if Ascii.eqb dquote dquote then ?c else ?d) with c.
    by rewrite Er.
  - destruct n as [|n]; [done|]. cbn [plain] in Hp. cbn [print]. destruct l as [|x l].
    { cbn [List.map bracket app parse_value skip_ws]. simpl. by rewrite (proj2 (Z.leb_gt _ _)) by lia. }
    inversion IH as [|? ? Hx Hl]; subst. cbn [List.map bracket app]. rewrite <- !app_assoc. cbn [app].
    fold (tail_of d "]" (List.map (text (S d)) l) rest). cbn [parse_value skip_ws]. change (is_ws "[") with false. cbv iota.
    change (if Ascii.eqb "[" "{" then ?a else if Ascii.eqb "[" "[" then ?b else ?c) with b.
    rewrite (proj2 (Z.leb_gt _ _)) by lia.
    destruct (skip_ws_opens (nl lay (S d)) (text (S d) x ++ tail_of d "]" (List.map (text (S d)) l) rest)) as (c & r & E & H1 & H2);
      [apply nl_blank|apply (print_opens _ n), Hp|].
    rewrite E, (elems_read_back d n) by (done || lia || (cbn [jsize] in Hs; unfold total; lia)).
    clear - H1 H2. destruct c as [[] [] [] [] [] [] [] []]; done.
  - destruct n as [|n]; [done|]. cbn [plain] in Hp. cbn [print]. destruct l as [|[k x] l].
    { cbn [List.map bracket app parse_value skip_ws]. simpl. by rewrite (proj2 (Z.leb_gt _ _)) by lia. }
    inversion IH as [|? ? Hx Hl]; subst. cbn [List.map bracket app]. rewrite <- !app_assoc. cbn [app].
    fold (tail_of d "}" (List.map (λ p, match p with (k, y) => member html lay d k (text (S d) y) end) l) rest).
    cbn [parse_value skip_ws]. change (is_ws "{") with false. cbv iota.
    change (if Ascii.eqb "{" "{" then ?a else ?c) with a. rewrite (proj2 (Z.leb_gt _ _)) by lia.
    match goal with |- context [skip_ws (nl lay (S d) ++ ?t)] => destruct (skip_ws_opens (nl lay (S d)) t) as (c & r & E & H1 & H2) end;
      [apply nl_blank|by unfold member, quoted|].
    rewrite E, (members_read_back d n) by (done || lia || (cbn [jsize] in Hs; unfold total; lia)).
    clear - H1 H2. destruct c as [[] [] [] [] [] [] [] []]; done.
Qed.

Lemma bracket_length d o c l : (2 + List.length (concat l) + (List.length l - 1) ≤ List.length (bracket lay d o c l))%nat.
Proof.
  destruct l as [|x l]; cbn [bracket concat List.length]; [lia|]. rewrite !length_app. cbn [List.length].
  assert (List.length (concat l) + List.length l ≤ List.length (concat (List.map (λ y, "," :: nl lay (S d) ++ y) l)))%nat.
  { induction l as [|y l IH]; [done|]. cbn [List.map concat List.length app]. rewrite !length_app. lia. }
  lia.
Qed.

Lemma total_length (f : json → nat) (g : json → list ascii) l :
  Forall (λ v, f v ≤ 2 * List.length (g v))%nat l →
  (total (List.map f l) ≤ 2 * List.length (concat (List.map g l)) + List.length l)%nat.
Proof. induction 1 as [|v l Hv Hl IH]; [done|]. cbn [List.map concat total foldr List.length]. unfold total in *. rewrite length_app. lia. Qed.

Lemma jsize_print v : ∀ d n, plain n v → (jsize v ≤ 2 * List.length (text d v))%nat.
Proof.
  induction v as [|b|t|s|l IH|l IH] using json_nested_ind; intros d n Hp; cbn [jsize print].
  - simpl. lia.
  - destruct b; simpl; lia.
  - pose proof (print_opens d n (JNum t) [] Hp) as Ho. cbn [print] in Ho. rewrite app_nil_r in Ho. destruct t; simpl in *; [done|lia].
  - unfold quoted. cbn [List.length]. lia.
  - pose proof (bracket_length d "[" "]" (List.map (text (S d)) l)) as Hb. destruct n as [|n]; [done|]. cbn [plain] in Hp.
    assert (Forall (λ v, jsize v ≤ 2 * List.length (text (S d) v))%nat l) as Hall.
    { clear Hb. induction IH as [|v l Hv Hl IHl]; [done|]. destruct Hp as [Hp Hps]. constructor; [by apply (Hv _ n)|by apply IHl]. }
    apply total_length in Hall. unfold total in Hall. rewrite length_map in Hb. lia.
  - set (g := λ p : list ascii * json, match p with (k, y) => member html lay d k (text (S d) y) end).
    pose proof (bracket_length d "{" "}" (List.map g l)) as Hb. destruct n as [|n]; [done|]. cbn [plain] in Hp.
    rewrite length_map in Hb.
    assert (total (List.map (λ p : list ascii * json, match p with (_, y) => jsize y end) l) ≤
      2 * List.length (concat (List.map g l)) + List.length l)%nat as Hall; [|unfold total in Hall; lia].
    clear Hb. induction IH as [|[k v] l Hv Hl IHl]; [done|]. destruct Hp as [[_ Hp] Hps]. specialize (IHl Hps).
    specialize (Hv (S d) n Hp). cbn [snd] in Hv.
    unfold total in *. cbn [List.map foldr concat List.length]. rewrite length_app. unfold g at 1, member. rewrite length_app.
    cbn [List.length]. rewrite length_app. unfold compose in Hv. cbn [snd] in Hv. lia.
Qed.

Lemma print_parses v n rest : plain n v → (Z.of_nat n ≤ maxNestingDepth) → ends rest →
  parse (text 0 v ++ rest) = Some (v, rest).
Proof.
  intros Hp Hn Hr. unfold parse. apply (print_reads_back v 0%nat n); [done|done| |done].
  pose proof (jsize_print v 0%nat n Hp). rewrite length_app. lia.
Qed.

End Roundtrip.

Lemma indented_blank : (∀ d, forallb is_ws (nl indented d) = true) ∧ forallb is_ws (sp indented) = true.
Proof.
  split; [|done]. intros d. simpl. induction d as [|d IH]; simpl; [done|exact IH].
Qed.

Lemma parse_Marshal v n : plain n v → Z.of_nat n ≤ maxNestingDepth → parse (Marshal v) = Some (v, []).
Proof.
  intros Hp Hn. unfold Marshal. rewrite <- (app_nil_r (print true compact 0%nat v)).
  by rewrite (print_parses true compact ltac:(done) ltac:(done) v n []).
Qed.

Lemma Unmarshal_Marshal v n : plain n v → Z.of_nat n ≤ maxNestingDepth → Unmarshal (Marshal v) = Some v.
Proof.
  intros Hp Hn. unfold Unmarshal. by rewrite (parse_Marshal v n).
Qed.

Lemma Unmarshal_EncodeIndent v n : plain n v → Z.of_nat n ≤ maxNestingDepth → Unmarshal (EncodeIndent v) = Some v.
Proof.
  intros Hp Hn. unfold Unmarshal, EncodeIndent. destruct indented_blank as [H1 H2].
  by rewrite (print_parses false indented H1 H2 v n ["010"]).
Qed.
