(* ===== verification/GoTime.v ===== *)
(** * Times as they are stored (time)

    A time is its calendar date and clock in its zone, to the nanosecond, with the
    zone's offset. The text is RFC 3339 with nanoseconds, as MarshalJSON writes it
    and UnmarshalJSON reads it. *)

From S2P Require Import Prelude GoStrings Netip Text Json JsonFacts.

Local Open Scope char_scope.
Local Open Scope Z_scope.

Record Time := MkTime {
  t_year : Z; t_month : Z; t_day : Z;
  t_hour : Z; t_min : Z; t_sec : Z; t_nano : Z;
  t_zone : Z   (* minutes east of UTC *)
}.

#[export] Instance Time_eq_dec : EqDecision Time.
Proof. solve_decision. Defined.

Definition is_leap (y : Z) : bool := (y mod 4 =? 0) && (negb (y mod 100 =? 0) || (y mod 400 =? 0)).
Definition daysIn (m y : Z) : Z :=
  if m =? 2 then (if is_leap y then 29 else 28)
  else if (m =? 4) || (m =? 6) || (m =? 9) || (m =? 11) then 30 else 31.

(** The days from 0000-03-01, and back. *)
Definition day_number (y m d : Z) : Z :=
  let y := if m <=? 2 then y - 1 else y in
  let era := y / 400 in
  let yoe := y - era * 400 in
  let mp := (m + 9) mod 12 in
  era * 146097 + (yoe * 365 + yoe / 4 - yoe / 100 + ((153 * mp + 2) / 5 + d - 1)).

Definition date_of (z : Z) : Z * Z * Z :=
  let era := z / 146097 in
  let doe := z - era * 146097 in
  let yoe := (doe - doe / 1460 + doe / 36524 - doe / 146096) / 365 in
  let doy := doe - (365 * yoe + yoe / 4 - yoe / 100) in
  let mp := (5 * doy + 2) / 153 in
  let m := if mp <? 10 then mp + 3 else mp - 9 in
  (yoe + era * 400 + (if m <=? 2 then 1 else 0), m, doy - (153 * mp + 2) / 5 + 1).

(** Minutes of the instant, in UTC. *)
Definition minutes (t : Time) : Z :=
  (day_number (t_year t) (t_month t) (t_day t)) * 1440 + t_hour t * 60 + t_min t - t_zone t.

(** time.Time{} and IsZero *)
Definition zero_time : Time := MkTime 1 1 1 0 0 0 0 0.
Definition IsZero (t : Time) : bool := (minutes t =? minutes zero_time) && (t_sec t =? 0) && (t_nano t =? 0).

Definition UTC (t : Time) : Time :=
  if t_zone t =? 0 then t
  else
    let m := minutes t in
    let '(y, mo, d) := date_of (m / 1440) in
    MkTime y mo d (m mod 1440 / 60) (m mod 60) (t_sec t) (t_nano t) 0.

(** ** Writing *)

(** Exactly [n] digits. *)
Fixpoint digits_n (n : nat) (v : Z) : list ascii :=
  match n with
  | O => []
  | S n => digits_n n (v / 10) ++ [ascii_of_N (48 + Z.to_N (v mod 10))]
  end.

Fixpoint trim_zeros (l : list ascii) : list ascii :=
  match l with
  | [] => []
  | c :: l => match trim_zeros l with [] => if Ascii.eqb c "0" then [] else [c] | r => c :: r end
  end.

Definition date_text (t : Time) : list ascii :=
  digits_n 4 (t_year t) ++ "-" :: digits_n 2 (t_month t) ++ "-" :: digits_n 2 (t_day t).
Definition clock_text (t : Time) : list ascii :=
  digits_n 2 (t_hour t) ++ ":" :: digits_n 2 (t_min t) ++ ":" :: digits_n 2 (t_sec t).
Definition frac_text (t : Time) : list ascii :=
  match trim_zeros (digits_n 9 (t_nano t)) with [] => [] | l => "." :: l end.
Definition zone_text (t : Time) : list ascii :=
  if t_zone t =? 0 then ["Z"]
  else (if t_zone t <? 0 then "-" else "+") :: digits_n 2 (Z.abs (t_zone t) / 60) ++ ":" :: digits_n 2 (Z.abs (t_zone t) mod 60).

(** Format(RFC3339) *)
Definition RFC3339 (t : Time) : list ascii := date_text t ++ "T" :: clock_text t ++ zone_text t.

(** MarshalJSON: the text inside the quotes, or its refusal of a year or a zone
    RFC 3339 cannot write. *)
Definition time_text (t : Time) : option (list ascii) :=
  if negb ((0 <=? t_year t) && (t_year t <=? 9999)) || (24 * 60 <=? Z.abs (t_zone t)) then None
  else Some (date_text t ++ "T" :: clock_text t ++ frac_text t ++ zone_text t).

(** ** Reading (parseRFC3339) *)

(** [n] digits, within bounds, and what follows. *)
Fixpoint take_digits (n : nat) (acc : Z) (l : list ascii) : option (Z * list ascii) :=
  match n, l with
  | O, _ => Some (acc, l)
  | S n, c :: l => d ← dec_digit c; take_digits n (10 * acc + d) l
  | S _, [] => None
  end.

Definition number (n : nat) (lo hi : Z) (l : list ascii) : option (Z * list ascii) :=
  '(v, l) ← take_digits n 0 l; if (lo <=? v) && (v <=? hi) then Some (v, l) else None.

Definition expect (c : ascii) (l : list ascii) : option (list ascii) :=
  match l with a :: l => if Ascii.eqb a c then Some l else None | [] => None end.

(** Up to nine digits count. *)
Definition nanos_of (ds : list ascii) : Z :=
  default 0 (foldl read_digit (Some 0) (take 9 (ds ++ replicate 9 "0"))).

Definition read_frac (l : list ascii) : Z * list ascii :=
  match l with
  | "." :: l' => match digit_run l' with ([], _) => (0, l) | (ds, r) => (nanos_of ds, r) end
  | _ => (0, l)
  end.

Definition read_zone (l : list ascii) : option Z :=
  match l with
  | ["Z"] => Some 0
  | s :: l =>
      '(h, l) ← number 2 0 23 l; l ← expect ":" l; '(m, l) ← number 2 0 59 l;
      match l with
      | [] => if Ascii.eqb s "+" then Some (h * 60 + m) else if Ascii.eqb s "-" then Some (- (h * 60 + m)) else None
      | _ => None
      end
  | [] => None
  end.

Definition parse_time (l : list ascii) : option Time :=
  '(y, l) ← number 4 0 9999 l; l ← expect "-" l;
  '(mo, l) ← number 2 1 12 l; l ← expect "-" l;
  '(d, l) ← number 2 1 (daysIn mo y) l; l ← expect "T" l;
  '(h, l) ← number 2 0 23 l; l ← expect ":" l;
  '(mi, l) ← number 2 0 59 l; l ← expect ":" l;
  '(s, l) ← number 2 0 59 l;
  let '(ns, l) := read_frac l in
  z ← read_zone l; Some (MkTime y mo d h mi s ns z).

Example time_ex :
  time_text (MkTime 2026 9 7 13 5 0 120 0) = Some (to_l "2026-09-07T13:05:00.00000012Z") ∧
  parse_time (to_l "2026-09-07T13:05:00.00000012Z") = Some (MkTime 2026 9 7 13 5 0 120 0) ∧
  IsZero (MkTime 1 1 1 1 0 0 0 60) = true ∧
  UTC (MkTime 2024 3 1 0 30 0 0 60) = MkTime 2024 2 29 23 30 0 0 0.
Proof. vm_compute. done. Qed.

(** ** The round trip *)

Definition time_ok (t : Time) : Prop :=
  0 ≤ t_year t ≤ 9999 ∧ 1 ≤ t_month t ≤ 12 ∧ 1 ≤ t_day t ≤ daysIn (t_month t) (t_year t) ∧
  0 ≤ t_hour t ≤ 23 ∧ 0 ≤ t_min t ≤ 59 ∧ 0 ≤ t_sec t ≤ 59 ∧ 0 ≤ t_nano t < 10 ^ 9 ∧ - 1440 < t_zone t < 1440.

Lemma take_digits_app n v : 0 ≤ v < 10 ^ Z.of_nat n → ∀ acc l,
  take_digits n acc (digits_n n v ++ l) = Some (acc * 10 ^ Z.of_nat n + v, l).
Proof.
  assert (∀ a b acc l, take_digits (a + b) acc l = '(v, l) ← take_digits a acc l; take_digits b v l) as Hsplit.
  { induction a as [|a IH]; intros b acc l; [done|]. simpl. destruct l as [|c l]; [done|]. destruct (dec_digit c); [|done].
    cbn [mbind option_bind]. apply IH. }
  revert v. induction n as [|n IH]; intros v Hv acc l.
  { simpl in *. do 2 f_equal. lia. }
  cbn [digits_n]. rewrite <- app_assoc, <- Nat.add_1_r, Hsplit. rewrite Nat2Z.inj_succ, Z.pow_succ_r in Hv by lia.
  rewrite IH by (split; [apply Z.div_pos; lia|apply Z.div_lt_upper_bound; lia]). cbn [mbind option_bind app take_digits].
  pose proof (Z.mod_pos_bound v 10 ltac:(lia)). rewrite dec_digit_of by lia. cbn [mbind option_bind]. do 2 f_equal.
  rewrite Z2N.id by lia. rewrite Nat2Z.inj_add, Z.pow_add_r by lia. pose proof (Z.div_mod v 10 ltac:(lia)). change (10 ^ Z.of_nat 1) with 10. lia.
Qed.

Lemma number_app n v lo hi l : 0 ≤ v < 10 ^ Z.of_nat n → lo ≤ v ≤ hi → number n lo hi (digits_n n v ++ l) = Some (v, l).
Proof.
  intros Hv Hb. unfold number. rewrite take_digits_app by done. cbn [mbind option_bind]. rewrite Z.mul_0_l, Z.add_0_l.
  by rewrite (proj2 (Z.leb_le lo v)), (proj2 (Z.leb_le v hi)) by lia.
Qed.

Lemma digits_n_digits n : ∀ v, 0 ≤ v → Forall (λ c, is_digit c = true) (digits_n n v) ∧ List.length (digits_n n v) = n ∧
  foldl read_digit (Some 0) (digits_n n v) = Some (v mod 10 ^ Z.of_nat n).
Proof.
  induction n as [|n IH]; intros v Hv; cbn [digits_n].
  { split_and!; [constructor|done|]. simpl. by rewrite Z.mod_1_r. }
  destruct (IH (v / 10) ltac:(apply Z.div_pos; lia)) as (Hd & Hl & Hf). pose proof (Z.mod_pos_bound v 10 ltac:(lia)).
  split_and!.
  - apply Forall_app. split; [done|]. repeat constructor. unfold is_digit. by rewrite dec_digit_of by lia.
  - rewrite length_app, Hl. simpl. lia.
  - rewrite foldl_app, Hf. cbn [foldl]. unfold read_digit. cbn [mbind option_bind]. rewrite dec_digit_of by lia. cbn [mbind option_bind].
    f_equal. rewrite Z2N.id, Nat2Z.inj_succ, Z.pow_succ_r by lia. rewrite Z.rem_mul_r by lia. lia.
Qed.

Lemma trim_zeros_split l : ∃ k, l = trim_zeros l ++ replicate k "0".
Proof.
  induction l as [|c l [k IH]]; [by exists 0%nat|]. simpl. destruct (trim_zeros l) as [|a r] eqn:E.
  - simpl in IH. subst l. destruct (Ascii.eqb c "0") eqn:Ec; [|exists k; done].
    apply Ascii.eqb_eq in Ec as ->. exists (S k). done.
  - exists k. simpl in *. by rewrite <- IH.
Qed.

Lemma frac_reads t rest : 0 ≤ t_nano t < 10 ^ 9 → match rest with c :: _ => is_digit c = false ∧ c ≠ "." | [] => True end →
  read_frac (frac_text t ++ rest) = (t_nano t, rest).
Proof.
  intros Hn Hr. destruct (digits_n_digits 9 (t_nano t) ltac:(lia)) as (Hd & Hl & Hf). rewrite Z.mod_small in Hf by done.
  destruct (trim_zeros_split (digits_n 9 (t_nano t))) as [k Hk]. unfold frac_text.
  destruct (trim_zeros (digits_n 9 (t_nano t))) as [|c r] eqn:E.
  - cbn [app] in *. rewrite Hk in Hf, Hl. rewrite length_replicate in Hl. subst k. change (foldl read_digit (Some 0) (replicate 9 "0")) with (Some 0) in Hf. injection Hf as Hf. rewrite <- Hf.
    unfold read_frac. destruct rest as [|a rest]; [done|]. destruct Hr as [_ Hr]. destruct a as [[] [] [] [] [] [] [] []]; done.
  - assert (Forall (λ c, is_digit c = true) (c :: r)) as Hcr by (rewrite Hk in Hd; apply Forall_app in Hd as [Hd _]; exact Hd).
    cbn [app read_frac]. change (c :: r ++ rest) with ((c :: r) ++ rest).
    assert (digit_run ((c :: r) ++ rest) = (c :: r, rest)) as ->.
    { clear - Hcr Hr. induction Hcr as [|a l Ha Hl IH]; cbn [app digit_run]; [|by rewrite Ha, IH].
      destruct rest as [|a rest]; [done|]. destruct Hr as [Hr _]. simpl. by rewrite Hr. }
    unfold nanos_of. f_equal.
    assert (take 9 ((c :: r) ++ replicate 9 "0") = digits_n 9 (t_nano t)) as ->; [|by rewrite Hf].
    rewrite Hk in Hl |- *. rewrite length_app, length_replicate in Hl. rewrite take_app_ge by lia. f_equal.
    rewrite take_replicate. f_equal. lia.
Qed.

Lemma zone_reads t : - 1440 < t_zone t < 1440 → read_zone (zone_text t) = Some (t_zone t).
Proof.
  intros Hz. unfold zone_text. destruct (t_zone t =? 0) eqn:E0; breflect; [by rewrite E0|].
  set (a := Z.abs (t_zone t)). assert (0 ≤ a / 60 ≤ 23) by (split; [apply Z.div_pos; lia|apply Z.lt_succ_r, Z.div_lt_upper_bound; lia]).
  pose proof (Z.mod_pos_bound a 60 ltac:(lia)). pose proof (Z.div_mod a 60 ltac:(lia)).
  assert (∀ s : ascii, read_zone (s :: digits_n 2 (a / 60) ++ ":" :: digits_n 2 (a mod 60)) =
    if Ascii.eqb s "+" then Some a else if Ascii.eqb s "-" then Some (- a) else None) as Hs.
  { intros s. rewrite <- (app_nil_r (digits_n 2 (a mod 60))). unfold read_zone.
    destruct (digits_n 2 (a / 60) ++ ":" :: digits_n 2 (a mod 60) ++ []) as [|c l] eqn:El; [by apply app_nil in El as [_ ?]|].
    rewrite <- El. rewrite number_app by (change (10 ^ Z.of_nat 2) with 100; lia). cbn [mbind option_bind expect]. rewrite Ascii.eqb_refl.
    cbn [mbind option_bind]. rewrite number_app by (change (10 ^ Z.of_nat 2) with 100; lia). cbn [mbind option_bind].
    replace (a / 60 * 60 + a mod 60) with a by lia. destruct s as [[] [] [] [] [] [] [] []]; done. }
  destruct (t_zone t <? 0) eqn:En; breflect; rewrite Hs; cbn [Ascii.eqb Bool.eqb]; unfold a; f_equal; lia.
Qed.

(** What is stored reads back. *)
Lemma time_reads_back t : time_ok t → ∃ l, time_text t = Some l ∧ parse_time l = Some t.
Proof.
  intros (Hy & Hmo & Hd & Hh & Hmi & Hs & Hn & Hz). unfold time_text.
  rewrite (proj2 (Z.leb_le 0 _)), (proj2 (Z.leb_le _ 9999)), (proj2 (Z.leb_gt _ _)) by lia. cbn [negb andb orb].
  eexists. split; [reflexivity|].
  assert (daysIn (t_month t) (t_year t) ≤ 31) by (unfold daysIn; repeat case_match; lia).
  unfold date_text, clock_text, parse_time. rewrite <- !app_assoc.
  repeat (rewrite number_app by (first [change (10 ^ Z.of_nat 4) with 10000|change (10 ^ Z.of_nat 2) with 100]; lia);
    cbn [mbind option_bind]; rewrite <- ?app_comm_cons, <- ?app_assoc; cbn [expect]; rewrite ?Ascii.eqb_refl; cbn [mbind option_bind]).
  rewrite frac_reads; [|done|].
  - rewrite zone_reads by done. by destruct t.
  - unfold zone_text. destruct (t_zone t =? 0); [split; done|]. destruct (t_zone t <? 0); split; done.
Qed.
