(* ===== verification/JsonStruct.v ===== *)
(** * Structs as JSON objects (encoding/json)

    How a Go struct with tagged fields is written and read: a field is omitted
    when its tag says so and it is empty; a key is matched exactly, then without
    regard to case; a null leaves what is there; an unknown key is skipped unless
    the decoder was told to refuse it. A type mismatch is an error. *)

From S2P Require Import Prelude GoStrings Netip Text Json JsonFacts GoTime.

Local Open Scope char_scope.
Local Open Scope Z_scope.

(** Writing may fail; reading starts from what the variable holds. *)
Record Codec (A : Type) := MkCodec { enc : A → option json; dec : json → A → option A }.
Arguments MkCodec {A}. Arguments enc {A}. Arguments dec {A}.

Definition string_codec : Codec string :=
  MkCodec (λ s, Some (JStr (to_l s))) (λ j old, match j with JStr l => Some (of_l l) | JNull => Some old | _ => None end).
Definition bool_codec : Codec bool :=
  MkCodec (λ b, Some (JBool b)) (λ j old, match j with JBool b => Some b | JNull => Some old | _ => None end).
(** int and int64 *)
Definition int_codec : Codec Z :=
  MkCodec (λ z, Some (JNum (to_l (Itoa z)))) (λ j old, match j with JNum t => Atoi (of_l t) | JNull => Some old | _ => None end).
Definition time_codec : Codec Time :=
  MkCodec (λ t, JStr <$> time_text t) (λ j old, match j with JStr l => parse_time l | JNull => Some old | _ => None end).

(** foldName: letters to upper case; U+212A and U+017F fold to K and S. *)
Definition upper (c : ascii) : ascii :=
  let n := nat_of_ascii c in if (97 <=? n)%nat && (n <=? 122)%nat then ascii_of_nat (n - 32) else c.
Fixpoint fold_name (l : list ascii) : list ascii :=
  match l with
  | [] => []
  | "226" :: "132" :: "170" :: l => "K" :: fold_name l
  | "197" :: "191" :: l => "S" :: fold_name l
  | c :: l => upper c :: fold_name l
  end.

Record Field (R : Type) := MkField {
  f_name : string;
  f_put : R → option (list json);          (* at most one value *)
  f_get : json → R → option R
}.
Arguments MkField {R}. Arguments f_name {R}. Arguments f_put {R}. Arguments f_get {R}.

Definition field {R A} (name : string) (c : Codec A) (omit : A → bool) (get : R → A) (set : A → R → R) : Field R :=
  MkField name (λ r, if omit (get r) then Some [] else (λ j, [j]) <$> enc c (get r))
    (λ j r, x ← dec c j (get r); Some (set x r)).

Definition never {A} (_ : A) : bool := false.
Definition empty_text (s : string) : bool := (s =? "")%string.

(** A pointer to a struct: nil is omitted; null makes it nil. *)
Definition pointer_codec {A} (zero : A) (c : Codec A) : Codec (option A) :=
  MkCodec (λ o, match o with Some a => enc c a | None => Some JNull end)
    (λ j old, match j with JNull => Some None | _ => Some <$> dec c j (default zero old) end).
Definition is_nil {A} (o : option A) : bool := match o with Some _ => false | None => true end.

Section Struct.
Context {R : Type} (fs : list (Field R)).

Definition members (f : Field R) (r : R) : option (list (list ascii * json)) :=
  match f_put f r with Some vs => Some (List.map (λ v, (to_l (f_name f), v)) vs) | None => None end.

Fixpoint write_fields (l : list (Field R)) (r : R) : option (list (list ascii * json)) :=
  match l with
  | [] => Some []
  | f :: l => a ← members f r; b ← write_fields l r; Some (a ++ b)
  end.

Definition lookup_field (k : list ascii) : option (Field R) :=
  match List.find (λ f, bool_decide (to_l (f_name f) = k)) fs with
  | Some f => Some f
  | None => List.find (λ f, bool_decide (fold_name (to_l (f_name f)) = fold_name k)) fs
  end.

Definition read_member (strict : bool) (r : R) (m : list ascii * json) : option R :=
  match lookup_field (fst m) with
  | Some f => f_get f (snd m) r
  | None => if strict then None else Some r
  end.

Fixpoint read_members (strict : bool) (ms : list (list ascii * json)) (r : R) : option R :=
  match ms with
  | [] => Some r
  | m :: ms => r ← read_member strict r m; read_members strict ms r
  end.

Definition struct_codec (strict : bool) : Codec R :=
  MkCodec (λ r, JObj <$> write_fields fs r)
    (λ j r, match j with JObj ms => read_members strict ms r | JNull => Some r | _ => None end).
End Struct.

(** ** Round trips *)

(** [a] is written as something that reads back as [a] over any [old] for which
    [base] holds. *)
Definition faithful {A} (c : Codec A) (n : nat) (base : A → Prop) (a : A) : Prop :=
  ∃ j, enc c a = Some j ∧ plain n j ∧ ∀ old, base old → dec c j old = Some a.

Definition anything {A} (_ : A) : Prop := True.

Lemma of_to_l s : of_l (to_l s) = s.
Proof. apply String.string_of_list_ascii_of_string. Qed.
Lemma to_of_l l : to_l (of_l l) = l.
Proof. apply String.list_ascii_of_string_of_list_ascii. Qed.

Lemma faithful_string n s : ValidString s = true → faithful string_codec n anything s.
Proof. intros Hv. eexists. split_and!; [done|exact Hv|]. intros old _. simpl. by rewrite of_to_l. Qed.
Lemma faithful_bool n b : faithful bool_codec n anything b.
Proof. by eexists. Qed.
Lemma faithful_int n z : - 2 ^ 63 ≤ z < 2 ^ 63 → faithful int_codec n anything z.
Proof. intros Hz. eexists. split_and!; [done|by eexists|]. intros old _. simpl. rewrite of_to_l. by apply Atoi_Itoa. Qed.

(** The text of a time is ASCII. *)
Lemma valid_ascii l : Forall (λ c, (nat_of_ascii c < 128)%nat) l → valid_go 0 l = true.
Proof.
  induction 1 as [|c l Hc Hl IH]; [done|]. cbn [valid_go]. rewrite rune_width_ascii by done. rewrite (proj2 (Nat.ltb_lt _ _)) by done.
  simpl. exact IH.
Qed.

Lemma digit_ascii c : is_digit c = true → (nat_of_ascii c < 128)%nat.
Proof. destruct c as [[] [] [] [] [] [] [] []]; try discriminate; intros _; vm_compute; lia. Qed.

Lemma digits_ascii n v : 0 ≤ v → Forall (λ c, (nat_of_ascii c < 128)%nat) (digits_n n v).
Proof. intros Hv. destruct (digits_n_digits n v Hv) as (Hd & _). eapply Forall_impl; [exact Hd|]. apply digit_ascii. Qed.

Lemma time_text_ascii t l : time_ok t → time_text t = Some l → Forall (λ c, (nat_of_ascii c < 128)%nat) l.
Proof.
  intros (Hy & Hmo & Hd & Hh & Hmi & Hs & Hn & Hz). unfold time_text. destruct (_ || _); [done|]. intros Hl. apply Some_inj in Hl. rewrite <- Hl. clear Hl l.
  assert (∀ c l, (nat_of_ascii c < 128)%nat → Forall (λ c, (nat_of_ascii c < 128)%nat) l → Forall (λ c, (nat_of_ascii c < 128)%nat) (c :: l))
    as Hc by (intros; by constructor).
  unfold date_text, clock_text, frac_text, zone_text.
  assert (∀ a b, Forall (λ c, (nat_of_ascii c < 128)%nat) a → Forall (λ c, (nat_of_ascii c < 128)%nat) b →
    Forall (λ c, (nat_of_ascii c < 128)%nat) (a ++ b)) as Happ by (intros; by apply Forall_app).
  repeat match goal with
  | |- Forall _ (digits_n _ _) => apply digits_ascii; lia
  | |- Forall _ (_ ++ _) => apply Happ
  | |- Forall _ (_ :: _) => apply Hc; [vm_compute; lia|]
  end.
  - destruct (trim_zeros_split (digits_n 9 (t_nano t))) as [k Hk]. pose proof (digits_ascii 9 (t_nano t) ltac:(lia)) as Ha. rewrite Hk in Ha.
    apply Forall_app in Ha as [Ha _]. destruct (trim_zeros _); [constructor|]. apply Hc; [vm_compute; lia|exact Ha].
  - destruct (t_zone t =? 0); [repeat constructor; vm_compute; lia|].
    apply Hc; [destruct (t_zone t <? 0); vm_compute; lia|].
    apply Forall_app. split; [apply digits_ascii; apply Z.div_pos; lia|]. apply Hc; [vm_compute; lia|]. apply digits_ascii.
    apply Z.mod_pos_bound. lia.
Qed.

Lemma faithful_time n t : time_ok t → faithful time_codec n anything t.
Proof.
  intros Ht. destruct (time_reads_back t Ht) as (l & E & Hp). exists (JStr l). unfold time_codec. simpl. rewrite E. split_and!; [done| |].
  - eapply valid_ascii, time_text_ascii; eauto.
  - intros old _. exact Hp.
Qed.

Section StructFacts.
Context {R : Type} (fs : list (Field R)) (strict : bool).

Lemma read_members_app a b r : read_members fs strict (a ++ b) r = r' ← read_members fs strict a r; read_members fs strict b r'.
Proof.
  revert r. induction a as [|m a IH]; intros r; [done|]. simpl. destruct (read_member fs strict r m); [|done].
  cbn [mbind option_bind]. apply IH.
Qed.

(** What the fields of [r] do to a record read so far. *)
Fixpoint follows (l : list (Field R)) (r cur final : R) : Prop :=
  match l with
  | [] => cur = final
  | f :: l => ∃ vs next, f_put f r = Some vs ∧
      (vs = [] ∧ next = cur ∨ ∃ v, vs = [v] ∧ f_get f v cur = Some next) ∧ follows l r next final
  end.

(** With distinct names every key finds its own field. *)
Lemma lookup_field_in f : NoDup (List.map f_name fs) → f ∈ fs → lookup_field fs (to_l (f_name f)) = Some f.
Proof.
  intros Hn Hf. unfold lookup_field. enough (List.find (λ g, bool_decide (to_l (f_name g) = to_l (f_name f))) fs = Some f) as -> by done.
  induction fs as [|g l IH]; [by apply elem_of_nil in Hf|]. cbn [List.map] in Hn. apply NoDup_cons in Hn as [Hg Hn]. cbn [List.find].
  case_bool_decide as E.
  - f_equal. apply elem_of_cons in Hf as [<-|Hf]; [done|]. exfalso. apply Hg. rewrite <- (String.string_of_list_ascii_of_string (f_name g)).
    unfold to_l in E. rewrite E, String.string_of_list_ascii_of_string. by apply list_elem_of_In, in_map, list_elem_of_In.
  - apply elem_of_cons in Hf as [<-|Hf]; [done|]. by apply IH.
Qed.

Lemma follows_reads l r cur final : NoDup (List.map f_name fs) → l ⊆ fs → follows l r cur final →
  ∃ ms, write_fields l r = Some ms ∧ read_members fs strict ms cur = Some final.
Proof.
  intros HN. revert cur. induction l as [|f l IH]; intros cur Hsub Hf; [exists []; simpl in *; by subst|].
  destruct Hf as (vs & next & Ep & Hv & Hn). destruct (IH next ltac:(set_solver) Hn) as (ms & Ew & Er).
  pose proof (lookup_field_in f HN ltac:(set_solver)) as El. simpl. unfold members. rewrite Ep. simpl. rewrite Ew.
  eexists. split; [reflexivity|]. destruct Hv as [[-> ->]|(v & -> & Eg)]; [exact Er|]. simpl. unfold read_member. simpl. by rewrite El, Eg.
Qed.

Definition field_plain (n : nat) (r : R) (f : Field R) : Prop :=
  ValidString (f_name f) = true ∧ ∀ vs v, f_put f r = Some vs → v ∈ vs → plain n v.

Lemma write_plain n l r ms : Forall (field_plain n r) l → write_fields l r = Some ms → plain (S n) (JObj ms).
Proof.
  intros Hl. revert ms. induction Hl as [|f l [Hn Hf] Hl IH]; intros ms Hw; [by injection Hw as <-|].
  simpl in Hw. unfold members in Hw. destruct (f_put f r) as [vs|] eqn:Ep; [|done]. simpl in Hw.
  destruct (write_fields l r) as [ms'|]; [|done]. injection Hw as <-. specialize (IH ms' eq_refl). specialize (Hf vs).
  clear Ep. induction vs as [|v vs IHv]; [exact IH|]. split; [split; [exact Hn|apply Hf; [done|left]]|].
  apply IHv. intros v' _ Hin. apply Hf; [done|by right].
Qed.
End StructFacts.

(** One field's step of [follows]: its value is put back, or was omitted and is
    already there. *)
Lemma field_step {R A} n (c : Codec A) omit (get : R → A) set name base r cur :
  faithful c n base (get r) → base (get cur) →
  (omit (get r) = true → set (get r) cur = cur) →
  ∃ vs, f_put (field name c omit get set) r = Some vs ∧
    (vs = [] ∧ set (get r) cur = cur ∨ ∃ v, vs = [v] ∧ f_get (field name c omit get set) v cur = Some (set (get r) cur)) ∧
    ∀ v, v ∈ vs → plain n v.
Proof.
  intros (j & Ej & Hp & Hd) Hb Ho. unfold field. simpl. destruct (omit (get r)) eqn:E.
  - exists []. split_and!; [done|left; auto|set_solver].
  - rewrite Ej. exists [j]. split_and!; [done| |by intros v ->%list_elem_of_singleton]. right. exists j. by rewrite Hd.
Qed.

Lemma follow_field {R A} (l : list (Field R)) n (c : Codec A) omit (get : R → A) set name base r cur final :
  faithful c n base (get r) → base (get cur) → (omit (get r) = true → set (get r) cur = cur) →
  follows l r (set (get r) cur) final → follows (field name c omit get set :: l) r cur final.
Proof.
  intros Hf Hb Ho Hr. destruct (field_step n c omit get set name base r cur Hf Hb Ho) as (vs & E & Hv & _).
  exists vs, (set (get r) cur). split_and!; [done| |done]. destruct Hv as [[-> Hs]|Hv]; [left; auto|by right].
Qed.

Lemma plain_field {R A} n (c : Codec A) omit (get : R → A) set name base r :
  faithful c n base (get r) → ValidString name = true → field_plain n r (field name c omit get set).
Proof.
  intros (j & Ej & Hp & _) Hn. split; [exact Hn|]. simpl. intros vs v. destruct (omit (get r)); [intros [= <-]; set_solver|].
  rewrite Ej. intros [= <-] ->%list_elem_of_singleton. exact Hp.
Qed.

Lemma faithful_struct {R} (fs : list (Field R)) strict n (base : R → Prop) r :
  NoDup (List.map f_name fs) → (∀ old, base old → follows fs r old r) → (∃ old, base old) → Forall (field_plain n r) fs →
  faithful (struct_codec fs strict) (S n) base r.
Proof.
  intros HN Hf [old0 Hb0] Hp. destruct (follows_reads fs strict fs r old0 r HN ltac:(done) (Hf _ Hb0)) as (ms & Ew & _).
  exists (JObj ms). split_and!; [simpl; by rewrite Ew|by eapply write_plain|].
  intros old Hb. destruct (follows_reads fs strict fs r old r HN ltac:(done) (Hf _ Hb)) as (ms' & Ew' & Er). rewrite Ew in Ew'. by injection Ew' as <-.
Qed.

(** The same at a greater depth. *)
Lemma plain_mono v : ∀ n m, (n ≤ m)%nat → plain n v → plain m v.
Proof.
  induction v as [|b|t|s|l IH|l IH] using json_nested_ind; intros n m Hm; cbn [plain]; try done;
    (destruct n as [|n]; [done|]; destruct m as [|m]; [lia|]).
  - induction IH as [|v l Hv Hl IHl]; [done|]. intros [H1 H2]. split; [apply (Hv n); [lia|done]|by apply IHl].
  - induction IH as [|[k v] l Hv Hl IHl]; [done|]. intros [[Hk H1] H2]. split; [split; [done|apply (Hv n); [lia|done]]|by apply IHl].
Qed.

Lemma faithful_mono {A} (c : Codec A) n m base a : (n ≤ m)%nat → faithful c n base a → faithful c m base a.
Proof. intros Hm (j & E & Hp & Hd). exists j. split_and!; [done|by eapply plain_mono|done]. Qed.

(** ** Slices *)

(** A slice is read element by element over what it holds already; null empties it. *)
Fixpoint read_elements {A} (c : Codec A) (zero : A) (js : list json) (old : list A) : option (list A) :=
  match js with
  | [] => Some []
  | j :: js => a ← dec c j (default zero (head old)); l ← read_elements c zero js (tail old); Some (a :: l)
  end.
Definition slice_codec {A} (c : Codec A) (zero : A) : Codec (list A) :=
  MkCodec (λ l, JArr <$> mapM (enc c) l)
    (λ j old, match j with JArr js => read_elements c zero js old | JNull => Some [] | _ => None end).
Definition empty_slice {A} (l : list A) : bool := match l with [] => true | _ => false end.

Lemma faithful_slice {A} (c : Codec A) zero n (base : A → Prop) l :
  base zero → Forall (faithful c n base) l → faithful (slice_codec c zero) (S n) (λ old, old = []) l.
Proof.
  intros Hz Hl. assert (Hjs : ∃ js, mapM (enc c) l = Some js ∧ foldr and True (List.map (plain n) js) ∧
    read_elements c zero js [] = Some l).
  { induction Hl as [|a l (j & Ej & Hp & Hd) Hl (js & Ejs & Hps & Hr)]; [by exists []|].
    exists (j :: js). split_and!; [cbn [mapM]; by rewrite Ej, Ejs|by split|].
    cbn [read_elements head tail default]. rewrite Hd by done. cbn [mbind option_bind]. by rewrite Hr. }
  destruct Hjs as (js & Ejs & Hps & Hr). exists (JArr js). split_and!; [by simpl; rewrite Ejs|exact Hps|].
  intros old ->. exact Hr.
Qed.

(** ** Automation for the structs of the program *)

Create HintDb faithful.
#[export] Hint Resolve faithful_string faithful_bool faithful_int faithful_time : faithful.

(** The record read so far, as a record. *)
Ltac tidy :=
  match goal with |- follows ?l ?r ?cur ?f =>
    let c := eval hnf in cur in let c := eval cbn in c in change (follows l r c f)
  end.
(** One field after another; [om] shows that an omitted one is already there. *)
Ltac follow_fields_by n om :=
  tidy; repeat (eapply (follow_field _ n);
    [by eauto with faithful|exact Logic.I || done|let Ho := fresh "Ho" in intros Ho; om Ho|tidy]).

(** Names are compared, nothing else is computed. *)
Ltac distinct_names := match goal with |- ?P => refine (bool_decide_eq_true_1 P _) end; vm_compute; reflexivity.
Ltac plain_fields :=
  repeat (apply Forall_cons; split); [..|apply Forall_nil; done]; (eapply plain_field; [by eauto with faithful|reflexivity]).
