(* ===== verification/Url.v ===== *)
(** * Addresses (net/url)

    url.Parse as far as the sources look at its result: the scheme, whether there
    is a user, the host and its name, the query. Errors carry no text. *)

From S2P Require Import Prelude GoStrings Netip Text.

Local Open Scope char_scope.
Local Open Scope Z_scope.

Record URL := MkURL {
  Scheme : string;
  User : option string;     (* the text before the at sign *)
  url_Host : string;
  Opaque : string;
  url_Path : string;
  RawQuery : string;
  Fragment : string
}.

Inductive encoding := encodePath | encodeHost | encodeZone | encodeUserPassword | encodeQueryComponent | encodeFragment.

Definition between (a b c : ascii) : bool := (nat_of_ascii a <=? nat_of_ascii c)%nat && (nat_of_ascii c <=? nat_of_ascii b)%nat.
Definition alnum (c : ascii) : bool := between "a" "z" c || between "A" "Z" c || between "0" "9" c.
Definition is_ctl (c : ascii) : bool := (nat_of_ascii c <? 32)%nat || (nat_of_ascii c =? 127)%nat.

(** shouldEscape(c, encodeHost), and for a zone *)
Definition escapes_in_host (c : ascii) : bool :=
  negb (alnum c || in_set ["!"; "$"; "&"; "'"; "("; ")"; "*"; "+"; ","; ";"; "="; ":"; "["; "]"; "<"; ">"; dquote; "-"; "_"; "."; "~"] c).

Definition hosty (m : encoding) : bool := match m with encodeHost | encodeZone => true | _ => false end.

(** unescape *)
Fixpoint unescape_go (m : encoding) (l : list ascii) : option (list ascii) :=
  match l with
  | [] => Some []
  | c :: l' =>
      if Ascii.eqb c "%" then
        match l' with
        | a :: b :: r =>
            h ← hex_value a; lo ← hex_value b;
            let v := ascii_of_nat (Z.to_nat (h * 16 + lo)) in
            let percent := Ascii.eqb a "2" && Ascii.eqb b "5" in
            let bad := match m with
                       | encodeHost => (h <? 8) && negb percent
                       | encodeZone => negb percent && negb (Ascii.eqb v " ") && escapes_in_host v
                       | _ => false
                       end in
            if bad then None else s ← unescape_go m r; Some (v :: s)
        | _ => None
        end
      else if hosty m && (nat_of_ascii c <? 128)%nat && escapes_in_host c then None
      else
        s ← unescape_go m l';
        Some ((match m with encodeQueryComponent => if Ascii.eqb c "+" then " " else c | _ => c end) :: s)
  end.

Definition unescape (m : encoding) (s : string) : option string := of_l <$> unescape_go m (to_l s).

(** strings.Cut, with the whole text and nothing when the byte is absent *)
Definition cut (s : string) (c : ascii) : string * string := default (s, ""%string) (Cut s c).

Definition last_cut (s : string) (c : ascii) : option (string * string) :=
  i ← last_index c (to_l s); Some (substr_to s i, substr_from s i).

(** getScheme: None is its error *)
Fixpoint scheme_go (i : nat) (seen : list ascii) (l : list ascii) : option (option (list ascii * list ascii)) :=
  match l with
  | [] => Some None
  | c :: l' =>
      if between "a" "z" c || between "A" "Z" c then scheme_go (S i) (seen ++ [c]) l'
      else if between "0" "9" c || in_set ["+"; "-"; "."] c then
        if (i =? 0)%nat then Some None else scheme_go (S i) (seen ++ [c]) l'
      else if Ascii.eqb c ":" then if (i =? 0)%nat then None else Some (Some (seen, l'))
      else Some None
  end.

Definition getScheme (raw : string) : option (string * string) :=
  match scheme_go 0 [] (to_l raw) with
  | None => None
  | Some None => Some (""%string, raw)
  | Some (Some (s, rest)) => Some (of_l s, of_l rest)
  end.

Definition validOptionalPort (port : string) : bool :=
  match to_l port with
  | [] => true
  | c :: l => Ascii.eqb c ":" && forallb (between "0" "9") l
  end.

(** parseHost: brackets hold an IPv6 address, and a name at most one colon. *)
Definition parse_bracketed (host : string) : option string :=
  '(inside, port) ← last_cut host "]";
  let port := substr_from port 1 in
  if negb (validOptionalPort port) then None
  else
    let inside := substr_from inside 1 in
    port ← unescape encodeHost port;
    name ← (let l := to_l inside in
            match List.find (λ i, HasPrefix (of_l (drop i l)) "%25") (seq 0 (List.length l)) with
            | Some z => a ← unescape_go encodeHost (take z l); b ← unescape_go encodeZone (drop z l); Some (of_l (a ++ b))
            | None => unescape encodeHost inside
            end);
    a ← ParseAddr name;
    if Is4 a then None else Some ("[" ++ name ++ "]" ++ port)%string.

Definition parseHost (host : string) : option string :=
  match last_index "[" (to_l host) with
  | Some O => parse_bracketed host
  | Some (S _) => None
  | None =>
      let port := match IndexByte host ":" with Some i => substr_from host i | None => ""%string end in
      if validOptionalPort port then unescape encodeHost host else None
  end.

Definition userinfo_byte (c : ascii) : bool :=
  alnum c || in_set ["-"; "."; "_"; ":"; "~"; "!"; "$"; "&"; "'"; "("; ")"; "*"; "+"; ","; ";"; "="; "%"; "@"] c.

Definition parseAuthority (authority : string) : option (option string * string) :=
  match last_cut authority "@" with
  | None => h ← parseHost authority; Some (None, h)
  | Some (user, host) =>
      h ← parseHost (substr_from host 1);
      if negb (forallb userinfo_byte (to_l user)) then None
      else
        let '(name, pass) := cut user ":" in
        _ ← unescape encodeUserPassword name; _ ← unescape encodeUserPassword pass; Some (Some user, h)
  end.

(** parse, of an address without its fragment *)
Definition parse_hier (scheme query rest : string) : option URL :=
  let authority := HasPrefix rest "//" && (negb (scheme =? "")%string || negb (HasPrefix rest "///")) in
  '(user, host, path) ←
    (if authority then
       let rest := substr_from rest 2 in
       let '(auth, path) := match IndexByte rest "/" with
                            | Some i => (substr_to rest i, substr_from rest i)
                            | None => (rest, ""%string)
                            end in
       '(u, h) ← parseAuthority auth; Some (u, h, path)
     else Some (None, ""%string, rest));
  p ← unescape encodePath path; Some (MkURL scheme user host "" p query "").

Definition parse_url (raw : string) : option URL :=
  if existsb is_ctl (to_l raw) then None
  else if (raw =? "*")%string then Some (MkURL "" None "" "" "*" "" "")
  else
    '(scheme, rest) ← getScheme raw;
    let scheme := ToLower scheme in
    let '(rest, query) := cut rest "?" in
    if negb (HasPrefix rest "/") then
      if negb (scheme =? "")%string then Some (MkURL scheme None "" rest "" query "")
      else if existsb (Ascii.eqb ":") (to_l (fst (cut rest "/"))) then None
      else parse_hier scheme query rest
    else parse_hier scheme query rest.

(** url.Parse *)
Definition Parse (raw : string) : option URL :=
  let '(u, frag) := cut raw "#" in
  url ← parse_url u;
  f ← unescape encodeFragment frag;
  Some (MkURL (Scheme url) (User url) (url_Host url) (Opaque url) (url_Path url) (RawQuery url) f).

(** URL.Hostname *)
Definition Hostname (u : URL) : string :=
  let host := match last_cut (url_Host u) ":" with
              | Some (h, port) => if validOptionalPort port then h else url_Host u
              | None => url_Host u
              end in
  if HasPrefix host "[" && HasSuffix host "]" then TrimSuffix (TrimPrefix host "[") "]" else host.

(** net.ParseIP *)
Definition ParseIP (s : string) : option Addr := a ← ParseAddr s; if hasZone a then None else Some a.

(** URL.Query().Get: the first value of a key. A pair that does not decode, or
    holds a semicolon, is skipped. *)
Definition query_pair (p : string) : option (string * string) :=
  if (p =? "")%string || existsb (Ascii.eqb ";") (to_l p) then None
  else
    let '(k, v) := cut p "=" in
    k ← unescape encodeQueryComponent k; v ← unescape encodeQueryComponent v; Some (k, v).
Definition query_get (query key : string) : string :=
  match List.find (λ p, (fst p =? key)%string) (omap query_pair (Split query "&")) with
  | Some (_, v) => v
  | None => ""%string
  end.

Example parse_ex :
  (λ u, (Scheme u, Hostname u, User u, RawQuery u)) <$> Parse "HTTPS://sub.example.org:8443/p/token?a=b#x"
    = Some ("https", "sub.example.org", None, "a=b")%string ∧
  Hostname <$> Parse "https://[2001:db8::1%25eth0]:443/" = Some "2001:db8::1%eth0"%string ∧
  User <$> Parse "https://u:p@h/" = Some (Some "u:p"%string) ∧
  Parse "https://a:1:2/" = None ∧ Parse "https://exa mple/" = None ∧ Parse "https://[::1" = None ∧
  query_get "a=1&type=ws%20x&type=y" "type" = "ws x"%string.
Proof. vm_compute. done. Qed.
