(* ===== verification/Subnet.v ===== *)
(** * Choosing subnets (internal/netcfg/subnet.go)

    Overlap of prefixes, the candidate pools, the choice of a free subnet and
    the addresses taken on it; and that two prefixes overlap exactly when they
    share an address. *)

From S2P Require Import Prelude Netip.

Local Open Scope Z_scope.

Inductive subnet_error := ErrNoFreeSubnet | ErrInvalidPrefix | ErrTooSmall | ErrNoHost.

Definition Overlaps (a b : Prefix) : bool :=
  if negb (prefix_valid a) || negb (prefix_valid b) then false
  else if negb (Bool.eqb (Is4 (p_addr a)) (Is4 (p_addr b))) then false
  else prefix_Overlaps (Masked a) (Masked b).

Definition quad (a b c d : Z) : Addr := A4 (((a * 256 + b) * 256 + c) * 256 + d).

Definition DefaultHotspotPool : list Prefix :=
  [MkPrefix (quad 10 83 51 0) 24; MkPrefix (quad 10 174 29 0) 24; MkPrefix (quad 172 28 113 0) 24;
   MkPrefix (quad 172 19 207 0) 24; MkPrefix (quad 192 168 173 0) 24; MkPrefix (quad 192 168 221 0) 24;
   MkPrefix (quad 10 41 62 0) 24; MkPrefix (quad 10 216 7 0) 24].

Definition DefaultTunnelPool : list Prefix :=
  [MkPrefix (quad 198 18 51 0) 30; MkPrefix (quad 198 18 83 0) 30; MkPrefix (quad 198 19 29 0) 30].

Fixpoint ChooseSubnet (pool taken : list Prefix) : res subnet_error Prefix :=
  match pool with
  | [] => Err ErrNoFreeSubnet
  | cand :: pool =>
      if existsb (Overlaps cand) taken then ChooseSubnet pool taken else Ok (Masked cand)
  end.

Definition GatewayAddr (p : Prefix) : res subnet_error Addr :=
  if negb (prefix_valid p) then Err ErrInvalidPrefix
  else if Is4 (p_addr p) && (30 <? Bits p) then Err ErrTooSmall
  else
    let a := Next (p_addr (Masked p)) in
    if negb (addr_valid a) || negb (Contains_addr p a) then Err ErrNoHost else Ok a.

Definition PeerAddr (p : Prefix) : res subnet_error Addr :=
  match GatewayAddr p with
  | Err e => Err e
  | Ok gw =>
      let a := Next gw in
      if negb (addr_valid a) || negb (Contains_addr p a) then Err ErrNoHost else Ok a
  end.

(** ** What a prefix means *)

(** Addresses within their width. *)
Definition addr_ok (a : Addr) : Prop :=
  match a with NoAddr => True | A4 n => 0 ≤ n < 2 ^ 32 | A6 n _ => 0 ≤ n < 2 ^ 128 end.

(** Same family. *)
Definition same_family (a b : Addr) : Prop := BitLen a = BitLen b.

(** [x] lies in the prefix: it agrees with it on the first [Bits] bits. *)
Definition member (x : Addr) (p : Prefix) : Prop :=
  same_family x (p_addr p) ∧ 
  value x / 2 ^ (BitLen (p_addr p) - Bits p) = value (p_addr p) / 2 ^ (BitLen (p_addr p) - Bits p).

Lemma mask_value a b : 0 ≤ b ≤ BitLen a → a ≠ NoAddr →
  value (mask a b) = value a / 2 ^ (BitLen a - b) * 2 ^ (BitLen a - b) ∧ BitLen (mask a b) = BitLen a.
Proof.
  intros Hb Ha. destruct a as [|n|n z]; [done|..]; simpl in *;
    (rewrite Z.shiftl_mul_pow2, Z.shiftr_div_pow2 by lia; done).
Qed.

Lemma mask_eq a b k : same_family a b → a ≠ NoAddr → b ≠ NoAddr → 0 ≤ k ≤ BitLen a →
  mask a k = mask b k ↔ value a / 2 ^ (BitLen a - k) = value b / 2 ^ (BitLen a - k).
Proof.
  intros Hf Ha Hb Hk. unfold same_family in Hf.
  assert (Hp : 0 < 2 ^ (BitLen a - k)) by (apply Z.pow_pos_nonneg; lia).
  destruct (mask_value a k Hk Ha) as [Va _]. destruct (mask_value b k) as [Vb _]; [by rewrite <- Hf|done|].
  rewrite <- Hf in Vb. split.
  - intros E. rewrite E, Vb in Va. nia.
  - intros E. rewrite E, <- Vb in Va. destruct a as [|n|n z], b as [|m|m w]; simpl in *; try done; by f_equal.
Qed.

Lemma Masked_valid p : prefix_valid p = true →
  prefix_valid (Masked p) = true ∧ Bits (Masked p) = Bits p ∧ same_family (p_addr (Masked p)) (p_addr p) ∧
  Is4 (p_addr (Masked p)) = Is4 (p_addr p) ∧ ∀ x, member x (Masked p) ↔ member x p.
Proof.
  intros Hp. unfold Masked. rewrite Hp. pose proof Hp as Hp'. unfold prefix_valid in Hp'. breflect.
  assert (Ha : p_addr p ≠ NoAddr) by (intros E; by rewrite E in *).
  destruct (mask_value (p_addr p) (Bits p)) as [Hv Hl]; [lia|done|].
  split. { unfold prefix_valid. simpl. rewrite Hl. rewrite (proj2 (Z.leb_le _ _)), (proj2 (Z.leb_le _ _)) by lia.
    by destruct (p_addr p). }
  split; [done|]. split; [done|]. split; [by destruct (p_addr p)|].
  intros x. unfold member, same_family. simpl. rewrite Hl, Hv.
  rewrite Z.div_mul; [done|]. apply Z.pow_nonzero; lia.
Qed.

(** The base address belongs to its prefix. *)
Lemma member_base p : member (p_addr p) p.
Proof. split; done. Qed.

Lemma div_coarser x y a b : 0 ≤ a ≤ b → x / 2 ^ a = y / 2 ^ a → x / 2 ^ b = y / 2 ^ b.
Proof.
  intros Hab E. replace b with (a + (b - a)) by lia. rewrite Z.pow_add_r by lia.
  rewrite <- !Z.div_div; [by rewrite E|apply Z.pow_nonzero; lia|apply Z.pow_pos_nonneg; lia
    |apply Z.pow_nonzero; lia|apply Z.pow_pos_nonneg; lia].
Qed.

Lemma prefix_Overlaps_spec p o :
  prefix_valid p = true → prefix_valid o = true → addr_ok (p_addr p) → addr_ok (p_addr o) →
  same_family (p_addr p) (p_addr o) →
  prefix_Overlaps p o = true ↔ ∃ x, member x p ∧ member x o.
Proof.
  intros Hp Ho Hpok Hook Hf. unfold prefix_Overlaps. rewrite Hp, Ho. cbn [negb orb].
  destruct (decide (p = o)) as [<-|Hne].
  { rewrite bool_decide_true by done. split; [|done]. intros _. exists (p_addr p). split; apply member_base. }
  rewrite bool_decide_false by done.
  unfold prefix_valid in Hp, Ho. breflect. unfold same_family in Hf.
  assert (Hp0 : p_addr p ≠ NoAddr) by (intros E; by rewrite E in *).
  assert (Ho0 : p_addr o ≠ NoAddr) by (intros E; by rewrite E in *).
  assert (Hfam : Bool.eqb (Is4 (p_addr p)) (Is4 (p_addr o)) = true)
    by (destruct (p_addr p), (p_addr o); simpl in *; try done; lia). rewrite Hfam. cbn [negb].
  set (L := BitLen (p_addr p)) in *. set (mb := if Bits p <? Bits o then Bits p else Bits o).
  assert (Hmb : 0 ≤ mb ≤ L ∧ mb ≤ Bits p ∧ mb ≤ Bits o)
    by (unfold mb; destruct (Bits p <? Bits o) eqn:E; breflect; lia).
  assert (Hkey : value (p_addr p) / 2 ^ (L - mb) = value (p_addr o) / 2 ^ (L - mb) ↔ ∃ x, member x p ∧ member x o).
  { unfold member, same_family. fold L. rewrite <- Hf. fold L. split.
    - intros E. destruct (decide (Bits p < Bits o)) as [Hlt|Hge].
      + exists (p_addr o). rewrite <- Hf. fold L. split; [|done]. split; [done|].
        replace (Bits p) with mb; [done|]. unfold mb. by rewrite (proj2 (Z.ltb_lt _ _)).
      + exists (p_addr p). fold L. split; [done|]. split; [done|].
        replace (Bits o) with mb; [done|]. unfold mb. by rewrite (proj2 (Z.ltb_ge _ _)) by lia.
    - intros (x & [_ E1] & [_ E2]).
      apply (div_coarser _ _ _ (L - mb)) in E1; [|lia]. apply (div_coarser _ _ _ (L - mb)) in E2; [|lia]. congruence. }
  rewrite <- Hkey. destruct (mb =? 0) eqn:E0; breflect.
  - split; [|done]. intros _. rewrite E0, Z.sub_0_r. unfold L in *.
    destruct (p_addr p), (p_addr o); simpl in *; try done; by rewrite !Z.div_small.
  - rewrite bool_decide_eq_true. apply mask_eq; [done..|]. fold L. lia.
Qed.

Lemma mask_ok a b : 0 ≤ b ≤ BitLen a → addr_ok a → addr_ok (mask a b).
Proof.
  intros Hb Ha. destruct a as [|n|n z]; [done|..]; simpl in *;
    (rewrite Z.shiftl_mul_pow2, Z.shiftr_div_pow2 by lia);
    (split; [apply Z.mul_nonneg_nonneg; [apply Z.div_pos; [lia|apply Z.pow_pos_nonneg; lia]|apply Z.pow_nonneg; lia]|]);
    (eapply Z.le_lt_trans; [rewrite Z.mul_comm; apply Z.mul_div_le, Z.pow_pos_nonneg; lia|lia]).
Qed.

Lemma Masked_ok p : prefix_valid p = true → addr_ok (p_addr p) → addr_ok (p_addr (Masked p)).
Proof.
  intros Hp Ha. unfold Masked. rewrite Hp. unfold prefix_valid in Hp. breflect. simpl. apply mask_ok; [lia|done].
Qed.

(** Two prefixes overlap exactly when they share an address. *)
Lemma Overlaps_spec a b :
  addr_ok (p_addr a) → addr_ok (p_addr b) →
  Overlaps a b = true ↔ prefix_valid a = true ∧ prefix_valid b = true ∧ ∃ x, member x a ∧ member x b.
Proof.
  intros Ha Hb. unfold Overlaps. destruct (prefix_valid a) eqn:Ea, (prefix_valid b) eqn:Eb; cbn [negb orb];
    try (split; [done|]; by intros (? & ? & _)).
  destruct (Masked_valid a Ea) as (Va & _ & Fa & _ & Ma). destruct (Masked_valid b Eb) as (Vb & _ & Fb & _ & Mb).
  assert (Hfam : Bool.eqb (Is4 (p_addr a)) (Is4 (p_addr b)) = true ↔ same_family (p_addr a) (p_addr b)).
  { unfold prefix_valid in Ea, Eb. breflect. unfold same_family. destruct (p_addr a), (p_addr b); simpl in *; try done; split; (done || lia). }
  destruct (Bool.eqb _ _) eqn:Ef; cbn [negb].
  - rewrite prefix_Overlaps_spec; [|done|done|by apply Masked_ok|by apply Masked_ok|].
    + setoid_rewrite Ma. setoid_rewrite Mb. naive_solver.
    + unfold same_family in *. rewrite Fa, Fb. by apply Hfam.
  - split; [done|]. intros (_ & _ & x & [H1 _] & [H2 _]). apply Hfam. unfold same_family in *. congruence.
Qed.

(** ** The choice *)

Definition prefix_ok (p : Prefix) : Prop := prefix_valid p = true ∧ addr_ok (p_addr p).

(** No address is in both. *)
Definition disjoint (a b : Prefix) : Prop := ∀ x, member x a → member x b → False.

Lemma ChooseSubnet_ok pool taken p :
  Forall prefix_ok pool → Forall (λ t, addr_ok (p_addr t)) taken →
  ChooseSubnet pool taken = Ok p →
  ∃ c, c ∈ pool ∧ p = Masked c ∧ prefix_ok p ∧ ∀ t, t ∈ taken → prefix_valid t = true → disjoint p t.
Proof.
  intros Hpool Htaken. induction Hpool as [|c pool Hc _ IH]; [done|]. simpl.
  destruct (existsb (Overlaps c) taken) eqn:E.
  { intros Hp. destruct (IH Hp) as (c' & Hin & H). exists c'. by rewrite elem_of_cons; auto. }
  intros [= <-]. destruct Hc as [Hv Hok]. destruct (Masked_valid c Hv) as (Vc & _ & _ & _ & Mc).
  exists c. split; [by rewrite elem_of_cons; auto|]. split; [done|]. split; [split; [done|by apply Masked_ok]|].
  intros t Ht Hvt x Hx1 Hx2. apply Mc in Hx1.
  assert (Hov : Overlaps c t = true).
  { apply Overlaps_spec; [done|by rewrite Forall_forall in Htaken; apply Htaken|]. by eauto. }
  apply not_true_iff_false in E. apply E, existsb_exists. exists t. split; [by apply list_elem_of_In|done].
Qed.

(** The search fails only when every candidate is taken. *)
Lemma ChooseSubnet_err pool taken e :
  ChooseSubnet pool taken = Err e → ∀ c, c ∈ pool → ∃ t, t ∈ taken ∧ Overlaps c t = true.
Proof.
  induction pool as [|c pool IH]; simpl; [intros _ ? H; by apply not_elem_of_nil in H|].
  destruct (existsb (Overlaps c) taken) eqn:E; [|done].
  intros He c' [->|Hin]%elem_of_cons; [|by apply IH].
  apply existsb_exists in E as (t & Ht & Ho). exists t. by rewrite list_elem_of_In.
Qed.

(** ** The addresses taken on a subnet *)

Lemma Contains_member p a :
  prefix_valid p = true → hasZone a = false → Contains_addr p a = true → member a p.
Proof.
  intros Hp Hz. unfold Contains_addr. rewrite Hp, Hz. cbn [negb orb].
  destruct (_ || _) eqn:E; [done|]. breflect. intros Hs. breflect.
  rewrite Z.shiftr_lxor in Hs. apply Z.lxor_eq in Hs. rewrite !Z.shiftr_div_pow2 in Hs.
  - split; [by unfold same_family|]. by replace (BitLen (p_addr p)) with (BitLen a) by congruence.
  - unfold prefix_valid in Hp. breflect. lia.
  - unfold prefix_valid in Hp. breflect. lia.
Qed.

Lemma Next_value a b : Next a = b → b ≠ NoAddr →
  value b = value a + 1 ∧ same_family a b ∧ hasZone b = hasZone a.
Proof.
  intros <- Hb. unfold same_family. destruct a as [|n|n z]; [done|..]; simpl in *;
    destruct (_ =? _); done.
Qed.

Lemma mask_no_zone a b : hasZone (mask a b) = false.
Proof. by destruct a. Qed.

(** The gateway is the address after the network address, inside the subnet. *)
Lemma GatewayAddr_ok p a :
  GatewayAddr p = Ok a →
  prefix_valid p = true ∧ member a p ∧ value a = value (p_addr (Masked p)) + 1 ∧ hasZone a = false.
Proof.
  unfold GatewayAddr. destruct (prefix_valid p) eqn:Hp; [|done]. cbn [negb].
  destruct (Is4 _ && _); [done|]. destruct (addr_valid (Next _)) eqn:Hv; [|done]. cbn [negb orb].
  destruct (Contains_addr p _) eqn:Hc; [|done]. intros [= <-]. cbn [negb] in *.
  destruct (Next_value (p_addr (Masked p)) _ eq_refl) as (V & _ & Z); [by intros E; rewrite E in Hv|].
  assert (Hz : hasZone (Next (p_addr (Masked p))) = false).
  { rewrite Z. unfold Masked. rewrite Hp. apply mask_no_zone. }
  split; [done|]. split; [by apply Contains_member|done].
Qed.

(** The peer is the one after that. *)
Lemma PeerAddr_ok p a :
  PeerAddr p = Ok a → ∃ gw, GatewayAddr p = Ok gw ∧ member a p ∧ value a = value gw + 1.
Proof.
  unfold PeerAddr. destruct (GatewayAddr p) as [gw|e] eqn:Hg; [|done].
  destruct (GatewayAddr_ok p gw Hg) as (Hp & _ & _ & Hz).
  destruct (addr_valid (Next gw)) eqn:Hv; [|done]. cbn [negb orb].
  destruct (Contains_addr p _) eqn:Hc; [|done]. intros [= <-]. exists gw. split; [done|].
  destruct (Next_value gw _ eq_refl) as (V & _ & Z); [by intros E; rewrite E in Hv|].
  split; [|done]. apply Contains_member; [done|by rewrite Z|done].
Qed.
