(* ===== verification/Facts.v ===== *)
(** * What detection learned (internal/netcfg/facts.go)

    The data the planner reads: links, default routes, wireless interfaces and
    radios, with the predicates on them. [MaxDBm] is in hundredths. *)

From S2P Require Import Prelude GoStrings Netip.

Local Open Scope Z_scope.

(** The two characters outside ASCII that fold to an ASCII letter, in UTF-8:
    the long s and the Kelvin sign. *)
Fixpoint fold_ascii (s : string) : string :=
  match s with
  | String "197" (String "191" s) => String "s" (fold_ascii s)
  | String "226" (String "132" (String "170" s)) => String "k" (fold_ascii s)
  | String c s => String c (fold_ascii s)
  | EmptyString => EmptyString
  end.

(** strings.EqualFold, against an ASCII word. *)
Definition EqualFold (a b : string) : bool := (ToLower (fold_ascii a) =? ToLower (fold_ascii b))%string.

Record Link := MkLink {
  l_name : string;
  l_state : string;
  l_prefixes : list Prefix;
  l_bus : string
}.

Definition link_IsLoopback (l : Link) : bool :=
  (l_name l =? "lo")%string || existsb (λ p, IsLoopback (p_addr p)) (l_prefixes l).

Record DefaultRoute := MkRoute {
  Family : Z;
  r_gateway : Addr;
  Dev : string;
  Src : Addr;
  Proto : string;
  Metric : Z;
  LinkDown : bool;
  OnLink : bool
}.

Inductive InterfaceManager :=
| ManagedByUnknown
| ManagedByNetworkManager
| ManagedByNothing.

#[export] Instance InterfaceManager_eq_dec : EqDecision InterfaceManager.
Proof. solve_decision. Defined.

Record WirelessIface := MkWireless {
  w_name : string;
  w_phy : string;
  w_type : string;
  SSID : string;
  w_channel : Z;
  FreqMHz : Z;
  MAC : string;
  Manager : InterfaceManager;
  Associated : bool;
  LinkKnown : bool
}.

Definition no_wireless : WirelessIface :=
  MkWireless "" "" "" "" 0 0 "" ManagedByUnknown false false.

Definition IsAccessPoint (w : WirelessIface) : bool := EqualFold (w_type w) "AP".

Definition StationLink (w : WirelessIface) : bool :=
  if IsAccessPoint w then false
  else if LinkKnown w then Associated w
  else negb (SSID w =? "")%string.

Definition InUse (w : WirelessIface) : bool :=
  if IsAccessPoint w then negb (SSID w =? "")%string else StationLink w.

Record Frequency := MkFreq {
  MHz : Z;
  f_channel : Z;
  MaxDBm : Z;
  NoIR : bool;
  Disabled : bool;
  Radar : bool
}.

Definition Usable (f : Frequency) : bool := negb (Disabled f) && negb (NoIR f) && negb (Radar f).

Record Band := MkBand { Number : Z; Frequencies : list Frequency }.

Record ComboLimit := MkLimit { Max : Z; Types : list string }.

Definition Has (c : ComboLimit) (t : string) : bool := existsb (λ have, EqualFold have t) (Types c).

Record Combination := MkCombination {
  Raw : string;
  Limits : list ComboLimit;
  Total : Z;
  Channels : Z;
  c_notes : list string
}.

Record Phy := MkPhy {
  phy_name : string;
  Index : Z;
  Modes : list string;
  Commands : list string;
  Combinations : list Combination;
  Bands : list Band
}.

Inductive RadioBand := BandAuto | Band2GHz | Band5GHz.

#[export] Instance RadioBand_eq_dec : EqDecision RadioBand.
Proof. solve_decision. Defined.

Definition BandOf (mhz : Z) : RadioBand :=
  if (2400 <=? mhz) && (mhz <=? 2500) then Band2GHz
  else if (4900 <=? mhz) && (mhz <=? 5895) then Band5GHz
  else BandAuto.

(** All frequencies of the radio, band by band. *)
Definition frequencies (p : Phy) : list Frequency := concat (Frequencies <$> Bands p).

Fixpoint first_channel (fs : list Frequency) (ch : Z) : RadioBand :=
  match fs with
  | [] => BandAuto
  | f :: fs => if f_channel f =? ch then BandOf (MHz f) else first_channel fs ch
  end.

Definition BandOfChannel (p : Phy) (ch : Z) : RadioBand := first_channel (frequencies p) ch.

(** The loop's two [continue]s. *)
Definition usable_in (band : RadioBand) (f : Frequency) : bool :=
  Usable f && (0 <? f_channel f) &&
  (bool_decide (band = BandAuto) || bool_decide (BandOf (MHz f) = band)).

(** sort.Ints *)
Fixpoint insert_sorted (x : Z) (l : list Z) : list Z :=
  match l with
  | [] => [x]
  | y :: l' => if x <=? y then x :: l else y :: insert_sorted x l'
  end.
Definition sort_ints (l : list Z) : list Z := foldr insert_sorted [] l.

Definition UsableChannelsIn (p : Phy) (band : RadioBand) : list Z :=
  sort_ints (f_channel <$> List.filter (usable_in band) (frequencies p)).

Definition UsableChannels (p : Phy) : list Z := UsableChannelsIn p BandAuto.

(** ** Combination.Allows: one interface of each type, by backtracking *)

(** [remaining[g]--] *)
Fixpoint decrement (g : nat) (l : list Z) : list Z :=
  match l, g with
  | [], _ => []
  | x :: l, O => x - 1 :: l
  | x :: l, S g => x :: decrement g l
  end.

Fixpoint assign (limits : list ComboLimit) (types : list string) (remaining : list Z) : bool :=
  match types with
  | [] => true
  | t :: types =>
      existsb (λ '(g, l),
        match remaining !! g with
        | Some r => (0 <? r) && Has l t && assign limits types (decrement g remaining)
        | None => false
        end) (zip (seq 0 (length limits)) limits)
  end.

Definition Allows (c : Combination) (types : list string) : bool :=
  if (length types =? 0)%nat then true
  else if (0 <? Total c) && (Total c <? Z.of_nat (length types)) then false
  else assign (Limits c) types (Max <$> Limits c).

Definition SupportsAP (p : Phy) : bool := existsb (λ m, EqualFold m "AP") (Modes p).

Definition APWithStation (p : Phy) : option Combination :=
  List.find (λ c, Allows c ["managed"; "AP"]%string) (Combinations p).

Definition DeclaresAPWithStation (p : Phy) : bool :=
  match APWithStation p with Some _ => true | None => false end.

(** ** Facts *)

Record SystemSOCKSState := MkSOCKS {
  Service : string;
  s_enabled : bool;
  Server : string;
  s_port : Z;
  Authenticated : bool;
  BypassDomains : list string
}.

Record Facts := MkFacts {
  Links : list Link;
  Routes : list DefaultRoute;
  Wireless : list WirelessIface;
  Phys : list Phy;
  SystemSOCKS : list SystemSOCKSState;
  SystemSOCKSKnown : bool;
  NetworkManagerPresent : bool;
  Sysctl : gmap string string;
  CapturedAt : Z
}.

Definition LinkByName (f : Facts) (name : string) : option Link :=
  List.find (λ l, (l_name l =? name)%string) (Links f).
Definition WirelessByName (f : Facts) (name : string) : option WirelessIface :=
  List.find (λ w, (w_name w =? name)%string) (Wireless f).
Definition PhyByName (f : Facts) (name : string) : option Phy :=
  List.find (λ p, (phy_name p =? name)%string) (Phys f).
Definition IsWireless (f : Facts) (name : string) : bool :=
  match WirelessByName f name with Some _ => true | None => false end.

(** The lowest metric of a family, the first of equals. *)
Definition best_route (family : Z) (rs : list DefaultRoute) : option DefaultRoute :=
  foldl (λ best r,
    if negb (Family r =? family) || LinkDown r || (Dev r =? "")%string then best
    else match best with
         | None => Some r
         | Some b => if Metric r <? Metric b then Some r else best
         end) None rs.

Definition PrimaryDefault (f : Facts) : option DefaultRoute := best_route 4 (Routes f).
Definition DefaultV6 (f : Facts) : option DefaultRoute := best_route 6 (Routes f).

Definition OccupiedPrefixes (f : Facts) : list Prefix :=
  concat ((λ l, Masked <$> l_prefixes l) <$> Links f) ++
  ((λ r, PrefixFrom (r_gateway r) (BitLen (r_gateway r))) <$>
     List.filter (λ r, addr_valid (r_gateway r)) (Routes f)).
