(* ===== verification/Parse.v ===== *)
(** * Command output into facts (internal/netcfg/parse.go)

    Every parser of parse.go, one definition per function and one step function
    per loop body. Malformed output is a value of [parse_error]; the text of a
    message is not kept, since no caller reads it. *)

From S2P Require Import Prelude GoStrings Netip Text Facts Command.

Local Open Scope Z_scope.

Inductive parse_error :=
| ViaNoAddress | BadGateway | DevNoName | BadMetric | NoDevice | ImplausibleDevice
| TooFewFields | ImplausibleInterface
| UnterminatedGroup | LimitNoValue | BadLimit.

Definition lines_of (out : string) : list string := Split out newline_byte.

(** ** Default routes *)

Definition set_gateway (r : DefaultRoute) (gw : Addr) :=
  MkRoute (Family r) gw (Dev r) (Src r) (Proto r) (Metric r) (LinkDown r) false.
Definition set_dev (r : DefaultRoute) (d : string) :=
  MkRoute (Family r) (r_gateway r) d (Src r) (Proto r) (Metric r) (LinkDown r) (OnLink r).
Definition set_proto (r : DefaultRoute) (p : string) :=
  MkRoute (Family r) (r_gateway r) (Dev r) (Src r) p (Metric r) (LinkDown r) (OnLink r).
Definition set_src (r : DefaultRoute) (a : Addr) :=
  MkRoute (Family r) (r_gateway r) (Dev r) a (Proto r) (Metric r) (LinkDown r) (OnLink r).
Definition set_metric (r : DefaultRoute) (m : Z) :=
  MkRoute (Family r) (r_gateway r) (Dev r) (Src r) (Proto r) m (LinkDown r) (OnLink r).
Definition set_linkdown (r : DefaultRoute) :=
  MkRoute (Family r) (r_gateway r) (Dev r) (Src r) (Proto r) (Metric r) true (OnLink r).
Definition set_family (f : Z) (r : DefaultRoute) :=
  MkRoute f (r_gateway r) (Dev r) (Src r) (Proto r) (Metric r) (LinkDown r) (OnLink r).

Fixpoint route_fields (fs : list string) (r : DefaultRoute) : res parse_error DefaultRoute :=
  match fs with
  | [] => Ok r
  | f :: fs =>
      if (f =? "via")%string then
        match fs with
        | [] => Err ViaNoAddress
        | a :: fs => match ParseAddr a with
                     | None => Err BadGateway
                     | Some gw => route_fields fs (set_gateway r gw)
                     end
        end
      else if (f =? "dev")%string then
        match fs with
        | [] => Err DevNoName
        | d :: fs => route_fields fs (set_dev r d)
        end
      else if (f =? "proto")%string then
        match fs with
        | [] => Ok r
        | p :: fs => route_fields fs (set_proto r p)
        end
      else if (f =? "src")%string then
        match fs with
        | [] => Ok r
        | a :: fs => route_fields fs (match ParseAddr a with Some a => set_src r a | None => r end)
        end
      else if (f =? "metric")%string then
        match fs with
        | [] => Ok r
        | m :: fs => match Atoi m with
                     | None => Err BadMetric
                     | Some m => route_fields fs (set_metric r m)
                     end
        end
      else if (f =? "linkdown")%string then route_fields fs (set_linkdown r)
      else route_fields fs r
  end.

Definition route_line (raw : string) : res parse_error (option DefaultRoute) :=
  match Fields (TrimSpace raw) with
  | f :: fs =>
      if negb (f =? "default")%string then Ok None
      else
        let? r := route_fields fs (MkRoute 4 NoAddr "" NoAddr "" 0 false true) in
        if (Dev r =? "")%string then Err NoDevice
        else if negb (ValidInterfaceName (Dev r)) then Err ImplausibleDevice
        else
          let six := if addr_valid (r_gateway r) && Is6 (r_gateway r) then true
                     else negb (addr_valid (r_gateway r)) && addr_valid (Src r) && Is6 (Src r) in
          Ok (Some (if six then set_family 6 r else r))
  | [] => Ok None
  end.

(** Gather the results of a loop that stops at the first error. *)
Fixpoint gather {A} (f : string → res parse_error (option A)) (ls : list string) : res parse_error (list A) :=
  match ls with
  | [] => Ok []
  | l :: ls =>
      let? x := f l in
      let? xs := gather f ls in
      Ok (match x with Some x => x :: xs | None => xs end)
  end.

Definition ParseDefaultRoutes (out : string) : res parse_error (list DefaultRoute) :=
  gather route_line (lines_of out).

(** ** Addresses *)

(** The part of a name before an at sign that is not its first byte. *)
Definition strip_peer (name : string) : string :=
  match IndexByte name "@" with
  | Some (S i) => substr_to name (S i)
  | _ => name
  end.

Definition addr_line (raw : string) : res parse_error (option Link) :=
  let line := TrimSpace raw in
  if (line =? "")%string then Ok None
  else
    match Fields line with
    | name :: state :: rest =>
        let name := strip_peer name in
        if negb (ValidInterfaceName name) then Err ImplausibleDevice
        else Ok (Some (MkLink name state (omap ParsePrefix rest) ""))
    | _ => Err TooFewFields
    end.

Definition ParseBriefAddr (out : string) : res parse_error (list Link) :=
  gather addr_line (lines_of out).

(** ** Parent buses *)

Definition is_digit (c : ascii) : bool := match dec_digit c with Some _ => true | None => false end.

(** The value of each "parentbus" of a line, the last one winning. *)
Fixpoint parent_bus (current : string) (fs : list string) (buses : gmap string string) : gmap string string :=
  match fs with
  | f :: (v :: _) as rest =>
      parent_bus current rest (if (f =? "parentbus")%string then <[current := v]> buses else buses)
  | _ => buses
  end.

Definition link_line (st : gmap string string * string) (raw : string) : gmap string string * string :=
  let '(buses, current) := st in
  let line := TrimRight raw [" "%char; tab] in
  if (line =? "")%string then st
  else
    let trimmed := TrimSpace line in
    if (line =? trimmed)%string && match to_l trimmed with c :: _ => is_digit c | [] => false end then
      match split_n 3 ":" trimmed with
      | _ :: p :: _ =>
          let name := strip_peer (TrimSpace p) in
          (buses, if ValidInterfaceName name then name else "")
      | _ => st
      end
    else if (current =? "")%string then st
    else (parent_bus current (Fields trimmed) buses, current).

Definition ParseLinkDetail (out : string) : gmap string string :=
  fst (foldl link_line (∅, ""%string) (lines_of out)).

(** ** iw dev *)

(** indentOf: leading spaces and tabs, each one rune. *)
Fixpoint indent_of (l : list ascii) : nat :=
  match l with
  | c :: l => if Ascii.eqb c " " || Ascii.eqb c tab then S (indent_of l) else 0
  | [] => 0
  end%nat.

Definition indentOf (s : string) : nat := indent_of (to_l s).

Record dev_state := MkDev {
  d_ifaces : list WirelessIface;
  d_phy : string;
  d_idx : option nat  (* None is -1 *)
}.

Definition set_type (w : WirelessIface) (t : string) :=
  MkWireless (w_name w) (w_phy w) t (SSID w) (w_channel w) (FreqMHz w) (MAC w) (Manager w) (Associated w) (LinkKnown w).
Definition set_ssid (w : WirelessIface) (s : string) :=
  MkWireless (w_name w) (w_phy w) (w_type w) s (w_channel w) (FreqMHz w) (MAC w) (Manager w) (Associated w) (LinkKnown w).
Definition set_mac (w : WirelessIface) (m : string) :=
  MkWireless (w_name w) (w_phy w) (w_type w) (SSID w) (w_channel w) (FreqMHz w) m (Manager w) (Associated w) (LinkKnown w).
Definition set_channel (w : WirelessIface) (c : Z) :=
  MkWireless (w_name w) (w_phy w) (w_type w) (SSID w) c (FreqMHz w) (MAC w) (Manager w) (Associated w) (LinkKnown w).
Definition set_freq (w : WirelessIface) (f : Z) :=
  MkWireless (w_name w) (w_phy w) (w_type w) (SSID w) (w_channel w) f (MAC w) (Manager w) (Associated w) (LinkKnown w).

(** One field line of the interface being read. *)
Definition dev_field (trimmed : string) (w : WirelessIface) : WirelessIface :=
  match Fields trimmed with
  | f :: v :: rest =>
      if (f =? "type")%string then set_type w v
      else if (f =? "ssid")%string then set_ssid w (TrimSpace (TrimPrefix trimmed "ssid "))
      else if (f =? "addr")%string then set_mac w v
      else if (f =? "channel")%string then
        let w := match Atoi v with Some n => set_channel w n | None => w end in
        match rest with
        | m :: _ => match Atoi (TrimPrefix m "(") with Some n => set_freq w n | None => w end
        | [] => w
        end
      else w
  | _ => w
  end.

Definition dev_line (st : dev_state) (raw : string) : res parse_error dev_state :=
  let line := TrimRight raw [" "%char; tab] in
  let trimmed := TrimSpace line in
  if (trimmed =? "")%string then Ok st
  else if HasPrefix trimmed "phy#" then
    Ok (MkDev (d_ifaces st) ("phy" ++ TrimPrefix trimmed "phy#") (d_idx st))
  else if HasPrefix trimmed "Interface " then
    let name := TrimSpace (TrimPrefix trimmed "Interface ") in
    if negb (ValidInterfaceName name) then Err ImplausibleInterface
    else Ok (MkDev (d_ifaces st ++ [MkWireless name (d_phy st) "" "" 0 0 "" ManagedByUnknown false false])
               (d_phy st) (Some (List.length (d_ifaces st))))
  else if (indentOf line =? 1)%nat then Ok (MkDev (d_ifaces st) (d_phy st) None)
  else match d_idx st with
       | None => Ok st
       | Some i => Ok (MkDev (alter (dev_field trimmed) i (d_ifaces st)) (d_phy st) (Some i))
       end.

Fixpoint dev_lines (st : dev_state) (ls : list string) : res parse_error dev_state :=
  match ls with
  | [] => Ok st
  | l :: ls => let? st := dev_line st l in dev_lines st ls
  end.

Definition ParseIwDev (out : string) : res parse_error (list WirelessIface) :=
  let? st := dev_lines (MkDev [] "" None) (lines_of out) in
  Ok (d_ifaces st).

(** ** Interface combinations *)

(** Split at the commas outside braces; [depth] may go below zero. *)
Fixpoint split_commas (depth : Z) (cur : list ascii) (l : list ascii) : list (list ascii) :=
  match l with
  | [] => [rev cur]
  | c :: l =>
      if Ascii.eqb c "{" then split_commas (depth + 1) (c :: cur) l
      else if Ascii.eqb c "}" then split_commas (depth - 1) (c :: cur) l
      else if Ascii.eqb c "," && (depth =? 0) then rev cur :: split_commas depth [] l
      else split_commas depth (c :: cur) l
  end.

Definition parseLimitValue (s : string) : res parse_error Z :=
  let s := TrimSpace (TrimPrefix (TrimSpace s) "<=") in
  match Fields s with
  | [] => Err LimitNoValue
  | f :: _ => match Atoi f with Some n => Ok n | None => Err BadLimit end
  end.

Definition nonempty (s : string) : bool := negb (s =? "")%string.

Definition combo_part (c : Combination) (p : string) : res parse_error Combination :=
  let p := TrimSpace p in
  if (p =? "")%string then Ok c
  else if HasPrefix p "#{" then
    match IndexByte p "}" with
    | None => Err UnterminatedGroup
    | Some e =>
        let inner := of_l (drop 2 (take e (to_l p))) in
        let types := List.filter nonempty (TrimSpace <$> Split inner ",") in
        let? n := parseLimitValue (substr_from p (S e)) in
        Ok (MkCombination (Raw c) (Limits c ++ [MkLimit n types]) (Total c) (Channels c) (c_notes c))
    end
  else if HasPrefix p "total" then
    let? n := parseLimitValue (TrimPrefix p "total") in
    Ok (MkCombination (Raw c) (Limits c) n (Channels c) (c_notes c))
  else if HasPrefix p "#channels" then
    let? n := parseLimitValue (TrimPrefix p "#channels") in
    Ok (MkCombination (Raw c) (Limits c) (Total c) n (c_notes c))
  else Ok (MkCombination (Raw c) (Limits c) (Total c) (Channels c) (c_notes c ++ [p])).

Fixpoint combo_parts (c : Combination) (ps : list string) : res parse_error Combination :=
  match ps with
  | [] => Ok c
  | p :: ps => let? c := combo_part c p in combo_parts c ps
  end.

Definition ParseCombination (raw : string) : res parse_error Combination :=
  let s := Join (Fields raw) " " in
  combo_parts (MkCombination s [] 0 0 []) (of_l <$> split_commas 0 [] (to_l s)).

(** ** Frequencies *)

(** int(math.Round(v)), half away from zero, of a value in hundredths. *)
Definition round_hundredths (h : Z) : Z := Z.sgn h * ((Z.abs h + 50) / 100).

Definition parseMHz (s : string) : option Z :=
  match Atoi s with
  | Some n => Some n
  | None => round_hundredths <$> parse_hundredths s
  end.

(** The power in front of each "dBm)", the last one winning. *)
Fixpoint dbm_of (prev : option string) (fs : list string) (acc : Z) : Z :=
  match fs with
  | [] => acc
  | f :: fs =>
      let acc := match prev with
                 | Some p => if (f =? "dBm)")%string then default acc (parse_hundredths (TrimPrefix p "(")) else acc
                 | None => acc
                 end in
      dbm_of (Some f) fs acc
  end.

Definition bracket_channel (s : string) : Z :=
  match IndexByte s "[" with
  | None => 0
  | Some i =>
      match IndexByte (substr_from s i) "]" with
      | Some (S j) => default 0 (Atoi (TrimSpace (of_l (take j (drop (S i) (to_l s))))))
      | _ => 0
      end
  end.

Definition parseFrequency (s : string) : option Frequency :=
  match Fields s with
  | f0 :: f1 :: _ =>
      if negb (f1 =? "MHz")%string then None
      else
        mhz ← parseMHz f0;
        let lower := ToLower s in
        Some (MkFreq mhz (bracket_channel s) (dbm_of None (Fields s) 0)
                (Contains lower "no ir") (Contains lower "disabled") (Contains lower "radar detection"))
  | _ => None
  end.

(** ** iw list *)

Inductive section := sectNone | sectModes | sectCommands | sectCombos | sectBand.

Definition is_none (s : section) : bool := match s with sectNone => true | _ => false end.

Record list_state := MkList {
  ls_phys : list Phy;
  ls_cur : option nat;
  ls_section : section;
  ls_indent : nat;
  ls_band : option nat;
  ls_freqs : bool
}.

Definition upd_phy (f : Phy → Phy) (st : list_state) : list_state :=
  MkList (match ls_cur st with Some i => alter f i (ls_phys st) | None => ls_phys st end)
    (ls_cur st) (ls_section st) (ls_indent st) (ls_band st) (ls_freqs st).

Definition enter (s : section) (ind : nat) (st : list_state) : list_state :=
  MkList (ls_phys st) (ls_cur st) s ind (ls_band st) (ls_freqs st).

Definition add_mode (m : string) (p : Phy) : Phy :=
  MkPhy (phy_name p) (Index p) (Modes p ++ [m]) (Commands p) (Combinations p) (Bands p).
Definition add_command (m : string) (p : Phy) : Phy :=
  MkPhy (phy_name p) (Index p) (Modes p) (Commands p ++ [m]) (Combinations p) (Bands p).
Definition set_index (n : Z) (p : Phy) : Phy :=
  MkPhy (phy_name p) n (Modes p) (Commands p) (Combinations p) (Bands p).
Definition set_combinations (cs : list Combination) (p : Phy) : Phy :=
  MkPhy (phy_name p) (Index p) (Modes p) (Commands p) cs (Bands p).
Definition set_bands (bs : list Band) (p : Phy) : Phy :=
  MkPhy (phy_name p) (Index p) (Modes p) (Commands p) (Combinations p) bs.

Definition raw_combination (raw : string) : Combination := MkCombination raw [] 0 0 [].

(** The last combination with [text] added to its raw form. *)
Definition extend_last (text : string) (cs : list Combination) : list Combination :=
  match List.length cs with
  | O => cs
  | S n => alter (λ c, MkCombination (Raw c ++ " " ++ text) (Limits c) (Total c) (Channels c) (c_notes c)) n cs
  end.

Definition bullet (trimmed : string) : string := TrimSpace (TrimPrefix trimmed "*").

(** A line that opens a section, or none of ours. *)
Definition header_line (ind : nat) (trimmed : string) (st : list_state) : list_state :=
  if HasPrefix trimmed "wiphy index:" then
    match Atoi (TrimSpace (TrimPrefix trimmed "wiphy index:")) with
    | Some n => upd_phy (set_index n) st
    | None => st
    end
  else if (trimmed =? "Supported interface modes:")%string then enter sectModes ind st
  else if (trimmed =? "Supported commands:")%string then enter sectCommands ind st
  else if (trimmed =? "valid interface combinations:")%string then enter sectCombos ind st
  else if HasPrefix trimmed "Band " && HasSuffix trimmed ":" then
    match Atoi (TrimSpace (TrimSuffix (TrimPrefix trimmed "Band ") ":")) with
    | None => st
    | Some n =>
        let have := match ls_cur st ≫= λ i, ls_phys st !! i with
                    | Some p => List.length (Bands p)
                    | None => O
                    end in
        let st := upd_phy (λ p, set_bands (Bands p ++ [MkBand n []]) p) st in
        MkList (ls_phys st) (ls_cur st) sectBand ind (Some have) false
    end
  else st.

(** A line inside a section. *)
Definition body_line (trimmed : string) (st : list_state) : list_state :=
  match ls_section st with
  | sectNone => st
  | sectModes | sectCommands =>
      let item := bullet trimmed in
      if (item =? "")%string || (item =? trimmed)%string then st
      else upd_phy (match ls_section st with sectModes => add_mode item | _ => add_command item end) st
  | sectCombos =>
      if HasPrefix trimmed "*" then
        upd_phy (λ p, set_combinations (Combinations p ++ [raw_combination (bullet trimmed)]) p) st
      else upd_phy (λ p, set_combinations (extend_last trimmed (Combinations p)) p) st
  | sectBand =>
      let freqs b := MkList (ls_phys st) (ls_cur st) (ls_section st) (ls_indent st) (ls_band st) b in
      if (trimmed =? "Frequencies:")%string then freqs true
      else if HasSuffix trimmed ":" then freqs false
      else match ls_band st with
           | Some i =>
               if negb (ls_freqs st) || negb (HasPrefix trimmed "*") then st
               else match parseFrequency (bullet trimmed) with
                    | Some f => upd_phy (λ p, set_bands
                        (alter (λ b, MkBand (Number b) (Frequencies b ++ [f])) i (Bands p)) p) st
                    | None => st
                    end
           | None => st
           end
  end.

Definition list_line (st : list_state) (raw : string) : list_state :=
  let line := TrimRight raw [" "%char; tab; cr] in
  let trimmed := TrimSpace line in
  if (trimmed =? "")%string then st
  else
    let ind := indentOf line in
    if HasPrefix trimmed "Wiphy " && (ind =? 0)%nat then
      let name := TrimSpace (TrimPrefix trimmed "Wiphy ") in
      MkList (ls_phys st ++ [MkPhy name (-1) [] [] [] []]) (Some (List.length (ls_phys st)))
        sectNone (ls_indent st) None (ls_freqs st)
    else match ls_cur st with
    | None => st
    | Some _ =>
        let st := if negb (is_none (ls_section st)) && (ind <=? ls_indent st)%nat
                  then MkList (ls_phys st) (ls_cur st) sectNone (ls_indent st) (ls_band st) false
                  else st in
        if is_none (ls_section st) then header_line ind trimmed st else body_line trimmed st
    end.

Fixpoint map_res {A B} (f : A → res parse_error B) (l : list A) : res parse_error (list B) :=
  match l with
  | [] => Ok []
  | a :: l => let? b := f a in let? bs := map_res f l in Ok (b :: bs)
  end.

Definition finish_phy (p : Phy) : res parse_error Phy :=
  let? cs := map_res (λ c, ParseCombination (Raw c)) (Combinations p) in
  Ok (set_combinations cs p).

Definition ParseIwList (out : string) : res parse_error (list Phy) :=
  map_res finish_phy
    (ls_phys (foldl list_line (MkList [] None sectNone 0 None false) (lines_of out))).

(** ** nmcli and sysctl *)

Definition nmcli_line (owners : gmap string InterfaceManager) (raw : string) : gmap string InterfaceManager :=
  let line := TrimSpace raw in
  match Cut line ":" with
  | Some (name, state) =>
      if (name =? "")%string || negb (ValidInterfaceName name) then owners
      else
        let base := TrimSpace state in
        let base := match IndexByte base " " with Some i => substr_to base i | None => base end in
        if (base =? "")%string then owners
        else if EqualFold base "unmanaged" then <[name := ManagedByNothing]> owners
        else <[name := ManagedByNetworkManager]> owners
  | None => owners
  end.

Definition ParseNmcliDeviceStatus (out : string) : gmap string InterfaceManager :=
  foldl nmcli_line ∅ (lines_of out).

Definition sysctl_line (vals : gmap string string) (raw : string) : gmap string string :=
  match Cut (TrimSpace raw) "=" with
  | Some (k, v) => <[TrimSpace k := TrimSpace v]> vals
  | None => vals
  end.

Definition ParseSysctl (out : string) : gmap string string := foldl sysctl_line ∅ (lines_of out).
