(* ===== verification/HotspotConf.v ===== *)
(** * The access point's configuration (internal/hotspot)

    apconfig.go, dnsmasq.go, hostapd.go, radio.go, plan.go and leases.go: what is
    checked before a daemon is configured, the two files that are written, and
    the lease file that is read. An error is its text, because privsvc decides on
    it. The texts of the files are lists of lines, joined as the source writes
    them. *)

From S2P Require Import Prelude GoStrings Netip Text Facts Parse.

Local Open Scope Z_scope.

(** ** apconfig.go *)

(** [type Band string] *)
Definition Band2GHz : string := "2.4GHz".
Definition Band5GHz : string := "5GHz".

Definition MinPassphraseLen : Z := 8.
Definition MaxPassphraseLen : Z := 63.
Definition MaxSSIDLen : Z := 32.

Definition bannedPassphrases : list string :=
  ["securepass123"; "password"; "password123"; "12345678"; "123456789"; "changeme"; "caspian"; "hotspot";
   "raspberry"; "admin"].

Definition passphraseAlphabet : string := "abcdefghijkmnpqrstuvwxyz23456789".
Definition GeneratedPassphraseLen : nat := 20.

Record APConfig := MkAP {
  ap_Interface : string;
  ap_Uplink : string;
  ap_SSID : string;
  Passphrase : string;
  CountryCode : string;
  ap_Channel : Z;
  ap_Band : string;
  ControlDir : string
}.

Definition len (s : string) : Z := Z.of_nat (String.length s).
Definition code (c : ascii) : Z := Z.of_nat (nat_of_ascii c).

Definition err_if (b : bool) (msg : string) (k : res string unit) : res string unit :=
  if b then Err msg else k.

Definition noControlChars (what v : string) : res string unit :=
  if existsb (λ c, (code c <? 0x20) || (code c =? 0x7f)) (to_l v)
  then Err ("hotspot: " ++ what ++ " contains a control character and cannot be written to a configuration file")%string
  else Ok tt.

Definition token_char (c : ascii) : bool :=
  let b := code c in
  ((97 <=? b) && (b <=? 122)) || ((65 <=? b) && (b <=? 90)) || ((48 <=? b) && (b <=? 57))
  || (b =? 46) || (b =? 95) || (b =? 45).

Definition validConfigToken (what v : string) : res string unit :=
  err_if (v =? "")%string ("hotspot: no " ++ what ++ " was given")%string
  (err_if (64 <? len v) ("hotspot: " ++ what ++ " " ++ Quote v ++ " is too long")%string
  (err_if (negb (forallb token_char (to_l v)))
    ("hotspot: " ++ what ++ " " ++ Quote v ++ " contains a character that is not allowed")%string
  (Ok tt))).

Definition validServiceAccount (what v : string) : res string unit :=
  let? _ := validConfigToken what v in
  err_if (32 <? len v) ("hotspot: " ++ what ++ " " ++ Quote v ++ " is longer than a user name can be")%string
  (err_if (HasPrefix v "-") ("hotspot: " ++ what ++ " " ++ Quote v ++ " cannot begin with a hyphen")%string
  (Ok tt)).

Definition validAbsPath (what p : string) : res string unit :=
  err_if (p =? "")%string ("hotspot: no " ++ what ++ " was given")%string
  (err_if (negb (HasPrefix p "/")) ("hotspot: " ++ what ++ " " ++ Quote p ++ " must be an absolute path")%string
  (noControlChars what p)).

Definition channels5GHz : list Z := [36; 40; 44; 48; 149; 153; 157; 161; 165].

(** [%v] of a slice of integers *)
Definition ints_String (l : list Z) : string := ("[" ++ Join (Itoa <$> l) " " ++ "]")%string.

Definition validChannel (band : string) (ch : Z) : res string unit :=
  if (band =? Band2GHz)%string then
    err_if ((ch <? 1) || (13 <? ch)) ("hotspot: channel " ++ Itoa ch ++ " is not a 2.4 GHz channel (1 to 13)")%string (Ok tt)
  else if (band =? Band5GHz)%string then
    if existsb (Z.eqb ch) channels5GHz then Ok tt
    else Err ("hotspot: channel " ++ Itoa ch ++ " is not one this program will use on 5 GHz " ++
              ints_String channels5GHz ++
              " (radar-detection channels are excluded because they delay or interrupt the hotspot)")%string
  else Err ("hotspot: unknown radio band " ++ Quote band)%string.

Definition upper_letter (c : ascii) : bool := (65 <=? code c) && (code c <=? 90).

Definition validCountryCode (cc : string) : res string unit :=
  err_if (cc =? "")%string
    "hotspot: no country was set, and the hotspot cannot legally pick a channel without one"
  (err_if (negb (len cc =? 2)) ("hotspot: country " ++ Quote cc ++ " is not a two-letter country code")%string
  (err_if (negb (forallb upper_letter (to_l cc)))
    ("hotspot: country " ++ Quote cc ++ " must be two capital letters, for example GB")%string
  (Ok tt))).

Definition slicesContainsFold (l : list string) (v : string) : bool :=
  existsb (λ s, (s =? ToLower v)%string) l.

Definition ValidatePassphrase (p : string) : res string unit :=
  err_if (p =? "")%string "hotspot: no hotspot password was set"
  (err_if (len p <? MinPassphraseLen)
    ("hotspot: the hotspot password is " ++ Itoa (len p) ++ " characters and WPA2 needs at least " ++ Itoa MinPassphraseLen)%string
  (err_if (MaxPassphraseLen <? len p)
    ("hotspot: the hotspot password is " ++ Itoa (len p) ++ " characters and the maximum is " ++ Itoa MaxPassphraseLen)%string
  (err_if (existsb (λ c, (code c <? 0x20) || (0x7e <? code c)) (to_l p))
    "hotspot: the hotspot password may only contain ordinary keyboard characters"
  (err_if (slicesContainsFold bannedPassphrases p)
    ("hotspot: that hotspot password is a well-known default and cannot be used; " ++
     "leave it blank and a strong one will be made for you")%string
  (Ok tt))))).

(** APConfig.validate; Validate is the case of [false]. *)
Definition validate (mobileHotspot : bool) (c : APConfig) : res string unit :=
  let? _ :=
    (if mobileHotspot then
       err_if ((ap_Interface c =? "")%string || (255 <? len (ap_Interface c)) || negb (ValidString (ap_Interface c)))
         "hotspot: invalid Windows adapter alias" (noControlChars "interface" (ap_Interface c))
     else validConfigToken "interface" (ap_Interface c)) in
  let? _ :=
    err_if (ap_SSID c =? "")%string "hotspot: the network name is empty"
    (err_if (MaxSSIDLen <? len (ap_SSID c))
      ("hotspot: the network name is " ++ Itoa (len (ap_SSID c)) ++ " bytes and the maximum is " ++ Itoa MaxSSIDLen ++
       " (non-Latin names use two or more bytes per character)")%string
    (err_if (negb (ValidString (ap_SSID c))) "hotspot: the network name is not valid text"
    (noControlChars "network name" (ap_SSID c)))) in
  let? _ := ValidatePassphrase (Passphrase c) in
  let? _ := validCountryCode (CountryCode c) in
  let? _ := validChannel (ap_Band c) (ap_Channel c) in
  if negb mobileHotspot && negb (ControlDir c =? "")%string
  then validAbsPath "hostapd control directory" (ControlDir c) else Ok tt.

(** The bytes of crypto/rand, one character of the alphabet for the low five
    bits of each. *)
Definition GeneratePassphrase (buf : list Z) : string :=
  of_l ((λ b, default "a"%char (to_l passphraseAlphabet !! Z.to_nat (Z.land b 0x1f))) <$> buf).

Definition set_passphrase (c : APConfig) (p : string) : APConfig :=
  MkAP (ap_Interface c) (ap_Uplink c) (ap_SSID c) p (CountryCode c) (ap_Channel c) (ap_Band c) (ControlDir c).

(** [rand] is what crypto/rand returns: bytes, or a failure. *)
Definition EnsurePassphrase (rand : res string (list Z)) (cfg : APConfig) : res string (APConfig * bool) :=
  if negb (Passphrase cfg =? "")%string then
    let? _ := ValidatePassphrase (Passphrase cfg) in Ok (cfg, false)
  else match rand with
       | Err e => Err ("hotspot: could not generate a hotspot password: " ++ e)%string
       | Ok buf => Ok (set_passphrase cfg (GeneratePassphrase buf), true)
       end.

Definition hwMode (c : APConfig) : res string string :=
  if (ap_Band c =? Band2GHz)%string then Ok "g"
  else if (ap_Band c =? Band5GHz)%string then Ok "a"
  else Err ("hotspot: unknown radio band " ++ Quote (ap_Band c))%string.

(** ** hostapd.go *)

Definition hostapd_lines (cfg : APConfig) (mode ctrlDir : string) : list string :=
  ["# hostapd configuration generated by Caspian-BYOC.";
   "# Rewritten from scratch on every start. Edits here are lost.";
   "#";
   "# Every setting below is here for a reason and the reason is written down.";
   "# Where a setting exists because of a known failure, the failure is named.";
   "";
   "interface=" ++ ap_Interface cfg;
   "driver=nl80211";
   "";
   "# The regulatory domain.";
   "#";
   "# WHY THIS LINE IS FIRST AMONG EQUALS: with no country_code the driver";
   "# uses the world regulatory domain, in which most channels are";
   "# passive-scan only and beaconing is not permitted, so hostapd starts,";
   "# fails to bring the interface up and the network never appears. The";
   "# user sees nothing at all, which is the least diagnosable failure this";
   "# appliance can produce. The reference implementation omitted it";
   "# entirely: 004-hotspot/install.sh:415-430 writes no country_code line.";
   "#";
   "# ieee80211d advertises the domain in the beacon so joining clients";
   "# adopt the same channel and power rules.";
   "country_code=" ++ CountryCode cfg;
   "ieee80211d=1";
   "";
   "# The network name. utf8_ssid tells hostapd the bytes are UTF-8, which";
   "# matters because this appliance's users name their networks in scripts";
   "# other than Latin and a name advertised in the wrong encoding shows up";
   "# on phones as replacement characters.";
   "ssid=" ++ ap_SSID cfg;
   "utf8_ssid=1";
   "";
   "hw_mode=" ++ mode;
   "channel=" ++ Itoa (ap_Channel cfg);
   "";
   "# 802.11n.";
   "#";
   "# Without ieee80211n the radio negotiates 802.11g rates only and the";
   "# whole hotspot is capped at 54 Mbps shared between every joined device,";
   "# below what the tunnel can carry. The reference implementation set";
   "# neither ieee80211n nor wmm_enabled=1 (004-hotspot/install.sh:415-430,";
   "# which has wmm_enabled=0), so every box it built ran at 54 Mbps and";
   "# nothing said so.";
   "#";
   "# wmm_enabled=1 is not optional here: hostapd disables HT rates when WMM";
   "# is off, so ieee80211n=1 with wmm_enabled=0 silently stays at 54 Mbps";
   "# and looks configured.";
   "ieee80211n=1";
   "wmm_enabled=1";
   "";
   "# 20 MHz channel width only.";
   "#";
   "# HT40 needs a secondary channel declared as [HT40+] or [HT40-], and the";
   "# correct one depends on the primary channel and the regulatory domain.";
   "# A wrong secondary makes hostapd refuse to start. This appliance is";
   "# frequently pinned to whatever channel the uplink already uses (see";
   "# RadioConstraint), so the primary is not ours to choose and the safe";
   "# gain is the short guard interval at 20 MHz.";
   "ht_capab=[SHORT-GI-20]";
   "";
   "# Security: WPA2-PSK with CCMP (AES) and nothing else.";
   "#";
   "# auth_algs=1 is Open System only. The value 2 enables WEP shared-key";
   "# authentication, which is broken.";
   "#";
   "# There is deliberately NO wpa_pairwise line. wpa_pairwise sets the";
   "# cipher for WPA1, and the reference implementation set";
   "# wpa_pairwise=TKIP (004-hotspot/install.sh:428). That has two costs,";
   "# not one: it advertises a cipher with known practical attacks, and";
   "# because 802.11n forbids HT rates on a BSS that offers TKIP it also";
   "# holds the whole network at 54 Mbps however much 802.11n is enabled";
   "# above. Omitting the line leaves rsn_pairwise as the only cipher suite,";
   "# which is WPA2 with AES.";
   "auth_algs=1";
   "wpa=2";
   "wpa_key_mgmt=WPA-PSK";
   "rsn_pairwise=CCMP";
   "wpa_passphrase=" ++ Passphrase cfg;
   "";
   "# Devices that join must not be able to reach each other.";
   "#";
   "# Everyone here is a guest of whoever holds the passphrase, and a phone";
   "# joining a shared hotspot should not be exposed to the other phones on";
   "# it. ap_isolate stops hostapd bridging frames from one associated";
   "# station to another. It is not the whole of client isolation: traffic";
   "# that leaves the interface and comes back is internal/netcfg's firewall";
   "# to stop, and this line does not claim to do that job.";
   "ap_isolate=1";
   "";
   "# No MAC filtering, and the name is broadcast. A hidden SSID is not";
   "# security, it only stops the user finding their own network.";
   "macaddr_acl=0";
   "ignore_broadcast_ssid=0";
   "";
   "# Logging: notification level and above.";
   "#";
   "# hostapd writes a line for every association and disassociation, each";
   "# carrying a device's MAC address, at informational level. This box does";
   "# not keep a record of which devices were here. Errors stay visible so";
   "# the panel can explain a failure.";
   "logger_syslog=-1";
   "logger_syslog_level=3";
   "logger_stdout=-1";
   "logger_stdout_level=3";
   "";
   "# Control socket. Used only by this program, to ask hostapd whether the";
   "# access point is actually up rather than merely running: a hostapd";
   "# process that is alive and beaconing nothing is the failure a process";
   "# check cannot see.";
   "ctrl_interface=" ++ ctrlDir;
   "ctrl_interface_group=0"]%string.

(** The lines, each ended by a line break. *)
Definition text_of (ls : list string) : string := String.concat "" ((λ l, l ++ String newline_byte "")%string <$> ls).

Definition DefaultControlDir : string := "/run/hostapd".

Definition RenderHostapd (cfg : APConfig) : res string string :=
  let? _ := validate false cfg in
  let? mode := hwMode cfg in
  Ok (text_of (hostapd_lines cfg mode (if (ControlDir cfg =? "")%string then DefaultControlDir else ControlDir cfg))).

(** ** dnsmasq.go *)

Definition Second : Z := 1000000000.
Definition Minute : Z := 60 * Second.
Definition Hour : Z := 60 * Minute.
Definition MinLeaseTime : Z := 2 * Minute.
Definition DefaultServiceUser : string := "caspian".
Definition DefaultServiceGroup : string := "caspian".

Definition bannedResolvers : list string :=
  ["8.8.8.8"; "8.8.4.4"; "2001:4860:4860::8888"; "2001:4860:4860::8844"].

Record DNSConfig := MkDNS {
  d_Interface : string;
  d_Subnet : Prefix;
  d_Gateway : Addr;
  RangeStart : Addr;
  RangeEnd : Addr;
  LeaseTime : Z;
  d_LeaseFile : string;
  Upstream : Addr * Z;
  CacheSize : Z;
  ServiceUser : string;
  ServiceGroup : string;
  FilterAAAA : bool
}.

(** netip.Addr.Compare *)
Definition Compare (a b : Addr) : comparison :=
  match BitLen a ?= BitLen b with
  | Eq => match value a ?= value b with
          | Eq => match a, b with
                  | A6 _ z, A6 _ z' => String.compare z z'
                  | _, _ => Eq
                  end
          | c => c
          end
  | c => c
  end.

Definition is_gt (c : comparison) : bool := match c with Gt => true | _ => false end.
Definition is_lt (c : comparison) : bool := match c with Lt => true | _ => false end.

(** time.Duration.String: the fraction of a unit, without trailing zeros, in
    front of what follows. *)
Fixpoint fmt_frac (prec : nat) (v : Z) (printing : bool) (acc : string) : string * Z :=
  match prec with
  | O => ((if printing then "." ++ acc else acc)%string, v)
  | S n =>
      let digit := v mod 10 in
      let printing := printing || negb (digit =? 0) in
      fmt_frac n (v / 10) printing (if printing then Itoa digit ++ acc else acc)%string
  end.

Definition duration_String (d : Z) : string :=
  let u := Z.abs d in
  let unit (w : Z) (f name : string) : string := (Itoa w ++ f ++ name)%string in
  let body :=
    if u =? 0 then "0s"%string
    else if u <? 1000 then unit u "" "ns"
    else if u <? 1000000 then let '(f, w) := fmt_frac 3 u false "" in unit w f (String "194" (String "181" "s"))
    else if u <? Second then let '(f, w) := fmt_frac 6 u false "" in unit w f "ms"
    else let '(f, w) := fmt_frac 9 u false "" in
         let s := unit (w mod 60) f "s" in
         let m := w / 60 in
         if m =? 0 then s
         else let s := unit (m mod 60) "m" s in
              let h := m / 60 in if h =? 0 then s else unit h "h" s in
  if d <? 0 then String "-" body else body.

Example duration_ex :
  duration_String MinLeaseTime = "2m0s"%string ∧ duration_String (90 * Minute) = "1h30m0s"%string ∧
  duration_String 1500000000 = "1.5s"%string ∧ duration_String 0 = "0s"%string ∧ duration_String 2500000 = "2.5ms"%string.
Proof. vm_compute. repeat split. Qed.

Definition in_subnet (c : DNSConfig) (name : string) (a : Addr) (k : res string unit) : res string unit :=
  if negb (addr_valid a) || negb (Is4 a) then Err ("hotspot: the " ++ name ++ " is not an IPv4 address")%string
  else if negb (Contains_addr (d_Subnet c) a) then
    Err ("hotspot: the " ++ name ++ " " ++ addr_String a ++ " is not inside the hotspot subnet " ++ prefix_String (d_Subnet c))%string
  else k.

(** DNSConfig.Validate *)
Definition dns_Validate (c : DNSConfig) : res string unit :=
  let? _ := validConfigToken "interface" (d_Interface c) in
  let? _ :=
    err_if (negb (prefix_valid (d_Subnet c))) "hotspot: no hotspot subnet was set"
    (err_if (negb (Is4 (p_addr (d_Subnet c)))) "hotspot: the hotspot subnet must be an IPv4 network in this version"
    (err_if ((Bits (d_Subnet c) <? 8) || (30 <? Bits (d_Subnet c)))
      ("hotspot: a /" ++ Itoa (Bits (d_Subnet c)) ++ " hotspot subnet has no usable range of addresses")%string
    (err_if (negb (bool_decide (p_addr (d_Subnet c) = p_addr (Masked (d_Subnet c)))))
      ("hotspot: " ++ prefix_String (d_Subnet c) ++ " is a host address, not a network (did you mean " ++
       prefix_String (Masked (d_Subnet c)) ++ "?)")%string
    (in_subnet c "gateway address" (d_Gateway c)
    (in_subnet c "first DHCP address" (RangeStart c)
    (in_subnet c "last DHCP address" (RangeEnd c) (Ok tt))))))) in
  let? _ :=
    err_if (is_gt (Compare (RangeStart c) (RangeEnd c)))
      ("hotspot: the DHCP range " ++ addr_String (RangeStart c) ++ " to " ++ addr_String (RangeEnd c) ++ " runs backwards")%string
    (err_if (negb (is_lt (Compare (d_Gateway c) (RangeStart c))) && negb (is_gt (Compare (d_Gateway c) (RangeEnd c))))
      ("hotspot: the gateway address " ++ addr_String (d_Gateway c) ++ " is inside the DHCP range " ++
       addr_String (RangeStart c) ++ " to " ++ addr_String (RangeEnd c) ++ " and would be given away")%string
    (err_if (LeaseTime c <? MinLeaseTime)
      ("hotspot: a DHCP lease of " ++ duration_String (LeaseTime c) ++ " is shorter than the " ++
       duration_String MinLeaseTime ++ " minimum")%string
    (validAbsPath "lease file" (d_LeaseFile c)))) in
  let up := fst (Upstream c) in
  let? _ :=
    err_if (negb (addr_valid up) || (snd (Upstream c) =? 0)) "hotspot: no local resolver address was set for client DNS"
    (match List.find (λ b, (addr_String up =? b)%string) bannedResolvers with
     | Some b => Err ("hotspot: " ++ b ++ " must never be used as a resolver by this program")%string
     | None =>
         err_if (negb (IsLoopback up))
           ("hotspot: client DNS must forward to a resolver on this machine, and " ++ addr_String up ++ " is not one")%string
           (Ok tt)
     end) in
  let? _ := validServiceAccount "service user" (ServiceUser c) in
  let? _ := validServiceAccount "service group" (ServiceGroup c) in
  err_if (CacheSize c <? 0) ("hotspot: a DNS cache size of " ++ Itoa (CacheSize c) ++ " makes no sense")%string (Ok tt).

Definition ipv4Netmask (bits : Z) : string :=
  let mask := Z.shiftl (2 ^ 32 - 1) (32 - bits) mod 2 ^ 32 in
  (Itoa (Z.shiftr mask 24 mod 256) ++ "." ++ Itoa (Z.shiftr mask 16 mod 256) ++ "." ++
   Itoa (Z.shiftr mask 8 mod 256) ++ "." ++ Itoa (mask mod 256))%string.

Definition leaseTimeString (d : Z) : string :=
  if Z.rem d Hour =? 0 then (Itoa (Z.quot d Hour) ++ "h")%string
  else if Z.rem d Minute =? 0 then (Itoa (Z.quot d Minute) ++ "m")%string
  else Itoa (Z.quot d Second).

Definition dnsmasq_lines (c : DNSConfig) : list string :=
  (["# dnsmasq configuration generated by Caspian-BYOC.";
   "# Rewritten from scratch on every start. Edits here are lost.";
   "#";
   "# This file serves DHCP and DNS to the hotspot only. Two things in it";
   "# are not tuning and must not be relaxed: what it refuses to log, and";
   "# where it is allowed to send a query.";
   "";
   "# WHO THIS PROCESS RUNS AS.";
   "#";
   "# dnsmasq needs root only to bind port 53 and to open the DHCP socket.";
   "# It then drops to an unprivileged account for the rest of its life,";
   "# which is right, and which is exactly why this line has to be here.";
   "#";
   "# THE FAILURE THIS PREVENTS IS SILENCE, NOT AN ERROR. With no user=";
   "# line dnsmasq drops to its own compiled-in default account, which on a";
   "# Debian-derived system is neither root nor this appliance's service";
   "# user. The lease file below lives in a directory that is mode 0700 and";
   "# owned by the service user (docs/LAYOUT.md: /var/lib/caspian, 0700,";
   "# caspian), and a process running as somebody else cannot traverse it.";
   "# So dnsmasq keeps answering DNS, keeps handing out addresses, and";
   "# keeps failing to record a single lease. The hotspot works. The panel";
   "# reads an empty lease file and reports zero connected devices for";
   "# ever, on a network people are actively using. Nothing logs an error,";
   "# nothing crashes, and a non-technical user is left comparing a screen";
   "# that says nobody is connected against a phone that is plainly online.";
   "#";
   "# group= is set for the same reason and is not implied by user=:";
   "# dnsmasq's default group is a compiled-in value of its own, so leaving";
   "# it out leaves half the identity unstated.";
   "user=" ++ ServiceUser c;
   "group=" ++ ServiceGroup c;
   "";
   "# Listen on the hotspot interface only.";
   "#";
   "# bind-interfaces stops dnsmasq binding the wildcard address. Without";
   "# it dnsmasq listens on 0.0.0.0 and filters by interface in userspace,";
   "# which means the port is open on the uplink and on any interface that";
   "# appears later, and this box would be an open resolver to whatever";
   "# network it is plugged into.";
   "interface=" ++ d_Interface c;
   "bind-interfaces";
   "listen-address=" ++ addr_String (d_Gateway c);
   "port=53";
   "";
   "# PRIVACY, NOT TUNING: no query logging.";
   "#";
   "# There is deliberately no log-queries line. With it, dnsmasq writes one";
   "# syslog line per lookup, which on this box is a dated record of every";
   "# site every person on the hotspot visited, kept on the appliance that";
   "# exists to stop exactly that being collected elsewhere. The reference";
   "# implementation set log-queries (004-hotspot/install.sh:352).";
   "#";
   "# The cache below is in memory only. It is lost when the process stops";
   "# and is never written to disk.";
   "cache-size=" ++ (if (0 <? CacheSize c)%Z then Itoa (CacheSize c) else "0");
   "";
   "# PRIVACY, NOT TUNING: no DHCP logging.";
   "#";
   "# Leaving out log-dhcp is not enough. dnsmasq logs every DHCPDISCOVER,";
   "# DHCPOFFER, DHCPREQUEST and DHCPACK by default, each carrying a MAC";
   "# address and a hostname, so the default configuration keeps a dated";
   "# record of every device that joined and when. quiet-dhcp turns that";
   "# off. The reference implementation went the other way and set log-dhcp";
   "# (004-hotspot/install.sh:381).";
   "#";
   "# The lease file remains, because the panel has to show the user how";
   "# many devices are connected. It holds current leases only and dnsmasq";
   "# removes an entry when it expires; it is not a history.";
   "quiet-dhcp";
   "quiet-dhcp6";
   "quiet-ra";
   "";
   "# The only place a client query may go.";
   "#";
   "# no-resolv stops dnsmasq reading /etc/resolv.conf. Without it dnsmasq";
   "# inherits whatever resolver the uplink's DHCP handed this box, and";
   "# every client lookup would leave in plaintext beside the tunnel";
   "# instead of through it. That is the leak the whole appliance exists to";
   "# prevent, and it would be caused by a file this program never wrote.";
   "#";
   "# The server line points at a resolver on this machine, which the rest";
   "# of this program routes through the tunnel. A public resolver must";
   "# never appear here; the renderer refuses to emit one that is not a";
   "# loopback address.";
   "no-resolv";
   "server=" ++ addr_String (fst (Upstream c)) ++ "#" ++ Itoa (snd (Upstream c));
   "";
   "# Do not send a bare name with no dot upstream, and do not send reverse";
   "# lookups for private address space upstream. Both would hand the names";
   "# and addresses of devices on this hotspot to a stranger, and neither";
   "# has a useful answer.";
   "domain-needed";
   "bogus-priv";
   "";
   "# Do not answer clients from this box's /etc/hosts.";
   "no-hosts"]%string ++
   (if FilterAAAA c then
  ["";
   "# Drop AAAA answers. The v1 tunnel carries IPv4, so an IPv6 address";
   "# handed to a client is a destination it will try first and cannot";
   "# reach, which shows up as every page taking seconds to load.";
   "# Off unless the caller turned it on: this option needs dnsmasq";
   "# 2.81 or newer and an older dnsmasq treats an unknown option as";
   "# fatal, so guessing here would stop the hotspot from starting.";
   "filter-AAAA"]%string else []) ++
   ["";
   "# DHCP.";
   "#";
   "# dhcp-authoritative is correct because this box is the only DHCP";
   "# server on its own hotspot: it lets dnsmasq answer a client that";
   "# arrives asking to renew a lease from some other network immediately,";
   "# instead of leaving it to time out.";
   "#";
   "# option:dns-server points at this box, not at a public resolver, so a";
   "# client that honours DHCP asks us. A client with a hardcoded resolver";
   "# ignores this line; catching that one is internal/netcfg's redirect,";
   "# not this file's job.";
   "dhcp-authoritative";
   "dhcp-range=" ++ addr_String (RangeStart c) ++ "," ++ addr_String (RangeEnd c) ++ "," ++ ipv4Netmask (Bits (d_Subnet c)) ++ "," ++ leaseTimeString (LeaseTime c);
   "dhcp-option=option:router," ++ addr_String (d_Gateway c);
   "dhcp-option=option:dns-server," ++ addr_String (d_Gateway c);
   "# The lease file is the panel's only source for the connected-device";
   "# count, and it is writable only because of the user= line at the top";
   "# of this file. Change one without the other and the count silently";
   "# stays at zero.";
   "dhcp-leasefile=" ++ d_LeaseFile c]%string)%list.

Definition RenderDnsmasq (c : DNSConfig) : res string string :=
  let? _ := dns_Validate c in Ok (text_of (dnsmasq_lines c)).

(** ** radio.go *)

Record RadioConstraint := MkRadio {
  rc_SupportsAP : bool;
  MaxAPs : Z;
  MaxChannels : Z;
  ClientChannel : Z;
  AllowedChannels : list Z
}.

Definition no_radio : RadioConstraint := MkRadio false 0 0 0 [].

Definition PinnedChannel (rc : RadioConstraint) : option Z :=
  if (MaxChannels rc <=? 1) && negb (ClientChannel rc =? 0) then Some (ClientChannel rc) else None.

(** RadioConstraint.Check *)
Definition radio_Check (rc : RadioConstraint) (cfg : APConfig) : res string unit :=
  err_if (negb (rc_SupportsAP rc))
    ("hotspot: this wireless adapter cannot create a hotspot; " ++ "plug in a USB WiFi adapter that supports one")%string
  (err_if (MaxAPs rc <? 1)
    ("hotspot: this wireless adapter reports it can host no access point; " ++
     "plug in a USB WiFi adapter that supports one")%string
  (match PinnedChannel rc with
   | Some pinned =>
       err_if (negb (ap_Channel cfg =? pinned))
         ("hotspot: this radio can only be on one channel at a time and its " ++ "internet connection is on channel " ++
          Itoa pinned ++ ", so the hotspot must use channel " ++ Itoa pinned ++ ", not " ++ Itoa (ap_Channel cfg))%string
   | None => λ k, k
   end
  (match AllowedChannels rc with
   | [] => Ok tt
   | cs => if existsb (Z.eqb (ap_Channel cfg)) cs then Ok tt
           else Err ("hotspot: channel " ++ Itoa (ap_Channel cfg) ++ " is not one this adapter is allowed to use in " ++
                     CountryCode cfg ++ " (allowed: " ++ ints_String cs ++ ")")%string
   end))).

(** ** plan.go *)

Record HotspotPlan := MkHotspotPlan {
  AP : APConfig;
  DNS : DNSConfig;
  Radio : RadioConstraint;
  HostapdConf : string;
  DnsmasqConf : string;
  PassphraseGenerated : bool
}.

Definition NewMobileHotspotPlan (rand : res string (list Z)) (ap : APConfig) (dns : DNSConfig) (radio : RadioConstraint) :
    res string HotspotPlan :=
  let? (ap, generated) := EnsurePassphrase rand ap in
  let? _ := validate true ap in
  let? _ := radio_Check radio ap in
  Ok (MkHotspotPlan ap dns radio "" "" generated).

Definition fill_dns (ap : APConfig) (d : DNSConfig) : DNSConfig :=
  let or s t := if (s =? "")%string then t else s in
  MkDNS (or (d_Interface d) (ap_Interface ap)) (d_Subnet d) (d_Gateway d) (RangeStart d) (RangeEnd d) (LeaseTime d)
    (d_LeaseFile d) (Upstream d) (CacheSize d) (or (ServiceUser d) DefaultServiceUser)
    (or (ServiceGroup d) DefaultServiceGroup) (FilterAAAA d).

Definition NewPlan (rand : res string (list Z)) (ap : APConfig) (dns : DNSConfig) (radio : RadioConstraint) :
    res string HotspotPlan :=
  let? (ap, generated) := EnsurePassphrase rand ap in
  let? _ := validate false ap in
  let? _ := radio_Check radio ap in
  let dns := fill_dns ap dns in
  let? _ := dns_Validate dns in
  let? hconf := RenderHostapd ap in
  let? dconf := RenderDnsmasq dns in
  Ok (MkHotspotPlan ap dns radio hconf dconf generated).

(** ** leases.go *)

Record Lease := MkLease {
  Expiry : option Z; (* seconds since the epoch; None is the zero time *)
  l_MAC : string;
  l_IP : Addr;
  Hostname : string;
  ClientID : string
}.

Definition Expired (l : Lease) (now : Z) : bool :=
  match Expiry l with None => false | Some e => e <? now end.

Definition DisplayName (l : Lease) : string :=
  if negb (Hostname l =? "")%string then Hostname l
  else if addr_valid (l_IP l) then addr_String (l_IP l)
  else "unknown device".

Definition parseLeaseLine (line : string) : option Lease :=
  match Fields line with
  | [f0; f1; f2; f3; f4] =>
      secs ← Atoi f0;
      if secs <? 0 then None
      else
        addr ← ParseAddr f2;
        let blank s := if (s =? "*")%string then ""%string else s in
        Some (MkLease (if secs =? 0 then None else Some secs) (ToLower f1) addr (blank f3) (blank f4))
  | _ => None
  end.

Definition lease_line (st : list Lease * Z) (raw : string) : list Lease * Z :=
  let '(ls, bad) := st in
  let line := TrimSpace raw in
  if (line =? "")%string || HasPrefix line "duid " then st
  else match parseLeaseLine line with
       | None => (ls, bad + 1)
       | Some l => ((ls ++ [l])%list, bad)
       end.

(** The scanner holds 64 KiB: a longer line ends the read with an error, and
    what was read before it is returned. *)
Definition maxLine : Z := 65536.

Fixpoint lease_lines (st : list Lease * Z) (ls : list string) : list Lease * Z * bool :=
  match ls with
  | [] => (st, true)
  | l :: ls => if maxLine <=? len l then (st, false) else lease_lines (lease_line st l) ls
  end.

(** The leases, the count of malformed lines, and whether the text was read to
    its end. *)
Definition ParseLeases (text : string) : list Lease * Z * bool := lease_lines ([], 0) (lines_of text).

Definition ActiveLeases (ls : list Lease) (now : Z) : list Lease := List.filter (λ l, negb (Expired l now)) ls.
