(* ===== verification/HotspotFacts.v ===== *)
(** * What the access point's files say

    The texts handed to hostapd and dnsmasq, read back the way those programs
    read them (one directive per line, comments and empty lines aside), are the
    directives meant and no others, whatever the network name, the passphrase
    and the other values hold. *)

From S2P Require Import Prelude GoStrings Bytes Sha256 Command Netip Text Facts Parse Subnet HotspotConf.

Local Open Scope Z_scope.

(** ** Reading a configuration file *)

Definition directive (line : string) : option (string * string) :=
  if (line =? "")%string || HasPrefix line "#" then None
  else Some (default (line, ""%string) (Cut line "=")).

Definition directives (text : string) : list (string * string) := omap directive (lines_of text).

Definition no_newline (s : string) : Prop := newline_byte ∉ to_l s.

Lemma to_l_app a b : to_l (a ++ b)%string = (to_l a ++ to_l b)%list.
Proof. unfold to_l. induction a as [|c a IH]; simpl; [done|]. by rewrite IH. Qed.

Lemma no_newline_app a b : no_newline a → no_newline b → no_newline (a ++ b)%string.
Proof. unfold no_newline. rewrite to_l_app, not_elem_of_app. done. Qed.

Lemma split_ascii_line c l r : c ∉ l → split_ascii c (l ++ c :: r)%list = l :: split_ascii c r.
Proof.
  intros Hl. induction l as [|a l IH]; simpl.
  { by rewrite Ascii.eqb_refl. }
  apply not_elem_of_cons in Hl as [Ha Hl]. rewrite IH by done.
  destruct (Ascii.eqb_spec a c); [congruence|done].
Qed.

Lemma text_of_cons l ls : text_of (l :: ls) = (l ++ String newline_byte (text_of ls))%string.
Proof.
  unfold text_of. destruct ls as [|l' ls]; cbn [fmap list_fmap String.concat]; [done|].
  by rewrite append_assoc.
Qed.

(** The lines of a text made of lines. *)
Lemma lines_of_text ls : Forall no_newline ls → lines_of (text_of ls) = (ls ++ [""%string])%list.
Proof.
  unfold lines_of, Split. induction 1 as [|l ls Hl _ IH]; [done|].
  rewrite text_of_cons. change (String.list_ascii_of_string ?s) with (to_l s) in *. rewrite to_l_app.
  change (to_l (String newline_byte (text_of ls))) with (newline_byte :: to_l (text_of ls)).
  rewrite split_ascii_line by done. cbn [fmap list_fmap app]. f_equal; [apply of_to|exact IH].
Qed.

Lemma directives_text ls : Forall no_newline ls → directives (text_of ls) = omap directive ls.
Proof.
  intros H. unfold directives. rewrite lines_of_text by done. rewrite omap_app. cbn. by rewrite app_nil_r.
Qed.

(** ** What the validators leave out *)

Definition printable (s : string) : Prop := Forall (λ c, code c ≠ 10) (to_l s).

Lemma printable_no_newline s : printable s → no_newline s.
Proof. intros H Hin. unfold printable in H. rewrite Forall_forall in H. by apply (H _ Hin). Qed.

Lemma existsb_false_Forall {A} (p : A → bool) l : existsb p l = false → Forall (λ x, p x = false) l.
Proof. induction l as [|a l IH]; simpl; [constructor|]. intros [Ha Hl]%orb_false_iff. auto. Qed.

Lemma noControlChars_ok what v : noControlChars what v = Ok tt → printable v.
Proof.
  unfold noControlChars. destruct (existsb _ _) eqn:E; [done|]. intros _.
  eapply Forall_impl; [apply existsb_false_Forall, E|]. intros c Hc. simpl in Hc. breflect. lia.
Qed.

Lemma err_if_ok b msg k : err_if b msg k = Ok tt → b = false ∧ k = Ok tt.
Proof. unfold err_if. destruct b; [done|]. auto. Qed.

Lemma validConfigToken_ok what v : validConfigToken what v = Ok tt → printable v.
Proof.
  unfold validConfigToken. intros (_ & (_ & (H & _)%err_if_ok)%err_if_ok)%err_if_ok.
  apply negb_false_iff in H. rewrite forallb_forall in H. apply Forall_forall. intros c Hc Hb.
  specialize (H c (proj1 (list_elem_of_In _ _) Hc)). unfold token_char in H. by rewrite Hb in H.
Qed.

Lemma validAbsPath_ok what v : validAbsPath what v = Ok tt → printable v.
Proof. unfold validAbsPath. intros (_ & (_ & H)%err_if_ok)%err_if_ok. by apply noControlChars_ok in H. Qed.

Lemma validServiceAccount_ok what v : validServiceAccount what v = Ok tt → printable v.
Proof.
  unfold validServiceAccount. destruct (validConfigToken what v) as [[]|] eqn:E; [|done]. intros _.
  by apply validConfigToken_ok in E.
Qed.

Lemma digits_printable fuel : ∀ n acc, printable acc → printable (digits_fuel fuel n acc).
Proof.
  induction fuel as [|f IH]; intros n acc Ha; cbn [digits_fuel]; [done|].
  assert (printable (String (ascii_of_N (48 + n mod 10)) acc)) as Hp.
  { constructor; [|done]. pose proof (N.mod_upper_bound n 10 ltac:(done)).
    revert H. generalize (n mod 10)%N. intros d Hd.
    unfold code, nat_of_ascii. rewrite N_ascii_embedding by lia. rewrite N_nat_Z. lia. }
  case_match; [done|]. by apply IH.
Qed.

Lemma Itoa_printable z : printable (Itoa z).
Proof.
  unfold Itoa. assert (printable (digits_fuel (S (N.to_nat (N.log2 (Z.abs_N z)))) (Z.abs_N z) "")) as H
    by (apply digits_printable; constructor).
  case_match; [|done]. constructor; [done|exact H].
Qed.

Lemma printable_app a b : printable a → printable b → printable (a ++ b)%string.
Proof. unfold printable. rewrite to_l_app, Forall_app. done. Qed.

Create HintDb lines discriminated.
#[export] Hint Resolve Itoa_printable printable_app : lines.

(** Literals are checked by computation. *)
Lemma printable_lit s : forallb (λ c, negb (code c =? 10)) (to_l s) = true → printable s.
Proof.
  intros H. rewrite forallb_forall in H. apply Forall_forall. intros c Hc.
  specialize (H c (proj1 (list_elem_of_In _ _) Hc)). by breflect.
Qed.

Ltac is_literal s := lazymatch s with EmptyString => idtac | String _ ?t => is_literal t end.

Ltac lit_printable :=
  lazymatch goal with |- printable ?s => is_literal s; apply printable_lit; vm_compute; reflexivity end.
#[export] Hint Extern 2 (printable _) => lit_printable : lines.

Lemma dotted_printable n : printable (dotted n).
Proof. unfold dotted. auto 12 with lines. Qed.

Lemma ipv4Netmask_printable n : printable (ipv4Netmask n).
Proof. unfold ipv4Netmask. auto 12 with lines. Qed.

Lemma leaseTimeString_printable d : printable (leaseTimeString d).
Proof. unfold leaseTimeString. repeat case_match; auto with lines. Qed.

Lemma addr4_printable a : Is4 a = true → printable (addr_String a).
Proof. destruct a; try done. intros _. apply dotted_printable. Qed.

Lemma loopback_printable a : IsLoopback a = true → hasZone a = false → printable (addr_String a).
Proof.
  destruct a as [|n|n z]; [done|intros; apply dotted_printable|].
  unfold IsLoopback, Unmap. intros Hl Hz. cbn [addr_String hasZone] in *. apply negb_false_iff in Hz as ->.
  destruct (Is4In6 (A6 n z)) eqn:E.
  - apply printable_app; [|constructor]. apply printable_app; [lit_printable|apply dotted_printable].
  - apply Z.eqb_eq in Hl as ->. by apply printable_lit.
Qed.

#[export] Hint Resolve dotted_printable ipv4Netmask_printable leaseTimeString_printable : lines.

Lemma pass_printable p : ValidatePassphrase p = Ok tt → printable p.
Proof.
  unfold ValidatePassphrase. intros (_ & (_ & (_ & (H & _)%err_if_ok)%err_if_ok)%err_if_ok)%err_if_ok.
  eapply Forall_impl; [apply existsb_false_Forall, H|]. intros c Hc. simpl in Hc. breflect. lia.
Qed.

Lemma country_printable c : validCountryCode c = Ok tt → printable c.
Proof.
  unfold validCountryCode. intros (_ & (_ & (H & _)%err_if_ok)%err_if_ok)%err_if_ok.
  apply negb_false_iff in H. rewrite forallb_forall in H. apply Forall_forall. intros x Hx Hb.
  specialize (H x (proj1 (list_elem_of_In _ _) Hx)). unfold upper_letter in H. by rewrite Hb in H.
Qed.

(** What a configuration that passes Validate looks like. *)
Record ap_valid (c : APConfig) : Prop := MkApValid {
  av_iface : printable (ap_Interface c);
  av_ssid : printable (ap_SSID c);
  av_pass : ValidatePassphrase (Passphrase c) = Ok tt;
  av_country : printable (CountryCode c);
  av_channel : validChannel (ap_Band c) (ap_Channel c) = Ok tt;
  av_dir : ControlDir c ≠ ""%string → printable (ControlDir c)
}.

Lemma validate_ok c : validate false c = Ok tt → ap_valid c.
Proof.
  unfold validate. intros H.
  destruct (validConfigToken _ _) as [[]|] eqn:E1; [|done].
  match type of H with (match ?x with _ => _ end = _) => destruct x as [[]|] eqn:E2; [|done] end.
  destruct (ValidatePassphrase _) as [[]|] eqn:E3; [|done].
  destruct (validCountryCode _) as [[]|] eqn:E4; [|done].
  destruct (validChannel _ _) as [[]|] eqn:E5; [|done].
  split; [by apply validConfigToken_ok in E1| |done|by apply country_printable|done|].
  - apply err_if_ok in E2 as (_ & (_ & (_ & E2)%err_if_ok)%err_if_ok). by apply noControlChars_ok in E2.
  - intros Hd. apply String.eqb_neq in Hd. rewrite Hd in H. cbn in H. by apply validAbsPath_ok in H.
Qed.

(** A line that sets a key to a value reads back as that pair, whatever the
    value holds. *)
Lemma index_byte_skip c l r : c ∉ l → index_byte c (l ++ c :: r)%list = Some (List.length l).
Proof.
  intros H. induction l as [|a l IH]; simpl; [by rewrite Ascii.eqb_refl|].
  apply not_elem_of_cons in H as [Ha Hl]. destruct (Ascii.eqb_spec a c); [congruence|]. by rewrite IH.
Qed.

Definition key_ok (k : string) : bool :=
  match to_l k with
  | [] => false
  | c :: _ => negb (Ascii.eqb c "#") && forallb (λ c, negb (Ascii.eqb c "=")) (to_l k)
  end.

Lemma directive_kv k v : key_ok k = true → directive (k ++ "=" ++ v)%string = Some (k, v).
Proof.
  unfold key_ok. intros H. destruct k as [|c k]; [done|].
  change (to_l (String c k)) with (c :: to_l k) in H. apply andb_true_iff in H as [Hc Hk].
  assert ("="%char ∉ to_l (String c k)) as Hnot.
  { intros Hin. rewrite forallb_forall in Hk. apply list_elem_of_In in Hin.
    specialize (Hk _ Hin). by rewrite Ascii.eqb_refl in Hk. }
  unfold directive. rewrite append_cons.
  change (String c (k ++ "=" ++ v)%string =? "")%string with false. cbn [orb].
  assert (HasPrefix (String c (k ++ "=" ++ v)%string) "#" = false) as ->.
  { unfold HasPrefix. cbn [String.prefix]. destruct (ascii_dec "#" c) as [<-|]; [by rewrite Ascii.eqb_refl in Hc|done]. }
  unfold Cut, IndexByte. rewrite <- append_cons, to_l_app.
  change (to_l ("=" ++ v)%string) with ("="%char :: to_l v).
  rewrite (index_byte_skip _ _ _ Hnot). cbn [default].
  unfold substr_to, substr_from. rewrite to_l_app, take_app_length.
  change (to_l ("=" ++ v)%string) with (["="%char] ++ to_l v)%list.
  rewrite app_assoc. replace (S (List.length (to_l (String c k)))) with (List.length (to_l (String c k) ++ ["="%char])%list)
    by (rewrite length_app; simpl; lia).
  rewrite drop_app_length, !of_to. done.
Qed.

Lemma read_skip l ls ds : directive l = None → omap directive ls = ds → omap directive (l :: ls) = ds.
Proof. intros Hl H. cbn. by rewrite Hl. Qed.

Lemma read_keep l ls d ds : directive l = Some d → omap directive ls = ds → omap directive (l :: ls) = d :: ds.
Proof. intros Hl H. cbn. by rewrite Hl, <- H. Qed.

(** Read a list of lines one by one. *)
Ltac read_lines :=
  repeat lazymatch goal with
  | |- omap directive (?l :: _) = ?ds =>
      lazymatch l with
      | (?s ++ ?v)%string =>
          let i := eval vm_compute in (default 0%nat (IndexByte s "=")) in
          let k := eval vm_compute in (substr_to s i) in
          let r := eval vm_compute in (substr_from s (S i)) in
          lazymatch r with
          | ""%string => apply read_keep; [exact (directive_kv k v eq_refl)|]
          | _ => apply read_keep; [exact (directive_kv k (r ++ v)%string eq_refl)|]
          end
      | _ => first [apply read_skip; [vm_compute; reflexivity|] | apply read_keep; [vm_compute; reflexivity|]]
      end
  end.

Definition control_dir (c : APConfig) : string := if (ControlDir c =? "")%string then DefaultControlDir else ControlDir c.

Definition hostapd_directives (c : APConfig) (mode : string) : list (string * string) :=
  [("interface", ap_Interface c); ("driver", "nl80211"); ("country_code", CountryCode c); ("ieee80211d", "1");
   ("ssid", ap_SSID c); ("utf8_ssid", "1"); ("hw_mode", mode); ("channel", Itoa (ap_Channel c));
   ("ieee80211n", "1"); ("wmm_enabled", "1"); ("ht_capab", "[SHORT-GI-20]"); ("auth_algs", "1"); ("wpa", "2");
   ("wpa_key_mgmt", "WPA-PSK"); ("rsn_pairwise", "CCMP"); ("wpa_passphrase", Passphrase c); ("ap_isolate", "1");
   ("macaddr_acl", "0"); ("ignore_broadcast_ssid", "0"); ("logger_syslog", "-1"); ("logger_syslog_level", "3");
   ("logger_stdout", "-1"); ("logger_stdout_level", "3"); ("ctrl_interface", control_dir c);
   ("ctrl_interface_group", "0")]%string.

Lemma hostapd_lines_ok c mode dir :
  ap_valid c → printable mode → printable dir → Forall no_newline (hostapd_lines c mode dir).
Proof.
  intros [Hi Hs Hp Hc _ _] Hm Hd. apply pass_printable in Hp. unfold hostapd_lines.
  repeat (apply Forall_cons; split; [apply printable_no_newline; solve [auto with lines]|]). constructor.
Qed.

(** C30. What hostapd reads is what was meant. Whatever the network name, the
    passphrase and the other settings hold, a configuration that is rendered at
    all reads back as exactly these directives in this order, with these values:
    nothing in a value can add a directive or change another one, and the network
    is WPA2 with AES only, isolating its clients. *)
Theorem hostapd_reads_back (c : APConfig) (text : string) :
  RenderHostapd c = Ok text →
  ∃ mode, hwMode c = Ok mode ∧ directives text = hostapd_directives c mode.
Proof.
  unfold RenderHostapd. destruct (validate false c) as [[]|] eqn:Ev; [|done].
  destruct (hwMode c) as [mode|] eqn:Em; [|done]. intros [= <-]. exists mode. split; [done|].
  apply validate_ok in Ev. fold (control_dir c).
  rewrite directives_text.
  2: { apply hostapd_lines_ok; [done| |].
       - unfold hwMode in Em. repeat case_match; simplify_eq; lit_printable.
       - unfold control_dir. destruct (String.eqb_spec (ControlDir c) ""); [by apply printable_lit|by apply av_dir]. }
  unfold hostapd_lines, hostapd_directives. read_lines. reflexivity.
Qed.

(** ** dnsmasq *)

Record dns_valid (c : DNSConfig) : Prop := MkDnsValid {
  dv_iface : printable (d_Interface c);
  dv_subnet : prefix_valid (d_Subnet c) = true ∧ Is4 (p_addr (d_Subnet c)) = true ∧ 8 ≤ Bits (d_Subnet c) ≤ 30;
  dv_in : ∀ a, a ∈ [d_Gateway c; RangeStart c; RangeEnd c] → Is4 a = true ∧ Contains_addr (d_Subnet c) a = true;
  dv_order : value (RangeStart c) ≤ value (RangeEnd c);
  dv_outside : value (d_Gateway c) < value (RangeStart c) ∨ value (RangeEnd c) < value (d_Gateway c);
  dv_file : printable (d_LeaseFile c);
  dv_upstream : IsLoopback (fst (Upstream c)) = true;
  dv_user : printable (ServiceUser c);
  dv_group : printable (ServiceGroup c);
  dv_cache : 0 ≤ CacheSize c
}.

Lemma in_subnet_ok c name a k : in_subnet c name a k = Ok tt →
  Is4 a = true ∧ Contains_addr (d_Subnet c) a = true ∧ k = Ok tt.
Proof.
  unfold in_subnet. destruct (_ || _) eqn:E; [done|]. apply orb_false_iff in E as [_ E].
  destruct (Contains_addr _ _) eqn:Ec; [|done]. apply negb_false_iff in E. auto.
Qed.

Lemma Compare4 a b : Is4 a = true → Is4 b = true → Compare a b = (value a ?= value b).
Proof. destruct a as [|n|], b as [|m|]; try done. intros _ _. unfold Compare. cbn. by destruct (n ?= m). Qed.

Lemma dns_Validate_ok c : dns_Validate c = Ok tt → dns_valid c.
Proof.
  unfold dns_Validate. intros H.
  destruct (validConfigToken _ _) as [[]|] eqn:E1; [|done].
  match type of H with (match ?x with _ => _ end = _) => destruct x as [[]|] eqn:E2; [|done] end.
  match type of H with (match ?x with _ => _ end = _) => destruct x as [[]|] eqn:E3; [|done] end.
  match type of H with (match ?x with _ => _ end = _) => destruct x as [[]|] eqn:E4; [|done] end.
  destruct (validServiceAccount "service user" _) as [[]|] eqn:E5; [|done].
  destruct (validServiceAccount "service group" _) as [[]|] eqn:E6; [|done].
  apply err_if_ok in H as [H _].
  apply err_if_ok in E2 as (S1 & (S2 & (S3 & (_ & E2)%err_if_ok)%err_if_ok)%err_if_ok).
  apply in_subnet_ok in E2 as (G4 & Gc & E2). apply in_subnet_ok in E2 as (R4 & Rc & E2).
  apply in_subnet_ok in E2 as (T4 & Tc & _).
  apply err_if_ok in E3 as (O1 & (O2 & (_ & E3)%err_if_ok)%err_if_ok).
  rewrite !Compare4 in * by done. breflect.
  split; [by apply validConfigToken_ok in E1|split_and!; [done..|lia|lia]| | | |
          by apply validAbsPath_ok in E3| |by apply validServiceAccount_ok in E5|by apply validServiceAccount_ok in E6|lia].
  - intros a. rewrite !elem_of_cons, elem_of_nil. intros [->|[->|[->|[]]]]; by split.
  - unfold is_gt in O1. destruct (Z.compare_spec (value (RangeStart c)) (value (RangeEnd c))); lia || done.
  - unfold is_gt, is_lt in O2.
    destruct (Z.compare_spec (value (d_Gateway c)) (value (RangeStart c))),
      (Z.compare_spec (value (d_Gateway c)) (value (RangeEnd c))); try done; lia.
  - apply err_if_ok in E4 as [_ E4]. case_match; [done|]. apply err_if_ok in E4 as [E4 _]. by apply negb_false_iff in E4.
Qed.

Definition dnsmasq_directives (c : DNSConfig) : list (string * string) :=
  ([("user", ServiceUser c); ("group", ServiceGroup c); ("interface", d_Interface c); ("bind-interfaces", "");
    ("listen-address", addr_String (d_Gateway c)); ("port", "53");
    ("cache-size", if (0 <? CacheSize c)%Z then Itoa (CacheSize c) else "0");
    ("quiet-dhcp", ""); ("quiet-dhcp6", ""); ("quiet-ra", ""); ("no-resolv", "");
    ("server", addr_String (fst (Upstream c)) ++ "#" ++ Itoa (snd (Upstream c))); ("domain-needed", "");
    ("bogus-priv", ""); ("no-hosts", "")]%string ++
   (if FilterAAAA c then [("filter-AAAA", "")]%string else []) ++
   [("dhcp-authoritative", "");
    ("dhcp-range", addr_String (RangeStart c) ++ "," ++ addr_String (RangeEnd c) ++ "," ++
       ipv4Netmask (Bits (d_Subnet c)) ++ "," ++ leaseTimeString (LeaseTime c));
    ("dhcp-option", "option:router," ++ addr_String (d_Gateway c));
    ("dhcp-option", "option:dns-server," ++ addr_String (d_Gateway c));
    ("dhcp-leasefile", d_LeaseFile c)]%string)%list.

Lemma dnsmasq_lines_ok c : dns_valid c → hasZone (fst (Upstream c)) = false → Forall no_newline (dnsmasq_lines c).
Proof.
  intros [Hi _ Hin _ _ Hf Hu Hus Hg _] Hz.
  pose proof (loopback_printable _ Hu Hz) as Hup.
  assert (printable (addr_String (d_Gateway c))) by (apply addr4_printable, Hin; apply elem_of_cons; by left).
  assert (printable (addr_String (RangeStart c))) by (apply addr4_printable, Hin; rewrite !elem_of_cons; auto).
  assert (printable (addr_String (RangeEnd c))) by (apply addr4_printable, Hin; rewrite !elem_of_cons; auto).
  unfold dnsmasq_lines. apply Forall_app; split; [|apply Forall_app; split; [destruct (FilterAAAA c); [|constructor]|]];
  repeat (apply Forall_cons; split; [apply printable_no_newline; try case_match; solve [auto 12 with lines]|]); constructor.
Qed.

(** What dnsmasq reads is what was meant: a rendered configuration reads back
    as exactly these directives, so that queries go to one resolver and that one
    is on this machine, clients are offered this box and nothing else, and
    neither queries nor leases are logged. The addresses it hands out lie in the
    hotspot's network and never include the box's own. *)
Theorem dnsmasq_reads_back (c : DNSConfig) (text : string) :
  RenderDnsmasq c = Ok text → hasZone (fst (Upstream c)) = false →
  directives text = dnsmasq_directives c ∧
  IsLoopback (fst (Upstream c)) = true ∧
  ("log-queries"%string ∉ (directives text).*1) ∧ ("log-dhcp"%string ∉ (directives text).*1) ∧
  (∀ a, Is4 a = true → value (RangeStart c) ≤ value a ≤ value (RangeEnd c) → a ≠ d_Gateway c) ∧
  member (d_Gateway c) (d_Subnet c) ∧ member (RangeStart c) (d_Subnet c) ∧ member (RangeEnd c) (d_Subnet c).
Proof.
  unfold RenderDnsmasq. destruct (dns_Validate c) as [[]|] eqn:Ev; [|done]. intros [= <-] Hz.
  apply dns_Validate_ok in Ev.
  assert (directives (text_of (dnsmasq_lines c)) = dnsmasq_directives c) as E.
  { rewrite directives_text by by apply dnsmasq_lines_ok. unfold dnsmasq_lines, dnsmasq_directives.
    rewrite !omap_app. f_equal; [read_lines; reflexivity|]. f_equal; [|read_lines; reflexivity].
    destruct (FilterAAAA c); [read_lines; reflexivity|done]. }
  assert (∀ k, bool_decide (k ∈ (dnsmasq_directives (MkDNS "" NoPrefix NoAddr NoAddr NoAddr 0 "" (NoAddr, 0) 0 "" "" true)).*1)
    = false → k ∉ (dnsmasq_directives c).*1) as Hk.
  { intros k Hk Hin. apply bool_decide_eq_false in Hk. apply Hk. unfold dnsmasq_directives in *.
    rewrite !fmap_app in *. rewrite !elem_of_app in *. destruct (FilterAAAA c); [exact Hin|].
    destruct Hin as [Hin|[Hin|Hin]]; [by left|by apply elem_of_nil in Hin|by right; right]. }
  rewrite E. split; [done|]. split; [by apply dv_upstream|]. split; [by apply Hk; vm_compute|].
  split; [by apply Hk; vm_compute|].
  split; [intros a Ha Hr ->; destruct (dv_outside c Ev); lia|].
  destruct Ev as [_ (Hv & H4 & Hb) Hin _ _ _ _ _ _ _].
  assert (∀ a, a ∈ [d_Gateway c; RangeStart c; RangeEnd c] → member a (d_Subnet c)) as Hm.
  { intros a Ha. destruct (Hin a Ha) as [Ha4 Hc]. apply Contains_member; [done|by destruct a|done]. }
  split_and!; apply Hm; rewrite !elem_of_cons; auto.
Qed.

(** ** Made-up passphrases *)

Lemma alphabet_char b : 0 ≤ b → ∃ c, to_l passphraseAlphabet !! Z.to_nat (Z.land b 0x1f) = Some c ∧
  0x20 ≤ code c ≤ 0x7e.
Proof.
  intros Hb. assert (Z.land b 0x1f = b mod 32) as -> by (change 0x1f with (Z.ones 5); by rewrite Z.land_ones).
  pose proof (Z.mod_pos_bound b 32 ltac:(lia)) as Hm. set (m := Z.to_nat (b mod 32)).
  assert (m < 32)%nat as Hlt by lia. clearbody m. clear -Hlt.
  do 32 (destruct m as [|m]; [eexists; split; [reflexivity|vm_compute; split; discriminate]|]). lia.
Qed.

Lemma alphabet_distinct : NoDup (to_l passphraseAlphabet).
Proof. apply (bool_decide_unpack _). vm_compute. exact I. Qed.

Lemma len_to_l s : len s = Z.of_nat (List.length (to_l s)).
Proof. unfold len. f_equal. unfold to_l. induction s; simpl; congruence. Qed.

Lemma ToLower_len s : len (ToLower s) = len s.
Proof. unfold len. f_equal. induction s as [|c s IH]; simpl; [done|]. by rewrite IH. Qed.

Definition low5 (b : Z) : Z := Z.land b 0x1f.

(** A passphrase made up for the owner is one hostapd takes: twenty bytes of
    any kind give twenty keyboard characters that pass every check, and two
    buffers give the same passphrase only when they agree in the low five bits of
    every byte, so that a hundred bits of the random source survive. *)
Theorem generated_passphrase_valid (buf buf' : list Z) :
  List.length buf = GeneratedPassphraseLen → Forall (λ b, 0 ≤ b < 256) buf →
  List.length buf' = GeneratedPassphraseLen → Forall (λ b, 0 ≤ b < 256) buf' →
  ValidatePassphrase (GeneratePassphrase buf) = Ok tt ∧
  (GeneratePassphrase buf = GeneratePassphrase buf' ↔ low5 <$> buf = low5 <$> buf').
Proof.
  intros Hl Hb Hl' Hb'.
  set (g := λ b, default "a"%char (to_l passphraseAlphabet !! Z.to_nat (low5 b))).
  assert (∀ l, to_l (GeneratePassphrase l) = g <$> l) as E by (intros l; unfold GeneratePassphrase; by rewrite to_of).
  assert (len (GeneratePassphrase buf) = 20) as Hlen.
  { rewrite len_to_l, E, length_fmap, Hl. done. }
  assert (Forall (λ c, 0x20 ≤ code c ≤ 0x7e) (to_l (GeneratePassphrase buf))) as Hc.
  { rewrite E. apply Forall_fmap. eapply Forall_impl; [exact Hb|]. intros b Hb0. cbn beta in Hb0.
    destruct (alphabet_char b) as (c & Ec & Hc); [lia|]. cbn [compose]. unfold g, low5. by rewrite Ec. }
  split.
  - unfold ValidatePassphrase, err_if. rewrite Hlen.
    destruct (String.eqb_spec (GeneratePassphrase buf) "") as [Hz|_]; [by rewrite Hz in Hlen|]. cbn [Z.ltb Z.compare].
    change (20 <? MinPassphraseLen) with false. change (MaxPassphraseLen <? 20) with false. cbv iota.
    destruct (existsb _ _) eqn:Ex.
    { apply existsb_exists in Ex as (c & Hin & Hx). apply list_elem_of_In in Hin. rewrite Forall_forall in Hc.
      specialize (Hc c Hin). cbn beta in Hc. cbn beta in Hx. apply orb_true_iff in Hx as [?|?]; breflect; lia. }
    unfold slicesContainsFold. destruct (existsb _ bannedPassphrases) eqn:Eb; [|done].
    apply existsb_exists in Eb as (w & Hw & Hx). breflect. exfalso.
    assert (len w = 20) as Hw20 by (rewrite Hx, ToLower_len; exact Hlen).
    unfold bannedPassphrases in Hw. repeat (destruct Hw as [<-|Hw]; [by vm_compute in Hw20|]). done.
  - split.
    + intros Heq. assert (g <$> buf = g <$> buf') as Hg by (rewrite <- !E; by rewrite Heq).
      clear -Hg Hb Hb'. revert buf' Hg Hb'.
      induction Hb as [|b buf Hb0 _ IH]; intros [|b' buf'] Hg Hb'; try done.
      inversion_clear Hb' as [|? ? Hb1 Hb2]. cbn beta in Hb0, Hb1. cbn [fmap list_fmap] in Hg |- *. injection Hg as Hg1 Hg2.
      f_equal; [|by apply IH]. unfold g in Hg1. unfold low5 in *.
      destruct (alphabet_char b) as (c & Ec & _); [lia|]. destruct (alphabet_char b') as (c' & Ec' & _); [lia|].
      rewrite Ec, Ec' in Hg1. simpl in Hg1. subst c'.
      assert (Z.to_nat (Z.land b 0x1f) = Z.to_nat (Z.land b' 0x1f)) as En
        by (eapply NoDup_lookup; [apply alphabet_distinct|exact Ec|exact Ec']).
      apply Z2Nat.inj in En; [done|apply Z.land_nonneg; lia..].
    + intros Heq. rewrite <- (of_to (GeneratePassphrase buf)), <- (of_to (GeneratePassphrase buf')), !E.
      assert (∀ l, g <$> l = (λ b, default "a"%char (to_l passphraseAlphabet !! Z.to_nat b)) <$> (low5 <$> l)) as Eg
        by (intros l; by rewrite <- list_fmap_compose).
      by rewrite !Eg, Heq.
Qed.

Lemma generated_passphrase_valid_witness :
  ValidatePassphrase (GeneratePassphrase (replicate 20 255)) = Ok tt ∧
  (GeneratePassphrase (replicate 20 255) = GeneratePassphrase (replicate 20 31) ↔
   low5 <$> replicate 20 255 = low5 <$> replicate 20 31).
Proof.
  apply generated_passphrase_valid; [done|by apply Forall_replicate|done|by apply Forall_replicate].
Defined.

(** ** The files the repository records *)

Module Golden.

Definition digest (s : string) : string := EncodeToString (Sum256 (bytes_of_string s)).

Definition testAP : APConfig := MkAP "wlan0" "" "Caspian" "correct-horse-battery" "GB" 10 Band2GHz "/run/hostapd".

Definition testDNS : DNSConfig :=
  MkDNS "wlan0" (MkPrefix (quad 192 168 66 0) 24) (quad 192 168 66 1) (quad 192 168 66 50) (quad 192 168 66 150)
    (12 * Hour) "/var/lib/caspian/dnsmasq.leases" (quad 127 0 0 1, 5354) 1000 "caspian" "caspian" false.

(** testdata/hostapd.golden and dnsmasq.golden, by their SHA-256. *)
Example hostapd_golden :
  match RenderHostapd testAP with Ok t => digest t | Err e => e end =
  "8e58e8b86f8be4ba799386f4adbc7bcda4bcb9aefc52ec01c8a3f3622f2c224f"%string.
Proof. vm_compute. reflexivity. Qed.

Example dnsmasq_golden :
  match RenderDnsmasq testDNS with Ok t => digest t | Err e => e end =
  "f66984f820421949cb7d0268f1ce474dcc8f04a3a46eafc1330888868905031f"%string.
Proof. vm_compute. reflexivity. Qed.

Definition text_or (r : res string string) : string := match r with Ok t => t | Err e => e end.

(** A name that tries to add a directive is refused; one that looks like a
    comment is a name. *)
Lemma hostapd_reads_back_witness :
  let c := MkAP "wlan0" "" "#open wpa=0" "correct-horse-battery" "GB" 36 Band5GHz "" in
  ∃ mode, hwMode c = Ok mode ∧ directives (text_or (RenderHostapd c)) = hostapd_directives c mode.
Proof.
  apply (hostapd_reads_back (MkAP "wlan0" "" "#open wpa=0" "correct-horse-battery" "GB" 36 Band5GHz "")).
  vm_compute. reflexivity.
Defined.

Lemma dnsmasq_reads_back_witness : member (quad 192 168 66 1) (MkPrefix (quad 192 168 66 0) 24).
Proof.
  destruct (dnsmasq_reads_back testDNS (text_or (RenderDnsmasq testDNS))) as (_ & _ & _ & _ & _ & H & _);
    [vm_compute; reflexivity|reflexivity|exact H].
Defined.

Example injection_refused :
  RenderHostapd (MkAP "wlan0" "" (String "a" (String newline_byte "wpa=0")) "correct-horse-battery" "GB" 10 Band2GHz "") =
  Err "hotspot: network name contains a control character and cannot be written to a configuration file"%string.
Proof. vm_compute. reflexivity. Qed.

(** testdata/dnsmasq.leases and its neighbours *)
Example leases_ex :
  ParseLeases ("1756600000 02:00:5E:00:00:01 192.168.66.50 phone 01:02" ++ String newline_byte
    ("duid 00:01" ++ String newline_byte ("0 aa:bb 192.168.66.51 * *" ++ String newline_byte "bad line")))%string =
  ([MkLease (Some 1756600000) "02:00:5e:00:00:01" (quad 192 168 66 50) "phone" "01:02";
    MkLease None "aa:bb" (quad 192 168 66 51) "" ""], 1, true).
Proof. vm_compute. reflexivity. Qed.

End Golden.
