(* ===== verification/Supervisor.v ===== *)
(** * The access point's supervisor (internal/hotspot)

    supervisor.go with the System interface of system.go, the rfkill half of
    radio.go and the failure sentences of status.go. The supervisor's own memory is
    the radios it switched on; everything it asks of the machine is recorded, as
    the test double of recorder.go does. *)

From S2P Require Import Prelude GoStrings StateError Netip Text Facts Parse HotspotConf.

Local Open Scope Z_scope.
Local Open Scope svc_scope.

(** ** system.go *)

Inductive Signal := SignalTerm | SignalKill.

Record SResult := MkSResult { r_ExitCode : Z; r_Stdout : string; r_Stderr : string }.

Inductive read_error := NotExist | ReadFailed (msg : string).

Class System (K : Type) := {
  SysRun : string → list string → K → res string SResult * K;
  WriteFile : string → string → Z → K → option string * K;
  ReadFile : string → K → res read_error string * K;
  Remove : string → K → option string * K;
  ProcessAlive : Z → K → res string bool * K;
  SignalProcess : Z → Signal → K → option string * K;
  SysSleep : Z → K → option string * K;
  SysNow : K → Z
}.

Record Paths := MkPaths {
  HostapdBinary : string;
  HostapdCLIBinary : string;
  DnsmasqBinary : string;
  RfkillBinary : string;
  PgrepBinary : string;
  pHostapdConf : string;
  pDnsmasqConf : string;
  HostapdPID : string;
  DnsmasqPID : string;
  pControlDir : string;
  pLeaseFile : string
}.

(** DefaultPaths *)
Definition DefaultPaths : Paths :=
  MkPaths "/usr/sbin/hostapd" "/usr/sbin/hostapd_cli" "/usr/sbin/dnsmasq" "/usr/sbin/rfkill" "/usr/bin/pgrep"
    "/run/caspian/hostapd.conf" "/run/caspian/dnsmasq.conf" "/run/caspian/hostapd.pid"
    "/run/caspian/dnsmasq/dnsmasq.pid" "/run/hostapd" "/var/lib/caspian/dnsmasq.leases".

(** ** radio.go, rfkill *)

Record RfkillDevice := MkRfkill {
  rk_Index : Z;
  rk_Name : string;
  rk_Type : string;
  rk_Soft : bool;
  rk_Hard : bool
}.

Record RadioState := MkRadioState {
  rs_Present : bool;
  rs_Soft : bool;
  rs_Hard : bool;
  rs_Unblocked : bool;
  rs_Detail : string
}.

Definition parseRfkillHeader (line : string) : option (Z * string * string) :=
  match Cut line ":" with
  | None => None
  | Some (first, rest) =>
      match Atoi (TrimSpace first) with
      | None => None
      | Some idx =>
          match Cut (TrimSpace rest) ":" with
          | None => None
          | Some (name, typ) => Some (idx, TrimSpace name, TrimSpace typ)
          end
      end
  end.

(** One line of parseRfkillList; the devices are kept newest first, so that the
    one being filled in is the head. *)
Definition rfkill_line (devs : list RfkillDevice) (raw : string) : list RfkillDevice :=
  let line := TrimSpace raw in
  if (line =? "")%string then devs
  else match parseRfkillHeader line with
       | Some (idx, name, typ) => MkRfkill idx name typ false false :: devs
       | None =>
           match devs with
           | [] => devs
           | cur :: rest =>
               match Cut line ":" with
               | None => devs
               | Some (key, val) =>
                   let yes := EqualFold (TrimSpace val) "yes" in
                   let key := ToLower (TrimSpace key) in
                   if (key =? "soft blocked")%string then
                     MkRfkill (rk_Index cur) (rk_Name cur) (rk_Type cur) yes (rk_Hard cur) :: rest
                   else if (key =? "hard blocked")%string then
                     MkRfkill (rk_Index cur) (rk_Name cur) (rk_Type cur) (rk_Soft cur) yes :: rest
                   else devs
               end
           end
       end.

Definition parseRfkillList (out : string) : list RfkillDevice :=
  rev (foldl rfkill_line [] (Split out newline_byte)).

Definition wireless (d : RfkillDevice) : bool :=
  let t := ToLower (rk_Type d) in Contains t "wlan" || Contains t "wireless".

Definition wirelessDevices (devs : list RfkillDevice) : list RfkillDevice := List.filter wireless devs.

Definition hard_detail : string :=
  ("The wireless adapter is switched off by a switch on the machine itself, " ++
   "which Caspian cannot change. Turn the wireless switch on and try again.")%string.
Definition soft_detail : string :=
  "The wireless adapter is switched off in software and Caspian could not switch it back on.".

(** radioStateFrom *)
Definition radioStateFrom (devs : list RfkillDevice) (unblockedByUs : bool) : RadioState :=
  let present := match devs with [] => false | _ => true end in
  let soft := existsb rk_Soft devs in
  let hard := existsb rk_Hard devs in
  MkRadioState present soft hard unblockedByUs
    (if negb present then "This machine reports no wireless adapter."
     else if hard then hard_detail
     else if soft then soft_detail
     else if unblockedByUs then "The wireless adapter was switched off. Caspian switched it back on."
     else "").

Definition no_radio_state (detail : string) : RadioState := MkRadioState false false false false detail.

(** ** status.go *)

Record ProcState := MkProc { ps_Running : bool; ps_PID : Z; ps_Beaconing : bool; ps_Detail : string }.

Definition no_proc (detail : string) : ProcState := MkProc false 0 false detail.

Record HStatus := MkHStatus {
  h_Running : bool;
  h_AccessPoint : ProcState;
  h_DHCP : ProcState;
  h_Radio : RadioState;
  h_Devices : list Lease;
  h_Malformed : Z;
  h_Reason : string
}.

Definition firstLine (s : string) : string :=
  match IndexByte s newline_byte with
  | Some i => TrimSpace (substr_to s i)
  | None => s
  end.

Definition explainFailure (unit : string) (exitCode : Z) (stderr stdout : string) : string :=
  let text := ToLower (stderr ++ String newline_byte stdout) in
  let has l := existsb (Contains text) l in
  (if Contains text "rfkill" && Contains text "block" then
    "The wireless adapter is switched off. Caspian tried to switch it back on and could not."
  else if has ["could not set channel"; "failed to set channel"] then
    "The wireless adapter would not accept the channel it was given. " ++
    "If this machine is also using WiFi for its internet connection, the hotspot has to " ++
    "use the same channel as that connection."
  else if has ["nl80211: could not configure driver mode"; "does not support ap mode"; "driver does not support"] then
    "This wireless adapter cannot create a hotspot. Plug in a USB WiFi adapter that supports one."
  else if has ["interface initialization failed"; "could not read interface"; "no such device"] then
    "The wireless adapter Caspian was told to use is not there any more. " ++
    "If it is a USB adapter, unplug it and plug it back in."
  else if has ["invalid configuration"; "unknown configuration item"; "bad option"; "unknown option"] then
    "The " ++ unit ++ " software on this machine did not understand its settings. " ++
    "This is a fault in Caspian, not in anything you did."
  else if has ["cannot assign requested address"] then
    "The address this machine keeps for the hotspot was not there when the " ++ unit ++
    " tried to use it. This is a fault in Caspian, not in anything you did. " ++
    "Restarting does not help. The line in the log naming the address is the one to send on."
  else if has ["address already in use"; "failed to create listening socket"] then
    "Another program on this machine is already answering on the address the " ++ unit ++
    " needs. Restart the machine, and if it happens again the other program has to be turned off."
  else if has ["permission denied"; "operation not permitted"] then
    "Caspian was not allowed to start the " ++ unit ++ ". It needs to run with " ++
    "administrator rights on this machine."
  else if (exitCode =? 127)%Z || has ["no such file or directory"; "command not found"] then
    "The software Caspian needs for the " ++ unit ++ " is not installed on this machine."
  else
    let detail := TrimSpace stderr in
    let detail := if (detail =? "")%string then TrimSpace stdout else detail in
    if (detail =? "")%string then "The " ++ unit ++ " stopped with no explanation (code " ++ Itoa exitCode ++ ")."
    else "The " ++ unit ++ " would not start and Caspian does not recognise the reason. " ++
         "It reported: " ++ firstLine detail)%string.

(** ** supervisor.go *)

Inductive Call :=
| CRun (name : string) (args : list string)
| CWrite (path content : string)
| CRead (path : string)
| CRemove (path : string)
| CAlive (pid : Z)
| CSignal (pid : Z) (sig : Signal)
| CSleep (d : Z).

Record Sup (K : Type) := MkSup {
  sys : K;
  unblocked : list RfkillDevice;
  calls : list Call
}.
Arguments MkSup {K}. Arguments sys {K}. Arguments unblocked {K}. Arguments calls {K}.

Definition SM (K A : Type) : Type := SE (Sup K) string A.

Section Supervisor.
Context {K : Type} `{System K} (paths : Paths).

(** One call of the System interface. *)
Definition ask {A} (c : Call) (f : K → A * K) : SM K A := λ s,
  let '(a, k) := f (sys s) in (Ok a, MkSup k (unblocked s) (calls s ++ [c])).

(** A call that may return an error, which ends the caller. *)
Definition must (c : Call) (f : K → option string * K) : SM K unit :=
  e <-- ask c f;; match e with Some msg => raise msg | None => ret tt end.

Definition run (name : string) (args : list string) : SM K (res string SResult) := ask (CRun name args) (SysRun name args).
Definition set_unblocked (l : list RfkillDevice) : SM K unit := λ s, (Ok tt, MkSup (sys s) l (calls s)).

(** livePID: the process the pid file names, or 0 *)
Definition livePID (pidFile : string) : SM K Z :=
  r <-- ask (CRead pidFile) (ReadFile pidFile);;
  match r with
  | Err NotExist => ret 0
  | Err (ReadFailed msg) => raise msg
  | Ok b =>
      match Atoi (TrimSpace b) with
      | None => ret 0
      | Some pid =>
          if pid <=? 0 then ret 0
          else
            r <-- ask (CAlive pid) (ProcessAlive pid);;
            match r with
            | Err msg => raise msg
            | Ok alive => ret (if alive then pid else 0)
            end
      end
  end.

Definition StopPoll : Z := 100000000.
Definition StartSettle : Z := 100000000.
(** StopGrace / StopPoll: 3 seconds in steps of 100 milliseconds *)
Definition stopPolls : nat := 30.
Definition StartTries : nat := 20.

Definition alive (pid : Z) : SM K bool :=
  r <-- ask (CAlive pid) (ProcessAlive pid);; match r with Ok b => ret b | Err msg => raise msg end.

(** terminate, its wait and then its last resort *)
Fixpoint wait_gone (n : nat) (pid : Z) : SM K unit :=
  match n with
  | O => b <-- alive pid;; if b then must (CSignal pid SignalKill) (SignalProcess pid SignalKill) else ret tt
  | S n =>
      b <-- alive pid;;
      if b then must (CSleep StopPoll) (SysSleep StopPoll);;; wait_gone n pid else ret tt
  end.

Definition terminate (pid : Z) : SM K unit :=
  must (CSignal pid SignalTerm) (SignalProcess pid SignalTerm);;; wait_gone stopPolls pid.

Definition stray_pid (word : string) : list Z :=
  match Atoi word with Some pid => if pid <=? 1 then [] else [pid] | None => [] end.

(** stopStrays: any process whose command line names our configuration *)
Definition stopStrays (conf : string) : SM K unit :=
  if (PgrepBinary paths =? "")%string then ret tt
  else
    r <-- run (PgrepBinary paths) ["-f"; conf];;
    match r with
    | Err _ => ret tt
    | Ok r => if negb (r_ExitCode r =? 0) then ret tt else each terminate (concat (stray_pid <$> Fields (r_Stdout r)))
    end.

Definition stopByPIDFile (pidFile : string) : SM K unit :=
  pid <-- livePID pidFile;;
  (if 0 <? pid then terminate pid else ret tt);;;
  must (CRemove pidFile) (Remove pidFile).

Definition writeIfChanged (path content : string) : SM K bool :=
  old <-- ask (CRead path) (ReadFile path);;
  match old with
  | Err (ReadFailed msg) => raise msg
  | _ =>
      if match old with Ok b => (b =? content)%string | Err _ => false end then ret false
      else must (CWrite path content) (WriteFile path content 0x180);;; ret true
  end.

(** *** Processes *)

Inductive procKind := procHostapd | procDnsmasq.

Definition conf_of (kind : procKind) : string :=
  match kind with procHostapd => pHostapdConf paths | procDnsmasq => pDnsmasqConf paths end.
Definition pid_of (kind : procKind) : string :=
  match kind with procHostapd => HostapdPID paths | procDnsmasq => DnsmasqPID paths end.
Definition unit_of (kind : procKind) : string :=
  match kind with procHostapd => "hotspot" | procDnsmasq => "DHCP and DNS server" end.

Definition spawnCommand (kind : procKind) : string * list string :=
  match kind with
  | procHostapd => (HostapdBinary paths, ["-B"; "-P"; HostapdPID paths; pHostapdConf paths])
  | procDnsmasq =>
      (DnsmasqBinary paths,
       ["--conf-file=" ++ pDnsmasqConf paths; "--pid-file=" ++ DnsmasqPID paths; "--conf-dir="]%string)
  end.

Fixpoint await_loop (n : nat) (pidFile : string) : SM K Z :=
  match n with
  | O => raise ("hotspot: " ++ pidFile ++ " did not report a running process")%string
  | S n =>
      pid <-- livePID pidFile;;
      if 0 <? pid then ret pid else must (CSleep StartSettle) (SysSleep StartSettle);;; await_loop n pidFile
  end.

Definition awaitPID (pidFile : string) : SM K Z := await_loop StartTries pidFile.

(** startProcess: the state comes with the error, which is a value here *)
Definition no_record (kind : procKind) : string :=
  ("The " ++ unit_of kind ++ " started and then stopped without recording itself. " ++
   "The usual cause is that it is not allowed to write to " ++ pid_of kind ++ ".")%string.

(** Running the program and waiting for it to record itself. *)
Definition spawn (kind : procKind) : SM K (ProcState * option string) :=
  let '(name, args) := spawnCommand kind in
  r <-- run name args;;
  match r with
  | Err msg =>
      ret (no_proc ("The software Caspian needs for the " ++ unit_of kind ++ " could not be started on this machine.")%string,
           Some msg)
  | Ok r =>
      if negb (r_ExitCode r =? 0) then
        ret (no_proc (explainFailure (unit_of kind) (r_ExitCode r) (r_Stderr r) (r_Stdout r)),
             Some ("hotspot: " ++ name ++ " exited with code " ++ Itoa (r_ExitCode r))%string)
      else
        p <-- attempt_ (awaitPID (pid_of kind));;
        match p with
        | Ok pid => ret (MkProc true pid false "started", None)
        | Err msg =>
            ret (no_proc (if (r_Stderr r =? "")%string && (r_Stdout r =? "")%string then no_record kind
                          else explainFailure (unit_of kind) 0 (r_Stderr r) (r_Stdout r)), Some msg)
        end
  end.

(** What has to go before the program can have the radio or the port. *)
Definition make_room (kind : procKind) (pid : Z) : SM K unit :=
  if 0 <? pid then terminate pid;;; must (CRemove (pid_of kind)) (Remove (pid_of kind))
  else must (CRemove (pid_of kind)) (Remove (pid_of kind));;; stopStrays (conf_of kind).

Definition startProcess (kind : procKind) (confChanged : bool) : SM K (ProcState * option string) :=
  pid <-- attempt_ (livePID (pid_of kind));;
  match pid with
  | Err msg => ret (no_proc "", Some msg)
  | Ok pid =>
      if (0 <? pid) && negb confChanged then ret (MkProc true pid false "already running", None)
      else
        r <-- attempt_ (make_room kind pid);;
        match r with
        | Err msg => ret (no_proc "", Some msg)
        | Ok _ => spawn kind
        end
  end.

(** *** The radio *)

Definition rfkillList : SM K (res string (list RfkillDevice)) :=
  r <-- run (RfkillBinary paths) ["list"];;
  ret (match r with
       | Err msg => Err msg
       | Ok r => if negb (r_ExitCode r =? 0)
                 then Err ("hotspot: rfkill list exited with code " ++ Itoa (r_ExitCode r))%string
                 else Ok (parseRfkillList (r_Stdout r))
       end).

Definition set_detail (st : RadioState) (d : string) : RadioState :=
  MkRadioState (rs_Present st) (rs_Soft st) (rs_Hard st) (rs_Unblocked st) d.

(** Switching a blocked radio on, and reading it back. *)
Definition unblock_radio (st : RadioState) (were : list RfkillDevice) : SM K (RadioState * option string) :=
  r <-- run (RfkillBinary paths) ["unblock"; "wifi"];;
  match r with
  | Err msg =>
      ret (set_detail st "The wireless adapter is switched off and Caspian could not switch it back on.", Some msg)
  | Ok _ =>
      devs <-- rfkillList;;
      match devs with
      | Err _ => ret (set_detail st "Caspian switched the wireless adapter on but could not confirm it.", None)
      | Ok devs =>
          let st := radioStateFrom (wirelessDevices devs) true in
          if rs_Soft st || rs_Hard st then
            ret (st, Some "hotspot: the wireless adapter is still blocked after unblocking it"%string)
          else set_unblocked were;;; ret (st, None)
      end
  end.

Definition ensureRadioUnblocked : SM K (RadioState * option string) :=
  devs <-- rfkillList;;
  match devs with
  | Err _ => ret (no_radio_state "Caspian could not check whether the wireless adapter is switched on.", None)
  | Ok devs =>
      match wirelessDevices devs with
      | [] => ret (no_radio_state "This machine reports no wireless adapter.", None)
      | ws =>
          let st := radioStateFrom ws false in
          if rs_Hard st then ret (st, Some "hotspot: the wireless adapter is hard blocked"%string)
          else if negb (rs_Soft st) then ret (st, None)
          else unblock_radio st (List.filter (λ d, rk_Soft d && negb (rk_Hard d)) ws)
      end
  end.

(** The map from index to device, the last of equals. *)
Definition device_at (devs : list RfkillDevice) (i : Z) : option RfkillDevice :=
  List.find (λ d, rk_Index d =? i) (rev devs).

Definition lit (devs : list RfkillDevice) (d : RfkillDevice) : bool :=
  match device_at devs (rk_Index d) with
  | Some cur => negb (rk_Soft cur) && negb (rk_Hard cur)
  | None => false
  end.

(** The loop of reblockRadio: the errors are collected. *)
Fixpoint block_all (ds : list RfkillDevice) : SM K (list string) :=
  match ds with
  | [] => ret []
  | d :: ds =>
      r <-- run (RfkillBinary paths) ["block"; Itoa (rk_Index d)];;
      errs <-- block_all ds;;
      ret (match r with
           | Err msg => ("hotspot: switching the wireless adapter back off: " ++ msg)%string :: errs
           | Ok _ => errs
           end)
  end.

Definition still_on (d : RfkillDevice) : string :=
  ("hotspot: " ++ rk_Name d ++ " was switched back off and still reports itself on, so this box has left the " ++
   "radio in a state it did not find it in")%string.

(** reblockRadio, once something is owed; the joined errors are their list *)
Definition reblock_these (ours : list RfkillDevice) : SM K (list string) :=
  devs <-- rfkillList;;
  match devs with
  | Err msg => ret [("hotspot: reading the radio state before switching it back off: " ++ msg)%string]
  | Ok devs =>
      errs <-- block_all (List.filter (lit (wirelessDevices devs)) ours);;
      match errs with
      | _ :: _ => ret errs
      | [] =>
          devs <-- rfkillList;;
          ret (match devs with
               | Err msg => [("hotspot: confirming the radio was switched back off: " ++ msg)%string]
               | Ok devs => still_on <$> List.filter (lit (wirelessDevices devs)) ours
               end)
      end
  end.

Definition reblockRadio : SM K (list string) :=
  s <-- get;;
  set_unblocked [];;;
  match unblocked s with
  | [] => ret []
  | ours => reblock_these ours
  end.

(** *** Asking hostapd, and the leases *)

Definition status_line (m : gmap string string) (raw : string) : gmap string string :=
  let line := TrimSpace raw in
  if (line =? "")%string then m
  else match Cut line "=" with
       | None => m
       | Some (k, v) => <[TrimSpace k := TrimSpace v]> m
       end.

Definition parseHostapdStatus (out : string) : gmap string string := foldl status_line ∅ (Split out newline_byte).

Definition apBeaconing (iface : string) : SM K bool :=
  if (HostapdCLIBinary paths =? "")%string then ret true
  else
    r <-- run (HostapdCLIBinary paths) ["-p"; pControlDir paths; "-i"; iface; "status"];;
    ret (match r with
         | Err _ => false
         | Ok r => (r_ExitCode r =? 0) && (default "" (parseHostapdStatus (r_Stdout r) !! "state"%string) =? "ENABLED")%string
         end).

Definition devices : SM K (list Lease * Z) :=
  r <-- ask (CRead (pLeaseFile paths)) (ReadFile (pLeaseFile paths));;
  s <-- get;;
  ret (match r with
       | Err _ => ([], 0)
       | Ok b =>
           let '(leases, malformed, failed) := ParseLeases b in
           if failed then ([], malformed) else (ActiveLeases leases (SysNow (sys s)), malformed)
       end).

(** *** The three operations *)

Definition failed_status (radio : RadioState) (ap dhcp : ProcState) (reason : string) : HStatus :=
  MkHStatus false ap dhcp radio [] 0 reason.

(** Start, from the configuration on. *)
Definition start_daemons (plan : HotspotPlan) (radio : RadioState) : SM K (HStatus * option string) :=
  let none := no_proc "" in
  w1 <-- attempt_ (writeIfChanged (pHostapdConf paths) (HostapdConf plan));;
  match w1 with
  | Err msg => ret (failed_status radio none none "Caspian could not save the hotspot settings on this machine.", Some msg)
  | Ok apChanged =>
      w2 <-- attempt_ (writeIfChanged (pDnsmasqConf paths) (DnsmasqConf plan));;
      match w2 with
      | Err msg =>
          ret (failed_status radio none none "Caspian could not save the DHCP and DNS settings on this machine.", Some msg)
      | Ok dnsChanged =>
          ap <-- startProcess procHostapd apChanged;;
          match ap with
          | (ap, Some msg) => ret (failed_status radio ap none (ps_Detail ap), Some msg)
          | (ap, None) =>
              dhcp <-- startProcess procDnsmasq dnsChanged;;
              match dhcp with
              | (dhcp, Some msg) => ret (failed_status radio ap dhcp (ps_Detail dhcp), Some msg)
              | (dhcp, None) =>
                  beacon <-- apBeaconing (ap_Interface (AP plan));;
                  let ap := MkProc (ps_Running ap) (ps_PID ap) beacon (ps_Detail ap) in
                  if negb beacon then
                    ret (failed_status radio ap dhcp
                           "The hotspot software started but the network is not being broadcast yet.", None)
                  else
                    d <-- devices;;
                    ret (MkHStatus (ps_Running ap && ps_Running dhcp) ap dhcp radio d.1 d.2 "", None)
              end
          end
      end
  end.

Definition Start (plan : HotspotPlan) : SM K (HStatus * option string) :=
  r <-- ensureRadioUnblocked;;
  match r with
  | (radio, Some msg) => ret (failed_status radio (no_proc "") (no_proc "") (rs_Detail radio), Some msg)
  | (radio, None) => start_daemons plan radio
  end.

Definition prefixed (what : string) (r : res string unit) : list string :=
  match r with Err msg => [(what ++ ": " ++ msg)%string] | Ok _ => [] end.

(** One unit of Stop: every part is tried whatever the others did. *)
Definition stop_unit (kind : procKind) : SM K (list string) :=
  r1 <-- attempt_ (stopByPIDFile (pid_of kind));;
  r2 <-- attempt_ (stopStrays (conf_of kind));;
  r3 <-- attempt_ (must (CRemove (conf_of kind)) (Remove (conf_of kind)));;
  ret (prefixed ("stopping the " ++ unit_of kind) r1 ++
       prefixed ("clearing a leftover " ++ unit_of kind ++ " process") r2 ++
       prefixed ("removing the generated " ++ unit_of kind ++ " configuration") r3)%list.

Definition Stop : SM K (list string) :=
  e1 <-- stop_unit procHostapd;;
  e2 <-- stop_unit procDnsmasq;;
  e3 <-- reblockRadio;;
  ret (e1 ++ e2 ++ e3)%list.

Definition pid_or_zero (r : res string Z) : Z := match r with Ok pid => pid | Err _ => 0 end.

Definition Status (iface : string) : SM K HStatus :=
  devs <-- rfkillList;;
  let radio := match devs with Ok devs => radioStateFrom devs false | Err _ => no_radio_state "" end in
  a <-- attempt_ (livePID (HostapdPID paths));;
  d <-- attempt_ (livePID (DnsmasqPID paths));;
  let apPID := pid_or_zero a in
  let dhcpPID := pid_or_zero d in
  beacon <-- (if 0 <? apPID then apBeaconing iface else ret false);;
  ds <-- (if (0 <? apPID) && (0 <? dhcpPID) then devices else ret ([], 0));;
  let ap := MkProc (0 <? apPID) apPID beacon "" in
  let dhcp := MkProc (0 <? dhcpPID) dhcpPID false "" in
  let reason :=
    if rs_Hard radio then Some (rs_Detail radio)
    else if rs_Soft radio then Some (rs_Detail radio)
    else if negb (ps_Running ap) then Some "The hotspot is not running."
    else if negb beacon then Some "The hotspot software is running but the network is not being broadcast."
    else if negb (ps_Running dhcp) then
      Some ("The hotspot is broadcasting but devices cannot get an address, " ++
            "because the DHCP and DNS server is not running.")%string
    else None in
  ret (MkHStatus (match reason with None => true | Some _ => false end) ap dhcp radio ds.1 ds.2 (default "" reason)).

End Supervisor.
