(* ===== verification/SupervisorFacts.v ===== *)
(** * What the access point's supervisor guarantees *)

From S2P Require Import Prelude GoStrings StateError Netip Text Facts Parse HotspotConf Supervisor.

Local Open Scope Z_scope.

(** ** Everything it may ask of the machine *)

Section Calls.
Context {K : Type} `{System K} (paths : Paths).

(** What a supervisor over [paths] may do, for a plan whose two documents are
    among [docs] and an interface among [ifaces]. *)
Inductive call_ok (docs : list HotspotPlan) (ifaces : list string) : Call → Prop :=
| ok_list : call_ok docs ifaces (CRun (RfkillBinary paths) ["list"])
| ok_unblock : call_ok docs ifaces (CRun (RfkillBinary paths) ["unblock"; "wifi"])
| ok_block i : call_ok docs ifaces (CRun (RfkillBinary paths) ["block"; Itoa i])
| ok_pgrep kind : call_ok docs ifaces (CRun (PgrepBinary paths) ["-f"; conf_of paths kind])
| ok_spawn kind : call_ok docs ifaces (CRun (spawnCommand paths kind).1 (spawnCommand paths kind).2)
| ok_cli iface : iface ∈ ifaces →
    call_ok docs ifaces (CRun (HostapdCLIBinary paths) ["-p"; pControlDir paths; "-i"; iface; "status"])
| ok_write_ap p : p ∈ docs → call_ok docs ifaces (CWrite (pHostapdConf paths) (HostapdConf p))
| ok_write_dns p : p ∈ docs → call_ok docs ifaces (CWrite (pDnsmasqConf paths) (DnsmasqConf p))
| ok_read path : path ∈ [pHostapdConf paths; pDnsmasqConf paths; HostapdPID paths; DnsmasqPID paths; pLeaseFile paths] →
    call_ok docs ifaces (CRead path)
| ok_remove_conf kind : call_ok docs ifaces (CRemove (conf_of paths kind))
| ok_remove_pid kind : call_ok docs ifaces (CRemove (pid_of paths kind))
| ok_alive pid : 0 < pid → call_ok docs ifaces (CAlive pid)
| ok_signal pid sig : 0 < pid → call_ok docs ifaces (CSignal pid sig)
| ok_sleep : call_ok docs ifaces (CSleep StopPoll).

Context (docs : list HotspotPlan) (ifaces : list string).

(** The calls added are all of these. *)
Definition stays_within (s s' : Sup K) : Prop := ∃ cs, calls s' = (calls s ++ cs)%list ∧ Forall (call_ok docs ifaces) cs.

#[local] Instance stays_refl : Reflexive stays_within.
Proof. intros s. exists []. by rewrite app_nil_r. Qed.
#[local] Instance stays_trans : Transitive stays_within.
Proof.
  intros s1 s2 s3 (c1 & E1 & F1) (c2 & E2 & F2). exists (c1 ++ c2)%list. rewrite E2, E1, app_assoc. split; [done|].
  by apply Forall_app.
Qed.

Local Abbreviation within m := (keeps stays_within m).

Lemma within_ask {A} c (f : K → A * K) : call_ok docs ifaces c → within (ask c f).
Proof. intros Hc s. unfold ask. destruct (f (sys s)). exists [c]. split; [done|]. by constructor. Qed.

Lemma within_must c (f : K → option string * K) : call_ok docs ifaces c → within (must c f).
Proof. intros Hc. unfold must. apply keeps_bind; [apply _|by apply within_ask|]. intros a. repeat keeps_step. Qed.

Lemma within_run name args : call_ok docs ifaces (CRun name args) → within (run name args).
Proof. apply within_ask. Qed.

Lemma within_unblocked l : within (set_unblocked l).
Proof. intros s. exists []. by rewrite app_nil_r. Qed.

Local Hint Resolve within_ask within_must within_run within_unblocked : keeps.
Local Hint Constructors call_ok : keeps.
Local Hint Extern 2 (_ ∈ _) => set_solver : keeps.

Lemma within_live path :
  path ∈ [pHostapdConf paths; pDnsmasqConf paths; HostapdPID paths; DnsmasqPID paths; pLeaseFile paths] →
  within (livePID path).
Proof.
  intros Hp. unfold livePID. apply keeps_bind; [apply _|apply within_ask; by constructor|]. intros [b|[|msg]]; try (by repeat keeps_step).
  destruct (Atoi (TrimSpace b)) as [pid|]; [|by repeat keeps_step]. destruct (pid <=? 0) eqn:E; [by repeat keeps_step|].
  breflect. repeat keeps_step.
Qed.

Lemma within_wait n pid : 0 < pid → within (wait_gone n pid).
Proof. intros Hp. unfold wait_gone. induction n as [|n IH]; simpl; unfold alive; repeat keeps_step. Qed.

Lemma within_terminate pid : 0 < pid → within (terminate pid).
Proof. intros Hp. unfold terminate. apply keeps_bind; [apply _|auto with keeps|]. intros _. by apply within_wait. Qed.

Lemma within_strays kind : within (stopStrays paths (conf_of paths kind)).
Proof.
  unfold stopStrays. destruct (_ =? _)%string; [by repeat keeps_step|].
  apply keeps_bind; [apply _|auto with keeps|]. intros [r|msg]; [|by repeat keeps_step].
  destruct (negb _); [by repeat keeps_step|].
  assert (Forall (λ pid, 0 < pid) (concat (stray_pid <$> Fields (r_Stdout r)))) as Hp.
  { apply Forall_concat, Forall_fmap, Forall_forall. intros w _. unfold stray_pid. simpl.
    destruct (Atoi w) as [pid|]; [|constructor]. destruct (pid <=? 1) eqn:E; breflect; repeat constructor. lia. }
  induction Hp as [|pid l Hp _ IH]; simpl; [by repeat keeps_step|]. apply keeps_bind; [apply _|by apply within_terminate|auto].
Qed.

Lemma pid_listed kind :
  pid_of paths kind ∈ [pHostapdConf paths; pDnsmasqConf paths; HostapdPID paths; DnsmasqPID paths; pLeaseFile paths].
Proof. destruct kind; set_solver. Qed.

Lemma within_room kind pid : within (make_room paths kind pid).
Proof.
  unfold make_room. destruct (0 <? pid) eqn:E; breflect.
  - apply keeps_bind; [apply _|by apply within_terminate|]. intros _. auto with keeps.
  - apply keeps_bind; [apply _|auto with keeps|]. intros _. apply within_strays.
Qed.

Lemma within_await n kind : within (await_loop n (pid_of paths kind)).
Proof.
  induction n as [|n IH]; simpl; [by repeat keeps_step|].
  apply keeps_bind; [apply _|apply within_live, pid_listed|]. intros pid. repeat keeps_step.
Qed.

Lemma within_spawn kind : within (spawn paths kind).
Proof.
  unfold spawn. pose proof (ok_spawn docs ifaces kind) as Hs. destruct (spawnCommand paths kind) as [name args]. simpl in Hs.
  apply keeps_bind; [apply _|by apply within_run|]. intros [r|msg]; [|by repeat keeps_step].
  destruct (negb _); [by repeat keeps_step|].
  apply keeps_bind; [apply _|apply keeps_attempt, within_await|]. intros p. repeat keeps_step.
Qed.

Lemma within_process kind changed : within (startProcess paths kind changed).
Proof.
  unfold startProcess. apply keeps_bind; [apply _|apply keeps_attempt, within_live, pid_listed|].
  intros [pid|msg]; [|by repeat keeps_step]. destruct (_ && _); [by repeat keeps_step|].
  apply keeps_bind; [apply _|apply keeps_attempt, within_room|]. intros [u|msg]; [apply within_spawn|by repeat keeps_step].
Qed.

Lemma within_list : within (rfkillList paths).
Proof. unfold rfkillList. repeat keeps_step. Qed.
Local Hint Resolve within_list within_process : keeps.

Lemma within_radio : within (ensureRadioUnblocked paths).
Proof. unfold ensureRadioUnblocked, unblock_radio. cbv zeta. repeat keeps_step. Qed.

Lemma within_beacon iface : iface ∈ ifaces → within (apBeaconing paths iface).
Proof. intros Hi. unfold apBeaconing. repeat keeps_step. Qed.

Lemma within_devices : within (devices paths).
Proof. unfold devices. repeat keeps_step. Qed.

Lemma within_write path content :
  path ∈ [pHostapdConf paths; pDnsmasqConf paths; HostapdPID paths; DnsmasqPID paths; pLeaseFile paths] →
  call_ok docs ifaces (CWrite path content) → within (writeIfChanged path content).
Proof.
  intros Hp Hw. unfold writeIfChanged. apply keeps_bind; [apply _|auto with keeps|]. intros old. repeat keeps_step.
Qed.

Lemma within_start plan : plan ∈ docs → ap_Interface (AP plan) ∈ ifaces → within (Start paths plan).
Proof.
  intros Hd Hi. unfold Start. apply keeps_bind; [apply _|apply within_radio|]. intros [radio [msg|]]; [by repeat keeps_step|].
  unfold start_daemons. cbv zeta.
  apply keeps_bind; [apply _|apply keeps_attempt, within_write; [set_solver|by constructor]|]. intros [c1|msg]; [|by repeat keeps_step].
  apply keeps_bind; [apply _|apply keeps_attempt, within_write; [set_solver|by constructor]|]. intros [c2|msg]; [|by repeat keeps_step].
  apply keeps_bind; [apply _|auto with keeps|]. intros [ap [msg|]]; [by repeat keeps_step|].
  apply keeps_bind; [apply _|auto with keeps|]. intros [dhcp [msg|]]; [by repeat keeps_step|].
  apply keeps_bind; [apply _|by apply within_beacon|]. intros b. destruct (negb b); [by repeat keeps_step|].
  apply keeps_bind; [apply _|apply within_devices|]. intros d. repeat keeps_step.
Qed.

Lemma within_block ds : within (block_all paths ds).
Proof. induction ds as [|d ds IH]; simpl; repeat keeps_step. Qed.

Lemma within_stop_pid kind : within (stopByPIDFile (pid_of paths kind)).
Proof.
  unfold stopByPIDFile. apply keeps_bind; [apply _|apply within_live, pid_listed|]. intros pid.
  apply keeps_bind; [apply _| |intros _; auto with keeps]. destruct (0 <? pid) eqn:E; [|by repeat keeps_step].
  breflect. by apply within_terminate.
Qed.

Lemma within_stop : within (Stop paths).
Proof.
  assert (∀ kind, within (stop_unit paths kind)) as Hu.
  { intros kind. unfold stop_unit.
    apply keeps_bind; [apply _|apply keeps_attempt, within_stop_pid|]. intros r1. apply keeps_bind; [apply _|apply keeps_attempt, within_strays|]. intros r2. repeat keeps_step. }
  unfold Stop. apply keeps_bind; [apply _|apply Hu|]. intros e1. apply keeps_bind; [apply _|apply Hu|]. intros e2.
  apply keeps_bind; [apply _| |intros e3; by repeat keeps_step].
  unfold reblockRadio, reblock_these. pose proof within_block. repeat keeps_step.
Qed.

Lemma within_status iface : iface ∈ ifaces → within (Status paths iface).
Proof.
  intros Hi. unfold Status. cbv zeta. apply keeps_bind; [apply _|auto with keeps|]. intros devs.
  apply keeps_bind; [apply _|apply keeps_attempt, within_live; set_solver|]. intros a.
  apply keeps_bind; [apply _|apply keeps_attempt, within_live; set_solver|]. intros d.
  apply keeps_bind; [apply _|destruct (0 <? _); [by apply within_beacon|by repeat keeps_step]|]. intros b.
  apply keeps_bind; [apply _|destruct (_ && _); [apply within_devices|by repeat keeps_step]|]. intros ds. repeat keeps_step.
Qed.

End Calls.

(** ** Sequences of operations *)

Inductive sup_op := OpStart (p : HotspotPlan) | OpStop | OpStatus (iface : string).

Section Guarantees.
Context {K : Type} `{System K} (paths : Paths).

Definition sup_step (s : Sup K) (o : sup_op) : Sup K :=
  match o with
  | OpStart p => (Start paths p s).2
  | OpStop => (Stop paths s).2
  | OpStatus iface => (Status paths iface s).2
  end.

Definition supervise (k : K) (ops : list sup_op) : Sup K := foldl sup_step (MkSup k [] []) ops.

Definition plans_of (ops : list sup_op) : list HotspotPlan :=
  omap (λ o, match o with OpStart p => Some p | _ => None end) ops.
Definition iface_of (o : sup_op) : string :=
  match o with OpStart p => ap_Interface (AP p) | OpStop => "" | OpStatus iface => iface end.
Definition ifaces_of (ops : list sup_op) : list string := iface_of <$> ops.

Lemma sup_step_within s o ops : o ∈ ops → stays_within paths (plans_of ops) (ifaces_of ops) s (sup_step s o).
Proof.
  intros Ho. assert (iface_of o ∈ ifaces_of ops) as Hi by by apply list_elem_of_fmap_2.
  destruct o as [p| |iface]; simpl.
  - apply within_start; [|exact Hi]. apply list_elem_of_omap. by exists (OpStart p).
  - apply within_stop.
  - by apply within_status.
Qed.

(** What the supervisor can do to the machine is fixed in advance: over any
    sequence of starts, stops and polls it runs only rfkill, pgrep, hostapd_cli and
    the two daemons with argument vectors built from its own paths, a radio's index
    and the interface's name; writes only the two rendered documents, to their two
    paths; removes only those and the two pid files; and never signals a process
    number below 1. *)
Theorem supervisor_calls_fixed k ops :
  Forall (call_ok paths (plans_of ops) (ifaces_of ops)) (calls (supervise k ops)).
Proof.
  unfold supervise. assert (∀ os (s : Sup K), os ⊆ ops →
    Forall (call_ok paths (plans_of ops) (ifaces_of ops)) (calls s) →
    Forall (call_ok paths (plans_of ops) (ifaces_of ops)) (calls (foldl sup_step s os))) as Hgen; [|by apply Hgen].
  induction os as [|o os IH]; intros s Hsub Hs; simpl; [done|]. apply IH; [set_solver|].
  destruct (sup_step_within s o ops) as (cs & -> & Hcs); [set_solver|]. by apply Forall_app.
Qed.

(** ** Stopping *)

Definition grows (s s' : Sup K) : Prop := calls s `prefix_of` calls s'.
#[local] Instance grows_refl : Reflexive grows.
Proof. intros s. unfold grows. reflexivity. Qed.
#[local] Instance grows_trans : Transitive grows.
Proof. intros s1 s2 s3. unfold grows. by etransitivity. Qed.

Lemma stays_grows docs ifaces (s s' : Sup K) : stays_within paths docs ifaces s s' → grows s s'.
Proof. intros (cs & E & _). by exists cs. Qed.

(** [c] was asked for on the way. *)
Definition asks (c : Call) (s s' : Sup K) : Prop := ∃ cs, calls s' = (calls s ++ cs)%list ∧ c ∈ cs.

Lemma asks_grows c s1 s2 s3 : asks c s1 s2 → grows s2 s3 → asks c s1 s3.
Proof. intros (cs & E & Hc) [cs' E']. exists (cs ++ cs')%list. rewrite E', E, app_assoc. set_solver. Qed.
Lemma grows_asks c s1 s2 s3 : grows s1 s2 → asks c s2 s3 → asks c s1 s3.
Proof. intros [cs E] (cs' & E' & Hc). exists (cs ++ cs')%list. rewrite E', E, app_assoc. set_solver. Qed.

Lemma stop_unit_asks kind s :
  asks (CRemove (conf_of paths kind)) s (stop_unit paths kind s).2 ∧ is_ok (stop_unit paths kind s).1 = true.
Proof.
  unfold stop_unit, bind, attempt_.
  destruct (stopByPIDFile (pid_of paths kind) s) as [r1 s1] eqn:E1. destruct (stopStrays paths (conf_of paths kind) s1) as [r2 s2] eqn:E2.
  assert (grows s s1) as G1.
  { apply (stays_grows [] []). change s1 with (r1, s1).2. rewrite <- E1. apply within_stop_pid. }
  assert (grows s1 s2) as G2.
  { apply (stays_grows [] []). change s2 with (r2, s2).2. rewrite <- E2. apply within_strays. }
  unfold must, bind, ask. destruct (Remove (conf_of paths kind) (sys s2)) as [[msg|] k]; simpl;
    (split; [|done]; eapply grows_asks; [etransitivity; [exact G1|exact G2]|];
     by exists [CRemove (conf_of paths kind)]; set_solver).
Qed.

Lemma unblocked_ask {A} c (f : K → A * K) s : unblocked (ask c f s).2 = unblocked s.
Proof. unfold ask. by destruct (f (sys s)). Qed.

Definition same_radios (s s' : Sup K) : Prop := unblocked s' = unblocked s.
#[local] Instance same_refl : Reflexive same_radios.
Proof. by intros s. Qed.
#[local] Instance same_trans : Transitive same_radios.
Proof. unfold same_radios. intros s1 s2 s3. congruence. Qed.

Lemma same_run name args : keeps same_radios (run (K := K) name args).
Proof. intros s. apply unblocked_ask. Qed.
Local Hint Resolve same_run : keeps.
Lemma same_list : keeps same_radios (rfkillList paths).
Proof. unfold rfkillList. repeat keeps_step. Qed.
Lemma same_block ds : keeps same_radios (block_all paths ds).
Proof. induction ds as [|d ds IH]; simpl; repeat keeps_step. Qed.
Local Hint Resolve same_list same_block : keeps.

Lemma quiet_run name args : quiet (run (K := K) name args).
Proof. intros s. unfold run, ask. destruct (SysRun name args (sys s)) as [r k]. eauto. Qed.
Local Hint Resolve quiet_run : quiet.
Lemma quiet_list : quiet (rfkillList paths).
Proof. unfold rfkillList. repeat quiet_step. Qed.
Local Hint Resolve quiet_list : quiet.
Lemma quiet_block ds : quiet (block_all paths ds).
Proof. induction ds as [|d ds IH]; simpl; repeat quiet_step. Qed.
Local Hint Resolve quiet_block : quiet.

Lemma reblock_these_ok ours s :
  ∃ errs s', reblock_these paths ours s = (Ok errs, s') ∧ unblocked s' = unblocked s ∧ grows s s'.
Proof.
  assert (keeps same_radios (reblock_these paths ours)) as Hs by (unfold reblock_these; repeat keeps_step).
  assert (keeps (stays_within paths [] []) (reblock_these paths ours)) as Hw.
  { unfold reblock_these. pose proof (stays_trans (K := K) paths [] []) as Ht. pose proof (stays_refl (K := K) paths [] []) as Hr.
    pose proof (within_list paths [] []) as Hl. pose proof (within_block paths [] []) as Hb. repeat keeps_step. }
  assert (quiet (reblock_these paths ours)) as Hq by (unfold reblock_these; repeat quiet_step).
  destruct (Hq s) as (errs & s' & E).
  exists errs, s'. specialize (Hs s). specialize (Hw s). rewrite E in Hs, Hw. split_and!; [done|exact Hs|].
  by apply stays_grows in Hw.
Qed.

(** Never an error of its own: the failures are in the value. *)
Lemma reblock_ok s : ∃ errs s', reblockRadio paths s = (Ok errs, s') ∧ unblocked s' = [] ∧ grows s s'.
Proof.
  unfold reblockRadio, bind, get, set_unblocked. destruct (unblocked s) as [|d ds].
  { exists [], (MkSup (sys s) [] (calls s)). split_and!; [done..|]. by exists []; rewrite app_nil_r. }
  destruct (reblock_these_ok (d :: ds) (MkSup (sys s) [] (calls s))) as (errs & s' & -> & Hu & Hg). eauto.
Qed.

Lemma stop_cleans s :
  ∃ errs s', Stop paths s = (Ok errs, s') ∧ unblocked s' = [] ∧
    asks (CRemove (pHostapdConf paths)) s s' ∧ asks (CRemove (pDnsmasqConf paths)) s s'.
Proof.
  unfold Stop. unfold bind at 1. destruct (stop_unit_asks procHostapd s) as [A1 O1].
  destruct (stop_unit paths procHostapd s) as [[e1|] s1]; [|done]. simpl in A1.
  unfold bind at 1. destruct (stop_unit_asks procDnsmasq s1) as [A2 O2].
  destruct (stop_unit paths procDnsmasq s1) as [[e2|] s2]; [|done]. simpl in A2.
  destruct (reblock_ok s2) as (e3 & s3 & E3 & U3 & G3). unfold bind. rewrite E3.
  exists (e1 ++ e2 ++ e3)%list, s3. split_and!; [done|done| |].
  - eapply asks_grows; [|exact G3]. eapply asks_grows; [exact A1|]. destruct A2 as (cs & E & _). by exists cs.
  - eapply asks_grows; [|exact G3]. eapply grows_asks; [|exact A2]. destruct A1 as (cs & E & _). by exists cs.
Qed.

(** A stop finishes whatever fails: it never returns early, it always asks for
    both generated configurations to be removed (one holds the passphrase), and
    it always forgets the radios it had switched on; each failure is in the list
    of errors it returns. *)
Theorem stop_always_cleans s :
  ∃ errs s', Stop paths s = (Ok errs, s') ∧ unblocked s' = [] ∧
    asks (CRemove (pHostapdConf paths)) s s' ∧ asks (CRemove (pDnsmasqConf paths)) s s'.
Proof. apply stop_cleans. Qed.

(** A poll remembers no radio. *)
Lemma same_ask {A} c (f : K → A * K) : keeps same_radios (ask c f).
Proof. intros s. apply unblocked_ask. Qed.
Local Hint Resolve same_ask : keeps.
Lemma same_status iface : keeps same_radios (Status paths iface).
Proof. unfold Status, livePID, apBeaconing, devices, must. repeat keeps_step. Qed.

(** ** Generated files *)

(** Whether the last call that concerned the file wrote it. *)
Definition left_after (path : string) (b : bool) (c : Call) : bool :=
  match c with
  | CWrite p _ => if (p =? path)%string then true else b
  | CRemove p => if (p =? path)%string then false else b
  | _ => b
  end.
Definition file_left (path : string) (cs : list Call) : bool := foldl (left_after path) false cs.

(** Calls that write nothing keep a file gone, and a removal among them makes it so. *)
Lemma left_no_writes path ifaces cs b :
  Forall (call_ok paths [] ifaces) cs → b = false ∨ CRemove path ∈ cs → foldl (left_after path) b cs = false.
Proof.
  intros Hf. revert b. induction Hf as [|c cs Hc Hf IH]; intros b Hb; [destruct Hb as [->|Hb]; [done|set_solver]|].
  simpl. apply IH. destruct Hb as [->|Hb].
  - left. destruct Hc; simpl; try done; try (by destruct (_ =? _)%string); by apply not_elem_of_nil in H0.
  - apply elem_of_cons in Hb as [<-|Hb]; [left; simpl; by rewrite String.eqb_refl|by right].
Qed.

Lemma stop_leaves_no_file kind s : file_left (conf_of paths kind) (calls (Stop paths s).2) = false.
Proof.
  destruct (stop_cleans s) as (errs & s' & E & _ & Ha & Hd). pose proof (within_stop paths [] [] s) as Hw. rewrite E in *. simpl in *.
  destruct Hw as (cs & Ec & Hf). unfold file_left. rewrite Ec, foldl_app. eapply left_no_writes; [exact Hf|right].
  destruct kind; [destruct Ha as (cs' & E' & Hin)|destruct Hd as (cs' & E' & Hin)]; rewrite Ec in E';
    apply app_inv_head in E'; by subst.
Qed.

Lemma status_leaves_files path iface s :
  file_left path (calls s) = false → file_left path (calls (Status paths iface s).2) = false.
Proof.
  intros Hs. pose proof (within_status paths [] [iface] iface ltac:(set_solver) s) as Hw.
  destruct (Status paths iface s) as [r s']. destruct Hw as (cs & Ec & Hf). simpl in *. unfold file_left in *.
  rewrite Ec, foldl_app, Hs. eapply left_no_writes; eauto.
Qed.

(** ** Starting what already runs *)

(** A machine on which reading changes nothing, the radio is on, both documents
    are the plan's and both daemons live. *)
Record steady (k : K) (plan : HotspotPlan) (ap dhcp : Z) : Prop := {
  st_radio : ∃ r, SysRun (RfkillBinary paths) ["list"] k = (Ok r, k) ∧ r_ExitCode r = 0 ∧
    forallb (λ d, negb (rk_Soft d) && negb (rk_Hard d)) (wirelessDevices (parseRfkillList (r_Stdout r))) = true;
  st_ap_conf : ReadFile (pHostapdConf paths) k = (Ok (HostapdConf plan), k);
  st_dns_conf : ReadFile (pDnsmasqConf paths) k = (Ok (DnsmasqConf plan), k);
  st_ap_pid : ∃ b, ReadFile (HostapdPID paths) k = (Ok b, k) ∧ Atoi (TrimSpace b) = Some ap;
  st_dns_pid : ∃ b, ReadFile (DnsmasqPID paths) k = (Ok b, k) ∧ Atoi (TrimSpace b) = Some dhcp;
  st_ap_alive : 0 < ap ∧ ProcessAlive ap k = (Ok true, k);
  st_dns_alive : 0 < dhcp ∧ ProcessAlive dhcp k = (Ok true, k)
}.

Lemma write_unchanged path content s :
  ReadFile path (sys s) = (Ok content, sys s) →
  writeIfChanged path content s = (Ok false, MkSup (sys s) (unblocked s) (calls s ++ [CRead path])).
Proof. intros E. unfold writeIfChanged, bind, ask. rewrite E. by rewrite String.eqb_refl. Qed.

Lemma process_left kind pid b s :
  ReadFile (pid_of paths kind) (sys s) = (Ok b, sys s) → Atoi (TrimSpace b) = Some pid → 0 < pid →
  ProcessAlive pid (sys s) = (Ok true, sys s) →
  startProcess paths kind false s =
    (Ok (MkProc true pid false "already running", None),
     MkSup (sys s) (unblocked s) (calls s ++ [CRead (pid_of paths kind); CAlive pid])).
Proof.
  intros E1 E2 Hp E3. assert (Hle : (pid <=? 0) = false) by lia. assert (Hlt : (0 <? pid) = true) by lia.
  unfold startProcess, livePID, bind, attempt_, ask, ret. rewrite E1, E2, Hle. cbn [sys unblocked calls].
  rewrite E3, Hlt. cbn [andb negb]. by rewrite <- app_assoc.
Qed.

Lemma radio_left s r :
  SysRun (RfkillBinary paths) ["list"] (sys s) = (Ok r, sys s) → r_ExitCode r = 0 →
  forallb (λ d, negb (rk_Soft d) && negb (rk_Hard d)) (wirelessDevices (parseRfkillList (r_Stdout r))) = true →
  ∃ st, ensureRadioUnblocked paths s =
    (Ok (st, None), MkSup (sys s) (unblocked s) (calls s ++ [CRun (RfkillBinary paths) ["list"]])).
Proof.
  intros E Hz Hb. unfold ensureRadioUnblocked, rfkillList, bind, run, ask, ret. rewrite E, Hz. simpl.
  destruct (wirelessDevices _) as [|d ds]; [by eexists|].
  assert (existsb rk_Soft (d :: ds) = false ∧ existsb rk_Hard (d :: ds) = false) as [Hs Hh].
  { clear E. revert Hb. generalize (d :: ds) as l. induction l as [|x l IH]; [done|]. simpl. intros [Hx Hl]%andb_true_iff.
    apply andb_true_iff in Hx as [->%negb_true_iff ->%negb_true_iff]. by apply IH. }
  unfold radioStateFrom. simpl in *. rewrite Hh, Hs. simpl. by eexists.
Qed.

Definition reads (c : Call) : bool :=
  match c with
  | CRead _ | CAlive _ => true
  | CRun name args => bool_decide (name = RfkillBinary paths ∧ args = ["list"]) || bool_decide (name = HostapdCLIBinary paths)
  | _ => false
  end.

(** Starting what already runs touches nothing: when both documents on disk
    are the plan's, both daemons live and the radio is on, a start writes no file,
    removes none, signals no process and spawns none; it answers without an error
    that both daemons run, and that the hotspot is up exactly when hostapd says it
    is broadcasting. *)
Theorem start_leaves_running_alone plan ap dhcp s :
  steady (sys s) plan ap dhcp →
  ∃ st s' cs, Start paths plan s = (Ok (st, None), s') ∧ calls s' = (calls s ++ cs)%list ∧ forallb reads cs = true ∧
    ps_PID (h_AccessPoint st) = ap ∧ ps_PID (h_DHCP st) = dhcp ∧ h_Running st = ps_Beaconing (h_AccessPoint st).
Proof.
  intros [(r & R1 & R2 & R3) C1 C2 (b1 & P1 & P2) (b2 & Q1 & Q2) [A1 A2] [B1 B2]].
  destruct (radio_left s r R1 R2 R3) as (radio & E0). unfold Start. unfold bind at 1. rewrite E0.
  unfold start_daemons. cbv zeta. unfold bind at 1, attempt_ at 1. rewrite write_unchanged by done.
  unfold bind at 1, attempt_ at 1. rewrite write_unchanged by done. cbn [sys unblocked calls].
  unfold bind at 1. rewrite (process_left procHostapd ap b1) by done. cbn [sys unblocked calls].
  unfold bind at 1. rewrite (process_left procDnsmasq dhcp b2) by done. cbn [sys unblocked calls].
  set (s1 := MkSup (sys s) (unblocked s) _).
  assert (∃ cs, calls s1 = (calls s ++ cs)%list ∧ forallb reads cs = true) as (cs & Ecs & Hcs).
  { eexists. split; [unfold s1; cbn [calls]; by rewrite <- !app_assoc|]. simpl. by rewrite bool_decide_eq_true_2. }
  assert (∃ b s2 cs2, apBeaconing paths (ap_Interface (AP plan)) s1 = (Ok b, s2) ∧ calls s2 = (calls s1 ++ cs2)%list ∧
    forallb reads cs2 = true) as (b & s2 & cs2 & E2 & Ec2 & Hc2).
  { unfold apBeaconing. destruct (_ =? _)%string.
    - exists true, s1, []. by rewrite app_nil_r.
    - unfold bind, run, ask, ret. destruct (SysRun _ _ (sys s1)) as [x k]. eexists _, _, [_]. split_and!; [done..|].
      simpl. by rewrite (bool_decide_eq_true_2 (HostapdCLIBinary paths = _)), orb_true_r by done. }
  unfold bind at 1. rewrite E2. destruct b; simpl.
  - unfold bind at 1, devices, bind, ask, get, ret. destruct (ReadFile (pLeaseFile paths) (sys s2)) as [y k].
    eexists _, _, (cs ++ cs2 ++ [CRead (pLeaseFile paths)])%list. split_and!; [done| |..]; try done.
    + cbn [calls]. by rewrite Ec2, Ecs, <- !app_assoc.
    + by rewrite !forallb_app, Hcs, Hc2.
  - unfold ret. eexists _, _, (cs ++ cs2)%list. split_and!; [done| |..]; try done.
    + by rewrite Ec2, Ecs, <- app_assoc.
    + by rewrite forallb_app, Hcs, Hc2.
Qed.

(** ** What a poll reports *)

(** A poll counts every radio: Status folds the whole rfkill list into the
    wireless state, where Start keeps the wireless devices only. So whenever any
    device is soft blocked, a Bluetooth one included, a poll reports the hotspot
    down and the wireless adapter switched off, whatever the daemons do. *)
Theorem poll_counts_every_radio iface s r k :
  SysRun (RfkillBinary paths) ["list"] (sys s) = (Ok r, k) → r_ExitCode r = 0 →
  existsb rk_Soft (parseRfkillList (r_Stdout r)) = true → existsb rk_Hard (parseRfkillList (r_Stdout r)) = false →
  ∃ st s', Status paths iface s = (Ok st, s') ∧ h_Running st = false ∧ h_Reason st = soft_detail.
Proof.
  intros E Hz Hs Hh. unfold Status. cbv zeta.
  destruct (rfkillList paths s) as [devs s0] eqn:E0.
  assert (devs = Ok (Ok (parseRfkillList (r_Stdout r)))) as ->.
  { revert E0. unfold rfkillList, bind, run, ask, ret. rewrite E, Hz. by intros [= <- _]. }
  rewrite (bind_ok _ _ _ _ _ E0). destruct (livePID (HostapdPID paths) s0) as [a s1] eqn:E1.
  rewrite (bind_ok _ _ _ _ _ (attempt_eq _ _ _ _ E1)). destruct (livePID (DnsmasqPID paths) s1) as [d s2] eqn:E2.
  rewrite (bind_ok _ _ _ _ _ (attempt_eq _ _ _ _ E2)).
  assert (∃ b s3, (if 0 <? pid_or_zero a then apBeaconing paths iface else ret false) s2 = (Ok b, s3)) as (b & s3 & E3).
  { destruct (0 <? _); [|by eexists _, _]. unfold apBeaconing. destruct (_ =? _)%string; [by eexists _, _|].
    unfold bind, run, ask, ret. destruct (SysRun _ _ (sys s2)). by eexists _, _. }
  rewrite (bind_ok _ _ _ _ _ E3).
  assert (∃ x s4, (if (0 <? pid_or_zero a) && (0 <? pid_or_zero d) then devices paths else ret ([], 0)) s3 = (Ok x, s4))
    as (x & s4 & E4).
  { destruct (_ && _); [|by eexists _, _]. unfold devices, bind, ask, get, ret. destruct (ReadFile _ _). by eexists _, _. }
  rewrite (bind_ok _ _ _ _ _ E4). unfold ret. eexists _, _. split; [done|].
  unfold radioStateFrom. cbn [rs_Hard rs_Soft rs_Detail h_Running h_Reason ps_Running].
  rewrite Hs, Hh. destruct (parseRfkillList (r_Stdout r)); [done|]. simpl. split; done.
Qed.

End Guarantees.

(** ** A small machine *)

Module Box.

(** Its files, its live processes, and what rfkill prints. *)
Record Box := MkBox { files : gmap string string; procs : list Z; rfkill : string }.

Definition done_ (out : string) (b : Box) : res string SResult * Box := (Ok (MkSResult 0 out ""), b).

#[export] Instance box_system : System Box := {|
  SysRun name args b :=
    if (name =? RfkillBinary DefaultPaths)%string then done_ (rfkill b) b
    else if (name =? HostapdBinary DefaultPaths)%string then
      done_ "" (MkBox (<[HostapdPID DefaultPaths := "100"%string]> (files b)) (100 :: procs b) (rfkill b))
    else if (name =? DnsmasqBinary DefaultPaths)%string then
      done_ "" (MkBox (<[DnsmasqPID DefaultPaths := "200"%string]> (files b)) (200 :: procs b) (rfkill b))
    else if (name =? HostapdCLIBinary DefaultPaths)%string then done_ "state=ENABLED" b
    else (Ok (MkSResult 1 "" ""), b);
  WriteFile path c _ b := (None, MkBox (<[path := c]> (files b)) (procs b) (rfkill b));
  ReadFile path b := (match files b !! path with Some c => Ok c | None => Err NotExist end, b);
  Remove path b := (None, MkBox (delete path (files b)) (procs b) (rfkill b));
  ProcessAlive pid b := (Ok (bool_decide (pid ∈ procs b)), b);
  SignalProcess pid _ b := (None, MkBox (files b) (List.filter (λ p, negb (p =? pid)) (procs b)) (rfkill b));
  SysSleep _ b := (None, b);
  SysNow _ := 0
|}.

(** The Bluetooth radio is off and the wireless one on, as rfkill prints it. *)
Definition listing : string :=
  "0: phy0: Wireless LAN
	Soft blocked: no
	Hard blocked: no
1: hci0: Bluetooth
	Soft blocked: yes
	Hard blocked: no
".

Definition plan (conf : string) : HotspotPlan :=
  MkHotspotPlan (MkAP "wlan0" "eth0" "Caspian" "abcdefgh2345" "GB" 6 HotspotConf.Band2GHz "")
    (MkDNS "wlan0" (PrefixFrom (A4 0) 24) NoAddr NoAddr NoAddr 0 "" (NoAddr, 0) 0 "" "" false) no_radio conf "dns" false.

Definition empty : Box := MkBox ∅ [] listing.
Definition up (conf : string) : Sup Box := supervise DefaultPaths empty [OpStart (plan conf)].

(** Start, start again, change the settings, stop. *)
Example a_life :
  let s := supervise DefaultPaths empty [OpStart (plan "one"); OpStart (plan "one"); OpStart (plan "two"); OpStop] in
  List.filter (λ c, match c with CWrite _ _ | CSignal _ _ => true | CRun n _ => (n =? "/usr/sbin/hostapd")%string | _ => false end)
    (calls s) =
  [CWrite "/run/caspian/hostapd.conf" "one"; CWrite "/run/caspian/dnsmasq.conf" "dns";
   CRun "/usr/sbin/hostapd" ["-B"; "-P"; "/run/caspian/hostapd.pid"; "/run/caspian/hostapd.conf"];
   CWrite "/run/caspian/hostapd.conf" "two"; CSignal 100 SignalTerm;
   CRun "/usr/sbin/hostapd" ["-B"; "-P"; "/run/caspian/hostapd.pid"; "/run/caspian/hostapd.conf"];
   CSignal 100 SignalTerm; CSignal 200 SignalTerm] ∧
  procs (sys s) = [] ∧ files (sys s) = ∅.
Proof. vm_compute. split_and!; reflexivity. Qed.

Lemma start_leaves_running_alone_witness :
  ∃ st s' cs, Start DefaultPaths (plan "one") (up "one") = (Ok (st, None), s') ∧
    calls s' = (calls (up "one") ++ cs)%list ∧ forallb (reads DefaultPaths) cs = true ∧
    ps_PID (h_AccessPoint st) = 100 ∧ ps_PID (h_DHCP st) = 200 ∧ h_Running st = ps_Beaconing (h_AccessPoint st).
Proof.
  apply (start_leaves_running_alone DefaultPaths (plan "one") 100 200 (up "one")).
  constructor.
  - exists (MkSResult 0 listing ""). split_and!; vm_compute; reflexivity.
  - vm_compute. reflexivity.
  - vm_compute. reflexivity.
  - exists "100"%string. split; vm_compute; reflexivity.
  - exists "200"%string. split; vm_compute; reflexivity.
  - split; [lia|]. vm_compute. reflexivity.
  - split; [lia|]. vm_compute. reflexivity.
Defined.

Lemma poll_counts_every_radio_witness :
  ∃ st s', Status DefaultPaths "wlan0" (up "one") = (Ok st, s') ∧ h_Running st = false ∧ h_Reason st = soft_detail.
Proof.
  apply (poll_counts_every_radio DefaultPaths "wlan0" (up "one") (MkSResult 0 listing "") (sys (up "one")));
    vm_compute; reflexivity.
Defined.

(** On that machine the start itself reported success. *)
Example start_and_poll_disagree :
  match Start DefaultPaths (plan "one") (MkSup empty [] []) with
  | (Ok (st, None), s) =>
      h_Running st = true ∧ match Status DefaultPaths "wlan0" s with (Ok st, _) => h_Running st = false | _ => False end
  | _ => False
  end.
Proof. vm_compute. split; reflexivity. Qed.

End Box.
