(* ===== verification/Plan.v ===== *)
(** * The planner (internal/netcfg/plan.go)

    [PlanNetwork] turns what detection learned into a decision: uplink, hotspot
    interface and channel, subnets, server routes. A refusal is a value of
    [plan_error], one constructor per error of the source, without its text.
    The fields of a plan that concern the hotspot interface are grouped in
    [Hot]; notes keep their data instead of their sentence. *)

From S2P Require Import Prelude GoStrings Command Netip Subnet Facts.

Local Open Scope Z_scope.

Definition defaultAPIfaceName : string := "ap0".

Inductive Mode := ModeUnset | ModeWiredUplink | ModeWirelessUplink.
Inductive RouteStrategy := StrategyPolicy | StrategySplitDefault.
Inductive EgressPolicy := EgressRestricted | EgressOpen.
Inductive ForwardState := ForwardNormal | ForwardCut.
Inductive IPv6Policy := IPv6Block | IPv6Forward.

Record SystemSOCKSOptions := MkSOCKSOptions { so_enabled : bool; Listen : string; so_port : Z }.

Record Options := MkOptions {
  oPlatform : Platform;
  TunName : string;
  HotspotPool : list Prefix;
  TunnelPool : list Prefix;
  oHotspotSubnet : Prefix;
  UplinkOverride : string;
  HotspotOverride : string;
  HotspotBand : RadioBand;
  APIfaceName : string;
  Table : Z;
  RulePrio : Z;
  FwMark : Z;
  DNSPort : Z;
  PanelPort : Z;
  oSystemSOCKS : SystemSOCKSOptions;
  Strategy : RouteStrategy;
  IPv6 : IPv6Policy;
  Egress : EgressPolicy;
  ClientIsolation : bool;
  MasqueradeToTunnel : bool;
  RPFilter : Z
}.

Definition DefaultOptions : Options := {|
  oPlatform := PlatformUnset;
  TunName := "xray0";
  HotspotPool := DefaultHotspotPool;
  TunnelPool := DefaultTunnelPool;
  oHotspotSubnet := NoPrefix;
  UplinkOverride := "";
  HotspotOverride := "";
  HotspotBand := BandAuto;
  APIfaceName := defaultAPIfaceName;
  Table := 8410;
  RulePrio := 8410;
  FwMark := 0x20da;
  DNSPort := 53;
  PanelPort := 8088;
  oSystemSOCKS := MkSOCKSOptions false "" 0;
  Strategy := StrategyPolicy;
  IPv6 := IPv6Block;
  Egress := EgressRestricted;
  ClientIsolation := true;
  MasqueradeToTunnel := false;
  RPFilter := 2
|}.

Inductive plan_error :=
| ErrNoUplink
| ErrNoAPCapableInterface
| ErrAPConflictsWithUplink
| ErrNoServerAddress
| ErrBandUnavailable
| ErrServerFamilyUnreachable
| ErrSystemSOCKSStateUnknown
| ErrAuthenticatedSystemSOCKS
| ErrHotspotNotReleased
| ErrNoTakeoverCandidate
| ErrInterfaceOwnerUnknown
| ErrInterfaceName (name : string)
| ErrSystemSOCKSRequest
| ErrNoFallback
| ErrSubnet (e : subnet_error).

Inductive Note :=
| NoteSubnetOverlaps (hotspot taken : Prefix)
| NoteConnectionEnds (phy name ssid : string)
| NotePinned (phy : string) (channel : Z) (isUplink : bool) (ssid station : string)
| NoteNoChannel (phy : string)
| NoteUnpinnable (server : Addr)
| NoteTakeover (hotspot uplink : string).

Record Hot := MkHot {
  Hotspot : string;
  HotspotPhy : string;
  HotspotIsVirtual : bool;
  HotspotParent : string;
  HotspotFallback : string;
  HotspotTakenOver : bool;
  HotspotManager : InterfaceManager;
  Channel : Z;
  ChannelPinned : bool;
  UsableChannel : list Z;
  hot_notes : list Note
}.

Record Plan := MkPlan {
  pPlatform : Platform;
  pMode : Mode;
  Uplink : string;
  UplinkGateway : Addr;
  UplinkOnLink : bool;
  UplinkV6Gw : Addr;
  UplinkV6Dev : string;
  hot : Hot;
  HotspotSubnet : Prefix;
  HotspotGateway : Addr;
  pNetworkManagerPresent : bool;
  HotspotStationPrefixes : list Prefix;
  Tun : string;
  TunSubnet : Prefix;
  TunAddr : Addr;
  TunPeer : Addr;
  ServerAddr : list Addr;
  UnpinnableServers : list Addr;
  pSystemSOCKS : list SystemSOCKSState;
  Opts : Options;
  Notes : list Note
}.

(** ** Radios *)

Record apCandidate := MkCandidate {
  c_phy : Phy;
  c_iface : WirelessIface;
  c_station : WirelessIface;
  c_bus : string
}.

(** One interface of the radio, in the inner loop of apCandidates. *)
Definition scan_iface (f : Facts) (uplink : string) (c : apCandidate) (w : WirelessIface) : apCandidate :=
  if negb (w_phy w =? phy_name (c_phy c))%string then c
  else
    let c :=
      if (w_name (c_iface c) =? "")%string
      then MkCandidate (c_phy c) w (c_station c)
             (match LinkByName f (w_name w) with Some l => l_bus l | None => c_bus c end)
      else c in
    if (w_name w =? uplink)%string then MkCandidate (c_phy c) (c_iface c) w (c_bus c)
    else if StationLink w && (w_name (c_station c) =? "")%string
    then MkCandidate (c_phy c) (c_iface c) w (c_bus c)
    else c.

Definition apCandidates (f : Facts) (uplink : string) : list apCandidate :=
  (λ phy, foldl (scan_iface f uplink) (MkCandidate phy no_wireless no_wireless "") (Wireless f))
    <$> List.filter SupportsAP (Phys f).

Definition no_candidate : apCandidate :=
  MkCandidate (MkPhy "" 0 [] [] [] []) no_wireless no_wireless "".

Definition preferUSB (cands : list apCandidate) : apCandidate :=
  match cands with
  | [] => no_candidate
  | best :: _ =>
      foldl (λ best c, if (c_bus c =? "usb")%string && negb (c_bus best =? "usb")%string then c else best)
        best cands
  end.

(** ** Channels *)

(** chooseChannel: the channel, 0 when there is none to give. *)
Definition chooseChannel (phy : Phy) (usable : list Z) (band : RadioBand) : res plan_error Z :=
  match band with
  | BandAuto =>
      match UsableChannelsIn phy Band2GHz with
      | ch :: _ => Ok ch
      | [] => match usable with ch :: _ => Ok ch | [] => Ok 0 end
      end
  | _ =>
      match UsableChannelsIn phy band with
      | [] => Err ErrBandUnavailable
      | ch :: _ => Ok ch
      end
  end.

Definition refuseBandAgainstPin (phy : Phy) (station : WirelessIface) (channel : Z) (band : RadioBand) :
    res plan_error unit :=
  if bool_decide (band = BandAuto) then Ok tt
  else
    let pinned := BandOfChannel phy channel in
    let pinned := if bool_decide (pinned = BandAuto) && (0 <? FreqMHz station)
                  then BandOf (FreqMHz station) else pinned in
    if bool_decide (pinned = band) then Ok tt else Err ErrBandUnavailable.

(** ** The hotspot interface *)

(** takeOver: end the station link and use its interface. *)
Definition takeOver (c : apCandidate) (o : Options) (usable : list Z) : res plan_error Hot :=
  let w := c_station c in
  if negb (ValidInterfaceName (w_name w)) then Err (ErrInterfaceName (w_name w))
  else
    let? ch := chooseChannel (c_phy c) usable (HotspotBand o) in
    Ok (MkHot (w_name w) (phy_name (c_phy c)) false "" "" true (Manager w) ch false usable
          [NoteConnectionEnds (phy_name (c_phy c)) (w_name w) (SSID w)]).

(** Name of the interface created for the access point. *)
Definition ap_name (o : Options) : string :=
  if (APIfaceName o =? "")%string then defaultAPIfaceName else APIfaceName o.

(** The interface part of the branch for a radio that holds both. *)
Definition beside_station (uplink : string) (c : apCandidate) (o : Options) :
    res plan_error (string * bool * string * string * InterfaceManager) :=
  if bool_decide (oPlatform o = PlatformWindows) then
    if negb (ValidInterfaceNameOn (oPlatform o) (w_name (c_station c)))
    then Err (ErrInterfaceName (w_name (c_station c)))
    else Ok (w_name (c_station c), false, ""%string, ""%string, Manager (c_station c))
  else if negb (ValidInterfaceName (ap_name o)) then Err (ErrInterfaceName (ap_name o))
  else Ok (ap_name o, true, w_name (c_station c),
           (if (w_name (c_station c) =? uplink)%string then "" else w_name (c_station c))%string,
           ManagedByUnknown).

(** The branches of acceptHotspot, before its last note. *)
Definition accept_branch (uplink : string) (c : apCandidate) (o : Options) : res plan_error Hot :=
  let phy := c_phy c in
  let usable := UsableChannels phy in
  let station := c_station c in
  if negb (w_name station =? "")%string && negb (DeclaresAPWithStation phy) &&
     negb (w_name station =? uplink)%string
  then takeOver c o usable
  else if negb (w_name station =? "")%string then
    let? (name, virtual, parent, fallback, manager) := beside_station uplink c o in
    match APWithStation phy with
    | None => Err ErrAPConflictsWithUplink
    | Some combo =>
        if (Channels combo =? 1) && StationLink station then
          let? _ := refuseBandAgainstPin phy station (w_channel station) (HotspotBand o) in
          Ok (MkHot name (phy_name phy) virtual parent fallback false manager (w_channel station) true usable
                [NotePinned (phy_name phy) (w_channel station) (w_name station =? uplink)%string
                   (SSID station) (w_name station)])
        else
          let? ch := chooseChannel phy usable (HotspotBand o) in
          Ok (MkHot name (phy_name phy) virtual parent fallback false manager ch false usable [])
    end
  else if negb (w_name (c_iface c) =? "")%string then
    if negb (ValidInterfaceNameOn (oPlatform o) (w_name (c_iface c)))
    then Err (ErrInterfaceName (w_name (c_iface c)))
    else
      let? ch := chooseChannel phy usable (HotspotBand o) in
      Ok (MkHot (w_name (c_iface c)) (phy_name phy) false "" "" false (Manager (c_iface c)) ch false usable [])
  else if negb (ValidInterfaceName (ap_name o)) then Err (ErrInterfaceName (ap_name o))
  else
    let? ch := chooseChannel phy usable (HotspotBand o) in
    Ok (MkHot (ap_name o) (phy_name phy) true "" "" false ManagedByUnknown ch false usable []).

Definition add_note (h : Hot) (n : Note) : Hot :=
  MkHot (Hotspot h) (HotspotPhy h) (HotspotIsVirtual h) (HotspotParent h) (HotspotFallback h)
    (HotspotTakenOver h) (HotspotManager h) (Channel h) (ChannelPinned h) (UsableChannel h)
    (hot_notes h ++ [n]).

Definition acceptHotspot (uplink : string) (c : apCandidate) (o : Options) : res plan_error Hot :=
  let? h := accept_branch uplink c o in
  Ok (if (Channel h =? 0) && (length (UsableChannel h) =? 0)%nat
      then add_note h (NoteNoChannel (phy_name (c_phy c))) else h).

(** The classes of chooseHotspot. *)
Inductive ap_class := Free | Shared | Takeoverable | Blocked.

Definition classify (uplink : string) (c : apCandidate) : ap_class :=
  if (w_name (c_station c) =? "")%string then Free
  else if DeclaresAPWithStation (c_phy c) then Shared
  else if negb (w_name (c_station c) =? uplink)%string then Takeoverable
  else Blocked.

#[export] Instance ap_class_eq_dec : EqDecision ap_class.
Proof. solve_decision. Defined.

Definition of_class (uplink : string) (k : ap_class) (cands : list apCandidate) : list apCandidate :=
  List.filter (λ c, bool_decide (classify uplink c = k)) cands.

Definition on_uplink (uplink : string) (c : apCandidate) : bool := (w_name (c_station c) =? uplink)%string.

(** The preference among radios that share: not the uplink's, then USB. *)
Definition best_shared (uplink : string) (best c : apCandidate) : apCandidate :=
  if on_uplink uplink best && negb (on_uplink uplink c) then c
  else if on_uplink uplink c && negb (on_uplink uplink best) then best
  else if (c_bus c =? "usb")%string && negb (c_bus best =? "usb")%string then c
  else best.

Definition chooseHotspot (f : Facts) (uplink : string) (o : Options) : res plan_error Hot :=
  let cands := apCandidates f uplink in
  if (length cands =? 0)%nat then Err ErrNoAPCapableInterface
  else if negb (HotspotOverride o =? "")%string then
    match List.find (λ c, (w_name (c_iface c) =? HotspotOverride o)%string ||
                          (phy_name (c_phy c) =? HotspotOverride o)%string) cands with
    | Some c => acceptHotspot uplink c o
    | None => Err ErrNoAPCapableInterface
    end
  else
    let free := of_class uplink Free cands in
    let shared := of_class uplink Shared cands in
    let takeoverable := of_class uplink Takeoverable cands in
    let blocked := of_class uplink Blocked cands in
    let sharedNotUplink := List.filter (λ c, negb (on_uplink uplink c)) shared in
    let blocked_other := existsb (λ c, negb (on_uplink uplink c)) blocked in
    if negb (length free =? 0)%nat then acceptHotspot uplink (preferUSB free) o
    else if negb (length sharedNotUplink =? 0)%nat then acceptHotspot uplink (preferUSB sharedNotUplink) o
    else if negb (length takeoverable =? 0)%nat then acceptHotspot uplink (preferUSB takeoverable) o
    else match shared with
         | s0 :: _ =>
             let best := foldl (best_shared uplink) s0 shared in
             if on_uplink uplink best && blocked_other then Err ErrHotspotNotReleased
             else acceptHotspot uplink best o
         | [] =>
             if blocked_other then Err ErrHotspotNotReleased else Err ErrAPConflictsWithUplink
         end.

(** ** The system SOCKS proxy (system_socks.go) *)

Definition socks_state_error (s : SystemSOCKSState) : option plan_error :=
  let hasServer := negb (Server s =? "")%string in
  let hasPort := negb (s_port s =? 0) in
  if (Service s =? "")%string then Some ErrSystemSOCKSStateUnknown
  else if Authenticated s then Some ErrAuthenticatedSystemSOCKS
  else if negb (Bool.eqb hasServer hasPort) || (s_enabled s && negb hasServer)
  then Some ErrSystemSOCKSStateUnknown
  else None.

Fixpoint first_error (l : list SystemSOCKSState) : option plan_error :=
  match l with
  | [] => None
  | s :: l => match socks_state_error s with Some e => Some e | None => first_error l end
  end.

Definition systemSOCKSForPlan (f : Facts) (o : Options) : res plan_error (list SystemSOCKSState) :=
  if negb (bool_decide (oPlatform o = PlatformDarwin)) then Err ErrSystemSOCKSRequest
  else match ParseAddr (Listen (oSystemSOCKS o)) with
       | None => Err ErrSystemSOCKSRequest
       | Some listen =>
           if negb (IsLoopback listen) then Err ErrSystemSOCKSRequest
           else if so_port (oSystemSOCKS o) =? 0 then Err ErrSystemSOCKSRequest
           else if negb (SystemSOCKSKnown f) then Err ErrSystemSOCKSStateUnknown
           else if (length (SystemSOCKS f) =? 0)%nat then Err ErrSystemSOCKSStateUnknown
           else match first_error (SystemSOCKS f) with
                | Some e => Err e
                | None => Ok (SystemSOCKS f)
                end
       end.

(** ** Addresses *)

Definition foreignPrefixes (f : Facts) (name : string) (hotspot : Prefix) : list Prefix :=
  match LinkByName f name with
  | None => []
  | Some l =>
      List.filter (λ p,
        negb (IsLinkLocalUnicast (p_addr p) || IsLoopback (p_addr p)) &&
        negb (prefix_valid hotspot && Contains_addr hotspot (p_addr p))) (l_prefixes l)
  end.

(** The hotspot subnet: the one set by hand, with a note per overlap, or the
    first free one of the pool. *)
Definition hotspot_subnet (o : Options) (taken : list Prefix) : res plan_error (Prefix * list Note) :=
  if prefix_valid (oHotspotSubnet o) then
    let sub := Masked (oHotspotSubnet o) in
    Ok (sub, NoteSubnetOverlaps sub <$> List.filter (Overlaps sub) taken)
  else match ChooseSubnet (HotspotPool o) taken with
       | Ok sub => Ok (sub, [])
       | Err e => Err (ErrSubnet e)
       end.

Definition lift {A} (r : res subnet_error A) : res plan_error A :=
  match r with Ok a => Ok a | Err e => Err (ErrSubnet e) end.

(** canPin on the fields it reads. *)
Definition can_pin (uplink : string) (v6gw : Addr) (v6dev : string) (s : Addr) : bool :=
  if negb (Is6 s) then negb (uplink =? "")%string
  else addr_valid v6gw || negb (v6dev =? "")%string.

Definition canPin (p : Plan) (s : Addr) : bool := can_pin (Uplink p) (UplinkV6Gw p) (UplinkV6Dev p) s.

(** The uplink: the primary default route, or the route of the override. *)
Definition choose_uplink (f : Facts) (o : Options) : res plan_error DefaultRoute :=
  if negb (UplinkOverride o =? "")%string then
    match List.find (λ r, (Dev r =? UplinkOverride o)%string && (Family r =? 4)) (Routes f) with
    | Some r => Ok r
    | None => Err ErrNoUplink
    end
  else match PrimaryDefault f with
       | Some r => Ok r
       | None => Err ErrNoUplink
       end.

(** The defaults PlanNetwork fills in first. *)
Definition effective (o : Options) : Options :=
  let o := if (TunName o =? "")%string then DefaultOptions else o in
  let hp := match HotspotPool o with [] => DefaultHotspotPool | l => l end in
  let tp := match TunnelPool o with [] => DefaultTunnelPool | l => l end in
  MkOptions (oPlatform o) (TunName o) hp tp (oHotspotSubnet o) (UplinkOverride o) (HotspotOverride o)
    (HotspotBand o) (APIfaceName o) (Table o) (RulePrio o) (FwMark o) (DNSPort o) (PanelPort o)
    (oSystemSOCKS o) (Strategy o) (IPv6 o) (Egress o) (ClientIsolation o) (MasqueradeToTunnel o) (RPFilter o).

Definition PlanNetwork (f : Facts) (servers : list Addr) (o : Options) : res plan_error Plan :=
  let o := effective o in
  if negb (ValidInterfaceNameOn (oPlatform o) (TunName o)) then Err (ErrInterfaceName (TunName o))
  else
    let? socks := (if so_enabled (oSystemSOCKS o) then systemSOCKSForPlan f o else Ok []) in
    let? def := choose_uplink f o in
    let v6gw := match DefaultV6 f with Some r => r_gateway r | None => NoAddr end in
    let v6dev := match DefaultV6 f with Some r => Dev r | None => ""%string end in
    let mode := if IsWireless f (Dev def) then ModeWirelessUplink else ModeWiredUplink in
    let? h := chooseHotspot f (Dev def) o in
    let taken := OccupiedPrefixes f in
    let? (sub, sub_notes) := hotspot_subnet o taken in
    let? gw := lift (GatewayAddr sub) in
    let station := if negb (Hotspot h =? "")%string && negb (HotspotIsVirtual h)
                   then foreignPrefixes f (Hotspot h) sub else [] in
    let? tun := lift (ChooseSubnet (TunnelPool o) (taken ++ [sub])) in
    let? tunAddr := lift (GatewayAddr tun) in
    let? tunPeer := lift (PeerAddr tun) in
    let addrs := Unmap <$> List.filter addr_valid servers in
    let unpinnable := List.filter (λ s, negb (can_pin (Dev def) v6gw v6dev s)) addrs in
    if negb (length addrs =? 0)%nat && (length unpinnable =? length addrs)%nat
    then Err ErrServerFamilyUnreachable
    else if (length addrs =? 0)%nat then Err ErrNoServerAddress
    else Ok (MkPlan (oPlatform o) mode (Dev def) (r_gateway def) (OnLink def) v6gw v6dev h sub gw
               (NetworkManagerPresent f) station (TunName o) tun tunAddr tunPeer addrs unpinnable socks o
               (hot_notes h ++ sub_notes ++ (NoteUnpinnable <$> unpinnable))).

(** ** What a plan is used for *)

Definition PinnedServers (p : Plan) : list Addr :=
  List.filter (λ s, canPin p s && negb (bool_decide (pPlatform p = PlatformWindows) && Is6 s)) (ServerAddr p).

(** The notes HotspotTakeover keeps: not the pinned-channel one. *)
Definition not_pinned_note (n : Note) : bool := match n with NotePinned _ _ _ _ _ => false | _ => true end.

Definition HotspotTakeover (p : Plan) (f : Facts) : res plan_error Plan :=
  let h := hot p in
  if negb (HotspotIsVirtual h) then Err ErrNoFallback
  else if (HotspotFallback h =? "")%string then Err ErrNoTakeoverCandidate
  else match WirelessByName f (HotspotFallback h) with
       | None => Err ErrInterfaceOwnerUnknown
       | Some w =>
           let inUse := match LinkByName f (w_name w) with
                        | Some l => if EqualFold (l_state l) "DOWN" then false else InUse w
                        | None => InUse w
                        end in
           let free := match Manager w with
                       | ManagedByNetworkManager => true
                       | ManagedByNothing => negb inUse
                       | ManagedByUnknown => false
                       end in
           if negb free then Err ErrInterfaceOwnerUnknown
           else
             let station := match LinkByName f (w_name w) with
                            | None => []
                            | Some l => List.filter (λ q, negb (IsLinkLocalUnicast (p_addr q) || IsLoopback (p_addr q)))
                                          (l_prefixes l)
                            end in
             let h' := MkHot (HotspotFallback h) (HotspotPhy h) false "" (HotspotFallback h) true (Manager w)
                         (match UsableChannel h with ch :: _ => ch | [] => 0 end) false (UsableChannel h)
                         (hot_notes h) in
             Ok (MkPlan (pPlatform p) (pMode p) (Uplink p) (UplinkGateway p) (UplinkOnLink p) (UplinkV6Gw p)
                   (UplinkV6Dev p) h' (HotspotSubnet p) (HotspotGateway p) (pNetworkManagerPresent p) station
                   (Tun p) (TunSubnet p) (TunAddr p) (TunPeer p) (ServerAddr p) (UnpinnableServers p)
                   (pSystemSOCKS p) (Opts p)
                   (List.filter not_pinned_note (Notes p) ++ [NoteTakeover (HotspotFallback h) (Uplink p)]))
       end.

(** ** The uplink's state (uplink.go) *)

Record UplinkState := MkUplink { u_iface : string; u_gateway : Addr; u_onlink : bool }.

Definition plan_UplinkState (p : Plan) : UplinkState :=
  MkUplink (Uplink p) (UplinkGateway p) (UplinkOnLink p).

Definition uplink_Equal (u o : UplinkState) : bool :=
  (u_iface u =? u_iface o)%string && bool_decide (u_gateway u = u_gateway o) && Bool.eqb (u_onlink u) (u_onlink o).

Definition uplink_IsZero (u : UplinkState) : bool := (u_iface u =? "")%string && negb (addr_valid (u_gateway u)).

Inductive uplink_change := UplinkLost | UplinkAppeared | UplinkMoved | GatewayChanged.

(** UplinkChanged: [None] for no change, or which of the reasons. *)
Definition UplinkChanged (old now : UplinkState) : option uplink_change :=
  if uplink_Equal old now then None
  else if uplink_IsZero now then Some UplinkLost
  else if uplink_IsZero old then Some UplinkAppeared
  else if negb (u_iface old =? u_iface now)%string then Some UplinkMoved
  else Some GatewayChanged.

Definition WithUplink (p : Plan) (u : UplinkState) : Plan :=
  MkPlan (pPlatform p) (pMode p) (u_iface u) (u_gateway u) (u_onlink u) (UplinkV6Gw p)
    (UplinkV6Dev p) (hot p) (HotspotSubnet p) (HotspotGateway p) (pNetworkManagerPresent p)
    (HotspotStationPrefixes p) (Tun p) (TunSubnet p) (TunAddr p) (TunPeer p) (ServerAddr p)
    (UnpinnableServers p) (pSystemSOCKS p) (Opts p) (Notes p).
