(* ===== verification/PlanFacts.v ===== *)
(** * What the planner promises

    The hotspot is never put on the interface that carries the internet
    connection, the band asked for is the band given, the subnets chosen
    collide with nothing, and the servers get routes. *)

From S2P Require Import Prelude GoStrings Command Netip Subnet Facts Plan.

Local Open Scope Z_scope.

(** ** Where a hotspot comes from *)

Lemma preferUSB_in cands : cands ≠ [] → preferUSB cands ∈ cands.
Proof.
  destruct cands as [|b cs]; [done|]. intros _. unfold preferUSB.
  assert (H : ∀ l b0, foldl (λ best c, if (c_bus c =? "usb")%string && negb (c_bus best =? "usb")%string then c else best)
                       b0 l ∈ b0 :: l).
  { induction l as [|c l IH]; intros b0; simpl; [by apply list_elem_of_singleton|].
    destruct (_ && _); [|specialize (IH b0)]; [specialize (IH c)|]; set_solver. }
  specialize (H (b :: cs) b). set_solver.
Qed.

Lemma best_shared_in uplink cs b : foldl (best_shared uplink) b cs ∈ b :: cs.
Proof.
  revert b. induction cs as [|c cs IH]; intros b; simpl; [by apply list_elem_of_singleton|].
  assert (H : best_shared uplink b c = b ∨ best_shared uplink b c = c)
    by (unfold best_shared; repeat case_match; auto).
  destruct H as [->| ->]; [specialize (IH b)|specialize (IH c)]; set_solver.
Qed.

Lemma of_class_in uplink k cands c : c ∈ of_class uplink k cands ↔ c ∈ cands ∧ classify uplink c = k.
Proof. unfold of_class. by rewrite elem_of_filterb, bool_decide_eq_true. Qed.

Lemma length_zero {A} (l : list A) : (length l =? 0)%nat = bool_decide (l = []).
Proof. by destruct l. Qed.

(** A radio is blocked only by the uplink. *)
Lemma blocked_on_uplink uplink cands :
  existsb (λ c, negb (on_uplink uplink c)) (of_class uplink Blocked cands) = false.
Proof.
  apply not_true_iff_false. rewrite existsb_exists. intros (c & Hin & Hc).
  apply list_elem_of_In, of_class_in in Hin as [_ Hk]. unfold classify, on_uplink in *.
  destruct (w_name (c_station c) =? uplink)%string; [done|]. by repeat case_match.
Qed.

(** The accepted radio and why it was the one: by hand, or the best class that
    is not empty. *)
Inductive chosen (uplink : string) (o : Options) (cands : list apCandidate) (c : apCandidate) : Prop :=
| ChosenByHand :
    HotspotOverride o ≠ ""%string →
    w_name (c_iface c) = HotspotOverride o ∨ phy_name (c_phy c) = HotspotOverride o →
    chosen uplink o cands c
| ChosenFree : classify uplink c = Free → chosen uplink o cands c
| ChosenShared :
    (∀ d, d ∈ cands → classify uplink d ≠ Free) →
    classify uplink c = Shared → w_name (c_station c) ≠ uplink → chosen uplink o cands c
| ChosenTakeover :
    (∀ d, d ∈ cands → classify uplink d ≠ Free) →
    (∀ d, d ∈ cands → classify uplink d = Shared → w_name (c_station d) = uplink) →
    classify uplink c = Takeoverable → chosen uplink o cands c
| ChosenBesideUplink :
    (∀ d, d ∈ cands → w_name (c_station d) = uplink) →
    classify uplink c = Shared → chosen uplink o cands c.

Lemma none_of_class uplink k cands d :
  (length (of_class uplink k cands) =? 0)%nat = true → d ∈ cands → classify uplink d ≠ k.
Proof.
  intros H Hd Hk. rewrite length_zero in H. breflect.
  assert (Hin : d ∈ of_class uplink k cands) by by apply of_class_in. rewrite H in Hin. by apply not_elem_of_nil in Hin.
Qed.

Lemma no_foreign_shared uplink cands d :
  (length (List.filter (λ c, negb (on_uplink uplink c)) (of_class uplink Shared cands)) =? 0)%nat = true →
  d ∈ cands → classify uplink d = Shared → w_name (c_station d) = uplink.
Proof.
  intros H Hd Hk. rewrite length_zero in H. breflect. destruct (on_uplink uplink d) eqn:E; [by breflect; apply String.eqb_eq|].
  assert (Hin : d ∈ List.filter (λ c, negb (on_uplink uplink c)) (of_class uplink Shared cands))
    by (apply elem_of_filterb; rewrite E; split; [by apply of_class_in|done]).
  rewrite H in Hin. by apply not_elem_of_nil in Hin.
Qed.

Lemma preferUSB_of {P : apCandidate → Prop} l :
  (length l =? 0)%nat = false → (∀ c, c ∈ l → P c) → P (preferUSB l).
Proof. intros Hl HP. apply HP, preferUSB_in. by intros ->. Qed.

(** The whole of chooseHotspot: the outcome is acceptHotspot's on a chosen
    radio, or one of two refusals with their reasons. *)
Lemma chooseHotspot_cases f uplink o :
  (∃ c, c ∈ apCandidates f uplink ∧ chosen uplink o (apCandidates f uplink) c ∧
        chooseHotspot f uplink o = acceptHotspot uplink c o) ∨
  chooseHotspot f uplink o = Err ErrNoAPCapableInterface ∧
    (HotspotOverride o = ""%string → apCandidates f uplink = []) ∨
  chooseHotspot f uplink o = Err ErrAPConflictsWithUplink ∧
    ∀ c, c ∈ apCandidates f uplink → w_name (c_station c) = uplink ∧ DeclaresAPWithStation (c_phy c) = false.
Proof.
  unfold chooseHotspot. set (cands := apCandidates f uplink).
  destruct (length cands =? 0)%nat eqn:E0. { right; left. split; [done|]. rewrite length_zero in E0. by breflect. }
  destruct (HotspotOverride o =? "")%string eqn:Eo; cbn [negb]; breflect; cycle 1.
  { destruct (List.find _ _) as [c|] eqn:Ef; [|right; left; by split].
    left. exists c. apply find_some in Ef as [Hin Hm]. split; [by apply list_elem_of_In|]. split; [|done].
    apply ChosenByHand; [done|]. apply orb_true_iff in Hm as [Hm|Hm]; breflect; auto. }
  destruct (length (of_class uplink Free cands) =? 0)%nat eqn:E1; cbn [negb]; cycle 1.
  { left. assert (H := preferUSB_of (P := λ c, c ∈ cands ∧ classify uplink c = Free) _ E1).
    destruct H as [Hin Hk]; [intros c Hc; by apply of_class_in in Hc|].
    eexists. split; [apply Hin|]. split; [|done]. by apply ChosenFree. }
  pose proof (λ d, none_of_class uplink Free cands d E1) as Hfree.
  destruct (length (List.filter _ (of_class uplink Shared cands)) =? 0)%nat eqn:E2; cbn [negb]; cycle 1.
  { assert (H := preferUSB_of (P := λ c, (c ∈ cands ∧ classify uplink c = Shared) ∧ negb (on_uplink uplink c) = true) _ E2).
    destruct H as [[Hin Hk] Hu]; [intros c Hc; by apply elem_of_filterb in Hc as [?%of_class_in ?]|].
    left. eexists. split; [apply Hin|]. split; [|done]. apply ChosenShared; [done..|].
    by apply String.eqb_neq, negb_true_iff. }
  pose proof (λ d, no_foreign_shared uplink cands d E2) as Hshared.
  destruct (length (of_class uplink Takeoverable cands) =? 0)%nat eqn:E3; cbn [negb]; cycle 1.
  { left. assert (H := preferUSB_of (P := λ c, c ∈ cands ∧ classify uplink c = Takeoverable) _ E3).
    destruct H as [Hin Hk]; [intros c Hc; by apply of_class_in in Hc|].
    eexists. split; [apply Hin|]. split; [|done]. by apply ChosenTakeover. }
  pose proof (λ d, none_of_class uplink Takeoverable cands d E3) as Htake.
  assert (Hall : ∀ d, d ∈ cands → w_name (c_station d) = uplink).
  { intros d Hd. destruct (classify uplink d) eqn:Hk; [by apply Hfree in Hk|by apply Hshared|by apply Htake in Hk|].
    unfold classify in Hk. repeat case_match; try done. by breflect. }
  rewrite blocked_on_uplink.
  destruct (of_class uplink Shared cands) as [|s0 shared] eqn:Es.
  - right; right. split; [done|]. intros c Hc. split; [by apply Hall|].
    destruct (classify uplink c) eqn:Hk; [by apply Hfree in Hk| |by apply Htake in Hk|].
    + assert (Hin : c ∈ of_class uplink Shared cands) by by apply of_class_in. rewrite Es in Hin. by apply not_elem_of_nil in Hin.
    + unfold classify in Hk. by repeat case_match.
  - rewrite andb_false_r. left. eexists. pose proof (best_shared_in uplink (s0 :: shared) s0) as Hb.
    assert (Hin : foldl (best_shared uplink) s0 (s0 :: shared) ∈ of_class uplink Shared cands) by (rewrite Es; set_solver).
    apply of_class_in in Hin as [Hin Hk]. split; [apply Hin|]. split; [|done]. by apply ChosenBesideUplink.
Qed.

(** ** The interface *)

(** A radio without a station link does not have the uplink on it. *)
Lemma scan_not_uplink f uplink ws c :
  uplink ≠ ""%string →
  (w_name (c_station c) = ""%string → w_name (c_iface c) ≠ uplink) →
  let c' := foldl (scan_iface f uplink) c ws in
  w_name (c_station c') = ""%string → w_name (c_iface c') ≠ uplink.
Proof.
  intros Hu. revert c. induction ws as [|w ws IH]; intros c Hc; [done|]. simpl. apply IH.
  unfold scan_iface. destruct (negb _); [done|].
  destruct (w_name (c_iface c) =? "")%string; destruct (w_name w =? uplink)%string eqn:Ew; simpl; breflect; try congruence;
    destruct (_ && _) eqn:Es; simpl; breflect; auto.
Qed.

Lemma candidate_not_uplink f uplink c :
  uplink ≠ ""%string → c ∈ apCandidates f uplink →
  w_name (c_station c) = ""%string → w_name (c_iface c) ≠ uplink.
Proof.
  intros Hu (phy & -> & _)%list_elem_of_fmap. by apply scan_not_uplink; [|intros _ ?]; simpl in *.
Qed.

(** What a hotspot decision may say about the uplink. *)
Definition spares (uplink : string) (h : Hot) : Prop :=
  (HotspotIsVirtual h = false → Hotspot h ≠ uplink) ∧ HotspotFallback h ≠ uplink.

Lemma accept_branch_spares uplink c o h :
  uplink ≠ ""%string → (w_name (c_station c) = ""%string → w_name (c_iface c) ≠ uplink) →
  oPlatform o ≠ PlatformWindows →
  accept_branch uplink c o = Ok h → spares uplink h.
Proof.
  intros Hu Hc Hw. unfold accept_branch, takeOver, beside_station, spares.
  rewrite (bool_decide_false (oPlatform o = PlatformWindows)) by done.
  intros H. repeat (destruct_match_in H; try done); simplify_eq; simpl; breflect; split;
    try done; try (by intros; apply Hc); try congruence; try (by repeat case_match; breflect).
Qed.

Lemma accept_taken_over uplink c o h :
  accept_branch uplink c o = Ok h → HotspotTakenOver h = true →
  Hotspot h = w_name (c_station c) ∧ classify uplink c = Takeoverable.
Proof.
  unfold accept_branch, takeOver, classify. intros H Ht.
  repeat (destruct_match_in H; try done); simplify_eq; simpl in *; breflect; try done.
  split; [done|]. repeat case_match; breflect; congruence.
Qed.

(** acceptHotspot adds at most a note. *)
Lemma acceptHotspot_inv uplink c o h :
  acceptHotspot uplink c o = Ok h →
  ∃ h0, accept_branch uplink c o = Ok h0 ∧
    (Hotspot h, HotspotPhy h, HotspotIsVirtual h, HotspotParent h) =
      (Hotspot h0, HotspotPhy h0, HotspotIsVirtual h0, HotspotParent h0) ∧
    (HotspotFallback h, HotspotTakenOver h, HotspotManager h, Channel h, ChannelPinned h, UsableChannel h) =
      (HotspotFallback h0, HotspotTakenOver h0, HotspotManager h0, Channel h0, ChannelPinned h0, UsableChannel h0).
Proof.
  unfold acceptHotspot. destruct (accept_branch uplink c o) as [h0|]; [|done].
  intros [= <-]. exists h0. split; [done|]. by destruct (_ && _).
Qed.

Lemma choose_uplink_named f o r : choose_uplink f o = Ok r → Dev r ≠ ""%string.
Proof.
  unfold choose_uplink. destruct (UplinkOverride o =? "")%string eqn:E; cbn [negb]; breflect.
  - assert (Hb : ∀ l b, (∀ x, b = Some x → Dev x ≠ ""%string) → ∀ x, foldl (λ best r,
      if negb (Family r =? 4) || LinkDown r || (Dev r =? "")%string then best
      else match best with None => Some r | Some b => if Metric r <? Metric b then Some r else best end) b l = Some x →
      Dev x ≠ ""%string).
    { induction l as [|y l IH]; intros b Hb x; [apply Hb|]. simpl. apply IH. intros z.
      destruct (_ || _) eqn:Ez; [apply Hb|]. breflect. destruct b as [b|]; [case_match|]; intros [= <-]; auto. }
    unfold PrimaryDefault, best_route. destruct (foldl _ _ _) eqn:Ef; [|done]. intros [= <-].
    by eapply Hb in Ef.
  - destruct (List.find _ _) as [r'|] eqn:Ef; [|done]. intros [= <-]. apply find_some in Ef as [_ Hm]. breflect. congruence.
Qed.

(** What a plan was made of. *)
Record made_of (f : Facts) (servers : list Addr) (o : Options) (p : Plan) : Prop := {
  mo_uplink : ∃ r, choose_uplink f o = Ok r ∧ Uplink p = Dev r;
  mo_hot : chooseHotspot f (Uplink p) o = Ok (hot p);
  mo_opts : Opts p = o ∧ pPlatform p = oPlatform o;
  mo_subnet : ∃ notes, hotspot_subnet o (OccupiedPrefixes f) = Ok (HotspotSubnet p, notes) ∧ notes ⊆ Notes p;
  mo_gateway : GatewayAddr (HotspotSubnet p) = Ok (HotspotGateway p);
  mo_station : HotspotIsVirtual (hot p) = false → Hotspot (hot p) ≠ ""%string →
    HotspotStationPrefixes p = foreignPrefixes f (Hotspot (hot p)) (HotspotSubnet p);
  mo_tun : ChooseSubnet (TunnelPool o) (OccupiedPrefixes f ++ [HotspotSubnet p]) = Ok (TunSubnet p);
  mo_tunAddr : GatewayAddr (TunSubnet p) = Ok (TunAddr p);
  mo_tunPeer : PeerAddr (TunSubnet p) = Ok (TunPeer p);
  mo_servers : ServerAddr p = Unmap <$> List.filter addr_valid servers;
  mo_unpinnable : UnpinnableServers p = List.filter (λ s, negb (canPin p s)) (ServerAddr p);
  mo_notes : (NoteUnpinnable <$> UnpinnableServers p) ⊆ Notes p;
  mo_some : length (UnpinnableServers p) ≠ length (ServerAddr p)
}.

Lemma lift_ok {A} (r : res subnet_error A) a : lift r = Ok a → r = Ok a.
Proof. destruct r; [|done]. by intros [= <-]. Qed.

Lemma PlanNetwork_inv f servers o p : PlanNetwork f servers o = Ok p → made_of f servers (effective o) p.
Proof.
  unfold PlanNetwork. set (o' := effective o). destruct (negb _) eqn:?; [done|].
  destruct (if so_enabled _ then _ else _) as [socks|]; [|done].
  destruct (choose_uplink f o') as [def|] eqn:Eu; [|done].
  destruct (chooseHotspot f (Dev def) o') as [h|] eqn:Eh; [|done].
  destruct (hotspot_subnet o' (OccupiedPrefixes f)) as [[sub notes]|] eqn:Es; [|done].
  destruct (lift (GatewayAddr sub)) as [gw|] eqn:Eg; [apply lift_ok in Eg|done].
  destruct (lift (ChooseSubnet _ _)) as [tun|] eqn:Et; [apply lift_ok in Et|done].
  destruct (lift (GatewayAddr tun)) as [ta|] eqn:Eta; [apply lift_ok in Eta|done].
  destruct (lift (PeerAddr tun)) as [tp|] eqn:Etp; [apply lift_ok in Etp|done].
  destruct (_ && _) eqn:Ea; [done|]. destruct (length (Unmap <$> _) =? 0)%nat eqn:El; [done|]. cbn [negb andb] in Ea.
  intros [= <-]. breflect. split; simpl; try done; eauto.
  - exists notes. split; [done|]. set_solver.
  - intros -> Hn. apply String.eqb_neq in Hn. by rewrite Hn.
  - set_solver.
Qed.

Lemma plan_uplink_named f servers o p : PlanNetwork f servers o = Ok p → Uplink p ≠ ""%string.
Proof. intros H. destruct (mo_uplink _ _ _ _ (PlanNetwork_inv _ _ _ _ H)) as (r & Hr & ->). by eapply choose_uplink_named. Qed.

(** The radio a plan's hotspot is on. *)
Lemma plan_radio f servers o p :
  PlanNetwork f servers o = Ok p →
  ∃ c h0, c ∈ apCandidates f (Uplink p) ∧ chosen (Uplink p) (effective o) (apCandidates f (Uplink p)) c ∧
    acceptHotspot (Uplink p) c (effective o) = Ok (hot p) ∧ accept_branch (Uplink p) c (effective o) = Ok h0.
Proof.
  intros H. apply PlanNetwork_inv in H as [_ Hh _ _ _ _ _ _ _ _ _ _ _].
  destruct (chooseHotspot_cases f (Uplink p) (effective o)) as [(c & Hin & Hc & E)|[[E _]|[E _]]];
    rewrite E in Hh; try done.
  destruct (acceptHotspot_inv _ _ _ _ Hh) as (h0 & H0 & _). by exists c, h0.
Qed.

(** A radio accepted without an override is one the access point can use. *)
Lemma chosen_not_blocked uplink o cands c :
  HotspotOverride o = ""%string → chosen uplink o cands c → classify uplink c ≠ Blocked.
Proof. intros Ho Hc Hb. destruct Hc; congruence. Qed.

(** Accepting refuses for a conflict only on a blocked radio, and never for
    the other reasons of the choice. *)
Lemma accept_refusal uplink c o e :
  acceptHotspot uplink c o = Err e →
  e ≠ ErrNoAPCapableInterface ∧ e ≠ ErrHotspotNotReleased ∧
  (e = ErrAPConflictsWithUplink → classify uplink c = Blocked).
Proof.
  unfold acceptHotspot. destruct (accept_branch uplink c o) as [|e'] eqn:Eb; [done|]. intros [= ->].
  unfold accept_branch, takeOver, beside_station, chooseChannel, refuseBandAgainstPin, DeclaresAPWithStation in Eb.
  unfold classify, DeclaresAPWithStation.
  repeat (destruct_match_in Eb; try done); simplify_eq; (split; [done|]); (split; [done|]);
    intros ?; try done; simplify_eq/=; breflect; repeat case_match; breflect; try done; congruence.
Qed.

(** C20. The connection being shared is never given up. Except on Windows,
    where sharing is done by the system on the station's own interface, the
    hotspot of a plan is an interface other than the uplink unless it is one
    the appliance creates; on every platform an interface taken over is not
    the uplink; and neither is the one the fallback of a failed creation
    would take, whatever detection says by then. *)
Theorem hotspot_never_uplink f servers o p :
  PlanNetwork f servers o = Ok p →
  (oPlatform (effective o) ≠ PlatformWindows →
     (HotspotIsVirtual (hot p) = false → Hotspot (hot p) ≠ Uplink p) ∧
     ∀ f' q, HotspotTakeover p f' = Ok q → Hotspot (hot q) ≠ Uplink q ∧ HotspotIsVirtual (hot q) = false) ∧
  (HotspotTakenOver (hot p) = true → Hotspot (hot p) ≠ Uplink p).
Proof.
  intros H. destruct (plan_radio _ _ _ _ H) as (c & h0 & Hin & _ & Ha & Hb).
  pose proof (plan_uplink_named _ _ _ _ H) as Hu.
  destruct (acceptHotspot_inv _ _ _ _ Ha) as (h1 & Hb1 & E1 & E2). simplify_eq. split.
  - intros Hw. destruct (accept_branch_spares (Uplink p) c (effective o) h0) as [Hs1 Hs2];
      [done|by eapply candidate_not_uplink|done|done|].
    split; [intros Hv E; apply Hs1; congruence|]. intros f' q. unfold HotspotTakeover.
    intros Hq. repeat (destruct_match_in Hq; try done); simplify_eq; simpl; split; congruence.
  - intros Ht. destruct (accept_taken_over (Uplink p) c (effective o) h0) as [E3 E4]; [done|congruence|].
    unfold classify in E4. repeat case_match; breflect; try done. congruence.
Qed.

(** The choice among radios goes by what it costs. Unless the user named
    one, a link is ended only when no radio is free and none could hold an
    access point beside a link other than the uplink; the access point sits
    beside the uplink only when every radio that can run one carries the
    uplink; and the refusal comes only when, besides, none of them can hold
    both. In particular the refusal for an adapter that was not released is
    never given. *)
Theorem chooseHotspot_costs_least f uplink o :
  HotspotOverride o = ""%string → uplink ≠ ""%string →
  match chooseHotspot f uplink o with
  | Ok h =>
      ∃ c, c ∈ apCandidates f uplink ∧ acceptHotspot uplink c o = Ok h ∧
        (HotspotTakenOver h = true → ∀ d, d ∈ apCandidates f uplink →
           w_name (c_station d) ≠ ""%string ∧
           (DeclaresAPWithStation (c_phy d) = true → w_name (c_station d) = uplink)) ∧
        (w_name (c_station c) = uplink → ∀ d, d ∈ apCandidates f uplink → w_name (c_station d) = uplink)
  | Err ErrNoAPCapableInterface => apCandidates f uplink = []
  | Err ErrAPConflictsWithUplink =>
      ∀ c, c ∈ apCandidates f uplink → w_name (c_station c) = uplink
  | Err e => e ≠ ErrHotspotNotReleased
  end.
Proof.
  intros Ho Hu. destruct (chooseHotspot_cases f uplink o) as [(c & Hin & Hc & ->)|[[-> E]|[-> E]]];
    [|by apply E|by intros c Hc; apply E].
  destruct (acceptHotspot uplink c o) as [h|e] eqn:Ea.
  - exists c. split; [done|]. split; [done|].
    destruct (acceptHotspot_inv _ _ _ _ Ea) as (h0 & Hb & _ & E2). split.
    + intros Ht d Hd. destruct (accept_taken_over uplink c o h0) as [_ Hk]; [done|congruence|].
      destruct Hc as [Hn|Hf|_ Hs|Hf Hs _|_ Hs]; try congruence. specialize (Hf d Hd). specialize (Hs d Hd).
      unfold classify in Hf, Hs. split; repeat case_match; breflect; intros; try done; auto.
    + intros Eu d Hd. destruct Hc as [Hn|Hf|_ _ Hs|_ _ Hk|Hall _]; try done.
      * unfold classify in Hf. repeat case_match; breflect; congruence.
      * unfold classify in Hk. repeat case_match; breflect; congruence.
      * by apply Hall.
  - apply accept_refusal in Ea as (H1 & H2 & H3). pose proof (chosen_not_blocked _ _ _ _ Ho Hc) as Hb.
    destruct e; try done. by destruct Hb, H3.
Qed.

(** ** Addresses *)

(** Addresses within their width, which every netip value is. *)
Definition facts_ok (f : Facts) : Prop :=
  (∀ l q, l ∈ Links f → q ∈ l_prefixes l → addr_ok (p_addr q)) ∧ ∀ r, r ∈ Routes f → addr_ok (r_gateway r).

(** The same of the pools and the subnet set by hand. *)
Definition options_ok (o : Options) : Prop :=
  Forall prefix_ok (HotspotPool o) ∧ Forall prefix_ok (TunnelPool o) ∧
  (prefix_valid (oHotspotSubnet o) = true → addr_ok (p_addr (oHotspotSubnet o))).

(** The prefix collides with no network the machine is on: no address of an
    interface, with its prefix, and no gateway. *)
Definition collides_with_nothing (f : Facts) (p : Prefix) : Prop :=
  (∀ l q, l ∈ Links f → q ∈ l_prefixes l → prefix_valid q = true → disjoint p q) ∧
  (∀ r, r ∈ Routes f → addr_valid (r_gateway r) = true → ¬ member (r_gateway r) p).

Lemma PrefixFrom_full a : addr_valid a = true → addr_ok a →
  prefix_valid (PrefixFrom a (BitLen a)) = true ∧ addr_ok (p_addr (PrefixFrom a (BitLen a))) ∧
  member a (PrefixFrom a (BitLen a)).
Proof.
  intros Ha Hok. unfold member, same_family. by destruct a as [|n|n z].
Qed.

Lemma elem_of_occupied f t : t ∈ OccupiedPrefixes f ↔
  (∃ l q, l ∈ Links f ∧ q ∈ l_prefixes l ∧ t = Masked q) ∨
  (∃ r, r ∈ Routes f ∧ addr_valid (r_gateway r) = true ∧ t = PrefixFrom (r_gateway r) (BitLen (r_gateway r))).
Proof.
  unfold OccupiedPrefixes. rewrite elem_of_app, list_elem_of_In, in_concat. apply Morphisms_Prop.or_iff_morphism; split.
  - intros (ps & Hps & Ht). apply list_elem_of_In, list_elem_of_fmap in Hps as (l & -> & Hl).
    apply list_elem_of_In, list_elem_of_fmap in Ht as (q & -> & Hq). eauto.
  - intros (l & q & Hl & Hq & ->). exists (Masked <$> l_prefixes l).
    rewrite <- !list_elem_of_In, !list_elem_of_fmap. split; [by exists l|by exists q].
  - intros (r & -> & [Hr Hv]%elem_of_filterb)%list_elem_of_fmap. eauto.
  - intros (r & Hr & Hv & ->). apply list_elem_of_fmap. exists r. by rewrite elem_of_filterb.
Qed.

Lemma occupied_ok f : facts_ok f → Forall (λ t, addr_ok (p_addr t)) (OccupiedPrefixes f).
Proof.
  intros [Hl Hr]. apply Forall_forall. intros t [(l & q & Hll & Hq & ->)|(r & Hin & Hv & ->)]%elem_of_occupied.
  - destruct (prefix_valid q) eqn:E; [apply Masked_ok; by eauto|]. unfold Masked. by rewrite E.
  - by apply PrefixFrom_full, Hr.
Qed.

Lemma occupied_disjoint f p :
  facts_ok f → (∀ t, t ∈ OccupiedPrefixes f → prefix_valid t = true → disjoint p t) → collides_with_nothing f p.
Proof.
  intros [Hl Hr] H. split.
  - intros l q Hin Hq Hv x Hx1 Hx2. destruct (Masked_valid q Hv) as (Hvm & _ & _ & _ & Hm).
    apply (H (Masked q)) with x; [|done|done|by apply Hm].
    apply elem_of_occupied. left. eauto.
  - intros r Hin Hv Hm. destruct (PrefixFrom_full (r_gateway r) Hv) as (H1 & _ & H2); [by apply Hr|].
    eapply H; [|exact H1|exact Hm|exact H2]. apply elem_of_occupied. eauto.
Qed.

Lemma hotspot_subnet_ok o taken sub notes :
  options_ok o → Forall (λ t, addr_ok (p_addr t)) taken → hotspot_subnet o taken = Ok (sub, notes) → prefix_ok sub.
Proof.
  intros (Hh & _ & Hm) Ht. unfold hotspot_subnet. destruct (prefix_valid (oHotspotSubnet o)) eqn:E.
  - intros [= <- _]. split; [by apply Masked_valid|by apply Masked_ok; auto].
  - destruct (ChooseSubnet _ _) eqn:Ec; [|done]. intros [= <- _].
    by destruct (ChooseSubnet_ok _ _ _ Hh Ht Ec) as (c & _ & _ & ? & _).
Qed.

(** The addresses of a plan work on the network the machine is on. The
    tunnel's subnet, and the hotspot's unless it was set by hand, share no
    address with any interface's network and hold no gateway, and the two are
    disjoint; a subnet set by hand that collides is reported. The address of
    the hotspot and the two ends of the tunnel lie in their subnets and are
    three distinct addresses. *)
Theorem plan_addresses_collision_free f servers o p :
  PlanNetwork f servers o = Ok p → facts_ok f → options_ok (effective o) →
  collides_with_nothing f (TunSubnet p) ∧
  (prefix_valid (oHotspotSubnet (effective o)) = false → collides_with_nothing f (HotspotSubnet p)) ∧
  (∀ l q, l ∈ Links f → q ∈ l_prefixes l → Overlaps (HotspotSubnet p) q = true →
     NoteSubnetOverlaps (HotspotSubnet p) (Masked q) ∈ Notes p) ∧
  disjoint (TunSubnet p) (HotspotSubnet p) ∧
  member (HotspotGateway p) (HotspotSubnet p) ∧ member (TunAddr p) (TunSubnet p) ∧ member (TunPeer p) (TunSubnet p) ∧
  NoDup [HotspotGateway p; TunAddr p; TunPeer p].
Proof.
  intros H Hf Ho. apply PlanNetwork_inv in H as [_ _ _ (notes & Hs & Hn) Hg _ Ht Ha Hp _ _ _ _].
  pose proof (occupied_ok f Hf) as Hocc. pose proof (hotspot_subnet_ok _ _ _ _ Ho Hocc Hs) as [Hsv Hsok].
  destruct (GatewayAddr_ok _ _ Hg) as (_ & Mg & _). destruct (GatewayAddr_ok _ _ Ha) as (_ & Ma & _).
  destruct (PeerAddr_ok _ _ Hp) as (gw & Hgw & Mp & Vp). rewrite Ha in Hgw. simplify_eq.
  destruct Ho as (Hhp & Htp & Hmp).
  assert (Hocc' : Forall (λ t, addr_ok (p_addr t)) (OccupiedPrefixes f ++ [HotspotSubnet p]))
    by (apply Forall_app; split; [done|by apply Forall_cons]).
  destruct (ChooseSubnet_ok _ _ _ Htp Hocc' Ht) as (c & _ & _ & _ & Hd).
  assert (Hdis : disjoint (TunSubnet p) (HotspotSubnet p)) by (apply Hd; [set_solver|done]).
  split; [apply occupied_disjoint; [done|]; intros t Hin; apply Hd; set_solver|].
  assert (Hpool : prefix_valid (oHotspotSubnet (effective o)) = false → collides_with_nothing f (HotspotSubnet p)).
  { intros Hv. unfold hotspot_subnet in Hs. rewrite Hv in Hs. destruct (ChooseSubnet _ _) eqn:Ec; [|done]. simplify_eq.
    destruct (ChooseSubnet_ok _ _ _ Hhp Hocc Ec) as (c' & _ & _ & _ & Hd'). by apply occupied_disjoint. }
  split; [done|]. split.
  { intros l q Hl Hq Hov. pose proof (proj1 (Overlaps_spec _ _ Hsok (proj1 Hf _ _ Hl Hq)) Hov) as (_ & Hqv & x & Hx1 & Hx2).
    destruct (prefix_valid (oHotspotSubnet (effective o))) eqn:Hv; [|by destruct (proj1 (Hpool eq_refl) l q Hl Hq Hqv x)].
    apply Hn. unfold hotspot_subnet in Hs. rewrite Hv in Hs. injection Hs as Hsub <-. rewrite Hsub.
    apply list_elem_of_fmap. exists (Masked q). split; [done|]. apply elem_of_filterb.
    destruct (Masked_valid q Hqv) as (Hqm & _ & _ & _ & Mq). split.
    - apply elem_of_occupied. left. eauto.
    - apply Overlaps_spec; [done|apply Masked_ok; [done|by eapply Hf]|]. split; [done|]. split; [done|].
      exists x. by rewrite Mq. }
  split; [done|]. split; [done|]. split; [done|]. split; [done|].
  assert (Hne : ∀ x, member x (TunSubnet p) → HotspotGateway p ≠ x) by (intros x Hx E; rewrite E in Mg; by eapply Hdis).
  apply NoDup_cons. split; [|apply NoDup_cons; split; [|apply NoDup_singleton]].
  - intros [E|E%list_elem_of_singleton]%elem_of_cons; [by apply (Hne _ Ma)|by apply (Hne _ Mp)].
  - intros E%list_elem_of_singleton. rewrite E in Vp. lia.
Qed.

(** ** Channels *)

Lemma elem_of_insert_sorted x y l : x ∈ insert_sorted y l ↔ x = y ∨ x ∈ l.
Proof.
  induction l as [|z l IH]; simpl; [by rewrite list_elem_of_singleton, elem_of_nil; naive_solver|].
  destruct (y <=? z); rewrite !elem_of_cons; [done|]. rewrite IH. naive_solver.
Qed.

Lemma elem_of_sort_ints x l : x ∈ sort_ints l ↔ x ∈ l.
Proof. induction l as [|y l IH]; [done|]. simpl. by rewrite elem_of_insert_sorted, elem_of_cons, IH. Qed.

(** The radio may start transmitting on the channel, in the band. *)
Definition may_use (phy : Phy) (band : RadioBand) (ch : Z) : Prop :=
  ∃ fr, fr ∈ frequencies phy ∧ Usable fr = true ∧ f_channel fr = ch ∧ 0 < ch ∧
    (band ≠ BandAuto → BandOf (MHz fr) = band).

Lemma UsableChannelsIn_spec phy band ch : ch ∈ UsableChannelsIn phy band ↔ may_use phy band ch.
Proof.
  unfold UsableChannelsIn, may_use. rewrite elem_of_sort_ints, list_elem_of_fmap. split.
  - intros (fr & -> & [Hin Hu]%elem_of_filterb). unfold usable_in in Hu. breflect. exists fr. split_and!; try done.
    intros Hb. match goal with H : _ || _ = true |- _ => apply orb_true_iff in H as [H|H] end; by breflect.
  - intros (fr & Hin & Hu & <- & Hc & Hb). exists fr. split; [done|]. apply elem_of_filterb. split; [done|].
    unfold usable_in. rewrite Hu, (proj2 (Z.ltb_lt _ _) Hc). simpl. apply orb_true_iff.
    destruct (decide (band = BandAuto)); [left|right]; apply bool_decide_eq_true; auto.
Qed.

Lemma chooseChannel_spec phy band ch :
  chooseChannel phy (UsableChannels phy) band = Ok ch →
  may_use phy band ch ∨ ch = 0 ∧ band = BandAuto ∧ ∀ c, ¬ may_use phy BandAuto c.
Proof.
  unfold chooseChannel. intros H. destruct band.
  - destruct (UsableChannelsIn phy Band2GHz) as [|c l] eqn:E2.
    + unfold UsableChannels in H. destruct (UsableChannelsIn phy BandAuto) as [|c l] eqn:E; simplify_eq.
      * right. split; [done|]. split; [done|]. intros c Hc%UsableChannelsIn_spec. rewrite E in Hc. by apply not_elem_of_nil in Hc.
      * left. apply UsableChannelsIn_spec. rewrite E. set_solver.
    + simplify_eq. left. assert (Hc : may_use phy Band2GHz ch) by (apply UsableChannelsIn_spec; rewrite E2; set_solver).
      destruct Hc as (fr & ? & ? & ? & ? & _). by exists fr.
  - destruct (UsableChannelsIn phy Band2GHz) as [|c l] eqn:E; simplify_eq. left. apply UsableChannelsIn_spec. rewrite E. set_solver.
  - destruct (UsableChannelsIn phy Band5GHz) as [|c l] eqn:E; simplify_eq. left. apply UsableChannelsIn_spec. rewrite E. set_solver.
Qed.

(** The candidate's radio, and that its station is one of the interfaces
    detected on that radio. *)
Lemma scan_station f uplink ws c :
  let c' := foldl (scan_iface f uplink) c ws in
  c_phy c' = c_phy c ∧
  (c_station c' = c_station c ∨ c_station c' ∈ ws ∧ w_phy (c_station c') = phy_name (c_phy c)).
Proof.
  revert c. induction ws as [|w ws IH]; intros c; [by auto|]. simpl.
  assert (H : c_phy (scan_iface f uplink c w) = c_phy c ∧
    (c_station (scan_iface f uplink c w) = c_station c ∨
     c_station (scan_iface f uplink c w) = w ∧ w_phy w = phy_name (c_phy c))).
  { unfold scan_iface. destruct (negb (w_phy w =? phy_name (c_phy c))%string) eqn:E; [by auto|]. breflect.
    destruct (w_name (c_iface c) =? "")%string; simpl; destruct (w_name w =? uplink)%string; simpl; auto;
      destruct (_ && _); simpl; auto. }
  destruct (IH (scan_iface f uplink c w)) as [E1 E2]. destruct H as [H1 H2]. rewrite E1. split; [done|].
  rewrite H1 in E2. destruct E2 as [E2|[E2 E3]]; [|right; by split; [set_solver|]].
  rewrite E2. destruct H2 as [H2|[H2 H3]]; [by left|]. right. rewrite H2. split; [set_solver|done].
Qed.

Lemma candidate_station f uplink c :
  c ∈ apCandidates f uplink →
  c_phy c ∈ Phys f ∧ SupportsAP (c_phy c) = true ∧
  (w_name (c_station c) ≠ ""%string → c_station c ∈ Wireless f ∧ w_phy (c_station c) = phy_name (c_phy c)).
Proof.
  intros (phy & -> & [Hin Hap]%elem_of_filterb)%list_elem_of_fmap.
  destruct (scan_station f uplink (Wireless f) (MkCandidate phy no_wireless no_wireless "")) as [E1 E2]. simpl in *.
  rewrite E1. split_and!; [done..|]. intros Hn. destruct E2 as [E2|?]; [by rewrite E2 in Hn|done].
Qed.

(** The band the station's pinned channel is in, as far as it is known. *)
Definition pinned_band (phy : Phy) (w : WirelessIface) : RadioBand :=
  let b := BandOfChannel phy (w_channel w) in
  if bool_decide (b = BandAuto) && (0 <? FreqMHz w) then BandOf (FreqMHz w) else b.

Lemma accept_channel uplink c o h :
  accept_branch uplink c o = Ok h →
  HotspotPhy h = phy_name (c_phy c) ∧
  if ChannelPinned h
  then Channel h = w_channel (c_station c) ∧ StationLink (c_station c) = true ∧ w_name (c_station c) ≠ ""%string ∧
       (HotspotBand o ≠ BandAuto → pinned_band (c_phy c) (c_station c) = HotspotBand o)
  else chooseChannel (c_phy c) (UsableChannels (c_phy c)) (HotspotBand o) = Ok (Channel h).
Proof.
  unfold accept_branch, takeOver, beside_station, refuseBandAgainstPin. fold (pinned_band (c_phy c) (c_station c)).
  intros H. repeat (destruct_match_in H; try done); simplify_eq; simpl; breflect; split; try done.
Qed.

(** The access point transmits only where the radio may start a
    transmission, and in the band that was asked for. A channel the planner
    chose is enabled, not passive and free of radar duty on that radio, and in
    the requested band if there was one (0 only when there was none and the
    radio has no usable channel); a channel the radio forces is that of a
    station link on the same radio, and lies in the requested band. *)
Theorem plan_channel_lawful f servers o p :
  PlanNetwork f servers o = Ok p →
  let band := HotspotBand (effective o) in
  ∃ phy, phy ∈ Phys f ∧ phy_name phy = HotspotPhy (hot p) ∧ SupportsAP phy = true ∧
  (ChannelPinned (hot p) = false →
     may_use phy band (Channel (hot p)) ∨
     Channel (hot p) = 0 ∧ band = BandAuto ∧ ∀ ch, ¬ may_use phy BandAuto ch) ∧
  (ChannelPinned (hot p) = true →
     ∃ w, w ∈ Wireless f ∧ w_phy w = HotspotPhy (hot p) ∧ StationLink w = true ∧ Channel (hot p) = w_channel w ∧
          (band ≠ BandAuto → pinned_band phy w = band)).
Proof.
  intros H band. destruct (plan_radio _ _ _ _ H) as (c & h0 & Hin & _ & Ha & Hb).
  destruct (acceptHotspot_inv _ _ _ _ Ha) as (h1 & Hb1 & E1 & E2).
  destruct (candidate_station _ _ _ Hin) as (Hphy & Hap & Hst).
  destruct (accept_channel _ _ _ _ Hb1) as [Hn Hc].
  injection E1 as _ Ephy _ _. injection E2 as _ _ _ Ech Epin _. rewrite Ephy, Hn, Ech, Epin.
  exists (c_phy c). split_and!; [done..|intros Hp|intros Hp]; rewrite Hp in Hc.
  - by apply chooseChannel_spec.
  - destruct Hc as (E & Hl & Hne & Hband). destruct (Hst Hne) as [Hw Hwp]. exists (c_station c). auto.
Qed.

(** ** Interface combinations *)

(** How often [g] is used. *)
Definition uses (g : nat) (choice : list nat) : Z := Z.of_nat (length (List.filter (Nat.eqb g) choice)).

(** [choice] gives every type a group of the combination that lists it, and no
    group more interfaces than it has room for. *)
Definition fits (limits : list ComboLimit) (room : list Z) (types : list string) (choice : list nat) : Prop :=
  Forall2 (λ t g, ∃ l, limits !! g = Some l ∧ Has l t = true) types choice ∧
  ∀ g, g ∈ choice → ∃ r, room !! g = Some r ∧ uses g choice ≤ r.

Lemma decrement_lookup g h l :
  decrement g l !! h = if (g =? h)%nat then Z.pred <$> l !! h else l !! h.
Proof.
  revert g h. induction l as [|x l IH]; intros g h; [by destruct g, (_ =? h)%nat|].
  destruct g as [|g], h as [|h]; simpl; try done; apply IH.
Qed.

Lemma uses_cons g h choice : uses g (h :: choice) = uses g choice + if (g =? h)%nat then 1 else 0.
Proof. unfold uses. simpl. destruct (g =? h)%nat; simpl; lia. Qed.

Lemma uses_pos g choice : g ∈ choice ↔ 0 < uses g choice.
Proof.
  induction choice as [|h choice IH]; [rewrite elem_of_nil; done|].
  rewrite elem_of_cons, uses_cons, IH. destruct (Nat.eqb_spec g h) as [->|]; [|naive_solver lia].
  split; [|auto]. unfold uses. lia.
Qed.

(** Using a group leaves the rest of the choice one place less in it. *)
Lemma fits_cons limits room t g types choice :
  fits limits room (t :: types) (g :: choice) ↔
  (∃ l r, limits !! g = Some l ∧ Has l t = true ∧ room !! g = Some r ∧ 0 < r) ∧
  fits limits (decrement g room) types choice.
Proof.
  unfold fits. rewrite Forall2_cons. split.
  - intros [[(l & Hl & Ht) Hf] Hr]. destruct (Hr g) as (r & Er & Hu); [set_solver|].
    rewrite uses_cons, Nat.eqb_refl in Hu. split; [exists l, r; split_and!; [done..|unfold uses in Hu; lia]|].
    split; [done|]. intros h Hh. destruct (Hr h) as (r' & Er' & Hu'); [set_solver|].
    rewrite decrement_lookup, Er'. rewrite uses_cons in Hu'. destruct (Nat.eqb_spec g h) as [->|Hne].
    + rewrite Nat.eqb_refl in Hu'. exists (Z.pred r'). split; [done|lia].
    + exists r'. rewrite (proj2 (Nat.eqb_neq h g)) in Hu' by done. split; [done|lia].
  - intros [(l & r & Hl & Ht & Er & Hpos) [Hf Hr]]. split; [by eauto|]. intros h Hh.
    destruct (decide (h ∈ choice)) as [Hin|Hin].
    + destruct (Hr h Hin) as (r' & Er' & Hu'). rewrite decrement_lookup in Er'. rewrite uses_cons.
      destruct (Nat.eqb_spec g h) as [->|Hne].
      * rewrite Er in Er'. simplify_eq/=. rewrite Nat.eqb_refl. exists r. split; [done|lia].
      * rewrite (proj2 (Nat.eqb_neq h g)) by done. exists r'. split; [done|lia].
    + assert (h = g) as -> by set_solver. exists r. split; [done|]. rewrite uses_cons, Nat.eqb_refl.
      rewrite uses_pos in Hin. unfold uses in *. lia.
Qed.

Lemma elem_of_numbered {A} (l : list A) g x : (g, x) ∈ zip (seq 0 (length l)) l ↔ l !! g = Some x.
Proof.
  assert (H : ∀ n, (g, x) ∈ zip (seq n (length l)) l ↔ ∃ i, g = (n + i)%nat ∧ l !! i = Some x).
  { induction l as [|y l IH]; intros n; simpl; [rewrite elem_of_nil; naive_solver|].
    rewrite elem_of_cons, IH. split.
    - intros [[= -> ->]|(i & -> & Hi)]; [exists 0%nat|exists (S i)]; split; try done; lia.
    - intros ([|i] & -> & Hi); simpl in Hi; [left|right; exists i]; [by simplify_eq; f_equal; lia|split; [lia|done]]. }
  rewrite H. split; [by intros (i & -> & Hi)|]. intros Hg. by exists g.
Qed.

Lemma assign_spec limits types room : assign limits types room = true ↔ ∃ choice, fits limits room types choice.
Proof.
  revert room. induction types as [|t types IH]; intros room; simpl.
  { split; [|done]. intros _. exists []. split; [constructor|]. by intros g []%elem_of_nil. }
  rewrite existsb_exists. split.
  - intros ([g l] & Hin & Hg). apply list_elem_of_In, elem_of_numbered in Hin.
    destruct (room !! g) as [r|] eqn:Er; [|done]. breflect. apply IH in H0 as [choice Hc].
    exists (g :: choice). apply fits_cons. split; [|done]. exists l, r. auto.
  - intros [choice Hc]. destruct choice as [|g choice]; [by destruct Hc as [Hf _]; inversion Hf|].
    apply fits_cons in Hc as [(l & r & Hl & Ht & Er & Hr) Hc]. exists (g, l).
    split; [by apply list_elem_of_In, elem_of_numbered|]. rewrite Er, Ht, (proj2 (Z.ltb_lt _ _) Hr). simpl.
    apply IH. by exists choice.
Qed.

(** A combination allows a set of interfaces exactly when they can be
    laid out in it: within its total, each type in a group that lists it, no
    group over its limit. The backtracking search misses no layout. *)
Theorem Allows_exact c types :
  Allows c types = true ↔
  types = [] ∨
  (0 < Total c → Z.of_nat (length types) ≤ Total c) ∧ ∃ choice, fits (Limits c) (Max <$> Limits c) types choice.
Proof.
  unfold Allows. rewrite length_zero. case_bool_decide as Ht; [naive_solver|].
  rewrite <- assign_spec. destruct (0 <? Total c) eqn:E1, (Total c <? Z.of_nat (length types)) eqn:E2; simpl; breflect;
    naive_solver lia.
Qed.

(** ** Two machines *)

Module Machines.

Definition freq (mhz ch : Z) : Frequency := MkFreq mhz ch 2000 false false false.
Definition radar (mhz ch : Z) : Frequency := MkFreq mhz ch 2000 false false true.

Definition both : Combination :=
  MkCombination "" [MkLimit 1 ["managed"]; MkLimit 1 ["AP"; "P2P-GO"]]%string 2 1 [].

Definition radio (combos : list Combination) : Phy :=
  MkPhy "phy0" 0 ["managed"; "AP"]%string [] combos
    [MkBand 1 [freq 2412 1; freq 2437 6]; MkBand 2 [radar 5260 52; freq 5180 36]].

Definition station : WirelessIface :=
  MkWireless "wlan0" "phy0" "managed" "house" 6 2437 "" ManagedByNetworkManager true true.

(** A wired machine whose radio is joined to a network of its own. *)
Definition wired (combos : list Combination) : Facts :=
  MkFacts
    [MkLink "eth0" "UP" [MkPrefix (quad 192 168 1 10) 24] "";
     MkLink "wlan0" "UP" [MkPrefix (quad 10 83 51 222) 24] ""]
    [MkRoute 4 (A4 0xc0a80101) "eth0" NoAddr "dhcp" 100 false false]
    [station] [radio combos] [] false true ∅ 0.

Definition servers : list Addr := [quad 203 0 113 7].

Lemma wired_ok combos : facts_ok (wired combos).
Proof.
  split.
  - intros l q [->|[->|[]%elem_of_nil]%elem_of_cons]%elem_of_cons Hq; apply list_elem_of_singleton in Hq as ->; simpl; lia.
  - intros r ->%list_elem_of_singleton. simpl. lia.
Qed.

Lemma defaults_ok : options_ok DefaultOptions.
Proof. split; [|split]; [..|done]; repeat (constructor; [split; [reflexivity|unfold addr_ok, quad; simpl; lia]|]); constructor. Qed.

(** The same machine with its station on channel 36, and a user who asks for
    a hotspot on 5 GHz. *)
Definition wired_5GHz : Facts :=
  MkFacts (Links (wired [both])) (Routes (wired [both]))
    [MkWireless "wlan0" "phy0" "managed" "house" 36 5180 "" ManagedByNetworkManager true true]
    [radio [both]] [] false true ∅ 0.

Definition want_5GHz : Options :=
  let o := DefaultOptions in
  MkOptions (oPlatform o) (TunName o) (HotspotPool o) (TunnelPool o) (oHotspotSubnet o) (UplinkOverride o)
    (HotspotOverride o) Band5GHz (APIfaceName o) (Table o) (RulePrio o) (FwMark o) (DNSPort o) (PanelPort o)
    (oSystemSOCKS o) (Strategy o) (IPv6 o) (Egress o) (ClientIsolation o) (MasqueradeToTunnel o) (RPFilter o).

(** The link is ended, and it is not the uplink. *)
Lemma hotspot_never_uplink_witness :
  ∃ p, PlanNetwork (wired []) servers DefaultOptions = Ok p ∧ HotspotTakenOver (hot p) = true ∧
       Hotspot (hot p) ≠ Uplink p.
Proof.
  eexists. split; [vm_compute; reflexivity|]. split; [reflexivity|].
  apply (hotspot_never_uplink (wired []) servers DefaultOptions); vm_compute; reflexivity.
Defined.

Lemma chooseHotspot_costs_least_witness :
  ∃ h, chooseHotspot (wired []) "eth0" DefaultOptions = Ok h ∧ HotspotTakenOver h = true ∧
       ∃ c, acceptHotspot "eth0" c DefaultOptions = Ok h.
Proof.
  pose proof (chooseHotspot_costs_least (wired []) "eth0" DefaultOptions eq_refl ltac:(discriminate)) as H.
  destruct (chooseHotspot (wired []) "eth0" DefaultOptions) as [h|e] eqn:E; [|vm_compute in E; discriminate].
  exists h. split; [done|]. split; [vm_compute in E; by injection E as <-|].
  destruct H as (c & _ & Hc & _). by exists c.
Defined.

Lemma plan_addresses_collision_free_witness :
  ∃ p, PlanNetwork (wired [both]) servers DefaultOptions = Ok p ∧
       HotspotSubnet p = MkPrefix (quad 10 174 29 0) 24 ∧ disjoint (TunSubnet p) (HotspotSubnet p).
Proof.
  eexists. split; [vm_compute; reflexivity|]. split; [vm_compute; reflexivity|].
  eapply (plan_addresses_collision_free (wired [both]) servers DefaultOptions);
    [vm_compute; reflexivity|apply wired_ok|apply defaults_ok].
Defined.

(** The station pins the access point to its channel. *)
Lemma plan_channel_lawful_witness :
  ∃ p w, PlanNetwork (wired [both]) servers DefaultOptions = Ok p ∧ ChannelPinned (hot p) = true ∧
       StationLink w = true ∧ Channel (hot p) = w_channel w.
Proof.
  eexists. destruct (plan_channel_lawful (wired [both]) servers DefaultOptions) with
    (1 := ltac:(vm_compute; reflexivity) : PlanNetwork (wired [both]) servers DefaultOptions = Ok _)
    as (phy & _ & _ & _ & _ & H).
  destruct (H eq_refl) as (w & _ & _ & H1 & H2 & _). exists w. split; [vm_compute; reflexivity|].
  split; [reflexivity|]. split; [exact H1|exact H2].
Defined.

(** The fallback does not keep the promise about the band. There is a
    machine on which 5 GHz is asked for and planned, and on which the plan that
    takes over after the creation of the interface failed puts the access point
    on a 2.4 GHz channel: HotspotTakeover takes the lowest usable channel of the
    radio whatever band was requested. *)
Theorem takeover_forgets_band :
  ∃ f servers o p q phy,
    HotspotBand (effective o) = Band5GHz ∧
    PlanNetwork f servers o = Ok p ∧ phy ∈ Phys f ∧ phy_name phy = HotspotPhy (hot p) ∧
    BandOfChannel phy (Channel (hot p)) = Band5GHz ∧ UsableChannelsIn phy Band5GHz ≠ [] ∧
    HotspotTakeover p f = Ok q ∧ BandOfChannel phy (Channel (hot q)) = Band2GHz.
Proof.
  exists wired_5GHz, servers, want_5GHz. eexists. eexists. exists (radio [both]).
  split; [reflexivity|]. split; [vm_compute; reflexivity|]. split; [by apply list_elem_of_singleton|].
  split; [reflexivity|]. split; [reflexivity|]. split; [discriminate|].
  split; [vm_compute; reflexivity|reflexivity].
Qed.

End Machines.
