(* ===== verification/Nft.v ===== *)
(** * The firewall (internal/netcfg/nftables.go)

    The generated nftables ruleset: its chains as data, the text nft loads
    printed from them line by line, and what the chains decide about a packet.
    In the literals of this file a caret stands for a double quote. *)

From S2P Require Import Prelude GoStrings Command Netip Subnet Facts Plan.

Local Open Scope string_scope.

(** ** Rules *)

Inductive proto := Tcp | Udp.

#[export] Instance proto_eq_dec : EqDecision proto.
Proof. solve_decision. Defined.

Inductive cond :=
| iifname (name : string)
| oifname (name : string)
| ct_state (states : list string)
| nfproto (version : Z)
| dport (pr : proto) (port : Z)
| sport (pr : proto) (port : Z)
| ip_saddr (p : Prefix)
| ip_daddr (p : Prefix)
| ip_daddr_host (a : Addr)
| ip6_daddr_host (a : Addr)
| icmp_type (t : string)
| icmpv6_type (t : string)
| icmpv6_type_in (ts : list string).

Inductive verdict := Accept | Drop | RejectReset | Redirect (port : Z) | Masquerade.

#[export] Instance verdict_eq_dec : EqDecision verdict.
Proof. solve_decision. Defined.

(** A line of a chain: empty, a comment, or a rule with its comment ("" for
    none). *)
Inductive line :=
| Blank
| Com (text : string)
| R (conds : list cond) (v : verdict) (comment : string).

(** A base chain; the hook has the chain's name. *)
Record chain := MkChain {
  ch_name : string;
  ch_type : string;
  ch_priority : string;
  ch_policy : verdict;
  ch_body : list line
}.

(** ** Text *)

Fixpoint txt (s : string) : string :=
  match s with
  | EmptyString => EmptyString
  | String c s => String (if (c =? "^")%char then dquote else c) (txt s)
  end.

Definition nl : string := String "010" "".
Definition tab : string := String "009" "".

Definition proto_text (pr : proto) : string := match pr with Tcp => "tcp" | Udp => "udp" end.

Definition cond_text (c : cond) : string :=
  match c with
  | iifname n => "iifname " ++ Quote n
  | oifname n => "oifname " ++ Quote n
  | ct_state ss => "ct state " ++ Join ss ","
  | nfproto v => "meta nfproto ipv" ++ Itoa v
  | dport pr n => proto_text pr ++ " dport " ++ Itoa n
  | sport pr n => proto_text pr ++ " sport " ++ Itoa n
  | ip_saddr p => "ip saddr " ++ prefix_String p
  | ip_daddr p => "ip daddr " ++ prefix_String p
  | ip_daddr_host a => "ip daddr " ++ addr_String a
  | ip6_daddr_host a => "ip6 daddr " ++ addr_String a
  | icmp_type t => "icmp type " ++ t
  | icmpv6_type t => "icmpv6 type " ++ t
  | icmpv6_type_in ts => "icmpv6 type { " ++ Join ts ", " ++ " }"
  end.

Definition verdict_text (v : verdict) : string :=
  match v with
  | Accept => "accept"
  | Drop => "drop"
  | RejectReset => "reject with tcp reset"
  | Redirect n => "redirect to :" ++ Itoa n
  | Masquerade => "masquerade"
  end.

Definition line_text (l : line) : string :=
  match l with
  | Blank => nl
  | Com s => tab ++ tab ++ txt s ++ nl
  | R cs v c =>
      tab ++ tab ++ Join ((cond_text <$> cs) ++ [verdict_text v])%list " " ++
      (if c =? "" then "" else " comment " ++ Quote c) ++ nl
  end.

Definition concat_text (l : list string) : string := String.concat "" l.

Definition chain_text (c : chain) : string :=
  tab ++ "chain " ++ ch_name c ++ " {" ++ nl ++
  tab ++ tab ++ "type " ++ ch_type c ++ " hook " ++ ch_name c ++ " priority " ++ ch_priority c ++
  "; policy " ++ verdict_text (ch_policy c) ++ ";" ++ nl ++ nl ++
  concat_text (line_text <$> ch_body c) ++
  tab ++ "}" ++ nl.

(** ** The chains *)

Definition TableName : string := "caspian".

Section Chains.
Context (p : Plan).
Local Abbreviation hot := (Hotspot (hot p)).
Local Abbreviation up := (Uplink p).
Local Abbreviation tun := (Tun p).
Local Abbreviation o := (Opts p).

Definition input_chain : chain := MkChain "input" "filter" "filter" Accept
  [Com "# THE POLICY IS ACCEPT, DELIBERATELY, AND THIS IS THE PART TO READ";
   Com "# BEFORE CHANGING ANYTHING IN THIS CHAIN.";
   Com "#";
   Com "# This appliance controls FORWARDED client traffic. It does not decide";
   Com "# what the owner may run on their own machine, and it does not close";
   Com "# their administrative access to it.";
   Com "#";
   Com "# An earlier version had policy drop and accepted nothing arriving on";
   Com ("# " ++ up ++ ". Measured on the target on 2026-08-30: the moment it loaded,");
   Com "# every NEW inbound connection to the box was dropped and SSH stopped";
   Com "# answering. Existing connections kept working, because of the";
   Com "# conntrack rule that used to sit here, so the box looked healthy from";
   Com "# the session that was already open while being unreachable to every";
   Com "# new one. On a headless machine in another room that is indistinguishable";
   Com "# from a crash, and the remaining recovery is a power cycle and a card";
   Com "# reader.";
   Com "#";
   Com "# Accepting here does NOT weaken a host firewall the owner installs.";
   Com "# Every base chain registered at this hook is traversed, so a drop in";
   Com "# their own table still drops. This policy only stops THIS program";
   Com "# from installing a host firewall nobody asked it for.";
   Com "#";
   Com "# What is still guarded is the hotspot, where the untrusted devices";
   Com "# are. A joined device reaches the services this box offers it and";
   Com "# nothing else.";
   Blank;
   Com "# Before the conntrack check, so loopback is never subject to a";
   Com "# conntrack edge case.";
   R [iifname "lo"] Accept "";
   R [ct_state ["invalid"]] Drop "malformed or out-of-state, not new inbound";
   Blank;
   Com "# The tunnel device. Redundant under an accept policy and kept";
   Com "# explicit: the design calls for an INPUT permit for it, and it is";
   Com "# what would carry the engine's own traffic if this policy were ever";
   Com "# tightened.";
   R [iifname tun] Accept "tunnel: a router's own traffic is INPUT, not FORWARD";
   Blank;
   Com "# The hotspot side, and the only place this chain restricts anything.";
   Com "# These are the services the box actually serves to joined devices.";
   R [iifname hot; ct_state ["established"; "related"]] Accept "";
   R [iifname hot; dport Udp 67] Accept "DHCP server for clients";
   R [iifname hot; dport Udp (DNSPort o)] Accept "client DNS, after the prerouting redirect";
   R [iifname hot; dport Tcp (DNSPort o)] Accept "client DNS over TCP";
   R [iifname hot; dport Tcp (PanelPort o)] Accept "panel";
   R [nfproto 4; iifname hot; icmp_type "echo-request"] Accept "";
   R [iifname hot] Drop "a joined device reaches nothing else on this box"].

(** The way out and back, or the cut. *)
Definition forward_tail (state : ForwardState) : list line :=
  match state with
  | ForwardCut =>
  [Com "# CLIENT TRAFFIC IS CUT.";
   Com "#";
   Com "# The user asked for client traffic to stop without switching the";
   Com "# appliance off, which would take the hotspot down and disconnect";
   Com "# every joined device including the one they are holding.";
   Com "#";
   Com "# This rule is explicit rather than left to the policy above, so an";
   Com "# operator reading ^nft list ruleset^ sees a reason and not an";
   Com "# absence. The hotspot, DHCP, DNS and the panel keep working: all of";
   Com "# those are INPUT to this box and its OUTPUT replies, and none of";
   Com "# them is FORWARD.";
   Com "#";
   Com "# Nothing persists this. The ruleset is regenerated on every start,";
   Com "# so a restart returns to forwarding.";
   R [iifname hot] Drop "client traffic cut by the user"]
  | ForwardNormal =>
  ([Com "# The only way out for a client, and the only way back in. Both name";
   Com "# the tunnel, so both stop matching when it is gone, leaving the policy";
   Com "# above to drop everything.";
   R [nfproto 4; iifname hot; oifname tun; ip_saddr (HotspotSubnet p)] Accept "";
   R [nfproto 4; iifname tun; oifname hot; ip_daddr (HotspotSubnet p)] Accept ""] ++
   match IPv6 o with
   | IPv6Forward =>
  [Com "# IPv6Forward emits no accept here: there is no v6 prefix to";
   Com "# constrain one to, so the drop policy above stands for IPv6."]
   | IPv6Block => []
   end)%list
  end.

Definition forward_chain (state : ForwardState) : chain := MkChain "forward" "filter" "filter" Drop
  ([Com "# THE LEAK BLOCK, and the reason this whole file exists.";
   Com "# When the tunnel device disappears the kernel withdraws every route";
   Com "# through it and client traffic falls back to the main table and out of";
   Com "# the uplink, so ^the engine stopped^ leaks by default instead of";
   Com "# stopping. This rule names only the hotspot and the uplink, so the";
   Com "# tunnel's absence cannot affect it, and it is first so that nothing";
   Com "# added below can precede it.";
   R [iifname hot; oifname up] Drop "fail-closed: client traffic never leaves by the uplink";
   Blank] ++
   match IPv6 o with
   | IPv6Block =>
  [Com "# There is no IPv6 tunnel. A client with a working IPv6 path prefers";
   Com "# it over IPv4 and would bypass the tunnel entirely.";
   R [nfproto 6; iifname hot] Drop "no IPv6 tunnel: clients get no IPv6";
   R [nfproto 6; oifname hot] Drop "";
   Blank]
   | IPv6Forward => []
   end ++
  [Com "# DNS over TLS and DNS over QUIC would carry a client's queries past the";
   Com "# resolver on this box. Rejecting 853 makes a client fall back to port";
   Com "# 53, which prerouting redirects. DNS over HTTPS on 443 is not";
   Com "# distinguishable from other HTTPS and is carried through the tunnel";
   Com "# like anything else, which is a limit of this design and not an";
   Com "# oversight.";
   R [iifname hot; dport Tcp 853] RejectReset "DNS over TLS";
   R [iifname hot; dport Udp 853] Drop "DNS over QUIC";
   Blank] ++
   (if ClientIsolation o then [R [iifname hot; oifname hot] Drop "client isolation";
   Blank] else []) ++
   [R [ct_state ["invalid"]] Drop "";
   Blank] ++
   forward_tail state)%list.

Definition server_rule (sa : Addr) : line :=
  if Is6 sa then R [ip6_daddr_host sa] Accept "the proxy server"
  else R [ip_daddr_host sa] Accept "the proxy server".

Definition writeRestrictedOutput : list line :=
  ([Com "# THE KILL SWITCH COVERS THIS BOX TOO.";
   Com "#";
   Com "# Everything the Pi sends that is not named below is dropped while the";
   Com "# appliance is on. That includes apt: ^apt update^ from a shell on this";
   Com "# box will fail until the appliance is switched off. That cost is known";
   Com "# and was accepted; it is not a fault to be worked around by widening";
   Com "# this list.";
   Com "#";
   Com "# Residual worth knowing: DNS below is a hole. Anything on this box can";
   Com "# still reach the network on port 53, and the server's hostname is";
   Com "# resolved in the clear on the local network before any tunnel exists.";
   Com "# Neither is a leak of client traffic and neither is made worse here.";
   Blank;
   Com "# FIRST, and it has to be first. Every outbound reply to an inbound";
   Com "# connection is here, including the administrator's SSH session. A drop";
   Com "# policy without this line kills that session the moment it loads.";
   R [ct_state ["established"; "related"]] Accept "";
   R [oifname "lo"] Accept "";
   R [oifname tun] Accept "tunnel: a router's own traffic is OUTPUT, not FORWARD";
   Blank;
   Com "# Never advertise an IPv6 prefix to clients while there is no IPv6";
   Com "# tunnel. Redundant under the drop policy above and kept explicit";
   Com "# because it is load-bearing if that policy is ever loosened.";
   R [oifname hot; icmpv6_type "nd-router-advert"] Drop "";
   Blank;
   Com "# DHCP, in BOTH directions, and the asymmetry with DNS below is the";
   Com "# point rather than an oversight.";
   Com "#";
   Com "# As a CLIENT: measured on the target, NetworkManager holds a DHCP";
   Com "# socket per interface. Blocking this costs the box its address at the";
   Com "# next renewal, hours after the rule loads, with nothing to connect the";
   Com "# two events.";
   Com "#";
   Com "# As a SERVER on the hotspot: these replies are NOT covered by the";
   Com "# established rule above, because a DHCP reply goes to a broadcast";
   Com "# address or to a client that has no address yet, so the request and the";
   Com "# reply share no tuple for conntrack to match. Without this line the";
   Com "# hotspot beacons, devices associate, and not one of them gets an";
   Com "# address, which looks like a broken radio rather than a firewall.";
   Com "#";
   Com "# DNS needs no such line: a client's query creates the conntrack entry";
   Com "# and the answer matches its reply direction. That is the difference.";
   R [sport Udp 68; dport Udp 67] Accept "DHCP client: renew this box's own lease";
   R [sport Udp 67; dport Udp 68] Accept "DHCP server: answer joined devices";
   Blank;
   Com "# systemd-timesyncd. Measured active on the target with NTP=yes. A";
   Com "# drifted clock fails REALITY and TLS in a way that reads as a rejected";
   Com "# configuration, so the symptom points at the user's config rather than";
   Com "# at this rule.";
   R [dport Udp 123] Accept "NTP";
   Blank;
   Com "# DNS. The box resolves the server's hostname, and timesyncd resolves";
   Com "# its pool names. See the residual in the header.";
   R [dport Udp 53] Accept "";
   R [dport Tcp 53] Accept "";
   Blank;
   Com "# The engine's own connection to the server, by ADDRESS and not by";
   Com "# port. Some transports are UDP on 443, so a TCP-only permit would";
   Com "# break them silently. This is the same address the plan pins a host";
   Com "# route to, for the same reason: it is the one connection that must";
   Com "# reach the uplink directly or there is no tunnel at all."] ++
   match ServerAddr p with [] => [Com "# (no server address in this plan)"] | _ => [] end ++
   (server_rule <$> ServerAddr p) ++
   [Blank;
   Com "# IPv6 does not work at all without neighbour discovery, and an inet";
   Com "# table's output chain filters IPv6. Blocking this breaks the box's";
   Com "# own IPv6 silently. It costs nothing: these are link-local and cannot";
   Com "# carry a client's traffic. Router advertisement is deliberately not in";
   Com "# the set; the rule above drops it on the hotspot.";
   R [nfproto 6; icmpv6_type_in ["nd-neighbor-solicit"; "nd-neighbor-advert"; "nd-router-solicit"; "destination-unreachable"; "packet-too-big"; "time-exceeded"; "parameter-problem"]] Accept "";
   Blank;
   Com "# Deliberately absent: mDNS and the IGMP membership reports avahi sends";
   Com "# for 224.0.0.251. avahi will not reach the network. Nothing this";
   Com "# product does needs it, and that is a decision rather than an";
   Com "# oversight."])%list.

Definition output_chain : chain :=
  match Egress o with
  | EgressOpen => MkChain "output" "filter" "filter" Accept
  [Com "# Stated explicitly, and accept rather than drop. The box's own traffic";
   Com "# is outside the fail-closed guarantee, because the engine has to reach";
   Com "# the server through the uplink for the tunnel to exist at all. The";
   Com "# promise this ruleset makes covers forwarded client traffic only.";
   Com "#";
   Com "# This is EgressOpen, which is not the default. It exists as the way";
   Com "# back for a user on a network nobody thought about, without a rebuild.";
   R [oifname tun] Accept "tunnel: a router's own traffic is OUTPUT, not FORWARD";
   Blank;
   Com "# Never advertise an IPv6 prefix to clients while there is no IPv6";
   Com "# tunnel: an autoconfigured client would prefer v6 and bypass it.";
   R [oifname hot; icmpv6_type "nd-router-advert"] Drop ""]
  | EgressRestricted => MkChain "output" "filter" "filter" Drop writeRestrictedOutput
  end.

Definition prerouting_chain : chain := MkChain "prerouting" "nat" "dstnat" Accept
  [Com "# Redirected, not merely permitted. A client with a resolver hardcoded";
   Com "# into it must be answered by this box rather than allowed out to reach";
   Com "# the one it was told to use: redirect rewrites the destination address";
   Com "# to this box, so the query is answered here whatever it was aimed at.";
   R [iifname hot; dport Udp 53] (Redirect (DNSPort o)) "";
   R [iifname hot; dport Tcp 53] (Redirect (DNSPort o)) ""].

Definition postrouting_chain : chain := MkChain "postrouting" "nat" "srcnat" Accept
  (if MasqueradeToTunnel o then [R [oifname tun] Masquerade "enabled by configuration"]
   else
  [Com "# Deliberately empty.";
   Com ("# No masquerade towards " ++ up ++ ": source NAT there is the leak this whole");
   Com "# ruleset exists to prevent, and it is the single line that would";
   Com "# quietly turn the appliance into an ordinary router.";
   Com ("# No masquerade towards " ++ tun ++ " either: that device is a userspace netstack");
   Com "# which terminates TCP and UDP flows and dials out itself, so a";
   Com "# client's source address never reaches the wire and there is nothing";
   Com "# to translate. Options.MasqueradeToTunnel turns it on for the case";
   Com "# where the tunnel is a real layer 3 interface."]).

Definition chains (state : ForwardState) : list chain :=
  [input_chain; forward_chain state; output_chain; prerouting_chain; postrouting_chain].

(** The comment at the top. *)
Definition ruleset_header (state : ForwardState) : list string :=
  (["# Caspian-BYOC generated firewall ruleset. Do not edit by hand:";
    "# it is regenerated and replaced atomically on every start.";
    "#";
    ("# uplink=" ++ up ++ " hotspot=" ++ hot ++ " tunnel=" ++ tun ++
      " hotspot-subnet=" ++ prefix_String (HotspotSubnet p))%string;
    ("# egress=" ++ match Egress o with EgressOpen => "open" | EgressRestricted => "restricted" end ++
      " forward=" ++ match state with ForwardCut => "CUT by the user" | ForwardNormal => "normal" end)%string] ++
   match Egress o with
   | EgressRestricted =>
       ["#";
        "# egress=restricted means this box's OWN outbound traffic is dropped";
        txt "# unless the output chain names it. ^apt update^ from a shell here will";
        "# fail while the appliance is on. That is intended and was accepted."]
   | EgressOpen => []
   end ++
   ["#";
    "# Every interface match below is by NAME and never by index. Index matching";
    ("# is resolved when the ruleset loads, so a ruleset naming " ++ tun ++ " by index cannot")%string;
    "# be loaded while the tunnel is down, and that is exactly when it has to be";
    "# in force. Name matching is resolved per packet and loads with no tunnel."])%list.

Definition RulesetFor (state : ForwardState) : string :=
  concat_text ((λ s, s ++ nl) <$> ruleset_header state) ++ nl ++
  "table inet " ++ TableName ++ nl ++
  "delete table inet " ++ TableName ++ nl ++ nl ++
  "table inet " ++ TableName ++ " {" ++ nl ++
  Join (chain_text <$> chains state) nl ++
  "}" ++ nl.

Definition Ruleset : string := RulesetFor ForwardNormal.

Definition RulesetTeardown : string :=
  "# Caspian-BYOC firewall teardown. The bare declaration makes the delete" ++ nl ++
  "# idempotent: it creates the table if it is absent so that removing it" ++ nl ++
  "# always succeeds, including on a machine where nothing was ever loaded." ++ nl ++
  "table inet " ++ TableName ++ nl ++ "delete table inet " ++ TableName ++ nl.

End Chains.

(** ** What a chain decides

    As nft(8) documents it: the rules of a base chain are tried in order, a
    rule applies when all its expressions match, the verdicts used here end the
    chain, and the policy decides a packet no rule applied to. An expression on
    a protocol's field implies that protocol; interface names are compared per
    packet. *)

Inductive l4 :=
| Segment (src dst : Z)
| Datagram (src dst : Z)
| Icmp (t : string)
| Icmpv6 (t : string)
| OtherL4.

(** A packet at a hook. [pk_iif] is "" where there is no interface it came in
    on, [pk_oif] where there is none it leaves by. *)
Record packet := MkPacket {
  pk_iif : string;
  pk_oif : string;
  pk_version : Z;
  pk_saddr : Addr;
  pk_daddr : Addr;
  pk_l4 : l4;
  pk_ct : string
}.

(** Source and destination port, for the protocol. *)
Definition ports (pr : proto) (pk : packet) : option (Z * Z) :=
  match pr, pk_l4 pk with
  | Tcp, Segment s d => Some (s, d)
  | Udp, Datagram s d => Some (s, d)
  | _, _ => None
  end.

Definition holds (pk : packet) (c : cond) : bool :=
  match c with
  | iifname n => pk_iif pk =? n
  | oifname n => pk_oif pk =? n
  | ct_state ss => existsb (String.eqb (pk_ct pk)) ss
  | nfproto v => (pk_version pk =? v)%Z
  | dport pr n => match ports pr pk with Some (_, d) => (d =? n)%Z | None => false end
  | sport pr n => match ports pr pk with Some (s, _) => (s =? n)%Z | None => false end
  | ip_saddr p => (pk_version pk =? 4)%Z && Contains_addr p (pk_saddr pk)
  | ip_daddr p => (pk_version pk =? 4)%Z && Contains_addr p (pk_daddr pk)
  | ip_daddr_host a => (pk_version pk =? 4)%Z && bool_decide (pk_daddr pk = a)
  | ip6_daddr_host a => (pk_version pk =? 6)%Z && bool_decide (pk_daddr pk = a)
  | icmp_type t => match pk_l4 pk with Icmp u => u =? t | _ => false end
  | icmpv6_type t => match pk_l4 pk with Icmpv6 u => u =? t | _ => false end
  | icmpv6_type_in ts => match pk_l4 pk with Icmpv6 u => existsb (String.eqb u) ts | _ => false end
  end.

(** The first rule all of whose conditions hold decides. *)
Fixpoint first_match (pk : packet) (ls : list line) : option verdict :=
  match ls with
  | [] => None
  | R cs v _ :: ls => if forallb (holds pk) cs then Some v else first_match pk ls
  | _ :: ls => first_match pk ls
  end.

Definition decision (c : chain) (pk : packet) : verdict :=
  match first_match pk (ch_body c) with Some v => v | None => ch_policy c end.
