(* ===== verification/NftFacts.v ===== *)
(** * What the firewall lets through

    Exact characterisations of the forward chain and of what a joined device
    reaches on the machine, the kill switch on the machine's own traffic, and
    that the printed text is the one the repository's golden files record. *)

From S2P Require Import Prelude GoStrings Sha256 Command Netip Subnet Facts Plan Nft.

Local Open Scope string_scope.

(** ** Conditions *)

(** The packet goes to the port of the protocol. *)
Definition to_port (pk : packet) (pr : proto) (n : Z) : Prop := ∃ s, ports pr pk = Some (s, n).

Lemma holds_dport pk pr n : holds pk (dport pr n) = true ↔ to_port pk pr n.
Proof.
  unfold to_port. simpl. destruct (ports pr pk) as [[s d]|]; [|naive_solver].
  rewrite Z.eqb_eq. naive_solver.
Qed.

Lemma holds_dport_false pk pr n : holds pk (dport pr n) = false ↔ ¬ to_port pk pr n.
Proof. rewrite <- holds_dport. by destruct (holds _ _). Qed.

(** The connection the packet belongs to is already known. *)
Definition known (pk : packet) : Prop := pk_ct pk = "established" ∨ pk_ct pk = "related".

Lemma holds_known pk : holds pk (ct_state ["established"; "related"]) = true ↔ known pk.
Proof. unfold known. simpl. rewrite orb_false_r, orb_true_iff, !String.eqb_eq. done. Qed.

Lemma holds_known_false pk : holds pk (ct_state ["established"; "related"]) = false ↔ ¬ known pk.
Proof. rewrite <- holds_known. by destruct (holds _ _). Qed.

Lemma holds_invalid pk : holds pk (ct_state ["invalid"]) = true ↔ pk_ct pk = "invalid".
Proof. simpl. by rewrite orb_false_r, String.eqb_eq. Qed.

Lemma holds_iif pk n : holds pk (iifname n) = true ↔ pk_iif pk = n.
Proof. apply String.eqb_eq. Qed.

Lemma holds_oif pk n : holds pk (oifname n) = true ↔ pk_oif pk = n.
Proof. apply String.eqb_eq. Qed.

Lemma holds_version pk v : holds pk (nfproto v) = true ↔ pk_version pk = v.
Proof. apply Z.eqb_eq. Qed.

(** Walk down a chain whose claim is about the same conditions: decide them in
    the order of the rules until the claim is propositional. *)
Ltac decide_chain :=
  repeat (cbn [andb];
    match goal with
    | |- context [if holds ?pk ?c then _ else _] => destruct (holds pk c)
    | |- context [if holds ?pk ?c && _ then _ else _] => destruct (holds pk c)
    end);
  cbn [andb]; intuition discriminate.

(** ** The forward chain *)

(** The rules of the chain, in order. *)
Lemma forward_decision p state pk :
  let hi := pk_iif pk =? Hotspot (hot p) in
  let ho := pk_oif pk =? Hotspot (hot p) in
  let block6 := match IPv6 (Opts p) with IPv6Block => true | IPv6Forward => false end in
  decision (forward_chain p state) pk =
  if hi && (pk_oif pk =? Uplink p) then Drop
  else if block6 && ((pk_version pk =? 6)%Z && hi) then Drop
  else if block6 && ((pk_version pk =? 6)%Z && ho) then Drop
  else if hi && holds pk (dport Tcp 853) then RejectReset
  else if hi && holds pk (dport Udp 853) then Drop
  else if ClientIsolation (Opts p) && (hi && ho) then Drop
  else if holds pk (ct_state ["invalid"]) then Drop
  else match state with
       | ForwardCut => Drop
       | ForwardNormal =>
           if (pk_version pk =? 4)%Z && (hi && ((pk_oif pk =? Tun p) &&
                ((pk_version pk =? 4)%Z && Contains_addr (HotspotSubnet p) (pk_saddr pk))))
           then Accept
           else if (pk_version pk =? 4)%Z && ((pk_iif pk =? Tun p) && (ho &&
                     ((pk_version pk =? 4)%Z && Contains_addr (HotspotSubnet p) (pk_daddr pk))))
           then Accept
           else Drop
       end.
Proof.
  intros hi ho block6. unfold decision, forward_chain, forward_tail, ch_body, ch_policy, block6.
  destruct (IPv6 (Opts p)), (ClientIsolation (Opts p)), state; cbn [first_match forallb app andb];
    rewrite !andb_true_r; repeat (destruct (_ && _); [reflexivity|]);
    destruct (holds pk (ct_state ["invalid"])); try reflexivity;
    repeat (destruct (_ && _); [reflexivity|]); try reflexivity;
    by destruct (holds pk (iifname (Hotspot (hot p)))).
Qed.

(** C4. What is forwarded, exactly: nothing while client traffic is cut, and
    otherwise an IPv4 packet, not out of state, that either goes from the
    hotspot into the tunnel with a source in the hotspot's subnet and not to
    port 853, or comes back out of the tunnel to the hotspot with a
    destination in that subnet. So nothing a client sends ever leaves by the
    uplink or any interface but the tunnel, whether the tunnel exists or not. *)
Theorem forward_exact p state pk :
  Hotspot (hot p) ≠ Tun p →
  decision (forward_chain p state) pk = Accept ↔
  state = ForwardNormal ∧ pk_version pk = 4%Z ∧ pk_ct pk ≠ "invalid" ∧
  (pk_iif pk = Hotspot (hot p) ∧ pk_oif pk = Tun p ∧ Tun p ≠ Uplink p ∧
     Contains_addr (HotspotSubnet p) (pk_saddr pk) = true ∧ ¬ to_port pk Tcp 853 ∧ ¬ to_port pk Udp 853 ∨
   pk_iif pk = Tun p ∧ pk_oif pk = Hotspot (hot p) ∧ Contains_addr (HotspotSubnet p) (pk_daddr pk) = true).
Proof.
  intros Hne. rewrite forward_decision, <- !holds_dport_false. cbv zeta.
  generalize (match IPv6 (Opts p) with IPv6Block => true | IPv6Forward => false end) as b6. intros b6. split.
  - intros H. repeat (destruct_match_in H; try done); breflect; (split; [done|]); (split; [congruence|]);
      (split; [by intros Hx; apply holds_invalid in Hx; congruence|]).
    + left. split_and!; try done; try congruence.
      * intros Hx. match goal with H : (_ =? _) && (_ =? _) = false |- _ => revert H end.
        rewrite !(proj2 (String.eqb_eq _ _)) by congruence. done.
      * match goal with H : (_ =? _) && holds pk (dport Tcp 853) = false |- _ => revert H end.
        rewrite (proj2 (String.eqb_eq _ _)) by done. done.
      * match goal with H : (_ =? _) && holds pk (dport Udp 853) = false |- _ => revert H end.
        rewrite (proj2 (String.eqb_eq _ _)) by done. done.
    + right. done.
  - intros (-> & Hv & Hct & H). rewrite Hv.
    assert (Hinv : holds pk (ct_state ["invalid"]) = false)
      by (apply not_true_iff_false; by rewrite holds_invalid).
    destruct H as [(Ei & Eo & Hu & Hs & H1 & H2)|(Ei & Eo & Hd)]; rewrite Ei, Eo, Hinv, ?Hs, ?H1, ?H2, ?Hd.
    + rewrite String.eqb_refl, (proj2 (String.eqb_neq _ _) Hu), (proj2 (String.eqb_neq (Tun p) _)) by done.
      by rewrite String.eqb_refl, !andb_false_r.
    + rewrite !String.eqb_refl, (proj2 (String.eqb_neq (Tun p) _)) by done. simpl. by rewrite !andb_false_r.
Qed.

(** ** The machine's own traffic *)

Lemma first_match_app pk l1 l2 :
  first_match pk (l1 ++ l2)%list = match first_match pk l1 with Some v => Some v | None => first_match pk l2 end.
Proof. induction l1 as [|[| |cs v c] l1 IH]; simpl; [done..|]. by destruct (forallb _ _). Qed.

(** What the machine offers to a joined device. *)
Definition offered (p : Plan) (pk : packet) : Prop :=
  to_port pk Udp 67 ∨ to_port pk Udp (DNSPort (Opts p)) ∨ to_port pk Tcp (DNSPort (Opts p)) ∨
  to_port pk Tcp (PanelPort (Opts p)) ∨ pk_version pk = 4%Z ∧ pk_l4 pk = Icmp "echo-request".

Lemma holds_icmp pk t : holds pk (icmp_type t) = true ↔ pk_l4 pk = Icmp t.
Proof. simpl. destruct (pk_l4 pk); try done. rewrite String.eqb_eq. naive_solver. Qed.

(** What reaches the machine, exactly: the loopback always; otherwise
    nothing out of state, and from the hotspot only what belongs to a known
    connection, the address server, the resolver, the panel and a ping. From
    every other interface the owner's access is untouched. *)
Theorem input_exact p pk :
  decision (input_chain p) pk = Accept ↔
  pk_iif pk = "lo" ∨
  pk_ct pk ≠ "invalid" ∧ (pk_iif pk = Tun p ∨ pk_iif pk ≠ Hotspot (hot p) ∨ known pk ∨ offered p pk).
Proof.
  unfold decision, input_chain, ch_body, ch_policy, offered. cbn [first_match forallb].
  rewrite <- !holds_dport, <- holds_known, <- holds_invalid, <- holds_icmp, <- holds_version, <- !holds_iif.
  decide_chain.
Qed.

(** A router advertisement to the hotspot. *)
Definition advertisement (p : Plan) (pk : packet) : Prop :=
  pk_oif pk = Hotspot (hot p) ∧ pk_l4 pk = Icmpv6 "nd-router-advert".

Lemma holds_icmpv6 pk t : holds pk (icmpv6_type t) = true ↔ pk_l4 pk = Icmpv6 t.
Proof. simpl. destruct (pk_l4 pk); try done. rewrite String.eqb_eq. naive_solver. Qed.

Lemma holds_sport pk pr n : holds pk (sport pr n) = true ↔ ∃ d, ports pr pk = Some (n, d).
Proof.
  simpl. destruct (ports pr pk) as [[s d]|]; [|naive_solver]. rewrite Z.eqb_eq. naive_solver.
Qed.

Definition neighbour_types : list string :=
  ["nd-neighbor-solicit"; "nd-neighbor-advert"; "nd-router-solicit"; "destination-unreachable";
   "packet-too-big"; "time-exceeded"; "parameter-problem"].

Lemma holds_icmpv6_in pk ts : holds pk (icmpv6_type_in ts) = true ↔ ∃ t, t ∈ ts ∧ pk_l4 pk = Icmpv6 t.
Proof.
  simpl. destruct (pk_l4 pk) as [| | |t|]; try naive_solver. rewrite existsb_exists.
  setoid_rewrite String.eqb_eq. setoid_rewrite <- list_elem_of_In. naive_solver.
Qed.

(** What the machine itself may start while the kill switch is on. *)
Definition permitted (p : Plan) (pk : packet) : Prop :=
  (∃ s d, ports Udp pk = Some (s, d) ∧ ((s = 68 ∧ d = 67) ∨ (s = 67 ∧ d = 68)))%Z ∨
  to_port pk Udp 123 ∨ to_port pk Udp 53 ∨ to_port pk Tcp 53 ∨
  (∃ sa, sa ∈ ServerAddr p ∧ pk_daddr pk = sa ∧ pk_version pk = if Is6 sa then 6%Z else 4%Z) ∨
  (pk_version pk = 6%Z ∧ ∃ t, t ∈ neighbour_types ∧ pk_l4 pk = Icmpv6 t).

(** The rules for the servers accept exactly their addresses. *)
Lemma servers_match pk sas :
  first_match pk (server_rule <$> sas) =
  if existsb (λ sa, (pk_version pk =? if Is6 sa then 6 else 4)%Z && bool_decide (pk_daddr pk = sa)) sas
  then Some Accept else None.
Proof.
  induction sas as [|sa sas IH]; [done|]. cbn [fmap list_fmap existsb]. unfold server_rule at 1.
  destruct (Is6 sa); cbn [first_match forallb holds]; rewrite andb_true_r; destruct (_ && _); done.
Qed.

Lemma servers_accept pk sas :
  existsb (λ sa, (pk_version pk =? if Is6 sa then 6 else 4)%Z && bool_decide (pk_daddr pk = sa)) sas = true ↔
  ∃ sa, sa ∈ sas ∧ pk_daddr pk = sa ∧ pk_version pk = if Is6 sa then 6%Z else 4%Z.
Proof.
  rewrite existsb_exists. setoid_rewrite andb_true_iff. setoid_rewrite Z.eqb_eq. setoid_rewrite bool_decide_eq_true.
  setoid_rewrite <- list_elem_of_In. naive_solver.
Qed.

Lemma dhcp_ports pk :
  (∃ s d, ports Udp pk = Some (s, d) ∧ ((s = 68 ∧ d = 67) ∨ (s = 67 ∧ d = 68)))%Z ↔
  holds pk (sport Udp 68) = true ∧ holds pk (dport Udp 67) = true ∨
  holds pk (sport Udp 67) = true ∧ holds pk (dport Udp 68) = true.
Proof. rewrite !holds_sport, !holds_dport. unfold to_port. naive_solver. Qed.

(** What the machine sends, exactly. With the kill switch on: what
    belongs to a known connection, the loopback and the tunnel; otherwise,
    never a router advertisement to the hotspot, and only DHCP, time, name
    lookups, the proxy server's own addresses and IPv6 neighbour discovery.
    With egress open: everything but that advertisement. *)
Theorem output_exact p pk :
  decision (output_chain p) pk = Accept ↔
  match Egress (Opts p) with
  | EgressRestricted =>
      known pk ∨ pk_oif pk = "lo" ∨ pk_oif pk = Tun p ∨ ¬ advertisement p pk ∧ permitted p pk
  | EgressOpen => pk_oif pk = Tun p ∨ ¬ advertisement p pk
  end.
Proof.
  unfold output_chain, permitted, advertisement. destruct (Egress (Opts p)); unfold decision, ch_body, ch_policy.
  - unfold writeRestrictedOutput. rewrite !first_match_app, servers_match.
    rewrite dhcp_ports, <- servers_accept, <- holds_icmpv6_in, <- !holds_dport, <- holds_known, <- holds_icmpv6,
      <- holds_version, <- !holds_oif. fold neighbour_types.
    generalize (existsb (λ sa, (pk_version pk =? if Is6 sa then 6 else 4)%Z && bool_decide (pk_daddr pk = sa)) (ServerAddr p)).
    intros srv. destruct (ServerAddr p), srv; cbn [first_match forallb]; decide_chain.
  - rewrite <- holds_icmpv6, <- !holds_oif. cbn [first_match forallb]. decide_chain.
Qed.

(** ** The text, against the recorded rulesets *)

Module Golden.

Definition with_egress (e : EgressPolicy) : Options :=
  let o := DefaultOptions in
  MkOptions (oPlatform o) (TunName o) (HotspotPool o) (TunnelPool o) (oHotspotSubnet o) (UplinkOverride o)
    (HotspotOverride o) (HotspotBand o) (APIfaceName o) (Table o) (RulePrio o) (FwMark o) (DNSPort o) (PanelPort o)
    (oSystemSOCKS o) (Strategy o) (IPv6 o) e (ClientIsolation o) (MasqueradeToTunnel o) (RPFilter o).

Definition plan (hotspot : string) (e : EgressPolicy) : Plan :=
  MkPlan PlatformUnset ModeWiredUplink "eth0" (quad 192 168 1 1) false NoAddr ""
    (MkHot hotspot "phy0" false "" "" false ManagedByUnknown 6 false [6%Z] [])
    (MkPrefix (quad 10 83 51 0) 24) (quad 10 83 51 1) false [] "xray0"
    (MkPrefix (quad 198 18 51 0) 30) (quad 198 18 51 1) (quad 198 18 51 2)
    [quad 203 0 113 10] [] [] (with_egress e) [].

Definition digest (s : string) : string := EncodeToString (Sum256 (bytes_of_string s)).

(** testdata/golden-ruleset-mode-a.nft *)
Example mode_a :
  digest (RulesetFor (plan "ap0" EgressRestricted) ForwardNormal) =
  "5af03565cc1ae0db79f04ef7ec1bd31fa40bda5948741d7b45aa076e8605176a".
Proof. vm_compute. reflexivity. Qed.

(** testdata/golden-ruleset-takeover-cut.nft *)
Example takeover_cut :
  digest (RulesetFor (plan "wlan0" EgressRestricted) ForwardCut) =
  "a096849105f4b07716ebb8d3e3e15daf14ff6c6baa8b27565c1ef52c74c48bd0".
Proof. vm_compute. reflexivity. Qed.

(** testdata/golden-ruleset-takeover-egress-open.nft *)
Example takeover_egress_open :
  digest (RulesetFor (plan "wlan0" EgressOpen) ForwardNormal) =
  "b99aae8bb6f1299758fcd9557a760ed6da1ef646143ae16b98b74da325905cd9".
Proof. vm_compute. reflexivity. Qed.

(** A client's packet towards the uplink is not forwarded; one into the tunnel
    is. *)
Definition client_packet (oif : string) : packet :=
  MkPacket "ap0" oif 4 (quad 10 83 51 20) (quad 93 184 216 34) (Segment 40000 443) "new".

Lemma forward_exact_witness :
  decision (forward_chain (plan "ap0" EgressRestricted) ForwardNormal) (client_packet "xray0") = Accept ∧
  decision (forward_chain (plan "ap0" EgressRestricted) ForwardNormal) (client_packet "eth0") ≠ Accept.
Proof.
  split.
  - apply (forward_exact (plan "ap0" EgressRestricted) ForwardNormal (client_packet "xray0")); [discriminate|].
    split; [reflexivity|]. split; [reflexivity|]. split; [discriminate|]. left.
    split; [reflexivity|]. split; [reflexivity|]. split; [discriminate|]. split; [reflexivity|].
    split; intros [s H]; discriminate.
  - intros H. apply (forward_exact (plan "ap0" EgressRestricted) ForwardNormal (client_packet "eth0")) in H; [|discriminate].
    destruct H as (_ & _ & _ & [(_ & H & _)|(H & _)]); discriminate.
Defined.

End Golden.
