(* ===== verification/Steps.v ===== *)
(** * From a plan to commands (internal/netcfg: route.go, nftables.go,
    system_socks.go, darwinnet_steps.go, winnet.go, platform.go)

    The steps a plan turns into on each platform, with their inverses and the
    reasons that go into the journal, and the backend that chooses among them. *)

From S2P Require Import Prelude GoStrings Command Netip Subnet Facts Plan Nft.

Local Open Scope string_scope.

(** The knob values read during detection. *)
Local Abbreviation knobs := (gmap string string).

Definition cmd (path : string) (args : list string) (why : string) : Command := MkCommand path args "" why.

Definition step (op why : string) (do undo : Command) : Step := MkStep op why do undo None.

Definition ipCmd (why : string) (args : list string) : Command := cmd BinIP args why.

(** strconv.FormatUint(n, 16) of a uint32. *)
Fixpoint hex_digits (fuel : nat) (n : Z) (acc : string) : string :=
  match fuel with
  | O => acc
  | S fuel =>
      let acc := String (hex_char (Z.to_nat (n mod 16))) acc in
      if (n <? 16)%Z then acc else hex_digits fuel (n / 16) acc
  end.
Definition FormatHex (n : Z) : string := hex_digits 8 n "".

(** ** Linux *)

Definition sysctlStep (knob value : string) (current : knobs) (why : string) : Step :=
  let do := cmd BinSysctl ["-w"; knob ++ "=" ++ value] why in
  match current !! knob with
  | Some prev =>
      step OpSysctl why do (cmd BinSysctl ["-w"; knob ++ "=" ++ prev] "restore the value read before the change")
  | None =>
      step OpSysctl
        (why ++ " (no previous value was read for " ++ knob ++ ", so this change has no recorded inverse)")
        do zero_command
  end.

Definition pinnedRouteMetric : Z := 5.

Definition hostRouteArgs (p : Plan) (verb : string) (s : Addr) : list string :=
  let gw := if Is6 s then UplinkV6Gw p else UplinkGateway p in
  let dev := if Is6 s then (if UplinkV6Dev p =? "" then Uplink p else UplinkV6Dev p) else Uplink p in
  let onlink := if Is6 s then negb (addr_valid gw) else UplinkOnLink p in
  ((if Is6 s then ["-6"; "route"; verb] else ["route"; verb]) ++
   [prefix_String (PrefixFrom s (if Is6 s then 128 else 32))] ++
   (if negb onlink && addr_valid gw then ["via"; addr_String gw] else []) ++
   ["dev"; dev] ++
   (if verb =? "add" then ["proto"; "static"] else []) ++
   ["metric"; Itoa pinnedRouteMetric])%list.

Definition server_route_why : string :=
  "pin the route to the proxy server through the real gateway, so the engine's own connection " ++
  "to it does not match the default route through the tunnel and loop through itself".

Definition pin_step (p : Plan) (s : Addr) : Step :=
  step OpRoute server_route_why (ipCmd server_route_why (hostRouteArgs p "add" s))
    (ipCmd "remove the pinned host route" (hostRouteArgs p "del" s)).

Definition ServerRouteSteps (p : Plan) : list Step :=
  pin_step p <$> List.filter (canPin p) (ServerAddr p).

Definition rp_why : string :=
  "loosen reverse-path filtering; with two routing tables the return path is asymmetric " ++
  "and the strict filter drops replies as martians, which presents as a tunnel that connects and carries nothing".

Definition SysctlSteps (p : Plan) (current : knobs) : list Step :=
  let rp := Itoa (RPFilter (Opts p)) in
  [sysctlStep "net.ipv4.ip_forward" "1" current
     "a box that shares its connection is a router, and a router forwards";
   sysctlStep "net.ipv4.conf.all.rp_filter" rp current
     (rp_why ++ " (the kernel uses the maximum of conf.all and the per-interface value, and loose is the " ++
      "larger value, so setting conf.all pins every interface to loose on its own)");
   sysctlStep "net.ipv4.conf.default.rp_filter" rp current
     (rp_why ++ " (conf.default is what a newly created interface starts with, kept as redundancy in case conf.all is lowered later)");
   match IPv6 (Opts p) with
   | IPv6Block =>
       sysctlStep "net.ipv6.conf.all.forwarding" "0" current
         "there is no IPv6 tunnel, so forwarded IPv6 would leave outside the tunnel"
   | IPv6Forward =>
       sysctlStep "net.ipv6.conf.all.forwarding" "1" current
         "IPv6 is carried, so the box must forward it"
   end].

Definition VirtualIfaceSteps (p : Plan) : list Step :=
  let hot := Hotspot (hot p) in
  let phy := HotspotPhy (Plan.hot p) in
  if negb (HotspotIsVirtual (Plan.hot p)) || (hot =? "") || (phy =? "") then []
  else
    let why := "create an interface for the access point on " ++ phy ++ " rather than reconfiguring the " ++
      "one already there, which would drop the network that interface is connected to" in
    let relWhy := "release " ++ hot ++ " from NetworkManager, which claims a wifi device the moment it appears " ++
      "and flushes the address off it" in
    MkStep OpCreateIface why
      (cmd BinIw ["phy"; phy; "interface"; "add"; hot; "type"; "__ap"] why)
      (cmd BinIw ["dev"; hot; "del"] "remove the interface created for the access point")
      (Some (ifacePresent hot)) ::
    (if pNetworkManagerPresent p
     then [step OpLink relWhy (cmd BinNmcli ["device"; "set"; hot; "managed"; "no"] relWhy) zero_command]
     else []).

(** The step that takes one address off the hotspot interface. *)
Definition station_addr_step (hot : string) (pfx : Prefix) : Step :=
  let why := "take " ++ prefix_String pfx ++ " off " ++ hot ++ ": it belongs to the network this interface was joined " ++
    "to, and leaving it gives anything bound here a path onto that network" in
  step OpAddr why (ipCmd why ["address"; "del"; prefix_String pfx; "dev"; hot])
    (ipCmd "put the station address back" ["address"; "add"; prefix_String pfx; "dev"; hot]).

Definition HotspotReleaseSteps (p : Plan) : list Step :=
  let hot := Hotspot (hot p) in
  if hot =? "" then []
  else
    let why := "release " ++ hot ++ " from NetworkManager, which otherwise reconnects it to the network it was " ++
      "joined to while the access point is meant to be running on it" in
    let downWhy := "the interface type cannot be changed while the interface is up" in
    let typeWhy := "put " ++ hot ++ " into access point mode before anything is asked to serve on it, so the state " ++
      "can be read back rather than assumed from a process being alive" in
    ((if bool_decide (HotspotManager (Plan.hot p) = ManagedByNetworkManager)
      then [step OpLink why (cmd BinNmcli ["device"; "set"; hot; "managed"; "no"] why)
              (cmd BinNmcli ["device"; "set"; hot; "managed"; "yes"]
                 "give the interface back, or this box never rejoins the user's WiFi again")]
      else []) ++
     (station_addr_step hot <$> HotspotStationPrefixes p) ++
     (if negb (HotspotTakenOver (Plan.hot p)) then []
      else [step OpLink downWhy (ipCmd downWhy ["link"; "set"; "dev"; hot; "down"])
              (ipCmd "bring the interface back up" ["link"; "set"; "dev"; hot; "up"]);
            step OpCreateIface typeWhy (cmd BinIw ["dev"; hot; "set"; "type"; "__ap"] typeWhy)
              (cmd BinIw ["dev"; hot; "set"; "type"; "managed"] "put the interface back to a station")]))%list.

Definition HotspotAddrSteps (p : Plan) : list Step :=
  let hot := Hotspot (hot p) in
  if (hot =? "") || negb (prefix_valid (HotspotSubnet p)) then []
  else
    let addr := prefix_String (PrefixFrom (HotspotGateway p) (Bits (HotspotSubnet p))) in
    let addWhy := "the box is the default gateway for its clients, so it holds the first address on the hotspot subnet" in
    [step OpLink "the access point cannot start on a down interface"
       (ipCmd "bring the hotspot interface up" ["link"; "set"; "dev"; hot; "up"]) zero_command;
     step OpAddr addWhy (ipCmd addWhy ["address"; "add"; addr; "dev"; hot])
       (ipCmd "take the hotspot address back off" ["address"; "del"; addr; "dev"; hot])].

Definition TunnelAddrSteps (p : Plan) : list Step :=
  if negb (prefix_valid (TunSubnet p)) then []
  else
    let addr := prefix_String (PrefixFrom (TunAddr p) (Bits (TunSubnet p))) in
    let why := "the tunnel device is created with no address at all, and an interface with no address " ++
      "cannot be the target of a route" in
    [step OpAddr why (ipCmd why ["address"; "add"; addr; "dev"; Tun p])
       (ipCmd "take the tunnel address back off" ["address"; "del"; addr; "dev"; Tun p])].

Definition halves : list string := ["0.0.0.0/1"; "128.0.0.0/1"].

Definition TunnelRouteSteps (p : Plan) : list Step :=
  let table := Itoa (Table (Opts p)) in
  let prio := Itoa (RulePrio (Opts p)) in
  let markPrio := Itoa (RulePrio (Opts p) - 1) in
  let mark := "0x" ++ FormatHex (FwMark (Opts p)) in
  let hot := Hotspot (hot p) in
  let subnet := prefix_String (HotspotSubnet p) in
  let halfWhy := "send everything through the tunnel using two half defaults, which are more specific " ++
    "than the uplink's default route and so do not have to replace it" in
  let subnetWhy := "keep traffic between two hotspot clients on the hotspot: without this route the rule " ++
    "below sends it to the tunnel table, whose only route is the default, and client-to-client " ++
    "traffic disappears into the tunnel" in
  let defWhy := "the tunnel is the default route for everything that selects the tunnel table" in
  let ruleWhy := "send traffic from hotspot clients to the tunnel table, leaving the box's own traffic " ++
    "on the main table, which is what lets the engine reach the server at all" in
  let markWhy := "select the tunnel table for traffic carrying this mark. NOTHING IN THIS PROGRAM SETS " ++
    "THE MARK as of 2026-08-30, so this rule currently matches nothing; the box's own traffic, " ++
    "including the engine's socket to the server, stays on the main table" in
  match Strategy (Opts p) with
  | StrategySplitDefault =>
      (λ half, step OpRoute halfWhy
         (ipCmd halfWhy ["route"; "add"; half; "dev"; Tun p; "proto"; "static"])
         (ipCmd "remove the half default" ["route"; "del"; half; "dev"; Tun p])) <$> halves
  | StrategyPolicy =>
      [step OpRoute subnetWhy
         (ipCmd subnetWhy ["route"; "add"; subnet; "dev"; hot; "scope"; "link"; "table"; table])
         (ipCmd "remove the hotspot subnet route from the tunnel table" ["route"; "del"; subnet; "dev"; hot; "table"; table]);
       step OpRoute defWhy
         (ipCmd defWhy ["route"; "add"; "default"; "dev"; Tun p; "proto"; "static"; "table"; table])
         (ipCmd "remove the tunnel default route" ["route"; "del"; "default"; "dev"; Tun p; "table"; table]);
       step OpRule ruleWhy
         (ipCmd ruleWhy ["rule"; "add"; "from"; subnet; "lookup"; table; "priority"; prio])
         (ipCmd "remove the hotspot policy rule" ["rule"; "del"; "from"; subnet; "lookup"; table; "priority"; prio]);
       step OpRule markWhy
         (ipCmd markWhy ["rule"; "add"; "fwmark"; mark; "lookup"; table; "priority"; markPrio])
         (ipCmd "remove the fwmark policy rule" ["rule"; "del"; "fwmark"; mark; "lookup"; table; "priority"; markPrio])]
  end.

(** Loading one ruleset; the inverse deletes the table whatever it holds. *)
Definition nft_step (p : Plan) (why : string) (state : ForwardState) : Step :=
  step OpNft why (MkCommand BinNft ["-f"; "-"] (RulesetFor p state) why)
    (MkCommand BinNft ["-f"; "-"] RulesetTeardown "remove the generated tables").

Definition firewall_why : string :=
  "install the fail-closed ruleset, which must be in force before anything can be forwarded".
Definition cut_why : string :=
  "cut forwarded client traffic without taking the hotspot down, so a joined device stays " ++
  "joined and can still reach the panel to turn it back on".
Definition restore_why : string := "resume forwarding client traffic through the tunnel".

Definition FirewallStep (p : Plan) : Step := nft_step p firewall_why ForwardNormal.
Definition linuxCutStep (p : Plan) : Step := nft_step p cut_why ForwardCut.
Definition linuxRestoreStep (p : Plan) : Step := nft_step p restore_why ForwardNormal.

Definition linuxPreEngineSteps (p : Plan) (current : knobs) : list Step :=
  ([FirewallStep p] ++ SysctlSteps p current ++ VirtualIfaceSteps p ++ HotspotReleaseSteps p ++
   HotspotAddrSteps p ++ ServerRouteSteps p)%list.

Definition linuxPostEngineSteps (p : Plan) (current : knobs) : list Step :=
  (TunnelAddrSteps p ++ TunnelRouteSteps p)%list.

Definition BaseSysctlKnobs : list string :=
  ["net.ipv4.ip_forward"; "net.ipv4.conf.all.rp_filter"; "net.ipv4.conf.default.rp_filter";
   "net.ipv6.conf.all.forwarding"].

(** ** macOS *)

Definition darwinPfStatusKnob : string := "pf.status".
Definition darwinAnchor : string := "com.apple/250.CaspianBYOC".
Definition darwinSharingBridge : string := "bridge100".
Definition darwinTunPeer : string := "169.254.10.1".

Definition darwinPfEnableSteps (current : knobs) : list Step :=
  if negb (default "" (current !! darwinPfStatusKnob) =? "0") then []
  else
    let why := "pf was disabled; the fail-closed anchor is enforced only while pf is enabled " ++
      "(left enabled on teardown: pf is reference counted by system services and pfctl -d would disable it under them)" in
    [step OpPf why (cmd BinPfctl ["-e"] why) zero_command].

Definition darwinRulesetFor (p : Plan) (state : ForwardState) : string :=
  let b := darwinSharingBridge in
  let hot := prefix_String (HotspotSubnet p) in
  let gw := addr_String (HotspotGateway p) in
  concat_text ((λ s, s ++ nl) <$>
    ["# Caspian-BYOC, generated. Anchor " ++ darwinAnchor ++ ". Loaded as one transaction.";
     "# clients arrive on " ++ b ++ "; the uplink is " ++ Uplink p ++ "; the tunnel is " ++ Tun p ++ ".";
     "rdr pass on " ++ b ++ " inet proto { tcp, udp } from " ++ hot ++ " to any port 53 -> 127.0.0.1 port " ++
       Itoa (DNSPort (Opts p));
     "block drop in quick on " ++ b ++ " inet6 all";
     "pass in quick on " ++ b ++ " inet proto udp from any port 68 to any port 67";
     "pass in quick on " ++ b ++ " inet proto tcp from " ++ hot ++ " to " ++ gw ++ " port " ++ Itoa (PanelPort (Opts p));
     "pass in quick on " ++ b ++ " inet proto icmp from " ++ hot ++ " to " ++ gw;
     "block drop in quick on " ++ b ++ " inet from " ++ hot ++ " to " ++ gw;
     "block drop in quick on " ++ b ++ " inet proto { tcp, udp } from " ++ hot ++ " to any port 853";
     match state with
     | ForwardNormal =>
         "pass in quick on " ++ b ++ " route-to (" ++ Tun p ++ " " ++ darwinTunPeer ++ ") inet from " ++ hot ++
         " to any keep state"
     | ForwardCut => "# forwarding is cut: the steering rule is withheld and the block below applies"
     end;
     "block drop in quick on " ++ b ++ " inet from " ++ hot ++ " to any"]).

Definition pf_step (p : Plan) (why : string) (state : ForwardState) : Step :=
  step OpPf why (MkCommand BinPfctl ["-a"; darwinAnchor; "-f"; "-"] (darwinRulesetFor p state) why)
    (cmd BinPfctl ["-a"; darwinAnchor; "-F"; "all"] "remove the generated anchor").

Definition darwinFirewallStep (p : Plan) : Step := pf_step p firewall_why ForwardNormal.
Definition darwinCutStep (p : Plan) : Step := pf_step p cut_why ForwardCut.
Definition darwinRestoreStep (p : Plan) : Step := pf_step p restore_why ForwardNormal.

Definition darwinSysctlSteps (current : knobs) : list Step :=
  [sysctlStep "net.inet.ip.forwarding" "1" current
     "a machine that shares its connection is a router, and a router forwards";
   sysctlStep "net.inet6.ip6.forwarding" "0" current
     "hotspot clients get no IPv6 (design 4.5), so nothing may forward it"].

Definition darwinHostRouteArgs (p : Plan) (verb : string) (s : Addr) : list string :=
  let args := (["-n"; verb] ++ (if Is6 s then ["-inet6"] else []) ++ ["-host"; addr_String s])%list in
  if verb =? "delete" then args
  else
    let gw := if Is6 s then UplinkV6Gw p else UplinkGateway p in
    let onLink := if Is6 s then negb (addr_valid gw) else UplinkOnLink p in
    if onLink || negb (addr_valid gw) then (args ++ ["-interface"; Uplink p])%list
    else (args ++ [addr_String gw])%list.

Definition desktop_route_why : string :=
  "the engine's own connection to the server must leave by the uplink, or the tunnel would try to reach itself".

Definition darwin_pin_step (p : Plan) (s : Addr) : Step :=
  step OpRoute desktop_route_why (cmd BinRoute (darwinHostRouteArgs p "add" s) desktop_route_why)
    (cmd BinRoute (darwinHostRouteArgs p "delete" s) "remove the pinned server route").

Definition darwinServerRouteSteps (p : Plan) : list Step :=
  darwin_pin_step p <$> List.filter (canPin p) (ServerAddr p).

Definition darwinPreEngineSteps (p : Plan) (current : knobs) : list Step :=
  (darwinPfEnableSteps current ++ [darwinFirewallStep p] ++ darwinSysctlSteps current ++
   darwinServerRouteSteps p)%list.

(** *** The system SOCKS proxy (system_socks.go) *)

Definition caspianSystemSOCKSBypass : list string :=
  ["localhost"; "127.0.0.1"; "::1"; "*.local"; "169.254/16"].

(** Appended unless present, up to case. *)
Definition mergedSystemSOCKSBypass (existing : list string) : list string :=
  foldl (λ out required,
    if existsb (λ have, EqualFold have required) out then out else (out ++ [required])%list)
    existing caspianSystemSOCKSBypass.

Definition systemSOCKSStateCommand (service : string) (enabled : bool) (why : string) : Command :=
  cmd BinNetworksetup ["-setsocksfirewallproxystate"; service; if enabled then "on" else "off"] why.

Definition systemSOCKSEndpointCommand (service server : string) (port : Z) (why : string) : Command :=
  cmd BinNetworksetup ["-setsocksfirewallproxy"; service; server; Itoa port; "off"] why.

Definition systemSOCKSBypassCommand (service : string) (domains : list string) (why : string) : Command :=
  cmd BinNetworksetup
    (["-setproxybypassdomains"; service] ++ match domains with [] => ["Empty"] | l => l end)%list why.

(** The four steps of one network service. *)
Definition socks_steps (p : Plan) (previous : SystemSOCKSState) : list Step :=
  let service := Service previous in
  let disableWhy := "pause the previous SOCKS proxy before replacing its endpoint with Caspian's listener" in
  let bypassWhy := "keep loopback and link-local destinations local while macOS applications use Caspian's SOCKS proxy" in
  let endpointWhy := "point this macOS network service at the SOCKS listener created by Caspian's running engine" in
  let enableWhy := "let proxy-aware macOS applications use the configured Caspian tunnel" in
  [step OpProxy disableWhy (systemSOCKSStateCommand service false disableWhy)
     (systemSOCKSStateCommand service (s_enabled previous) "restore the SOCKS proxy state read before Caspian started");
   step OpProxy bypassWhy
     (systemSOCKSBypassCommand service (mergedSystemSOCKSBypass (BypassDomains previous)) bypassWhy)
     (systemSOCKSBypassCommand service (BypassDomains previous)
        "restore the proxy bypass domains read before Caspian started");
   step OpProxy endpointWhy
     (systemSOCKSEndpointCommand service (Listen (oSystemSOCKS (Opts p))) (so_port (oSystemSOCKS (Opts p))) endpointWhy)
     (if negb (Server previous =? "") && negb (s_port previous =? 0)%Z
      then systemSOCKSEndpointCommand service (Server previous) (s_port previous)
             "restore the SOCKS endpoint read before Caspian started"
      else systemSOCKSStateCommand service false "the service previously had no SOCKS endpoint; leave it disabled");
   step OpProxy enableWhy (systemSOCKSStateCommand service true enableWhy)
     (systemSOCKSStateCommand service false "disable Caspian's system SOCKS proxy before restoring the previous endpoint")].

Definition darwinSystemSOCKSSteps (p : Plan) : list Step :=
  if negb (so_enabled (oSystemSOCKS (Opts p))) then [] else concat (socks_steps p <$> pSystemSOCKS p).

Definition darwinPostEngineSteps (p : Plan) (current : knobs) : list Step :=
  let why := "send the machine's own traffic through the tunnel as well as the clients'; " ++
    "two halves rather than a default so the uplink's default route stays for the pinned server route" in
  (match Strategy (Opts p) with
   | StrategySplitDefault =>
       (λ half, step OpRoute why (cmd BinRoute ["-n"; "add"; "-net"; half; "-interface"; Tun p] why)
          (cmd BinRoute ["-n"; "delete"; "-net"; half; "-interface"; Tun p] "remove the half-default route")) <$> halves
   | StrategyPolicy => []
   end ++ darwinSystemSOCKSSteps p)%list.

Definition darwinSysctlKnobs : list string := ["net.inet.ip.forwarding"; "net.inet6.ip6.forwarding"].

(** ** Windows *)

(** json.Marshal of a string: Go's escapes, for text without U+2028 and
    U+2029. *)
Definition json_char (c : ascii) : string :=
  let n := nat_of_ascii c in
  if (n =? 34)%nat then String "\" (String dquote "")
  else if (n =? 92)%nat then "\\"
  else if (n =? 8)%nat then "\b"
  else if (n =? 12)%nat then "\f"
  else if (n =? 10)%nat then "\n"
  else if (n =? 13)%nat then "\r"
  else if (n =? 9)%nat then "\t"
  else if (n <? 32)%nat || (n =? 60)%nat || (n =? 62)%nat || (n =? 38)%nat
  then "\u00" ++ String (hex_char (n / 16)) (String (hex_char (n mod 16)) "")
  else String c "".

Fixpoint json_body (s : string) : string :=
  match s with EmptyString => "" | String c s => json_char c ++ json_body s end.

Definition json_string (s : string) : string := String dquote (json_body s ++ String dquote "").

Definition windowsFilterSet (p : Plan) (state : ForwardState) : string :=
  "{" ++ json_string "hotspot" ++ ":" ++ json_string (prefix_String (HotspotSubnet p)) ++ "," ++
  json_string "tun" ++ ":" ++ json_string (Tun p) ++ "," ++
  json_string "forward" ++ ":" ++
    json_string (match state with ForwardCut => "cut" | ForwardNormal => "normal" end) ++ "," ++
  json_string "panelPort" ++ ":" ++ Itoa (PanelPort (Opts p)) ++ "}" ++ nl.

Definition wfp_step (p : Plan) (why : string) (state : ForwardState) : Step :=
  step OpWFP why (MkCommand BinWFP ["load"] (windowsFilterSet p state) why)
    (cmd BinWFP ["flush"] "remove the generated filters").

Definition windowsFirewallStep (p : Plan) : Step :=
  wfp_step p "install the fail-closed filters, which must be in force before anything can be forwarded" ForwardNormal.
Definition windowsCutStep (p : Plan) : Step := wfp_step p cut_why ForwardCut.
Definition windowsRestoreStep (p : Plan) : Step := wfp_step p restore_why ForwardNormal.

Definition windowsForwardingKnob (alias : string) : string := "forwarding." ++ alias.

Definition windowsForwardingStep (alias : string) (current : knobs) : Step :=
  let why := "a machine that shares its connection is a router, and on Windows forwarding is switched per interface" in
  let do := cmd BinIPHelper ["iface"; "set"; alias; "forwarding"; "on"] why in
  match current !! windowsForwardingKnob alias with
  | Some prev =>
      step OpSysctl why do
        (cmd BinIPHelper ["iface"; "set"; alias; "forwarding"; if prev =? "1" then "on" else "off"]
           "restore the value read before the change")
  | None =>
      step OpSysctl (why ++ " (no previous value was read for " ++ alias ++ ", so this change has no recorded inverse)")
        do zero_command
  end.

Definition windows_pin_step (p : Plan) (s : Addr) : Step :=
  let args := ([prefix_String (PrefixFrom s 32); "dev"; Uplink p] ++
    (if addr_valid (UplinkGateway p) && negb (UplinkOnLink p) then ["via"; addr_String (UplinkGateway p)] else []) ++
    ["metric"; "1"])%list in
  step OpRoute desktop_route_why (cmd BinIPHelper (["route"; "add"] ++ args)%list desktop_route_why)
    (cmd BinIPHelper (["route"; "delete"] ++ args)%list "remove the pinned server route").

Definition windowsServerRouteSteps (p : Plan) : list Step :=
  windows_pin_step p <$> List.filter (λ s, negb (negb (canPin p s) || Is6 s)) (ServerAddr p).

Definition windowsPreEngineSteps (p : Plan) (current : knobs) : list Step :=
  ([windowsCutStep p] ++ windowsServerRouteSteps p)%list.

Definition windowsPostEngineSteps (p : Plan) (current : knobs) : list Step :=
  let permit := windowsFirewallStep p in
  let permit := MkStep (Op permit) (Why permit) (Do permit) (Do (windowsCutStep p)) (Pre permit) in
  let addr := prefix_String (PrefixFrom (TunAddr p) (Bits (TunSubnet p))) in
  let addrWhy := "the tunnel adapter needs an address to be routable; the engine on Windows assigns none" in
  let metricWhy := "the tunnel's routes must beat the uplink's: interface metric 0" in
  let defWhy := "the default route through the tunnel; the whole host is tunnelled because Windows has no per-source routing" in
  [permit;
   windowsForwardingStep (Tun p) current;
   step OpAddr addrWhy (cmd BinIPHelper ["addr"; "add"; addr; "dev"; Tun p] addrWhy)
     (cmd BinIPHelper ["addr"; "delete"; addr; "dev"; Tun p] "remove the tunnel address");
   step OpLink metricWhy (cmd BinIPHelper ["iface"; "set"; Tun p; "metric"; "0"] metricWhy)
     (cmd BinIPHelper ["iface"; "set"; Tun p; "metric"; "auto"] "back to an automatic metric");
   step OpRoute defWhy (cmd BinIPHelper ["route"; "add"; "0.0.0.0/0"; "dev"; Tun p; "metric"; "0"] defWhy)
     (cmd BinIPHelper ["route"; "delete"; "0.0.0.0/0"; "dev"; Tun p; "metric"; "0"] "remove the tunnel default route");
   step OpLink "Windows and Mobile Hotspot resolve DNS through the tunnel adapter"
     (cmd BinIPHelper ["dns"; "set"; Tun p] "") (cmd BinIPHelper ["dns"; "clear"; Tun p] "");
   step OpWFP "prevent DNS fallback to physical interfaces while connected"
     (MkCommand BinWFP ["dns-protect"] (Tun p) "") (cmd BinWFP ["dns-clear"] "")].

(** ** The backend *)

(** The part of the Backend interface that turns a plan into commands. *)
Record Backend := MkBackend {
  be_pre : Plan → knobs → list Step;
  be_post : Plan → knobs → list Step;
  be_cut : Plan → Step;
  be_restore : Plan → Step;
  be_knobs : list string;
  be_allowed : list string
}.

Definition zero_step : Step := MkStep "" "" zero_command zero_command None.

Definition linuxBackend : Backend :=
  MkBackend linuxPreEngineSteps linuxPostEngineSteps linuxCutStep linuxRestoreStep BaseSysctlKnobs allowedBinaries.
Definition darwinBackend : Backend :=
  MkBackend darwinPreEngineSteps darwinPostEngineSteps darwinCutStep darwinRestoreStep darwinSysctlKnobs
    darwinAllowedBinaries.
Definition windowsBackend : Backend :=
  MkBackend windowsPreEngineSteps windowsPostEngineSteps windowsCutStep windowsRestoreStep [] windowsAllowedBinaries.
Definition unsupportedBackend : Backend :=
  MkBackend (λ _ _, []) (λ _ _, []) (λ _, zero_step) (λ _, zero_step) [] [].

Definition BackendFor (pl : Platform) : Backend :=
  match pl with
  | PlatformUnset | PlatformLinux => linuxBackend
  | PlatformDarwin => darwinBackend
  | PlatformWindows => windowsBackend
  | PlatformOther _ => unsupportedBackend
  end.

Definition PreEngineSteps (p : Plan) (current : knobs) : list Step := be_pre (BackendFor (pPlatform p)) p current.
Definition PostEngineSteps (p : Plan) (current : knobs) : list Step := be_post (BackendFor (pPlatform p)) p current.
Definition AllSteps (p : Plan) (current : knobs) : list Step := (PreEngineSteps p current ++ PostEngineSteps p current)%list.
Definition CutStep (p : Plan) : Step := be_cut (BackendFor (pPlatform p)) p.
Definition RestoreStep (p : Plan) : Step := be_restore (BackendFor (pPlatform p)) p.
Definition SysctlKnobs (p : Plan) : list string := be_knobs (BackendFor (pPlatform p)).

(** ** A moved uplink (uplink.go) *)

(** RederiveForUplink: take the pinned routes off the old gateway, newest
    first, pin them through the new one, and the regenerated firewall. *)
Definition RederiveForUplink (p : Plan) (u : UplinkState) : list Step * list Step * Step * Plan :=
  let undo := (λ s, step (Op s)
      "remove the host route pinned through the previous gateway, which no longer reaches the server" (Undo s) (Do s))
    <$> List.filter (λ s, negb (IsZero (Undo s))) (rev (ServerRouteSteps p)) in
  let q := WithUplink p u in
  (undo, ServerRouteSteps q, FirewallStep q, q).
