(* ===== verification/StepsFacts.v ===== *)
(** * What the steps of a plan promise

    Every command is on the platform's closed list, the firewall precedes
    forwarding, the changes without an inverse are the documented ones, the
    routes pinned are those of [PinnedServers], and the macOS proxy settings
    come back as they were. *)

From S2P Require Import Prelude GoStrings Command Netip Subnet Facts Plan PlanFacts Nft Steps.

Local Open Scope string_scope.

Local Abbreviation knobs := (gmap string string).

(** ** Every step, by cases *)

Definition supported (pl : Platform) : Prop := match pl with PlatformOther _ => False | _ => True end.

Lemma sysctlStep_cases k v cur why :
  (∃ prev, cur !! k = Some prev ∧ Undo (sysctlStep k v cur why) = cmd BinSysctl ["-w"; k ++ "=" ++ prev] "restore the value read before the change") ∨
  cur !! k = None ∧ Undo (sysctlStep k v cur why) = zero_command.
Proof. unfold sysctlStep. destruct (cur !! k) as [prev|]; [left|right]; simpl; eauto. Qed.

Lemma sysctlStep_do k v cur why :
  Do (sysctlStep k v cur why) = cmd BinSysctl ["-w"; k ++ "=" ++ v] why ∧ Op (sysctlStep k v cur why) = OpSysctl.
Proof. unfold sysctlStep. by destruct (cur !! k). Qed.

(** What holds of every step a platform produces: a predicate proved for each
    generator. *)
Section EveryStep.
Context (P : Step → Prop).

Lemma Forall_if (b : bool) (l1 l2 : list Step) :
  (b = true → Forall P l1) → (b = false → Forall P l2) → Forall P (if b then l1 else l2).
Proof. destruct b; auto. Qed.

Lemma Forall_fmap_steps {A} (f : A → Step) l : (∀ x, P (f x)) → Forall P (f <$> l).
Proof. intros H. apply Forall_fmap, Forall_true. done. Qed.

End EveryStep.

Ltac every_step :=
  cbv zeta;
  repeat first
    [ apply Forall_app_2 | apply Forall_cons_2 | apply Forall_nil_2
    | apply Forall_if; intros ? | apply Forall_fmap_steps; intros ?
    | match goal with
      | |- Forall _ (match ?x with _ => _ end) => destruct x eqn:?
      | |- _ (match ?x with _ => _ end) => destruct x eqn:?
      end ].

(** ** The closed lists *)

(** The command names a binary of the platform's list, or there is none. *)
Definition on_list (pl : Platform) (c : Command) : Prop :=
  IsZero c = true ∨ Path c ∈ AllowedBinaries pl.

Definition step_on_list (pl : Platform) (s : Step) : Prop :=
  IsZero (Do s) = false ∧ on_list pl (Do s) ∧ on_list pl (Undo s).

Lemma sysctl_on_list pl k v cur why :
  BinSysctl ∈ AllowedBinaries pl → step_on_list pl (sysctlStep k v cur why).
Proof.
  intros H. unfold step_on_list, on_list. destruct (sysctlStep_do k v cur why) as [-> _].
  destruct (sysctlStep_cases k v cur why) as [(prev & _ & ->)|[_ ->]]; simpl; auto.
Qed.

Ltac listed :=
  first [ apply sysctl_on_list; simpl; set_solver
        | split; [reflexivity|]; split; first [left; reflexivity | right; simpl; set_solver] ].

Lemma socks_every P p l : (∀ prev, Forall P (socks_steps p prev)) → Forall P (concat (socks_steps p <$> l)).
Proof.
  intros H. induction l as [|prev l IH]; [constructor|]. rewrite fmap_cons. by apply Forall_app_2.
Qed.

Lemma linux_on_list p cur :
  Forall (step_on_list PlatformLinux) (linuxPreEngineSteps p cur ++ linuxPostEngineSteps p cur)%list.
Proof.
  unfold linuxPreEngineSteps, linuxPostEngineSteps, SysctlSteps, VirtualIfaceSteps, HotspotReleaseSteps, HotspotAddrSteps,
    ServerRouteSteps, TunnelAddrSteps, TunnelRouteSteps.
  every_step; listed.
Qed.

Lemma darwin_on_list p cur :
  Forall (step_on_list PlatformDarwin) (darwinPreEngineSteps p cur ++ darwinPostEngineSteps p cur)%list.
Proof.
  unfold darwinPreEngineSteps, darwinPostEngineSteps, darwinPfEnableSteps, darwinSysctlSteps, darwinServerRouteSteps,
    darwinSystemSOCKSSteps.
  every_step; try listed. apply socks_every. intros prev. unfold socks_steps. every_step; try listed.
  split; [reflexivity|]. split; [right; simpl; set_solver|]. destruct (_ && _); right; simpl; set_solver.
Qed.

Lemma windows_on_list p cur :
  Forall (step_on_list PlatformWindows) (windowsPreEngineSteps p cur ++ windowsPostEngineSteps p cur)%list.
Proof.
  unfold windowsPreEngineSteps, windowsPostEngineSteps, windowsServerRouteSteps, windowsForwardingStep.
  every_step; listed.
Qed.

(** Everything a plan runs on a platform is on that platform's closed
    list of programs: the command of every step, its inverse, and the steps
    that cut and restore client traffic. *)
Theorem steps_on_allowlist p cur s :
  supported (pPlatform p) → s ∈ (AllSteps p cur ++ [CutStep p; RestoreStep p])%list →
  IsZero (Do s) = false ∧ Path (Do s) ∈ AllowedBinaries (pPlatform p) ∧
  (IsZero (Undo s) = true ∨ Path (Undo s) ∈ AllowedBinaries (pPlatform p)).
Proof.
  intros Hs Hin.
  assert (H : Forall (step_on_list (pPlatform p)) (AllSteps p cur ++ [CutStep p; RestoreStep p])%list).
  { unfold AllSteps, PreEngineSteps, PostEngineSteps, CutStep, RestoreStep. apply Forall_app_2.
    - destruct (pPlatform p) eqn:E; try done; [apply linux_on_list..|apply darwin_on_list|apply windows_on_list].
    - destruct (pPlatform p) eqn:E; try done; repeat apply Forall_cons_2; try apply Forall_nil_2; listed. }
  rewrite Forall_forall in H. destruct (H s Hin) as (H1 & [H2|H2] & H3); [congruence|]. done.
Qed.

(** ** Inverses *)

(** The changes that are not taken back, with the reason the code gives. *)
Inductive irreversible (p : Plan) (cur : knobs) (s : Step) : Prop :=
| IrrUnreadKnob k :
    k ∈ (SysctlKnobs p ++ [windowsForwardingKnob (Tun p)])%list → cur !! k = None → Op s = OpSysctl →
    irreversible p cur s
| IrrLinkUp :
    Args (Do s) = ["link"; "set"; "dev"; Hotspot (hot p); "up"] → irreversible p cur s
| IrrCreatedReleased :
    HotspotIsVirtual (hot p) = true → pNetworkManagerPresent p = true →
    Args (Do s) = ["device"; "set"; Hotspot (hot p); "managed"; "no"] → irreversible p cur s
| IrrPfEnabled :
    cur !! darwinPfStatusKnob = Some "0" → Args (Do s) = ["-e"] → irreversible p cur s.

Definition undone_or (p : Plan) (cur : knobs) (s : Step) : Prop :=
  IsZero (Undo s) = true → irreversible p cur s.

Lemma sysctl_undone p cur k v why :
  k ∈ SysctlKnobs p → undone_or p cur (sysctlStep k v cur why).
Proof.
  intros Hk Hz. destruct (sysctlStep_cases k v cur why) as [(prev & _ & E)|[E _]]; [by rewrite E in Hz|].
  apply (IrrUnreadKnob _ _ _ k); [set_solver|done|apply sysctlStep_do].
Qed.

Ltac undone := first [ by intros Hz | apply sysctl_undone ].

Lemma linux_undone p cur :
  SysctlKnobs p = BaseSysctlKnobs →
  Forall (undone_or p cur) (linuxPreEngineSteps p cur ++ linuxPostEngineSteps p cur)%list.
Proof.
  intros Hk. unfold linuxPreEngineSteps, linuxPostEngineSteps, SysctlSteps, VirtualIfaceSteps, HotspotReleaseSteps,
    HotspotAddrSteps, ServerRouteSteps, TunnelAddrSteps, TunnelRouteSteps.
  every_step; try undone; try (rewrite Hk; unfold BaseSysctlKnobs; set_solver).
  - intros _. apply IrrCreatedReleased; [|done|done]. breflect. done.
  - intros _. by apply IrrLinkUp.
Qed.

Lemma darwin_undone p cur :
  SysctlKnobs p = darwinSysctlKnobs →
  Forall (undone_or p cur) (darwinPreEngineSteps p cur ++ darwinPostEngineSteps p cur)%list.
Proof.
  intros Hk. unfold darwinPreEngineSteps, darwinPostEngineSteps, darwinPfEnableSteps, darwinSysctlSteps,
    darwinServerRouteSteps, darwinSystemSOCKSSteps.
  every_step; try undone; try (rewrite Hk; unfold darwinSysctlKnobs; set_solver).
  - intros _. apply IrrPfEnabled; [|done]. breflect. destruct (cur !! darwinPfStatusKnob); simpl in *; [by f_equal|done].
  - apply socks_every. intros prev. unfold socks_steps. every_step; try undone.
    unfold undone_or. simpl. by destruct (_ && _).
Qed.

Lemma windows_undone p cur :
  Forall (undone_or p cur) (windowsPreEngineSteps p cur ++ windowsPostEngineSteps p cur)%list.
Proof.
  unfold windowsPreEngineSteps, windowsPostEngineSteps, windowsServerRouteSteps, windowsForwardingStep.
  every_step; try undone. intros _. apply (IrrUnreadKnob _ _ _ (windowsForwardingKnob (Tun p))); [set_solver|done|done].
Qed.

(** Nothing is changed without knowing how to undo it, but for four
    documented cases: a knob whose value could not be read, bringing the
    hotspot interface up, releasing an interface the appliance itself created,
    and enabling pf. With every knob of the plan read, as detection does before
    planning, only the last three remain (and the forwarding flag of the
    Windows tunnel adapter). *)
Theorem changes_have_inverses p cur s :
  s ∈ AllSteps p cur → IsZero (Undo s) = true → irreversible p cur s.
Proof.
  intros Hin. assert (H : Forall (undone_or p cur) (AllSteps p cur)).
  { unfold AllSteps, PreEngineSteps, PostEngineSteps.
    destruct (pPlatform p) eqn:E; [apply linux_undone|apply linux_undone|apply darwin_undone|apply windows_undone|done];
      unfold SysctlKnobs; by rewrite E. }
  rewrite Forall_forall in H. by apply H.
Qed.

(** ** Routes *)

(** The route steps among those of a list. *)
Definition routes_of (l : list Step) : list Step := List.filter (λ s, Op s =? OpRoute) l.

(** How each platform pins one address. *)
Definition pin_of (p : Plan) : Addr → Step :=
  match pPlatform p with
  | PlatformDarwin => darwin_pin_step p
  | PlatformWindows => windows_pin_step p
  | _ => pin_step p
  end.

Definition not_route (s : Step) : Prop := Op s ≠ OpRoute.

Lemma routes_none l : Forall not_route l → routes_of l = [].
Proof.
  induction 1 as [|s l Hs _ IH]; [done|]. unfold routes_of in *. simpl.
  apply String.eqb_neq in Hs. by rewrite Hs.
Qed.

Lemma routes_all {A} (f : A → Step) l : (∀ x, Op (f x) = OpRoute) → routes_of (f <$> l) = f <$> l.
Proof.
  intros H. unfold routes_of. induction l as [|x l IH]; [done|]. cbn [fmap list_fmap List.filter].
  rewrite H, String.eqb_refl. f_equal. apply IH.
Qed.

Lemma filterb_ext {A} (f g : A → bool) l : (∀ x, f x = g x) → List.filter f l = List.filter g l.
Proof. intros H. induction l as [|x l IH]; [done|]. simpl. by rewrite H, IH. Qed.

Lemma routes_app l1 l2 : routes_of (l1 ++ l2)%list = (routes_of l1 ++ routes_of l2)%list.
Proof. apply List.filter_app. Qed.

Lemma sysctl_not_route k v cur why : not_route (sysctlStep k v cur why).
Proof. unfold not_route. by destruct (sysctlStep_do k v cur why) as [_ ->]. Qed.

(** The servers a plan can route to. *)
Lemma plan_pins_something f servers o p :
  PlanNetwork f servers o = Ok p → ∃ s, s ∈ ServerAddr p ∧ canPin p s = true.
Proof.
  intros H. apply PlanNetwork_inv in H as [_ _ _ _ _ _ _ _ _ _ Hu _ Hn].
  destruct (List.filter (canPin p) (ServerAddr p)) as [|s l] eqn:E.
  - exfalso. apply Hn. rewrite Hu. clear Hu Hn. induction (ServerAddr p) as [|s l IH]; [done|]. simpl in *.
    destruct (canPin p s); [done|]. simpl. by rewrite IH.
  - exists s. apply elem_of_filterb. rewrite E. set_solver.
Qed.

(** The text that names an address in its platform's route command. *)
Definition route_target (p : Plan) (s : Addr) : string :=
  match pPlatform p with
  | PlatformDarwin => addr_String s
  | _ => prefix_String (PrefixFrom s (if Is6 s then 128 else 32))
  end.

Lemma pin_of_spec p s :
  (pPlatform p = PlatformWindows → Is6 s = false) →
  Op (pin_of p s) = OpRoute ∧ route_target p s ∈ Args (Do (pin_of p s)) ∧ route_target p s ∈ Args (Undo (pin_of p s)) ∧
  IsZero (Undo (pin_of p s)) = false.
Proof.
  intros Hw. unfold pin_of, route_target.
  destruct (pPlatform p); simpl; unfold hostRouteArgs, darwinHostRouteArgs; try rewrite (Hw eq_refl); simpl;
    destruct (Is6 s); simpl; repeat case_match; split_and!; try done; rewrite ?elem_of_app, ?elem_of_cons; auto 10.
Qed.

Lemma no_routes_before p cur :
  routes_of ([FirewallStep p] ++ SysctlSteps p cur ++ VirtualIfaceSteps p ++ HotspotReleaseSteps p ++ HotspotAddrSteps p)%list = [].
Proof.
  apply routes_none. unfold SysctlSteps, VirtualIfaceSteps, HotspotReleaseSteps, HotspotAddrSteps.
  every_step; try done; apply sysctl_not_route.
Qed.

Lemma pre_engine_routes p cur :
  supported (pPlatform p) → routes_of (PreEngineSteps p cur) = pin_of p <$> PinnedServers p.
Proof.
  intros Hs. unfold PreEngineSteps, pin_of, PinnedServers.
  destruct (pPlatform p) eqn:E; try done; cbn [BackendFor be_pre linuxBackend darwinBackend windowsBackend].
  1, 2: unfold linuxPreEngineSteps, ServerRouteSteps; rewrite !app_assoc, routes_app;
    rewrite <- !app_assoc, no_routes_before; rewrite routes_all by done;
    rewrite app_nil_l; f_equal; apply filterb_ext; intros s; simpl; by rewrite andb_true_r.
  - unfold darwinPreEngineSteps, darwinServerRouteSteps. rewrite !app_assoc, routes_app, routes_none.
    + rewrite routes_all, app_nil_l by done. f_equal. apply filterb_ext. intros s. simpl. by rewrite andb_true_r.
    + unfold darwinPfEnableSteps, darwinSysctlSteps. every_step; try done; apply sysctl_not_route.
  - unfold windowsPreEngineSteps, windowsServerRouteSteps. rewrite routes_app, routes_none by (every_step; done).
    rewrite routes_all, app_nil_l by done. f_equal. apply filterb_ext. intros s. by rewrite negb_orb, negb_involutive.
Qed.

(** The engine is told exactly the addresses that are pinned: before the
    engine starts, the routes a plan adds are one per address of
    [PinnedServers], in order, and no others; the command and its inverse both
    name that address. Except on Windows, where only IPv4 is pinned, a plan
    pins at least one server. *)
Theorem pinned_routes_exact f servers o p cur :
  PlanNetwork f servers o = Ok p → supported (pPlatform p) →
  routes_of (PreEngineSteps p cur) = pin_of p <$> PinnedServers p ∧
  (∀ s, s ∈ PinnedServers p → s ∈ ServerAddr p ∧ route_target p s ∈ Args (Do (pin_of p s)) ∧
     route_target p s ∈ Args (Undo (pin_of p s))) ∧
  (pPlatform p ≠ PlatformWindows → PinnedServers p ≠ []).
Proof.
  intros Hp Hs. split; [by apply pre_engine_routes|]. unfold PinnedServers. split.
  - intros s [Hin Hc]%elem_of_filterb. split; [done|].
    destruct (pin_of_spec p s) as (_ & ? & ? & _); [|done]. intros E. breflect. rewrite E in *. 
    rewrite bool_decide_true in * by done. done.
  - intros Hw. rewrite bool_decide_false by done. destruct (plan_pins_something _ _ _ _ Hp) as (s & Hin & Hc).
    intros E. assert (Hx : s ∈ List.filter (λ s, canPin p s && negb (false && Is6 s)) (ServerAddr p))
      by (apply elem_of_filterb; by rewrite Hc). rewrite E in Hx. by apply not_elem_of_nil in Hx.
Qed.

(** ** The macOS proxy settings *)

(** The proxy settings of one network service. *)
Record proxy := MkProxy { px_on : bool; px_server : string; px_port : string; px_bypass : list string }.

Definition bypass_arg (domains : list string) : list string :=
  match domains with ["Empty"] => [] | l => l end.

(** What networksetup(8) documents of the three commands used: each acts on
    the service it names and no other, and setting an endpoint also turns the
    proxy on. *)
Class Networksetup (M : Type) := {
  ns_run : Command → M → M;
  ns_proxy : M → string → proxy;
  ns_state : ∀ service on why m t,
    ns_proxy (ns_run (systemSOCKSStateCommand service on why) m) t =
    if service =? t then let x := ns_proxy m t in MkProxy on (px_server x) (px_port x) (px_bypass x) else ns_proxy m t;
  ns_endpoint : ∀ service server port why m t,
    ns_proxy (ns_run (systemSOCKSEndpointCommand service server port why) m) t =
    if service =? t then MkProxy true server (Itoa port) (px_bypass (ns_proxy m t)) else ns_proxy m t;
  ns_bypass : ∀ service domains why m t,
    ns_proxy (ns_run (systemSOCKSBypassCommand service domains why) m) t =
    if service =? t
    then let x := ns_proxy m t in
         MkProxy (px_on x) (px_server x) (px_port x)
           (bypass_arg (match domains with [] => ["Empty"] | l => l end))
    else ns_proxy m t
}.

Section Proxies.
Context {M : Type} `{NS : Networksetup M}.

Definition run_dos (l : list Step) (m : M) : M := foldl (λ m s, ns_run (Do s) m) m l.
Definition run_undos (l : list Step) (m : M) : M := foldr (λ s m, ns_run (Undo s) m) m l.

Definition has_endpoint (s : SystemSOCKSState) : bool := negb (Server s =? "") && negb (s_port s =? 0)%Z.

(** The command changes the settings of one service, by [f]. *)
Definition acts (service : string) (c : Command) (f : proxy → proxy) : Prop :=
  ∀ m t, ns_proxy (ns_run c m) t = if service =? t then f (ns_proxy m t) else ns_proxy m t.

Definition set_on (b : bool) (x : proxy) : proxy := MkProxy b (px_server x) (px_port x) (px_bypass x).
Definition set_endpoint (server : string) (port : Z) (x : proxy) : proxy :=
  MkProxy true server (Itoa port) (px_bypass x).
Definition set_bypass (domains : list string) (x : proxy) : proxy :=
  MkProxy (px_on x) (px_server x) (px_port x) (bypass_arg (match domains with [] => ["Empty"] | l => l end)).

(** What the four steps of a service and their inverses do to its settings. *)
Definition effects (p : Plan) (s : SystemSOCKSState) : list ((proxy → proxy) * (proxy → proxy)) :=
  [(set_on false, set_on (s_enabled s));
   (set_bypass (mergedSystemSOCKSBypass (BypassDomains s)), set_bypass (BypassDomains s));
   (set_endpoint (Listen (oSystemSOCKS (Opts p))) (so_port (oSystemSOCKS (Opts p))),
    if has_endpoint s then set_endpoint (Server s) (s_port s) else set_on false);
   (set_on true, set_on false)].

Definition step_acts (service : string) (st : Step) (e : (proxy → proxy) * (proxy → proxy)) : Prop :=
  acts service (Do st) e.1 ∧ acts service (Undo st) e.2.

Lemma socks_steps_act p s : Forall2 (step_acts (Service s)) (socks_steps p s) (effects p s).
Proof.
  unfold socks_steps, effects, has_endpoint.
  repeat apply Forall2_cons_2; try apply Forall2_nil_2; split; intros m t; cbn [Do Undo step fst snd];
    rewrite ?ns_state, ?ns_bypass, ?ns_endpoint; try done.
  destruct (_ && _); by rewrite ?ns_state, ?ns_endpoint.
Qed.

Lemma dos_act service sts es m t :
  Forall2 (step_acts service) sts es →
  ns_proxy (run_dos sts m) t =
  if service =? t then foldl (λ x e, e.1 x) (ns_proxy m t) es else ns_proxy m t.
Proof.
  intros H. unfold run_dos. revert m. induction H as [|st e sts es [Hd _] _ IH]; intros m; simpl; [by destruct (_ =? _)|].
  rewrite IH, !Hd. by destruct (_ =? _).
Qed.

Lemma undos_act service sts es m t :
  Forall2 (step_acts service) sts es →
  ns_proxy (run_undos sts m) t =
  if service =? t then foldr (λ e x, e.2 x) (ns_proxy m t) es else ns_proxy m t.
Proof.
  intros H. unfold run_undos. induction H as [|st e sts es [_ Hu] _ IH]; simpl; [by destruct (_ =? _)|].
  rewrite Hu, IH. by destruct (_ =? _).
Qed.

(** The settings are the ones detection measured. *)
Definition measured (s : SystemSOCKSState) (x : proxy) : Prop :=
  px_on x = s_enabled s ∧ px_bypass x = BypassDomains s ∧
  (has_endpoint s = true → px_server x = Server s ∧ px_port x = Itoa (s_port s)).

Lemma restored_bypass l : l ≠ ["Empty"] → bypass_arg (match l with [] => ["Empty"] | l' => l' end) = l.
Proof.
  destruct l as [|a [|b l]]; simpl; intros H; try done; unfold bypass_arg; repeat case_match; try done; by simplify_eq.
Qed.

Lemma effects_restore p s n x :
  BypassDomains s ≠ ["Empty"] → measured s x →
  measured s (foldr (λ e y, e.2 y) (foldl (λ y e, e.1 y) x (take n (effects p s))) (take n (effects p s))).
Proof.
  intros He (H1 & H2 & H3). unfold effects, measured in *.
  destruct n as [|[|[|[|n]]]]; cbn [take foldl foldr fst snd set_on set_bypass px_on px_bypass px_server px_port];
    rewrite ?take_nil; cbn [foldl foldr]; rewrite ?restored_bypass by done; try done.
  all: destruct (has_endpoint s) eqn:E; cbn [set_on set_bypass set_endpoint px_on px_bypass px_server px_port];
    rewrite ?restored_bypass by done; done.
Qed.

Lemma one_service_restored p s n m mid t :
  let done := take n (socks_steps p s) in
  (Service s = t → ns_proxy mid t = ns_proxy (run_dos done m) t) → (Service s ≠ t → ns_proxy mid t = ns_proxy m t) →
  ns_proxy (run_undos done mid) t =
  if Service s =? t
  then foldr (λ e y, e.2 y) (foldl (λ y e, e.1 y) (ns_proxy m t) (take n (effects p s))) (take n (effects p s))
  else ns_proxy m t.
Proof.
  intros done E1 E2. pose proof (Forall2_take _ _ _ n (socks_steps_act p s)) as H.
  unfold done in *. rewrite (undos_act _ _ _ _ _ H). destruct (String.eqb_spec (Service s) t) as [E|E]; [|by apply E2].
  rewrite (E1 E), (dos_act _ _ _ _ _ H), (proj2 (String.eqb_eq _ _) E). done.
Qed.

Lemma run_dos_app l1 l2 m : run_dos (l1 ++ l2)%list m = run_dos l2 (run_dos l1 m).
Proof. apply foldl_app. Qed.

Lemma run_undos_app l1 l2 m : run_undos (l1 ++ l2)%list m = run_undos l1 (run_undos l2 m).
Proof. apply foldr_app. Qed.

(** All services, one after the other. *)
Lemma services_restored p l n m :
  NoDup (Service <$> l) →
  (∀ s, s ∈ l → BypassDomains s ≠ ["Empty"] ∧ measured s (ns_proxy m (Service s))) →
  let done := take n (concat (socks_steps p <$> l)) in
  let m' := run_undos done (run_dos done m) in
  (∀ s, s ∈ l → measured s (ns_proxy m' (Service s))) ∧
  (∀ t, t ∉ Service <$> l → ns_proxy m' t = ns_proxy m t).
Proof.
  revert n m. induction l as [|s l IH]; intros n m Hnd Hm done m'.
  { unfold m', done. simpl. rewrite take_nil. split; [by intros s []%elem_of_nil|done]. }
  rewrite fmap_cons in Hnd. apply NoDup_cons in Hnd as [Hs Hnd].
  set (d1 := take n (socks_steps p s)).
  set (d2 := take (n - length (socks_steps p s)) (concat (socks_steps p <$> l))).
  assert (Hd : done = (d1 ++ d2)%list) by (unfold done; rewrite fmap_cons; apply take_app).
  set (m1 := run_dos d1 m).
  assert (H1 : ∀ t, Service s ≠ t → ns_proxy m1 t = ns_proxy m t).
  { intros t Ht. unfold m1, d1. rewrite (dos_act _ _ _ _ _ (Forall2_take _ _ _ n (socks_steps_act p s))).
    by rewrite (proj2 (String.eqb_neq _ _) Ht). }
  destruct (IH (n - length (socks_steps p s))%nat m1 Hnd) as [IH1 IH2].
  { intros s' Hs'. rewrite H1; [apply Hm, elem_of_cons; by right|]. intros E. apply Hs. rewrite E. by apply list_elem_of_fmap_2. }
  fold d2 in IH1, IH2. set (m2 := run_undos d2 (run_dos d2 m1)) in *.
  assert (Hm' : m' = run_undos d1 m2) by (unfold m'; by rewrite Hd, run_dos_app, run_undos_app).
  assert (Hone : ∀ t, t = Service s ∨ t ∉ Service <$> l → ns_proxy m' t =
    if Service s =? t
    then foldr (λ e y, e.2 y) (foldl (λ y e, e.1 y) (ns_proxy m t) (take n (effects p s))) (take n (effects p s))
    else ns_proxy m t).
  { intros t Ht. rewrite Hm'. apply one_service_restored; intros E; rewrite IH2 by (destruct Ht as [->|]; done).
    - done.
    - by apply H1. }
  assert (Hrest : ∀ t, t ∈ Service <$> l → ns_proxy m' t = ns_proxy m2 t).
  { intros t Ht. rewrite Hm'. unfold d1. rewrite (undos_act _ _ _ _ _ (Forall2_take _ _ _ n (socks_steps_act p s))).
    rewrite (proj2 (String.eqb_neq _ _)); [done|]. intros E. apply Hs. by rewrite E. }
  split.
  - intros s' [->|Hs']%elem_of_cons.
    + rewrite Hone, String.eqb_refl by auto. destruct (Hm s) as [Hm1 Hm2]; [apply elem_of_cons; by left|].
      by apply effects_restore.
    + rewrite Hrest by by apply list_elem_of_fmap_2. by apply IH1.
  - intros t Ht. rewrite fmap_cons, not_elem_of_cons in Ht. destruct Ht as [Ht1 Ht2].
    rewrite Hone by auto. rewrite (proj2 (String.eqb_neq _ _)) by congruence. done.
Qed.

(** The macOS proxy settings come back. Whatever number of the proxy
    steps had been applied, undoing those newest first leaves every service
    switched as it was, with its own bypass list and with its own endpoint if
    it had one, and no other service touched; this although setting an
    endpoint turns the proxy on. *)
Theorem socks_round_trip p n m :
  NoDup (Service <$> pSystemSOCKS p) →
  (∀ s, s ∈ pSystemSOCKS p → BypassDomains s ≠ ["Empty"] ∧ measured s (ns_proxy m (Service s))) →
  let done := take n (darwinSystemSOCKSSteps p) in
  let m' := run_undos done (run_dos done m) in
  (∀ s, s ∈ pSystemSOCKS p → measured s (ns_proxy m' (Service s))) ∧
  (∀ t, t ∉ Service <$> pSystemSOCKS p → ns_proxy m' t = ns_proxy m t).
Proof.
  intros Hnd Hm. unfold darwinSystemSOCKSSteps. destruct (negb _).
  - rewrite take_nil. simpl. split; [intros s Hs; by apply Hm|done].
  - by apply services_restored.
Qed.

End Proxies.

(** ** The firewall and forwarding *)

(** The command starts forwarding packets. *)
Definition starts_forwarding (c : Command) : Prop :=
  Args c = ["-w"; "net.ipv4.ip_forward=1"] ∨ Args c = ["-w"; "net.inet.ip.forwarding=1"] ∨
  ∃ alias, Args c = ["iface"; "set"; alias; "forwarding"; "on"].

(** The step that loads a fail-closed ruleset of the plan. *)
Definition loads_firewall (p : Plan) (s : Step) : Prop :=
  match pPlatform p with
  | PlatformDarwin => Do s = Do (darwinFirewallStep p)
  | PlatformWindows => Do s = Do (windowsCutStep p)
  | _ => Do s = Do (FirewallStep p)
  end.

(** There is never a moment with forwarding on and the block not in
    force: in the order the steps are applied, the ruleset is loaded before
    any command that starts forwarding. *)
Theorem firewall_before_forwarding p cur i s :
  AllSteps p cur !! i = Some s → starts_forwarding (Do s) →
  ∃ j fw, (j < i)%nat ∧ AllSteps p cur !! j = Some fw ∧ loads_firewall p fw.
Proof.
  unfold AllSteps, PreEngineSteps, PostEngineSteps, loads_firewall. intros Hi Hf.
  destruct (pPlatform p) eqn:E; cbn [BackendFor be_pre be_post linuxBackend darwinBackend windowsBackend] in *.
  1, 2, 4: exists 0%nat; eexists; split; [destruct i; [|lia]|split; [reflexivity|reflexivity]];
    injection Hi as <-; destruct Hf as [Hf|[Hf|[a Hf]]]; discriminate.
  - unfold darwinPreEngineSteps, darwinPfEnableSteps in *. destruct (negb _); cbn [app] in *.
    + exists 0%nat. eexists. split; [destruct i; [|lia]|split; reflexivity].
      injection Hi as <-. destruct Hf as [Hf|[Hf|[a Hf]]]; discriminate.
    + exists 1%nat. eexists. split; [destruct i as [|[|i]]; [| |lia]|split; reflexivity];
        injection Hi as <-; destruct Hf as [Hf|[Hf|[a Hf]]]; discriminate.
  - done.
Qed.

(** ** A machine of each kind *)

Module Machine.

Import PlanFacts.Machines.

Definition read_knobs : knobs :=
  list_to_map [("net.ipv4.ip_forward", "0"); ("net.ipv4.conf.all.rp_filter", "1");
               ("net.ipv4.conf.default.rp_filter", "1"); ("net.ipv6.conf.all.forwarding", "0")].

(** testdata/golden-commands-mode-a.txt: an access point created beside a
    station that is not the uplink. *)
Definition captured : Facts :=
  MkFacts
    [MkLink "eth0" "UP" [MkPrefix (quad 192 168 1 2) 24] ""; MkLink "wlan0" "UP" [] ""]
    [MkRoute 4 (quad 192 168 1 1) "eth0" NoAddr "dhcp" 100 false false]
    [station] [radio [both]] [] false true ∅ 0.

Definition commands (r : res plan_error Plan) : list (string * string) :=
  match r with
  | Ok p => (λ s, (CommandLine (Do s), CommandLine (Undo s))) <$> AllSteps p read_knobs
  | Err _ => []
  end.

Example golden_commands :
  commands (PlanNetwork captured [quad 203 0 113 10] DefaultOptions) =
  [("nft -f -", "nft -f -");
   ("sysctl -w net.ipv4.ip_forward=1", "sysctl -w net.ipv4.ip_forward=0");
   ("sysctl -w net.ipv4.conf.all.rp_filter=2", "sysctl -w net.ipv4.conf.all.rp_filter=1");
   ("sysctl -w net.ipv4.conf.default.rp_filter=2", "sysctl -w net.ipv4.conf.default.rp_filter=1");
   ("sysctl -w net.ipv6.conf.all.forwarding=0", "sysctl -w net.ipv6.conf.all.forwarding=0");
   ("iw phy phy0 interface add ap0 type __ap", "iw dev ap0 del");
   ("nmcli device set ap0 managed no", "");
   ("ip link set dev ap0 up", "");
   ("ip address add 10.83.51.1/24 dev ap0", "ip address del 10.83.51.1/24 dev ap0");
   ("ip route add 203.0.113.10/32 via 192.168.1.1 dev eth0 proto static metric 5",
    "ip route del 203.0.113.10/32 via 192.168.1.1 dev eth0 metric 5");
   ("ip address add 198.18.51.1/30 dev xray0", "ip address del 198.18.51.1/30 dev xray0");
   ("ip route add 10.83.51.0/24 dev ap0 scope link table 8410", "ip route del 10.83.51.0/24 dev ap0 table 8410");
   ("ip route add default dev xray0 proto static table 8410", "ip route del default dev xray0 table 8410");
   ("ip rule add from 10.83.51.0/24 lookup 8410 priority 8410", "ip rule del from 10.83.51.0/24 lookup 8410 priority 8410");
   ("ip rule add fwmark 0x20da lookup 8410 priority 8409", "ip rule del fwmark 0x20da lookup 8410 priority 8409")].
Proof. vm_compute. reflexivity. Qed.

(** A Mac with two services, one with a proxy of its own. *)
Definition mac : Plan :=
  let o := DefaultOptions in
  let o := MkOptions PlatformDarwin (TunName o) (HotspotPool o) (TunnelPool o) (oHotspotSubnet o) (UplinkOverride o)
    (HotspotOverride o) (HotspotBand o) (APIfaceName o) (Table o) (RulePrio o) (FwMark o) (DNSPort o) (PanelPort o)
    (MkSOCKSOptions true "127.0.0.1" 10808) (Strategy o) (IPv6 o) (Egress o) (ClientIsolation o) (MasqueradeToTunnel o)
    (RPFilter o) in
  MkPlan PlatformDarwin ModeWiredUplink "en0" (quad 192 168 1 1) false NoAddr ""
    (MkHot "en1" "" false "" "" false ManagedByUnknown 6 false [] [])
    (MkPrefix (quad 10 83 51 0) 24) (quad 10 83 51 1) false [] "utun9" (MkPrefix (quad 198 18 51 0) 30)
    (quad 198 18 51 1) (quad 198 18 51 2) [quad 203 0 113 10] []
    [MkSOCKS "Ethernet" true "10.0.0.5" 1080 false ["*.corp"]; MkSOCKS "Wi-Fi" false "" 0 false []] o [].

Lemma steps_on_allowlist_witness :
  Path (Do (darwinFirewallStep mac)) ∈ AllowedBinaries PlatformDarwin.
Proof.
  apply (steps_on_allowlist mac ∅ (darwinFirewallStep mac)); [exact I|].
  apply elem_of_app. left. apply elem_of_app. left. apply elem_of_app. right. apply elem_of_cons. by left.
Defined.

Lemma changes_have_inverses_witness :
  irreversible mac (list_to_map [(darwinPfStatusKnob, "0")]) (step OpPf "" (cmd BinPfctl ["-e"] "") zero_command) ∧
  ∃ s, s ∈ AllSteps mac ∅ ∧ IsZero (Undo s) = true ∧ irreversible mac ∅ s.
Proof.
  split; [by apply IrrPfEnabled|].
  exists (sysctlStep "net.inet.ip.forwarding" "1" ∅
            "a machine that shares its connection is a router, and a router forwards").
  assert (H : sysctlStep "net.inet.ip.forwarding" "1" ∅
            "a machine that shares its connection is a router, and a router forwards" ∈ AllSteps mac ∅).
  { apply elem_of_app. left. apply elem_of_app. right. apply elem_of_app. right. apply elem_of_app. left.
    apply elem_of_cons. by left. }
  split; [exact H|]. split; [reflexivity|]. apply (changes_have_inverses mac ∅ _ H). reflexivity.
Defined.

Lemma pinned_routes_exact_witness :
  ∃ p, PlanNetwork captured [quad 203 0 113 10] DefaultOptions = Ok p ∧ PinnedServers p ≠ [].
Proof.
  eexists. split; [vm_compute; reflexivity|].
  eapply (pinned_routes_exact captured [quad 203 0 113 10] DefaultOptions _ ∅);
    [vm_compute; reflexivity|exact I|discriminate].
Defined.

Lemma firewall_before_forwarding_witness :
  ∃ j fw, (j < 1)%nat ∧ AllSteps mac ∅ !! j = Some fw ∧ loads_firewall mac fw.
Proof.
  apply (firewall_before_forwarding mac ∅ 1 (sysctlStep "net.inet.ip.forwarding" "1" ∅
    "a machine that shares its connection is a router, and a router forwards")); [reflexivity|].
  right. left. reflexivity.
Defined.

(** Settings as a table, the commands carried out as documented. *)
Definition run_ns (c : Command) (m : string → proxy) : string → proxy := λ t,
  match Args c with
  | ["-setsocksfirewallproxystate"; service; state] => if service =? t then set_on (state =? "on") (m t) else m t
  | ["-setsocksfirewallproxy"; service; server; port; "off"] =>
      if service =? t then MkProxy true server port (px_bypass (m t)) else m t
  | "-setproxybypassdomains" :: service :: domains =>
      if service =? t then MkProxy (px_on (m t)) (px_server (m t)) (px_port (m t)) (bypass_arg domains) else m t
  | _ => m t
  end.

#[export] Instance table_networksetup : Networksetup (string → proxy).
Proof.
  refine {| ns_run := run_ns; ns_proxy := λ m t, m t |}.
  - intros service on why m t. unfold run_ns. simpl. by destruct on.
  - intros service server port why m t. reflexivity.
  - intros service domains why m t. unfold run_ns, systemSOCKSBypassCommand. cbn [Args cmd].
    change (["-setproxybypassdomains"; service] ++ ?l)%list with ("-setproxybypassdomains" :: service :: l).
    reflexivity.
Defined.

Definition settings : string → proxy := λ t,
  if t =? "Ethernet" then MkProxy true "10.0.0.5" "1080" ["*.corp"] else MkProxy false "" "" [].

Lemma socks_round_trip_witness :
  measured (MkSOCKS "Ethernet" true "10.0.0.5" 1080 false ["*.corp"])
    (ns_proxy (run_undos (take 7 (darwinSystemSOCKSSteps mac)) (run_dos (take 7 (darwinSystemSOCKSSteps mac)) settings))
       "Ethernet").
Proof.
  apply (socks_round_trip mac 7 settings) with (s := MkSOCKS "Ethernet" true "10.0.0.5" 1080 false ["*.corp"]).
  - apply NoDup_cons. split; [|apply NoDup_singleton]. intros H%list_elem_of_singleton. discriminate.
  - intros s [->|[->|[]%elem_of_nil]%elem_of_cons]%elem_of_cons; (split; [discriminate|]);
      (split; [reflexivity|]); (split; [reflexivity|]); intros H; first [discriminate | split; reflexivity].
  - apply elem_of_cons. by left.
Defined.

End Machine.
