(* ===== verification/Detect.v ===== *)
(** * Looking at the machine (internal/netcfg/detect.go and verify.go)

    Detection and the readbacks run read-only commands through the [Runner] and
    parse what they print. Every command goes to the machine, in the order of
    the source, and its state is threaded. *)

From S2P Require Import Prelude GoStrings Netip Text Facts Command Parse Subnet Plan Nft Steps.

Local Open Scope Z_scope.

Inductive verify_error :=
| VEParse (e : parse_error)
| VERun (text : string)               (* a command could not be run *)
| ErrHotspotInterfaceMissing
| ErrLinkStateUnrecognised
| ErrHotspotNotReleased
| ErrNotAccessPoint
| ErrHotspotAddressMissing
| ErrFirewallNotLoaded
| ErrFirewallUnrecognised
| VEInventory                         (* Windows: the inventory could not be read *)
| VENothing.                          (* no plan or no interface to check *)

Definition lift_parse {A} (r : res parse_error A) : res verify_error A :=
  match r with Ok a => Ok a | Err e => Err (VEParse e) end.

(** ** Link state *)

Record linkState := MkLinkState { Connected : bool; ls_ssid : string }.

Definition no_link : linkState := MkLinkState false "".

(** The loop of parseIwLink; [verdict] is set once a line settled the question. *)
Fixpoint iw_link_lines (ls : list string) (st : linkState) (verdict : bool) : option linkState :=
  match ls with
  | [] => if verdict then Some st else None
  | raw :: ls =>
      let line := TrimSpace raw in
      if (line =? "")%string then iw_link_lines ls st verdict
      else if HasPrefix line "Not connected" then Some no_link
      else if HasPrefix line "Connected to" then iw_link_lines ls (MkLinkState true (ls_ssid st)) true
      else if HasPrefix line "SSID:" then
        iw_link_lines ls (MkLinkState (Connected st) (TrimSpace (TrimPrefix line "SSID:"))) verdict
      else iw_link_lines ls st verdict
  end.

Definition parseIwLink (out : string) : res verify_error linkState :=
  match iw_link_lines (lines_of out) no_link false with
  | Some st => Ok st
  | None => Err ErrLinkStateUnrecognised
  end.

Section Machine.
Context {K : Type} `{Runner K}.

Definition readLinkState (name : string) (k : K) : res verify_error linkState * K :=
  let '((r, err), k) := Run (MkCommand BinIw ["dev"; name; "link"] ""
    "whether this interface is joined to a network, asked directly rather than inferred from a channel") k in
  match err with
  | Some e => (Err (if IsNotFound r err then ErrHotspotInterfaceMissing else VERun e), k)
  | None => (parseIwLink (Stdout r), k)
  end.

Definition readWireless (name : string) (k : K) : res verify_error WirelessIface * K :=
  let '((r, err), k) := Run (MkCommand BinIw ["dev"] ""
    "read back what the interface actually is, rather than trusting that a command to change it succeeded") k in
  match err with
  | Some e => (Err (VERun e), k)
  | None =>
      (let? ifaces := lift_parse (ParseIwDev (Stdout r)) in
       match List.find (λ w, (w_name w =? name)%string) ifaces with
       | Some w => Ok w
       | None => Err ErrNotAccessPoint
       end, k)
  end.

Definition readAddrs (name : string) (k : K) : res verify_error (list Prefix) * K :=
  let '((r, err), k) := Run (MkCommand BinIP ["-br"; "addr"; "show"; "dev"; name] ""
    "an address from another network left on this interface is a path onto that network") k in
  match err with
  | Some e => (Err (VERun e), k)
  | None =>
      (let? links := lift_parse (ParseBriefAddr (Stdout r)) in
       Ok (match List.find (λ l, (l_name l =? name)%string) links with
           | Some l => l_prefixes l
           | None => []
           end), k)
  end.

(** ** The readbacks *)

(** An address that may stay on the interface before it serves the hotspot. *)
Definition harmless (subnet : Prefix) (a : Prefix) : bool :=
  IsLinkLocalUnicast (p_addr a) || IsLoopback (p_addr a) ||
  (prefix_valid subnet && Contains_addr subnet (p_addr a)).

Definition linuxAssertHotspotInterfaceReleased (p : Plan) (k : K) : res verify_error unit * K :=
  if (Hotspot (hot p) =? "")%string then (Err VENothing, k)
  else
    let '(link, k) := readLinkState (Hotspot (hot p)) k in
    match link with
    | Err e => (Err e, k)
    | Ok link =>
        if Connected link then (Err ErrHotspotNotReleased, k)
        else
          let '(w, k) := readWireless (Hotspot (hot p)) k in
          match w with
          | Err e => (Err e, k)
          | Ok w =>
              if negb (SSID w =? "")%string then (Err ErrHotspotNotReleased, k)
              else
                let '(addrs, k) := readAddrs (Hotspot (hot p)) k in
                match addrs with
                | Err e => (Err e, k)
                | Ok addrs =>
                    (if forallb (harmless (HotspotSubnet p)) addrs then Ok tt
                     else Err ErrHotspotNotReleased, k)
                end
          end
    end.

Definition AssertHotspotAddressPresent (p : Plan) (k : K) : res verify_error unit * K :=
  if (Hotspot (hot p) =? "")%string then (Err VENothing, k)
  else if negb (addr_valid (HotspotGateway p)) then (Err VENothing, k)
  else
    let '(addrs, k) := readAddrs (Hotspot (hot p)) k in
    match addrs with
    | Err e => (Err e, k)
    | Ok addrs =>
        (if existsb (λ a, bool_decide (p_addr a = HotspotGateway p)) addrs then Ok tt
         else Err ErrHotspotAddressMissing, k)
    end.

Definition linuxAssertHotspotIsAccessPoint (p : Plan) (ssid : string) (k : K) : res verify_error unit * K :=
  if (Hotspot (hot p) =? "")%string then (Err VENothing, k)
  else
    let '(w, k) := readWireless (Hotspot (hot p)) k in
    match w with
    | Err e => (Err e, k)
    | Ok w =>
        (if negb (EqualFold (w_type w) "AP") then Err ErrNotAccessPoint
         else if negb (ssid =? "")%string && negb (SSID w =? ssid)%string then Err ErrNotAccessPoint
         else Ok tt, k)
    end.

Definition AssertFirewallLoaded (p : Plan) (k : K) : res verify_error unit * K :=
  if (Hotspot (hot p) =? "")%string || (Uplink p =? "")%string then (Err VENothing, k)
  else
    let '((r, err), k) := Run (MkCommand BinNft ["list"; "table"; "inet"; TableName] ""
      "the journal says the firewall was loaded; this asks the kernel whether it still is") k in
    match err with
    | Some _ => (Err ErrFirewallNotLoaded, k)
    | None =>
        (if (TrimSpace (Stdout r) =? "")%string then Err ErrFirewallNotLoaded
         else if existsb (λ line,
                 Contains line "iifname" && Contains line "oifname" &&
                 (Contains line (Hotspot (hot p)) && Contains line (Uplink p) && Contains line "drop"))
                (lines_of (Stdout r)) then Ok tt
         else Err ErrFirewallUnrecognised, k)
    end.

(** ** Detection *)

(** A command whose failure leaves the facts as they were. *)
Definition optional {A} (c : Command) (f : A) (g : string → A) (k : K) : A * K :=
  let '((r, err), k) := Run c k in
  (match err with Some _ => f | None => g (Stdout r) end, k).

Definition set_link (w : WirelessIface) (st : linkState) : WirelessIface :=
  MkWireless (w_name w) (w_phy w) (w_type w)
    (if (ls_ssid st =? "")%string then SSID w else ls_ssid st)
    (w_channel w) (FreqMHz w) (MAC w) (Manager w) (Connected st) true.

Definition set_manager (owners : gmap string InterfaceManager) (w : WirelessIface) : WirelessIface :=
  MkWireless (w_name w) (w_phy w) (w_type w) (SSID w) (w_channel w) (FreqMHz w) (MAC w)
    (default ManagedByNothing (owners !! w_name w)) (Associated w) (LinkKnown w).

Definition set_bus (buses : gmap string string) (l : Link) : Link :=
  MkLink (l_name l) (l_state l) (l_prefixes l) (default (l_bus l) (buses !! l_name l)).

(** Ask each station interface whether it is joined to a network. *)
Fixpoint probe_links (ws : list WirelessIface) (k : K) : list WirelessIface * K :=
  match ws with
  | [] => ([], k)
  | w :: ws =>
      if IsAccessPoint w then
        let '(ws, k) := probe_links ws k in (w :: ws, k)
      else
        let '(st, k) := readLinkState (w_name w) k in
        let '(ws, k) := probe_links ws k in
        (match st with Ok st => set_link w st | Err _ => w end :: ws, k)
  end.

Inductive detect_error :=
| DEList (text : string)
| DERoute (text : string)
| DEParse (e : parse_error)
| DEPorts (text : string)              (* macOS: the hardware ports *)
| DEInventory.                         (* Windows: the inventory could not be read *)

Definition c_addr := MkCommand BinIP ["-br"; "addr"] ""
  "interfaces and the addresses on them, which a hotspot subnet must not collide with".
Definition c_route := MkCommand BinIP ["route"; "show"; "default"] ""
  "the uplink is whichever interface carries the default route".
Definition c_route6 := MkCommand BinIP ["-6"; "route"; "show"; "default"] ""
  "an IPv6 server address needs an IPv6 gateway to pin a host route through".
Definition c_link := MkCommand BinIP ["-d"; "link"; "show"] ""
  "tells a USB adapter from the radio on the board, which decides which one runs the access point in mode B".
Definition c_dev := MkCommand BinIw ["dev"] ""
  "which interfaces are wireless, and which radio each one belongs to".
Definition c_list := MkCommand BinIw ["list"] ""
  "AP support and the interface combination limits, read from the radio rather than assumed".
Definition c_nmcli := MkCommand BinNmcli ["-t"; "-f"; "DEVICE,STATE"; "device"; "status"] ""
  "an interface has to be released by whatever manages it before it can become an access point".
Definition c_sysctl (knobs : list string) := MkCommand BinSysctl (["-e"; "--"] ++ knobs)%list ""
  "read the values to restore on teardown".

(** The part of Detect after the interfaces and the default route are known:
    nothing in it fails. *)
Definition detect_rest (links : list Link) (v4 : list DefaultRoute) (knobs : list string) (now : Z)
    (k : K) : Facts * K :=
  let '(v6, k) := optional c_route6 []
    (λ out, match ParseDefaultRoutes out with Ok v6 => set_family 6 <$> v6 | Err _ => [] end) k in
  let '(links, k) := optional c_link links (λ out, set_bus (ParseLinkDetail out) <$> links) k in
  let '(ws, k) := optional c_dev [] (λ out, match ParseIwDev out with Ok ws => ws | Err _ => [] end) k in
  let '(ws, k) := probe_links ws k in
  let '(phys, k) := optional c_list [] (λ out, match ParseIwList out with Ok ps => ps | Err _ => [] end) k in
  let '(owners, k) := optional c_nmcli ∅ ParseNmcliDeviceStatus k in
  let nm := negb (bool_decide (owners = ∅)) in
  let ws := if nm then set_manager owners <$> ws else ws in
  let '(vals, k) := match knobs with
                    | [] => (∅, k)
                    | _ => optional (c_sysctl knobs) ∅ ParseSysctl k
                    end in
  (MkFacts links (v4 ++ v6)%list ws phys [] false nm vals now, k).

Definition Detect (knobs : list string) (now : Z) (k : K) : res detect_error Facts * K :=
  let '((r, err), k) := Run c_addr k in
  match err with
  | Some e => (Err (DEList e), k)
  | None =>
      match ParseBriefAddr (Stdout r) with
      | Err e => (Err (DEParse e), k)
      | Ok links =>
          let '((r, err), k) := Run c_route k in
          match err with
          | Some e => (Err (DERoute e), k)
          | None =>
              match ParseDefaultRoutes (Stdout r) with
              | Err e => (Err (DEParse e), k)
              | Ok v4 => let '(f, k) := detect_rest links v4 knobs now k in (Ok f, k)
              end
          end
      end
  end.

(** ** The regulatory domain *)

Definition IsUpperAlpha2 (s : string) : bool :=
  match to_l s with
  | [a; b] => let up c := (65 <=? Z.of_nat (nat_of_ascii c)) && (Z.of_nat (nat_of_ascii c) <=? 90) in up a && up b
  | _ => false
  end.

Definition reg_line (raw : string) : option string :=
  let line := TrimSpace raw in
  if negb (HasPrefix line "country ") then None
  else match Cut (TrimPrefix line "country ") ":" with
       | None => None
       | Some (cc, _) =>
           let cc := TrimSpace cc in
           if negb (String.length cc =? 2)%nat || (cc =? "00")%string || negb (IsUpperAlpha2 cc)
           then None else Some cc
       end.

Definition ParseRegDomain (out : string) : option string := head (omap reg_line (lines_of out)).

Definition RegulatoryDomain (k : K) : option string * K :=
  let '((r, err), k) := Run (MkCommand BinIw ["reg"; "get"] ""
    "the regulatory domain, which hostapd needs before it will beacon on any channel") k in
  (match err with Some _ => None | None => ParseRegDomain (Stdout r) end, k).

(** ** Reading, then deciding *)

Inductive dap_error := DAPDetect (e : detect_error) | DAPPlan (e : plan_error).

(** privsvc's missingKnobs, and the loop of DetectAndPlan. *)
Definition missingKnobs (f : Facts) (ks : list string) : bool :=
  existsb (λ k, match Sysctl f !! k with Some _ => false | None => true end) ks.

Definition DetectAndPlan (servers : list Addr) (o : Options) (now : Z) (k : K) :
    res dap_error (Facts * Plan) * K :=
  let '(f, k) := Detect BaseSysctlKnobs now k in
  match f with
  | Err e => (Err (DAPDetect e), k)
  | Ok f =>
      match PlanNetwork f servers o with
      | Err e => (Err (DAPPlan e), k)
      | Ok p =>
          if negb (missingKnobs f (SysctlKnobs p)) then (Ok (f, p), k)
          else
            let '(full, k) := Detect (SysctlKnobs p) now k in
            match full with
            | Err e => (Err (DAPDetect e), k)
            | Ok full => (Ok (full, p), k)
            end
      end
  end.

End Machine.
