(* ===== verification/DetectFacts.v ===== *)
(** * What detection guarantees

    Whatever the machine prints, the facts are well formed, which is what the
    planner's theorems assume of them, and only read-only commands run. The
    bytes captured from a machine give the command list recorded for it. *)

From S2P Require Import Prelude GoStrings Netip Text Facts Command Parse Subnet Plan PlanFacts Nft Steps Detect.

Local Open Scope Z_scope.

(** ** Parsed addresses are in range *)

Lemma dec_digit_bound c d : dec_digit c = Some d → 0 ≤ d ≤ 9.
Proof. unfold dec_digit. case_match; [|done]. intros [= <-]. breflect. lia. Qed.

Lemma octet_bound l v : octet l = Some v → 0 ≤ v ≤ 255.
Proof.
  unfold octet. destruct l as [|c r]; [done|].
  destruct (mapM dec_digit (c :: r)) as [ds|] eqn:E; [|done]. cbn [mbind option_bind].
  destruct (_ || _) eqn:Ec; [done|]. intros [= <-]. breflect. split; [|lia].
  apply mapM_Some in E. clear -E.
  assert (Forall (λ d, 0 ≤ d) ds) as Hd.
  { induction E as [|? ? ? ? Hd E IH]; constructor; [by apply dec_digit_bound in Hd as []|done]. }
  clear E. assert (∀ a, 0 ≤ a → 0 ≤ foldl (λ v d, 10 * v + d) a ds) as H; [|by apply H].
  induction Hd as [|d ds Hd _ IH]; intros a Ha; simpl; [done|]. apply IH. lia.
Qed.

Lemma parseIPv4_bound l n : parseIPv4 l = Some n → 0 ≤ n < 2 ^ 32.
Proof.
  unfold parseIPv4. intros H. repeat case_match; try done.
  repeat match goal with
  | H : (octet ?x ≫= _) = Some _ |- _ =>
      let E := fresh "E" in destruct (octet x) eqn:E; [|done]; cbn [mbind option_bind] in H
  end.
  injection H as <-.
  repeat match goal with H : octet _ = Some _ |- _ => apply octet_bound in H end. lia.
Qed.

Lemma hex_run_bound l : ∀ acc n v m r,
  hex_run acc n l = (v, m, r) → 0 ≤ acc < 16 ^ Z.of_nat n → 0 ≤ v < 16 ^ Z.of_nat m ∧ (n ≤ m)%nat.
Proof.
  induction l as [|c l IH]; intros acc n v m r H Hacc; cbn [hex_run] in H; [by simplify_eq; auto|].
  destruct (hex_value c) as [h|] eqn:E; [|by simplify_eq; auto].
  assert (0 ≤ h < 16) by (unfold hex_value in E; repeat case_match; simplify_eq; breflect; lia).
  apply IH in H; [destruct H; split; [done|lia]|].
  rewrite Nat2Z.inj_succ, Z.pow_succ_r by lia. lia.
Qed.

Definition field_ok (v : Z) : Prop := 0 ≤ v < 65536.

Lemma hex_field l v n r : hex_run 0 0 l = (v, n, r) → (4 <? n)%nat = false → field_ok v.
Proof.
  intros H Hn. apply hex_run_bound in H as [Hv _]; [|simpl; lia]. breflect. unfold field_ok.
  assert (16 ^ Z.of_nat n ≤ 16 ^ 4) by (apply Z.pow_le_mono_r; lia). lia.
Qed.

Lemma v6_fields_ok fuel : ∀ acc ell l fs e r,
  v6_fields fuel acc ell l = Some (fs, e, r) → Forall field_ok acc → Forall field_ok fs.
Proof.
  induction fuel as [|fl IH]; intros acc ell l fs e r H Hacc; cbn [v6_fields] in H; [by simplify_eq|].
  destruct (hex_run 0 0 l) as [[v n] r'] eqn:Er.
  destruct (_ || _) eqn:En; [done|]. apply orb_false_iff in En as [_ En].
  pose proof (hex_field _ _ _ _ Er En) as Hv.
  assert (Forall field_ok (acc ++ [v])) as Hav by (apply Forall_app; split; [done|by apply Forall_singleton]).
  assert (∀ q, parseIPv4 l = Some q → Forall field_ok (acc ++ [q / 65536; q mod 65536])) as Hq.
  { intros q H4. apply parseIPv4_bound in H4. apply Forall_app. split; [done|].
    apply Forall_cons; split; [|apply Forall_singleton]; unfold field_ok;
      [split; [apply Z.div_pos|apply Z.div_lt_upper_bound]; lia|apply Z.mod_pos_bound; lia]. }
  repeat case_match; simplify_eq; eauto;
    (destruct (parseIPv4 l) as [q'|] eqn:E4; [|done]; cbn [mbind option_bind] in H; simplify_eq; eauto).
Qed.

Lemma v6_value_bound fs : Forall field_ok fs → 0 ≤ v6_value fs < 65536 ^ Z.of_nat (length fs).
Proof.
  intros H. unfold v6_value.
  assert (∀ a n, 0 ≤ a < 65536 ^ Z.of_nat n →
    0 ≤ foldl (λ v f, v * 65536 + f) a fs < 65536 ^ Z.of_nat (n + length fs)) as Hg.
  { induction H as [|f fs Hf _ IH]; intros a n Ha; simpl; [by rewrite Nat.add_0_r|].
    replace (n + S (length fs))%nat with (S n + length fs)%nat by lia. apply IH.
    unfold field_ok in Hf. rewrite Nat2Z.inj_succ, Z.pow_succ_r by lia. lia. }
  apply (Hg 0 0%nat). simpl. lia.
Qed.

Lemma v6_finish_ok zone r a :
  v6_finish zone r = Some a → (∀ fs e rest, r = Some (fs, e, rest) → Forall field_ok fs) →
  (∀ fs e rest, r = Some (fs, e, rest) → (length fs ≤ 8)%nat) → addr_ok a.
Proof.
  intros H Hf Hl. destruct r as [[[fs e] rest]|]; [|done].
  specialize (Hf _ _ _ eq_refl). specialize (Hl _ _ _ eq_refl). cbn [v6_finish] in H.
  assert (∀ l, Forall field_ok l → length l = 8%nat → 0 ≤ v6_value l < 2 ^ 128) as H8.
  { intros l Hok Hlen. pose proof (v6_value_bound l Hok) as Hb. rewrite Hlen in Hb. exact Hb. }
  destruct (negb _); [done|]. destruct (_ <? _)%nat eqn:El; breflect.
  - destruct e as [e|]; [|done]. simplify_eq. apply H8.
    + apply Forall_app; split; [by apply Forall_take|]. apply Forall_app; split; [|by apply Forall_drop].
      apply Forall_replicate. unfold field_ok. lia.
    + rewrite !length_app, length_take, length_drop, length_replicate. lia.
  - destruct e; [done|]. simplify_eq. apply H8; [done|lia].
Qed.

Lemma v6_fields_length fuel : ∀ acc ell l fs e r,
  v6_fields fuel acc ell l = Some (fs, e, r) → (length acc + fuel ≤ 8)%nat → (length fs ≤ 8)%nat.
Proof.
  induction fuel as [|fl IH]; intros acc ell l fs e r H Hacc; cbn [v6_fields] in H; [simplify_eq; lia|].
  destruct (hex_run 0 0 l) as [[v n] r'] eqn:Er. destruct (_ || _) eqn:En; [done|].
  assert (length (acc ++ [v]) = S (length acc)) as Hav by (rewrite length_app; simpl; lia).
  repeat case_match; simplify_eq; try (eapply IH; [eassumption|lia]); try lia;
    (destruct (parseIPv4 l) as [q'|] eqn:E4; [|done]; cbn [mbind option_bind] in H; simplify_eq;
     breflect; rewrite length_app; simpl; lia).
Qed.

Lemma ParseAddr_ok s a : ParseAddr s = Some a → addr_ok a.
Proof.
  unfold ParseAddr. destruct (first_mark _) as [c|]; [|done].
  assert (∀ l a, parseIPv6 l = Some a → addr_ok a) as H6.
  { intros l a' H. unfold parseIPv6 in H. destruct (cut_at "%" l) as [s' zone].
    assert (∀ z ell l, v6_finish z (v6_fields 8 [] ell l) = Some a' → addr_ok a') as Hf.
    { intros z ell l' Hv. eapply v6_finish_ok; [exact Hv|..].
      - intros fs e rest Hr. by eapply v6_fields_ok.
      - intros fs e rest Hr. eapply v6_fields_length; [exact Hr|simpl; lia]. }
    repeat case_match; simplify_eq; first [by eapply Hf|simpl; lia]. }
  intros H. repeat case_match; try done; eauto.
  destruct (parseIPv4 _) as [n|] eqn:E; [|done]. cbn [mbind option_bind] in H. simplify_eq.
  by apply parseIPv4_bound in E.
Qed.

Lemma ParseAddr_valid s a : ParseAddr s = Some a → addr_valid a = true.
Proof.
  unfold ParseAddr, parseIPv6, v6_finish. intros H.
  repeat (case_match; simplify_eq; try done);
    (destruct (parseIPv4 _); [|done]; cbn [mbind option_bind] in H; by simplify_eq).
Qed.

Lemma ParsePrefix_ok s p : ParsePrefix s = Some p → prefix_ok p.
Proof.
  unfold ParsePrefix. intros H.
  destruct (last_index _ _) as [i|]; [|done]. cbn [mbind option_bind] in H.
  destruct (ParseAddr _) as [a|] eqn:E; [|done]. cbn [mbind option_bind] in H.
  pose proof (ParseAddr_valid _ _ E). apply ParseAddr_ok in E. destruct (hasZone a); [done|]. case_match; [done|].
  destruct (Atoi _) as [n|]; [|done]. cbn [mbind option_bind] in H. case_match; [done|]. simplify_eq.
  breflect. assert (PrefixFrom a n = MkPrefix (withoutZone a) n) as ->.
  { unfold PrefixFrom. replace (0 <=? n) with true by lia. replace (n <=? BitLen a) with true by lia.
    by destruct a. }
  split; [|by destruct a]. unfold prefix_valid. cbn [p_addr Bits].
  destruct a; [done|..]; cbn in *; replace (0 <=? n) with true by lia; cbn; lia.
Qed.

(** ** Well-formed facts *)

Definition link_ok (l : Link) : Prop := ValidInterfaceName (l_name l) = true ∧ Forall prefix_ok (l_prefixes l).

Definition route_ok (r : DefaultRoute) : Prop :=
  ValidInterfaceName (Dev r) = true ∧ addr_ok (r_gateway r) ∧ addr_ok (Src r) ∧ (Family r = 4 ∨ Family r = 6).

Definition wireless_ok (w : WirelessIface) : Prop := ValidInterfaceName (w_name w) = true.

(** What gather returns satisfies what each line satisfies. *)
Lemma gather_Forall {A} (P : A → Prop) (f : string → res parse_error (option A)) ls xs :
  (∀ l x, f l = Ok (Some x) → P x) → gather f ls = Ok xs → Forall P xs.
Proof.
  intros Hf. revert xs. induction ls as [|l ls IH]; intros xs H; cbn [gather] in H; [by simplify_eq|].
  destruct (f l) as [[x|]|] eqn:E; [| |done]; destruct (gather f ls) as [ys|] eqn:Eg; simplify_eq; eauto.
Qed.

Lemma ParseBriefAddr_ok out ls : ParseBriefAddr out = Ok ls → Forall link_ok ls.
Proof.
  apply gather_Forall. intros raw l H. unfold addr_line in H. repeat case_match; simplify_eq.
  breflect. split; [done|]. cbn [l_prefixes]. apply Forall_forall. intros p Hp.
  apply list_elem_of_omap in Hp as (x & _ & Hx). by apply ParsePrefix_ok in Hx.
Qed.

Lemma route_fields_ok n : ∀ fs r r', (length fs ≤ n)%nat →
  route_fields fs r = Ok r' → addr_ok (r_gateway r) → addr_ok (Src r) →
  addr_ok (r_gateway r') ∧ addr_ok (Src r') ∧ Family r' = Family r.
Proof.
  induction n as [|n IH]; intros fs r r' Hn H Hg Hs.
  { destruct fs; [|simpl in Hn; lia]. cbn in H. by simplify_eq. }
  destruct fs as [|f fs]; cbn [route_fields] in H; [by simplify_eq|]. simpl in Hn.
  repeat case_match; simplify_eq; try done; subst; simpl in Hn;
    (eapply IH in H; [exact H| |cbn; eauto using ParseAddr_ok ..]; lia).
Qed.

Lemma ParseDefaultRoutes_ok out rs : ParseDefaultRoutes out = Ok rs → Forall route_ok rs.
Proof.
  apply gather_Forall. intros raw r H. unfold route_line in H.
  destruct (Fields (TrimSpace raw)) as [|f fs]; [done|]. destruct (negb _); [done|].
  destruct (route_fields fs _) as [r0|] eqn:E; [|done].
  apply (route_fields_ok (length fs)) in E as (Hg & Hs & Hf); [|done..].
  destruct (Dev r0 =? "")%string; [done|]. destruct (ValidInterfaceName (Dev r0)) eqn:Ev; [|done].
  cbn [negb] in H. injection H as <-. cbn [Family] in Hf.
  case_match; split_and!; cbn; auto.
Qed.

Lemma dev_field_name t w : w_name (dev_field t w) = w_name w.
Proof. unfold dev_field. repeat case_match; try done. Qed.

Lemma ParseIwDev_ok out ws : ParseIwDev out = Ok ws → Forall wireless_ok ws.
Proof.
  unfold ParseIwDev. destruct (dev_lines _ _) as [st|] eqn:E; [|done]. intros [= <-].
  revert E. generalize (lines_of out). intros ls.
  assert (Forall wireless_ok (d_ifaces (MkDev [] "" None))) as H0 by constructor.
  revert H0. generalize (MkDev [] "" None). induction ls as [|l ls IH]; intros st0 H0 E; cbn [dev_lines] in E.
  { by simplify_eq. }
  destruct (dev_line st0 l) as [st1|] eqn:E1; [|done]. eapply IH; [|exact E].
  unfold dev_line in E1. repeat case_match; simplify_eq; cbn [d_ifaces]; try done.
  - apply Forall_app; split; [done|]. apply Forall_singleton. by breflect.
  - apply Forall_alter; [done|]. intros w _ Hw. unfold wireless_ok. by rewrite dev_field_name.
Qed.

Section Detection.
Context {K : Type} `{Runner K}.

Lemma probe_links_ok ws : ∀ k, Forall wireless_ok ws → Forall wireless_ok (fst (probe_links ws k)).
Proof.
  induction ws as [|w ws IH]; intros k Hw; cbn [probe_links]; [constructor|].
  inversion_clear Hw as [|? ? Hw1 Hw2]. destruct (IsAccessPoint w).
  - specialize (IH k Hw2). destruct (probe_links ws k). by constructor.
  - destruct (readLinkState (w_name w) k) as [st k']. specialize (IH k' Hw2).
    destruct (probe_links ws k'). constructor; [|done]. by destruct st.
Qed.

Lemma optional_ok {A} (P : A → Prop) c f g (k : K) :
  P f → (∀ out, P (g out)) → P (fst (optional c f g k)).
Proof. unfold optional. destruct (Run c k) as [[r [e|]] k']; simpl; auto. Qed.

Ltac step_optional :=
  match goal with |- context [optional ?c ?f ?g ?k] =>
    let H := fresh "Hopt" in
    pose proof (λ P, optional_ok P c f g k) as H; destruct (optional c f g k); cbn [fst] in H
  end.

Lemma detect_rest_ok links v4 knobs now k f k' :
  detect_rest links v4 knobs now k = (f, k') → Forall link_ok links → Forall route_ok v4 →
  Forall link_ok (Links f) ∧ Forall route_ok (Routes f) ∧ Forall wireless_ok (Wireless f).
Proof.
  intros Hd Hl Hr. unfold detect_rest in Hd.
  destruct (optional c_route6 _ _ k) as [v6 k1] eqn:E6.
  assert (Forall route_ok v6) as H6.
  { pose proof (optional_ok (Forall route_ok) c_route6 []
      (λ out, match ParseDefaultRoutes out with Ok v6 => set_family 6 <$> v6 | Err _ => [] end) k) as Ho.
    rewrite E6 in Ho. apply Ho; [constructor|]. intros out.
    destruct (ParseDefaultRoutes out) eqn:E; [|constructor]. apply ParseDefaultRoutes_ok in E.
    apply Forall_fmap. eapply Forall_impl; [exact E|]. intros r (? & ? & ? & ?). split_and!; cbn; auto. }
  destruct (optional c_link _ _ k1) as [links' k2] eqn:El.
  assert (Forall link_ok links') as Hl'.
  { pose proof (optional_ok (Forall link_ok) c_link links (λ out, set_bus (ParseLinkDetail out) <$> links) k1) as Ho.
    rewrite El in Ho. apply Ho; [done|]. intros out. apply Forall_fmap. eapply Forall_impl; [exact Hl|].
    intros l [? ?]. by split. }
  destruct (optional c_dev _ _ k2) as [ws k3] eqn:Ew.
  assert (Forall wireless_ok ws) as Hw.
  { pose proof (optional_ok (Forall wireless_ok) c_dev []
      (λ out, match ParseIwDev out with Ok ws => ws | Err _ => [] end) k2) as Ho.
    rewrite Ew in Ho. apply Ho; [constructor|]. intros out.
    destruct (ParseIwDev out) eqn:E; [by apply ParseIwDev_ok in E|constructor]. }
  pose proof (probe_links_ok ws k3 Hw) as Hw'. destruct (probe_links ws k3) as [ws' k4].
  destruct (optional c_list _ _ k4) as [phys k5]. destruct (optional c_nmcli _ _ k5) as [owners k6].
  destruct (match knobs with [] => _ | _ => _ end) as [vals k7]. injection Hd as <- _. cbn [Links Routes Wireless].
  split_and!; [done|by apply Forall_app|]. case_match; [|done]. apply Forall_fmap. exact Hw'.
Qed.

(** C34. Whatever the machine prints, a detection that succeeds returns
    well-formed facts: every interface named in them has a plausible name, every
    address and prefix is in range and valid, and every route has a family. This
    is what the planner's theorems assume. *)
Theorem detect_well_formed (knobs : list string) (now : Z) (k k' : K) (f : Facts) :
  Detect knobs now k = (Ok f, k') →
  facts_ok f ∧ Forall link_ok (Links f) ∧ Forall route_ok (Routes f) ∧ Forall wireless_ok (Wireless f).
Proof.
  unfold Detect. intros Hd. destruct (Run c_addr k) as [[r err] k1]. destruct err; [done|].
  destruct (ParseBriefAddr _) as [links|] eqn:El; [|done].
  destruct (Run c_route k1) as [[r2 err2] k2]. destruct err2; [done|].
  destruct (ParseDefaultRoutes _) as [v4|] eqn:Er; [|done].
  destruct (detect_rest links v4 knobs now k2) as [f0 k3] eqn:E. simplify_eq.
  apply detect_rest_ok in E as (Hl & Hr & Hw);
    [|by eapply ParseBriefAddr_ok|by eapply ParseDefaultRoutes_ok].
  split; [|done]. rewrite Forall_forall in Hl. rewrite Forall_forall in Hr. split.
  - intros l q Hin Hq. destruct (Hl l Hin) as [_ Hp]. rewrite Forall_forall in Hp. by apply Hp.
  - intros r' Hin. by apply Hr.
Qed.

(** The commands that only read. *)
Inductive reads (knobs : list string) : Command → Prop :=
| reads_addr : reads knobs c_addr
| reads_route : reads knobs c_route
| reads_route6 : reads knobs c_route6
| reads_link : reads knobs c_link
| reads_dev : reads knobs c_dev
| reads_list : reads knobs c_list
| reads_nmcli : reads knobs c_nmcli
| reads_sysctl : reads knobs (c_sysctl knobs)
| reads_iface name why : ValidInterfaceName name = true → reads knobs (MkCommand BinIw ["dev"; name; "link"] "" why).

Lemma probe_links_reads (I : K → Prop) knobs ws :
  (∀ c k, reads knobs c → I k → I (snd (Run c k))) →
  ∀ k, Forall wireless_ok ws → I k → I (snd (probe_links ws k)).
Proof.
  intros HI. induction ws as [|w ws IH]; intros k Hw Hk; cbn [probe_links]; [done|].
  inversion_clear Hw as [|? ? Hw1 Hw2]. destruct (IsAccessPoint w).
  { specialize (IH k Hw2 Hk). by destruct (probe_links ws k). }
  assert (I (snd (readLinkState (w_name w) k))) as Hk'.
  { unfold readLinkState. match goal with |- context [Run ?c k] =>
      pose proof (HI c k (reads_iface knobs (w_name w) _ Hw1) Hk) as HR; destruct (Run c k) as [[r e] k1] end.
    by destruct e. }
  destruct (readLinkState (w_name w) k) as [st k1]. specialize (IH k1 Hw2 Hk').
  by destruct (probe_links ws k1).
Qed.

Lemma optional_reads (I : K → Prop) knobs {A} c (f : A) g k :
  (∀ c k, reads knobs c → I k → I (snd (Run c k))) → reads knobs c → I k → I (snd (optional c f g k)).
Proof. intros HI Hc Hk. unfold optional. specialize (HI c k Hc Hk). by destruct (Run c k) as [[]]. Qed.

(** Detection changes nothing: whatever property of the machine the
    read-only commands keep, Detect keeps. It runs no other command, and names in
    them only interfaces whose names it has checked. *)
Theorem detect_read_only (I : K → Prop) (knobs : list string) (now : Z) (k : K) :
  (∀ c k, reads knobs c → I k → I (snd (Run c k))) → I k → I (snd (Detect knobs now k)).
Proof.
  intros HI Hk. unfold Detect.
  pose proof (HI _ _ (reads_addr knobs) Hk) as H1. destruct (Run c_addr k) as [[r err] k1].
  cbn [snd] in H1. destruct err; [exact H1|]. destruct (ParseBriefAddr _) as [links|]; [|exact H1].
  pose proof (HI _ _ (reads_route knobs) H1) as H2. destruct (Run c_route k1) as [[r2 err2] k2].
  cbn [snd] in H2. destruct err2; [exact H2|]. destruct (ParseDefaultRoutes _) as [v4|]; [|exact H2].
  enough (I (snd (detect_rest links v4 knobs now k2))) by by destruct (detect_rest links v4 knobs now k2).
  unfold detect_rest.
  match goal with |- context [optional c_route6 ?f ?g k2] =>
    pose proof (optional_reads I knobs c_route6 f g k2 HI (reads_route6 knobs) H2) as H3;
    destruct (optional c_route6 f g k2) as [v6 k3] end.
  match goal with |- context [optional c_link ?f ?g k3] =>
    pose proof (optional_reads I knobs c_link f g k3 HI (reads_link knobs) H3) as H4;
    destruct (optional c_link f g k3) as [links' k4] end.
  match goal with |- context [optional c_dev ?f ?g k4] =>
    pose proof (optional_reads I knobs c_dev f g k4 HI (reads_dev knobs) H4) as H5;
    pose proof (optional_ok (Forall wireless_ok) c_dev f g k4) as Hw;
    destruct (optional c_dev f g k4) as [ws k5] end.
  assert (Forall wireless_ok ws) as Hws.
  { apply Hw; [constructor|]. intros out. destruct (ParseIwDev out) eqn:E; [by apply ParseIwDev_ok in E|constructor]. }
  pose proof (probe_links_reads I knobs ws HI k5 Hws H5) as H6. destruct (probe_links ws k5) as [ws' k6].
  match goal with |- context [optional c_list ?f ?g k6] =>
    pose proof (optional_reads I knobs c_list f g k6 HI (reads_list knobs) H6) as H7;
    destruct (optional c_list f g k6) as [phys k7] end.
  match goal with |- context [optional c_nmcli ?f ?g k7] =>
    pose proof (optional_reads I knobs c_nmcli f g k7 HI (reads_nmcli knobs) H7) as H8;
    destruct (optional c_nmcli f g k7) as [owners k8] end.
  destruct knobs as [|kn knobs]; [done|].
  match goal with |- context [optional (c_sysctl ?ks) ?f ?g k8] =>
    pose proof (optional_reads I ks (c_sysctl ks) f g k8 HI (reads_sysctl ks) H8) as H9;
    by destruct (optional (c_sysctl ks) f g k8) end.
Qed.

End Detection.

(** ** The machine the repository recorded

    The files named capture-pi5-* of netcfg/testdata, byte for byte, as the
    answers of a machine. *)

Module Captured.

(** capture-pi5-ip-route-default.txt *)
Definition ip_route : string := "default via 10.0.0.1 dev eth0 proto dhcp src 10.0.0.221 metric 100 
default via 10.0.0.1 dev wlan0 proto dhcp src 10.0.0.222 metric 600 
".

(** capture-pi5-ip-br-addr.txt *)
Definition ip_addr : string := "lo               UNKNOWN        127.0.0.1/8 ::1/128 
eth0             UP             10.0.0.221/24 fe80::2ecf:67ff:fe72:51f6/64 
wlan0            UP             10.0.0.222/24 fe80::2ecf:67ff:fe72:51f7/64 
".

(** capture-pi5-ip-d-link.txt *)
Definition ip_link : string := "1: lo: <LOOPBACK,UP,LOWER_UP> mtu 65536 qdisc noqueue state UNKNOWN mode DEFAULT group default qlen 1000
    link/loopback 00:00:00:00:00:00 brd 00:00:00:00:00:00 promiscuity 0 allmulti 0 minmtu 0 maxmtu 0 addrgenmode eui64 numtxqueues 1 numrxqueues 1 gso_max_size 65536 gso_max_segs 65535 tso_max_size 524280 tso_max_segs 65535 gro_max_size 65536 gso_ipv4_max_size 65536 gro_ipv4_max_size 65536 
2: eth0: <BROADCAST,MULTICAST,UP,LOWER_UP> mtu 1500 qdisc fq_codel state UP mode DEFAULT group default qlen 1000
    link/ether 02:00:5e:00:00:10 brd ff:ff:ff:ff:ff:ff promiscuity 0 allmulti 0 minmtu 68 maxmtu 10222 addrgenmode none numtxqueues 1 numrxqueues 1 gso_max_size 65536 gso_max_segs 65535 tso_max_size 65536 tso_max_segs 65535 gro_max_size 65536 gso_ipv4_max_size 65536 gro_ipv4_max_size 65536 parentbus platform parentdev 1f00100000.ethernet 
3: wlan0: <BROADCAST,MULTICAST,UP,LOWER_UP> mtu 1500 qdisc fq_codel state UP mode DORMANT group default qlen 1000
    link/ether 02:00:5e:00:00:11 brd ff:ff:ff:ff:ff:ff promiscuity 0 allmulti 0 minmtu 68 maxmtu 1500 addrgenmode eui64 numtxqueues 1 numrxqueues 1 gso_max_size 65536 gso_max_segs 65535 tso_max_size 65536 tso_max_segs 65535 gro_max_size 65536 gso_ipv4_max_size 65536 gro_ipv4_max_size 65536 parentbus sdio parentdev mmc1:0001:1 
".

(** capture-pi5-iw-dev.txt *)
Definition iw_dev : string := "phy#0
	Unnamed/non-netdev interface
		wdev 0x2
		addr 02:00:5e:00:00:13
		type P2P-device
		txpower 31.00 dBm
	Interface wlan0
		ifindex 3
		wdev 0x1
		addr 02:00:5e:00:00:11
		ssid HomeNet
		type managed
		channel 10 (2457 MHz), width: 20 MHz, center1: 2457 MHz
		txpower 31.00 dBm
".

(** capture-pi5-iw-list.txt *)
Definition iw_list : string := "Wiphy phy0
	wiphy index: 0
	max # scan SSIDs: 10
	max scan IEs length: 2048 bytes
	max # sched scan SSIDs: 16
	max # match sets: 16
	Retry short limit: 7
	Retry long limit: 4
	Coverage class: 0 (up to 0m)
	Supported Ciphers:
		* WEP40 (00-0f-ac:1)
		* WEP104 (00-0f-ac:5)
		* TKIP (00-0f-ac:2)
		* CCMP-128 (00-0f-ac:4)
		* CMAC (00-0f-ac:6)
	Available Antennas: TX 0 RX 0
	Supported interface modes:
		 * IBSS
		 * managed
		 * AP
		 * P2P-client
		 * P2P-GO
		 * P2P-device
	Band 1:
		Capabilities: 0x1020
			HT20
			Static SM Power Save
			RX HT20 SGI
			No RX STBC
			Max AMSDU length: 3839 bytes
			DSSS/CCK HT40
		Maximum RX AMPDU length 65535 bytes (exponent: 0x003)
		Minimum RX AMPDU time spacing: 16 usec (0x07)
		HT TX/RX MCS rate indexes supported: 0-7
		Bitrates (non-HT):
			* 1.0 Mbps
			* 2.0 Mbps (short preamble supported)
			* 5.5 Mbps (short preamble supported)
			* 11.0 Mbps (short preamble supported)
			* 6.0 Mbps
			* 9.0 Mbps
			* 12.0 Mbps
			* 18.0 Mbps
			* 24.0 Mbps
			* 36.0 Mbps
			* 48.0 Mbps
			* 54.0 Mbps
		Frequencies:
			* 2412.0 MHz [1] (20.0 dBm)
			* 2417.0 MHz [2] (20.0 dBm)
			* 2422.0 MHz [3] (20.0 dBm)
			* 2427.0 MHz [4] (20.0 dBm)
			* 2432.0 MHz [5] (20.0 dBm)
			* 2437.0 MHz [6] (20.0 dBm)
			* 2442.0 MHz [7] (20.0 dBm)
			* 2447.0 MHz [8] (20.0 dBm)
			* 2452.0 MHz [9] (20.0 dBm)
			* 2457.0 MHz [10] (20.0 dBm)
			* 2462.0 MHz [11] (20.0 dBm)
			* 2467.0 MHz [12] (20.0 dBm)
			* 2472.0 MHz [13] (20.0 dBm)
			* 2484.0 MHz [14] (disabled)
	Band 2:
		Capabilities: 0x1062
			HT20/HT40
			Static SM Power Save
			RX HT20 SGI
			RX HT40 SGI
			No RX STBC
			Max AMSDU length: 3839 bytes
			DSSS/CCK HT40
		Maximum RX AMPDU length 65535 bytes (exponent: 0x003)
		Minimum RX AMPDU time spacing: 16 usec (0x07)
		HT TX/RX MCS rate indexes supported: 0-7
		VHT Capabilities (0x00001020):
			Max MPDU length: 3895
			Supported Channel Width: neither 160 nor 80+80
			short GI (80 MHz)
			SU Beamformee
		VHT RX MCS set:
			1 streams: MCS 0-9
			2 streams: not supported
			3 streams: not supported
			4 streams: not supported
			5 streams: not supported
			6 streams: not supported
			7 streams: not supported
			8 streams: not supported
		VHT RX highest supported: 0 Mbps
		VHT TX MCS set:
			1 streams: MCS 0-9
			2 streams: not supported
			3 streams: not supported
			4 streams: not supported
			5 streams: not supported
			6 streams: not supported
			7 streams: not supported
			8 streams: not supported
		VHT TX highest supported: 0 Mbps
		VHT extended NSS: not supported
		Bitrates (non-HT):
			* 6.0 Mbps
			* 9.0 Mbps
			* 12.0 Mbps
			* 18.0 Mbps
			* 24.0 Mbps
			* 36.0 Mbps
			* 48.0 Mbps
			* 54.0 Mbps
		Frequencies:
			* 5170.0 MHz [34] (disabled)
			* 5180.0 MHz [36] (20.0 dBm)
			* 5190.0 MHz [38] (disabled)
			* 5200.0 MHz [40] (20.0 dBm)
			* 5210.0 MHz [42] (disabled)
			* 5220.0 MHz [44] (20.0 dBm)
			* 5230.0 MHz [46] (disabled)
			* 5240.0 MHz [48] (20.0 dBm)
			* 5260.0 MHz [52] (20.0 dBm) (no IR, radar detection)
			* 5280.0 MHz [56] (20.0 dBm) (no IR, radar detection)
			* 5300.0 MHz [60] (20.0 dBm) (no IR, radar detection)
			* 5320.0 MHz [64] (20.0 dBm) (no IR, radar detection)
			* 5500.0 MHz [100] (20.0 dBm) (no IR, radar detection)
			* 5520.0 MHz [104] (20.0 dBm) (no IR, radar detection)
			* 5540.0 MHz [108] (20.0 dBm) (no IR, radar detection)
			* 5560.0 MHz [112] (20.0 dBm) (no IR, radar detection)
			* 5580.0 MHz [116] (20.0 dBm) (no IR, radar detection)
			* 5600.0 MHz [120] (20.0 dBm) (no IR, radar detection)
			* 5620.0 MHz [124] (20.0 dBm) (no IR, radar detection)
			* 5640.0 MHz [128] (20.0 dBm) (no IR, radar detection)
			* 5660.0 MHz [132] (20.0 dBm) (no IR, radar detection)
			* 5680.0 MHz [136] (20.0 dBm) (no IR, radar detection)
			* 5700.0 MHz [140] (20.0 dBm) (no IR, radar detection)
			* 5720.0 MHz [144] (disabled)
			* 5745.0 MHz [149] (disabled)
			* 5765.0 MHz [153] (disabled)
			* 5785.0 MHz [157] (disabled)
			* 5805.0 MHz [161] (disabled)
			* 5825.0 MHz [165] (disabled)
	Supported commands:
		 * new_interface
		 * set_interface
		 * new_key
		 * start_ap
		 * set_bss
		 * join_ibss
		 * set_pmksa
		 * del_pmksa
		 * flush_pmksa
		 * remain_on_channel
		 * frame
		 * set_wiphy_netns
		 * set_channel
		 * start_sched_scan
		 * start_p2p_device
		 * connect
		 * disconnect
		 * crit_protocol_start
		 * crit_protocol_stop
	software interface modes (can always be added):
	valid interface combinations:
		 * #{ managed } <= 2, #{ P2P-device } <= 1, #{ P2P-client, P2P-GO } <= 1,
		   total <= 3, #channels <= 2
		 * #{ managed } <= 1, #{ AP } <= 1, #{ P2P-client } <= 1, #{ P2P-device } <= 1,
		   total <= 4, #channels <= 1
	Device supports SAE with AUTHENTICATE command
	Device supports scan flush.
	Device supports randomizing MAC-addr in sched scans.
	max # scan plans: 1
	max scan plan interval: 508
	max scan plan iterations: 0
	Supported TX frame types:
		 * managed: 0x00 0x10 0x20 0x30 0x40 0x50 0x60 0x70 0x80 0x90 0xa0 0xb0 0xc0 0xd0 0xe0 0xf0
		 * AP: 0x00 0x10 0x20 0x30 0x40 0x50 0x60 0x70 0x80 0x90 0xa0 0xb0 0xc0 0xd0 0xe0 0xf0
		 * P2P-client: 0x00 0x10 0x20 0x30 0x40 0x50 0x60 0x70 0x80 0x90 0xa0 0xb0 0xc0 0xd0 0xe0 0xf0
		 * P2P-GO: 0x00 0x10 0x20 0x30 0x40 0x50 0x60 0x70 0x80 0x90 0xa0 0xb0 0xc0 0xd0 0xe0 0xf0
		 * P2P-device: 0x00 0x10 0x20 0x30 0x40 0x50 0x60 0x70 0x80 0x90 0xa0 0xb0 0xc0 0xd0 0xe0 0xf0
	Supported RX frame types:
		 * managed: 0x40 0xb0 0xd0
		 * AP: 0x00 0x20 0x40 0xa0 0xb0 0xc0 0xd0
		 * P2P-client: 0x40 0xd0
		 * P2P-GO: 0x00 0x20 0x40 0xa0 0xb0 0xc0 0xd0
		 * P2P-device: 0x40 0xd0
	Supported extended features:
		* [ CQM_RSSI_LIST ]: multiple CQM_RSSI_THOLD records
		* [ DFS_OFFLOAD ]: DFS offload
".

(** capture-pi5-sysctl-base.txt *)
Definition sysctl_base : string := "net.ipv4.ip_forward = 0
net.ipv4.conf.all.rp_filter = 0
net.ipv4.conf.default.rp_filter = 2
net.ipv6.conf.all.forwarding = 0
".

(** capture-pi5-nmcli-device-status.txt *)
Definition nmcli : string := "eth0:connected
wlan0:connected
lo:connected (externally)
xray0:connected (externally)
p2p-dev-wlan0:disconnected
".

(** capture-pi5-iw-link-connected.txt *)
Definition iw_link : string := "Connected to 02:00:5e:00:00:01 (on wlan1)
	SSID: HomeNet
	freq: 2457.0
	RX: 4123026 bytes (21286 packets)
	TX: 10735 bytes (74 packets)
	signal: -48 dBm
	rx bitrate: 130.0 MBit/s MCS 15
	tx bitrate: 144.4 MBit/s MCS 15 short GI
	bss flags: short-slot-time
	dtim period: 1
	beacon int: 100
".

Definition ok (out : string) : Result * error := (MkResult out "" 0, None).
Definition refused : Result * error := (MkResult "" "" 1, Some "exit status 1"%string).

Definition answers : list (string * string) :=
  [("ip -br addr", ip_addr); ("ip route show default", ip_route); ("ip -6 route show default", "");
   ("ip -d link show", ip_link); ("iw dev", iw_dev); ("iw dev wlan0 link", iw_link); ("iw list", iw_list);
   ("nmcli -t -f DEVICE,STATE device status", nmcli);
   ("sysctl -e -- net.ipv4.ip_forward net.ipv4.conf.all.rp_filter net.ipv4.conf.default.rp_filter net.ipv6.conf.all.forwarding",
    sysctl_base)]%string.

Definition answer (c : Command) : Result * error :=
  match List.find (λ a, (fst a =? CommandLine c)%string) answers with
  | Some (_, out) => ok out
  | None => refused
  end.

#[export] Instance machine : Runner unit := λ c k, (answer c, k).

Definition planned : res dap_error (Facts * Plan) :=
  fst (DetectAndPlan [quad 203 0 113 10] DefaultOptions 0 tt).

Definition commands_of (r : res dap_error (Facts * Plan)) : list (string * string) :=
  match r with
  | Ok (f, p) => (λ s, (CommandLine (Do s), CommandLine (Undo s))) <$> AllSteps p (Sysctl f)
  | Err _ => []
  end.

(** From the recorded bytes to the recorded commands: the list of
    testdata/golden-commands-captured.txt. *)
Example golden_captured :
  commands_of planned =
  [("nft -f -", "nft -f -");
   ("sysctl -w net.ipv4.ip_forward=1", "sysctl -w net.ipv4.ip_forward=0");
   ("sysctl -w net.ipv4.conf.all.rp_filter=2", "sysctl -w net.ipv4.conf.all.rp_filter=0");
   ("sysctl -w net.ipv4.conf.default.rp_filter=2", "sysctl -w net.ipv4.conf.default.rp_filter=2");
   ("sysctl -w net.ipv6.conf.all.forwarding=0", "sysctl -w net.ipv6.conf.all.forwarding=0");
   ("iw phy phy0 interface add ap0 type __ap", "iw dev ap0 del");
   ("nmcli device set ap0 managed no", "");
   ("ip link set dev ap0 up", "");
   ("ip address add 10.83.51.1/24 dev ap0", "ip address del 10.83.51.1/24 dev ap0");
   ("ip route add 203.0.113.10/32 via 10.0.0.1 dev eth0 proto static metric 5", "ip route del 203.0.113.10/32 via 10.0.0.1 dev eth0 metric 5");
   ("ip address add 198.18.51.1/30 dev xray0", "ip address del 198.18.51.1/30 dev xray0");
   ("ip route add 10.83.51.0/24 dev ap0 scope link table 8410", "ip route del 10.83.51.0/24 dev ap0 table 8410");
   ("ip route add default dev xray0 proto static table 8410", "ip route del default dev xray0 table 8410");
   ("ip rule add from 10.83.51.0/24 lookup 8410 priority 8410", "ip rule del from 10.83.51.0/24 lookup 8410 priority 8410");
   ("ip rule add fwmark 0x20da lookup 8410 priority 8409", "ip rule del fwmark 0x20da lookup 8410 priority 8409")]%string.
Proof. vm_compute. reflexivity. Qed.

Definition facts_of (r : res detect_error Facts) : Facts :=
  match r with Ok f => f | Err _ => MkFacts [] [] [] [] [] false false ∅ 0 end.

Lemma detect_well_formed_witness :
  let f := facts_of (fst (Detect BaseSysctlKnobs 0 tt)) in
  List.length (Links f) = 3%nat ∧ Forall wireless_ok (Wireless f).
Proof.
  split; [vm_compute; reflexivity|].
  apply (detect_well_formed BaseSysctlKnobs 0 tt tt (facts_of (fst (Detect BaseSysctlKnobs 0 tt)))).
  vm_compute. reflexivity.
Defined.

Lemma detect_read_only_witness :
  snd (Detect BaseSysctlKnobs 0 tt) = tt.
Proof. apply (detect_read_only (λ k, k = tt) BaseSysctlKnobs 0 tt); [by intros ? []|done]. Defined.

(** The link state and the readbacks on the recorded machine: its radio is
    joined to a network, so it is not free and it is no access point. *)
Example readback_captured :
  match planned with
  | Ok (_, p) =>
      fst (linuxAssertHotspotInterfaceReleased p tt) = Err (VERun "exit status 1") ∧
      fst (linuxAssertHotspotIsAccessPoint p "Caspian" tt) = Err ErrNotAccessPoint ∧
      fst (readLinkState "wlan0" tt) = Ok (MkLinkState true "HomeNet")
  | Err _ => False
  end.
Proof. vm_compute. repeat split. Qed.

End Captured.
