(* ===== verification/Frame.v ===== *)
(** * What running commands leaves alone

    Everything netcfg does to the machine goes through its Runner. So a property
    of the machine that running a command keeps is kept by an apply, a teardown, a
    recovery, a detection and every readback. *)

From S2P Require Import Prelude GoStrings Netip Facts Command Journal Apply ApplyReplay Parse Subnet Plan Nft Steps Detect.

Local Open Scope Z_scope.

(** [f] leads from states with [I] to states with [I]. *)
Definition preserves {K A} (I : K → Prop) (f : K → A * K) : Prop := ∀ k, I k → I (snd (f k)).

Section Frame.
Context {K : Type} `{Runner K} (I : K → Prop).
Hypothesis run_preserves : ∀ c, preserves I (Run c).

(** Follow a program through its commands. *)
Ltac follow :=
  repeat match goal with
  | Hk : I ?k |- context [Run ?c ?k] =>
      let Hn := fresh "Hk" in pose proof (run_preserves c k Hk) as Hn; destruct (Run c k) as [[? ?] ?]; cbn [snd] in Hn
  | |- context [match ?x with _ => _ end] => destruct x
  end; cbn [snd kern]; try done.

(** ** Reading *)

Lemma link_state_preserves name : preserves I (readLinkState name).
Proof. intros k Hk. unfold readLinkState. follow. Qed.
Lemma wireless_preserves name : preserves I (readWireless name).
Proof. intros k Hk. unfold readWireless. follow. Qed.
Lemma addrs_preserves name : preserves I (readAddrs name).
Proof. intros k Hk. unfold readAddrs. follow. Qed.

Lemma released_preserves p : preserves I (linuxAssertHotspotInterfaceReleased p).
Proof.
  intros k Hk. unfold linuxAssertHotspotInterfaceReleased. destruct (_ =? _)%string; [done|].
  pose proof (link_state_preserves (Hotspot (hot p)) k Hk) as H1. destruct (readLinkState _ k) as [[l|] k1]; [|done]. simpl in H1.
  destruct (Connected l); [done|]. pose proof (wireless_preserves (Hotspot (hot p)) k1 H1) as H2.
  destruct (readWireless _ k1) as [[w|] k2]; [|done]. simpl in H2. destruct (negb _); [done|].
  pose proof (addrs_preserves (Hotspot (hot p)) k2 H2) as H3. by destruct (readAddrs _ k2) as [[a|] k3].
Qed.

Lemma access_point_preserves p ssid : preserves I (linuxAssertHotspotIsAccessPoint p ssid).
Proof.
  intros k Hk. unfold linuxAssertHotspotIsAccessPoint. destruct (_ =? _)%string; [done|].
  pose proof (wireless_preserves (Hotspot (hot p)) k Hk) as H1. by destruct (readWireless _ k) as [[w|] k1].
Qed.

Lemma regdomain_preserves : preserves I RegulatoryDomain.
Proof. intros k Hk. unfold RegulatoryDomain. follow. Qed.

Lemma optional_preserves {A} c (f : A) g : preserves I (optional c f g).
Proof. intros k Hk. unfold optional. follow. Qed.

Lemma probe_links_preserves ws : preserves I (probe_links ws).
Proof.
  induction ws as [|w ws IH]; intros k Hk; cbn [probe_links]; [done|]. destruct (IsAccessPoint w).
  { specialize (IH k Hk). by destruct (probe_links ws k). }
  pose proof (link_state_preserves (w_name w) k Hk) as H1. destruct (readLinkState _ k) as [st k1]. specialize (IH k1 H1).
  by destruct (probe_links ws k1).
Qed.

Lemma detect_preserves knobs now : preserves I (Detect knobs now).
Proof.
  intros k Hk. unfold Detect. pose proof (run_preserves c_addr k Hk) as H1. destruct (Run c_addr k) as [[r err] k1]. cbn [snd] in H1.
  destruct err; [done|]. destruct (ParseBriefAddr _) as [links|]; [|done].
  pose proof (run_preserves c_route k1 H1) as H2. destruct (Run c_route k1) as [[r2 err2] k2]. cbn [snd] in H2.
  destruct err2; [done|]. destruct (ParseDefaultRoutes _) as [v4|]; [|done].
  enough (I (snd (detect_rest links v4 knobs now k2))) as Hr by by destruct (detect_rest links v4 knobs now k2).
  unfold detect_rest.
  repeat match goal with
  | Hk : I ?k |- context [optional ?c ?f ?g ?k] =>
      let Hn := fresh "Hk" in pose proof (optional_preserves c f g k Hk) as Hn; destruct (optional c f g k) as [? ?]; cbn [snd] in Hn
  | Hk : I ?k |- context [probe_links ?ws ?k] =>
      let Hn := fresh "Hk" in pose proof (probe_links_preserves ws k Hk) as Hn; destruct (probe_links ws k) as [? ?]; cbn [snd] in Hn
  | |- context [match knobs with _ => _ end] => destruct knobs
  end; done.
Qed.

(** ** Applying and undoing *)

Lemma jwrite_kern r (w : World K) : kern (jwrite r w).2 = kern w.
Proof. unfold jwrite. by destruct (write _ _ _) as [[err flt] d]. Qed.

Lemma run_cmd_preserves c w : I (kern w) → I (kern (run_cmd c w).2).
Proof. intros Hk. unfold run_cmd. pose proof (run_preserves c _ Hk) as Hn. by destruct (Run c (kern w)). Qed.

Lemma run_step_preserves s rep w : I (kern w) → I (kern (run_step s rep w).2).
Proof.
  intros Hk. unfold run_step, jbegin. pose proof (jwrite_kern (begin_record (jseq (jrn w) + 1) s)
    (MkWorld (kern w) (disk w) (MkJournal (jseq (jrn w) + 1) (jopen (jrn w))) (trace w))) as E.
  destruct (jwrite _ _) as [err w1]. simpl in E. destruct err; [simpl; congruence|].
  pose proof (run_cmd_preserves (Do s) w1 ltac:(congruence)) as H1. destruct (run_cmd (Do s) w1) as [[r e] w2]. simpl in H1.
  repeat match goal with
  | |- context [jwrite ?r w2] => pose proof (jwrite_kern r w2); destruct (jwrite r w2) as [? ?]
  | |- context [match ?x with _ => _ end] => destruct x
  end; simpl in *; congruence.
Qed.

Lemma apply_step_preserves state s rep w : I (kern w) → I (kern (apply_step state s rep w).2).
Proof.
  intros Hk. unfold apply_step. destruct (IsZero _); [done|]. destruct (in_force _ _); [done|].
  assert (I (kern (pre_satisfied s w).2)) as H1.
  { unfold pre_satisfied. destruct (Pre s) as [pre|]; [|done]. unfold run_query. pose proof (run_preserves (Query pre) _ Hk) as Hn.
    by destruct (Run _ (kern w)) as [[r e] k1]. }
  destruct (pre_satisfied s w) as [sat w1]. destruct sat; [done|]. by apply run_step_preserves.
Qed.

Lemma Apply_preserves steps w : I (kern w) → I (kern (Apply steps w).2).
Proof.
  intros Hk. unfold Apply. destruct (LoadJournal _) as [es|e]; [|done]. generalize empty_report as rep. revert w Hk.
  induction steps as [|s steps IH]; intros w Hk rep; cbn [apply_loop]; [done|].
  pose proof (apply_step_preserves (currentState es) s rep w Hk) as H1. destruct (apply_step _ s rep w) as [[rep1 err] w1].
  destruct err; [done|]. by apply IH.
Qed.

Lemma undo_preserves jd e x : I (kern x.2) → I (kern (undoOne jd e x).2).
Proof.
  destruct x as [[rep rm] w]. simpl. intros Hk. pose proof (run_cmd_preserves (eUndo e) w Hk) as H1.
  destruct (run_cmd (eUndo e) w) as [[r err] w1]. simpl in H1.
  assert (I (kern (mark_undone jd e w1))) as H2 by (unfold mark_undone; destruct jd; [by rewrite jwrite_kern|done]).
  destruct err; [|done]. by destruct (_ && _).
Qed.

Lemma replay_preserves jd es w rep rm w' : replay jd es w = (rep, rm, w') → I (kern w) → I (kern w').
Proof. intros E Hk. apply (replay_invariant (λ w, I (kern w)) jd es w rep rm w'); [|done..]. intros e x. apply undo_preserves. Qed.

Lemma Teardown_preserves w : I (kern w) → I (kern (Teardown w).2).
Proof.
  intros Hk. unfold Teardown. destruct (LoadJournal _) as [es|e]; [|done]. destruct (replay true es w) as [[rep rm] w1] eqn:E.
  apply replay_preserves in E; [|done]. destruct (CloseJournal _ _) as [[cerr j] d]. destruct cerr; [done|]. by destruct (RewriteJournal _ _).
Qed.

Lemma Recover_preserves w : I (kern w) → I (kern (Recover w).2).
Proof.
  intros Hk. unfold Recover. destruct (LoadJournal _) as [[|e es]|e]; [done| |done].
  destruct (replay false _ w) as [[rep rm] w1] eqn:E. apply replay_preserves in E; [|done]. by destruct (RewriteJournal _ _).
Qed.
End Frame.
