(* ===== verification/Packet.v ===== *)
(** * IPv4/TCP packets and the handshake watcher (internal/snispoof/packet.go)

    Parsing a captured packet, the one's complement checksum, the decoy frame
    built from the client's own third ACK, the Ethernet header in front of it
    ([ethernet.go]), and the state machine that decides when the decoy may be
    sent and when the handshake is confirmed. *)

From S2P Require Import Prelude Bytes.

Local Open Scope Z_scope.

(** ** Data *)

Definition fin := 1.
Definition syn := 2.
Definition rst := 4.
Definition ack := 16.

Record frame := MkFrame {
  ip : list Z;
  prefix : list Z;
  address : list Z
}.

Definition no_address : list Z := replicate 80 0.
Definition zero_frame : frame := MkFrame [] [] no_address.

(** netip.AddrPort of an IPv4 endpoint. *)
Record AddrPort := MkAddrPort {
  addr4 : list Z;
  port : Z
}.

#[export] Instance AddrPort_eq_dec : EqDecision AddrPort.
Proof. solve_decision. Defined.

Record packet := MkPacket {
  src : AddrPort;
  dst : AddrPort;
  pseq : Z;
  pack : Z;
  flags : Z;
  ipLen : nat;
  tcpLen : nat;
  payloadLen : nat
}.

Definition zero_packet : packet := MkPacket (MkAddrPort [] 0) (MkAddrPort [] 0) 0 0 0 0 0 0.

(** ** parsePacket; the outer [None] is a run-time panic. *)

Definition parsePacket (b : list Z) : option (packet * bool) :=
  if (length b <? 40)%nat then Some (zero_packet, false)
  else
    b0 ← b !! 0%nat; b9 ← b !! 9%nat;
    if negb (Z.shiftr b0 4 =? 4) || negb (b9 =? 6) then Some (zero_packet, false)
    else
      let ihl := Z.to_nat (Z.land b0 15 * 4) in
      total16 ← Uint16 b 2;
      let total := Z.to_nat total16 in
      frag ← Uint16 b 6;
      if (ihl <? 20)%nat || (length b <? total)%nat || (total <? ihl + 20)%nat ||
         negb (Z.land frag 0x3fff =? 0)
      then Some (zero_packet, false)
      else
        tcp ← slice b ihl total;
        t12 ← tcp !! 12%nat;
        let thl := Z.to_nat (Z.shiftr t12 4 * 4) in
        if (thl <? 20)%nat || (length tcp <? thl)%nat then Some (zero_packet, false)
        else
          sa ← slice b 12 16; sp ← Uint16 tcp 0;
          da ← slice b 16 20; dp ← Uint16 tcp 2;
          sq ← Uint32 tcp 4; ak ← Uint32 tcp 8; fl ← tcp !! 13%nat;
          Some (MkPacket (MkAddrPort sa sp) (MkAddrPort da dp) sq ak fl ihl thl
                  (length tcp - thl), true).

(** ** checksum *)

Fixpoint sum_words (b : list Z) (sum : Z) : Z :=
  match b with
  | x :: y :: r => sum_words r (u32 (sum + (256 * x + y)))
  | [x] => u32 (sum + Z.shiftl x 8)
  | [] => sum
  end.

(** [for sum>>16 != 0]; a 32-bit sum needs at most two rounds. *)
Fixpoint fold_carries (fuel : nat) (sum : Z) : Z :=
  match fuel with
  | O => sum
  | S f =>
      if Z.shiftr sum 16 =? 0 then sum
      else fold_carries f (Z.land sum 0xffff + Z.shiftr sum 16)
  end.

Definition not16 (z : Z) : Z := 0xffff - u16 z.

Definition checksum (b : list Z) (sum : Z) : Z := not16 (fold_carries 3 (sum_words b sum)).

(** ** fakeFrame: [tcp] is a view of [out] from [ipLen] on, so it is written
    here as offsets into [out]. *)

Definition fakeFrame (f : frame) (p : packet) (isn : Z) (hello : list Z) : option frame :=
  base ← slice (ip f) 0 (ipLen p + tcpLen p);
  let out := base ++ hello in
  out ← PutUint16 out 2 (Z.of_nat (length out));
  id ← Uint16 out 4;
  out ← PutUint16 out 4 (id + 1);
  out ← set_byte out 10 0; out ← set_byte out 11 0;
  hdr ← slice out 0 (ipLen p);
  out ← PutUint16 out 10 (checksum hdr 0);
  t13 ← out !! (ipLen p + 13)%nat;
  out ← set_byte out (ipLen p + 13) (Z.lor t13 8);
  out ← PutUint32 out (ipLen p + 4) (u32 (isn + 1 - Z.of_nat (length hello)));
  out ← set_byte out (ipLen p + 16) 0; out ← set_byte out (ipLen p + 17) 0;
  addrs ← slice out 12 20;
  tcp ← slice out (ipLen p) (length out);
  let pseudo := AppendUint16 (addrs ++ [0; 6]) (Z.of_nat (length tcp)) in
  out ← PutUint16 out (ipLen p + 16) (checksum tcp (not16 (checksum pseudo 0)));
  Some (MkFrame out (prefix f) (address f)).

(** ** ethernetFrame: at most two VLAN tags. *)

Fixpoint skip_tags (fuel : nat) (b : list Z) (tags offset : nat) (typ : Z) : option (option (nat * Z)) :=
  if negb ((typ =? 0x8100) || (typ =? 0x88a8)) then Some (Some (offset, typ))
  else match fuel with
       | O => Some None
       | S fl =>
           if (2 <=? tags)%nat || (length b <? offset + 4)%nat then Some None
           else typ ← Uint16 b (offset + 2); skip_tags fl b (S tags) (offset + 4) typ
       end.

Definition ethernetFrame (b : list Z) : option (frame * bool) :=
  if (length b <? 14)%nat then Some (zero_frame, false)
  else
    typ ← Uint16 b 12;
    r ← skip_tags 3 b 0 14 typ;
    match r with
    | None => Some (zero_frame, false)
    | Some (offset, typ) =>
        if negb (typ =? 0x0800) then Some (zero_frame, false)
        else
          body ← slice b offset (length b); hd ← slice b 0 offset;
          Some (MkFrame body hd no_address, true)
    end.

(** ** The flow *)

Inductive flow_error := ErrConfirmation.

Record flow := MkFlow {
  hello : list Z;
  isn : Z;
  peerISN : Z;
  sawSYN : bool;
  sawSYNACK : bool;
  scheduled : bool;
  sent : bool;
  finished : bool;
  ferr : option flow_error
}.

Definition new_flow (h : list Z) : flow := MkFlow h 0 0 false false false false false None.

(** flow.finish *)
Definition finish (f : flow) (err : option flow_error) : flow :=
  if finished f then f
  else MkFlow (hello f) (isn f) (peerISN f) (sawSYN f) (sawSYNACK f) (scheduled f) (sent f) true err.

Definition has (p : packet) (bits : Z) : bool := negb (Z.land (flags p) bits =? 0).

(** flow.observe: the new state, and whether this packet is the injection
    candidate. *)
Definition observe (f : flow) (p : packet) (outbound : bool) : flow * bool :=
  let refuse := (finish f (Some ErrConfirmation), false) in
  if finished f then (f, false)
  else if has p (Z.lor fin rst) then refuse
  else if outbound && sent f &&
          (pseq p =? u32 (isn f + 1 - Z.of_nat (length (hello f)))) &&
          (payloadLen p =? length (hello f))%nat
  then (f, false)
  else if negb (payloadLen p =? 0)%nat then refuse
  else if outbound && has p syn && negb (has p ack) then
    if negb (pack p =? 0) || (sawSYN f && negb (isn f =? pseq p)) then refuse
    else (MkFlow (hello f) (pseq p) (peerISN f) true (sawSYNACK f) (scheduled f) (sent f)
            (finished f) (ferr f), false)
  else if negb outbound && (Z.land (flags p) (Z.lor syn ack) =? Z.lor syn ack) then
    if negb (sawSYN f) || negb (pack p =? u32 (isn f + 1)) ||
       (sawSYNACK f && negb (peerISN f =? pseq p)) then refuse
    else (MkFlow (hello f) (isn f) (pseq p) (sawSYN f) true (scheduled f) (sent f)
            (finished f) (ferr f), false)
  else if negb (has p ack) || has p syn then refuse
  else if outbound then
    if negb (sawSYNACK f) || negb (pseq p =? u32 (isn f + 1)) || negb (pack p =? u32 (peerISN f + 1))
    then refuse
    else if negb (scheduled f) then
      (MkFlow (hello f) (isn f) (peerISN f) (sawSYN f) (sawSYNACK f) true (sent f)
         (finished f) (ferr f), true)
    else (f, false)
  else if sent f then
    if negb (pseq p =? u32 (peerISN f + 1)) || negb (pack p =? u32 (isn f + 1)) then refuse
    else (finish f None, false)
  else (f, false).

(** forwarder.go, inject: under the flow's lock, after its delay. *)
Definition inject (f : flow) (closing sendOk : bool) : flow :=
  if finished f || closing then f
  else if sendOk then
    MkFlow (hello f) (isn f) (peerISN f) (sawSYN f) (sawSYNACK f) (scheduled f) true
      (finished f) (ferr f)
  else finish f (Some ErrConfirmation).
