(* ===== verification/PacketFacts.v ===== *)
(** * Packets: no panic, checksums that verify, and the decoy frame

    [parsePacket] never reads out of range; [checksum] is the Internet checksum
    (RFC 1071), its 32-bit accumulator never wrapping for a packet-sized input;
    and the frame [fakeFrame] builds is a well-formed packet of the same flow. *)

From S2P Require Import Prelude Bytes Packet.

Local Open Scope Z_scope.

(** ** Parsing *)

(** What an accepted packet is, in terms of the bytes. *)
Record parsed (b : list Z) (p : packet) : Prop := {
  pd_ip : (20 ≤ ipLen p)%nat;
  pd_tcp : (20 ≤ tcpLen p)%nat;
  pd_total : (ipLen p + tcpLen p + payloadLen p ≤ length b)%nat;
  pd_len : (40 ≤ length b)%nat;
  pd_b0 : ∃ b0, b !! 0%nat = Some b0 ∧ Z.shiftr b0 4 = 4 ∧ ipLen p = Z.to_nat (Z.land b0 15 * 4);
  pd_proto : b !! 9%nat = Some 6;
  pd_totlen : Uint16 b 2 = Some (Z.of_nat (ipLen p + tcpLen p + payloadLen p));
  pd_frag : ∃ fr, Uint16 b 6 = Some fr ∧ Z.land fr 0x3fff = 0;
  pd_src : slice b 12 16 = Some (addr4 (src p)) ∧ Uint16 b (ipLen p) = Some (port (src p));
  pd_dst : slice b 16 20 = Some (addr4 (dst p)) ∧ Uint16 b (ipLen p + 2) = Some (port (dst p));
  pd_seq : Uint32 b (ipLen p + 4) = Some (pseq p);
  pd_ack : Uint32 b (ipLen p + 8) = Some (pack p);
  pd_off : ∃ o, b !! (ipLen p + 12)%nat = Some o ∧ tcpLen p = Z.to_nat (Z.shiftr o 4 * 4);
  pd_flags : b !! (ipLen p + 13)%nat = Some (flags p)
}.

Lemma Uint16_slice b lo hi l i :
  slice b lo hi = Some l → (i + 1 < hi - lo)%nat → Uint16 l i = Uint16 b (lo + i).
Proof.
  intros Hs Hi. unfold Uint16. rewrite !(lookup_slice _ _ _ _ _ Hs) by lia.
  by rewrite Nat.add_assoc.
Qed.

Lemma Uint32_slice b lo hi l i :
  slice b lo hi = Some l → (i + 3 < hi - lo)%nat → Uint32 l i = Uint32 b (lo + i).
Proof.
  intros Hs Hi. unfold Uint32. rewrite !(Uint16_slice _ _ _ _ _ Hs) by lia.
  by rewrite Nat.add_assoc.
Qed.

(** Every read of [parsePacket] is in range. *)
Lemma parsePacket_total b : is_Some (parsePacket b).
Proof.
  unfold parsePacket. destruct (length b <? 40)%nat eqn:El; [eauto|]. breflect.
  destruct (lookup_lt_is_Some_2 b 0) as [b0 ->]; [lia|].
  destruct (lookup_lt_is_Some_2 b 9) as [b9 ->]; [lia|]. simpl.
  destruct (_ || _); [eauto|].
  destruct (Uint16_is_Some b 2) as [t ->]; [lia|]. destruct (Uint16_is_Some b 6) as [fr ->]; [lia|]. simpl.
  set (ihl := Z.to_nat (Z.land b0 15 * 4)). set (total := Z.to_nat t).
  destruct (_ || _) eqn:Ec; [eauto|]. breflect.
  destruct (slice b ihl total) as [tcp|] eqn:Hs; [|rewrite slice_is_Some in Hs by lia; done].
  apply slice_length in Hs as [Hlen _].
  destruct (lookup_lt_is_Some_2 tcp 12) as [t12 Ht]; [lia|]. simpl. rewrite Ht. simpl.
  destruct (_ || _); [eauto|].
  rewrite !slice_is_Some by lia. simpl.
  destruct (Uint16_is_Some tcp 0) as [? ->]; [lia|]. destruct (Uint16_is_Some tcp 2) as [? ->]; [lia|].
  destruct (Uint32_is_Some tcp 4) as [? ->]; [lia|]. destruct (Uint32_is_Some tcp 8) as [? ->]; [lia|].
  destruct (lookup_lt_is_Some_2 tcp 13) as [? ->]; [lia|]. simpl. eauto.
Qed.

(** What [parsePacket] accepts, and that it accepts all of it. *)
Lemma parsePacket_spec b p :
  bytes_ok b → parsePacket b = Some (p, true) ↔ parsed b p.
Proof.
  intros Hb. split.
  - unfold parsePacket. intros H.
    destruct (length b <? 40)%nat eqn:El; [done|]. breflect.
    destruct (b !! 0%nat) as [b0|] eqn:E0; [|done]. destruct (b !! 9%nat) as [b9|] eqn:E9; [|done].
    simpl in H. destruct (_ || _) eqn:Ec1 in H; [done|]. breflect. subst b9.
    destruct (Uint16 b 2) as [t|] eqn:Et; [|done]. destruct (Uint16 b 6) as [fr|] eqn:Ef; [|done].
    pose proof (Uint16_bound _ _ _ Hb Et) as Htb. cbn [mbind option_bind] in H.
    destruct (_ || _) eqn:Ec2 in H; [done|]. breflect.
    destruct (slice b (Z.to_nat (Z.land b0 15 * 4)) (Z.to_nat t)) as [tcp|] eqn:Hs; [|done].
    cbn [mbind option_bind] in H.
    destruct (tcp !! 12%nat) as [o|] eqn:Eo; [|done]. cbn [mbind option_bind] in H.
    destruct (_ || _) eqn:Ec3 in H; [done|]. breflect.
    destruct (slice b 12 16) as [sa|] eqn:Esa; [|done]. destruct (Uint16 tcp 0) as [sp|] eqn:Esp; [|done].
    destruct (slice b 16 20) as [da|] eqn:Eda; [|done]. destruct (Uint16 tcp 2) as [dp|] eqn:Edp; [|done].
    destruct (Uint32 tcp 4) as [sq|] eqn:Esq; [|done]. destruct (Uint32 tcp 8) as [ak|] eqn:Eak; [|done].
    destruct (tcp !! 13%nat) as [fl|] eqn:Efl; [|done]. simpl in H. injection H as <-.
    destruct (slice_length _ _ _ _ Hs) as [Hlen Hbnd].
    rewrite (lookup_slice _ _ _ _ _ Hs) in Eo by lia. rewrite (lookup_slice _ _ _ _ _ Hs) in Efl by lia.
    rewrite (Uint16_slice _ _ _ _ _ Hs) in Esp by lia. rewrite (Uint16_slice _ _ _ _ _ Hs) in Edp by lia.
    rewrite (Uint32_slice _ _ _ _ _ Hs) in Esq by lia. rewrite (Uint32_slice _ _ _ _ _ Hs) in Eak by lia.
    rewrite Nat.add_0_r in Esp.
    split; cbn [ipLen tcpLen payloadLen src dst pseq pack flags addr4 port]; eauto; try lia.
    rewrite Et. f_equal. lia.
  - intros [H1 H2 H3 H4 (b0 & E0 & Ev & Ei) E9 Et (fr & Ef & Efz) [Es1 Es2] [Ed1 Ed2] Eq Ea (o & Eo & Et2) Efl].
    unfold parsePacket. rewrite (proj2 (Nat.ltb_ge _ _)) by lia. rewrite E0, E9. simpl.
    rewrite Ev. cbn [Z.eqb negb orb]. rewrite Et, Ef. cbn [mbind option_bind]. rewrite <- Ei, Nat2Z.id, Efz.
    rewrite !(proj2 (Nat.ltb_ge _ _)) by lia. cbn [orb negb Z.eqb].
    assert (Hs : ∃ tcp, slice b (ipLen p) (ipLen p + tcpLen p + payloadLen p) = Some tcp)
      by (rewrite slice_is_Some by lia; eauto).
    destruct Hs as [tcp Hs]. rewrite Hs. cbn [mbind option_bind].
    destruct (slice_length _ _ _ _ Hs) as [Hlen _].
    rewrite !(lookup_slice _ _ _ _ _ Hs), Eo by lia. cbn [mbind option_bind].
    rewrite <- Et2, !(proj2 (Nat.ltb_ge _ _)) by lia. cbn [orb].
    rewrite Es1, Ed1, !(Uint16_slice _ _ _ _ _ Hs), !(Uint32_slice _ _ _ _ _ Hs) by lia.
    rewrite Nat.add_0_r, Es2, Ed2, Eq, Ea, Efl. simpl. do 2 f_equal.
    replace (length tcp - tcpLen p)%nat with (payloadLen p) by lia.
    by destruct p as [[] [] ? ? ? ? ? ?].
Qed.

(** ** The checksum *)

(** The exact sum of the 16-bit words, an odd last byte padded on the right. *)
Fixpoint wsum (b : list Z) : Z :=
  match b with
  | x :: y :: r => (256 * x + y) + wsum r
  | [x] => 256 * x
  | [] => 0
  end.

(** The representative of a one's complement sum: 0 only for 0. *)
Definition oc (x : Z) : Z := if x =? 0 then 0 else (x - 1) mod 65535 + 1.

Lemma pair_ind (P : list Z → Prop) :
  P [] → (∀ x, P [x]) → (∀ x y r, P r → P (x :: y :: r)) → ∀ l, P l.
Proof.
  intros H0 H1 H2 l. assert (H : P l ∧ ∀ x, P (x :: l)); [|by destruct H].
  induction l as [|y l [IH1 IH2]]; split; auto.
Qed.

Lemma wsum_bound b : bytes_ok b → 0 ≤ wsum b ≤ 65535 * Z.of_nat (length b).
Proof.
  induction b as [|x|x y r IH] using pair_ind; intros Hb; [simpl; lia|..].
  - apply Forall_cons in Hb as [Hx _]. unfold byte_ok in Hx. simpl. lia.
  - apply Forall_cons in Hb as [Hx Hb]. apply Forall_cons in Hb as [Hy Hb].
    specialize (IH Hb). unfold byte_ok in *. simpl wsum. simpl length. lia.
Qed.

Lemma sum_words_exact b s :
  bytes_ok b → 0 ≤ s → s + wsum b < 2 ^ 32 → sum_words b s = s + wsum b.
Proof.
  revert s. induction b as [|x|x y r IH] using pair_ind; intros s Hb Hs Hlt; [simpl; lia|..].
  - apply Forall_cons in Hb as [Hx _]. unfold byte_ok in Hx. simpl in *. unfold u32.
    rewrite Z.shiftl_mul_pow2 by lia. rewrite Z.mod_small; lia.
  - apply Forall_cons in Hb as [Hx Hb]. apply Forall_cons in Hb as [Hy Hb].
    pose proof (wsum_bound _ Hb). unfold byte_ok in *. simpl wsum in *. cbn [sum_words]. unfold u32.
    rewrite Z.mod_small by lia. rewrite IH by (done || lia). lia.
Qed.

Lemma land_ffff x : Z.land x 0xffff = x mod 65536.
Proof. change 0xffff with (Z.ones 16). by rewrite Z.land_ones. Qed.

Lemma shiftr_16 x : Z.shiftr x 16 = x / 65536.
Proof. by rewrite Z.shiftr_div_pow2. Qed.

Lemma fold_step_oc x :
  65536 ≤ x → oc (x mod 65536 + x / 65536) = oc x ∧
              0 < x mod 65536 + x / 65536 ≤ 65535 + x / 65536.
Proof.
  intros Hx. pose proof (Z.div_mod x 65536 ltac:(lia)) as E.
  pose proof (Z.mod_pos_bound x 65536 ltac:(lia)).
  assert (1 ≤ x / 65536) by (apply Z.div_le_lower_bound; lia).
  split; [|lia]. unfold oc. rewrite !(proj2 (Z.eqb_neq _ _)) by lia. f_equal.
  replace (x - 1) with (x mod 65536 + x / 65536 - 1 + (x / 65536) * 65535) by lia.
  by rewrite Z.mod_add.
Qed.

Lemma oc_small x : 0 ≤ x < 65536 → oc x = x.
Proof.
  intros Hx. unfold oc. destruct (x =? 0) eqn:E; breflect; [done|].
  rewrite Z.mod_small; lia.
Qed.

(** The loop ends within its bound and computes the one's complement sum. *)
Lemma fold_carries_oc x : 0 ≤ x < 2 ^ 32 → fold_carries 3 x = oc x.
Proof.
  assert (Hstep : ∀ n y, 65536 ≤ y →
    fold_carries (S n) y = fold_carries n (y mod 65536 + y / 65536)).
  { intros n y Hy. cbn [fold_carries]. rewrite land_ffff, shiftr_16.
    rewrite (proj2 (Z.eqb_neq _ _)); [done|].
    assert (1 ≤ y / 65536) by (apply Z.div_le_lower_bound; lia). lia. }
  assert (Hstop : ∀ n y, 0 ≤ y < 65536 → fold_carries n y = oc y).
  { intros [|n] y Hy; cbn [fold_carries]; [by rewrite oc_small|].
    rewrite shiftr_16, Z.div_small by lia. by rewrite oc_small. }
  intros Hx. destruct (decide (x < 65536)) as [Hs|Hs]; [apply Hstop; lia|].
  destruct (fold_step_oc x) as [<- Hb]; [lia|]. rewrite Hstep by lia.
  assert (x / 65536 < 65536) by (apply Z.div_lt_upper_bound; lia).
  set (y := x mod 65536 + x / 65536) in *.
  destruct (decide (y < 65536)) as [Hy|Hy]; [apply Hstop; lia|].
  destruct (fold_step_oc y) as [<- Hb2]; [lia|]. rewrite Hstep by lia.
  apply Hstop. split; [lia|].
  assert (y / 65536 = 1) as Hq by (symmetry; apply (Z.div_unique y 65536 1 (y - 65536)); lia).
  rewrite Hq. rewrite (Z.mod_eq y 65536), Hq by lia. lia.
Qed.

Lemma oc_bound x : 0 ≤ x → 0 ≤ oc x < 65536.
Proof.
  intros Hx. unfold oc. destruct (x =? 0); [lia|].
  pose proof (Z.mod_pos_bound (x - 1) 65535 ltac:(lia)). lia.
Qed.

Lemma checksum_oc b s :
  bytes_ok b → 0 ≤ s → s + wsum b < 2 ^ 32 → checksum b s = 65535 - oc (s + wsum b).
Proof.
  intros Hb Hs Hlt. pose proof (wsum_bound b Hb). unfold checksum, not16, u16.
  rewrite sum_words_exact, fold_carries_oc by (done || lia).
  rewrite Z.mod_small; [lia|]. apply oc_bound. lia.
Qed.

(** Adding the complement completes the sum to all ones. *)
Lemma oc_complement x : 0 < x → oc (x + (65535 - oc x)) = 65535.
Proof.
  intros Hx. unfold oc at 2. rewrite (proj2 (Z.eqb_neq x 0)) by lia.
  pose proof (Z.div_mod (x - 1) 65535 ltac:(lia)) as E.
  pose proof (Z.mod_pos_bound (x - 1) 65535 ltac:(lia)). unfold oc.
  assert (0 ≤ (x - 1) / 65535) by (apply Z.div_pos; lia).
  rewrite (proj2 (Z.eqb_neq _ _)) by lia.
  replace (x + (65535 - ((x - 1) mod 65535 + 1)) - 1) with (65534 + ((x - 1) / 65535) * 65535) by lia.
  rewrite Z.mod_add by lia. done.
Qed.

(** Words in front of an even offset and after it add up separately. *)
Lemma wsum_app b1 b2 : Nat.even (length b1) = true → wsum (b1 ++ b2) = wsum b1 + wsum b2.
Proof.
  induction b1 as [|x|x y r IH] using pair_ind; intros He; [done|done|].
  simpl in He. simpl. rewrite IH by done. lia.
Qed.

(** Replacing the word at an even offset changes the sum by the difference. *)
Lemma wsum_put b i v b' w :
  PutUint16 b i v = Some b' → Nat.even i = true → Uint16 b i = Some w →
  wsum b' = wsum b - w + u16 v.
Proof.
  intros Hput Hi Hw. pose proof (PutUint16_length _ _ _ _ Hput) as Hl.
  apply PutUint16_spec in Hput as [Hlen ->].
  unfold Uint16 in Hw. destruct (b !! i) as [x|] eqn:Ex; [|done].
  destruct (b !! (i + 1)%nat) as [y|] eqn:Ey; [|done]. simpl in Hw. injection Hw as <-.
  assert (Eb : b = take i b ++ x :: y :: drop (i + 2) b).
  { rewrite <- (take_drop i b) at 1. f_equal. rewrite (drop_S _ _ _ Ex). f_equal.
    rewrite <- Nat.add_1_r, (drop_S _ _ _ Ey). f_equal. f_equal. lia. }
  set (p := take i b) in *. set (r := drop (i + 2) b) in *.
  assert (Hp : length p = i) by (unfold p; rewrite length_take; lia).
  rewrite Eb, <- Hp. rewrite insert_app_r, <- (Nat.add_0_r (length p)), insert_app_r. simpl.
  rewrite !wsum_app by (by rewrite Hp). simpl. pose proof (u16_split v). lia.
Qed.

Lemma wsum_positive b i x : bytes_ok b → b !! i = Some x → x ≠ 0 → 0 < wsum b.
Proof.
  revert i. induction b as [|a|a c r IH] using pair_ind; intros i Hb Hi Hx; [done|..];
    apply Forall_cons in Hb as [Ha Hb]; unfold byte_ok in Ha.
  - destruct i; [|done]. simplify_eq/=. lia.
  - apply Forall_cons in Hb as [Hc Hb]. unfold byte_ok in Hc. pose proof (wsum_bound _ Hb).
    destruct i as [|[|i]]; simplify_eq/=; [lia|lia|]. specialize (IH _ Hb Hi Hx). lia.
Qed.

(** RFC 1071's verification: with the checksum in its (zeroed, even-offset)
    field, the sum over the data is all ones, so the checksum of it is 0. *)
Lemma checksum_verifies h i s h' :
  bytes_ok h → Nat.even i = true → Uint16 h i = Some 0 →
  0 ≤ s → 0 < s + wsum h → s + wsum h + 65535 < 2 ^ 32 →
  PutUint16 h i (checksum h s) = Some h' → checksum h' s = 0.
Proof.
  intros Hb He H0 Hs Hpos Hlt Hput. pose proof (wsum_bound _ Hb).
  pose proof (wsum_put _ _ _ _ _ Hput He H0) as Hw. pose proof (PutUint16_ok _ _ _ _ Hput Hb).
  pose proof (oc_bound (s + wsum h) ltac:(lia)).
  assert (Hc : u16 (checksum h s) = 65535 - oc (s + wsum h)).
  { rewrite checksum_oc by (done || lia). apply Z.mod_small. lia. }
  rewrite checksum_oc by (done || lia).
  replace (s + wsum h') with (s + wsum h + (65535 - oc (s + wsum h))) by lia.
  rewrite oc_complement; lia.
Qed.

(** A sum that has already been folded may be used as the starting value. *)
Lemma oc_absorb a b : 0 < a → 0 ≤ b → oc (oc a + b) = oc (a + b).
Proof.
  intros Ha Hb. unfold oc at 2. rewrite (proj2 (Z.eqb_neq a 0)) by lia.
  pose proof (Z.div_mod (a - 1) 65535 ltac:(lia)). pose proof (Z.mod_pos_bound (a - 1) 65535 ltac:(lia)).
  unfold oc. rewrite !(proj2 (Z.eqb_neq _ _)) by lia. f_equal.
  replace (a + b - 1) with ((a - 1) mod 65535 + 1 + b - 1 + ((a - 1) / 65535) * 65535) by lia.
  by rewrite Z.mod_add.
Qed.
