(* ===== verification/Decoy.v ===== *)
(** * The decoy frame (internal/snispoof/packet.go, fakeFrame)

    Built from a packet [parsePacket] accepted, the decoy is a well-formed
    IPv4/TCP packet of the same flow: it parses, its header fields are the
    client's own but for the sequence number and PSH, its payload is the decoy
    hello, and both of its checksums verify. *)

From S2P Require Import Prelude Bytes Packet PacketFacts.

Local Open Scope Z_scope.

(** The pseudo header the TCP checksum covers. *)
Definition pseudo_header (addrs : list Z) (n : nat) : list Z :=
  AppendUint16 (addrs ++ [0; 6]) (Z.of_nat n).

(** The chain of buffers [fakeFrame] goes through. *)
Record chain (f : frame) (p : packet) (isn : Z) (hello : list Z)
    (o1 o2 o3 hdr o4 o5 o6 o6' o7 tcp addrs o8 : list Z) (id t13 : Z) : Prop := {
  ch_1 : PutUint16 (take (ipLen p + tcpLen p) (ip f) ++ hello) 2 (Z.of_nat (length o8)) = Some o1;
  ch_id : Uint16 o1 4 = Some id;
  ch_2 : PutUint16 o1 4 (id + 1) = Some o2;
  ch_3 : PutUint16 o2 10 0 = Some o3;
  ch_hdr : slice o3 0 (ipLen p) = Some hdr;
  ch_4 : PutUint16 o3 10 (checksum hdr 0) = Some o4;
  ch_13 : o4 !! (ipLen p + 13)%nat = Some t13;
  ch_5 : o5 = <[(ipLen p + 13)%nat := Z.lor t13 8]> o4;
  ch_6 : PutUint16 o5 (ipLen p + 4) (u32 (isn + 1 - Z.of_nat (length hello)) / 65536) = Some o6;
  ch_6' : PutUint16 o6 (ipLen p + 4 + 2) (u32 (isn + 1 - Z.of_nat (length hello))) = Some o6';
  ch_7 : PutUint16 o6' (ipLen p + 16) 0 = Some o7;
  ch_addrs : slice o7 12 20 = Some addrs;
  ch_tcp : slice o7 (ipLen p) (length o8) = Some tcp;
  ch_8 : PutUint16 o7 (ipLen p + 16)
           (checksum tcp (not16 (checksum (pseudo_header addrs (length tcp)) 0))) = Some o8
}.

Ltac put_step o H :=
  match goal with
  | |- context [PutUint16 ?b ?i ?v ≫= _] =>
      destruct (PutUint16_is_Some b i v) as [o H]; [try lia|rewrite H; cbn [mbind option_bind];
        let L := fresh "L" in pose proof (PutUint16_length _ _ _ _ H) as L]
  end.

Ltac slice_step l H :=
  match goal with
  | |- context [slice ?b ?lo ?hi ≫= _] =>
      destruct (slice b lo hi) as [l|] eqn:H;
        [cbn [mbind option_bind]|rewrite slice_is_Some in H by lia; done]
  end.

(** Clearing the two checksum bytes one after the other. *)
Lemma clear_word_bind {B} b i (k : list Z → option B) :
  (b ← set_byte b i 0; b ← set_byte b (S i) 0; k b) = (b ← PutUint16 b i 0; k b).
Proof. rewrite <- clear_word. by destruct (set_byte b i 0). Qed.

Lemma fakeFrame_chain f p isn hello :
  parsed (ip f) p →
  ∃ o1 o2 o3 hdr o4 o5 o6 o6' o7 tcp addrs o8 id t13,
    chain f p isn hello o1 o2 o3 hdr o4 o5 o6 o6' o7 tcp addrs o8 id t13 ∧
    length o8 = (ipLen p + tcpLen p + length hello)%nat ∧
    fakeFrame f p isn hello = Some (MkFrame o8 (prefix f) (address f)).
Proof.
  intros Hp. destruct Hp as [H1 H2 H3 H4 _ _ _ _ _ _ _ _ _ Hfl]. unfold fakeFrame.
  rewrite slice_is_Some by lia. cbn [mbind option_bind]. rewrite drop_0, Nat.sub_0_r.
  set (o0 := take (ipLen p + tcpLen p) (ip f) ++ hello).
  assert (Hl0 : length o0 = (ipLen p + tcpLen p + length hello)%nat)
    by (unfold o0; rewrite length_app, length_take; lia).
  put_step o1 E1.
  destruct (Uint16_is_Some o1 4) as [id Eid]; [lia|]. rewrite Eid. cbn [mbind option_bind].
  put_step o2 E2. rewrite clear_word_bind. put_step o3 E3. slice_step hdr Ehdr. put_step o4 E4.
  destruct (lookup_lt_is_Some_2 o4 (ipLen p + 13)) as [t13 Et13]; [lia|].
  rewrite Et13. cbn [mbind option_bind].
  set (o5 := <[(ipLen p + 13)%nat := Z.lor t13 8]> o4).
  rewrite (proj2 (set_byte_spec o4 (ipLen p + 13) (Z.lor t13 8) o5)) by (split; [lia|done]).
  cbn [mbind option_bind].
  assert (Hl5 : length o5 = length o4) by (unfold o5; by rewrite length_insert).
  unfold PutUint32. rewrite u32_idemp.
  rewrite option_bind_assoc. put_step o6 E6. cbn [compose]. put_step o6' E6'.
  replace (ipLen p + 17)%nat with (S (ipLen p + 16)) by lia.
  rewrite clear_word_bind. put_step o7 E7. slice_step addrs Ea. slice_step tcp Et. put_step o8 E8.
  exists o1, o2, o3, hdr, o4, o5, o6, o6', o7, tcp, addrs, o8, id, t13.
  split; [split; try done|split; [lia|done]].
  - fold o0. by replace (length o8) with (length o0) by lia.
  - by replace (length o8) with (length o7) by lia.
Qed.

Section Built.
Context (f : frame) (p : packet) (isn : Z) (hello : list Z).
Context (o1 o2 o3 hdr o4 o5 o6 o6' o7 tcp addrs o8 : list Z) (id t13 : Z).
Context (Hc : chain f p isn hello o1 o2 o3 hdr o4 o5 o6 o6' o7 tcp addrs o8 id t13).
Context (Hp : parsed (ip f) p) (Hb : bytes_ok (ip f)) (Hh : bytes_ok hello).
Context (Hlen : length o8 = (ipLen p + tcpLen p + length hello)%nat).

Let o0 := take (ipLen p + tcpLen p) (ip f) ++ hello.

Lemma chain_lengths :
  length o1 = length o8 ∧ length o2 = length o8 ∧ length o3 = length o8 ∧ length o4 = length o8 ∧
  length o5 = length o8 ∧ length o6 = length o8 ∧ length o6' = length o8 ∧ length o7 = length o8.
Proof.
  destruct Hc as [E1 _ E2 E3 _ E4 _ E5 E6 E6' E7 _ _ E8].
  apply PutUint16_length in E2, E3, E4, E6, E6', E7, E8.
  assert (length o5 = length o4) by (rewrite E5; apply length_insert). lia.
Qed.

(** A byte none of the writes touches is the captured packet's, or the hello's. *)
Lemma chain_same j :
  (j < 2 ∨ 5 < j < 10 ∨ 11 < j < ipLen p + 4 ∨ ipLen p + 7 < j < ipLen p + 13 ∨
   ipLen p + 13 < j < ipLen p + 16 ∨ ipLen p + 17 < j)%nat →
  o8 !! j = o0 !! j.
Proof.
  intros Hj. pose proof (pd_ip _ _ Hp). destruct Hc as [E1 _ E2 E3 _ E4 _ E5 E6 E6' E7 _ _ E8].
  rewrite (PutUint16_other _ _ _ _ _ E8), (PutUint16_other _ _ _ _ _ E7), (PutUint16_other _ _ _ _ _ E6'),
    (PutUint16_other _ _ _ _ _ E6) by lia.
  rewrite E5, list_lookup_insert_ne by lia.
  by rewrite (PutUint16_other _ _ _ _ _ E4), (PutUint16_other _ _ _ _ _ E3), (PutUint16_other _ _ _ _ _ E2),
    (PutUint16_other _ _ _ _ _ E1) by lia.
Qed.

(** The header part of the packet is final once its checksum is written. *)
Lemma chain_header j : (j < ipLen p)%nat → o8 !! j = o4 !! j.
Proof.
  intros Hj. destruct Hc as [_ _ _ _ _ _ _ E5 E6 E6' E7 _ _ E8].
  rewrite (PutUint16_other _ _ _ _ _ E8), (PutUint16_other _ _ _ _ _ E7), (PutUint16_other _ _ _ _ _ E6'),
    (PutUint16_other _ _ _ _ _ E6) by lia.
  by rewrite E5, list_lookup_insert_ne by lia.
Qed.

Lemma lookup_base j : (j < ipLen p + tcpLen p)%nat → o0 !! j = ip f !! j.
Proof.
  intros Hj. pose proof (pd_total _ _ Hp). unfold o0.
  rewrite lookup_app_l by (rewrite length_take; lia). by apply lookup_take_lt.
Qed.

Lemma chain_ok : bytes_ok o3 ∧ bytes_ok o7 ∧ bytes_ok o8.
Proof.
  destruct Hc as [E1 _ E2 E3 _ E4 E13 E5 E6 E6' E7 _ _ E8].
  assert (H0 : bytes_ok o0) by (apply Forall_app; split; [by apply Forall_take|done]).
  assert (H3 : bytes_ok o3) by eauto using PutUint16_ok.
  assert (H4 : bytes_ok o4) by eauto using PutUint16_ok.
  assert (H5 : bytes_ok o5).
  { rewrite E5. apply bytes_ok_insert; [done|]. apply lor_byte; [|done].
    by apply (bytes_ok_lookup _ _ _ H4 E13). }
  assert (H7 : bytes_ok o7) by eauto using PutUint16_ok.
  eauto using PutUint16_ok.
Qed.

Lemma chain_flags : o8 !! (ipLen p + 13)%nat = Some (Z.lor (flags p) 8).
Proof.
  pose proof (pd_ip _ _ Hp). pose proof (pd_tcp _ _ Hp). pose proof chain_lengths as HL.
  destruct Hc as [E1 _ E2 E3 _ E4 E13 E5 E6 E6' E7 _ _ E8].
  rewrite (PutUint16_other _ _ _ _ _ E8), (PutUint16_other _ _ _ _ _ E7), (PutUint16_other _ _ _ _ _ E6'),
    (PutUint16_other _ _ _ _ _ E6) by lia.
  rewrite E5, list_lookup_insert_eq by lia. do 2 f_equal.
  rewrite (PutUint16_other _ _ _ _ _ E4), (PutUint16_other _ _ _ _ _ E3), (PutUint16_other _ _ _ _ _ E2),
    (PutUint16_other _ _ _ _ _ E1), lookup_base, (pd_flags _ _ Hp) in E13 by lia. by simplify_eq.
Qed.

Lemma chain_seq : Uint32 o8 (ipLen p + 4) = Some (u32 (isn + 1 - Z.of_nat (length hello))).
Proof.
  destruct Hc as [_ _ _ _ _ _ _ _ E6 E6' E7 _ _ E8]. unfold Uint32.
  rewrite !(Uint16_put_other _ _ _ _ _ E8), !(Uint16_put_other _ _ _ _ _ E7) by lia.
  rewrite (PutUint16_same _ _ _ _ E6'), (Uint16_put_other _ _ _ _ _ E6'), (PutUint16_same _ _ _ _ E6) by lia.
  simpl. f_equal. set (v := u32 _). pose proof (u32_bound (isn + 1 - Z.of_nat (length hello))) as Hv. fold v in Hv.
  rewrite u16_small by (split; [apply Z.div_pos; lia|apply Z.div_lt_upper_bound; lia]).
  unfold u16. change (2 ^ 16) with 65536. symmetry. apply Z.div_mod. lia.
Qed.

Lemma chain_total : Z.of_nat (length o8) < 65536 → Uint16 o8 2 = Some (Z.of_nat (length o8)).
Proof.
  intros Hs. pose proof (pd_ip _ _ Hp). destruct Hc as [E1 _ E2 E3 _ E4 _ E5 E6 E6' E7 _ _ E8].
  rewrite (Uint16_ext o4) by (apply chain_header; lia).
  rewrite (Uint16_put_other _ _ _ _ _ E4), (Uint16_put_other _ _ _ _ _ E3), (Uint16_put_other _ _ _ _ _ E2) by lia.
  rewrite (PutUint16_same _ _ _ _ E1), u16_small by lia. done.
Qed.

Lemma chain_ip_checksum :
  Z.of_nat (length o8) < 65536 → ∃ hd, slice o8 0 (ipLen p) = Some hd ∧ checksum hd 0 = 0.
Proof.
  intros Hs. pose proof (pd_ip _ _ Hp). destruct chain_ok as (H3 & _ & _). pose proof chain_lengths as HL.
  destruct (pd_b0 _ _ Hp) as (b0 & Eb0 & Hv & _).
  destruct Hc as [_ _ _ E3 Ehdr E4 _ _ _ _ _ _ _ _].
  destruct (slice_length _ _ _ _ Ehdr) as [Hl _]. pose proof (slice_ok _ _ _ _ Ehdr H3) as Hok.
  destruct (PutUint16_is_Some hdr 10 (checksum hdr 0)) as [hd Ehd]; [lia|].
  exists hd. split.
  - rewrite (slice_ext o4) by (lia || (intros j ?; apply chain_header; lia)).
    by eapply (slice_put o3 0); [done|rewrite Nat.add_0_l|].
  - pose proof (wsum_bound _ Hok).
    assert (0 < wsum hdr).
    { apply (wsum_positive _ 0 b0); [done| |intros ->; done].
      rewrite (lookup_slice _ _ _ _ _ Ehdr), Nat.add_0_l by lia. rewrite <- Eb0.
      rewrite <- lookup_base by lia. rewrite <- chain_same, chain_header by lia.
      symmetry. apply (PutUint16_other _ _ _ _ _ E4). lia. }
    apply (checksum_verifies hdr 10 0); try done; try lia.
    rewrite (Uint16_slice _ _ _ _ _ Ehdr), Nat.add_0_l by lia. apply (PutUint16_same _ _ _ _ E3).
Qed.

Lemma pseudo_ok : bytes_ok (pseudo_header addrs (length tcp)) ∧
  length (pseudo_header addrs (length tcp)) = 12%nat ∧ 0 < wsum (pseudo_header addrs (length tcp)).
Proof.
  destruct chain_ok as (_ & H7 & _). destruct Hc as [_ _ _ _ _ _ _ _ _ _ _ Ea _ _].
  destruct (slice_length _ _ _ _ Ea) as [Hl _]. pose proof (slice_ok _ _ _ _ Ea H7) as Hok.
  assert (Hps : bytes_ok (pseudo_header addrs (length tcp))).
  { unfold pseudo_header, AppendUint16. rewrite <- app_assoc. apply Forall_app. split; [done|].
    repeat (constructor; auto with caspian); done. }
  split; [done|]. split; [unfold pseudo_header, AppendUint16; rewrite !length_app; simpl; lia|].
  apply (wsum_positive _ 9 6); [done| |done].
  unfold pseudo_header, AppendUint16. rewrite <- app_assoc, lookup_app_r, Hl by lia. done.
Qed.

Lemma chain_tcp_checksum :
  Z.of_nat (length o8) < 65536 →
  ∃ seg, slice o8 (ipLen p) (length o8) = Some seg ∧ slice o8 12 20 = Some addrs ∧
         checksum (pseudo_header addrs (length seg) ++ seg) 0 = 0.
Proof.
  intros Hs. pose proof (pd_ip _ _ Hp). pose proof (pd_tcp _ _ Hp). pose proof chain_lengths as HL.
  destruct chain_ok as (_ & H7 & H8). destruct pseudo_ok as (Hps & Hpl & Hpos).
  destruct Hc as [_ _ _ _ _ _ _ _ _ _ E7 Ea Et E8].
  destruct (slice_length _ _ _ _ Et) as [Hl _]. pose proof (slice_ok _ _ _ _ Et H7) as Hok.
  set (ps := pseudo_header addrs (length tcp)) in *. set (s := not16 (checksum ps 0)) in *.
  pose proof (wsum_bound _ Hps). pose proof (wsum_bound _ Hok).
  assert (Hsv : s = oc (wsum ps)).
  { unfold s, not16. rewrite checksum_oc, Z.add_0_l by (done || lia).
    pose proof (oc_bound (wsum ps) ltac:(lia)). rewrite u16_small; lia. }
  pose proof (oc_bound (wsum ps) ltac:(lia)).
  assert (0 < s) by (rewrite Hsv; unfold oc; rewrite (proj2 (Z.eqb_neq _ _)) by lia;
    pose proof (Z.mod_pos_bound (wsum ps - 1) 65535 ltac:(lia)); lia).
  destruct (PutUint16_is_Some tcp 16 (checksum tcp s)) as [seg Eseg]; [lia|].
  pose proof (PutUint16_length _ _ _ _ Eseg) as Hsl. pose proof (PutUint16_ok _ _ _ _ Eseg Hok) as Hso.
  pose proof (wsum_bound _ Hso).
  exists seg. split; [by eapply (slice_put o7)|]. split.
  { rewrite <- Ea. apply slice_ext; [lia|]. intros j Hj. apply (PutUint16_other _ _ _ _ _ E8). lia. }
  assert (Hv : checksum seg s = 0).
  { apply (checksum_verifies tcp 16 s); try done; try lia.
    rewrite (Uint16_slice _ _ _ _ _ Et) by lia. apply (PutUint16_same _ _ _ _ E7). }
  rewrite checksum_oc in Hv by (done || lia).
  replace (pseudo_header addrs (length seg)) with ps by (unfold ps; by rewrite Hsl).
  assert (Hw : wsum (ps ++ seg) = wsum ps + wsum seg) by (apply wsum_app; by rewrite Hpl).
  assert (bytes_ok (ps ++ seg)) by (by apply Forall_app).
  rewrite checksum_oc, Z.add_0_l, Hw, <- oc_absorb, <- Hsv by (done || lia). lia.
Qed.

Lemma chain_payload : slice o8 (ipLen p + tcpLen p) (length o8) = Some hello.
Proof.
  pose proof (pd_ip _ _ Hp). pose proof (pd_tcp _ _ Hp). pose proof (pd_total _ _ Hp).
  apply slice_spec. split; [lia|]. apply list_eq. intros j.
  destruct (decide (j < length hello)%nat) as [Hj|Hj].
  - rewrite lookup_take_lt, lookup_drop by lia. rewrite chain_same by lia. unfold o0.
    rewrite lookup_app_r by (rewrite length_take; lia). f_equal. rewrite length_take. lia.
  - rewrite lookup_take_ge by lia. apply lookup_ge_None_2. lia.
Qed.

Lemma chain_field i : (11 < i)%nat → (i + 1 < ipLen p + 4 ∨ ipLen p + 7 < i < ipLen p + 12)%nat →
  Uint16 o8 i = Uint16 (ip f) i.
Proof.
  intros. pose proof (pd_tcp _ _ Hp).
  apply Uint16_ext; (rewrite chain_same by lia; apply lookup_base; lia).
Qed.

Lemma chain_addr lo : (12 ≤ lo ≤ 16)%nat → slice o8 lo (lo + 4) = slice (ip f) lo (lo + 4).
Proof.
  intros Hlo. pose proof (pd_ip _ _ Hp). pose proof (pd_tcp _ _ Hp). pose proof (pd_total _ _ Hp).
  rewrite !slice_is_Some by lia. f_equal. apply list_eq. intros i.
  destruct (decide (i < 4)%nat) as [Hi|Hi]; [|by rewrite !lookup_take_ge by lia].
  rewrite !lookup_take_lt, !lookup_drop by lia. rewrite chain_same by lia. apply lookup_base. lia.
Qed.

Lemma chain_parsed :
  Z.of_nat (length o8) < 65536 →
  parsed o8 (MkPacket (src p) (dst p) (u32 (isn + 1 - Z.of_nat (length hello))) (pack p)
               (Z.lor (flags p) 8) (ipLen p) (tcpLen p) (length hello)).
Proof.
  intros Hs. pose proof (chain_total Hs) as Htot. pose proof chain_flags as Hfl. pose proof chain_seq as Hsq.
  pose proof Hp as [H1 H2 H3 H4 (b0 & E0 & Ev & Ei) E9 _ (fr & Ef & Efz) [Es1 Es2] [Ed1 Ed2] _ Ea (o & Eo & Et2) _].
  assert (Hbyte : ∀ i, (i < 2 ∨ 5 < i < 10 ∨ i = ipLen p + 12)%nat → o8 !! i = ip f !! i)
    by (intros i Hi; rewrite chain_same by lia; apply lookup_base; lia).
  split; cbn [ipLen tcpLen payloadLen src dst pseq pack flags]; try done; try lia.
  - exists b0. by rewrite Hbyte by lia.
  - by rewrite Hbyte by lia.
  - by rewrite Htot, Hlen.
  - exists fr. by rewrite (Uint16_ext (ip f)) by (apply Hbyte; lia).
  - by rewrite (chain_addr 12 ltac:(lia) : slice o8 12 16 = _), chain_field by lia.
  - by rewrite (chain_addr 16 ltac:(lia) : slice o8 16 20 = _), chain_field by lia.
  - unfold Uint32 in *. by rewrite !chain_field by lia.
  - exists o. by rewrite Hbyte by lia.
Qed.

End Built.

(** ** The decoy is a packet of the same flow *)

(** What the decoy is, for a packet [p] captured in the frame [f]. *)
Record decoy_of (f : frame) (p : packet) (isn : Z) (hello : list Z) (g : frame) : Prop := {
  dc_meta : prefix g = prefix f ∧ address g = address f;
  dc_parse : parsePacket (ip g) =
    Some (MkPacket (src p) (dst p) (u32 (isn + 1 - Z.of_nat (length hello))) (pack p)
            (Z.lor (flags p) 8) (ipLen p) (tcpLen p) (length hello), true);
  dc_payload : slice (ip g) (ipLen p + tcpLen p) (length (ip g)) = Some hello;
  dc_ipsum : ∃ hd, slice (ip g) 0 (ipLen p) = Some hd ∧ checksum hd 0 = 0;
  dc_tcpsum : ∃ addrs seg, slice (ip g) 12 20 = Some addrs ∧
    slice (ip g) (ipLen p) (length (ip g)) = Some seg ∧
    checksum (pseudo_header addrs (length seg) ++ seg) 0 = 0
}.

Lemma fakeFrame_decoy f p isn hello :
  bytes_ok (ip f) → bytes_ok hello →
  parsePacket (ip f) = Some (p, true) →
  Z.of_nat (ipLen p + tcpLen p + length hello) < 65536 →
  ∃ g, fakeFrame f p isn hello = Some g ∧ decoy_of f p isn hello g.
Proof.
  intros Hb Hh Hparse Hlt. apply parsePacket_spec in Hparse as Hp; [|done].
  destruct (fakeFrame_chain f p isn hello Hp)
    as (o1 & o2 & o3 & hdr & o4 & o5 & o6 & o6' & o7 & tcp & addrs & o8 & id & t13 & Hc & Hl & Hf).
  exists (MkFrame o8 (prefix f) (address f)). split; [done|].
  pose proof (chain_ip_checksum _ _ _ _ _ _ _ _ _ _ _ _ _ _ _ _ _ _ Hc Hp Hb Hh Hl ltac:(lia)) as Hip.
  pose proof (chain_tcp_checksum _ _ _ _ _ _ _ _ _ _ _ _ _ _ _ _ _ _ Hc Hp Hb Hh Hl ltac:(lia)) as (seg & Hseg & Ha & Hcs).
  split; cbn [ip prefix address]; [done| |by eapply chain_payload; [exact Hc|..]|done|by exists addrs, seg].
  apply parsePacket_spec; [by eapply chain_ok; [exact Hc|..]|]. eapply chain_parsed; [exact Hc|done|done|lia].
Qed.

(** fakeFrame never panics on a packet parsePacket accepted, whatever its
    length fields say, and the frame it builds parses again as a packet of the
    same flow: same endpoints, acknowledgement and header lengths, sequence
    number isn+1-len(hello) modulo 2^32, PSH added to the flags and the hello
    as its whole payload; its IPv4 header checksum and its TCP checksum (over
    the pseudo header) both verify, and the backend's metadata is kept. *)
Theorem fakeFrame_well_formed f p isn hello :
  bytes_ok (ip f) → bytes_ok hello →
  parsePacket (ip f) = Some (p, true) →
  Z.of_nat (ipLen p + tcpLen p + length hello) < 65536 →
  ∃ g, fakeFrame f p isn hello = Some g ∧ decoy_of f p isn hello g.
Proof. apply fakeFrame_decoy. Qed.

(** ** A captured third ACK, used by the witness *)

Definition demo_frame : frame :=
  MkFrame [69; 0; 0; 40; 0; 1; 0; 0; 64; 6; 0; 0; 10; 0; 0; 2; 1; 2; 3; 4;
           19; 136; 1; 187; 0; 0; 0; 8; 0; 0; 0; 100; 80; 16; 1; 0; 0; 0; 0; 0] [] no_address.

Definition demo_third_ack : packet :=
  MkPacket (MkAddrPort [10; 0; 0; 2] 5000) (MkAddrPort [1; 2; 3; 4] 443) 8 100 16 20 20 0.

Lemma bytes_ok_dec l : forallb (λ x, (0 <=? x) && (x <? 256)) l = true → bytes_ok l.
Proof.
  intros H. apply Forall_forall. intros x Hx. rewrite forallb_forall in H.
  specialize (H x (proj1 (list_elem_of_In _ _) Hx)). unfold byte_ok. breflect. lia.
Qed.

Lemma fakeFrame_well_formed_witness :
  ∃ g, fakeFrame demo_frame demo_third_ack 7 [1; 2; 3] = Some g ∧
       decoy_of demo_frame demo_third_ack 7 [1; 2; 3] g.
Proof.
  apply fakeFrame_well_formed; [by apply bytes_ok_dec|by apply bytes_ok_dec|reflexivity|simpl; lia].
Defined.

(** parsePacket never reads out of range, and it accepts a buffer exactly
    when it holds an unfragmented IPv4 packet with protocol TCP whose header and
    total lengths fit the buffer and each other; the fields it returns are the
    bytes at their offsets. *)
Theorem parsePacket_exact b p :
  bytes_ok b → is_Some (parsePacket b) ∧ (parsePacket b = Some (p, true) ↔ parsed b p).
Proof. intros Hb. split; [apply parsePacket_total|by apply parsePacket_spec]. Qed.

Lemma parsePacket_exact_witness :
  parsePacket (ip demo_frame) = Some (demo_third_ack, true) ∧ parsed (ip demo_frame) demo_third_ack.
Proof.
  split; [reflexivity|].
  apply (proj1 (proj2 (parsePacket_exact (ip demo_frame) demo_third_ack ltac:(by apply bytes_ok_dec)))).
  reflexivity.
Defined.

(** The capture sees the decoy it sent and takes no notice: for a flow
    whose decoy is out, observing the packet parsed from the very frame
    fakeFrame built changes nothing and schedules nothing. *)
Theorem decoy_ignored f p fl g q :
  bytes_ok (ip f) → bytes_ok (hello fl) →
  parsePacket (ip f) = Some (p, true) →
  Z.of_nat (ipLen p + tcpLen p + length (hello fl)) < 65536 →
  has p (Z.lor fin rst) = false → finished fl = false → sent fl = true →
  fakeFrame f p (isn fl) (hello fl) = Some g → parsePacket (ip g) = Some (q, true) →
  observe fl q true = (fl, false).
Proof.
  intros Hb Hh Hp Hlt Hfr Hfin Hsent Hg Hq.
  destruct (fakeFrame_decoy f p (isn fl) (hello fl)) as (g' & Hg' & Hd); try done.
  rewrite Hg in Hg'. injection Hg' as <-. rewrite (dc_parse _ _ _ _ _ Hd) in Hq. injection Hq as <-.
  unfold observe. rewrite Hfin, Hsent. unfold has in *. cbn [flags pseq payloadLen].
  rewrite Z.land_lor_distr_l. apply negb_false_iff, Z.eqb_eq in Hfr. rewrite Hfr.
  change (Z.lor 0 (Z.land 8 (Z.lor fin rst)) =? 0) with true. cbn [negb andb].
  by rewrite Z.eqb_refl, Nat.eqb_refl.
Qed.

Definition demo_sent : flow := MkFlow [1; 2; 3] 7 99 true true true true false None.

Lemma decoy_ignored_witness :
  ∃ g q, fakeFrame demo_frame demo_third_ack 7 [1; 2; 3] = Some g ∧ parsePacket (ip g) = Some (q, true) ∧
         observe demo_sent q true = (demo_sent, false).
Proof.
  eexists _, _. split; [reflexivity|]. split; [reflexivity|].
  eapply (decoy_ignored demo_frame demo_third_ack demo_sent);
    [by apply bytes_ok_dec|by apply bytes_ok_dec|reflexivity|simpl; lia|reflexivity..].
Defined.

(** ** Ethernet *)

(** The loop over VLAN tags stays within its bound and never reads past the end. *)
Lemma skip_tags_ok fuel b tags offset typ :
  (fuel + tags = 3)%nat → (tags ≤ 2)%nat → (offset ≤ length b)%nat → offset = (14 + 4 * tags)%nat →
  ∃ r, skip_tags fuel b tags offset typ = Some r ∧
    ∀ o t, r = Some (o, t) → (14 ≤ o ≤ 22 ∧ o ≤ length b)%nat.
Proof.
  revert tags offset typ. induction fuel as [|fuel IH]; intros tags offset typ Hf Hle Ho Ht; [lia|].
  cbn [skip_tags]. destruct (_ || _); cbn [negb]; [|eexists; split; [done|]; intros ? ? [= <- <-]; lia].
  destruct ((2 <=? tags)%nat || _) eqn:E; [by eexists|]. breflect.
  destruct (Uint16_is_Some b (offset + 2)) as [t ->]; [lia|]. simpl. apply IH; lia.
Qed.

(** ethernetFrame never panics, and an accepted frame is cut without loss:
    the link header (14 bytes and at most two VLAN tags) followed by the IPv4
    packet is the captured buffer, so Send reproduces the header it saw. *)
Theorem ethernetFrame_splits b :
  ∃ f ok, ethernetFrame b = Some (f, ok) ∧
    (ok = true → prefix f ++ ip f = b ∧ (14 ≤ length (prefix f) ≤ 22)%nat).
Proof.
  unfold ethernetFrame. destruct (length b <? 14)%nat eqn:El; [by eexists _, _|]. breflect.
  destruct (Uint16_is_Some b 12) as [typ ->]; [lia|]. cbn [mbind option_bind].
  destruct (skip_tags_ok 3 b 0 14 typ) as (r & -> & Hr); [lia..|]. cbn [mbind option_bind].
  destruct r as [[o t]|]; [|by eexists _, _]. destruct (Hr o t eq_refl) as [Ho Hl].
  destruct (negb _); [by eexists _, _|]. rewrite !slice_is_Some by lia. cbn [mbind option_bind].
  eexists _, _. split; [done|]. intros _. simpl. rewrite Nat.sub_0_r, (take_ge (drop o b)) by (rewrite length_drop; lia).
  rewrite drop_0, take_drop. split; [done|]. rewrite length_take. lia.
Qed.

(** * The handshake watcher is safe (internal/snispoof, flow.observe and inject)

    A step relation over the events one flow sees (captured packets in either
    direction, the delayed injection running, connect's deferred clean-up), with
    the trace of what happened. Rule induction gives: at most one decoy per
    flow, confirmation only after the whole handshake was observed in order, and
    an end state nothing leaves. *)

Inductive event :=
| EvPacket (p : packet) (outbound : bool)
| EvSent
| EvNotSent
| EvCleanup.

#[export] Instance event_is_sent (e : event) : Decision (e = EvSent).
Proof. destruct e; first [by left|by right]. Defined.

(** [reach h tr n f]: a flow with the hello [h] is in state [f] after the trace
    [tr] (oldest first), with [n] injections scheduled and not yet run. *)
Inductive reach (h : list Z) : list event → nat → flow → Prop :=
| reach_new : reach h [] 0 (new_flow h)
| reach_packet tr n f p outbound :
    reach h tr n f →
    reach h (tr ++ [EvPacket p outbound])
      (n + if (observe f p outbound).2 then 1 else 0)%nat (observe f p outbound).1
| reach_inject tr n f closing sendOk :
    reach h tr (S n) f →
    reach h (tr ++ [if negb (finished f) && negb closing && sendOk then EvSent else EvNotSent]) n
      (inject f closing sendOk)
| reach_cleanup tr n f :
    reach h tr n f → reach h (tr ++ [EvCleanup]) n (finish f (Some ErrConfirmation)).

(** ** Evidence in the trace *)

Definition bare (p : packet) : Prop := has p (Z.lor fin rst) = false ∧ payloadLen p = 0%nat.

Definition is_SYN (i : Z) (e : event) : Prop :=
  ∃ p, e = EvPacket p true ∧ bare p ∧ has p syn = true ∧ has p ack = false ∧ pseq p = i ∧ pack p = 0.
Definition is_SYNACK (i j : Z) (e : event) : Prop :=
  ∃ p, e = EvPacket p false ∧ bare p ∧ Z.land (flags p) (Z.lor syn ack) = Z.lor syn ack ∧
       pseq p = j ∧ pack p = u32 (i + 1).
Definition is_ACK (outbound : bool) (i j : Z) (e : event) : Prop :=
  ∃ p, e = EvPacket p outbound ∧ bare p ∧ has p ack = true ∧ has p syn = false ∧
       pseq p = u32 (i + 1) ∧ pack p = u32 (j + 1).

(** [seen ps tr]: events satisfying [ps] occur in [tr], in that order. *)
Definition seen (ps : list (event → Prop)) (tr : list event) : Prop :=
  ∃ es, Forall2 (λ P e, P e) ps es ∧ sublist es tr.

Lemma seen_keep ps tr e : seen ps tr → seen ps (tr ++ [e]).
Proof. intros (es & H & Hs). exists es. split; [done|]. by apply sublist_inserts_r. Qed.

Lemma seen_add ps (P : event → Prop) tr e : seen ps tr → P e → seen (ps ++ [P]) (tr ++ [e]).
Proof.
  intros (es & H & Hs) HP. exists (es ++ [e]). split; [by apply Forall2_app; [|repeat constructor]|].
  by apply sublist_app.
Qed.

Lemma seen_nil tr : seen [] tr.
Proof. exists []. split; [constructor|apply sublist_nil_l]. Qed.

Definition proof1 (f : flow) := [is_SYN (isn f)].
Definition proof2 (f : flow) := proof1 f ++ [is_SYNACK (isn f) (peerISN f)].
Definition proof3 (f : flow) := proof2 f ++ [is_ACK true (isn f) (peerISN f)].
Definition proof4 (f : flow) := proof3 f ++ [eq EvSent].
Definition proof5 (f : flow) := proof4 f ++ [is_ACK false (peerISN f) (isn f)].

Definition sends (tr : list event) : nat := length (filter (λ e, e = EvSent) tr).

Record inv (h : list Z) (tr : list event) (n : nat) (f : flow) : Prop := {
  inv_hello : hello f = h;
  inv_syn : sawSYN f = true → seen (proof1 f) tr;
  inv_synack : sawSYNACK f = true → sawSYN f = true ∧ seen (proof2 f) tr;
  inv_sched : scheduled f = true → sawSYNACK f = true ∧ seen (proof3 f) tr;
  inv_sent : sent f = true → scheduled f = true ∧ seen (proof4 f) tr;
  inv_ok : finished f = true → ferr f = None → sent f = true ∧ seen (proof5 f) tr;
  inv_open : finished f = false → ferr f = None;
  inv_count : (n + sends tr ≤ if scheduled f then 1 else 0)%nat;
  inv_sends : (0 < sends tr)%nat → sent f = true
}.

Lemma sends_snoc tr e : sends (tr ++ [e]) = (sends tr + if decide (e = EvSent) then 1 else 0)%nat.
Proof.
  unfold sends. rewrite filter_app, length_app. f_equal. rewrite filter_cons.
  by destruct (decide _).
Qed.

(** An event that is not a send and leaves the flow alone keeps the invariant. *)
Lemma inv_skip h tr n f e : e ≠ EvSent → inv h tr n f → inv h (tr ++ [e]) n f.
Proof.
  intros He [Hh H1 H2 H3 H4 H5 H6 H7 H8]. split; try done.
  - auto using seen_keep.
  - intros [? ?]%H2. auto using seen_keep.
  - intros [? ?]%H3. auto using seen_keep.
  - intros [? ?]%H4. auto using seen_keep.
  - intros Hf [? ?]%H5; auto using seen_keep.
  - rewrite sends_snoc, decide_False by done. lia.
  - rewrite sends_snoc, decide_False by done. intros. apply H8. lia.
Qed.

Lemma inv_refuse h tr n f e :
  e ≠ EvSent → inv h tr n f → inv h (tr ++ [e]) n (finish f (Some ErrConfirmation)).
Proof.
  intros He Hi. apply (inv_skip _ _ _ _ e He) in Hi. unfold finish.
  destruct (finished f) eqn:E; [done|]. destruct Hi. by split.
Qed.

(** The branches of [observe] that accept a packet. *)
Lemma observe_cases f p ob :
  finished f = false →
  let '(g, inj) := observe f p ob in
  (g = f ∧ inj = false) ∨ (g = finish f (Some ErrConfirmation) ∧ inj = false) ∨
  (bare p ∧
   ((ob = true ∧ has p syn = true ∧ has p ack = false ∧ pack p = 0 ∧ inj = false ∧
       (sawSYN f = true → isn f = pseq p) ∧
       g = MkFlow (hello f) (pseq p) (peerISN f) true (sawSYNACK f) (scheduled f) (sent f) false (ferr f)) ∨
    (ob = false ∧ Z.land (flags p) (Z.lor syn ack) = Z.lor syn ack ∧ sawSYN f = true ∧
       pack p = u32 (isn f + 1) ∧ inj = false ∧ (sawSYNACK f = true → peerISN f = pseq p) ∧
       g = MkFlow (hello f) (isn f) (pseq p) (sawSYN f) true (scheduled f) (sent f) false (ferr f)) ∨
    (has p ack = true ∧ has p syn = false ∧
     ((ob = true ∧ sawSYNACK f = true ∧ pseq p = u32 (isn f + 1) ∧ pack p = u32 (peerISN f + 1) ∧
         scheduled f = false ∧ inj = true ∧
         g = MkFlow (hello f) (isn f) (peerISN f) (sawSYN f) (sawSYNACK f) true (sent f) false (ferr f)) ∨
      (ob = false ∧ sent f = true ∧ pseq p = u32 (peerISN f + 1) ∧ pack p = u32 (isn f + 1) ∧
         inj = false ∧ g = finish f None))))).
Proof.
  intros Hfin. unfold observe. rewrite Hfin.
  destruct (has p (Z.lor fin rst)) eqn:Efr; [by right; left|].
  destruct (ob && sent f && _ && _) eqn:Eown; [by left|]. clear Eown.
  destruct (payloadLen p =? 0)%nat eqn:Epl; simpl; [|by right; left]. breflect.
  destruct (ob && has p syn && negb (has p ack)) eqn:Esyn.
  { breflect. destruct (_ || _) eqn:Ec; [by right; left|]. breflect. right; right. split; [done|]. left.
    repeat split; try done. intros Hs. rewrite Hs in *. simpl in *. by breflect. }
  destruct (negb ob && _) eqn:Esa.
  { breflect. destruct (_ || _) eqn:Ec; [by right; left|]. breflect. right; right. split; [done|]. right; left.
    repeat split; try done. intros Hs. rewrite Hs in *. simpl in *. by breflect. }
  destruct (negb (has p ack) || has p syn) eqn:Eack; [by right; left|]. breflect.
  destruct ob; simpl.
  - destruct (_ || _) eqn:Ec; [by right; left|]. breflect.
    destruct (scheduled f) eqn:Esch; simpl; [by left|]. right; right. split; [done|]. right; right.
    split; [done|]. split; [done|]. by left.
  - destruct (sent f) eqn:Es; [|by left]. destruct (_ || _) eqn:Ec; [by right; left|]. breflect.
    right; right. split; [done|]. right; right. split; [done|]. split; [done|]. by right.
Qed.

Ltac flow_fields :=
  cbn [hello isn peerISN sawSYN sawSYNACK scheduled sent finished ferr] in *.

Lemma inv_observe h tr n f p ob :
  inv h tr n f →
  inv h (tr ++ [EvPacket p ob]) (n + if (observe f p ob).2 then 1 else 0)%nat (observe f p ob).1.
Proof.
  intros Hi. destruct (finished f) eqn:Hfin.
  { unfold observe. rewrite Hfin. simpl. rewrite Nat.add_0_r. by apply inv_skip. }
  pose proof (observe_cases f p ob Hfin) as Hc. destruct (observe f p ob) as [g inj]. simpl.
  pose proof Hi as [Hh H1 H2 H3 H4 H5 H6 H7 H8].
  assert (Hs : sends (tr ++ [EvPacket p ob]) = sends tr) by (rewrite sends_snoc; simpl; lia).
  destruct Hc as [[-> ->]|[[-> ->]|[Hbare Hc]]];
    [rewrite Nat.add_0_r; by apply inv_skip|rewrite Nat.add_0_r; by apply inv_refuse|].
  destruct Hc as [(-> & Hsyn & Hack & Hpk & -> & Hre & ->)|
    [(-> & Hsa & Hsaw & Hpk & -> & Hre & ->)|(Hack & Hsyn & [(-> & Hsaw & Hsq & Hpk & Hnsch & -> & ->)|
     (-> & Hsent & Hsq & Hpk & -> & ->)])]].
  - rewrite Nat.add_0_r. destruct (sawSYN f) eqn:Es.
    { rewrite <- (Hre eq_refl). replace (MkFlow _ _ _ _ _ _ _ _ _) with f; [by apply inv_skip|].
      destruct f; simpl in *; by subst. }
    assert (sawSYNACK f = false) by (destruct (sawSYNACK f); [by destruct H2|done]).
    assert (scheduled f = false) by (destruct (scheduled f); [by destruct H3; congruence|done]).
    assert (sent f = false) by (destruct (sent f); [by destruct H4; congruence|done]).
    split; flow_fields; rewrite ?Hs; try done; try (intros; (congruence || by apply H6)).
    intros _. apply (seen_add [] _ _ _ (seen_nil _)). by exists p.
  - rewrite Nat.add_0_r. destruct (sawSYNACK f) eqn:Es.
    { rewrite <- (Hre eq_refl). replace (MkFlow _ _ _ _ _ _ _ _ _) with f; [by apply inv_skip|].
      destruct f; simpl in *; by subst. }
    assert (scheduled f = false) by (destruct (scheduled f); [by destruct H3; congruence|done]).
    assert (sent f = false) by (destruct (sent f); [by destruct H4; congruence|done]).
    split; flow_fields; rewrite ?Hs; try done; try (intros; (congruence || by apply H6)).
    + auto using seen_keep.
    + intros _. split; [done|]. apply seen_add; [by apply H1|]. by exists p.
  - assert (Hns : sent f = false) by (destruct (sent f); [by destruct H4; congruence|done]).
    rewrite Hnsch in H7.
    split; flow_fields; rewrite ?Hs; try done; try (intros; (congruence || by apply H6)); try lia.
    + auto using seen_keep.
    + intros [? ?]%H2. auto using seen_keep.
    + intros _. split; [done|]. apply seen_add; [by apply H2|]. by exists p.
  - rewrite Nat.add_0_r. unfold finish. rewrite Hfin. pose proof (inv_skip _ _ _ _ (EvPacket p false) ltac:(done) Hi) as [].
    split; flow_fields; try done.
    intros _ _. split; [done|]. apply seen_add; [by apply H4|]. by exists p.
Qed.

Lemma inv_inject h tr n f closing sendOk :
  inv h tr (S n) f →
  inv h (tr ++ [if negb (finished f) && negb closing && sendOk then EvSent else EvNotSent]) n
    (inject f closing sendOk).
Proof.
  intros Hi. assert (Hn : inv h tr n f) by (destruct Hi; split; try done; lia).
  unfold inject. destruct (finished f) eqn:Hfin; [by apply inv_skip|].
  destruct closing; [by apply inv_skip|]. destruct sendOk; [|by apply inv_refuse].
  destruct Hi as [Hh H1 H2 H3 H4 H5 H6 H7 H8]. cbn [negb andb orb].
  assert (Hsch : scheduled f = true) by (destruct (scheduled f); [done|lia]). rewrite Hsch in H7.
  assert (Hs : sends (tr ++ [EvSent]) = S (sends tr)) by (rewrite sends_snoc; simpl; lia).
  split; flow_fields; rewrite ?Hs; try done; try (intros; (congruence || by apply H6)).
  - auto using seen_keep.
  - intros [? ?]%H2. auto using seen_keep.
  - intros [? ?]%H3. auto using seen_keep.
  - intros _. split; [done|]. apply seen_add; [by apply H3|done].
  - rewrite Hsch. lia.
Qed.

Lemma reach_inv h tr n f : reach h tr n f → inv h tr n f.
Proof.
  induction 1 as [|tr n f p ob _ IH|tr n f cl ok _ IH|tr n f _ IH].
  - split; try done; unfold sends; simpl; lia.
  - by apply inv_observe.
  - by apply inv_inject.
  - by apply inv_refuse.
Qed.

(** C36. In every run of a flow, whatever packets arrive and however the
    injection goroutine and the clean-up interleave with them, at most one decoy
    is sent, only after the packet that acknowledged the SYN+ACK, and once the
    flow has finished no event changes it. *)
Theorem flow_one_decoy h tr n f :
  reach h tr n f →
  (n + sends tr ≤ 1)%nat ∧
  (sent f = true →
     seen [is_SYN (isn f); is_SYNACK (isn f) (peerISN f); is_ACK true (isn f) (peerISN f); eq EvSent] tr) ∧
  (finished f = true → ∀ p ob cl ok,
     observe f p ob = (f, false) ∧ inject f cl ok = f ∧ finish f (Some ErrConfirmation) = f).
Proof.
  intros Hr. destruct (reach_inv _ _ _ _ Hr) as [_ _ _ _ H4 _ _ H7 _]. split; [destruct (scheduled f); lia|].
  split; [by intros [_ ?]%H4|].
  intros Hf p ob cl ok. unfold observe, inject, finish. by rewrite Hf.
Qed.

(** A flow reports success (connect's err is nil) only after, in this
    order: the outbound SYN with its initial sequence number, the SYN+ACK that
    acknowledges it, the ACK of that SYN+ACK, the decoy sent, and an inbound
    segment that acknowledges exactly isn+1, so the peer did not take the decoy
    as data; none of these carries data, FIN or RST. *)
Theorem flow_confirmed h tr n f :
  reach h tr n f → finished f = true → ferr f = None →
  seen [is_SYN (isn f); is_SYNACK (isn f) (peerISN f); is_ACK true (isn f) (peerISN f);
        eq EvSent; is_ACK false (peerISN f) (isn f)] tr.
Proof. intros Hr Hf He. by apply (inv_ok _ _ _ _ (reach_inv _ _ _ _ Hr)). Qed.

(** ** A run that succeeds, used by the witnesses *)

Definition demo_packet (sq ak fl : Z) : packet :=
  MkPacket (MkAddrPort [10; 0; 0; 2] 5000) (MkAddrPort [1; 2; 3; 4] 443) sq ak fl 20 20 0.

Definition demo_trace : list event :=
  [EvPacket (demo_packet 7 0 2) true; EvPacket (demo_packet 99 8 18) false;
   EvPacket (demo_packet 8 100 16) true; EvSent; EvPacket (demo_packet 100 8 16) false].

Definition demo_end : flow := MkFlow [1; 2; 3] 7 99 true true true true true None.

Lemma demo_reach : reach [1; 2; 3] demo_trace 0 demo_end.
Proof.
  pose proof (reach_new [1; 2; 3]) as H.
  apply (reach_packet _ _ _ _ (demo_packet 7 0 2) true) in H.
  apply (reach_packet _ _ _ _ (demo_packet 99 8 18) false) in H.
  apply (reach_packet _ _ _ _ (demo_packet 8 100 16) true) in H.
  apply (reach_inject _ _ 0 _ false true) in H.
  apply (reach_packet _ _ _ _ (demo_packet 100 8 16) false) in H. exact H.
Qed.

Lemma flow_one_decoy_witness : (0 + sends demo_trace ≤ 1)%nat.
Proof. exact (proj1 (flow_one_decoy [1; 2; 3] demo_trace 0 demo_end demo_reach)). Defined.

Lemma flow_confirmed_witness :
  seen [is_SYN 7; is_SYNACK 7 99; is_ACK true 7 99; eq EvSent; is_ACK false 99 7] demo_trace.
Proof. exact (flow_confirmed [1; 2; 3] demo_trace 0 demo_end demo_reach eq_refl eq_refl). Defined.
