(* ===== verification/Split.v ===== *)
(** * Splitting the TLS ClientHello (internal/snispoof/split.go)

    [splitHello] reads TLS records from the client until the handshake message
    is whole, finds the position to cut at, and returns the bytes to forward
    with the cut; [forwardHello] writes them. The reader is the list of bytes
    the client will deliver before its stream ends. An outer [None] is a
    run-time panic or an exhausted bound; [splitHello_lossless] excludes both. *)

From S2P Require Import Prelude Bytes.

Local Open Scope Z_scope.

Record Options := MkOptions {
  FakeSNI : string;
  TCPSplit : bool;
  TLSRecordSplit : bool
}.

Inductive split_error := ErrRead | ErrClientHello | ErrShortWrite | ErrWrite.

Definition refuse {A} : option (res split_error A) := Some (Err ErrClientHello).

(** ** helloSplitPosition *)

(** The names of the server_name extension, from [q] to [stop]. *)
Fixpoint name_loop (fuel : nat) (b : list Z) (stop q cut : nat) : option (res split_error nat) :=
  if negb (q <? stop)%nat then Some (Ok cut)
  else match fuel with
       | O => None
       | S fl =>
           if (stop <? q + 3)%nat then refuse
           else
             nameType ← b !! q; sz ← Uint16 b (q + 1);
             let size := Z.to_nat sz in
             if (size =? 0)%nat || (stop <? q + 3 + size)%nat then refuse
             else name_loop fl b stop (q + 3 + size)
                    (if (nameType =? 0)%Z then q + 3 + size / 2 else cut)%nat
       end.

(** The extensions, from [p] to the end of [b]. *)
Fixpoint ext_loop (fuel : nat) (b : list Z) (p cut : nat) (seen : bool) : option (res split_error nat) :=
  if negb (p <? length b)%nat then Some (Ok cut)
  else match fuel with
       | O => None
       | S fl =>
           if (length b <? p + 4)%nat then refuse
           else
             kind ← Uint16 b p; n16 ← Uint16 b (p + 2);
             let n := Z.to_nat n16 in
             let p := (p + 4)%nat in
             if (length b <? p + n)%nat then refuse
             else if kind =? 0 then
               if seen || (n <? 5)%nat then refuse
               else
                 ll ← Uint16 b p;
                 if negb (ll =? Z.of_nat n - 2) then refuse
                 else
                   r ← name_loop (length b) b (p + n) (p + 2) cut;
                   match r with
                   | Ok cut => ext_loop fl b (p + n) cut true
                   | Err e => Some (Err e)
                   end
             else ext_loop fl b (p + n) cut seen
       end.

Definition helloSplitPosition (b : list Z) : option (res split_error nat) :=
  if (length b <? 39)%nat then refuse
  else
    n8 ← b !! 38%nat;
    let n := Z.to_nat n8 in
    let p := 39%nat in
    if (32 <? n)%nat || (length b <? p + n + 2)%nat then refuse
    else
      let p := (p + n)%nat in
      n16 ← Uint16 b p;
      let n := Z.to_nat n16 in
      let p := (p + 2)%nat in
      if (n =? 0)%nat || negb (n mod 2 =? 0)%nat || (length b <? p + n + 1)%nat then refuse
      else
        let p := (p + n)%nat in
        n8 ← b !! p;
        let n := Z.to_nat n8 in
        let p := (p + 1)%nat in
        if (n =? 0)%nat || (length b <? p + n)%nat then refuse
        else
          let p := (p + n)%nat in
          if (p =? length b)%nat then Some (Ok 1%nat)
          else if (length b <? p + 2)%nat then refuse
          else
            x16 ← Uint16 b p;
            if negb (x16 =? Z.of_nat (length b) - Z.of_nat p - 2) then refuse
            else ext_loop (length b) b (p + 2) 1 false.

(** ** splitHello *)

Record span := MkSpan { sp_wire : nat; sp_payload : nat; sp_size : nat }.

(** io.ReadFull *)
Definition ReadFull (r : list Z) (n : nat) : res split_error (list Z * list Z) :=
  if (n <=? length r)%nat then Ok (take n r, drop n r) else Err ErrRead.

Record collected := MkCollected {
  c_wire : list Z;
  c_hello : list Z;
  c_spans : list span;
  c_need : nat
}.

(** The record loop; it refuses the sixty-fifth record, so 65 rounds suffice. *)
Fixpoint read_loop (fuel : nat) (r : list Z) (c : collected) :
    option (res split_error (collected * list Z)) :=
  if negb (length (c_hello c) <? c_need c)%nat then Some (Ok (c, r))
  else match fuel with
       | O => None
       | S fl =>
           match ReadFull r 5 with
           | Err e => Some (Err e)
           | Ok (header, r) =>
               n16 ← Uint16 header 3; h0 ← header !! 0%nat; h1 ← header !! 1%nat; h2 ← header !! 2%nat;
               let n := Z.to_nat n16 in
               if negb (h0 =? 22) || negb (h1 =? 3) || (3 <? h2) || (n =? 0)%nat || (16384 <? n16) ||
                  (64 <=? length (c_spans c))%nat || (65536 <? Z.of_nat (length (c_hello c)) + n16)
               then refuse
               else match ReadFull r n with
                    | Err e => Some (Err e)
                    | Ok (body, r) =>
                        let spans := c_spans c ++ [MkSpan (length (c_wire c)) (length (c_hello c)) n] in
                        let wire := (c_wire c ++ header) ++ body in
                        let hello := c_hello c ++ body in
                        if (4 <=? length hello)%nat then
                          t ← hello !! 0%nat; l1 ← hello !! 1%nat; l2 ← hello !! 2%nat; l3 ← hello !! 3%nat;
                          let need := 4 + Z.shiftl l1 16 + Z.shiftl l2 8 + l3 in
                          if negb (t =? 1) || (65536 <? need) || (need <? 42) then refuse
                          else read_loop fl r (MkCollected wire hello spans (Z.to_nat need))
                        else read_loop fl r (MkCollected wire hello spans (c_need c))
                    end
           end
       end.

(** The record the cut falls in. *)
Fixpoint cut_spans (wire : list Z) (cut : nat) (records : bool) (spans : list span) :
    option (res split_error (list Z * nat)) :=
  match spans with
  | [] => refuse
  | s :: rest =>
      if (cut <? sp_payload s)%nat || (sp_payload s + sp_size s <=? cut)%nat
      then cut_spans wire cut records rest
      else
        let part := (cut - sp_payload s)%nat in
        let at_ := (sp_wire s + 5 + part)%nat in
        if records && (0 <? part)%nat then
          out ← slice wire 0 at_;
          out ← PutUint16 out (sp_wire s + 3) (Z.of_nat part);
          h3 ← slice wire (sp_wire s) (sp_wire s + 3);
          tl ← slice wire at_ (length wire);
          Some (Ok (AppendUint16 (out ++ h3) (Z.of_nat (sp_size s - part)) ++ tl, (at_ + 5)%nat))
        else Some (Ok (wire, at_))
  end.

Definition splitHello (r : list Z) (records : bool) : option (res split_error (list Z * nat)) :=
  c ← read_loop 65 r (MkCollected [] [] [] 4);
  match c with
  | Err e => Some (Err e)
  | Ok (c, _) =>
      msg ← slice (c_hello c) 0 (c_need c);
      cut ← helloSplitPosition msg;
      match cut with
      | Err e => Some (Err e)
      | Ok cut => cut_spans (c_wire c) cut records (c_spans c)
      end
  end.

(** ** Writing

    The connection is a parameter: [answer k b] is what its k-th Write of [b]
    returns, a count and an error. [peer] is what has gone out. *)

Section Writer.
Context (answer : nat → list Z → Z * error).

Record conn := MkConn { peer : list Z; calls : nat }.

Definition Write (w : conn) (b : list Z) : (Z * error) * conn :=
  let '(n, err) := answer (calls w) b in
  ((n, err), MkConn (peer w ++ take (Z.to_nat n) b) (S (calls w))).

(** Every round writes at least one byte or returns. *)
Fixpoint write_loop (fuel : nat) (w : conn) (b : list Z) : option (option split_error * conn) :=
  if negb (0 <? length b)%nat then Some (None, w)
  else match fuel with
       | O => None
       | S fl =>
           let '((n, err), w) := Write w b in
           if (n <? 0) || (Z.of_nat (length b) <? n) then Some (Some ErrShortWrite, w)
           else
             b' ← slice b (Z.to_nat n) (length b);
             match err with
             | Some _ => Some (Some ErrWrite, w)
             | None => if n =? 0 then Some (Some ErrShortWrite, w) else write_loop fl w b'
             end
       end.

Definition writeAll (w : conn) (b : list Z) : option (option split_error * conn) :=
  write_loop (length b) w b.

Definition forwardHello (w : conn) (r : list Z) (o : Options) : option (option split_error * conn) :=
  s ← splitHello r (TLSRecordSplit o);
  match s with
  | Err e => Some (Some e, w)
  | Ok (b, cut) =>
      if negb (TCPSplit o) then writeAll w b
      else
        b1 ← slice b 0 cut;
        r1 ← writeAll w b1;
        match r1 with
        | (Some e, w) => Some (Some e, w)
        | (None, w) => b2 ← slice b cut (length b); writeAll w b2
        end
  end.

End Writer.

(** * ClientHello splitting: bounds, no panic, and nothing lost

    [helloSplitPosition] reads exactly the well-formed messages and cuts inside the
    last host name; [splitHello] always returns, refuses no well-formed message
    within its bounds, and what it forwards decodes, record by record, to the very
    handshake bytes the client sent. *)

(** ** The message, as TLS lays it out

    A ClientHello in its parts and its bytes, written apart from the code: every
    list is behind its length, the server_name extension is a list of typed names. *)

Inductive extension := ServerNames (names : list (Z * list Z)) | OtherExtension (kind : Z) (body : list Z).

Record ClientHello := MkClientHello {
  ch_fixed : list Z;           (* the legacy version and the random *)
  ch_session : list Z;
  ch_ciphers : list Z;
  ch_compression : list Z;
  ch_extensions : option (list extension)
}.

Definition len16 (l : list Z) : list Z := Z.of_nat (length l) / 256 :: Z.of_nat (length l) mod 256 :: l.
Definition len8 (l : list Z) : list Z := Z.of_nat (length l) :: l.
Definition name_bytes (n : Z * list Z) : list Z := n.1 :: len16 n.2.
Definition names_bytes (ns : list (Z * list Z)) : list Z := concat (name_bytes <$> ns).
Definition extension_bytes (e : extension) : list Z :=
  match e with
  | ServerNames ns => 0 :: 0 :: len16 (len16 (names_bytes ns))
  | OtherExtension k body => k / 256 :: k mod 256 :: len16 body
  end.
Definition extensions_bytes (es : list extension) : list Z := concat (extension_bytes <$> es).
Definition lists_bytes (ch : ClientHello) : list Z :=
  ch_fixed ch ++ len8 (ch_session ch) ++ len16 (ch_ciphers ch) ++ len8 (ch_compression ch).
Definition hello_body (ch : ClientHello) : list Z :=
  lists_bytes ch ++ match ch_extensions ch with None => [] | Some es => len16 (extensions_bytes es) end.
Definition hello_bytes (ch : ClientHello) : list Z :=
  let n := Z.of_nat (length (hello_body ch)) in 1 :: n / 65536 :: n / 256 mod 256 :: n mod 256 :: hello_body ch.

Definition is_names (e : extension) : bool := match e with ServerNames _ => true | _ => false end.
Definition name_ok (n : Z * list Z) : Prop := (0 < length n.2)%nat.
Definition extension_ok (e : extension) : Prop :=
  match e with ServerNames ns => ns ≠ [] ∧ Forall name_ok ns | OtherExtension k _ => 0 < k < 65536 end.

(** What makes it a message this code takes: its bytes, the sizes TLS sets, at most
    one server_name extension, and the bound of 65536 on the whole. *)
Record hello_ok (ch : ClientHello) : Prop := {
  ho_bytes : bytes_ok (hello_body ch);
  ho_size : Z.of_nat (length (hello_body ch)) ≤ 65532;
  ho_fixed : length (ch_fixed ch) = 34%nat;
  ho_session : (length (ch_session ch) ≤ 32)%nat;
  ho_ciphers : (0 < length (ch_ciphers ch))%nat ∧ (length (ch_ciphers ch) mod 2 = 0)%nat;
  ho_compression : (0 < length (ch_compression ch) < 256)%nat;
  ho_extensions : match ch_extensions ch with
                  | None => True
                  | Some es => Forall extension_ok es ∧ (length (List.filter is_names es) ≤ 1)%nat
                  end
}.

(** Where its host names are (the names of type 0): the offset of each, and the name. *)
Fixpoint names_at (q : nat) (ns : list (Z * list Z)) : list (nat * list Z) :=
  match ns with
  | [] => []
  | n :: ns => (if n.1 =? 0 then [((q + 3)%nat, n.2)] else []) ++ names_at (q + 3 + length n.2) ns
  end.
Fixpoint extensions_at (p : nat) (es : list extension) : list (nat * list Z) :=
  match es with
  | [] => []
  | e :: es => match e with ServerNames ns => names_at (p + 6) ns | _ => [] end ++ extensions_at (p + length (extension_bytes e)) es
  end.
Definition hosts (ch : ClientHello) : list (nat * list Z) :=
  match ch_extensions ch with None => [] | Some es => extensions_at (6 + length (lists_bytes ch)) es end.

Definition middle (hs : list (nat * list Z)) (otherwise : nat) : nat :=
  match last hs with Some (o, nm) => (o + length nm / 2)%nat | None => otherwise end.

Lemma middle_app h1 h2 c : middle (h1 ++ h2) c = middle h2 (middle h1 c).
Proof. unfold middle. rewrite last_app. by destruct (last h2) as [[]|]. Qed.

(** *** Reading a length and what is behind it *)

Lemma lookup_from (b : list Z) p i l : drop p b = l → b !! (p + i)%nat = l !! i.
Proof. intros <-. by rewrite lookup_drop. Qed.
Lemma Uint16_from b p i l : drop p b = l → Uint16 b (p + i) = Uint16 l i.
Proof. intros Hd. unfold Uint16. rewrite <- Nat.add_assoc. by rewrite !(lookup_from b p _ l Hd). Qed.
Lemma drop_rest (b : list Z) p i l : drop p b = l → drop (p + i) b = drop i l.
Proof. intros <-. by rewrite drop_drop. Qed.
Lemma length_from (b : list Z) p l : drop p b = l → (p ≤ length b)%nat → length b = (p + length l)%nat.
Proof. intros <- Hp. rewrite length_drop. lia. Qed.

Lemma length_len16 l : length (len16 l) = (2 + length l)%nat.
Proof. done. Qed.
Lemma length_len8 l : length (len8 l) = (1 + length l)%nat.
Proof. done. Qed.

Lemma Uint16_head x y l : Uint16 (x :: y :: l) 0 = Some (256 * x + y).
Proof. done. Qed.
Lemma halves v : 0 ≤ v → 256 * (v / 256) + v mod 256 = v.
Proof. intros. rewrite <- Z.div_mod; lia. Qed.

Lemma drop_two b p v : bytes_ok b → Uint16 b p = Some v → drop p b = v / 256 :: v mod 256 :: drop (p + 2) b.
Proof.
  intros Hb Hv. unfold Uint16 in Hv. destruct (b !! p) as [x|] eqn:Ex; [|done]. destruct (b !! (p + 1)%nat) as [y|] eqn:Ey; [|done].
  injection Hv as <-. pose proof (bytes_ok_lookup _ _ _ Hb Ex). pose proof (bytes_ok_lookup _ _ _ Hb Ey).
  rewrite (drop_S _ _ _ Ex). replace (S p) with (p + 1)%nat by lia. rewrite (drop_S _ _ _ Ey). replace (S (p + 1)) with (p + 2)%nat by lia.
  f_equal; [|f_equal].
  - apply (Z.div_unique _ _ _ y); lia.
  - apply (Z.mod_unique _ _ x); lia.
Qed.

(** Taking a message apart: the two bytes, what they count, and what follows. *)
Lemma take_len16 b p v : bytes_ok b → Uint16 b p = Some v → (p + 2 + Z.to_nat v ≤ length b)%nat →
  ∃ l, drop p b = len16 l ++ drop (p + 2 + Z.to_nat v) b ∧ length l = Z.to_nat v ∧ drop (p + 2) b = l ++ drop (p + 2 + Z.to_nat v) b.
Proof.
  intros Hb Hv Hl. pose proof (Uint16_bound _ _ _ Hb Hv) as Hr. exists (take (Z.to_nat v) (drop (p + 2) b)).
  assert (length (take (Z.to_nat v) (drop (p + 2) b)) = Z.to_nat v) as Hlen by (rewrite length_take, length_drop; lia).
  assert (drop (p + 2) b = take (Z.to_nat v) (drop (p + 2) b) ++ drop (p + 2 + Z.to_nat v) b) as Hd
    by (rewrite <- (take_drop (Z.to_nat v) (drop (p + 2) b)) at 1; by rewrite drop_drop).
  split_and!; [|done|done]. unfold len16. rewrite Hlen, Z2Nat.id by lia.
  rewrite (drop_two _ _ _ Hb Hv). cbn [app]. by rewrite <- Hd.
Qed.

Lemma take_len8 b p v : bytes_ok b → b !! p = Some v → (p + 1 + Z.to_nat v ≤ length b)%nat →
  ∃ l, drop p b = len8 l ++ drop (p + 1 + Z.to_nat v) b ∧ length l = Z.to_nat v.
Proof.
  intros Hb Hv Hl. pose proof (bytes_ok_lookup _ _ _ Hb Hv). exists (take (Z.to_nat v) (drop (p + 1) b)).
  assert (length (take (Z.to_nat v) (drop (p + 1) b)) = Z.to_nat v) as Hlen by (rewrite length_take, length_drop; lia).
  split; [|done]. unfold len8. rewrite Hlen, Z2Nat.id by lia. rewrite (drop_S _ _ _ Hv). cbn [app]. f_equal.
  replace (S p) with (p + 1)%nat by lia. rewrite <- (take_drop (Z.to_nat v) (drop (p + 1) b)) at 1. by rewrite drop_drop.
Qed.

(** Putting one together: the two bytes count what is behind them. *)
Lemma at_len16 b p l t : drop p b = len16 l ++ t → Z.of_nat (length l) < 65536 → (p ≤ length b)%nat →
  Uint16 b p = Some (Z.of_nat (length l)) ∧ drop (p + 2) b = l ++ t ∧ drop (p + 2 + length l) b = t ∧
  length b = (p + 2 + length l + length t)%nat.
Proof.
  intros Hd Hl Hp. pose proof (length_from _ _ _ Hd Hp) as Hlen. rewrite length_app, length_len16 in Hlen.
  split_and!; [| | |lia].
  - rewrite <- (Nat.add_0_r p), (Uint16_from _ _ 0 _ Hd). unfold len16. cbn [app]. rewrite Uint16_head, halves by lia. done.
  - by rewrite (drop_rest _ _ 2 _ Hd).
  - rewrite <- Nat.add_assoc, (drop_rest _ _ (2 + length l) _ Hd). cbn. by rewrite drop_app_length.
Qed.

(** *** The position

    The loops read a list of names, a list of extensions, to the end; the cut they
    return is the middle of the last host name, or the one they were given. *)

Lemma names_bytes_cons n ns : names_bytes (n :: ns) = n.1 :: len16 n.2 ++ names_bytes ns.
Proof. done. Qed.

Definition names_read (b : list Z) (stop q cut : nat) (r : res split_error nat) : Prop :=
  ∀ c, r = Ok c → ∃ ns, drop q b = names_bytes ns ++ drop stop b ∧ Forall name_ok ns ∧ c = middle (names_at q ns) cut.

Lemma names_refused b stop q cut : ∃ r, @refuse nat = Some r ∧ names_read b stop q cut r.
Proof. eexists. split; [done|]. by intros ? ?. Qed.
#[local] Hint Resolve names_refused : core.

Lemma name_loop_ok fuel b stop q cut :
  bytes_ok b → (q ≤ stop ≤ length b)%nat → (stop ≤ q + fuel)%nat →
  ∃ r, name_loop fuel b stop q cut = Some r ∧ names_read b stop q cut r.
Proof.
  intros Hb. revert q cut. induction fuel as [|fuel IH]; intros q cut Hstop Hf; cbn [name_loop].
  { rewrite (proj2 (Nat.ltb_ge _ _)) by lia. eexists. split; [done|]. intros ? [= <-]. exists []. by replace stop with q by lia. }
  destruct (q <? stop)%nat eqn:Eq; cbn [negb]; breflect;
    [|eexists; split; [done|]; intros ? [= <-]; exists []; by replace stop with q by lia].
  destruct (stop <? q + 3)%nat eqn:E3; [auto|]. breflect.
  destruct (lookup_lt_is_Some_2 b q) as [ty Ety]; [lia|]. rewrite Ety. cbn [mbind option_bind].
  destruct (Uint16_is_Some b (q + 1)) as [sz Esz]; [lia|]. rewrite Esz. cbn [mbind option_bind].
  pose proof (Uint16_bound _ _ _ Hb Esz). destruct (_ || _) eqn:Ec; [auto|]. breflect.
  destruct (take_len16 b (q + 1) sz Hb Esz) as (nm & Hd & Hnm & _); [lia|].
  destruct (IH (q + 3 + Z.to_nat sz) (if (ty =? 0)%Z then q + 3 + Z.to_nat sz / 2 else cut))%nat as (r & Hr & Hok); [lia..|].
  exists r. split; [done|]. intros c Hc. destruct (Hok c Hc) as (ns & Hns & Hall & ->). exists ((ty, nm) :: ns). split_and!.
  - rewrite (drop_S _ _ _ Ety), names_bytes_cons. cbn [fst snd app]. f_equal. replace (S q) with (q + 1)%nat by lia.
    rewrite Hd, <- app_assoc. f_equal. replace (q + 1 + 2 + Z.to_nat sz)%nat with (q + 3 + Z.to_nat sz)%nat by lia. done.
  - constructor; [unfold name_ok; cbn [snd]; lia|done].
  - cbn [names_at fst snd]. rewrite middle_app, Hnm. f_equal. by destruct (ty =? 0); unfold middle; cbn; rewrite ?Hnm.
Qed.

Lemma name_loop_takes fuel b stop q cut ns t : drop q b = names_bytes ns ++ t → (q ≤ length b)%nat →
  stop = (q + length (names_bytes ns))%nat → (length ns ≤ fuel)%nat → Z.of_nat (length (names_bytes ns)) < 65536 → Forall name_ok ns →
  name_loop fuel b stop q cut = Some (Ok (middle (names_at q ns) cut)).
Proof.
  intros Hd Hq Hs Hf Hl Hok. revert fuel q cut Hd Hq Hs Hf Hl. induction Hok as [|[ty nm] ns Hn Hok IH]; intros fuel q cut Hd Hq Hs Hf Hl.
  { rewrite Nat.add_0_r in Hs. subst stop. destruct fuel; cbn [name_loop]; by rewrite (proj2 (Nat.ltb_ge _ _)). }
  destruct fuel as [|fuel]; [simpl in Hf; lia|]. unfold name_ok in Hn. cbn [snd] in Hn. rewrite names_bytes_cons in *. cbn [fst snd] in *.
  cbn [length] in Hs, Hl. rewrite length_app, length_len16 in Hs, Hl. cbn [name_loop].
  pose proof (length_from _ _ _ Hd Hq) as Hlen. cbn [app length] in Hlen. rewrite !length_app, length_len16 in Hlen.
  rewrite (proj2 (Nat.ltb_lt _ _)), (proj2 (Nat.ltb_ge _ _)) by lia. cbn [negb].
  pose proof (lookup_from _ _ 0 _ Hd) as Hty. rewrite Nat.add_0_r in Hty. rewrite Hty. cbn [app lookup list_lookup mbind option_bind].
  assert (drop (q + 1) b = len16 nm ++ names_bytes ns ++ t) as Hd1 by (rewrite (drop_rest _ _ 1 _ Hd); cbn [app drop]; by rewrite <- app_assoc).
  destruct (at_len16 _ _ _ _ Hd1) as (-> & _ & Hd2 & _); [lia..|]. cbn [mbind option_bind]. rewrite Nat2Z.id.
  rewrite (proj2 (Nat.eqb_neq _ _)), (proj2 (Nat.ltb_ge _ _)) by lia. cbn [orb].
  replace (q + 1 + 2 + length nm)%nat with (q + 3 + length nm)%nat in Hd2 by lia.
  rewrite IH; [|done|lia|lia|simpl in Hf; lia|lia]. do 2 f_equal. cbn [names_at fst snd]. rewrite middle_app. f_equal. by destruct (ty =? 0).
Qed.

Lemma extensions_bytes_cons e es : extensions_bytes (e :: es) = extension_bytes e ++ extensions_bytes es.
Proof. done. Qed.

Definition seen_already (seen : bool) : nat := if seen then 1 else 0.
Definition extensions_read (b : list Z) (p cut : nat) (seen : bool) (r : res split_error nat) : Prop :=
  ∀ c, r = Ok c → ∃ es, drop p b = extensions_bytes es ∧ Forall extension_ok es ∧
    (seen_already seen + length (List.filter is_names es) ≤ 1)%nat ∧ c = middle (extensions_at p es) cut.

Lemma extensions_refused b p cut seen : ∃ r, @refuse nat = Some r ∧ extensions_read b p cut seen r.
Proof. eexists. split; [done|]. by intros ? ?. Qed.
#[local] Hint Resolve extensions_refused : core.
Lemma extensions_none b p cut seen : (length b ≤ p)%nat → extensions_read b p cut seen (Ok cut).
Proof. intros Hp ? [= <-]. exists []. split_and!; [by rewrite drop_ge|constructor|by destruct seen; cbn; lia|done]. Qed.

Lemma ext_loop_ok fuel b p cut seen :
  bytes_ok b → (length b ≤ p + fuel)%nat →
  ∃ r, ext_loop fuel b p cut seen = Some r ∧ extensions_read b p cut seen r.
Proof.
  intros Hb. revert p cut seen. induction fuel as [|fuel IH]; intros p cut seen Hf; cbn [ext_loop].
  { rewrite (proj2 (Nat.ltb_ge _ _)) by lia. eexists. split; [done|]. apply extensions_none. lia. }
  destruct (p <? length b)%nat eqn:Ep; cbn [negb]; breflect; [|eexists; split; [done|]; by apply extensions_none].
  destruct (length b <? p + 4)%nat eqn:E4; [auto|]. breflect.
  destruct (Uint16_is_Some b p) as [kind Ek]; [lia|]. rewrite Ek. pose proof (Uint16_bound _ _ _ Hb Ek).
  destruct (Uint16_is_Some b (p + 2)) as [n16 En]; [lia|]. rewrite En. cbn [mbind option_bind].
  pose proof (Uint16_bound _ _ _ Hb En). destruct (length b <? p + 4 + Z.to_nat n16)%nat eqn:El; [auto|]. breflect.
  destruct (take_len16 b (p + 2) n16 Hb En) as (body & Hd & Hbody & Hd'); [lia|].
  replace (p + 2 + 2 + Z.to_nat n16)%nat with (p + 4 + Z.to_nat n16)%nat in * by lia.
  replace (p + 2 + 2)%nat with (p + 4)%nat in Hd' by lia.
  pose proof (drop_two _ _ _ Hb Ek) as Hk.
  destruct (kind =? 0) eqn:E0; breflect.
  - destruct (seen || _) eqn:Es; [auto|]. breflect. subst kind seen.
    destruct (Uint16_is_Some b (p + 4)) as [ll Ell]; [lia|]. rewrite Ell. cbn [mbind option_bind].
    destruct (negb _) eqn:En2; [auto|]. breflect.
    destruct (name_loop_ok (length b) b (p + 4 + Z.to_nat n16) (p + 4 + 2) cut Hb) as (r & -> & Hr); [lia..|].
    cbn [mbind option_bind]. destruct r as [cut'|e]; [|eexists; split; [done|]; by intros ? ?].
    destruct (Hr cut' eq_refl) as (ns & Hns & Hall & ->).
    destruct (IH (p + 4 + Z.to_nat n16)%nat (middle (names_at (p + 4 + 2) ns) cut) true) as (r' & -> & Hr'); [lia|].
    exists r'. split; [done|]. intros c Hc. destruct (Hr' c Hc) as (es & Hes & Hok & Hcount & ->). exists (ServerNames ns :: es).
    destruct (take_len16 b (p + 4) ll Hb Ell) as (names & Hn1 & Hn2 & Hn3); [lia|].
    replace (p + 4 + 2 + Z.to_nat ll)%nat with (p + 4 + Z.to_nat n16)%nat in * by lia.
    rewrite Hns in Hn3. apply app_inv_tail in Hn3 as <-.
    assert (body = len16 (names_bytes ns)) as -> by (rewrite Hn1 in Hd'; by apply app_inv_tail in Hd').
    split_and!.
    + rewrite Hk, Hd, Hes. reflexivity.
    + constructor; [|done]. split; [|done]. intros ->. cbn in Hn2. lia.
    + unfold seen_already in *. cbn. lia.
    + cbn [extensions_at extension_bytes length]. rewrite length_len16, Hbody, middle_app. replace (p + 4 + 2)%nat with (p + 6)%nat by lia.
      do 2 f_equal; lia.
  - destruct (IH (p + 4 + Z.to_nat n16)%nat cut seen) as (r & -> & Hr); [lia|]. exists r. split; [done|]. intros c Hc.
    destruct (Hr c Hc) as (es & Hes & Hok & Hcount & ->). exists (OtherExtension kind body :: es). split_and!.
    + rewrite Hk, Hd, Hes. reflexivity.
    + constructor; [cbn; lia|done].
    + done.
    + cbn [extensions_at extension_bytes length app]. rewrite length_len16, Hbody. do 2 f_equal; lia.
Qed.

Lemma names_short ns : (3 * length ns ≤ length (names_bytes ns))%nat.
Proof. induction ns as [|n ns IH]; [done|]. rewrite names_bytes_cons. cbn [length]. rewrite length_app, length_len16. lia. Qed.

Lemma ext_loop_takes fuel b p cut seen es : drop p b = extensions_bytes es → (p ≤ length b)%nat →
  (length (extensions_bytes es) ≤ fuel)%nat → Z.of_nat (length (extensions_bytes es)) < 65536 → Forall extension_ok es →
  (seen_already seen + length (List.filter is_names es) ≤ 1)%nat →
  ext_loop fuel b p cut seen = Some (Ok (middle (extensions_at p es) cut)).
Proof.
  intros Hd Hp Hf Hl Hok. revert fuel p cut seen Hd Hp Hf Hl. induction Hok as [|e es He Hok IH]; intros fuel p cut seen Hd Hp Hf Hl Hs.
  { pose proof (length_from _ _ _ Hd Hp) as Hlen. cbn in Hlen. destruct fuel; cbn [ext_loop]; by rewrite (proj2 (Nat.ltb_ge _ _)) by lia. }
  rewrite extensions_bytes_cons, length_app in *. pose proof (length_from _ _ _ Hd Hp) as Hlen. rewrite length_app in Hlen.
  assert (∃ k body, extension_bytes e = k / 256 :: k mod 256 :: len16 body ∧ 0 ≤ k < 65536 ∧
    match e with ServerNames ns => k = 0 ∧ body = len16 (names_bytes ns) | OtherExtension k' _ => k = k' end) as (k & body & Ee & Hk & Hshape)
    by (destruct e as [ns|k body]; [by exists 0, (len16 (names_bytes ns))|exists k, body; cbn in He; split_and!; [done|lia..|done]]).
  assert (length (extension_bytes e) = (4 + length body)%nat) as Hel by (rewrite Ee; cbn [length]; rewrite length_len16; lia).
  rewrite Ee in Hd. cbn [app] in Hd. destruct fuel as [|fuel]; [lia|]. cbn [ext_loop].
  rewrite (proj2 (Nat.ltb_lt _ _)), (proj2 (Nat.ltb_ge _ _)) by lia. cbn [negb].
  pose proof (Uint16_from _ _ 0 _ Hd) as Hkind. rewrite Nat.add_0_r, Uint16_head, halves in Hkind by lia. rewrite Hkind.
  pose proof (drop_rest _ _ 2 _ Hd) as Hd1. cbn [drop] in Hd1. destruct (at_len16 _ _ _ _ Hd1) as (-> & Hb1 & Hd2 & _); [lia..|].
  cbn [mbind option_bind]. rewrite Nat2Z.id. rewrite (proj2 (Nat.ltb_ge _ _)) by lia.
  replace (p + 2 + 2 + length body)%nat with (p + 4 + length body)%nat in Hd2 by lia. replace (p + 2 + 2)%nat with (p + 4)%nat in Hb1 by lia.
  destruct e as [ns|k' body'].
  - destruct Hshape as [-> ->]. destruct He as [Hne Hns]. cbn [Z.eqb]. cbn [List.filter is_names length] in Hs.
    destruct seen; [unfold seen_already in Hs; lia|]. rewrite length_len16 in *.
    destruct (at_len16 _ _ _ _ Hb1) as (Hll & Hn1 & _ & _); [lia..|]. pose proof (names_short ns) as Hsh.
    assert (0 < length ns)%nat by (destruct ns; [done|simpl; lia]). rewrite (proj2 (Nat.ltb_ge _ _)) by lia. cbn [orb].
    rewrite Hll. cbn [mbind option_bind]. rewrite (proj2 (Z.eqb_eq _ _)) by lia. cbn [negb].
    rewrite (name_loop_takes _ _ _ _ _ ns _ Hn1) by (done || lia). cbn [mbind option_bind].
    rewrite IH by (done || (unfold seen_already in *; lia)). do 2 f_equal. cbn [extensions_at]. rewrite middle_app, Hel.
    replace (p + 4 + 2)%nat with (p + 6)%nat by lia. do 2 f_equal; lia.
  - subst k'. cbn in He. rewrite (proj2 (Z.eqb_neq _ _)) by lia. cbn [List.filter is_names] in Hs. rewrite IH by (done || lia).
    do 2 f_equal. cbn [extensions_at app]. rewrite Hel. do 2 f_equal; lia.
Qed.

Definition hello_read (b : list Z) (r : res split_error nat) : Prop :=
  ∀ c, r = Ok c → ∃ ch, drop 4 b = hello_body ch ∧ hello_ok ch ∧ c = middle (hosts ch) 1.

Lemma hello_refused b : ∃ r, @refuse nat = Some r ∧ hello_read b r.
Proof. eexists. split; [done|]. by intros ? ?. Qed.

Lemma helloSplitPosition_ok b :
  bytes_ok b → Z.of_nat (length b) ≤ 65536 → ∃ r, helloSplitPosition b = Some r ∧ hello_read b r.
Proof.
  intros Hb Hsize. unfold helloSplitPosition. pose proof (hello_refused b) as Hrefuse.
  destruct (length b <? 39)%nat eqn:El; [done|]. breflect.
  destruct (lookup_lt_is_Some_2 b 38) as [n1 En1]; [lia|]. rewrite En1. cbn [mbind option_bind].
  destruct (_ || _) eqn:E1; [done|]. breflect.
  destruct (take_len8 b 38 n1 Hb En1) as (session & Hd1 & Hl1); [lia|].
  replace (38 + 1 + Z.to_nat n1)%nat with (39 + Z.to_nat n1)%nat in Hd1 by lia. set (p1 := (39 + Z.to_nat n1)%nat) in *.
  destruct (Uint16_is_Some b p1) as [n2 En2]; [lia|]. rewrite En2. cbn [mbind option_bind].
  destruct (_ || _) eqn:E2; [done|]. breflect.
  destruct (take_len16 b p1 n2 Hb En2) as (ciphers & Hd2 & Hl2 & _); [lia|]. set (p2 := (p1 + 2 + Z.to_nat n2)%nat) in *.
  destruct (lookup_lt_is_Some_2 b p2) as [n3 En3]; [lia|]. rewrite En3. cbn [mbind option_bind].
  pose proof (bytes_ok_lookup _ _ _ Hb En3). destruct (_ || _) eqn:E3; [done|]. breflect.
  destruct (take_len8 b p2 n3 Hb En3) as (compression & Hd3 & Hl3); [lia|]. set (p3 := (p2 + 1 + Z.to_nat n3)%nat) in *.
  set (fixed := take 34 (drop 4 b)). assert (length fixed = 34%nat) as Hlf by (unfold fixed; rewrite length_take, length_drop; lia).
  assert (drop 4 b = fixed ++ drop 38 b) as Hd0 by (rewrite <- (take_drop 34 (drop 4 b)) at 1; by rewrite drop_drop).
  assert (∀ exts, drop p3 b = match exts with None => [] | Some es => len16 (extensions_bytes es) end →
    match exts with None => True | Some es => Forall extension_ok es ∧ (length (List.filter is_names es) ≤ 1)%nat end →
    let ch := MkClientHello fixed session ciphers compression exts in drop 4 b = hello_body ch ∧ hello_ok ch) as Hch.
  { intros exts Hx Hxok ch. assert (drop 4 b = hello_body ch) as Hbody.
    { rewrite Hd0, Hd1, Hd2, Hd3, Hx. unfold hello_body, lists_bytes. cbn [ch ch_fixed ch_session ch_ciphers ch_compression ch_extensions].
      by rewrite <- !app_assoc. }
    split; [done|]. split; rewrite <- ?Hbody; cbn [ch ch_fixed ch_session ch_ciphers ch_compression ch_extensions];
      rewrite ?length_drop, ?Hl2; try (done || lia). by apply Forall_drop. }
  destruct (_ =? length b)%nat eqn:E4; breflect.
  { eexists. split; [done|]. intros ? [= <-]. destruct (Hch None) as [Hh1 Hh2]; [by rewrite drop_ge by lia|done|]. eexists. by split_and!. }
  destruct (length b <? p3 + 2)%nat eqn:E5; [done|]. breflect.
  destruct (Uint16_is_Some b p3) as [x Ex]; [lia|]. rewrite Ex. cbn [mbind option_bind].
  destruct (negb _) eqn:E6; [done|]. breflect.
  destruct (take_len16 b p3 x Hb Ex) as (exts & Hd4 & Hl4 & Hd5); [lia|]. rewrite (drop_ge b (p3 + 2 + Z.to_nat x)), app_nil_r in Hd4, Hd5 by lia.
  destruct (ext_loop_ok (length b) b (p3 + 2) 1 false Hb) as (r & -> & Hr); [lia|].
  exists r. split; [done|]. intros c Hc. destruct (Hr c Hc) as (es & Hes & Hok & Hcount & ->). rewrite Hes in Hd5. subst exts.
  destruct (Hch (Some es)) as [Hh1 Hh2]; [done|done|]. eexists. split_and!; [done|done|]. unfold hosts.
  cbn [ch_extensions]. do 2 f_equal. unfold lists_bytes. cbn [ch_fixed ch_session ch_ciphers ch_compression].
  rewrite !length_app, !length_len8, length_len16. lia.
Qed.

Lemma helloSplitPosition_takes b ch : drop 4 b = hello_body ch → (4 ≤ length b)%nat → hello_ok ch →
  helloSplitPosition b = Some (Ok (middle (hosts ch) 1)).
Proof.
  intros Hd Hl [Hb Hsize Hfix Hses [Hci Hev] Hco Hex]. pose proof (length_from _ _ _ Hd Hl) as Hlen.
  unfold hello_body, lists_bytes in Hd. rewrite <- !app_assoc in Hd.
  assert (length (hello_body ch) = length (lists_bytes ch) + length (match ch_extensions ch with None => [] | Some es => len16 (extensions_bytes es) end))%nat
    as Hbl by (unfold hello_body; apply length_app).
  assert (length (lists_bytes ch) = 34 + (1 + length (ch_session ch)) + (2 + length (ch_ciphers ch)) + (1 + length (ch_compression ch)))%nat as Hll
    by (unfold lists_bytes; rewrite !length_app, !length_len8, length_len16; lia).
  unfold helloSplitPosition. rewrite (proj2 (Nat.ltb_ge _ _)) by lia.
  pose proof (drop_rest _ _ 34 _ Hd) as Hd1. rewrite drop_app_length' in Hd1 by done. cbn [Nat.add] in Hd1.
  pose proof (lookup_from _ _ 0 _ Hd1) as Hs. cbn [Nat.add len8 app lookup list_lookup] in Hs. rewrite Hs. cbn [mbind option_bind]. rewrite Nat2Z.id.
  rewrite !(proj2 (Nat.ltb_ge _ _)) by lia. cbn [orb].
  pose proof (drop_rest _ _ (1 + length (ch_session ch)) _ Hd1) as Hd2. rewrite drop_app_length' in Hd2 by done.
  replace (38 + (1 + length (ch_session ch)))%nat with (39 + length (ch_session ch))%nat in Hd2 by lia. set (p1 := (39 + length (ch_session ch))%nat) in *.
  destruct (at_len16 _ _ _ _ Hd2) as (-> & _ & Hd3 & _); [lia..|]. cbn [mbind option_bind]. rewrite Nat2Z.id, Hev.
  rewrite (proj2 (Nat.eqb_neq _ _)), (proj2 (Nat.ltb_ge _ _)) by lia. cbn [Nat.eqb negb orb]. set (p2 := (p1 + 2 + length (ch_ciphers ch))%nat) in *.
  pose proof (lookup_from _ _ 0 _ Hd3) as Hc. rewrite Nat.add_0_r in Hc. cbn [len8 app lookup list_lookup] in Hc. rewrite Hc.
  cbn [mbind option_bind]. rewrite Nat2Z.id. rewrite (proj2 (Nat.eqb_neq _ _)), (proj2 (Nat.ltb_ge _ _)) by lia. cbn [orb].
  pose proof (drop_rest _ _ (1 + length (ch_compression ch)) _ Hd3) as Hd4. rewrite drop_app_length' in Hd4 by done. rewrite Nat.add_assoc in Hd4.
  set (p3 := (p2 + 1 + length (ch_compression ch))%nat) in *. unfold hosts. destruct (ch_extensions ch) as [es|].
  - rewrite length_len16 in Hbl. rewrite (proj2 (Nat.eqb_neq _ _)), (proj2 (Nat.ltb_ge _ _)) by lia.
    rewrite <- (app_nil_r (len16 _)) in Hd4. destruct (at_len16 _ _ _ _ Hd4) as (-> & Hd5 & _ & _); [lia..|]. cbn [mbind option_bind].
    rewrite (proj2 (Z.eqb_eq _ _)) by lia. cbn [negb]. rewrite app_nil_r in Hd5.
    rewrite (ext_loop_takes _ _ _ _ _ es) by (done || lia || (unfold seen_already; destruct Hex; done || lia)).
    do 3 f_equal. f_equal. lia.
  - cbn [length] in Hbl. by rewrite (proj2 (Nat.eqb_eq _ _)) by lia.
Qed.

(** The names are where [hosts] says they are, and the middle of one is inside it. *)
Lemma names_there b q ns t o nm : drop q b = names_bytes ns ++ t → Forall name_ok ns → (o, nm) ∈ names_at q ns →
  (0 < length nm)%nat ∧ ∃ t', drop o b = nm ++ t'.
Proof.
  intros Hd Hok. revert q Hd. induction Hok as [|[ty n] ns Hn Hok IH]; intros q Hd Hin; [by apply elem_of_nil in Hin|].
  rewrite names_bytes_cons in Hd. cbn [fst snd app] in Hd. cbn [names_at fst snd] in Hin.
  assert (drop (q + 3) b = n ++ names_bytes ns ++ t) as Hd3 by (rewrite (drop_rest _ _ 3 _ Hd); cbn; by rewrite <- app_assoc).
  apply elem_of_app in Hin as [Hin|Hin].
  - destruct (ty =? 0); [|by apply elem_of_nil in Hin]. apply list_elem_of_singleton in Hin as [= -> ->]. split; [exact Hn|by eexists].
  - apply (IH (q + 3 + length n)%nat); [|done]. rewrite (drop_rest _ _ (length n) _ Hd3). by rewrite drop_app_length.
Qed.

Lemma extensions_there b p es t o nm : drop p b = extensions_bytes es ++ t → Forall extension_ok es → (o, nm) ∈ extensions_at p es →
  (0 < length nm)%nat ∧ ∃ t', drop o b = nm ++ t'.
Proof.
  intros Hd Hok. revert p Hd. induction Hok as [|e es He Hok IH]; intros p Hd Hin; [by apply elem_of_nil in Hin|].
  rewrite extensions_bytes_cons, <- app_assoc in Hd. cbn [extensions_at] in Hin. apply elem_of_app in Hin as [Hin|Hin].
  - destruct e as [ns|]; [|by apply elem_of_nil in Hin]. destruct He as [_ He].
    apply (names_there b (p + 6) ns (extensions_bytes es ++ t)); [|done|done]. by rewrite (drop_rest _ _ 6 _ Hd).
  - apply (IH (p + length (extension_bytes e))%nat); [|done]. rewrite (drop_rest _ _ _ _ Hd). by rewrite drop_app_length.
Qed.

Lemma hosts_there ch o nm : hello_ok ch → (o, nm) ∈ hosts ch → (0 < length nm)%nat ∧ slice (hello_bytes ch) o (o + length nm) = Some nm.
Proof.
  intros Hok Hin. pose proof (ho_extensions _ Hok) as Hex. unfold hosts in Hin. destruct (ch_extensions ch) as [es|] eqn:Ee;
    [|by apply elem_of_nil in Hin]. destruct Hex as [Hex _].
  destruct (extensions_there (hello_bytes ch) (6 + length (lists_bytes ch)) es [] o nm) as (Hpos & t & Ht); [|done|done|].
  { change (6 + length (lists_bytes ch))%nat with (4 + (2 + length (lists_bytes ch)))%nat.
    rewrite (drop_rest _ 4 _ (hello_body ch)) by done. unfold hello_body. rewrite Ee, app_nil_r.
    replace (2 + length (lists_bytes ch))%nat with (length (lists_bytes ch) + 2)%nat by lia. by rewrite (drop_rest _ _ _ _ (drop_app_length _ _)). }
  split; [done|]. apply slice_spec. assert (o + length nm ≤ length (hello_bytes ch))%nat.
  { pose proof (f_equal length Ht) as Hl. rewrite length_app, length_drop in Hl. lia. }
  split; [lia|]. replace (o + length nm - o)%nat with (length nm) by lia. by rewrite Ht, take_app_length.
Qed.

(** ** The record layer, as the receiver decodes it *)

(** The handshake bytes of a sequence of TLS handshake records: the reference
    both the client's and the forwarded bytes are measured against. *)
Fixpoint decode (fuel : nat) (l : list Z) : option (list Z) :=
  match fuel, l with
  | _, [] => Some []
  | S fl, 22 :: 3 :: m :: hi :: lo :: r =>
      let n := Z.to_nat (256 * hi + lo) in
      if (m <=? 3) && (0 <? n)%nat && (Z.of_nat n <=? 16384) && (n <=? length r)%nat
      then rest ← decode fl (drop n r); Some (take n r ++ rest)
      else None
  | _, _ => None
  end.

Definition handshake_bytes (l : list Z) : option (list Z) := decode (length l) l.

(** A record: its minor version and its body. *)
Abbreviation rec := (Z * list Z)%type.
Definition rec_ok (r : rec) : Prop :=
  0 ≤ r.1 ≤ 3 ∧ (0 < length r.2)%nat ∧ Z.of_nat (length r.2) ≤ 16384 ∧ bytes_ok r.2.
Definition enc (r : rec) : list Z := AppendUint16 [22; 3; r.1] (Z.of_nat (length r.2)) ++ r.2.
Definition flat (rs : list rec) : list Z := concat (enc <$> rs).
Definition bodies (rs : list rec) : list Z := concat (snd <$> rs).

Fixpoint spans_of (w p : nat) (rs : list rec) : list span :=
  match rs with
  | [] => []
  | r :: rs => MkSpan w p (length r.2) :: spans_of (w + 5 + length r.2) (p + length r.2) rs
  end.

Lemma length_enc r : length (enc r) = (5 + length r.2)%nat.
Proof. unfold enc, AppendUint16. by rewrite !length_app. Qed.

Lemma flat_app rs1 rs2 : flat (rs1 ++ rs2) = flat rs1 ++ flat rs2.
Proof. unfold flat. by rewrite fmap_app, concat_app. Qed.

Lemma bodies_app rs1 rs2 : bodies (rs1 ++ rs2) = bodies rs1 ++ bodies rs2.
Proof. unfold bodies. by rewrite fmap_app, concat_app. Qed.

Lemma flat_cons r rs : flat (r :: rs) = enc r ++ flat rs.
Proof. done. Qed.

Lemma bodies_cons r rs : bodies (r :: rs) = r.2 ++ bodies rs.
Proof. done. Qed.

Lemma length_flat rs : length (flat rs) = (5 * length rs + length (bodies rs))%nat.
Proof.
  induction rs as [|r rs IH]; [done|]. rewrite flat_cons, bodies_cons, !length_app, length_enc, IH.
  simpl. lia.
Qed.

Lemma spans_of_app w p rs1 rs2 :
  spans_of w p (rs1 ++ rs2) = spans_of w p rs1 ++ spans_of (w + length (flat rs1)) (p + length (bodies rs1)) rs2.
Proof.
  revert w p. induction rs1 as [|r rs IH]; intros w p; [simpl; by rewrite !Nat.add_0_r|].
  cbn [app spans_of]. rewrite IH, flat_cons, bodies_cons, !length_app, length_enc. cbn [app]. f_equal. f_equal. f_equal; lia.
Qed.

Lemma decode_flat rs fuel : Forall rec_ok rs → (length (flat rs) ≤ fuel)%nat → decode fuel (flat rs) = Some (bodies rs).
Proof.
  revert fuel. induction rs as [|[m b] rs IH]; intros fuel Hok Hf; [by destruct fuel|].
  apply Forall_cons in Hok as [(Hm & Hpos & Hle & Hb) Hok]. cbn [fst snd] in *.
  rewrite flat_cons, length_app, length_enc in Hf. cbn [snd] in Hf.
  destruct fuel as [|fuel]; [lia|]. rewrite flat_cons, bodies_cons. unfold enc, AppendUint16.
  cbn [fst snd app decode].
  rewrite u16_split, u16_small by lia. rewrite Nat2Z.id.
  rewrite (proj2 (Z.leb_le m 3)), (proj2 (Nat.ltb_lt _ _)), (proj2 (Z.leb_le _ _)), (proj2 (Nat.leb_le _ _))
    by (rewrite ?length_app; lia).
  cbn [andb]. rewrite drop_app_length, take_app_length, IH by (done || lia). done.
Qed.

Lemma handshake_bytes_flat rs : Forall rec_ok rs → handshake_bytes (flat rs) = Some (bodies rs).
Proof. intros. by apply decode_flat. Qed.

(** ** Collecting the records *)

(** What is waited for: four bytes, and then the length the message gives itself. *)
Definition need_ok (hello : list Z) (need : nat) : Prop :=
  if (4 <=? length hello)%nat
  then ∃ l1 l2 l3, take 4 hello = [1; l1; l2; l3] ∧ Z.of_nat need = 4 + (65536 * l1 + 256 * l2 + l3) ∧ 42 ≤ Z.of_nat need ≤ 65536
  else need = 4%nat.

Record collects (r0 r : list Z) (c : collected) (rs : list rec) : Prop := {
  co_ok : Forall rec_ok rs;
  co_wire : c_wire c = flat rs;
  co_hello : c_hello c = bodies rs;
  co_spans : c_spans c = spans_of 0 0 rs;
  co_input : r0 = c_wire c ++ r;
  co_small : Z.of_nat (length (c_hello c)) ≤ 65536;
  co_need : need_ok (c_hello c) (c_need c)
}.

Lemma length_spans_of w p rs : length (spans_of w p rs) = length rs.
Proof. revert w p. induction rs; intros; simpl; auto. Qed.

(** The five header bytes the loop accepts are a record header. *)
Lemma header_enc header n16 h2 body :
  bytes_ok header → length header = 5%nat → header !! 0%nat = Some 22 → header !! 1%nat = Some 3 →
  header !! 2%nat = Some h2 → Uint16 header 3 = Some n16 → Z.of_nat (length body) = n16 →
  header ++ body = enc (h2, body).
Proof.
  intros Hb Hl. destruct header as [|a [|b [|c [|d [|e [|]]]]]]; try done.
  intros [= ->] [= ->] [= ->] [= <-] Hn. unfold enc, AppendUint16. cbn [fst snd]. rewrite Hn. simpl.
  do 3 apply Forall_cons in Hb as [_ Hb]. apply Forall_cons in Hb as [Hd Hb].
  apply Forall_cons in Hb as [He _]. unfold byte_ok in *. rewrite u16_small by lia.
  repeat f_equal; rewrite Z.mul_comm.
  - rewrite Z.div_add_l, Z.div_small by lia. lia.
  - rewrite Z.add_comm, Z.mod_add by lia. by rewrite Z.mod_small.
Qed.

Definition collected_ok (r0 : list Z) (res : res split_error (collected * list Z)) : Prop :=
  ∀ c r, res = Ok (c, r) → ∃ rs, collects r0 r c rs ∧ (c_need c ≤ length (c_hello c))%nat.

Lemma collected_err r0 e : ∃ res, Some (Err e) = Some res ∧ collected_ok r0 res.
Proof. eexists. split; [done|]. by intros ? ? ?. Qed.

(** One more record keeps what has been collected a prefix of the input. *)
Lemma collects_snoc r0 r c rs m body need :
  collects r0 (enc (m, body) ++ r) c rs → rec_ok (m, body) →
  Z.of_nat (length (c_hello c)) + Z.of_nat (length body) ≤ 65536 → need_ok (c_hello c ++ body) need →
  collects r0 r (MkCollected (c_wire c ++ enc (m, body)) (c_hello c ++ body)
    (c_spans c ++ [MkSpan (length (c_wire c)) (length (c_hello c)) (length body)]) need) (rs ++ [(m, body)]).
Proof.
  intros [H1 H2 H3 H4 H5 H6 H7] Hok Hlen Hneed. split; cbn [c_wire c_hello c_spans c_need].
  - apply Forall_app. split; [done|by apply Forall_singleton].
  - rewrite flat_app, H2. unfold flat at 3. simpl. by rewrite app_nil_r.
  - rewrite bodies_app, H3. unfold bodies at 3. simpl. by rewrite app_nil_r.
  - by rewrite spans_of_app, H4, H2, H3.
  - by rewrite <- app_assoc.
  - rewrite length_app. lia.
  - done.
Qed.

Lemma four_bytes (l : list Z) : (4 ≤ length l)%nat → ∃ a b c d, take 4 l = [a; b; c; d] ∧
  l !! 0%nat = Some a ∧ l !! 1%nat = Some b ∧ l !! 2%nat = Some c ∧ l !! 3%nat = Some d.
Proof. destruct l as [|a [|b [|c [|d l]]]]; cbn [length]; try lia. intros _. by exists a, b, c, d. Qed.

Lemma read_loop_ok fuel r0 r c rs :
  bytes_ok r0 → collects r0 r c rs → (length rs ≤ 64)%nat → (65 ≤ length rs + fuel)%nat →
  ∃ res, read_loop fuel r c = Some res ∧ collected_ok r0 res.
Proof.
  intros Hb. revert r c rs. induction fuel as [|fuel IH]; intros r c rs Hc Hrs Hf; [lia|]. cbn [read_loop].
  destruct (length (c_hello c) <? c_need c)%nat eqn:En; cbn [negb];
    [|eexists; split; [done|]; intros ? ? [= <- <-]; breflect; eauto]. clear En.
  unfold ReadFull. destruct (5 <=? length r)%nat eqn:E5; [|apply collected_err]. breflect.
  set (header := take 5 r). set (r1 := drop 5 r).
  assert (Hr : r = header ++ r1) by (unfold header, r1; by rewrite take_drop).
  assert (Hrb : bytes_ok r) by (rewrite (co_input _ _ _ _ Hc) in Hb; by apply Forall_app in Hb as [_ ?]).
  assert (Hhb : bytes_ok header) by (by apply Forall_take).
  assert (Hhl : length header = 5%nat) by (unfold header; rewrite length_take; lia).
  destruct (Uint16_is_Some header 3) as [n16 En16]; [lia|]. rewrite En16.
  destruct (lookup_lt_is_Some_2 header 0) as [h0 E0]; [lia|]. rewrite E0.
  destruct (lookup_lt_is_Some_2 header 1) as [h1 E1]; [lia|]. rewrite E1.
  destruct (lookup_lt_is_Some_2 header 2) as [h2 E2]; [lia|]. rewrite E2. cbn [mbind option_bind].
  pose proof (Uint16_bound _ _ _ Hhb En16). pose proof (bytes_ok_lookup _ _ _ Hhb E2).
  destruct (_ || _) eqn:Ec; [apply collected_err|]. breflect. subst h0 h1.
  destruct (_ <=? length r1)%nat eqn:El; [|apply collected_err]. breflect.
  set (body := take (Z.to_nat n16) r1). set (r2 := drop (Z.to_nat n16) r1).
  assert (Hbl : length body = Z.to_nat n16) by (unfold body; rewrite length_take; lia).
  assert (Henc : header ++ body = enc (h2, body)) by (eapply header_enc; eauto; lia).
  assert (Hr2 : r = enc (h2, body) ++ r2)
    by (rewrite Hr, <- Henc, <- app_assoc; f_equal; unfold body, r2; by rewrite take_drop).
  assert (Hrok : rec_ok (h2, body)).
  { repeat split; cbn [fst snd]; try lia. rewrite Hr2 in Hrb. apply Forall_app in Hrb as [Hrb _].
    unfold enc in Hrb. by apply Forall_app in Hrb as [_ ?]. }
  rewrite <- app_assoc, Henc. rewrite (co_spans _ _ _ _ Hc), length_spans_of in *.
  assert (Hnext : ∀ need, need_ok (c_hello c ++ body) need →
    ∃ res, read_loop fuel r2 (MkCollected (c_wire c ++ enc (h2, body)) (c_hello c ++ body)
      (spans_of 0 0 rs ++ [MkSpan (length (c_wire c)) (length (c_hello c)) (Z.to_nat n16)]) need) = Some res
      ∧ collected_ok r0 res).
  { intros need Hneed. rewrite <- Hbl, <- (co_spans _ _ _ _ Hc).
    apply (IH _ _ (rs ++ [(h2, body)])); [|rewrite length_app; simpl; lia..].
    apply collects_snoc; [by rewrite <- Hr2|done|lia|done]. }
  pose proof (co_need _ _ _ _ Hc) as Hneed. unfold need_ok in Hnext, Hneed. destruct (4 <=? length (c_hello c ++ body))%nat eqn:E4; breflect.
  2:{ apply Hnext. rewrite (proj2 (Nat.leb_gt _ _)) in Hneed by (rewrite length_app in E4; lia). done. }
  destruct (four_bytes (c_hello c ++ body)) as (t & l1 & l2 & l3 & Ht & -> & -> & -> & ->); [lia|]. cbn [mbind option_bind].
  destruct (_ || _) eqn:Ec2; [apply collected_err|]. breflect. subst t.
  rewrite !Z.shiftl_mul_pow2 in * by lia. apply Hnext. exists l1, l2, l3. split; [done|lia].
Qed.

(** ** The cut *)

(** The cut of the bytes is the position in the message: in the record that holds the
    position, behind its header; at the beginning of that record where records are
    split. *)
Definition cut_at (rs : list rec) (pos cut : nat) (records : bool) : Prop :=
  ∃ pre m b post part, rs = pre ++ (m, b) :: post ∧ (part < length b)%nat ∧
    pos = (length (bodies pre) + part)%nat ∧ cut = (length (flat pre) + 5 + part)%nat ∧ (records = true → part = 0%nat).

Record cut_ok (rs : list rec) (pos : nat) (records : bool) (out : list Z) (cut : nat) (rs' : list rec) : Prop := {
  cu_ok : Forall rec_ok rs';
  cu_out : out = flat rs';
  cu_bodies : bodies rs' = bodies rs;
  cu_plain : records = false → out = flat rs;
  cu_length : out = flat rs ∨ length out = (length (flat rs) + 5)%nat;
  cu_place : cut_at rs' pos cut records;
  cu_pos : (0 < cut < length out)%nat
}.

Lemma slice_app_mid (a b c : list Z) : slice (a ++ b ++ c) (length a) (length a + length b) = Some b.
Proof.
  apply slice_spec. rewrite !length_app. split; [lia|].
  rewrite drop_app_length. replace (length a + length b - length a)%nat with (length b) by lia.
  by rewrite take_app_length.
Qed.

(** Writing the shortened length into the header of the record being cut. *)
Lemma put_length pre m n part tl :
  Z.of_nat part < 65536 →
  PutUint16 (pre ++ AppendUint16 [22; 3; m] n ++ tl) (length pre + 3) (Z.of_nat part)
  = Some (pre ++ AppendUint16 [22; 3; m] (Z.of_nat part) ++ tl).
Proof.
  intros Hp. apply PutUint16_spec. split; [rewrite !length_app; simpl; lia|].
  replace (length pre + 3 + 1)%nat with (length pre + 4)%nat by lia. by rewrite !insert_app_r.
Qed.

Lemma rec_ok_parts m b part :
  rec_ok (m, b) → (0 < part < length b)%nat → rec_ok (m, take part b) ∧ rec_ok (m, drop part b).
Proof.
  intros (Hm & Hp & Hl & Hb) Hpart. cbn [fst snd] in *.
  split; (repeat split; cbn [fst snd]; rewrite ?length_take, ?length_drop; try lia);
    by (apply Forall_take || apply Forall_drop).
Qed.

Lemma cut_record pre m b post part :
  rec_ok (m, b) → (0 < part < length b)%nat →
  let wire := flat (pre ++ (m, b) :: post) in
  let W := length (flat pre) in
  (out ← slice wire 0 (W + 5 + part);
   out ← PutUint16 out (W + 3) (Z.of_nat part);
   h3 ← slice wire W (W + 3);
   tl ← slice wire (W + 5 + part) (length wire);
   Some (Ok (E := split_error) (AppendUint16 (out ++ h3) (Z.of_nat (length b - part)) ++ tl, (W + 5 + part + 5)%nat)))
  = Some (Ok (flat (pre ++ (m, take part b) :: (m, drop part b) :: post), (W + 5 + part + 5)%nat)).
Proof.
  intros (Hm & Hpos & Hle & Hb) Hpart wire W. cbn [fst snd] in *.
  assert (Hw : wire = (flat pre ++ AppendUint16 [22; 3; m] (Z.of_nat (length b)) ++ take part b)
                      ++ drop part b ++ flat post).
  { unfold wire. rewrite flat_app, flat_cons. unfold enc. cbn [fst snd].
    rewrite <- (take_drop part b) at 2. by rewrite <- !app_assoc. }
  set (hd := flat pre ++ _ ++ _) in Hw.
  assert (Hhd : length hd = (W + 5 + part)%nat)
    by (unfold hd; rewrite !length_app, length_take; simpl; fold W; lia).
  assert (E1 : slice wire 0 (W + 5 + part) = Some hd).
  { rewrite Hw, <- Hhd. apply (slice_app_mid [] hd). }
  assert (E3 : slice wire W (W + 3) = Some [22; 3; m]).
  { unfold wire. rewrite flat_app, flat_cons. unfold enc, AppendUint16. rewrite <- !app_assoc. apply slice_app_mid. }
  assert (E4 : slice wire (W + 5 + part) (length wire) = Some (drop part b ++ flat post)).
  { rewrite Hw, length_app, <- Hhd. rewrite <- (app_nil_r (drop part b ++ flat post)) at 1. apply slice_app_mid. }
  rewrite E1, E3, E4. cbn [mbind option_bind]. unfold hd, W. rewrite put_length by lia. cbn [mbind option_bind].
  do 3 f_equal. rewrite flat_app, !flat_cons. unfold enc, AppendUint16. cbn [fst snd].
  rewrite length_take, length_drop, Nat.min_l by lia. by rewrite <- !app_assoc.
Qed.

Lemma bodies_lookup pre m b post part :
  (part < length b)%nat → bodies (pre ++ (m, b) :: post) !! (length (bodies pre) + part)%nat = b !! part.
Proof.
  intros Hp. rewrite bodies_app, bodies_cons, lookup_app_r by lia.
  rewrite lookup_app_l by (simpl; lia). f_equal. lia.
Qed.

Lemma flat_lookup pre m b post part :
  (part < length b)%nat → flat (pre ++ (m, b) :: post) !! (length (flat pre) + 5 + part)%nat = b !! part.
Proof.
  intros Hp. rewrite flat_app, flat_cons, lookup_app_r by lia.
  rewrite lookup_app_l by (rewrite length_enc; simpl; lia). unfold enc.
  rewrite lookup_app_r by (simpl; lia). f_equal. simpl. lia.
Qed.

Lemma cut_hit pre m b post part records :
  Forall rec_ok (pre ++ (m, b) :: post) → (part < length b)%nat →
  let rs := pre ++ (m, b) :: post in
  ∃ out cut rs',
    cut_spans (flat rs) (length (bodies pre) + part) records
      (spans_of (length (flat pre)) (length (bodies pre)) ((m, b) :: post)) = Some (Ok (out, cut)) ∧
    cut_ok rs (length (bodies pre) + part) records out cut rs'.
Proof.
  intros Hok Hpart rs. pose proof Hok as Hok'. apply Forall_app in Hok' as [Hpre Hpost].
  apply Forall_cons in Hpost as [Hr Hpost]. pose proof (length_flat rs) as HL.
  assert (Hlen : (length (flat pre) + 5 + part < length (flat rs))%nat).
  { apply lookup_lt_is_Some_1. unfold rs. rewrite flat_lookup by done. by apply lookup_lt_is_Some_2. }
  cbn [spans_of cut_spans sp_payload sp_size sp_wire snd].
  rewrite (proj2 (Nat.ltb_ge _ _)), (proj2 (Nat.leb_gt _ _)) by lia. cbn [orb].
  replace (length (bodies pre) + part - length (bodies pre))%nat with part by lia.
  destruct (records && (0 <? part)%nat) eqn:E.
  - breflect. subst records. destruct (rec_ok_parts _ _ part Hr) as [Hr1 Hr2]; [lia|].
    assert (Hpl : length (take part b) = part) by (rewrite length_take; lia).
    eexists _, _, _. split; [exact (cut_record pre m b post part Hr ltac:(lia))|]. split; [|done|..].
    + apply Forall_app. split; [done|]. by repeat (apply Forall_cons; split).
    + unfold rs. rewrite !bodies_app, !bodies_cons. cbn [snd]. by rewrite (app_assoc (take part b)), take_drop.
    + done.
    + right. unfold rs. rewrite !flat_app, !flat_cons, !length_app, !length_enc. cbn [snd]. rewrite length_take, length_drop. lia.
    + exists (pre ++ [(m, take part b)]), m, (drop part b), post, 0%nat. rewrite <- app_assoc, length_drop.
      rewrite bodies_app, length_app, bodies_cons, length_app, flat_app, length_app, flat_cons, length_app, length_enc. cbn [snd].
      rewrite length_take. change (length (bodies [])) with 0%nat. change (length (flat [])) with 0%nat. split_and!; (done || lia).
    + split; [lia|]. rewrite flat_app, !flat_cons, !length_app, !length_enc. cbn [snd]. rewrite length_drop. lia.
  - eexists _, _, rs. split; [done|]. split; try done.
    + by left.
    + exists pre, m, b, post, part. split_and!; try done. intros ->. simpl in E. breflect. lia.
    + lia.
Qed.

(** Whatever record the position falls in, the search finds it. *)
Lemma cut_spans_ok pre rs pos records :
  Forall rec_ok (pre ++ rs) → (length (bodies pre) ≤ pos < length (bodies (pre ++ rs)))%nat →
  ∃ out cut rs',
    cut_spans (flat (pre ++ rs)) pos records (spans_of (length (flat pre)) (length (bodies pre)) rs)
      = Some (Ok (out, cut)) ∧ cut_ok (pre ++ rs) pos records out cut rs'.
Proof.
  revert pre. induction rs as [|[m b] rs IH]; intros pre Hok Hpos; [rewrite app_nil_r in Hpos; lia|].
  destruct (decide (pos < length (bodies pre) + length b)%nat) as [Hin|Hout].
  - destruct (cut_hit pre m b rs (pos - length (bodies pre)) records Hok) as (out & cut & rs' & H); [lia|].
    replace (length (bodies pre) + (pos - length (bodies pre)))%nat with pos in H by lia. by exists out, cut, rs'.
  - cbn [spans_of cut_spans sp_payload sp_size sp_wire snd].
    rewrite (proj2 (Nat.leb_le _ _)), orb_true_r by lia.
    rewrite (cons_middle (m, b) pre rs), app_assoc in *. specialize (IH (pre ++ [(m, b)]) Hok).
    assert (Hf : length (flat (pre ++ [(m, b)])) = (length (flat pre) + 5 + length b)%nat)
      by (rewrite flat_app, length_app, flat_cons, length_app, length_enc; simpl; lia).
    assert (Hd : length (bodies (pre ++ [(m, b)])) = (length (bodies pre) + length b)%nat)
      by (rewrite bodies_app, length_app, bodies_cons, length_app; simpl; lia).
    rewrite Hf, Hd in IH. apply IH. lia.
Qed.

(** ** splitHello *)

(** The place to cut at: inside the last host name, past its first byte when it has
    more than one, or after the first byte of the message when it names no host. *)
Definition place (ch : ClientHello) (pos : nat) : Prop :=
  match last (hosts ch) with
  | Some (o, nm) => slice (hello_bytes ch) o (o + length nm) = Some nm ∧ pos = (o + length nm / 2)%nat ∧
                    (o ≤ pos < o + length nm)%nat ∧ (1 < length nm → o < pos)%nat
  | None => pos = 1%nat
  end.

(** What a successful split hands to the writer. *)
Record split_ok (r : list Z) (records : bool) (out : list Z) (cut : nat) : Prop := {
  so_split : ∃ wire rest ch after pos rs,
    r = wire ++ rest ∧ hello_ok ch ∧ handshake_bytes wire = Some (hello_bytes ch ++ after) ∧
    Forall rec_ok rs ∧ out = flat rs ∧ bodies rs = hello_bytes ch ++ after ∧ handshake_bytes out = Some (hello_bytes ch ++ after) ∧
    (if records then out = wire ∨ length out = (length wire + 5)%nat else out = wire) ∧
    place ch pos ∧ cut_at rs pos cut records;
  so_cut : (0 < cut < length out)%nat
}.

Lemma middle_place ch : hello_ok ch → place ch (middle (hosts ch) 1).
Proof.
  intros Hok. unfold place, middle. destruct (last (hosts ch)) as [[o nm]|] eqn:E; [|done].
  apply last_Some_elem_of in E. destruct (hosts_there ch o nm Hok E) as [Hpos Hs].
  assert (length nm / 2 < length nm)%nat by (apply Nat.div_lt; lia). split_and!; [done..|lia|lia|]. intros H1.
  assert (0 < length nm / 2)%nat by (apply Nat.div_str_pos; lia). lia.
Qed.

Lemma place_inside ch pos : place ch pos → (pos < length (hello_bytes ch))%nat.
Proof.
  unfold place. destruct (last (hosts ch)) as [[o nm]|]; [|intros ->; cbn; lia]. intros (Hs & _ & Hp & _). apply slice_spec in Hs as [Hl _]. lia.
Qed.

(** A message that gives its own length is the type, the length and its body. *)
Lemma whole_message msg l1 l2 l3 ch : bytes_ok msg → take 4 msg = [1; l1; l2; l3] → drop 4 msg = hello_body ch →
  Z.of_nat (length msg) = 4 + (65536 * l1 + 256 * l2 + l3) → msg = hello_bytes ch.
Proof.
  intros Hb Ht Hd Hl. rewrite <- (take_drop 4 msg) at 1. rewrite Ht, Hd. unfold hello_bytes. cbn [app].
  assert (bytes_ok [1; l1; l2; l3]) as Hh by (rewrite <- Ht; by apply Forall_take).
  apply Forall_cons in Hh as [_ Hh]. apply Forall_cons in Hh as [H1 Hh]. apply Forall_cons in Hh as [H2 Hh]. apply Forall_cons in Hh as [H3 _].
  unfold byte_ok in *. assert (length msg = 4 + length (hello_body ch))%nat as Hlen.
  { rewrite <- (take_drop 4 msg), Ht, Hd. done. }
  replace (Z.of_nat (length (hello_body ch))) with (65536 * l1 + 256 * l2 + l3) by lia.
  assert ((65536 * l1 + 256 * l2 + l3) / 256 = 256 * l1 + l2) as E2 by (symmetry; apply (Z.div_unique _ _ _ l3); lia).
  rewrite E2. f_equal. f_equal; [|f_equal; [|f_equal]].
  - apply (Z.div_unique _ _ _ (256 * l2 + l3)); lia.
  - apply (Z.mod_unique _ _ l1); lia.
  - apply (Z.mod_unique _ _ (256 * l1 + l2)); lia.
Qed.

Lemma bodies_bytes rs : Forall rec_ok rs → bytes_ok (bodies rs).
Proof. induction 1 as [|x l (_ & _ & _ & ?) _ IH]; [constructor|]. rewrite bodies_cons. by apply Forall_app. Qed.

Lemma splitHello_spec r records :
  bytes_ok r → ∃ res, splitHello r records = Some res ∧
    ∀ out cut, res = Ok (out, cut) → split_ok r records out cut.
Proof.
  intros Hb. unfold splitHello.
  destruct (read_loop_ok 65 r r (MkCollected [] [] [] 4) []) as (c & -> & Hc); [done| |simpl; lia..|].
  { by split; try done; simpl; try lia. }
  cbn [mbind option_bind]. destruct c as [[c rest]|e]; [|eexists; split; [done|]; by intros ? ? ?].
  destruct (Hc c rest eq_refl) as (rs & [Hok Hw Hh Hs Hi Hsm Hn] & Hlen). unfold need_ok in Hn.
  destruct (4 <=? length (c_hello c))%nat eqn:E4; breflect; [|lia]. destruct Hn as (l1 & l2 & l3 & Ht & Hneed & Hrange).
  rewrite slice_is_Some, drop_0, Nat.sub_0_r by lia. cbn [mbind option_bind]. set (msg := take (c_need c) (c_hello c)).
  assert (length msg = c_need c) as Hml by (unfold msg; rewrite length_take; lia).
  assert (bytes_ok msg) as Hmb by (apply Forall_take; rewrite Hh; by apply bodies_bytes).
  destruct (helloSplitPosition_ok msg Hmb) as (p & Ep & Hp); [lia|]. rewrite Ep. cbn [mbind option_bind].
  destruct p as [pos|e]; [|eexists; split; [done|]; by intros ? ? ?].
  destruct (Hp pos eq_refl) as (ch & Hbody & Hch & ->).
  assert (msg = hello_bytes ch) as Hmsg.
  { apply (whole_message _ l1 l2 l3); [done| |done|lia]. unfold msg. rewrite take_take, Nat.min_l by lia. done. }
  pose proof (middle_place ch Hch) as Hplace. pose proof (place_inside _ _ Hplace) as Hin.
  assert (bodies rs = hello_bytes ch ++ drop (c_need c) (c_hello c)) as Hsplit by (rewrite <- Hmsg, <- Hh; unfold msg; by rewrite take_drop).
  destruct (cut_spans_ok [] rs (middle (hosts ch) 1) records Hok) as (out & cut & rs' & Ho & Hcut);
    [cbn [app]; rewrite Hsplit, length_app; change (length (bodies [])) with 0%nat; lia|].
  rewrite Hw, Hs. change (length (flat [])) with 0%nat in Ho. change (length (bodies [])) with 0%nat in Ho. cbn [app] in Ho. rewrite Ho. eexists. split; [done|]. intros ? ? [= <- <-].
  destruct Hcut as [Hok' -> Hbd Hpl Hlen' Hat Hcp]. split; [|done].
  exists (flat rs), rest, ch, (drop (c_need c) (c_hello c)), (middle (hosts ch) 1), rs'. rewrite <- Hw at 1.
  cbn [app] in *. rewrite <- Hsplit. split_and!; try done.
  - by apply handshake_bytes_flat.
  - by rewrite handshake_bytes_flat, Hbd.
  - destruct records; auto.
Qed.

(** *** Nothing that should be split is refused *)

(** The stream begins with a well-formed message in at most 64 records, the last of
    which is needed, and at most 65536 bytes. *)
Definition delivers (r : list Z) (ch : ClientHello) : Prop :=
  hello_ok ch ∧ ∃ rs x after rest, r = flat (rs ++ [x]) ++ rest ∧ Forall rec_ok (rs ++ [x]) ∧ bodies (rs ++ [x]) = hello_bytes ch ++ after ∧
    (length (bodies rs) < length (hello_bytes ch))%nat ∧ (length (rs ++ [x]) ≤ 64)%nat ∧ Z.of_nat (length (bodies (rs ++ [x]))) ≤ 65536.

Definition gathered (ch : ClientHello) (rs : list rec) : collected :=
  MkCollected (flat rs) (bodies rs) (spans_of 0 0 rs) (if (4 <=? length (bodies rs))%nat then length (hello_bytes ch) else 4).

Lemma hello_size ch : hello_ok ch → 42 ≤ Z.of_nat (length (hello_bytes ch)) ≤ 65536.
Proof.
  intros [_ Hs Hf _ [Hc _] Hm _]. unfold hello_bytes. cbn [length]. unfold hello_body in *. rewrite length_app in *.
  unfold lists_bytes in *. rewrite !length_app, !length_len8, length_len16 in *. lia.
Qed.

Lemma hello_length ch l1 l2 l3 : hello_ok ch → take 4 (hello_bytes ch) = [1; l1; l2; l3] →
  4 + Z.shiftl l1 16 + Z.shiftl l2 8 + l3 = Z.of_nat (length (hello_bytes ch)).
Proof.
  intros Hok. pose proof (hello_size ch Hok) as Hs. unfold hello_bytes in *. cbn [take length] in *. intros [= <- <- <-].
  rewrite !Z.shiftl_mul_pow2 by lia.
  set (n := Z.of_nat (length (hello_body ch))) in *. pose proof (Z.div_mod n 256). pose proof (Z.div_mod (n / 256) 256).
  rewrite (Z.div_div n 256 256) in * by lia. change (256 * 256) with 65536 in *. lia.
Qed.

Lemma read_step ch fuel pre m b r more after : hello_ok ch → rec_ok (m, b) →
  bodies (pre ++ [(m, b)]) ++ more = hello_bytes ch ++ after → (length (bodies pre) < length (hello_bytes ch))%nat →
  (length pre < 64)%nat → Z.of_nat (length (bodies pre) + length b) ≤ 65536 →
  read_loop (S fuel) (enc (m, b) ++ r) (gathered ch pre) = read_loop fuel r (gathered ch (pre ++ [(m, b)])).
Proof.
  intros Hch (Hm & Hb0 & Hb1 & Hbb) Hpre Hlt Hn Hsize. cbn [fst snd] in *. pose proof (hello_size ch Hch) as Hhs.
  unfold gathered at 1. cbn [read_loop c_hello c_need c_spans c_wire]. 
  rewrite (proj2 (Nat.ltb_lt _ _)) by (destruct (4 <=? _)%nat eqn:E; breflect; lia). cbn [negb].
  unfold ReadFull. rewrite (proj2 (Nat.leb_le _ _)) by (rewrite length_app, length_enc; cbn [snd]; lia).
  assert (take 5 (enc (m, b) ++ r) = AppendUint16 [22; 3; m] (Z.of_nat (length b)) ∧ drop 5 (enc (m, b) ++ r) = b ++ r) as [-> ->]
    by (unfold enc, AppendUint16; cbn [fst snd app take drop]; by rewrite ?take_0, ?drop_0).
  unfold AppendUint16. cbn [app Uint16 lookup list_lookup Nat.add mbind option_bind].
  rewrite u16_split, u16_small, Nat2Z.id by lia. rewrite length_spans_of. 
  rewrite !(proj2 (Z.ltb_ge _ _)), (proj2 (Nat.eqb_neq _ _)), (proj2 (Nat.leb_gt _ _)) by lia. cbn [Z.eqb Pos.eqb negb orb].
  rewrite (proj2 (Nat.leb_le _ _)) by (rewrite length_app; lia). rewrite take_app_length, drop_app_length.
  assert (bodies pre ++ b = bodies (pre ++ [(m, b)])) as Eb by (rewrite bodies_app, bodies_cons; change (bodies []) with (@nil Z); cbn [snd]; by rewrite app_nil_r).
  assert (gathered ch (pre ++ [(m, b)]) = MkCollected ((flat pre ++ [22; 3; m; Z.of_nat (length b) / 256; Z.of_nat (length b) mod 256]) ++ b)
    (bodies pre ++ b) (spans_of 0 0 pre ++ [MkSpan (length (flat pre)) (length (bodies pre)) (length b)])
    (if (4 <=? length (bodies pre ++ b))%nat then length (hello_bytes ch) else 4)) as Eg.
  { unfold gathered. rewrite <- Eb, spans_of_app, flat_app, flat_cons. change (flat []) with (@nil Z). rewrite app_nil_r.
    unfold enc, AppendUint16. cbn [fst snd spans_of app]. rewrite u16_small by lia. f_equal. by rewrite <- app_assoc. }
  rewrite Eg. destruct (4 <=? length (bodies pre ++ b))%nat eqn:E4; breflect.
  - destruct (four_bytes _ E4) as (t & l1 & l2 & l3 & Ht & -> & -> & -> & ->). cbn [mbind option_bind].
    assert (take 4 (hello_bytes ch) = [t; l1; l2; l3]) as Hh.
    { rewrite <- Ht, Eb. rewrite <- (take_app_le (hello_bytes ch) after) by lia. rewrite <- Hpre. rewrite Eb in E4. rewrite (take_app_le (bodies _)) by lia. done. }
    assert (t = 1) as -> by (unfold hello_bytes in Hh; cbn [take] in Hh; by injection Hh).
    rewrite (hello_length ch l1 l2 l3) by done. rewrite !(proj2 (Z.ltb_ge _ _)) by lia. cbn [Z.eqb Pos.eqb negb orb]. by rewrite Nat2Z.id.
  - rewrite (proj2 (Nat.leb_gt 4 (length (bodies pre)))) by (rewrite length_app in E4; lia). done.
Qed.

Lemma read_loop_takes ch after x : ∀ rs pre fuel rest, hello_ok ch → Forall rec_ok (pre ++ rs ++ [x]) →
  bodies (pre ++ rs ++ [x]) = hello_bytes ch ++ after → (length (bodies (pre ++ rs)) < length (hello_bytes ch))%nat →
  (length (pre ++ rs ++ [x]) ≤ 64)%nat → Z.of_nat (length (bodies (pre ++ rs ++ [x]))) ≤ 65536 → (length rs + 2 ≤ fuel)%nat →
  read_loop fuel (flat (rs ++ [x]) ++ rest) (gathered ch pre) = Some (Ok (gathered ch (pre ++ rs ++ [x]), rest)).
Proof.
  induction rs as [|[m b] rs IH]; intros pre fuel rest Hch Hok Hbod Hlt Hn Hsize Hf; (destruct fuel as [|fuel]; [simpl in Hf; lia|]).
  - cbn [app] in *. rewrite app_nil_r in Hlt. destruct x as [m b]. rewrite flat_cons, <- app_assoc. cbn [flat fmap list_fmap concat app].
    apply Forall_app in Hok as [_ [Hx _]%Forall_cons]. rewrite length_app in Hn. cbn [length] in Hn.
    rewrite bodies_app, bodies_cons, length_app, length_app in Hsize. cbn [snd] in Hsize.
    rewrite (read_step ch fuel pre m b rest [] after); [|done|done|by rewrite app_nil_r|done|lia|lia].
    pose proof (hello_size ch Hch). assert (length (hello_bytes ch) ≤ length (bodies (pre ++ [(m, b)])))%nat by (rewrite Hbod, length_app; lia).
    destruct fuel as [|fuel]; [simpl in Hf; lia|]. unfold gathered. cbn [read_loop c_hello c_need].
    rewrite (proj2 (Nat.leb_le 4 _)) by lia. rewrite (proj2 (Nat.ltb_ge _ _)) by lia. done.
  - cbn [app] in *. rewrite flat_cons, <- app_assoc. rewrite (cons_middle (m, b) pre), (app_assoc pre) in *.
    pose proof Hok as Hok'. apply Forall_app in Hok' as [[_ [Hx _]%Forall_cons]%Forall_app _].
    assert (length (bodies pre) + length b ≤ length (bodies ((pre ++ [(m, b)]) ++ rs)))%nat
      by (rewrite !bodies_app, !length_app, bodies_cons, length_app; cbn [snd]; lia).
    assert (length (bodies ((pre ++ [(m, b)]) ++ rs)) ≤ length (bodies ((pre ++ [(m, b)]) ++ rs ++ [x])))%nat
      by (rewrite (app_assoc _ rs), (bodies_app _ [x]), length_app; lia).
    destruct Hx as (Hx1 & Hx2 & Hx3 & Hx4). cbn [fst snd] in *.
    rewrite (read_step ch fuel pre m b _ (bodies (rs ++ [x])) after); [|done|done|by rewrite <- bodies_app|lia| |lia].
    + apply IH; try done. simpl in Hf. lia.
    + rewrite !length_app in Hn. cbn [length] in Hn. lia.
Qed.

Lemma splitHello_takes r records ch : delivers r ch → ∃ out cut, splitHello r records = Some (Ok (out, cut)).
Proof.
  intros (Hch & rs & x & after & rest & -> & Hok & Hbod & Hlt & Hn & Hsize). unfold splitHello.
  change (MkCollected [] [] [] 4) with (gathered ch []).
  rewrite (read_loop_takes ch after x rs []) by (done || (rewrite length_app in Hn; cbn [length app] in *; lia)).
  cbn [mbind option_bind gathered c_hello c_need c_wire c_spans app]. pose proof (hello_size ch Hch).
  rewrite Hbod, (proj2 (Nat.leb_le _ _)) by (rewrite length_app; lia).
  rewrite slice_is_Some, drop_0, Nat.sub_0_r, take_app_length by (rewrite length_app; lia). cbn [mbind option_bind].
  rewrite (helloSplitPosition_takes _ ch) by (done || lia). cbn [mbind option_bind].
  pose proof (place_inside _ _ (middle_place ch Hch)) as Hin.
  destruct (cut_spans_ok [] (rs ++ [x]) (middle (hosts ch) 1) records Hok) as (out & cut & rs' & Ho & _);
    [cbn [app]; rewrite Hbod, length_app; change (length (bodies [])) with 0%nat; lia|]. by exists out, cut.
Qed.

(** C37. splitHello always returns, without a panic and within its bounds, for every
    byte stream. It accepts every stream that begins with a well-formed ClientHello
    in at most 64 records and 65536 bytes. When it succeeds, the client's records
    held a whole ClientHello, and the records it forwards decode to exactly the
    handshake bytes the client sent; they are the client's records unchanged when
    record splitting is off. The cut lies inside the last host name of the message
    when it has one (in its middle; past its first byte unless the name is a single
    byte), and after the message's first byte when it has none. With record
    splitting a record begins exactly there, for at most one more header, and the
    cut of the bytes is behind that header. *)
Theorem splitHello_lossless r records : bytes_ok r →
  (∃ res, splitHello r records = Some res ∧ ∀ out cut, res = Ok (out, cut) → split_ok r records out cut) ∧
  (∀ ch, delivers r ch → ∃ out cut, splitHello r records = Some (Ok (out, cut))).
Proof. intros Hb. split; [by apply splitHello_spec|]. apply splitHello_takes. Qed.

(** ** Writing *)

Section Writing.
Context (answer : nat → list Z → Z * error).

Lemma write_loop_ok fuel w b :
  (length b ≤ fuel)%nat →
  ∃ e w' k, write_loop answer fuel w b = Some (e, w') ∧ peer w' = peer w ++ take k b ∧
    (e = None → peer w' = peer w ++ b).
Proof.
  revert w b. induction fuel as [|fuel IH]; intros w b Hf; cbn [write_loop].
  { destruct b; [|simpl in Hf; lia]. exists None, w, 0%nat. simpl. by rewrite app_nil_r. }
  destruct (0 <? length b)%nat eqn:E0; cbn [negb].
  2:{ breflect. destruct b; [|simpl in *; lia]. exists None, w, 0%nat. simpl. by rewrite app_nil_r. }
  unfold Write. destruct (answer (calls w) b) as [n err]. set (w1 := MkConn _ _).
  destruct (_ || _) eqn:E1; [by exists (Some ErrShortWrite), w1, (Z.to_nat n)|]. breflect.
  rewrite slice_is_Some by lia. cbn [mbind option_bind].
  destruct err as [e|]; [by exists (Some ErrWrite), w1, (Z.to_nat n)|].
  destruct (n =? 0) eqn:E2; [by exists (Some ErrShortWrite), w1, (Z.to_nat n)|]. breflect.
  rewrite take_ge by (rewrite length_drop; lia).
  destruct (IH w1 (drop (Z.to_nat n) b)) as (e & w' & k & He & Hk & Hall); [rewrite length_drop; lia|].
  exists e, w', (Z.to_nat n + k)%nat. split; [done|]. cbn [peer w1] in *. split.
  - rewrite Hk, <- app_assoc. f_equal. by rewrite take_take_drop.
  - intros Hn. rewrite (Hall Hn), <- app_assoc. f_equal. by rewrite take_drop.
Qed.

Lemma writeAll_ok w b :
  ∃ e w' k, writeAll answer w b = Some (e, w') ∧ peer w' = peer w ++ take k b ∧
    (e = None → peer w' = peer w ++ b).
Proof. by apply write_loop_ok. Qed.

Lemma forwardHello_spec w r o :
  bytes_ok r → ∃ e w', forwardHello answer w r o = Some (e, w') ∧
    ((peer w' = peer w ∧ e ≠ None) ∨
     ∃ out cut k, split_ok r (TLSRecordSplit o) out cut ∧ peer w' = peer w ++ take k out ∧
       (e = None → peer w' = peer w ++ out)).
Proof.
  intros Hb. unfold forwardHello.
  destruct (splitHello_spec r (TLSRecordSplit o) Hb) as (s & -> & Hs). cbn [mbind option_bind].
  destruct s as [[out cut]|e]; [|by exists (Some e), w; split; [|left]].
  specialize (Hs out cut eq_refl). pose proof (so_cut _ _ _ _ Hs) as Hcut.
  destruct (TCPSplit o); cbn [negb].
  2:{ destruct (writeAll_ok w out) as (e & w' & k & -> & Hk). exists e, w'. split; [done|]. right. by exists out, cut, k. }
  rewrite !slice_is_Some by lia. cbn [mbind option_bind]. rewrite drop_0, Nat.sub_0_r.
  destruct (writeAll_ok w (take cut out)) as (e & w1 & k & -> & Hk & Hall). cbn [mbind option_bind].
  destruct e as [e|].
  { exists (Some e), w1. split; [done|]. right. exists out, cut, (k `min` cut)%nat. by rewrite <- take_take. }
  rewrite take_ge by (rewrite length_drop; lia).
  destruct (writeAll_ok w1 (drop cut out)) as (e & w2 & k2 & -> & Hk2 & Hall2).
  exists e, w2. split; [done|]. right. exists out, cut, (cut + k2)%nat. split; [done|].
  split; [by rewrite Hk2, (Hall eq_refl), <- app_assoc, take_take_drop|].
  intros Hn. by rewrite (Hall2 Hn), (Hall eq_refl), <- app_assoc, take_drop.
Qed.

End Writing.

(** Whatever the connection answers, short and failing writes included,
    forwardHello returns; the peer has received a prefix of the forwarded bytes
    in order, nothing else and nothing twice, and all of them when it reports
    success. *)
Theorem forwardHello_in_order answer w r o :
  bytes_ok r → ∃ e w', forwardHello answer w r o = Some (e, w') ∧
    ((peer w' = peer w ∧ e ≠ None) ∨
     ∃ out cut k, split_ok r (TLSRecordSplit o) out cut ∧ peer w' = peer w ++ take k out ∧
       (e = None → peer w' = peer w ++ out)).
Proof. apply forwardHello_spec. Qed.
