(* ===== verification/Hello.v ===== *)
(** * The decoy ClientHello and its name (internal/snispoof/hello.go)

    [NormalizeName] and [clientHello]. The IDNA conversion
    (golang.org/x/net/idna, not part of the sources) is the parameter
    [toASCII]; nothing is assumed of it, every byte of its result is checked by
    the code. The random bytes are an argument. *)

From S2P Require Import Prelude GoStrings Bytes Sha256 Netip Split.

Local Open Scope Z_scope.

Inductive hello_error := ErrName | ErrRandom.

Definition label_char (c : ascii) : bool :=
  let n := nat_of_ascii c in
  ((97 <=? n)%nat && (n <=? 122)%nat) || ((48 <=? n)%nat && (n <=? 57)%nat) || Ascii.eqb c "-".

Definition label_ok (s : string) : bool :=
  let l := String.list_ascii_of_string s in
  (0 <? length l)%nat && (length l <=? 63)%nat &&
  negb (bool_decide (head l = Some "-"%char)) && negb (bool_decide (last l = Some "-"%char)) &&
  forallb label_char l.

Section Hello.
Context (toASCII : string → option string).

Definition NormalizeName (name : string) : res hello_error string :=
  let name := TrimSpace name in
  if (name =? "")%string then Ok ""%string
  else match toASCII name with
       | None => Err ErrName
       | Some name =>
           let name := ToLower (TrimSuffix name ".") in
           if (String.length name =? 0)%nat || (219 <? String.length name)%nat then Err ErrName
           else if bool_decide (is_Some (ParseAddr name)) then Err ErrName
           else if forallb label_ok (Split name ".") then Ok name
           else Err ErrName
       end.

Definition helloHex : string :=
  "1603010200010001fc030341d5b549d9cd1adfa7296c8418d157dc7b624c842824ff493b9375bb48d34f2b20bf018bcc90a7c89a230094815ad0c15b736e38c01209d72d282cb5e2105328150024130213031301c02cc030c02bc02fcca9cca8c024c028c023c027009f009e006b006700ff0100018f0000000b00090000066d63692e6972000b000403000102000a00160014001d0017001e0019001801000101010201030104002300000010000e000c02683208687474702f312e310016000000170000000d002a0028040305030603080708080809080a080b080408050806040105010601030303010302040205020602002b00050403040303002d00020101003300260024001d0020435bacc4d05f9d41fef44ab3ad55616c36e0613473e2338770efdaa98693d217001500d5000000000000000000000000000000000000000000000000000000000000000000000000000000000000000000000000000000000000000000000000000000000000000000000000000000000000000000000000000000000000000000000000000000000000000000000000000000000000000000000000000000000000000000000000000000000000000000000000000000000000000000000000000000000000000000000000000000000000000000000000000000000000000000000000000000000000000000000000000000000000000000".

Definition unhex (c : ascii) : Z :=
  let n := Z.of_nat (nat_of_ascii c) in if n <? 58 then n - 48 else n - 87.

Fixpoint DecodeString (l : list ascii) : list Z :=
  match l with
  | a :: b :: l => 16 * unhex a + unhex b :: DecodeString l
  | _ => []
  end.

Definition template : list Z :=
  Eval vm_compute in DecodeString (String.list_ascii_of_string helloHex).

(** [make([]byte, n)] panics on a negative length. *)
Definition make_bytes (n : Z) : option (list Z) :=
  if n <? 0 then None else Some (replicate (Z.to_nat n) 0).

(** [random]: what rand.Read delivers into the 96-byte buffer, or an error. *)
Definition clientHello (name : string) (random : option (list Z)) :
    option (res hello_error (list Z)) :=
  match NormalizeName name with
  | Err _ => Some (Err ErrName)
  | Ok name =>
      if (name =? "")%string then Some (Err ErrName)
      else match random with
           | None => Some (Err ErrRandom)
           | Some random =>
               let n := Z.of_nat (String.length name) in
               t1 ← slice template 0 11; r1 ← slice random 0 32; r2 ← slice random 32 64;
               t2 ← slice template 76 120;
               let out := t1 ++ r1 ++ [0x20] ++ r2 ++ t2 in
               let out := AppendUint16 out (n + 5) in
               let out := AppendUint16 out (n + 3) in
               let out := out ++ [0] in
               let out := AppendUint16 out n in
               let out := out ++ bytes_of_string name in
               t3 ← slice template 133 268; r3 ← slice random 64 (length random);
               let out := out ++ t3 ++ r3 ++ [0; 21] in
               let out := AppendUint16 out (219 - n) in
               pad ← make_bytes (219 - n);
               Some (Ok (out ++ pad))
           end
  end.

End Hello.

(** * The decoy ClientHello is well formed

    Whatever name [NormalizeName] accepts, the generated hello is one TLS record
    of 517 bytes carrying that name as its server name, which the splitter of
    the same package accepts and cuts in the middle of the name. *)

(** ** Names *)

(** What an accepted name looks like. *)
Record dns_name (s : string) : Prop := {
  dn_len : (1 ≤ String.length s ≤ 219)%nat;
  dn_labels : forallb label_ok (Split s ".") = true;
  dn_not_ip : ParseAddr s = None
}.

Lemma NormalizeName_spec toASCII name n :
  NormalizeName toASCII name = Ok n → n = ""%string ∨ dns_name n.
Proof.
  unfold NormalizeName. destruct (TrimSpace name =? "")%string; [intros [= <-]; by left|].
  destruct (toASCII _) as [a|]; [|done].
  destruct (_ || _) eqn:E1; [done|]. destruct (bool_decide (is_Some _)) eqn:E2; [done|].
  destruct (forallb label_ok _) eqn:E3; [|done]. intros [= <-]. right. breflect. split; try done; [lia|]. by apply eq_None_not_Some.
Qed.

Lemma bytes_of_string_ok s : bytes_ok (bytes_of_string s).
Proof.
  unfold bytes_of_string. apply Forall_fmap, Forall_forall. intros c _. unfold byte_ok. simpl.
  pose proof (N_ascii_bounded c). lia.
Qed.

Lemma length_bytes_of_string s : length (bytes_of_string s) = String.length s.
Proof.
  unfold bytes_of_string. rewrite length_fmap. induction s as [|c s IH]; [done|]. simpl. by rewrite IH.
Qed.

(** ** Extensions *)

(** A sequence of extensions, none of them server_name. *)
Inductive exts : list Z → Prop :=
| exts_nil : exts []
| exts_cons k1 k2 n1 n2 body rest :
    256 * k1 + k2 ≠ 0 → Z.of_nat (length body) = 256 * n1 + n2 → exts rest →
    exts (k1 :: k2 :: n1 :: n2 :: body ++ rest).

Lemma exts_app l1 l2 : exts l1 → exts l2 → exts (l1 ++ l2).
Proof.
  induction 1 as [|k1 k2 n1 n2 body rest Hk Hn _ IH]; intros H2; [done|].
  simpl. rewrite <- app_assoc. constructor; auto.
Qed.

Fixpoint walk (fuel : nat) (l : list Z) : bool :=
  match fuel, l with
  | _, [] => true
  | S f, k1 :: k2 :: n1 :: n2 :: r =>
      let n := 256 * n1 + n2 in
      negb (256 * k1 + k2 =? 0) && (0 <=? n) && (n <=? Z.of_nat (length r)) && walk f (drop (Z.to_nat n) r)
  | _, _ => false
  end.

Lemma walk_exts fuel l : walk fuel l = true → exts l.
Proof.
  revert l. induction fuel as [|f IH]; intros l; [destruct l; [constructor|done]|].
  destruct l as [|k1 [|k2 [|n1 [|n2 r]]]]; try done; [constructor|]. cbn [walk]. intros H. breflect.
  rewrite <- (take_drop (Z.to_nat (256 * n1 + n2)) r). constructor; [done| |by apply IH].
  rewrite length_take. lia.
Qed.

Lemma ext_loop_exts fuel b p cut seen l :
  (length l ≤ fuel)%nat → drop p b = l → (p ≤ length b)%nat → exts l → ext_loop fuel b p cut seen = Some (Ok cut).
Proof.
  intros Hf Hd Hp He. revert fuel p Hf Hd Hp.
  induction He as [|k1 k2 n1 n2 body rest Hk Hn _ IH]; intros fuel p Hf Hd Hp;
    (assert (Hlen : length b = (p + length (drop p b))%nat) by (rewrite length_drop; lia); rewrite Hd in Hlen).
  - simpl in Hlen. destruct fuel; cbn [ext_loop]; by rewrite (proj2 (Nat.ltb_ge _ _)) by lia.
  - cbn [length] in *. rewrite length_app in *.
    destruct fuel as [|fuel]; [lia|]. cbn [ext_loop].
    rewrite (proj2 (Nat.ltb_lt _ _)), (proj2 (Nat.ltb_ge _ _)) by lia. cbn [negb].
    rewrite <- (Nat.add_0_r p) at 1. rewrite !(Uint16_from _ _ _ _ Hd). cbn [Uint16 lookup list_lookup Nat.add mbind option_bind].
    rewrite <- Hn, Nat2Z.id, (proj2 (Nat.ltb_ge _ _)), (proj2 (Z.eqb_neq _ _)) by (done || lia).
    apply IH; [lia| |lia].
    replace (p + 4 + length body)%nat with (p + (4 + length body))%nat by lia.
    rewrite <- drop_drop, Hd. simpl. by rewrite drop_app_length.
Qed.

(** ** The hello, in parts *)

Section Built.
Context (nm r1 r2 r3 : list Z).
Context (Hn : (1 ≤ length nm ≤ 219)%nat).
Context (H1 : length r1 = 32%nat) (H2 : length r2 = 32%nat) (H3 : length r3 = 32%nat).

Definition be16 (v : Z) : list Z := [u16 v / 256; v mod 256].

Definition fixed1 : list Z := Eval vm_compute in take 6 (drop 5 template).
Definition fixed2 : list Z := Eval vm_compute in take 44 (drop 76 template).
Definition fixed3 : list Z := Eval vm_compute in take 135 (drop 133 template).

Let n := Z.of_nat (length nm).

(** The handshake message behind the record header. *)
Definition hello_tail : list Z :=
  fixed3 ++ r3 ++ [0; 21] ++ be16 (219 - n) ++ replicate (Z.to_nat (219 - n)) 0.
Definition hello_msg : list Z :=
  fixed1 ++ r1 ++ [32] ++ r2 ++ fixed2 ++ be16 (n + 5) ++ be16 (n + 3) ++ [0] ++ be16 n ++ nm ++ hello_tail.

Lemma be16_value v : 0 ≤ v < 65536 → 256 * (u16 v / 256) + v mod 256 = v.
Proof. intros. by rewrite u16_split, u16_small. Qed.

Lemma hello_tail_exts : exts hello_tail.
Proof.
  unfold hello_tail.
  assert (E3 : fixed3 = take 125 fixed3 ++ [0; 51; 0; 38] ++ [0; 36; 0; 29; 0; 32]) by reflexivity.
  rewrite E3, <- !app_assoc. apply exts_app; [by apply (walk_exts 40)|].
  rewrite (app_assoc [0; 36; 0; 29; 0; 32]).
  apply (exts_cons 0 51 0 38 ([0; 36; 0; 29; 0; 32] ++ r3)); [done|rewrite length_app, H3; done|].
  rewrite <- (app_nil_r (replicate _ _)).
  apply (exts_cons 0 21 _ _ (replicate _ _)); [done| |constructor]. rewrite be16_value by lia. rewrite length_replicate. lia.
Qed.

Lemma length_hello_tail : (length hello_tail = 390 - length nm)%nat.
Proof. unfold hello_tail. rewrite !length_app, H3, length_replicate. change (length fixed3) with 135%nat. simpl. lia. Qed.

Lemma length_hello_msg : length hello_msg = 512%nat.
Proof.
  unfold hello_msg. rewrite !length_app, H1, H2, length_hello_tail.
  change (length fixed1) with 6%nat. change (length fixed2) with 44%nat. simpl. lia.
Qed.

(** The parts of the message at the offsets the splitter reads. *)
Lemma hello_msg_session : hello_msg !! 38%nat = Some 32.
Proof.
  unfold hello_msg. rewrite app_assoc, lookup_app_r by (rewrite length_app, H1; simpl; lia).
  rewrite length_app, H1. done.
Qed.

Lemma hello_msg_drop71 :
  drop 71 hello_msg = fixed2 ++ be16 (n + 5) ++ be16 (n + 3) ++ [0] ++ be16 n ++ nm ++ hello_tail.
Proof.
  unfold hello_msg. rewrite !app_assoc. rewrite <- !(app_assoc (((fixed1 ++ r1) ++ [32]) ++ r2)).
  rewrite drop_app_length'; [done|]. rewrite !length_app, H1, H2. done.
Qed.

Lemma hello_msg_drop113 :
  drop 113 hello_msg = 0 :: 0 :: be16 (n + 5) ++ be16 (n + 3) ++ [0] ++ be16 n ++ nm ++ hello_tail.
Proof. change 113%nat with (71 + 42)%nat. by rewrite <- drop_drop, hello_msg_drop71. Qed.

Lemma hello_msg_names fuel :
  (0 < fuel)%nat →
  name_loop (S fuel) hello_msg (122 + length nm) 119 1 = Some (Ok (122 + length nm / 2)%nat).
Proof.
  intros Hf. pose proof hello_msg_drop113 as Hd. cbn [name_loop].
  rewrite (proj2 (Nat.ltb_lt _ _)), (proj2 (Nat.ltb_ge _ _)) by lia. cbn [negb].
  rewrite (lookup_from hello_msg 113 6 _ Hd : hello_msg !! 119%nat = _).
  rewrite (Uint16_from hello_msg 113 7 _ Hd : Uint16 hello_msg (119 + 1) = _).
  cbn [be16 app Uint16 lookup list_lookup Nat.add mbind option_bind]. cbn [Z.eqb].
  rewrite be16_value by lia. unfold n. rewrite Nat2Z.id.
  rewrite (proj2 (Nat.eqb_neq _ _)), (proj2 (Nat.ltb_ge _ _)) by lia. cbn [orb].
  destruct fuel as [|fuel]; [lia|]. cbn [name_loop]. rewrite (proj2 (Nat.ltb_ge _ _)) by lia. done.
Qed.

Lemma hello_msg_exts fuel :
  (390 ≤ fuel)%nat → ext_loop (S fuel) hello_msg 113 1 false = Some (Ok (122 + length nm / 2)%nat).
Proof.
  intros Hf. pose proof hello_msg_drop113 as Hd. pose proof length_hello_msg as HL. cbn [ext_loop].
  rewrite HL. change (negb (113 <? 512)%nat) with false. change (512 <? 113 + 4)%nat with false. cbv beta iota.
  rewrite (Uint16_from hello_msg 113 0 _ Hd : Uint16 hello_msg 113 = Some 0).
  rewrite (Uint16_from hello_msg 113 2 _ Hd : Uint16 hello_msg (113 + 2) = Some (256 * (u16 (n + 5) / 256) + (n + 5) mod 256)).
  cbn [mbind option_bind]. rewrite be16_value by lia.
  rewrite (Uint16_from hello_msg 113 4 _ Hd : Uint16 hello_msg (113 + 4) = Some (256 * (u16 (n + 3) / 256) + (n + 3) mod 256)).
  cbn [mbind option_bind]. rewrite be16_value by lia.
  replace (Z.to_nat (n + 5)) with (length nm + 5)%nat by lia.
  replace (n + 3 =? Z.of_nat (length nm + 5) - 2) with true by (symmetry; apply Z.eqb_eq; lia).
  rewrite !(proj2 (Nat.ltb_ge _ _)) by lia. cbn [Z.eqb orb negb].
  replace (113 + 4 + (length nm + 5))%nat with (122 + length nm)%nat by lia.
  change (113 + 4 + 2)%nat with 119%nat. change 512%nat with (S 511).
  rewrite hello_msg_names by lia. cbn [mbind option_bind].
  apply (ext_loop_exts _ _ _ _ _ hello_tail); [rewrite length_hello_tail; lia| |lia|apply hello_tail_exts].
  replace (122 + length nm)%nat with (113 + (9 + length nm))%nat by lia.
  rewrite <- drop_drop, Hd. simpl. by rewrite drop_app_length.
Qed.

Lemma hello_msg_position : helloSplitPosition hello_msg = Some (Ok (122 + length nm / 2)%nat).
Proof.
  pose proof hello_msg_drop71 as Hd. pose proof length_hello_msg as HL.
  unfold helloSplitPosition. rewrite HL, hello_msg_session. cbn [mbind option_bind].
  change (Z.to_nat 32) with 32%nat. cbv beta iota zeta.
  rewrite (Uint16_from hello_msg 71 0 _ Hd : Uint16 hello_msg (39 + 32) = Some 36). cbn [mbind option_bind].
  change (Z.to_nat 36) with 36%nat. cbv beta iota zeta.
  rewrite (lookup_from hello_msg 71 38 _ Hd : hello_msg !! (39 + 32 + 2 + 36)%nat = Some 1). cbn [mbind option_bind].
  rewrite (Uint16_from hello_msg 71 40 _ Hd : Uint16 hello_msg (39 + 32 + 2 + 36 + 1 + Z.to_nat 1) = Some 399).
  cbn [mbind option_bind]. exact (hello_msg_exts 511 ltac:(lia)).
Qed.

End Built.

(** One record that holds exactly the message. *)
Lemma read_one_record fuel msg :
  length msg = 512%nat → take 4 msg = [1; 0; 1; 252] →
  read_loop (S (S fuel)) ([22; 3; 1; 2; 0] ++ msg) (MkCollected [] [] [] 4) =
  Some (Ok (MkCollected ([22; 3; 1; 2; 0] ++ msg) msg [MkSpan 0 0 512] 512, [])).
Proof.
  intros Hl Ht. destruct msg as [|a [|b [|c [|d msg]]]]; try done. cbn [take] in Ht. injection Ht as -> -> -> ->.
  set (m := 1 :: 0 :: 1 :: 252 :: msg) in *.
  cbn [read_loop c_hello c_need c_spans c_wire length Nat.ltb Nat.leb negb]. unfold ReadFull.
  rewrite (proj2 (Nat.leb_le 5 _)) by (rewrite length_app; simpl; lia).
  cbn [app take drop Uint16 lookup list_lookup Nat.add mbind option_bind].
  change (Z.to_nat (256 * 2 + 0)) with 512%nat. rewrite drop_0, Hl. change (take 0 m) with (@nil Z).
  change (512 <=? 512)%nat with true. rewrite take_ge, drop_ge by lia.
  change (m !! 0%nat) with (Some 1). change (m !! 1%nat) with (Some 0).
  change (m !! 2%nat) with (Some 1). change (m !! 3%nat) with (Some 252). cbn [mbind option_bind app].
  rewrite Hl. reflexivity.
Qed.

Lemma hello_msg_split nm r1 r2 r3 :
  (1 ≤ length nm ≤ 219)%nat → length r1 = 32%nat → length r2 = 32%nat → length r3 = 32%nat →
  let out := [22; 3; 1; 2; 0] ++ hello_msg nm r1 r2 r3 in
  splitHello out false = Some (Ok (out, (127 + length nm / 2)%nat)).
Proof.
  intros Hn H1 H2 H3 out. unfold splitHello, out. pose proof (length_hello_msg nm r1 r2 r3 Hn H1 H2 H3) as HL.
  assert (length nm / 2 ≤ length nm)%nat by (apply Nat.Div0.div_le_upper_bound; lia).
  rewrite read_one_record by done. cbn [mbind option_bind c_hello c_need c_wire c_spans].
  rewrite slice_is_Some, drop_0, Nat.sub_0_r, take_ge by lia. cbn [mbind option_bind].
  rewrite hello_msg_position by done. cbn [mbind option_bind cut_spans sp_payload sp_size sp_wire].
  rewrite (proj2 (Nat.ltb_ge _ _)), (proj2 (Nat.leb_gt _ _)) by lia. cbn [orb andb].
  done.
Qed.

Lemma bytes_of_hello nm r1 r2 r3 :
  bytes_ok nm → bytes_ok r1 → bytes_ok r2 → bytes_ok r3 → bytes_ok ([22; 3; 1; 2; 0] ++ hello_msg nm r1 r2 r3).
Proof.
  intros. unfold hello_msg, hello_tail, be16, bytes_ok.
  repeat (apply Forall_app; split); try done;
    try (repeat (constructor; [first [apply u16_hi_bounds|apply u8_bounds|done]|]); constructor).
  all: try (apply Forall_replicate; done).
  all: repeat (constructor; [done|]); constructor.
Qed.

Lemma slice_parts (l : list Z) a b : (a ≤ b ≤ length l)%nat → ∃ s, slice l a b = Some s ∧ length s = (b - a)%nat.
Proof. intros H. rewrite slice_is_Some by done. eexists. split; [done|]. rewrite length_take, length_drop. lia. Qed.

(** For every name NormalizeName accepts (whatever the IDNA conversion
    does) and any 96 random bytes, clientHello succeeds without a panic; the
    hello is always 517 bytes, a single TLS record that the package's own
    splitter accepts unchanged and cuts in the middle of the name, and the name
    is at its place, byte for byte. *)
Theorem clientHello_well_formed toASCII name n random :
  NormalizeName toASCII name = Ok n → n ≠ ""%string →
  length random = 96%nat → bytes_ok random →
  ∃ out, clientHello toASCII name (Some random) = Some (Ok out) ∧
    length out = 517%nat ∧ bytes_ok out ∧
    slice out 127 (127 + String.length n) = Some (bytes_of_string n) ∧
    splitHello out false = Some (Ok (out, (127 + String.length n / 2)%nat)).
Proof.
  intros Hn Hne Hr Hb. pose proof (NormalizeName_spec _ _ _ Hn) as [->|Hd]; [done|].
  destruct (dn_len _ Hd) as [Hl1 Hl2]. unfold clientHello. rewrite Hn, (proj2 (String.eqb_neq _ _)) by done.
  destruct (slice_parts random 0 32) as (r1 & E1 & L1); [lia|].
  destruct (slice_parts random 32 64) as (r2 & E2 & L2); [lia|].
  destruct (slice_parts random 64 (length random)) as (r3 & E3 & L3); [lia|].
  rewrite E1, E2, E3. rewrite Hr in L3. simpl in L1, L2, L3. change (slice template 0 11) with (Some ([22; 3; 1; 2; 0] ++ fixed1)).
  change (slice template 76 120) with (Some fixed2). change (slice template 133 268) with (Some fixed3).
  cbn [mbind option_bind]. unfold make_bytes. rewrite (proj2 (Z.ltb_ge _ _)) by lia. cbn [mbind option_bind].
  set (nm := bytes_of_string n). assert (Hnm : length nm = String.length n) by apply length_bytes_of_string.
  exists ([22; 3; 1; 2; 0] ++ hello_msg nm r1 r2 r3). split.
  { do 2 f_equal. unfold AppendUint16, hello_msg, hello_tail. by rewrite <- !app_assoc, <- Hnm. }
  rewrite <- Hnm. pose proof (length_hello_msg nm r1 r2 r3 ltac:(lia) L1 L2 L3) as HL.
  split; [rewrite length_app, HL; done|]. split.
  { apply bytes_of_hello; [apply bytes_of_string_ok|by eapply slice_ok..]. }
  split; [|by apply hello_msg_split; [lia|..]].
  assert (E : [22; 3; 1; 2; 0] ++ hello_msg nm r1 r2 r3 =
    ([22; 3; 1; 2; 0] ++ fixed1 ++ r1 ++ [32] ++ r2 ++ fixed2 ++ be16 (Z.of_nat (length nm) + 5) ++
     be16 (Z.of_nat (length nm) + 3) ++ [0] ++ be16 (Z.of_nat (length nm))) ++ nm ++ hello_tail nm r3)
    by (unfold hello_msg; by rewrite <- !app_assoc).
  rewrite E. set (hd := _ ++ fixed1 ++ _).
  assert (Hhd : length hd = 127%nat) by (unfold hd; rewrite !length_app, L1, L2; done).
  rewrite <- Hhd. apply slice_app_mid.
Qed.

Definition demo_random : list Z := replicate 96 7.

Lemma clientHello_well_formed_witness :
  ∃ out, clientHello Some "www.Example.org." (Some demo_random) = Some (Ok out) ∧
    length out = 517%nat ∧ bytes_ok out ∧
    slice out 127 (127 + 15) = Some (bytes_of_string "www.example.org") ∧
    splitHello out false = Some (Ok (out, (127 + 7)%nat)).
Proof.
  apply (clientHello_well_formed Some "www.Example.org." "www.example.org" demo_random);
    [vm_compute; reflexivity|done|reflexivity|]. apply Forall_replicate. done.
Defined.

(** A hello that names one host, in two records. *)
Definition small_hello : ClientHello :=
  MkClientHello (3 :: 3 :: replicate 32 7) [] [19; 1] [0] (Some [OtherExtension 23 []; ServerNames [(0, bytes_of_string "example.org")]]).
Definition small_records : list rec := [(1, take 50 (hello_bytes small_hello)); (3, drop 50 (hello_bytes small_hello))].

Lemma small_delivered : delivers (flat small_records) small_hello.
Proof.
  split.
  - split; try (vm_compute; repeat constructor; done || lia). 
  - exists [(1, take 50 (hello_bytes small_hello))], (3, drop 50 (hello_bytes small_hello)), [], []. split_and!; try reflexivity;
      try (vm_compute; repeat constructor; done || lia).
Qed.

Lemma splitHello_lossless_witness :
  ∃ out, splitHello (flat small_records) true = Some (Ok (out, 80%nat)) ∧ split_ok (flat small_records) true out 80.
Proof.
  destruct (splitHello_lossless (flat small_records) true) as [(res & E & Hres) Hsome]; [vm_compute; repeat constructor; done|].
  destruct (Hsome small_hello small_delivered) as (out & cut & E2). exists out.
  assert (cut = 80%nat) as -> by (vm_compute in E2; congruence). split; [exact E2|]. apply Hres. congruence.
Defined.

(** A name of a single byte is not cut: the cut is in front of it, and the whole name
    goes out with what follows. *)
Example one_byte_name_not_cut :
  let ch := MkClientHello (3 :: 3 :: replicate 32 7) [] [19; 1] [0] (Some [ServerNames [(0, [97])]]) in
  hosts ch = [(56%nat, [97])] ∧ helloSplitPosition (hello_bytes ch) = Some (Ok 56%nat).
Proof. by split. Qed.

(** A connection that takes one byte per write. *)
Definition one_byte (_ : nat) (_ : list Z) : Z * error := (1, None).

Lemma forwardHello_in_order_witness :
  ∃ e w', forwardHello one_byte (MkConn [] 0) template (MkOptions "" true true) = Some (e, w') ∧
    ((peer w' = [] ∧ e ≠ None) ∨
     ∃ out cut k, split_ok template true out cut ∧ peer w' = [] ++ take k out ∧
       (e = None → peer w' = [] ++ out)).
Proof.
  apply (forwardHello_in_order one_byte (MkConn [] 0) template (MkOptions "" true true)).
  repeat (constructor; [done|]). constructor.
Defined.
