(* ===== verification/RateLimit.v ===== *)
(** * Limiting password attempts (internal/panel/ratelimit.go)

    Instants and durations are nanoseconds in [Z]; [now] is an argument of each
    operation, since the code reads the clock once per call, before taking the
    lock, so the instants of successive calls need not be ordered. Go iterates
    over a map in an arbitrary order: [iter] is that order, a parameter. *)

From S2P Require Import Prelude GoStrings.

Local Open Scope Z_scope.

Definition second : Z := 1000000000.
Definition attemptBurst : Z := 5.
Definition attemptRefill : Z := 60 * second.
Definition globalBurst : Z := 20.
Definition globalRefill : Z := 15 * second.
Definition maxLimiterKeys : nat := 4096.

Record bucket := MkBucket { fullAt : Z }.

(** [now.Before(t)] is [now <? t]; Go's division truncates. *)
Definition tokens (b : bucket) (now burst refill : Z) : Z :=
  if negb (now <? fullAt b) then burst
  else
    let missing := Z.quot (fullAt b - now + refill - 1) refill in
    let missing := if burst <? missing then burst else missing in
    burst - missing.

(** bucket.take: the bucket after it, whether an attempt was available, and how
    long until the next one. *)
Definition bucket_take (b : bucket) (now burst refill : Z) : bucket * (bool * Z) :=
  let b := if fullAt b <? now then MkBucket now else b in
  if tokens b now burst refill <=? 0 then (b, (false, fullAt b - now - (burst - 1) * refill))
  else (MkBucket (fullAt b + refill), (true, 0)).

Record attemptLimiter := MkLimiter {
  byAddr : gmap string bucket;
  global : bucket
}.

(** The zero time.Time, year 1; any instant the clock gives is later. *)
Definition newAttemptLimiter (zero : Z) : attemptLimiter := MkLimiter ∅ (MkBucket zero).

Section Limiter.
Context (iter : gmap string bucket → list (string * bucket)).

(** The search of pruneLocked: the key it ends with and its instant. *)
Definition fullest (l : list (string * bucket)) : string * Z :=
  foldl (λ '(fk, f) '(k, b), if (fk =? "")%string || (fullAt b <? f) then (k, fullAt b) else (fk, f))
    (""%string, 0) l.

(** Each round deletes one entry. *)
Fixpoint evict_loop (fuel : nat) (m : gmap string bucket) : gmap string bucket :=
  if negb (maxLimiterKeys <=? size m)%nat then m
  else match fuel with
       | O => m
       | S fl =>
           let k := (fullest (iter m)).1 in
           if (k =? "")%string then m else evict_loop fl (delete k m)
       end.

Definition pruneLocked (m : gmap string bucket) (now : Z) : gmap string bucket :=
  if (size m <? maxLimiterKeys)%nat then m
  else
    let m := filter (λ kb, now < fullAt kb.2) m in
    evict_loop (size m) m.

Definition allow (l : attemptLimiter) (key : string) (now : Z) : attemptLimiter * (bool * Z) :=
  let '(g, (ok, after)) := bucket_take (global l) now globalBurst globalRefill in
  if negb ok then (MkLimiter (byAddr l) g, (false, after))
  else
    let '(m, b) :=
      match byAddr l !! key with
      | Some b => (byAddr l, b)
      | None => (pruneLocked (byAddr l) now, MkBucket now)
      end in
    let '(b, (ok, after)) := bucket_take b now attemptBurst attemptRefill in
    let l := MkLimiter (<[key := b]> m) g in
    if negb ok then (l, (false, after)) else (l, (true, 0)).

Definition give_back (b : bucket) (now refill : Z) : bucket :=
  let f := fullAt b - refill in MkBucket (if f <? now then now else f).

Definition succeed (l : attemptLimiter) (key : string) (now : Z) : attemptLimiter :=
  MkLimiter
    (match byAddr l !! key with
     | Some b => <[key := give_back b now attemptRefill]> (byAddr l)
     | None => byAddr l
     end)
    (give_back (global l) now globalRefill).

End Limiter.

(** * What the attempt limiter guarantees

    The bound on attempts over any window of time, for the whole panel and for
    one address; the exactness of the waiting time it announces; and the bound
    on the map, with the choice of what is evicted. *)

(** ** One bucket *)

(** The instant a take starts from. *)
Definition base (b : bucket) (now : Z) : Z := Z.max (fullAt b) now.

Section Bucket.
Context (burst refill : Z) (Hb : 0 < burst) (Hr : 0 < refill).

Lemma tokens_positive b now :
  now ≤ fullAt b → (tokens b now burst refill <=? 0) = negb (fullAt b - now <=? (burst - 1) * refill).
Proof.
  intros Hn. unfold tokens. destruct (now <? fullAt b) eqn:E; cbn [negb]; breflect.
  - rewrite Z.quot_div_nonneg by lia. set (d := fullAt b - now). set (q := (d + refill - 1) / refill).
    assert (Hq : d ≤ (burst - 1) * refill ↔ q < burst).
    { unfold q. split; intros H.
      - apply Z.div_lt_upper_bound; lia.
      - destruct (Z_le_gt_dec d ((burst - 1) * refill)) as [|Hgt]; [done|].
        assert (burst ≤ (d + refill - 1) / refill) by (apply Z.div_le_lower_bound; lia). lia. }
    destruct (d <=? (burst - 1) * refill) eqn:Ed; breflect; cbn [negb].
    + apply Z.leb_gt. apply Hq in Ed. destruct (burst <? q) eqn:E2; breflect; lia.
    + apply Z.leb_le. assert (burst ≤ q) by (destruct (Z_lt_ge_dec q burst) as [H%Hq|]; lia).
      destruct (burst <? q) eqn:E2; breflect; lia.
  - replace (fullAt b - now) with 0 by lia.
    rewrite (proj2 (Z.leb_gt burst 0)), (proj2 (Z.leb_le 0 _)) by nia. done.
Qed.

(** bucket.take in closed form. *)
Lemma take_spec b now :
  bucket_take b now burst refill =
  if base b now - now <=? (burst - 1) * refill
  then (MkBucket (base b now + refill), (true, 0))
  else (MkBucket (base b now), (false, base b now - now - (burst - 1) * refill)).
Proof.
  unfold bucket_take, base. set (b' := if fullAt b <? now then MkBucket now else b).
  assert (Hf : fullAt b' = Z.max (fullAt b) now)
    by (unfold b'; destruct (fullAt b <? now) eqn:E; breflect; simpl; lia).
  rewrite tokens_positive by lia. rewrite Hf. destruct (_ <=? _); simpl; [done|].
  f_equal. destruct b' as [f]. simpl in Hf. by rewrite Hf.
Qed.

(** The waiting time is exact: refused until then, allowed at that instant. *)
Lemma take_retry b now after b' :
  bucket_take b now burst refill = (b', (false, after)) →
  0 < after ∧
  (∀ d, 0 ≤ d < after → (bucket_take b' (now + d) burst refill).2.1 = false) ∧
  (bucket_take b' (now + after) burst refill).2.1 = true.
Proof.
  rewrite take_spec. destruct (_ <=? _) eqn:E; [done|]. intros [= <- <-]. breflect.
  assert (0 ≤ (burst - 1) * refill) by nia. split; [lia|].
  assert (Hbase : ∀ d, 0 ≤ d ≤ base b now - now - (burst - 1) * refill →
    base (MkBucket (base b now)) (now + d) = base b now) by (intros d Hd; unfold base at 1; simpl; lia).
  split.
  - intros d Hd. rewrite take_spec, Hbase by lia. by rewrite (proj2 (Z.leb_gt _ _)) by lia.
  - rewrite take_spec, Hbase by lia. by rewrite (proj2 (Z.leb_le _ _)) by lia.
Qed.

(** What a take and a give-back do to the level of the bucket, measured from
    the start [a] of a window, and the ceiling given by its end [z]. *)
Definition level (a : Z) (b : bucket) : Z := Z.max (fullAt b) a.
Definition under (z : Z) (b : bucket) : Prop := fullAt b ≤ z + burst * refill.

Lemma take_level a z b now :
  a ≤ now ≤ z → under z b →
  let '(b', (ok, _)) := bucket_take b now burst refill in
  level a b + (if ok then refill else 0) ≤ level a b' ∧ under z b'.
Proof.
  intros Hn Hu. rewrite take_spec. unfold level, under, base in *.
  destruct (_ <=? _) eqn:E; breflect; simpl; nia.
Qed.

Lemma give_level a z b now :
  a ≤ now ≤ z → under z b →
  level a b - refill ≤ level a (give_back b now refill) ∧ under z (give_back b now refill).
Proof.
  intros Hn Hu. unfold level, under, give_back in *. simpl.
  destruct (_ <? now) eqn:E; breflect; nia.
Qed.

End Bucket.

(** ** Runs of the limiter *)

Inductive op :=
| OpAllow (key : string) (now : Z)
| OpSucceed (key : string) (now : Z).

Definition op_time (o : op) : Z := match o with OpAllow _ t | OpSucceed _ t => t end.

Section Runs.
Context (iter : gmap string bucket → list (string * bucket)).

(** One call: the limiter after it, and whether it allowed an attempt. *)
Definition step (l : attemptLimiter) (o : op) : attemptLimiter * bool :=
  match o with
  | OpAllow k t => let '(l, (ok, _)) := allow iter l k t in (l, ok)
  | OpSucceed k t => (succeed l k t, false)
  end.

Fixpoint run (l : attemptLimiter) (ops : list op) : attemptLimiter :=
  match ops with [] => l | o :: ops => run (step l o).1 ops end.

(** Attempts allowed less attempts given back, among the calls [p] selects. *)
Fixpoint spent (p : op → bool) (l : attemptLimiter) (ops : list op) : Z :=
  match ops with
  | [] => 0
  | o :: ops =>
      (if p o then
         match o with OpAllow _ _ => if (step l o).2 then 1 else 0 | OpSucceed _ _ => -1 end
       else 0) + spent p (step l o).1 ops
  end.

Definition in_window (a z : Z) (o : op) : Prop := a ≤ op_time o ≤ z.

Lemma run_app l ops1 ops2 : run l (ops1 ++ ops2) = run (run l ops1) ops2.
Proof. revert l. induction ops1; intros; simpl; auto. Qed.

Local Abbreviation gunder := (under globalBurst globalRefill).

Lemma step_global a z l o :
  in_window a z o → gunder z (global l) →
  level a (global l) + globalRefill *
    (match o with OpAllow _ _ => if (step l o).2 then 1 else 0 | OpSucceed _ _ => -1 end)
    ≤ level a (global (step l o).1) ∧ gunder z (global (step l o).1).
Proof.
  intros Hw Hu. assert (Hg : 0 < globalRefill) by done.
  destruct o as [k t|k t]; unfold in_window in Hw; cbn [op_time step] in *.
  - pose proof (take_level globalBurst globalRefill ltac:(done) ltac:(done) a z (global l) t Hw Hu) as H.
    unfold allow. destruct (bucket_take (global l) t _ _) as [g [ok after]]. cbv beta iota in H. destruct ok; cbn [negb].
    + destruct (match byAddr l !! k with Some b => _ | None => _ end) as [m b].
      destruct (bucket_take b t attemptBurst attemptRefill) as [b' [[] after']];
        cbn [fst snd negb global]; (split; [lia|apply H]).
    + cbn [fst snd global]. split; [lia|apply H].
  - pose proof (give_level globalBurst globalRefill ltac:(done) ltac:(done) a z (global l) t Hw Hu) as H. cbn [fst snd global succeed]. split; [lia|apply H].
Qed.

Lemma run_global a z l ops :
  Forall (in_window a z) ops → gunder z (global l) →
  level a (global l) + globalRefill * spent (λ _, true) l ops ≤ level a (global (run l ops)) ∧
  gunder z (global (run l ops)).
Proof.
  intros Hw. revert l. induction Hw as [|o ops Ho _ IH]; intros l Hu; cbn [run spent]; [split; [lia|done]|].
  destruct (step_global a z l o Ho Hu) as [H1 H2]. destruct (IH _ H2) as [H3 H4]. split; [|done].
  rewrite Z.mul_add_distr_l. lia.
Qed.

(** *** One address *)

(** No call of the run finds the map full, so nothing is evicted. *)
Fixpoint uncrowded (l : attemptLimiter) (ops : list op) : Prop :=
  match ops with
  | [] => True
  | o :: ops => (size (byAddr l) < maxLimiterKeys)%nat ∧ uncrowded (step l o).1 ops
  end.

Local Abbreviation aunder := (under attemptBurst attemptRefill).

Definition addr_level (a : Z) (k : string) (l : attemptLimiter) : Z :=
  match byAddr l !! k with Some b => level a b | None => a end.
Definition addr_under (z : Z) (k : string) (l : attemptLimiter) : Prop :=
  ∀ b, byAddr l !! k = Some b → aunder z b.

Definition about (k : string) (o : op) : bool :=
  match o with OpAllow k' _ | OpSucceed k' _ => (k' =? k)%string end.

Lemma step_addr a z k l o :
  in_window a z o → (size (byAddr l) < maxLimiterKeys)%nat → addr_under z k l →
  addr_level a k l + attemptRefill *
    (if about k o then
       match o with OpAllow _ _ => if (step l o).2 then 1 else 0 | OpSucceed _ _ => -1 end
     else 0)
    ≤ addr_level a k (step l o).1 ∧ addr_under z k (step l o).1.
Proof.
  intros Hw Hs Hu. unfold in_window in Hw. destruct o as [k' t|k' t]; cbn [op_time step about] in *.
  - unfold allow. destruct (bucket_take (global l) t _ _) as [g [[] after]]; cbn [negb];
      [|simpl; destruct (k' =? k)%string; unfold addr_level, addr_under in *; simpl; split; (done || lia)].
    assert (Hp : pruneLocked iter (byAddr l) t = byAddr l)
      by (unfold pruneLocked; by rewrite (proj2 (Nat.ltb_lt _ _))).
    set (b0 := default (MkBucket t) (byAddr l !! k')).
    replace (match byAddr l !! k' with Some b => (byAddr l, b) | None => (pruneLocked iter (byAddr l) t, MkBucket t) end)
      with (byAddr l, b0) by (unfold b0; destruct (byAddr l !! k'); by rewrite ?Hp).
    destruct (k' =? k)%string eqn:Ek; breflect.
    + subst k'.
      assert (Hu0 : aunder z b0).
      { unfold b0. destruct (byAddr l !! k) eqn:E; [by apply Hu|]. unfold under. simpl.
        unfold attemptBurst, attemptRefill, second. lia. }
      assert (Hl0 : addr_level a k l ≤ level a b0)
        by (unfold addr_level, b0; destruct (byAddr l !! k); simpl; [done|unfold level; simpl; lia]).
      pose proof (take_level attemptBurst attemptRefill ltac:(done) ltac:(done) a z b0 t Hw Hu0) as H.
      destruct (bucket_take b0 t _ _) as [b' [ok after']]. cbv beta iota in H. unfold addr_level at 2, addr_under.
      destruct ok; simpl; rewrite lookup_insert_eq; (split; [lia|]; intros ? [= <-]; by apply H).
    + destruct (bucket_take b0 t _ _) as [b' [ok after']]. unfold addr_level, addr_under in *.
      destruct ok; simpl; rewrite lookup_insert_ne by done; (split; [lia|done]).
  - unfold succeed, addr_level, addr_under in *. simpl. destruct (k' =? k)%string eqn:Ek; breflect.
    + subst k'. destruct (byAddr l !! k) as [b|] eqn:E.
      * pose proof (give_level attemptBurst attemptRefill ltac:(done) ltac:(done) a z b t Hw (Hu b eq_refl)).
        rewrite lookup_insert_eq. split; [lia|]. intros ? [= <-]. by apply H.
      * rewrite E. unfold attemptRefill, second. split; [lia|done].
    + destruct (byAddr l !! k') as [b'|]; simpl; rewrite ?lookup_insert_ne by done; (split; [lia|done]).
Qed.

Lemma run_addr a z k l ops :
  Forall (in_window a z) ops → uncrowded l ops → addr_under z k l →
  addr_level a k l + attemptRefill * spent (about k) l ops ≤ addr_level a k (run l ops) ∧
  addr_under z k (run l ops).
Proof.
  intros Hw. revert l. induction Hw as [|o ops Ho _ IH]; intros l Hun Hu; cbn [run spent]; [split; [lia|done]|].
  destruct Hun as [Hs Hun]. destruct (step_addr a z k l o Ho Hs Hu) as [H1 H2].
  destruct (IH _ Hun H2) as [H3 H4]. split; [|done]. rewrite Z.mul_add_distr_l. lia.
Qed.

End Runs.

(** ** Eviction *)

Section Evict.
Context (iter : gmap string bucket → list (string * bucket)).
Context (iter_ok : ∀ m, iter m ≡ₚ map_to_list m).

Lemma fullest_fold l k0 f0 :
  Forall (λ kb, kb.1 ≠ ""%string) l → k0 ≠ ""%string →
  let '(k, f) := foldl (λ '(fk, f) '(k, b),
    if (fk =? "")%string || (fullAt b <? f) then (k, fullAt b) else (fk, f)) (k0, f0) l in
  k ≠ ""%string ∧ f ≤ f0 ∧ ((k = k0 ∧ f = f0) ∨ ∃ b, (k, b) ∈ l ∧ f = fullAt b) ∧
  ∀ k' b', (k', b') ∈ l → f ≤ fullAt b'.
Proof.
  revert k0 f0. induction l as [|[k b] l IH]; intros k0 f0 Hl Hk0; simpl.
  { split; [done|]. split; [lia|]. split; [by left|]. intros ? ? H. by apply not_elem_of_nil in H. }
  apply Forall_cons in Hl as [Hk Hl]. simpl in Hk. rewrite (proj2 (String.eqb_neq k0 "")) by done. cbn [orb].
  destruct (fullAt b <? f0) eqn:E; breflect.
  - specialize (IH k (fullAt b) Hl Hk). destruct (foldl _ _ _) as [k1 f1]. destruct IH as (H1 & H2 & H3 & H4).
    split; [done|]. split; [lia|]. split.
    + right. destruct H3 as [[-> ->]|(b1 & Hin & ->)]; [exists b|exists b1]; by rewrite elem_of_cons; auto.
    + intros k' b' [[= -> ->]|Hin]%elem_of_cons; [done|by apply (H4 k')].
  - specialize (IH k0 f0 Hl Hk0). destruct (foldl _ _ _) as [k1 f1]. destruct IH as (H1 & H2 & H3 & H4).
    split; [done|]. split; [lia|]. split.
    + destruct H3 as [?|(b1 & Hin & ->)]; [by left|right]. exists b1. by rewrite elem_of_cons; auto.
    + intros k' b' [[= -> ->]|Hin]%elem_of_cons; [lia|by apply (H4 k')].
Qed.

(** The search ends on an entry with the earliest [fullAt]. *)
Lemma fullest_spec m :
  m ≠ ∅ → m !! ""%string = None →
  ∃ b, m !! (fullest (iter m)).1 = Some b ∧ (fullest (iter m)).1 ≠ ""%string ∧
       ∀ k' b', m !! k' = Some b' → fullAt b ≤ fullAt b'.
Proof.
  intros Hm He.
  assert (Hin : ∀ k b, (k, b) ∈ iter m ↔ m !! k = Some b)
    by (intros k b; rewrite iter_ok; apply elem_of_map_to_list).
  assert (Hne : Forall (λ kb, kb.1 ≠ ""%string) (iter m)).
  { apply Forall_forall. intros [k b] H. simpl. intros ->. apply Hin in H. congruence. }
  destruct (iter m) as [|[k b] l] eqn:El.
  { destruct Hm. apply map_empty. intros i. destruct (m !! i) as [x|] eqn:E; [|done].
    apply Hin in E. by apply not_elem_of_nil in E. }
  apply Forall_cons in Hne as [Hk Hl]. unfold fullest. simpl.
  pose proof (fullest_fold l k (fullAt b) Hl Hk) as H. destruct (foldl _ _ _) as [k1 f1].
  destruct H as (H1 & H2 & H3 & H4). simpl.
  assert (H5 : ∃ b1, m !! k1 = Some b1 ∧ f1 = fullAt b1).
  { destruct H3 as [[-> ->]|(b1 & Hi & ->)]; [exists b|exists b1]; split; try done; apply Hin, elem_of_cons; auto. }
  destruct H5 as (b1 & Hb1 & ->). exists b1. split; [done|]. split; [done|].
  intros k' b' H'. apply Hin, elem_of_cons in H' as [[= -> ->]|H']; [done|by apply (H4 k')].
Qed.

(** What stays, and that whatever goes had more attempts left than what stays. *)
Definition evicts (m m' : gmap string bucket) : Prop :=
  m' ⊆ m ∧ ∀ k b, m !! k = Some b → m' !! k = None → ∀ k' b', m' !! k' = Some b' → fullAt b ≤ fullAt b'.

Lemma evict_loop_spec fuel m :
  m !! ""%string = None → (size m ≤ fuel)%nat →
  (size (evict_loop iter fuel m) < maxLimiterKeys)%nat ∧ evicts m (evict_loop iter fuel m).
Proof.
  revert m. induction fuel as [|fuel IH]; intros m He Hf; unfold evicts; cbn [evict_loop].
  - destruct (maxLimiterKeys <=? size m)%nat eqn:E; cbn [negb]; breflect.
    + unfold maxLimiterKeys in E. lia.
    + split; [done|]. split; [done|]. intros; congruence.
  - destruct (maxLimiterKeys <=? size m)%nat eqn:E; cbn [negb]; breflect;
      [|split; [done|]; split; [done|]; intros; congruence].
    destruct (fullest_spec m) as (b & Hb & Hne & Hmin);
      [intros ->; rewrite map_size_empty in E; unfold maxLimiterKeys in E; lia|done|].
    set (k := (fullest (iter m)).1) in *. rewrite (proj2 (String.eqb_neq k "")) by done.
    destruct (IH (delete k m)) as [Hs [Hsub Hev]];
      [by rewrite lookup_delete_None; auto|rewrite map_size_delete_Some by eauto; lia|].
    split; [done|]. split; [etrans; [done|apply delete_subseteq]|].
    intros k0 b0 H0 Hgone k' b' Hk'.
    assert (Hk'm : delete k m !! k' = Some b') by (by apply (lookup_weaken _ _ _ _ Hk' Hsub)).
    destruct (decide (k0 = k)) as [->|Hne0].
    + rewrite Hb in H0. injection H0 as <-. apply lookup_delete_Some in Hk'm as [_ ?]. by apply (Hmin k').
    + apply (Hev k0 b0) with (k' := k'); [by rewrite lookup_delete_ne|done|done].
Qed.

Lemma pruneLocked_spec m now :
  m !! ""%string = None →
  (size (pruneLocked iter m now) < maxLimiterKeys)%nat ∧ pruneLocked iter m now ⊆ m ∧
  ∀ k b, m !! k = Some b → pruneLocked iter m now !! k = None →
    fullAt b ≤ now ∨ ∀ k' b', pruneLocked iter m now !! k' = Some b' → fullAt b ≤ fullAt b'.
Proof.
  intros He. unfold pruneLocked. destruct (size m <? maxLimiterKeys)%nat eqn:E; breflect.
  { split; [done|]. split; [done|]. intros; congruence. }
  set (m1 := filter _ m). destruct (evict_loop_spec (size m1) m1) as [Hs [Hsub Hev]].
  { by apply map_lookup_filter_None; left. }
  { done. }
  split; [done|]. split; [etrans; [done|apply map_filter_subseteq]|].
  intros k b Hk Hgone. destruct (decide (now < fullAt b)) as [Hlt|]; [|left; lia].
  right. intros k' b' Hk'. apply (Hev k b) with (k' := k'); [|done|done]. by apply map_lookup_filter_Some.
Qed.

End Evict.

(** ** The guarantees *)

Lemma window_below ops z : Forall (λ o, op_time o ≤ z) ops → ∃ a, Forall (in_window a z) ops.
Proof.
  induction 1 as [|o ops Ho _ (a & IH)]; [by exists 0|].
  exists (Z.min a (op_time o)). constructor; [unfold in_window; lia|].
  eapply Forall_impl; [done|]. unfold in_window. intros. lia.
Qed.

(** C38. Over any stretch of time from a to z, whatever addresses the attempts
    come from, whatever was tried before and however concurrent calls order
    their clock readings, the panel verifies at most globalBurst plus one
    password per globalRefill elapsed, not counting attempts given back by
    succeed: at most 20, and 4 more per minute. *)
Theorem attempts_bounded iter zero before ops a z :
  zero ≤ z → a ≤ z → Forall (λ o, op_time o ≤ z) before → Forall (in_window a z) ops →
  spent iter (λ _, true) (run iter (newAttemptLimiter zero) before) ops * globalRefill
    ≤ globalBurst * globalRefill + (z - a).
Proof.
  intros Hz Haz Hbefore Hops. apply window_below in Hbefore as [a0 Hbefore].
  assert (Hu0 : under globalBurst globalRefill z (global (newAttemptLimiter zero)))
    by (unfold under, globalBurst, globalRefill, second; simpl; lia).
  destruct (run_global iter a0 z _ before Hbefore Hu0) as [_ Hu].
  destruct (run_global iter a z _ ops Hops Hu) as [Hl Hu'].
  assert (0 < globalBurst * globalRefill) by done. unfold level, under in *. lia.
Qed.

(** For one address, while the map is not full, at most attemptBurst plus
    one attempt per attemptRefill elapsed: at most 5, and one more per minute. *)
Theorem address_attempts_bounded iter zero before ops key a z :
  zero ≤ z → a ≤ z → Forall (λ o, op_time o ≤ z) before → Forall (in_window a z) ops →
  uncrowded iter (newAttemptLimiter zero) before →
  uncrowded iter (run iter (newAttemptLimiter zero) before) ops →
  spent iter (about key) (run iter (newAttemptLimiter zero) before) ops * attemptRefill
    ≤ attemptBurst * attemptRefill + (z - a).
Proof.
  intros Hz Haz Hbefore Hops Hun1 Hun2. apply window_below in Hbefore as [a0 Hbefore].
  assert (Hu0 : addr_under z key (newAttemptLimiter zero)) by (by intros ? ?).
  destruct (run_addr iter a0 z key _ before Hbefore Hun1 Hu0) as [_ Hu].
  destruct (run_addr iter a z key _ ops Hops Hun2 Hu) as [Hl Hu'].
  set (l := run iter _ before) in *. unfold addr_under, addr_level in *.
  assert (0 < attemptBurst * attemptRefill) by done.
  assert (Hend : match byAddr (run iter l ops) !! key with Some b => level a b | None => a end
                 ≤ z + attemptBurst * attemptRefill).
  { destruct (byAddr (run iter l ops) !! key) as [b|]; [|lia].
    specialize (Hu' b eq_refl). unfold under, level in *. lia. }
  destruct (byAddr l !! key); unfold level in *; lia.
Qed.

(** The per-address map never outgrows maxLimiterKeys, and making room
    never clears the record of an address that has been penalised more: an
    entry allow drops had either refilled completely or had at least as many
    attempts left as every entry that stays. *)
Theorem limiter_bounded iter l key now :
  (∀ m, iter m ≡ₚ map_to_list m) → byAddr l !! ""%string = None → key ≠ ""%string →
  (size (byAddr l) ≤ maxLimiterKeys)%nat →
  let l' := (allow iter l key now).1 in
  (size (byAddr l') ≤ maxLimiterKeys)%nat ∧ byAddr l' !! ""%string = None ∧
  (∀ k b, k ≠ key → byAddr l !! k = Some b →
     byAddr l' !! k = Some b ∨
     (byAddr l' !! k = None ∧
      (fullAt b ≤ now ∨ ∀ k' b', k' ≠ key → byAddr l' !! k' = Some b' → fullAt b ≤ fullAt b'))).
Proof.
  intros Hi He Hk Hs. unfold allow. destruct (bucket_take (global l) now _ _) as [g [[] after]]; cbn [negb];
    [|simpl; by eauto].
  assert (Hput : ∀ m b, (size (<[key := b]> m) ≤ maxLimiterKeys)%nat → m !! ""%string = None →
    let l' := (let '(b, (ok, after)) := bucket_take b now attemptBurst attemptRefill in
               let l := MkLimiter (<[key := b]> m) g in
               if negb ok then (l, (false, after)) else (l, (true, 0))).1 in
    (size (byAddr l') ≤ maxLimiterKeys)%nat ∧ byAddr l' !! ""%string = None ∧
    ∀ k, k ≠ key → byAddr l' !! k = m !! k).
  { intros m b Hm Hm0. destruct (bucket_take b now _ _) as [b' [[] after']]; simpl;
      rewrite lookup_insert_ne by done; (split; [by rewrite map_size_insert in *; destruct (m !! key)|]);
      (split; [done|]); intros k Hne; by rewrite lookup_insert_ne. }
  destruct (byAddr l !! key) as [b|] eqn:Eb.
  - destruct (Hput (byAddr l) b) as (H1 & H2 & H3); [rewrite map_size_insert_Some by eauto; done|done|].
    split; [done|]. split; [done|]. intros k b0 Hne H0. left. by rewrite H3.
  - destruct (pruneLocked_spec iter Hi (byAddr l) now He) as (P1 & P2 & P3).
    set (m := pruneLocked iter (byAddr l) now) in *.
    destruct (Hput m (MkBucket now)) as (H1 & H2 & H3).
    { rewrite map_size_insert. destruct (m !! key); unfold id; lia. }
    { destruct (m !! ""%string) as [x|] eqn:Ex; [|done]. pose proof (lookup_weaken _ _ _ _ Ex P2). congruence. }
    split; [done|]. split; [done|]. intros k b0 Hne H0. rewrite H3 by done.
    destruct (m !! k) as [b1|] eqn:E1.
    + left. pose proof (lookup_weaken _ _ _ _ E1 P2). congruence.
    + right. split; [done|]. destruct (P3 k b0 H0 E1) as [|Hmin]; [by left|right].
      intros k' b' Hk' Hb'. apply (Hmin k'). by rewrite <- H3.
Qed.

(** The waiting time given with a refusal is exact: a take is refused at
    every instant before it has passed and succeeds when it has. *)
Theorem retry_after_exact b now burst refill b' after :
  0 < burst → 0 < refill → bucket_take b now burst refill = (b', (false, after)) →
  0 < after ∧
  (∀ d, 0 ≤ d < after → (bucket_take b' (now + d) burst refill).2.1 = false) ∧
  (bucket_take b' (now + after) burst refill).2.1 = true.
Proof. intros. by apply (take_retry burst refill) with (b := b). Qed.

(** ** A run used by the witnesses: six attempts at once, then one a minute later *)

Definition demo_ops : list op :=
  replicate 6 (OpAllow "10.0.0.7" (10 * second)) ++ [OpAllow "10.0.0.7" (70 * second)].

Lemma attempts_bounded_witness :
  spent map_to_list (λ _, true) (run map_to_list (newAttemptLimiter 0) []) demo_ops * globalRefill
    ≤ globalBurst * globalRefill + (70 * second - 10 * second).
Proof.
  apply attempts_bounded; [done|done|constructor|].
  repeat (constructor; [unfold in_window, second; simpl; lia|]). constructor.
Defined.

Lemma demo_uncrowded : uncrowded map_to_list (newAttemptLimiter 0) demo_ops.
Proof. repeat (split; [apply Nat.ltb_lt; vm_compute; reflexivity|]). exact I. Qed.

Lemma address_attempts_bounded_witness :
  spent map_to_list (about "10.0.0.7") (newAttemptLimiter 0) demo_ops = 6 ∧
  6 * attemptRefill ≤ attemptBurst * attemptRefill + (70 * second - 10 * second).
Proof.
  assert (E : spent map_to_list (about "10.0.0.7") (newAttemptLimiter 0) demo_ops = 6) by (vm_compute; reflexivity).
  split; [exact E|]. rewrite <- E at 1.
  apply (address_attempts_bounded map_to_list 0 [] demo_ops); [done|done|constructor| |exact I|exact demo_uncrowded].
  repeat (constructor; [unfold in_window, second; simpl; lia|]). constructor.
Defined.

Lemma limiter_bounded_witness :
  (size (byAddr (allow map_to_list (newAttemptLimiter 0) "10.0.0.7" 5).1) ≤ maxLimiterKeys)%nat.
Proof.
  apply (limiter_bounded map_to_list (newAttemptLimiter 0) "10.0.0.7" 5);
    [done|done|done|apply Nat.leb_le; vm_compute; reflexivity].
Defined.

Lemma retry_after_exact_witness :
  (bucket_take (MkBucket 300) (0 + 60) 5 60).2.1 = true.
Proof. apply (retry_after_exact (MkBucket 300) 0 5 60 (MkBucket 300) 60); [done|done|reflexivity]. Defined.
