(* ===== verification/Session.v ===== *)
(** * Panel sessions (internal/panel/session.go)

    A session is a heap object: the store's map and the handlers hold pointers
    to it, and a handler may go on using one the store has dropped. [heap] is
    that heap, [byID] the store's map from the digest of a token to a pointer.
    The code reads the clock afresh for each use, so an operation that reads it
    twice takes two instants. Go's map order is the parameter [siter]. *)

From S2P Require Import Prelude GoStrings Base64 Sha256 Bytes.
From S2P Require Messages.

Local Open Scope Z_scope.

Definition hour : Z := 3600 * 1000000000.
Definition sessionLifetime : Z := 12 * hour.
Definition sessionIdle : Z := 2 * hour.
Definition maxSessions : nat := 64.

(** words.go: what the panel tells the user, as message keys *)
Inductive ConfigStage := StageNone | StageParse | StageEngine | StageServer.

#[export] Instance ConfigStage_eq_dec : EqDecision ConfigStage.
Proof. solve_decision. Defined.

Record Problem := MkProblem {
  Stage : ConfigStage;
  Headline : string;
  Advice : string;
  AdviceArgs : list Messages.arg;
  Detail : string
}.
Definition no_problem : Problem := MkProblem StageNone "" "" [] "".

Record session := MkSession {
  csrf : string;
  created : Z;
  lastSeen : Z;
  flashProblem : Problem;
  flashNotice : string
}.

Definition touch (s : session) (now : Z) : session :=
  MkSession (csrf s) (created s) now (flashProblem s) (flashNotice s).
Definition setFlash (s : session) (p : Problem) (notice : string) : session :=
  MkSession (csrf s) (created s) (lastSeen s) p notice.
Definition flash (s : session) : Problem * string := (flashProblem s, flashNotice s).
Definition clearFlash (s : session) : session := setFlash s no_problem "".

(** checkCSRF: ConstantTimeCompare is 1 exactly for equal contents. A nil
    session is [None]. *)
Definition checkCSRF (s : option session) (got : string) : bool :=
  match s with
  | None => false
  | Some s => if (csrf s =? "")%string || (got =? "")%string then false else (csrf s =? got)%string
  end.

(** ** Tokens: 32 random bytes in unpadded base64url *)

(** newToken; [None] when the random source fails. *)
Definition newToken (random : option (list Z)) : option string :=
  match random with
  | None => None
  | Some b => Some (String.string_of_list_ascii (b64_encode url_alphabet b))
  end.

(** ** The store *)

Record sessionStore := MkStore {
  byID : gmap string nat;
  heap : gmap nat session;
  fresh : nat
}.

Definition newSessionStore : sessionStore := MkStore ∅ ∅ 0.

Definition sessionKey (token : string) : string := EncodeToString (Sum256 (bytes_of_string token)).

Definition expired (s : session) (now : Z) : bool :=
  (sessionLifetime <? now - created s) || (sessionIdle <? now - lastSeen s).

Section Store.
Context (siter : gmap string nat → list (string * nat)).

(** A pointer in the map is never nil; [None] cannot occur. *)
Definition live (st : sessionStore) (now : Z) (l : nat) : bool :=
  match heap st !! l with Some s => negb (expired s now) | None => true end.

Definition pruneSessions (st : sessionStore) (now : Z) : sessionStore :=
  MkStore (filter (λ kl, live st now kl.2 = true) (byID st)) (heap st) (fresh st).

(** The search of evictOldestLocked. *)
Definition older (h : gmap nat session) (acc : string * Z) (kl : string * nat) : string * Z :=
  let seen := match h !! kl.2 with Some s => lastSeen s | None => 0 end in
  if (acc.1 =? "")%string || (seen <? acc.2) then (kl.1, seen) else acc.

Definition oldest (st : sessionStore) : string :=
  (foldl (older (heap st)) (""%string, 0) (siter (byID st))).1.

Definition evictOldestLocked (st : sessionStore) : sessionStore :=
  let k := oldest st in
  if (k =? "")%string then st else MkStore (delete k (byID st)) (heap st) (fresh st).

(** Evict the least recently used rather than refuse to log in. *)
Definition make_room (st : sessionStore) (now : Z) : sessionStore :=
  let st := pruneSessions st now in
  if (maxSessions <=? size (byID st))%nat then evictOldestLocked st else st.

(** create: the store, and the token with the pointer, or [None] when the
    random source failed. *)
Definition create (st : sessionStore) (r1 r2 : option (list Z)) (now1 now2 : Z) :
    sessionStore * option (string * nat) :=
  match newToken r1 with
  | None => (st, None)
  | Some token =>
      match newToken r2 with
      | None => (st, None)
      | Some csrf =>
          let st := make_room st now1 in
          let l := fresh st in
          (MkStore (<[sessionKey token := l]> (byID st))
             (<[l := MkSession csrf now2 now2 no_problem ""]> (heap st)) (S l),
           Some (token, l))
      end
  end.

Definition lookup_session (st : sessionStore) (token : string) (now1 now2 : Z) :
    sessionStore * option nat :=
  if (token =? "")%string then (st, None)
  else
    let st := pruneSessions st now1 in
    match byID st !! sessionKey token with
    | None => (st, None)
    | Some l => (MkStore (byID st) (alter (λ s, touch s now2) l (heap st)) (fresh st), Some l)
    end.

Definition destroy (st : sessionStore) (token : string) : sessionStore :=
  if (token =? "")%string then st
  else MkStore (delete (sessionKey token) (byID st)) (heap st) (fresh st).

Definition destroyAll (st : sessionStore) : sessionStore := MkStore ∅ (heap st) (fresh st).

End Store.

(** * What the session store guarantees

    The store's invariant (pointers valid and unshared, at most [maxSessions]
    entries, no empty key) and the exact behaviour of [lookup]. *)

(** ** Keys are 64 characters, so never empty *)

Lemma length_sha_round s kw : length (sha_round s kw) = length s.
Proof. unfold sha_round. by destruct s as [|? [|? [|? [|? [|? [|? [|? [|? [|]]]]]]]]]. Qed.

Lemma length_sha_rounds s l : length (foldl sha_round s l) = length s.
Proof. revert s. induction l as [|kw l IH]; intros s; simpl; [done|]. by rewrite IH, length_sha_round. Qed.

Lemma length_sha_blocks fuel h m : length h = 8%nat → length (sha_blocks fuel h m) = 8%nat.
Proof.
  revert h m. induction fuel as [|f IH]; intros h m Hh; cbn [sha_blocks]; [done|].
  destruct m; [done|]. apply IH. unfold sha_block. rewrite length_zip_with, length_sha_rounds. lia.
Qed.

Lemma length_EncodeToString l : String.length (EncodeToString l) = (2 * length l)%nat.
Proof. induction l as [|b l IH]; [done|]. cbn [EncodeToString String.length length]. lia. Qed.

Lemma length_be_bytes_join n l : length (mjoin (be_bytes n <$> l)) = (n * length l)%nat.
Proof.
  induction l as [|z l IH]; [simpl; lia|]. 
  change (length (be_bytes n z ++ mjoin (be_bytes n <$> l)) = (n * S (length l))%nat). rewrite length_app, IH.
  unfold be_bytes at 1. rewrite length_fmap, length_seq. simpl. lia.
Qed.

Lemma sessionKey_length t : String.length (sessionKey t) = 64%nat.
Proof.
  unfold sessionKey, Sum256. rewrite length_EncodeToString, length_be_bytes_join, length_sha_blocks by done. done.
Qed.

Lemma sessionKey_nonempty t : sessionKey t ≠ ""%string.
Proof. intros H. pose proof (sessionKey_length t) as HL. by rewrite H in HL. Qed.

(** ** The invariant *)

Record store_ok (st : sessionStore) : Prop := {
  ok_ptr : ∀ k l, byID st !! k = Some l → is_Some (heap st !! l);
  ok_fresh : ∀ l s, heap st !! l = Some s → (l < fresh st)%nat;
  ok_unshared : ∀ k1 k2 l, byID st !! k1 = Some l → byID st !! k2 = Some l → k1 = k2;
  ok_key : byID st !! ""%string = None;
  ok_size : (size (byID st) ≤ maxSessions)%nat
}.

Lemma store_ok_new : store_ok newSessionStore.
Proof. split; try done. simpl. rewrite map_size_empty. unfold maxSessions. lia. Qed.

(** Dropping entries keeps it. *)
Lemma store_ok_drop st m :
  store_ok st → m ⊆ byID st → store_ok (MkStore m (heap st) (fresh st)).
Proof.
  intros [H1 H2 H3 H4 H5] Hsub. split; simpl.
  - intros k l Hk. apply (H1 k). by eapply lookup_weaken.
  - done.
  - intros k1 k2 l Hk1 Hk2. by apply (H3 k1 k2 l); eapply lookup_weaken.
  - destruct (m !! ""%string) eqn:E; [|done]. pose proof (lookup_weaken _ _ _ _ E Hsub). congruence.
  - etrans; [|done]. by apply map_subseteq_size.
Qed.

Lemma prune_sub st now : byID (pruneSessions st now) ⊆ byID st.
Proof. apply map_filter_subseteq. Qed.

Lemma store_ok_prune st now : store_ok st → store_ok (pruneSessions st now).
Proof. intros. by apply store_ok_drop, prune_sub. Qed.

(** A change to a session's contents keeps it. *)
Lemma store_ok_alter st f l : store_ok st → store_ok (MkStore (byID st) (alter f l (heap st)) (fresh st)).
Proof.
  intros [H1 H2 H3 H4 H5]. split; simpl; try done.
  - intros k l' Hk. destruct (H1 k l' Hk) as [s Hs]. destruct (decide (l' = l)) as [->|].
    + rewrite lookup_alter_eq, Hs. by eexists.
    + rewrite lookup_alter_ne by done. by eexists.
  - intros l' s. destruct (decide (l' = l)) as [->|].
    + rewrite lookup_alter_eq. destruct (heap st !! l) eqn:E; [|done]. intros _. by eapply H2.
    + rewrite lookup_alter_ne by done. apply H2.
Qed.

Section Facts.
Context (siter : gmap string nat → list (string * nat)).
Context (siter_ok : ∀ m, siter m ≡ₚ map_to_list m).

Lemma oldest_fold h l acc : (foldl (older h) acc l).1 = acc.1 ∨ ∃ p, ((foldl (older h) acc l).1, p) ∈ l.
Proof.
  revert acc. induction l as [|[k p] l IH]; intros acc; cbn [foldl]; [by left|].
  destruct (IH (older h acc (k, p))) as [->|[q Hq]]; [|right; exists q; rewrite elem_of_cons; auto].
  unfold older. destruct (_ || _); [right; exists p; rewrite elem_of_cons; auto|by left].
Qed.

Lemma oldest_in st : oldest siter st = ""%string ∨ is_Some (byID st !! oldest siter st).
Proof.
  unfold oldest. destruct (oldest_fold (heap st) (siter (byID st)) (""%string, 0)) as [->|[p Hp]]; [by left|right].
  revert Hp. generalize (foldl (older (heap st)) (""%string, 0) (siter (byID st))).1. intros k Hp.
  rewrite siter_ok, elem_of_map_to_list in Hp. by eexists.
Qed.

(** Making room only drops entries. *)
Lemma make_room_sub st now : byID (make_room siter st now) ⊆ byID st.
Proof.
  unfold make_room. pose proof (prune_sub st now) as Hsub. destruct (_ <=? _)%nat; [|done].
  unfold evictOldestLocked. destruct (_ =? _)%string; [done|]. simpl. etrans; [apply delete_subseteq|done].
Qed.

(** With no empty key the search picks one, so eviction always makes room. *)
Lemma oldest_nonempty st : store_ok st → byID st ≠ ∅ → oldest siter st ≠ ""%string.
Proof.
  intros Hok Hne. unfold oldest.
  assert (Hk : Forall (λ kl, kl.1 ≠ ""%string) (siter (byID st))).
  { apply Forall_forall. intros [k l] Hin. rewrite siter_ok, elem_of_map_to_list in Hin. simpl. intros ->.
    rewrite (ok_key _ Hok) in Hin. done. }
  assert (Hl : siter (byID st) ≠ []).
  { intros E. apply Hne, map_empty. intros i. destruct (byID st !! i) eqn:Ei; [|done].
    rewrite <- elem_of_map_to_list, <- siter_ok, E in Ei. by apply not_elem_of_nil in Ei. }
  assert (Hstep : ∀ h acc t, Forall (λ kl : string * nat, kl.1 ≠ ""%string) t → acc.1 ≠ ""%string →
    (foldl (older h) acc t).1 ≠ ""%string).
  { intros h acc t Ht. revert acc. induction Ht as [|kl t Hkl _ IH]; intros acc Hacc; cbn [foldl]; [done|].
    apply IH. unfold older. by destruct (_ || _). }
  destruct (siter (byID st)) as [|kl t]; [done|]. apply Forall_cons in Hk as [Hk Ht]. cbn [foldl].
  by apply Hstep.
Qed.

Lemma evict_ok st : store_ok st → byID st ≠ ∅ →
  store_ok (evictOldestLocked siter st) ∧ size (byID (evictOldestLocked siter st)) = Nat.pred (size (byID st)).
Proof.
  intros Hok Hne. pose proof (oldest_nonempty st Hok Hne) as Hk. unfold evictOldestLocked.
  rewrite (proj2 (String.eqb_neq _ _)) by done. destruct (oldest_in st) as [?|Hin]; [done|].
  split; [apply store_ok_drop; [done|apply delete_subseteq]|]. simpl. by rewrite map_size_delete_Some.
Qed.

Lemma create_room st now :
  store_ok st →
  let st2 := make_room siter st now in
  store_ok st2 ∧ (size (byID st2) < maxSessions)%nat ∧ byID st2 ⊆ byID st ∧ heap st2 = heap st ∧ fresh st2 = fresh st.
Proof.
  intros Hok st2. pose proof (store_ok_prune st now Hok) as Hok1. pose proof (prune_sub st now) as Hs1.
  unfold st2, make_room. set (st1 := pruneSessions st now) in *. destruct (_ <=? _)%nat eqn:E; breflect; [|by auto].
  assert (Hne : byID st1 ≠ ∅) by (intros E0; rewrite E0, map_size_empty in E; unfold maxSessions in E; lia).
  destruct (evict_ok st1 Hok1 Hne) as [H1 H2]. pose proof (ok_size _ Hok1).
  split; [done|]. split; [unfold maxSessions in *; lia|].
  unfold evictOldestLocked. destruct (_ =? _)%string; [done|]. simpl.
  split; [etrans; [apply delete_subseteq|done]|done].
Qed.

Lemma create_ok st r1 r2 now1 now2 : store_ok st → store_ok (create siter st r1 r2 now1 now2).1.
Proof.
  intros Hok. unfold create. destruct (newToken r1) as [token|]; [|done]. destruct (newToken r2) as [c|]; [|done].
  destruct (create_room st now1 Hok) as ([H1 H2 H3 H4 H5] & Hsz & _ & _ & _).
  set (st2 := make_room siter st now1) in *. cbn [fst].
  assert (Hnew : ∀ k, byID st2 !! k = Some (fresh st2) → False).
  { intros k Hk. destruct (H1 _ _ Hk) as [s Hs]. apply H2 in Hs. lia. }
  split; simpl.
  - intros k l [[<- <-]|[Hne Hk]]%lookup_insert_Some; [by rewrite lookup_insert_eq|].
    destruct (H1 _ _ Hk) as [s Hs]. destruct (decide (l = fresh st2)) as [->|]; [by rewrite lookup_insert_eq|].
    rewrite lookup_insert_ne by done. by eexists.
  - intros l s [[<- _]|[_ Hl%H2]]%lookup_insert_Some; lia.
  - intros k1 k2 l [[<- <-]|[Hne1 Hk1]]%lookup_insert_Some [[<- Hl]|[Hne2 Hk2]]%lookup_insert_Some; try done.
    + by destruct (Hnew _ Hk2).
    + subst l. by destruct (Hnew _ Hk1).
    + by eapply H3.
  - rewrite lookup_insert_ne by apply sessionKey_nonempty. done.
  - rewrite map_size_insert. case_match; [by apply Nat.lt_le_incl|exact Hsz].
Qed.

End Facts.

Lemma lookup_session_ok st token now1 now2 : store_ok st → store_ok (lookup_session st token now1 now2).1.
Proof.
  intros Hok. unfold lookup_session. destruct (token =? "")%string; [done|].
  pose proof (store_ok_prune st now1 Hok) as H. destruct (byID _ !! _); simpl; [|done].
  exact (store_ok_alter _ _ _ H).
Qed.

Lemma destroy_ok st token : store_ok st → store_ok (destroy st token).
Proof.
  intros Hok. unfold destroy. destruct (token =? "")%string; [done|]. apply store_ok_drop; [done|apply delete_subseteq].
Qed.

Lemma destroyAll_ok st : store_ok st → store_ok (destroyAll st).
Proof. intros Hok. apply store_ok_drop; [done|apply map_empty_subseteq]. Qed.

(** ** lookup *)

(** The pointer lookup returns, and what it changes. *)
Lemma lookup_session_spec st token now1 now2 st' r :
  lookup_session st token now1 now2 = (st', r) →
  fresh st' = fresh st ∧ byID st' ⊆ byID st ∧
  match r with
  | Some l =>
      token ≠ ""%string ∧ byID st !! sessionKey token = Some l ∧ live st now1 l = true ∧
      byID st' !! sessionKey token = Some l ∧ heap st' = alter (λ s, touch s now2) l (heap st)
  | None => heap st' = heap st ∧
      (token = ""%string ∨ byID st !! sessionKey token = None ∨
       ∃ l, byID st !! sessionKey token = Some l ∧ live st now1 l = false)
  end.
Proof.
  unfold lookup_session. destruct (token =? "")%string eqn:Et; breflect; [by intros [= <- <-]; auto|].
  pose proof (prune_sub st now1) as Hsub. destruct (byID (pruneSessions st now1) !! sessionKey token) as [l|] eqn:El.
  - intros [= <- <-]. simpl. split; [done|]. split; [done|]. split; [done|].
    pose proof El as El'. unfold pruneSessions in El'. simpl in El'.
    apply map_lookup_filter_Some in El' as [H1 H2]. simpl in H2. by repeat split.
  - intros [= <- <-]. split; [done|]. split; [done|]. split; [done|]. right.
    unfold pruneSessions in El. simpl in El. apply map_lookup_filter_None in El as [H|H]; [by left|].
    destruct (byID st !! sessionKey token) as [l|] eqn:E; [right|by left]. exists l. split; [done|].
    specialize (H l eq_refl). simpl in H. by destruct (live st now1 l).
Qed.
