(* ===== verification/Auth.v ===== *)
(** * Signing in (internal/panel/handlers.go and panel.go)

    The gate in front of every private route ([requireSession]) and the
    handlers that create and end sessions: setup, login, logout and password
    change. A request's outcome is a response; a handler also returns the panel
    it leaves. The instants and random bytes one request reads are the fields of
    [Env], with the message a handler not modelled here leaves in its session.
    The route table and New's registration of it, which decides what is gated, are
    as in panel.go. Rendering, logging and the event list are left out: they read
    this state and never change it. *)

From S2P Require Import Prelude GoStrings Bytes Session RateLimit.

Local Open Scope Z_scope.

(** ** What the panel needs of the password hash *)

(** internal/state, as the panel uses it: [hashPassword] may fail (no random
    bytes, empty password); [verifyPassword] fails on an unreadable hash. *)
Definition salt_ok (r : option (list Z)) : Prop := ∀ s, r = Some s → length s = 16%nat ∧ bytes_ok s.

Class PasswordHash := {
  hashPassword : option (list Z) → string → option string;
  verifyPassword : string → string → option bool;
  hash_nonempty : ∀ r pw h, hashPassword r pw = Some h → h ≠ ""%string;
  verify_hash : ∀ r pw h, salt_ok r → hashPassword r pw = Some h → verifyPassword h pw = Some true
}.

(** ** Requests, responses, the panel *)

(** [fromHere] is what sameOriginPost (Panel.v) answers; the path is a clean one,
    which is all the mux hands on. *)
Record Request := MkRequest {
  Method : string;
  Path : string;
  fromHere : bool;
  sessionCookie : option string;
  formCookie : option string;
  formParses : bool;
  PostForm : gmap string string;
  client : string
}.

Definition PostFormValue (r : Request) (k : string) : string := default ""%string (PostForm r !! k).

Inductive Response :=
| Redirect (path : string)
| ProblemPage (status : Z)
| JSONError (status : Z)
| FormPage (status : Z)
| SignedIn (token : string)
| SignedOut
| Handled
| NoRoute.

Record Env := MkEnv {
  gate1 : Z; gate2 : Z;
  auth1 : Z; auth2 : Z;
  allowAt : Z; succeedAt : Z;
  create1 : Z; create2 : Z;
  randToken : option (list Z); randCSRF : option (list Z); randSalt : option (list Z);
  randForm : option (list Z);
  stateWrites : bool;
  left : Problem * string
}.

(** The panel: its sessions, its limiter and the stored hash, empty when no
    password has been chosen. *)
Record Panel := MkPanel {
  sessions : sessionStore;
  limiter : attemptLimiter;
  passwordHash : string
}.

Definition with_sessions (p : Panel) (s : sessionStore) : Panel := MkPanel s (limiter p) (passwordHash p).
Definition with_limiter (p : Panel) (l : attemptLimiter) : Panel := MkPanel (sessions p) l (passwordHash p).

Definition minPanelPassword : nat := 8.

(** [len([]rune(s))]: characters of a UTF-8 text, a byte that starts no valid
    encoding counting as one. [rune_size] is the length of the first one. *)
Definition between (lo x hi : nat) : bool := (lo <=? x)%nat && (x <=? hi)%nat.

Definition rune_size (l : list nat) : nat :=
  match l with
  | b0 :: b1 :: r =>
      if between 194 b0 223 && between 128 b1 191 then 2
      else match r with
           | b2 :: r =>
               if between 224 b0 239 && between 128 b2 191 &&
                  between (if b0 =? 224 then 160 else 128) b1 (if b0 =? 237 then 159 else 191)
               then 3
               else match r with
                    | b3 :: _ =>
                        if between 240 b0 244 && between 128 b2 191 && between 128 b3 191 &&
                           between (if b0 =? 240 then 144 else 128) b1 (if b0 =? 244 then 143 else 191)
                        then 4 else 1
                    | [] => 1
                    end
           | [] => 1
           end
  | _ => 1
  end%nat.

Fixpoint runes (fuel : nat) (l : list nat) : nat :=
  match fuel, l with
  | S f, _ :: _ => S (runes f (drop (rune_size l) l))
  | _, _ => 0
  end.

Definition rune_count (s : string) : nat :=
  let l := nat_of_ascii <$> String.list_ascii_of_string s in runes (length l) l.

Section Handlers.
Context `{PasswordHash}.
Context (siter : gmap string nat → list (string * nat)).
Context (iter : gmap string bucket → list (string * bucket)).

(** state.PanelAuth.IsSet *)
Definition IsSet (p : Panel) : bool := negb (passwordHash p =? "")%string.

(** state.Store.SetPanelPassword *)
Definition SetPanelPassword (p : Panel) (e : Env) (pw : string) : option Panel :=
  match hashPassword (randSalt e) pw with
  | None => None
  | Some h => if stateWrites e then Some (MkPanel (sessions p) (limiter p) h) else None
  end.

(** state.Store.VerifyPanelPassword *)
Inductive verdict := Verified (ok : bool) | NoPanelPassword | Unreadable.
Definition VerifyPanelPassword (p : Panel) (pw : string) : verdict :=
  if (passwordHash p =? "")%string then NoPanelPassword
  else match verifyPassword (passwordHash p) pw with
       | Some ok => Verified ok
       | None => Unreadable
       end.

Definition currentSession (p : Panel) (r : Request) (now1 now2 : Z) : Panel * option nat :=
  match sessionCookie r with
  | None => (p, None)
  | Some c => let '(s, l) := lookup_session (sessions p) c now1 now2 in (with_sessions p s, l)
  end.

Definition checkFormToken (r : Request) : bool :=
  match formCookie r with
  | None => false
  | Some c =>
      if (c =? "")%string then false
      else let got := PostFormValue r "csrf" in
           if (got =? "")%string then false else (c =? got)%string
  end.

Definition startSession (p : Panel) (e : Env) : Panel * Response :=
  let '(s, t) := create siter (sessions p) (randToken e) (randCSRF e) (create1 e) (create2 e) in
  match t with
  | None => (with_sessions p s, ProblemPage 500)
  | Some (token, _) => (with_sessions p s, SignedIn token)
  end.

Definition handleSetup (p : Panel) (r : Request) (e : Env) : Panel * Response :=
  if IsSet p then (p, ProblemPage 403)
  else if negb (checkFormToken r) then (p, ProblemPage 403)
  else
    let pw := PostFormValue r "password" in
    let confirm := PostFormValue r "confirm" in
    if (rune_count pw <? minPanelPassword)%nat then (p, FormPage 400)
    else if negb (pw =? confirm)%string then (p, FormPage 400)
    else match SetPanelPassword p e pw with
         | None => (p, ProblemPage 500)
         | Some p => startSession p e
         end.

(** issueFormToken; the token goes into a cookie and into the form. *)
Definition issueFormToken (e : Env) : Response :=
  match newToken (randForm e) with None => ProblemPage 500 | Some _ => FormPage 200 end.

Definition handleSetupForm (p : Panel) (r : Request) (e : Env) : Panel * Response :=
  (p, if IsSet p then Redirect "/login" else issueFormToken e).

Definition handleLoginForm (p : Panel) (r : Request) (e : Env) : Panel * Response :=
  if negb (IsSet p) then (p, Redirect "/setup")
  else
    let '(p, sess) := currentSession p r (gate1 e) (gate2 e) in
    match sess with
    | Some _ => (p, Redirect "/")
    | None => (p, issueFormToken e)
    end.

Definition handleLogin (p : Panel) (r : Request) (e : Env) : Panel * Response :=
  if negb (IsSet p) then (p, Redirect "/setup")
  else if negb (checkFormToken r) then (p, ProblemPage 403)
  else
    let '(lim, (ok, _)) := allow iter (limiter p) (client r) (allowAt e) in
    let p := with_limiter p lim in
    if negb ok then (p, FormPage 429)
    else match VerifyPanelPassword p (PostFormValue r "password") with
         | NoPanelPassword => (p, Redirect "/setup")
         | Unreadable => (p, ProblemPage 500)
         | Verified false => (p, FormPage 401)
         | Verified true =>
             startSession (with_limiter p (succeed (limiter p) (client r) (succeedAt e))) e
         end.

(** What a handler does to the session in its request's context, when there is one. *)
Definition on_session (f : session → session) (sess : option nat) (s : sessionStore) : sessionStore :=
  match sess with Some l => MkStore (byID s) (alter f l (heap s)) (fresh s) | None => s end.

Definition handleLogout (p : Panel) (r : Request) (e : Env) (sess : option nat) : Panel * Response :=
  let s := on_session clearFlash sess (sessions p) in
  let s := match sessionCookie r with Some c => destroy s c | None => s end in
  (with_sessions p s, SignedOut).

(** The message left for the next page, and the redirect to it. *)
Definition fail_with (p : Panel) (sess : option nat) (key : string) : Panel * Response :=
  (with_sessions p (on_session (λ x, setFlash x (MkProblem StageNone key "" [] "") "") sess (sessions p)), Redirect "/").

Definition handlePassword (p : Panel) (r : Request) (e : Env) (sess : option nat) : Panel * Response :=
  let '(p, again) := currentSession p r (auth1 e) (auth2 e) in
  match again with
  | None => (p, Redirect "/login")
  | Some _ =>
      let current := PostFormValue r "current" in
      let next := PostFormValue r "password" in
      let confirm := PostFormValue r "confirm" in
      let '(lim, (ok, _)) := allow iter (limiter p) (client r) (allowAt e) in
      let p := with_limiter p lim in
      if negb ok then (p, ProblemPage 429)
      else match VerifyPanelPassword p current with
           | Verified true =>
               let p := with_limiter p (succeed (limiter p) (client r) (succeedAt e)) in
               if (rune_count next <? minPanelPassword)%nat then fail_with p sess "password.short"
               else if negb (next =? confirm)%string then fail_with p sess "password.mismatch"
               else match SetPanelPassword p e next with
                    | None => fail_with p sess "password.savefailed"
                    | Some p => (with_sessions p (destroyAll (sessions p)), SignedOut)
                    end
           | _ => fail_with p sess "password.wrong"
           end
  end.

(** The other private handlers (Panel.v): here, that one may leave a message in
    its session. *)
Definition handleOther (p : Panel) (r : Request) (e : Env) (sess : option nat) : Panel * Response :=
  (with_sessions p (on_session (λ x, setFlash x (left e).1 (left e).2) sess (sessions p)), Handled).

(** ** The handlers and the gate *)

Inductive handler :=
| HIndex | HHelp | HPower | HCut | HRecover | HSNI | HConfig | HSelect | HRefresh | HHotspot | HAdvanced
| HLogout | HPassword | HStatusJSON | HIdentifiersJSON
| HLoginForm | HLogin | HSetupForm | HSetup | HAsset (name : string).

(** What comes of a request: the panel, the response, and the handler that ran,
    if one did, with the session it found in its context. *)
Definition outcome : Type := Panel * Response * option (handler * option nat).
Definition HandlerFunc : Type := Panel → Request → Env → option nat → outcome.

Definition run (h : handler) : HandlerFunc := λ p r e sess,
  (match h with
   | HLoginForm => handleLoginForm p r e
   | HLogin => handleLogin p r e
   | HSetupForm => handleSetupForm p r e
   | HSetup => handleSetup p r e
   | HAsset _ => (p, Handled)
   | HLogout => handleLogout p r e sess
   | HPassword => handlePassword p r e sess
   | _ => handleOther p r e sess
   end, Some (h, sess)).

(** requireSession around the handler [h], which gets the session's pointer. *)
Definition requireSession (h : HandlerFunc) (isJSON : bool) : HandlerFunc := λ p r e _,
  if negb (IsSet p) then (p, if isJSON then JSONError 401 else Redirect "/setup", None)
  else
    let '(p, sess) := currentSession p r (gate1 e) (gate2 e) in
    match sess with
    | None => (p, if isJSON then JSONError 401 else Redirect "/login", None)
    | Some l =>
        if negb (Method r =? "GET")%string && negb (Method r =? "HEAD")%string then
          if negb (formParses r) then (p, ProblemPage 400, None)
          else if negb (checkCSRF (heap (sessions p) !! l) (PostFormValue r "csrf"))
          then (p, ProblemPage 403, None)
          else h p r e (Some l)
        else h p r e (Some l)
    end.

(** ** The route table (panel.go) *)

Record routeSpec := MkRoute { rs_Method : string; rs_Path : string; Public : bool; JSON : bool }.

Definition routes : list routeSpec :=
  [MkRoute "GET" "/" false false;
   MkRoute "POST" "/power" false false;
   MkRoute "POST" "/cut" false false;
   MkRoute "GET" "/help" false false;
   MkRoute "POST" "/config" false false;
   MkRoute "POST" "/select" false false;
   MkRoute "POST" "/sni" false false;
   MkRoute "POST" "/refresh" false false;
   MkRoute "POST" "/hotspot" false false;
   MkRoute "POST" "/advanced" false false;
   MkRoute "POST" "/recover" false false;
   MkRoute "POST" "/logout" false false;
   MkRoute "POST" "/password" false false;
   MkRoute "GET" "/status.json" false true;
   MkRoute "GET" "/identifiers.json" false true;
   MkRoute "GET" "/login" true false;
   MkRoute "POST" "/login" true false;
   MkRoute "GET" "/setup" true false;
   MkRoute "POST" "/setup" true false;
   MkRoute "GET" "/assets/panel.css" true false;
   MkRoute "GET" "/assets/panel.js" true false;
   MkRoute "GET" "/favicon.svg" true false].

(** The handlers map of New. *)
Definition handlers : list (string * handler) :=
  [("GET /", HIndex); ("GET /help", HHelp); ("POST /power", HPower); ("POST /cut", HCut); ("POST /recover", HRecover);
   ("POST /sni", HSNI); ("POST /config", HConfig); ("POST /select", HSelect); ("POST /refresh", HRefresh);
   ("POST /hotspot", HHotspot); ("POST /advanced", HAdvanced); ("POST /logout", HLogout); ("POST /password", HPassword);
   ("GET /status.json", HStatusJSON); ("GET /identifiers.json", HIdentifiersJSON); ("GET /login", HLoginForm);
   ("POST /login", HLogin); ("GET /setup", HSetupForm); ("POST /setup", HSetup);
   ("GET /assets/panel.css", HAsset "panel.css"); ("GET /assets/panel.js", HAsset "panel.js");
   ("GET /favicon.svg", HAsset "favicon.svg")]%string.

Definition route_key (rt : routeSpec) : string := (rs_Method rt ++ " " ++ rs_Path rt)%string.
Definition handler_of (key : string) : option handler :=
  snd <$> List.find (λ kh, (kh.1 =? key)%string) handlers.

(** New's two loops: every route gets its handler, behind the gate unless it is
    public, and no handler is left without a route. *)
Fixpoint register (rts : list routeSpec) : option (list (routeSpec * HandlerFunc)) :=
  match rts with
  | [] => Some []
  | rt :: rts =>
      match handler_of (route_key rt) with
      | None => None
      | Some h =>
          (λ mux, (rt, if negb (Public rt) then requireSession (run h) (JSON rt) else run h) :: mux) <$> register rts
      end
  end.

Definition newMux : option (list (routeSpec * HandlerFunc)) :=
  match register routes with
  | None => None
  | Some mux => if forallb (λ kh, existsb (λ rt, (route_key rt =? kh.1)%string) routes) handlers then Some mux else None
  end.

(** net/http's ServeMux on these patterns: GET also serves HEAD, and the pattern of
    the root serves every path no other pattern is for. *)
Definition method_serves (rt : routeSpec) (m : string) : bool :=
  (rs_Method rt =? m)%string || (rs_Method rt =? "GET")%string && (m =? "HEAD")%string.
Definition mux_find (mux : list (routeSpec * HandlerFunc)) (r : Request) : option (routeSpec * HandlerFunc) :=
  match List.find (λ x, method_serves x.1 (Method r) && (rs_Path x.1 =? Path r)%string) mux with
  | Some x => Some x
  | None => List.find (λ x, method_serves x.1 (Method r) && (rs_Path x.1 =? "/")%string) mux
  end.

(** ServeHTTP: a request from another site is refused before any handler. *)
Definition serve (p : Panel) (r : Request) (e : Env) : outcome :=
  if negb (Method r =? "GET")%string && negb (Method r =? "HEAD")%string && negb (fromHere r)
  then (p, ProblemPage 403, None)
  else match newMux ≫= λ mux, mux_find mux r with
       | Some (_, h) => h p r e None
       | None => (p, NoRoute, None)
       end.

Definition newPanel (zero : Z) : Panel := MkPanel newSessionStore (newAttemptLimiter zero) "".

End Handlers.
