(* ===== verification/AuthFacts.v ===== *)
(** * Who gets past the gate

    Over every history of requests, in any order and with any clock readings and
    random bytes: a private handler runs only under a session some earlier
    request was given after proving the password (or choosing the first one),
    and not signed out of or revoked by a password change since. *)

From S2P Require Import Prelude GoStrings Bytes Base64 Sha256 Session RateLimit Auth.

Local Open Scope Z_scope.

(** A request, what it read, and what came of it. *)
Record exchange := MkExchange {
  x_req : Request;
  x_env : Env;
  x_resp : Response;
  x_ran : option (handler * option nat)
}.

(** The handlers that have to work before anyone can log in: the two forms, what
    they are posted to, and the static files they are drawn with. *)
Definition before_login (h : handler) : bool :=
  match h with HLoginForm | HLogin | HSetupForm | HSetup | HAsset _ => true | _ => false end.

Section Facts.
Context `{PasswordHash}.
Context (siter : gmap string nat → list (string * nat)).
Context (iter : gmap string bucket → list (string * bucket)).

Local Abbreviation srv := (serve siter iter).

(** The panels a fresh one can become, with what was served, oldest first. *)
Inductive served (zero : Z) : list exchange → Panel → Prop :=
| served_new : served zero [] (newPanel zero)
| served_step hist p r e :
    served zero hist p → served zero (hist ++ [MkExchange r e (srv p r e).1.2 (srv p r e).2]) (srv p r e).1.1.

(** ** What each request does to the session map *)

(** [grows s s']: every entry of [s'] is one of [s], apart from [keys]. *)
Definition grows (keys : list string) (s s' : sessionStore) : Prop :=
  ∀ k l, byID s' !! k = Some l → k ∈ keys ∨ byID s !! k = Some l.

Definition issued (x : Response) : list string :=
  match x with SignedIn t => [sessionKey t] | _ => [] end.

Lemma grows_refl ks s : grows ks s s.
Proof. intros k l Hk. by right. Qed.

Lemma grows_sub s s' : byID s' ⊆ byID s → grows [] s s'.
Proof. intros Hs k l Hk. right. by eapply lookup_weaken. Qed.

Lemma grows_trans s1 s2 s3 ks : grows [] s1 s2 → grows ks s2 s3 → grows ks s1 s3.
Proof.
  intros H1 H2 k l Hk. destruct (H2 k l Hk) as [?|Hk2]; [by left|].
  destruct (H1 k l Hk2) as [Hn|?]; [by apply not_elem_of_nil in Hn|by right].
Qed.

Lemma currentSession_grows p r t1 t2 p' l :
  currentSession p r t1 t2 = (p', l) →
  grows [] (sessions p) (sessions p') ∧ passwordHash p' = passwordHash p ∧ limiter p' = limiter p ∧
  (∀ x, l = Some x → ∃ c, sessionCookie r = Some c ∧ byID (sessions p) !! sessionKey c = Some x ∧
     byID (sessions p') !! sessionKey c = Some x ∧ live (sessions p) t1 x = true).
Proof.
  unfold currentSession. destruct (sessionCookie r) as [c|]; [|intros [= <- <-]; split_and!; [apply grows_refl|done..]].
  destruct (lookup_session (sessions p) c t1 t2) as [s' l'] eqn:E. intros [= <- <-].
  apply lookup_session_spec in E as (_ & Hsub & Hl). simpl. split; [by apply grows_sub|]. do 2 (split; [done|]).
  intros x ->. destruct Hl as (_ & H1 & H2 & H3 & _). by exists c.
Qed.

Lemma startSession_grows p e : let '(p', x) := startSession siter p e in
  grows (issued x) (sessions p) (sessions p').
Proof.
  unfold startSession, create. destruct (newToken (randToken e)) as [t|]; [|by apply grows_refl].
  destruct (newToken (randCSRF e)) as [c|]; [|by apply grows_refl]. cbn [issued sessions with_sessions].
  intros k l Hk. cbn [byID] in Hk. apply lookup_insert_Some in Hk as [[<- _]|[_ Hk]]; [left; set_solver|right].
  apply (lookup_weaken _ _ _ _ Hk), make_room_sub.
Qed.

(** Every outcome is of one of these kinds. *)
Record effect (p : Panel) (r : Request) (e : Env) (o : outcome) : Prop := {
  ef_grows : grows (issued o.1.2) (sessions p) (sessions o.1.1);
  ef_signin : ∀ t, o.1.2 = SignedIn t → ∃ sess,
    (o.2 = Some (HLogin, sess) ∧ IsSet p = true ∧ VerifyPanelPassword p (PostFormValue r "password") = Verified true ∧
       (allow iter (limiter p) (client r) (allowAt e)).2.1 = true) ∨
    (o.2 = Some (HSetup, sess) ∧ IsSet p = false ∧ checkFormToken r = true);
  ef_changed : ∀ sess, o.2 = Some (HPassword, sess) → o.1.2 = SignedOut → byID (sessions o.1.1) = ∅;
  ef_logout : ∀ sess, o.2 = Some (HLogout, sess) → o.1.2 = SignedOut → ∀ c, sessionCookie r = Some c → c ≠ ""%string →
    byID (sessions o.1.1) !! sessionKey c = None
}.

Lemma effect_plain p r e (o : outcome) :
  grows [] (sessions p) (sessions o.1.1) → (∀ t, o.1.2 ≠ SignedIn t) → o.1.2 ≠ SignedOut → effect p r e o.
Proof.
  intros Hg Hx1 Hx2. split; try done; [|by intros t Et; destruct (Hx1 t)].
  intros k l Hk. destruct (Hg k l Hk) as [Hn|]; [by apply not_elem_of_nil in Hn|by right].
Qed.

Lemma on_session_byID f sess s : byID (on_session f sess s) = byID s.
Proof. by destruct sess. Qed.
Lemma grows_on_session f sess s0 s : grows [] s0 s → grows [] s0 (on_session f sess s).
Proof. intros Hg k l. rewrite on_session_byID. apply Hg. Qed.

(** A handler run on the panel the gate leaves, or on the panel itself. *)
Definition handed (p p1 : Panel) : Prop :=
  grows [] (sessions p) (sessions p1) ∧ passwordHash p1 = passwordHash p ∧ limiter p1 = limiter p.

Lemma handed_refl p : handed p p.
Proof. split_and!; [apply grows_refl|done..]. Qed.

Lemma currentSession_handed p p1 r t1 t2 p2 l :
  handed p p1 → currentSession p1 r t1 t2 = (p2, l) → handed p p2.
Proof.
  intros (Hg & Hh & Hl) E. apply currentSession_grows in E as (Hg2 & Hh2 & Hl2 & _).
  split_and!; [by eapply grows_trans|congruence..].
Qed.

Lemma setup_effect p p1 r e sess : handed p p1 → effect p r e (handleSetup siter p1 r e, Some (HSetup, sess)).
Proof.
  intros (Hg & Hh & Hl). unfold handleSetup. assert (IsSet p1 = IsSet p) as Es' by (unfold IsSet; by rewrite Hh).
  rewrite Es'. destruct (IsSet p) eqn:Es; [by apply effect_plain|].
  destruct (checkFormToken r) eqn:Et; cbn [negb]; [|by apply effect_plain].
  destruct (_ <? _)%nat; [by apply effect_plain|]. destruct (negb _); [by apply effect_plain|].
  unfold SetPanelPassword. destruct (hashPassword _ _) as [h|]; [|by apply effect_plain].
  destruct (stateWrites e); [|by apply effect_plain].
  pose proof (startSession_grows (MkPanel (sessions p1) (limiter p1) h) e) as Hs.
  destruct (startSession siter _ e) as [p' x]. split; try done; [by eapply grows_trans|].
  intros t _. exists sess. by right.
Qed.

Lemma login_effect p p1 r e sess : handed p p1 → effect p r e (handleLogin siter iter p1 r e, Some (HLogin, sess)).
Proof.
  intros (Hg & Hh & Hl). unfold handleLogin. assert (IsSet p1 = IsSet p) as Es' by (unfold IsSet; by rewrite Hh).
  rewrite Es'. destruct (IsSet p) eqn:Es; cbn [negb]; [|by apply effect_plain].
  destruct (checkFormToken r); cbn [negb]; [|by apply effect_plain]. rewrite Hl.
  destruct (allow iter (limiter p) (client r) (allowAt e)) as [lim [ok after]] eqn:Ea.
  destruct ok; cbn [negb]; [|by apply effect_plain].
  assert (VerifyPanelPassword (with_limiter p1 lim) = VerifyPanelPassword p) as -> by (unfold VerifyPanelPassword; simpl; by rewrite Hh).
  destruct (VerifyPanelPassword p _) as [[]| |] eqn:Ev; try (by apply effect_plain).
  set (p2 := with_limiter _ _). pose proof (startSession_grows p2 e) as Hs.
  destruct (startSession siter p2 e) as [p' x] eqn:E. split; try done; [by eapply grows_trans|].
  intros t _. exists sess. left. by rewrite Ea.
Qed.

Lemma password_effect p p1 r e sess : handed p p1 → effect p r e (handlePassword iter p1 r e sess, Some (HPassword, sess)).
Proof.
  intros Hp. unfold handlePassword.
  destruct (currentSession p1 r (auth1 e) (auth2 e)) as [p2 s] eqn:E.
  destruct (currentSession_handed _ _ _ _ _ _ _ Hp E) as (Hg & _).
  assert (Hf : ∀ p3 k, sessions p3 = sessions p2 →
    effect p r e (fail_with p3 sess k, Some (HPassword, sess))).
  { intros p3 k E3. apply effect_plain; try done. unfold fail_with. rewrite E3. simpl. by apply grows_on_session. }
  destruct s as [s|]; [|by apply effect_plain].
  destruct (allow iter (limiter p2) (client r) (allowAt e)) as [lim [ok after]].
  destruct ok; cbn [negb]; [|by apply effect_plain].
  destruct (VerifyPanelPassword _ _) as [[]| |]; try (by apply Hf).
  destruct (_ <? _)%nat; [by apply Hf|]. destruct (negb _); [by apply Hf|].
  unfold SetPanelPassword. destruct (hashPassword _ _) as [h|]; [|by apply Hf].
  destruct (stateWrites e); [|by apply Hf]. by split.
Qed.

Lemma logout_effect p p1 r e sess : handed p p1 → effect p r e (handleLogout p1 r e sess, Some (HLogout, sess)).
Proof.
  intros (Hg & _). unfold handleLogout. pose proof (grows_on_session clearFlash sess _ _ Hg) as Hg'. split; cbn [fst snd]; try done.
  - eapply grows_trans; [exact Hg'|]. unfold destroy.
    destruct (sessionCookie r) as [c|]; [|intros k l' Hk; by right].
    destruct (c =? "")%string; [intros k l' Hk; by right|]. apply grows_sub. simpl. apply delete_subseteq.
  - intros s _ _ c Hc Hne. rewrite Hc. unfold destroy. rewrite (proj2 (String.eqb_neq _ _)) by done.
    simpl. by rewrite lookup_delete_eq.
Qed.

Lemma forms_effect p p1 r e x : handed p p1 →
  effect p r e (handleLoginForm p1 r e, x) ∧ effect p r e (handleSetupForm p1 r e, x).
Proof.
  assert (∀ t, issueFormToken e ≠ SignedIn t) as Hi1 by (unfold issueFormToken; by destruct (newToken _)).
  assert (issueFormToken e ≠ SignedOut) as Hi2 by (unfold issueFormToken; by destruct (newToken _)).
  intros Hp. pose proof Hp as (Hg & _). split.
  - unfold handleLoginForm. destruct (negb _); [by apply effect_plain|].
    destruct (currentSession _ _ _ _) as [p2 l] eqn:E. destruct (currentSession_handed _ _ _ _ _ _ _ Hp E) as (Hg2 & _).
    by destruct l; apply effect_plain.
  - unfold handleSetupForm. destruct (IsSet p1); by apply effect_plain.
Qed.

Lemma run_effect h p p1 r e sess : handed p p1 → effect p r e (run siter iter h p1 r e sess).
Proof.
  intros Hp. assert (effect p r e (handleOther p1 r e sess, Some (h, sess))) as Ho.
  { destruct Hp as (Hg & _). apply effect_plain; try done. by apply grows_on_session. }
  unfold run. destruct h; try exact Ho;
    first [by apply logout_effect|by apply password_effect|by apply forms_effect|by apply login_effect|by apply setup_effect|idtac].
  destruct Hp as (Hg & _). by apply effect_plain.
Qed.

(** The gate lets the handler's effect through, or answers itself. *)
Lemma gate_effect h json p r e sess : effect p r e (requireSession (run siter iter h) json p r e sess).
Proof.
  unfold requireSession.
  destruct (negb (IsSet p)); [apply effect_plain; [apply grows_refl|by destruct json..]|].
  destruct (currentSession p r (gate1 e) (gate2 e)) as [p1 l] eqn:E.
  pose proof (currentSession_handed _ _ _ _ _ _ _ (handed_refl p) E) as Hp. pose proof Hp as (Hg & _).
  destruct l as [l|]; [|apply effect_plain; [done|by destruct json..]].
  destruct (negb _ && negb _); [|by apply run_effect].
  destruct (negb (formParses r)); [by apply effect_plain|].
  destruct (negb (checkCSRF _ _)); [by apply effect_plain|by apply run_effect].
Qed.

(** ** The table *)

(** What New registers: a route of the table with its handler, gated unless it is
    public. *)
Lemma register_spec rts mux rt f : register siter iter rts = Some mux → (rt, f) ∈ mux →
  rt ∈ rts ∧ ∃ h, handler_of (route_key rt) = Some h ∧
    f = if negb (Public rt) then requireSession (run siter iter h) (JSON rt) else run siter iter h.
Proof.
  revert mux. induction rts as [|rt0 rts IH]; intros mux; simpl.
  { intros [= <-] Hin. by apply not_elem_of_nil in Hin. }
  destruct (handler_of (route_key rt0)) as [h|] eqn:Eh; [|done]. destruct (register siter iter rts) as [mux'|]; [|done].
  intros E Hin. injection E as <-. apply elem_of_cons in Hin as [[= -> ->]|Hin].
  - split; [constructor|]. by exists h.
  - destruct (IH mux' eq_refl Hin) as [Hr Hh]. split; [by constructor|done].
Qed.

Lemma find_elem {A} (q : A → bool) l x : List.find q l = Some x → x ∈ l.
Proof. intros E. apply List.find_some in E as [Hin _]. by apply list_elem_of_In. Qed.

(** A route of the table is public exactly when its handler has to be. *)
Lemma table_public rt h : rt ∈ routes → handler_of (route_key rt) = Some h → Public rt = before_login h.
Proof.
  intros Hin. apply list_elem_of_In in Hin. unfold routes in Hin.
  repeat (destruct Hin as [<-|Hin]; [vm_compute; by intros [= <-]|]). destruct Hin.
Qed.

(** Serving a request: refused, or one handler, gated unless it is one of those. *)
Lemma serve_cases p r e : (∃ x, srv p r e = (p, x, None) ∧ (∀ t, x ≠ SignedIn t) ∧ x ≠ SignedOut) ∨
  ∃ h json, srv p r e = (if before_login h then run siter iter h p r e None else requireSession (run siter iter h) json p r e None).
Proof.
  unfold serve. destruct (negb _ && _ && _); [left; eexists; split_and!; [reflexivity|done..]|]. destruct (newMux siter iter) as [mux|] eqn:Em; cbn [mbind option_bind]; [|left; eexists; split_and!; [reflexivity|done..]].
  destruct (mux_find mux r) as [[rt f]|] eqn:Ef; [|left; eexists; split_and!; [reflexivity|done..]]. right.
  assert ((rt, f) ∈ mux) as Hin.
  { unfold mux_find in Ef. destruct (List.find _ mux) as [x|] eqn:E1; [|by apply find_elem in Ef]. injection Ef as ->. by apply find_elem in E1. }
  unfold newMux in Em. destruct (register siter iter routes) as [mux'|] eqn:Er; [|done].
  destruct (forallb _ handlers); [|done]. injection Em as ->.
  destruct (register_spec _ _ _ _ Er Hin) as (Hrt & h & Hh & ->). exists h, (JSON rt).
  rewrite (table_public _ _ Hrt Hh). by destruct (before_login h).
Qed.

Lemma serve_effect p r e : effect p r e (srv p r e).
Proof.
  destruct (serve_cases p r e) as [(x & -> & Hx1 & Hx2)|(h & json & ->)]; [by apply effect_plain; [apply grows_refl|..]|].
  destruct (before_login h); [apply run_effect, handed_refl|apply gate_effect].
Qed.

(** ** Histories *)

Definition revokes (k : string) (x : exchange) : Prop :=
  x_resp x = SignedOut ∧ ∃ sess,
  (x_ran x = Some (HPassword, sess) ∨
   x_ran x = Some (HLogout, sess) ∧ ∃ c, sessionCookie (x_req x) = Some c ∧ c ≠ ""%string ∧ sessionKey c = k).

(** The session under the key [k] was issued and not revoked since. *)
Definition standing (k : string) (hist : list exchange) : Prop :=
  ∃ h1 x h2 t sess, hist = h1 ++ x :: h2 ∧ x_resp x = SignedIn t ∧ sessionKey t = k ∧
    (x_ran x = Some (HLogin, sess) ∨ x_ran x = Some (HSetup, sess)) ∧ Forall (λ y, ¬ revokes k y) h2.

Lemma standing_snoc k hist y : standing k hist → ¬ revokes k y → standing k (hist ++ [y]).
Proof.
  intros (h1 & x & h2 & t & sess & -> & H1 & H2 & H3 & H4) Hy. exists h1, x, (h2 ++ [y]), t, sess.
  rewrite <- app_assoc. split_and!; try done. apply Forall_app. by rewrite Forall_singleton.
Qed.

Lemma served_standing zero hist p :
  served zero hist p → ∀ k l, byID (sessions p) !! k = Some l → standing k hist.
Proof.
  induction 1 as [|hist p r e _ IH]; intros k l Hk; [done|].
  destruct (serve_effect p r e) as [Hg Hs Hch Hlo]. destruct (srv p r e) as [[p' x] ran]. cbn [fst snd] in *.
  destruct (Hg k l Hk) as [Hin|Hold].
  - destruct x as [| | | |t| | |] eqn:Ex; simpl in Hin; try (by apply not_elem_of_nil in Hin).
    apply list_elem_of_singleton in Hin as ->. destruct (Hs t eq_refl) as (sess & Hr).
    exists hist, (MkExchange r e (SignedIn t) ran), [], t, sess. split_and!; try done. simpl. destruct Hr as [[-> _]|[-> _]]; auto.
  - apply standing_snoc; [by eapply IH|]. intros [Hso (sess & Hr)]. cbn [x_resp x_ran x_req] in *.
    destruct Hr as [->|[-> (c & Hc & Hne & <-)]].
    + rewrite (Hch sess eq_refl Hso), lookup_empty in Hk. done.
    + rewrite (Hlo sess eq_refl Hso c Hc Hne) in Hk. done.
Qed.

Context (siter_ok : ∀ m, siter m ≡ₚ map_to_list m).

Lemma served_store_ok zero hist p : served zero hist p → store_ok (sessions p).
Proof.
  assert (Hcur : ∀ p r t1 t2, store_ok (sessions p) → store_ok (sessions (currentSession p r t1 t2).1)).
  { intros q r t1 t2 Hq. unfold currentSession. destruct (sessionCookie r) as [c|]; [|done].
    pose proof (lookup_session_ok (sessions q) c t1 t2 Hq) as Hl. by destruct (lookup_session _ _ _ _). }
  assert (Hst : ∀ q e, store_ok (sessions q) → store_ok (sessions (startSession siter q e).1)).
  { intros q e Hq. unfold startSession.
    pose proof (create_ok siter siter_ok (sessions q) (randToken e) (randCSRF e) (create1 e) (create2 e) Hq) as Hc.
    by destruct (create siter _ _ _ _ _) as [s [[]|]]. }
  assert (Hon : ∀ f sess s, store_ok s → store_ok (on_session f sess s))
    by (intros f [l|] s Hok; [by apply store_ok_alter|done]).
  assert (Hfail : ∀ q sess k, store_ok (sessions q) → store_ok (sessions (fail_with q sess k).1))
    by (intros; by apply Hon).
  assert (Hrun : ∀ h q r e sess, store_ok (sessions q) → store_ok (sessions (run siter iter h q r e sess).1.1)).
  { intros h q r e sess Hq. assert (store_ok (sessions (handleOther q r e sess).1)) as Ho by (by apply Hon).
    unfold run. destruct h; try exact Ho; cbn [fst snd]; try done.
    - unfold handleLogout. simpl. pose proof (Hon clearFlash sess (sessions q) Hq).
      destruct (sessionCookie r); [by apply destroy_ok|done].
    - unfold handlePassword, SetPanelPassword.
      pose proof (Hcur q r (auth1 e) (auth2 e) Hq) as Hc. destruct (currentSession _ _ _ _) as [q1 [s|]]; [|done].
      repeat case_match; simplify_eq; try done; first [by apply Hfail|by apply destroyAll_ok].
    - unfold handleLoginForm. destruct (negb _); [done|]. pose proof (Hcur q r (gate1 e) (gate2 e) Hq) as Hc.
      by destruct (currentSession _ _ _ _) as [q1 [l|]].
    - unfold handleLogin. repeat case_match; try done; by apply Hst.
    - unfold handleSetup, SetPanelPassword. repeat case_match; simplify_eq; try done; by apply Hst. }
  assert (Hgate : ∀ h json q r e sess, store_ok (sessions q) →
    store_ok (sessions (requireSession (run siter iter h) json q r e sess).1.1)).
  { intros h json q r e sess Hq. unfold requireSession. destruct (negb _); [done|].
    pose proof (Hcur q r (gate1 e) (gate2 e) Hq) as Hc. destruct (currentSession _ _ _ _) as [q1 [l|]]; [|done].
    destruct (negb _ && negb _); [|by apply Hrun]. destruct (negb _); [done|]. destruct (negb _); [done|by apply Hrun]. }
  induction 1 as [|hist p r e _ IH]; [apply store_ok_new|].
  destruct (serve_cases p r e) as [(x & -> & _)|(h & json & ->)]; [done|]. destruct (before_login h); auto.
Qed.

Lemma checkCSRF_touch s now got : checkCSRF (Some (touch s now)) got = checkCSRF (Some s) got.
Proof. done. Qed.

(** A session that passed the gate: live, and named by the form on a POST. *)
Record passed (p : Panel) (r : Request) (e : Env) (c : string) (l : nat) (s : session) : Prop := {
  pa_set : IsSet p = true;
  pa_cookie : sessionCookie r = Some c;
  pa_entry : byID (sessions p) !! sessionKey c = Some l;
  pa_session : heap (sessions p) !! l = Some s;
  pa_fresh : gate1 e - created s ≤ sessionLifetime ∧ gate1 e - lastSeen s ≤ sessionIdle;
  pa_csrf : Method r ≠ "GET"%string → Method r ≠ "HEAD"%string →
    PostFormValue r "csrf" = csrf s ∧ csrf s ≠ ""%string
}.

Lemma gate_passed h json p r e sess0 q x h' sess :
  store_ok (sessions p) → requireSession (run siter iter h) json p r e sess0 = (q, x, Some (h', sess)) →
  ∃ c l s, sess = Some l ∧ passed p r e c l s.
Proof.
  intros Hok. unfold requireSession. destruct (IsSet p) eqn:Eset; cbn [negb]; [|done].
  unfold currentSession. destruct (sessionCookie r) as [c|] eqn:Ec; [|done].
  destruct (lookup_session (sessions p) c (gate1 e) (gate2 e)) as [st [l|]] eqn:El; [|done].
  apply lookup_session_spec in El as (_ & _ & _ & Hk & Hl & _ & Hh).
  destruct (ok_ptr _ Hok _ _ Hk) as [s Hs].
  unfold live in Hl. rewrite Hs in Hl. apply negb_true_iff in Hl. unfold expired in Hl. breflect.
  cbn [sessions with_sessions]. rewrite Hh, lookup_alter_eq, Hs.
  change (checkCSRF ((λ s, touch s (gate2 e)) <$> Some s) (PostFormValue r "csrf"))
    with (checkCSRF (Some s) (PostFormValue r "csrf")).
  intros Hres. exists c, l, s. split.
  { unfold run in Hres. by repeat case_match; simplify_eq. }
  split; try done.
  intros Hm1 Hm2. rewrite (proj2 (String.eqb_neq _ _) Hm1), (proj2 (String.eqb_neq _ _) Hm2) in Hres. cbn [negb andb] in Hres.
  destruct (formParses r); [|done]. cbn [negb] in Hres.
  destruct (checkCSRF (Some s) _) eqn:Ecs; [|done]. unfold checkCSRF in Ecs.
  destruct (_ || _) eqn:E; [done|]. breflect. by rewrite Ecs.
Qed.

End Facts.

(** C6. Over every history of requests, served one at a time from a fresh panel
    through the route table New registers: a handler other than those of the login
    and setup forms and their static files, logging out and changing the password
    included, runs only for a request whose cookie names a session that was issued
    by a login or by setup and has not been ended since, neither by signing out nor
    by a password change; that session is the one the handler is given, it is at
    most twelve hours old and was used within the last two, and a request other
    than GET or HEAD carries its form token. *)
Theorem private_routes_need_session `{PasswordHash} siter iter zero hist p r e p' x h sess :
  (∀ m, siter m ≡ₚ map_to_list m) →
  served siter iter zero hist p →
  serve siter iter p r e = (p', x, Some (h, sess)) → before_login h = false →
  ∃ c l s, sess = Some l ∧ passed p r e c l s ∧ standing (sessionKey c) hist.
Proof.
  intros Hi Hs Hh Hb. assert (store_ok (sessions p)) as Hok by (by eapply served_store_ok).
  destruct (serve_cases siter iter p r e) as [(y & E & _)|(h0 & json & E)]; rewrite E in Hh; [done|].
  destruct (before_login h0) eqn:Eb.
  { unfold run in Hh. assert (h0 = h) by (by repeat case_match; simplify_eq). congruence. }
  destruct (gate_passed siter iter h0 json p r e None p' x h sess Hok Hh) as (c & l & s & El & Hp).
  exists c, l, s. split_and!; [done..|]. exact (served_standing siter iter zero hist p Hs _ _ (pa_entry _ _ _ _ _ _ Hp)).
Qed.

(** A session is only ever issued by a login whose password the stored hash
    verified, with an attempt the limiter allowed, or by setup on a panel that
    had no password, with the form's own token. *)
Theorem sessions_need_password `{PasswordHash} siter iter p r e t :
  (serve siter iter p r e).1.2 = SignedIn t → ∃ sess,
  ((serve siter iter p r e).2 = Some (HLogin, sess) ∧ IsSet p = true ∧
     VerifyPanelPassword p (PostFormValue r "password") = Verified true ∧
     (allow iter (limiter p) (client r) (allowAt e)).2.1 = true) ∨
  ((serve siter iter p r e).2 = Some (HSetup, sess) ∧ IsSet p = false ∧ checkFormToken r = true).
Proof. intros Ht. by apply (ef_signin _ _ _ _ _ (serve_effect siter iter p r e) t). Qed.

(** The table and the handlers agree, so New starts the panel. *)
Theorem table_registers `{PasswordHash} siter iter : is_Some (newMux siter iter).
Proof. unfold newMux. by eexists. Qed.

(** The session store stays well formed in every history: at most
    maxSessions entries, each pointing at its own live object, none under the
    empty key, so a full store evicts instead of refusing a login. *)
Theorem session_store_invariant `{PasswordHash} siter iter zero hist p :
  (∀ m, siter m ≡ₚ map_to_list m) → served siter iter zero hist p → store_ok (sessions p).
Proof. intros. by eapply served_store_ok. Qed.

(** a token keeps all 256 random bits: distinct random bytes give distinct
    tokens. *)
Theorem newToken_injective b b' t :
  length b = 32%nat → length b' = 32%nat → bytes_ok b → bytes_ok b' →
  newToken (Some b) = Some t → newToken (Some b') = Some t → b = b'.
Proof.
  intros Hl Hl' Hb Hb' [= <-] [= E]. apply url_encode_inj; [done|done|].
  apply (f_equal String.list_ascii_of_string) in E.
  by rewrite !String.list_ascii_of_string_of_list_ascii in E.
Qed.

(** The password chosen at setup, and the one chosen by a password change,
    is the one that verifies afterwards. *)
Theorem chosen_password_verifies `{PasswordHash} siter iter p r e :
  salt_ok (randSalt e) →
  (∀ t, (handleSetup siter p r e).2 = SignedIn t →
     VerifyPanelPassword (handleSetup siter p r e).1 (PostFormValue r "password") = Verified true) ∧
  (∀ l, (handlePassword iter p r e l).2 = SignedOut →
     VerifyPanelPassword (handlePassword iter p r e l).1 (PostFormValue r "password") = Verified true).
Proof.
  intros Hsalt.
  assert (Hset : ∀ q pw q', SetPanelPassword q e pw = Some q' →
    ∀ q'', passwordHash q'' = passwordHash q' → VerifyPanelPassword q'' pw = Verified true).
  { intros q pw q'. unfold SetPanelPassword. destruct (hashPassword _ pw) as [h|] eqn:Eh; [|done].
    destruct (stateWrites e); [|done]. intros [= <-] q'' Hq. unfold VerifyPanelPassword. rewrite Hq. cbn [passwordHash].
    rewrite (proj2 (String.eqb_neq _ _)) by (by eapply hash_nonempty). by rewrite (verify_hash _ _ _ Hsalt Eh). }
  split.
  - intros t. unfold handleSetup. destruct (IsSet p); [done|]. destruct (negb (checkFormToken r)); [done|].
    destruct (_ <? _)%nat; [done|]. destruct (negb _); [done|].
    destruct (SetPanelPassword p e _) as [q|] eqn:Es; [|done]. intros _. apply (Hset _ _ _ Es).
    unfold startSession. by destruct (create siter _ _ _ _ _) as [s [[]|]].
  - intros l. unfold handlePassword. destruct (currentSession p r _ _) as [p1 [s|]]; [|done].
    destruct (allow _ _ _ _) as [lim [[] after]]; cbn [negb]; [|done].
    destruct (VerifyPanelPassword _ _) as [[]| |]; try done.
    destruct (_ <? _)%nat; [done|]. destruct (negb _); [done|].
    destruct (SetPanelPassword _ e _) as [q|] eqn:Es; [|done]. intros _. by apply (Hset _ _ _ Es).
Qed.

(** ** A history used by the witnesses: setup, then a private page *)

Module Demo.

Lemma marked_nonempty (pw h : string) : Some (String "#" pw) = Some h → h ≠ ""%string.
Proof. by intros [= <-]. Qed.

Lemma marked_verifies (pw h : string) : Some (String "#" pw) = Some h → Some (h =? String "#" pw)%string = Some true.
Proof. intros [= <-]. by rewrite String.eqb_refl. Qed.

#[local] Instance marked_hash : PasswordHash := {|
  hashPassword := λ _ pw, Some (String "#" pw);
  verifyPassword := λ h pw, Some (h =? String "#" pw)%string;
  hash_nonempty := λ _ pw h, marked_nonempty pw h;
  verify_hash := λ _ pw h _, marked_verifies pw h
|}.

Definition form : gmap string string := {[ "csrf" := "x"; "password" := "correct horse"; "confirm" := "correct horse" ]}.
Definition setup_req : Request := MkRequest "POST" "/setup" true None (Some "x") true form "10.0.0.7".
Definition env : Env := MkEnv 5 5 5 5 5 5 5 5 (Some (replicate 32 1)) (Some (replicate 32 2)) None None true (no_problem, "").

Definition token : string := Eval vm_compute in String.string_of_list_ascii (b64_encode url_alphabet (replicate 32 1)).
Definition csrf_token : string := Eval vm_compute in String.string_of_list_ascii (b64_encode url_alphabet (replicate 32 2)).
Definition srv (p : Panel) (r : Request) : outcome := serve map_to_list map_to_list p r env.
Definition after_setup : Panel := (srv (newPanel 0) setup_req).1.1.
Definition history : list exchange := [MkExchange setup_req env (SignedIn token) (Some (HSetup, None))].
(** Signing out with the session's form token. *)
Definition logout_req : Request := MkRequest "POST" "/logout" true (Some token) None true {[ "csrf" := csrf_token ]} "10.0.0.7".

Lemma setup_signs_in : (srv (newPanel 0) setup_req).1.2 = SignedIn token ∧ (srv (newPanel 0) setup_req).2 = Some (HSetup, None).
Proof. split; vm_compute; reflexivity. Qed.

Lemma demo_served : served map_to_list map_to_list 0 history after_setup.
Proof.
  unfold history. destruct setup_signs_in as [<- <-].
  exact (served_step map_to_list map_to_list 0 [] (newPanel 0) setup_req env (served_new _ _ 0)).
Qed.

(** The same request without the session, or without its token, runs nothing. *)
Example logout_refused :
  (srv after_setup (MkRequest "POST" "/logout" true None None true {[ "csrf" := csrf_token ]} "10.0.0.7")).2 = None ∧
  (srv after_setup (MkRequest "POST" "/logout" true (Some token) None true ∅ "10.0.0.7")).2 = None.
Proof. split; vm_compute; reflexivity. Qed.

Lemma private_routes_need_session_witness :
  (srv after_setup logout_req).1.2 = SignedOut ∧
  ∃ c l s, passed after_setup logout_req env c l s ∧ standing (sessionKey c) history.
Proof.
  assert ((srv after_setup logout_req).1.2 = SignedOut) as E1 by (vm_compute; reflexivity). split; [exact E1|].
  assert ((srv after_setup logout_req).2 = Some (HLogout, Some 0%nat)) as E2 by (vm_compute; reflexivity).
  destruct (private_routes_need_session map_to_list map_to_list 0 history after_setup logout_req env
    (srv after_setup logout_req).1.1 SignedOut HLogout (Some 0%nat)) as (c & l & s & _ & Hp & Hs); [done|exact demo_served| |reflexivity|].
  - rewrite <- E1, <- E2. unfold srv. by destruct (serve _ _ _ _ _) as [[? ?] ?].
  - exists c, l, s. split; [exact Hp|exact Hs].
Defined.

Lemma sessions_need_password_witness : ∃ sess,
  ((srv (newPanel 0) setup_req).2 = Some (HLogin, sess) ∧ IsSet (newPanel 0) = true ∧
     VerifyPanelPassword (newPanel 0) (PostFormValue setup_req "password") = Verified true ∧
     (allow map_to_list (limiter (newPanel 0)) (client setup_req) (allowAt env)).2.1 = true) ∨
  ((srv (newPanel 0) setup_req).2 = Some (HSetup, sess) ∧ IsSet (newPanel 0) = false ∧ checkFormToken setup_req = true).
Proof. exact (sessions_need_password map_to_list map_to_list (newPanel 0) setup_req env token (proj1 setup_signs_in)). Defined.

Lemma session_store_invariant_witness : store_ok (sessions after_setup).
Proof. exact (session_store_invariant map_to_list map_to_list 0 history after_setup (λ m, reflexivity _) demo_served). Defined.

Lemma chosen_password_verifies_witness :
  VerifyPanelPassword after_setup "correct horse" = Verified true.
Proof.
  refine (proj1 (chosen_password_verifies map_to_list map_to_list (newPanel 0) setup_req env _) token _); [by intros ? ?|].
  exact (proj1 setup_signs_in).
Defined.

Lemma newToken_injective_witness : replicate 32 1 = replicate 32 1.
Proof.
  apply (newToken_injective (replicate 32 1) (replicate 32 1) token);
    [done|done|by apply Forall_replicate|by apply Forall_replicate|vm_compute; reflexivity..].
Defined.

End Demo.
