(* ===== verification/Password.v ===== *)
(** * The panel password (internal/state/password.go)

    The PHC string a password is stored as, written and read, and its
    verification. Argon2id (golang.org/x/crypto/argon2, not part of the sources)
    is the parameter [IDKey]; what is relied on is that it returns as many bytes
    as it is asked for. The text of the errors is left out. *)

From S2P Require Import Prelude GoStrings Bytes Base64 Sha256 Auth.

Local Open Scope Z_scope.

Definition argonTime : Z := 3.
Definition argonMemory : Z := 64 * 1024.
Definition argonThreads : Z := 4.
Definition argonKeyLen : Z := 32.
Definition argonSaltLen : nat := 16.
Definition argonVersion : Z := 19.

Definition maxArgonMemory : Z := 1024 * 1024.
Definition maxArgonTime : Z := 16.
Definition maxArgonThreads : Z := 16.
Definition maxArgonKeyLen : nat := 64.
Definition maxArgonSaltLen : nat := 64.

Record hashParams := MkParams {
  ptime : Z;
  pmemory : Z;
  pthreads : Z;
  psalt : list Z;
  pkey : list Z
}.

Definition std64 (l : list Z) : string := String.string_of_list_ascii (b64_encode std_alphabet l).
Definition unstd64 (s : string) : option (list Z) := b64_decode std_alphabet (String.list_ascii_of_string s).

Definition encodeHash (p : hashParams) : string :=
  ("$argon2id$v=" ++ Itoa argonVersion ++ "$m=" ++ Itoa (pmemory p) ++ ",t=" ++ Itoa (ptime p) ++
   ",p=" ++ Itoa (pthreads p) ++ "$" ++ std64 (psalt p) ++ "$" ++ std64 (pkey p))%string.

(** strconv.ParseUint in base 10 up to [max]: digits only, at least one. *)
Definition digit (c : ascii) : option Z :=
  let n := Z.of_nat (nat_of_ascii c) in if (48 <=? n) && (n <=? 57) then Some (n - 48) else None.

Fixpoint parse_digits (acc : Z) (l : list ascii) : option Z :=
  match l with
  | [] => Some acc
  | c :: l => d ← digit c; parse_digits (10 * acc + d) l
  end.

Definition ParseUint (l : list ascii) (max : Z) : option Z :=
  match l with
  | [] => None
  | _ => n ← parse_digits 0 l; if n <=? max then Some n else None
  end.

(** strings.Cut at the first occurrence of [c]. *)
Fixpoint Cut (c : ascii) (l : list ascii) : option (list ascii * list ascii) :=
  match l with
  | [] => None
  | a :: l => if Ascii.eqb a c then Some ([], l) else r ← Cut c l; Some (a :: r.1, r.2)
  end.

Definition parseKV (field : string) (key : string) : option Z :=
  match Cut "=" (String.list_ascii_of_string field) with
  | None => None
  | Some (name, value) =>
      if negb (String.string_of_list_ascii name =? key)%string then None else ParseUint value (2 ^ 32 - 1)
  end.

(** [fmt.Sscanf(s, "v=%d", &version)]: the literal, blanks other than a line
    end, an optional sign, the longest run of digits, anything after it. *)
Fixpoint digit_run (l : list ascii) : list ascii :=
  match l with
  | c :: l => match digit c with Some _ => c :: digit_run l | None => [] end
  | [] => []
  end.

Definition blanks : list (list ascii) := List.filter (λ s, negb (bool_decide (s = ["010"%char]))) spaces.

Definition scan_version (s : string) : option Z :=
  match String.list_ascii_of_string s with
  | "v"%char :: "="%char :: l =>
      let l := strip_all (length l) blanks l in
      let '(neg, l) := match l with
                       | "+"%char :: l => (false, l)
                       | "-"%char :: l => (true, l)
                       | _ => (false, l)
                       end in
      n ← ParseUint (digit_run l) (if neg then 2 ^ 63 else 2 ^ 63 - 1);
      Some (if neg then - n else n)
  | _ => None
  end.

Definition in_range (n max : Z) : bool := negb (n =? 0) && (n <=? max).

Definition decodeHash (stored : string) : option hashParams :=
  match Split stored "$" with
  | [p0; p1; p2; p3; p4; p5] =>
      if negb (p0 =? "")%string then None
      else if negb (p1 =? "argon2id")%string then None
      else
        version ← scan_version p2;
        if negb (version =? argonVersion) then None
        else match Split p3 "," with
             | [f0; f1; f2] =>
                 memory ← parseKV f0 "m"; timeCost ← parseKV f1 "t"; threads ← parseKV f2 "p";
                 if negb (in_range memory maxArgonMemory) then None
                 else if negb (in_range timeCost maxArgonTime) then None
                 else if negb (in_range threads maxArgonThreads) then None
                 else
                   salt ← unstd64 p4; key ← unstd64 p5;
                   if (length salt =? 0)%nat || (maxArgonSaltLen <? length salt)%nat then None
                   else if (length key =? 0)%nat || (maxArgonKeyLen <? length key)%nat then None
                   else Some (MkParams timeCost memory threads salt key)
             | _ => None
             end
  | _ => None
  end.

Section Argon.
Context (IDKey : list Z → list Z → Z → Z → Z → Z → list Z).

(** [random]: the salt rand.Read delivers, or an error. *)
Definition hash_password (random : option (list Z)) (plaintext : string) : option string :=
  if (plaintext =? "")%string then None
  else
    salt ← random;
    let key := IDKey (bytes_of_string plaintext) salt argonTime argonMemory argonThreads argonKeyLen in
    Some (encodeHash (MkParams argonTime argonMemory argonThreads salt key)).

Definition verify_password (stored plaintext : string) : option bool :=
  p ← decodeHash stored;
  let got := IDKey (bytes_of_string plaintext) (psalt p) (ptime p) (pmemory p) (pthreads p)
               (Z.of_nat (length (pkey p))) in
  Some (bool_decide (got = pkey p)).

End Argon.

Example decode_demo :
  decodeHash "$argon2id$v=19$m=65536,t=3,p=4$AAAAAAAAAAAAAAAAAAAAAA$AQID" =
  Some (MkParams 3 65536 4 (replicate 16 0) [1; 2; 3]).
Proof. vm_compute. reflexivity. Qed.

Example encode_demo :
  encodeHash (MkParams 3 65536 4 (replicate 16 0) [1; 2; 3]) =
  "$argon2id$v=19$m=65536,t=3,p=4$AAAAAAAAAAAAAAAAAAAAAA$AQID"%string.
Proof. vm_compute. reflexivity. Qed.

(** * A stored password verifies

    The PHC string is read back as it was written, so a password that was set
    verifies, and the panel's interface to the hash ([PasswordHash]) is
    implemented by this component. *)

(** ** Strings as lists of characters *)

Abbreviation chars := String.list_ascii_of_string.

Lemma chars_app s t : chars (s ++ t)%string = chars s ++ chars t.
Proof. induction s as [|c s IH]; [done|]. rewrite append_cons. simpl. by rewrite IH. Qed.

Lemma chars_string l : chars (String.string_of_list_ascii l) = l.
Proof. apply String.list_ascii_of_string_of_list_ascii. Qed.

Lemma string_chars s : String.string_of_list_ascii (chars s) = s.
Proof. apply String.string_of_list_ascii_of_string. Qed.

Lemma split_none c l : c ∉ l → split_ascii c l = [l].
Proof.
  induction l as [|a l IH]; [done|]. intros [Hne Hl]%not_elem_of_cons. simpl.
  rewrite (proj2 (Ascii.eqb_neq a c)) by done. by rewrite IH.
Qed.

Lemma split_cons c l r : c ∉ l → split_ascii c (l ++ c :: r) = l :: split_ascii c r.
Proof.
  induction l as [|a l IH]; simpl; intros Hl; [by rewrite Ascii.eqb_refl|].
  apply not_elem_of_cons in Hl as [Hne Hl]. rewrite (proj2 (Ascii.eqb_neq a c)) by done. by rewrite IH.
Qed.

(** Splitting a joined text gives the parts back. *)
Lemma Split_cons (s t : string) c : c ∉ chars s → Split (s ++ String c t)%string c = s :: Split t c.
Proof.
  intros Hs. unfold Split. rewrite chars_app. simpl. rewrite split_cons by done. simpl. by rewrite string_chars.
Qed.

Lemma Split_none (s : string) c : c ∉ chars s → Split s c = [s].
Proof. intros Hs. unfold Split. rewrite split_none by done. simpl. by rewrite string_chars. Qed.

(** ** Decimal numbers *)

Definition is_dec (c : ascii) : bool := match digit c with Some _ => true | None => false end.

Lemma digit_of n : (n < 10)%N → digit (ascii_of_N (48 + n)) = Some (Z.of_N n).
Proof.
  intros Hn. assert (H : forallb (λ n, bool_decide (digit (ascii_of_N (48 + Z.to_N n)) = Some n)) (seqZ 0 10) = true)
    by (vm_compute; reflexivity).
  rewrite forallb_forall in H. specialize (H (Z.of_N n)). rewrite <- list_elem_of_In, elem_of_seqZ in H.
  specialize (H ltac:(lia)). breflect. by rewrite N2Z.id in H.
Qed.

Lemma parse_digits_fuel fuel n acc :
  (n < 10 ^ N.of_nat fuel)%N →
  parse_digits 0 (chars (digits_fuel fuel n acc)) = parse_digits (Z.of_N n) (chars acc).
Proof.
  revert n acc. induction fuel as [|f IH]; intros n acc Hn; cbn [digits_fuel].
  { assert (n = 0)%N as -> by (simpl in Hn; lia). done. }
  rewrite Nat2N.inj_succ, N.pow_succ_r' in Hn. pose proof (N.Div0.div_mod n 10) as Hdm.
  assert (n mod 10 < 10)%N by (apply N.mod_lt; lia).
  destruct (n / 10 =? 0)%N eqn:E.
  - apply N.eqb_eq in E. cbn [String.list_ascii_of_string parse_digits]. rewrite digit_of by done.
    cbn [mbind option_bind]. f_equal. lia.
  - rewrite IH by (apply N.Div0.div_lt_upper_bound; lia). cbn [String.list_ascii_of_string parse_digits]. rewrite digit_of by done.
    cbn [mbind option_bind]. f_equal. lia.
Qed.

Lemma digits_fuel_dec fuel n acc :
  Forall (λ c, is_dec c = true) (chars acc) → Forall (λ c, is_dec c = true) (chars (digits_fuel fuel n acc)).
Proof.
  revert n acc. induction fuel as [|f IH]; intros n acc Ha; cbn [digits_fuel]; [done|].
  assert (n mod 10 < 10)%N by (apply N.mod_lt; lia).
  assert (Hd : Forall (λ c, is_dec c = true) (chars (String (ascii_of_N (48 + n mod 10)) acc))).
  { constructor; [|done]. unfold is_dec. by rewrite digit_of. }
  destruct (_ =? 0)%N; auto.
Qed.

Lemma digits_fuel_nonempty fuel n acc : chars (digits_fuel (S fuel) n acc) ≠ [].
Proof.
  assert (H : ∀ f m a, chars a ≠ [] → chars (digits_fuel f m a) ≠ []).
  { induction f as [|f IH]; intros m a Ha; cbn [digits_fuel]; [done|]. destruct (_ =? 0)%N; [done|]. by apply IH. }
  cbn [digits_fuel]. destruct (_ =? 0)%N; [done|]. by apply H.
Qed.

Lemma Itoa_digits z :
  0 ≤ z → Forall (λ c, is_dec c = true) (chars (Itoa z)) ∧ chars (Itoa z) ≠ [] ∧ parse_digits 0 (chars (Itoa z)) = Some z.
Proof.
  intros Hz. unfold Itoa. rewrite (proj2 (Z.ltb_ge _ _)) by done.
  split; [by apply digits_fuel_dec|]. split; [apply digits_fuel_nonempty|].
  rewrite parse_digits_fuel; [simpl; f_equal; lia|].
  set (n := Z.abs_N z). destruct (decide (n = 0%N)) as [->|Hn]; [done|].
  apply N.lt_le_trans with (2 ^ N.succ (N.log2 n))%N; [apply N.log2_spec; lia|].
  rewrite Nat2N.inj_succ, N2Nat.id. apply N.pow_le_mono_l. lia.
Qed.

Lemma ParseUint_Itoa z max : 0 ≤ z ≤ max → ParseUint (chars (Itoa z)) max = Some z.
Proof.
  intros Hz. destruct (Itoa_digits z) as (_ & Hne & Hp); [lia|]. unfold ParseUint.
  destruct (chars (Itoa z)) as [|c l]; [done|]. rewrite Hp. simpl. by rewrite (proj2 (Z.leb_le _ _)) by lia.
Qed.

Lemma Itoa_no z c : 0 ≤ z → is_dec c = false → c ∉ chars (Itoa z).
Proof.
  intros Hz Hc Hin. destruct (Itoa_digits z Hz) as (HF & _). rewrite Forall_forall in HF. specialize (HF c Hin). congruence.
Qed.

Lemma Cut_app c l r : c ∉ l → Cut c (l ++ c :: r) = Some (l, r).
Proof.
  induction l as [|a l IH]; simpl; intros Hl; [by rewrite Ascii.eqb_refl|].
  apply not_elem_of_cons in Hl as [Hne Hl]. rewrite (proj2 (Ascii.eqb_neq a c)) by done. by rewrite IH.
Qed.

Lemma parseKV_Itoa (k : ascii) z :
  k ≠ "="%char → 0 ≤ z < 2 ^ 32 → parseKV (String k (String "=" (Itoa z))) (String k "") = Some z.
Proof.
  intros Hk Hz. unfold parseKV.
  change (chars (String k (String "=" (Itoa z)))) with ([k] ++ "="%char :: chars (Itoa z)).
  rewrite Cut_app by (rewrite list_elem_of_singleton; congruence).
  cbn [String.string_of_list_ascii]. rewrite String.eqb_refl. cbn [negb]. apply ParseUint_Itoa. lia.
Qed.

(** ** base64 text *)

Lemma std64_no l c : bytes_ok l → forallb (λ n, negb (Ascii.eqb (b64_char std_alphabet n) c)) (seqZ 0 64) = true →
  c ∉ chars (std64 l).
Proof.
  intros Hl Hc Hin. unfold std64 in Hin. rewrite chars_string in Hin.
  apply b64_encode_chars in Hin as (n & Hn & ->); [|done].
  rewrite forallb_forall in Hc. specialize (Hc n). rewrite <- list_elem_of_In, elem_of_seqZ in Hc.
  specialize (Hc ltac:(lia)). by rewrite Ascii.eqb_refl in Hc.
Qed.

Lemma unstd64_std64 l : bytes_ok l → unstd64 (std64 l) = Some l.
Proof. intros Hl. unfold unstd64, std64. rewrite chars_string. by apply std_decode_encode. Qed.

(** ** The PHC string *)

Record params_ok (p : hashParams) : Prop := {
  po_time : 0 < ptime p ≤ maxArgonTime;
  po_memory : 0 < pmemory p ≤ maxArgonMemory;
  po_threads : 0 < pthreads p ≤ maxArgonThreads;
  po_salt : (0 < length (psalt p) ≤ maxArgonSaltLen)%nat ∧ bytes_ok (psalt p);
  po_key : (0 < length (pkey p) ≤ maxArgonKeyLen)%nat ∧ bytes_ok (pkey p)
}.

Ltac not_in := match goal with |- ?c ∉ ?l => refine (bool_decide_eq_false_1 (c ∈ l) _); vm_compute; reflexivity end.

Lemma encodeHash_split p : params_ok p →
  Split (encodeHash p) "$" =
  [""; "argon2id"; "v=19"; "m=" ++ Itoa (pmemory p) ++ ",t=" ++ Itoa (ptime p) ++ ",p=" ++ Itoa (pthreads p);
   std64 (psalt p); std64 (pkey p)]%string.
Proof.
  intros [Ht Hm Hp [_ Hs] [_ Hk]]. set (mid := ("m=" ++ _)%string).
  assert (E : encodeHash p = ("" ++ String "$" ("argon2id" ++ String "$" ("v=19" ++ String "$" (mid ++ String "$"
      (std64 (psalt p) ++ String "$" (std64 (pkey p)))))))%string).
  { unfold encodeHash, mid. rewrite !append_assoc. reflexivity. }
  rewrite E. rewrite !Split_cons.
  - rewrite Split_none; [done|]. by apply std64_no.
  - by apply std64_no.
  - unfold mid. rewrite !chars_app, !not_elem_of_app. split_and!;
      try (apply Itoa_no; [lia|reflexivity]); not_in.
  - not_in.
  - not_in.
  - apply not_elem_of_nil.
Qed.

Lemma params_split p : params_ok p →
  Split ("m=" ++ Itoa (pmemory p) ++ ",t=" ++ Itoa (ptime p) ++ ",p=" ++ Itoa (pthreads p))%string "," =
  [String "m" (String "=" (Itoa (pmemory p))); String "t" (String "=" (Itoa (ptime p)));
   String "p" (String "=" (Itoa (pthreads p)))]%string.
Proof.
  intros [Ht Hm Hp _ _].
  assert (E : ("m=" ++ Itoa (pmemory p) ++ ",t=" ++ Itoa (ptime p) ++ ",p=" ++ Itoa (pthreads p))%string =
    (String "m" (String "=" (Itoa (pmemory p))) ++ String "," (String "t" (String "=" (Itoa (ptime p))) ++
       String "," (String "p" (String "=" (Itoa (pthreads p))))))%string) by reflexivity.
  assert (Hno : ∀ k z, k ≠ ","%char → 0 ≤ z → ","%char ∉ chars (String k (String "=" (Itoa z)))).
  { intros k z Hk Hz. cbn [String.list_ascii_of_string]. rewrite !not_elem_of_cons.
    split_and!; [congruence|done|by apply Itoa_no]. }
  rewrite E, !Split_cons, Split_none; [done|..]; (apply Hno; [done|lia]).
Qed.

Lemma in_range_ok n max : 0 < n ≤ max → in_range n max = true.
Proof. intros Hn. unfold in_range. rewrite (proj2 (Z.eqb_neq _ _)), (proj2 (Z.leb_le _ _)) by lia. done. Qed.

Lemma decode_encode p : params_ok p → decodeHash (encodeHash p) = Some p.
Proof.
  intros Hp. pose proof (params_split p Hp) as Hps. unfold decodeHash. rewrite (encodeHash_split p Hp).
  destruct Hp as [Ht Hm Ht2 [Hs1 Hs2] [Hk1 Hk2]]. unfold maxArgonTime, maxArgonMemory, maxArgonThreads in *.
  change (negb ("" =? "")%string) with false. change (negb ("argon2id" =? "argon2id")%string) with false.
  change (scan_version "v=19") with (Some 19). cbn [mbind option_bind]. change (negb (19 =? argonVersion)) with false.
  cbv iota. rewrite Hps. rewrite !parseKV_Itoa by (done || lia). cbn [mbind option_bind].
  rewrite !in_range_ok by (unfold maxArgonTime, maxArgonMemory, maxArgonThreads; lia). cbn [negb].
  rewrite !unstd64_std64 by done. cbn [mbind option_bind].
  rewrite !(proj2 (Nat.eqb_neq _ _)), !(proj2 (Nat.ltb_ge _ _)) by lia. by destruct p.
Qed.

(** The stored form of a password reads back exactly: for parameters within
    the accepted ranges, decodeHash inverts encodeHash. *)
Theorem decodeHash_encodeHash p : params_ok p → decodeHash (encodeHash p) = Some p.
Proof. apply decode_encode. Qed.

(** ** The interface of the panel is implemented *)

Section Argon.
Context (IDKey : list Z → list Z → Z → Z → Z → Z → list Z).
Context (IDKey_bytes : ∀ pw salt t m p n,
  0 < n → Z.of_nat (length (IDKey pw salt t m p n)) = n ∧ bytes_ok (IDKey pw salt t m p n)).

Lemma made_params_ok salt pw :
  length salt = 16%nat → bytes_ok salt →
  params_ok (MkParams argonTime argonMemory argonThreads salt (IDKey pw salt argonTime argonMemory argonThreads argonKeyLen)).
Proof.
  intros Hl Hb. destruct (IDKey_bytes pw salt argonTime argonMemory argonThreads argonKeyLen) as [Hk Hkb]; [done|].
  unfold argonKeyLen in *. split; cbn [ptime pmemory pthreads psalt pkey]; try done.
  - unfold maxArgonSaltLen. split; [lia|done].
  - unfold maxArgonKeyLen. split; [lia|done].
Qed.

(** What verification computes for a hash this build made. *)
Lemma verify_made r pw h pw' :
  salt_ok r → hash_password IDKey r pw = Some h →
  ∃ salt, r = Some salt ∧ verify_password IDKey h pw' =
    Some (bool_decide (IDKey (bytes_of_string pw') salt argonTime argonMemory argonThreads argonKeyLen =
                       IDKey (bytes_of_string pw) salt argonTime argonMemory argonThreads argonKeyLen)).
Proof.
  intros Hr. unfold hash_password. destruct (pw =? "")%string; [done|]. destruct r as [salt|]; [|done].
  destruct (Hr salt eq_refl) as [Hl Hb]. cbn [mbind option_bind]. intros [= <-]. exists salt. split; [done|].
  unfold verify_password. rewrite decode_encode by (by apply made_params_ok). cbn [mbind option_bind].
  cbn [ptime pmemory pthreads psalt pkey]. destruct (IDKey_bytes (bytes_of_string pw) salt argonTime argonMemory argonThreads argonKeyLen) as [-> _]; done.
Qed.

Lemma made_nonempty r pw h : hash_password IDKey r pw = Some h → h ≠ ""%string.
Proof.
  unfold hash_password. destruct (pw =? "")%string; [done|]. destruct r; [|done]. by intros [= <-].
Qed.

Lemma made_verifies r pw h : salt_ok r → hash_password IDKey r pw = Some h → verify_password IDKey h pw = Some true.
Proof.
  intros Hr Hh. destruct (verify_made r pw h pw Hr Hh) as (salt & _ & ->). f_equal. by apply bool_decide_eq_true.
Qed.

Definition argon_hash : PasswordHash := {|
  hashPassword := hash_password IDKey;
  verifyPassword := verify_password IDKey;
  hash_nonempty := made_nonempty;
  verify_hash := made_verifies
|}.

End Argon.

(** Verification never reports an unreadable hash for a password this build
    stored, accepts the password itself, and accepts another one only if
    Argon2id maps both to the same key under that salt. *)
Theorem verifyPassword_exact IDKey r pw h pw' :
  (∀ pw salt t m p n, 0 < n →
     Z.of_nat (length (IDKey pw salt t m p n)) = n ∧ bytes_ok (IDKey pw salt t m p n)) →
  salt_ok r → hash_password IDKey r pw = Some h →
  verify_password IDKey h pw = Some true ∧
  ∃ salt, r = Some salt ∧
    (verify_password IDKey h pw' = Some true ↔
     IDKey (bytes_of_string pw') salt argonTime argonMemory argonThreads argonKeyLen =
     IDKey (bytes_of_string pw) salt argonTime argonMemory argonThreads argonKeyLen).
Proof.
  intros HK Hr Hh. split; [by apply (made_verifies IDKey HK r)|].
  destruct (verify_made IDKey HK r pw h pw' Hr Hh) as (salt & -> & ->). exists salt. split; [done|].
  split; [intros [= E]; by apply bool_decide_eq_true in E|]. intros E. f_equal. by apply bool_decide_eq_true.
Qed.

(** ** A key derivation used by the witnesses: the length of the password, repeated *)

Definition length_key (pw _ : list Z) (_ _ _ n : Z) : list Z := replicate (Z.to_nat n) (Z.of_nat (length pw) mod 256).

Lemma length_key_bytes pw salt t m p n :
  0 < n → Z.of_nat (length (length_key pw salt t m p n)) = n ∧ bytes_ok (length_key pw salt t m p n).
Proof.
  intros Hn. unfold length_key. rewrite length_replicate. split; [lia|].
  apply Forall_replicate. apply u8_bounds.
Qed.

Lemma decodeHash_encodeHash_witness :
  decodeHash (encodeHash (MkParams 3 65536 4 (replicate 16 7) [1; 2; 3])) = Some (MkParams 3 65536 4 (replicate 16 7) [1; 2; 3]).
Proof.
  apply decodeHash_encodeHash. split; cbn [ptime pmemory pthreads psalt pkey]; try done.
  - split; [simpl; unfold maxArgonSaltLen; lia|by apply Forall_replicate].
  - split; [simpl; unfold maxArgonKeyLen; lia|repeat constructor; done].
Defined.

Lemma verifyPassword_exact_witness :
  ∃ h, hash_password length_key (Some (replicate 16 7)) "correct horse" = Some h ∧
       verify_password length_key h "correct horse" = Some true.
Proof.
  eexists. split; [reflexivity|].
  refine (proj1 (verifyPassword_exact length_key (Some (replicate 16 7)) "correct horse" _ "" length_key_bytes _ _)); [|reflexivity].
  intros s [= <-]. split; [done|repeat (constructor; [done|]); constructor].
Defined.
