(* ===== verification/Desktop.v ===== *)
(** * The machine on macOS and on Windows (internal/netcfg/darwinnet_detect.go,
    darwinnet_proxy_detect.go, darwinnet_steps.go, winnet.go, winversion.go)

    The same facts the Linux detection fills, read with the tools of a Mac and
    from the inventory of the Windows IP Helper API, and the readbacks of the
    two. The planner runs unchanged on them: a hotspot on a Mac is on a built-in
    radio that is not the uplink. *)

From S2P Require Import Prelude GoStrings Netip Text Json JsonFacts JsonStruct Facts Command Parse Subnet Plan PlanFacts Nft Steps.
From S2P Require Import Detect DetectFacts.
From S2P Require Regex Password.

Local Open Scope Z_scope.

(** ** macOS (darwinnet_detect.go, darwinnet_proxy_detect.go) *)

Record HardwarePort := MkPort { hp_Port : string; Device : string }.

Definition IsWiFi (h : HardwarePort) : bool :=
  (hp_Port h =? "Wi-Fi")%string || (hp_Port h =? "AirPort")%string || HasPrefix (hp_Port h) "Wi-Fi " || HasPrefix (hp_Port h) "USB Wi-Fi".
Definition IsBuiltInWiFi (h : HardwarePort) : bool := (hp_Port h =? "Wi-Fi")%string || (hp_Port h =? "AirPort")%string.

(** The ports are kept newest first: the one being filled in is the head. *)
Definition port_line (ports : list HardwarePort) (raw : string) : list HardwarePort :=
  let line := TrimSpace raw in
  if HasPrefix line "Hardware Port: " then MkPort (TrimPrefix line "Hardware Port: ") "" :: ports
  else match ports with
       | cur :: rest => if HasPrefix line "Device: " then MkPort (hp_Port cur) (TrimPrefix line "Device: ") :: rest else ports
       | [] => ports
       end.
Definition ParseHardwarePorts (out : string) : list HardwarePort := rev (foldl port_line [] (lines_of out)).

(** The name and whether it is joined; [None] is any other wording. *)
Definition airport_line (raw : string) : option (string * bool) :=
  let line := TrimSpace raw in
  if HasPrefix line "Current Wi-Fi Network: " then Some (TrimPrefix line "Current Wi-Fi Network: ", true)
  else if HasPrefix line "You are not associated with" then Some (""%string, false)
  else None.
Definition ParseAirportNetwork (out : string) : option (string * bool) := head (omap airport_line (lines_of out)).

(** A zone is cut off unless the percent sign comes first. *)
Definition cut_zone (v : string) : string :=
  match IndexByte v "%" with Some (S i) => substr_to v (S i) | _ => v end.

Definition no_route : DefaultRoute := MkRoute 0 NoAddr "" NoAddr "" 0 false false.
Definition route_get_line (dr : DefaultRoute) (raw : string) : DefaultRoute :=
  match Cut raw ":" with
  | None => dr
  | Some (k, v) =>
      let k := TrimSpace k in
      let v := TrimSpace v in
      if (k =? "gateway")%string then
        match ParseAddr (cut_zone v) with
        | Some a => MkRoute (Family dr) a (Dev dr) (Src dr) (Proto dr) (Metric dr) (LinkDown dr) (OnLink dr)
        | None => dr
        end
      else if (k =? "interface")%string then
        MkRoute (Family dr) (r_gateway dr) v (Src dr) (Proto dr) (Metric dr) (LinkDown dr) (OnLink dr)
      else dr
  end.
Definition ParseRouteGet (out : string) : option DefaultRoute :=
  let dr := foldl route_get_line no_route (lines_of out) in
  if (Dev dr =? "")%string then None else Some dr.

Definition pf_line (raw : string) : option bool :=
  let line := TrimSpace raw in
  if HasPrefix line "Status: " then
    let rest := TrimPrefix line "Status: " in
    if HasPrefix rest "Enabled" then Some true else if HasPrefix rest "Disabled" then Some false else None
  else None.
Definition ParsePfStatus (out : string) : option bool := head (omap pf_line (lines_of out)).

(** *** ifconfig *)

(** strconv.ParseUint(s, 16, 32) *)
Definition ParseHex32 (s : string) : option Z :=
  match to_l s with
  | [] => None
  | l => ds ← mapM hex_value l; let v := foldl (λ v d, 16 * v + d) 0 ds in if v <? 2 ^ 32 then Some v else None
  end.

(** The leading ones of a 32-bit mask, one per turn. *)
Fixpoint mask_loop (n : nat) (m bits : Z) : Z * Z :=
  match n with
  | O => (m, bits)
  | S n => if Z.land m 0x80000000 =? 0 then (m, bits) else mask_loop n (Z.shiftl m 1 mod 2 ^ 32) (bits + 1)
  end.
Definition maskBits (hex : string) : option Z :=
  match ParseHex32 (TrimPrefix (ToLower hex) "0x") with
  | None => None
  | Some v => let '(m, bits) := mask_loop 32 v 0 in if m =? 0 then Some bits else None
  end.

(** A name, a colon, the flags in hexadecimal and, in angle brackets, their names;
    what is left where the name ends and where the names begin is recorded. *)
Definition name_char (c : ascii) : bool := Regex.letter c || Regex.digit c || Ascii.eqb c "." || Ascii.eqb c "_" || Ascii.eqb c "-".
Definition hex_char_class (c : ascii) : bool := Regex.digit c || Regex.in_range "a" "f" c || Regex.in_range "A" "F" c.
Definition flag_char (c : ascii) : bool := Regex.in_range "A" "Z" c || Regex.digit c || Ascii.eqb c "_" || Ascii.eqb c ",".
Fixpoint chars (l : list ascii) (r : Regex.re) : Regex.re :=
  match l with [] => r | c :: l => Regex.Cat (Regex.Cls (Ascii.eqb c)) (chars l r) end.
Definition ifconfigHeader : Regex.re :=
  Regex.Cat (Regex.Cls name_char) (Regex.Cat (Regex.Star name_char) (Regex.Cat Regex.Open (chars (to_l ": flags=")
    (Regex.Cat (Regex.Cls hex_char_class) (Regex.Cat (Regex.Star hex_char_class) (Regex.Cat (Regex.Cls (Ascii.eqb "<"))
      (Regex.Cat Regex.Open (Regex.Cat (Regex.Star flag_char) (Regex.Cls (Ascii.eqb ">")))))))))).

Definition header_of (raw : string) : option (string * string) :=
  match Regex.match_here ifconfigHeader None (to_l raw) with
  | Some ([flags; name_end], rest) =>
      Some (of_l (take (List.length (to_l raw) - List.length name_end) (to_l raw)),
            of_l (take (List.length flags - List.length rest - 1) flags))
  | _ => None
  end.

(** The last value that follows the word, of the fields after the address. *)
Fixpoint after_word {A} (word : string) (f : string → option A) (fields : list string) (acc : A) : A :=
  match fields with
  | w :: ((v :: _) as rest) => after_word word f rest (if (w =? word)%string then default acc (f v) else acc)
  | _ => acc
  end.

Definition address_of (fields : list string) : option Prefix :=
  match fields with
  | f0 :: f1 :: rest =>
      if (f0 =? "inet")%string then addr ← ParseAddr f1; Some (PrefixFrom addr (after_word "netmask" maskBits rest 32))
      else if (f0 =? "inet6")%string then addr ← ParseAddr (cut_zone f1); Some (PrefixFrom addr (after_word "prefixlen" Atoi rest 128))
      else None
  | _ => None
  end.

Definition ifconfig_line (links : list Link) (raw : string) : list Link :=
  match header_of raw with
  | Some (name, flags) =>
      MkLink name (if existsb (λ f, (f =? "UP")%string) (Split flags ",") then "UP" else "DOWN") [] "" :: links
  | None =>
      match links with
      | [] => links
      | cur :: rest =>
          match address_of (Fields raw) with
          | Some p => MkLink (l_name cur) (l_state cur) (l_prefixes cur ++ [p])%list (l_bus cur) :: rest
          | None => links
          end
      end
  end.
Definition ParseIfconfig (out : string) : list Link := rev (foldl ifconfig_line [] (lines_of out)).

(** *** The radio *)

Definition darwinPhyName (device : string) : string := ("radio-" ++ device)%string.
Definition darwinPhy (name : string) (apCapable : bool) : Phy :=
  let freq mhz ch := MkFreq mhz ch 0 false false false in
  MkPhy name 0 (if apCapable then ["managed"; "AP"] else ["managed"])%string [] []
    [MkBand 1 ((λ i, let ch := Z.of_nat i in freq (2407 + 5 * ch) ch) <$> seq 1 11);
     MkBand 2 ((λ ch, freq (5000 + 5 * ch) ch) <$> [36; 40; 44; 48; 149; 153; 157; 161])].

(** *** The proxy settings *)

Definition service_line (raw : string) : option string :=
  let line := TrimSpace raw in
  if (line =? "")%string || HasPrefix line "*" || Contains (ToLower line) "asterisk" then None else Some line.
Definition ParseNetworkServices (out : string) : list string := omap service_line (lines_of out).

Definition parseNetworksetupBool (value : string) : option bool :=
  let v := ToLower (TrimSpace value) in
  if existsb (String.eqb v) ["yes"; "on"; "1"]%string then Some true
  else if existsb (String.eqb v) ["no"; "off"; "0"]%string then Some false
  else None.

(** The loop of ParseSystemSOCKSState: the state so far and the keys seen. *)
Fixpoint socks_lines (ls : list string) (st : SystemSOCKSState) (seen : list string) : option (SystemSOCKSState * list string) :=
  match ls with
  | [] => Some (st, seen)
  | raw :: ls =>
      match Cut raw ":" with
      | None => socks_lines ls st seen
      | Some (key, value) =>
          let key := ToLower (TrimSpace key) in
          let value := TrimSpace value in
          if (key =? "enabled")%string then
            match parseNetworksetupBool value with
            | None => None
            | Some b => socks_lines ls (MkSOCKS (Service st) b (Server st) (s_port st) (Authenticated st) (BypassDomains st)) (key :: seen)
            end
          else if (key =? "server")%string then
            socks_lines ls (MkSOCKS (Service st) (s_enabled st) value (s_port st) (Authenticated st) (BypassDomains st)) (key :: seen)
          else if (key =? "port")%string then
            match Password.ParseUint (to_l value) (2 ^ 16 - 1) with
            | None => None
            | Some port => socks_lines ls (MkSOCKS (Service st) (s_enabled st) (Server st) port (Authenticated st) (BypassDomains st)) (key :: seen)
            end
          else if (key =? "authenticated proxy enabled")%string then
            match parseNetworksetupBool value with
            | None => None
            | Some b => socks_lines ls (MkSOCKS (Service st) (s_enabled st) (Server st) (s_port st) b (BypassDomains st)) (key :: seen)
            end
          else socks_lines ls st seen
      end
  end.
Definition socks_keys : list string := ["enabled"; "server"; "port"; "authenticated proxy enabled"]%string.
Definition ParseSystemSOCKSState (service out : string) : option SystemSOCKSState :=
  match socks_lines (lines_of out) (MkSOCKS service false "" 0 false []) [] with
  | Some (st, seen) => if forallb (λ k, existsb (String.eqb k) seen) socks_keys then Some st else None
  | None => None
  end.

Definition ParseProxyBypassDomains (out : string) : option (list string) :=
  let trimmed := TrimSpace out in
  if (trimmed =? "")%string then None
  else if Contains (ToLower trimmed) "aren't any bypass domains" then Some []
  else match omap (λ raw, let d := TrimSpace raw in if (d =? "")%string then None else Some d) (lines_of trimmed) with
       | [] => None
       | l => Some l
       end.

Section Darwin.
Context {K : Type} `{Runner K}.

Definition c_ifconfig := MkCommand BinIfconfig ["-a"] ""
  "interfaces and the addresses on them, which a hotspot subnet must not collide with".
Definition c_route_get := MkCommand BinRoute ["-n"; "get"; "default"] ""
  "the uplink is whichever interface carries the default route".
Definition c_route_get6 := MkCommand BinRoute ["-n"; "get"; "-inet6"; "default"] ""
  "an IPv6 server address needs an IPv6 gateway to pin a host route through".
Definition c_ports := MkCommand BinNetworksetup ["-listallhardwareports"] ""
  "which interface is the Wi-Fi radio; on a Mac only the built-in radio can host the access point".
Definition c_airport (dev : string) := MkCommand BinNetworksetup ["-getairportnetwork"; dev] ""
  "whether the radio is joined to a network, asked directly rather than inferred".
Definition c_pf := MkCommand BinPfctl ["-s"; "info"] ""
  "whether pf is enabled; an anchor loaded into a disabled pf enforces nothing".
Definition c_services := MkCommand BinNetworksetup ["-listallnetworkservices"] ""
  "the enabled macOS network services whose proxy settings must be preserved".
Definition c_socks (service : string) := MkCommand BinNetworksetup ["-getsocksfirewallproxy"; service] ""
  "read the SOCKS proxy endpoint and state to restore on teardown".
Definition c_bypass (service : string) := MkCommand BinNetworksetup ["-getproxybypassdomains"; service] ""
  "read the proxy bypass domains to restore on teardown".

Definition as_usb (dev : string) (l : Link) : Link :=
  if (l_name l =? dev)%string then MkLink (l_name l) (l_state l) (l_prefixes l) "usb" else l.

(** The loop over the hardware ports. *)
Fixpoint read_ports (ports : list HardwarePort) (links : list Link) (ws : list WirelessIface) (phys : list Phy) (k : K) :
    list Link * list WirelessIface * list Phy * K :=
  match ports with
  | [] => (links, ws, phys, k)
  | hp :: ports =>
      if (Device hp =? "")%string then read_ports ports links ws phys k
      else
        let links := if HasPrefix (hp_Port hp) "USB " then as_usb (Device hp) <$> links else links in
        if negb (IsWiFi hp) then read_ports ports links ws phys k
        else
          let '(joined, k) := optional (c_airport (Device hp)) None ParseAirportNetwork k in
          let w := match joined with
                   | Some (ssid, associated) =>
                       MkWireless (Device hp) (darwinPhyName (Device hp)) "managed" ssid 0 0 "" ManagedByNothing associated true
                   | None => MkWireless (Device hp) (darwinPhyName (Device hp)) "managed" "" 0 0 "" ManagedByNothing false false
                   end in
          read_ports ports links (ws ++ [w])%list (phys ++ [darwinPhy (darwinPhyName (Device hp)) (IsBuiltInWiFi hp)])%list k
  end.

(** The loop of darwinDetectSystemSOCKS; a reading that fails ends it. *)
Fixpoint read_socks (services : list string) (k : K) : option (list SystemSOCKSState) * K :=
  match services with
  | [] => (Some [], k)
  | service :: services =>
      let '(st, k) := optional (c_socks service) None (ParseSystemSOCKSState service) k in
      match st with
      | None => (None, k)
      | Some st =>
          let '(domains, k) := optional (c_bypass service) None ParseProxyBypassDomains k in
          match domains with
          | None => (None, k)
          | Some domains =>
              let st := MkSOCKS (Service st) (s_enabled st) (Server st) (s_port st) (Authenticated st) domains in
              let '(rest, k) := read_socks services k in
              (match rest with Some l => Some (st :: l) | None => None end, k)
          end
      end
  end.

Definition darwinDetectSystemSOCKS (k : K) : option (list SystemSOCKSState) * K :=
  let '(services, k) := optional c_services None (λ out, Some (ParseNetworkServices out)) k in
  match services with
  | None => (None, k)
  | Some services => read_socks services k
  end.

Definition default_of (family : Z) (c : Command) (k : K) : list DefaultRoute * K :=
  optional c [] (λ out, match ParseRouteGet out with Some dr => [set_family family dr] | None => [] end) k.

Definition darwinDetect (knobs : list string) (now : Z) (k : K) : res detect_error Facts * K :=
  let '((r, err), k) := Run c_ifconfig k in
  match err with
  | Some e => (Err (DEList e), k)
  | None =>
      let links := ParseIfconfig (Stdout r) in
      let '(v4, k) := default_of 4 c_route_get k in
      let '(v6, k) := default_of 6 c_route_get6 k in
      let '((r, err), k) := Run c_ports k in
      match err with
      | Some e => (Err (DEPorts e), k)
      | None =>
          let '(links, ws, phys, k) := read_ports (ParseHardwarePorts (Stdout r)) links [] [] k in
          let '(vals, k) := match knobs with
                            | [] => (∅, k)
                            | _ => optional (c_sysctl knobs) ∅ ParseSysctl k
                            end in
          let '(pf, k) := optional c_pf None ParsePfStatus k in
          let vals := match pf with
                      | Some enabled => <[darwinPfStatusKnob := if enabled then "1" else "0"]> vals
                      | None => vals
                      end%string in
          let '(socks, k) := darwinDetectSystemSOCKS k in
          (Ok (MkFacts links (v4 ++ v6)%list ws phys (default [] socks) (match socks with Some _ => true | None => false end)
                 false vals now), k)
      end
  end.

(** *** Readbacks: the bridge of Internet Sharing *)

Definition darwinReadLink (name : string) (k : K) : res verify_error (option Link) * K :=
  let '((r, err), k) := Run (MkCommand BinIfconfig [name] ""
    "read back what the interface actually is, rather than trusting that a command to change it succeeded") k in
  (match err with
   | Some e => if Contains (ToLower (Stderr r)) "does not exist" then Ok None else Err (VERun e)
   | None => Ok (List.find (λ l, (l_name l =? name)%string) (ParseIfconfig (Stdout r)))
   end, k).

Definition darwinAssertHotspotInterfaceReleased (p : Plan) (k : K) : res verify_error unit * K :=
  if (Hotspot (hot p) =? "")%string then (Err VENothing, k)
  else
    let '(link, k) := darwinReadLink darwinSharingBridge k in
    (match link with
     | Err e => Err e
     | Ok None => Ok tt
     | Ok (Some link) => if forallb (harmless (HotspotSubnet p)) (l_prefixes link) then Ok tt else Err ErrHotspotNotReleased
     end, k).

Definition darwinAssertHotspotIsAccessPoint (p : Plan) (ssid : string) (k : K) : res verify_error unit * K :=
  if (Hotspot (hot p) =? "")%string then (Err VENothing, k)
  else
    let '(link, k) := darwinReadLink darwinSharingBridge k in
    (match link with
     | Err e => Err e
     | Ok None => Err ErrNotAccessPoint
     | Ok (Some link) =>
         if negb (l_state link =? "UP")%string then Err ErrNotAccessPoint
         else if existsb (λ a, bool_decide (p_addr a = HotspotGateway p)) (l_prefixes link) then Ok tt
         else Err ErrNotAccessPoint
     end, k).
End Darwin.

(** ** Windows (winnet.go) *)

Record WindowsAdapter := MkAdapter {
  Alias : string;
  a_Index : Z;
  a_Type : string;
  a_Up : bool;
  a_USB : bool;
  WiFiDirect : bool;
  Prefixes : list string;
  Forwarding : bool
}.
Record WindowsDefaultRoute := MkDefault {
  d_Alias : string;
  d_Gateway : string;
  d_Metric : Z;
  d_Family : Z;
  d_Up : bool
}.
Record WindowsInventory := MkInventory { Adapters : list WindowsAdapter; Defaults : list WindowsDefaultRoute }.

Definition retainPresentAdapters (present : Z → bool) (inv : WindowsInventory) : WindowsInventory :=
  MkInventory (List.filter (λ a, present (a_Index a)) (Adapters inv)) (Defaults inv).

Definition no_adapter : WindowsAdapter := MkAdapter "" 0 "" false false false [] false.
Definition no_default : WindowsDefaultRoute := MkDefault "" "" 0 0 false.

(** omitempty *)
Definition is_false (b : bool) : bool := negb b.

Definition adapter_fields : list (Field WindowsAdapter) := [
  field "alias" string_codec never Alias
    (λ x a, MkAdapter x (a_Index a) (a_Type a) (a_Up a) (a_USB a) (WiFiDirect a) (Prefixes a) (Forwarding a));
  field "index" int_codec never a_Index
    (λ x a, MkAdapter (Alias a) x (a_Type a) (a_Up a) (a_USB a) (WiFiDirect a) (Prefixes a) (Forwarding a));
  field "type" string_codec never a_Type
    (λ x a, MkAdapter (Alias a) (a_Index a) x (a_Up a) (a_USB a) (WiFiDirect a) (Prefixes a) (Forwarding a));
  field "up" bool_codec never a_Up
    (λ x a, MkAdapter (Alias a) (a_Index a) (a_Type a) x (a_USB a) (WiFiDirect a) (Prefixes a) (Forwarding a));
  field "usb" bool_codec is_false a_USB
    (λ x a, MkAdapter (Alias a) (a_Index a) (a_Type a) (a_Up a) x (WiFiDirect a) (Prefixes a) (Forwarding a));
  field "wifiDirect" bool_codec is_false WiFiDirect
    (λ x a, MkAdapter (Alias a) (a_Index a) (a_Type a) (a_Up a) (a_USB a) x (Prefixes a) (Forwarding a));
  field "prefixes" (slice_codec string_codec ""%string) empty_slice Prefixes
    (λ x a, MkAdapter (Alias a) (a_Index a) (a_Type a) (a_Up a) (a_USB a) (WiFiDirect a) x (Forwarding a));
  field "forwarding" bool_codec never Forwarding
    (λ x a, MkAdapter (Alias a) (a_Index a) (a_Type a) (a_Up a) (a_USB a) (WiFiDirect a) (Prefixes a) x)].

Definition default_fields : list (Field WindowsDefaultRoute) := [
  field "alias" string_codec never d_Alias (λ x d, MkDefault x (d_Gateway d) (d_Metric d) (d_Family d) (d_Up d));
  field "gateway" string_codec empty_text d_Gateway (λ x d, MkDefault (d_Alias d) x (d_Metric d) (d_Family d) (d_Up d));
  field "metric" int_codec never d_Metric (λ x d, MkDefault (d_Alias d) (d_Gateway d) x (d_Family d) (d_Up d));
  field "family" int_codec never d_Family (λ x d, MkDefault (d_Alias d) (d_Gateway d) (d_Metric d) x (d_Up d));
  field "up" bool_codec never d_Up (λ x d, MkDefault (d_Alias d) (d_Gateway d) (d_Metric d) (d_Family d) x)].

(** DisallowUnknownFields, at every depth *)
Definition inventory_fields : list (Field WindowsInventory) := [
  field "adapters" (slice_codec (struct_codec adapter_fields true) no_adapter) never Adapters
    (λ x i, MkInventory x (Defaults i));
  field "defaults" (slice_codec (struct_codec default_fields true) no_default) never Defaults
    (λ x i, MkInventory (Adapters i) x)].
Definition inventory_codec : Codec WindowsInventory := struct_codec inventory_fields true.

(** One value is decoded; what follows it is not read. *)
Definition ParseWindowsInventory (out : string) : option WindowsInventory :=
  '(j, _) ← parse (to_l out); dec inventory_codec j (MkInventory [] []).

Definition windowsMetric (s : string) : option Z := Password.ParseUint (to_l s) (2 ^ 32 - 1).

(** Mobile Hotspot serves this network and no other. *)
Definition WindowsHotspotSubnet : Prefix := MkPrefix (A4 0xc0a88900) 24.

Definition windowsPhyName (alias : string) : string := ("radio-" ++ alias)%string.
Definition windowsPhy (name : string) : Phy :=
  let freq mhz ch := MkFreq mhz ch 0 false false false in
  MkPhy name 0 ["managed"; "AP"]%string []
    [MkCombination "#{ managed } <= 1, #{ AP } <= 1, total <= 2, #channels <= 1"
       [MkLimit 1 ["managed"%string]; MkLimit 1 ["AP"%string]] 2 1 []]
    [MkBand 1 ((λ i, let ch := Z.of_nat i in freq (2407 + 5 * ch) ch) <$> seq 1 11);
     MkBand 2 ((λ ch, freq (5000 + 5 * ch) ch) <$> [36; 40; 44; 48; 149; 153; 157; 161])].

Definition adapter_link (a : WindowsAdapter) : Link :=
  MkLink (Alias a) (if a_Up a then "UP" else "DOWN") (omap ParsePrefix (Prefixes a)) (if a_USB a then "usb" else "").
(** A radio of its own: Wi-Fi, and not the adapter Mobile Hotspot serves on. *)
Definition is_radio (a : WindowsAdapter) : bool := (a_Type a =? "wifi")%string && negb (WiFiDirect a).
Definition adapter_wireless (a : WindowsAdapter) : WirelessIface :=
  MkWireless (Alias a) (windowsPhyName (Alias a)) "managed" "" 0 0 "" ManagedByNothing false false.
Definition default_route (d : WindowsDefaultRoute) : DefaultRoute :=
  MkRoute (if d_Family d =? 0 then 4 else d_Family d) (default NoAddr (ParseAddr (d_Gateway d))) (d_Alias d) NoAddr ""
    (d_Metric d) (negb (d_Up d)) false.

(** The two loops of windowsDetect. *)
Definition facts_of_inventory (inv : WindowsInventory) (now : Z) : Facts :=
  let radios := List.filter is_radio (Adapters inv) in
  MkFacts (adapter_link <$> Adapters inv) (default_route <$> Defaults inv) (adapter_wireless <$> radios)
    ((λ a, windowsPhy (windowsPhyName (Alias a))) <$> radios) [] false false
    (foldl (λ m a, <[windowsForwardingKnob (Alias a) := if Forwarding a then "1" else "0"]> m) ∅ (Adapters inv))%string now.

Section Windows.
Context {K : Type} `{Runner K}.

Definition c_adapters (why : string) := MkCommand BinIPHelper ["adapters"] "" why.

Definition windowsDetect (knobs : list string) (now : Z) (k : K) : res detect_error Facts * K :=
  let '((r, err), k) := Run (c_adapters
    "adapters, their addresses, the default routes and the forwarding flags, read once") k in
  (match err with
   | Some e => Err (DEList e)
   | None => match ParseWindowsInventory (Stdout r) with
             | None => Err DEInventory
             | Some inv => Ok (facts_of_inventory inv now)
             end
   end, k).

(** *** Readbacks: the adapter Mobile Hotspot serves on *)

Definition carries (gateway : Addr) (a : WindowsAdapter) : bool :=
  existsb (λ s, match ParsePrefix s with Some p => bool_decide (p_addr p = gateway) | None => false end) (Prefixes a).
Definition serves_now (a : WindowsAdapter) : bool :=
  a_Up a && existsb (λ s, match ParsePrefix s with
                          | Some p => Is4 (p_addr p) && negb (IsLinkLocalUnicast (p_addr p))
                          | None => false
                          end) (Prefixes a).

(** The choice among the adapters of a fresh inventory. *)
Definition hotspot_adapter (gateway : Addr) (adapters : list WindowsAdapter) : option WindowsAdapter :=
  let direct := List.filter WiFiDirect adapters in
  match (if addr_valid gateway then List.find (carries gateway) adapters else None) with
  | Some a => Some a
  | None => match List.find serves_now direct with Some a => Some a | None => head direct end
  end.

Definition windowsHotspotAdapter (gateway : Addr) (k : K) : res verify_error (option WindowsAdapter) * K :=
  let '((r, err), k) := Run (c_adapters
    "read back what the interface actually is, rather than trusting that a command to change it succeeded") k in
  (match err with
   | Some e => Err (VERun e)
   | None => match ParseWindowsInventory (Stdout r) with
             | None => Err VEInventory
             | Some inv => Ok (hotspot_adapter gateway (Adapters inv))
             end
   end, k).

(** An address that may be on the adapter before it serves the hotspot. *)
Definition windows_harmless (subnet : Prefix) (s : string) : bool :=
  match ParsePrefix s with
  | None => true
  | Some pp => IsLinkLocalUnicast (p_addr pp) || (prefix_valid subnet && Contains_addr subnet (p_addr pp))
  end.

Definition windowsAssertHotspotInterfaceReleased (p : Plan) (k : K) : res verify_error unit * K :=
  if (Hotspot (hot p) =? "")%string then (Err VENothing, k)
  else
    let '(a, k) := windowsHotspotAdapter NoAddr k in
    (match a with
     | Err e => Err e
     | Ok None => Ok tt
     | Ok (Some a) => if forallb (windows_harmless (HotspotSubnet p)) (Prefixes a) then Ok tt else Err ErrHotspotNotReleased
     end, k).

Definition windowsAssertHotspotIsAccessPoint (p : Plan) (ssid : string) (k : K) : res verify_error unit * K :=
  if (Hotspot (hot p) =? "")%string then (Err VENothing, k)
  else
    let '(a, k) := windowsHotspotAdapter (HotspotGateway p) k in
    (match a with
     | Err e => Err e
     | Ok None => Err ErrNotAccessPoint
     | Ok (Some a) =>
         if negb (a_Up a) then Err ErrNotAccessPoint
         else if carries (HotspotGateway p) a then Ok tt
         else Err ErrNotAccessPoint
     end, k).
End Windows.

(** ** What a build of Windows can do (winversion.go) *)

Definition BuildMobileHotspot : Z := 14393.
Definition BuildModernTethering : Z := 19041.

Record WindowsCapability := MkCapability {
  Build : Z;
  MobileHotspot : bool;
  AdapterChoice : bool;
  BandChoice : bool;
  IdleTimeoutControl : bool;
  DNSPinning : bool
}.

Definition capability_Usable (c : WindowsCapability) : bool := MobileHotspot c && DNSPinning c.

(** ErrWindowsTooOld, with the build it names. *)
Definition CheckSupport (c : WindowsCapability) : option Z := if negb (capability_Usable c) then Some (Build c) else None.

Definition WindowsCapabilityFor (build : Z) : WindowsCapability :=
  if build =? 0 then MkCapability 0 true true true true true
  else
    MkCapability build (BuildMobileHotspot <=? build) (BuildMobileHotspot <=? build)
      (BuildModernTethering <=? build) (BuildModernTethering <=? build) (BuildModernTethering <=? build).

(** * What detection on a desktop guarantees *)

(** ** Masks *)

(** A contiguous mask of [n] ones is read as [n], and nothing else is. *)
Lemma mask_loop_spec fuel : ∀ m b m' b', mask_loop fuel m b = (m', b') → 0 ≤ m < 2 ^ 32 →
  ∃ n, (n ≤ fuel)%nat ∧ b' = b + Z.of_nat n ∧ 0 ≤ m' < 2 ^ 32 ∧
    m * 2 ^ Z.of_nat n = m' + (2 ^ Z.of_nat n - 1) * 2 ^ 32 ∧ ((n < fuel)%nat → m' < 2 ^ 31).
Proof.
  induction fuel as [|fuel IH]; intros m b m' b' H Hm; cbn [mask_loop] in H.
  { simplify_eq. exists 0%nat. simpl. lia. }
  assert (Hb : Z.land m 0x80000000 = if 2 ^ 31 <=? m then 0x80000000 else 0).
  { change 0x80000000 with (2 ^ 31). apply Z.bits_inj'. intros i Hi. rewrite Z.land_spec, Z.pow2_bits_eqb by lia.
    destruct (2 ^ 31 <=? m) eqn:E; breflect.
    - rewrite Z.pow2_bits_eqb by lia. destruct (31 =? i) eqn:Ei; [|by rewrite andb_false_r]. breflect. subst i.
      rewrite andb_true_r. replace m with (m - 2 ^ 31 + 1 * 2 ^ 31) by lia. rewrite Z.testbit_true by lia.
      rewrite Z.div_add, Z.div_small by lia. done.
    - rewrite Z.bits_0. destruct (31 =? i) eqn:Ei; [|by rewrite andb_false_r]. breflect. subst i.
      rewrite andb_true_r. rewrite Z.testbit_false by lia. by rewrite Z.div_small by lia. }
  rewrite Hb in H. destruct (2 ^ 31 <=? m) eqn:E; breflect; cbn [Z.eqb] in H.
  - rewrite Z.shiftl_mul_pow2 in H by lia. change (2 ^ 1) with 2 in H.
    assert ((m * 2) mod 2 ^ 32 = m * 2 - 2 ^ 32) as Hmod.
    { symmetry. apply (Z.mod_unique _ _ 1); lia. }
    rewrite Hmod in H. apply IH in H as (n & Hn & -> & Hm' & Heq & Hlt); [|lia].
    exists (S n). rewrite Nat2Z.inj_succ, Z.pow_succ_r by lia. split_and!; try lia; intros; apply Hlt; lia.
  - simplify_eq. exists 0%nat. simpl. lia.
Qed.

Definition contiguous (n : Z) : Z := 2 ^ 32 - 2 ^ (32 - n).

Lemma mask_loop_exact v n : 0 ≤ v < 2 ^ 32 → mask_loop 32 v 0 = (0, n) ↔ 0 ≤ n ≤ 32 ∧ v = contiguous n.
Proof.
  intros Hv. unfold contiguous. destruct (mask_loop 32 v 0) as [m' b'] eqn:E.
  apply mask_loop_spec in E as (k & Hk & -> & Hm & Heq & Hlt); [|done].
  assert (Hp : 2 ^ 32 = 2 ^ Z.of_nat k * 2 ^ (32 - Z.of_nat k)) by (rewrite <- Z.pow_add_r by lia; f_equal; lia).
  assert (0 < 2 ^ Z.of_nat k) by (apply Z.pow_pos_nonneg; lia).
  split.
  - intros [= -> <-]. split; [lia|]. apply (Z.mul_reg_r _ _ (2 ^ Z.of_nat k)); [lia|]. rewrite Heq. rewrite Z.mul_sub_distr_r.
    replace (32 - (0 + Z.of_nat k)) with (32 - Z.of_nat k) by lia. lia.
  - intros [Hn ->]. assert (Hpn : 2 ^ 32 = 2 ^ n * 2 ^ (32 - n)) by (rewrite <- Z.pow_add_r by lia; f_equal; lia).
    destruct (decide (Z.of_nat k = n)) as [<-|Hne]; [f_equal; nia|exfalso].
    destruct (decide (Z.of_nat k < n)) as [Hl|Hl].
    + assert (m' < 2 ^ 31) by (apply Hlt; lia).
      assert (2 ^ Z.of_nat k * 2 ^ (32 - n) ≤ 2 ^ 31).
      { rewrite <- Z.pow_add_r by lia. apply Z.pow_le_mono_r; lia. }
      lia.
    + assert (2 ^ 32 * 2 ≤ 2 ^ Z.of_nat k * 2 ^ (32 - n)).
      { change (2 ^ 32 * 2) with (2 ^ 33). rewrite <- Z.pow_add_r by lia. apply Z.pow_le_mono_r; lia. }
      lia.
Qed.

Lemma ParseHex32_bound s v : ParseHex32 s = Some v → 0 ≤ v < 2 ^ 32.
Proof.
  unfold ParseHex32. destruct (to_l s) as [|c l]; [done|]. destruct (mapM hex_value (c :: l)) as [ds|] eqn:E; [|done].
  cbn [mbind option_bind]. destruct (_ <? _) eqn:Eb; [|done]. intros [= <-]. breflect. split; [|done].
  apply mapM_Some in E. clear -E. assert (∀ a, 0 ≤ a → 0 ≤ foldl (λ v d, 16 * v + d) a ds) as H; [|by apply H].
  induction E as [|x d xs ds Hd E IH]; intros a Ha; simpl; [done|]. apply IH.
  assert (0 ≤ d) by (unfold hex_value in Hd; repeat case_match; simplify_eq; breflect; lia). lia.
Qed.

(** A netmask is read as a length exactly when it is that many ones followed by
    zeros; anything else is refused, not rounded. *)
Theorem maskBits_exact (hex : string) (n : Z) :
  maskBits hex = Some n ↔ 0 ≤ n ≤ 32 ∧ ParseHex32 (TrimPrefix (ToLower hex) "0x") = Some (contiguous n).
Proof.
  unfold maskBits. destruct (ParseHex32 _) as [v|] eqn:E; [|by split; [|intros [_ ?]]].
  pose proof (mask_loop_exact v n (ParseHex32_bound _ _ E)) as Hx. destruct (mask_loop 32 v 0) as [m b].
  destruct (m =? 0) eqn:Em; breflect.
  - subst m. split; [intros [= ->]; destruct Hx as [Hx _]; destruct (Hx eq_refl) as [? ->]; auto|].
    intros [Hn [= ->]]. destruct Hx as [_ Hx]. specialize (Hx (conj Hn eq_refl)). by injection Hx as <-.
  - split; [done|]. intros [Hn [= ->]]. destruct Hx as [_ Hx]. specialize (Hx (conj Hn eq_refl)). by injection Hx as ? _.
Qed.

(** ** macOS *)

Lemma address_of_ok fields p : address_of fields = Some p → addr_ok (p_addr p).
Proof.
  assert (Hw : ∀ a bits, addr_ok a → addr_ok (p_addr (PrefixFrom a bits))) by (intros [] bits; unfold PrefixFrom; by case_match).
  unfold address_of. intros H. repeat case_match; try done;
    match goal with H : (ParseAddr ?s ≫= _) = Some _ |- _ =>
      destruct (ParseAddr s) eqn:E; [|done]; cbn [mbind option_bind] in H; simplify_eq end;
    by apply Hw, (ParseAddr_ok _ _ E).
Qed.

Definition in_range_link (l : Link) : Prop := Forall (λ q, addr_ok (p_addr q)) (l_prefixes l).

Lemma ParseIfconfig_ok out : Forall in_range_link (ParseIfconfig out).
Proof.
  unfold ParseIfconfig. apply Forall_rev.
  assert (H : ∀ ls acc, Forall in_range_link acc → Forall in_range_link (foldl ifconfig_line acc ls)).
  { induction ls as [|raw ls IH]; intros acc Hacc; [done|]. apply IH. unfold ifconfig_line.
    destruct (header_of raw) as [[name flags]|]; [by constructor; [constructor|]|].
    destruct acc as [|cur rest]; [constructor|]. destruct (address_of _) as [p|] eqn:E; [|done].
    apply Forall_cons in Hacc as [Hc Hr]. apply Forall_cons. split; [|done]. apply Forall_app. split; [done|].
    apply Forall_singleton. by apply address_of_ok in E. }
  by apply H.
Qed.

Lemma ParseRouteGet_ok out dr : ParseRouteGet out = Some dr → addr_ok (r_gateway dr) ∧ Dev dr ≠ ""%string.
Proof.
  unfold ParseRouteGet. destruct (_ =? "")%string eqn:E; [done|]. intros [= <-]. breflect. split; [|done].
  assert (H : ∀ ls d, addr_ok (r_gateway d) → addr_ok (r_gateway (foldl route_get_line d ls))).
  { induction ls as [|raw ls IH]; intros d Hd; [done|]. apply IH. unfold route_get_line.
    repeat case_match; try done. by eapply ParseAddr_ok. }
  by apply H.
Qed.

(** The hardware ports that are radios, and what is said of each. *)
Definition radio_port (hp : HardwarePort) : bool := negb (Device hp =? "")%string && IsWiFi hp.
Definition port_phy (hp : HardwarePort) : Phy := darwinPhy (darwinPhyName (Device hp)) (IsBuiltInWiFi hp).
Definition port_iface (hp : HardwarePort) (w : WirelessIface) : Prop :=
  w_name w = Device hp ∧ w_phy w = darwinPhyName (Device hp).

Section DarwinFacts.
Context {K : Type} `{Runner K}.

Lemma read_ports_spec ports : ∀ links ws phys (k : K) links' ws' phys' k',
  read_ports ports links ws phys k = (links', ws', phys', k') →
  (Forall in_range_link links → Forall in_range_link links') ∧
  phys' = phys ++ (port_phy <$> List.filter radio_port ports) ∧
  ∃ ws2, ws' = ws ++ ws2 ∧ Forall2 port_iface (List.filter radio_port ports) ws2.
Proof.
  induction ports as [|hp ports IH]; intros links ws phys k links' ws' phys' k' Hr; cbn [read_ports] in Hr.
  { simplify_eq. simpl. rewrite !app_nil_r. split_and!; try done. exists []. split; [by rewrite app_nil_r|constructor]. }
  cbn [List.filter]. change (radio_port hp) with (negb (Device hp =? "")%string && IsWiFi hp).
  destruct (Device hp =? "")%string; [exact (IH _ _ _ _ _ _ _ _ Hr)|]. cbn [negb andb].
  set (links1 := if HasPrefix (hp_Port hp) "USB " then _ else links) in Hr.
  assert (Hl : Forall in_range_link links → Forall in_range_link links1).
  { subst links1. destruct (HasPrefix _ _); [|done]. intros Hl. apply Forall_fmap. eapply Forall_impl; [exact Hl|].
    intros l Hp. unfold as_usb, in_range_link in *. simpl. by destruct (l_name l =? _)%string. }
  destruct (IsWiFi hp); cbn [negb] in Hr; [|apply IH in Hr as (? & ? & ?); auto].
  destruct (optional _ _ _ k) as [joined k1]. apply IH in Hr as (Hl' & -> & ws2 & -> & H2).
  split_and!; [by auto|by rewrite <- app_assoc|]. eexists. rewrite <- app_assoc. split; [reflexivity|].
  simpl. constructor; [|exact H2]. by destruct joined as [[]|].
Qed.

Lemma optional_inv {A} (P : A → Prop) c (f : A) g (k : K) a k' :
  optional c f g k = (a, k') → P f → (∀ out, P (g out)) → P a.
Proof. intros E Hf Hg. pose proof (optional_ok P c f g k Hf Hg) as Ho. by rewrite E in Ho. Qed.

Lemma default_of_ok family c (k : K) l k' :
  default_of family c k = (l, k') → Forall (λ r, addr_ok (r_gateway r)) l.
Proof.
  intros E. eapply (optional_inv (Forall (λ r, addr_ok (r_gateway r)))); [exact E|constructor|]. intros out. simpl.
  destruct (ParseRouteGet out) eqn:Ep; [|constructor]. apply Forall_singleton. by apply ParseRouteGet_ok in Ep as [? _].
Qed.

(** *** The proxy settings *)

Lemma parse_uint_bound l max v : Password.ParseUint l max = Some v → v ≤ max.
Proof.
  unfold Password.ParseUint. destruct l; [done|]. destruct (Password.parse_digits _ _); [|done].
  cbn [mbind option_bind]. intros Hv. case_match; simplify_eq. by breflect.
Qed.

Lemma socks_lines_keeps ls : ∀ st seen st' seen',
  socks_lines ls st seen = Some (st', seen') → Service st' = Service st ∧ (s_port st < 2 ^ 16 → s_port st' < 2 ^ 16).
Proof.
  induction ls as [|raw ls IH]; intros st seen st' seen' Hs; cbn [socks_lines] in Hs; [by simplify_eq|].
  repeat case_match; try done; apply IH in Hs as [-> Hp]; split; try done; simpl in *; intros; apply Hp; try done.
  match goal with H : Password.ParseUint _ _ = Some _ |- _ => apply parse_uint_bound in H end. lia.
Qed.

Lemma read_socks_spec services : ∀ (k : K) l k',
  read_socks services k = (Some l, k') → Service <$> l = services ∧ Forall (λ st, s_port st < 2 ^ 16) l.
Proof.
  induction services as [|service services IH]; intros k l k' Hr; cbn [read_socks] in Hr; [by simplify_eq|].
  destruct (optional (c_socks service) _ _ k) as [st k1] eqn:E1. destruct st as [st|]; [|done].
  destruct (optional (c_bypass service) _ _ k1) as [domains k2]. destruct domains as [domains|]; [|done].
  destruct (read_socks services k2) as [rest k3] eqn:E3. destruct rest as [rest|]; [|done]. simplify_eq.
  apply IH in E3 as [Hs Hp]. unfold optional in E1. destruct (Run _ k) as [[r [e|]] k4]; [done|]. injection E1 as E1 _.
  unfold ParseSystemSOCKSState in E1. destruct (socks_lines _ _ _) as [[st0 seen]|] eqn:El; [|done].
  destruct (forallb _ _); [|done]. simplify_eq. apply socks_lines_keeps in El as [Es Ep]. simpl in *.
  split; [by rewrite Es|]. constructor; [by apply Ep|done].
Qed.

(** Whatever the tools of a Mac print, the facts have every address in range,
    one radio and one wireless interface for each Wi-Fi hardware port in the
    order of the listing, none that can host a network while joined to one, and
    proxy settings for every enabled service or for none. *)
Theorem mac_facts (knobs : list string) (now : Z) (k k' : K) (f : Facts) :
  darwinDetect knobs now k = (Ok f, k') →
  facts_ok f ∧
  (∃ k1 r k2, Run c_ports k1 = ((r, None), k2) ∧
     let radios := List.filter radio_port (ParseHardwarePorts (Stdout r)) in
     Phys f = port_phy <$> radios ∧ Forall2 port_iface radios (Wireless f)) ∧
  (if SystemSOCKSKnown f
   then Forall (λ st, s_port st < 2 ^ 16) (SystemSOCKS f) ∧
        ∃ k1 r k2, Run c_services k1 = ((r, None), k2) ∧ Service <$> SystemSOCKS f = ParseNetworkServices (Stdout r)
   else SystemSOCKS f = []).
Proof.
  unfold darwinDetect. intros Hd. destruct (Run c_ifconfig k) as [[r0 err] k0]. destruct err; [done|].
  destruct (default_of 4 _ k0) as [v4 k1] eqn:E4. destruct (default_of 6 _ k1) as [v6 k2] eqn:E6.
  destruct (Run c_ports k2) as [[r err] k3] eqn:Ep. destruct err; [done|].
  destruct (read_ports _ _ _ _ k3) as [[[links ws] phys] k4] eqn:Er.
  destruct (match knobs with [] => _ | _ => _ end) as [vals k5]. destruct (optional c_pf _ _ k5) as [pf k6].
  destruct (darwinDetectSystemSOCKS k6) as [socks k7] eqn:Es. injection Hd as <- <-.
  apply read_ports_spec in Er as (Hl & -> & ws2 & -> & H2). specialize (Hl (ParseIfconfig_ok _)).
  apply default_of_ok in E4, E6. cbn [Links Routes Phys Wireless SystemSOCKS SystemSOCKSKnown].
  split_and!.
  - split; cbn [Links Routes].
    + intros l q Hin Hq. rewrite Forall_forall in Hl. specialize (Hl l Hin). unfold in_range_link in Hl.
      rewrite Forall_forall in Hl. by apply Hl.
    + apply Forall_forall. by apply Forall_app.
  - exists k2, r, k3. by split_and!.
  - destruct socks as [socks|]; [|done]. simpl. unfold darwinDetectSystemSOCKS, optional in Es.
    destruct (Run c_services k6) as [[rs [e|]] k8] eqn:Ev; [done|]. apply read_socks_spec in Es as [Hs Hp].
    split; [done|]. by exists k6, rs, k8.
Qed.
End DarwinFacts.

(** *** The planner on a Mac *)

Lemma append_inj (a x y : string) : (a ++ x)%string = (a ++ y)%string → x = y.
Proof. induction a as [|c a IH]; [done|]. simpl. intros [= E]. by apply IH. Qed.

(** A radio with an interface is a candidate with one of its interfaces. *)
Lemma scan_has_iface f uplink ws c :
  (w_name (c_iface c) ≠ ""%string → w_phy (c_iface c) = phy_name (c_phy c) ∧ c_iface c ∈ Wireless f) →
  ws ⊆ Wireless f → Forall (λ w, w_name w ≠ ""%string) ws →
  let c' := foldl (scan_iface f uplink) c ws in
  c_phy c' = c_phy c ∧
  (w_name (c_iface c') ≠ ""%string → w_phy (c_iface c') = phy_name (c_phy c) ∧ c_iface c' ∈ Wireless f) ∧
  ((∃ w, w ∈ ws ∧ w_phy w = phy_name (c_phy c)) ∨ w_name (c_iface c) ≠ ""%string → w_name (c_iface c') ≠ ""%string).
Proof.
  revert c. induction ws as [|w ws IH]; intros c Hc Hsub Hn; simpl.
  { split_and!; try done. intros [(w & Hw & _)|?]; [by apply not_elem_of_nil in Hw|done]. }
  apply Forall_cons in Hn as [Hw Hn].
  assert (Hscan : c_phy (scan_iface f uplink c w) = c_phy c ∧
    (w_name (c_iface (scan_iface f uplink c w)) ≠ ""%string →
       w_phy (c_iface (scan_iface f uplink c w)) = phy_name (c_phy c) ∧ c_iface (scan_iface f uplink c w) ∈ Wireless f) ∧
    (w_phy w = phy_name (c_phy c) ∨ w_name (c_iface c) ≠ ""%string → w_name (c_iface (scan_iface f uplink c w)) ≠ ""%string)).
  { unfold scan_iface. destruct (w_phy w =? _)%string eqn:Ep; cbn [negb]; breflect.
    - assert (w ∈ Wireless f) by set_solver. destruct (w_name (c_iface c) =? "")%string eqn:Ei; breflect;
        repeat case_match; simpl; auto.
    - split_and!; [done|done|]. by intros [?|?]. }
  destruct Hscan as (E & H1 & H2). rewrite <- E in H1 at 1. destruct (IH _ ltac:(rewrite E in *; exact H1) ltac:(set_solver) Hn) as (E' & I1 & I2).
  rewrite E' , E in *. split_and!; [done|done|]. intros [(v & Hv & Hp)|Hi]; apply I2.
  - apply elem_of_cons in Hv as [->|Hv]; [right; auto|left; eauto].
  - right. auto.
Qed.

Lemma candidate_iface f uplink c :
  c ∈ apCandidates f uplink → Forall (λ w, w_name w ≠ ""%string) (Wireless f) →
  (∃ w, w ∈ Wireless f ∧ w_phy w = phy_name (c_phy c)) →
  w_name (c_iface c) ≠ ""%string ∧ w_phy (c_iface c) = phy_name (c_phy c) ∧ c_iface c ∈ Wireless f.
Proof.
  intros (phy & -> & _)%list_elem_of_fmap Hn Hw.
  destruct (scan_has_iface f uplink (Wireless f) (MkCandidate phy no_wireless no_wireless "")) as (E & H1 & H2);
    [by intros []|done|done|]. simpl in *. rewrite E in *. specialize (H2 (or_introl Hw)). by destruct (H1 H2).
Qed.

Lemma port_phy_facts hp : SupportsAP (port_phy hp) = IsBuiltInWiFi hp ∧ Combinations (port_phy hp) = [] ∧
  phy_name (port_phy hp) = darwinPhyName (Device hp).
Proof. unfold port_phy. by destruct (IsBuiltInWiFi hp). Qed.

(** A radio that cannot hold both is taken when it is free, or its connection is
    ended, and never when it is the uplink. *)
Lemma accept_alone uplink c o h :
  Combinations (c_phy c) = [] → w_name (c_iface c) ≠ ""%string → accept_branch uplink c o = Ok h →
  HotspotIsVirtual h = false ∧
  (w_name (c_station c) ≠ ""%string ∧ w_name (c_station c) ≠ uplink ∧ Hotspot h = w_name (c_station c) ∨
   w_name (c_station c) = ""%string ∧ Hotspot h = w_name (c_iface c)).
Proof.
  intros Hc Hi. assert (Ha : APWithStation (c_phy c) = None) by (unfold APWithStation; by rewrite Hc).
  assert (Hd : DeclaresAPWithStation (c_phy c) = false) by (unfold DeclaresAPWithStation; by rewrite Ha).
  unfold accept_branch, takeOver. rewrite Hd, Ha. intros H.
  repeat (destruct_match_in H; try done); simplify_eq; simpl in *; breflect; try done; auto.
Qed.

Section MacPlan.
Context {K : Type} `{Runner K}.

(** C21. On a Mac the hotspot is on the interface of a built-in Wi-Fi hardware port,
    an interface that exists, and not on the uplink, whatever the tools print and
    the options ask: the radio hosts a network or joins one. *)
Theorem mac_hotspot_built_in (knobs : list string) (now : Z) (k k' : K) (f : Facts) (servers : list Addr) (o : Options) (p : Plan) :
  darwinDetect knobs now k = (Ok f, k') → PlanNetwork f servers o = Ok p →
  (∃ k1 r k2 hp, Run c_ports k1 = ((r, None), k2) ∧ hp ∈ ParseHardwarePorts (Stdout r) ∧ IsBuiltInWiFi hp = true ∧
     Hotspot (hot p) = Device hp ∧ HotspotPhy (hot p) = darwinPhyName (Device hp)) ∧
  HotspotIsVirtual (hot p) = false ∧ Hotspot (hot p) ≠ Uplink p.
Proof.
  intros Hd Hp. apply mac_facts in Hd as (_ & (k1 & r & k2 & Hrun & Hphys & H2) & _).
  destruct (plan_radio _ _ _ _ Hp) as (c & h0 & Hin & _ & Hacc & Hbr).
  destruct (candidate_station _ _ _ Hin) as (Hphy & Hap & Hst). rewrite Hphys in Hphy.
  apply list_elem_of_fmap in Hphy as (hp & Ephy & [Hport Hrad]%elem_of_filterb).
  destruct (port_phy_facts hp) as (Eap & Ecomb & Ename). rewrite Ephy, Eap in Hap.
  assert (Hnames : ∀ w, w ∈ Wireless f → w_phy w = darwinPhyName (Device hp) → w_name w = Device hp).
  { intros w Hw Ew. apply list_elem_of_lookup in Hw as [i Hi]. destruct (Forall2_lookup_r _ _ _ _ _ H2 Hi) as (hp' & _ & -> & E).
    rewrite E in Ew. by apply append_inj in Ew. }
  assert (Hnonempty : Forall (λ w, w_name w ≠ ""%string) (Wireless f)).
  { apply Forall_forall. intros w Hw. apply list_elem_of_lookup in Hw as [i Hi].
    destruct (Forall2_lookup_r _ _ _ _ _ H2 Hi) as (hp' & [_ Hr]%list_elem_of_lookup_2%elem_of_filterb & -> & _).
    unfold radio_port in Hr. by breflect. }
  assert (Hhas : ∃ w, w ∈ Wireless f ∧ w_phy w = phy_name (c_phy c)).
  { assert (hp ∈ List.filter radio_port (ParseHardwarePorts (Stdout r))) as Hf by by apply elem_of_filterb.
    apply list_elem_of_lookup in Hf as [i Hi]. destruct (Forall2_lookup_l _ _ _ _ _ H2 Hi) as (w & Hw & _ & E).
    exists w. rewrite Ephy, Ename. split; [by eapply list_elem_of_lookup_2|done]. }
  destruct (candidate_iface _ _ _ Hin Hnonempty Hhas) as (Hi1 & Hi2 & Hi3).
  apply acceptHotspot_inv in Hacc as (h1 & E1 & Eq & _). rewrite Hbr in E1. injection E1 as <-. injection Eq as Eh Ephy' Ev _.
  destruct (accept_channel _ _ _ _ Hbr) as [Epn _].
  rewrite Ephy, Ename in *. apply accept_alone in Hbr as [Hv Hcase]; [|by rewrite Ephy|done].
  rewrite Ev, Eh, Ephy', Epn. pose proof (plan_uplink_named _ _ _ _ Hp) as Hu.
  pose proof (candidate_not_uplink _ _ _ Hu Hin) as Hnu.
  destruct Hcase as [(Hs & Hsu & ->)|(Hs & ->)].
  - destruct (Hst Hs) as [Hsw Hsp]. split_and!; [|done|done]. exists k1, r, k2, hp. split_and!; auto.
  - split_and!; [|done|by apply Hnu]. exists k1, r, k2, hp. split_and!; auto.
Qed.
End MacPlan.

(** ** Windows *)

Definition adapter_ok (a : WindowsAdapter) : Prop :=
  ValidString (Alias a) = true ∧ ValidString (a_Type a) = true ∧ Forall (λ s, ValidString s = true) (Prefixes a) ∧
  - 2 ^ 63 ≤ a_Index a < 2 ^ 63.
Definition default_ok (d : WindowsDefaultRoute) : Prop :=
  ValidString (d_Alias d) = true ∧ ValidString (d_Gateway d) = true ∧
  - 2 ^ 63 ≤ d_Metric d < 2 ^ 63 ∧ - 2 ^ 63 ≤ d_Family d < 2 ^ 63.

(** An omitted field was empty, and is so already. *)
Ltac omitted Ho :=
  lazymatch type of Ho with
  | never _ = true => discriminate Ho
  | empty_text ?s = true => apply String.eqb_eq in Ho; rewrite Ho; reflexivity
  | is_false ?b = true => destruct b; [discriminate Ho|reflexivity]
  | empty_slice ?l = true => destruct l; [reflexivity|discriminate Ho]
  end.

Lemma adapter_faithful a : adapter_ok a → faithful (struct_codec adapter_fields true) 2 (λ old, old = no_adapter) a.
Proof.
  destruct a as [al ix ty up usb wd ps fw]. intros (H1 & H2 & H3 & H4). cbn [Alias a_Type Prefixes a_Index] in *.
  assert (Hs : faithful (slice_codec string_codec ""%string) 1 (λ old, old = []) ps).
  { apply (faithful_slice _ _ _ anything); [done|]. eapply Forall_impl; [exact H3|]. intros. by apply faithful_string. }
  apply faithful_struct; [distinct_names| |by eexists|].
  - intros old ->. unfold adapter_fields, no_adapter. follow_fields_by 1%nat ltac:(fun Ho => omitted Ho). done.
  - unfold adapter_fields. plain_fields.
Qed.

Lemma default_faithful d : default_ok d → faithful (struct_codec default_fields true) 1 (λ old, old = no_default) d.
Proof.
  destruct d as [al gw me fa up]. intros (H1 & H2 & H3 & H4). cbn [d_Alias d_Gateway d_Metric d_Family] in *.
  apply faithful_struct; [distinct_names| |by eexists|].
  - intros old ->. unfold default_fields, no_default. follow_fields_by 0%nat ltac:(fun Ho => omitted Ho). done.
  - unfold default_fields. plain_fields.
Qed.

(** What the runner writes. *)
Definition inventory_text (inv : WindowsInventory) : option string :=
  (λ j, of_l (Marshal j ++ [newline_byte])) <$> enc inventory_codec inv.

(** The inventory the runner writes on standard output is the one the backend
    reads, for every alias and address in UTF-8 and every number of an int. *)
Theorem inventory_reads_back (inv : WindowsInventory) :
  Forall adapter_ok (Adapters inv) → Forall default_ok (Defaults inv) →
  ∃ text, inventory_text inv = Some text ∧ ParseWindowsInventory text = Some inv.
Proof.
  destruct inv as [adapters defaults]. intros Ha Hd.
  assert (Hsa : faithful (slice_codec (struct_codec adapter_fields true) no_adapter) 3 (λ old, old = []) adapters).
  { apply (faithful_slice _ _ _ (λ old, old = no_adapter)); [done|]. eapply Forall_impl; [exact Ha|]. apply adapter_faithful. }
  assert (Hsd : faithful (slice_codec (struct_codec default_fields true) no_default) 3 (λ old, old = []) defaults).
  { apply (faithful_slice _ _ _ (λ old, old = no_default)); [done|]. eapply Forall_impl; [exact Hd|].
    intros d Hok. apply (faithful_mono _ 1); [lia|by apply default_faithful]. }
  assert (Hf : faithful inventory_codec 4 (λ old, old = MkInventory [] []) (MkInventory adapters defaults)).
  { apply faithful_struct; [distinct_names| |by eexists|].
    - intros old ->. unfold inventory_fields. follow_fields_by 3%nat ltac:(fun Ho => omitted Ho). done.
    - unfold inventory_fields. plain_fields. }
  destruct Hf as (j & Ej & Hp & Hdec). unfold inventory_text. rewrite Ej. eexists. split; [reflexivity|].
  unfold ParseWindowsInventory. rewrite to_of_l. unfold Marshal. 
  rewrite (print_parses true compact ltac:(done) ltac:(done) j 4 [newline_byte]) by (done || (unfold maxNestingDepth; lia)).
  cbn [mbind option_bind]. by apply Hdec.
Qed.

Lemma knobs_recorded adapters (m : gmap string string) a : a ∈ adapters ∨ m !! windowsForwardingKnob (Alias a) ∈ [Some "0"; Some "1"]%string →
  foldl (λ m a, <[windowsForwardingKnob (Alias a) := if Forwarding a then "1" else "0"]> m)%string m adapters
    !! windowsForwardingKnob (Alias a) ∈ [Some "0"; Some "1"]%string.
Proof.
  revert m. induction adapters as [|b adapters IH]; intros m Ha; simpl.
  { destruct Ha as [Ha|Ha]; [by apply not_elem_of_nil in Ha|done]. }
  apply IH. destruct (decide (windowsForwardingKnob (Alias b) = windowsForwardingKnob (Alias a))) as [E|E].
  - right. rewrite E, lookup_insert_eq. destruct (Forwarding b); set_solver.
  - destruct Ha as [[->|Ha]%elem_of_cons|Ha]; [done|by left|right]. by rewrite lookup_insert_ne.
Qed.

(** What an inventory says. *)
Lemma inventory_facts inv now : let f := facts_of_inventory inv now in
  facts_ok f ∧
  (∀ l, l ∈ Links f → Sysctl f !! windowsForwardingKnob (l_name l) ∈ [Some "0"; Some "1"]%string) ∧
  (∀ w, w ∈ Wireless f → ∃ phy, phy ∈ Phys f ∧ w_phy w = phy_name phy ∧ DeclaresAPWithStation phy = true) ∧
  (∀ phy, phy ∈ Phys f → ∃ w, w ∈ Wireless f ∧ w_phy w = phy_name phy) ∧
  (∀ w, w ∈ Wireless f → ∃ a, a ∈ Adapters inv ∧ is_radio a = true ∧ w_name w = Alias a).
Proof.
  cbn [facts_of_inventory Links Routes Wireless Phys Sysctl]. split_and!.
  - split; cbn [Links Routes].
    + intros l q (a & -> & Ha)%list_elem_of_fmap Hq. apply list_elem_of_omap in Hq as (s & _ & Hs).
      by apply ParsePrefix_ok in Hs as [_ ?].
    + intros r (d & -> & _)%list_elem_of_fmap. simpl. destruct (ParseAddr _) eqn:E; [by apply ParseAddr_ok in E|done].
  - intros l (a & -> & Ha)%list_elem_of_fmap. apply knobs_recorded. by left.
  - intros w (a & -> & Ha)%list_elem_of_fmap. exists (windowsPhy (windowsPhyName (Alias a))).
    split_and!; [by apply (list_elem_of_fmap_2 (λ a, windowsPhy (windowsPhyName (Alias a))))|done|by vm_compute].
  - intros phy (a & -> & Ha)%list_elem_of_fmap. exists (adapter_wireless a). split; [by apply list_elem_of_fmap_2|done].
  - intros w (a & -> & [Ha Hr]%elem_of_filterb)%list_elem_of_fmap. eauto.
Qed.

Section WindowsFacts.
Context {K : Type} `{Runner K}.

(** On Windows, whatever the inventory says, the facts have every address in
    range, the forwarding flag of every adapter, which is what its change is
    undone to, and a radio that can hold a connection and a hotspot at once for
    each Wi-Fi adapter. A plan's hotspot is then on such an adapter, one that
    exists, never on the adapter Mobile Hotspot itself serves on. *)
Theorem windows_hotspot_is_a_radio (knobs : list string) (now : Z) (k k' : K) (f : Facts) (servers : list Addr) (o : Options) (p : Plan) :
  windowsDetect knobs now k = (Ok f, k') →
  (∀ l, l ∈ Links f → l_name l ≠ ""%string) →
  facts_ok f ∧
  (∀ l, l ∈ Links f → Sysctl f !! windowsForwardingKnob (l_name l) ∈ [Some "0"; Some "1"]%string) ∧
  (PlanNetwork f servers o = Ok p → oPlatform (effective o) = PlatformWindows →
   HotspotIsVirtual (hot p) = false ∧
   ∃ inv a, f = facts_of_inventory inv now ∧ a ∈ Adapters inv ∧ is_radio a = true ∧ Hotspot (hot p) = Alias a).
Proof.
  unfold windowsDetect. intros Hd Hn. destruct (Run _ k) as [[r err] k1]. destruct err; [done|].
  destruct (ParseWindowsInventory _) as [inv|]; [|done]. injection Hd as <- <-.
  destruct (inventory_facts inv now) as (Hok & Hk & Hw & Hphy & Hradio). split_and!; [done..|]. intros Hp Hpl.
  assert (Hne : Forall (λ w, w_name w ≠ ""%string) (Wireless (facts_of_inventory inv now))).
  { apply Forall_forall. intros w (a & Ha & _ & ->)%Hradio. apply (Hn (adapter_link a)). by apply list_elem_of_fmap_2. }
  assert (Hh : HotspotIsVirtual (hot p) = false ∧ ∃ w, w ∈ Wireless (facts_of_inventory inv now) ∧ Hotspot (hot p) = w_name w).
  { destruct (plan_radio _ _ _ _ Hp) as (c & h0 & Hin & _ & Hacc & Hbr).
    destruct (candidate_station _ _ _ Hin) as (Hc & _ & Hst). destruct (candidate_iface _ _ _ Hin Hne (Hphy _ Hc)) as (Hi1 & _ & Hi3).
    apply acceptHotspot_inv in Hacc as (h1 & E1 & Eq & _). rewrite Hbr in E1. injection E1 as <-. injection Eq as Eh _ Ev _.
    rewrite Ev, Eh. unfold accept_branch, takeOver, beside_station in Hbr. rewrite Hpl, bool_decide_true in Hbr by done.
    repeat (destruct_match_in Hbr; try done); simplify_eq; simpl in *; breflect; try done; naive_solver. }
  destruct Hh as (Hv & w & Hin & E). split; [done|]. destruct (Hradio w Hin) as (a & Ha & Hr & Ea).
  exists inv, a. split_and!; [done..|]. by rewrite E.
Qed.

(** *** Readbacks *)

Lemma find_filter_none {A} (P Q : A → bool) l a : List.find P l = None → a ∈ List.filter Q l → P a = false.
Proof. intros Hf [Ha _]%elem_of_filterb. by apply (List.find_none _ _ Hf), list_elem_of_In. Qed.

(** The access point is read back exactly when an adapter of a fresh inventory
    carries the gateway and the first that does is up: no description of an
    adapter stands in for its address. *)
Theorem windows_access_point (p : Plan) (ssid : string) (k : K) :
  addr_valid (HotspotGateway p) = true → Hotspot (hot p) ≠ ""%string →
  fst (windowsAssertHotspotIsAccessPoint p ssid k) = Ok tt ↔
  ∃ why r k' inv a, Run (c_adapters why) k = ((r, None), k') ∧ ParseWindowsInventory (Stdout r) = Some inv ∧
    List.find (carries (HotspotGateway p)) (Adapters inv) = Some a ∧ a_Up a = true ∧
    why = "read back what the interface actually is, rather than trusting that a command to change it succeeded"%string.
Proof.
  intros Hg Hh. unfold windowsAssertHotspotIsAccessPoint, windowsHotspotAdapter.
  rewrite (proj2 (String.eqb_neq _ _) Hh). set (why := "read back what the interface actually is, rather than trusting that a command to change it succeeded"%string).
  destruct (Run (c_adapters why) k) as [[r err] k1] eqn:Er.
  assert (Hf : ∀ inv, match hotspot_adapter (HotspotGateway p) (Adapters inv) with
     | None => Err ErrNotAccessPoint
     | Some a => if negb (a_Up a) then Err ErrNotAccessPoint
                 else if carries (HotspotGateway p) a then Ok tt else Err ErrNotAccessPoint end = Ok tt ↔
     ∃ a, List.find (carries (HotspotGateway p)) (Adapters inv) = Some a ∧ a_Up a = true).
  { intros inv. unfold hotspot_adapter. rewrite Hg. destruct (List.find (carries _) _) as [a|] eqn:Ef.
    - apply List.find_some in Ef as [_ Hc]. destruct (a_Up a) eqn:Eu; cbn [negb].
      + rewrite Hc. split; [by exists a|done].
      + split; [done|]. intros (b & [= <-] & Hb). congruence.
    - split; [|by intros (b & ? & _)]. assert (Hnone : ∀ a, a ∈ List.filter WiFiDirect (Adapters inv) → carries (HotspotGateway p) a = false)
        by (intros a; by apply find_filter_none).
      destruct (List.find serves_now _) as [a|] eqn:Es.
      + apply List.find_some in Es as [Ha%list_elem_of_In _]. rewrite (Hnone a Ha). by destruct (negb _).
      + destruct (List.filter WiFiDirect _) as [|a l]; [done|]. simpl. rewrite (Hnone a) by left. by destruct (negb _). }
  split.
  - intros Hr. destruct err as [e|]; [done|]. destruct (ParseWindowsInventory (Stdout r)) as [inv|] eqn:Ei; [|done].
    apply Hf in Hr as (a & Ha & Hu). by exists why, r, k1, inv, a.
  - intros (why' & r' & k2 & inv & a & Hr & Hi & Ha & Hu & ->). fold why in Hr. rewrite Er in Hr. simplify_eq. rewrite Hi. apply Hf. eauto.
Qed.
End WindowsFacts.

Section MacReadback.
Context {K : Type} `{Runner K}.

(** On a Mac the access point is read back exactly when the bridge of Internet
    Sharing is listed, up, and carries the gateway. *)
Theorem mac_access_point (p : Plan) (ssid : string) (k : K) :
  Hotspot (hot p) ≠ ""%string →
  fst (darwinAssertHotspotIsAccessPoint p ssid k) = Ok tt ↔
  ∃ k' l q, darwinReadLink darwinSharingBridge k = (Ok (Some l), k') ∧ l_state l = "UP"%string ∧ q ∈ l_prefixes l ∧
    p_addr q = HotspotGateway p.
Proof.
  intros Hh. unfold darwinAssertHotspotIsAccessPoint. rewrite (proj2 (String.eqb_neq _ _) Hh).
  destruct (darwinReadLink _ k) as [[[l|]|e] k1]; simpl; [|naive_solver..].
  destruct (l_state l =? "UP")%string eqn:Eu; cbn [negb]; breflect; [|naive_solver].
  destruct (existsb _ _) eqn:Ee.
  - split; [intros _|done]. apply existsb_exists in Ee as (q & Hq%list_elem_of_In & Eq). breflect. by exists k1, l, q.
  - split; [done|]. intros (k' & l' & q & Hl & _ & Hq & Eq). simplify_eq. apply not_true_iff_false in Ee. destruct Ee.
    apply existsb_exists. exists q. split; [by apply list_elem_of_In|by apply bool_decide_eq_true].
Qed.
End MacReadback.

(** ** Versions of Windows *)

(** The appliance runs on a build exactly when it can point DNS at the tunnel,
    or when the build could not be read; a later build can do all an earlier one can. *)
Theorem windows_support (build : Z) :
  (CheckSupport (WindowsCapabilityFor build) = None ↔ build = 0 ∨ BuildModernTethering ≤ build) ∧
  (∀ later, 0 < build ≤ later → let c := WindowsCapabilityFor build in let c' := WindowsCapabilityFor later in
    implb (MobileHotspot c) (MobileHotspot c') && implb (AdapterChoice c) (AdapterChoice c') &&
    implb (BandChoice c) (BandChoice c') && implb (IdleTimeoutControl c) (IdleTimeoutControl c') &&
    implb (DNSPinning c) (DNSPinning c') && implb (DNSPinning c) (MobileHotspot c) = true).
Proof.
  unfold CheckSupport, capability_Usable, WindowsCapabilityFor, BuildMobileHotspot, BuildModernTethering. split.
  - destruct (build =? 0) eqn:E; breflect; [naive_solver|]. cbn [MobileHotspot DNSPinning].
    destruct (14393 <=? build) eqn:E1, (19041 <=? build) eqn:E2; breflect; cbn; split; intros; try done; try lia; auto.
  - intros later Hl. rewrite (proj2 (Z.eqb_neq build 0)), (proj2 (Z.eqb_neq later 0)) by lia.
    cbn [MobileHotspot AdapterChoice BandChoice IdleTimeoutControl DNSPinning].
    destruct (14393 <=? build) eqn:E1, (19041 <=? build) eqn:E2, (14393 <=? later) eqn:E3, (19041 <=? later) eqn:E4;
      breflect; try done; lia.
Qed.

(** ** A Mac and a Windows machine

    The texts are the ones the tools print, from the tests of the package: a
    Mac on a USB Ethernet adapter, with its radio free. *)
Module Desktops.
Definition ifconfig_a : string := "lo0: flags=8049<UP,LOOPBACK,RUNNING,MULTICAST> mtu 16384
	options=1203<RXCSUM,TXCSUM,TXSTATUS,SW_TIMESTAMP>
	inet 127.0.0.1 netmask 0xff000000
	inet6 ::1 prefixlen 128
	inet6 fe80::1%lo0 prefixlen 64 scopeid 0x1
en7: flags=8863<UP,BROADCAST,SMART,RUNNING,SIMPLEX,MULTICAST> mtu 1500
	ether 02:00:5e:00:00:07
	inet6 fe80::1c2a:3b4c:5d6e:7f80%en7 prefixlen 64 secured scopeid 0xb
	inet 198.51.100.23 netmask 0xffffff00 broadcast 198.51.100.255
	media: autoselect (1000baseT <full-duplex>)
	status: active
en0: flags=8863<UP,BROADCAST,SMART,RUNNING,SIMPLEX,MULTICAST> mtu 1500
	ether 02:00:5e:00:00:01
	media: autoselect
	status: inactive
ap1: flags=8802<BROADCAST,SIMPLEX,MULTICAST> mtu 1500
	ether 02:00:5e:00:00:02
	media: autoselect (none)
utun100: flags=8051<UP,POINTOPOINT,RUNNING,MULTICAST> mtu 1500
	inet 169.254.10.2 --> 169.254.10.1 netmask 0xfffffffc
".

Definition route_get : string := "   route to: default
destination: default
       mask: default
    gateway: 198.51.100.1
  interface: en7
      flags: <UP,GATEWAY,DONE,STATIC,PRCLONING,GLOBAL>
 recvpipe  sendpipe  ssthresh  rtt,msec    rttvar  hopcount      mtu     expire
       0         0         0         0         0         0      1500         0
".

Definition hardware_ports : string := "
Hardware Port: USB 10/100/1000 LAN
Device: en7
Ethernet Address: 02:00:5e:00:00:07

Hardware Port: Wi-Fi
Device: en0
Ethernet Address: 02:00:5e:00:00:01

Hardware Port: Thunderbolt Bridge
Device: bridge0
Ethernet Address: 02:00:5e:00:00:03

VLAN Configurations
===================
".

Definition network_services : string := "An asterisk (*) denotes that a network service is disabled.
USB 10/100/1000 LAN
Wi-Fi
*Thunderbolt Bridge
".

Definition socks_enabled : string := "Enabled: Yes
Server: proxy.example.test
Port: 9000
Authenticated Proxy Enabled: 0
".

Definition socks_disabled : string := "Enabled: No
Server:
Port: 0
Authenticated Proxy Enabled: 0
".

Definition mac_answers : list (string * string) :=
  [("ifconfig -a", ifconfig_a); ("route -n get default", route_get); ("networksetup -listallhardwareports", hardware_ports);
   ("networksetup -getairportnetwork en0", "You are not associated with an AirPort network.");
   ("networksetup -listallnetworkservices", network_services);
   ("networksetup -getsocksfirewallproxy USB 10/100/1000 LAN", socks_enabled);
   ("networksetup -getproxybypassdomains USB 10/100/1000 LAN", "intranet.example.test
localhost
");
   ("networksetup -getsocksfirewallproxy Wi-Fi", socks_disabled);
   ("networksetup -getproxybypassdomains Wi-Fi", "There aren't any bypass domains set on Wi-Fi.
");
   ("sysctl -e -- net.inet.ip.forwarding net.inet6.ip6.forwarding", "net.inet.ip.forwarding=0
net.inet6.ip6.forwarding=0
");
   ("pfctl -s info", "Status: Disabled
");
   ("ifconfig bridge100", "bridge100: flags=8a63<UP,BROADCAST,SMART,RUNNING,ALLMULTI,SIMPLEX,MULTICAST> mtu 1500
	inet 10.83.51.1 netmask 0xffffff00 broadcast 10.83.51.255
")]%string.

Definition answer_from (l : list (string * string)) (c : Command) : Result * error :=
  match List.find (λ a, (fst a =? CommandLine c)%string) l with
  | Some (_, out) => (MkResult out "" 0, None)
  | None => (MkResult "" "" 1, Some "exit status 1"%string)
  end.
Definition mac : Runner unit := λ c k, (answer_from mac_answers c, k).

Definition mac_read : Facts :=
  match fst (@darwinDetect unit mac darwinSysctlKnobs 0 tt) with Ok f => f | Err _ => MkFacts [] [] [] [] [] false false ∅ 0 end.

(** What the test of the package checks of it. *)
Example mac_read_back :
  Dev <$> PrimaryDefault mac_read = Some "en7"%string ∧ r_gateway <$> PrimaryDefault mac_read = Some (quad 198 51 100 1) ∧
  (λ l, (l_bus l, List.length (l_prefixes l))) <$> LinkByName mac_read "en7" = Some ("usb"%string, 2%nat) ∧
  (λ w, (w_phy w, LinkKnown w, Associated w)) <$> WirelessByName mac_read "en0" = Some ("radio-en0"%string, true, false) ∧
  SupportsAP <$> PhyByName mac_read "radio-en0" = Some true ∧
  Sysctl mac_read !! "net.inet.ip.forwarding"%string = Some "0"%string ∧ Sysctl mac_read !! darwinPfStatusKnob = Some "0"%string ∧
  SystemSOCKSKnown mac_read = true ∧
  SystemSOCKS mac_read = [MkSOCKS "USB 10/100/1000 LAN" true "proxy.example.test" 9000 false ["intranet.example.test"; "localhost"];
                          MkSOCKS "Wi-Fi" false "" 0 false []]%string ∧
  ParseSystemSOCKSState "Wi-Fi" "Enabled: No
Server:
Port: 0
" = None.
Proof. vm_compute. by split_and!. Qed.

Definition options_on (pl : Platform) : Options :=
  let o := DefaultOptions in
  MkOptions pl (TunName o) (HotspotPool o) (TunnelPool o) (oHotspotSubnet o) (UplinkOverride o) (HotspotOverride o) (HotspotBand o)
    (APIfaceName o) (Table o) (RulePrio o) (FwMark o) (DNSPort o) (PanelPort o) (oSystemSOCKS o) (Strategy o) (IPv6 o) (Egress o)
    (ClientIsolation o) (MasqueradeToTunnel o) (RPFilter o).
Definition no_plan : Plan :=
  MkPlan PlatformDarwin ModeUnset "" NoAddr false NoAddr "" (MkHot "" "" false "" "" false ManagedByNothing 0 false [] [])
    NoPrefix NoAddr false [] "" NoPrefix NoAddr NoAddr [] [] [] DefaultOptions [].
Definition plan_of (f : Facts) (pl : Platform) : Plan :=
  match PlanNetwork f [quad 203 0 113 10] (options_on pl) with Ok p => p | Err _ => no_plan end.

Lemma mac_hotspot_built_in_witness :
  Hotspot (hot (plan_of mac_read PlatformDarwin)) = "en0"%string ∧
  HotspotIsVirtual (hot (plan_of mac_read PlatformDarwin)) = false ∧
  Hotspot (hot (plan_of mac_read PlatformDarwin)) ≠ Uplink (plan_of mac_read PlatformDarwin).
Proof.
  split; [vm_compute; reflexivity|].
  apply (@mac_hotspot_built_in unit mac darwinSysctlKnobs 0 tt tt mac_read [quad 203 0 113 10] (options_on PlatformDarwin));
    vm_compute; reflexivity.
Defined.

(** The bridge serves the gateway the plan chose. *)
Lemma mac_access_point_witness :
  fst (@darwinAssertHotspotIsAccessPoint unit mac (plan_of mac_read PlatformDarwin) "Caspian" tt) = Ok tt.
Proof.
  apply (@mac_access_point unit mac); [by vm_compute|].
  exists tt, (MkLink "bridge100" "UP" [MkPrefix (quad 10 83 51 1) 24] ""), (MkPrefix (quad 10 83 51 1) 24).
  split_and!; [vm_compute; reflexivity..|by left|vm_compute; reflexivity].
Defined.

(** A Windows machine on Ethernet with one radio and the adapter of a hotspot
    that is off. *)
Definition pc (up : bool) : WindowsInventory :=
  MkInventory
    [MkAdapter "Ethernet" 3 "ethernet" true false false ["198.51.100.23/24"] false;
     MkAdapter "Wi-Fi" 7 "wifi" true false false [] false;
     MkAdapter "Local Area Connection* 2" 11 "wifi" up false true (if up then ["192.168.137.1/24"] else []) false]
    [MkDefault "Ethernet" "198.51.100.1" 25 4 true].
Definition pc_text (up : bool) : string := default ""%string (inventory_text (pc up)).
Definition windows (up : bool) : Runner unit := λ c k, ((MkResult (pc_text up) "" 0, None), k).
Definition pc_read : Facts := facts_of_inventory (pc false) 0.

Lemma inventory_reads_back_witness : ParseWindowsInventory (pc_text true) = Some (pc true).
Proof.
  destruct (inventory_reads_back (pc true)) as (text & E & Hp).
  - repeat (apply Forall_cons; split); try apply Forall_nil_2; (split_and!; [done|done|repeat constructor|cbn; lia..]).
  - repeat (apply Forall_cons; split); try apply Forall_nil_2; (split_and!; [done|done|cbn; lia..]).
  - unfold pc_text. rewrite E. exact Hp.
Defined.

Lemma windows_hotspot_is_a_radio_witness :
  Hotspot (hot (plan_of pc_read PlatformWindows)) = "Wi-Fi"%string ∧ HotspotIsVirtual (hot (plan_of pc_read PlatformWindows)) = false.
Proof.
  split; [vm_compute; reflexivity|].
  apply (@windows_hotspot_is_a_radio unit (windows false) [] 0 tt tt pc_read [quad 203 0 113 10] (options_on PlatformWindows));
    [vm_compute; reflexivity| |vm_compute; reflexivity..].
  intros l Hl. repeat (apply elem_of_cons in Hl as [->|Hl]; [by vm_compute|]). by apply not_elem_of_nil in Hl.
Defined.

(** The plan is pinned to the network Windows serves. *)
Definition pc_plan : Plan :=
  let p := plan_of pc_read PlatformWindows in
  MkPlan (pPlatform p) (pMode p) (Uplink p) (UplinkGateway p) (UplinkOnLink p) (UplinkV6Gw p) (UplinkV6Dev p) (hot p)
    WindowsHotspotSubnet (quad 192 168 137 1) (pNetworkManagerPresent p) (HotspotStationPrefixes p) (Tun p) (TunSubnet p) (TunAddr p)
    (TunPeer p) (ServerAddr p) (UnpinnableServers p) (pSystemSOCKS p) (Opts p) (Notes p).

Lemma windows_access_point_witness :
  fst (@windowsAssertHotspotIsAccessPoint unit (windows true) pc_plan "Caspian" tt) = Ok tt ∧
  fst (@windowsAssertHotspotIsAccessPoint unit (windows false) pc_plan "Caspian" tt) = Err ErrNotAccessPoint ∧
  fst (@windowsAssertHotspotInterfaceReleased unit (windows true) pc_plan tt) = Ok tt.
Proof.
  split_and!; [|vm_compute; reflexivity..].
  apply (@windows_access_point unit (windows true)); [by vm_compute..|].
  eexists _, _, _, _, _. split_and!; [reflexivity|vm_compute; reflexivity..].
Defined.

(** A second Wi-Fi port is listed as a radio that cannot host. *)
Example usb_radio_cannot_host :
  radio_port (MkPort "USB Wi-Fi 802.11n" "en5") = true ∧ SupportsAP (port_phy (MkPort "USB Wi-Fi 802.11n" "en5")) = false.
Proof. by vm_compute. Qed.

(** The readback asks for the address and not for a Wi-Fi Direct adapter: an
    Ethernet adapter with it is enough. *)
Definition shared_ethernet : Runner unit := λ c k,
  ((MkResult (default "" (inventory_text (MkInventory [MkAdapter "Ethernet" 3 "ethernet" true false false ["192.168.137.1/24"] true] []))) "" 0,
    None), k)%string.
Example any_adapter_with_the_gateway :
  fst (@windowsAssertHotspotIsAccessPoint unit shared_ethernet pc_plan "Caspian" tt) = Ok tt.
Proof. vm_compute. reflexivity. Qed.
End Desktops.
