(* ===== verification/State.v ===== *)
(** * The settings (internal/state: state.go, migrate.go, subscription.go, store.go, sni.go)

    The settings are one value; the file is its JSON text. The disk keeps, beside
    the directory as programs see it, every version of it since the directory was
    last flushed: a power cut may leave any of them, and a file that was not
    flushed may hold anything afterwards. Every file operation can fail, following
    a script of faults, and every state of the disk on the way is recorded. *)

From S2P Require Import Prelude GoStrings Sha256 Netip Text Json JsonFacts GoTime JsonStruct Url StateError.
From S2P Require Facts Hello Password.

Local Open Scope Z_scope.
Local Open Scope svc_scope.

(** ** state.go *)

Definition CurrentVersion : Z := 5.
Definition FileName : string := "state.json".
Definition redacted : string := "[redacted]".
Definition DNSModeTunnel : string := "tunnel".
Definition OnTunnelDownBlock : string := "block".
Definition ClientIPv6Block : string := "block".

Record Quota := MkQuota {
  Upload : Z;
  Download : Z;
  Total : Z;
  Expire : Z
}.

Record ProxyConfig := MkProxy {
  SpoofSNI : string;
  TCPSplit : bool;
  TLSRecordSplit : bool;
  Raw : string;
  pScheme : string;
  Label : string;
  Selected : Z;
  AddedAt : Time;
  SubscriptionURL : string;
  RefreshedAt : Time;
  pQuota : Quota
}.

Record HotspotConfig := MkHotspotConfig {
  hSSID : string;
  hPassphrase : string
}.

Record PanelAuth := MkPanelAuth {
  PasswordHash : string
}.

Record Advanced := MkAdvanced {
  InternetInterface : string;
  HotspotInterface : string;
  aChannel : Z;
  aBand : string;
  aCountry : string;
  aSubnet : string;
  DNSMode : string;
  OnTunnelDown : string;
  ClientIPv6 : string;
  aEngineLogLevel : string;
  PanelOnLAN : bool
}.

Record State := MkState {
  Version : Z;
  Proxy : ProxyConfig;
  Hotspot : HotspotConfig;
  Panel : PanelAuth;
  sAdvanced : Advanced;
  UpdatedAt : Time
}.

(** Assignments to one field *)

Definition set_Upload (x : Z) (r : Quota) : Quota := MkQuota x (Download r) (Total r) (Expire r).
Definition set_Download (x : Z) (r : Quota) : Quota := MkQuota (Upload r) x (Total r) (Expire r).
Definition set_Total (x : Z) (r : Quota) : Quota := MkQuota (Upload r) (Download r) x (Expire r).
Definition set_Expire (x : Z) (r : Quota) : Quota := MkQuota (Upload r) (Download r) (Total r) x.

Definition set_SpoofSNI (x : string) (r : ProxyConfig) : ProxyConfig := MkProxy x (TCPSplit r) (TLSRecordSplit r) (Raw r) (pScheme r) (Label r) (Selected r) (AddedAt r) (SubscriptionURL r) (RefreshedAt r) (pQuota r).
Definition set_TCPSplit (x : bool) (r : ProxyConfig) : ProxyConfig := MkProxy (SpoofSNI r) x (TLSRecordSplit r) (Raw r) (pScheme r) (Label r) (Selected r) (AddedAt r) (SubscriptionURL r) (RefreshedAt r) (pQuota r).
Definition set_TLSRecordSplit (x : bool) (r : ProxyConfig) : ProxyConfig := MkProxy (SpoofSNI r) (TCPSplit r) x (Raw r) (pScheme r) (Label r) (Selected r) (AddedAt r) (SubscriptionURL r) (RefreshedAt r) (pQuota r).
Definition set_Raw (x : string) (r : ProxyConfig) : ProxyConfig := MkProxy (SpoofSNI r) (TCPSplit r) (TLSRecordSplit r) x (pScheme r) (Label r) (Selected r) (AddedAt r) (SubscriptionURL r) (RefreshedAt r) (pQuota r).
Definition set_pScheme (x : string) (r : ProxyConfig) : ProxyConfig := MkProxy (SpoofSNI r) (TCPSplit r) (TLSRecordSplit r) (Raw r) x (Label r) (Selected r) (AddedAt r) (SubscriptionURL r) (RefreshedAt r) (pQuota r).
Definition set_Label (x : string) (r : ProxyConfig) : ProxyConfig := MkProxy (SpoofSNI r) (TCPSplit r) (TLSRecordSplit r) (Raw r) (pScheme r) x (Selected r) (AddedAt r) (SubscriptionURL r) (RefreshedAt r) (pQuota r).
Definition set_Selected (x : Z) (r : ProxyConfig) : ProxyConfig := MkProxy (SpoofSNI r) (TCPSplit r) (TLSRecordSplit r) (Raw r) (pScheme r) (Label r) x (AddedAt r) (SubscriptionURL r) (RefreshedAt r) (pQuota r).
Definition set_AddedAt (x : Time) (r : ProxyConfig) : ProxyConfig := MkProxy (SpoofSNI r) (TCPSplit r) (TLSRecordSplit r) (Raw r) (pScheme r) (Label r) (Selected r) x (SubscriptionURL r) (RefreshedAt r) (pQuota r).
Definition set_SubscriptionURL (x : string) (r : ProxyConfig) : ProxyConfig := MkProxy (SpoofSNI r) (TCPSplit r) (TLSRecordSplit r) (Raw r) (pScheme r) (Label r) (Selected r) (AddedAt r) x (RefreshedAt r) (pQuota r).
Definition set_RefreshedAt (x : Time) (r : ProxyConfig) : ProxyConfig := MkProxy (SpoofSNI r) (TCPSplit r) (TLSRecordSplit r) (Raw r) (pScheme r) (Label r) (Selected r) (AddedAt r) (SubscriptionURL r) x (pQuota r).
Definition set_pQuota (x : Quota) (r : ProxyConfig) : ProxyConfig := MkProxy (SpoofSNI r) (TCPSplit r) (TLSRecordSplit r) (Raw r) (pScheme r) (Label r) (Selected r) (AddedAt r) (SubscriptionURL r) (RefreshedAt r) x.

Definition set_hSSID (x : string) (r : HotspotConfig) : HotspotConfig := MkHotspotConfig x (hPassphrase r).
Definition set_hPassphrase (x : string) (r : HotspotConfig) : HotspotConfig := MkHotspotConfig (hSSID r) x.

Definition set_PasswordHash (x : string) (r : PanelAuth) : PanelAuth := MkPanelAuth x.

Definition set_InternetInterface (x : string) (r : Advanced) : Advanced := MkAdvanced x (HotspotInterface r) (aChannel r) (aBand r) (aCountry r) (aSubnet r) (DNSMode r) (OnTunnelDown r) (ClientIPv6 r) (aEngineLogLevel r) (PanelOnLAN r).
Definition set_HotspotInterface (x : string) (r : Advanced) : Advanced := MkAdvanced (InternetInterface r) x (aChannel r) (aBand r) (aCountry r) (aSubnet r) (DNSMode r) (OnTunnelDown r) (ClientIPv6 r) (aEngineLogLevel r) (PanelOnLAN r).
Definition set_aChannel (x : Z) (r : Advanced) : Advanced := MkAdvanced (InternetInterface r) (HotspotInterface r) x (aBand r) (aCountry r) (aSubnet r) (DNSMode r) (OnTunnelDown r) (ClientIPv6 r) (aEngineLogLevel r) (PanelOnLAN r).
Definition set_aBand (x : string) (r : Advanced) : Advanced := MkAdvanced (InternetInterface r) (HotspotInterface r) (aChannel r) x (aCountry r) (aSubnet r) (DNSMode r) (OnTunnelDown r) (ClientIPv6 r) (aEngineLogLevel r) (PanelOnLAN r).
Definition set_aCountry (x : string) (r : Advanced) : Advanced := MkAdvanced (InternetInterface r) (HotspotInterface r) (aChannel r) (aBand r) x (aSubnet r) (DNSMode r) (OnTunnelDown r) (ClientIPv6 r) (aEngineLogLevel r) (PanelOnLAN r).
Definition set_aSubnet (x : string) (r : Advanced) : Advanced := MkAdvanced (InternetInterface r) (HotspotInterface r) (aChannel r) (aBand r) (aCountry r) x (DNSMode r) (OnTunnelDown r) (ClientIPv6 r) (aEngineLogLevel r) (PanelOnLAN r).
Definition set_DNSMode (x : string) (r : Advanced) : Advanced := MkAdvanced (InternetInterface r) (HotspotInterface r) (aChannel r) (aBand r) (aCountry r) (aSubnet r) x (OnTunnelDown r) (ClientIPv6 r) (aEngineLogLevel r) (PanelOnLAN r).
Definition set_OnTunnelDown (x : string) (r : Advanced) : Advanced := MkAdvanced (InternetInterface r) (HotspotInterface r) (aChannel r) (aBand r) (aCountry r) (aSubnet r) (DNSMode r) x (ClientIPv6 r) (aEngineLogLevel r) (PanelOnLAN r).
Definition set_ClientIPv6 (x : string) (r : Advanced) : Advanced := MkAdvanced (InternetInterface r) (HotspotInterface r) (aChannel r) (aBand r) (aCountry r) (aSubnet r) (DNSMode r) (OnTunnelDown r) x (aEngineLogLevel r) (PanelOnLAN r).
Definition set_aEngineLogLevel (x : string) (r : Advanced) : Advanced := MkAdvanced (InternetInterface r) (HotspotInterface r) (aChannel r) (aBand r) (aCountry r) (aSubnet r) (DNSMode r) (OnTunnelDown r) (ClientIPv6 r) x (PanelOnLAN r).
Definition set_PanelOnLAN (x : bool) (r : Advanced) : Advanced := MkAdvanced (InternetInterface r) (HotspotInterface r) (aChannel r) (aBand r) (aCountry r) (aSubnet r) (DNSMode r) (OnTunnelDown r) (ClientIPv6 r) (aEngineLogLevel r) x.

Definition set_Version (x : Z) (r : State) : State := MkState x (Proxy r) (Hotspot r) (Panel r) (sAdvanced r) (UpdatedAt r).
Definition set_Proxy (x : ProxyConfig) (r : State) : State := MkState (Version r) x (Hotspot r) (Panel r) (sAdvanced r) (UpdatedAt r).
Definition set_Hotspot (x : HotspotConfig) (r : State) : State := MkState (Version r) (Proxy r) x (Panel r) (sAdvanced r) (UpdatedAt r).
Definition set_Panel (x : PanelAuth) (r : State) : State := MkState (Version r) (Proxy r) (Hotspot r) x (sAdvanced r) (UpdatedAt r).
Definition set_sAdvanced (x : Advanced) (r : State) : State := MkState (Version r) (Proxy r) (Hotspot r) (Panel r) x (UpdatedAt r).
Definition set_UpdatedAt (x : Time) (r : State) : State := MkState (Version r) (Proxy r) (Hotspot r) (Panel r) (sAdvanced r) x.

(** Secret.IsZero and what is asked of a secret without revealing it *)
Definition secret_zero (s : string) : bool := (s =? "")%string.
Definition IsConfigured (p : ProxyConfig) : bool := negb (secret_zero (Raw p)).
Definition HasSubscription (p : ProxyConfig) : bool := negb (secret_zero (SubscriptionURL p)).
Definition IsSet (p : PanelAuth) : bool := negb (secret_zero (PasswordHash p)).

Definition Fingerprint (p : ProxyConfig) : string :=
  if secret_zero (Raw p) then "" else EncodeToString (take 4 (Sum256 (bytes_of_string (Raw p)))).

Definition zero_quota : Quota := MkQuota 0 0 0 0.
Definition zero_proxy : ProxyConfig := MkProxy "" false false "" "" "" 0 zero_time "" zero_time zero_quota.
Definition zero_hotspot : HotspotConfig := MkHotspotConfig "" "".
Definition zero_panel : PanelAuth := MkPanelAuth "".
Definition zero_advanced : Advanced := MkAdvanced "" "" 0 "" "" "" "" "" "" "" false.

Definition defaultState : State :=
  MkState CurrentVersion zero_proxy zero_hotspot zero_panel
    (set_DNSMode DNSModeTunnel (set_OnTunnelDown OnTunnelDownBlock (set_ClientIPv6 ClientIPv6Block zero_advanced))) zero_time.

Definition formatTime (t : Time) : string := if IsZero t then "never" else of_l (RFC3339 (UTC t)).

Definition show_bool (b : bool) : string := if b then "true" else "false".
Definition show_if (b : bool) (s : string) : string := if b then s else "".

(** describeHash, of password.go *)
Definition describeHash (stored : string) : string :=
  match Password.decodeHash stored with
  | None => "unreadable"
  | Some p => "argon2id(m=" ++ Itoa (Password.pmemory p) ++ ",t=" ++ Itoa (Password.ptime p) ++ ",p=" ++
              Itoa (Password.pthreads p) ++ ")"
  end%string.

(** Redacted *)
Definition Redacted (s : State) : string :=
  let p := Proxy s in
  let a := sAdvanced s in
  ("version=" ++ Itoa (Version s) ++ " updated_at=" ++ formatTime (UpdatedAt s) ++
   " proxy.configured=" ++ show_bool (IsConfigured p) ++
   show_if (negb (pScheme p =? "")%string) (" proxy.scheme=" ++ pScheme p) ++
   show_if (negb (Label p =? "")%string) (" proxy.label=" ++ Quote (Label p)) ++
   show_if (negb (Fingerprint p =? "")%string)
     (" proxy.fingerprint=" ++ Fingerprint p ++ " proxy.selected=" ++ Itoa (Selected p)) ++
   " proxy.raw=" ++ redacted ++ " proxy.subscription_set=" ++ show_bool (HasSubscription p) ++
   show_if (negb (IsZero (RefreshedAt p))) (" proxy.refreshed_at=" ++ formatTime (RefreshedAt p)) ++
   " hotspot.ssid=" ++ Quote (hSSID (Hotspot s)) ++ " hotspot.passphrase=" ++ redacted ++
   " panel.password_set=" ++ show_bool (IsSet (Panel s)) ++
   show_if (IsSet (Panel s)) (" panel.password_kdf=" ++ describeHash (PasswordHash (Panel s))) ++
   " adv.internet_if=" ++ Quote (InternetInterface a) ++ " adv.hotspot_if=" ++ Quote (HotspotInterface a) ++
   " adv.channel=" ++ Itoa (aChannel a) ++ " adv.band=" ++ Quote (aBand a) ++ " adv.country=" ++ Quote (aCountry a) ++
   " adv.subnet=" ++ Quote (aSubnet a) ++ " adv.dns_mode=" ++ Quote (DNSMode a) ++
   " adv.on_tunnel_down=" ++ Quote (OnTunnelDown a) ++ " adv.client_ipv6=" ++ Quote (ClientIPv6 a) ++
   " adv.engine_log_level=" ++ Quote (aEngineLogLevel a) ++ " adv.panel_on_lan=" ++ show_bool (PanelOnLAN a))%string.

(** ** The file's shape: the struct tags *)

Definition is_false (b : bool) : bool := negb b.
Definition is_zero (z : Z) : bool := z =? 0.

Definition quota_fields : list (Field Quota) := [
  field "upload" int_codec never Upload set_Upload;
  field "download" int_codec never Download set_Download;
  field "total" int_codec never Total set_Total;
  field "expire" int_codec never Expire set_Expire].

Definition proxy_fields : list (Field ProxyConfig) := [
  field "spoof_sni" string_codec empty_text SpoofSNI set_SpoofSNI;
  field "tcp_split" bool_codec is_false TCPSplit set_TCPSplit;
  field "tls_record_split" bool_codec is_false TLSRecordSplit set_TLSRecordSplit;
  field "raw" string_codec never Raw set_Raw;
  field "scheme" string_codec empty_text pScheme set_pScheme;
  field "label" string_codec empty_text Label set_Label;
  field "selected" int_codec never Selected set_Selected;
  field "added_at" time_codec IsZero AddedAt set_AddedAt;
  field "subscriptionUrl" string_codec never SubscriptionURL set_SubscriptionURL;
  field "refreshed_at" time_codec IsZero RefreshedAt set_RefreshedAt;
  field "quota" (struct_codec quota_fields false) never pQuota set_pQuota].

Definition hotspot_fields : list (Field HotspotConfig) := [
  field "ssid" string_codec empty_text hSSID set_hSSID;
  field "passphrase" string_codec never hPassphrase set_hPassphrase].

Definition panel_fields : list (Field PanelAuth) := [
  field "password_hash" string_codec empty_text PasswordHash set_PasswordHash].

Definition advanced_fields : list (Field Advanced) := [
  field "internet_interface" string_codec empty_text InternetInterface set_InternetInterface;
  field "hotspot_interface" string_codec empty_text HotspotInterface set_HotspotInterface;
  field "channel" int_codec is_zero aChannel set_aChannel;
  field "band" string_codec empty_text aBand set_aBand;
  field "country" string_codec empty_text aCountry set_aCountry;
  field "subnet" string_codec empty_text aSubnet set_aSubnet;
  field "dns_mode" string_codec never DNSMode set_DNSMode;
  field "on_tunnel_down" string_codec never OnTunnelDown set_OnTunnelDown;
  field "client_ipv6" string_codec never ClientIPv6 set_ClientIPv6;
  field "engine_log_level" string_codec empty_text aEngineLogLevel set_aEngineLogLevel;
  field "panel_on_lan" bool_codec is_false PanelOnLAN set_PanelOnLAN].

Definition state_fields : list (Field State) := [
  field "version" int_codec never Version set_Version;
  field "proxy" (struct_codec proxy_fields false) never Proxy set_Proxy;
  field "hotspot" (struct_codec hotspot_fields false) never Hotspot set_Hotspot;
  field "panel" (struct_codec panel_fields false) never Panel set_Panel;
  field "advanced" (struct_codec advanced_fields false) never sAdvanced set_sAdvanced;
  field "updated_at" time_codec never UpdatedAt set_UpdatedAt].

Definition state_codec : Codec State := struct_codec state_fields false.

(** The bytes writeAtomic writes; a time no RFC 3339 text can hold is an error. *)
Definition encode_state (s : State) : option (list ascii) := EncodeIndent <$> enc state_codec s.

(** What Load decodes into. *)
Definition decode_base : State :=
  let a := sAdvanced defaultState in
  MkState 0 (Proxy defaultState) (Hotspot defaultState) (Panel defaultState)
    (set_DNSMode "" (set_OnTunnelDown "" (set_ClientIPv6 "" a))) (UpdatedAt defaultState).

Definition decode_state (raw : list ascii) : option State := j ← Unmarshal raw; dec state_codec j decode_base.

(** ** Errors *)

Inductive state_error :=
| EDirectory                         (* the directory, or one above it, cannot be used *)
| EPerms                             (* too open, or another account's *)
| EReading
| EJSON
| ErrFutureVersion (found supports : Z)
| ENotAVersion (found : Z)
| ENoMigration (from : Z)
| EMigrationStuck (from left : Z)
| ESNI
| EWrongVersion (found : Z)
| EEmptyPolicy
| EEncoding
| EWriting
| ERefused (why : string)
| ErrSubscriptionNotHTTPS | ErrSubscriptionNoHost | ErrSubscriptionIPLiteral | ErrSubscriptionUserinfo
| ErrSubscriptionTooLong | ErrSubscriptionMalformed
| ErrNoPanelPassword | EHash.

(** ** migrate.go *)

Definition fill (value x : string) : string := if (x =? "")%string then value else x.

Definition migrateV0ToV1 (st : State) : State :=
  let a := sAdvanced st in
  set_Version 1 (set_sAdvanced
    (set_OnTunnelDown (fill OnTunnelDownBlock (OnTunnelDown a)) (set_DNSMode (fill DNSModeTunnel (DNSMode a)) a)) st).
Definition migrateV1ToV2 (st : State) : State :=
  let a := sAdvanced st in set_Version 2 (set_sAdvanced (set_ClientIPv6 (fill ClientIPv6Block (ClientIPv6 a)) a) st).
Definition migrateV2ToV3 (st : State) : State := set_Version 3 st.
Definition migrateV3ToV4 (st : State) : State := set_Version 4 (set_Proxy (set_SpoofSNI "" (Proxy st)) st).
Definition migrateV4ToV5 (st : State) : State :=
  set_Version 5 (set_Proxy (set_TLSRecordSplit false (set_TCPSplit false (Proxy st))) st).

(** The map of migrations; none of them fails. *)
Definition migrations (v : Z) : option (State → State) :=
  if v =? 0 then Some migrateV0ToV1
  else if v =? 1 then Some migrateV1ToV2
  else if v =? 2 then Some migrateV2ToV3
  else if v =? 3 then Some migrateV3ToV4
  else if v =? 4 then Some migrateV4ToV5
  else None.

(** The loop: None when the fuel runs out before it ends. *)
Fixpoint migrate_loop (fuel : nat) (st : State) : option (res state_error State) :=
  if CurrentVersion <=? Version st then Some (Ok st)
  else match fuel with
       | O => None
       | S fuel =>
           let from := Version st in
           match migrations from with
           | None => Some (Err (ENoMigration from))
           | Some up =>
               let st := up st in
               if negb (Version st =? from + 1) then Some (Err (EMigrationStuck from (Version st)))
               else migrate_loop fuel st
           end
       end.

Definition migrate_fuel (fuel : nat) (st : State) : option (res state_error State) :=
  if CurrentVersion <? Version st then Some (Err (ErrFutureVersion (Version st) CurrentVersion))
  else if Version st <? 0 then Some (Err (ENotAVersion (Version st)))
  else migrate_loop fuel st.

(** Five steps are enough: a version below the current one is between 0 and 4. *)
Definition migrate (st : State) : res state_error State :=
  match migrate_fuel 5 st with Some r => r | None => Err (ENoMigration (Version st)) end.

(** ** subscription.go *)

Definition maxSubscriptionURL : nat := 2048.

Definition validateSubscriptionURL (raw : string) : res state_error unit :=
  if (maxSubscriptionURL <? String.length raw)%nat then Err ErrSubscriptionTooLong
  else if existsb is_ctl (to_l raw) then Err ErrSubscriptionMalformed
  else match Url.Parse raw with
       | None => Err ErrSubscriptionMalformed
       | Some u =>
           if negb (Facts.EqualFold (Scheme u) "https") then Err ErrSubscriptionNotHTTPS
           else match User u with
                | Some _ => Err ErrSubscriptionUserinfo
                | None =>
                    let host := Hostname u in
                    if (host =? "")%string then Err ErrSubscriptionNoHost
                    else
                      let host := fst (cut host "%") in
                      match ParseIP host with Some _ => Err ErrSubscriptionIPLiteral | None => Ok tt end
                end
       end.

(** ** The disk *)

Record Meta := MkMeta { is_dir : bool; perm : Z; owner : option Z }.

(** What os.Stat says. *)
Inductive stat := Absent | StatFails | Found (m : Meta).

Record File := MkFile { data : list ascii; flushed : bool; fmeta : Meta }.

Record Fs := MkFs {
  fs_dir : stat;                         (* the state directory *)
  fs_above : list stat;                  (* the directories above it, nearest first *)
  fs_now : gmap string File;             (* its entries, as programs see them *)
  fs_past : list (gmap string File)      (* the versions since it was last flushed *)
}.

(** What one file operation meets. *)
Inductive fault := Works | Fails | Short (n : nat).

Record Sys := MkSys {
  fs : Fs;
  faults : list fault;                   (* no more entries: everything works *)
  suffixes : list string;                (* what os.CreateTemp draws *)
  seen : list Fs                         (* every state of the disk, in order *)
}.

Definition SM (A : Type) : Type := SE Sys state_error A.

(** The next fault. *)
Definition meet : SM fault := λ w,
  match faults w with
  | [] => (Ok Works, w)
  | f :: l => (Ok f, MkSys (fs w) l (suffixes w) (seen w))
  end.

Definition set_fs (d : Fs) : SM unit := λ w, (Ok tt, MkSys d (faults w) (suffixes w) (seen w ++ [d])).

(** An operation that changes the disk when it works, and perhaps a little when it
    does not. *)
Definition change (works : Fs → Fs) (half : nat → Fs → Fs) : SM unit :=
  f <-- meet;; w <-- get;;
  match f with
  | Works => set_fs (works (fs w))
  | Fails => raise EWriting
  | Short n => set_fs (half n (fs w));;; raise EWriting
  end.

Definition with_now (m : gmap string File) (d : Fs) : Fs := MkFs (fs_dir d) (fs_above d) m (fs_past d).
Definition edit (name : string) (f : File → File) (d : Fs) : Fs := with_now (alter f name (fs_now d)) d.
Definition not_at_all (_ : nat) (d : Fs) : Fs := d.

(** ** store.go *)

Record Store := MkStore { cur : State; firstRun : bool }.

Definition dirMode : Z := 448.    (* 0700 *)
Definition fileMode : Z := 384.   (* 0600 *)

Section Store.
Context (toASCII : string → option string) (euid : Z).

(** checkPerms of perm_unix.go *)
Definition checkPerms (m : Meta) (want : Z) : res state_error unit :=
  if negb (Z.land (perm m) (Z.lnot want) =? 0) then Err EPerms
  else match owner m with
       | None => Ok tt
       | Some uid => if negb (uid =? euid) && negb (euid =? 0) then Err EPerms else Ok tt
       end.

(** The directory is missing: the nearest one above that exists has to be one. *)
Fixpoint check_above (l : list stat) : res state_error unit :=
  match l with
  | [] => Ok tt
  | Found m :: _ => if is_dir m then Ok tt else Err EDirectory
  | StatFails :: _ => Err EDirectory
  | Absent :: l => check_above l
  end.

Definition asFirstRun : Store := MkStore defaultState true.

(** Load, from what the directory and the file are; [read] is os.ReadFile. *)
Definition load_file (f : option (list ascii)) : res state_error State :=
  match f with
  | None => Err EReading
  | Some raw => match decode_state raw with None => Err EJSON | Some st => migrate st end
  end.

Definition Load (d : Fs) (read : File → option (list ascii)) : res state_error Store :=
  match fs_dir d with
  | Absent => let? _ := check_above (fs_above d) in Ok asFirstRun
  | StatFails => Err EDirectory
  | Found m =>
      if negb (is_dir m) then Err EDirectory
      else
        let? _ := checkPerms m dirMode in
        match fs_now d !! FileName with
        | None => Ok asFirstRun
        | Some f =>
            if is_dir (fmeta f) then Err EReading
            else
              let? _ := checkPerms (fmeta f) fileMode in
              let? st := load_file (read f) in
              Ok (MkStore st false)
        end
  end.

Definition NeedsSetup (s : Store) : bool := negb (IsSet (Panel (cur s))) || negb (IsConfigured (Proxy (cur s))).

(** validate *)
Definition validate (s : State) : res state_error unit :=
  let p := Proxy s in
  let name := SpoofSNI p in
  let clean := match Hello.NormalizeName toASCII name with Ok n => (n =? name)%string | Err _ => false end in
  if negb clean || ((negb (name =? "")%string || TCPSplit p || TLSRecordSplit p) && negb (IsConfigured p)) then Err ESNI
  else if negb (Version s =? CurrentVersion) then Err (EWrongVersion (Version s))
  else if (DNSMode (sAdvanced s) =? "")%string then Err EEmptyPolicy
  else if (OnTunnelDown (sAdvanced s) =? "")%string then Err EEmptyPolicy
  else if (ClientIPv6 (sAdvanced s) =? "")%string then Err EEmptyPolicy
  else Ok tt.

(** ensureDir *)
Definition ensureDir : SM unit :=
  w <-- get;;
  match fs_dir (fs w) with
  | Absent =>
      change (λ d, MkFs (Found (MkMeta true dirMode (Some euid))) (fs_above d) (fs_now d) (fs_past d)) not_at_all
  | StatFails => raise EDirectory
  | Found m => if negb (is_dir m) then raise EDirectory else lift_res (checkPerms m dirMode)
  end.

Definition temp_name (suffix : string) : string := (".state-" ++ suffix ++ ".tmp")%string.

(** os.CreateTemp: the first name drawn that is not taken. *)
Fixpoint draw (l : list string) (taken : gmap string File) : option (string * list string) :=
  match l with
  | [] => None
  | s :: l => if bool_decide (is_Some (taken !! temp_name s)) then draw l taken else Some (temp_name s, l)
  end.

Definition CreateTemp : SM string :=
  w <-- get;;
  match draw (suffixes w) (fs_now (fs w)) with
  | None => raise EWriting
  | Some (name, rest) =>
      (λ w, (Ok tt, MkSys (fs w) (faults w) rest (seen w)));;;
      change (λ d, with_now (<[name := MkFile [] false (MkMeta false fileMode (Some euid))]> (fs_now d)) d) not_at_all;;;
      ret name
  end.

Definition Chmod (name : string) : SM unit :=
  change (edit name (λ f, MkFile (data f) (flushed f) (MkMeta false fileMode (owner (fmeta f))))) not_at_all.
Definition Write (name : string) (buf : list ascii) : SM unit :=
  change (edit name (λ f, MkFile buf false (fmeta f))) (λ n, edit name (λ f, MkFile (take n buf) false (fmeta f))).
Definition Sync (name : string) : SM unit := change (edit name (λ f, MkFile (data f) true (fmeta f))) not_at_all.
Definition CloseFile : SM unit := change (λ d, d) not_at_all.

(** os.Rename over the target: the directory as it was is one of its past versions. *)
Definition replaceStateFile (from to : string) : SM unit :=
  change (λ d, match fs_now d !! from with
               | Some f => MkFs (fs_dir d) (fs_above d) (<[to := f]> (delete from (fs_now d))) (fs_now d :: fs_past d)
               | None => d
               end) not_at_all.

Definition syncDir : SM unit := change (λ d, MkFs (fs_dir d) (fs_above d) (fs_now d) []) not_at_all.

Definition RemoveFile (name : string) : SM unit := change (λ d, with_now (delete name (fs_now d)) d) not_at_all.

(** writeAtomic; hookAfterTempWrite is nil outside the tests *)
Definition writeAtomic (st : State) : SM unit :=
  ensureDir;;;
  match encode_state st with
  | None => raise EEncoding
  | Some buf =>
      tmp <-- CreateTemp;;
      r <-- attempt_ (Chmod tmp;;; Write tmp buf;;; Sync tmp;;; CloseFile;;; replaceStateFile tmp FileName);;
      match r with
      | Err e => attempt_ CloseFile;;; attempt_ (RemoveFile tmp);;; raise e
      | Ok _ => syncDir
      end
  end.

(** What Update writes, [fn] applied to a copy. *)
Definition next_state (fn : State → res state_error State) (now : Time) (st : State) : res state_error State :=
  let? st := fn st in
  let st := set_UpdatedAt now (set_Version CurrentVersion st) in
  let? _ := validate st in
  Ok st.

(** Update: the store's memory is the first component *)
Definition Update (fn : State → res state_error State) (now : Time) (s : Store) (w : Sys) : res state_error unit * Store * Sys :=
  match next_state fn now (cur s) with
  | Err e => (Err e, s, w)
  | Ok st =>
      match writeAtomic st w with
      | (Err e, w) => (Err e, s, w)
      | (Ok _, w) => (Ok tt, MkStore st false, w)
      end
  end.

Definition Save (now : Time) : Store → Sys → res state_error unit * Store * Sys := Update Ok now.

(** The edits, each the function it hands to Update *)

Definition edit_proxy (f : ProxyConfig → res state_error ProxyConfig) (st : State) : res state_error State :=
  let? p := f (Proxy st) in Ok (set_Proxy p st).

Definition SetProxyConfig (raw scheme label : string) (now : Time) : State → res state_error State := edit_proxy (λ p,
  if (raw =? "")%string then Err (ERefused "proxy config must not be empty")
  else Ok (MkProxy "" false false raw scheme label 0 now (SubscriptionURL p) zero_time zero_quota)).

Definition SelectProxyEntry (i : Z) : State → res state_error State := edit_proxy (λ p,
  if i <? 0 then Err (ERefused "the proxy entry to use cannot be negative")
  else if negb (IsConfigured p) then Err (ERefused "no proxy config is stored, so there is no entry to select")
  else Ok (set_Selected i p)).

Definition SetHotspot (ssid passphrase : string) (st : State) : res state_error State :=
  Ok (set_Hotspot (MkHotspotConfig ssid passphrase) st).

(** [hash] is hashPassword's answer, None when it failed *)
Definition SetPanelPassword (hash : option string) (st : State) : res state_error State :=
  match hash with
  | None => Err EHash
  | Some h => Ok (set_Panel (MkPanelAuth h) st)
  end.

Definition SetSubscriptionURL (u : string) (st : State) : res state_error State :=
  let? _ := validateSubscriptionURL u in edit_proxy (λ p, Ok (set_SubscriptionURL u p)) st.

Definition RecordRefresh (raw scheme label : string) (q : Quota) (at_ : Time) : State → res state_error State := edit_proxy (λ p,
  if (raw =? "")%string then Err (ERefused "proxy config must not be empty")
  else if negb (HasSubscription p) then Err (ERefused "no subscription address is stored, so there is nothing to refresh from")
  else if (Upload q <? 0) || (Download q <? 0) || (Total q <? 0) || (Expire q <? 0) then
    Err (ERefused "the usage figures from a refresh cannot be negative")
  else Ok (set_pQuota q (set_RefreshedAt (UTC at_) (set_AddedAt (UTC at_) (set_Selected 0
    (set_Label label (set_pScheme scheme (set_Raw raw p)))))))).

(** sni.go *)
Definition SetDPISettings (name : string) (tcpSplit tlsRecordSplit : bool) (st : State) : res state_error State :=
  match Hello.NormalizeName toASCII name with
  | Err _ => Err ESNI
  | Ok name => edit_proxy (λ p,
      if negb (IsConfigured p) then Err (ERefused "no proxy configuration is stored")
      else Ok (set_TLSRecordSplit tlsRecordSplit (set_TCPSplit tcpSplit (set_SpoofSNI name p)))) st
  end.

Definition SetSpoofSNI (name : string) (st : State) : res state_error State :=
  match Hello.NormalizeName toASCII name with
  | Err _ => Err ESNI
  | Ok name => edit_proxy (λ p,
      if negb (IsConfigured p) then Err (ERefused "no proxy configuration is stored") else Ok (set_SpoofSNI name p)) st
  end.

End Store.
