(* ===== verification/StateFacts.v ===== *)
(** * What the settings file guarantees *)

From S2P Require Import Prelude GoStrings Sha256 Netip Text Json JsonFacts GoTime JsonStruct Url StateError State.
From S2P Require Hello Password.

Local Open Scope Z_scope.

(** ** The file reads back *)

Definition int64 (z : Z) : Prop := - 2 ^ 63 ≤ z < 2 ^ 63.
(** A time a field with omitzero holds: the zero time is the zero value. *)
Definition stored_time (t : Time) : Prop := time_ok t ∧ (IsZero t = true → t = zero_time).

Definition quota_ok (q : Quota) : Prop := int64 (Upload q) ∧ int64 (Download q) ∧ int64 (Total q) ∧ int64 (Expire q).
Definition proxy_ok (p : ProxyConfig) : Prop :=
  Forall (λ s, ValidString s = true) [SpoofSNI p; Raw p; pScheme p; Label p; SubscriptionURL p] ∧
  int64 (Selected p) ∧ stored_time (AddedAt p) ∧ stored_time (RefreshedAt p) ∧ quota_ok (pQuota p).
Definition advanced_ok (a : Advanced) : Prop :=
  Forall (λ s, ValidString s = true) [InternetInterface a; HotspotInterface a; aBand a; aCountry a; aSubnet a; DNSMode a;
    OnTunnelDown a; ClientIPv6 a; aEngineLogLevel a] ∧ int64 (aChannel a).
Definition state_ok (s : State) : Prop :=
  int64 (Version s) ∧ proxy_ok (Proxy s) ∧
  Forall (λ s, ValidString s = true) [hSSID (Hotspot s); hPassphrase (Hotspot s); PasswordHash (Panel s)] ∧
  advanced_ok (sAdvanced s) ∧ time_ok (UpdatedAt s).

Lemma omit_text s : empty_text s = true → s = ""%string.
Proof. apply String.eqb_eq. Qed.
Lemma omit_false b : is_false b = true → b = false.
Proof. by destruct b. Qed.
Lemma omit_zero z : is_zero z = true → z = 0.
Proof. apply Z.eqb_eq. Qed.

(** One field after another, the omitted ones being already there. *)
Ltac omitted Ho :=
  lazymatch type of Ho with
  | never _ = true => discriminate Ho
  | empty_text _ = true => apply omit_text in Ho
  | is_false _ = true => apply omit_false in Ho
  | is_zero _ = true => apply omit_zero in Ho
  | IsZero _ = true => match goal with Hs : stored_time _ |- _ => apply (proj2 Hs) in Ho end
  end; rewrite Ho; reflexivity.
Ltac follow_fields n := follow_fields_by n ltac:(fun Ho => omitted Ho).

Lemma quota_faithful q : quota_ok q → faithful (struct_codec quota_fields false) 1 anything q.
Proof.
  intros (H1 & H2 & H3 & H4). apply faithful_struct; [distinct_names| |by exists zero_quota|].
  - intros old _. unfold quota_fields. follow_fields 0%nat. by destruct q.
  - unfold quota_fields. plain_fields.
Qed.

Lemma faithful_stored n t : stored_time t → faithful time_codec n anything t.
Proof. intros [Ht _]. by apply faithful_time. Qed.
#[local] Hint Resolve faithful_stored : faithful.

Lemma quota_deep n q : quota_ok q → faithful (struct_codec quota_fields false) (S n) anything q.
Proof. intros Hq. eapply faithful_mono; [|by apply quota_faithful]. lia. Qed.
#[local] Hint Resolve quota_deep : faithful.

Lemma proxy_faithful p : proxy_ok p → faithful (struct_codec proxy_fields false) 2 (λ old, old = zero_proxy) p.
Proof.
  intros (Hs & Hi & Ha & Hr & Hq). repeat (apply Forall_cons in Hs as [? Hs]).
  apply faithful_struct; [distinct_names| |by eexists|].
  - intros old ->. unfold proxy_fields. follow_fields 1%nat. by destruct p.
  - unfold proxy_fields. plain_fields.
Qed.

Lemma hotspot_faithful h : ValidString (hSSID h) = true → ValidString (hPassphrase h) = true →
  faithful (struct_codec hotspot_fields false) 2 (λ old, old = zero_hotspot) h.
Proof.
  intros H1 H2. apply faithful_struct; [distinct_names| |by eexists|].
  - intros old ->. unfold hotspot_fields. follow_fields 1%nat. by destruct h.
  - unfold hotspot_fields. plain_fields.
Qed.

Lemma panel_faithful p : ValidString (PasswordHash p) = true →
  faithful (struct_codec panel_fields false) 2 (λ old, old = zero_panel) p.
Proof.
  intros H1. apply faithful_struct; [distinct_names| |by eexists|].
  - intros old ->. unfold panel_fields. follow_fields 1%nat. by destruct p.
  - unfold panel_fields. plain_fields.
Qed.

Lemma advanced_faithful a : advanced_ok a → faithful (struct_codec advanced_fields false) 2 (λ old, old = zero_advanced) a.
Proof.
  intros (Hs & Hc). repeat (apply Forall_cons in Hs as [? Hs]). apply faithful_struct; [distinct_names| |by eexists|].
  - intros old ->. unfold advanced_fields. follow_fields 1%nat. by destruct a.
  - unfold advanced_fields. plain_fields.
Qed.
#[local] Hint Resolve proxy_faithful hotspot_faithful panel_faithful advanced_faithful : faithful.

Lemma state_faithful s : state_ok s → faithful state_codec 3 (λ old, old = decode_base) s.
Proof.
  intros (Hv & Hp & Hs & Ha & Ht). repeat (apply Forall_cons in Hs as [? Hs]). apply faithful_struct; [distinct_names| |by eexists|].
  - intros old ->. unfold state_fields. follow_fields 2%nat. by destruct s.
  - unfold state_fields. plain_fields.
Qed.

(** What Update writes is what Load decodes. *)
Lemma state_reads_back s : state_ok s → ∃ buf, encode_state s = Some buf ∧ decode_state buf = Some s.
Proof.
  intros Hs. destruct (state_faithful s Hs) as (j & Ej & Hp & Hd). exists (EncodeIndent j). unfold encode_state, decode_state. rewrite Ej.
  split; [done|]. rewrite (Unmarshal_EncodeIndent j 3 Hp) by (vm_compute; discriminate). cbn [mbind option_bind]. by apply Hd.
Qed.

(** ** Power cuts *)

(** What a power cut may leave of a disk: the target as it was in some version of
    the directory since the last flush, with its own bytes if they were flushed. *)
Definition crash_of (d c : Fs) : Prop :=
  fs_dir c = fs_dir d ∧
  ∃ v, v ∈ fs_now d :: fs_past d ∧
    match v !! FileName with
    | None => fs_now c !! FileName = None
    | Some f => ∃ b, fs_now c !! FileName = Some (MkFile b true (fmeta f)) ∧ (flushed f = true → b = data f)
    end.

(** The target's versions. *)
Definition targets (d : Fs) : list (option File) := (λ v : gmap string File, v !! FileName) <$> fs_now d :: fs_past d.

Section Writing.
Context (toASCII : string → option string) (euid : Z) (w0 : Sys) (buf : list ascii).

Definition new_file (x : option File) : Prop := ∃ f, x = Some f ∧ data f = buf ∧ flushed f = true ∧ fmeta f = MkMeta false fileMode (Some euid).
Definition allowed (d : Fs) : Prop :=
  fs_dir d = fs_dir (fs w0) ∧ ∀ x, x ∈ targets d → x ∈ targets (fs w0) ∨ new_file x.

(** Every disk since the start is one of these. *)
Definition on_course (w : Sys) : Prop :=
  allowed (fs w) ∧ ∃ later, seen w = (seen w0 ++ later)%list ∧ Forall allowed later.

(** The temporary file, and what is known of it. *)
Definition temp (name : string) (P : File → Prop) (w : Sys) : Prop :=
  on_course w ∧ name ≠ FileName ∧ ∃ f, fs_now (fs w) !! name = Some f ∧ fmeta f = MkMeta false fileMode (Some euid) ∧ P f.

Lemma change_course (works : Fs → Fs) half (P Q : Sys → Prop) :
  (∀ w, P w → on_course w) →
  (∀ w, P w → allowed (works (fs w))) → (∀ w n, P w → allowed (half n (fs w))) →
  (∀ w w', P w → on_course w' → fs w' = works (fs w) → Q w') →
  hoare P (change works half) (λ _, Q) on_course.
Proof.
  intros HP Hw Hh HQ w Hp. pose proof (HP w Hp) as [Ha (later & El & Hl)]. specialize (Hw w Hp).
  assert (∀ d, allowed d → ∀ fl, on_course (MkSys d fl (suffixes w) (seen w ++ [d]))) as Hon.
  { intros d Hd fl. split; [exact Hd|]. exists (later ++ [d])%list. simpl. rewrite El, app_assoc. split; [done|].
    apply Forall_app. split; [done|]. by apply Forall_singleton. }
  unfold change, bind, meet, get. destruct (faults w) as [|fl fls]; simpl.
  - apply (HQ w); [done| |done]. by apply Hon.
  - destruct fl; simpl.
    + apply (HQ w); [done| |done]. by apply Hon.
    + split; [exact Ha|]. eauto.
    + apply Hon. by apply Hh.
Qed.

Lemma targets_edit name g d : name ≠ FileName → targets (edit name g d) = targets d.
Proof. intros Hn. unfold targets, edit, with_now. simpl. by rewrite lookup_alter_ne. Qed.

Lemma allowed_same d d' : fs_dir d' = fs_dir d → targets d' = targets d → allowed d → allowed d'.
Proof. unfold allowed. by intros -> ->. Qed.

(** One change to the temporary file. *)
Lemma edit_course name (g : File → File) (half : nat → Fs → Fs) (P Q : File → Prop) :
  (∀ n d, name ≠ FileName → fs_dir (half n d) = fs_dir d ∧ targets (half n d) = targets d) →
  (∀ f, P f → Q (g f)) → (∀ f, fmeta f = MkMeta false fileMode (Some euid) → fmeta (g f) = MkMeta false fileMode (Some euid)) →
  hoare (temp name P) (change (edit name g) half) (λ _, temp name Q) on_course.
Proof.
  intros Hh Hg Hm. apply change_course.
  - intros w [Ho _]. exact Ho.
  - intros w ([Ha _] & Hn & _). eapply allowed_same; [| |exact Ha]; [done|by apply targets_edit].
  - intros w n ([Ha _] & Hn & _). eapply allowed_same; [| |exact Ha]; by apply Hh.
  - intros w w' (_ & Hn & f & Ef & Em & Hf) Ho E. split; [exact Ho|]. split; [exact Hn|]. exists (g f).
    rewrite E. unfold edit, with_now. simpl. rewrite lookup_alter, Ef. split_and!; [by rewrite decide_True|auto..].
Qed.

Lemma same_course (P Q : Sys → Prop) : (∀ w, P w → on_course w) → (∀ w w', P w → on_course w' → fs w' = fs w → Q w') →
  hoare P CloseFile (λ _, Q) on_course.
Proof.
  intros HP HQ. apply change_course; [done| | |by intros w w' Hp Ho E; apply (HQ w)]; intros; by apply HP.
Qed.

Lemma rename_course name : hoare (temp name (λ f, data f = buf ∧ flushed f = true)) (replaceStateFile name FileName)
  (λ _ w, on_course w ∧ new_file (fs_now (fs w) !! FileName)) on_course.
Proof.
  unfold replaceStateFile. apply change_course.
  - intros w [Ho _]. exact Ho.
  - intros w ([[Hd Ha] _] & Hn & f & Ef & Em & Hb & Hf). rewrite Ef. split; [exact Hd|]. unfold targets. simpl.
    intros x [->|Hx]%elem_of_cons; [right; rewrite lookup_insert_eq; unfold new_file; eauto|]. apply Ha. exact Hx.
  - intros w n [[Ha _] _]. exact Ha.
  - intros w w' (_ & Hn & f & Ef & Em & Hb & Hf) Ho E. split; [exact Ho|]. rewrite E, Ef. simpl. rewrite lookup_insert_eq. exists f. eauto.
Qed.

(** The steps between creating the temporary file and renaming it. *)
Lemma body_course name :
  hoare (temp name (λ _, True)) (Chmod name;;; Write name buf;;; Sync name;;; CloseFile;;; replaceStateFile name FileName)%svc
    (λ _ w, on_course w ∧ new_file (fs_now (fs w) !! FileName)) on_course.
Proof.
  unfold Chmod, Write, Sync.
  eapply (hoare_bind _ _ (λ _, _)); [apply (edit_course name _ _ (λ _, True) (λ _, True)); [done|done|by intros [] ?; simpl in *; subst]|]. intros [].
  eapply (hoare_bind _ _ (λ _, _)); [apply (edit_course name _ _ _ (λ f, data f = buf)); [split; [done|by apply targets_edit]|done|done]|]. intros [].
  eapply (hoare_bind _ _ (λ _, _)); [apply (edit_course name _ _ _ (λ f, data f = buf ∧ flushed f = true)); done|]. intros [].
  eapply (hoare_bind _ _ (λ _, _)); [apply (same_course _ (temp name (λ f, data f = buf ∧ flushed f = true)))|intros []; apply rename_course].
  - intros w [Ho _]. exact Ho.
  - intros w w' (_ & Hn & Hf) Ho E. split; [exact Ho|]. rewrite E. auto.
Qed.

Lemma draw_temp l taken name rest : draw l taken = Some (name, rest) → taken !! name = None ∧ name ≠ FileName.
Proof.
  induction l as [|x l IH]; simpl; [done|]. case_bool_decide as E; [exact IH|]. intros [= <- <-]. split.
  - by apply eq_None_not_Some.
  - unfold temp_name, FileName. by destruct x.
Qed.

Lemma create_course : hoare on_course (CreateTemp euid) (λ name, temp name (λ _, True)) on_course.
Proof.
  intros w Hw. unfold CreateTemp, bind at 1, get. destruct (draw (suffixes w) (fs_now (fs w))) as [[name rest]|] eqn:Ed; [|exact Hw].
  apply draw_temp in Ed as [Hfree Hn]. unfold bind at 1.
  assert (on_course (MkSys (fs w) (faults w) rest (seen w))) as Hw' by exact Hw.
  assert (hoare (λ w', on_course w' ∧ fs w' = fs w)
    (bind (change (λ d, with_now (<[name := MkFile [] false (MkMeta false fileMode (Some euid))]> (fs_now d)) d) not_at_all) (λ _, ret name))
    (λ name, temp name (λ _, True)) on_course) as HT; [|exact (HT _ (conj Hw' eq_refl))].
  eapply (hoare_bind _ _ (λ _, temp name (λ _, True))); [|intros []; by apply hoare_ret].
  apply change_course.
  - by intros w1 [Ho _].
  - intros w1 [[Ha _] E]. eapply allowed_same; [| |exact Ha]; [done|]. unfold targets, with_now. simpl. by rewrite lookup_insert_ne.
  - intros w1 n [[Ha _] _]. exact Ha.
  - intros w1 w2 [_ E] Ho E2. split; [exact Ho|]. split; [exact Hn|]. exists (MkFile [] false (MkMeta false fileMode (Some euid))).
    rewrite E2. simpl. by rewrite lookup_insert_eq.
Qed.

Lemma sync_dir_course : hoare (λ w, on_course w ∧ new_file (fs_now (fs w) !! FileName)) syncDir
  (λ _ w, on_course w ∧ ∀ x, x ∈ targets (fs w) → new_file x) on_course.
Proof.
  apply change_course.
  - by intros w [Ho _].
  - intros w [[[Hd Ha] _] Hn]. split; [exact Hd|]. unfold targets. simpl. intros x ->%list_elem_of_singleton. by right.
  - intros w n [[Ha _] _]. exact Ha.
  - intros w w' [_ Hn] Ho E. split; [exact Ho|]. rewrite E. unfold targets. simpl. by intros x ->%list_elem_of_singleton.
Qed.

Lemma remove_course name : name ≠ FileName → hoare on_course (attempt_ (RemoveFile name)) (λ _, on_course) on_course.
Proof.
  intros Hn. eapply hoare_attempt; [|intros a w Hw; exact Hw|intros e w Hw; exact Hw]. apply change_course; [done|..].
  - intros w [Ha _]. eapply allowed_same; [| |exact Ha]; [done|]. unfold targets, with_now. simpl. by rewrite lookup_delete_ne.
  - intros w n [Ha _]. exact Ha.
  - auto.
Qed.

Lemma close_course : hoare on_course (attempt_ CloseFile) (λ _, on_course) on_course.
Proof. eapply hoare_attempt; [apply (same_course _ on_course); auto|auto..]. Qed.

(** Once the directory is there: every disk on the way has the target as it was, or
    new and whole; and success leaves nothing but the new one. *)
Lemma write_course m st : encode_state st = Some buf →
  fs_dir (fs w0) = Found m → is_dir m = true → checkPerms euid m dirMode = Ok tt →
  hoare (λ w, w = w0) (writeAtomic euid st) (λ _ w, on_course w ∧ ∀ x, x ∈ targets (fs w) → new_file x) on_course.
Proof.
  intros Ee Hd Hdir Hp. unfold writeAtomic.
  eapply (hoare_bind _ _ (λ _, on_course)).
  { intros w ->. unfold ensureDir, bind, get. rewrite Hd, Hdir. simpl. unfold lift_res. rewrite Hp. simpl.
    split; [split; [done|auto]|]. exists []. by rewrite app_nil_r. }
  intros []. rewrite Ee. eapply (hoare_bind _ _ _); [apply create_course|]. intros name.
  intros w Hw. assert (name ≠ FileName) as Hn by apply Hw. revert w Hw.
  change (hoare (temp name (λ _, True)) (r <-- attempt_ (Chmod name;;; Write name buf;;; Sync name;;; CloseFile;;; replaceStateFile name FileName);;
    match r with Err e => attempt_ CloseFile;;; attempt_ (RemoveFile name);;; raise e | Ok _ => syncDir end)%svc
    (λ _ w, on_course w ∧ ∀ x, x ∈ targets (fs w) → new_file x) on_course).
  eapply (hoare_bind _ _ (λ r w, match r with Ok _ => on_course w ∧ new_file (fs_now (fs w) !! FileName) | Err _ => on_course w end)).
  { eapply hoare_attempt; [apply body_course|done|done]. }
  intros [u|e]; [apply sync_dir_course|].
  eapply (hoare_bind _ _ (λ _, on_course)); [apply close_course|]. intros _.
  eapply (hoare_bind _ _ (λ _, on_course)); [by apply remove_course|]. intros _. by apply hoare_raise.
Qed.
End Writing.

(** ** Loading *)

(** os.ReadFile *)
Definition reads_bytes (f : File) : option (list ascii) := Some (data f).

(** Whatever a power cut leaves of the disk loads as [st]. *)
Definition in_sync (euid : Z) (d : Fs) (st : State) : Prop :=
  ∀ c, crash_of d c → ∃ fr, Load euid c reads_bytes = Ok (MkStore st fr).

Lemma crash_targets d c : crash_of d c ↔ fs_dir c = fs_dir d ∧ ∃ x, x ∈ targets d ∧
  match x with
  | None => fs_now c !! FileName = None
  | Some f => ∃ b, fs_now c !! FileName = Some (MkFile b true (fmeta f)) ∧ (flushed f = true → b = data f)
  end.
Proof.
  unfold crash_of, targets. split; intros [Hd Hx]; (split; [exact Hd|]).
  - destruct Hx as (v & Hv & Hx). exists (v !! FileName). split; [|exact Hx]. by apply list_elem_of_fmap_2.
  - destruct Hx as (y & Hy & Hx). apply list_elem_of_fmap in Hy as (v & -> & Hv). eauto.
Qed.

Lemma migrate_current st : Version st = CurrentVersion → migrate st = Ok st.
Proof. intros Hv. unfold migrate, migrate_fuel. rewrite Hv. simpl. by rewrite Hv. Qed.

(** A new file loads as what was written. *)
Lemma new_file_loads euid st buf d c m x :
  state_ok st → Version st = CurrentVersion → encode_state st = Some buf →
  fs_dir d = Found m → is_dir m = true → checkPerms euid m dirMode = Ok tt → x ∈ targets d → new_file euid buf x →
  fs_dir c = fs_dir d → match x with
  | None => fs_now c !! FileName = None
  | Some f => ∃ b, fs_now c !! FileName = Some (MkFile b true (fmeta f)) ∧ (flushed f = true → b = data f)
  end → Load euid c reads_bytes = Ok (MkStore st false).
Proof.
  intros Hs Hv Ee Hd Hdir Hp _ (f & -> & Hb & Hf & Hm) Hcd (b & Ec & Eb). specialize (Eb Hf). subst b.
  unfold Load. rewrite Hcd, Hd, Hdir. simpl. rewrite Hp. simpl. rewrite Ec. simpl. rewrite Hm. simpl.
  unfold checkPerms at 1. simpl. rewrite Z.eqb_refl. simpl. destruct (state_reads_back st Hs) as (buf' & E' & Hdec).
  rewrite Ee in E'. injection E' as <-. rewrite Hb, Hdec. by rewrite migrate_current.
Qed.

Lemma next_version toASCII fn now st0 st : next_state toASCII fn now st0 = Ok st → Version st = CurrentVersion.
Proof.
  unfold next_state. destruct (fn st0) as [s1|e]; [|done]. simpl. destruct (validate _ _) as [u|e]; [|done]. by intros [= <-].
Qed.

(** C14. Saving settings is all or nothing, at every instant: in a directory that is
    there with the mode and owner asked for, from a disk that any power cut leaves
    loading as the settings in memory, and for new settings whose texts are valid
    UTF-8, whose numbers fit int64 and whose times can be printed, an update that is
    cut off at any point, or fails at any of its file operations, leaves a disk that
    loads as the old settings or as the new ones, whole; a reported success leaves
    only the new ones, whatever happens next, and a reported failure leaves the
    settings in memory as they were, while the disk may already hold the new ones
    when it was the last flush that failed. A first write, which also makes the
    directory, is not covered: the directory's own entry is not flushed. A label cut
    inside a character (PanelFacts.label_cut_inside_a_rune) is not valid UTF-8. *)
Theorem update_crash_consistent toASCII euid fn now s w m st :
  fs_dir (fs w) = Found m → is_dir m = true → checkPerms euid m dirMode = Ok tt →
  in_sync euid (fs w) (cur s) → next_state toASCII fn now (cur s) = Ok st → state_ok st →
  let '(r, s', w') := Update toASCII euid fn now s w in
  ∃ later, seen w' = (seen w ++ later)%list ∧
    (∀ d c, d ∈ fs w' :: later → crash_of d c →
       ∃ st' fr, Load euid c reads_bytes = Ok (MkStore st' fr) ∧ (st' = cur s ∨ st' = st)) ∧
    match r with
    | Ok _ => s' = MkStore st false ∧ in_sync euid (fs w') st
    | Err _ => s' = s
    end.
Proof.
  intros Hd Hdir Hp Hsync Hnext Hok. unfold Update. rewrite Hnext. destruct (state_reads_back st Hok) as (buf & Ee & _).
  pose proof (next_version _ _ _ _ _ Hnext) as Hv. pose proof (write_course euid w buf m st Ee Hd Hdir Hp w eq_refl) as Hw.
  assert (∀ d, allowed euid w buf d → ∀ c, crash_of d c →
    ∃ st' fr, Load euid c reads_bytes = Ok (MkStore st' fr) ∧ (st' = cur s ∨ st' = st)) as Hload.
  { intros d [Hdd Ha] c Hc. apply crash_targets in Hc as (Hcd & x & Hx & Hxc). destruct (Ha x Hx) as [Hold|Hnew].
    - destruct (Hsync c) as [fr Hl]; [apply crash_targets; split; [by rewrite Hcd|eauto]|]. eauto.
    - eexists _, _. split; [|by right]. apply (new_file_loads euid st buf d c m x); try done. by rewrite Hdd. }
  assert (∀ w', on_course euid w buf w' → ∃ later, seen w' = (seen w ++ later)%list ∧
    (∀ d c, d ∈ fs w' :: later → crash_of d c →
       ∃ st' fr, Load euid c reads_bytes = Ok (MkStore st' fr) ∧ (st' = cur s ∨ st' = st))) as Hlater.
  { intros w' [Ha (later & El & Hl)]. exists later. split; [exact El|]. intros d c [->|Hin]%elem_of_cons; [by apply Hload|].
    apply Hload. by eapply Forall_forall in Hin. }
  destruct (writeAtomic euid st w) as [[u|e] w'].
  - destruct Hw as [Ho Hnew]. destruct (Hlater w' Ho) as (later & El & Hl). exists later. split_and!; [done|done|done|].
    intros c Hc. apply crash_targets in Hc as (Hcd & x & Hx & Hxc). exists false. destruct Ho as [[Hdd _] _].
    apply (new_file_loads euid st buf (fs w') c m x); try done; [by rewrite Hdd|by apply Hnew].
  - destruct (Hlater w' Hw) as (later & El & Hl). exists later. done.
Qed.

(** ** Migration *)

(** C39. Migration always ends, in at most five steps: more fuel changes nothing. A
    version from 0 to 5 becomes 5, with what the file said of every policy kept and
    the blocking value put where it said nothing and the version that introduced
    the policy is later; any other version is refused as what it is. *)
Theorem migrate_terminates st :
  (∀ fuel, (5 ≤ fuel)%nat → migrate_fuel fuel st = Some (migrate st)) ∧
  match migrate st with
  | Ok st' =>
      0 ≤ Version st ≤ CurrentVersion ∧ Version st' = CurrentVersion ∧
      Hotspot st' = Hotspot st ∧ Panel st' = Panel st ∧ Raw (Proxy st') = Raw (Proxy st) ∧
      DNSMode (sAdvanced st') = (if Version st <? 1 then fill DNSModeTunnel (DNSMode (sAdvanced st)) else DNSMode (sAdvanced st)) ∧
      OnTunnelDown (sAdvanced st') =
        (if Version st <? 1 then fill OnTunnelDownBlock (OnTunnelDown (sAdvanced st)) else OnTunnelDown (sAdvanced st)) ∧
      ClientIPv6 (sAdvanced st') =
        (if Version st <? 2 then fill ClientIPv6Block (ClientIPv6 (sAdvanced st)) else ClientIPv6 (sAdvanced st))
  | Err e =>
      CurrentVersion < Version st ∧ e = ErrFutureVersion (Version st) CurrentVersion ∨
      Version st < 0 ∧ e = ENotAVersion (Version st)
  end.
Proof.
  unfold migrate, migrate_fuel. destruct (CurrentVersion <? Version st) eqn:E1; breflect; [split; [done|by left]|].
  destruct (Version st <? 0) eqn:E2; breflect; [split; [done|by right]|].
  assert (∃ st', (∀ fuel, (5 ≤ fuel)%nat → migrate_loop fuel st = Some (Ok st')) ∧
    Version st' = CurrentVersion ∧ Hotspot st' = Hotspot st ∧ Panel st' = Panel st ∧ Raw (Proxy st') = Raw (Proxy st) ∧
    DNSMode (sAdvanced st') = (if Version st <? 1 then fill DNSModeTunnel (DNSMode (sAdvanced st)) else DNSMode (sAdvanced st)) ∧
    OnTunnelDown (sAdvanced st') =
      (if Version st <? 1 then fill OnTunnelDownBlock (OnTunnelDown (sAdvanced st)) else OnTunnelDown (sAdvanced st)) ∧
    ClientIPv6 (sAdvanced st') =
      (if Version st <? 2 then fill ClientIPv6Block (ClientIPv6 (sAdvanced st)) else ClientIPv6 (sAdvanced st))) as (st' & Hl & Hs).
  { destruct st as [v p h pa a u]. unfold CurrentVersion in *. cbn [Version Hotspot Panel Proxy sAdvanced] in *.
    assert (v = 0 ∨ v = 1 ∨ v = 2 ∨ v = 3 ∨ v = 4 ∨ v = 5) as Hv by lia.
    destruct Hv as [-> |[-> |[-> |[-> |[-> | ->]]]]]; eexists;
      (split; [intros fuel Hf; do 5 (destruct fuel as [|fuel]; [lia|]); destruct fuel; reflexivity|]); repeat split. }
  split; [intros fuel Hf; by rewrite !Hl by (done || lia)|]. rewrite Hl by lia. split; [lia|exact Hs].
Qed.

(** A file whose version is not the first may still say nothing of a policy: it
    loads with the policy empty. *)
Definition quotes (s : string) : list ascii := (λ c, if Ascii.eqb c "'" then dquote else c) <$> to_l s.

Example empty_policy_loads : ∀ text, text = quotes "{'version':5,'advanced':{'dns_mode':''}}" ∨ text = quotes "{'version':1}" →
  ∃ st, load_file (Some text) = Ok st ∧ DNSMode (sAdvanced st) = ""%string ∧ OnTunnelDown (sAdvanced st) = ""%string.
Proof. intros text [-> | ->]; eexists; (split; [vm_compute; reflexivity|split; reflexivity]). Qed.

(** ** Redaction *)

(** States that differ in nothing but secrets, of which only a digest, whether
    they are set, and the cost of the password hash may show. *)
Definition same_but_secrets (s s' : State) : Prop :=
  let p := Proxy s in let p' := Proxy s' in
  Version s = Version s' ∧ UpdatedAt s = UpdatedAt s' ∧ sAdvanced s = sAdvanced s' ∧ hSSID (Hotspot s) = hSSID (Hotspot s') ∧
  pScheme p = pScheme p' ∧ Label p = Label p' ∧ Selected p = Selected p' ∧ RefreshedAt p = RefreshedAt p' ∧
  Fingerprint p = Fingerprint p' ∧ IsConfigured p = IsConfigured p' ∧ HasSubscription p = HasSubscription p' ∧
  IsSet (Panel s) = IsSet (Panel s') ∧ describeHash (PasswordHash (Panel s)) = describeHash (PasswordHash (Panel s')).

(** The rendering of the settings for a log tells two settings apart only by what
    is public, by the eight hexadecimal digits of a configuration's digest, and by
    whether each secret is set: never by a passphrase, a link, an address with its
    token, a spoofed name or a password hash. *)
Theorem redacted_hides_secrets s s' : same_but_secrets s s' → Redacted s = Redacted s'.
Proof.
  intros (E1 & E2 & E3 & E4 & E5 & E6 & E7 & E8 & E9 & E10 & E11 & E12 & E13). unfold Redacted.
  by rewrite E1, E2, E3, E4, E5, E6, E7, E8, E9, E10, E11, E12, E13.
Qed.

(** ** A small disk *)

Module Demo.
Definition no_idna : string → option string := Some.
Definition home : Meta := MkMeta true 448 (Some 998).
Definition empty_disk : Sys := MkSys (MkFs (Found home) [] ∅ []) [] ["1"%string; "2"%string] [].
Definition noon : Time := MkTime 2026 9 14 12 0 0 0 0.
Definition name_it : State → res state_error State := SetHotspot "Caspian" "correct horse".

Definition named : State :=
  set_UpdatedAt noon (set_Hotspot (MkHotspotConfig "Caspian" "correct horse") defaultState).

Lemma empty_in_sync : in_sync 998 (fs empty_disk) defaultState.
Proof.
  intros c Hc. apply crash_targets in Hc as (Hd & x & Hx & Hn). unfold targets in Hx. simpl in Hx.
  apply list_elem_of_singleton in Hx as ->. rewrite lookup_empty in Hn. exists true. unfold Load. rewrite Hd. simpl. by rewrite Hn.
Qed.

Lemma time_ok_dec t :
  (let leb := Z.leb in (leb 0 (t_year t) && leb (t_year t) 9999 && leb 1 (t_month t) && leb (t_month t) 12 && leb 1 (t_day t) &&
   leb (t_day t) (daysIn (t_month t) (t_year t)) && leb 0 (t_hour t) && leb (t_hour t) 23 && leb 0 (t_min t) && leb (t_min t) 59 &&
   leb 0 (t_sec t) && leb (t_sec t) 59 && leb 0 (t_nano t) && (t_nano t <? 10 ^ 9) && (-1440 <? t_zone t) && (t_zone t <? 1440)) = true) →
  time_ok t.
Proof. cbv zeta. intros Hb. unfold time_ok. repeat (apply andb_prop in Hb as [Hb ?]). breflect. lia. Qed.

Lemma named_ok : state_ok named.
Proof.
  assert (stored_time zero_time) as Hz by (split; [apply time_ok_dec; reflexivity|done]).
  assert (∀ z, z = 0 ∨ z = 5 → int64 z) as Hi by (unfold int64; lia).
  unfold state_ok, proxy_ok, quota_ok, advanced_ok. split_and!;
    lazymatch goal with
    | |- int64 _ => apply Hi; auto
    | |- stored_time _ => exact Hz
    | |- time_ok _ => apply time_ok_dec; reflexivity
    | |- Forall _ _ => repeat (apply Forall_cons; split); try reflexivity; by apply Forall_nil
    end.
Qed.

Lemma update_crash_consistent_witness :
  let '(r, s', w') := Update no_idna 998 name_it noon (MkStore defaultState true) empty_disk in
  r = Ok tt ∧ s' = MkStore named false ∧ in_sync 998 (fs w') named ∧ List.length (seen w') = 7%nat.
Proof.
  pose proof (update_crash_consistent no_idna 998 name_it noon (MkStore defaultState true) empty_disk home named
    eq_refl eq_refl eq_refl empty_in_sync ltac:(vm_compute; reflexivity) named_ok) as Hu.
  assert (fst (fst (Update no_idna 998 name_it noon (MkStore defaultState true) empty_disk)) = Ok tt) as Hr by (vm_compute; reflexivity).
  assert (List.length (seen (snd (Update no_idna 998 name_it noon (MkStore defaultState true) empty_disk))) = 7%nat) as Hl
    by (vm_compute; reflexivity).
  destruct (Update no_idna 998 name_it noon (MkStore defaultState true) empty_disk) as [[r s'] w']. simpl in Hr, Hl. subst r.
  destruct Hu as (later & _ & _ & -> & Hs). split_and!; done.
Defined.

(** When only the last flush of the directory fails, the failure is reported and
    the settings in memory stay, but the file is the new one. *)
Example last_flush_fails :
  let '(r, s', w') := Update no_idna 998 name_it noon (MkStore defaultState true)
    (MkSys (fs empty_disk) [Works; Works; Works; Works; Works; Works; Fails] ["1"%string] []) in
  r = Err EWriting ∧ s' = MkStore defaultState true ∧ Load 998 (fs w') reads_bytes = Ok (MkStore named false).
Proof. vm_compute. split_and!; reflexivity. Qed.

(** A failure before the rename removes the temporary file. *)
Example disk_full :
  let '(r, s', w') := Update no_idna 998 name_it noon (MkStore defaultState true)
    (MkSys (fs empty_disk) [Works; Works; Short 10] ["1"%string] []) in
  r = Err EWriting ∧ s' = MkStore defaultState true ∧ fs_now (fs w') = ∅.
Proof. vm_compute. split_and!; reflexivity. Qed.

Lemma redacted_hides_secrets_witness :
  Redacted named = Redacted (set_Hotspot (MkHotspotConfig "Caspian" "another passphrase") named).
Proof. apply (redacted_hides_secrets named); vm_compute; repeat split. Defined.
End Demo.
