(* ===== verification/Link.v ===== *)
(** * Share links (internal/link)

    link.go, list.go, xrayjson.go, validate.go and forward.go: from pasted text to
    the outbounds it holds, the checks and corrections made to each, and the
    document handed to the engine. The engine's config structs (infra/conf) and the
    vendored share-link parser are not part of the program: an outbound is the
    fields this package reads and writes, with everything else opaque, and what the
    two packages do is the class [Conf]. *)

From S2P Require Import Prelude GoStrings Netip Text Bytes Base64 Regex Json JsonFacts JsonStruct Url.
From S2P Require Password.

Local Open Scope Z_scope.

Definition OutboundTag : string := "proxy".

Inductive LSecurity := SecurityNone | SecurityTLS | SecurityReality.

Record Reality := MkReality { HasPublicKey : bool; HasShortID : bool; HasMldsa65Verify : bool }.

Inductive link_error :=
| ErrEmpty | ErrUnsupportedScheme (scheme : string) | ErrNoLink | ErrBadUUID | ErrBadAddress | ErrBadPort | ErrBadReality
| ErrUnsupportedTransport | ErrNoProxyOutbound | ErrChainedOutbound | ErrManyServers | errSerialise.

(** ** infra/conf and libxray-share *)

(** [R] is what this package carries without reading it. *)
Record TLSConfig (R : Type) := MkTLS { tServerName : string; tFingerprint : string; tRest : R }.
Record REALITYConfig (R : Type) := MkREALITY {
  rServerName : string; rFingerprint : string; PublicKey : string; rPassword : string; ShortId : string; Mldsa65Verify : string; rRest : R
}.
Record StreamConfig (R : Type) := MkStream {
  sNetwork : option string;
  sSecurity : string;
  TLSSettings : option (TLSConfig R);
  REALITYSettings : option (REALITYConfig R);
  DialerProxy : option string;            (* SocketSettings.DialerProxy; None for nil SocketSettings *)
  sRest : R
}.
(** OutboundDetourConfig *)
Record Outbound (R : Type) := MkOutbound {
  oProtocol : string;
  SendThrough : option string;
  oTag : string;
  oSettings : option json;
  StreamSetting : option (StreamConfig R);
  ProxySettings : option string;          (* the tag *)
  oRest : R
}.
Arguments MkTLS {R}. Arguments tServerName {R}. Arguments tFingerprint {R}. Arguments tRest {R}.
Arguments MkREALITY {R}. Arguments rServerName {R}. Arguments rFingerprint {R}. Arguments PublicKey {R}. Arguments rPassword {R}.
Arguments ShortId {R}. Arguments Mldsa65Verify {R}. Arguments rRest {R}.
Arguments MkStream {R}. Arguments sNetwork {R}. Arguments sSecurity {R}. Arguments TLSSettings {R}. Arguments REALITYSettings {R}.
Arguments DialerProxy {R}. Arguments sRest {R}.
Arguments MkOutbound {R}. Arguments oProtocol {R}. Arguments SendThrough {R}. Arguments oTag {R}. Arguments oSettings {R}.
Arguments StreamSetting {R}. Arguments ProxySettings {R}. Arguments oRest {R}.

(** A client's settings in the list form: whether the flat address is set, and of
    each server the users; the server itself is opaque. *)
Record Server (R : Type) := MkServer { srv : R; srvUsers : list json }.
Arguments MkServer {R}. Arguments srv {R}. Arguments srvUsers {R}.
Record ClientSettings (R : Type) := MkClient { flat_address : bool; servers : list (Server R) }.
Arguments MkClient {R}. Arguments flat_address {R}. Arguments servers {R}.

Class Conf (R : Type) := {
  zero_rest : R;                                            (* what the zero struct carries *)
  ConvertShareLinks : string → option (list (Outbound R));  (* share.ConvertShareLinksToXrayJson *)
  decode_outbound : json → option (Outbound R);             (* json.Unmarshal into the struct *)
  marshal_outbound : Outbound R → json;
  network_Build : string → option string;                   (* TransportProtocol.Build *)
  decode_client : string → json → option (ClientSettings R);(* the client struct of a protocol *)
  flat_settings : string → Server R → option json → option json  (* its flat form, with the user's fields; None when
                                                               the user does not decode *)
}.

(** ** The first line *)

Definition first_line (text : string) : string :=
  match IndexByte text "010" with Some i => TrimSpace (substr_to text i) | None => text end.

(** schemeRE *)
Definition scheme_char (c : ascii) : bool := alnum c || Ascii.eqb c "+" || Ascii.eqb c "." || Ascii.eqb c "-".
Fixpoint scheme_run (l : list ascii) : list ascii * list ascii :=
  match l with
  | c :: l' => if scheme_char c then let '(a, b) := scheme_run l' in (c :: a, b) else ([], l)
  | [] => ([], [])
  end.
Definition scheme_of (s : string) : option string :=
  match to_l s with
  | c :: l =>
      if between "a" "z" c || between "A" "Z" c then
        let '(a, b) := scheme_run l in
        if decide (to_l "://" `prefix_of` b) then Some (of_l (c :: a)) else None
      else None
  | [] => None
  end.

Definition supportedSchemes : list string := ["vless"; "vmess"; "ss"; "socks"; "trojan"; "hysteria2"; "hy2"].

Definition checkScheme (text : string) : option link_error :=
  match scheme_of (first_line text) with
  | None => None
  | Some s =>
      let scheme := ToLower s in
      if existsb (λ k, (scheme =? k)%string) supportedSchemes then None else Some (ErrUnsupportedScheme scheme)
  end.

Definition removedTransports : list (string * string) :=
  [("quic", "xhttp with security=tls and alpn=h3"); ("h3", "xhttp with security=tls and alpn=h3");
   ("h2", "xhttp with security=tls"); ("http", "xhttp with security=tls"); ("gun", "grpc")]%string.

(** strings.ToLower as far as ASCII results go: two letters outside ASCII have an
    ASCII lower case. *)
Fixpoint lower_go (l : list ascii) : list ascii :=
  match l with
  | [] => []
  | "196"%char :: "176"%char :: l => "i"%char :: lower_go l
  | "226"%char :: "132"%char :: "170"%char :: l => "k"%char :: lower_go l
  | c :: l => lower_ascii c :: lower_go l
  end.

Definition checkTransport (text : string) : option link_error :=
  let first := first_line text in
  match scheme_of first with
  | None => None
  | Some _ =>
      match Url.Parse first with
      | None => None
      | Some u =>
          let name := of_l (lower_go (to_l (TrimSpace (query_get (RawQuery u) "type")))) in
          if existsb (λ p, (name =? fst p)%string) removedTransports then Some ErrUnsupportedTransport else None
      end
  end.

(** ** validate.go *)

Definition mldsa65VerifyLen : nat := 1952.
Definition realityPublicKeyLen : nat := 32.
Definition shortIDMaxChars : Z := 16.

Definition needsUUID (protocol : string) : bool := (protocol =? "vless")%string || (protocol =? "vmess")%string.

Definition isHexDigit (c : ascii) : bool := between "0" "9" c || between "a" "f" c || between "A" "F" c.
Definition isHex (s : list ascii) : bool := forallb isHexDigit s.

(** The low byte of the first rune of a text, [byte(c)] in a range loop: of a
    sequence of two or more bytes it comes from the last two. *)
Definition low_byte (s : list ascii) : ascii :=
  match rune_width s with
  | 0%nat => "000"%char
  | 1%nat => match s with
             | c :: _ => if (nat_of_ascii c <? 128)%nat then c else "253"%char      (* U+FFFD *)
             | [] => "000"%char
             end
  | w => let b i := Z.of_nat (nat_of_ascii (nth i s "000"%char)) in
         byte_of (b (w - 2)%nat mod 4 * 64 + b (w - 1)%nat mod 64)
  end.

(** The range loop over the runes: [i] is the byte index. *)
Fixpoint uuid_go (skip i : nat) (s : list ascii) : bool :=
  match s with
  | [] => true
  | c :: s' =>
      match skip with
      | S k => uuid_go k (S i) s'
      | O =>
          let w := rune_width s in
          if (i =? 8)%nat || (i =? 13)%nat || (i =? 18)%nat || (i =? 23)%nat
          then (Ascii.eqb c "-") && uuid_go (w - 1) (S i) s'
          else isHexDigit (low_byte s) && uuid_go (w - 1) (S i) s'
      end
  end.

Definition validUUID (s : string) : bool :=
  let l := to_l s in
  if (List.length l =? 32)%nat then isHex l
  else if (List.length l =? 36)%nat then uuid_go 0 0 l
  else false.

Definition raw_url_len (s : string) : option nat :=
  List.length <$> (idx ← mapM (b64_index url_alphabet) (List.filter (λ c, negb (line_end c)) (to_l s)); lax_sextets idx).

Definition checkShortID (id : string) : option link_error :=
  if (id =? "")%string then None
  else if shortIDMaxChars <? Z.of_nat (String.length id) then Some ErrBadReality
  else if negb (Z.of_nat (String.length id) mod 2 =? 0) then Some ErrBadReality
  else if isHex (to_l id) then None else Some ErrBadReality.

Section Reality.
Context {R : Type}.
Definition checkReality (r : option (REALITYConfig R)) : option link_error :=
  match r with
  | None => None
  | Some r =>
      let key := if (rPassword r =? "")%string then PublicKey r else rPassword r in
      if (key =? "")%string then Some ErrBadReality
      else if negb (bool_decide (raw_url_len key = Some realityPublicKeyLen)) then Some ErrBadReality
      else match checkShortID (ShortId r) with
           | Some e => Some e
           | None =>
               if negb (Mldsa65Verify r =? "")%string && negb (bool_decide (raw_url_len (Mldsa65Verify r) = Some mldsa65VerifyLen))
               then Some ErrBadReality else None
           end
  end.
End Reality.

(** ** xrayjson.go *)

Definition proxyProtocols : list string := ["vless"; "vmess"; "trojan"; "shadowsocks"; "socks"; "hysteria"].
Definition is_proxy (p : string) : bool := existsb (λ k, (p =? k)%string) proxyProtocols.

Definition isXrayJSON (text : string) : bool := HasPrefix text "{" || HasPrefix text "[".

(** A []json.RawMessage *)
Definition raw_list_codec : Codec (list json) :=
  MkCodec (λ l, Some (JArr l)) (λ j _, match j with JArr l => Some l | JNull => Some [] | _ => None end).

Record xrayDocument := MkXrayDoc { Remarks : string; xd_Outbounds : list json }.
Definition document_fields : list (Field xrayDocument) := [
  field "remarks" string_codec never Remarks (λ x d, MkXrayDoc x (xd_Outbounds d));
  field "outbounds" raw_list_codec never xd_Outbounds (λ x d, MkXrayDoc (Remarks d) x)].

Record outbound_head := MkHead { h_tag : string; h_protocol : string }.
Definition head_fields : list (Field outbound_head) := [
  field "tag" string_codec never h_tag (λ x h, MkHead x (h_protocol h));
  field "protocol" string_codec never h_protocol (λ x h, MkHead (h_tag h) x)].

(** The loop of proxyOutboundOf: the index of the outbound chosen. *)
Fixpoint choose_proxy (i : nat) (l : list json) (chosen : option nat) : option nat :=
  match l with
  | [] => chosen
  | j :: l =>
      match dec (struct_codec head_fields false) j (MkHead "" "") with
      | Some h =>
          if negb (is_proxy (h_protocol h)) then choose_proxy (S i) l chosen
          else if (h_tag h =? OutboundTag)%string then Some i
          else choose_proxy (S i) l (match chosen with None => Some i | _ => chosen end)
      | None => choose_proxy (S i) l chosen
      end
  end.

(** A uint16 *)
Definition uint16_codec : Codec Z :=
  MkCodec (λ z, Some (JNum (to_l (Itoa z)))) (λ j old, match j with JNum t => Password.ParseUint t 65535 | JNull => Some old | _ => None end).

Record outboundSettings := MkOutSettings { os_Address : string; os_Port : Z; os_ID : string }.
Definition settings_fields : list (Field outboundSettings) := [
  field "address" string_codec never os_Address (λ x s, MkOutSettings x (os_Port s) (os_ID s));
  field "port" uint16_codec never os_Port (λ x s, MkOutSettings (os_Address s) x (os_ID s));
  field "id" string_codec never os_ID (λ x s, MkOutSettings (os_Address s) (os_Port s) x)].
Definition flow_fields : list (Field string) := [field "flow" string_codec never (λ s, s) (λ x _, x)].

Section Link.
Context {R : Type} `{Conf R}.

Definition proxyOutboundOf (outbounds : list json) : res link_error (Outbound R) :=
  match choose_proxy 0 outbounds None with
  | None => Err ErrNoProxyOutbound
  | Some i =>
      match outbounds !! i with
      | None => Err ErrNoLink
      | Some j => match decode_outbound j with Some ob => Ok ob | None => Err ErrNoLink end
      end
  end.

(** list.go, parsed: an entry is its display name and its outbound, or why it has
    none; [names] is the JSON path's. *)
Record parsed := MkParsed {
  p_outbounds : list (res link_error (Outbound R));
  p_dropped : Z;
  p_names : option (list string)
}.

Definition json_entry (raw : json) : string * res link_error (Outbound R) :=
  match dec (struct_codec document_fields false) raw (MkXrayDoc "" []) with
  | None => (""%string, Err ErrNoLink)
  | Some d => (Remarks d, proxyOutboundOf (xd_Outbounds d))
  end.

Definition parseXrayJSON (text : string) : res link_error parsed :=
  let objects :=
    match Unmarshal (to_l text) with
    | None => None
    | Some j => if HasPrefix text "[" then match j with JArr l => Some l | _ => None end else Some [j]
    end in
  match objects with
  | None | Some [] => Err ErrNoLink
  | Some l => let es := json_entry <$> l in Ok (MkParsed (snd <$> es) 0 (Some (fst <$> es)))
  end.

(** *** droppedLines *)

Definition vendoredShareSchemes : list string :=
  ["vless://"; "vmess://"; "socks://"; "ss://"; "trojan://"; "hysteria2://"; "hy2://"].

Definition replaceAll (s old new : string) : string := of_l (replace_all (to_l old) (to_l new) 0 (to_l s)).
Definition unix_lines (s : string) : string := replaceAll s (of_l ["013"; "010"]%char) (of_l ["010"%char]).

Definition firstLineHasVendoredScheme (text : string) : bool :=
  let first := match IndexByte text "010" with Some i => substr_to text i | None => text end in
  let first := TrimSpace first in
  existsb (HasPrefix first) vendoredShareSchemes.

(** StdEncoding, or URLEncoding with padding *)
Definition padded_decode (alphabet : list ascii) (l : list ascii) : option (list Z) :=
  let l := List.filter (λ c, negb (line_end c)) l in
  if (List.length l mod 4 =? 0)%nat then idx ← mapM (b64_index alphabet) (strip_padding l); lax_sextets idx else None.

Definition decodeBase64Like (text : string) : option string :=
  let text := TrimSpace text in
  if (text =? "")%string then None
  else match padded_decode std_alphabet (to_l text) with
       | Some b => Some (of_l (byte_of <$> b))
       | None =>
           match padded_decode url_alphabet (to_l text) with
           | Some b => Some (of_l (byte_of <$> b))
           | None =>
               let s := replaceAll (replaceAll text "-" "+") "_" "/" in
               let pad := (String.length s mod 4)%nat in
               let s := if (pad =? 0)%nat then s else (s ++ of_l (replicate (4 - pad) "="%char))%string in
               (λ b, of_l (byte_of <$> b)) <$> padded_decode std_alphabet (to_l s)
           end
       end.

Definition share_lines (lines : string) : Z :=
  Z.of_nat (List.length (List.filter (λ l, match scheme_of (TrimSpace l) with Some _ => true | None => false end)
    (Split lines "010"%char))).

Definition droppedLines (text : string) (accepted : Z) : Z :=
  if HasPrefix text "{" then 0
  else
    let lines := unix_lines text in
    let lines := if firstLineHasVendoredScheme lines then Some lines else unix_lines <$> decodeBase64Like lines in
    match lines with
    | None => 0
    | Some lines => let n := share_lines lines in if n <? accepted then 0 else n - accepted
    end.

(** *** parseOutbounds *)

Definition parseOutbounds (raw : string) : res link_error parsed :=
  let text := TrimSpace raw in
  if (text =? "")%string then Err ErrEmpty
  else
    let text := replaceAll text "&amp;" "&" in
    match checkScheme text with
    | Some e => Err e
    | None =>
        match checkTransport text with
        | Some e => Err e
        | None =>
            if isXrayJSON text then parseXrayJSON text
            else match ConvertShareLinks text with
                 | None | Some [] => Err ErrNoLink
                 | Some obs => Ok (MkParsed (Ok <$> obs) (droppedLines text (Z.of_nat (List.length obs))) None)
                 end
        end
    end.

(** ** link.go: one entry *)

Record Link := MkLink {
  l_Protocol : string;
  l_Address : string;
  l_Port : Z;
  l_Tag : string;
  l_Network : string;
  l_Security : LSecurity;
  l_ServerName : string;
  l_Fingerprint : string;
  l_Flow : string;
  l_Reality : Reality;
  l_Count : Z;
  l_Index : Z;
  l_outbound : Outbound R
}.

Definition set_stream (ss : option (StreamConfig R)) (ob : Outbound R) : Outbound R :=
  MkOutbound (oProtocol ob) (SendThrough ob) (oTag ob) (oSettings ob) ss (ProxySettings ob) (oRest ob).
Definition set_settings (j : option json) (ob : Outbound R) : Outbound R :=
  MkOutbound (oProtocol ob) (SendThrough ob) (oTag ob) j (StreamSetting ob) (ProxySettings ob) (oRest ob).
Definition set_security (s : string) (ss : StreamConfig R) : StreamConfig R :=
  MkStream (sNetwork ss) s (TLSSettings ss) (REALITYSettings ss) (DialerProxy ss) (sRest ss).
Definition set_tls (t : TLSConfig R) (ss : StreamConfig R) : StreamConfig R :=
  MkStream (sNetwork ss) (sSecurity ss) (Some t) (REALITYSettings ss) (DialerProxy ss) (sRest ss).
Definition zero_stream : StreamConfig R := MkStream None "" None None None zero_rest.

Definition checkChain (ob : Outbound R) : option link_error :=
  let named o := match o with Some t => negb (t =? "")%string | None => false end in
  if named (ProxySettings ob) then Some ErrChainedOutbound
  else if named (ss ← StreamSetting ob; DialerProxy ss) then Some ErrChainedOutbound else None.

(** The protocols with a list form, and how many users their one server may have. *)
Definition users_wanted (protocol : string) (n : nat) : option bool :=
  if (protocol =? "vless")%string || (protocol =? "vmess")%string then Some (n =? 1)%nat
  else if (protocol =? "trojan")%string || (protocol =? "shadowsocks")%string then Some true
  else if (protocol =? "socks")%string then Some (n <=? 1)%nat
  else None.

Definition flattenSettings (ob : Outbound R) : res link_error (Outbound R) :=
  match oSettings ob, users_wanted (oProtocol ob) 0 with
  | None, _ | _, None => Ok ob
  | Some raw, Some _ =>
      match decode_client (oProtocol ob) raw with
      | None => Err ErrNoLink
      | Some c =>
          if flat_address c then Ok ob
          else match servers c with
               | [] => Ok ob
               | [s] =>
                   if default true (users_wanted (oProtocol ob) (List.length (srvUsers s))) then
                     match flat_settings (oProtocol ob) s (head (srvUsers s)) with
                     | None => Err ErrNoLink
                     | Some j => Ok (set_settings (Some j) ob)
                     end
                   else Err ErrManyServers
               | _ => Err ErrManyServers
               end
      end
  end.

Definition requireTLSForTrojan (protocol : string) (ob : Outbound R) : Outbound R :=
  if negb (protocol =? "trojan")%string then ob
  else
    let ss := default zero_stream (StreamSetting ob) in
    let ss := if (sSecurity ss =? "")%string || (sSecurity ss =? "none")%string then set_security "tls" ss else ss in
    set_stream (Some ss) ob.

Definition fillMissingServerName (address : string) (ob : Outbound R) : Outbound R :=
  match StreamSetting ob with
  | Some ss =>
      if negb (sSecurity ss =? "tls")%string then ob
      else
        let t := default (MkTLS "" "" zero_rest) (TLSSettings ss) in
        let t := if (tServerName t =? "")%string then MkTLS address (tFingerprint t) (tRest t) else t in
        set_stream (Some (set_tls t ss)) ob
  | None => ob
  end.

Definition flowOf (ob : Outbound R) : string :=
  match oSettings ob with
  | Some j => if negb (oProtocol ob =? "vless")%string then "" else default ""%string (dec (struct_codec flow_fields false) j "")
  | None => ""
  end.

Definition present (s : string) : bool := negb (s =? "")%string.

(** fillStream: the network, the security layer, the name, the fingerprint and the
    REALITY parameters *)
Definition fillStream (ob : Outbound R) : res link_error (string * LSecurity * string * string * Reality) :=
  let none := MkReality false false false in
  match StreamSetting ob with
  | None => Ok ("tcp"%string, SecurityNone, ""%string, ""%string, none)
  | Some ss =>
      match (match sNetwork ss with None => Some "tcp"%string | Some n => network_Build n end) with
      | None => Err ErrUnsupportedTransport
      | Some network =>
          if (sSecurity ss =? "tls")%string then
            let '(name, fp) := match TLSSettings ss with Some t => (tServerName t, tFingerprint t) | None => ("", "")%string end in
            Ok (network, SecurityTLS, name, fp, none)
          else if (sSecurity ss =? "reality")%string then
            match checkReality (REALITYSettings ss) with
            | Some e => Err e
            | None =>
                match REALITYSettings ss with
                | None => Ok (network, SecurityReality, ""%string, ""%string, none)
                | Some r =>
                    Ok (network, SecurityReality, rServerName r, rFingerprint r,
                      MkReality (present (PublicKey r) || present (rPassword r)) (present (ShortId r)) (present (Mldsa65Verify r)))
                end
            end
          else Ok (network, SecurityNone, ""%string, ""%string, none)
      end
  end.

(** fill: the address, the port and the corrected outbound, or the refusal *)
Definition fill (tag : string) (count index : Z) (ob : Outbound R) : res link_error Link :=
  let protocol := oProtocol ob in
  match checkChain ob with
  | Some e => Err e
  | None =>
      let? ob := flattenSettings ob in
      let settings := match oSettings ob with
                      | None => Some (MkOutSettings "" 0 "")
                      | Some j => dec (struct_codec settings_fields false) j (MkOutSettings "" 0 "")
                      end in
      match settings with
      | None => Err ErrNoLink
      | Some s =>
          if (os_Address s =? "")%string then Err ErrBadAddress
          else if os_Port s =? 0 then Err ErrBadPort
          else if needsUUID protocol && negb (validUUID (os_ID s)) then Err ErrBadUUID
          else
            let ob := fillMissingServerName (os_Address s) (requireTLSForTrojan protocol ob) in
            let? st := fillStream ob in
            let '(network, security, name, fp, reality) := st in
            Ok (MkLink protocol (os_Address s) (os_Port s) tag network security name fp (flowOf ob) reality count index ob)
      end
  end.

(** clearSendThrough and the tag *)
Definition claim_outbound (ob : Outbound R) : Outbound R :=
  MkOutbound (oProtocol ob) None OutboundTag (oSettings ob) (StreamSetting ob) (ProxySettings ob) (oRest ob).

(** linkAt; [None] is an index out of range, a panic *)
Definition linkAt (p : parsed) (i : nat) : option (res link_error Link) :=
  e ← p_outbounds p !! i;
  match e with
  | Err e => Some (Err e)
  | Ok ob =>
      name ← match p_names p with
             | Some names => names !! i
             | None => Some (default ""%string (SendThrough ob))
             end;
      Some (fill name (Z.of_nat (List.length (p_outbounds p))) (Z.of_nat i) (claim_outbound ob))
  end.

(** Select: the link and whether the index was clamped *)
Definition Select (raw : string) (i : Z) : option (res link_error (Link * bool)) :=
  match parseOutbounds raw with
  | Err e => Some (Err e)
  | Ok p =>
      let clamped := (i <? 0) || (Z.of_nat (List.length (p_outbounds p)) <=? i) in
      let i := if clamped then 0%nat else Z.to_nat i in
      r ← linkAt p i;
      Some (match r with Err e => Err e | Ok l => Ok (l, clamped) end)
  end.

Definition Parse (raw : string) : option (res link_error Link) :=
  (λ r, match r with Ok (l, _) => Ok l | Err e => Err e end) <$> Select raw 0.

(** ** list.go: the entries of a list *)

Definition maxTagBytes : nat := 64.

(** The runes of a text as a range loop writes them back: bytes that are no rune
    become U+FFFD. *)
Definition replacement : list ascii := ["239"; "191"; "189"]%char.
Fixpoint runes_go (skip : nat) (s : list ascii) : list (list ascii) :=
  match s with
  | [] => []
  | c :: s' =>
      match skip with
      | S k => runes_go k s'
      | O =>
          let w := rune_width s in
          (if (w =? 1)%nat then (if (nat_of_ascii c <? 128)%nat then [c] else replacement) else take w s) :: runes_go (w - 1) s'
      end
  end.
Definition runes (s : list ascii) : list (list ascii) := runes_go 0 s.

(** unicode.IsControl: U+0000 to U+001F and U+007F to U+009F *)
Definition IsControl (r : list ascii) : bool :=
  match r with
  | [c] => (nat_of_ascii c <? 32)%nat || (nat_of_ascii c =? 127)%nat
  | ["194"%char; d] => (nat_of_ascii d <? 160)%nat
  | _ => false
  end.

(** utf8.RuneStart *)
Definition RuneStart (c : ascii) : bool := negb (nat_of_ascii c / 64 =? 2)%nat.

(** The loop that moves the cut back to the start of a rune. *)
Fixpoint cut_back (cut : nat) (out : list ascii) : nat :=
  match cut with
  | O => O
  | S k => match out !! cut with
           | Some c => if RuneStart c then cut else cut_back k out
           | None => cut
           end
  end.

Definition cleanTag (s : string) : string :=
  let out := concat (List.filter (λ r, negb (IsControl r)) (runes (to_l s))) in
  of_l (if (List.length out <=? maxTagBytes)%nat then out else take (cut_back maxTagBytes out) out).

Record Entry := MkEntry {
  e_Index : Z;
  e_Protocol : string;
  e_Address : string;
  e_Port : Z;
  e_Tag : string;
  e_Network : string;
  e_Security : LSecurity;
  e_ServerName : string;
  e_Fingerprint : string;
  e_Flow : string;
  e_Reality : Reality
}.

Definition entry (l : Link) : Entry :=
  MkEntry (l_Index l) (l_Protocol l) (l_Address l) (l_Port l) (cleanTag (l_Tag l)) (l_Network l) (l_Security l) (l_ServerName l)
    (l_Fingerprint l) (l_Flow l) (l_Reality l).

Record List_ := MkList { Entries : list Entry; l_Dropped : Z }.

(** The loop of ParseAll: the entries, how many were refused, and the first reason. *)
Fixpoint list_go (p : parsed) (n i : nat) (acc : list Entry) (dropped : Z) (first : option link_error) :
    option (list Entry * Z * option link_error) :=
  match n with
  | O => Some (acc, dropped, first)
  | S n =>
      r ← linkAt p i;
      match r with
      | Err e => list_go p n (S i) acc (dropped + 1) (match first with None => Some e | _ => first end)
      | Ok l => list_go p n (S i) (acc ++ [entry l]) dropped first
      end
  end.

(** ParseAll; with no entry and no reason the error returned is nil beside a nil
    list, which is [None] inside *)
Definition ParseAll (raw : string) : option (res (option link_error) List_) :=
  match parseOutbounds raw with
  | Err e => Some (Err (Some e))
  | Ok p =>
      '(es, d, first) ← list_go p (List.length (p_outbounds p)) 0 [] (p_dropped p) None;
      Some (match es with [] => Err first | _ => Ok (MkList es d) end)
  end.

(** ** The document for the engine *)

(** A map[string]any, as encoding/json fills and writes it: the last of two equal
    keys, in the order of the keys. *)
Definition key_lt (a b : list ascii) : bool := String.ltb (of_l a) (of_l b).
Fixpoint insert_member (k : list ascii) (v : json) (l : list (list ascii * json)) : list (list ascii * json) :=
  match l with
  | [] => [(k, v)]
  | (k', v') :: l' =>
      if bool_decide (k = k') then (k, v) :: l'
      else if key_lt k k' then (k, v) :: l
      else (k', v') :: insert_member k v l'
  end.
Definition as_map (l : list (list ascii * json)) : list (list ascii * json) := foldl (λ m kv, insert_member (fst kv) (snd kv) m) [] l.

Definition is_null (v : json) : bool := match v with JNull => true | _ => false end.

(** stripNulls, of a value decoded into any *)
Fixpoint stripNulls (v : json) : json :=
  match v with
  | JObj l => JObj (List.filter (λ kv, negb (is_null (snd kv))) (as_map (List.map (λ kv, (fst kv, stripNulls (snd kv))) l)))
  | JArr l => JArr (List.map stripNulls l)
  | v => v
  end.

(** The decoder reads one value; what follows it is not looked at. *)
Definition dropNulls (raw : list ascii) : res link_error (list ascii) :=
  match parse raw with Some (doc, _) => Ok (Marshal (stripNulls doc)) | None => Err errSerialise end.

Definition engine_document (l : Link) : json :=
  JObj [(to_l "outbounds", JArr [marshal_outbound (claim_outbound (l_outbound l))])].

(** XrayConfig, of a link that is there *)
Definition XrayConfig (l : Link) : res link_error (list ascii) := dropNulls (Marshal (engine_document l)).

(** ** forward.go *)

Fixpoint lookup_member (k : list ascii) (l : list (list ascii * json)) : option json :=
  match l with
  | [] => None
  | (k', v) :: l => if bool_decide (k = k') then Some v else lookup_member k l
  end.
Definition object_at (k : list ascii) (l : list (list ascii * json)) : option (list (list ascii * json)) :=
  match lookup_member k l with Some (JObj m) => Some m | _ => None end.

Definition setDefaultSetting (section key value : string) (stream : list (list ascii * json)) : list (list ascii * json) :=
  let settings := default [] (object_at (to_l section) stream) in
  let existing := match lookup_member (to_l key) settings with Some (JStr s) => of_l s | _ => ""%string end in
  let settings := if (existing =? "")%string then insert_member (to_l key) (JStr (to_l value)) settings else settings in
  insert_member (to_l section) (JObj settings) stream.

Definition loopback_stream (l : Link) (stream : list (list ascii * json)) : list (list ascii * json) :=
  let host := match l_Security l with SecurityTLS => l_ServerName l | _ => l_Address l end in
  let n := l_Network l in
  if (n =? "ws")%string || (n =? "websocket")%string then setDefaultSetting "wsSettings" "host" host stream
  else if (n =? "httpupgrade")%string then setDefaultSetting "httpupgradeSettings" "host" host stream
  else if (n =? "grpc")%string then
    let ip := match ParseAddr (l_Address l) with Some _ => true | None => false end in
    let joined := match l_Security l with SecurityReality => true | SecurityTLS => false | SecurityNone => ip end in
    let host_port := if existsb (Ascii.eqb ":") (to_l (l_Address l)) then ("[" ++ l_Address l ++ "]:" ++ Itoa (l_Port l))%string
                     else (l_Address l ++ ":" ++ Itoa (l_Port l))%string in
    setDefaultSetting "grpcSettings" "authority" (if joined then host_port else host) stream
  else stream.

(** ThroughLoopback; the outermost [None] is a panic. The numbers of the document go
    through float64 here, which leaves the text of an integer below 2^53 as it is. *)
Definition ThroughLoopback (l : Link) (endpoint : Addr * Z) : option (res link_error Link) :=
  if negb (IsLoopback (fst endpoint)) || (snd endpoint =? 0) then Some (Err ErrBadAddress)
  else
    match XrayConfig l with
    | Err e => Some (Err e)
    | Ok raw =>
        match Unmarshal raw with
        | Some (JObj [(_, JArr [JObj ob])]) =>
            match object_at (to_l "settings") ob with
            | None => Some (Err ErrNoLink)
            | Some settings =>
                let settings := insert_member (to_l "port") (JNum (to_l (Itoa (snd endpoint))))
                                  (insert_member (to_l "address") (JStr (to_l (addr_String (fst endpoint)))) settings) in
                let ob := insert_member (to_l "settings") (JObj settings) ob in
                let ob := match object_at (to_l "streamSettings") ob with
                          | Some stream => insert_member (to_l "streamSettings") (JObj (loopback_stream l stream)) ob
                          | None => ob
                          end in
                Parse (of_l (Marshal (JObj [(to_l "outbounds", JArr [JObj ob])])))
            end
        | _ => None
        end
    end.
End Link.
Arguments Link : clear implicits.
Arguments parsed : clear implicits.
