(* ===== verification/LinkFacts.v ===== *)
(** * What a link that was accepted is

    Whatever was pasted and whatever the vendored parser made of it, a link this
    package returns is one the engine may be handed: it has a server, it does not
    chain, it does not bind an address, trojan states a security, TLS has a name.
    The list the panel shows and the entry it selects agree. A display name is short,
    valid and free of control characters. The document holds no null member. *)

From S2P Require Import Prelude GoStrings Netip Text Bytes Base64 Regex Json JsonFacts JsonStruct Url Link.
From S2P Require Password.

Local Open Scope Z_scope.

Lemma omap_length {A B} (f : A → option B) l : (List.length (omap f l) ≤ List.length l)%nat.
Proof.
  induction l as [|a l IH]; [done|]. change (omap f (a :: l)) with (match f a with Some b => b :: omap f l | None => omap f l end).
  destruct (f a); cbn [List.length]; lia.
Qed.

Section Facts.
Context {R : Type} `{Conf R}.

(** ** One link *)

(** What the engine reads of the server in an outbound's settings. *)
Definition read_settings (ob : Outbound R) : option outboundSettings :=
  match oSettings ob with
  | None => Some (MkOutSettings "" 0 "")
  | Some j => dec (struct_codec settings_fields false) j (MkOutSettings "" 0 "")
  end.

Record safe_link (l : Link R) : Prop := {
  sl_server : ∃ s, read_settings (l_outbound l) = Some s ∧ os_Address s = l_Address l ∧ os_Port s = l_Port l ∧
    (needsUUID (l_Protocol l) = true → validUUID (os_ID s) = true);
  sl_address : l_Address l ≠ ""%string ∧ l_Port l ≠ 0;
  sl_protocol : oProtocol (l_outbound l) = l_Protocol l;
  sl_claimed : SendThrough (l_outbound l) = None ∧ oTag (l_outbound l) = OutboundTag;
  sl_unchained : checkChain (l_outbound l) = None;
  sl_trojan : l_Protocol l = "trojan"%string →
    ∃ ss, StreamSetting (l_outbound l) = Some ss ∧ sSecurity ss ≠ ""%string ∧ sSecurity ss ≠ "none"%string;
  sl_tls : ∀ ss, StreamSetting (l_outbound l) = Some ss → sSecurity ss = "tls"%string →
    l_Security l = SecurityTLS ∧ ∃ t, TLSSettings ss = Some t ∧ tServerName t = l_ServerName l ∧ l_ServerName l ≠ ""%string;
  sl_reality : ∀ ss, StreamSetting (l_outbound l) = Some ss → sSecurity ss = "reality"%string →
    l_Security l = SecurityReality ∧ checkReality (REALITYSettings ss) = None
}.

(** The corrections touch the stream alone, and leave it unchained. *)
Definition same_but_stream (a b : Outbound R) : Prop :=
  oProtocol a = oProtocol b ∧ SendThrough a = SendThrough b ∧ oTag a = oTag b ∧ oSettings a = oSettings b ∧ ProxySettings a = ProxySettings b ∧
  (ss ← StreamSetting a; DialerProxy ss) = (ss ← StreamSetting b; DialerProxy ss).

Lemma trojan_same p ob : same_but_stream (requireTLSForTrojan p ob) ob.
Proof.
  unfold requireTLSForTrojan, same_but_stream. destruct (negb _); [done|]. simpl. split_and!; [done..|].
  destruct (StreamSetting ob) as [ss|]; simpl; [by destruct (_ || _)|done].
Qed.
Lemma name_same a ob : same_but_stream (fillMissingServerName a ob) ob.
Proof.
  unfold fillMissingServerName, same_but_stream. destruct (StreamSetting ob) as [ss|] eqn:E; [|by rewrite E].
  destruct (negb _); [by rewrite E|]. done.
Qed.
Lemma unchained_same a b : same_but_stream a b → checkChain b = None → checkChain a = None.
Proof. intros (_ & _ & _ & _ & Hp & Hd). unfold checkChain. by rewrite Hp, Hd. Qed.

Lemma flatten_same ob ob' : flattenSettings ob = Ok ob' →
  oProtocol ob' = oProtocol ob ∧ SendThrough ob' = SendThrough ob ∧ oTag ob' = oTag ob ∧ ProxySettings ob' = ProxySettings ob ∧
  StreamSetting ob' = StreamSetting ob.
Proof.
  unfold flattenSettings. intros E. repeat case_match; simplify_eq; done.
Qed.

Lemma trojan_secured ob : ∃ ss, StreamSetting (requireTLSForTrojan "trojan" ob) = Some ss ∧ sSecurity ss ≠ ""%string ∧ sSecurity ss ≠ "none"%string.
Proof.
  unfold requireTLSForTrojan. simpl. eexists. split; [reflexivity|]. set (ss := default zero_stream (StreamSetting ob)).
  destruct (String.eqb_spec (sSecurity ss) ""); simpl; [done|]. destruct (String.eqb_spec (sSecurity ss) "none"); simpl; done.
Qed.
Lemma name_security a ob ss : StreamSetting (fillMissingServerName a ob) = Some ss →
  ∃ ss0, StreamSetting ob = Some ss0 ∧ sSecurity ss = sSecurity ss0 ∧ REALITYSettings ss = REALITYSettings ss0.
Proof.
  unfold fillMissingServerName. destruct (StreamSetting ob) as [ss0|] eqn:E; [|congruence]. destruct (negb _); [rewrite E; naive_solver|].
  simpl. intros [= <-]. by eexists.
Qed.
Lemma name_filled a ob ss : a ≠ ""%string → StreamSetting (fillMissingServerName a ob) = Some ss → sSecurity ss = "tls"%string →
  ∃ t, TLSSettings ss = Some t ∧ tServerName t ≠ ""%string.
Proof.
  intros Ha. unfold fillMissingServerName. destruct (StreamSetting ob) as [ss0|] eqn:E; [|congruence].
  destruct (String.eqb_spec (sSecurity ss0) "tls") as [Es|Es]; simpl; [|intros E1 E2; rewrite E in E1; by simplify_eq].
  intros [= <-] _. simpl. eexists. split; [done|]. destruct (String.eqb_spec (tServerName (default (MkTLS "" "" zero_rest) (TLSSettings ss0))) "");
    by destruct (TLSSettings ss0).
Qed.

Lemma fill_safe tag count index ob l : SendThrough ob = None → oTag ob = OutboundTag →
  fill tag count index ob = Ok l → safe_link l ∧ l_Tag l = tag ∧ l_Count l = count ∧ l_Index l = index.
Proof.
  intros Hs Ht. unfold fill. destruct (checkChain ob) eqn:Ec; [done|]. destruct (flattenSettings ob) as [ob1|] eqn:Ef; [|done].
  destruct (flatten_same ob ob1 Ef) as (F1 & F2 & F3 & F4 & F5). fold (read_settings ob1).
  assert (checkChain ob1 = None) as Ec1 by (revert Ec; unfold checkChain; by rewrite F4, F5).
  destruct (read_settings ob1) as [s|] eqn:Er; [|done].
  destruct (String.eqb_spec (os_Address s) "") as [|Ha]; [done|]. destruct (Z.eqb_spec (os_Port s) 0) as [|Hp]; [done|].
  destruct (needsUUID (oProtocol ob) && negb (validUUID (os_ID s))) eqn:Eu; [done|].
  set (ob2 := requireTLSForTrojan (oProtocol ob) ob1). set (ob3 := fillMissingServerName (os_Address s) ob2).
  pose proof (trojan_same (oProtocol ob) ob1) as (T1 & T2 & T3 & T4 & T5 & T6). pose proof (name_same (os_Address s) ob2) as (N1 & N2 & N3 & N4 & N5 & N6).
  fold ob2 in T1, T2, T3, T4, T5, T6. fold ob3 in N1, N2, N3, N4, N5, N6.
  destruct (fillStream ob3) as [[[[[nw sec] nm] fp] re]|] eqn:Es; [|done]. intros [= <-].
  split; [|done]. split; simpl.
  - exists s. split_and!; [|done|done|].
    + unfold read_settings in *. by rewrite N4, T4.
    + intros Hu. rewrite Hu in Eu. simpl in Eu. by apply negb_false_iff in Eu.
  - done.
  - congruence.
  - split; congruence.
  - apply (unchained_same _ ob2); [by split_and!|]. apply (unchained_same _ ob1); [by split_and!|done].
  - intros Etr. destruct (trojan_secured ob1) as (ss & E1 & E2 & E3). unfold ob3, ob2. rewrite Etr.
    destruct (StreamSetting (fillMissingServerName (os_Address s) (requireTLSForTrojan "trojan" ob1))) as [ss'|] eqn:E'.
    + destruct (name_security _ _ _ E') as (ss0 & E0 & Esec & _). rewrite E1 in E0. injection E0 as <-. exists ss'. rewrite Esec. done.
    + exfalso. revert E'. unfold fillMissingServerName. rewrite E1. destruct (negb (sSecurity ss =? "tls")%string); intros E'; [congruence|discriminate E'].
  - intros ss Ess Etls. destruct (name_filled _ ob2 ss Ha Ess Etls) as (t & Et & Hn). unfold fillStream in Es. rewrite Ess in Es.
    destruct (match sNetwork ss with None => _ | Some n => _ end); [|done]. rewrite Etls, Et in Es. simpl in Es. simplify_eq. split; [done|]. by exists t.
  - intros ss Ess Ere. unfold fillStream in Es. rewrite Ess in Es.
    destruct (match sNetwork ss with None => _ | Some n => _ end); [|done]. rewrite Ere in Es. simpl in Es.
    destruct (checkReality (REALITYSettings ss)) eqn:Ecr; [done|]. split; [|done]. destruct (REALITYSettings ss); by simplify_eq.
Qed.

(** ** The list and the entry selected *)

Lemma parsed_shape raw p : parseOutbounds raw = Ok p →
  p_outbounds p ≠ [] ∧ (∀ names, p_names p = Some names → List.length names = List.length (p_outbounds p)).
Proof.
  unfold parseOutbounds. cbv zeta. destruct (_ =? _)%string; [done|]. destruct (checkScheme _); [done|]. destruct (checkTransport _); [done|].
  destruct (isXrayJSON _).
  - unfold parseXrayJSON. destruct (match Unmarshal _ with Some _ => _ | None => _ end) as [[|j l]|]; [done| |done]. intros E.
    assert (p = MkParsed (snd <$> (json_entry <$> j :: l)) 0 (Some (fst <$> (json_entry <$> j :: l)))) as -> by congruence. split; [done|].
    intros names E'. assert (names = fst <$> (json_entry <$> j :: l)) as -> by (simpl in *; congruence). simpl. by rewrite !length_fmap.
  - destruct (ConvertShareLinks _) as [[|ob obs]|]; [done| |done]. intros E.
    destruct p as [po pd pn]. injection E as <- _ <-. done.
Qed.

(** No index in range panics, and every link is the one asked for and safe. *)
Lemma linkAt_total raw p i : parseOutbounds raw = Ok p → (i < List.length (p_outbounds p))%nat →
  ∃ r, linkAt p i = Some r ∧ ∀ l, r = Ok l → safe_link l ∧ l_Index l = Z.of_nat i ∧ l_Count l = Z.of_nat (List.length (p_outbounds p)).
Proof.
  intros Hp Hi. destruct (parsed_shape raw p Hp) as [_ Hn]. unfold linkAt. destruct (lookup_lt_is_Some_2 _ _ Hi) as [e Ee]. rewrite Ee.
  cbn [mbind option_bind]. destruct e as [ob|e]; [|by eexists].
  assert (∃ name, match p_names p with Some names => names !! i | None => Some (default ""%string (SendThrough ob)) end = Some name) as [name Ename].
  { destruct (p_names p) as [names|]; [|by eexists]. apply lookup_lt_is_Some_2. by rewrite (Hn names eq_refl). }
  rewrite Ename. cbn [mbind option_bind]. eexists. split; [done|]. intros l Hl.
  destruct (fill_safe _ _ _ (claim_outbound ob) l eq_refl eq_refl Hl) as (Hs & _ & Hc & Hx). done.
Qed.

Lemma Select_linkAt raw p i : parseOutbounds raw = Ok p → ∃ j clamped,
  (j < List.length (p_outbounds p))%nat ∧ (clamped = true → j = 0%nat) ∧ (clamped = false → i = Z.of_nat j) ∧
  (clamped = true ↔ i < 0 ∨ Z.of_nat (List.length (p_outbounds p)) ≤ i) ∧
  Select raw i = (λ r, match r with Err e => Err e | Ok l => Ok (l, clamped) end) <$> linkAt p j.
Proof.
  intros Hp. destruct (parsed_shape raw p Hp) as [Hne _]. assert (0 < List.length (p_outbounds p))%nat as Hpos by (destruct (p_outbounds p); [done|simpl; lia]).
  unfold Select. rewrite Hp. set (clamped := (i <? 0) || (Z.of_nat (List.length (p_outbounds p)) <=? i)).
  assert (clamped = true ↔ i < 0 ∨ Z.of_nat (List.length (p_outbounds p)) ≤ i) as Hc.
  { unfold clamped. rewrite orb_true_iff, Z.ltb_lt, Z.leb_le. done. }
  exists (if clamped then 0%nat else Z.to_nat i), clamped. destruct clamped eqn:E; split_and!; try done.
  - assert (¬ (i < 0 ∨ Z.of_nat (List.length (p_outbounds p)) ≤ i)) by (intros Hx; apply Hc in Hx; done). lia.
  - intros _. assert (¬ (i < 0 ∨ Z.of_nat (List.length (p_outbounds p)) ≤ i)) by (intros Hx; apply Hc in Hx; done). lia.
Qed.

(** Choosing an entry does not panic; an index outside the list gives the first entry
    and says so. *)
Lemma Select_safe raw i :
  ∃ r, Select raw i = Some r ∧ ∀ l clamped, r = Ok (l, clamped) →
    safe_link l ∧ (clamped = true → l_Index l = 0) ∧ (clamped = false → l_Index l = i) ∧ (clamped = true ↔ i < 0 ∨ l_Count l ≤ i).
Proof.
  destruct (parseOutbounds raw) as [p|e] eqn:Hp; [|unfold Select; rewrite Hp; by eexists].
  destruct (Select_linkAt raw p i Hp) as (j & clamped & Hj & Hc1 & Hc2 & Hc3 & ->).
  destruct (linkAt_total raw p j Hp Hj) as (r & -> & Hl). eexists. split; [reflexivity|]. intros l c. destruct r as [l'|]; [|done].
  intros [= <- <-]. destruct (Hl l' eq_refl) as (Hs & Hi & Hn). split_and!; [done| | |].
  - intros Ec. rewrite Hi, (Hc1 Ec). done.
  - intros Ec. by rewrite Hi, (Hc2 Ec).
  - by rewrite Hn.
Qed.

Definition shown (raw : string) (i : nat) : option Entry :=
  match Select raw (Z.of_nat i) with Some (Ok (l, _)) => Some (entry l) | _ => None end.

Lemma list_go_spec raw p n : parseOutbounds raw = Ok p → ∀ i acc d first, (i + n = List.length (p_outbounds p))%nat →
  ∃ first', list_go p n i acc d first =
    Some ((acc ++ omap (shown raw) (seq i n))%list, d + Z.of_nat (n - List.length (omap (shown raw) (seq i n))), first') ∧
    (first' = match first with Some e => Some e | None => first' end) ∧
    (omap (shown raw) (seq i n) = [] → (0 < n)%nat → first = None → ∃ e, first' = Some e ∧ Select raw (Z.of_nat i) = Some (Err e)).
Proof.
  intros Hp. induction n as [|n IH]; intros i acc d first Hi.
  - exists first. simpl. rewrite app_nil_r. split_and!; [by rewrite Z.add_0_r|by destruct first|lia].
  - cbn [list_go]. destruct (linkAt_total raw p i Hp ltac:(lia)) as (r & E & _). rewrite E. cbn [mbind option_bind].
    assert (shown raw i = match r with Ok l => Some (entry l) | Err _ => None end ∧
      Select raw (Z.of_nat i) = Some match r with Err e => Err e | Ok l => Ok (l, false) end) as [Es Esel].
    { unfold shown. destruct (Select_linkAt raw p (Z.of_nat i) Hp) as (j & c & Hj & Hc1 & Hc2 & Hc3 & ->).
      destruct c; [exfalso; destruct (proj1 Hc3 eq_refl); lia|]. assert (j = i) as -> by (specialize (Hc2 eq_refl); lia). rewrite E. by destruct r. }
    cbn [seq omap list_omap]. rewrite Es. destruct r as [l|e].
    + destruct (IH (S i) (acc ++ [entry l])%list d first ltac:(lia)) as (first' & El & Hf & Hn). exists first'. rewrite El.
      split_and!; [|done|done]. rewrite <- app_assoc. simpl. repeat f_equal.
    + destruct (IH (S i) acc (d + 1) (match first with None => Some e | _ => first end) ltac:(lia)) as (first' & El & Hf & Hn).
      exists first'. rewrite El. split_and!.
      * assert (List.length (omap (shown raw) (seq (S i) n)) ≤ n)%nat by (rewrite <- (length_seq n (S i)) at 2; apply omap_length).
        do 3 f_equal. lia.
      * by destruct first.
      * intros _ _ ->. exists e. split; [by destruct first'|done].
Qed.

(** C26. The list shown and the entry chosen agree: listing does not panic; the entries
    are exactly those that can be chosen, in order and as they would be chosen;
    what is not listed is counted; and the list is refused only when no entry can be
    chosen, with the reason the first one gives. *)
Theorem list_and_select_agree raw :
  match ParseAll raw with
  | Some (Ok li) => ∃ p, parseOutbounds raw = Ok p ∧
      Entries li = omap (shown raw) (seq 0 (List.length (p_outbounds p))) ∧ Entries li ≠ [] ∧
      l_Dropped li = p_dropped p + Z.of_nat (List.length (p_outbounds p) - List.length (Entries li))
  | Some (Err (Some e)) => (∀ i, ∃ e', Select raw i = Some (Err e')) ∧ Select raw 0 = Some (Err e)
  | _ => False
  end.
Proof.
  unfold ParseAll. destruct (parseOutbounds raw) as [p|e] eqn:Hp.
  - destruct (list_go_spec raw p (List.length (p_outbounds p)) Hp 0 [] (p_dropped p) None eq_refl) as (first & -> & _ & Hn).
    cbn [mbind option_bind app]. destruct (omap (shown raw) (seq 0 (List.length (p_outbounds p)))) as [|x l] eqn:Eo.
    + destruct (parsed_shape raw p Hp) as [Hne _].
      destruct (Hn eq_refl ltac:(destruct (p_outbounds p); [done|simpl; lia]) eq_refl) as (e & -> & Es). split; [|exact Es].
      intros i. destruct (Select_linkAt raw p i Hp) as (j & c & Hj & Hc1 & Hc2 & Hc3 & Esel).
      assert (shown raw j = None) as Hsh.
      { destruct (shown raw j) as [en|] eqn:Ex; [|done]. assert (en ∈ omap (shown raw) (seq 0 (List.length (p_outbounds p)))) as Hin
          by (apply list_elem_of_omap; exists j; split; [apply elem_of_seq; lia|done]). by rewrite Eo in Hin; apply elem_of_nil in Hin. }
      destruct (linkAt_total raw p j Hp Hj) as (r & El & _). rewrite Esel, El. destruct r as [l|e']; [|by eexists].
      exfalso. unfold shown in Hsh. destruct (Select_linkAt raw p (Z.of_nat j) Hp) as (j' & c' & _ & _ & Hc2' & Hc3' & Esel').
      destruct c'; [destruct (proj1 Hc3' eq_refl); lia|]. assert (j' = j) as -> by (specialize (Hc2' eq_refl); lia). by rewrite Esel', El in Hsh.
    + exists p. done.
  - split; [|unfold Select; by rewrite Hp]. intros i. exists e. unfold Select. by rewrite Hp.
Qed.
End Facts.

(** * The texts of a link: its display name and its id

    cleanTag of list.go and validUUID of validate.go, over the runes of a text. *)

(** ** Runes *)

Definition ascii_only (c : ascii) : Prop := (nat_of_ascii c < 128)%nat.

(** A rune as it is written: it is read alone, whatever follows, and only its first
    byte can start one. *)
Record good (r : list ascii) : Prop := {
  good_ne : r ≠ [];
  good_width t : rune_width (r ++ t) = List.length r;
  good_ascii c : r = [c] → ascii_only c;
  good_head c l : r = c :: l → RuneStart c = true ∧ Forall (λ d, RuneStart d = false) l
}.

Lemma start_ascii c : ascii_only c → RuneStart c = true.
Proof. unfold ascii_only. destruct c as [[] [] [] [] [] [] [] []]; vm_compute; try done; lia. Qed.
Lemma start_lead c : (194 ≤ nat_of_ascii c)%nat → RuneStart c = true.
Proof. destruct c as [[] [] [] [] [] [] [] []]; vm_compute; try done; lia. Qed.
Lemma cont_not_start lo hi o : (128 ≤ lo)%nat → (hi ≤ 191)%nat → cont lo hi o = true → ∃ c, o = Some c ∧ RuneStart c = false.
Proof.
  intros Hl Hh. destruct o as [c|]; [|done]. simpl. intros Hc. apply andb_true_iff in Hc as [H1 H2]. apply Nat.leb_le in H1, H2.
  exists c. split; [done|]. assert (128 ≤ nat_of_ascii c ≤ 191)%nat as Hb by lia. clear -Hb. destruct c as [[] [] [] [] [] [] [] []]; vm_compute in *; try done; lia.
Qed.

(** The bytes of a longer rune. *)
Lemma long_rune s : (1 < rune_width s)%nat →
  ∃ c l, take (rune_width s) s = c :: l ∧ RuneStart c = true ∧ Forall (λ d, RuneStart d = false) l ∧ l ≠ [] ∧ List.length (c :: l) = rune_width s.
Proof.
  destruct s as [|c s]; [simpl; lia|]. cbn [rune_width].
  repeat match goal with |- context [if ?b then _ else _] => destruct b eqn:? end; try lia; intros _;
    repeat match goal with
    | Hb : (_ && _) = true |- _ => apply andb_true_iff in Hb as [? ?]
    | Hb : (_ || _) = true |- _ => apply orb_true_iff in Hb as [Hb|Hb]
    | Hb : (_ <=? _)%nat = true |- _ => apply Nat.leb_le in Hb
    end;
    repeat match goal with Hb : cont _ _ (_ !! _) = true |- _ => apply cont_not_start in Hb as (? & ? & ?); [|lia..] end;
    destruct s as [|c1 [|c2 [|c3 s]]]; simplify_eq/=; exists c; eexists; (split_and!; [reflexivity|apply start_lead; lia|repeat (constructor; [assumption|]); constructor|done|done]).
Qed.

Lemma replacement_good : good replacement.
Proof.
  split; [done|by intros [|? [|? ?]]|done|]. intros c l E. injection E as <- <-. split; [done|]. repeat constructor.
Qed.

Lemma ascii_good c : ascii_only c → good [c].
Proof.
  intros Hc. split; [done|intros t; by apply rune_width_ascii|intros c' E; by injection E as <-|].
  intros c' l E. injection E as <- <-. split; [by apply start_ascii|constructor].
Qed.

Lemma long_good s : (1 < rune_width s)%nat → good (take (rune_width s) s).
Proof.
  intros Hw. destruct (long_rune s Hw) as (c & l & E & Hc & Hl & Hne & Hlen). split.
  - by rewrite E.
  - intros t. rewrite rune_width_own by done. by rewrite E.
  - intros c' E'. rewrite E in E'. by destruct l.
  - intros c' l' E'. rewrite E in E'. by simplify_eq.
Qed.

Lemma runes_good s : ∀ skip, Forall good (runes_go skip s).
Proof.
  induction s as [|c s IH]; intros [|k]; cbn [runes_go]; [constructor..| |apply IH]. constructor; [|apply IH].
  destruct (Nat.eqb_spec (rune_width (c :: s)) 1) as [E|E].
  - destruct (Nat.ltb_spec (nat_of_ascii c) 128); [by apply ascii_good|apply replacement_good].
  - apply long_good. pose proof (rune_width_bounds (c :: s) ltac:(done)). lia.
Qed.

Lemma runes_skip l q : runes_go (List.length l) (l ++ q) = runes_go 0 q.
Proof. induction l as [|c l IH]; [done|]. exact IH. Qed.
Lemma valid_skip_app l q : valid_go (List.length l) (l ++ q) = valid_go 0 q.
Proof. induction l as [|c l IH]; [done|]. exact IH. Qed.

(** Good runes are read back one by one. *)
Lemma runes_concat ps : Forall good ps → runes (concat ps) = ps ∧ valid_go 0 (concat ps) = true.
Proof.
  induction 1 as [|p ps Hp Hps [IH1 IH2]]; [done|]. cbn [concat]. destruct p as [|c l]; [by destruct (good_ne _ Hp)|].
  pose proof (good_width _ Hp (concat ps)) as Hw. unfold runes. cbn [app] in *. cbn [runes_go valid_go]. rewrite Hw. cbn [List.length Nat.sub].
  rewrite Nat.sub_0_r, runes_skip, valid_skip_app. split.
  - f_equal; [|exact IH1]. destruct l as [|d l].
    + pose proof (good_ascii _ Hp c eq_refl) as Ha. unfold ascii_only in Ha. cbn [List.length Nat.eqb]. by rewrite (proj2 (Nat.ltb_lt _ _)).
    + cbn [List.length Nat.eqb]. change (c :: (d :: l) ++ concat ps) with ((c :: d :: l) ++ concat ps).
      change (S (S (List.length l))) with (List.length (c :: d :: l)). by rewrite take_app_length.
  - rewrite IH2, andb_true_r. destruct l as [|d l]; [|cbn; by rewrite orb_true_r].
    pose proof (good_ascii _ Hp c eq_refl) as Ha. unfold ascii_only in Ha. by rewrite (proj2 (Nat.ltb_lt _ _)).
Qed.

(** A valid text is its runes. *)
Lemma concat_runes s : ∀ skip, valid_go skip s = true → concat (runes_go skip s) = drop skip s.
Proof.
  induction s as [|c s IH]; intros [|k]; cbn [runes_go valid_go]; try done; [|apply IH]. intros Hv. apply andb_true_iff in Hv as [Hc Hv].
  specialize (IH _ Hv). cbn [concat drop]. rewrite IH. pose proof (rune_width_bounds (c :: s) ltac:(done)) as Hw.
  destruct (Nat.eqb_spec (rune_width (c :: s)) 1) as [E|E].
  - rewrite E in *. apply orb_true_iff in Hc as [Hc|Hc]; [|done]. rewrite Hc. done.
  - destruct (rune_width (c :: s)) as [|w]; [lia|]. cbn [take app Nat.sub]. rewrite Nat.sub_0_r. by rewrite take_drop.
Qed.

(** ** Cutting on a rune *)

Lemma cut_back_spec n out : (n < List.length out)%nat →
  (cut_back n out ≤ n)%nat ∧ (cut_back n out = 0%nat ∨ ∃ c, out !! cut_back n out = Some c ∧ RuneStart c = true).
Proof.
  induction n as [|n IH]; intros Hn; [split; [done|by left]|]. cbn [cut_back]. destruct (lookup_lt_is_Some_2 out (S n) Hn) as [c Ec].
  rewrite Ec. destruct (RuneStart c) eqn:Er; [split; [done|right; eauto]|]. destruct (IH ltac:(lia)) as [H1 H2]. split; [lia|done].
Qed.

Lemma cut_boundary ps : Forall good ps → ∀ k, (k = 0%nat ∨ ∃ c, concat ps !! k = Some c ∧ RuneStart c = true) →
  ∃ j, take k (concat ps) = concat (take j ps).
Proof.
  induction 1 as [|p ps Hp Hps IH]; intros k Hk; [exists 0%nat; by destruct k|].
  destruct (decide (k = 0%nat)) as [->|Hk0]; [exists 0%nat; by rewrite !take_0|]. destruct Hk as [|(c & Hc & Hs)]; [done|]. cbn [concat] in *.
  destruct (decide (k < List.length p)%nat) as [Hlt|Hge].
  - exfalso. rewrite lookup_app_l in Hc by done. destruct p as [|c0 l]; [simpl in Hlt; lia|]. destruct k as [|k]; [done|].
    destruct (good_head _ Hp c0 l eq_refl) as [_ Hl]. rewrite Forall_forall in Hl. simpl in Hc.
    assert (RuneStart c = false) by (apply Hl; by eapply list_elem_of_lookup_2). congruence.
  - rewrite lookup_app_r in Hc by lia. destruct (IH (k - List.length p)%nat) as [j Hj]; [right; eauto|]. exists (S j). cbn [take concat].
    rewrite take_app_ge by lia. by rewrite Hj.
Qed.

(** A display name is fit to show: whatever the provider put there, the cleaned
    name is at most 64 bytes, is UTF-8 and holds no control character; it is cut
    between two characters; and a name that was already so is left as it is. *)
Theorem clean_tag_fit s :
  let t := to_l (cleanTag s) in
  (List.length t ≤ maxTagBytes)%nat ∧ valid_go 0 t = true ∧ Forall (λ r, IsControl r = false) (runes t) ∧
  (∃ j, runes t = take j (List.filter (λ r, negb (IsControl r)) (runes (to_l s)))) ∧
  (ValidString s = true → Forall (λ r, IsControl r = false) (runes (to_l s)) → (String.length s ≤ maxTagBytes)%nat → cleanTag s = s).
Proof.
  intros t. set (ps := List.filter (λ r, negb (IsControl r)) (runes (to_l s))).
  assert (Forall good ps ∧ Forall (λ r, IsControl r = false) ps) as [Hg Hc].
  { split; apply Forall_forall; intros r Hr; apply list_elem_of_In, filter_In in Hr as [Hr Hn].
    - pose proof (runes_good (to_l s) 0) as HG. rewrite Forall_forall in HG. by apply HG, list_elem_of_In.
    - by apply negb_true_iff. }
  assert (∃ j, t = concat (take j ps) ∧ (List.length t ≤ maxTagBytes)%nat) as (j & Ej & Hlen).
  { subst t. unfold cleanTag. fold ps. rewrite to_of_l. destruct (Nat.leb_spec (List.length (concat ps)) maxTagBytes).
    - exists (List.length ps). by rewrite firstn_all.
    - destruct (cut_back_spec maxTagBytes (concat ps)) as [H1 H2]; [lia|]. destruct (cut_boundary ps Hg _ H2) as [j Hj].
      exists j. split; [exact Hj|]. rewrite length_take. lia. }
  assert (Forall good (take j ps)) as Hgj by (by apply Forall_take). destruct (runes_concat _ Hgj) as [Er Ev].
  split_and!; [done|by rewrite Ej|rewrite Ej, Er; by apply Forall_take|exists j; by rewrite Ej|].
  intros Hv Hcs Hl. unfold cleanTag. fold ps.
  assert (ps = runes (to_l s)) as ->.
  { unfold ps. apply forallb_filter_id, forallb_forall. intros r Hr. rewrite Forall_forall in Hcs. rewrite Hcs; [done|by apply list_elem_of_In]. }
  change (runes (to_l s)) with (runes_go 0 (to_l s)). rewrite (concat_runes (to_l s) 0 Hv). change (drop 0 (to_l s)) with (to_l s).
  assert (List.length (to_l s) = String.length s) as -> by (clear; induction s; simpl; congruence). rewrite (proj2 (Nat.leb_le _ _)) by done.
  apply of_to_l.
Qed.

(** ** The id of a user *)

Definition dash_at (i : nat) : bool := (i =? 8)%nat || (i =? 13)%nat || (i =? 18)%nat || (i =? 23)%nat.

Lemma uuid_ascii l : Forall ascii_only l → ∀ i,
  uuid_go 0 i l = true ↔ ∀ k c, l !! k = Some c → if dash_at (i + k) then c = "-"%char else isHexDigit c = true.
Proof.
  induction 1 as [|c l Hc Hl IH]; intros i; [done|]. cbn [uuid_go].
  assert (rune_width (c :: l) = 1%nat) as Ew by by apply rune_width_ascii. rewrite Ew. cbn [Nat.sub].
  assert (low_byte (c :: l) = c) as -> by (unfold low_byte; rewrite Ew; unfold ascii_only in Hc; by rewrite (proj2 (Nat.ltb_lt _ _))).
  fold (dash_at i). specialize (IH (S i)).
  assert ((∀ k c', (c :: l) !! k = Some c' → if dash_at (i + k) then c' = "-"%char else isHexDigit c' = true) ↔
    (if dash_at i then c = "-"%char else isHexDigit c = true) ∧
    (∀ k c', l !! k = Some c' → if dash_at (S i + k) then c' = "-"%char else isHexDigit c' = true)) as ->.
  { split.
    - intros Hk. split; [specialize (Hk 0%nat c eq_refl); by rewrite Nat.add_0_r in Hk|].
      intros k c' E. specialize (Hk (S k) c' E). by rewrite Nat.add_succ_r in Hk.
    - intros [H0 Hk] [|k] c' E; [injection E as <-; by rewrite Nat.add_0_r|]. rewrite Nat.add_succ_r. by apply Hk. }
  destruct (dash_at i); rewrite andb_true_iff, IH; [by rewrite Ascii.eqb_eq|done].
Qed.

(** Of an ASCII text, a valid id is 32 hexadecimal digits, or 36 bytes with dashes at
    8, 13, 18 and 23 and hexadecimal digits elsewhere. *)
Lemma valid_uuid_ascii s : Forall ascii_only (to_l s) →
  validUUID s = true ↔
    (List.length (to_l s) = 32%nat ∧ Forall (λ c, isHexDigit c = true) (to_l s)) ∨
    (List.length (to_l s) = 36%nat ∧ ∀ k c, to_l s !! k = Some c → if dash_at k then c = "-"%char else isHexDigit c = true).
Proof.
  intros Ha. unfold validUUID. destruct (Nat.eqb_spec (List.length (to_l s)) 32) as [E|E].
  - unfold isHex. rewrite forallb_forall, Forall_forall. setoid_rewrite <- list_elem_of_In. split; [auto|intros [[_ Hf]|[E' _]]; [done|lia]].
  - destruct (Nat.eqb_spec (List.length (to_l s)) 36) as [E'|E'].
    + rewrite (uuid_ascii _ Ha 0). split; [auto|]. intros [[? _]|[_ Hk]]; [done|exact Hk].
    + split; [done|]. intros [[? _]|[? _]]; done.
Qed.

(** ** A link that was chosen *)

(** 32 hexadecimal digits, or 36 bytes with dashes where a UUID has them; of a text
    outside ASCII only the length is known. *)
Definition uuid_text (s : string) : Prop :=
  let l := to_l s in
  (List.length l = 32%nat ∨ List.length l = 36%nat) ∧
  (Forall ascii_only l →
    (List.length l = 32%nat ∧ Forall (λ c, isHexDigit c = true) l) ∨
    (List.length l = 36%nat ∧ ∀ k c, l !! k = Some c → if dash_at k then c = "-"%char else isHexDigit c = true)).

(** A public key of 32 bytes, a short id of at most eight, and no verification key or
    one of 1952 bytes. *)
Definition reality_shaped {R} (r : REALITYConfig R) : Prop :=
  raw_url_len (if (rPassword r =? "")%string then PublicKey r else rPassword r) = Some 32%nat ∧
  ((String.length (ShortId r) ≤ 16)%nat ∧ Z.of_nat (String.length (ShortId r)) mod 2 = 0 ∧
     Forall (λ c, isHexDigit c = true) (to_l (ShortId r))) ∧
  (Mldsa65Verify r = ""%string ∨ raw_url_len (Mldsa65Verify r) = Some 1952%nat).

Lemma uuid_spelled s : validUUID s = true → uuid_text s.
Proof.
  intros Hv. split; [|intros Ha; by apply (valid_uuid_ascii s Ha)]. unfold validUUID in Hv.
  destruct (Nat.eqb_spec (List.length (to_l s)) 32); [auto|]. destruct (Nat.eqb_spec (List.length (to_l s)) 36); [auto|done].
Qed.

Lemma short_id_spelled id : checkShortID id = None →
  (String.length id ≤ 16)%nat ∧ Z.of_nat (String.length id) mod 2 = 0 ∧ Forall (λ c, isHexDigit c = true) (to_l id).
Proof.
  unfold checkShortID. destruct (String.eqb_spec id "") as [->|_]; [intros _; split_and!; [simpl; lia|done|constructor]|].
  destruct (Z.ltb_spec shortIDMaxChars (Z.of_nat (String.length id))) as [|Hl]; [done|].
  destruct (Z.eqb_spec (Z.of_nat (String.length id) mod 2) 0) as [Hm|]; [|done]. cbn [negb].
  destruct (isHex (to_l id)) eqn:Eh; [|done]. intros _. split_and!; [unfold shortIDMaxChars in Hl; lia|done|].
  apply Forall_forall. intros c Hc. unfold isHex in Eh. rewrite forallb_forall in Eh. by apply Eh, list_elem_of_In.
Qed.

Lemma reality_spelled {R} (r : REALITYConfig R) : checkReality (Some r) = None → reality_shaped r.
Proof.
  unfold checkReality, reality_shaped. destruct (_ =? "")%string; [done|].
  destruct (bool_decide_reflect (raw_url_len (if (rPassword r =? "")%string then PublicKey r else rPassword r) = Some realityPublicKeyLen)) as [E|]; [|done].
  cbn [negb]. destruct (checkShortID (ShortId r)) eqn:Es; [done|]. apply short_id_spelled in Es. intros Hr. split_and!; [exact E|apply Es..|].
  destruct (String.eqb_spec (Mldsa65Verify r) "") as [|]; [by left|right]. cbn [negb andb] in Hr.
  by destruct (bool_decide_reflect (raw_url_len (Mldsa65Verify r) = Some mldsa65VerifyLen)).
Qed.

Section Chosen.
Context {R : Type} `{Conf R}.

Record fit_link (l : Link R) : Prop := {
  fit_server : ∃ s, read_settings (l_outbound l) = Some s ∧ os_Address s = l_Address l ∧ os_Port s = l_Port l ∧
    l_Address l ≠ ""%string ∧ l_Port l ≠ 0 ∧
    (l_Protocol l = "vless"%string ∨ l_Protocol l = "vmess"%string → uuid_text (os_ID s));
  fit_protocol : oProtocol (l_outbound l) = l_Protocol l;
  fit_unbound : SendThrough (l_outbound l) = None;
  fit_unchained : default ""%string (ProxySettings (l_outbound l)) = ""%string ∧
    ∀ ss, StreamSetting (l_outbound l) = Some ss → default ""%string (DialerProxy ss) = ""%string;
  fit_trojan : l_Protocol l = "trojan"%string →
    ∃ ss, StreamSetting (l_outbound l) = Some ss ∧ sSecurity ss ≠ ""%string ∧ sSecurity ss ≠ "none"%string;
  fit_tls : ∀ ss, StreamSetting (l_outbound l) = Some ss → sSecurity ss = "tls"%string →
    l_Security l = SecurityTLS ∧ ∃ t, TLSSettings ss = Some t ∧ tServerName t = l_ServerName l ∧ l_ServerName l ≠ ""%string;
  fit_reality : ∀ ss r, StreamSetting (l_outbound l) = Some ss → sSecurity ss = "reality"%string → REALITYSettings ss = Some r →
    l_Security l = SecurityReality ∧ reality_shaped r
}.

Lemma unchained_spelled (ob : Outbound R) : checkChain ob = None →
  default ""%string (ProxySettings ob) = ""%string ∧
  ∀ ss, StreamSetting ob = Some ss → default ""%string (DialerProxy ss) = ""%string.
Proof.
  unfold checkChain. assert (∀ o : option string, (match o with Some t => negb (t =? "")%string | None => false end) = false → default ""%string o = ""%string) as Hn.
  { intros [t|]; [|done]. intros Hb. by apply negb_false_iff, String.eqb_eq in Hb. }
  destruct (match ProxySettings ob with Some t => _ | None => _ end) eqn:E1; [done|]. destruct (match (ss ← StreamSetting ob; DialerProxy ss) with Some t => _ | None => _ end) eqn:E2; [done|].
  intros _. split; [by apply Hn|]. intros ss Ess. apply Hn. by rewrite Ess in E2.
Qed.

Lemma safe_fit (l : Link R) : safe_link l → fit_link l.
Proof.
  intros [(s & Es & Ea & Ep & Hu) [Ha Hp] Hpr [Hst _] Hch Htr Htls Hre]. split; try done.
  - exists s. split_and!; try done. intros Hv. apply uuid_spelled, Hu. unfold needsUUID. destruct Hv as [-> | ->]; done.
  - by apply unchained_spelled.
  - intros ss r Ess Esec Er. destruct (Hre ss Ess Esec) as [Hs Hc]. split; [done|]. apply reality_spelled. by rewrite <- Er.
Qed.

(** C13. Whatever was pasted and whichever entry was chosen, choosing does not panic,
    and a link that comes back is one the engine may be handed: the server and port
    shown, neither empty, are those the engine will read from the outbound; the id of
    a vless or vmess user, when it is ASCII, is a UUID with or without its dashes; no
    address is bound and nothing is dialled through another outbound; a trojan
    outbound's security is neither empty nor the word none in small letters (spelled
    in capitals it is kept, trojan_in_capitals); TLS has a server name, the one
    shown; and REALITY parameters, when given, have a 32-byte key, a short id of at
    most eight bytes and a verification key of 1952 bytes or none. An index outside
    the list gives the first entry and says so. *)
Theorem selected_link_safe raw i :
  ∃ r, Select raw i = Some r ∧ ∀ l clamped, r = Ok (l, clamped) →
    fit_link l ∧ (clamped = true → l_Index l = 0) ∧ (clamped = false → l_Index l = i) ∧ (clamped = true ↔ i < 0 ∨ l_Count l ≤ i).
Proof.
  destruct (Select_safe raw i) as (r & E & Hr). exists r. split; [done|]. intros l clamped El.
  destruct (Hr l clamped El) as (Hs & Hi). split; [by apply safe_fit|done].
Qed.
End Chosen.

(** Outside ASCII the low byte of a code point is compared: U+0130, two bytes, counts
    as the digit 0, so a text that is no UUID passes. *)
Example uuid_low_byte :
  validUUID (of_l (["196"; "176"]%char ++ to_l "345678-1234-1234-1234-123456789abc")) = true.
Proof. vm_compute. reflexivity. Qed.
