(* ===== verification/LinkDoc.v ===== *)
(** * The document of a link (internal/link)

    A JSON object decoded into a map is written with its keys in order and the last
    of two equal keys; dropping nulls leaves every other value where it was. *)

From Stdlib Require Import OrdersEx.
From S2P Require Import Prelude GoStrings Text Json JsonFacts JsonStruct Link Netip.

Local Open Scope Z_scope.

(** ** Maps *)

Lemma key_lt_spec a b : key_lt a b = true ↔ String_as_OT.lt (of_l a) (of_l b).
Proof.
  unfold key_lt, String.ltb, String_as_OT.lt. change (String.compare (of_l a) (of_l b)) with (String_as_OT.compare (of_l a) (of_l b)).
  destruct (String_as_OT.compare (of_l a) (of_l b)); done.
Qed.
Lemma key_lt_trans a b c : key_lt a b = true → key_lt b c = true → key_lt a c = true.
Proof. rewrite !key_lt_spec. apply String_as_OT.lt_strorder. Qed.
Lemma key_lt_irrefl a : key_lt a a = false.
Proof.
  destruct (key_lt a a) eqn:E; [|done]. apply key_lt_spec in E. by destruct (StrictOrder_Irreflexive (R := String_as_OT.lt) (of_l a)).
Qed.
Lemma of_l_inj a b : of_l a = of_l b → a = b.
Proof. intros E. rewrite <- (to_of_l a), <- (to_of_l b). by rewrite E. Qed.
Lemma key_lt_total a b : a ≠ b → key_lt a b = false → key_lt b a = true.
Proof.
  intros Hn Hl. apply key_lt_spec. destruct (String_as_OT.compare_spec (of_l a) (of_l b)) as [E|E|E]; [|apply key_lt_spec in E; congruence|done].
  destruct Hn. by apply of_l_inj.
Qed.

Abbreviation members := (list (list ascii * json)).

(** Keys in order, none twice. *)
Definition after (k : list ascii) (m : members) : Prop := Forall (λ kv, key_lt k (fst kv) = true) m.
Fixpoint in_order (m : members) : Prop :=
  match m with [] => True | (k, _) :: m => after k m ∧ in_order m end.

Lemma after_trans k k' m : key_lt k k' = true → after k' m → after k m.
Proof. intros Hk Hm. eapply list.Forall_impl; [exact Hm|]. intros kv. by apply key_lt_trans. Qed.

Lemma after_lookup k m : after k m → lookup_member k m = None.
Proof.
  induction 1 as [|[k' v] m Hk Hm IH]; [done|]. simpl in *. destruct (bool_decide_reflect (k = k')) as [->|_]; [|done].
  by rewrite key_lt_irrefl in Hk.
Qed.

Lemma insert_after k0 k v m : key_lt k0 k = true → after k0 m → after k0 (insert_member k v m).
Proof.
  intros Hk Hm. induction Hm as [|[k' v'] m Hk' Hm IH]; simpl; [by repeat constructor|].
  repeat case_match; repeat constructor; done.
Qed.

Lemma insert_in_order k v m : in_order m → in_order (insert_member k v m).
Proof.
  induction m as [|[k' v'] m IH]; intros Hm; simpl; [by repeat constructor|]. destruct Hm as [Ha Hm].
  destruct (bool_decide_reflect (k = k')) as [->|Hn]; [done|]. destruct (key_lt k k') eqn:E.
  - split; [constructor; [done|by apply (after_trans k k')]|done].
  - split; [|by apply IH]. by apply insert_after; [apply key_lt_total|].
Qed.

Lemma lookup_insert_member k v m k' : lookup_member k' (insert_member k v m) = if bool_decide (k' = k) then Some v else lookup_member k' m.
Proof.
  induction m as [|[k0 v0] m IH]; simpl; [done|]. destruct (bool_decide_reflect (k = k0)) as [->|Hn]; simpl; [by case_bool_decide|].
  destruct (key_lt k k0); simpl; [done|]. rewrite IH. repeat case_bool_decide; congruence.
Qed.

Lemma insert_last k v m : Forall (λ kv, key_lt (fst kv) k = true) m → insert_member k v m = (m ++ [(k, v)])%list.
Proof.
  induction 1 as [|[k' v'] m Hk Hm IH]; [done|]. simpl in *. destruct (bool_decide_reflect (k = k')) as [->|_]; [by rewrite key_lt_irrefl in Hk|].
  destruct (key_lt k k') eqn:E; [|by rewrite IH]. pose proof (key_lt_trans _ _ _ E Hk) as Hc. by rewrite key_lt_irrefl in Hc.
Qed.

Definition fill_map (m l : members) : members := foldl (λ m kv, insert_member (fst kv) (snd kv) m) m l.

Lemma fill_in_order m l : in_order m → in_order (fill_map m l).
Proof. revert m. induction l as [|kv l IH]; intros m Hm; [done|]. apply IH. by apply insert_in_order. Qed.
Lemma as_map_in_order l : in_order (as_map l).
Proof. by apply fill_in_order. Qed.

Lemma in_order_app a b : in_order (a ++ b) → in_order b ∧ Forall (λ kv, Forall (λ kv', key_lt (fst kv) (fst kv') = true) b) a.
Proof.
  induction a as [|[k v] a IH]; intros Hab; [done|]. destruct Hab as [Ha Hab]. destruct (IH Hab) as [Hb Hf]. split; [done|].
  constructor; [|done]. by apply Forall_app in Ha as [_ Ha].
Qed.

(** A map is written as it was read. *)
Lemma as_map_id l : in_order l → as_map l = l.
Proof.
  intros Hl. unfold as_map. change (fill_map [] l = l). assert (∀ m, in_order (m ++ l) → fill_map m l = (m ++ l)%list) as Hf; [|by apply Hf].
  clear Hl. induction l as [|[k v] l IH]; intros m Hm; [by rewrite app_nil_r|]. cbn [fill_map foldl fst snd]. fold (fill_map (insert_member k v m) l).
  destruct (in_order_app _ _ Hm) as [_ Hk]. rewrite insert_last.
  - rewrite IH; rewrite <- app_assoc; done.
  - eapply list.Forall_impl; [exact Hk|]. intros kv Hkv. by inversion Hkv.
Qed.

(** The last of equal keys is the one kept. *)
Definition last_member (k : list ascii) (l : members) : option json :=
  foldl (λ acc kv, if bool_decide (k = fst kv) then Some (snd kv) else acc) None l.

Lemma lookup_as_map k l : lookup_member k (as_map l) = last_member k l.
Proof.
  unfold as_map, last_member. change (@None json) with (lookup_member k []). generalize (@nil (list ascii * json)).
  induction l as [|[k' v] l IH]; intros m; [done|]. cbn [foldl fst snd]. rewrite IH. f_equal. by rewrite lookup_insert_member.
Qed.

Lemma insert_elem k v m kv : kv ∈ insert_member k v m → kv = (k, v) ∨ kv ∈ m.
Proof.
  induction m as [|[k' v'] m IH]; simpl; [rewrite list_elem_of_singleton; auto|].
  repeat case_match; rewrite !elem_of_cons; naive_solver.
Qed.
Lemma as_map_elem l kv : kv ∈ as_map l → kv ∈ l.
Proof.
  unfold as_map. assert (∀ m, kv ∈ fill_map m l → kv ∈ m ∨ kv ∈ l) as Hf.
  { induction l as [|[k v] l IH]; intros m Hin; [by left|]. destruct (IH _ Hin) as [Hi|Hi]; [|right; by constructor].
    apply insert_elem in Hi as [->|Hi]; [right; constructor|by left]. }
  intros Hin. destruct (Hf [] Hin) as [Hn|]; [by apply elem_of_nil in Hn|done].
Qed.

(** ** Nulls *)

(** Every object is a map with no null member. *)
Fixpoint clean (v : json) : Prop :=
  match v with
  | JArr l => foldr and True (List.map clean l)
  | JObj l => in_order l ∧ foldr and True (List.map (λ p, match p with (_, y) => is_null y = false ∧ clean y end) l)
  | _ => True
  end.

Lemma foldr_and {A} (P : A → Prop) l : foldr and True (List.map P l) ↔ Forall P l.
Proof. induction l as [|x l IH]; simpl; [done|]. by rewrite IH, Forall_cons. Qed.

Definition kept (m : members) : members := List.filter (λ kv, negb (is_null (snd kv))) m.
Lemma stripNulls_obj l : stripNulls (JObj l) = JObj (kept (as_map (List.map (λ kv, (fst kv, stripNulls (snd kv))) l))).
Proof. done. Qed.

Lemma filter_in_order f (m : members) : in_order m → in_order (List.filter f m).
Proof.
  induction m as [|[k v] m IH]; intros Hm; [done|]. destruct Hm as [Ha Hm]. simpl. destruct (f (k, v)); [|by apply IH]. split; [|by apply IH].
  apply Forall_forall. intros kv Hin. unfold after in Ha. rewrite Forall_forall in Ha. apply Ha. apply list_elem_of_In in Hin.
  apply list_elem_of_In. by apply filter_In in Hin as [? _].
Qed.

Lemma lookup_kept k m : in_order m →
  lookup_member k (kept m) = match lookup_member k m with Some v => if is_null v then None else Some v | None => None end.
Proof.
  induction m as [|[k' v] m IH]; intros Hm; [done|]. destruct Hm as [Ha Hm]. cbn [kept List.filter lookup_member snd].
  destruct (bool_decide_reflect (k = k')) as [->|Hn].
  - destruct (is_null v) eqn:En; simpl; [|by rewrite bool_decide_true].
    fold (kept m). rewrite IH by done. by rewrite (after_lookup k' m Ha).
  - destruct (negb (is_null v)); simpl; [rewrite bool_decide_false by done|]; by apply IH.
Qed.

Lemma stripNulls_clean v : clean (stripNulls v).
Proof.
  induction v as [| | | |l IH|l IH] using json_nested_ind; try done.
  - cbn [stripNulls clean]. rewrite foldr_and, Forall_map. exact IH.
  - rewrite stripNulls_obj. cbn [clean]. split; [apply filter_in_order, as_map_in_order|]. rewrite foldr_and. apply Forall_forall.
    intros [k y] Hin. apply list_elem_of_In, filter_In in Hin as [Hin Hn]. simpl in Hn. split; [by apply negb_true_iff|].
    apply list_elem_of_In, as_map_elem in Hin. apply list_elem_of_In, in_map_iff in Hin as ([k' y'] & E & Hin). simplify_eq/=.
    rewrite Forall_forall in IH. apply (IH (k, y')). by apply list_elem_of_In.
Qed.

Lemma stripNulls_id v : clean v → stripNulls v = v.
Proof.
  induction v as [| | | |l IH|l IH] using json_nested_ind; try done; intros Hc.
  - cbn [stripNulls clean] in *. rewrite foldr_and in Hc. f_equal. induction l as [|x l IHl]; [done|]. inversion IH; inversion Hc; subst.
    simpl. f_equal; auto.
  - rewrite stripNulls_obj. cbn [clean] in Hc. destruct Hc as [Ho Hc]. rewrite foldr_and in Hc.
    assert (List.map (λ kv, (fst kv, stripNulls (snd kv))) l = l ∧ kept l = l) as [-> Hk].
    { clear Ho. induction l as [|[k y] l IHl]; [done|]. apply Forall_cons in IH as [Hy Hl]. apply Forall_cons in Hc as [[Hn Hcy] Hcl].
      destruct (IHl Hl Hcl) as [E1 E2]. simpl. unfold kept in *. simpl. rewrite Hn. simpl. rewrite E1, E2. unfold compose in Hy. simpl in Hy.
      by rewrite Hy. }
    by rewrite as_map_id, Hk.
Qed.

Lemma last_member_map k (f : json → json) l :
  last_member k (List.map (λ kv, (fst kv, f (snd kv))) l) = f <$> last_member k l.
Proof.
  unfold last_member. change (@None json) with (f <$> @None json) at 1. generalize (@None json).
  induction l as [|[k' v] l IH]; intros acc; [done|]. cbn [List.map foldl fst snd]. rewrite <- IH. f_equal. by case_bool_decide.
Qed.

(** ** What a document says at a place *)

Inductive place := Key (k : list ascii) | Index (i : nat).
Fixpoint reach (p : list place) (v : json) : option json :=
  match p, v with
  | [], v => Some v
  | Key k :: p, JObj l => last_member k l ≫= reach p
  | Index i :: p, JArr l => l !! i ≫= reach p
  | _, _ => None
  end.

Lemma last_member_in_order k m : in_order m → last_member k m = lookup_member k m.
Proof. intros Hm. rewrite <- (as_map_id m Hm) at 2. by rewrite lookup_as_map. Qed.

Lemma reach_key k p l : reach (Key k :: p) (stripNulls (JObj l)) =
  match last_member k l with Some v => if is_null v then None else reach p (stripNulls v) | None => None end.
Proof.
  rewrite stripNulls_obj. cbn [reach]. rewrite last_member_in_order by (apply filter_in_order, as_map_in_order).
  rewrite lookup_kept by apply as_map_in_order. rewrite lookup_as_map, last_member_map.
  destruct (last_member k l) as [v|]; [|done]. simpl. assert (is_null (stripNulls v) = is_null v) as -> by (by destruct v). by destruct (is_null v).
Qed.

Lemma reach_index i p l : reach (Index i :: p) (stripNulls (JArr l)) = l !! i ≫= λ v, reach p (stripNulls v).
Proof.
  cbn [stripNulls reach]. change (List.map stripNulls l) with (stripNulls <$> l). rewrite list_lookup_fmap. by destruct (l !! i).
Qed.

(** A value that is not null stays where it was, and nothing else appears. *)
Lemma strip_reach p : ∀ v,
  (∀ w, reach p v = Some w → is_null w = false → reach p (stripNulls v) = Some (stripNulls w)) ∧
  (∀ w, reach p (stripNulls v) = Some w → ∃ w', reach p v = Some w' ∧ w = stripNulls w').
Proof.
  induction p as [|[k|i] p IH]; intros v.
  - split; [by intros w [= <-]|]. intros w [= <-]. by exists v.
  - destruct v as [| | | |l|l]; try (split; intros w Hw; discriminate Hw). rewrite reach_key. cbn [reach].
    destruct (last_member k l) as [v|]; [|done]. cbn [mbind option_bind]. destruct (IH v) as [H1 H2]. split.
    + intros w Hw Hn. destruct (is_null v) eqn:Ev; [|by apply H1]. exfalso. destruct v; try done.
      destruct p as [|[] p]; simpl in Hw; simplify_eq; done.
    + intros w Hw. destruct (is_null v); [done|]. by apply H2.
  - destruct v as [| | | |l|l]; try (split; intros w Hw; discriminate Hw). rewrite reach_index. cbn [reach].
    destruct (l !! i) as [v|]; [|done]. cbn [mbind option_bind]. apply IH.
Qed.

(** ** Plain documents stay plain *)

Lemma plain_obj d l : plain (S d) (JObj l) ↔ Forall (λ kv, valid_go 0 (fst kv) = true ∧ plain d (snd kv)) l.
Proof.
  cbn [plain]. rewrite foldr_and. split; intros Hl; (eapply list.Forall_impl; [exact Hl|]); by intros [k y].
Qed.
Lemma plain_arr d l : plain (S d) (JArr l) ↔ Forall (plain d) l.
Proof. cbn [plain]. by rewrite foldr_and. Qed.

Lemma stripNulls_plain v : ∀ d, plain d v → plain d (stripNulls v).
Proof.
  induction v as [| | | |l IH|l IH] using json_nested_ind; intros d Hp; try done; (destruct d as [|d]; [done|]).
  - cbn [stripNulls]. rewrite plain_arr in *. rewrite Forall_map. rewrite Forall_forall in *. intros x Hx. apply IH, Hp; done.
  - rewrite stripNulls_obj. rewrite plain_obj in *. rewrite Forall_forall in *. intros [k y] Hin.
    apply list_elem_of_In, filter_In in Hin as [Hin _]. apply list_elem_of_In, as_map_elem, list_elem_of_In, in_map_iff in Hin as ([k' y'] & E & Hin).
    simplify_eq/=. apply list_elem_of_In in Hin. destruct (Hp _ Hin) as [Hk Hy]. split; [done|]. by apply (IH (k, y')).
Qed.

Section Document.
Context {R : Type} `{Conf R}.

Lemma XrayConfig_reads n l : plain n (marshal_outbound (claim_outbound (l_outbound l))) → Z.of_nat n ≤ maxNestingDepth - 2 →
  ∃ raw, XrayConfig l = Ok raw ∧ Unmarshal raw = Some (stripNulls (engine_document l)).
Proof.
  intros Hp Hn. assert (plain (S (S n)) (engine_document l)) as Hd.
  { unfold engine_document. rewrite plain_obj, Forall_singleton. split; [done|]. cbn [snd]. rewrite plain_arr, Forall_singleton. exact Hp. }
  exists (Marshal (stripNulls (engine_document l))). split.
  - unfold XrayConfig, dropNulls. rewrite (parse_Marshal _ (S (S n))); [done|done|lia].
  - apply (Unmarshal_Marshal _ (S (S n))); [by apply stripNulls_plain|lia].
Qed.

(** The document of a link reads back as one with no null member in any object,
    keys in order and none twice; whatever the outbound said at a place is said
    there, unless it was null, and nothing is said that the outbound did not say. *)
Theorem engine_document_clean n l : plain n (marshal_outbound (claim_outbound (l_outbound l))) → Z.of_nat n ≤ maxNestingDepth - 2 →
  ∃ raw j, XrayConfig l = Ok raw ∧ Unmarshal raw = Some j ∧ clean j ∧
    (∀ p w, reach p (engine_document l) = Some w → is_null w = false → reach p j = Some (stripNulls w)) ∧
    (∀ p w, reach p j = Some w → ∃ w', reach p (engine_document l) = Some w' ∧ w = stripNulls w').
Proof.
  intros Hp Hn. destruct (XrayConfig_reads n l Hp Hn) as (raw & E & Eu). exists raw, (stripNulls (engine_document l)).
  split_and!; [done|done|apply stripNulls_clean|..]; intros p w; by apply strip_reach.
Qed.
End Document.

(** * Links, on concrete documents

    A small reading of the engine's structs, enough for a pasted Xray document, so
    that the operations of internal/link run. *)

Definition text_at (k : string) (m : list (list ascii * json)) : string :=
  match lookup_member (to_l k) m with Some (JStr s) => of_l s | _ => "" end.
Definition put (k s : string) : list (list ascii * json) := if (s =? "")%string then [] else [(to_l k, JStr (to_l s))].

Definition read_stream (m : list (list ascii * json)) : StreamConfig unit :=
  MkStream (match lookup_member (to_l "network") m with Some (JStr s) => Some (of_l s) | _ => None end) (text_at "security" m)
    ((λ t, MkTLS (text_at "serverName" t) "" tt) <$> object_at (to_l "tlsSettings") m) None None tt.
Definition read_outbound (j : json) : option (Outbound unit) :=
  match j with
  | JObj m => Some (MkOutbound (text_at "protocol" m) None (text_at "tag" m) (lookup_member (to_l "settings") m)
                      (read_stream <$> object_at (to_l "streamSettings") m) None tt)
  | _ => None
  end.
Definition write_stream (s : StreamConfig unit) : json :=
  JObj (match sNetwork s with Some n => put "network" n | None => [(to_l "network", JNull)] end ++ put "security" (sSecurity s) ++
        match TLSSettings s with Some t => [(to_l "tlsSettings", JObj (put "serverName" (tServerName t)))] | None => [(to_l "tlsSettings", JNull)] end)%list.
Definition write_outbound (o : Outbound unit) : json :=
  JObj (put "protocol" (oProtocol o) ++ [(to_l "sendThrough", JNull)] ++ put "tag" (oTag o) ++
        [(to_l "settings", default JNull (oSettings o)); (to_l "streamSettings", default JNull (write_stream <$> StreamSetting o))])%list.

Definition demo_conf : Conf unit := {|
  zero_rest := tt;
  ConvertShareLinks _ := None;
  decode_outbound := read_outbound;
  marshal_outbound := write_outbound;
  network_Build n := Some (ToLower n);
  decode_client _ j := match j with JObj m => Some (MkClient (negb (text_at "address" m =? "")%string) []) | _ => None end;
  flat_settings _ _ _ := None
|}.

(** The text of a document with one outbound. *)
Definition pasted (protocol settings stream : list (list ascii * json)) : string :=
  of_l (Marshal (JObj [(to_l "outbounds", JArr [JObj (protocol ++
    [(to_l "settings", JObj settings); (to_l "streamSettings", JObj stream)])])])).
Definition at_server (name : string) : list (list ascii * json) :=
  (put "address" name ++ [(to_l "port", JNum (to_l "443"))] ++ put "password" "secret")%list.

Definition demo_link (security : string) : option (Link unit) :=
  match Parse (R := unit) (H := demo_conf) (pasted (put "protocol" "trojan") (at_server "vpn.example.org") (put "security" security)) with
  | Some (Ok l) => Some l
  | _ => None
  end.

(** Trojan without a security layer gets TLS, with the server's name. *)
Example trojan_gets_tls : (λ l, (l_Security l, l_ServerName l, l_Address l, l_Port l)) <$> demo_link "none" =
  Some (SecurityTLS, "vpn.example.org"%string, "vpn.example.org"%string, 443).
Proof. vm_compute. reflexivity. Qed.

(** But the word is compared as it is written: spelled in capitals it is kept, and the
    outbound is given no TLS. *)
Example trojan_in_capitals :
  (λ l, (l_Security l, sSecurity <$> StreamSetting (l_outbound l), l_ServerName l)) <$> demo_link "NONE" = Some (SecurityNone, Some "NONE"%string, ""%string).
Proof. vm_compute. reflexivity. Qed.

Definition the_link : Link unit.
Proof. let x := eval vm_compute in (demo_link "none") in match x with Some ?l => exact l end. Defined.

Lemma the_link_plain : plain 3 (write_outbound (claim_outbound (l_outbound the_link))).
Proof.
  let v := eval vm_compute in (write_outbound (claim_outbound (l_outbound the_link))) in
    change (write_outbound (claim_outbound (l_outbound the_link))) with v.
  cbn [plain foldr List.map]. split_and!; try reflexivity. exists 443. reflexivity.
Qed.

Lemma engine_document_clean_witness :
  ∃ raw j, XrayConfig (H := demo_conf) the_link = Ok raw ∧ Unmarshal raw = Some j ∧ clean j ∧
    reach [Key (to_l "outbounds"); Index 0; Key (to_l "settings"); Key (to_l "address")] j = Some (JStr (to_l "vpn.example.org")).
Proof.
  destruct (engine_document_clean (H := demo_conf) 3 the_link the_link_plain ltac:(vm_compute; discriminate)) as (raw & j & E1 & E2 & Hc & H1 & _).
  exists raw, j. split_and!; [exact E1|exact E2|exact Hc|].
  apply (H1 _ (JStr (to_l "vpn.example.org"))); vm_compute; reflexivity.
Defined.
