(* ===== verification/Xcfg.v ===== *)
(** * The engine's document (internal/xcfg)

    options.go, build.go, resolvers.go, private.go and servername.go: from the
    options of a connection to the configuration the engine is given. A struct of
    the document is a record with its JSON form beside it; a json.RawMessage is the
    value it holds, since each was written by encoding/json. The text is what
    json.Marshal and json.Indent write. *)

From S2P Require Import Prelude GoStrings Netip Text Json JsonStruct Url Link.

Local Open Scope Z_scope.

(** ** errors.go *)

Inductive xcfg_error :=
| XErrNoLink | ErrOutboundMissing | ErrOutboundTag | ErrSocksAddress | ErrSocksPort | ErrTunName | ErrTunMTU | ErrNoResolvers
| ErrResolverNotIP (i n : Z) | ErrGoogleResolver (i n : Z) | ErrQueryStrategy | ErrLogLevel | XerrSerialise
| ErrLocalDNSAddress | ErrLocalDNSPort | ErrInboundCollision | ErrPinnedServerAddress | ErrPinnedServerFamily.

(** ** options.go *)

Definition TagProxy : string := OutboundTag.
Definition TagDirect : string := "direct".
Definition TagBlock : string := "block".
Definition TagDirectLocal : string := "direct-local".
Definition TagDNSOut : string := "dns-out".
Definition TagTUNIn : string := "tun-in".
Definition TagSOCKSIn : string := "socks-in".
Definition TagResolverIn : string := "resolver-in".
Definition TagLocalDNSIn : string := "local-dns-in".

Definition ruleTagLoopback : string := "loopback-direct".
Definition ruleTagLoopGuard : string := "loop-guard-block".
Definition ruleTagPrivate : string := "private-direct".
Definition ruleTagLocalDNS : string := "local-dns-to-tunnel".
Definition ruleTagResolvers : string := "resolver-through-tunnel".
Definition ruleTagDNS : string := "client-dns-intercept".
Definition ruleTagCatchAll : string := "everything-else".
Definition ruleTagReject : string := "reject-all".

Definition QueryUseIP : string := "UseIP".
Definition QueryUseIPv4 : string := "UseIPv4".
Definition QueryUseIPv6 : string := "UseIPv6".

Definition LogDebug : string := "debug".
Definition LogInfo : string := "info".
Definition LogWarning : string := "warning".
Definition LogError : string := "error".

Record TUN := MkTUN { tun_Disabled : bool; tun_Name : string; tun_MTU : Z; tun_UserLevel : Z; tun_Subnet : Prefix }.
Record SOCKS := MkSOCKS { socks_Listen : string; socks_Port : Z; socks_UDP : bool }.
Record DNS := MkDNS { Servers : list string; dns_Strategy : string; Intercept : bool }.
Record LocalDNS := MkLocalDNS { ldns_Enabled : bool; ldns_Listen : string; ldns_Port : Z }.

Definition DefaultSocksPort : Z := 10808.
Definition DefaultSocksListen : string := "127.0.0.1".
Definition DefaultTunName : string := "xray0".
Definition DefaultTunMTU : Z := 1500.
Definition MinTunMTU : Z := 1280.
Definition MaxTunMTU : Z := 9000.
Definition DefaultLocalDNSListen : string := "127.0.0.1".
Definition DefaultLocalDNSPort : Z := 5354.

(** ** resolvers.go and private.go *)

Definition DefaultResolvers : list string := ["9.9.9.9"; "1.1.1.3"; "185.228.168.9"]%string.

Definition googlePrefixes : list Prefix :=
  omap ParsePrefix ["8.8.8.0/24"; "8.8.4.0/24"; "2001:4860:4860::/48"]%string.

(** One entry of the list: why it is refused. *)
Definition checkResolver (i n : Z) (s : string) : option xcfg_error :=
  match ParseAddr s with
  | None => Some (ErrResolverNotIP i n)
  | Some addr => if existsb (λ p, Contains_addr p (Unmap addr)) googlePrefixes then Some (ErrGoogleResolver i n) else None
  end.
Fixpoint check_each (i n : Z) (servers : list string) : option xcfg_error :=
  match servers with
  | [] => None
  | s :: servers => match checkResolver i n s with Some e => Some e | None => check_each (i + 1) n servers end
  end.
Definition checkResolvers (servers : list string) : option xcfg_error :=
  match servers with [] => Some ErrNoResolvers | _ => check_each 1 (Z.of_nat (List.length servers)) servers end.

Definition PrivateRanges : list string :=
  ["0.0.0.0/8"; "10.0.0.0/8"; "100.64.0.0/10"; "127.0.0.0/8"; "169.254.0.0/16"; "172.16.0.0/12"; "192.0.0.0/24"; "192.168.0.0/16";
   "198.18.0.0/15"; "224.0.0.0/4"; "240.0.0.0/4"; "255.255.255.255/32"; "::1/128"; "fc00::/7"; "fe80::/10"; "ff00::/8"]%string.

(** ** The document's structs, and how each is written *)

Definition jstr (s : string) : json := JStr (to_l s).
Definition jnum (z : Z) : json := JNum (to_l (Itoa z)).
Definition jstrs (l : list string) : json := JArr (jstr <$> l).
Definition jobj (l : list (string * json)) : json := JObj ((λ kv, (to_l (fst kv), snd kv)) <$> l).
(** a key left out when its value is empty *)
Definition omitempty (b : bool) (k : string) (v : json) : list (string * json) := if b then [] else [(k, v)].

Record rule := MkRule {
  RuleTag : string; InboundTag : list string; r_IP : list string; r_Port : string; r_Network : string; r_OutboundTag : string
}.
Definition rule_json (r : rule) : json :=
  jobj ([("ruleTag", jstr (RuleTag r))] ++
        omitempty (List.length (InboundTag r) =? 0)%nat "inboundTag" (jstrs (InboundTag r)) ++
        omitempty (List.length (r_IP r) =? 0)%nat "ip" (jstrs (r_IP r)) ++
        omitempty (r_Port r =? "")%string "port" (jstr (r_Port r)) ++
        omitempty (r_Network r =? "")%string "network" (jstr (r_Network r)) ++
        [("outboundTag", jstr (r_OutboundTag r))]).

Record tunInbound := MkTunIn { ti_Name : string; ti_MTU : Z; ti_UserLevel : Z }.
Definition tun_json (t : tunInbound) : json :=
  jobj [("tag", jstr TagTUNIn); ("protocol", jstr "tun");
        ("settings", jobj [("name", jstr (ti_Name t)); ("MTU", jnum (ti_MTU t)); ("userLevel", jnum (ti_UserLevel t))])]%string.

Record socksInbound := MkSocksIn { si_Listen : string; si_Port : Z; si_UDP : bool }.
Definition socks_json (s : socksInbound) : json :=
  jobj [("tag", jstr TagSOCKSIn); ("protocol", jstr "socks"); ("listen", jstr (si_Listen s)); ("port", jnum (si_Port s));
        ("settings", jobj [("auth", jstr "noauth"); ("udp", JBool (si_UDP s))])]%string.

Record dokodemoInbound := MkDokodemo { di_Listen : string; di_Port : Z; di_Address : string }.
Definition dokodemo_json (d : dokodemoInbound) : json :=
  jobj [("tag", jstr TagLocalDNSIn); ("protocol", jstr "dokodemo-door"); ("listen", jstr (di_Listen d)); ("port", jnum (di_Port d));
        ("settings", jobj [("address", jstr (di_Address d)); ("port", jnum 53); ("network", jstr "tcp,udp")])]%string.

Inductive inbound := InTun (t : tunInbound) | InSocks (s : socksInbound) | InDokodemo (d : dokodemoInbound).
Definition inbound_json (i : inbound) : json :=
  match i with InTun t => tun_json t | InSocks s => socks_json s | InDokodemo d => dokodemo_json d end.

(** freedomOutbound; the interface of its sockopt, when it has stream settings *)
Record freedomOutbound := MkFreedom { fo_Tag : string; fo_Interface : option string }.
Definition freedom_json (f : freedomOutbound) : json :=
  jobj ([("tag", jstr (fo_Tag f)); ("protocol", jstr "freedom"); ("settings", jobj [("domainStrategy", jstr "AsIs")])] ++
        match fo_Interface f with
        | Some i => [("streamSettings", jobj [("sockopt", jobj [("interface", jstr i)])])]
        | None => []
        end).
Definition blackhole_json : json :=
  jobj [("tag", jstr TagBlock); ("protocol", jstr "blackhole"); ("settings", jobj [("response", jobj [("type", jstr "none")])])]%string.
Definition dnsOut_json : json :=
  jobj [("tag", jstr TagDNSOut); ("protocol", jstr "dns"); ("settings", jobj [("nonIPQuery", jstr "reject")])]%string.

Inductive outbound := OutProxy (raw : json) | OutFreedom (f : freedomOutbound) | OutBlackhole | OutDNS.
Definition outbound_json (o : outbound) : json :=
  match o with OutProxy raw => raw | OutFreedom f => freedom_json f | OutBlackhole => blackhole_json | OutDNS => dnsOut_json end.

(** document, with its log, dns and routing sections *)
Record document := MkDocument {
  doc_LogLevel : string;
  doc_Servers : list string;
  doc_Hosts : option (string * list string);   (* the one key of the map *)
  doc_QueryStrategy : string;
  doc_Inbounds : list inbound;
  doc_Outbounds : list outbound;
  doc_Rules : list rule
}.
Definition document_json (d : document) : json :=
  jobj [("log", jobj [("loglevel", jstr (doc_LogLevel d)); ("access", jstr "none"); ("dnsLog", JBool false)]);
        ("dns", jobj ([("servers", jstrs (doc_Servers d))] ++
                      match doc_Hosts d with Some (k, addrs) => [("hosts", jobj [(k, jstrs addrs)])] | None => [] end ++
                      [("queryStrategy", jstr (doc_QueryStrategy d)); ("tag", jstr TagResolverIn)]));
        ("inbounds", JArr (inbound_json <$> doc_Inbounds d));
        ("outbounds", JArr (outbound_json <$> doc_Outbounds d));
        ("routing", jobj [("domainStrategy", jstr "AsIs"); ("rules", JArr (rule_json <$> doc_Rules d))])]%string.

(** json.Marshal, json.Indent and the newline *)
Definition document_text (d : document) : list ascii := print true indented 0 (document_json d) ++ ["010"%char].

(** ** build.go *)

Definition loopGuardRule (tunSubnet : Prefix) : rule :=
  let ips := ["224.0.0.0/4"; "255.255.255.255/32"; "ff00::/8"]%string in
  MkRule ruleTagLoopGuard [] (if prefix_valid tunSubnet then prefix_String (Masked tunSubnet) :: ips else ips) "" "" TagBlock.

Definition privateRule (outboundTag : string) : rule := MkRule ruleTagPrivate [] PrivateRanges "" "" outboundTag.

(** linkDocument *)
Definition linkDocument_fields : list (Field (list json)) := [field "outbounds" raw_list_codec never id (λ v _, v)].
Definition tag_fields : list (Field string) := [field "tag" string_codec never id (λ v _, v)].

Definition outboundFromDocument (raw : list ascii) : res xcfg_error json :=
  match j ← Unmarshal raw; dec (struct_codec linkDocument_fields false) j [] with
  | None => Err XerrSerialise
  | Some [] => Err ErrOutboundMissing
  | Some (ob :: _) =>
      match dec (struct_codec tag_fields false) ob ""%string with
      | None => Err XerrSerialise
      | Some tag => if (tag =? TagProxy)%string then Ok ob else Err ErrOutboundTag
      end
  end.

(** ** servername.go *)

(** What a map[string]any holds at a key, when that is an object. *)
Definition map_at (k : string) (m : list (list ascii * json)) : list (list ascii * json) :=
  match lookup_member (to_l k) m with Some (JObj m) => m | _ => [] end.

(** A decoded object is a map all the way down. *)
Fixpoint decoded (v : json) : json :=
  match v with
  | JObj l => JObj (as_map (List.map (λ kv, (fst kv, decoded (snd kv))) l))
  | JArr l => JArr (List.map decoded l)
  | v => v
  end.

Definition forceIPDial (proxy : json) : res xcfg_error json :=
  match decoded proxy with
  | JObj ob =>
      let stream := map_at "streamSettings" ob in
      let sockopt := map_at "sockopt" stream in
      let sockopt := insert_member (to_l "domainStrategy") (jstr "ForceIP") sockopt in
      let stream := insert_member (to_l "sockopt") (JObj sockopt) stream in
      Ok (JObj (insert_member (to_l "streamSettings") (JObj stream) ob))
  | _ => Err XerrSerialise
  end.

Definition strip_brackets (s : string) : string :=
  TrimRight (of_l (drop_while (in_set ["["; "]"]%char) (to_l s))) ["["; "]"]%char.

Section Build.
Context {R : Type} `{Conf R}.

Record Options := MkOptions {
  o_Link : option (Link R);
  o_LogLevel : string;
  o_TUN : TUN;
  o_SOCKS : SOCKS;
  o_DNS : DNS;
  o_LocalDNS : LocalDNS;
  o_Interface : string;        (* Direct.Interface *)
  o_PinnedServer : list Addr
}.

Definition Defaults : Options :=
  MkOptions None LogWarning (MkTUN false DefaultTunName DefaultTunMTU 0 NoPrefix) (MkSOCKS DefaultSocksListen DefaultSocksPort false)
    (MkDNS DefaultResolvers QueryUseIP false) (MkLocalDNS false DefaultLocalDNSListen DefaultLocalDNSPort) "" [].

Definition or_text (s d : string) : string := if (s =? "")%string then d else s.
Definition or_num (n d : Z) : Z := if n =? 0 then d else n.

Definition normalise (o : Options) : Options :=
  let t := o_TUN o in let s := o_SOCKS o in let d := o_DNS o in let l := o_LocalDNS o in
  MkOptions (o_Link o) (or_text (o_LogLevel o) LogWarning)
    (MkTUN (tun_Disabled t) (or_text (tun_Name t) DefaultTunName) (or_num (tun_MTU t) DefaultTunMTU) (tun_UserLevel t) (tun_Subnet t))
    (MkSOCKS (or_text (socks_Listen s) DefaultSocksListen) (or_num (socks_Port s) DefaultSocksPort) (socks_UDP s))
    (MkDNS (match Servers d with [] => DefaultResolvers | l => l end) (or_text (dns_Strategy d) QueryUseIP) (Intercept d))
    (MkLocalDNS (ldns_Enabled l) (or_text (ldns_Listen l) DefaultLocalDNSListen) (or_num (ldns_Port l) DefaultLocalDNSPort))
    (o_Interface o) (o_PinnedServer o).

Definition checkLoopbackListen (s : string) (bad : xcfg_error) : option xcfg_error :=
  match ParseAddr s with
  | None => Some bad
  | Some addr => if negb (IsLoopback (Unmap addr)) then Some bad else None
  end.

Definition sameHost (a b : string) : bool :=
  match ParseAddr a, ParseAddr b with
  | Some x, Some y => bool_decide (Unmap x = Unmap y)
  | _, _ => (a =? b)%string
  end.

Definition maxInterfaceName : Z := 15.

Definition name_char (c : ascii) : bool :=
  between "a" "z" c || between "A" "Z" c || between "0" "9" c || Ascii.eqb c "-" || Ascii.eqb c "_" || Ascii.eqb c ".".

Definition checkInterfaceName (s : string) : option xcfg_error :=
  if (s =? "")%string || (maxInterfaceName <? Z.of_nat (String.length s)) then Some ErrTunName
  else if negb (forallb name_char (to_l s)) then Some ErrTunName
  else if (s =? ".")%string || (s =? "..")%string then Some ErrTunName
  else None.

Definition first_error (l : list (option xcfg_error)) : option xcfg_error := hd_error (omap id l).
Definition when (b : bool) (e : option xcfg_error) : option xcfg_error := if b then e else None.
Definition unless (b : bool) (e : xcfg_error) : option xcfg_error := if b then None else Some e.
Definition one_of (s : string) (l : list string) : bool := existsb (String.eqb s) l.

(** check: the first check that fails is the error *)
Definition check (o : Options) : option xcfg_error :=
  let t := o_TUN o in let s := o_SOCKS o in let d := o_DNS o in let l := o_LocalDNS o in
  first_error
    [ unless (one_of (o_LogLevel o) [LogDebug; LogInfo; LogWarning; LogError]) ErrLogLevel;
      when (negb (tun_Disabled t)) (checkInterfaceName (tun_Name t));
      when (negb (tun_Disabled t)) (unless ((MinTunMTU <=? tun_MTU t) && (tun_MTU t <=? MaxTunMTU)) ErrTunMTU);
      checkLoopbackListen (socks_Listen s) ErrSocksAddress;
      unless (negb (socks_Port s =? 0)) ErrSocksPort;
      when (ldns_Enabled l) (checkLoopbackListen (ldns_Listen l) ErrLocalDNSAddress);
      when (ldns_Enabled l) (unless (negb (ldns_Port l =? 0)) ErrLocalDNSPort);
      when (ldns_Enabled l)
        (unless (negb ((ldns_Port l =? socks_Port s) && sameHost (ldns_Listen l) (socks_Listen s))) ErrInboundCollision);
      unless (one_of (dns_Strategy d) [QueryUseIP; QueryUseIPv4; QueryUseIPv6]) ErrQueryStrategy;
      checkResolvers (Servers d) ].

(** *** servername.go *)

(** Letters outside ASCII are taken to be lower case already, but for the two whose
    lower case is ASCII. *)
Definition serverNameOf (o : Options) : string :=
  match o_Link o with
  | None => ""
  | Some l =>
      let host := TrimSuffix (l_Address l) "." in
      match ParseAddr (strip_brackets host) with
      | Some _ => ""
      | None => of_l (lower_go (to_l host))
      end
  end.

(** The loop over the pinned addresses: the texts, and whether one is usable. *)
Fixpoint pin_go (strategy : string) (l seen : list Addr) (addrs : list string) (usable : bool) : res xcfg_error (list string * bool) :=
  match l with
  | [] => Ok (addrs, usable)
  | a :: l =>
      if negb (addr_valid a) then Err ErrPinnedServerAddress
      else
        let a := Unmap a in
        if bool_decide (a ∈ seen) then pin_go strategy l seen addrs usable
        else pin_go strategy l (a :: seen) (addrs ++ [addr_String a])
               (usable || (Is4 a && negb (strategy =? QueryUseIPv6)%string) || (Is6 a && negb (strategy =? QueryUseIPv4)%string))
  end.

Definition pinServerName (o : Options) (proxy : json) : res xcfg_error (json * option (string * list string)) :=
  let name := serverNameOf o in
  if (name =? "")%string || (List.length (o_PinnedServer o) =? 0)%nat then Ok (proxy, None)
  else
    match pin_go (dns_Strategy (o_DNS o)) (o_PinnedServer o) [] [] false with
    | Err e => Err e
    | Ok (_, false) => Err ErrPinnedServerFamily
    | Ok (addrs, true) =>
        match forceIPDial proxy with
        | Err e => Err e
        | Ok forced => Ok (forced, Some (("full:" ++ name)%string, addrs))
        end
    end.

(** *** build.go *)

Definition proxyOutbound (l : Link R) : res xcfg_error json :=
  match XrayConfig l with
  | Err _ => Err XerrSerialise
  | Ok raw => outboundFromDocument raw
  end.

Definition direct (o : Options) : freedomOutbound :=
  MkFreedom TagDirect (if (o_Interface o =? "")%string then None else Some (o_Interface o)).

Definition localDNSInbound (o : Options) : dokodemoInbound :=
  MkDokodemo (ldns_Listen (o_LocalDNS o)) (ldns_Port (o_LocalDNS o)) (hd ""%string (Servers (o_DNS o))).

Definition assemble (o : Options) (outbounds : list outbound) (rules : list rule) (hosts : option (string * list string)) : document :=
  let t := o_TUN o in
  MkDocument (o_LogLevel o) (Servers (o_DNS o)) hosts (dns_Strategy (o_DNS o))
    ((if tun_Disabled t then [] else [InTun (MkTunIn (tun_Name t) (tun_MTU t) (tun_UserLevel t))]) ++
     [InSocks (MkSocksIn (socks_Listen (o_SOCKS o)) (socks_Port (o_SOCKS o)) (socks_UDP (o_SOCKS o)))] ++
     (if ldns_Enabled (o_LocalDNS o) then [InDokodemo (localDNSInbound o)] else []))
    outbounds rules.

(** The outbounds and the rules of Build, of normalised options *)
Definition build_outbounds (o : Options) (proxy : json) : list outbound :=
  [OutProxy proxy; OutFreedom (direct o); OutBlackhole] ++
  (if (o_Interface o =? "")%string then [] else [OutFreedom (MkFreedom TagDirectLocal None)]) ++
  (if Intercept (o_DNS o) || ldns_Enabled (o_LocalDNS o) then [OutDNS] else []).

Definition build_rules (o : Options) : list rule :=
  (if ldns_Enabled (o_LocalDNS o) then [MkRule ruleTagLocalDNS [TagLocalDNSIn] [] "" "" TagDNSOut] else []) ++
  [MkRule ruleTagResolvers [TagResolverIn] [] "" "" TagProxy] ++
  (if Intercept (o_DNS o) then [MkRule ruleTagDNS [] [] "53" "tcp,udp" TagDNSOut] else []) ++
  (if (o_Interface o =? "")%string then [] else [MkRule ruleTagLoopback [] ["127.0.0.0/8"; "::1/128"]%string "" "" TagDirectLocal]) ++
  [loopGuardRule (tun_Subnet (o_TUN o)); privateRule TagDirect; MkRule ruleTagCatchAll [] [] "" "tcp,udp" TagProxy].

Definition Build_document (o : Options) : res xcfg_error document :=
  match o_Link o with
  | None => Err XErrNoLink
  | Some l =>
      let o := normalise o in
      match check o with
      | Some e => Err e
      | None =>
          match proxyOutbound l with
          | Err e => Err e
          | Ok proxy =>
              match pinServerName o proxy with
              | Err e => Err e
              | Ok (proxy, hosts) => Ok (assemble o (build_outbounds o proxy) (build_rules o) hosts)
              end
          end
      end
  end.
Definition Build (o : Options) : res xcfg_error (list ascii) :=
  match Build_document o with Ok d => Ok (document_text d) | Err e => Err e end.

Definition BuildFailClosed_document (o : Options) : res xcfg_error document :=
  let o := normalise o in
  match check o with
  | Some e => Err e
  | None => Ok (assemble o [OutBlackhole] [MkRule ruleTagReject [] [] "" "tcp,udp" TagBlock] None)
  end.
Definition BuildFailClosed (o : Options) : res xcfg_error (list ascii) :=
  match BuildFailClosed_document o with Ok d => Ok (document_text d) | Err e => Err e end.
End Build.
Arguments Options : clear implicits.
