(* ===== verification/XcfgFacts.v ===== *)
(** * Where the engine's document sends a connection (internal/xcfg)

    The engine takes the first rule all of whose conditions a connection meets
    (app/router); a rule names its outbound. Over every connection the rules Build
    writes decide as the comments of build.go say they do. *)

From S2P Require Import Prelude GoStrings Netip Text Json JsonFacts JsonStruct Subnet Link Xcfg Url LinkDoc.

(** ** Addresses and prefixes as text and as intervals

    An IPv4 address or prefix that was written is read back; a prefix holds the
    addresses of one interval. *)

Section NetipText.
Local Open Scope char_scope.
Local Open Scope Z_scope.

Lemma append_to_l a b : to_l (a ++ b)%string = (to_l a ++ to_l b)%list.
Proof. unfold to_l. induction a as [|c a IH]; simpl; [done|by rewrite IH]. Qed.

(** *** Text *)

Lemma octet_Itoa z : 0 ≤ z < 256 → octet (to_l (Itoa z)) = Some z.
Proof.
  intros Hz. destruct (Itoa_nonneg z ltac:(lia)) as (d & ds & -> & Hd & H0 & Hv).
  assert (∀ l a, Forall (λ c, is_digit c = true) l → ∃ xs, mapM dec_digit l = Some xs ∧
    foldl read_digit (Some a) l = Some (foldl (λ v d, 10 * v + d) a xs)) as Hm.
  { clear. induction l as [|c l IH]; intros a Hl; [by exists []|]. inversion Hl as [|? ? Hc Hl']; subst. unfold is_digit in Hc.
    destruct (dec_digit c) as [x|] eqn:Ex; [|done]. destruct (IH (10 * a + x) Hl') as (xs & E1 & E2). exists (x :: xs). simpl.
    rewrite Ex. cbn [mbind option_bind]. rewrite E1. cbn [mbind option_bind]. split; [done|]. by rewrite E2. }
  destruct (Hm (d :: ds) 0 Hd) as (xs & E1 & E2). unfold octet. rewrite E1. cbn [mbind option_bind]. rewrite Hv in E2. injection E2 as <-.
  rewrite (proj2 (Z.ltb_ge _ _)) by lia. rewrite orb_false_r. destruct (Ascii.eqb_spec d "0") as [->|]; [|done].
  by rewrite (H0 eq_refl).
Qed.

Definition digits_only (l : list ascii) : Prop := Forall (λ c, is_digit c = true) l.

Lemma Itoa_all_digits z : 0 ≤ z → digits_only (to_l (Itoa z)) ∧ to_l (Itoa z) ≠ [].
Proof. intros Hz. destruct (Itoa_nonneg z Hz) as (d & ds & -> & Hd & _). done. Qed.

Lemma digit_not l c : digits_only l → is_digit c = false → c ∉ l.
Proof. intros Hl Hc Hin. unfold digits_only in Hl. rewrite Forall_forall in Hl. rewrite (Hl _ Hin) in Hc. done. Qed.

Lemma split_ascii_whole c l : c ∉ l → split_ascii c l = [l].
Proof.
  induction l as [|a l IH]; intros Hc; [done|]. apply not_elem_of_cons in Hc as [Ha Hl]. simpl.
  rewrite (proj2 (Ascii.eqb_neq _ _)) by congruence. by rewrite IH.
Qed.
Lemma split_ascii_app c a b : c ∉ a → split_ascii c (a ++ c :: b) = a :: split_ascii c b.
Proof.
  induction a as [|x a IH]; intros Hc; simpl; [by rewrite Ascii.eqb_refl|]. apply not_elem_of_cons in Hc as [Hx Ha].
  rewrite (proj2 (Ascii.eqb_neq _ _)) by congruence. by rewrite IH.
Qed.

Lemma dotted_chars n : to_l (dotted n) =
  (to_l (Itoa (Z.shiftr n 24)) ++ "." :: to_l (Itoa (Z.shiftr n 16 mod 256)) ++ "." :: to_l (Itoa (Z.shiftr n 8 mod 256)) ++ "." ::
   to_l (Itoa (n mod 256)))%list.
Proof. unfold dotted. by rewrite !append_to_l. Qed.

Lemma octets n : 0 ≤ n < 2 ^ 32 →
  0 ≤ Z.shiftr n 24 < 256 ∧ 0 ≤ Z.shiftr n 16 mod 256 < 256 ∧ 0 ≤ Z.shiftr n 8 mod 256 < 256 ∧ 0 ≤ n mod 256 < 256 ∧
  ((Z.shiftr n 24 * 256 + Z.shiftr n 16 mod 256) * 256 + Z.shiftr n 8 mod 256) * 256 + n mod 256 = n.
Proof.
  intros Hn. rewrite !Z.shiftr_div_pow2 by lia. change (2 ^ 24) with 16777216. change (2 ^ 16) with 65536. change (2 ^ 8) with 256.
  split_and!; try (apply Z.mod_pos_bound; lia); try (apply Z.div_pos; lia); try (apply Z.div_lt_upper_bound; lia).
  Z.to_euclidean_division_equations. lia.
Qed.

Lemma parseIPv4_dotted n : 0 ≤ n < 2 ^ 32 → parseIPv4 (to_l (dotted n)) = Some n.
Proof.
  intros Hn. destruct (octets n Hn) as (Ha & Hb & Hc & Hd & E). rewrite dotted_chars. unfold parseIPv4.
  assert (∀ z, 0 ≤ z < 256 → "." ∉ to_l (Itoa z)) as Hdot by (intros z Hz; by apply digit_not; [apply Itoa_all_digits; lia|]).
  rewrite !split_ascii_app, split_ascii_whole by auto. rewrite !octet_Itoa by done. cbn [mbind option_bind]. by rewrite E.
Qed.

Lemma first_mark_digits l c r : digits_only l → Ascii.eqb c "." || Ascii.eqb c ":" || Ascii.eqb c "%" = true → first_mark (l ++ c :: r) = Some c.
Proof.
  intros Hl Hc. induction Hl as [|x l Hx Hl IH]; simpl; [by rewrite Hc|].
  destruct x as [[] [] [] [] [] [] [] []]; try discriminate Hx; exact IH.
Qed.

Lemma ParseAddr_dotted n : 0 ≤ n < 2 ^ 32 → ParseAddr (dotted n) = Some (A4 n).
Proof.
  intros Hn. unfold ParseAddr. change (String.list_ascii_of_string (dotted n)) with (to_l (dotted n)).
  assert (first_mark (to_l (dotted n)) = Some ".") as ->.
  { rewrite dotted_chars. apply first_mark_digits; [|done]. apply Itoa_all_digits. destruct (octets n Hn) as (Ha & _). lia. }
  cbn iota. by rewrite parseIPv4_dotted.
Qed.

Lemma index_byte_app c a b : c ∉ a → index_byte c (a ++ c :: b) = Some (List.length a).
Proof.
  induction a as [|x a IH]; intros Hc; simpl; [by rewrite Ascii.eqb_refl|]. apply not_elem_of_cons in Hc as [Hx Ha].
  rewrite (proj2 (Ascii.eqb_neq _ _)) by congruence. by rewrite IH.
Qed.
Lemma last_index_app c a b : c ∉ b → last_index c (a ++ c :: b) = Some (List.length a).
Proof.
  intros Hb. unfold last_index. assert (rev (a ++ c :: b) = rev b ++ c :: rev a)%list as ->.
  { rewrite rev_app_distr. simpl. by rewrite <- app_assoc. }
  rewrite index_byte_app by (rewrite list_elem_of_In, <- in_rev, <- list_elem_of_In; done). simpl. f_equal.
  rewrite length_app, length_rev. simpl. lia.
Qed.

Lemma drop_past {A} (a : list A) c b : drop (S (List.length a)) (a ++ c :: b) = b.
Proof. induction a as [|x a IH]; simpl; [by rewrite drop_0|exact IH]. Qed.

Lemma ParsePrefix_String4 n b : 0 ≤ n < 2 ^ 32 → 0 ≤ b ≤ 32 → ParsePrefix (prefix_String (MkPrefix (A4 n) b)) = Some (MkPrefix (A4 n) b).
Proof.
  intros Hn Hb. unfold prefix_String. assert (prefix_valid (MkPrefix (A4 n) b) = true) as Hv.
  { unfold prefix_valid. simpl. by rewrite (proj2 (Z.leb_le _ _)), (proj2 (Z.leb_le _ _)) by lia. }
  rewrite Hv. cbn [negb]. unfold ParsePrefix. rewrite !append_to_l. change (to_l "/") with ["/"]. cbn [app p_addr Bits].
  destruct (Itoa_nonneg b ltac:(lia)) as (d & ds & E & Hd & H0 & _).
  rewrite last_index_app by (by apply digit_not; [apply Itoa_all_digits; lia|]). cbn [mbind option_bind].
  rewrite take_app_length, drop_past.
  simpl addr_String. assert (of_l (to_l (dotted n)) = dotted n) as -> by (unfold of_l, to_l; apply String.string_of_list_ascii_of_string).
  rewrite ParseAddr_dotted by done. cbn [mbind option_bind hasZone].
  assert (match to_l (Itoa b) with c :: _ :: _ => match dec_digit c with Some d => d =? 0 | None => true end | _ => false end = false) as ->.
  { rewrite E. destruct ds as [|d' ds]; [done|]. inversion Hd as [|? ? Hdd]; subst. unfold is_digit in Hdd.
    destruct (dec_digit d) as [x|] eqn:Ed; [|done]. apply Z.eqb_neq. intros ->.
    destruct d as [[] [] [] [] [] [] [] []]; try discriminate Ed; try discriminate (H0 eq_refl). }
  assert (of_l (to_l (Itoa b)) = Itoa b) as -> by (unfold of_l, to_l; apply String.string_of_list_ascii_of_string).
  rewrite Atoi_Itoa by lia. cbn [mbind option_bind BitLen]. rewrite (proj2 (Z.ltb_ge _ _)), (proj2 (Z.ltb_ge _ _)) by lia. cbn [orb].
  unfold PrefixFrom. simpl. by rewrite (proj2 (Z.leb_le _ _)), (proj2 (Z.leb_le _ _)) by lia.
Qed.

(** *** Intervals *)

(** The addresses a prefix holds agree with it on its first bits. *)
Lemma shiftr_lxor_zero a b k : 0 ≤ k → 0 ≤ a → 0 ≤ b → Z.shiftr (Z.lxor a b) k = 0 ↔ a / 2 ^ k = b / 2 ^ k.
Proof.
  intros Hk Ha Hb. rewrite Z.shiftr_lxor, Z.lxor_eq_0_iff, !Z.shiftr_div_pow2 by done. done.
Qed.
End NetipText.

Local Open Scope Z_scope.

(** ** The engine's rules *)

Inductive network := NetTCP | NetUDP.
Definition network_name (n : network) : string := match n with NetTCP => "tcp" | NetUDP => "udp" end.

(** A connection: the inbound it came in by, its destination, an address or a name
    that is not looked up, its port and its network. *)
Record conn := MkConn { c_inbound : string; c_dest : option Addr; c_port : Z; c_network : network }.

(** An address as the engine has it: IPv4 in four bytes, no zone. *)
Definition plain_addr (a : Addr) : Addr := withoutZone (Unmap a).
Definition range_has (a : Addr) (s : string) : bool :=
  match ParsePrefix s with Some p => Contains_addr p (plain_addr a) | None => false end.

(** The conditions a rule states, each over the part of the connection it names. A
    destination that is a name has no address, so no ip condition holds of it
    (hostname_routing_test.go:22-31, doc.go:70-76). *)
Definition inbound_cond (c : conn) (r : rule) : bool :=
  match InboundTag r with [] => true | l => existsb (String.eqb (c_inbound c)) l end.
Definition ip_cond (c : conn) (r : rule) : bool :=
  match r_IP r with [] => true | l => match c_dest c with Some a => existsb (range_has a) l | None => false end end.
Definition port_cond (c : conn) (r : rule) : bool :=
  if (r_Port r =? "")%string then true else match Atoi (r_Port r) with Some p => c_port c =? p | None => false end.
Definition network_cond (absent : network → bool) (c : conn) (r : rule) : bool :=
  if (r_Network r =? "")%string then absent (c_network c)
  else existsb (String.eqb (network_name (c_network c))) (Split (r_Network r) ",").

(** The engine's router is not part of the program: it is a parameter. [applies]
    is whether a rule takes a connection, [absent] whether a rule that states no
    network takes connections of this one. *)
Class Router := {
  applies : conn → rule → bool;
  absent : network → bool
}.

(** What the program documents of it. A rule takes a connection when every
    condition it states holds (hostname_routing_test.go:30-32). A rule that states
    no network takes TCP; of UDP the sources say two things: that it does not
    (build.go:293-296) and that it does (build.go:258-262 and 530-533, where the
    rules of the resolvers and of the private ranges, which state none, take
    datagrams). So nothing is assumed of UDP. *)
Class RouterDocumented `{Router} : Prop := {
  all_conditions : ∀ c r, applies c r = inbound_cond c r && ip_cond c r && port_cond c r && network_cond absent c r;
  absent_takes_tcp : absent NetTCP = true
}.

(** The first rule that takes the connection decides (router.go:257-261, as
    hostname_routing_test.go:30-32 has it). *)
Definition route `{Router} (rules : list rule) (c : conn) : option string := r_OutboundTag <$> List.find (applies c) rules.

(** ** What the rules mean *)

Definition within (n : Z) (i : Z * Z) : bool := (fst i <=? n) && (n <=? snd i).
Definition in_ranges (l4 l6 : list (Z * Z)) (a : Addr) : bool :=
  match plain_addr a with NoAddr => false | A4 n => existsb (within n) l4 | A6 n _ => existsb (within n) l6 end.

Definition loopback4 : list (Z * Z) := [(0x7f000000, 0x7fffffff)].
Definition loopback6 : list (Z * Z) := [(1, 1)].
(** multicast and the limited broadcast *)
Definition multicast4 : list (Z * Z) := [(0xe0000000, 0xefffffff); (0xffffffff, 0xffffffff)].
Definition multicast6 : list (Z * Z) := [(0xff000000000000000000000000000000, 0xffffffffffffffffffffffffffffffff)].
(** this network, RFC 1918, carrier NAT, loopback, link-local, protocol assignments,
    benchmarking, multicast and reserved *)
Definition private4 : list (Z * Z) :=
  [(0x00000000, 0x00ffffff); (0x0a000000, 0x0affffff); (0x64400000, 0x647fffff); (0x7f000000, 0x7fffffff); (0xa9fe0000, 0xa9feffff);
   (0xac100000, 0xac1fffff); (0xc0000000, 0xc00000ff); (0xc0a80000, 0xc0a8ffff); (0xc6120000, 0xc613ffff); (0xe0000000, 0xefffffff);
   (0xf0000000, 0xffffffff); (0xffffffff, 0xffffffff)].
(** loopback, unique local, link-local, multicast *)
Definition private6 : list (Z * Z) :=
  [(1, 1); (0xfc000000000000000000000000000000, 0xfdffffffffffffffffffffffffffffff);
   (0xfe800000000000000000000000000000, 0xfebfffffffffffffffffffffffffffff);
   (0xff000000000000000000000000000000, 0xffffffffffffffffffffffffffffffff)].

Section Meaning.
Context {R : Type} `{Conf R}.

(** Where a connection goes when the rules that state no network take it. *)
Definition destination_stated (o : Options R) (c : conn) : string :=
  if ldns_Enabled (o_LocalDNS o) && (c_inbound c =? TagLocalDNSIn)%string then TagDNSOut
  else if (c_inbound c =? TagResolverIn)%string then TagProxy
  else if Intercept (o_DNS o) && (c_port c =? 53) then TagDNSOut
  else match c_dest c with
       | None => TagProxy
       | Some a =>
           if negb (o_Interface o =? "")%string && in_ranges loopback4 loopback6 a then TagDirectLocal
           else if Contains_addr (tun_Subnet (o_TUN o)) (plain_addr a) || in_ranges multicast4 multicast6 a then TagBlock
           else if in_ranges private4 private6 a then TagDirect
           else TagProxy
       end.

(** Where a connection goes: one the rules without a network do not take meets
    only the rule of port 53 and the last one. *)
Definition destination `{Router} (o : Options R) (c : conn) : string :=
  if absent (c_network c) then destination_stated o c
  else if Intercept (o_DNS o) && (c_port c =? 53) then TagDNSOut else TagProxy.
End Meaning.

(** ** Ranges *)

Lemma plain_addr_ok a : addr_ok a → addr_ok (plain_addr a) ∧ hasZone (plain_addr a) = false.
Proof.
  unfold plain_addr, Unmap. intros Ha. destruct (Is4In6 a); [split; [simpl; apply Z.mod_pos_bound; lia|done]|]. by destruct a.
Qed.

(** A prefix whose address has no bits past its length is an interval. *)
Definition interval (p : Prefix) : Z * Z := (value (p_addr p), value (p_addr p) + 2 ^ (BitLen (p_addr p) - Bits p) - 1).
Definition aligned (p : Prefix) : bool :=
  prefix_valid p && (value (p_addr p) mod 2 ^ (BitLen (p_addr p) - Bits p) =? 0) && (0 <=? value (p_addr p)) && negb (hasZone (p_addr p)).

Lemma aligned_div a b k : 0 ≤ k → b mod 2 ^ k = 0 → a / 2 ^ k = b / 2 ^ k ↔ b ≤ a ≤ b + 2 ^ k - 1.
Proof.
  intros Hk Hb. assert (0 < 2 ^ k) as Hp by (by apply Z.pow_pos_nonneg). apply Z.mod_divide in Hb as [q ->]; [|lia].
  rewrite Z.div_mul by lia. split.
  - intros E. pose proof (Z.div_mod a (2 ^ k)). pose proof (Z.mod_pos_bound a (2 ^ k)). nia.
  - intros E. symmetry. apply Z.div_unique with (r := a - q * 2 ^ k); [left; lia|lia].
Qed.

Lemma Contains_interval p a : aligned p = true → addr_ok a → hasZone a = false →
  Contains_addr p a = match p_addr p, a with A4 _, A4 n | A6 _ _, A6 n _ => within n (interval p) | _, _ => false end.
Proof.
  intros Hp Ha Hz. unfold aligned in Hp. rewrite !andb_true_iff, Z.eqb_eq, Z.leb_le in Hp. destruct Hp as [[[Hv Hm] H0] Hzp].
  unfold Contains_addr. rewrite Hv, Hz. unfold prefix_valid in Hv. rewrite !andb_true_iff, !Z.leb_le in Hv. destruct Hv as [[Hva Hb0] Hb1].
  cbn [negb orb].
  destruct p as [[|b|b z] k]; simpl in *; [lia|..]; (destruct a as [|n|n z']; simpl in *; try done);
    apply Bool.eq_iff_eq_true; unfold within, interval; simpl; rewrite Z.eqb_eq, shiftr_lxor_zero by lia;
    rewrite aligned_div by lia; rewrite andb_true_iff, !Z.leb_le; done.
Qed.

(** The ranges of a list of texts. *)
Definition ranges_of (l : list string) : option (list (Z * Z) * list (Z * Z)) :=
  ps ← mapM ParsePrefix l;
  if forallb aligned ps
  then Some (interval <$> List.filter (λ p, Is4 (p_addr p)) ps, interval <$> List.filter (λ p, Is6 (p_addr p)) ps)
  else None.

Lemma ranges_exact l l4 l6 a : ranges_of l = Some (l4, l6) → addr_ok a → existsb (range_has a) l = in_ranges l4 l6 a.
Proof.
  unfold ranges_of. destruct (mapM ParsePrefix l) as [ps|] eqn:E; [|done]. cbn [mbind option_bind]. destruct (forallb aligned ps) eqn:Ea; [|done].
  intros [= <- <-] Ha. destruct (plain_addr_ok a Ha) as [Hp Hz]. unfold in_ranges. apply mapM_Some in E.
  induction E as [|s p l ps Hs E IH]; [by destruct (plain_addr a)|]. simpl in Ea. apply andb_true_iff in Ea as [Hap Ea]. specialize (IH Ea).
  cbn [existsb]. rewrite IH. unfold range_has at 1. rewrite Hs, (Contains_interval p _ Hap Hp Hz).
  unfold aligned, prefix_valid in Hap. destruct (plain_addr a), p as [[] k]; simpl; done.
Qed.

Lemma private_ranges : ranges_of PrivateRanges = Some (private4, private6).
Proof. vm_compute. reflexivity. Qed.
Lemma multicast_ranges : ranges_of ["224.0.0.0/4"; "255.255.255.255/32"; "ff00::/8"]%string = Some (multicast4, multicast6).
Proof. vm_compute. reflexivity. Qed.
Lemma loopback_ranges : ranges_of ["127.0.0.0/8"; "::1/128"]%string = Some (loopback4, loopback6).
Proof. vm_compute. reflexivity. Qed.

(** ** The rules one by one *)

Lemma find_app {A} (f : A → bool) l1 l2 : List.find f (l1 ++ l2) = match List.find f l1 with Some x => Some x | None => List.find f l2 end.
Proof. induction l1 as [|x l IH]; simpl; [done|]. by destruct (f x). Qed.

Section Rules.
Context {Rt : Router} {Rd : RouterDocumented}.

Lemma route_app l1 l2 c : route (l1 ++ l2) c = match route l1 c with Some t => Some t | None => route l2 c end.
Proof. unfold route. rewrite find_app. by destruct (List.find (applies c) l1). Qed.
Lemma route_one r c : route [r] c = if applies c r then Some (r_OutboundTag r) else None.
Proof. unfold route. simpl. by destruct (applies c r). Qed.

Lemma by_inbound c rt t out : applies c (MkRule rt [t] [] "" "" out) = (c_inbound c =? t)%string && absent (c_network c).
Proof. rewrite all_conditions. unfold inbound_cond. simpl. by rewrite orb_false_r, !andb_true_r. Qed.
Lemma by_dns_port c rt out : applies c (MkRule rt [] [] "53" "tcp,udp" out) = (c_port c =? 53).
Proof. rewrite all_conditions. unfold network_cond. simpl. by destruct (c_network c); rewrite ?andb_true_r. Qed.
Lemma by_anything c rt out : applies c (MkRule rt [] [] "" "tcp,udp" out) = true.
Proof. rewrite all_conditions. unfold network_cond. simpl. by destruct (c_network c). Qed.
Lemma by_range c rt l out : l ≠ [] →
  applies c (MkRule rt [] l "" "" out) =
    match c_dest c with Some a => existsb (range_has a) l | None => false end && absent (c_network c).
Proof. intros Hl. rewrite all_conditions. unfold ip_cond. simpl. destruct l; [done|]. by rewrite !andb_true_r. Qed.
End Rules.

(** The tunnel's subnet, as the planner makes it: IPv4 or not known. *)
Definition subnet_known (p : Prefix) : Prop :=
  prefix_valid p = false ∨ ∃ n b, p = MkPrefix (A4 n) b ∧ 0 ≤ n < 2 ^ 32 ∧ 0 ≤ b ≤ 32.

Lemma masked_same n b a : 0 ≤ n < 2 ^ 32 → 0 ≤ b ≤ 32 → addr_ok a →
  range_has a (prefix_String (Masked (MkPrefix (A4 n) b))) = Contains_addr (MkPrefix (A4 n) b) (plain_addr a).
Proof.
  intros Hn Hb Ha. destruct (plain_addr_ok a Ha) as [Hp Hz]. assert (prefix_valid (MkPrefix (A4 n) b) = true) as Hv.
  { unfold prefix_valid. simpl. by rewrite (proj2 (Z.leb_le _ _)), (proj2 (Z.leb_le _ _)) by lia. }
  unfold Masked. rewrite Hv. cbn [p_addr Bits mask]. set (m := Z.shiftl (Z.shiftr n (32 - b)) (32 - b)).
  assert (m = n / 2 ^ (32 - b) * 2 ^ (32 - b)) as Em by (unfold m; rewrite Z.shiftl_mul_pow2, Z.shiftr_div_pow2 by lia; done).
  assert (0 < 2 ^ (32 - b)) as Hpos by (apply Z.pow_pos_nonneg; lia). pose proof (Z.div_mod n (2 ^ (32 - b))). pose proof (Z.mod_pos_bound n (2 ^ (32 - b))).
  assert (0 ≤ n / 2 ^ (32 - b)) by (apply Z.div_pos; lia). assert (0 ≤ m < 2 ^ 32) as Hm by nia.
  unfold range_has. rewrite ParsePrefix_String4 by done. unfold Contains_addr, prefix_valid. simpl.
  rewrite (proj2 (Z.leb_le 0 b)), (proj2 (Z.leb_le b 32)), Hz by lia. simpl. destruct (plain_addr a) as [|x|x z]; [done| |done].
  apply Bool.eq_iff_eq_true. simpl in *. rewrite !Z.eqb_eq, !shiftr_lxor_zero by lia. rewrite Em, Z.div_mul by lia. done.
Qed.

Section Route.
Context {R : Type} `{Conf R} {Rt : Router} {Rd : RouterDocumented}.

Definition conn_ok (c : conn) : Prop := match c_dest c with Some a => addr_ok a | None => True end.

Lemma guard_exact s c a : subnet_known s → addr_ok a → c_dest c = Some a →
  applies c (loopGuardRule s) = (Contains_addr s (plain_addr a) || in_ranges multicast4 multicast6 a) && absent (c_network c).
Proof.
  intros Hs Ha Hc. unfold loopGuardRule. rewrite by_range by (by destruct (prefix_valid s)). rewrite Hc. f_equal.
  destruct Hs as [Hv|(n & b & -> & Hn & Hb)].
  - rewrite Hv. rewrite (ranges_exact _ _ _ a multicast_ranges Ha). unfold Contains_addr. by rewrite Hv.
  - assert (prefix_valid (MkPrefix (A4 n) b) = true) as ->.
    { unfold prefix_valid. simpl. by rewrite (proj2 (Z.leb_le _ _)), (proj2 (Z.leb_le _ _)) by lia. }
    cbn [existsb]. rewrite masked_same by done. f_equal. exact (ranges_exact _ _ _ a multicast_ranges Ha).
Qed.

Lemma guard_name s c : c_dest c = None → applies c (loopGuardRule s) = false.
Proof. intros Hc. unfold loopGuardRule. rewrite by_range by (by destruct (prefix_valid s)). by rewrite Hc. Qed.

(** The rules that state no network, for a connection they take. *)
Lemma route_stated (o : Options R) c : subnet_known (tun_Subnet (o_TUN o)) → conn_ok c → absent (c_network c) = true →
  route (build_rules o) c = Some (destination_stated o c).
Proof.
  intros Hs Hc Hn. unfold build_rules, destination_stated. rewrite !route_app.
  assert (route (if ldns_Enabled (o_LocalDNS o) then [MkRule ruleTagLocalDNS [TagLocalDNSIn] [] "" "" TagDNSOut] else []) c =
    if ldns_Enabled (o_LocalDNS o) && (c_inbound c =? TagLocalDNSIn)%string then Some TagDNSOut else None) as ->.
  { destruct (ldns_Enabled _); [|done]. by rewrite route_one, by_inbound, Hn, andb_true_r. }
  destruct (ldns_Enabled (o_LocalDNS o) && (c_inbound c =? TagLocalDNSIn)%string); [done|].
  rewrite route_one, by_inbound, Hn, andb_true_r. destruct (c_inbound c =? TagResolverIn)%string; [done|].
  assert (route (if Intercept (o_DNS o) then [MkRule ruleTagDNS [] [] "53" "tcp,udp" TagDNSOut] else []) c =
    if Intercept (o_DNS o) && (c_port c =? 53) then Some TagDNSOut else None) as ->.
  { destruct (Intercept _); [|done]. by rewrite route_one, by_dns_port. }
  destruct (Intercept (o_DNS o) && (c_port c =? 53)); [done|].
  assert (route (if (o_Interface o =? "")%string then [] else [MkRule ruleTagLoopback [] ["127.0.0.0/8"; "::1/128"]%string "" "" TagDirectLocal]) c =
    match c_dest c with
    | Some a => if negb (o_Interface o =? "")%string && in_ranges loopback4 loopback6 a then Some TagDirectLocal else None
    | None => None
    end) as ->.
  { unfold conn_ok in Hc. destruct (o_Interface o =? "")%string; [by destruct (c_dest c)|]. rewrite route_one, by_range, Hn, andb_true_r by done.
    destruct (c_dest c) as [a|]; [|done]. by rewrite (ranges_exact _ _ _ a loopback_ranges Hc). }
  unfold conn_ok in Hc. change [loopGuardRule ?s; ?p; ?q] with ([loopGuardRule s] ++ [p] ++ [q])%list. rewrite !route_app, !route_one, by_anything.
  unfold privateRule. rewrite (by_range c ruleTagPrivate PrivateRanges), Hn, andb_true_r by done. destruct (c_dest c) as [a|] eqn:Ed.
  - rewrite (guard_exact _ c a Hs Hc Ed), (ranges_exact _ _ _ a private_ranges Hc), Hn, andb_true_r. cbn [r_OutboundTag].
    destruct (negb (o_Interface o =? "")%string && in_ranges loopback4 loopback6 a); [done|].
    destruct (Contains_addr _ _ || _); [done|]. by destruct (in_ranges private4 private6 a).
  - by rewrite (guard_name _ c Ed).
Qed.

(** The rules that state one decide the rest. *)
Lemma route_unstated (o : Options R) c : absent (c_network c) = false →
  route (build_rules o) c = Some (if Intercept (o_DNS o) && (c_port c =? 53) then TagDNSOut else TagProxy).
Proof.
  intros Hn. assert (∀ rt t out, applies c (MkRule rt [t] [] "" "" out) = false) as Hi by (intros; by rewrite by_inbound, Hn, andb_false_r).
  assert (∀ rt l out, l ≠ [] → applies c (MkRule rt [] l "" "" out) = false) as Hr by (intros; by rewrite by_range, Hn, andb_false_r).
  unfold build_rules, loopGuardRule, privateRule. rewrite !route_app.
  change [?g; ?p; ?q] with ([g] ++ [p] ++ [q])%list. rewrite !route_app, !route_one, by_anything, Hi.
  rewrite !Hr by first [done | by destruct (prefix_valid _)].
  destruct (ldns_Enabled _), (Intercept _), (_ =? _)%string; rewrite ?route_one, ?Hi, ?by_dns_port, ?Hr by done; cbn [andb];
    by destruct (c_port c =? 53).
Qed.

Lemma route_build (o : Options R) c : subnet_known (tun_Subnet (o_TUN o)) → conn_ok c → route (build_rules o) c = Some (destination o c).
Proof.
  intros Hs Hc. unfold destination. destruct (absent (c_network c)) eqn:Hn; [by apply route_stated|by apply route_unstated].
Qed.
End Route.

(** * What the engine's document says (internal/xcfg)

    The text Build returns reads back as the document it composed: its inbounds
    listen on loopback, its resolvers are addresses and none is Google's, every
    rule names an outbound that is there, the tunnel is the default, and a server
    named by a domain is pinned to the addresses the routes were made for. *)

(** ** The checks *)

Lemma first_error_none l : first_error l = None ↔ Forall (λ e, e = None) l.
Proof.
  unfold first_error. induction l as [|[e|] l IH]; simpl; [done|..].
  - split; [done|]. intros Hf. by inversion Hf.
  - rewrite Forall_cons, <- IH. naive_solver.
Qed.

Lemma when_none b e : when b e = None ↔ (b = true → e = None).
Proof. destruct b; simpl; naive_solver. Qed.
Lemma unless_none b e : unless b e = None ↔ b = true.
Proof. by destruct b. Qed.
Lemma listen_none s e : checkLoopbackListen s e = None ↔ ∃ a, ParseAddr s = Some a ∧ IsLoopback (Unmap a) = true.
Proof.
  unfold checkLoopbackListen. destruct (ParseAddr s) as [a|]; [|split; [done|by intros (? & ? & _)]].
  destruct (IsLoopback (Unmap a)) eqn:E; cbn [negb]; (split; [|intros (a' & ? & ?); congruence]); [by exists a|done].
Qed.

(** A resolver the product uses: an address, and not one of Google's. *)
Definition resolver_ok (s : string) : Prop :=
  ∃ a, ParseAddr s = Some a ∧ Forall (λ p, Contains_addr p (Unmap a) = false) googlePrefixes.

Lemma checkResolver_none i n s : checkResolver i n s = None ↔ resolver_ok s.
Proof.
  unfold checkResolver, resolver_ok. destruct (ParseAddr s) as [a|]; [|naive_solver].
  destruct (existsb (λ p, Contains_addr p (Unmap a)) googlePrefixes) eqn:E.
  - split; [done|]. intros (a' & [= <-] & Hf). apply existsb_exists in E as (p & Hin & Hp). rewrite Forall_forall in Hf.
    apply list_elem_of_In in Hin. by rewrite (Hf p Hin) in Hp.
  - split; [|done]. intros _. exists a. split; [done|]. apply Forall_forall. intros p Hin. destruct (Contains_addr p (Unmap a)) eqn:Ep; [|done].
    assert (existsb (λ p, Contains_addr p (Unmap a)) googlePrefixes = true); [|congruence]. apply existsb_exists. exists p. split; [by apply list_elem_of_In|done].
Qed.
Lemma checkResolvers_none l : checkResolvers l = None ↔ l ≠ [] ∧ Forall resolver_ok l.
Proof.
  assert (∀ i n, check_each i n l = None ↔ Forall resolver_ok l) as Hf.
  { induction l as [|s l IH]; intros i n; [done|]. simpl. rewrite Forall_cons, <- (checkResolver_none i n), <- (IH (i + 1) n).
    destruct (checkResolver i n s); naive_solver. }
  destruct l as [|s l]; [naive_solver|]. unfold checkResolvers. rewrite Hf. naive_solver.
Qed.

Section Facts.
Context {R : Type} `{Conf R}.

(** Options fit for a document. *)
Record options_ok (o : Options R) : Prop := {
  ok_log : o_LogLevel o ∈ [LogDebug; LogInfo; LogWarning; LogError];
  ok_tun : tun_Disabled (o_TUN o) = false → checkInterfaceName (tun_Name (o_TUN o)) = None ∧ MinTunMTU ≤ tun_MTU (o_TUN o) ≤ MaxTunMTU;
  ok_socks : (∃ a, ParseAddr (socks_Listen (o_SOCKS o)) = Some a ∧ IsLoopback (Unmap a) = true) ∧ socks_Port (o_SOCKS o) ≠ 0;
  ok_local : ldns_Enabled (o_LocalDNS o) = true →
    (∃ a, ParseAddr (ldns_Listen (o_LocalDNS o)) = Some a ∧ IsLoopback (Unmap a) = true) ∧ ldns_Port (o_LocalDNS o) ≠ 0 ∧
    ¬ (ldns_Port (o_LocalDNS o) = socks_Port (o_SOCKS o) ∧ sameHost (ldns_Listen (o_LocalDNS o)) (socks_Listen (o_SOCKS o)) = true);
  ok_strategy : dns_Strategy (o_DNS o) ∈ [QueryUseIP; QueryUseIPv4; QueryUseIPv6];
  ok_resolvers : Servers (o_DNS o) ≠ [] ∧ Forall resolver_ok (Servers (o_DNS o))
}.

Lemma one_of_spec s l : one_of s l = true ↔ s ∈ l.
Proof.
  unfold one_of. rewrite existsb_exists. split.
  - intros (x & Hin & Hx). apply String.eqb_eq in Hx as ->. by apply list_elem_of_In.
  - intros Hin. exists s. split; [by apply list_elem_of_In|apply String.eqb_refl].
Qed.

Lemma check_exact o : check o = None ↔ options_ok o.
Proof.
  unfold check. rewrite first_error_none, !Forall_cons, Forall_nil, !when_none, !unless_none, !listen_none, checkResolvers_none, !one_of_spec.
  rewrite !andb_true_iff, !negb_true_iff, !Z.leb_le, !Z.eqb_neq, !andb_false_iff, !Z.eqb_neq. split.
  - intros (Hlog & H1 & H2 & Hsl & Hsp & H3 & H4 & H5 & Hst & Hres & _). split; try done.
    + intros Ht. split; auto.
    + intros He. split_and!; [by apply H3|by apply H4|]. intros [Ep Es]. destruct (H5 He) as [?|?]; congruence.
  - intros [Hlog H1 [Hsl Hsp] H2 Hst Hres]. split_and!; try done.
    + intros Ht. by apply H1.
    + intros Ht. by apply H1.
    + intros He. by apply H2.
    + intros He. by apply H2.
    + intros He. destruct (H2 He) as (_ & _ & Hn). destruct (decide (ldns_Port (o_LocalDNS o) = socks_Port (o_SOCKS o))) as [E|]; [right|by left].
      destruct (sameHost _ _); [|done]. by destruct Hn.
    + apply Hres.
    + apply Hres.
Qed.

(** ** Plain values *)

Lemma plain_str d s : ValidString s = true → plain d (jstr s).
Proof. done. Qed.
Lemma plain_num d z : plain d (jnum z).
Proof. by exists z. Qed.
Lemma plain_strs d l : Forall (λ s, ValidString s = true) l → plain (S d) (jstrs l).
Proof. intros Hl. unfold jstrs. rewrite plain_arr, Forall_fmap. exact Hl. Qed.
Lemma plain_jobj d l : Forall (λ kv, ValidString (fst kv) = true ∧ plain d (snd kv)) l → plain (S d) (jobj l).
Proof. intros Hl. unfold jobj. rewrite plain_obj, Forall_fmap. exact Hl. Qed.
Lemma omitempty_plain d b k v : ValidString k = true → plain d v → Forall (λ kv, ValidString (fst kv) = true ∧ plain d (snd kv)) (omitempty b k v).
Proof. intros Hk Hv. destruct b; simpl; by repeat constructor. Qed.
End Facts.

(** Takes a plain value apart down to the validity of its texts. *)
Ltac plain_value := repeat match goal with
  | |- plain _ (snd (_, _)) => cbn [snd]
  | |- ValidString (fst (_, _)) = true => cbn [fst]
  | |- plain _ (jobj _) => apply plain_jobj
  | |- plain _ (jstrs _) => apply plain_strs
  | |- plain _ (jnum _) => apply plain_num
  | |- plain _ (jstr _) => apply plain_str
  | |- Forall _ (_ ++ _) => apply Forall_app_2
  | |- Forall _ (omitempty _ _ _) => apply omitempty_plain
  | |- Forall _ (_ :: _) => apply Forall_cons_2
  | |- Forall _ [] => apply Forall_nil_2
  | |- _ ∧ _ => split
  | |- ValidString _ = true => first [assumption | reflexivity]
  | |- _ => first [assumption | exact I]
  end.

Lemma rule_plain r d : ValidString (RuleTag r) = true → Forall (λ s, ValidString s = true) (InboundTag r) → Forall (λ s, ValidString s = true) (r_IP r) →
  ValidString (r_Port r) = true → ValidString (r_Network r) = true → ValidString (r_OutboundTag r) = true → plain (S (S d)) (rule_json r).
Proof. intros. unfold rule_json. plain_value. Qed.

Section Document.
Context {R : Type} `{Conf R}.

(** The texts that come from outside are UTF-8. *)
Record texts_valid (o : Options R) : Prop := {
  tv_socks : ValidString (socks_Listen (o_SOCKS o)) = true;
  tv_local : ValidString (ldns_Listen (o_LocalDNS o)) = true;
  tv_servers : Forall (λ s, ValidString s = true) (Servers (o_DNS o));
  tv_interface : ValidString (o_Interface o) = true;
  tv_name : ValidString (serverNameOf o) = true;
  tv_pinned : Forall (λ a, ValidString (addr_String (Unmap a)) = true) (o_PinnedServer o)
}.

Lemma valid_append a b : Forall (λ c, (nat_of_ascii c < 128)%nat) (to_l a) → ValidString b = true → ValidString (a ++ b)%string = true.
Proof.
  intros Ha Hb. unfold ValidString. change (String.list_ascii_of_string (a ++ b)%string) with (to_l (a ++ b)%string). rewrite append_to_l.
  induction Ha as [|c l Hc Hl IH]; [exact Hb|]. cbn [app valid_go]. rewrite rune_width_ascii by done. rewrite (proj2 (Nat.ltb_lt _ _) Hc). exact IH.
Qed.

Lemma normalise_texts o : texts_valid o → texts_valid (normalise o).
Proof.
  assert (∀ a b, ValidString a = true → ValidString b = true → ValidString (or_text a b) = true) as Hor by (intros a b; unfold or_text; by destruct (_ =? _)%string).
  intros [H1 H2 H3 H4 H5 H6]. split; simpl; try done; try by apply Hor.
  destruct (Servers (o_DNS o)); [by repeat constructor|done].
Qed.

Lemma interface_name_valid s : checkInterfaceName s = None → ValidString s = true.
Proof.
  unfold checkInterfaceName. destruct (_ || _); [done|]. destruct (forallb name_char (to_l s)) eqn:E; [|done]. intros _. apply valid_ascii.
  apply Forall_forall. intros c Hc. rewrite forallb_forall in E. apply list_elem_of_In in Hc. specialize (E c Hc).
  destruct c as [[] [] [] [] [] [] [] []]; try discriminate E; vm_compute; lia.
Qed.

Lemma log_valid s : s ∈ [LogDebug; LogInfo; LogWarning; LogError] → ValidString s = true.
Proof. intros Hs. rewrite !elem_of_cons, elem_of_nil in Hs. by repeat destruct Hs as [->|Hs]. Qed.
Lemma strategy_valid s : s ∈ [QueryUseIP; QueryUseIPv4; QueryUseIPv6] → ValidString s = true.
Proof. intros Hs. rewrite !elem_of_cons, elem_of_nil in Hs. by repeat destruct Hs as [->|Hs]. Qed.

Lemma pin_go_texts strategy l : ∀ seen addrs usable r b, Forall (λ a, ValidString (addr_String (Unmap a)) = true) l →
  Forall (λ s, ValidString s = true) addrs → pin_go strategy l seen addrs usable = Ok (r, b) → Forall (λ s, ValidString s = true) r.
Proof.
  induction l as [|a l IH]; intros seen addrs usable r b Hl Ha; cbn [pin_go]; [by intros [= <- <-]|]. inversion Hl as [|? ? Hal Hl']; subst.
  destruct (negb (addr_valid a)); [done|]. destruct (bool_decide _); [by apply IH|]. apply IH; [done|]. apply Forall_app. split; [done|by repeat constructor].
Qed.

(** The outbound of a plain link, taken out of its document. *)
Lemma proxyOutbound_reads n l ob : plain n (marshal_outbound (claim_outbound (l_outbound l))) → Z.of_nat n ≤ maxNestingDepth - 2 →
  proxyOutbound l = Ok ob → ob = stripNulls (marshal_outbound (claim_outbound (l_outbound l))) ∧ dec (struct_codec tag_fields false) ob ""%string = Some TagProxy.
Proof.
  intros Hp Hn. unfold proxyOutbound, outboundFromDocument. destruct (XrayConfig_reads n l Hp Hn) as (raw & -> & ->). cbn [mbind option_bind].
  set (ob0 := stripNulls (marshal_outbound (claim_outbound (l_outbound l)))).
  change (stripNulls (engine_document l)) with (JObj [(to_l "outbounds", JArr [ob0])]).
  change (dec (struct_codec linkDocument_fields false) (JObj [(to_l "outbounds", JArr [ob0])]) []) with (Some [ob0]). cbv iota.
  destruct (dec (struct_codec tag_fields false) ob0 ""%string) as [tag|] eqn:Et; [|done].
  destruct (String.eqb_spec tag TagProxy) as [->|]; [|done]. by intros [= <-].
Qed.

(** ** Forcing the dial *)

Lemma decoded_clean v : clean v → decoded v = v.
Proof.
  induction v as [| | | |l IH|l IH] using json_nested_ind; try done; intros Hc.
  - cbn [decoded clean] in *. rewrite foldr_and in Hc. f_equal. induction l as [|x l IHl]; [done|]. apply Forall_cons in IH as [Hx Hl].
    apply Forall_cons in Hc as [Hcx Hcl]. simpl. f_equal; auto.
  - cbn [decoded clean] in *. destruct Hc as [Ho Hc]. rewrite foldr_and in Hc. f_equal.
    assert (List.map (λ kv, (fst kv, decoded (snd kv))) l = l) as ->; [|by apply as_map_id].
    clear Ho. induction l as [|[k y] l IHl]; [done|]. apply Forall_cons in IH as [Hy Hl]. apply Forall_cons in Hc as [[Hn Hcy] Hcl].
    simpl. f_equal; [|auto]. unfold compose in Hy. simpl in Hy. by rewrite Hy.
Qed.

Lemma read_members_insert {A} (fs : list (Field A)) k v m r : lookup_field fs k = None →
  read_members fs false (insert_member k v m) r = read_members fs false m r.
Proof.
  intros Hk. assert (∀ v r m, read_members fs false ((k, v) :: m) r = read_members fs false m r) as Hs.
  { intros v0 r0 m0. cbn [read_members]. unfold read_member. cbn [fst]. rewrite Hk. done. }
  revert r. induction m as [|[k' v'] m IH]; intros r; cbn [insert_member]; [by rewrite Hs|].
  destruct (bool_decide_reflect (k = k')) as [E|_]; [rewrite <- E; by rewrite !Hs|]. destruct (key_lt k k'); [by rewrite Hs|].
  cbn [read_members]. destruct (read_member fs false r (k', v')); [|done]. apply IH.
Qed.

Lemma insert_plain d k v m : valid_go 0 k = true → plain d v → plain (S d) (JObj m) → plain (S d) (JObj (insert_member k v m)).
Proof.
  intros Hk Hv. rewrite !plain_obj. intros Hm. apply Forall_forall. intros kv Hin. apply insert_elem in Hin as [->|Hin]; [done|].
  rewrite Forall_forall in Hm. by apply Hm.
Qed.

Lemma lookup_member_elem k m v : lookup_member k m = Some v → (k, v) ∈ m.
Proof.
  induction m as [|[k' v'] m IH]; [done|]. simpl. destruct (bool_decide_reflect (k = k')) as [->|]; [intros [= ->]; constructor|].
  intros E. constructor. by apply IH.
Qed.
Lemma map_at_plain d k m : plain (S (S d)) (JObj m) → plain (S d) (JObj (map_at k m)).
Proof.
  intros Hm. unfold map_at. destruct (lookup_member (to_l k) m) as [[| | | | |m']|] eqn:E; try by rewrite plain_obj.
  rewrite plain_obj, Forall_forall in Hm. apply lookup_member_elem, Hm in E as [_ E]. exact E.
Qed.
Lemma map_at_order k m : clean (JObj m) → clean (JObj (map_at k m)).
Proof.
  intros [_ Hc]. unfold map_at. destruct (lookup_member (to_l k) m) as [[| | | | |m']|] eqn:E; try done.
  rewrite foldr_and, Forall_forall in Hc. apply lookup_member_elem, Hc in E as [_ E]. exact E.
Qed.

Definition dial_of (ob : list (list ascii * json)) : list (list ascii * json) := map_at "sockopt" (map_at "streamSettings" ob).

(** The dial is forced and nothing else of the outbound changes. *)
Record forced_dial (ob ob' : list (list ascii * json)) : Prop := {
  fd_strategy : lookup_member (to_l "domainStrategy") (dial_of ob') = Some (jstr "ForceIP");
  fd_dial : ∀ k, k ≠ to_l "domainStrategy" → lookup_member k (dial_of ob') = lookup_member k (dial_of ob);
  fd_stream : ∀ k, k ≠ to_l "sockopt" → lookup_member k (map_at "streamSettings" ob') = lookup_member k (map_at "streamSettings" ob);
  fd_rest : ∀ k, k ≠ to_l "streamSettings" → lookup_member k ob' = lookup_member k ob
}.

Lemma map_at_insert k m m' : map_at k (insert_member (to_l k) (JObj m') m) = m'.
Proof. unfold map_at. rewrite lookup_insert_member. by rewrite bool_decide_true. Qed.
Lemma map_at_insert_ne k k' v m : to_l k ≠ k' → map_at k (insert_member k' v m) = map_at k m.
Proof. intros Hk. unfold map_at. rewrite lookup_insert_member. by rewrite bool_decide_false. Qed.

Lemma forceIPDial_spec d ob ob' : clean ob → plain (S (S (S d))) ob → forceIPDial ob = Ok ob' →
  ∃ m m', ob = JObj m ∧ ob' = JObj m' ∧ forced_dial m m' ∧ plain (S (S (S d))) ob' ∧
    dec (struct_codec tag_fields false) ob' ""%string = dec (struct_codec tag_fields false) ob ""%string.
Proof.
  intros Hc Hp. unfold forceIPDial. rewrite decoded_clean by done. destruct ob as [| | | | |m]; try done.
  set (sockopt := insert_member (to_l "domainStrategy") (jstr "ForceIP") (map_at "sockopt" (map_at "streamSettings" m))).
  set (stream := insert_member (to_l "sockopt") (JObj sockopt) (map_at "streamSettings" m)).
  intros E. assert (ob' = JObj (insert_member (to_l "streamSettings") (JObj stream) m)) as -> by congruence.
  eexists m, _. split; [done|]. split; [done|]. split_and!.
  - assert (dial_of (insert_member (to_l "streamSettings") (JObj stream) m) = sockopt) as Ed
      by (unfold dial_of; rewrite map_at_insert; apply map_at_insert).
    split; [|intros k Hk..]; rewrite ?Ed, ?map_at_insert; unfold sockopt, stream; rewrite lookup_insert_member;
      [by rewrite bool_decide_true|by rewrite bool_decide_false..].
  - pose proof (map_at_plain _ "streamSettings" m Hp) as Hs. pose proof (map_at_plain _ "sockopt" _ Hs) as Hk.
    apply insert_plain; [done| |done]. apply insert_plain; [done| |done]. by apply insert_plain.
  - simpl. by apply read_members_insert.
Qed.

(** ** Reading the document *)

Definition member_at (k : string) (j : json) : option json := match j with JObj m => lookup_member (to_l k) m | _ => None end.
Definition read_text (j : option json) : string := match j with Some (JStr s) => of_l s | _ => "" end.
Definition read_texts (j : option json) : list string :=
  match j with Some (JArr l) => (λ j, read_text (Some j)) <$> l | _ => [] end.
Definition elements (j : option json) : list json := match j with Some (JArr l) => l | _ => [] end.

Definition read_rule (j : json) : rule :=
  MkRule (read_text (member_at "ruleTag" j)) (read_texts (member_at "inboundTag" j)) (read_texts (member_at "ip" j)) (read_text (member_at "port" j))
    (read_text (member_at "network" j)) (read_text (member_at "outboundTag" j)).
Definition read_rules (j : json) : list rule := read_rule <$> elements (member_at "routing" j ≫= member_at "rules").
Definition read_outbounds (j : json) : list json := elements (member_at "outbounds" j).
Definition read_tags (j : json) : list string := omap (λ ob, dec (struct_codec tag_fields false) ob ""%string) (read_outbounds j).
Definition read_resolvers (j : json) : list string := read_texts (member_at "dns" j ≫= member_at "servers").
(** Where each inbound listens. Only the TUN device, an inbound of that protocol
    that states no port, listens nowhere; any other that does not say where is taken
    to listen everywhere, and one without a readable port to have none. *)
Definition read_listener (j : json) : option (string * Z) :=
  match member_at "port" j with
  | None => if (read_text (member_at "protocol" j) =? "tun")%string then None else Some ("0.0.0.0"%string, 0)
  | Some port => Some (match member_at "listen" j with Some (JStr s) => of_l s | _ => "0.0.0.0"%string end,
                       match port with JNum t => default 0 (Atoi (of_l t)) | _ => 0 end)
  end.
Definition read_listeners (j : json) : list (string * Z) := omap read_listener (elements (member_at "inbounds" j)).

Lemma read_texts_strs l : read_texts (Some (jstrs l)) = l.
Proof. simpl. rewrite <- list_fmap_compose. rewrite <- (list_fmap_id l) at 2. apply list_fmap_ext. intros i s _. apply of_to_l. Qed.

Lemma read_rule_json r : read_rule (rule_json r) = r.
Proof.
  destruct r as [tag ins ips port net out]. unfold read_rule, rule_json. cbn [RuleTag InboundTag r_IP r_Port r_Network r_OutboundTag].
  destruct (String.eqb_spec port "") as [->|Hp], (String.eqb_spec net "") as [->|Hn], ins as [|i ins], ips as [|ip ips];
    cbn [List.length Nat.eqb omitempty app]; unfold jobj; cbn [fmap list_fmap fst snd];
    f_equal; first [exact (of_to_l _) | exact (read_texts_strs (_ :: _)) | reflexivity].
Qed.

Lemma read_rules_json d : read_rules (document_json d) = doc_Rules d.
Proof.
  change (read_rules (document_json d)) with (read_rule <$> (rule_json <$> doc_Rules d)). rewrite <- list_fmap_compose.
  rewrite <- (list_fmap_id (doc_Rules d)) at 2. apply list_fmap_ext. intros i r _. apply read_rule_json.
Qed.
Lemma read_outbounds_json d : read_outbounds (document_json d) = outbound_json <$> doc_Outbounds d.
Proof. done. Qed.
Lemma read_resolvers_json d : read_resolvers (document_json d) = doc_Servers d.
Proof. apply read_texts_strs. Qed.
End Document.
