(* ===== verification/XcfgDoc.v ===== *)
(** * The text Build returns (internal/xcfg)

    The document is plain JSON and so reads back; what its rules, its outbounds, its
    inbounds and its resolvers then say. *)

From S2P Require Import Prelude GoStrings Netip Text Json JsonFacts JsonStruct Url Subnet Link LinkDoc Xcfg XcfgFacts.

Local Open Scope Z_scope.

Section Text.
Context {R : Type} `{Conf R}.

(** ** The document is plain *)

Lemma digits_valid l : digits_only l → Forall (λ c, (nat_of_ascii c < 128)%nat) l.
Proof. intros Hl. eapply list.Forall_impl; [exact Hl|]. intros c. apply digit_ascii. Qed.

Lemma prefix4_valid n b : 0 ≤ n < 2 ^ 32 → 0 ≤ b ≤ 32 → ValidString (prefix_String (MkPrefix (A4 n) b)) = true.
Proof.
  intros Hn Hb. unfold prefix_String. destruct (negb _); [done|]. cbn [p_addr Bits addr_String]. destruct (octets n Hn) as (H1 & H2 & H3 & H4 & _).
  apply valid_ascii. change (String.list_ascii_of_string ?s) with (to_l s). rewrite !append_to_l, dotted_chars.
  change (to_l "/") with ["/"%char]. rewrite !Forall_app, !Forall_cons, !Forall_app, !Forall_cons, !Forall_app, !Forall_cons, !Forall_nil.
  split_and!; try exact I; try (apply digits_valid, Itoa_all_digits; lia); vm_compute; lia.
Qed.

Lemma rules_plain (o : Options R) d : subnet_known (tun_Subnet (o_TUN o)) → Forall (λ r, plain (S (S d)) (rule_json r)) (build_rules o).
Proof.
  intros Hs. unfold build_rules. repeat apply Forall_app_2.
  - destruct (ldns_Enabled _); [|constructor]. apply Forall_singleton. apply rule_plain; by repeat constructor.
  - apply Forall_singleton. apply rule_plain; by repeat constructor.
  - destruct (Intercept _); [|constructor]. apply Forall_singleton. apply rule_plain; by repeat constructor.
  - destruct (_ =? _)%string; [constructor|]. apply Forall_singleton. apply rule_plain; by repeat constructor.
  - repeat apply Forall_cons_2; [|apply rule_plain; by repeat constructor..|constructor].
    unfold loopGuardRule. apply rule_plain; try by repeat constructor. cbn [r_IP].
    destruct Hs as [Hv|(n & b & E & Hn & Hb)]; [rewrite Hv; by repeat constructor|]. rewrite E.
    destruct (prefix_valid (MkPrefix (A4 n) b)) eqn:Hv; [|by repeat constructor]. constructor; [|by repeat constructor].
    unfold Masked. rewrite Hv. apply prefix4_valid; [|done]. cbn [mask]. pose proof (mask_ok (A4 n) b Hb Hn) as Hm. exact Hm.
Qed.

Lemma tun_plain d t : ValidString (ti_Name t) = true → plain (S (S d)) (tun_json t).
Proof. intros. unfold tun_json. plain_value. Qed.
Lemma socks_plain d s : ValidString (si_Listen s) = true → plain (S (S d)) (socks_json s).
Proof. intros. unfold socks_json. plain_value. Qed.
Lemma dokodemo_plain d s : ValidString (di_Listen s) = true → ValidString (di_Address s) = true → plain (S (S d)) (dokodemo_json s).
Proof. intros. unfold dokodemo_json. plain_value. Qed.
Lemma freedom_plain d f : ValidString (fo_Tag f) = true → ValidString (default ""%string (fo_Interface f)) = true → plain (S (S (S d))) (freedom_json f).
Proof. intros Ht Hi. unfold freedom_json. destruct (fo_Interface f); plain_value. Qed.
Lemma blackhole_plain d : plain (S (S (S d))) blackhole_json.
Proof. unfold blackhole_json. plain_value. Qed.
Lemma dnsOut_plain d : plain (S (S (S d))) dnsOut_json.
Proof. unfold dnsOut_json. plain_value. Qed.

Lemma document_plain (doc : document) d : ValidString (doc_LogLevel doc) = true → Forall (λ s, ValidString s = true) (doc_Servers doc) →
  (∀ k addrs, doc_Hosts doc = Some (k, addrs) → ValidString k = true ∧ Forall (λ s, ValidString s = true) addrs) →
  ValidString (doc_QueryStrategy doc) = true → Forall (λ i, plain (S (S (S d))) (inbound_json i)) (doc_Inbounds doc) →
  Forall (λ b, plain (S (S (S d))) (outbound_json b)) (doc_Outbounds doc) → Forall (λ r, plain (S (S d)) (rule_json r)) (doc_Rules doc) →
  plain (S (S (S (S (S d))))) (document_json doc).
Proof.
  intros Hl Hs Hh Hq Hi Ho Hr. unfold document_json. destruct (doc_Hosts doc) as [[k addrs]|]; [destruct (Hh k addrs eq_refl)|];
    plain_value; (rewrite plain_arr, Forall_fmap; assumption).
Qed.

(** What a link must be for its document to be read back: its outbound is plain. *)
Definition link_plain (l : Link R) : Prop :=
  ∃ n, plain n (marshal_outbound (claim_outbound (l_outbound l))) ∧ Z.of_nat n ≤ maxNestingDepth - 5.

Lemma link_plain_deep l : link_plain l → ∃ d, plain (S (S (S d))) (marshal_outbound (claim_outbound (l_outbound l))) ∧
  Z.of_nat (S (S (S d))) ≤ maxNestingDepth - 2.
Proof. intros (n & Hp & Hn). exists n. split; [by apply (plain_mono _ n); [lia|]|lia]. Qed.

(** What Build_document makes, with the parts it is made of. *)
Lemma Build_document_parts o d : Build_document o = Ok d → (∀ l, o_Link o = Some l → link_plain l) →
  let o' := normalise o in
  options_ok o' ∧ ∃ l proxy hosts k, o_Link o = Some l ∧ d = assemble o' (build_outbounds o' proxy) (build_rules o') hosts ∧
    plain (S (S (S k))) proxy ∧ Z.of_nat (S (S (S k))) ≤ maxNestingDepth - 2 ∧ dec (struct_codec tag_fields false) proxy ""%string = Some TagProxy ∧
    let raw := stripNulls (marshal_outbound (claim_outbound (l_outbound l))) in
    match hosts with
    | None => proxy = raw ∧ (serverNameOf o' = ""%string ∨ o_PinnedServer o = [])
    | Some (key, addrs) => key = ("full:" ++ serverNameOf o')%string ∧ serverNameOf o' ≠ ""%string ∧
        pin_go (dns_Strategy (o_DNS o')) (o_PinnedServer o) [] [] false = Ok (addrs, true) ∧
        ∃ m m', raw = JObj m ∧ proxy = JObj m' ∧ forced_dial m m'
    end.
Proof.
  unfold Build_document. destruct (o_Link o) as [l|] eqn:El; [|done]. cbv zeta. set (o' := normalise o). intros E Hlp.
  destruct (check o') eqn:Ec; [done|]. apply check_exact in Ec. split; [done|]. destruct (proxyOutbound l) as [ob|] eqn:Ep; [|done].
  destruct (link_plain_deep l (Hlp l eq_refl)) as (k & Hk & Hn). destruct (proxyOutbound_reads _ l ob Hk Hn Ep) as [Eob Et].
  set (raw := stripNulls (marshal_outbound (claim_outbound (l_outbound l)))) in *.
  assert (plain (S (S (S k))) raw) as Hr by (by apply stripNulls_plain). subst ob. unfold pinServerName in E.
  assert (o_PinnedServer o' = o_PinnedServer o) as Epin by done.
  destruct (String.eqb_spec (serverNameOf o') "") as [Es|Es]; cbn [orb] in E.
  - exists l, raw, None, k. split_and!; try done; [congruence|by left].
  - destruct (Nat.eqb_spec (List.length (o_PinnedServer o')) 0) as [El0|El0].
    + exists l, raw, None, k. split_and!; try done; [congruence|]. right. rewrite <- Epin. by apply length_zero_iff_nil.
    + destruct (pin_go _ _ _ _ _) as [[addrs [|]]|] eqn:Eg; try done. destruct (forceIPDial raw) as [forced|] eqn:Ef; [|done].
      destruct (forceIPDial_spec k raw forced (stripNulls_clean _) Hr Ef) as (m & m' & E1 & E2 & Hfd & Hpf & Etf).
      exists l, forced, (Some (("full:" ++ serverNameOf o')%string, addrs)), k. split_and!; try done; [congruence|by rewrite Etf|]. by exists m, m'.
Qed.

Lemma Unmarshal_document d n : plain n (document_json d) → Z.of_nat n ≤ maxNestingDepth → Unmarshal (document_text d) = Some (document_json d).
Proof.
  intros Hp Hn. unfold Unmarshal, document_text. destruct indented_blank as [H1 H2]. by rewrite (print_parses true indented H1 H2 _ n ["010"%char]).
Qed.

Lemma inbounds_plain (o : Options R) k outbounds rules hosts : options_ok o → texts_valid o →
  Forall (λ i, plain (S (S (S k))) (inbound_json i)) (doc_Inbounds (assemble o outbounds rules hosts)).
Proof.
  intros [Hl Ht Hs Hld Hst [Hne Hres]] [V1 V2 V3 V4 V5 V6]. simpl. apply Forall_app_2.
  - destruct (tun_Disabled (o_TUN o)) eqn:Ed; [constructor|]. apply Forall_singleton, tun_plain. by apply interface_name_valid, Ht.
  - apply Forall_cons_2; [by apply socks_plain|]. destruct (ldns_Enabled (o_LocalDNS o)); [|constructor]. apply Forall_singleton, dokodemo_plain; [done|]. simpl.
    destruct (Servers (o_DNS o)); [done|]. by inversion V3.
Qed.

Lemma assemble_plain (o : Options R) proxy hosts k : options_ok o → texts_valid o → subnet_known (tun_Subnet (o_TUN o)) → plain (S (S (S k))) proxy →
  (∀ key addrs, hosts = Some (key, addrs) → ValidString key = true ∧ Forall (λ s, ValidString s = true) addrs) →
  plain (S (S (S (S (S k))))) (document_json (assemble o (build_outbounds o proxy) (build_rules o) hosts)).
Proof.
  intros Hok Hv Hsub Hp Hh. pose proof (inbounds_plain o k (build_outbounds o proxy) (build_rules o) hosts Hok Hv).
  destruct Hok as [Hl _ _ _ Hst _], Hv as [_ _ V3 V4 _ _]. apply document_plain; try done; simpl.
  - by apply log_valid.
  - by apply strategy_valid.
  - repeat apply Forall_cons_2; [done| |apply blackhole_plain|].
    + apply freedom_plain; [done|]. unfold direct. simpl. by destruct (_ =? _)%string.
    + apply Forall_app_2; [destruct (_ =? _)%string; [constructor|by apply Forall_singleton, freedom_plain]|].
      destruct (_ || _); [apply Forall_singleton, dnsOut_plain|constructor].
  - by apply rules_plain.
Qed.

(** The text of a built document reads back. *)
Lemma Build_reads (o : Options R) text : Build o = Ok text → (∀ l, o_Link o = Some l → link_plain l) → texts_valid o → subnet_known (tun_Subnet (o_TUN o)) →
  ∃ d, Build_document o = Ok d ∧ Unmarshal text = Some (document_json d).
Proof.
  unfold Build. destruct (Build_document o) as [d|] eqn:E; [|done]. intros [= <-] Hlp Hv Hs. exists d. split; [done|].
  destruct (Build_document_parts o d E Hlp) as (Hok & l & proxy & hosts & k & El & -> & Hp & Hn & Ht & Hh).
  apply (Unmarshal_document _ (S (S (S (S (S k)))))); [|lia]. pose proof (normalise_texts o Hv) as Hv'. apply assemble_plain; [done|done|done|done|].
  intros key addrs ->. destruct Hh as (-> & _ & Hg & _). split; [apply valid_append; [repeat constructor; vm_compute; lia|apply Hv']|].
  eapply pin_go_texts; [|by apply Forall_nil_2|exact Hg]. apply Hv.
Qed.

(** ** Routes *)

Lemma freedom_tag f : dec (struct_codec tag_fields false) (freedom_json f) ""%string = Some (fo_Tag f).
Proof. unfold freedom_json. destruct (fo_Interface f); exact (f_equal Some (of_to_l (fo_Tag f))). Qed.

Lemma outbound_tags o proxy rules hosts : dec (struct_codec tag_fields false) proxy ""%string = Some TagProxy →
  read_tags (document_json (assemble (R := R) o (build_outbounds o proxy) rules hosts)) =
    ([TagProxy; TagDirect; TagBlock] ++ (if (o_Interface o =? "")%string then [] else [TagDirectLocal]) ++
     (if Intercept (o_DNS o) || ldns_Enabled (o_LocalDNS o) then [TagDNSOut] else []))%list.
Proof.
  intros Hp. unfold read_tags. rewrite read_outbounds_json. unfold build_outbounds, assemble. cbn [doc_Outbounds app fmap list_fmap outbound_json].
  cbn [omap list_omap]. rewrite Hp, freedom_tag. cbn [fo_Tag direct]. do 3 f_equal.
  destruct (o_Interface o =? "")%string, (Intercept (o_DNS o) || ldns_Enabled (o_LocalDNS o)); reflexivity.
Qed.

Section Routes.
Context {Rt : Router} {Rd : RouterDocumented}.

Lemma destination_listed (o : Options R) c : destination o c ∈
  ([TagProxy; TagDirect; TagBlock] ++ (if (o_Interface o =? "")%string then [] else [TagDirectLocal]) ++
   (if Intercept (o_DNS o) || ldns_Enabled (o_LocalDNS o) then [TagDNSOut] else []))%list.
Proof.
  unfold destination, destination_stated. destruct (absent (c_network c)), (ldns_Enabled (o_LocalDNS o)) eqn:E1, (Intercept (o_DNS o)) eqn:E2, (o_Interface o =? "")%string eqn:E3;
    cbn [negb andb orb]; repeat case_match; set_solver.
Qed.

Lemma document_tags o d : Build_document o = Ok d → (∀ l, o_Link o = Some l → link_plain l) → subnet_known (tun_Subnet (o_TUN o)) →
  let j := document_json d in
  head (read_tags j) = Some TagProxy ∧
  ∀ c, conn_ok c → route (read_rules j) c = Some (destination o c) ∧ destination o c ∈ read_tags j.
Proof.
  intros Hd Hlp Hs j. destruct (Build_document_parts o d Hd Hlp) as (Hok & l & proxy & hosts & k & El & -> & _ & _ & Ht & _). subst j.
  rewrite outbound_tags by done. split; [done|]. intros c Hc. rewrite read_rules_json. cbn [doc_Rules assemble]. split.
  - exact (route_build (normalise o) c Hs Hc).
  - exact (destination_listed (normalise o) c).
Qed.

(** C12. For a link whose outbound can be printed and read, texts that are valid
    UTF-8 and a tunnel subnet that is IPv4 or unknown, and for any router that keeps
    to what the program documents of it, the text Build returns reads back as a
    document whose rules send every connection where they should. TCP, and UDP if
    rules that state no network take it: a query on the local DNS listener to the
    resolver, the resolver's own queries into the tunnel, port 53 to the resolver
    when it is intercepted, loopback out unbound when the direct outbound is bound,
    the tunnel's own subnet and multicast nowhere, private addresses direct and all
    else into the tunnel. UDP otherwise: port 53 to the resolver when it is
    intercepted and all else into the tunnel. The outbound named is one the document
    has, and the first one, which takes what no rule matches, is the tunnel. *)
Theorem document_routes (o : Options R) text : Build o = Ok text → (∀ l, o_Link o = Some l → link_plain l) → texts_valid o →
  subnet_known (tun_Subnet (o_TUN o)) →
  ∃ j, Unmarshal text = Some j ∧ head (read_tags j) = Some TagProxy ∧
    ∀ c, conn_ok c → route (read_rules j) c = Some (destination o c) ∧ destination o c ∈ read_tags j.
Proof.
  intros Hb Hlp Hv Hs. destruct (Build_reads o text Hb Hlp Hv Hs) as (d & Hd & Hj). exists (document_json d). split; [done|].
  exact (document_tags o d Hd Hlp Hs).
Qed.

End Routes.

(** ** Listeners and resolvers *)

(** Where an inbound listens, whatever it is written as. *)
Definition bound_at (l : string * Z) : option (Addr * Z) := (λ a, (Unmap a, snd l)) <$> ParseAddr (fst l).

Lemma Atoi_port z : 0 ≤ z < 65536 → Atoi (of_l (to_l (Itoa z))) = Some z.
Proof. intros Hz. rewrite of_to_l. apply Atoi_Itoa. lia. Qed.

(** Ports are 16-bit. *)
Definition ports_ok (o : Options R) : Prop := 0 ≤ socks_Port (o_SOCKS o) < 65536 ∧ 0 ≤ ldns_Port (o_LocalDNS o) < 65536.

Lemma listeners_exact o outbounds rules hosts : ports_ok o →
  read_listeners (document_json (assemble o outbounds rules hosts)) =
    (socks_Listen (o_SOCKS o), socks_Port (o_SOCKS o)) ::
    (if ldns_Enabled (o_LocalDNS o) then [(ldns_Listen (o_LocalDNS o), ldns_Port (o_LocalDNS o))] else []).
Proof.
  intros [H1 H2].
  assert (∀ s, 0 ≤ si_Port s < 65536 → read_listener (socks_json s) = Some (si_Listen s, si_Port s)) as Hso.
  { intros s Hs. change (read_listener (socks_json s)) with (Some (of_l (to_l (si_Listen s)), default 0 (Atoi (of_l (to_l (Itoa (si_Port s))))))).
    by rewrite Atoi_port, of_to_l by done. }
  assert (∀ s, 0 ≤ di_Port s < 65536 → read_listener (dokodemo_json s) = Some (di_Listen s, di_Port s)) as Hdo.
  { intros s Hs. change (read_listener (dokodemo_json s)) with (Some (of_l (to_l (di_Listen s)), default 0 (Atoi (of_l (to_l (Itoa (di_Port s))))))).
    by rewrite Atoi_port, of_to_l by done. }
  assert (∀ t, read_listener (tun_json t) = None) as Htu by done.
  unfold read_listeners. change (elements (member_at "inbounds" (document_json ?d))) with (inbound_json <$> doc_Inbounds d).
  unfold assemble. cbn [doc_Inbounds].
  destruct (tun_Disabled (o_TUN o)), (ldns_Enabled (o_LocalDNS o)); cbn [app fmap list_fmap inbound_json omap list_omap];
    rewrite ?Htu, Hso, ?Hdo by done; done.
Qed.

Lemma normalise_ports o : ports_ok o → ports_ok (normalise o).
Proof. intros [H1 H2]. unfold ports_ok, normalise, or_num. simpl. unfold DefaultSocksPort, DefaultLocalDNSPort. split; case_match; lia. Qed.


(** ** The server's name *)

(** An address the resolver may answer with. *)
Definition usable_addr (strategy : string) (a : Addr) : bool :=
  (Is4 a && negb (strategy =? QueryUseIPv6)%string) || (Is6 a && negb (strategy =? QueryUseIPv4)%string).

Lemma pin_go_spec strategy l : ∀ seen addrs usable r b, pin_go strategy l seen addrs usable = Ok (r, b) →
  Forall (λ a, addr_valid a = true) l ∧
  (∀ s, s ∈ r ↔ s ∈ addrs ∨ ∃ a, a ∈ l ∧ (Unmap a ∉ seen) ∧ s = addr_String (Unmap a)) ∧
  (b = true ↔ usable = true ∨ ∃ a, a ∈ l ∧ (Unmap a ∉ seen) ∧ usable_addr strategy (Unmap a) = true).
Proof.
  induction l as [|a l IH]; intros seen addrs usable r b; cbn [pin_go].
  - intros E. assert (r = addrs ∧ b = usable) as [-> ->] by (split; congruence). split_and!; [constructor|set_solver|set_solver].
  - destruct (addr_valid a) eqn:Ev; cbn [negb]; [|done]. destruct (bool_decide_reflect (Unmap a ∈ seen)) as [Hin|Hin]; intros E.
    + destruct (IH _ _ _ _ _ E) as (H1 & H2 & H3). split_and!; [by constructor|..].
      * intros s. rewrite H2. setoid_rewrite elem_of_cons. split.
        -- intros [?|(x & Hx & Hn & Hu)]; [by left|right; exists x; auto].
        -- intros [?|(x & Hx & Hn & Hu)]; [by left|]. destruct Hx as [Ex|Hx]; [by rewrite Ex in Hn|right; exists x; auto].
      * rewrite H3. setoid_rewrite elem_of_cons. split.
        -- intros [?|(x & Hx & Hn & Hu)]; [by left|right; exists x; auto].
        -- intros [?|(x & Hx & Hn & Hu)]; [by left|]. destruct Hx as [Ex|Hx]; [by rewrite Ex in Hn|right; exists x; auto].
    + destruct (IH _ _ _ _ _ E) as (H1 & H2 & H3). split_and!; [by constructor|..].
      * intros s. rewrite H2, elem_of_app, list_elem_of_singleton. setoid_rewrite elem_of_cons. split.
        -- intros [[?| -> ]|(x & Hx & Hn & ->)]; [by left|right; exists a; auto|right; exists x; split_and!; [by right|set_solver|done]].
        -- intros [?|(x & [->|Hx] & Hn & ->)]; [left; by left|left; by right|]. destruct (decide (Unmap x = Unmap a)) as [Ex|]; [left; right; by rewrite Ex|].
           right. exists x. split_and!; [done|set_solver|done].
      * rewrite H3. setoid_rewrite elem_of_cons. rewrite <- orb_assoc. fold (usable_addr strategy (Unmap a)). rewrite orb_true_iff. split.
        -- intros [[?|Hu]|(x & Hx & Hn & Hu)]; [by left|right; exists a; auto|right; exists x; split_and!; [by right|set_solver|done]].
        -- intros [?|(x & [->|Hx] & Hn & Hu)]; [left; by left|left; by right|]. destruct (decide (Unmap x = Unmap a)) as [Ex|]; [left; right; by rewrite <- Ex|].
           right. exists x. split_and!; [done|set_solver|done].
Qed.

(** The addresses a document gives for a name. *)
Definition hosts_for (name : string) (j : json) : list string :=
  read_texts (d ← member_at "dns" j; h ← member_at "hosts" d; member_at ("full:" ++ name)%string h).

Lemma hosts_exact o outbounds rules name addrs : hosts_for name (document_json (assemble (R := R) o outbounds rules (Some (("full:" ++ name)%string, addrs)))) = addrs.
Proof.
  unfold hosts_for. set (doc := assemble o outbounds rules _).
  transitivity (read_texts (member_at ("full:" ++ name)%string (jobj [(("full:" ++ name)%string, jstrs addrs)]))); [reflexivity|].
  cbn [member_at jobj fmap list_fmap fst snd lookup_member]. rewrite bool_decide_true by done. apply read_texts_strs.
Qed.

(** When the link names its server by a domain and addresses were pinned for it,
    the document gives exactly those addresses for the name, at least one of them
    in a family the resolver answers with, and the tunnel's dial may use nothing
    else: its domainStrategy is ForceIP and the rest of the outbound is what the
    link made it. Otherwise the outbound is the link's own. *)
Theorem server_name_pinned (o : Options R) text l : Build o = Ok text → o_Link o = Some l → link_plain l → texts_valid o →
  subnet_known (tun_Subnet (o_TUN o)) →
  let raw := stripNulls (marshal_outbound (claim_outbound (l_outbound l))) in
  ∃ j ob, Unmarshal text = Some j ∧ head (read_outbounds j) = Some ob ∧
    if bool_decide (serverNameOf o = ""%string ∨ o_PinnedServer o = []) then ob = raw
    else
      (∀ s, s ∈ hosts_for (serverNameOf o) j ↔ ∃ a, a ∈ o_PinnedServer o ∧ s = addr_String (Unmap a)) ∧
      (∃ a, a ∈ o_PinnedServer o ∧ usable_addr (dns_Strategy (o_DNS (normalise o))) (Unmap a) = true) ∧
      ∃ m m', raw = JObj m ∧ ob = JObj m' ∧ forced_dial m m'.
Proof.
  intros Hb El Hlp Hv Hs raw. assert (∀ l, o_Link o = Some l → link_plain l) as Hlps by (intros l' E; congruence).
  destruct (Build_reads o text Hb Hlps Hv Hs) as (d & Hd & Hj).
  destruct (Build_document_parts o d Hd Hlps) as (Hok & l' & proxy & hosts & k & El' & -> & _ & _ & _ & Hh). assert (l' = l) as -> by congruence.
  eexists _, proxy. split; [exact Hj|]. split; [done|]. change (serverNameOf (normalise o)) with (serverNameOf o) in Hh. fold raw in Hh.
  destruct hosts as [[key addrs]|]; [|destruct Hh as [-> Hn]; by rewrite bool_decide_true].
  destruct Hh as (-> & Hn & Hg & Hm). destruct (pin_go_spec _ _ _ _ _ _ _ Hg) as (_ & H1 & H2).
  rewrite bool_decide_false.
  - split_and!; [|..|done].
    + intros s. rewrite hosts_exact, H1. set_solver.
    + destruct (proj1 H2 eq_refl) as [?|(a & Ha & _ & Hu)]; [done|]. by exists a.
  - intros [?|E]; [done|]. rewrite E in Hg. discriminate Hg.
Qed.

(** ** Failing closed *)

(** The document for when there is no tunnel has one outbound, the blackhole, and
    sends every connection there. *)
Theorem fail_closed_blocks {Rt : Router} {Rd : RouterDocumented} (o : Options R) text : BuildFailClosed o = Ok text → texts_valid o →
  ∃ j, Unmarshal text = Some j ∧ read_outbounds j = [blackhole_json] ∧ read_tags j = [TagBlock] ∧ ∀ c, route (read_rules j) c = Some TagBlock.
Proof.
  unfold BuildFailClosed, BuildFailClosed_document. cbv zeta. destruct (check (normalise o)) eqn:Ec; [done|]. intros E Hv.
  apply check_exact in Ec. set (d := assemble (normalise o) [OutBlackhole] [MkRule ruleTagReject [] [] "" "tcp,udp" TagBlock] None) in *.
  assert (text = document_text d) as -> by congruence. exists (document_json d). split_and!.
  - apply (Unmarshal_document _ 5); [|vm_compute; discriminate].
    pose proof (normalise_texts o Hv) as Hvn. pose proof (inbounds_plain (normalise o) 0 [OutBlackhole] [MkRule ruleTagReject [] [] "" "tcp,udp" TagBlock] None Ec Hvn).
    destruct Ec as [Hl _ _ _ Hst _]. destruct Hvn as [_ _ V3 _ _ _]. apply document_plain; try done; simpl.
    + by apply log_valid.
    + by apply strategy_valid.
    + by apply Forall_singleton, blackhole_plain.
    + apply Forall_singleton, rule_plain; by repeat constructor.
  - done.
  - done.
  - intros c. rewrite read_rules_json. cbn [doc_Rules d assemble]. by rewrite route_one, by_anything.
Qed.
End Text.
