(* ===== verification/Diag.v ===== *)
(** * The service's own log lines (privsvc/diag.go, service.go)

    The ring of lines the privileged service keeps for the advanced view, what it
    writes there when a step fails, and EngineLog, which merges that ring with the
    engine's. The ring is the algorithm of engine/logring.go, with its own
    capacity. A line is shown never to hold the address of the user's server. *)

From S2P Require Import Prelude GoStrings Netip Text Subnet Json JsonFacts Command Apply Regex Redact.
From S2P Require Import LogRing.

Local Open Scope Z_scope.

(** ** diag.go *)

Definition diagCapacity : Z := 64.

Definition newDiagRing (capacity : Z) : LogRing :=
  let capacity := if capacity <=? 0 then diagCapacity else capacity in
  mkRing (replicate (Z.to_nat capacity) noEntry) 0 false 0.

(** add, with the clock read: [None] inside is the nil ring, outside a panic. *)
Definition add (r : option LogRing) (now : Z) (text : string) : option (option LogRing) :=
  match r with
  | None => Some None
  | Some r => Some <$> add_entry r (mkEntry now (Redact text))
  end.

Definition entries (r : option LogRing) : list LogEntry :=
  match r with
  | None => []
  | Some r => (if filled r then drop (next r) (buf r) else []) ++ take (next r) (buf r)
  end.

Definition droppedCount (r : option LogRing) : Z := match r with None => 0 | Some r => dropped r end.

Definition hide_server (text : bytes) (a : Addr) : bytes :=
  if negb (addr_valid a) then text else replace_all (lit (addr_String a)) (lit "[server]") 0 text.

Definition redactedText (text : string) (servers : list Addr) : string :=
  Redact (String.string_of_list_ascii (foldl hide_server (lit text) servers)).

(** Command.String *)
Definition arg_text (a : string) : string :=
  if (a =? "")%string || existsb (λ c, existsb (Ascii.eqb c) [" "%char; "009"%char; dquote; "'"%char]) (lit a)
  then Quote a else a.
Definition Command_String (c : Command) : string :=
  if IsZero c then "(none)"
  else (foldl (λ b a, b ++ " " ++ arg_text a) (Path c) (Args c) ++
        (if Stdin c =? "" then "" else " <<(" ++ Itoa (Z.of_nat (String.length (Stdin c))) ++ " bytes on stdin)"))%string.

Definition redactedCommand (c : Command) (servers : list Addr) : string := redactedText (Command_String c) servers.

(** ** service.go: what is added, [None] when nothing is *)

Definition recordFailure (what detail : string) (err : option string) : option string :=
  let detail := match err with
                | Some e => ((if detail =? "" then detail else detail ++ ": ") ++ e)%string
                | None => detail
                end in
  if (detail =? "")%string then None else Some (what ++ ": " ++ redactedText detail [])%string.

Definition recordStepFailure (where_ : string) (servers : list Addr) (rep : Report) (err : string) : string :=
  match FailedStep rep with
  | None => (where_ ++ " failed and the report does not say which step")%string
  | Some step =>
      (Op step ++ " failed: " ++ redactedCommand (Do step) servers ++ " (" ++ redactedText err servers ++ ")")%string
  end.

(** readback.go *)
Definition reportReadback (what : string) (servers : list Addr) (err : string) : string :=
  (what ++ ": " ++ redactedText err servers)%string.

(** sort.SliceStable by time: an entry goes before the first that is not earlier. *)
Fixpoint insert_entry (e : LogEntry) (l : list LogEntry) : list LogEntry :=
  match l with
  | [] => [e]
  | x :: l' => if At x <? At e then x :: insert_entry e l' else e :: l
  end.
Definition sort_entries (l : list LogEntry) : list LogEntry := foldr insert_entry [] l.

(** Service.EngineLog: the lines and how many were lost *)
Definition EngineLog (engine_lines : list LogEntry) (engine_dropped : Z) (diag : option LogRing) : list LogEntry * Z :=
  (sort_entries (engine_lines ++ entries diag), u64 (engine_dropped + droppedCount diag)).

(** ** Texts that are not there *)

Definition factor (w s : bytes) : Prop := ∃ p q, s = p ++ w ++ q.
Definition absent (a s : bytes) : Prop := ¬ factor a s.

Lemma factor_trans u v w : factor u v → factor v w → factor u w.
Proof. intros (p & q & ->) (p' & q' & ->). exists (p' ++ p), (q ++ q'). by rewrite <- !app_assoc. Qed.
Lemma absent_factor a u v : factor u v → absent a v → absent a u.
Proof. intros Hf Ha Hu. apply Ha. by eapply factor_trans. Qed.
Lemma factor_left u v : factor u (u ++ v).
Proof. by exists [], v. Qed.
Lemma factor_right u v : factor v (u ++ v).
Proof. exists u, []. by rewrite app_nil_r. Qed.
Lemma factor_chars c a s : factor a s → c ∈ a → c ∈ s.
Proof. intros (p & q & ->) Hc. set_solver. Qed.

(** A byte that [a] does not have keeps apart what is on its two sides. *)
Lemma absent_cut a x c y : a ≠ [] → c ∉ a → absent a x → absent a y → absent a (x ++ c :: y).
Proof.
  intros Hne Hc Hx Hy (p & q & E). apply app_eq_inv in E as [(k & -> & E)|(k & -> & E)].
  - apply app_eq_inv in E as [(k' & -> & E)|(k' & -> & _)]; [|apply Hx; by exists p, k'].
    destruct k' as [|c' k']; [apply Hx; exists p, []; by rewrite !app_nil_r|]. injection E as <- _. set_solver.
  - destruct k as [|c' k]; [|injection E as _ ->; apply Hy; by exists k, q].
    destruct a as [|c' a]; [done|]. injection E as <- _. set_solver.
Qed.

Lemma absent_nil a : a ≠ [] → absent a [].
Proof. intros Hne (p & q & E). destruct p, a; done. Qed.

(** So does a text that starts and ends with such bytes and does not have [a]. *)
Definition partition (a m : bytes) : Prop :=
  (∃ b, m = [b] ∧ (b ∉ a)) ∨ ∃ b m' e, m = b :: (m' ++ [e]) ∧ (b ∉ a) ∧ (e ∉ a) ∧ absent a m'.

Lemma absent_around a x m y : a ≠ [] → partition a m → absent a x → absent a y → absent a (x ++ m ++ y).
Proof.
  intros Hne [(b & -> & Hb)|(b & m' & e & -> & Hb & He & Hm)] Hx Hy; [by apply absent_cut|]. simpl. apply absent_cut; [done..|]. rewrite <- app_assoc. by apply absent_cut.
Qed.
Lemma absent_after a x m : a ≠ [] → partition a m → absent a x → absent a (x ++ m).
Proof. intros. rewrite <- (app_nil_r m). apply absent_around; auto using absent_nil. Qed.

(** Replacing texts by partitions. *)
Lemma replace_all_absent a old new s : a ≠ [] → partition a new → ∀ skip pre,
  absent a (pre ++ s) → absent a ((if decide (skip = 0)%nat then pre else []) ++ replace_all old new skip s).
Proof.
  intros Hne Hp. induction s as [|c s IH]; intros skip pre Ha; cbn [replace_all].
  - rewrite app_nil_r in *. case_decide; [done|by apply absent_nil].
  - assert (absent a s) as Hs by (eapply absent_factor; [|exact Ha]; exists (pre ++ [c]), []; by rewrite app_nil_r, <- app_assoc).
    destruct skip as [|k].
    + rewrite decide_True by done. destruct (decide (old `prefix_of` c :: s)).
      * apply absent_around; [done..|eapply absent_factor; [apply factor_left|exact Ha]|].
        specialize (IH (List.length old - 1)%nat []). simpl in IH. by destruct (decide _); apply IH.
      * specialize (IH 0%nat (pre ++ [c])). rewrite decide_True in IH by done. rewrite <- !app_assoc in IH. by apply IH.
    + rewrite decide_False by done. specialize (IH k []). simpl in IH. by destruct (decide _); apply IH.
Qed.

Lemma replace_go_absent a r f s : a ≠ [] → (∀ v, partition a (f v)) → ∀ skip pv pre,
  absent a (pre ++ s) → absent a ((if decide (skip = 0)%nat then pre else []) ++ replace_go r f skip pv s).
Proof.
  intros Hne Hp. induction s as [|c s IH]; intros skip pv pre Ha; cbn [replace_go].
  - rewrite app_nil_r in *. case_decide; [done|by apply absent_nil].
  - assert (absent a s) as Hs by (eapply absent_factor; [|exact Ha]; exists (pre ++ [c]), []; by rewrite app_nil_r, <- app_assoc).
    destruct skip as [|k].
    + rewrite decide_True by done. destruct (match_here r pv (c :: s)) as [[caps rest]|].
      * apply absent_around; [done..|eapply absent_factor; [apply factor_left|exact Ha]|].
        specialize (IH (List.length (c :: s) - List.length rest - 1)%nat (Some c) []). simpl app in IH. by destruct (decide _); apply IH.
      * specialize (IH 0%nat (Some c) (pre ++ [c])). rewrite decide_True in IH by done. rewrite <- !app_assoc in IH. by apply IH.
    + rewrite decide_False by done. specialize (IH k (Some c) []). simpl in IH. by destruct (decide _); apply IH.
Qed.

(** The pieces of a text are texts in it. *)
Lemma split_factor sep s : ∀ skip w, w ∈ split_go sep skip s → factor w s.
Proof.
  assert (∀ c u v, factor u v → factor u (c :: v)) as Hcons by (intros c u v (p & q & ->); by exists (c :: p), q).
  assert (∀ skip, ∃ w ws, split_go sep skip s = w :: ws ∧ (skip = 0%nat → w `prefix_of` s) ∧ ∀ u, u ∈ w :: ws → factor u s) as H.
  { induction s as [|c s IH]; intros skip; cbn [split_go].
    - exists [], []. split_and!; [done|done|]. intros u ->%list_elem_of_singleton. by exists [], [].
    - destruct skip as [|k].
      + destruct (decide (sep `prefix_of` c :: s)).
        * destruct (IH (List.length sep - 1)%nat) as (w & ws & -> & _ & Hw). exists [], (w :: ws).
          split_and!; [done|intros; apply prefix_nil|]. intros u [->|Hu]%elem_of_cons; [by exists [], (c :: s)|auto].
        * destruct (IH 0%nat) as (w & ws & -> & Hp & Hw). exists (c :: w), ws. split_and!; [done|intros; by apply prefix_cons, Hp|].
          intros u [->|Hu]%elem_of_cons; [|apply Hcons, Hw; by right]. destruct (Hp eq_refl) as [q ->]. by exists [], q.
      + destruct (IH k) as (w & ws & -> & _ & Hw). exists w, ws. split_and!; [done|done|]. auto. }
  intros skip w. destruct (H skip) as (w' & ws & -> & _ & Hw). apply Hw.
Qed.

Lemma join_absent a sep l : a ≠ [] → partition a sep → Forall (absent a) l → absent a (JoinWith sep l).
Proof.
  intros Hne Hp Hl. induction Hl as [|w [|w' l] Hw Hl IH]; [by apply absent_nil|done|]. cbn [JoinWith] in *. by apply absent_around.
Qed.
Lemma pieces_absent a sep (f : bytes → bytes) s : a ≠ [] → partition a sep → (∀ w, absent a w → absent a (f w)) →
  absent a s → absent a (JoinWith sep (f <$> SplitOn s sep)).
Proof.
  intros Hne Hp Hf Hs. apply join_absent; [done..|]. apply Forall_fmap, Forall_forall. intros w Hw. apply Hf.
  eapply absent_factor; [by eapply split_factor|exact Hs].
Qed.

(** ** The address of a server *)

Definition address_char (c : ascii) : bool := hexc c || Ascii.eqb c "." || Ascii.eqb c ":".
Definition colons (s : bytes) : nat := List.length (List.filter (Ascii.eqb ":") s).

(** What the text of an address without a zone looks like. *)
Record server_text (a : bytes) : Prop := {
  st_chars c : c ∈ a → address_char c = true;
  st_shape : "."%char ∈ a ∨ (2 ≤ colons a)%nat
}.

Lemma colons_app x y : colons (x ++ y) = (colons x + colons y)%nat.
Proof. unfold colons. by rewrite List.filter_app, length_app. Qed.

Lemma Itoa_digit z c : 0 ≤ z → c ∈ lit (Itoa z) → is_digit c = true.
Proof.
  intros Hz. destruct (Itoa_nonneg z Hz) as (d & ds & E & HF & _). change lit with to_l. rewrite E. intros Hc. rewrite Forall_forall in HF. auto.
Qed.

Section Server.
Context (a : bytes) (Ha : server_text a).

Lemma server_ne : a ≠ [].
Proof. intros ->. destruct (st_shape _ Ha) as [H|H]; [set_solver|cbn in H; lia]. Qed.
Lemma server_not c : address_char c = false → c ∉ a.
Proof. intros Hc Hin. apply (st_chars _ Ha) in Hin. congruence. Qed.
(** A text with no dot and at most one colon has no address in it. *)
Lemma server_absent s : "."%char ∉ s → (colons s < 2)%nat → absent a s.
Proof.
  intros Hd Hc Hf. destruct (st_shape _ Ha) as [H|H]; [by apply Hd, (factor_chars _ a)|]. destruct Hf as (p & q & ->). rewrite !colons_app in Hc. lia.
Qed.
(** Literals are checked by evaluation. *)
Definition splits (m : bytes) : bool :=
  match m with
  | [] => false
  | [b] => negb (address_char b)
  | b :: m' => negb (address_char b) && negb (address_char (List.last m' b)) &&
      forallb (λ c, negb (Ascii.eqb "." c)) m' && (colons m' <? 2)%nat
  end.
Lemma splits_partition m : splits m = true → partition a m.
Proof.
  destruct m as [|b [|e m]]; [done|intros Hb%negb_true_iff; left; exists b; by auto using server_not|].
  unfold splits. intros H. apply andb_true_iff in H as [[[Hb He]%andb_true_iff Hd]%andb_true_iff Hc]. right.
  destruct (@exists_last _ (e :: m) ltac:(done)) as (m' & e' & Em). rewrite Em in *. exists b, m', e'. rewrite List.last_last in He.
  apply negb_true_iff in Hb, He. rewrite forallb_forall in Hd. apply Nat.ltb_lt in Hc.
  split_and!; [done|by apply server_not..|]. apply server_absent; [|rewrite colons_app in Hc; lia].
  intros Hin. specialize (Hd "."%char ltac:(apply in_or_app; left; by apply list_elem_of_In)). done.
Qed.

Lemma mask_partition v : partition a (mask v).
Proof.
  right. exists "["%char, (lit "redacted " ++ lit (Itoa (Z.of_nat (rune_count v))) ++ lit " chars"), "]"%char.
  split_and!; [|by apply server_not..|].
  - unfold mask, markerPrefix. cbn [app lit String.list_ascii_of_string]. rewrite <- !app_assoc. done.
  - assert (∀ c, c ∈ lit (Itoa (Z.of_nat (rune_count v))) → is_digit c = true) as Hd.
    { intros c. apply Itoa_digit. lia. }
    apply server_absent.
    + rewrite !elem_of_app. intros [H|[H|H]]; [|by apply Hd in H|]; apply list_elem_of_In in H; simpl in H; naive_solver.
    + rewrite !colons_app. change (colons (lit "redacted ")) with 0%nat. change (colons (lit " chars")) with 0%nat.
      assert (colons (lit (Itoa (Z.of_nat (rune_count v)))) = 0)%nat as ->; [|lia]. unfold colons.
      induction (lit _) as [|c l IH]; [done|]. cbn [List.filter]. destruct (Ascii.eqb_spec ":" c) as [<-|_]; [|by apply IH; intros; apply Hd; right].
      by specialize (Hd ":"%char ltac:(left)).
Qed.

(** Redaction adds no address. *)
Lemma redact_absent s : absent a s → absent a (redact_bytes s).
Proof.
  pose proof server_ne as Hne. pose proof mask_partition as Hm. intros Hs.
  assert (∀ r w, absent a w → absent a (replaceTail w r)) as Ht.
  { intros r w Hw. unfold replaceTail. destruct (find r None w) as [[[|v vs] rest]|]; [done| |done]. destruct (decide _); [done|].
    apply absent_after; [done..|]. eapply absent_factor; [|exact Hw]. eexists [], _. symmetry. apply take_drop. }
  assert (∀ r w, absent a w → absent a (replaceShape w r)) as Hr.
  { intros r w Hw. pose proof (replace_go_absent a r mask w Hne Hm 0 None [] Hw) as H. exact H. }
  assert (∀ w, absent a w → absent a (redactSegment w)) as Hg by (intros w Hw; unfold redactSegment; auto).
  unfold redact_bytes. destruct s as [|c s]; [done|].
  apply pieces_absent; [done|by apply splits_partition| |done]. intros w Hw. apply pieces_absent; [done|by apply splits_partition|done..].
Qed.
End Server.

Lemma server_marker a : server_text a → partition a (lit "[server]").
Proof. intros Ha. by apply splits_partition. Qed.

(** Replacing an address leaves it nowhere: where it started it was seen. *)
Lemma replace_all_self a new s : a ≠ [] → partition a new → ∀ skip pre,
  (∀ p k, pre = p ++ k → k ≠ [] → ¬ a `prefix_of` k ++ s) →
  absent a ((if decide (skip = 0)%nat then pre else []) ++ replace_all a new skip s).
Proof.
  intros Hne Hp.
  assert (∀ pre s, (∀ p k, pre = p ++ k → k ≠ [] → ¬ a `prefix_of` k ++ s) → absent a pre) as Hpre.
  { intros pre s' H (p & q & ->). apply (H p (a ++ q)); [done|by destruct a|]. rewrite <- app_assoc. by apply prefix_app_r. }
  induction s as [|c s IH]; intros skip pre H; cbn [replace_all].
  - rewrite app_nil_r. case_decide; [by eapply Hpre|by apply absent_nil].
  - assert (∀ k, absent a (replace_all a new k s)) as Hs.
    { intros k. specialize (IH k []). simpl in IH. destruct (decide _); apply IH; intros [|] [|]; done. }
    destruct skip as [|k]; [|apply Hs]. rewrite decide_True by done. destruct (decide (a `prefix_of` c :: s)) as [|Hn].
    + apply absent_around; [done..|by eapply Hpre|apply Hs].
    + specialize (IH 0%nat (pre ++ [c])). rewrite decide_True in IH by done. rewrite <- app_assoc in IH. apply IH.
      intros p k E Hk. destruct (@exists_last _ k Hk) as (k' & c' & ->). rewrite app_assoc in E. apply app_inj_tail in E as [-> ->].
      rewrite <- app_assoc. destruct (decide (k' = [])) as [->|Hk']; [exact Hn|]. by eapply H.
Qed.

Lemma hide_absent a text servers : server_text a → absent a text → absent a (foldl hide_server text servers).
Proof.
  intros Ha. revert text. induction servers as [|b servers IH]; intros text Ht; [done|]. simpl. apply IH. unfold hide_server.
  destruct (negb (addr_valid b)); [done|]. by apply (replace_all_absent a _ _ _ (server_ne a Ha) (server_marker a Ha) 0 []).
Qed.

(** An address of a server: valid, and without a zone. *)
Definition plain_addr (b : Addr) : Prop := addr_ok b ∧ addr_valid b = true ∧ hasZone b = false.

Lemma hidden b text servers : plain_addr b → b ∈ servers → server_text (lit (addr_String b)) →
  absent (lit (addr_String b)) (foldl hide_server text servers).
Proof.
  intros (_ & Hv & _) Hin Ha. revert text. induction servers as [|b' servers IH]; intros text; [set_solver|]. simpl.
  apply elem_of_cons in Hin as [<-|Hin]; [|by apply IH]. apply hide_absent; [done|]. unfold hide_server. rewrite Hv. simpl.
  apply (replace_all_self _ _ _ (server_ne _ Ha) (server_marker _ Ha) 0 []). intros [|] [|]; done.
Qed.

Lemma server_text_app x y : (∀ c, c ∈ x → address_char c = true) → (∀ c, c ∈ y → address_char c = true) →
  ∀ c, c ∈ x ++ y → address_char c = true.
Proof. set_solver. Qed.

Lemma Itoa_address z c : 0 ≤ z → c ∈ lit (Itoa z) → address_char c = true.
Proof.
  intros Hz HF%Itoa_digit; [|done]. clear -HF. destruct c as [[] [] [] [] [] [] [] []]; by vm_compute in HF |- *.
Qed.

Lemma lit_app x y : lit (x ++ y)%string = lit x ++ lit y.
Proof. induction x as [|c x IH]; [done|]. simpl. by rewrite IH. Qed.

Lemma dotted_text n : 0 ≤ n → server_text (lit (dotted n)).
Proof.
  intros Hn. unfold dotted. rewrite !lit_app. split; [|left; rewrite !elem_of_app; right; left; by left].
  assert (∀ c, c ∈ lit "." → address_char c = true) as Hd by (by intros c ->%list_elem_of_singleton).
  repeat apply server_text_app; try exact Hd; intros c; apply Itoa_address; rewrite ?Z.shiftr_div_pow2 by lia;
    first [apply Z.div_pos; lia|apply Z.mod_pos_bound; lia].
Qed.

Lemma hex_address x : address_char (hex_char (Z.to_nat (x mod 16))) = true.
Proof.
  assert (Z.to_nat (x mod 16) < 16)%nat as H by (pose proof (Z.mod_pos_bound x 16 ltac:(lia)); lia). revert H. generalize (Z.to_nat (x mod 16)).
  intros m Hm. do 16 (destruct m as [|m]; [done|]). lia.
Qed.

Lemma hex16_address x c : c ∈ lit (hex16 x) → address_char c = true.
Proof.
  unfold hex16. intros H. repeat case_match; rewrite ?lit_app in H; repeat (apply elem_of_app in H as [H|H]); apply list_elem_of_singleton in H as ->;
    apply hex_address.
Qed.

Lemma v6_address fuel n run : ∀ i c, c ∈ lit (v6_text fuel n run i) → address_char c = true.
Proof.
  induction fuel as [|fuel IH]; intros i c; [by intros H%elem_of_nil|]. cbn [v6_text]. destruct (8 <=? i)%nat; [by intros H%elem_of_nil|].
  assert (∀ s c, s = "::"%string ∨ s = ":"%string ∨ s = ""%string → c ∈ lit s → address_char c = true) as Hs.
  { intros s c' [->|[->| ->]]; intros H; apply list_elem_of_In in H; simpl in H; naive_solver. }
  assert (∀ j c, c ∈ lit (hex16 (v6u16 n j) ++ v6_text fuel n run (S j)) → address_char c = true) as Hf.
  { intros j c'. rewrite lit_app, elem_of_app. intros [H|H]; [by eapply hex16_address|by eapply IH]. }
  set (fld := λ j, (hex16 (v6u16 n j) ++ v6_text fuel n run (S j))%string) in *.
  assert (∀ s c, s = "::"%string ∨ s = ":"%string ∨ s = ""%string → ∀ t, (∀ c, c ∈ lit t → address_char c = true) →
    c ∈ lit (s ++ t)%string → address_char c = true) as Hst by (intros s c' Hsep t Ht; rewrite lit_app, elem_of_app; intros [H|H]; eauto).
  assert (c ∈ lit ((if (0 <? i)%nat then ":" else "") ++ fld i) → address_char c = true) as Hp
    by (apply Hst; [destruct (0 <? i)%nat; auto|apply Hf]).
  destruct run as [[a b]|]; [|exact Hp]. destruct (i =? a)%nat; [|exact Hp]. destruct (8 <=? b)%nat; [apply Hs; auto|].
  apply Hst; [auto|apply Hf].
Qed.

Lemma v6_colons n run : (2 ≤ colons (lit (v6_text 9 n run 0)))%nat.
Proof.
  assert (∀ x y, (colons (lit y) ≤ colons (lit (x ++ y)%string))%nat) as Hr by (intros x y; rewrite lit_app, colons_app; lia).
  assert (∀ y, colons (lit (":" ++ y)%string) = S (colons (lit y))) as H1 by done.
  assert (∀ f i, (0 < i < 8)%nat → (1 ≤ colons (lit (v6_text (S f) n run i)))%nat) as Hone.
  { intros f i Hi. cbn [v6_text]. rewrite (proj2 (Nat.leb_gt _ _)) by lia. rewrite (proj2 (Nat.ltb_lt _ _)) by lia.
    repeat case_match; rewrite ?lit_app, ?colons_app; cbn; lia. }
  assert (∀ f i, (0 < i < 7)%nat → (2 ≤ colons (lit (v6_text (S (S f)) n run i)))%nat) as Htwo.
  { intros f i Hi. remember (S f) as f'. cbn [v6_text]. rewrite (proj2 (Nat.leb_gt _ _)) by lia. rewrite (proj2 (Nat.ltb_lt _ _)) by lia.
    pose proof (Hone f (S i) ltac:(lia)) as H. rewrite <- Heqf' in H.
    repeat case_match; rewrite ?lit_app, ?colons_app; cbn; lia. }
  pose proof (Htwo 6%nat 1%nat ltac:(lia)) as H. set (f := 8%nat) in H |- *. change 9%nat with (S f). cbn [v6_text].
  change (8 <=? 0)%nat with false. change (0 <? 0)%nat with false. cbv iota.
  repeat case_match; rewrite ?lit_app, ?colons_app; cbn -[v6_text] in *; lia.
Qed.

(** The text of every address of a server is of that kind. *)
Lemma addr_text b : plain_addr b → server_text (lit (addr_String b)).
Proof.
  intros (Hok & Hv & Hz). destruct b as [|n|n z]; [done|by apply dotted_text, Hok|].
  cbn [hasZone] in Hz. cbn [addr_String]. destruct (z =? "")%string; [|done]. rewrite append_nil_r.
  destruct (Is4In6 (A6 n z)).
  - rewrite lit_app. destruct (dotted_text (n mod 2 ^ 32)) as [Hc _]; [apply Z.mod_pos_bound; lia|].
    split; [|right; rewrite colons_app; cbn; lia]. apply server_text_app; [|done].
    clear. intros c H. apply list_elem_of_In in H. simpl in H. repeat destruct H as [<-|H]; done.
  - split; [intros c; apply v6_address|right; apply v6_colons].
Qed.

(** ** What the ring is given *)

Lemma string_lit l : lit (String.string_of_list_ascii l) = l.
Proof. apply String.list_ascii_of_string_of_list_ascii. Qed.

Lemma redactedText_hides b text servers : plain_addr b → b ∈ servers →
  absent (lit (addr_String b)) (lit (redactedText text servers)).
Proof.
  intros Hb Hin. pose proof (addr_text b Hb) as Ha. unfold redactedText, Redact. rewrite !string_lit. apply redact_absent; [done|]. by apply hidden.
Qed.

Lemma Redact_hides a s : server_text a → absent a (lit s) → absent a (lit (Redact s)).
Proof. intros Ha Hs. unfold Redact. rewrite string_lit. by apply redact_absent. Qed.

(** The lines that quote a command or an error. *)
Inductive report :=
| AStep (where_ : string) (rep : Report) (err : string)
| AReadback (what err : string).
Definition line_of (servers : list Addr) (r : report) : string :=
  match r with
  | AStep where_ rep err => recordStepFailure where_ servers rep err
  | AReadback what err => reportReadback what servers err
  end.
(** What they say of their own: the headings and the name of the operation. *)
Definition own_words (r : report) : list string :=
  match r with
  | AStep where_ rep _ => where_ :: match FailedStep rep with Some step => [Op step] | None => [] end
  | AReadback what _ => [what ++ ":"]%string
  end.

Fixpoint keep_lines (r : option LogRing) (l : list (Z * string)) : option (option LogRing) :=
  match l with
  | [] => Some r
  | (now, text) :: l => r' ← add r now text; keep_lines r' l
  end.

Lemma line_hides b servers r : plain_addr b → b ∈ servers → (∀ w, w ∈ own_words r → absent (lit (addr_String b)) (lit w)) →
  absent (lit (addr_String b)) (lit (Redact (line_of servers r))).
Proof.
  intros Hb Hin Hw. pose proof (addr_text b Hb) as Ha. pose proof (server_ne _ Ha) as Hne. apply Redact_hides; [done|].
  assert (∀ m, splits (lit m) = true → partition (lit (addr_String b)) (lit m)) as Hs by (intros; by apply splits_partition).
  pose proof (redactedText_hides b) as Ht. destruct r as [where_ rep err|what err]; simpl in *.
  - unfold recordStepFailure. destruct (FailedStep rep) as [step|] eqn:E; rewrite !lit_app.
    + apply absent_around; [done|by apply Hs|apply Hw; right; by left|]. apply absent_around; [done|by apply Hs|by apply Ht|].
      apply absent_after; [done|by apply Hs|by apply Ht].
    + change (lit " failed and the report does not say which step") with (lit " failed and the report does not say which " ++ lit "step").
      apply absent_around; [done|by apply Hs|apply Hw; by left|]. apply server_absent; [done| |by apply Nat.ltb_lt].
      intros H. apply list_elem_of_In in H. simpl in H. naive_solver.
  - unfold reportReadback. specialize (Hw _ ltac:(by left)). rewrite lit_app in Hw. rewrite !lit_app. change (lit ": ") with (lit ":" ++ lit " ").
    rewrite <- app_assoc, app_assoc. apply absent_around; [done|by apply Hs|exact Hw|by apply Ht].
Qed.

Lemma keep_lines_sim l : ∀ r g, sim r g →
  ∃ r', keep_lines (Some r) l = Some (Some r') ∧ sim r' (mkLog (cap g) (lines g ++ ((λ p, mkEntry p.1 (Redact p.2)) <$> l))).
Proof.
  induction l as [|[now text] l IH]; intros r g Hs; cbn [keep_lines].
  - exists r. rewrite app_nil_r. by destruct g.
  - destruct (sim_add r g (mkEntry now (Redact text)) Hs) as (r' & E & Hs'). destruct (IH r' _ Hs') as (r'' & El & Hr). exists r''.
    unfold add. rewrite E. cbn [fmap option_fmap option_map mbind option_bind]. split; [exact El|]. cbn [log_add cap lines] in Hr.
    by rewrite <- app_assoc in Hr.
Qed.

(** C35. The service's own log never holds the address of the user's server: through
    any number of failed steps and failed readbacks, whose lines quote the command
    and the error that quotes it again, the ring does not panic, keeps the last 64
    lines and counts the others, and no line it shows has the text of any server's
    address in it, as long as the headings and the operation's name do not. *)
Theorem lines_hide_servers (b : Addr) (servers : list Addr) (rs : list (Z * report)) :
  plain_addr b → b ∈ servers → (∀ r w, r ∈ rs → w ∈ own_words r.2 → absent (lit (addr_String b)) (lit w)) →
  ∃ ring, keep_lines (Some (newDiagRing 0)) ((λ r, (r.1, line_of servers r.2)) <$> rs) = Some (Some ring) ∧
    entries (Some ring) = drop (List.length rs - 64) ((λ r, mkEntry r.1 (Redact (line_of servers r.2))) <$> rs) ∧
    droppedCount (Some ring) = u64 (Z.of_nat (List.length rs - 64)) ∧
    ∀ e, e ∈ entries (Some ring) → absent (lit (addr_String b)) (lit (Text e)).
Proof.
  intros Hb Hin Hw. pose proof (sim_new diagCapacity) as Hn. change (NewLogRing diagCapacity) with (newDiagRing 0) in Hn.
  destruct (keep_lines_sim ((λ r, (r.1, line_of servers r.2)) <$> rs) _ _ Hn) as (ring & E & Hs). exists ring.
  rewrite <- list_fmap_compose in Hs. pose proof (sim_entries _ _ Hs) as He. pose proof (sim_dropped _ _ Hs) as Hd.
  unfold log_entries in He. unfold log_dropped in Hd. cbn [cap lines app] in *. rewrite !length_fmap in *.
  change (Z.to_nat _) with 64%nat in *. split_and!; [exact E|exact He|exact Hd|].
  change (entries (Some ring)) with (Entries (Some ring)). rewrite He. intros e Hel. eapply (subseteq_drop _ _) in Hel.
  apply list_elem_of_fmap in Hel as (r & -> & Hr). simpl. apply line_hides; [done..|]. intros w. by apply Hw.
Qed.

(** A pinned route that could not be added: the command holds the address, and the
    error repeats it. *)
Module Demo.
Definition server : Addr := A4 0xcb00710a.   (* 203.0.113.10 *)
Definition pinned_route : Command := MkCommand "ip" ["route"; "add"; "203.0.113.10/32"; "via"; "192.168.1.1"] "" "".
Definition rep : Report :=
  MkReport [MkStepResult (MkStep "route" "" pinned_route zero_command None) (Some "exit status 2"%string) "" false ""] 1 0.

Example a_line :
  recordStepFailure "applying" [server] rep "netcfg: step failed (ip route add 203.0.113.10/32 via 192.168.1.1): exit status 2" =
  "route failed: ip route add [server]/32 via 192.168.1.1 (netcfg: step failed (ip route add [server]/32 via 192.168.1.1): exit status 2)"%string.
Proof. vm_compute. reflexivity. Qed.

Definition failed : report := AStep "applying" rep "ip route add 203.0.113.10/32 via 192.168.1.1: exit status 2".

Lemma plain_words w : w ∈ own_words failed → absent (lit (addr_String server)) (lit w).
Proof.
  intros Hw. apply server_absent; [by apply addr_text|..]; apply list_elem_of_In in Hw; simpl in Hw; destruct Hw as [<-|[<-|[]]];
    try (by apply Nat.ltb_lt); intros H; apply list_elem_of_In in H; simpl in H; repeat destruct H as [H|H]; done.
Qed.

Lemma lines_hide_servers_witness :
  plain_addr server ∧ ∃ ring, keep_lines (Some (newDiagRing 0)) [(5, line_of [server] failed)] = Some (Some ring) ∧
    ∀ e, e ∈ entries (Some ring) → absent (lit (addr_String server)) (lit (Text e)).
Proof.
  assert (plain_addr server) as Hs by (split_and!; [split; done|done|done]).
  split; [exact Hs|].
  destruct (lines_hide_servers server [server] [(5, failed)] Hs ltac:(by left)) as (ring & E & _ & _ & He).
  - intros r w ->%list_elem_of_singleton. apply plain_words.
  - exists ring. split; [exact E|exact He].
Defined.
End Demo.

(** ** EngineLog *)

Definition earlier (x y : LogEntry) : Prop := At x ≤ At y.

Lemma insert_perm e l : insert_entry e l ≡ₚ e :: l.
Proof. induction l as [|x l IH]; simpl; [done|]. destruct (At x <? At e); [|done]. rewrite IH. apply Permutation_swap. Qed.

Lemma insert_sorted e l : StronglySorted earlier l → StronglySorted earlier (insert_entry e l).
Proof.
  unfold earlier. induction 1 as [|x l Hl IH Hx]; simpl; [repeat constructor|]. destruct (At x <? At e) eqn:E; breflect.
  - constructor; [done|]. rewrite insert_perm. constructor; [lia|done].
  - constructor; [by constructor|]. constructor; [done|]. eapply Forall_impl; [exact Hx|]. simpl. lia.
Qed.

Lemma insert_stable t e l :
  StronglySorted earlier l →
  List.filter (λ x, At x =? t) (insert_entry e l) = List.filter (λ x, At x =? t) (e :: l).
Proof.
  unfold earlier. induction 1 as [|x l Hl IH Hx]; [done|]. cbn [insert_entry]. destruct (At x <? At e) eqn:E; [|done]. breflect.
  cbn [List.filter] in *. rewrite IH. destruct (At x =? t) eqn:E1, (At e =? t) eqn:E2; breflect; try done; lia.
Qed.

(** The advanced view reads as one sequence: EngineLog shows exactly the engine's
    lines and the service's own, ordered by time, lines of the same instant in the
    order they were written and the engine's first; the count of lost lines is the
    sum of the two rings'. *)
Theorem engine_log_merges (el : list LogEntry) (ed : Z) (diag : option LogRing) :
  let '(l, d) := EngineLog el ed diag in
  l ≡ₚ el ++ entries diag ∧ StronglySorted earlier l ∧
  (∀ t, List.filter (λ x, At x =? t) l = List.filter (λ x, At x =? t) el ++ List.filter (λ x, At x =? t) (entries diag)) ∧
  d = u64 (ed + droppedCount diag).
Proof.
  simpl. assert (∀ l, sort_entries l ≡ₚ l ∧ StronglySorted earlier (sort_entries l) ∧
    ∀ t, List.filter (λ x, At x =? t) (sort_entries l) = List.filter (λ x, At x =? t) l) as H.
  { induction l as [|e l (Hp & Hs & Hf)]; [split_and!; [done|constructor|done]|]. cbn [sort_entries foldr].
    change (foldr insert_entry [] l) with (sort_entries l).
    split_and!; [by rewrite insert_perm, Hp|by apply insert_sorted|]. intros t. rewrite insert_stable by done. cbn [List.filter]. by rewrite Hf. }
  destruct (H (el ++ entries diag)) as (Hp & Hs & Hf). split_and!; [done..| |done]. intros t. by rewrite Hf, List.filter_app.
Qed.
