(* ===== verification/Privsvc.v ===== *)
(** * The privileged service: requests, refusals and compositions

    The pure part of internal/privsvc: faults.go, validate.go, plans.go,
    socksport.go, sni.go (the check), detect.go and the options of config.go,
    with the requests of panel/priv.go. A refusal is where it happened and the
    word that crosses the socket; the cause's text is kept where the code decides
    on it. *)

From S2P Require Import Prelude GoStrings Netip Text Facts Command Journal Apply Parse Subnet HotspotConf Plan Nft Steps Detect.
From S2P Require Hello Split.

Local Open Scope Z_scope.

(** ** panel/priv.go *)

Inductive PFault :=
| FaultNone | FaultSNISpoofInvalid | FaultSNISpoofUnsupported | FaultSNISpoofUnavailable | FaultNoAPAdapter
| FaultHotspotInterfaceBusy | FaultNotRunning | FaultRadioBlocked | FaultNoInternetInterface | FaultChannelRefused
| FaultHotspotFailed | FaultDHCPFailed | FaultEngineRejectedConfig | FaultPortInUse | FaultInsecureRemoved
| FaultCipherRemoved | FaultServerNoAnswer | FaultClockImplausible | FaultPermissionDenied | FaultSoftwareMissing
| FaultUnavailable | FaultCountryMissing | FaultWindowsTooOld | FaultIPv6Unsupported | FaultRefreshBadAddress
| FaultRefreshNoAnswer | FaultRefreshTooLarge | FaultRefreshNotHTTPS | FaultUnknown.

#[export] Instance PFault_eq_dec : EqDecision PFault.
Proof. solve_decision. Defined.

Record HotspotSpec := MkHotspotSpec {
  hs_SSID : string;
  hs_Passphrase : string;
  hs_Interface : string;
  hs_Channel : Z;
  hs_Band : string;
  hs_Country : string;
  hs_Subnet : string
}.

Record NetworkSpec := MkNetworkSpec {
  InternetInterface : string;
  DNSMode : string;
  OnTunnelDown : string;
  ClientIPv6 : string
}.

Record StartRequest := MkStartRequest {
  SpoofSNI : string;
  sr_TCPSplit : bool;
  sr_TLSRecordSplit : bool;
  ConfigJSON : string;
  sr_Hotspot : HotspotSpec;
  sr_Network : NetworkSpec;
  EngineLogLevel : string
}.

Definition EngineLogLevels : list string := ["error"; "warning"; "info"; "debug"].

Definition ValidEngineLogLevel (level : string) : bool :=
  (level =? "")%string || existsb (λ l, (l =? level)%string) EngineLogLevels.

(** ** faults.go *)

(** What this package can be handed as a cause. An error of the machine itself,
    of a runner or of a file, is the fault the operating system's error classes
    give it: [FaultUnknown] for most. *)
Inductive cause :=
| CPlan (e : plan_error)
| CVerify (e : verify_error)
| CDetect (e : detect_error)
| CApply (e : apply_error)
| CJournal (e : jerror)
| CFault (f : PFault)     (* an error of this package, already classified *)
| CMachine (f : PFault)   (* an error classified by the operating system *)
| COther.

Section Faults.
(** The class of a runner's error text and of a journal error: the runner's and
    the operating system's, not this program's. *)
Context (class_text : string → PFault) (class_journal : jerror → PFault).

Definition fault_of_plan (e : plan_error) : PFault :=
  match e with
  | ErrNoUplink => FaultNoInternetInterface
  | ErrNoAPCapableInterface | ErrAPConflictsWithUplink => FaultNoAPAdapter
  | ErrNoTakeoverCandidate => FaultNoAPAdapter
  | Plan.ErrHotspotNotReleased => FaultHotspotInterfaceBusy
  | _ => FaultUnknown
  end.

Definition fault_of_verify (e : verify_error) : PFault :=
  match e with
  | ErrNotAccessPoint => FaultHotspotFailed
  | ErrHotspotNotReleased => FaultHotspotInterfaceBusy
  | VERun t => class_text t
  | _ => FaultUnknown
  end.

Definition faultOf (c : cause) : PFault :=
  match c with
  | CPlan e => fault_of_plan e
  | CVerify e => fault_of_verify e
  | CDetect (DEList t) | CDetect (DERoute t) | CDetect (DEPorts t) => class_text t
  | CDetect (DEParse _) | CDetect DEInventory => FaultUnknown
  | CApply (AEJournal e) => class_journal e
  | CApply (AEStep _ t) => class_text t
  | CJournal e => class_journal e
  | CFault f => f
  | CMachine f => f
  | COther => FaultUnknown
  end.

Definition unitAP : string := "hotspot".
Definition unitDHCP : string := "DHCP and DNS server".

(** hotspotFault: the sentence first, then the error, then the unit. *)
Definition hotspotFault (unit reason : string) (err : option cause) : PFault :=
  let text := ToLower reason in
  if Contains text "switched off by a switch on the machine itself" || Contains text "switched off in software"
     || Contains text "wireless adapter is switched off" then FaultRadioBlocked
  else if Contains text "would not accept the channel" then FaultChannelRefused
  else if Contains text "cannot create a hotspot" || Contains text "reports no wireless adapter" then FaultNoAPAdapter
  else if Contains text "is not installed on this machine" then FaultSoftwareMissing
  else if Contains text "needs to run with" || Contains text "not allowed to start" then FaultPermissionDenied
  else
    let rest := if (unit =? unitDHCP)%string then FaultDHCPFailed else FaultHotspotFailed in
    match err with
    | Some e => if bool_decide (faultOf e = FaultUnknown) then rest else faultOf e
    | None => rest
    end.

End Faults.

(** engine/reason.go *)
Inductive Reason := ReasonOther | ReasonPortInUse | ReasonInsecureRemoved | ReasonCipherRemoved.

Definition ReasonOf (msg : string) : Reason :=
  if Contains msg "failed to listen" then ReasonPortInUse
  else if Contains msg (String dquote ("allowInsecure" ++ String dquote " has been removed")) then ReasonInsecureRemoved
  else if Contains msg "unknown cipher method" then ReasonCipherRemoved
  else ReasonOther.

Definition engineFault (msg : string) : PFault :=
  match ReasonOf msg with
  | ReasonPortInUse => FaultPortInUse
  | ReasonInsecureRemoved => FaultInsecureRemoved
  | ReasonCipherRemoved => FaultCipherRemoved
  | ReasonOther => FaultEngineRejectedConfig
  end.

(** The error this package returns. *)
Record FaultError := MkFail { fe_where : string; fe_fault : PFault }.

Definition fail {A} (where_ : string) (f : PFault) : res FaultError A := Err (MkFail where_ f).

Definition refuse_if (b : bool) (where_ : string) (f : PFault) (k : res FaultError unit) : res FaultError unit :=
  if b then fail where_ f else k.

(** ** config.go *)

Record Config := MkConfig {
  cfg_Platform : Platform;
  cfg_FixedSubnet : option Prefix;   (* a backend with FixedHotspotSubnet *)
  JournalPath : string;
  cfg_TunName : string;
  cfg_SocksPort : Z;
  LocalDNSPort : Z;
  cfg_DNSPort : Z;
  cfg_PanelPort : Z;
  cfg_Country : string;
  TUNDisabled : bool;
  ClockFloor : Z;
  HostapdControlDir : string;
  LeaseFile : string
}.

Definition DefaultSocksListen : string := "127.0.0.1".

Definition set_options (o : Options) (pl : Platform) (tun : string) (sub : Prefix) (up hot : string) (band : RadioBand)
    (dns panel : Z) (socks : SystemSOCKSOptions) : Options :=
  MkOptions pl tun (HotspotPool o) (TunnelPool o) sub up hot band (APIfaceName o) (Table o) (RulePrio o) (FwMark o)
    dns panel socks (Strategy o) (IPv6 o) (Egress o) (ClientIsolation o) (MasqueradeToTunnel o) (RPFilter o).

(** Config.netOptions *)
Definition netOptions (c : Config) : Options :=
  let o := DefaultOptions in
  let mac := bool_decide (cfg_Platform c = PlatformDarwin) in
  set_options o (cfg_Platform c)
    (if (cfg_TunName c =? "")%string then TunName o else cfg_TunName c)
    (default (oHotspotSubnet o) (cfg_FixedSubnet c))
    (UplinkOverride o) (HotspotOverride o) (HotspotBand o)
    (if mac then LocalDNSPort c else cfg_DNSPort c) (cfg_PanelPort c)
    (if mac then MkSOCKSOptions true DefaultSocksListen (cfg_SocksPort c) else oSystemSOCKS o).

(** ** validate.go *)

(** netip.Addr.IsPrivate, of an IPv4 address *)
Definition IsPrivate4 (a : Addr) : bool :=
  match a with
  | A4 n => (Z.shiftr n 24 =? 10) || (Z.shiftr n 20 =? 0xac1) || (Z.shiftr n 16 =? 0xc0a8)
  | _ => false
  end.

Definition maxConfigBytes : Z := 65536.

Definition validateStatic (req : StartRequest) : res FaultError unit :=
  let h := sr_Hotspot req in
  let n := sr_Network req in
  refuse_if (negb (ValidEngineLogLevel (EngineLogLevel req))) "engine log level" FaultUnknown
  (refuse_if (negb (DNSMode n =? "tunnel")%string) "dns mode" FaultUnknown
  (refuse_if (negb (OnTunnelDown n =? "block")%string) "tunnel-down policy" FaultUnknown
  (refuse_if (negb (ClientIPv6 n =? "block")%string) "client IPv6 policy" FaultIPv6Unsupported
  (refuse_if (negb (is_ok (ValidatePassphrase (hs_Passphrase h)))) "hotspot password" FaultUnknown
  (refuse_if (hs_SSID h =? "")%string "hotspot name" FaultUnknown
  (refuse_if (MaxSSIDLen <? len (hs_SSID h)) "hotspot name" FaultUnknown
  (refuse_if (negb (hs_Country h =? "")%string && negb (IsUpperAlpha2 (hs_Country h))) "country" FaultUnknown
  (refuse_if (negb (hs_Band h =? "")%string &&
              negb ((hs_Band h =? HotspotConf.Band2GHz)%string || (hs_Band h =? HotspotConf.Band5GHz)%string))
     "band" FaultUnknown
  (if (hs_Subnet h =? "")%string then Ok tt
   else match ParsePrefix (hs_Subnet h) with
        | None => fail "hotspot subnet" FaultUnknown
        | Some p =>
            refuse_if (negb (Is4 (p_addr p)) || negb (IsPrivate4 (p_addr p)) || (Bits p <? 8) || (30 <? Bits p))
              "hotspot subnet" FaultUnknown (Ok tt)
        end))))))))).

Definition isVirtualAPName (c : Config) (name : string) : bool :=
  negb (name =? "")%string && (name =? APIfaceName (netOptions c))%string.

Definition apCapable (f : Facts) (name : string) : bool :=
  existsb (λ phy, SupportsAP phy &&
    ((phy_name phy =? name)%string ||
     existsb (λ w, (w_phy w =? phy_name phy)%string && (w_name w =? name)%string) (Wireless f))) (Phys f).

Definition validateAgainstFacts (c : Config) (req : StartRequest) (f : Facts) : res FaultError unit :=
  let up := InternetInterface (sr_Network req) in
  let? _ :=
    (if (up =? "")%string then Ok tt
     else
       refuse_if (negb (ValidInterfaceNameOn (oPlatform (netOptions c)) up)) "internet interface" FaultNoInternetInterface
       (refuse_if (match LinkByName f up with Some _ => false | None => true end) "internet interface"
          FaultNoInternetInterface
       (refuse_if (negb (existsb (λ r, (Family r =? 4) && (Dev r =? up)%string && negb (LinkDown r)) (Routes f)))
          "internet interface" FaultNoInternetInterface (Ok tt)))) in
  let name := hs_Interface (sr_Hotspot req) in
  if (name =? "")%string || isVirtualAPName c name then Ok tt
  else
    refuse_if (negb (ValidInterfaceNameOn (oPlatform (netOptions c)) name)) "hotspot interface" FaultNoAPAdapter
    (refuse_if (negb (apCapable f name)) "hotspot interface" FaultNoAPAdapter (Ok tt)).

Definition validateAgainstPlan (req : StartRequest) (p : Plan) : res FaultError unit :=
  let ch := hs_Channel (sr_Hotspot req) in
  if ch =? 0 then Ok tt
  else
    refuse_if (ChannelPinned (hot p) && negb (ch =? Channel (hot p))) "channel" FaultChannelRefused
    (match UsableChannel (hot p) with
     | [] => Ok tt
     | us => refuse_if (negb (existsb (Z.eqb ch) us)) "channel" FaultChannelRefused (Ok tt)
     end).

(** sni.go, validateSpoof, over the link's fields *)
Definition SupportsTransport (protocol network : string) : bool :=
  existsb (λ p, (p =? protocol)%string) ["vless"; "vmess"; "trojan"] &&
  existsb (λ n, (n =? network)%string) [""; "tcp"; "raw"; "ws"; "websocket"; "httpupgrade"; "grpc"].

Definition validateSpoof (toASCII : string → option string) (protocol network security : string)
    (name : string) (tcp tls : bool) : res FaultError unit :=
  let split := tcp || tls in
  match Hello.NormalizeName toASCII name with
  | Ok normalized =>
      refuse_if (negb (name =? normalized)%string) "SNI spoofing" FaultSNISpoofInvalid
      (refuse_if (((negb (name =? "")%string || split) && negb (SupportsTransport protocol network)) ||
                  (split && negb (security =? "tls")%string))
         "SNI spoofing" FaultSNISpoofUnsupported (Ok tt))
  | Err _ => fail "SNI spoofing" FaultSNISpoofInvalid
  end.

(** clock.go *)
Definition clockPlausible (now floor : Z) : bool := negb (now <? floor).

(** ** plans.go *)

Definition dhcpFirstOffset : nat := 50.
Definition dhcpLastOffset : nat := 200.
Definition dhcpLeaseTime : Z := 12 * Hour.
Definition dnsCacheSize : Z := 150.

(** [netcfg.RadioBand(s)]; validateStatic has refused any other string. *)
Definition RadioBand_of (s : string) : RadioBand :=
  if (s =? HotspotConf.Band2GHz)%string then Facts.Band2GHz
  else if (s =? HotspotConf.Band5GHz)%string then Facts.Band5GHz
  else BandAuto.

Definition netOptionsFor (c : Config) (req : StartRequest) (socksPort : Z) : res FaultError Options :=
  let o := netOptions c in
  let h := sr_Hotspot req in
  let socks := oSystemSOCKS o in
  let socks := if so_enabled socks && negb (socksPort =? 0) then MkSOCKSOptions true (Listen socks) socksPort else socks in
  let over := if negb (hs_Interface h =? "")%string && negb (isVirtualAPName c (hs_Interface h))
              then hs_Interface h else HotspotOverride o in
  let? sub :=
    (if (hs_Subnet h =? "")%string then Ok (oHotspotSubnet o)
     else match ParsePrefix (hs_Subnet h) with
          | None => fail "hotspot subnet" FaultUnknown
          | Some p => Ok p
          end) in
  Ok (set_options o (oPlatform o) (TunName o) sub (InternetInterface (sr_Network req)) over (RadioBand_of (hs_Band h))
        (DNSPort o) (PanelPort o) socks).

(** detect.go *)
Definition bandForChannel (ch : Z) : string := if 14 <? ch then HotspotConf.Band5GHz else HotspotConf.Band2GHz.

(** nthAddress *)
Fixpoint nth_loop (n : nat) (p : Prefix) (a : Addr) : option Addr :=
  match n with
  | O => Some a
  | S n => let a := Next a in
           if negb (addr_valid a) || negb (Contains_addr p a) then None else nth_loop n p a
  end.

Definition nthAddress (p : Prefix) (n : nat) : option Addr :=
  if negb (prefix_valid p) then None else nth_loop n p (p_addr (Masked p)).

Definition radioConstraintFor (f : Facts) (p : Plan) (channel : Z) : RadioConstraint :=
  match PhyByName f (HotspotPhy (hot p)) with
  | None => no_radio
  | Some phy =>
      let combo := default (MkCombination "" [] 0 0 []) (APWithStation phy) in
      let maxAPs := foldl (λ m lim, if Has lim "AP" && (m <? Max lim) then Max lim else m) 0 (Limits combo) in
      let maxAPs := if (maxAPs =? 0) && SupportsAP phy then 1 else maxAPs in
      MkRadio (SupportsAP phy) maxAPs (Channels combo) (if ChannelPinned (hot p) then channel else 0)
        (UsableChannels phy)
  end.

(** The channel, the access point and the DHCP and DNS server a plan gives. *)
Definition ap_channel (p : Plan) (req : StartRequest) : Z :=
  if negb (hs_Channel (sr_Hotspot req) =? 0) && negb (ChannelPinned (hot p))
  then hs_Channel (sr_Hotspot req) else Channel (hot p).

Definition ap_config (c : Config) (p : Plan) (req : StartRequest) (country : string) : APConfig :=
  MkAP (Hotspot (hot p))
    (if bool_decide (cfg_Platform c = PlatformWindows) then Tun p else Uplink p)
    (hs_SSID (sr_Hotspot req)) (hs_Passphrase (sr_Hotspot req)) country (ap_channel p req)
    (bandForChannel (ap_channel p req)) (HostapdControlDir c).

Definition dns_config (c : Config) (p : Plan) (first last : Addr) : DNSConfig :=
  MkDNS (Hotspot (hot p)) (HotspotSubnet p) (HotspotGateway p) first last dhcpLeaseTime (LeaseFile c)
    (quad 127 0 0 1, LocalDNSPort c) dnsCacheSize "" "" false.

Definition hotspotPlanFor (class_text : string → PFault) (class_journal : jerror → PFault)
    (rand : res string (list Z)) (c : Config) (p : Plan) (f : Facts) (req : StartRequest) (country : string) :
    res FaultError HotspotPlan :=
  if (country =? "")%string then fail "country" FaultCountryMissing
  else
    match nthAddress (HotspotSubnet p) dhcpFirstOffset with
    | None => fail "dhcp range" FaultUnknown
    | Some first =>
        match nthAddress (HotspotSubnet p) dhcpLastOffset with
        | None => fail "dhcp range" FaultUnknown
        | Some last =>
            let newPlan := if bool_decide (cfg_Platform c = PlatformWindows) then NewMobileHotspotPlan else NewPlan in
            match newPlan rand (ap_config c p req country) (dns_config c p first last)
                    (radioConstraintFor f p (ap_channel p req)) with
            | Ok hp => Ok hp
            | Err e => fail "hotspot configuration" (hotspotFault class_text class_journal unitAP e (Some COther))
            end
        end
    end.

(** What the engine document needs of the plan. *)
Record tunnelFacts := MkTunnelFacts { tf_subnet : Prefix; directInterface : string }.

Definition tunnelFactsOf (p : Plan) : tunnelFacts :=
  MkTunnelFacts (TunSubnet p)
    (if bool_decide (pPlatform p = PlatformWindows) || match Strategy (Opts p) with StrategySplitDefault => true | _ => false end
     then Uplink p else "").

(** The options xcfg.Build is given; [L] is the link's type. *)
Record EngineOptions (L : Type) := MkEngineOptions {
  eo_Link : L;
  PinnedServer : list Addr;
  TUN_Disabled : bool;
  TUN_Name : string;
  TUN_Subnet : Prefix;
  Direct_Interface : string;
  SOCKS_Port : Z;
  LocalDNS_Enabled : bool;
  LocalDNS_Port : Z;
  DNS_Intercept : bool;
  eo_LogLevel : option string  (* None: the default *)
}.
Arguments MkEngineOptions {L}.

Definition engine_options {L} (c : Config) (l : L) (req : StartRequest) (netOpts : Options) (pinned : list Addr)
    (t : tunnelFacts) (socksPort : Z) : EngineOptions L :=
  MkEngineOptions l pinned (TUNDisabled c) (TunName netOpts) (tf_subnet t) (directInterface t) socksPort true
    (LocalDNSPort c) true (if (EngineLogLevel req =? "")%string then None else Some (EngineLogLevel req)).

(** ** detect.go: what the panel is shown *)

Inductive InterfaceKind := KindUnknown | KindEthernet | KindBuiltinWiFi | KindUSBWiFi | KindWiFi.

Record InterfaceInfo := MkInterfaceInfo {
  ii_Name : string;
  Kind : InterfaceKind;
  CanHostAP : bool;
  HasDefaultRoute : bool
}.

Record Detection := MkDetection {
  dt_InternetInterface : string;
  HotspotInterface : string;
  Interfaces : list InterfaceInfo;
  dt_Channel : Z;
  dt_Band : string;
  dt_Country : string;
  dt_UsableChannels : list Z;
  dt_ChannelPinned : bool;
  dt_Subnet : string;
  HotspotAddress : string;
  LocalNetworkAddress : string;
  dt_Fault : PFault;
  dt_At : Z
}.

Definition no_detection : Detection := MkDetection "" "" [] 0 "" "" [] false "" "" "" FaultNone 0.

Definition set_detection_fault (f : PFault) (d : Detection) : Detection :=
  MkDetection (dt_InternetInterface d) (HotspotInterface d) (Interfaces d) (dt_Channel d) (dt_Band d) (dt_Country d)
    (dt_UsableChannels d) (dt_ChannelPinned d) (dt_Subnet d) (HotspotAddress d) (LocalNetworkAddress d) f (dt_At d).

Definition wifiKind (bus : string) : InterfaceKind :=
  if (bus =? "usb")%string then KindUSBWiFi else if (bus =? "")%string then KindWiFi else KindBuiltinWiFi.

Definition plain_v4 (p : Prefix) : bool :=
  let a := Unmap (p_addr p) in Is4 a && negb (IsLoopback a) && negb (IsLinkLocalUnicast a).

Definition firstIPv4 (f : Facts) (name : string) : string :=
  if (name =? "")%string then ""
  else match LinkByName f name with
       | None => ""
       | Some l =>
           match List.find plain_v4 (l_prefixes l) with
           | Some p => addr_String (Unmap (p_addr p))
           | None => ""
           end
       end.

(** The closure [add]: a name once, and never the empty one. *)
Definition add_info (l : list InterfaceInfo) (i : InterfaceInfo) : list InterfaceInfo :=
  if (ii_Name i =? "")%string || existsb (λ x, (ii_Name x =? ii_Name i)%string) l then l else (l ++ [i])%list.

Definition link_info (f : Facts) (def : option DefaultRoute) (l : Link) : InterfaceInfo :=
  let '(kind, ap) :=
    match WirelessByName f (l_name l) with
    | Some w => (wifiKind (l_bus l), match PhyByName f (w_phy w) with Some phy => SupportsAP phy | None => false end)
    | None => (KindEthernet, false)
    end in
  MkInterfaceInfo (l_name l) kind ap (match def with Some r => (Dev r =? l_name l)%string | None => false end).

Definition link_infos (f : Facts) : list InterfaceInfo :=
  foldl (λ acc l, if link_IsLoopback l then acc else add_info acc (link_info f (PrimaryDefault f) l)) [] (Links f).

Definition detectionFrom (f : Facts) (plan : option Plan) (country : string) (fault : PFault) (now : Z) : Detection :=
  let infos := link_infos f in
  match plan with
  | None =>
      let dev := match PrimaryDefault f with Some r => Dev r | None => "" end in
      MkDetection dev "" infos 0 "" country [] false "" ""
        (match PrimaryDefault f with Some _ => firstIPv4 f dev | None => "" end) fault now
  | Some p =>
      let h := hot p in
      let infos :=
        if HotspotIsVirtual h then
          add_info infos (MkInterfaceInfo (Hotspot h)
            (match LinkByName f (HotspotParent h) with Some l => wifiKind (l_bus l) | None => KindWiFi end) true false)
        else infos in
      MkDetection (Uplink p) (Hotspot h) infos (Channel h) (bandForChannel (Channel h)) country (UsableChannel h)
        (ChannelPinned h) (if prefix_valid (HotspotSubnet p) then prefix_String (HotspotSubnet p) else "")
        (if bool_decide (pPlatform p = PlatformDarwin) then firstIPv4 f "bridge100" else firstIPv4 f (Hotspot h))
        (firstIPv4 f (Uplink p)) fault now
  end.
