(* ===== verification/Service.v ===== *)
(** * The privileged service's lifecycle (internal/privsvc)

    start.go, cut.go, readback.go, sni.go, socksport.go and the state and the
    journal half of service.go. Start, Stop, Cut, Restore and the first half
    of Recover hold the operation lock from beginning to end, so each is one
    function on the state: the service's fields, the machine, the disk, and a
    record of what was done to the machine, in order. Status and Detect do not
    take it, and Recover lets go of it before its Start: here they are taken one
    after another, which leaves out the runs in which they overlap. What the service writes to its log and to the advanced view is not
    kept; contexts and deadlines are the machine's choice of when a call fails. *)

From S2P Require Import Prelude GoStrings Sha256 Netip Text Facts Command Journal Apply Parse Subnet HotspotConf Plan Nft Steps Detect.
From S2P Require Hello Split.
From S2P Require Import StateError Privsvc.

Local Open Scope Z_scope.

(** ** What the service is handed *)

(** engine.State *)
Inductive EnginePhase := PhaseStopped | PhaseStarting | PhaseRunning | PhaseFailed.

Record EngineState := MkEngineState { es_Phase : EnginePhase; es_Reason : string; es_Since : Z }.

(** config.go, Engine: the error of a start is its text. *)
Class Engine (K : Type) := {
  EngineStateOf : K → EngineState;
  EngineStart : string → K → option string * K;
  EngineStop : K → option cause * K;
  EngineValidate : string → option string   (* engine.Validate *)
}.

(** The part of hotspot.Status the service reads. *)
Record APStatus := MkAPStatus {
  ap_running : bool;
  ap_reason : string;
  ap_devices : list Lease;
  ap_malformed : Z
}.

(** hotspot.AccessPoint *)
Class AccessPoint (K : Type) := {
  APStart : HotspotPlan → K → (APStatus * option cause) * K;
  APStop : K → option cause * K;
  APQuery : string → K → res cause APStatus * K   (* Status *)
}.

Inductive sni_error := SNIUnsupported | SNIOther.

(** The rest of Config: the clock, the link parser and the document composer,
    the resolver, the probe, the loopback listener and the SNI forwarder. A
    forwarder is its loopback address. *)
Class Host (K L : Type) := {
  CheckSupport : K → option cause;       (* None too for a runner without the method *)
  Now : K → Z;
  ParseLink : string → option L;
  lk_protocol : L → string;
  lk_network : L → string;
  lk_security : L → string;
  lk_address : L → string;
  lk_port : L → Z;
  ThroughLoopback : L → Addr * Z → option L;
  Build : EngineOptions L → option string;
  Resolve : string → K → option (list Addr) * K;
  Probe : Addr → Z → K → bool * K;
  NetListen : Z → K → option Z * K;      (* bind the loopback port and release it: the port bound *)
  StartSNI : Addr → Z → string → Split.Options → K → res sni_error (Addr * Z) * K;
  CloseSNI : Addr * Z → K → option cause * K;
  Sleep : Z → K → option cause * K;
  ToASCII : string → option string;
  RandRead : K → res string (list Z);
  class_text : string → PFault;
  class_journal : jerror → PFault
}.

(** The half of netcfg.Backend that reads the machine. *)
Record Probes (K : Type) := MkProbes {
  pr_detect : list string → Z → K → res detect_error Facts * K;
  pr_released : Plan → K → res verify_error unit * K;
  pr_isAP : Plan → string → K → res verify_error unit * K;
  pr_regdomain : K → option string * K
}.
Arguments MkProbes {K}.
Arguments pr_detect {K}. Arguments pr_released {K}. Arguments pr_isAP {K}. Arguments pr_regdomain {K}.

Definition linux_probes {K} `{Runner K} : Probes K :=
  MkProbes Detect linuxAssertHotspotInterfaceReleased linuxAssertHotspotIsAccessPoint RegulatoryDomain.

(** ** The service's state *)

Record Svc := MkSvc {
  applier : option Journal;
  sv_plan : option Plan;
  sv_facts : Facts;
  hotspotPlan : option HotspotPlan;
  engineDoc : option string;
  running : bool;
  fingerprint : string;
  forward : ForwardState;
  lastDetect : Detection;
  lastDetectAt : option Z;
  country : string;
  serverPortValue : Z;
  socksPort : Z;
  sniForwarder : option (Addr * Z)
}.

Definition no_facts : Facts := MkFacts [] [] [] [] [] false false ∅ 0.

(** New *)
Definition new_service (c : Config) : Svc :=
  MkSvc None None no_facts None None false "" ForwardNormal no_detection None (cfg_Country c) 0 0 None.

Definition with_applier (a : option Journal) (s : Svc) : Svc :=
  MkSvc a (sv_plan s) (sv_facts s) (hotspotPlan s) (engineDoc s) (running s) (fingerprint s) (forward s) (lastDetect s) (lastDetectAt s)
    (country s) (serverPortValue s) (socksPort s) (sniForwarder s).
Definition with_socksPort (p : Z) (s : Svc) : Svc :=
  MkSvc (applier s) (sv_plan s) (sv_facts s) (hotspotPlan s) (engineDoc s) (running s) (fingerprint s) (forward s) (lastDetect s)
    (lastDetectAt s) (country s) (serverPortValue s) p (sniForwarder s).
Definition with_sni (f : option (Addr * Z)) (s : Svc) : Svc :=
  MkSvc (applier s) (sv_plan s) (sv_facts s) (hotspotPlan s) (engineDoc s) (running s) (fingerprint s) (forward s) (lastDetect s)
    (lastDetectAt s) (country s) (serverPortValue s) (socksPort s) f.
Definition with_forward (w : ForwardState) (s : Svc) : Svc :=
  MkSvc (applier s) (sv_plan s) (sv_facts s) (hotspotPlan s) (engineDoc s) (running s) (fingerprint s) w (lastDetect s)
    (lastDetectAt s) (country s) (serverPortValue s) (socksPort s) (sniForwarder s).
Definition stale_detection (s : Svc) : Svc :=
  MkSvc (applier s) (sv_plan s) (sv_facts s) (hotspotPlan s) (engineDoc s) (running s) (fingerprint s) (forward s) (lastDetect s)
    None (country s) (serverPortValue s) (socksPort s) (sniForwarder s).
(** What applyLocked publishes before the engine starts. *)
Definition publish (p : Plan) (f : Facts) (hp : HotspotPlan) (doc : string) (s : Svc) : Svc :=
  MkSvc (applier s) (Some p) f (Some hp) (Some doc) (running s) (fingerprint s) (forward s) (lastDetect s) (lastDetectAt s) (country s)
    (serverPortValue s) (socksPort s) (sniForwarder s).
(** What applyLocked sets at its end. *)
Definition mark_running (fp cc : string) (port : Z) (s : Svc) : Svc :=
  MkSvc (applier s) (sv_plan s) (sv_facts s) (hotspotPlan s) (engineDoc s) true fp (forward s) (lastDetect s) None cc port
    (socksPort s) (sniForwarder s).
(** What a detection stores; an empty country leaves the one there. *)
Definition with_detection (f : Facts) (d : Detection) (at_ : Z) (cc : string) (s : Svc) : Svc :=
  MkSvc (applier s) (sv_plan s) f (hotspotPlan s) (engineDoc s) (running s) (fingerprint s) (forward s) d
    (Some at_) (if (cc =? "")%string then country s else cc) (serverPortValue s) (socksPort s) (sniForwarder s).
(** What stopLocked clears, the applier included. *)
Definition cleared (s : Svc) : Svc :=
  MkSvc None None (sv_facts s) (hotspotPlan s) None false "" ForwardNormal (lastDetect s) None (country s) (serverPortValue s) 0
    (sniForwarder s).

(** ** What was done, in order *)

Inductive part := Pre | Post.

Inductive SEvent :=
| SvRecover (evs : list Event)                     (* a journal left behind was replayed *)
| SvApply (h : part) (p : Plan) (cur : gmap string string) (evs : list Event) (ok : bool)
| SvTeardown (evs : list Event) (clean : bool)     (* no error and no inverse failed *)
| SvReleased (p : Plan) (ok : bool)
| SvAccessPoint (p : Plan) (ok : bool)
| SvSNIStart (ok : bool)
| SvSNIClose
| SvEngineStart (doc : string) (ok : bool)
| SvEngineStop
| SvAPStart (hp : HotspotPlan) (up : bool)
| SvAPStop
| SvForward (c : Command) (ok : bool).

Record St (K : Type) := MkSt {
  svc : Svc;
  machine : K;
  sdisk : Disk;
  done : list SEvent
}.
Arguments MkSt {K}. Arguments svc {K}. Arguments machine {K}. Arguments sdisk {K}. Arguments done {K}.

(** ** The monad: the state and an error *)

Definition M (K A : Type) : Type := SE (St K) FaultError A.

Definition refused {K A} (where_ : string) (f : PFault) : M K A := lift_res (fail where_ f).
Definition modify {K} (f : Svc → Svc) : M K unit := λ s, (Ok tt, MkSt (f (svc s)) (machine s) (sdisk s) (done s)).
Definition emit {K} (e : SEvent) : M K unit := λ s, (Ok tt, MkSt (svc s) (machine s) (sdisk s) (done s ++ [e])).
Definition on_machine {K A} (f : K → A * K) : M K A := λ s,
  let '(a, k) := f (machine s) in (Ok a, MkSt (svc s) k (sdisk s) (done s)).
(** A plain assertion: the error when the test holds. *)
Definition refuse_when {K} (b : bool) (where_ : string) (f : PFault) : M K unit :=
  if b then refused where_ f else ret tt.

Local Open Scope svc_scope.

(** ** The request's fingerprint *)

(** crypto/hmac with SHA-256, for a key of at most 64 bytes *)
Definition hmac_sha256 (key msg : list Z) : list Z :=
  let k := (key ++ replicate (64 - length key) 0)%list in
  Sum256 ((Z.lxor 0x5c <$> k) ++ Sum256 ((Z.lxor 0x36 <$> k) ++ msg))%list.

(** write: the length in eight bytes, then the field *)
Definition fp_field (s : string) : list Z :=
  (be_bytes 8 (Z.of_nat (String.length s)) ++ bytes_of_string s)%list.

Definition fp_fields (req : StartRequest) : list string :=
  let h := sr_Hotspot req in
  let n := sr_Network req in
  [ConfigJSON req; SpoofSNI req;
   (if sr_TCPSplit req then "tcp-split" else "")%string;
   (if sr_TLSRecordSplit req then "tls-record-split" else "")%string;
   hs_SSID h; hs_Passphrase h; hs_Interface h; Itoa (hs_Channel h); hs_Band h; hs_Country h; hs_Subnet h;
   InternetInterface n; DNSMode n; OnTunnelDown n; ClientIPv6 n; EngineLogLevel req].

Definition fp_message (req : StartRequest) : list Z := concat (fp_field <$> fp_fields req).

Definition requestFingerprint (key : list Z) (req : StartRequest) : string :=
  EncodeToString (hmac_sha256 key (fp_message req)).

Section Operations.
Context {K L : Type} `{Runner K} `{Engine K} `{AccessPoint K} `{HostI : Host K L}.
Context (cfg : Config) (key : list Z).
(** The probes of a platform other than Linux. *)
Context (other_probes : Platform → Probes K).

Definition probes (pl : Platform) : Probes K :=
  match pl with
  | PlatformUnset | PlatformLinux => linux_probes
  | _ => other_probes pl
  end.

(** The plan's own backend, and the service's. *)
Definition backend : Probes K := probes (cfg_Platform cfg).

Definition fault (c : cause) : PFault := faultOf class_text class_journal c.

(** ** service.go *)

(** regulatoryDomain *)
Definition regulatoryDomain : M K string :=
  cc <-- on_machine (pr_regdomain backend);; ret (default (cfg_Country cfg) cc).

(** Backend.Detect *)
Definition detect_machine (knobs : list string) : M K (res detect_error Facts) :=
  s <-- get;; on_machine (pr_detect backend knobs (Now (machine s))).

Definition detect_or_fail (knobs : list string) : M K Facts :=
  r <-- detect_machine knobs;;
  match r with
  | Ok f => ret f
  | Err e => refused "detect" (fault (CDetect e))
  end.

(** recoverLocked; netcfg.Recover opens no journal *)
Definition recoverLocked : M K (res jerror Report) := λ s,
  let '(rep, err, w) := Apply.Recover (MkWorld (machine s) (sdisk s) (MkJournal 0 false) []) in
  (Ok (match err with Some e => Err e | None => Ok rep end),
   MkSt (svc s) (kern w) (disk w) (done s ++ [SvRecover (trace w)])).

(** ** The applier within the service *)

(** netcfg.NewApplier, then setApplier *)
Definition open_applier : M K unit := λ s,
  let '(r, d) := OpenJournal (JournalPath cfg) (sdisk s) in
  match r with
  | Ok j => (Ok tt, MkSt (with_applier (Some j) (svc s)) (machine s) d (done s))
  | Err e => (fail "journal" (fault (CJournal e)), MkSt (svc s) (machine s) d (done s))
  end.

Definition applier_world (s : St K) : World K :=
  MkWorld (machine s) (sdisk s) (default (MkJournal 0 false) (applier (svc s))) [].

Definition is_none {A} (o : option A) : bool := match o with Some _ => false | None => true end.

Definition steps_of (h : part) (p : Plan) (cur : gmap string string) : list Step :=
  match h with Pre => PreEngineSteps p cur | Post => PostEngineSteps p cur end.

(** Applier.Apply of one half of a plan's steps, on the service's applier *)
Definition apply_steps (h : part) (p : Plan) (cur : gmap string string) : M K (Report * option apply_error) := λ s,
  let '(rep, err, w) := Apply (steps_of h p cur) (applier_world s) in
  (Ok (rep, err),
   MkSt (with_applier (Some (jrn w)) (svc s)) (kern w) (disk w)
     (done s ++ [SvApply h p cur (trace w) (is_none err)])).

(** Applier.Teardown, and whether it undid everything. *)
Definition teardown_ok (rep : Report) (err : option jerror) : bool := is_none err && negb (0 <? repFailed rep).

Definition run_teardown (j : Journal) : M K (Report * option jerror * Journal) := λ s,
  let '(rep, err, w) := Teardown (MkWorld (machine s) (sdisk s) j []) in
  (Ok (rep, err, jrn w), MkSt (svc s) (kern w) (disk w) (done s ++ [SvTeardown (trace w) (teardown_ok rep err)])).

(** The same on the service's applier, which stays. *)
Definition tear_down : M K (Report * option jerror) :=
  s <-- get;;
  r <-- run_teardown (default (MkJournal 0 false) (applier (svc s)));;
  modify (with_applier (Some r.2));;;
  ret r.1.

(** ** readback.go *)

Definition assertHotspotInterfaceReleased (p : Plan) : M K unit :=
  r <-- on_machine (pr_released (probes (pPlatform p)) p);;
  emit (SvReleased p (is_ok r));;;
  match r with
  | Ok _ => ret tt
  | Err e => refused "hotspot interface" (fault (CVerify e))
  end.

(** The wait of a Windows hotspot: at most [n] more readings. *)
Fixpoint wait_for_ap (n : nat) (p : Plan) (ssid : string) (r : res cause unit) : M K (res cause unit) :=
  match n, r with
  | S n, Err (CVerify ErrNotAccessPoint) =>
      w <-- on_machine (Sleep 500000000);;
      match w with
      | Some c => ret (Err c)
      | None =>
          r <-- on_machine (pr_isAP (probes (pPlatform p)) p ssid);;
          wait_for_ap n p ssid (match r with Ok u => Ok u | Err e => Err (CVerify e) end)
      end
  | _, _ => ret r
  end.

Definition assertHotspotIsAccessPoint (p : Plan) (ssid : string) : M K unit :=
  r <-- on_machine (pr_isAP (probes (pPlatform p)) p ssid);;
  let r := match r with Ok u => Ok u | Err e => Err (CVerify e) end in
  r <-- (if bool_decide (pPlatform p = PlatformWindows) then wait_for_ap 40 p ssid r else ret r);;
  emit (SvAccessPoint p (is_ok r));;;
  match r with
  | Ok _ => ret tt
  | Err c => refused "hotspot readback" (fault c)
  end.

(** ** The engine, the access point, the forwarder *)

Definition engine_start (doc : string) : M K (option string) :=
  e <-- on_machine (EngineStart doc);; emit (SvEngineStart doc (is_none e));;; ret e.

Definition ap_start (hp : HotspotPlan) : M K (APStatus * option cause) :=
  r <-- on_machine (APStart hp);; emit (SvAPStart hp (is_none r.2 && ap_running r.1));;; ret r.

(** The two refusals that follow an access point's start. *)
Definition check_ap (r : APStatus * option cause) : M K unit :=
  match r with
  | (st, Some c) => refused "hotspot" (hotspotFault class_text class_journal unitAP (ap_reason st) (Some c))
  | (st, None) =>
      refuse_when (negb (ap_running st)) "hotspot" (hotspotFault class_text class_journal unitAP (ap_reason st) None)
  end.

(** ** socksport.go *)

Definition chooseSocksPort (preferred : Z) : M K (Z * bool) :=
  r <-- on_machine (NetListen preferred);;
  match r with
  | Some _ => ret (preferred, false)
  | None =>
      r <-- on_machine (NetListen 0);;
      match r with
      | None => refused "local proxy port" FaultUnknown
      | Some port =>
          if (port <=? 0) || (65535 <? port) then refused "local proxy port" FaultUnknown else ret (port, true)
      end
  end.

Definition socksPortInForce (s : Svc) : Z := if socksPort s =? 0 then cfg_SocksPort cfg else socksPort s.

(** ** validate.go and plans.go *)

Definition configFromRequest (doc : string) : res FaultError L :=
  if (String.length doc =? 0)%nat then fail "config" FaultEngineRejectedConfig
  else if maxConfigBytes <? len doc then fail "config" FaultEngineRejectedConfig
  else match ParseLink doc with
       | Some l => Ok l
       | None => fail "config" FaultEngineRejectedConfig
       end.

Definition engineDocument (l : L) (req : StartRequest) (netOpts : Options) (pinned : list Addr) (t : tunnelFacts) :
    M K string :=
  s <-- get;;
  match Build (engine_options cfg l req netOpts pinned t (socksPortInForce (svc s))) with
  | Some doc => ret doc
  | None => refused "compose engine configuration" FaultEngineRejectedConfig
  end.

Definition hotspot_plan (p : Plan) (f : Facts) (req : StartRequest) (cc : string) : M K HotspotPlan :=
  s <-- get;;
  lift_res (hotspotPlanFor class_text class_journal (RandRead (machine s)) cfg p f req cc).

(** ** sni.go *)

Definition spoofDocument (l : L) (req : StartRequest) (p : Plan) (opts : Options) : M K string :=
  match List.find Is4 (ServerAddr p) with
  | None => refused "SNI spoofing" FaultSNISpoofUnsupported
  | Some remote =>
      r <-- on_machine (StartSNI remote (lk_port l) (Uplink p)
             (Split.MkOptions (SpoofSNI req) (sr_TCPSplit req) (sr_TLSRecordSplit req)));;
      emit (SvSNIStart (is_ok r));;;
      match r with
      | Err SNIUnsupported => refused "SNI spoofing" FaultSNISpoofUnsupported
      | Err SNIOther => refused "SNI spoofing" FaultSNISpoofUnavailable
      | Ok f =>
          modify (with_sni (Some f));;;
          match ThroughLoopback l f with
          | None => refused "SNI spoofing" FaultSNISpoofUnavailable
          | Some forwarded =>
              doc <-- engineDocument forwarded req opts [] (tunnelFactsOf p);;
              match EngineValidate doc with
              | Some _ => refused "SNI spoofing" FaultEngineRejectedConfig
              | None => ret doc
              end
          end
      end
  end.

(** ** start.go, applyPreEngine *)

(** After the first plan was undone: what the radio can still be asked for. *)
Definition take_over (p : Plan) (req : StartRequest) (cc : string) : M K (Plan * HotspotPlan * Facts) :=
  fresh <-- detect_or_fail (be_knobs (BackendFor (cfg_Platform cfg)));;
  match HotspotTakeover p fresh with
  | Err e => refused "hotspot takeover" (fault (CPlan e))
  | Ok fallback =>
      lift_res (validateAgainstPlan req fallback);;;
      hp <-- hotspot_plan fallback fresh req cc;;
      open_applier;;;
      r <-- apply_steps Pre fallback (Sysctl fresh);;
      match r.2 with
      | Some e => refused "apply" (fault (CApply e))
      | None => ret (fallback, hp, fresh)
      end
  end.

Definition creates_iface (rep : Report) : bool :=
  match FailedStep rep with
  | Some st => (Op st =? OpCreateIface)%string
  | None => false
  end.

Definition applyPreEngine (p : Plan) (hp : HotspotPlan) (f : Facts) (req : StartRequest) (cc : string) :
    M K (Plan * HotspotPlan * Facts) :=
  open_applier;;;
  r <-- apply_steps Pre p (Sysctl f);;
  match r.2 with
  | None => ret (p, hp, f)
  | Some e =>
      refuse_when (negb (creates_iface r.1)) "apply" (fault (CApply e));;;
      t <-- tear_down;;
      refuse_when (negb (teardown_ok t.1 t.2)) "apply" (fault (CApply e));;;
      modify (with_applier None);;;
      take_over p req cc
  end.

(** ** start.go, applyLocked *)

(** Steps 1 to 7: everything decided before the machine is changed. *)
Record Decided := MkDecided {
  de_link : L;
  de_opts : Options;
  de_plan : Plan;
  de_facts : Facts;
  de_hotspot : HotspotPlan;
  de_country : string;
  de_doc : string
}.

Definition wants_spoof (req : StartRequest) : bool :=
  negb (SpoofSNI req =? "")%string || sr_TCPSplit req || sr_TLSRecordSplit req.

(** Steps 1 and 2: the clock and the request alone. *)
Definition check_request (req : StartRequest) : M K L :=
  s <-- get;;
  refuse_when (negb (clockPlausible (Now (machine s)) (ClockFloor cfg))) "clock" FaultClockImplausible;;;
  l <-- lift_res (configFromRequest (ConfigJSON req));;
  lift_res (validateStatic req);;;
  lift_res (validateSpoof ToASCII (lk_protocol l) (lk_network l) (lk_security l) (SpoofSNI req) (sr_TCPSplit req)
              (sr_TLSRecordSplit req));;;
  ret l.

(** Step 3 *)
Definition recover_first : M K unit :=
  r <-- recoverLocked;;
  match r with
  | Ok _ => ret tt
  | Err e => refused "recover" (fault (CJournal e))
  end.

(** Steps 4 to 6: the machine, the server and the plan. *)
Definition decide_plan (l : L) (req : StartRequest) : M K (Options * Plan * Facts * string) :=
  facts <-- detect_or_fail (be_knobs (BackendFor (cfg_Platform cfg)));;
  lift_res (validateAgainstFacts cfg req facts);;;
  cc <-- (if (hs_Country (sr_Hotspot req) =? "")%string then regulatoryDomain else ret (hs_Country (sr_Hotspot req)));;
  servers <-- on_machine (Resolve (lk_address l));;
  match servers with
  | None => refused "resolve" FaultServerNoAnswer
  | Some servers =>
      port <-- chooseSocksPort (cfg_SocksPort cfg);;
      modify (with_socksPort port.1);;;
      netOpts <-- lift_res (netOptionsFor cfg req port.1);;
      match PlanNetwork facts servers netOpts with
      | Err e => refused "plan" (fault (CPlan e))
      | Ok plan =>
          lift_res (validateAgainstPlan req plan);;;
          facts <-- (if missingKnobs facts (SysctlKnobs plan) then detect_or_fail (SysctlKnobs plan) else ret facts);;
          ret (netOpts, plan, facts, cc)
      end
  end.

(** Step 7 *)
Definition compose (l : L) (req : StartRequest) (x : Options * Plan * Facts * string) : M K Decided :=
  let '(netOpts, plan, facts, cc) := x in
  doc <-- engineDocument l req netOpts (PinnedServers plan) (tunnelFactsOf plan);;
  match EngineValidate doc with
  | Some _ => refused "engine configuration" FaultEngineRejectedConfig
  | None =>
      hp <-- hotspot_plan plan facts req cc;;
      ret (MkDecided l netOpts plan facts hp cc doc)
  end.

(** Steps 8 and 9: apply, prove the interface free, and publish. *)
Definition prepare (d : Decided) (req : StartRequest) : M K (Plan * HotspotPlan * Facts * string) :=
  x <-- applyPreEngine (de_plan d) (de_hotspot d) (de_facts d) req (de_country d);;
  let '(plan, hp, facts) := x in
  assertHotspotInterfaceReleased plan;;;
  doc <-- (if wants_spoof req then spoofDocument (de_link d) req plan (de_opts d) else ret (de_doc d));;
  modify (publish plan facts hp doc);;;
  ret (plan, hp, facts, doc).

(** Steps 10 to 13 *)
Definition bring_up (x : Plan * HotspotPlan * Facts * string) : M K unit :=
  let '(plan, hp, facts, doc) := x in
  e <-- engine_start doc;;
  match e with
  | Some msg => refused "engine" (engineFault msg)
  | None =>
      r <-- apply_steps Post plan (Sysctl facts);;
      match r.2 with
      | Some e => refused "apply" (fault (CApply e))
      | None =>
          st <-- ap_start hp;;
          check_ap st;;;
          assertHotspotIsAccessPoint plan (ap_SSID (AP hp))
      end
  end.

Definition applyLocked (req : StartRequest) (fp : string) : M K unit :=
  l <-- check_request req;;
  recover_first;;;
  x <-- decide_plan l req;;
  d <-- compose l req x;;
  y <-- prepare d req;;
  bring_up y;;;
  modify (mark_running fp (de_country d) (lk_port l)).

(** ** start.go, the rest *)

(** Either the interface is still this service's access point, or it is free. *)
Definition safe_to_bind (plan : option Plan) (ssid : string) : M K unit :=
  match plan with
  | None => ret tt
  | Some p =>
      r <-- attempt_ (assertHotspotIsAccessPoint p ssid);;
      match r with
      | Ok _ => ret tt
      | Err _ => assertHotspotInterfaceReleased p
      end
  end.

Definition zero_hotspot_plan : HotspotPlan :=
  MkHotspotPlan (MkAP "" "" "" "" "" 0 "" "")
    (MkDNS "" (PrefixFrom NoAddr 0) NoAddr NoAddr NoAddr 0 "" (NoAddr, 0) 0 "" "" false) no_radio "" "" false.

Definition reassertLocked : M K unit :=
  s <-- get;;
  let hp := default zero_hotspot_plan (hotspotPlan (svc s)) in
  let doc := default ""%string (engineDoc (svc s)) in
  let plan := sv_plan (svc s) in
  safe_to_bind plan (ap_SSID (AP hp));;;
  e <-- engine_start doc;;
  match e with
  | Some msg => refused "engine" (engineFault msg)
  | None =>
      st <-- ap_start hp;;
      check_ap st;;;
      (match plan with
       | Some p => assertHotspotIsAccessPoint p (ap_SSID (AP hp))
       | None => ret tt
       end);;;
      modify stale_detection
  end.

(** The loop of probeServer: the first address that answers. *)
Fixpoint probe_any (addrs : list Addr) (port : Z) : M K bool :=
  match addrs with
  | [] => ret false
  | a :: addrs => ok <-- on_machine (Probe a port);; if ok then ret true else probe_any addrs port
  end.

Definition probeServer : M K unit :=
  s <-- get;;
  match sv_plan (svc s) with
  | None => ret tt
  | Some p =>
      if (length (ServerAddr p) =? 0)%nat || (serverPortValue (svc s) =? 0) then ret tt
      else
        ok <-- probe_any (ServerAddr p) (serverPortValue (svc s));;
        refuse_when (negb ok) "server" FaultServerNoAnswer
  end.

(** The fault of joined errors: the first class of faultOf's list any of them is
    in. None of the errors of a stop is one this package classified before. *)
Definition fault_order : list PFault :=
  [FaultUnavailable; FaultNoInternetInterface; FaultNoAPAdapter; FaultHotspotFailed; FaultHotspotInterfaceBusy;
   FaultWindowsTooOld; FaultSoftwareMissing; FaultPermissionDenied].

Definition join_fault (cs : list cause) : PFault :=
  default FaultUnknown (List.find (λ f, existsb (λ c, bool_decide (fault c = f)) cs) fault_order).

Definition close_forwarder : M K (option cause) :=
  s <-- get;;
  match sniForwarder (svc s) with
  | None => ret None
  | Some f => e <-- on_machine (CloseSNI f);; emit SvSNIClose;;; modify (with_sni None);;; ret e
  end.

Definition opt_list {A} (o : option A) : list A := match o with Some a => [a] | None => [] end.

Definition stopLocked : M K unit :=
  e1 <-- on_machine EngineStop;; emit SvEngineStop;;;
  e2 <-- close_forwarder;;
  e3 <-- on_machine APStop;; emit SvAPStop;;;
  s <-- get;;
  modify cleared;;;
  e4 <-- match applier (svc s) with
         | None => ret None
         | Some j => r <-- run_teardown j;; ret (CJournal <$> r.1.2)
         end;;
  match (opt_list e1 ++ opt_list e2 ++ opt_list e3 ++ opt_list e4)%list with
  | [] => ret tt
  | errs => refused "stop" (join_fault errs)
  end.

Definition rollbackLocked : M K unit := attempt_ stopLocked;;; ret tt.

(** Start, once nothing is running. *)
Definition start_fresh (req : StartRequest) (fp : string) : M K unit :=
  r <-- attempt_ (applyLocked req fp);;
  match r with
  | Err e => rollbackLocked;;; lift_res (Err e)
  | Ok _ => probeServer
  end.

Definition Start (req : StartRequest) : M K unit :=
  s <-- get;;
  match CheckSupport (machine s) with
  | Some c => refused "platform" (fault c)
  | None =>
      let fp := requestFingerprint key req in
      if running (svc s) && (fingerprint (svc s) =? fp)%string then reassertLocked
      else
        (if running (svc s) then stopLocked else ret tt);;;
        start_fresh req fp
  end.

Definition Stop : M K unit := stopLocked.

(** recoverToCleanMachine; its error wraps the replay's *)
Definition recoverToCleanMachine : M K unit :=
  attempt_ stopLocked;;;
  r <-- recoverLocked;;
  match r with
  | Ok _ => ret tt
  | Err e => refused "recover" (fault (CJournal e))
  end.

Definition Recover (req : StartRequest) : M K unit := recoverToCleanMachine;;; Start req.

Definition ReplayJournal : M K (res jerror Report) := recoverLocked.

(** ** cut.go *)

Definition fwd_eqb (a b : ForwardState) : bool :=
  match a, b with
  | ForwardNormal, ForwardNormal | ForwardCut, ForwardCut => true
  | _, _ => false
  end.

Definition setForward (want : ForwardState) : M K unit :=
  s <-- get;;
  match sv_plan (svc s) with
  | Some p =>
      if negb (running (svc s)) then refused "cut" FaultNotRunning
      else if fwd_eqb (forward (svc s)) want then ret tt
      else
        let st := match want with ForwardCut => CutStep p | ForwardNormal => RestoreStep p end in
        r <-- on_machine (Run (Do st));;
        emit (SvForward (Do st) (is_none r.2));;;
        match r.2 with
        | Some msg => refused "cut" (class_text msg)
        | None => modify (with_forward want)
        end
  | None => refused "cut" FaultNotRunning
  end.

Definition Cut : M K unit := setForward ForwardCut.
Definition Restore : M K unit := setForward ForwardNormal.
Definition ClientTrafficCut (s : Svc) : bool := fwd_eqb (forward s) ForwardCut.

(** Close: the journal's handle only *)
Definition Close : M K unit := λ s,
  match applier (svc s) with
  | None => (Ok tt, s)
  | Some j =>
      let '(err, _, d) := CloseJournal j (sdisk s) in
      (match err with Some e => fail "close" (fault (CJournal e)) | None => Ok tt end,
       MkSt (with_applier None (svc s)) (machine s) d (done s))
  end.

(** ** service.go, the reading half *)

Definition detectionPlaceholderServer : Addr := quad 192 0 2 1.

Definition detect : M K Detection :=
  facts <-- detect_or_fail (be_knobs (BackendFor (cfg_Platform cfg)));;
  cc <-- regulatoryDomain;;
  s <-- get;;
  let '(plan, flt) :=
    match sv_plan (svc s) with
    | Some live => if running (svc s) then (Some live, FaultNone) else
        match PlanNetwork facts [detectionPlaceholderServer] (netOptions cfg) with
        | Ok p => (Some p, FaultNone)
        | Err e => (None, fault (CPlan e))
        end
    | None =>
        match PlanNetwork facts [detectionPlaceholderServer] (netOptions cfg) with
        | Ok p => (Some p, FaultNone)
        | Err e => (None, fault (CPlan e))
        end
    end in
  let now := Now (machine s) in
  let d := detectionFrom facts plan cc flt now in
  modify (with_detection facts d now cc);;;
  ret d.

(** [ttl] is Config.DetectTTL; the time is zero until a detection was stored. *)
Definition cachedDetection (ttl : Z) : M K Detection :=
  s <-- get;;
  let d := lastDetect (svc s) in
  if match lastDetectAt (svc s) with Some at_ => Now (machine s) - at_ <? ttl | None => false end then ret d
  else
    r <-- attempt_ detect;;
    match r with
    | Ok fresh => ret fresh
    | Err e => ret (set_detection_fault (fe_fault e) d)
    end.

Record HotspotStatus := MkHotspotStatus {
  hst_Running : bool;
  hst_SSID : string;
  hst_Devices : Z;
  hst_UnreadableLeaseLines : Z;
  hst_Fault : PFault
}.

Record SystemStatus := MkSystemStatus {
  ss_Engine : EngineState;
  ss_Hotspot : HotspotStatus;
  ss_Detection : Detection;
  ss_ClientTrafficCut : bool;
  ss_LocalProxy : string;
  ss_At : Z
}.

(** SystemStatus.Connected *)
Definition StatusConnected (s : SystemStatus) : bool :=
  match es_Phase (ss_Engine s) with PhaseRunning => true | _ => false end && hst_Running (ss_Hotspot s) &&
  negb (ss_ClientTrafficCut s).

Definition localProxyAddr (port : Z) : string := (DefaultSocksListen ++ ":" ++ Itoa port)%string.

(** hotspotOnTheAir: None when the reading says nothing about the interface *)
Definition hotspotOnTheAir (f : Facts) (iface ssid : string) : option bool :=
  if (iface =? "")%string then None
  else match WirelessByName f iface with
       | None => None
       | Some w => Some (IsAccessPoint w && ((ssid =? "")%string || (SSID w =? ssid)%string))
       end.

Definition not_on_air_reason : string :=
  "The hotspot software is running and the wireless adapter is not broadcasting this network.".

(** The access point's answer, corrected by what the last detection read. *)
Definition hotspot_status (v : Svc) (iface : string) (hs : APStatus) : HotspotStatus :=
  let ssid := match hotspotPlan v with Some hp => ap_SSID (AP hp) | None => "" end in
  let off_air :=
    running v && bool_decide (cfg_Platform cfg = PlatformLinux) &&
    match hotspotOnTheAir (sv_facts v) iface ssid with Some on => negb on | None => false end in
  let up := if off_air then false else ap_running hs in
  let reason := if off_air then not_on_air_reason else ap_reason hs in
  MkHotspotStatus up (if running v then ssid else "") (Z.of_nat (length (ap_devices hs))) (ap_malformed hs)
    (if running v && negb up then hotspotFault class_text class_journal unitAP reason None else FaultNone).

Definition Status (ttl : Z) : M K SystemStatus :=
  s0 <-- get;;
  let eng := EngineStateOf (machine s0) in
  d <-- cachedDetection ttl;;
  s <-- get;;
  let v := svc s in
  let now := Now (machine s) in
  let proxy := if running v && negb (socksPort v =? 0) then localProxyAddr (socksPort v) else "" in
  let iface := match sv_plan v with Some p => Hotspot (hot p) | None => HotspotInterface d end in
  let result hs := MkSystemStatus eng hs d (ClientTrafficCut v) proxy now in
  if (iface =? "")%string then
    ret (result (MkHotspotStatus false "" 0 0
      (if bool_decide (dt_Fault d = FaultNone) then FaultNoAPAdapter else dt_Fault d)))
  else
    r <-- on_machine (APQuery iface);;
    ret (result (match r with
                 | Err c => MkHotspotStatus false "" 0 0 (fault c)
                 | Ok hs => hotspot_status v iface hs
                 end)).

End Operations.
