(* ===== verification/Refresh.v ===== *)
(** * Fetching a subscription (internal/privsvc/refresh.go)

    Refresh, its address check and its redirect policy. The HTTP client dials
    through the loopback proxy and follows redirects after asking CheckRedirect;
    one exchange on the network is the parameter [Exchange]. Every address asked
    for is recorded. *)

From S2P Require Import Prelude GoStrings Netip Text Url StateError Frame Privsvc Service.
From S2P Require Facts.

Local Open Scope Z_scope.

Definition maxRefreshBodyBytes : Z := 262144.
Definition maxRefreshHeaderBytes : nat := 1024.
Definition maxRefreshRedirects : nat := 3.

Definition refreshHeaderAllowList : list string :=
  ["subscription-userinfo"; "profile-title"; "content-disposition"; "profile-update-interval"].

Inductive refresh_error := errRefreshBadAddress | errRefreshNotHTTPS | errRefreshTooManyRedirects | errRefreshNoAnswer.

(** checkRefreshAddress; [None] is a nil URL *)
Definition checkRefreshAddress (u : option URL) : option refresh_error :=
  match u with
  | None => Some errRefreshBadAddress
  | Some u =>
      if negb (Facts.EqualFold (Scheme u) "https") then Some errRefreshNotHTTPS
      else match User u with
           | Some _ => Some errRefreshBadAddress
           | None =>
               let host := Hostname u in
               if (host =? "")%string then Some errRefreshBadAddress
               else match ParseIP (fst (cut host "%")) with
                    | Some _ => Some errRefreshBadAddress
                    | None => None
                    end
           end
  end.

Record HTTPAnswer := MkAnswer {
  StatusCode : Z;
  header : string → string;              (* Header.Get *)
  BodyBytes : res string (list ascii)    (* what reading the body to its end gives *)
}.

(** One exchange: no answer, a redirect the client would follow, or an answer. A
    redirect whose Location does not parse is an error of the client. *)
Inductive hop := NoAnswer | RedirectTo (u : URL) | Answered (a : HTTPAnswer).

Class Exchanges (K : Type) := Exchange : URL → Z → K → hop * K.   (* the URL and the proxy's port *)

Record RefreshReply := MkReply { rp_Status : Z; rp_Body : list ascii; rp_Headers : list (string * string) }.

Section Refresh.
Context {K : Type} `{Exchanges K}.

(** client.Do: [via] requests were made before this one. *)
Fixpoint do_request (fuel : nat) (port : Z) (via : nat) (u : URL) (asked : list URL) (k : K) :
    res refresh_error HTTPAnswer * list URL * K :=
  match fuel with
  | O => (Err errRefreshNoAnswer, asked, k)
  | S fuel =>
      let '(h, k) := Exchange u port k in
      let asked := asked ++ [u] in
      match h with
      | NoAnswer => (Err errRefreshNoAnswer, asked, k)
      | Answered a => (Ok a, asked, k)
      | RedirectTo u' =>
          let via := S via in
          if (maxRefreshRedirects <? via)%nat then (Err errRefreshTooManyRedirects, asked, k)
          else match checkRefreshAddress (Some u') with
               | Some e => (Err e, asked, k)
               | None => do_request fuel port via u' asked k
               end
      end
  end.

Definition classifyRefreshError (e : refresh_error) : PFault :=
  match e with
  | errRefreshNotHTTPS => FaultRefreshNotHTTPS
  | errRefreshBadAddress => FaultRefreshBadAddress
  | _ => FaultRefreshNoAnswer
  end.

Definition kept_headers (h : string → string) : list (string * string) :=
  omap (λ n, let v := h n in
             if (v =? "")%string || (maxRefreshHeaderBytes <? String.length v)%nat then None else Some (n, v))
    refreshHeaderAllowList.

(** Once the answer is there. *)
Definition take_answer (a : HTTPAnswer) : res PFault RefreshReply :=
  let headers := kept_headers (header a) in
  if (StatusCode a <? 200) || (299 <? StatusCode a) then Ok (MkReply (StatusCode a) [] headers)
  else match BodyBytes a with
       | Err _ => Err FaultRefreshNoAnswer
       | Ok body =>
           if maxRefreshBodyBytes <? Z.of_nat (List.length body) then Err FaultRefreshTooLarge
           else Ok (MkReply (StatusCode a) body headers)
       end.

(** Refresh: [running] is the engine's phase, [port] socksPortInForce *)
Definition Refresh (running : bool) (port : Z) (url : string) (k : K) : res PFault RefreshReply * list URL * K :=
  if negb running then (Err FaultNotRunning, [], k)
  else match Url.Parse url with
       | None => (Err FaultRefreshBadAddress, [], k)
       | Some target =>
           match checkRefreshAddress (Some target) with
           | Some _ => (Err FaultRefreshBadAddress, [], k)
           | None =>
               match do_request (S (S maxRefreshRedirects)) port 0 target [] k with
               | (Err e, asked, k) => (Err (classifyRefreshError e), asked, k)
               | (Ok a, asked, k) => (take_answer a, asked, k)
               end
           end
       end.

(** As the service runs it: the phase and the port are its own, and neither lock
    is taken nor any field touched. *)
Definition refresh_request `{Engine K} (cfg : Config) (url : string) : M K RefreshReply := λ s,
  let running := match es_Phase (EngineStateOf (machine s)) with PhaseRunning => true | _ => false end in
  let '(r, _, k) := Refresh running (socksPortInForce cfg (svc s)) url (machine s) in
  (match r with Ok reply => Ok reply | Err f => fail "refresh" f end, MkSt (svc s) k (sdisk s) (done s)).

(** What every exchange keeps, a refresh keeps. *)
Lemma do_request_preserves (I : K → Prop) : (∀ u port, preserves I (Exchange u port)) →
  ∀ fuel port via u asked k, I k → I (do_request fuel port via u asked k).2.
Proof.
  intros HI. induction fuel as [|fuel IH]; intros port via u asked k Hk; [done|]. cbn [do_request].
  specialize (HI u port k Hk). destruct (Exchange u port k) as [[|u'|a] k']; [done| |done].
  destruct (_ <? _)%nat; [done|]. destruct (checkRefreshAddress _); [done|]. by apply IH.
Qed.
Lemma Refresh_preserves (I : K → Prop) running port url k : (∀ u port, preserves I (Exchange u port)) →
  I k → I (Refresh running port url k).2.
Proof.
  intros HI Hk. unfold Refresh. destruct running; [|done]. cbn [negb]. destruct (Parse url) as [u|]; [|done].
  destruct (checkRefreshAddress (Some u)); [done|]. pose proof (do_request_preserves I HI (S (S maxRefreshRedirects)) port 0 u [] k Hk) as Hd.
  by destruct (do_request _ _ _ _ _ _) as [[[a|e] asked] k'].
Qed.

(** ** What is asked for *)

(** An address a refresh may be fetched from: https, by name, with no password. *)
Definition fetchable (u : URL) : Prop :=
  Facts.EqualFold (Scheme u) "https" = true ∧ User u = None ∧ Hostname u ≠ ""%string ∧ ParseIP (fst (cut (Hostname u) "%")) = None.

Lemma check_fetchable u : checkRefreshAddress (Some u) = None → fetchable u.
Proof.
  unfold checkRefreshAddress, fetchable. destruct (Facts.EqualFold (Scheme u) "https"); [|done]. destruct (User u); [done|].
  destruct (Hostname u =? "")%string eqn:E; [done|]. apply String.eqb_neq in E. destruct (ParseIP _); [done|]. auto.
Qed.

(** The fuel never runs out: the redirect bound ends the loop first. *)
Lemma do_request_asks fuel port via u asked k :
  fetchable u → Forall fetchable asked → List.length asked = via → (via ≤ maxRefreshRedirects)%nat →
  (S maxRefreshRedirects < fuel + via)%nat →
  let '(r, asked', _) := do_request fuel port via u asked k in
  Forall fetchable asked' ∧ (List.length asked' ≤ S maxRefreshRedirects)%nat ∧
  ∀ more, do_request (fuel + more) port via u asked k = do_request fuel port via u asked k.
Proof.
  revert via u asked k. induction fuel as [|fuel IH]; intros via u asked k Hu Ha Hl Hv Hf; [simpl in Hf; lia|]. cbn [do_request Nat.add].
  destruct (Exchange u port k) as [h k'].
  assert (Forall fetchable (asked ++ [u])) as Ha' by (apply Forall_app; split; [done|by apply Forall_singleton]).
  assert (List.length (asked ++ [u]) = S via) as Hl' by (rewrite length_app; simpl; lia).
  destruct h as [|u'|a]; [split_and!; [done|lia|done]| |split_and!; [done|lia|done]].
  destruct (maxRefreshRedirects <? S via)%nat eqn:E; breflect; [split_and!; [done|lia|done]|].
  destruct (checkRefreshAddress (Some u')) as [e|] eqn:Ec; [split_and!; [done|lia|done]|].
  apply check_fetchable in Ec. apply (IH (S via) u' (asked ++ [u])%list k'); try done; lia.
Qed.

(** C22. A refresh leaves the machine only as it promised: nothing is asked for unless
    the engine runs; every address asked for, redirects included, is https, a name
    and not an IP literal (which the engine would route around the proxy), without
    a user or password; at most four requests are made; a configuration it hands
    back is at most 256 KiB; and the bound on the client's loop is never what ends it. *)
Theorem refresh_stays_in_tunnel running port url (k : K) :
  let '(r, asked, _) := Refresh running port url k in
  Forall fetchable asked ∧ (List.length asked ≤ 4)%nat ∧ (running = false → asked = [] ∧ r = Err FaultNotRunning) ∧
  (∀ reply, r = Ok reply → Z.of_nat (List.length (rp_Body reply)) ≤ maxRefreshBodyBytes ∧ asked ≠ []) ∧
  (∀ u more, checkRefreshAddress (Some u) = None →
     do_request (S (S maxRefreshRedirects) + more) port 0 u [] k = do_request (S (S maxRefreshRedirects)) port 0 u [] k).
Proof.
  assert (∀ u more, checkRefreshAddress (Some u) = None →
     do_request (S (S maxRefreshRedirects) + more) port 0 u [] k = do_request (S (S maxRefreshRedirects)) port 0 u [] k) as Hfuel.
  { intros u more E. apply check_fetchable in E.
    pose proof (do_request_asks (S (S maxRefreshRedirects)) port 0 u [] k E ltac:(done) eq_refl ltac:(unfold maxRefreshRedirects; lia) ltac:(lia)) as Hd.
    destruct (do_request (S (S maxRefreshRedirects)) port 0 u [] k) as [[r asked] k']. by destruct Hd as (_ & _ & ->). }
  unfold Refresh. destruct running; cbn [negb]; [|split_and!; [done|simpl; lia|done|done|done]].
  destruct (Parse url) as [target|]; [|split_and!; [done|simpl; lia|done|done|done]].
  destruct (checkRefreshAddress (Some target)) as [e|] eqn:Ec; [split_and!; [done|simpl; lia|done|done|done]|].
  apply check_fetchable in Ec.
  pose proof (do_request_asks (S (S maxRefreshRedirects)) port 0 target [] k Ec ltac:(done) eq_refl ltac:(unfold maxRefreshRedirects; lia) ltac:(lia)) as Hd.
  assert (∀ r asked k', do_request (S (S maxRefreshRedirects)) port 0 target [] k = (Ok r, asked, k') → asked ≠ []) as Hne.
  { assert (∀ fuel via u acc k r asked k', do_request fuel port via u acc k = (Ok r, asked, k') → asked ≠ []) as Hg.
    { clear. induction fuel as [|fuel IH]; intros via u acc k r asked k' E; [done|]. cbn [do_request] in E. destruct (Exchange u port k) as [h k1].
      destruct h; [done| |injection E as _ <- _; by destruct acc]. destruct (_ <? _)%nat; [done|]. destruct (checkRefreshAddress _); [done|]. by eapply IH. }
    intros; eapply Hg; eauto. }
  destruct (do_request (S (S maxRefreshRedirects)) port 0 target [] k) as [[[a|e] asked] k'] eqn:Ed; destruct Hd as (Hf & Hl & _).
  - split_and!; [done|done|done| |done]. intros reply. unfold take_answer. destruct (_ || _); [intros [= <-]; split; [simpl; unfold maxRefreshBodyBytes; lia|by eapply Hne]|].
    destruct (BodyBytes a) as [b|]; [|done]. destruct (maxRefreshBodyBytes <? Z.of_nat (List.length b)) eqn:E; breflect; [done|]. intros [= <-].
    split; [exact E|by eapply Hne].
  - split_and!; done.
Qed.
End Refresh.
