(* ===== verification/ServiceFacts.v ===== *)
(** * What the privileged service guarantees

    The lifecycle the comments of start.go describe is a transition system over
    the events that touch the machine. The operations refine it: every run of
    requests is a run of the system, and the service's fields agree with the phase
    it is in. The guarantees are then facts about the system. *)

From S2P Require Import Prelude GoStrings Sha256 Netip Text Facts Command Journal Apply ApplyReplay Parse Subnet HotspotConf Plan Nft Steps Detect.
From S2P Require Hello Split.
From S2P Require Import StateError Privsvc Service Refresh.

Local Open Scope Z_scope.

(** ** The abstract lifecycle *)

Inductive phase :=
| Off                  (* nothing of ours is up; a journal may be left *)
| Clean                (* the journal left behind was replayed *)
| Dirty                (* the first half of a plan failed part way *)
| Applied (p : Plan)   (* the first half is applied *)
| Proved (p : Plan)    (* and the hotspot interface was read back as free *)
| Tunnelled (p : Plan) (* the engine runs *)
| Routed (p : Plan)    (* the second half is applied *)
| OnAir (p : Plan)     (* the access point started *)
| On (p : Plan)        (* and was read back: running *)
| Unsure (p : Plan)    (* running, repairing: it is not the access point *)
| Checked (p : Plan)   (* running, repairing: safe to bind *)
| Repaired (p : Plan)
| ReOnAir (p : Plan)
| Doubtful (p : Plan)  (* running, and a repair failed *)
| Failing              (* a start failed: only a stop may follow *)
| Halting (owed : bool)
| Undoing.

(** Whether the applier owes the machine an undo. *)
Definition owes (f : phase) : bool :=
  match f with Off | Clean => false | Halting b => b | _ => true end.

Inductive moves : phase → SEvent → phase → Prop :=
| m_recover f evs : f = Off ∨ f = Clean → moves f (SvRecover evs) Clean
| m_apply p cur evs ok : moves Clean (SvApply Pre p cur evs ok) (if ok then Applied p else Dirty)
| m_undo evs ok : moves Dirty (SvTeardown evs ok) (if ok then Clean else Failing)
| m_free p ok : moves (Applied p) (SvReleased p ok) (if ok then Proved p else Failing)
| m_sni p ok : moves (Proved p) (SvSNIStart ok) (if ok then Proved p else Failing)
| m_engine p doc ok : moves (Proved p) (SvEngineStart doc ok) (if ok then Tunnelled p else Failing)
| m_routes p cur evs ok : moves (Tunnelled p) (SvApply Post p cur evs ok) (if ok then Routed p else Failing)
| m_ap p hp ok : moves (Routed p) (SvAPStart hp ok) (if ok then OnAir p else Failing)
| m_up p ok : moves (OnAir p) (SvAccessPoint p ok) (if ok then On p else Failing)
| m_ask f p ok : f = On p ∨ f = Doubtful p → moves f (SvAccessPoint p ok) (if ok then Checked p else Unsure p)
| m_ask_free p ok : moves (Unsure p) (SvReleased p ok) (if ok then Checked p else Doubtful p)
| m_reengine p doc ok : moves (Checked p) (SvEngineStart doc ok) (if ok then Repaired p else Doubtful p)
| m_reap p hp ok : moves (Repaired p) (SvAPStart hp ok) (if ok then ReOnAir p else Doubtful p)
| m_reup p ok : moves (ReOnAir p) (SvAccessPoint p ok) (if ok then On p else Doubtful p)
| m_forward f p c ok :
    f = On p ∨ f = Doubtful p → c = Do (CutStep p) ∨ c = Do (RestoreStep p) → moves f (SvForward c ok) f
| m_halt f : moves f SvEngineStop (Halting (owes f))
| m_unsni b : moves (Halting b) SvSNIClose (Halting b)
| m_unap b : moves (Halting b) SvAPStop (if b then Undoing else Off)
| m_undone evs ok : moves Undoing (SvTeardown evs ok) Off.

Inductive path : list SEvent → phase → Prop :=
| path_nil : path [] Off
| path_snoc l e f g : path l f → moves f e g → path (l ++ [e]) g.

(** ** What the fields say in each phase, between two requests *)

(** What stopLocked clears. The hotspot's plan, the server's port, the facts, the
    country and the last detection are kept. *)
Definition nothing_up (v : Svc) : Prop :=
  running v = false ∧ sv_plan v = None ∧ applier v = None ∧ engineDoc v = None ∧ fingerprint v = "" ∧
  forward v = ForwardNormal ∧ socksPort v = 0 ∧ sniForwarder v = None.

Definition up_with (p : Plan) (v : Svc) : Prop :=
  running v = true ∧ sv_plan v = Some p ∧ is_Some (applier v) ∧ is_Some (engineDoc v) ∧ is_Some (hotspotPlan v).

Definition settled_in (f : phase) (v : Svc) : Prop :=
  match f with
  | Off | Clean => nothing_up v
  | On p | Doubtful p => up_with p v
  | _ => False
  end.

(** ** Triples *)

Definition assn := Svc → phase → Prop.

Section Triples.
Context {K L : Type} `{Runner K} `{Engine K} `{AccessPoint K} `{HostI : Host K L}.
Context (cfg : Config) (key : list Z) (other_probes : Platform → Probes K).

Definition holds (P : assn) (s : St K) : Prop := ∃ f, path (done s) f ∧ P (svc s) f.

(** From [P], the operation ends in [Q] of its value, or refuses in [E]. *)
Definition triple {A} (P : assn) (m : M K A) (Q : A → assn) (E : assn) : Prop :=
  hoare (holds P) m (λ a, holds (Q a)) (holds E).

Lemma triple_conseq {A} (P P' : assn) (m : M K A) Q Q' (E E' : assn) :
  triple P' m Q' E' → (∀ v f, P v f → P' v f) → (∀ a v f, Q' a v f → Q a v f) → (∀ v f, E' v f → E v f) →
  triple P m Q E.
Proof.
  intros T HP HQ HE. eapply hoare_conseq; [exact T|..]; intros; unfold holds in *; naive_solver.
Qed.

Lemma triple_err {A} (P : assn) (m : M K A) Q (E E' : assn) :
  triple P m Q E' → (∀ v f, E' v f → E v f) → triple P m Q E.
Proof. intros T HE. by eapply triple_conseq; [exact T| | |]. Qed.

Lemma triple_bind {A B} P (m : M K A) R (f : A → M K B) Q E :
  triple P m R E → (∀ a, triple (R a) (f a) Q E) → triple P (bind m f) Q E.
Proof. apply hoare_bind. Qed.

Lemma triple_ret {A} (P : assn) (a : A) (Q : A → assn) E : (∀ v f, P v f → Q a v f) → triple P (ret a) Q E.
Proof. intros HQ s (f & ? & ?). exists f. auto. Qed.

Lemma triple_refused {A} (P E : assn) w ft (Q : A → assn) : (∀ v f, P v f → E v f) → triple P (refused w ft) Q E.
Proof. intros HE s (f & ? & ?). exists f. auto. Qed.

Lemma triple_lift {A} (P E : assn) (r : res FaultError A) :
  (∀ v f, P v f → E v f) → triple P (lift_res r) (λ _, P) E.
Proof. intros HE s (f & ? & ?). unfold lift_res. destruct r; exists f; auto. Qed.

Lemma triple_when (P E : assn) b w ft :
  (∀ v f, P v f → E v f) → triple P (refuse_when b w ft) (λ _ v f, P v f ∧ b = false) E.
Proof. intros HE. destruct b; [by apply triple_refused|apply triple_ret; auto]. Qed.

Lemma triple_machine {A} (P E : assn) (f : K → A * K) : triple P (on_machine f) (λ _, P) E.
Proof. intros s (g & ? & ?). unfold on_machine. destruct (f (machine s)). exists g. auto. Qed.

Lemma triple_get (P E : assn) : triple P get (λ t v f, P v f ∧ v = svc t) E.
Proof. intros s (g & ? & ?). exists g. auto. Qed.

(** Reading the state: what is read satisfies the precondition. *)
Lemma triple_get_then {B} (P : assn) (k : St K → M K B) Q E :
  (∀ t, (∃ f, P (svc t) f) → triple P (k t) Q E) → triple P (bind get k) Q E.
Proof. intros Hk s Hs. apply Hk; [|done]. destruct Hs as (f & _ & Hf). by exists f. Qed.

Lemma triple_modify (P : assn) (g : Svc → Svc) (Q : unit → assn) E :
  (∀ v f, P v f → Q tt (g v) f) → triple P (modify g) Q E.
Proof. intros HQ s (f & ? & ?). exists f. simpl. auto. Qed.

Lemma triple_emit (P : assn) e (Q : unit → assn) E :
  (∀ v f, P v f → ∃ g, moves f e g ∧ Q tt v g) → triple P (emit e) Q E.
Proof.
  intros HQ s (f & Hp & Hf). destruct (HQ _ _ Hf) as (g & Hm & Hg). exists g. simpl. eauto using path_snoc.
Qed.

Lemma triple_attempt {A} (P : assn) (m : M K A) Q E (R : res FaultError A → assn) F :
  triple P m Q E → (∀ a v f, Q a v f → R (Ok a) v f) → (∀ e v f, E v f → R (Err e) v f) →
  triple P (attempt_ m) R F.
Proof.
  intros T HQ HE. eapply hoare_attempt; [exact T|..]; intros; unfold holds in *; naive_solver.
Qed.

(** One event, whose outcome decides where the operation goes on. *)
Definition goes (P : assn) (e : SEvent) (Q : assn) : Prop := ∀ v f, P v f → ∃ g, moves f e g ∧ Q v g.

Lemma triple_event {A B} (P E : assn) (call : K → A * K) (ev : A → SEvent) (k : A → M K B) (R : B → assn) :
  (∀ a, ∃ P', goes P (ev a) P' ∧ triple P' (k a) R E) →
  triple P (bind (on_machine call) (λ a, bind (emit (ev a)) (λ _, k a))) R E.
Proof.
  intros Hk. eapply triple_bind; [apply triple_machine|]. intros a. destruct (Hk a) as (P' & Hg & Ht).
  apply triple_bind with (R := λ _, P'); [by apply triple_emit|intros _; exact Ht].
Qed.

Lemma released_triple (P Q E : assn) p :
  goes P (SvReleased p true) Q → goes P (SvReleased p false) E →
  triple P (assertHotspotInterfaceReleased other_probes p) (λ _, Q) E.
Proof.
  intros HQ HE. unfold assertHotspotInterfaceReleased. apply (triple_event P E). intros [u|e].
  - exists Q. split; [exact HQ|by apply triple_ret].
  - exists E. split; [exact HE|by apply triple_refused].
Qed.

Lemma wait_triple (P E : assn) n p ssid r : triple P (wait_for_ap other_probes n p ssid r) (λ _, P) E.
Proof.
  revert r. induction n as [|n IH]; intros r; simpl; [by apply triple_ret|].
  destruct r as [u|c]; [by apply triple_ret|]. destruct c as [|e'| | | | | |]; try by apply triple_ret.
  destruct e'; try by apply triple_ret.
  eapply triple_bind; [apply triple_machine|]. intros [c|]; [by apply triple_ret|].
  eapply triple_bind; [apply triple_machine|]. intros r. apply IH.
Qed.

Lemma access_point_triple (P Q E : assn) p ssid :
  goes P (SvAccessPoint p true) Q → goes P (SvAccessPoint p false) E →
  triple P (assertHotspotIsAccessPoint other_probes p ssid) (λ _, Q) E.
Proof.
  intros HQ HE. unfold assertHotspotIsAccessPoint.
  eapply triple_bind; [apply triple_machine|]. intros r. cbv zeta.
  eapply triple_bind with (R := λ _, P).
  { case_bool_decide; [apply wait_triple|by apply triple_ret]. }
  intros [u|c].
  - apply triple_bind with (R := λ _, Q); [by apply triple_emit|intros _; by apply triple_ret].
  - apply triple_bind with (R := λ _, E); [by apply triple_emit|intros _; by apply triple_refused].
Qed.

Lemma engine_start_triple (P : assn) doc (Q : option string → assn) E :
  (∀ r, goes P (SvEngineStart doc (is_none r)) (Q r)) → triple P (engine_start doc) Q E.
Proof.
  intros HQ. unfold engine_start. apply (triple_event P E). intros r. exists (Q r). split; [apply HQ|by apply triple_ret].
Qed.

Lemma ap_start_triple {B} (P Q E : assn) hp (k : unit → M K B) (R : B → assn) :
  goes P (SvAPStart hp true) Q → goes P (SvAPStart hp false) E → triple Q (k tt) R E →
  triple P (bind (ap_start hp) (λ st, bind (check_ap st) k)) R E.
Proof.
  intros HQ HE Hk. eapply triple_bind with (R := λ r, if is_none r.2 && ap_running r.1 then Q else E).
  - unfold ap_start. apply triple_event. intros r. exists (if is_none r.2 && ap_running r.1 then Q else E). split.
    + by destruct (_ && _).
    + by apply triple_ret.
  - intros [[up why devs bad] [c|]]; simpl.
    + eapply triple_bind with (R := λ _ _ _, False); [by apply triple_refused|]. intros [] s (? & _ & []).
    + destruct up; simpl.
      * eapply triple_bind with (R := λ _, Q); [by apply triple_ret|]. by intros [].
      * eapply triple_bind with (R := λ _ _ _, False); [by apply triple_refused|]. intros [] s (? & _ & []).
Qed.

(** ** Stopping *)

Definition tidy (v : Svc) (f : phase) : Prop := if owes f then is_Some (applier v) else applier v = None.

Definition is_off : assn := λ v f, f = Off ∧ nothing_up v.

Lemma close_forwarder_triple (E : assn) b :
  triple (λ v f, f = Halting b ∧ tidy v f) close_forwarder
    (λ _ v f, f = Halting b ∧ tidy v f ∧ sniForwarder v = None) E.
Proof.
  unfold close_forwarder. eapply triple_bind; [apply triple_get|]. intros t. destruct (sniForwarder (svc t)) as [x|] eqn:Es.
  - eapply triple_bind; [apply triple_machine|]. intros e.
    eapply triple_bind with (R := λ _ v f, f = Halting b ∧ tidy v f).
    { apply triple_emit. intros v f [[-> Ht] _]. exists (Halting b). split; [constructor|done]. }
    intros _. eapply triple_bind with (R := λ _ v f, f = Halting b ∧ tidy v f ∧ sniForwarder v = None).
    { apply triple_modify. intros v f [-> Ht]. done. }
    intros _. by apply triple_ret.
  - apply triple_ret. intros v f [[-> Ht] ->]. done.
Qed.

Lemma stop_triple : triple tidy stopLocked (λ _, is_off) is_off.
Proof.
  unfold stopLocked.
  eapply triple_bind; [apply triple_machine|]. intros e1.
  eapply triple_bind with (R := λ _ v f, ∃ b, f = Halting b ∧ tidy v f).
  { apply triple_emit. intros v f Ht. exists (Halting (owes f)). split; [constructor|]. exists (owes f). done. }
  intros _ s (f & Hp & b & -> & Ht). revert s Hp Ht.
  enough (triple (λ v f, f = Halting b ∧ tidy v f) _ (λ _, is_off) is_off) as HT by (intros s Hp Ht; apply HT; exists (Halting b); done).
  eapply triple_bind; [apply close_forwarder_triple|]. intros e2.
  eapply triple_bind; [apply triple_machine|]. intros e3.
  eapply triple_bind with (R := λ _ v f, f = (if b then Undoing else Off) ∧ tidy v (Halting b) ∧ sniForwarder v = None).
  { apply triple_emit. intros v f (-> & Ht & Hs). exists (if b then Undoing else Off). split; [constructor|done]. }
  intros _. eapply triple_bind; [apply triple_get|]. intros t.
  eapply triple_bind with
    (R := λ _ v f, f = (if b then Undoing else Off) ∧ tidy (svc t) (Halting b) ∧ nothing_up v).
  { apply triple_modify. intros v f ((-> & Ht & Hs) & ->). split_and!; [done|done|]. repeat split; done. }
  intros _. eapply triple_bind with (R := λ _, is_off).
  - destruct (applier (svc t)) as [j|] eqn:Ea.
    + eapply triple_bind with (R := λ _, is_off); [|intros r; by apply triple_ret].
      intros s (f & Hp & -> & Ht & Hn). unfold run_teardown. destruct (Teardown _) as [[rep err] w].
      destruct b; [|unfold tidy in Ht; simpl in Ht; congruence].
      exists Off. simpl. split; [|done]. eapply path_snoc; [exact Hp|constructor].
    + apply triple_ret. intros v f (-> & Ht & Hn). unfold tidy in Ht. simpl in Ht.
      destruct b; [destruct Ht; congruence|done].
  - intros e4. destruct (_ ++ _)%list; [by apply triple_ret|by apply triple_refused].
Qed.

(** ** Starting *)

(** Nothing is open while the plan is being decided. *)
Definition waiting (f0 : phase) : assn := λ v f, f = f0 ∧ applier v = None.
Definition at_work (f0 : phase) : assn := λ v f, f = f0 ∧ is_Some (applier v).

Lemma waiting_tidy f0 : owes f0 = false → ∀ v f, waiting f0 v f → tidy v f.
Proof. intros Ho v f [-> Ha]. unfold tidy. by rewrite Ho. Qed.
Lemma at_work_tidy f0 : owes f0 = true → ∀ v f, at_work f0 v f → tidy v f.
Proof. intros Ho v f [-> Ha]. unfold tidy. by rewrite Ho. Qed.
Local Hint Extern 1 (tidy _ _) => eapply waiting_tidy; [|eassumption]; reflexivity : core.
Local Hint Extern 1 (tidy _ _) => eapply at_work_tidy; [|eassumption]; reflexivity : core.

Lemma detect_triple f0 ks :
  owes f0 = false → triple (waiting f0) (detect_or_fail cfg other_probes ks) (λ _, waiting f0) tidy.
Proof.
  intros Ho. unfold detect_or_fail, detect_machine. eapply triple_bind with (R := λ _, waiting f0).
  - eapply triple_bind; [apply triple_get|]. intros t.
    eapply triple_conseq; [apply (triple_machine (waiting f0) tidy)|intros v f [? _]; done|done|done].
  - intros [f|e]; [by apply triple_ret|apply triple_refused; by apply waiting_tidy].
Qed.

Lemma get_triple (P E : assn) : triple P get (λ _, P) E.
Proof. eapply triple_conseq; [apply (triple_get P E)|done|intros t v f [? _]; done|done]. Qed.

Lemma check_request_triple req f0 :
  owes f0 = false → triple (waiting f0) (check_request cfg req) (λ _, waiting f0) tidy.
Proof.
  intros Ho. assert (∀ v f, waiting f0 v f → tidy v f) as Ht by by apply waiting_tidy. unfold check_request. eapply triple_bind; [apply get_triple|]. intros t.
  eapply triple_bind; [apply triple_when; exact Ht|]. intros [].
  eapply triple_bind with (R := λ _, waiting f0).
  { eapply triple_conseq; [apply (triple_lift (waiting f0) tidy); auto|intros v f [? _]; done|done|done]. }
  intros l. eapply triple_bind; [apply triple_lift; auto|]. intros [].
  eapply triple_bind; [apply triple_lift; auto|]. intros []. by apply triple_ret.
Qed.

Lemma recover_first_triple f0 :
  f0 = Off ∨ f0 = Clean → triple (waiting f0) recover_first (λ _, waiting Clean) tidy.
Proof.
  intros Hf. unfold recover_first. eapply triple_bind with (R := λ _, waiting Clean).
  - intros s (f & Hp & -> & Ha). unfold recoverLocked. destruct (Apply.Recover _) as [[rep err] w].
    exists Clean. split; [|done]. eapply path_snoc; [exact Hp|by constructor].
  - intros [rep|e]; [by apply triple_ret|apply triple_refused; auto].
Qed.

Lemma choose_port_triple p : triple (waiting Clean) (chooseSocksPort p) (λ _, waiting Clean) tidy.
Proof.
  unfold chooseSocksPort. eapply triple_bind; [apply triple_machine|]. intros [x|]; [by apply triple_ret|].
  eapply triple_bind; [apply triple_machine|]. intros [x|]; [|apply triple_refused; auto].
  destruct (_ || _); [apply triple_refused; auto|by apply triple_ret].
Qed.

Lemma decide_triple (l : L) req :
  triple (waiting Clean) (decide_plan cfg other_probes l req) (λ _, waiting Clean) tidy.
Proof.
  unfold decide_plan. eapply triple_bind; [by apply detect_triple|]. intros facts.
  eapply triple_bind; [apply triple_lift; auto|]. intros [].
  eapply triple_bind with (R := λ _, waiting Clean).
  { destruct (_ =? _)%string; [|by apply triple_ret].
    unfold regulatoryDomain. eapply triple_bind; [apply triple_machine|]. intros cc. by apply triple_ret. }
  intros cc. eapply triple_bind; [apply triple_machine|]. intros [servers|]; [|apply triple_refused; auto].
  eapply triple_bind; [apply choose_port_triple|]. intros port.
  eapply triple_bind with (R := λ _, waiting Clean); [by apply triple_modify|]. intros [].
  eapply triple_bind; [apply triple_lift; auto|]. intros opts.
  destruct (PlanNetwork facts servers opts) as [plan|e]; [|apply triple_refused; auto].
  eapply triple_bind; [apply triple_lift; auto|]. intros [].
  eapply triple_bind with (R := λ _, waiting Clean).
  { destruct (missingKnobs _ _); [by apply detect_triple|by apply triple_ret]. }
  intros f. by apply triple_ret.
Qed.

Lemma document_triple (P E : assn) (l : L) req opts pinned t :
  (∀ v f, P v f → E v f) → triple P (engineDocument cfg l req opts pinned t) (λ _, P) E.
Proof.
  intros HE. unfold engineDocument. eapply triple_bind; [apply get_triple|]. intros s.
  destruct (Build _); [by apply triple_ret|by apply triple_refused].
Qed.

Lemma hotspot_plan_triple (P E : assn) p f req cc :
  (∀ v f, P v f → E v f) → triple P (hotspot_plan cfg p f req cc) (λ _, P) E.
Proof.
  intros HE. unfold hotspot_plan. eapply triple_bind; [apply get_triple|]. intros s. by apply triple_lift.
Qed.

Lemma compose_triple (l : L) req x : triple (waiting Clean) (compose cfg l req x) (λ _, waiting Clean) tidy.
Proof.
  destruct x as [[[opts plan] facts] cc]. unfold compose. eapply triple_bind; [apply document_triple; auto|]. intros doc.
  destruct (EngineValidate doc); [apply triple_refused; auto|].
  eapply triple_bind; [apply hotspot_plan_triple; auto|]. intros hp. by apply triple_ret.
Qed.

(** Opening the journal and applying a plan's first half. *)
Lemma open_apply_triple {B} p cur (k : Report * option apply_error → M K B) (Q : B → assn) :
  (∀ rep, triple (at_work (Applied p)) (k (rep, None)) Q tidy) →
  (∀ rep e, triple (at_work Dirty) (k (rep, Some e)) Q tidy) →
  triple (waiting Clean) (bind (open_applier cfg) (λ _, bind (apply_steps Pre p cur) k)) Q tidy.
Proof.
  intros Hok Herr. eapply triple_bind with (R := λ _, at_work Clean).
  - intros s (f & Hp & -> & Ha). unfold open_applier. destruct (OpenJournal _ _) as [[j|e] d]; by exists Clean.
  - intros [] s (f & Hp & -> & Ha). unfold bind, apply_steps.
    destruct (Apply _ _) as [[rep err] w] eqn:E. destruct err as [e|]; simpl.
    + apply Herr. exists Dirty. split; [|split; [done|by eexists]].
      simpl. eapply path_snoc; [exact Hp|]. apply (m_apply p cur (trace w) false).
    + apply Hok. exists (Applied p). split; [|split; [done|by eexists]].
      simpl. eapply path_snoc; [exact Hp|]. apply (m_apply p cur (trace w) true).
Qed.

Definition applied_result (x : Plan * HotspotPlan * Facts) : assn := at_work (Applied x.1.1).

Lemma take_over_triple p req cc :
  triple (waiting Clean) (take_over cfg other_probes p req cc) applied_result tidy.
Proof.
  unfold take_over. eapply triple_bind; [by apply detect_triple|]. intros fresh.
  destruct (HotspotTakeover p fresh) as [q|e]; [|apply triple_refused; auto].
  eapply triple_bind; [apply triple_lift; auto|]. intros [].
  eapply triple_bind; [apply hotspot_plan_triple; auto|]. intros hp.
  apply open_apply_triple; intros rep; simpl; [by apply triple_ret|]. intros e. apply triple_refused. auto.
Qed.

Lemma tear_down_triple :
  triple (at_work Dirty) tear_down (λ t, at_work (if teardown_ok t.1 t.2 then Clean else Failing)) tidy.
Proof.
  unfold tear_down. eapply triple_bind; [apply get_triple|]. intros t.
  eapply triple_bind with (R := λ r, at_work (if teardown_ok r.1.1 r.1.2 then Clean else Failing)).
  - intros s (f & Hp & -> & Ha). unfold run_teardown. destruct (Teardown _) as [[rep err] w]. simpl.
    exists (if teardown_ok rep err then Clean else Failing). split; [|done].
    eapply path_snoc; [exact Hp|constructor].
  - intros [[rep err] j]. eapply triple_bind with (R := λ _, at_work (if teardown_ok rep err then Clean else Failing)).
    + apply triple_modify. intros v f [-> Ha]. split; [done|by eexists].
    + intros []. by apply triple_ret.
Qed.

Lemma pre_engine_triple p hp f req cc :
  triple (waiting Clean) (applyPreEngine cfg other_probes p hp f req cc) applied_result tidy.
Proof.
  unfold applyPreEngine. apply open_apply_triple; intros rep; simpl; [by apply triple_ret|]. intros e.
  eapply triple_bind; [apply triple_when; auto|]. intros [].
  eapply triple_bind with (R := λ t, at_work (if teardown_ok t.1 t.2 then Clean else Failing)).
  { eapply triple_conseq; [apply tear_down_triple|intros v x [? _]; done|done|done]. }
  intros [rep' err]. simpl. destruct (teardown_ok rep' err) eqn:Eok; simpl.
  - eapply triple_bind with (R := λ _, at_work Clean); [by apply triple_ret|]. intros [].
    eapply triple_bind with (R := λ _, waiting Clean); [|intros []; apply take_over_triple].
    apply triple_modify. intros v x [-> Ha]. done.
  - eapply triple_bind with (R := λ _ _ _, False); [apply triple_refused; auto|]. intros [] s Hs.
    by destruct Hs as (? & _ & []).
Qed.

Lemma spoof_triple (l : L) req p opts :
  triple (at_work (Proved p)) (spoofDocument cfg l req p opts) (λ _, at_work (Proved p)) tidy.
Proof.
  unfold spoofDocument. destruct (List.find Is4 (ServerAddr p)) as [remote|]; [|apply triple_refused; auto].
  apply triple_event. intros [f|e].
  - exists (at_work (Proved p)). split.
    { intros v x [-> Ha]. exists (Proved p). split; [apply (m_sni p true)|done]. }
    eapply triple_bind with (R := λ _, at_work (Proved p)); [by apply triple_modify|]. intros [].
    destruct (ThroughLoopback l f); [|apply triple_refused; auto].
    eapply triple_bind; [apply document_triple; auto|]. intros doc.
    destruct (EngineValidate doc); [apply triple_refused; auto|by apply triple_ret].
  - exists (at_work Failing). split.
    { intros v x [-> Ha]. exists Failing. split; [apply (m_sni p false)|done]. }
    destruct e; apply triple_refused; auto.
Qed.

(** Published: the plan in the fields is the plan of the phase. *)
Definition published (p : Plan) (f0 : phase) : assn := λ v f,
  f = f0 ∧ is_Some (applier v) ∧ sv_plan v = Some p ∧ is_Some (engineDoc v) ∧ is_Some (hotspotPlan v).

Lemma published_tidy p f0 : owes f0 = true → ∀ v f, published p f0 v f → tidy v f.
Proof. intros Ho v f (-> & Ha & _). unfold tidy. by rewrite Ho. Qed.
Local Hint Extern 1 (tidy _ _) => eapply published_tidy; [|eassumption]; reflexivity : core.

Lemma prepare_triple (d : Decided) req :
  triple (waiting Clean) (prepare cfg other_probes d req) (λ x, published x.1.1.1 (Proved x.1.1.1)) tidy.
Proof.
  unfold prepare. eapply triple_bind; [apply pre_engine_triple|]. intros [[plan hp] facts]. unfold applied_result. simpl.
  eapply triple_bind with (R := λ _, at_work (Proved plan)).
  { apply triple_err with (E' := at_work Failing); [apply released_triple; intros v f [-> Ha]|auto].
    - exists (Proved plan). split; [apply (m_free plan true)|done].
    - exists Failing. split; [apply (m_free plan false)|done]. }
  intros []. eapply triple_bind with (R := λ _, at_work (Proved plan)).
  { destruct (wants_spoof req); [apply spoof_triple|by apply triple_ret]. }
  intros doc. eapply triple_bind with (R := λ _, published plan (Proved plan)).
  { apply triple_modify. intros v f [-> Ha]. repeat split; done. }
  intros []. by apply triple_ret.
Qed.

(** An event of the second half of a start: on success to [g], else to [Failing]. *)
Lemma published_goes p f0 e g : moves f0 e g → goes (published p f0) e (published p g).
Proof. intros Hm v f (-> & Hr). exists g. done. Qed.

Lemma bring_up_triple x :
  triple (published x.1.1.1 (Proved x.1.1.1)) (bring_up other_probes x) (λ _, published x.1.1.1 (On x.1.1.1)) tidy.
Proof.
  destruct x as [[[p hp] facts] doc]. unfold bring_up. simpl.
  eapply triple_bind.
  { apply (engine_start_triple _ doc (λ r, published p (if is_none r then Tunnelled p else Failing))).
    intros r. apply published_goes. constructor. }
  intros [msg|]; simpl; [apply triple_refused; auto|].
  eapply triple_bind with (R := λ r, published p (if is_none r.2 then Routed p else Failing)).
  { intros s (f & Hp & -> & Ha & Hr). unfold apply_steps. destruct (Apply _ _) as [[rep err] w]. simpl.
    exists (if is_none err then Routed p else Failing). split; [|split; [done|split; [by eexists|done]]].
    simpl. eapply path_snoc; [exact Hp|constructor]. }
  intros [rep [e|]]; simpl; [apply triple_refused; auto|].
  apply triple_err with (E' := published p Failing); [|auto].
  apply ap_start_triple with (Q := published p (OnAir p)).
  - apply published_goes, (m_ap p hp true).
  - apply published_goes, (m_ap p hp false).
  - apply access_point_triple; apply published_goes; [apply (m_up p true)|apply (m_up p false)].
Qed.

(** ** Whole requests *)

Definition settled_assn : assn := λ v f, settled_in f v.
Definition is_up : assn := λ v f, ∃ p, (f = On p ∨ f = Doubtful p) ∧ up_with p v.

Lemma up_settled v f : is_up v f → settled_assn v f.
Proof. by intros (p & [->| ->] & Hu). Qed.
Lemma off_settled v f : is_off v f → settled_assn v f.
Proof. by intros [-> Hn]. Qed.
Lemma settled_cases v f : settled_assn v f → (owes f = false ∧ (f = Off ∨ f = Clean) ∧ nothing_up v) ∨ is_up v f.
Proof. destruct f; try done; [left|left|right|right]; try (split_and!; auto; done); eexists; eauto. Qed.
Lemma settled_tidy v f : settled_assn v f → tidy v f.
Proof.
  intros [(Ho & _ & _ & _ & Ha & _)|(p & Hf & _ & _ & Ha & _)]%settled_cases; unfold tidy; [by rewrite Ho|].
  by destruct Hf as [-> | ->].
Qed.

Lemma apply_triple req fp f0 :
  f0 = Off ∨ f0 = Clean →
  triple (λ v f, f = f0 ∧ applier v = None) (applyLocked cfg other_probes req fp) (λ _, is_up) tidy.
Proof.
  intros Hf. unfold applyLocked.
  eapply triple_bind with (R := λ _, waiting f0).
  { by apply check_request_triple; destruct Hf as [-> | ->]. }
  intros l. eapply triple_bind; [by apply recover_first_triple|]. intros [].
  eapply triple_bind; [apply decide_triple|]. intros x.
  eapply triple_bind; [apply compose_triple|]. intros d.
  eapply triple_bind; [apply prepare_triple|]. intros y.
  eapply triple_bind; [apply bring_up_triple|]. intros [].
  apply triple_modify. intros v f (-> & Ha & Hp & Hd & Hh). exists y.1.1.1. split; [by left|]. repeat split; done.
Qed.

(** An event of a repair: the fields do not change. *)
Lemma up_goes p f0 e g : moves f0 e g → goes (λ v f, f = f0 ∧ up_with p v) e (λ v f, f = g ∧ up_with p v).
Proof. intros Hm v f [-> Hu]. exists g. done. Qed.

Lemma doubtful_up p v f : f = Doubtful p ∧ up_with p v → is_up v f.
Proof. intros [-> Hu]. exists p. auto. Qed.

Lemma safe_to_bind_triple p f0 ssid :
  f0 = On p ∨ f0 = Doubtful p →
  triple (λ v f, f = f0 ∧ up_with p v) (safe_to_bind other_probes (Some p) ssid) (λ _ v f, f = Checked p ∧ up_with p v)
    (λ v f, f = Doubtful p ∧ up_with p v).
Proof.
  intros Hf. unfold safe_to_bind.
  eapply triple_bind with (R := λ r v f, f = (if is_ok r then Checked p else Unsure p) ∧ up_with p v).
  - eapply triple_attempt with (Q := λ _ v f, f = Checked p ∧ up_with p v) (E := λ v f, f = Unsure p ∧ up_with p v); [|done|done].
    apply access_point_triple; apply up_goes; [by apply (m_ask f0 p true)|by apply (m_ask f0 p false)].
  - intros [u|e]; simpl; [by apply triple_ret|].
    apply released_triple; apply up_goes; [apply (m_ask_free p true)|apply (m_ask_free p false)].
Qed.

Lemma repair_triple p f0 :
  f0 = On p ∨ f0 = Doubtful p →
  triple (λ v f, f = f0 ∧ up_with p v) (reassertLocked other_probes) (λ _, is_up) is_up.
Proof.
  intros Hf. apply triple_err with (E' := λ v f, f = Doubtful p ∧ up_with p v); [|apply doubtful_up].
  unfold reassertLocked. apply triple_get_then. intros t (g & _ & _ & Hpl & _). cbv zeta. rewrite Hpl.
  eapply triple_bind; [by apply safe_to_bind_triple|]. intros [].
  eapply triple_bind.
  { apply (engine_start_triple _ _ (λ r v f, f = (if is_none r then Repaired p else Doubtful p) ∧ up_with p v)).
    intros r. apply up_goes. constructor. }
  intros [msg|]; simpl; [by apply triple_refused|].
  apply ap_start_triple with (Q := λ v f, f = ReOnAir p ∧ up_with p v).
  - apply up_goes. apply (m_reap p _ true).
  - apply up_goes. apply (m_reap p _ false).
  - eapply triple_bind with (R := λ _ v f, f = On p ∧ up_with p v).
    + apply access_point_triple; apply up_goes; [apply (m_reup p true)|apply (m_reup p false)].
    + intros []. apply triple_modify. intros v f [-> Hu]. exists p. auto.
Qed.

Lemma probe_triple (P : assn) : triple P (probeServer (K := K)) (λ _, P) P.
Proof.
  unfold probeServer. eapply triple_bind; [apply get_triple|]. intros t. destruct (sv_plan (svc t)); [|by apply triple_ret].
  destruct (_ || _); [by apply triple_ret|]. eapply triple_bind with (R := λ _, P).
  - generalize (ServerAddr p) as addrs. induction addrs as [|a addrs IH]; simpl; [by apply triple_ret|].
    eapply triple_bind; [apply triple_machine|]. intros [|]; [by apply triple_ret|exact IH].
  - intros ok. eapply triple_conseq; [apply (triple_when P P); done|done|intros ? v f [? _]; done|done].
Qed.

Definition rested : assn := λ v f, (f = Off ∨ f = Clean) ∧ nothing_up v.

Lemma rested_settled v f : rested v f → settled_assn v f.
Proof. by intros [[-> | ->] Hn]. Qed.

Lemma start_fresh_triple req fp :
  triple rested (start_fresh cfg other_probes req fp) (λ _, settled_assn) settled_assn.
Proof.
  unfold start_fresh. eapply triple_bind with (R := λ r v f, if is_ok r then is_up v f else tidy v f).
  - intros s (f & Hp & Hf & _ & _ & Ha & _).
    assert (triple (waiting f) (attempt_ (applyLocked cfg other_probes req fp))
      (λ r v f, if is_ok r then is_up v f else tidy v f) settled_assn) as HT.
    { eapply triple_attempt; [by apply apply_triple|done|done]. }
    apply HT. exists f. done.
  - intros [u|e]; simpl.
    + eapply triple_conseq; [apply (probe_triple is_up)|done| |]; intros; by apply up_settled.
    + eapply triple_bind with (R := λ _, is_off).
      * unfold rollbackLocked. eapply triple_bind with (R := λ _, is_off); [|intros r; by apply triple_ret].
        eapply triple_attempt; [apply stop_triple|done|done].
      * intros _. eapply triple_conseq; [apply (triple_lift is_off is_off); done|done| |]; intros; by apply off_settled.
Qed.

Lemma start_triple req : triple settled_assn (Start cfg key other_probes req) (λ _, settled_assn) settled_assn.
Proof.
  unfold Start. eapply triple_bind; [apply triple_get|]. intros t.
  destruct (CheckSupport (machine t)) as [c|]; [by apply triple_refused; intros v f [? _]|]. cbv zeta.
  destruct (running (svc t)) eqn:Er; simpl.
  - destruct (_ =? _)%string.
    + intros s (f & Hp & Hf & Hv). destruct (settled_cases _ _ Hf) as [(_ & _ & Hn & _)|(p & Hon & Hu)]; [congruence|].
      assert (triple (λ v x, x = f ∧ up_with p v) (reassertLocked other_probes) (λ _, settled_assn) settled_assn) as HT.
      { eapply triple_conseq; [by apply (repair_triple p f)|done| |]; intros; by apply up_settled. }
      apply HT. exists f. done.
    + eapply triple_bind with (R := λ _, is_off).
      * eapply triple_conseq; [apply stop_triple|intros v f [Hf _]; by apply settled_tidy|done|apply off_settled].
      * intros []. eapply triple_conseq; [apply start_fresh_triple|intros v f [-> Hn]; split; auto|done|done].
  - eapply triple_bind with (R := λ _, rested).
    + apply triple_ret. intros v f [Hf ->]. destruct (settled_cases _ _ Hf) as [(_ & Ho & Hn)|(p & _ & Hr & _)]; [done|congruence].
    + intros []. apply start_fresh_triple.
Qed.

Lemma stop_settled_triple : triple settled_assn Stop (λ _, is_off) is_off.
Proof. eapply triple_conseq; [apply stop_triple|apply settled_tidy|done|done]. Qed.

Lemma replay_triple : triple rested ReplayJournal (λ _, rested) rested.
Proof.
  intros s (f & Hp & Hf & Hn). unfold ReplayJournal, recoverLocked. destruct (Apply.Recover _) as [[rep err] w].
  exists Clean. split; [|split; [by right|done]]. eapply path_snoc; [exact Hp|by constructor].
Qed.

Lemma recover_triple req : triple settled_assn (Service.Recover cfg key other_probes req) (λ _, settled_assn) settled_assn.
Proof.
  unfold Service.Recover, recoverToCleanMachine. eapply triple_bind with (R := λ _, rested).
  - eapply triple_bind with (R := λ _, is_off).
    { eapply triple_attempt; [apply stop_settled_triple|done|done]. }
    intros _. eapply triple_bind with (R := λ _, rested).
    { eapply triple_conseq; [apply replay_triple|intros v f [-> Hn]; split; auto|done|apply rested_settled]. }
    intros [rep|e]; [by apply triple_ret|apply triple_refused, rested_settled].
  - intros []. eapply triple_conseq; [apply start_triple|apply rested_settled|done|done].
Qed.

Lemma forward_triple want : triple settled_assn (setForward (K := K) want) (λ _, settled_assn) settled_assn.
Proof.
  unfold setForward. eapply triple_bind; [apply triple_get|]. intros t.
  destruct (sv_plan (svc t)) as [p|] eqn:Ep; [|by apply triple_refused; intros v f [? _]].
  destruct (running (svc t)) eqn:Er; simpl; [|by apply triple_refused; intros v f [? _]].
  destruct (fwd_eqb _ _); [by apply triple_ret; intros v f [? _]|].
  apply triple_event. intros [r err]. simpl.
  exists (λ v f, is_up v f). split.
  - intros v f [Hf Hv]. destruct (settled_cases _ _ Hf) as [(_ & _ & Hn & _)|(q & Hon & Hu)]; [congruence|].
    assert (q = p) as -> by (destruct Hu as (_ & Hq & _); congruence).
    exists f. split; [|by exists p]. apply (m_forward f p); [done|]. destruct want; auto.
  - destruct err as [msg|]; [apply triple_refused, up_settled|].
    apply triple_modify. intros v f Hu. apply up_settled. destruct Hu as (q & Hon & Hu). exists q. done.
Qed.

Lemma read_triple (P : assn) ks : triple P (detect_or_fail cfg other_probes ks) (λ _, P) P.
Proof.
  unfold detect_or_fail, detect_machine. eapply triple_bind with (R := λ _, P).
  - eapply triple_bind; [apply get_triple|]. intros t. apply triple_machine.
  - intros [f|e]; [by apply triple_ret|by apply triple_refused].
Qed.

Lemma with_detection_settled g d z cc v f : settled_assn v f → settled_assn (with_detection g d z cc v) f.
Proof. destruct f; done. Qed.

Lemma detect_service_triple : triple settled_assn (detect cfg other_probes) (λ _, settled_assn) settled_assn.
Proof.
  unfold detect. eapply triple_bind; [apply read_triple|]. intros facts.
  eapply triple_bind with (R := λ _, settled_assn).
  { unfold regulatoryDomain. eapply triple_bind; [apply triple_machine|]. intros cc. by apply triple_ret. }
  intros cc. eapply triple_bind; [apply get_triple|]. intros t.
  destruct (match sv_plan (svc t) with Some _ => _ | None => _ end) as [plan flt].
  eapply triple_bind with (R := λ _, settled_assn); [|intros []; by apply triple_ret].
  apply triple_modify. intros v f. apply with_detection_settled.
Qed.

Lemma status_triple ttl : triple settled_assn (Status cfg other_probes ttl) (λ _, settled_assn) settled_assn.
Proof.
  unfold Status. eapply triple_bind; [apply get_triple|]. intros t.
  eapply triple_bind with (R := λ _, settled_assn).
  - unfold cachedDetection. eapply triple_bind; [apply get_triple|]. intros u.
    destruct (match lastDetectAt (svc u) with Some _ => _ | None => _ end); [by apply triple_ret|].
    eapply triple_bind with (R := λ _, settled_assn); [|intros [x|e]; by apply triple_ret].
    eapply triple_attempt; [apply detect_service_triple|done|done].
  - intros d. eapply triple_bind; [apply get_triple|]. intros u. cbv zeta. destruct (_ =? _)%string; [by apply triple_ret|].
    eapply triple_bind; [apply triple_machine|]. intros r. by apply triple_ret.
Qed.

Lemma refresh_triple `{!Exchanges K} url : triple settled_assn (refresh_request cfg url) (λ _, settled_assn) settled_assn.
Proof.
  intros s (f & Hp & Hf). unfold refresh_request. destruct (Refresh _ _ _ _) as [[[r|e] asked] k]; exists f; by split.
Qed.

End Triples.

(** ** Sessions *)

Inductive request :=
| RDetect
| RStatus (ttl : Z)
| RStart (req : StartRequest)
| RRecover (req : StartRequest)
| RStop
| RCut
| RRestore
| RRefresh (url : string).

Section Sessions.
Context {K L : Type} `{Runner K} `{Engine K} `{AccessPoint K} `{HostI : Host K L} `{ExchangesI : !Exchanges K}.
Context (cfg : Config) (key : list Z) (other_probes : Platform → Probes K).

(** server.go, dispatch: the state a request leaves *)
Definition serve (s : St K) (r : request) : St K :=
  match r with
  | RDetect => (detect cfg other_probes s).2
  | RStatus ttl => (Status cfg other_probes ttl s).2
  | RStart req => (Start cfg key other_probes req s).2
  | RRecover req => (Service.Recover cfg key other_probes req s).2
  | RStop => (Stop s).2
  | RCut => (Cut s).2
  | RRestore => (Restore s).2
  | RRefresh url => (refresh_request cfg url s).2
  end.

(** serve_priv.go: a new service replays the journal before it listens. *)
Definition boot (k : K) (d : Disk) : St K := (ReplayJournal (MkSt (new_service cfg) k d [])).2.

Definition session (k : K) (d : Disk) (rs : list request) : St K := foldl serve (boot k d) rs.

Lemma triple_state {A} (m : M K A) s :
  triple settled_assn m (λ _, settled_assn) settled_assn → holds settled_assn s → holds settled_assn (m s).2.
Proof. intros T Hs. specialize (T s Hs). by destruct (m s) as [[a|e] s']. Qed.

Lemma boot_settled k d : holds settled_assn (boot k d).
Proof.
  unfold boot. pose proof (replay_triple (MkSt (new_service cfg) k d [])) as HT.
  specialize (HT ltac:(exists Off; split; [constructor|split; [by left|repeat split]])).
  destruct (ReplayJournal _) as [[r|e] s']; destruct HT as (f & Hp & Hf); exists f; split; auto using rested_settled.
Qed.

Lemma serve_settled s r : holds settled_assn s → holds settled_assn (serve s r).
Proof.
  destruct r; simpl; apply triple_state;
    eauto using detect_service_triple, status_triple, start_triple, recover_triple, forward_triple.
  - eapply triple_conseq; [apply stop_settled_triple|done| |]; intros; by apply off_settled.
  - apply refresh_triple.
Qed.

Lemma session_settled k d rs : holds settled_assn (session k d rs).
Proof.
  unfold session. generalize (boot_settled k d). generalize (boot k d) as s.
  induction rs as [|r rs IH]; intros s Hs; simpl; [done|]. by apply IH, serve_settled.
Qed.

(** C2. The service refines the lifecycle: whatever requests arrive, in whatever
    order and whatever the machine answers, what was done to the machine is a run
    of the abstract lifecycle from Off, and between two requests the service's
    fields are those of the phase reached. *)
Theorem service_refines_lifecycle k d rs :
  ∃ f, path (done (session k d rs)) f ∧ settled_in f (svc (session k d rs)).
Proof. exact (session_settled k d rs). Qed.

End Sessions.

(** ** Consequences of the lifecycle *)

(** Every start of the engine or of the access point stands on a readback of the
    hotspot interface that succeeded, and since which nothing was stopped, undone,
    replayed or applied before the engine. *)
Fixpoint proved_before (proved : bool) (l : list SEvent) : bool :=
  match l with
  | [] => true
  | SvReleased _ ok :: l | SvAccessPoint _ ok :: l => proved_before ok l
  | SvEngineStart _ _ :: l | SvAPStart _ _ :: l => proved && proved_before proved l
  | SvApply Post _ _ _ _ :: l | SvSNIStart _ :: l | SvForward _ _ :: l => proved_before proved l
  | _ :: l => proved_before false l
  end.

(** The flag [proved_before] ends with. *)
Definition proved_after (proved : bool) (e : SEvent) : bool :=
  match e with
  | SvReleased _ ok | SvAccessPoint _ ok => ok
  | SvEngineStart _ _ | SvAPStart _ _ | SvApply Post _ _ _ _ | SvSNIStart _ | SvForward _ _ => proved
  | _ => false
  end.

Definition starts (e : SEvent) : bool := match e with SvEngineStart _ _ | SvAPStart _ _ => true | _ => false end.

Lemma proved_before_snoc b l e :
  proved_before b (l ++ [e]) = proved_before b l && (negb (starts e) || foldl proved_after b l).
Proof.
  revert b. induction l as [|x l IH]; intros b; simpl.
  - by destruct e as [| [] | | | | | | | | | |]; simpl; rewrite ?andb_true_r, ?orb_true_r.
  - by destruct x as [| [] | | | | | | | | | |]; simpl; rewrite IH, ?andb_assoc.
Qed.

(** The phases in which the interface is known to be ours or free. *)
Definition safe (f : phase) : bool :=
  match f with Proved _ | Tunnelled _ | Routed _ | Checked _ | Repaired _ => true | _ => false end.

Lemma path_proved l f : path l f → proved_before false l = true ∧ (safe f = true → foldl proved_after false l = true).
Proof.
  induction 1 as [|l e f g Hp [IH1 IH2] Hm]; [done|].
  rewrite proved_before_snoc, foldl_app, IH1. simpl.
  destruct Hm; simpl; try (split; [done|]; intros Hs; try (by destruct ok); try done; try (by destruct b); auto);
    try (by rewrite IH2); try (split; [by apply IH2|]; intros _; by apply IH2);
    repeat match goal with Hf : _ ∨ _ |- _ => destruct Hf as [-> | ->] end; try done.
Qed.

(** What may still be up: the engine, the access point, the network changes. A
    start counts even when it reported failure. *)
Definition live_after (x : bool * bool * bool) (e : SEvent) : bool * bool * bool :=
  let '(eng, ap, net) := x in
  match e with
  | SvEngineStart _ _ => (true, ap, net)
  | SvEngineStop => (false, ap, net)
  | SvAPStart _ _ => (eng, true, net)
  | SvAPStop => (eng, false, net)
  | SvApply _ _ _ _ _ => (eng, ap, true)
  | SvTeardown _ _ | SvRecover _ => (eng, ap, false)
  | _ => x
  end.

Definition live (l : list SEvent) : bool * bool * bool := foldl live_after (false, false, false) l.

Definition may_engine (f : phase) : bool :=
  match f with Off | Clean | Dirty | Applied _ | Proved _ | Halting _ | Undoing => false | _ => true end.
Definition may_ap (f : phase) : bool :=
  match f with Off | Clean | Dirty | Applied _ | Proved _ | Tunnelled _ | Routed _ | Undoing => false | _ => true end.

Definition within (x : bool * bool * bool) (f : phase) : Prop :=
  let '(eng, ap, net) := x in
  implb eng (may_engine f) = true ∧ implb ap (may_ap f) = true ∧ implb net (owes f) = true.

Lemma path_live l f : path l f → within (live l) f.
Proof.
  induction 1 as [|l e f g Hp IH Hm]; [done|]. unfold live in *. rewrite foldl_app. simpl.
  destruct (foldl live_after _ l) as [[eng ap] net].
  destruct Hm; repeat match goal with Hf : _ ∨ _ |- _ => destruct Hf as [-> | ->] end;
    destruct eng, ap, net; try (by destruct IH as (? & ? & ?)); try (by destruct ok);
    try (by destruct b); try (by destruct f); done.
Qed.

Section Guarantees.
Context {K L : Type} `{Runner K} `{Engine K} `{AccessPoint K} `{HostI : Host K L} `{ExchangesI : !Exchanges K}.
Context (cfg : Config) (key : list Z) (other_probes : Platform → Probes K).

(** C3. Nothing serves on an interface that was not read back: in every session,
    each start of the engine and of the access point comes after a readback that
    found the hotspot interface free or already this service's access point, and
    nothing was stopped, undone or applied in between but the routes that need the
    engine. *)
Theorem nothing_binds_unproved k d rs :
  proved_before false (done (session cfg key other_probes k d rs)) = true.
Proof.
  destruct (session_settled cfg key other_probes k d rs) as (f & Hp & _). by apply path_proved in Hp as [? _].
Qed.

Lemma session_off k d rs :
  let s := session cfg key other_probes k d rs in
  running (svc s) = true ∨ nothing_up (svc s) ∧ live (done s) = (false, false, false).
Proof.
  intros s. destruct (session_settled cfg key other_probes k d rs) as (f & Hp & Hf).
  destruct (settled_cases _ _ Hf) as [(_ & Ho & Hn)|(p & _ & Hr & _)]; [right|by left]. split; [exact Hn|].
  pose proof (path_live _ _ Hp) as Hw. fold s in Hw. destruct (live (done s)) as [[eng ap] net].
  destruct Hw as (? & ? & ?). by destruct Ho as [-> | ->]; destruct eng, ap, net.
Qed.

(** C9. Off means off: in every session, either the service is running, or the
    engine and the access point were stopped after their last start, every network
    change was followed by a teardown or a replay of its journal, and the fields of
    the plan, the applier, the engine's document, the fingerprint, the SOCKS port and
    the forwarder are empty and client traffic is not recorded as cut. So a start
    that failed has undone itself and a cut never outlives a stop. The hotspot's plan
    and the server's port (hotspotPlan, serverPortValue), like the last detection,
    are not cleared and keep those of the last run. *)
Theorem off_means_off k d rs :
  let s := session cfg key other_probes k d rs in
  running (svc s) = true ∨ nothing_up (svc s) ∧ live (done s) = (false, false, false).
Proof. apply session_off. Qed.

(** ** Asking for what already runs *)

(** A repair reads back, starts the two supervised programs, and nothing else. *)
Definition repairs (e : SEvent) : bool :=
  match e with
  | SvReleased _ _ | SvAccessPoint _ _ | SvEngineStart _ _ | SvAPStart _ _ => true
  | _ => false
  end.

Definition only_repairs (s s' : St K) : Prop :=
  sdisk s' = sdisk s ∧ (svc s' = svc s ∨ svc s' = stale_detection (svc s)) ∧
  ∃ evs, done s' = done s ++ evs ∧ Forall (λ e, repairs e = true) evs.

#[local] Instance only_repairs_refl : Reflexive only_repairs.
Proof. intros s. split_and!; [done|by left|]. exists []. by rewrite app_nil_r. Qed.

#[local] Instance only_repairs_trans : Transitive only_repairs.
Proof.
  intros s1 s2 s3 (D1 & S1 & e1 & E1 & F1) (D2 & S2 & e2 & E2 & F2). split_and!; [congruence| |].
  - destruct S1 as [S1|S1], S2 as [S2|S2]; rewrite S2, S1; auto.
  - exists (e1 ++ e2). rewrite E2, E1, app_assoc. split; [done|]. by apply Forall_app.
Qed.

Local Abbreviation gentle m := (keeps only_repairs m).

Lemma gentle_machine {A} (f : K → A * K) : gentle (on_machine f).
Proof.
  intros s. unfold on_machine. destruct (f (machine s)). split_and!; [done|by left|]. exists []. by rewrite app_nil_r.
Qed.

Lemma gentle_emit e : repairs e = true → gentle (emit e).
Proof. intros He s. split_and!; [done|by left|]. exists [e]. split; [done|]. by constructor. Qed.

Lemma gentle_stale : gentle (modify stale_detection).
Proof. intros s. split_and!; [done|by right|]. exists []. by rewrite app_nil_r. Qed.

Lemma gentle_refused {A} w f : gentle (refused (A := A) w f).
Proof. apply keeps_lift, _. Qed.

Local Hint Resolve gentle_machine gentle_emit gentle_stale gentle_refused : keeps.

Lemma gentle_when b w f : gentle (refuse_when b w f).
Proof. unfold refuse_when. repeat keeps_step. Qed.
Local Hint Resolve gentle_when : keeps.

Lemma gentle_released p : gentle (assertHotspotInterfaceReleased other_probes p).
Proof. unfold assertHotspotInterfaceReleased. repeat keeps_step. Qed.

Lemma gentle_wait n p ssid r : gentle (wait_for_ap other_probes n p ssid r).
Proof. revert r. induction n as [|n IH]; intros r; simpl; repeat keeps_step. Qed.
Local Hint Resolve gentle_released gentle_wait : keeps.

Lemma gentle_access_point p ssid : gentle (assertHotspotIsAccessPoint other_probes p ssid).
Proof. unfold assertHotspotIsAccessPoint. repeat keeps_step. Qed.
Local Hint Resolve gentle_access_point : keeps.

Lemma gentle_reassert : gentle (reassertLocked other_probes).
Proof.
  unfold reassertLocked, safe_to_bind, engine_start, ap_start, check_ap. repeat keeps_step.
Qed.

(** Asking again for what already runs changes nothing: a start whose
    fingerprint is the one in force leaves the journal and every field as they are
    (but for the cached detection, which it may mark stale), applies no step and
    stops nothing; all it does to the machine is read the interface back and start
    the two supervised programs. *)
Theorem same_request_applies_nothing req s :
  running (svc s) = true → fingerprint (svc s) = requestFingerprint key req →
  only_repairs s (Start cfg key other_probes req s).2.
Proof.
  intros Hr Hf. unfold Start, bind at 1, get. destruct (CheckSupport (machine s)) as [c|]; [reflexivity|].
  rewrite Hr, Hf, String.eqb_refl. simpl. apply gentle_reassert.
Qed.

(** C19. A stop of a service that holds an open applier and whose journal can be
    read, if it reports success, keeps its promise: the engine is stopped, then
    the forwarder, then the access point, and only then is the journal replayed;
    afterwards the journal holds exactly the entries whose inverse was run
    without undoing them and the firewall's that were held back because of one,
    to be retried, and when none failed the file is gone. *)
Theorem stop_settles j es s s' :
  applier (svc s) = Some j → LoadJournal (sdisk s) = Ok es → Stop s = (Ok tt, s') →
  ∃ evs clean es',
    done s' = done s ++ [SvEngineStop] ++ (match sniForwarder (svc s) with Some _ => [SvSNIClose] | None => [] end) ++
              [SvAPStop; SvTeardown evs clean] ∧
    LoadJournal (sdisk s') = Ok es' ∧ settled es evs es' ∧ (clean = true → file (sdisk s') = None).
Proof.
  intros Ha Hl. unfold Stop, stopLocked, close_forwarder, bind, on_machine, emit, get, modify, ret, refused.
  destruct (EngineStop (machine s)) as [e1 k1]. cbn [machine sdisk done svc].
  destruct (sniForwarder (svc s)) as [x|] eqn:Es; cbn [machine sdisk done svc];
    [destruct (CloseSNI x k1) as [e2 k2]; cbn [machine sdisk done svc]|];
    destruct (APStop _) as [e3 k3]; cbn [machine sdisk done svc with_sni applier]; rewrite Ha;
    unfold run_teardown; cbn [machine sdisk done svc];
    destruct (Teardown _) as [[rep err] w] eqn:Et; cbn [fst snd];
    pose proof (teardown_failed_nonneg _ _ _ _ Et) as Hnn;
    (destruct err as [je|]; [by destruct e1, e3; try destruct e2|]); intros E;
    (eapply teardown_settled in Et; [|exact Hl]); destruct Et as (evs & es' & Htr & Hload & Hset & Hfile & _);
    simpl in Htr; exists evs, (teardown_ok rep None), es';
    (destruct (_ ++ _)%list in E; [|done]); injection E as <-; cbn [done sdisk is_none negb]; rewrite Htr, <- !app_assoc;
    (split_and!; [done..|]); intros Hc; apply Hfile; unfold teardown_ok in Hc; simpl in Hc; breflect; lia.
Qed.

End Guarantees.
