(* ===== verification/ServiceDemo.v ===== *)
(** * The request's fingerprint, and the measured machine

    Start decides whether what is asked for already runs by comparing keyed
    hashes of the requests. What is hashed determines the request: no two
    different requests are the same message, whatever their fields hold.

    The whole stack run on the recorded Raspberry Pi 5: detection reads the
    captured bytes, the driver refuses the second interface its own table
    advertises ("Input/output error (-5)"), the first plan is undone, and the
    hotspot takes wlan0 over. The machine's answers depend on what was done to it:
    the interface is free once NetworkManager has let go of it, and on the air once
    the access point has started. *)

From S2P Require Import Prelude GoStrings Sha256 Hello Password.
From S2P Require Import Netip Text Facts Command Journal Apply ApplyReplay Parse Subnet HotspotConf Plan Nft Steps Detect.
From S2P Require Split DetectFacts.
From S2P Require Import Privsvc Service Refresh ServiceFacts.

Local Open Scope Z_scope.

(** ** The request's fingerprint *)

(** *** Decoding what was written *)

Definition be_value (l : list Z) : Z := foldl (λ a b, 256 * a + b) 0 l.

Lemma be_bytes_succ n z : be_bytes (S n) z = Z.land (Z.shiftr z (8 * Z.of_nat n)) 255 :: be_bytes n z.
Proof.
  unfold be_bytes. cbn [seq fmap list_fmap]. f_equal; [do 2 f_equal; lia|].
  rewrite <- fmap_S_seq, <- list_fmap_compose. apply list_fmap_ext. intros i x _. simpl. do 3 f_equal. lia.
Qed.

Lemma be_value_bytes n z a : foldl (λ a b, 256 * a + b) a (be_bytes n z) = a * 256 ^ Z.of_nat n + z mod 256 ^ Z.of_nat n.
Proof.
  revert a. induction n as [|n IH]; intros a; [simpl; rewrite Z.mod_1_r; lia|].
  rewrite be_bytes_succ. simpl foldl. rewrite IH.
  change 255 with (Z.ones 8). rewrite Z.land_ones, Z.shiftr_div_pow2 by lia.
  replace (2 ^ (8 * Z.of_nat n)) with (256 ^ Z.of_nat n) by (rewrite Z.pow_mul_r by lia; done).
  rewrite Nat2Z.inj_succ, Z.pow_succ_r by lia. change (2 ^ 8) with 256.
  set (p := 256 ^ Z.of_nat n). assert (0 < p) by (apply Z.pow_pos_nonneg; lia).
  rewrite (Z.mul_comm 256 p), Z.rem_mul_r by lia. lia.
Qed.

Lemma be_bytes_inj n z1 z2 :
  0 ≤ z1 < 256 ^ Z.of_nat n → 0 ≤ z2 < 256 ^ Z.of_nat n → be_bytes n z1 = be_bytes n z2 → z1 = z2.
Proof.
  intros H1 H2 E. pose proof (be_value_bytes n z1 0) as E1. pose proof (be_value_bytes n z2 0) as E2.
  rewrite E, E2 in E1. rewrite !Z.mod_small in E1 by done. lia.
Qed.

Lemma length_be_bytes n z : length (be_bytes n z) = n.
Proof. unfold be_bytes. by rewrite length_fmap, length_seq. Qed.

Lemma bytes_of_string_inj s1 s2 : bytes_of_string s1 = bytes_of_string s2 → s1 = s2.
Proof.
  unfold bytes_of_string. intros E. rewrite <- (String.string_of_list_ascii_of_string s1), <- (String.string_of_list_ascii_of_string s2).
  f_equal. revert E. generalize (String.list_ascii_of_string s1) as l1, (String.list_ascii_of_string s2) as l2.
  induction l1 as [|c l1 IH]; intros [|d l2] E; try done. simpl in E. injection E as Ec El. f_equal; [|by apply IH].
  apply N2Z.inj in Ec. rewrite <- (ascii_N_embedding c), <- (ascii_N_embedding d). by rewrite Ec.
Qed.

(** A Go string is shorter than 2^63 bytes. *)
Definition fits (s : string) : Prop := Z.of_nat (String.length s) < 2 ^ 63.

Lemma fp_field_inj s1 s2 r1 r2 :
  fits s1 → fits s2 → (fp_field s1 ++ r1)%list = (fp_field s2 ++ r2)%list → s1 = s2 ∧ r1 = r2.
Proof.
  unfold fp_field, fits. intros H1 H2. rewrite <- !app_assoc. intros E.
  apply app_inj_1 in E as [El E]; [|by rewrite !length_be_bytes].
  apply be_bytes_inj in El; [|change (256 ^ Z.of_nat 8) with (2 ^ 64); lia..].
  apply app_inj_1 in E as [Es ->]; [|rewrite !length_bytes_of_string; lia].
  split; [by apply bytes_of_string_inj|done].
Qed.

Lemma fp_concat_inj l1 l2 :
  length l1 = length l2 → Forall fits l1 → Forall fits l2 →
  concat (fp_field <$> l1) = concat (fp_field <$> l2) → l1 = l2.
Proof.
  revert l2. induction l1 as [|s1 l1 IH]; intros [|s2 l2] Hl H1 H2 E; try done.
  inversion_clear H1. inversion_clear H2. simpl in E. apply fp_field_inj in E as [-> E]; [|done..].
  f_equal. apply IH; auto.
Qed.

Lemma Itoa_inj z1 z2 : Itoa z1 = Itoa z2 → z1 = z2.
Proof.
  assert (Hpos : ∀ a b, 0 ≤ a → 0 ≤ b → Itoa a = Itoa b → a = b).
  { intros a b Ha Hb E. destruct (Itoa_digits a Ha) as (_ & _ & Pa). destruct (Itoa_digits b Hb) as (_ & _ & Pb). congruence. }
  assert (Hneg : ∀ a, a < 0 → Itoa a = String "-" (Itoa (- a))).
  { intros a Ha. unfold Itoa. rewrite (proj2 (Z.ltb_lt a 0)) by done. rewrite (proj2 (Z.ltb_ge (- a) 0)) by lia.
    by rewrite Zabs2N.inj_opp. }
  assert (Hmix : ∀ a b, a < 0 → 0 ≤ b → Itoa a ≠ Itoa b).
  { intros a b Ha Hb E. rewrite (Hneg a Ha) in E. apply (Itoa_no b "-" Hb eq_refl). rewrite <- E. left. }
  destruct (Z_lt_dec z1 0), (Z_lt_dec z2 0); intros E.
  - rewrite (Hneg z1), (Hneg z2) in E by done. inversion E as [E']. apply Hpos in E'; lia.
  - exfalso. apply (Hmix z1 z2); [lia|lia|done].
  - exfalso. apply (Hmix z2 z1); [lia|lia|done].
  - apply Hpos; [lia..|done].
Qed.

(** What is hashed determines the request: two requests whose fingerprint
    messages are equal are the same request, so two different ones can only be
    taken for each other if the keyed hash itself collides. Every field counts,
    the flags and the signed channel included, and no separator can be forged. *)
Theorem fingerprint_covers_request req1 req2 :
  Forall fits (fp_fields req1) → Forall fits (fp_fields req2) → fp_message req1 = fp_message req2 → req1 = req2.
Proof.
  intros H1 H2 E. apply fp_concat_inj in E; [|done..].
  destruct req1 as [sni1 tcp1 tls1 cj1 [] [] ll1], req2 as [sni2 tcp2 tls2 cj2 [] [] ll2]. unfold fp_fields in E. simpl in E.
  injection E as -> -> Et Er -> -> -> Ec -> -> -> -> -> -> -> ->. apply Itoa_inj in Ec as ->.
  by destruct tcp1, tcp2, tls1, tls2.
Qed.

Module Requests.
Definition req (tcp : bool) (pass : string) : StartRequest :=
  MkStartRequest "" tcp false "{}" (MkHotspotSpec "Caspian" pass "" 6 "" "GB" "")
    (MkNetworkSpec "" "tunnel" "block" "block") "".

Lemma fingerprint_covers_request_witness :
  fp_message (req true "abcdefgh2345") ≠ fp_message (req false "abcdefgh2345").
Proof.
  intros E. assert (req true "abcdefgh2345" = req false "abcdefgh2345") as Hr; [|discriminate Hr].
  apply (fingerprint_covers_request (req true "abcdefgh2345") (req false "abcdefgh2345")); [| |exact E];
    repeat (apply Forall_cons; split; [vm_compute; reflexivity|]); apply Forall_nil; exact I.
Defined.

(** RFC 4231, test case 2 *)
Example hmac_rfc4231 :
  EncodeToString (hmac_sha256 (bytes_of_string "Jefe") (bytes_of_string "what do ya want for nothing?")) =
  "5bdcc146bf60754e6a042426089575c75a003f089d2739839dec58b964ec3843"%string.
Proof. vm_compute. reflexivity. Qed.

Example a_changed_password_is_another_request :
  requestFingerprint (replicate 32 7) (req false "abcdefgh2345") ≠ requestFingerprint (replicate 32 7) (req false "abcdefgh2346").
Proof. vm_compute. discriminate. Qed.
End Requests.

(** ** The measured machine *)

Record Pi := MkPi { pi_released : bool; pi_on_air : bool; pi_engine : bool }.

Definition iw_dev_ap (ssid : string) : string :=
  ("phy#0
	Interface wlan0
		ifindex 3
		wdev 0x1
		addr 02:00:5e:00:00:11
" ++ (if (ssid =? "")%string then "" else "		ssid " ++ ssid ++ "
") ++ "		type AP
		channel 10 (2457 MHz), width: 20 MHz, center1: 2457 MHz
		txpower 31.00 dBm
")%string.

Definition ok (out : string) : Result * error := (MkResult out "" 0, None).

Definition pi_answer (c : Command) (k : Pi) : (Result * error) * Pi :=
  let line := CommandLine c in
  let asked s := (line =? s)%string in
  if asked "iw phy phy0 interface add ap0 type __ap" then
    ((MkResult "" "command failed: Input/output error (-5)" 251, Some "exit status 251"%string), k)
  else if asked "nmcli device set wlan0 managed no" then (ok "", MkPi true (pi_on_air k) (pi_engine k))
  else if asked "nmcli device set wlan0 managed yes" then (ok "", MkPi false (pi_on_air k) (pi_engine k))
  else if asked "iw dev wlan0 link" && pi_released k then (ok "Not connected.", k)
  else if asked "iw dev" && pi_on_air k then (ok (iw_dev_ap "Caspian"), k)
  else if asked "iw dev" && pi_released k then (ok (iw_dev_ap ""), k)
  else if asked "ip -br addr show dev wlan0" then (ok "wlan0            UP             10.83.51.1/24 ", k)
  else if asked "iw reg get" then (ok "global
country GB: DFS-ETSI
", k)
  else match List.find (λ a, (fst a =? line)%string) DetectFacts.Captured.answers with
       | Some (_, out) => (ok out, k)
       | None => (ok "", k)
       end.

#[export] Instance pi_runner : Runner Pi := pi_answer.

#[export] Instance pi_engine_instance : Engine Pi := {|
  EngineStateOf k := MkEngineState (if pi_engine k then PhaseRunning else PhaseStopped) "" 0;
  EngineStart _ k := (None, MkPi (pi_released k) (pi_on_air k) true);
  EngineStop k := (None, MkPi (pi_released k) (pi_on_air k) false);
  EngineValidate _ := None
|}.

#[export] Instance pi_access_point : AccessPoint Pi := {|
  APStart _ k := ((MkAPStatus true "" [] 0, None), MkPi (pi_released k) true (pi_engine k));
  APStop k := (None, MkPi (pi_released k) false (pi_engine k));
  APQuery _ k := (Ok (MkAPStatus (pi_on_air k) "" [] 0), k)
|}.

(** A link is its address; port 10808 is taken by another program. *)
#[export] Instance pi_host : Host Pi string := {|
  CheckSupport _ := None;
  Now _ := 1000;
  ParseLink s := Some s;
  lk_protocol _ := "vless";
  lk_network _ := "tcp";
  lk_security _ := "tls";
  lk_address _ := "203.0.113.10";
  lk_port _ := 443;
  ThroughLoopback _ _ := None;
  Build o := Some (Itoa (SOCKS_Port _ o));
  Resolve _ k := (Some [quad 203 0 113 10], k);
  Probe _ _ k := (true, k);
  NetListen p k := (if p =? 10808 then None else Some 40001, k);
  StartSNI _ _ _ _ k := (Err SNIUnsupported, k);
  CloseSNI _ k := (None, k);
  Sleep _ k := (None, k);
  ToASCII s := Some s;
  RandRead _ := Err "unused"%string;
  class_text _ := FaultUnknown;
  class_journal _ := FaultUnknown
|}.

#[export] Instance pi_exchanges : Exchanges Pi := λ _ _ k, (NoAnswer, k).

Definition cfg : Config :=
  MkConfig PlatformLinux None "/var/lib/caspian/netcfg.journal" "xray0" 10808 5354 53 8088 "" false 0 "" "/run/leases".

Definition key : list Z := replicate 32 7.
Definition no_probes : Platform → Probes Pi := λ _, linux_probes.

Definition req : StartRequest :=
  MkStartRequest "" false false "{}" (MkHotspotSpec "Caspian" "abcdefgh2345" "" 0 "" "" "")
    (MkNetworkSpec "" "tunnel" "block" "block") "".

Definition blank : Disk := MkDisk None [] false.
Definition fresh : Pi := MkPi false false false.
Definition after (rs : list request) : St Pi := session cfg key no_probes fresh blank rs.

(** What each event was, without its contents. *)
Inductive kind := KRecover | KApply (h : part) (ok : bool) | KTeardown (ok : bool) | KReleased (ok : bool) | KAP (ok : bool)
| KEngine (doc : string) | KEngineStop | KAPStart | KAPStop | KForward | KSNI.

Definition kind_of (e : SEvent) : kind :=
  match e with
  | SvRecover _ => KRecover
  | SvApply h _ _ _ ok => KApply h ok
  | SvTeardown _ ok => KTeardown ok
  | SvReleased _ ok => KReleased ok
  | SvAccessPoint _ ok => KAP ok
  | SvSNIStart _ | SvSNIClose => KSNI
  | SvEngineStart doc _ => KEngine doc
  | SvEngineStop => KEngineStop
  | SvAPStart _ _ => KAPStart
  | SvAPStop => KAPStop
  | SvForward _ _ => KForward
  end.

Definition up : list kind :=
  [KRecover; KRecover; KApply Pre false; KTeardown true; KApply Pre true; KReleased true; KEngine "40001"; KApply Post true;
   KAPStart; KAP true].

Example takes_wlan0_over :
  let s := after [RStart req] in
  kind_of <$> done s = up ∧ running (svc s) = true ∧ (Hotspot ∘ hot <$> sv_plan (svc s)) = Some "wlan0"%string ∧
  socksPort (svc s) = 40001 ∧ machine s = MkPi true true true.
Proof. vm_compute. split_and!; reflexivity. Qed.

(** The same press again repairs; a cut and a restore load one ruleset each; a
    stop gives wlan0 back and leaves no journal. *)
Example a_day :
  let s := after [RStart req; RStart req; RCut; RCut; RRestore; RStop] in
  kind_of <$> done s =
    (up ++ [KAP true; KEngine "40001"; KAPStart; KAP true; KForward; KForward; KEngineStop; KAPStop; KTeardown true])%list ∧
  machine s = fresh ∧ file (sdisk s) = None ∧ nothing_up (svc s).
Proof. vm_compute. split_and!; reflexivity. Qed.

(** A box that runs, with the two-step journal of Apply.v open. *)
Definition running_box : St Pi :=
  MkSt (mark_running (requestFingerprint key req) "GB" 443 (with_applier (Some (MkJournal 2 true)) (new_service cfg)))
    (MkPi true true true) (MkDisk (Some Demo.applied) [] false) [].

Lemma same_request_applies_nothing_witness : only_repairs running_box (Start cfg key no_probes req running_box).2.
Proof. apply (same_request_applies_nothing cfg key no_probes req running_box); reflexivity. Defined.

Definition journalled : list Entry := match LoadJournal (sdisk running_box) with Ok es => es | Err _ => [] end.

Lemma stop_settles_witness :
  ∃ s' evs clean, Stop running_box = (Ok tt, s') ∧
    done s' = [SvEngineStop; SvAPStop; SvTeardown evs clean] ∧ LoadJournal (sdisk s') = Ok [] ∧ length journalled = 2%nat.
Proof.
  assert (Ek : Stop running_box = (Ok tt, (Stop running_box).2)) by (vm_compute; reflexivity).
  assert (El : LoadJournal (sdisk running_box) = Ok journalled) by (vm_compute; reflexivity).
  destruct (stop_settles (MkJournal 2 true) journalled running_box (Stop running_box).2 eq_refl El Ek)
    as (evs & clean & es' & Hd & _).
  exists (Stop running_box).2, evs, clean. split; [exact Ek|]. split; [exact Hd|]. split; vm_compute; reflexivity.
Defined.
