(* ===== verification/XcfgService.v ===== *)
(** * The service composes with the links and the documents

    The privileged service is written against a parser of links and a composer of
    documents. Here they are internal/link and internal/xcfg themselves, and what the
    engine is handed tunnels the clients' traffic. *)

From S2P Require Import Prelude GoStrings Sha256 Netip Text Json JsonFacts JsonStruct Subnet StateError Privsvc Service XcfgFacts XcfgDoc Plan ServiceDemo Link LinkDoc Xcfg.

Local Open Scope Z_scope.

Section Links.
Context {K R : Type} `{Link.Conf R}.

(** plans.go, engineDocument: the options handed to xcfg.Build *)
Definition options_of (e : EngineOptions (Link.Link R)) : Xcfg.Options R :=
  Xcfg.MkOptions (Some (eo_Link _ e)) (default Xcfg.LogWarning (eo_LogLevel _ e))
    (Xcfg.MkTUN (TUN_Disabled _ e) (TUN_Name _ e) Xcfg.DefaultTunMTU 0 (TUN_Subnet _ e))
    (Xcfg.MkSOCKS Xcfg.DefaultSocksListen (SOCKS_Port _ e) false)
    (Xcfg.MkDNS Xcfg.DefaultResolvers Xcfg.QueryUseIP (DNS_Intercept _ e))
    (Xcfg.MkLocalDNS (LocalDNS_Enabled _ e) Xcfg.DefaultLocalDNSListen (LocalDNS_Port _ e))
    (Direct_Interface _ e) (PinnedServer _ e).

Definition security_text (s : Link.LSecurity) : string :=
  match s with Link.SecurityNone => "none" | Link.SecurityTLS => "tls" | Link.SecurityReality => "reality" end.

(** A host whose links and documents are the program's own. *)
Definition with_links (h : Host K (Link.Link R)) : Host K (Link.Link R) := {|
  CheckSupport := CheckSupport;
  Now := Now;
  ParseLink raw := match Link.Parse raw with Some (Ok l) => Some l | _ => None end;
  lk_protocol := Link.l_Protocol;
  lk_network := Link.l_Network;
  lk_security l := security_text (Link.l_Security l);
  lk_address := Link.l_Address;
  lk_port := Link.l_Port;
  Service.ThroughLoopback l e := match Link.ThroughLoopback l e with Some (Ok l) => Some l | _ => None end;
  Service.Build e := match Xcfg.Build (options_of e) with Ok t => Some (of_l t) | Err _ => None end;
  Resolve := Resolve;
  Probe := Probe;
  NetListen := NetListen;
  StartSNI := StartSNI;
  CloseSNI := CloseSNI;
  Sleep := Sleep;
  ToASCII := ToASCII (K := K);
  RandRead := RandRead;
  class_text := class_text (K := K);
  class_journal := class_journal (K := K)
|}.
End Links.

Section Tunnelled.
Context {K R : Type} `{Link.Conf R} {Rt : Router} {Rd : RouterDocumented}.

Lemma ranges_mono l l' n : Forall (λ i, i ∈ l') l → existsb (within n) l = true → existsb (within n) l' = true.
Proof.
  intros Hl. rewrite !existsb_exists. intros (i & Hi & Hw). exists i. split; [|done]. rewrite Forall_forall in Hl.
  apply list_elem_of_In, Hl. by apply list_elem_of_In.
Qed.
Lemma in_ranges_mono l4 l6 l4' l6' a : Forall (λ i, i ∈ l4') l4 → Forall (λ i, i ∈ l6') l6 → in_ranges l4 l6 a = true → in_ranges l4' l6' a = true.
Proof. unfold in_ranges. intros H4 H6. destruct (plain_addr a); [done|by apply ranges_mono..]. Qed.
Lemma multicast_private a : in_ranges multicast4 multicast6 a = true → in_ranges private4 private6 a = true.
Proof. apply in_ranges_mono; apply Forall_forall; intros i Hi; unfold multicast4, multicast6, private4, private6 in *; set_solver. Qed.
Lemma loopback_private a : in_ranges loopback4 loopback6 a = true → in_ranges private4 private6 a = true.
Proof. apply in_ranges_mono; apply Forall_forall; intros i Hi; unfold loopback4, loopback6, private4, private6 in *; set_solver. Qed.

(** What a client's connection may do: leave for the resolver, the tunnel, or a
    private address. *)
Lemma client_destination (o : Xcfg.Options R) c : Xcfg.Intercept (Xcfg.o_DNS o) = true → c_inbound c = Xcfg.TagTUNIn →
  (c_port c = 53 → destination o c = Xcfg.TagDNSOut) ∧
  (destination o c = Xcfg.TagDirect ∨ destination o c = Xcfg.TagDirectLocal →
    c_port c ≠ 53 ∧ ∃ a, c_dest c = Some a ∧ in_ranges private4 private6 a = true) ∧
  (c_port c ≠ 53 → match c_dest c with
    | Some a => in_ranges private4 private6 a = false ∧ Contains_addr (Xcfg.tun_Subnet (Xcfg.o_TUN o)) (plain_addr a) = false
    | None => True
    end → destination o c = Xcfg.TagProxy).
Proof.
  intros Hi Hin. unfold destination, destination_stated. rewrite Hi. destruct (absent (c_network c)).
  2:{ cbn [andb]. destruct (Z.eqb_spec (c_port c) 53); split_and!; try done; by intros [|]. }
  rewrite Hin. change (Xcfg.TagTUNIn =? Xcfg.TagLocalDNSIn)%string with false.
  change (Xcfg.TagTUNIn =? Xcfg.TagResolverIn)%string with false. rewrite andb_false_r. cbn [andb].
  destruct (Z.eqb_spec (c_port c) 53) as [E|E]; [split_and!; [done|by intros [|]|done]|]. split_and!; [done|..].
  - destruct (c_dest c) as [a|]; [|by intros [|]]. intros Hd. split; [done|]. exists a. split; [done|]. revert Hd.
    destruct (negb (Xcfg.o_Interface o =? "")%string && in_ranges loopback4 loopback6 a) eqn:El.
    { intros _. apply andb_true_iff in El as [_ El]. by apply loopback_private. }
    destruct (Contains_addr _ _ || _); [by intros [|]|]. destruct (in_ranges private4 private6 a); [done|by intros [|]].
  - intros _. destruct (c_dest c) as [a|]; [|done]. intros [Hp Ht]. rewrite Ht, Hp. cbn [orb].
    destruct (in_ranges loopback4 loopback6 a) eqn:El; [by apply loopback_private in El; congruence|]. rewrite andb_false_r.
    destruct (in_ranges multicast4 multicast6 a) eqn:Em; [by apply multicast_private in Em; congruence|]. done.
Qed.

(** C5. The document the service hands the engine tunnels the clients' traffic. For a
    link whose outbound can be printed and read, a tunnel subnet that is IPv4 or
    unknown, and an uplink, a server name and pinned addresses whose texts are valid
    UTF-8, and for any router that keeps to what the program documents of it, whether
    or not a rule that states no network takes UDP: of a connection, TCP or UDP, that
    came in on the tunnel's device, DNS goes to the engine's own resolver whatever
    server it was meant for; a name, or an address that is neither private nor the
    tunnel's own, goes into the tunnel; only a private address may be reached
    directly; and the engine has the outbound named. *)
Theorem client_traffic_tunnelled (h : Host K (Link.Link R)) (cfg : Config) l req opts pinned t (s s' : St K) doc :
  engineDocument (HostI := with_links h) cfg l req opts pinned t s = (Ok doc, s') →
  link_plain l → subnet_known (tf_subnet t) → ValidString (directInterface t) = true →
  ValidString (Xcfg.serverNameOf (options_of (engine_options cfg l req opts pinned t (socksPortInForce cfg (svc s))))) = true →
  Forall (λ a, ValidString (addr_String (Unmap a)) = true) pinned →
  ∃ j, Unmarshal (to_l doc) = Some j ∧ ∀ c, conn_ok c → c_inbound c = Xcfg.TagTUNIn →
    ∃ out, route (read_rules j) c = Some out ∧ out ∈ read_tags j ∧
      (c_port c = 53 → out = Xcfg.TagDNSOut) ∧
      (out = Xcfg.TagDirect ∨ out = Xcfg.TagDirectLocal → c_port c ≠ 53 ∧ ∃ a, c_dest c = Some a ∧ in_ranges private4 private6 a = true) ∧
      (c_port c ≠ 53 → match c_dest c with
        | Some a => in_ranges private4 private6 a = false ∧ Contains_addr (tf_subnet t) (plain_addr a) = false
        | None => True
        end → out = Xcfg.TagProxy).
Proof.
  unfold engineDocument. set (e := engine_options cfg l req opts pinned t (socksPortInForce cfg (svc s))). intros E Hlp Hsub Hif Hname Hpin.
  assert (∃ text, Xcfg.Build (options_of e) = Ok text ∧ to_l doc = text) as (text & Eb & ->).
  { revert E. cbn. fold e. destruct (Xcfg.Build (options_of e)) as [text|]; [|done]. intros E. exists text. split; [done|].
    apply (f_equal fst) in E. injection E as E. rewrite <- E. exact (to_of_l text). }
  assert (∀ l', Xcfg.o_Link (options_of e) = Some l' → link_plain l') as Hlps by (intros l' El; assert (l' = l) as -> by (simpl in El; congruence); done).
  destruct (Build_reads (options_of e) text Eb Hlps) as (d & Hd & Hj).
  { split; [reflexivity|reflexivity|by repeat constructor|exact Hif|exact Hname|exact Hpin]. }
  { exact Hsub. }
  exists (Xcfg.document_json d). split; [done|]. intros c Hc Hin.
  destruct (document_tags (options_of e) d Hd Hlps Hsub) as [_ Hr]. destruct (Hr c Hc) as [H1 H2].
  exists (destination (options_of e) c). split; [done|]. split; [done|]. by apply client_destination.
Qed.
End Tunnelled.

(** * Documents, on a concrete link

    A pasted trojan link with a name for a server, two pinned addresses and a bound
    uplink, through internal/link and internal/xcfg and out of the service. *)

#[local] Existing Instance demo_conf.

(** Two routers that keep to what is documented: one in which a rule without a
    network takes UDP, one in which it does not. *)
Definition router (udp : bool) : Router := {|
  applies c r := inbound_cond c r && ip_cond c r && port_cond c r &&
                 network_cond (λ n, match n with NetTCP => true | NetUDP => udp end) c r;
  absent n := match n with NetTCP => true | NetUDP => udp end
|}.
Lemma router_documented udp : @RouterDocumented (router udp).
Proof. by split. Qed.

Definition demo_options : Xcfg.Options unit :=
  Xcfg.MkOptions (Some the_link) "" (MkTUN false "" 0 0 (MkPrefix (A4 0x0a533300) 24)) (MkSOCKS "" 0 false) (MkDNS [] "" true)
    (MkLocalDNS true "" 0) "eth0" [A4 0xcb00710a; A4 0xcb00710b].

Lemma demo_plain : link_plain the_link.
Proof. exists 3%nat. split; [exact the_link_plain|vm_compute; discriminate]. Qed.
Lemma demo_links l : o_Link demo_options = Some l → link_plain l.
Proof. intros E. assert (l = the_link) as -> by (simpl in E; congruence). exact demo_plain. Qed.
Lemma demo_texts : texts_valid demo_options.
Proof. split; try reflexivity; repeat constructor. Qed.
Lemma demo_subnet : subnet_known (tun_Subnet (o_TUN demo_options)).
Proof. right. exists 0x0a533300, 24. split; [reflexivity|]. split; lia. Qed.

Lemma demo_builds : is_ok (Build_document demo_options) = true.
Proof. vm_compute. reflexivity. Qed.
Lemma demo_text : ∃ text, Xcfg.Build demo_options = Ok text.
Proof. pose proof demo_builds as E. unfold Xcfg.Build. destruct (Build_document demo_options) as [d|]; [by eexists|done]. Qed.

Lemma document_routes_witness : ∃ text j, Xcfg.Build demo_options = Ok text ∧ Unmarshal text = Some j ∧
  let route := @route (router true) in let route' := @XcfgFacts.route (router false) in
  route (read_rules j) (MkConn "tun-in" (Some (A4 0x08080808)) 53 NetUDP) = Some "dns-out"%string ∧
  route (read_rules j) (MkConn "resolver-in" (Some (A4 0x0a000001)) 53 NetUDP) = Some "proxy"%string ∧
  route (read_rules j) (MkConn "tun-in" (Some (A4 0x0a5333ff)) 137 NetUDP) = Some "block"%string ∧
  route (read_rules j) (MkConn "socks-in" (Some (A4 0x7f000001)) 80 NetTCP) = Some "direct-local"%string ∧
  route (read_rules j) (MkConn "tun-in" (Some (A4 0xc0a80101)) 80 NetTCP) = Some "direct"%string ∧
  route (read_rules j) (MkConn "tun-in" None 443 NetTCP) = Some "proxy"%string ∧
  route' (read_rules j) (MkConn "tun-in" (Some (A4 0x08080808)) 53 NetUDP) = Some "dns-out"%string ∧
  route' (read_rules j) (MkConn "tun-in" (Some (A4 0x08080808)) 443 NetUDP) = Some "proxy"%string ∧
  route' (read_rules j) (MkConn "tun-in" (Some (A4 0xc0a80101)) 80 NetTCP) = Some "direct"%string.
Proof.
  destruct demo_text as [text E].
  destruct (document_routes (Rd := router_documented true) demo_options text E demo_links demo_texts demo_subnet) as (j & Ej & _ & Hr).
  destruct (document_routes (Rd := router_documented false) demo_options text E demo_links demo_texts demo_subnet) as (j' & Ej' & _ & Hr').
  assert (j' = j) as -> by congruence. exists text, j. split; [exact E|]. split; [exact Ej|].
  split_and!; (etransitivity; [first [apply Hr|apply Hr']; vm_compute; first [exact I|split; [discriminate|reflexivity]]|vm_compute; reflexivity]).
Defined.

(** The two readings of a rule without a network part on the resolver's own queries:
    where such a rule does not take UDP they are handed back to the resolver. *)
Lemma resolver_queries_need_udp :
  @route (router true) (build_rules demo_options) (MkConn "resolver-in" (Some (A4 0x01010101)) 53 NetUDP) = Some "proxy"%string ∧
  @route (router false) (build_rules demo_options) (MkConn "resolver-in" (Some (A4 0x01010101)) 53 NetUDP) = Some "dns-out"%string.
Proof. split; vm_compute; reflexivity. Qed.


Lemma server_name_pinned_witness : ∃ text j, Xcfg.Build demo_options = Ok text ∧ Unmarshal text = Some j ∧
  "203.0.113.10"%string ∈ hosts_for "vpn.example.org" j.
Proof.
  destruct demo_text as [text E].
  destruct (server_name_pinned demo_options text the_link E eq_refl demo_plain demo_texts demo_subnet) as (j & ob & Ej & _ & Hh).
  exists text, j. split; [exact E|]. split; [exact Ej|]. rewrite bool_decide_false in Hh.
  - destruct Hh as [Hs _]. apply Hs. exists (A4 0xcb00710a). split; [constructor|vm_compute; reflexivity].
  - intros [E'|E']; vm_compute in E'; discriminate.
Defined.

Lemma fail_closed_blocks_witness : ∃ text j, BuildFailClosed demo_options = Ok text ∧ Unmarshal text = Some j ∧ read_tags j = ["block"%string].
Proof.
  assert (is_ok (BuildFailClosed_document demo_options) = true) as E by (vm_compute; reflexivity).
  assert (∃ text, BuildFailClosed demo_options = Ok text) as [text Et] by (unfold BuildFailClosed; destruct (BuildFailClosed_document demo_options); [by eexists|done]).
  destruct (fail_closed_blocks (Rd := router_documented false) demo_options text Et demo_texts) as (j & Ej & _ & Ht & _). exists text, j. split; [exact Et|]. split; [exact Ej|exact Ht].
Defined.

(** ** Out of the service *)

Definition pi_links : Host Pi (Link unit) := {|
  CheckSupport _ := None;
  Now _ := 1000;
  ParseLink _ := None;
  lk_protocol := l_Protocol;
  lk_network := l_Network;
  lk_security _ := ""%string;
  lk_address := l_Address;
  lk_port := l_Port;
  Service.ThroughLoopback _ _ := None;
  Service.Build _ := None;
  Resolve h k := Resolve (Host := pi_host) h k;
  Probe a p k := Probe (Host := pi_host) a p k;
  NetListen p k := NetListen (Host := pi_host) p k;
  StartSNI _ _ _ _ k := (Err SNIUnsupported, k);
  CloseSNI _ k := (None, k);
  Sleep _ k := (None, k);
  ToASCII s := Some s;
  RandRead _ := Err "unused"%string;
  class_text _ := FaultUnknown;
  class_journal _ := FaultUnknown
|}.

Definition demo_facts : tunnelFacts := MkTunnelFacts (MkPrefix (A4 0x0a533300) 24) "eth0".
Definition demo_state : St Pi := MkSt (new_service cfg) fresh blank [].

(** The text pasted is the link used. *)
Example service_parses : match ParseLink (Host := with_links pi_links)
    (pasted (put "protocol" "trojan") (at_server "vpn.example.org") (put "security" "none")) with
  | Some l => (l_Address l, l_Port l) | None => (""%string, 0) end = ("vpn.example.org"%string, 443).
Proof. vm_compute. reflexivity. Qed.

Lemma client_traffic_tunnelled_witness : ∃ doc j, Unmarshal (to_l doc) = Some j ∧
  (engineDocument (HostI := with_links pi_links) cfg the_link req DefaultOptions [A4 0xcb00710a] demo_facts demo_state).1 = Ok doc ∧
  ∀ udp,
  @route (router udp) (read_rules j) (MkConn "tun-in" (Some (A4 0x08080808)) 53 NetUDP) = Some "dns-out"%string ∧
  @route (router udp) (read_rules j) (MkConn "tun-in" (Some (A4 0x08080808)) 443 NetTCP) = Some "proxy"%string.
Proof.
  set (o := options_of (engine_options cfg the_link req DefaultOptions [A4 0xcb00710a] demo_facts (socksPortInForce cfg (svc demo_state)))).
  assert (is_ok (Build_document o) = true) as Eo by (vm_compute; reflexivity).
  assert (∃ doc, engineDocument (HostI := with_links pi_links) cfg the_link req DefaultOptions [A4 0xcb00710a] demo_facts demo_state = (Ok doc, demo_state)) as [doc E].
  { cbn -[Xcfg.Build options_of engine_options]. fold o. unfold Xcfg.Build. destruct (Build_document o) as [d|]; [|discriminate Eo]. eexists. reflexivity. }
  assert (∀ udp, ∃ j, Unmarshal (to_l doc) = Some j ∧
    @route (router udp) (read_rules j) (MkConn "tun-in" (Some (A4 0x08080808)) 53 NetUDP) = Some "dns-out"%string ∧
    @route (router udp) (read_rules j) (MkConn "tun-in" (Some (A4 0x08080808)) 443 NetTCP) = Some "proxy"%string) as Hall.
  2:{ destruct (Hall true) as (j & Ej & _). exists doc, j. split; [exact Ej|]. split; [rewrite E; reflexivity|].
      intros udp. destruct (Hall udp) as (j' & Ej' & Hr). assert (j' = j) as -> by congruence. exact Hr. }
  intros udp. pose proof (router_documented udp) as Hrd.
  destruct (client_traffic_tunnelled (Rd := Hrd) pi_links cfg the_link req DefaultOptions [A4 0xcb00710a] demo_facts demo_state demo_state doc E demo_plain demo_subnet
    eq_refl ltac:(vm_compute; reflexivity) ltac:(repeat constructor)) as (j & Ej & Hr).
  exists j. split; [exact Ej|]. split.
  - destruct (Hr (MkConn "tun-in" (Some (A4 0x08080808)) 53 NetUDP) ltac:(vm_compute; split; [discriminate|reflexivity]) eq_refl) as (out & -> & _ & H1 & _).
    rewrite H1 by reflexivity. reflexivity.
  - destruct (Hr (MkConn "tun-in" (Some (A4 0x08080808)) 443 NetTCP) ltac:(vm_compute; split; [discriminate|reflexivity]) eq_refl) as (out & -> & _ & _ & _ & H1).
    rewrite H1; [reflexivity|discriminate|vm_compute; split; reflexivity].
Defined.
