(* ===== verification/Wire.v ===== *)
(** * The socket between the panel and the privileged service

    privsvc/wire.go, peer.go, the connection handler of server.go and the client of
    client.go: the frame, the JSON of a request, the checks made before the service
    is touched, and the dispatch of one action. A connection is who the kernel says
    is calling and the bytes that arrive. A reply is its data; its JSON, like the log
    lines of both sides, is left out. Contexts are the machine's choice of when a
    call fails; their deadline is computed here. *)

From S2P Require Import Prelude GoStrings Sha256 Bytes Base64 Netip Text Json JsonFacts JsonStruct.
From S2P Require Import Facts Command Journal Apply Parse HotspotConf Plan Detect.
From S2P Require Import StateError Privsvc Service Refresh ServiceFacts.
From S2P Require LogRing Password.

Local Open Scope Z_scope.

(** ** panel/priv.go: the vocabulary *)

Definition ActionDetect : string := "detect".
Definition ActionStatus : string := "status".
Definition ActionStart : string := "start".
Definition ActionStop : string := "stop".
Definition ActionEngineLog : string := "engine-log".
Definition ActionCut : string := "cut".
Definition ActionRecover : string := "recover".
Definition ActionRestore : string := "restore".
Definition ActionRefresh : string := "refresh".

Definition Actions : list string :=
  [ActionDetect; ActionStatus; ActionStart; ActionStop; ActionRecover; ActionEngineLog; ActionCut; ActionRestore; ActionRefresh].

(** ** wire.go *)

Definition maxFrameBytes : Z := 524288.   (* 512 << 10 *)
Definition protocolVersion : Z := 1.

Inductive Refusal :=
| RefusalBadFrame | RefusalTooLarge | RefusalBadJSON | RefusalBadVersion | RefusalUnknownAction | RefusalMissingArg
| RefusalUnexpectedArg.

(** A RefreshRequest is its URL. *)
Record wireRequest := MkWire {
  w_Version : Z;
  w_Action : string;
  w_Start : option StartRequest;
  w_Refresh : option string;
  DeadlineUnixNano : Z
}.

Definition zero_hotspot : HotspotSpec := MkHotspotSpec "" "" "" 0 "" "" "".
Definition zero_network : NetworkSpec := MkNetworkSpec "" "" "" "".
Definition zero_start : StartRequest := MkStartRequest "" false false "" zero_hotspot zero_network "".
Definition zero_request : wireRequest := MkWire 0 "" None None 0.

(** *** The JSON of a request: encoding/json by the fields' names *)

(** A []byte: base64 text, null for nil, or an array of numbers, where a null leaves
    the byte that is there. *)
Definition text_of (l : list Z) : string := of_l (byte_of <$> l).
Definition read_byte (j : json) (old : Z) : option Z :=
  match j with JNum t => Password.ParseUint t 255 | JNull => Some old | _ => None end.
Fixpoint read_bytes (l : list json) (old : list Z) : option (list Z) :=
  match l with
  | [] => Some []
  | j :: l => b ← read_byte j (default 0 (head old)); r ← read_bytes l (tail old); Some (b :: r)
  end.
Definition bytes_codec : Codec string :=
  MkCodec (λ s, Some (JStr (std_encode (bytes_of_string s))))
    (λ j old, match j with
              | JStr l => text_of <$> std_decode l
              | JNull => Some ""%string
              | JArr l => text_of <$> read_bytes l (bytes_of_string old)
              | _ => None
              end).

Definition set_hs_SSID x (h : HotspotSpec) := MkHotspotSpec x (hs_Passphrase h) (hs_Interface h) (hs_Channel h) (hs_Band h) (hs_Country h) (hs_Subnet h).
Definition set_hs_Passphrase x (h : HotspotSpec) := MkHotspotSpec (hs_SSID h) x (hs_Interface h) (hs_Channel h) (hs_Band h) (hs_Country h) (hs_Subnet h).
Definition set_hs_Interface x (h : HotspotSpec) := MkHotspotSpec (hs_SSID h) (hs_Passphrase h) x (hs_Channel h) (hs_Band h) (hs_Country h) (hs_Subnet h).
Definition set_hs_Channel x (h : HotspotSpec) := MkHotspotSpec (hs_SSID h) (hs_Passphrase h) (hs_Interface h) x (hs_Band h) (hs_Country h) (hs_Subnet h).
Definition set_hs_Band x (h : HotspotSpec) := MkHotspotSpec (hs_SSID h) (hs_Passphrase h) (hs_Interface h) (hs_Channel h) x (hs_Country h) (hs_Subnet h).
Definition set_hs_Country x (h : HotspotSpec) := MkHotspotSpec (hs_SSID h) (hs_Passphrase h) (hs_Interface h) (hs_Channel h) (hs_Band h) x (hs_Subnet h).
Definition set_hs_Subnet x (h : HotspotSpec) := MkHotspotSpec (hs_SSID h) (hs_Passphrase h) (hs_Interface h) (hs_Channel h) (hs_Band h) (hs_Country h) x.

Definition hotspot_spec_fields : list (Field HotspotSpec) := [
  field "SSID" string_codec never hs_SSID set_hs_SSID;
  field "Passphrase" string_codec never hs_Passphrase set_hs_Passphrase;
  field "Interface" string_codec never hs_Interface set_hs_Interface;
  field "Channel" int_codec never hs_Channel set_hs_Channel;
  field "Band" string_codec never hs_Band set_hs_Band;
  field "Country" string_codec never hs_Country set_hs_Country;
  field "Subnet" string_codec never hs_Subnet set_hs_Subnet].

Definition set_ns_Internet x (n : NetworkSpec) := MkNetworkSpec x (DNSMode n) (OnTunnelDown n) (ClientIPv6 n).
Definition set_ns_DNSMode x (n : NetworkSpec) := MkNetworkSpec (InternetInterface n) x (OnTunnelDown n) (ClientIPv6 n).
Definition set_ns_Down x (n : NetworkSpec) := MkNetworkSpec (InternetInterface n) (DNSMode n) x (ClientIPv6 n).
Definition set_ns_IPv6 x (n : NetworkSpec) := MkNetworkSpec (InternetInterface n) (DNSMode n) (OnTunnelDown n) x.

Definition network_spec_fields : list (Field NetworkSpec) := [
  field "InternetInterface" string_codec never InternetInterface set_ns_Internet;
  field "DNSMode" string_codec never DNSMode set_ns_DNSMode;
  field "OnTunnelDown" string_codec never OnTunnelDown set_ns_Down;
  field "ClientIPv6" string_codec never ClientIPv6 set_ns_IPv6].

Definition set_sr_Spoof x (r : StartRequest) := MkStartRequest x (sr_TCPSplit r) (sr_TLSRecordSplit r) (ConfigJSON r) (sr_Hotspot r) (sr_Network r) (EngineLogLevel r).
Definition set_sr_TCP x (r : StartRequest) := MkStartRequest (SpoofSNI r) x (sr_TLSRecordSplit r) (ConfigJSON r) (sr_Hotspot r) (sr_Network r) (EngineLogLevel r).
Definition set_sr_TLS x (r : StartRequest) := MkStartRequest (SpoofSNI r) (sr_TCPSplit r) x (ConfigJSON r) (sr_Hotspot r) (sr_Network r) (EngineLogLevel r).
Definition set_sr_Config x (r : StartRequest) := MkStartRequest (SpoofSNI r) (sr_TCPSplit r) (sr_TLSRecordSplit r) x (sr_Hotspot r) (sr_Network r) (EngineLogLevel r).
Definition set_sr_Hotspot x (r : StartRequest) := MkStartRequest (SpoofSNI r) (sr_TCPSplit r) (sr_TLSRecordSplit r) (ConfigJSON r) x (sr_Network r) (EngineLogLevel r).
Definition set_sr_Network x (r : StartRequest) := MkStartRequest (SpoofSNI r) (sr_TCPSplit r) (sr_TLSRecordSplit r) (ConfigJSON r) (sr_Hotspot r) x (EngineLogLevel r).
Definition set_sr_Level x (r : StartRequest) := MkStartRequest (SpoofSNI r) (sr_TCPSplit r) (sr_TLSRecordSplit r) (ConfigJSON r) (sr_Hotspot r) (sr_Network r) x.

Definition start_fields : list (Field StartRequest) := [
  field "SpoofSNI" string_codec never SpoofSNI set_sr_Spoof;
  field "TCPSplit" bool_codec never sr_TCPSplit set_sr_TCP;
  field "TLSRecordSplit" bool_codec never sr_TLSRecordSplit set_sr_TLS;
  field "ConfigJSON" bytes_codec never ConfigJSON set_sr_Config;
  field "Hotspot" (struct_codec hotspot_spec_fields true) never sr_Hotspot set_sr_Hotspot;
  field "Network" (struct_codec network_spec_fields true) never sr_Network set_sr_Network;
  field "EngineLogLevel" string_codec never EngineLogLevel set_sr_Level].

Definition refresh_fields : list (Field string) := [field "URL" string_codec never (λ u, u) (λ x _, x)].

Definition set_w_Version x (r : wireRequest) := MkWire x (w_Action r) (w_Start r) (w_Refresh r) (DeadlineUnixNano r).
Definition set_w_Action x (r : wireRequest) := MkWire (w_Version r) x (w_Start r) (w_Refresh r) (DeadlineUnixNano r).
Definition set_w_Start x (r : wireRequest) := MkWire (w_Version r) (w_Action r) x (w_Refresh r) (DeadlineUnixNano r).
Definition set_w_Refresh x (r : wireRequest) := MkWire (w_Version r) (w_Action r) (w_Start r) x (DeadlineUnixNano r).
Definition set_w_Deadline x (r : wireRequest) := MkWire (w_Version r) (w_Action r) (w_Start r) (w_Refresh r) x.

Definition request_fields : list (Field wireRequest) := [
  field "v" int_codec never w_Version set_w_Version;
  field "action" string_codec never w_Action set_w_Action;
  field "start" (pointer_codec zero_start (struct_codec start_fields true)) is_nil w_Start set_w_Start;
  field "refresh" (pointer_codec ""%string (struct_codec refresh_fields true)) is_nil w_Refresh set_w_Refresh;
  field "deadline_unix_nano" int_codec (Z.eqb 0) DeadlineUnixNano set_w_Deadline].

(** DisallowUnknownFields, at every depth *)
Definition request_codec : Codec wireRequest := struct_codec request_fields true.

(** *** Frames *)

Definition put_uint32 (n : Z) : list ascii :=
  [byte_of (Z.shiftr n 24 mod 256); byte_of (Z.shiftr n 16 mod 256); byte_of (Z.shiftr n 8 mod 256); byte_of (n mod 256)].
Definition uint32_of (l : list ascii) : Z := foldl (λ n c, n * 256 + Z.of_nat (nat_of_ascii c)) 0 l.

Inductive frame_error := FEOF | FUnexpectedEOF | FTooLarge | FEmpty | FBroken.

(** The bytes that arrive, and whether what follows them is an error (a read
    deadline, a reset) rather than the end. *)
Record Incoming := MkIncoming { arrived : list ascii; broken : bool }.

(** io.ReadFull *)
Definition ReadFull (n : nat) (c : Incoming) : res frame_error (list ascii * Incoming) :=
  if (n <=? List.length (arrived c))%nat then Ok (take n (arrived c), MkIncoming (drop n (arrived c)) (broken c))
  else Err (if broken c then FBroken else match arrived c with [] => FEOF | _ => FUnexpectedEOF end).

Definition writeFrame (payload : list ascii) : res frame_error (list ascii) :=
  let n := Z.of_nat (List.length payload) in
  if maxFrameBytes <? n then Err FTooLarge else Ok (put_uint32 n ++ payload).

Definition readFrame (c : Incoming) : res frame_error (list ascii) :=
  let? hdr := ReadFull 4 c in
  let n := uint32_of (fst hdr) in
  if maxFrameBytes <? n then Err FTooLarge
  else if n =? 0 then Err FEmpty
  else let? body := ReadFull (Z.to_nat n) (snd hdr) in Ok (fst body).

(** *** The checks *)

Definition knownAction (a : string) : bool := existsb (λ k, (a =? k)%string) Actions.

Definition wants_start (a : string) : bool := (a =? ActionStart)%string || (a =? ActionRecover)%string.
Definition wants_refresh (a : string) : bool := (a =? ActionRefresh)%string.

Definition decodeRequest (payload : list ascii) : res Refusal wireRequest :=
  match ('(j, rest) ← parse payload; req ← dec request_codec j zero_request; Some (req, rest)) with
  | None => Err RefusalBadJSON
  | Some (req, rest) =>
      if More rest then Err RefusalBadJSON
      else if negb (w_Version req =? protocolVersion) then Err RefusalBadVersion
      else if negb (knownAction (w_Action req)) then Err RefusalUnknownAction
      else
        let wantStart := wants_start (w_Action req) in
        let wantRefresh := wants_refresh (w_Action req) in
        if (wantStart && is_nil (w_Start req)) || (wantRefresh && is_nil (w_Refresh req)) then Err RefusalMissingArg
        else if (negb wantStart && negb (is_nil (w_Start req))) || (negb wantRefresh && negb (is_nil (w_Refresh req)))
        then Err RefusalUnexpectedArg
        else Ok req
  end.

(** *** The deadline, in nanoseconds *)

Definition MinDeadline : Z := 5 * 1000000000.
Definition MaxDeadline : Z := 600 * 1000000000.
Definition defaultDeadline : Z := 60 * 1000000000.

(** Time.Sub saturates at the ends of a Duration. *)
Definition duration (d : Z) : Z := Z.max (- 2 ^ 63) (Z.min d (2 ^ 63 - 1)).

Definition deadlineFrom (unixNano now : Z) : Z :=
  if unixNano =? 0 then now + defaultDeadline
  else
    let d := duration (unixNano - now) in
    let d := if d <? MinDeadline then MinDeadline else if MaxDeadline <? d then MaxDeadline else d in
    now + d.

(** ** peer.go *)

Record Peer := MkPeer { UID : Z; PID : Z; SID : string; Admin : bool }.
Record Allowed := MkAllowed { UIDs : gset Z; SIDs : gset string }.

Inductive account_error := NoAccount | UnreadableUID.

(** [lookupAccountSID] is Windows' and [lookup] user.Lookup, of which the Uid text
    is read. *)
Definition AllowedFor (lookupAccountSID lookup : string → option string) (serviceAccount : string) :
    Allowed * option account_error :=
  let a := MkAllowed {[0]} ∅ in
  if (serviceAccount =? "")%string then (a, None)
  else match lookupAccountSID serviceAccount with
       | Some sid => (MkAllowed {[0]} {[sid]}, None)
       | None =>
           match lookup serviceAccount with
           | None => (a, Some NoAccount)
           | Some text =>
               match Password.ParseUint (to_l text) (2 ^ 32 - 1) with
               | None => (a, Some UnreadableUID)
               | Some uid => (MkAllowed ({[uid]} ∪ {[0]}) ∅, None)
               end
           end
       end.

Definition Permits (a : Allowed) (p : Peer) : bool :=
  if negb (SID p =? "")%string then Admin p || bool_decide (SID p ∈ SIDs a) else bool_decide (UID p ∈ UIDs a).

(** ** server.go: the path of the socket *)

Inductive node := NoNode | NodeUnknown | NotASocket | ASocket (alive : bool).   (* what Stat and a dial say *)
Inductive path_error := CannotCreateDir | CannotExamine | ExistsNotSocket | ErrAlreadyRunning | CannotRemove.

(** The node left at the path, and the error. *)
Definition prepareSocketPath (mkdir_ok remove_ok : bool) (n : node) : res path_error unit * node :=
  if negb mkdir_ok then (Err CannotCreateDir, n)
  else match n with
       | NoNode => (Ok tt, n)
       | NodeUnknown => (Err CannotExamine, n)
       | NotASocket => (Err ExistsNotSocket, n)
       | ASocket true => (Err ErrAlreadyRunning, n)
       | ASocket false => if remove_ok then (Ok tt, NoNode) else (Err CannotRemove, n)
       end.

(** ** server.go: one connection *)

Record wireResponse := MkResponse {
  ws_Fault : PFault;
  ws_Refusal : option Refusal;
  ws_Detect : option Detection;
  ws_Status : option SystemStatus;
  ws_Log : option (list LogRing.LogEntry * Z);
  ws_Refresh : option RefreshReply
}.

Definition empty_response : wireResponse := MkResponse FaultNone None None None None None.
Definition refuse (r : Refusal) : wireResponse := MkResponse FaultNone (Some r) None None None None.
Definition faultResponse (e : FaultError) : wireResponse := MkResponse (fe_fault e) None None None None None.

Section Server.
Context {K L : Type} `{Runner K} `{Engine K} `{AccessPoint K} `{HostI : Host K L} `{ExchangesI : !Exchanges K}.
Context (cfg : Config) (key : list Z) (other_probes : Platform → Probes K).
(** Config.DetectTTL, and what EngineLog returns: the two rings are no part of the
    state of the model of the service. *)
Context (ttl : Z) (engine_log : St K → list LogRing.LogEntry * Z).
Context (allowed : Allowed).

(** An operation and its reply. *)
Definition answer {A} (m : M K A) (ok : A → wireResponse) (s : St K) : option (wireResponse * St K) :=
  let '(r, s) := m s in Some (match r with Ok a => ok a | Err e => faultResponse e end, s).

(** dispatch; [None] is the panic of a nil argument. *)
Definition dispatch (req : wireRequest) (s : St K) : option (wireResponse * St K) :=
  let a := w_Action req in
  if (a =? ActionDetect)%string then
    answer (detect cfg other_probes) (λ d, MkResponse FaultNone None (Some d) None None None) s
  else if (a =? ActionStatus)%string then
    answer (Status cfg other_probes ttl) (λ st, MkResponse FaultNone None None (Some st) None None) s
  else if (a =? ActionStart)%string then
    start ← w_Start req; answer (Service.Start cfg key other_probes start) (λ _, empty_response) s
  else if (a =? ActionRecover)%string then
    start ← w_Start req; answer (Service.Recover cfg key other_probes start) (λ _, empty_response) s
  else if (a =? ActionStop)%string then answer Stop (λ _, empty_response) s
  else if (a =? ActionCut)%string then answer Cut (λ _, empty_response) s
  else if (a =? ActionRestore)%string then answer Restore (λ _, empty_response) s
  else if (a =? ActionEngineLog)%string then Some (MkResponse FaultNone None None None (Some (engine_log s)) None, s)
  else if (a =? ActionRefresh)%string then
    url ← w_Refresh req; answer (refresh_request cfg url) (λ r, MkResponse FaultNone None None None None (Some r)) s
  else Some (refuse RefusalUnknownAction, s).

(** One connection: [peer] is [None] when the platform cannot say who it is. *)
Record Conn := MkConn { peer : option Peer; incoming : Incoming }.

(** handle: the reply, [None] when the connection is closed without one. *)
Definition handle (c : Conn) (s : St K) : option (option wireResponse * St K) :=
  match peer c with
  | None => Some (None, s)
  | Some p =>
      if negb (Permits allowed p) then Some (None, s)
      else match readFrame (incoming c) with
           | Err FTooLarge => Some (Some (refuse RefusalTooLarge), s)
           | Err FEOF => Some (None, s)
           | Err _ => Some (Some (refuse RefusalBadFrame), s)
           | Ok payload =>
               match decodeRequest payload with
               | Err r => Some (Some (refuse r), s)
               | Ok req => '(resp, s) ← dispatch req s; Some (Some resp, s)
               end
           end
  end.

(** Connections handled in turn, each to its end before the next is looked at. The
    server runs a goroutine for each (server.go:237), so these are the runs in which
    no two actions overlap. Start, Stop, Cut, Restore and the first half of Recover
    hold opMu and so never overlap one another; Status, Detect, Refresh and EngineLog
    do not take it and may run within another action, and another may come between
    the two halves of Recover: such runs are not modelled. *)
Fixpoint serve_all (cs : list Conn) (s : St K) : option (list (option wireResponse) * St K) :=
  match cs with
  | [] => Some ([], s)
  | c :: cs => '(r, s) ← handle c s; '(rs, s) ← serve_all cs s; Some (r :: rs, s)
  end.
End Server.

(** ** client.go *)

(** The methods of Client. *)
Inductive client_call :=
| CallDetect | CallStatus | CallStart (req : StartRequest) | CallStop | CallCut | CallRecover (req : StartRequest) | CallRestore
| CallEngineLog | CallRefresh (url : string).

(** The request each makes, with what call adds: the version and the context's
    deadline. *)
Definition request_of (c : client_call) (deadline : option Z) : wireRequest :=
  let '(a, start, refresh) :=
    match c with
    | CallDetect => (ActionDetect, None, None)
    | CallStatus => (ActionStatus, None, None)
    | CallStart r => (ActionStart, Some r, None)
    | CallStop => (ActionStop, None, None)
    | CallCut => (ActionCut, None, None)
    | CallRecover r => (ActionRecover, Some r, None)
    | CallRestore => (ActionRestore, None, None)
    | CallEngineLog => (ActionEngineLog, None, None)
    | CallRefresh u => (ActionRefresh, None, Some u)
    end in
  MkWire protocolVersion a start refresh (default 0 deadline).

(** The bytes call writes. *)
Definition call_frame (c : client_call) (deadline : option Z) : option (res frame_error (list ascii)) :=
  j ← enc request_codec (request_of c deadline); Some (writeFrame (Marshal j)).

(** What a reply means to the caller: a refusal first, then a fault. *)
Inductive call_result := CallRefused (r : Refusal) | CallFault (f : PFault) | CallOK (r : wireResponse).
Definition read_reply (r : wireResponse) : call_result :=
  match ws_Refusal r with
  | Some x => CallRefused x
  | None => if bool_decide (ws_Fault r = FaultNone) then CallOK r else CallFault (ws_Fault r)
  end.
