(* ===== verification/WireFacts.v ===== *)
(** * What the socket promises

    A request of the client arrives as it was made; nothing reaches the service that
    a permitted peer did not ask for in a message whose value has the version, action
    and argument asked for; and whatever arrives, connections handled in turn leave
    the service in the state of a session of the requests accepted, so that every
    property of sessions holds behind the socket. *)

From S2P Require Import Prelude GoStrings Sha256 Bytes Base64 Netip Text Json JsonFacts JsonStruct.
From S2P Require Import Facts Command Journal Apply Parse HotspotConf Plan Detect.
From S2P Require Import StateError Privsvc Service Refresh ServiceFacts Wire.
From S2P Require LogRing Password.

Local Open Scope Z_scope.

(** ** Bytes and frames *)

Lemma byte_of_ascii c : byte_of (Z.of_nat (nat_of_ascii c)) = c.
Proof. unfold byte_of. rewrite Nat2Z.id. apply ascii_nat_embedding. Qed.

Lemma ascii_of_byte z : 0 ≤ z < 256 → Z.of_nat (nat_of_ascii (byte_of z)) = z.
Proof. intros Hz. unfold byte_of. rewrite nat_ascii_embedding; lia. Qed.

Lemma uint32_round_trip n : 0 ≤ n < 2 ^ 32 → uint32_of (put_uint32 n) = n.
Proof.
  intros Hn. unfold uint32_of, put_uint32. cbn [foldl]. rewrite !ascii_of_byte by (apply Z.mod_pos_bound; lia).
  rewrite !Z.shiftr_div_pow2 by lia. change (2 ^ 24) with (256 * (256 * 256)). change (2 ^ 16) with (256 * 256). change (2 ^ 8) with 256.
  rewrite <- !Z.div_div by lia.
  pose proof (Z.div_mod n 256 ltac:(lia)). pose proof (Z.div_mod (n / 256) 256 ltac:(lia)). pose proof (Z.div_mod (n / 256 / 256) 256 ltac:(lia)).
  assert (0 ≤ n / 256 / 256 / 256 < 256).
  { rewrite !Z.div_div by lia. split; [apply Z.div_pos; lia|apply Z.div_lt_upper_bound; lia]. }
  rewrite (Z.mod_small (n / 256 / 256 / 256)) by lia. lia.
Qed.

(** A frame that was written is read, whatever follows it. *)
Lemma frame_round_trip payload frame rest b :
  payload ≠ [] → writeFrame payload = Ok frame → readFrame (MkIncoming (frame ++ rest) b) = Ok payload.
Proof.
  intros Hne. unfold writeFrame. destruct (maxFrameBytes <? Z.of_nat (List.length payload)) eqn:E; [done|]. intros Hf. breflect.
  assert (frame = put_uint32 (Z.of_nat (List.length payload)) ++ payload) as -> by congruence. clear Hf.
  set (n := Z.of_nat (List.length payload)) in *.
  assert (ReadFull 4 (MkIncoming ((put_uint32 n ++ payload) ++ rest) b) = Ok (put_uint32 n, MkIncoming (payload ++ rest) b)) as E4 by done.
  unfold readFrame. rewrite E4. cbn [fst snd]. assert (0 < n) as Hn by (subst n; destruct payload; [done|simpl; lia]).
  unfold maxFrameBytes in *. rewrite uint32_round_trip by lia. rewrite (proj2 (Z.ltb_ge _ _)), (proj2 (Z.eqb_neq _ _)) by lia.
  unfold ReadFull. cbn [arrived]. subst n. rewrite Nat2Z.id. rewrite (proj2 (Nat.leb_le _ _)) by (rewrite length_app; lia). cbn [fst].
  by rewrite take_app_length.
Qed.

(** ** Requests *)

Lemma bytes_round_trip s : text_of (bytes_of_string s) = s.
Proof.
  unfold text_of, bytes_of_string. rewrite <- (of_to_l s) at 2. f_equal. unfold to_l. induction (String.list_ascii_of_string s) as [|c l IH]; [done|].
  simpl. f_equal; [|exact IH]. rewrite <- (byte_of_ascii c) at 2. f_equal. unfold nat_of_ascii. lia.
Qed.

Lemma string_bytes_ok s : bytes_ok (bytes_of_string s).
Proof.
  unfold bytes_of_string, bytes_ok. induction (String.list_ascii_of_string s) as [|c l IH]; constructor; [|exact IH].
  unfold byte_ok. pose proof (N_ascii_bounded c). lia.
Qed.

(** Any bytes survive, text or not. *)
Lemma faithful_bytes n s : faithful bytes_codec n anything s.
Proof.
  exists (JStr (std_encode (bytes_of_string s))). split_and!; [done|by apply valid_ascii, std_encode_ascii, string_bytes_ok|].
  intros old _. simpl. rewrite std_round_trip by apply string_bytes_ok. simpl. by rewrite bytes_round_trip.
Qed.

Definition text (s : string) : Prop := ValidString s = true.
Definition hotspot_ok (h : HotspotSpec) : Prop :=
  Forall text [hs_SSID h; hs_Passphrase h; hs_Interface h; hs_Band h; hs_Country h; hs_Subnet h] ∧ - 2 ^ 63 ≤ hs_Channel h < 2 ^ 63.
Definition network_ok (n : NetworkSpec) : Prop := Forall text [InternetInterface n; DNSMode n; OnTunnelDown n; ClientIPv6 n].
(** What JSON can carry: strings that are UTF-8. The document may be any bytes. *)
Definition start_ok (r : StartRequest) : Prop :=
  text (SpoofSNI r) ∧ hotspot_ok (sr_Hotspot r) ∧ network_ok (sr_Network r) ∧ text (EngineLogLevel r).

Ltac omitted Ho :=
  lazymatch type of Ho with
  | never _ = true => discriminate Ho
  end.
Ltac follow_fields n := follow_fields_by n ltac:(fun Ho => omitted Ho).
#[local] Hint Unfold text : faithful.
#[local] Hint Resolve faithful_bytes : faithful.

Lemma hotspot_spec_faithful h : hotspot_ok h → faithful (struct_codec hotspot_spec_fields true) 1 anything h.
Proof.
  intros [Hs Hc]. repeat (apply Forall_cons in Hs as [? Hs]). apply faithful_struct; [distinct_names| |by exists zero_hotspot|].
  - intros old _. unfold hotspot_spec_fields. follow_fields 0%nat. by destruct h.
  - unfold hotspot_spec_fields. plain_fields.
Qed.
Lemma network_spec_faithful n : network_ok n → faithful (struct_codec network_spec_fields true) 1 anything n.
Proof.
  intros Hs. repeat (apply Forall_cons in Hs as [? Hs]). apply faithful_struct; [distinct_names| |by exists zero_network|].
  - intros old _. unfold network_spec_fields. follow_fields 0%nat. by destruct n.
  - unfold network_spec_fields. plain_fields.
Qed.
#[local] Hint Resolve hotspot_spec_faithful network_spec_faithful : faithful.

Lemma start_faithful r : start_ok r → faithful (struct_codec start_fields true) 2 anything r.
Proof.
  intros (H1 & H2 & H3 & H4). apply faithful_struct; [distinct_names| |by exists zero_start|].
  - intros old _. unfold start_fields. follow_fields 1%nat. by destruct r.
  - unfold start_fields. plain_fields.
Qed.
Lemma refresh_faithful u : text u → faithful (struct_codec refresh_fields true) 1 anything u.
Proof.
  intros Hu. apply faithful_struct; [distinct_names| |by exists ""%string|].
  - intros old _. unfold refresh_fields. follow_fields 0%nat. done.
  - unfold refresh_fields. plain_fields.
Qed.

Lemma pointer_faithful {A} (zero : A) c n (o : option A) :
  (∀ a, o = Some a → faithful c n anything a) → (∀ a, o = Some a → enc c a ≠ Some JNull) → faithful (pointer_codec zero c) n anything o.
Proof.
  intros Hf Hn. destruct o as [a|]; [|exists JNull; by repeat split].
  destruct (Hf a eq_refl) as (j & E & Hp & Hd). exists j. split_and!; [done|done|]. intros old _. simpl.
  rewrite Hd by done. specialize (Hn a eq_refl). by destruct j.
Qed.
Lemma struct_not_null {R} (fs : list (Field R)) b r : enc (struct_codec fs b) r ≠ Some JNull.
Proof. simpl. by destruct (write_fields fs r). Qed.

Lemma omit_nil {A} (o : option A) : is_nil o = true → o = None.
Proof. by destruct o. Qed.
Lemma omit_0 z : (0 =? z) = true → z = 0.
Proof. lia. Qed.

Definition call_ok (c : client_call) : Prop :=
  match c with
  | CallStart r | CallRecover r => start_ok r
  | CallRefresh u => text u
  | _ => True
  end.

Lemma known_words : Forall text Actions.
Proof. repeat constructor. Qed.

Lemma request_faithful c deadline : call_ok c → - 2 ^ 63 ≤ default 0 deadline < 2 ^ 63 →
  faithful request_codec 3 (λ old, old = zero_request) (request_of c deadline).
Proof.
  intros Hc Hd. set (req := request_of c deadline).
  assert (text (w_Action req)) as Ha by (pose proof known_words as Hk; rewrite Forall_forall in Hk; apply Hk; unfold req; destruct c; set_solver).
  assert (- 2 ^ 63 ≤ w_Version req < 2 ^ 63) as Hv by (unfold req; destruct c; change (w_Version _) with 1; lia).
  assert (- 2 ^ 63 ≤ DeadlineUnixNano req < 2 ^ 63) as Hn by (unfold req; destruct c; exact Hd).
  assert (faithful (pointer_codec zero_start (struct_codec start_fields true)) 2 anything (w_Start req)) as Hs.
  { apply pointer_faithful; [|intros; apply struct_not_null]. intros a E. apply start_faithful. unfold req in E. destruct c; simpl in E; simplify_eq; done. }
  assert (faithful (pointer_codec ""%string (struct_codec refresh_fields true)) 2 anything (w_Refresh req)) as Hr.
  { eapply faithful_mono with (n := 1%nat); [lia|]. apply pointer_faithful; [|intros; apply struct_not_null]. intros a E. apply refresh_faithful.
    unfold req in E. destruct c; simpl in E; simplify_eq; done. }
  clearbody req. apply faithful_struct; [distinct_names| |by eexists|].
  - intros old ->. unfold request_fields.
    follow_fields_by 2%nat ltac:(fun Ho => lazymatch type of Ho with
      | never _ = true => discriminate Ho
      | is_nil _ = true => apply omit_nil in Ho; rewrite Ho; reflexivity
      | _ => apply omit_0 in Ho; rewrite Ho; reflexivity
      end). by destruct req.
  - unfold request_fields. plain_fields.
Qed.

(** What the service is asked for by a client's call. *)
Definition asked (c : client_call) (ttl : Z) : option request :=
  match c with
  | CallDetect => Some RDetect
  | CallStatus => Some (RStatus ttl)
  | CallStart r => Some (RStart r)
  | CallStop => Some RStop
  | CallCut => Some RCut
  | CallRecover r => Some (RRecover r)
  | CallRestore => Some RRestore
  | CallEngineLog => None
  | CallRefresh u => Some (RRefresh u)
  end.

(** A decoded request as one of the service's; EngineLog changes nothing. *)
Definition request_for (ttl : Z) (req : wireRequest) : option request :=
  let a := w_Action req in
  if (a =? ActionDetect)%string then Some RDetect
  else if (a =? ActionStatus)%string then Some (RStatus ttl)
  else if (a =? ActionStart)%string then RStart <$> w_Start req
  else if (a =? ActionRecover)%string then RRecover <$> w_Start req
  else if (a =? ActionStop)%string then Some RStop
  else if (a =? ActionCut)%string then Some RCut
  else if (a =? ActionRestore)%string then Some RRestore
  else if (a =? ActionRefresh)%string then RRefresh <$> w_Refresh req
  else None.

(** A message the service will act on: from a permitted peer, one frame of at most
    512 KiB, and in it a request of this version, with a known action and exactly
    the argument that action takes. *)
Definition accepted (allowed : Allowed) (c : Conn) : option wireRequest :=
  p ← peer c;
  if Permits allowed p then
    match readFrame (incoming c) with
    | Ok payload => match decodeRequest payload with Ok req => Some req | Err _ => None end
    | Err _ => None
    end
  else None.

Definition well_formed (req : wireRequest) : Prop :=
  w_Version req = protocolVersion ∧ w_Action req ∈ Actions ∧
  (is_Some (w_Start req) ↔ w_Action req = ActionStart ∨ w_Action req = ActionRecover) ∧
  (is_Some (w_Refresh req) ↔ w_Action req = ActionRefresh).

Lemma knownAction_spec a : knownAction a = true ↔ a ∈ Actions.
Proof.
  unfold knownAction. rewrite existsb_exists. split.
  - intros (k & Hk & E%String.eqb_eq). subst. by apply list_elem_of_In.
  - intros Ha. exists a. split; [by apply list_elem_of_In|apply String.eqb_refl].
Qed.

Lemma decode_well_formed payload req : decodeRequest payload = Ok req → well_formed req.
Proof.
  unfold decodeRequest. destruct (parse payload) as [[j rest]|]; [|done]. cbn [mbind option_bind].
  destruct (dec request_codec j zero_request) as [r|]; [|done]. cbn [mbind option_bind]. destruct (More rest); [done|].
  destruct (w_Version r =? protocolVersion) eqn:Ev; [|done]. destruct (knownAction (w_Action r)) eqn:Ek; [|done]. cbn [negb].
  cbv zeta. match goal with |- (if ?b then _ else _) = _ → _ => destruct b eqn:E1 end; [done|].
  match goal with |- (if ?b then _ else _) = _ → _ => destruct b eqn:E2 end; [done|]. intros Hr. assert (r = req) as -> by congruence.
  apply Z.eqb_eq in Ev. apply knownAction_spec in Ek. unfold well_formed. split_and!; [done|done|..].
  - unfold wants_start in *. destruct (String.eqb_spec (w_Action req) ActionStart) as [->|N1]; [destruct (w_Start req); naive_solver|].
    destruct (String.eqb_spec (w_Action req) ActionRecover) as [->|N2]; [destruct (w_Start req); naive_solver|].
    destruct (w_Start req); [done|]. split; [by intros []|tauto].
  - unfold wants_refresh in *. destruct (String.eqb_spec (w_Action req) ActionRefresh) as [->|N1].
    + destruct (w_Refresh req); [naive_solver|]. simpl in E1. rewrite ?orb_true_r in E1; done.
    + destruct (w_Refresh req); [simpl in E2; rewrite ?orb_true_r in E2; done|]. split; [by intros []|tauto].
Qed.

(** ** What a call sends is what is done *)

(** A call of the client arrives as it was made: for each of its methods, with
    UTF-8 strings and any bytes for the engine's document, the request is encoded,
    and if its frame is not over the limit the bytes written, whatever follows them,
    are read back by the service as exactly that request, its deadline included. *)
Theorem call_arrives c deadline :
  call_ok c → - 2 ^ 63 ≤ default 0 deadline < 2 ^ 63 →
  ∃ j, enc request_codec (request_of c deadline) = Some j ∧
    (Z.of_nat (List.length (Marshal j)) ≤ maxFrameBytes →
     ∃ frame, call_frame c deadline = Some (Ok frame) ∧
       ∀ rest b allowed p ttl, Permits allowed p = true →
         accepted allowed (MkConn (Some p) (MkIncoming (frame ++ rest) b)) = Some (request_of c deadline) ∧
         request_for ttl (request_of c deadline) = asked c ttl).
Proof.
  intros Hc Hd. destruct (request_faithful c deadline Hc Hd) as (j & Ej & Hp & Hr). exists j. split; [done|]. intros Hl.
  exists (put_uint32 (Z.of_nat (List.length (Marshal j))) ++ Marshal j). unfold call_frame. rewrite Ej. cbn [mbind option_bind].
  assert (writeFrame (Marshal j) = Ok (put_uint32 (Z.of_nat (List.length (Marshal j))) ++ Marshal j)) as Ew.
  { unfold writeFrame. by rewrite (proj2 (Z.ltb_ge _ _)) by done. }
  rewrite Ew. split; [done|]. intros rest b allowed p ttl Hperm. split; [|by destruct c].
  unfold accepted. cbn [peer mbind option_bind incoming]. rewrite Hperm.
  pose proof (parse_Marshal j 3 Hp ltac:(unfold maxNestingDepth; lia)) as Epar.
  rewrite (frame_round_trip (Marshal j)); [|intros E; by rewrite E in Epar|done].
  unfold decodeRequest. rewrite Epar. cbn [mbind option_bind]. rewrite Hr by done. cbn [mbind option_bind].
  by destruct c.
Qed.

(** ** Behind the socket *)

Section Behind.
Context {K L : Type} `{Runner K} `{Engine K} `{AccessPoint K} `{HostI : Host K L} `{ExchangesI : !Exchanges K}.
Context (cfg : Config) (key : list Z) (other_probes : Platform → Probes K).
Context (ttl : Z) (engine_log : St K → list LogRing.LogEntry * Z) (allowed : Allowed).

Local Abbreviation dispatch := (dispatch cfg key other_probes ttl engine_log).
Local Abbreviation handle := (handle cfg key other_probes ttl engine_log allowed).
Local Abbreviation serve_all := (serve_all cfg key other_probes ttl engine_log allowed).
Local Abbreviation serve := (serve cfg key other_probes).

Definition served (s : St K) (r : option request) : St K := match r with Some r => serve s r | None => s end.

Lemma answer_state {A} (m : M K A) ok s : ∃ resp, answer m ok s = Some (resp, (m s).2).
Proof. unfold answer. destruct (m s) as [r s']. by eexists. Qed.

(** A well-formed request is dispatched to the operation it names. *)
Lemma dispatch_serves req s : well_formed req → ∃ resp, dispatch req s = Some (resp, served s (request_for ttl req)).
Proof.
  intros (_ & Ha & Hs & Hr). destruct req as [v a st rf dl]. cbn [w_Action w_Start w_Refresh] in *.
  repeat (apply elem_of_cons in Ha as [->|Ha]); [..|by apply elem_of_nil in Ha];
    unfold Wire.dispatch, request_for; cbn [w_Action w_Start w_Refresh];
    repeat match goal with |- context [if (?x =? ?y)%string then _ else _] =>
      let b := eval vm_compute in (x =? y)%string in change (x =? y)%string with b; cbv iota end;
    try apply answer_state; try (by eexists);
    [destruct (proj2 Hs (or_introl eq_refl)) as [r ->]|destruct (proj2 Hs (or_intror eq_refl)) as [r ->]|destruct (proj2 Hr eq_refl) as [r ->]];
    apply answer_state.
Qed.

Lemma handle_serves c s :
  ∃ resp, handle c s = Some (resp, served s (accepted allowed c ≫= request_for ttl)) ∧
    (accepted allowed c = None → resp = None ∨ ∃ r, resp = Some (refuse r)).
Proof.
  unfold Wire.handle, accepted. destruct (peer c) as [p|]; [|eexists; split; [done|auto]]. cbn [mbind option_bind].
  destruct (Permits allowed p); cbn [negb]; [|eexists; split; [done|auto]].
  destruct (readFrame (incoming c)) as [payload|e]; [|destruct e; eexists; (split; [done|eauto])].
  destruct (decodeRequest payload) as [req|r] eqn:E; [|eexists; split; [done|eauto]].
  destruct (dispatch_serves req s (decode_well_formed _ _ E)) as (resp & ->). by eexists.
Qed.

(** C11. Behind the socket there is only the service. For connections handled in
    turn, no action overlapping another: whoever connects and whatever bytes arrive,
    no message makes the service panic, and its state is that of the session of
    exactly the requests accepted, in their order. Only a permitted peer's message is
    accepted, and only when the value decodeRequest reads out of it has this version,
    a known action and exactly the argument the action takes; any other connection is
    closed in silence or told one of the seven refusals, and changes nothing. What
    follows that value in the message is refused unless it starts with a closing
    bracket (trailing_bracket_accepted). *)
Theorem socket_refines_session k d (cs : list Conn) :
  ∃ replies, serve_all cs (boot cfg k d) =
      Some (replies, session cfg key other_probes k d (omap (λ c, accepted allowed c ≫= request_for ttl) cs)) ∧
    Forall2 (λ c r, accepted allowed c = None → r = None ∨ ∃ x, r = Some (refuse x)) cs replies ∧
    (∀ c req, c ∈ cs → accepted allowed c = Some req → well_formed req ∧ ∃ p, peer c = Some p ∧ Permits allowed p = true).
Proof.
  assert (∀ s, ∃ replies, serve_all cs s = Some (replies, foldl serve s (omap (λ c, accepted allowed c ≫= request_for ttl) cs)) ∧
    Forall2 (λ c r, accepted allowed c = None → r = None ∨ ∃ x, r = Some (refuse x)) cs replies) as H'.
  { induction cs as [|c cs' IH]; intros s; [exists []; split; [done|constructor]|]. cbn [Wire.serve_all].
    destruct (handle_serves c s) as (r & -> & Hr). cbn [mbind option_bind].
    destruct (IH (served s (accepted allowed c ≫= request_for ttl))) as (rs & -> & Hrs). exists (r :: rs). cbn [mbind option_bind].
    split; [|by constructor]. simpl. by destruct (accepted allowed c ≫= request_for ttl). }
  destruct (H' (boot cfg k d)) as (rs & E & Hrs). exists rs. split_and!; [exact E|exact Hrs|]. intros c req _ Ha. unfold accepted in Ha.
  destruct (peer c) as [p|]; [|done]. cbn [mbind option_bind] in Ha. destruct (Permits allowed p) eqn:Ep; [|done].
  destruct (readFrame _) as [payload|]; [|done]. destruct (decodeRequest payload) as [r|] eqn:Ed; [|done]. assert (r = req) as -> by congruence.
  split; [by eapply decode_well_formed|]. eauto.
Qed.
End Behind.

(** ** The rest *)

(** The service never waits less than five seconds nor more than ten minutes for a
    caller, and exactly as long as asked in between. *)
Lemma deadline_clamped n now :
  now + MinDeadline ≤ deadlineFrom n now ≤ now + MaxDeadline ∧
  (now + MinDeadline ≤ n ≤ now + MaxDeadline → n ≠ 0 → deadlineFrom n now = n).
Proof.
  unfold deadlineFrom, duration, MinDeadline, MaxDeadline, defaultDeadline. split.
  - repeat case_match; breflect; lia.
  - intros Hn Hz. repeat case_match; breflect; lia.
Qed.

(** Only root and the service's own account are permitted on a machine without SIDs. *)
Lemma permitted_accounts sid lookup account p :
  SID p = ""%string → sid account = None → Permits (AllowedFor sid lookup account).1 p = true →
  UID p = 0 ∨ ∃ text, lookup account = Some text ∧ Password.ParseUint (to_l text) (2 ^ 32 - 1) = Some (UID p).
Proof.
  intros Hs Hsid. unfold AllowedFor, Permits. rewrite Hs, Hsid. cbn [String.eqb negb].
  assert (∀ x : gset Z, bool_decide (UID p ∈ x) = true → UID p ∈ x) as Hb by (intros x; apply bool_decide_eq_true).
  destruct (account =? "")%string; [intros H%Hb; set_solver|]. destruct (lookup account) as [t|]; [|intros H%Hb; set_solver].
  destruct (Password.ParseUint _ _) as [u|] eqn:E; intros H%Hb; [|set_solver]. simpl in H.
  apply elem_of_union in H as [->%elem_of_singleton|H]; [right; eauto|set_solver].
Qed.

(** A path that holds anything but a dead socket is left as it is. *)
Lemma socket_path_careful mkdir rm n : n ≠ ASocket false → (prepareSocketPath mkdir rm n).2 = n.
Proof. unfold prepareSocketPath. destruct mkdir; [|done]. by destruct n as [| | |[]]. Qed.

(** ** Examples *)

Module Demo.
Definition panel_account : Peer := MkPeer 998 4100 "" false.
Definition only_caspian : Allowed := (AllowedFor (λ _, None) (λ _, Some "998"%string) "caspian").1.

Definition start : StartRequest :=
  MkStartRequest "" false false "{}" (MkHotspotSpec "Caspian" "abcdefgh2345" "" 0 "" "" "") (MkNetworkSpec "" "tunnel" "block" "block") "".

Definition q (s : string) : string := (String dquote s ++ String dquote "")%string.
Definition frame_of (payload : string) : list ascii := put_uint32 (Z.of_nat (String.length payload)) ++ to_l payload.
Definition from (p : Peer) (payload : string) : Conn := MkConn (Some p) (MkIncoming (frame_of payload) false).
Definition refused_as (c : Conn) : res Refusal (option wireRequest) :=
  match readFrame (incoming c) with Ok p => match decodeRequest p with Ok r => Ok (Some r) | Err e => Err e end | Err _ => Ok None end.
Definition msg (v action rest : string) : string :=
  ("{" ++ q "v" ++ ":" ++ v ++ "," ++ q "action" ++ ":" ++ q action ++ rest ++ "}")%string.

Example checks :
  refused_as (from panel_account (msg "2" "stop" "")) = Err RefusalBadVersion ∧
  refused_as (from panel_account (msg "1" "exec" "")) = Err RefusalUnknownAction ∧
  refused_as (from panel_account (msg "1" "stop" ("," ++ q "argv" ++ ":[]"))) = Err RefusalBadJSON ∧
  refused_as (from panel_account (msg "1" "start" "")) = Err RefusalMissingArg ∧
  refused_as (from panel_account (msg "1" "stop" ("," ++ q "start" ++ ":{}"))) = Err RefusalUnexpectedArg ∧
  refused_as (from panel_account (msg "1" "stop" "" ++ " x")) = Err RefusalBadJSON.
Proof. vm_compute. split_and!; reflexivity. Qed.

(** Bytes after the message are not seen when the first of them closes a bracket. *)
Example trailing_bracket_accepted :
  refused_as (from panel_account (msg "1" "stop" "" ++ "} anything")) = Ok (Some (MkWire 1 "stop" None None 0)).
Proof. vm_compute. reflexivity. Qed.

Lemma call_arrives_witness :
  ∃ frame, call_frame (CallStart start) (Some 1700000000000000000) = Some (Ok frame) ∧
    accepted only_caspian (MkConn (Some panel_account) (MkIncoming frame false)) = Some (request_of (CallStart start) (Some 1700000000000000000)).
Proof.
  destruct (call_arrives (CallStart start) (Some 1700000000000000000)) as (j & Ej & Hj).
  - split_and!; [reflexivity|split; [repeat (apply Forall_cons; split; [reflexivity|]); apply Forall_nil; done|simpl; lia]| |reflexivity].
    repeat (apply Forall_cons; split; [reflexivity|]). by apply Forall_nil.
  - simpl. lia.
  - destruct Hj as (frame & Ef & Ha).
    + assert (from_option (λ j, Z.of_nat (List.length (Marshal j)) <=? maxFrameBytes) false
        (enc request_codec (request_of (CallStart start) (Some 1700000000000000000))) = true) as Hs by (vm_compute; reflexivity).
      rewrite Ej in Hs. by apply Z.leb_le.
    + exists frame. split; [exact Ef|]. destruct (Ha [] false only_caspian panel_account 0) as [Hr _]; [vm_compute; reflexivity|]. by rewrite app_nil_r in Hr.
Defined.
End Demo.
