(* ===== verification/Assembly.v ===== *)
(** * The service with its engine and its access point (config.go)

    [withDefaults] of config.go hands the service an engine and, on Linux, the
    hostapd and dnsmasq supervisor. Here the three run on one machine: the machine
    is threaded through the engine's and the supervisor's own state, and the two
    of them keep the promises the service relies on.

    [Idles] states what a component promises behind its interface: a notion of
    being idle that its stop establishes and that nothing but its start can end.
    Against that promise, a service that is not running has left both components
    idle, whatever was asked of it before and whatever failed. *)

From S2P Require Import Prelude GoStrings Netip Text Facts Command Journal Apply Parse Subnet HotspotConf Plan Nft Steps Detect.
From S2P Require Import StateError Frame Privsvc.
From S2P Require Engine EngineFacts Supervisor SupervisorFacts ServiceDemo.
From S2P Require Import Service Refresh ServiceFacts.

Local Open Scope Z_scope.
Local Open Scope svc_scope.

(** ** What a stopped service leaves running *)

Section Promise.
Context {K L : Type} `{Runner K} `{Engine K} `{AccessPoint K} `{HostI : Host K L} `{ExchangesI : !Exchanges K}.

(** The calls that concern neither component. *)
Definition host_preserves (I : K → Prop) : Prop :=
  (∀ c, preserves I (Run c)) ∧ (∀ h, preserves I (Resolve h)) ∧ (∀ a p, preserves I (Probe a p)) ∧
  (∀ p, preserves I (NetListen p)) ∧ (∀ a p i o, preserves I (StartSNI a p i o)) ∧ (∀ f, preserves I (CloseSNI f)) ∧
  (∀ d, preserves I (Sleep d)) ∧ (∀ iface, preserves I (APQuery iface)) ∧ (∀ u port, preserves I (Exchange u port)).

Definition probes_preserve (I : K → Prop) (ps : Probes K) : Prop :=
  (∀ knobs now, preserves I (pr_detect ps knobs now)) ∧ (∀ p, preserves I (pr_released ps p)) ∧
  (∀ p ssid, preserves I (pr_isAP ps p ssid)) ∧ preserves I (pr_regdomain ps).

(** What the two components promise the service. [sound] is what they keep of
    their own state; the rest is promised from sound states. *)
Class Idles (sound engine_idle ap_idle : K → Prop) := {
  sound_apart : host_preserves sound;
  sound_engine : (∀ doc, preserves sound (EngineStart doc)) ∧ preserves sound EngineStop;
  sound_ap : (∀ hp, preserves sound (APStart hp)) ∧ preserves sound APStop;
  engine_stops k : sound k → engine_idle (snd (EngineStop k));
  ap_stops k : sound k → ap_idle (snd (APStop k));
  engine_apart : host_preserves engine_idle;
  ap_apart : host_preserves ap_idle;
  engine_unaware : (∀ hp, preserves engine_idle (APStart hp)) ∧ preserves engine_idle APStop;
  ap_unaware : (∀ doc, preserves ap_idle (EngineStart doc)) ∧ preserves ap_idle EngineStop
}.
End Promise.

Section Carried.
Context {K L : Type} `{Runner K} `{Engine K} `{AccessPoint K} `{HostI : Host K L} `{ExchangesI : !Exchanges K}.
Context (cfg : Config) (key : list Z) (other_probes : Platform → Probes K).

(** One component: its idle states, and whether its last event was a start. *)
Context (sound I : K → Prop) (up : list SEvent → bool).
Hypothesis sound_kept : host_preserves sound.
Hypothesis apart : host_preserves I.
Hypothesis others_sound : ∀ pl, probes_preserve sound (other_probes pl).
Hypothesis others_apart : ∀ pl, probes_preserve I (other_probes pl).

Definition accounted (s : St K) : Prop := sound (machine s) ∧ (I (machine s) ∨ up (done s) = true).
Definition carries (s s' : St K) : Prop := accounted s → accounted s'.

#[local] Instance carries_refl : Reflexive carries.
Proof. intros s Hs. exact Hs. Qed.
#[local] Instance carries_trans : Transitive carries.
Proof. intros s1 s2 s3 Ha Hb Hs. auto. Qed.

Local Abbreviation steady m := (keeps carries m).

(** The events of the component itself. *)
Definition of_component (e : SEvent) : bool :=
  match e with SvEngineStart _ _ | SvEngineStop | SvAPStart _ _ | SvAPStop => true | _ => false end.

Hypothesis other_events : ∀ l e, of_component e = false → up (l ++ [e]) = up l.
Hypothesis engine_starts : ∀ doc, steady (engine_start doc).
Hypothesis ap_starts : ∀ hp, steady (ap_start hp).
Hypothesis engine_ends : ∀ {A} (k : option cause → M K A),
  (∀ e, steady (k e)) → steady (e <-- on_machine EngineStop;; emit SvEngineStop;;; k e).
Hypothesis ap_ends : ∀ {A} (k : option cause → M K A),
  (∀ e, steady (k e)) → steady (e <-- on_machine APStop;; emit SvAPStop;;; k e).

Lemma steady_machine {A} (f : K → A * K) : preserves sound f → preserves I f → steady (on_machine f).
Proof.
  intros Hg Hf s [Ho Hs]. unfold on_machine. specialize (Hg _ Ho). specialize (Hf (machine s)).
  destruct (f (machine s)) as [a k]. split; [exact Hg|]. destruct Hs; auto.
Qed.
Lemma steady_modify f : steady (modify f).
Proof. intros s Hs. exact Hs. Qed.
Lemma steady_emit e : of_component e = false → steady (emit e).
Proof. intros He s [Ho Hs]. split; [exact Ho|]. simpl. by rewrite other_events. Qed.
Lemma steady_refused {A} w f : steady (refused (A := A) w f).
Proof. apply keeps_lift, _. Qed.
Lemma steady_when b w f : steady (refuse_when b w f).
Proof. unfold refuse_when. repeat keeps_step. Qed.

Local Hint Resolve steady_modify steady_emit steady_refused steady_when : keeps.

Lemma run_sound c : preserves sound (Run c).
Proof. apply sound_kept. Qed.
Lemma run_keeps c : preserves I (Run c).
Proof. apply apart. Qed.

Lemma steady_run c : steady (on_machine (Run c)).
Proof. apply steady_machine; [apply run_sound|apply run_keeps]. Qed.
Lemma steady_resolve h : steady (on_machine (Resolve h)).
Proof. apply steady_machine; [apply sound_kept|apply apart]. Qed.
Lemma steady_probe a p : steady (on_machine (Probe a p)).
Proof. apply steady_machine; [apply sound_kept|apply apart]. Qed.
Lemma steady_listen p : steady (on_machine (NetListen p)).
Proof. apply steady_machine; [apply sound_kept|apply apart]. Qed.
Lemma steady_sni a p i o : steady (on_machine (StartSNI a p i o)).
Proof. apply steady_machine; [apply sound_kept|apply apart]. Qed.
Lemma steady_sni_close f : steady (on_machine (CloseSNI f)).
Proof. apply steady_machine; [apply sound_kept|apply apart]. Qed.
Lemma steady_sleep d : steady (on_machine (Sleep d)).
Proof. apply steady_machine; [apply sound_kept|apply apart]. Qed.
Lemma steady_query iface : steady (on_machine (APQuery iface)).
Proof. apply steady_machine; [apply sound_kept|apply apart]. Qed.
Local Hint Resolve steady_run steady_resolve steady_probe steady_listen steady_sni steady_sni_close steady_sleep steady_query : keeps.

Lemma all_probes (J : K → Prop) pl :
  (∀ c, preserves J (Run c)) → (∀ pl, probes_preserve J (other_probes pl)) → probes_preserve J (probes other_probes pl).
Proof.
  intros HJ Ho. assert (probes_preserve J (linux_probes (K := K))) as Hl.
  { split_and!; intros; simpl; [apply detect_preserves|apply released_preserves|apply access_point_preserves|apply regdomain_preserves];
      exact HJ. }
  destruct pl; [exact Hl|exact Hl|apply Ho..].
Qed.
Local Hint Resolve run_sound run_keeps : core.

Lemma steady_pr_detect pl knobs now : steady (on_machine (pr_detect (probes other_probes pl) knobs now)).
Proof. apply steady_machine; apply all_probes; auto. Qed.
Lemma steady_pr_released pl p : steady (on_machine (pr_released (probes other_probes pl) p)).
Proof. apply steady_machine; apply all_probes; auto. Qed.
Lemma steady_pr_ap pl p ssid : steady (on_machine (pr_isAP (probes other_probes pl) p ssid)).
Proof. apply steady_machine; apply all_probes; auto. Qed.
Lemma steady_pr_domain pl : steady (on_machine (pr_regdomain (probes other_probes pl))).
Proof. apply steady_machine; apply all_probes; auto. Qed.
Local Hint Resolve steady_pr_detect steady_pr_released steady_pr_ap steady_pr_domain : keeps.

Lemma steady_domain : steady (regulatoryDomain cfg other_probes).
Proof. unfold regulatoryDomain, backend. repeat keeps_step. Qed.
Lemma steady_detect_machine knobs : steady (detect_machine cfg other_probes knobs).
Proof. unfold detect_machine, backend. repeat keeps_step. Qed.
Local Hint Resolve steady_domain steady_detect_machine : keeps.
Lemma steady_detect_or_fail knobs : steady (detect_or_fail cfg other_probes knobs).
Proof. unfold detect_or_fail. repeat keeps_step. Qed.
Local Hint Resolve steady_detect_or_fail : keeps.

Lemma steady_recover : steady recoverLocked.
Proof.
  intros s Hs. unfold recoverLocked. pose proof (Recover_preserves sound run_sound (MkWorld (machine s) (sdisk s) (MkJournal 0 false) [])) as Hq.
  pose proof (Recover_preserves I run_keeps (MkWorld (machine s) (sdisk s) (MkJournal 0 false) [])) as Hp.
  destruct (Apply.Recover _) as [[rep err] w]. destruct Hs as [Ho Hs]. split; [by apply Hq|].
  destruct Hs as [Hs|Hs]; [left; by apply Hp|right; simpl; by rewrite other_events].
Qed.
Lemma steady_open : steady (open_applier cfg).
Proof. intros s Hs. unfold open_applier. destruct (OpenJournal _ _) as [[j|e] d]; exact Hs. Qed.
Lemma steady_apply h p cur : steady (apply_steps h p cur).
Proof.
  intros s Hs. unfold apply_steps. pose proof (Apply_preserves sound run_sound (steps_of h p cur) (applier_world s)) as Hq.
  pose proof (Apply_preserves I run_keeps (steps_of h p cur) (applier_world s)) as Hp.
  destruct (Apply _ _) as [[rep err] w]. destruct Hs as [Ho Hs]. split; [by apply Hq|].
  destruct Hs as [Hs|Hs]; [left; by apply Hp|right; simpl; by rewrite other_events].
Qed.
Lemma steady_teardown j : steady (run_teardown j).
Proof.
  intros s Hs. unfold run_teardown. pose proof (Teardown_preserves sound run_sound (MkWorld (machine s) (sdisk s) j [])) as Hq.
  pose proof (Teardown_preserves I run_keeps (MkWorld (machine s) (sdisk s) j [])) as Hp.
  destruct (Teardown _) as [[rep err] w]. destruct Hs as [Ho Hs]. split; [by apply Hq|].
  destruct Hs as [Hs|Hs]; [left; by apply Hp|right; simpl; by rewrite other_events].
Qed.
Local Hint Resolve steady_recover steady_open steady_apply steady_teardown : keeps.
Lemma steady_tear_down : steady tear_down.
Proof. unfold tear_down. repeat keeps_step. Qed.
Local Hint Resolve steady_tear_down : keeps.

Lemma steady_released p : steady (assertHotspotInterfaceReleased other_probes p).
Proof. unfold assertHotspotInterfaceReleased. repeat keeps_step. Qed.
Lemma steady_wait n p ssid r : steady (wait_for_ap other_probes n p ssid r).
Proof. revert r. induction n as [|n IH]; intros r; simpl; repeat keeps_step. Qed.
Local Hint Resolve steady_released steady_wait : keeps.
Lemma steady_access_point p ssid : steady (assertHotspotIsAccessPoint other_probes p ssid).
Proof. unfold assertHotspotIsAccessPoint. repeat keeps_step. Qed.
Local Hint Resolve steady_access_point engine_starts ap_starts : keeps.

Lemma steady_check_ap st : steady (check_ap st).
Proof. unfold check_ap. repeat keeps_step. Qed.
Lemma steady_socks p : steady (chooseSocksPort p).
Proof. unfold chooseSocksPort. repeat keeps_step. Qed.
Lemma steady_document l req opts pinned t : steady (engineDocument cfg l req opts pinned t).
Proof. unfold engineDocument. repeat keeps_step. Qed.
Lemma steady_hotspot_plan p f req cc : steady (hotspot_plan cfg p f req cc).
Proof. unfold hotspot_plan. repeat keeps_step. Qed.
Local Hint Resolve steady_check_ap steady_socks steady_document steady_hotspot_plan : keeps.
Lemma steady_spoof l req p opts : steady (spoofDocument cfg l req p opts).
Proof. unfold spoofDocument. repeat keeps_step. Qed.
Lemma steady_take_over p req cc : steady (take_over cfg other_probes p req cc).
Proof. unfold take_over. repeat keeps_step. Qed.
Local Hint Resolve steady_spoof steady_take_over : keeps.
Lemma steady_pre_engine p hp f req cc : steady (applyPreEngine cfg other_probes p hp f req cc).
Proof. unfold applyPreEngine. repeat keeps_step. Qed.
Local Hint Resolve steady_pre_engine : keeps.

Lemma steady_apply_locked req fp : steady (applyLocked cfg other_probes req fp).
Proof.
  unfold applyLocked, check_request, recover_first, decide_plan, compose, prepare, bring_up. repeat keeps_step.
Qed.

Lemma steady_reassert : steady (reassertLocked other_probes).
Proof. unfold reassertLocked, safe_to_bind. repeat keeps_step. Qed.
Lemma steady_probe_any addrs port : steady (probe_any addrs port).
Proof. induction addrs as [|a addrs IH]; simpl; repeat keeps_step. Qed.
Local Hint Resolve steady_apply_locked steady_reassert steady_probe_any : keeps.
Lemma steady_probe_server : steady probeServer.
Proof. unfold probeServer. repeat keeps_step. Qed.
Lemma steady_close_forwarder : steady close_forwarder.
Proof. unfold close_forwarder. repeat keeps_step. Qed.
Local Hint Resolve steady_probe_server steady_close_forwarder : keeps.

Lemma steady_stop : steady stopLocked.
Proof.
  unfold stopLocked. apply engine_ends. intros e1. apply keeps_bind; [apply _|auto with keeps|]. intros e2.
  apply ap_ends. intros e3. repeat keeps_step.
Qed.
Local Hint Resolve steady_stop : keeps.
Lemma steady_start req : steady (Start cfg key other_probes req).
Proof. unfold Start, start_fresh, rollbackLocked. repeat keeps_step. Qed.
Local Hint Resolve steady_start : keeps.
Lemma steady_restart req : steady (Service.Recover cfg key other_probes req).
Proof. unfold Service.Recover, recoverToCleanMachine. repeat keeps_step. Qed.
Lemma steady_forward w : steady (setForward w).
Proof. unfold setForward. repeat keeps_step. Qed.
Lemma steady_detect : steady (detect cfg other_probes).
Proof. unfold detect. repeat keeps_step. Qed.
Local Hint Resolve steady_detect : keeps.
Lemma steady_status ttl : steady (Status cfg other_probes ttl).
Proof. unfold Status, cachedDetection. repeat keeps_step. Qed.

Lemma steady_refresh url : steady (refresh_request cfg url).
Proof.
  intros s [Ho Hs]. unfold refresh_request.
  pose proof (Refresh_preserves sound (match es_Phase (EngineStateOf (machine s)) with PhaseRunning => true | _ => false end)
    (socksPortInForce cfg (svc s)) url _ ltac:(apply sound_kept) Ho) as Hq.
  pose proof (Refresh_preserves I (match es_Phase (EngineStateOf (machine s)) with PhaseRunning => true | _ => false end)
    (socksPortInForce cfg (svc s)) url (machine s) ltac:(apply apart)) as Hp.
  destruct (Refresh _ _ _ _) as [[r asked] k]. split; [exact Hq|]. destruct Hs; [left; by apply Hp|by right].
Qed.

(** Every session carries the account. *)
Lemma session_accounted k d rs : sound k → I k → accounted (session cfg key other_probes k d rs).
Proof.
  intros Ho Hk. unfold session. assert (accounted (boot cfg k d)) as Hb by (apply steady_recover; split; [exact Ho|by left]).
  revert Hb. generalize (boot cfg k d) as s. induction rs as [|r rs IH]; intros s Hs; simpl; [done|]. apply IH.
  destruct r; simpl; [apply steady_detect|apply steady_status|apply steady_start|apply steady_restart|apply steady_stop
    |apply steady_forward|apply steady_forward|apply steady_refresh]; done.
Qed.
End Carried.

(** *** Both components *)

Lemma live_snoc l e : live (l ++ [e]) = live_after (live l) e.
Proof. unfold live. by rewrite foldl_app. Qed.

Section Idle.
Context {K L : Type} `{Runner K} `{Engine K} `{AccessPoint K} `{HostI : Host K L} `{ExchangesI : !Exchanges K}.
Context (cfg : Config) (key : list Z) (other_probes : Platform → Probes K).
Context (sound engine_idle ap_idle : K → Prop) `{PI : !Idles sound engine_idle ap_idle}.
Hypothesis others : ∀ pl,
  probes_preserve sound (other_probes pl) ∧ probes_preserve engine_idle (other_probes pl) ∧ probes_preserve ap_idle (other_probes pl).

Local Abbreviation engine_up := (λ l, (live l).1.1).
Local Abbreviation ap_up := (λ l, (live l).1.2).

(** A call on the machine and the event that records it, when what follows them is
    accounted for. *)
Lemma call_event {A B} (I : K → Prop) up (f : K → A * K) (ev : A → SEvent) (c : A → M K B) :
  preserves sound f →
  (∀ s, accounted sound I up s → I (f (machine s)).2 ∨ up (done s ++ [ev (f (machine s)).1]) = true) →
  (∀ a, keeps (carries sound I up) (c a)) →
  keeps (carries sound I up) (a <-- on_machine f;; emit (ev a);;; c a).
Proof.
  intros Hg Hf Hc s Hs. specialize (Hf s Hs). destruct Hs as [Ho _]. specialize (Hg _ Ho). unfold bind, on_machine.
  destruct (f (machine s)) as [a k] eqn:E. simpl. apply Hc. split; [exact Hg|exact Hf].
Qed.

(** A start counts from the moment it was asked for; the other component's calls
    leave the account as it was. *)
Lemma keeps_value {A} (I : K → Prop) up (a : A) : keeps (carries sound I up) (ret a : M K A).
Proof. intros s Hs. exact Hs. Qed.

Ltac read_live := intros s [? Hs]; rewrite ?live_snoc; destruct (live (done s)) as [[? ?] ?]; simpl in *; auto.

Lemma session_engine k d rs :
  sound k → engine_idle k → accounted sound engine_idle engine_up (session cfg key other_probes k d rs).
Proof.
  intros Ho Hk. destruct PI as [sa [se1 se2] [sp1 sp2] es _ ea _ [eu1 eu2] _].
  eapply session_accounted; [exact sa|exact ea|apply others|apply others|..]; [| | | | |exact Ho|exact Hk].
  - intros l e He. rewrite live_snoc. destruct (live l) as [[? ?] ?]. by destruct e.
  - intros doc. apply call_event; [apply se1|read_live|intros; apply keeps_value].
  - intros hp. apply call_event; [apply sp1| |intros; apply keeps_value]. read_live. destruct Hs; [left; by apply eu1|auto].
  - intros A c Hc. apply (call_event _ _ _ (λ _, SvEngineStop)); [exact se2| |exact Hc]. read_live.
  - intros A c Hc. apply (call_event _ _ _ (λ _, SvAPStop)); [exact sp2| |exact Hc]. read_live. destruct Hs; [left; by apply eu2|auto].
Qed.

Lemma session_ap k d rs :
  sound k → ap_idle k → accounted sound ap_idle ap_up (session cfg key other_probes k d rs).
Proof.
  intros Ho Hk. destruct PI as [sa [se1 se2] [sp1 sp2] _ aps _ aa _ [au1 au2]].
  eapply session_accounted; [exact sa|exact aa|apply others|apply others|..]; [| | | | |exact Ho|exact Hk].
  - intros l e He. rewrite live_snoc. destruct (live l) as [[? ?] ?]. by destruct e.
  - intros doc. apply call_event; [apply se1| |intros; apply keeps_value]. read_live. destruct Hs; [left; by apply au1|auto].
  - intros hp. apply call_event; [apply sp1|read_live|intros; apply keeps_value].
  - intros A c Hc. apply (call_event _ _ _ (λ _, SvEngineStop)); [exact se2| |exact Hc]. read_live. destruct Hs; [left; by apply au2|auto].
  - intros A c Hc. apply (call_event _ _ _ (λ _, SvAPStop)); [exact sp2| |exact Hc]. read_live.
Qed.

(** A service that is not running has left both components idle. *)
Lemma off_leaves_idle k d rs :
  sound k → engine_idle k → ap_idle k →
  let s := session cfg key other_probes k d rs in
  sound (machine s) ∧ (running (svc s) = false → engine_idle (machine s) ∧ ap_idle (machine s)).
Proof.
  intros Ho He Ha s. destruct (session_engine k d rs Ho He) as [Hs Hu]. destruct (session_ap k d rs Ho Ha) as [_ Hv].
  split; [exact Hs|]. intros Hr.
  destruct (session_off cfg key other_probes k d rs) as [Hn|[_ Hl]]; [fold s in Hn; by rewrite Hr in Hn|].
  fold s in Hl, Hu, Hv. rewrite Hl in Hu, Hv. naive_solver.
Qed.
End Idle.

(** ** The appliance *)

Record Appliance (K I : Type) := MkAppliance {
  world : K;
  eng : Engine.Engine K I;
  ap_sup : Supervisor.Sup K
}.
Arguments MkAppliance {K I}. Arguments world {K I}. Arguments eng {K I}. Arguments ap_sup {K I}.

Section Assembly.
Context {K I L : Type} `{RunnerK : Runner K} `{CoreK : !Engine.Core K I} `{SystemK : !Supervisor.System K}.
Context (paths : Supervisor.Paths) (validate : string → option string) `{HostK : !Host K L} `{ExchangesK : !Exchanges K}.

(** ** The machine under the three of them *)

(** A call on the machine itself. *)
Definition on_world {A} (f : K → A * K) (b : Appliance K I) : A * Appliance K I :=
  let '(a, k) := f (world b) in (a, MkAppliance k (eng b) (ap_sup b)).

(** An operation of the engine, on the machine as it is now. *)
Definition with_core (k : K) (e : Engine.Engine K I) : Engine.Engine K I :=
  Engine.MkEngine k (Engine.phase e) (Engine.reason e) (Engine.since e) (Engine.inst e) (Engine.tun e) (Engine.logs e) (Engine.history e).
Definition in_engine {A} (m : Engine.EM (K := K) (I := I) A) (b : Appliance K I) : res string A * Appliance K I :=
  let '(r, e) := m (with_core (world b) (eng b)) in (r, MkAppliance (Engine.core e) e (ap_sup b)).

(** An operation of the supervisor. *)
Definition with_sys (k : K) (s : Supervisor.Sup K) : Supervisor.Sup K := Supervisor.MkSup k (Supervisor.unblocked s) (Supervisor.calls s).
Definition in_sup {A} (m : Supervisor.SM K A) (b : Appliance K I) : res string A * Appliance K I :=
  let '(r, s) := m (with_sys (world b) (ap_sup b)) in (r, MkAppliance (Supervisor.sys s) (eng b) s).

(** ** The instances config.go wires *)

#[export] Instance appliance_runner : Runner (Appliance K I) := { Run c := on_world (Run c) }.

Definition phase_of (p : Engine.Phase) : EnginePhase :=
  match p with
  | Engine.PhaseStopped => PhaseStopped
  | Engine.PhaseStarting => PhaseStarting
  | Engine.PhaseRunning => PhaseRunning
  | Engine.PhaseFailed => PhaseFailed
  end.

(** An engine error carries its redacted text and no cause. *)
#[export] Instance appliance_engine : Service.Engine (Appliance K I) := {
  EngineStateOf b := MkEngineState (phase_of (Engine.phase (eng b))) (Engine.reason (eng b)) (Engine.since (eng b));
  EngineStart doc b := match in_engine (Engine.Start doc) b with
                       | (Ok _, b) => (None, b)
                       | (Err msg, b) => (Some msg, b)
                       end;
  EngineStop b := match in_engine Engine.Stop b with
                  | (Ok _, b) => (None, b)
                  | (Err _, b) => (Some COther, b)
                  end;
  EngineValidate := validate
}.

Definition machine_error (msg : string) : cause := CMachine (class_text msg).
Definition ap_status (h : Supervisor.HStatus) : APStatus :=
  MkAPStatus (Supervisor.h_Running h) (Supervisor.h_Reason h) (Supervisor.h_Devices h) (Supervisor.h_Malformed h).
Definition no_ap : APStatus := MkAPStatus false "" [] 0.

#[export] Instance appliance_ap : AccessPoint (Appliance K I) := {
  APStart hp b := match in_sup (Supervisor.Start paths hp) b with
                  | (Ok (h, err), b) => ((ap_status h, machine_error <$> err), b)
                  | (Err msg, b) => ((no_ap, Some (machine_error msg)), b)
                  end;
  APStop b := match in_sup (Supervisor.Stop paths) b with
              | (Ok [], b) => (None, b)
              | (Ok (msg :: _), b) | (Err msg, b) => (Some (machine_error msg), b)
              end;
  APQuery iface b := match in_sup (Supervisor.Status paths iface) b with
                     | (Ok h, b) => (Ok (ap_status h), b)
                     | (Err msg, b) => (Err (machine_error msg), b)
                     end
}.

#[export] Instance appliance_host : Host (Appliance K I) L := {
  CheckSupport b := CheckSupport (world b);
  Now b := Now (world b);
  ParseLink := ParseLink (K := K);
  lk_protocol := lk_protocol (K := K);
  lk_network := lk_network (K := K);
  lk_security := lk_security (K := K);
  lk_address := lk_address (K := K);
  lk_port := lk_port (K := K);
  ThroughLoopback := ThroughLoopback (K := K);
  Build := Build (K := K);
  Resolve h := on_world (Resolve h);
  Probe a p := on_world (Probe a p);
  NetListen p := on_world (NetListen p);
  StartSNI a p i o := on_world (StartSNI a p i o);
  CloseSNI f := on_world (CloseSNI f);
  Sleep d := on_world (Sleep d);
  ToASCII := ToASCII (K := K);
  RandRead b := RandRead (world b);
  class_text := class_text (K := K);
  class_journal := class_journal (K := K)
}.

#[export] Instance appliance_exchanges : Exchanges (Appliance K I) := λ u port, on_world (Exchange u port).

Definition on_probes (p : Probes K) : Probes (Appliance K I) :=
  MkProbes (λ knobs now, on_world (pr_detect p knobs now)) (λ pl, on_world (pr_released p pl))
    (λ pl ssid, on_world (pr_isAP p pl ssid)) (on_world (pr_regdomain p)).

Definition DefaultEngineLogCapacity : Z := 256.

(** withDefaults: a new engine and a new supervisor *)
Definition assemble (k : K) : Appliance K I :=
  MkAppliance k (Engine.NewWithLogCapacity DefaultEngineLogCapacity k) (Supervisor.MkSup k [] []).

(** ** The promises *)

Definition sound (b : Appliance K I) : Prop := EngineFacts.engine_inv (eng b).
Definition engine_idle (b : Appliance K I) : Prop := Engine.inst (eng b) = None ∧ Engine.tun (eng b) = None.
(** The last thing asked of each generated configuration was to remove it. What the
    system answered is not known, and nothing is said of the radios: reblockRadio
    forgets those it switched on before rfkill answers. *)
Definition ap_idle (b : Appliance K I) : Prop :=
  ∀ kind, SupervisorFacts.file_left (Supervisor.conf_of paths kind) (Supervisor.calls (ap_sup b)) = false.

(** What says nothing of the machine underneath is kept by a call on it. *)
Lemma on_world_preserves {A} (J : Engine.Engine K I → Supervisor.Sup K → Prop) (f : K → A * K) :
  preserves (λ b, J (eng b) (ap_sup b)) (on_world f).
Proof. intros b Hb. unfold on_world. by destruct (f (world b)). Qed.

Lemma in_engine_eng {A} (m : Engine.EM A) b : eng (in_engine m b).2 = (m (with_core (world b) (eng b))).2 ∧ ap_sup (in_engine m b).2 = ap_sup b.
Proof. unfold in_engine. by destruct (m _). Qed.
Lemma in_sup_sup {A} (m : Supervisor.SM K A) b : ap_sup (in_sup m b).2 = (m (with_sys (world b) (ap_sup b))).2 ∧ eng (in_sup m b).2 = eng b.
Proof. unfold in_sup. by destruct (m _). Qed.

Lemma engine_call b doc :
  eng (EngineStart doc b).2 = (Engine.Start doc (with_core (world b) (eng b))).2 ∧ ap_sup (EngineStart doc b).2 = ap_sup b.
Proof. simpl. pose proof (in_engine_eng (Engine.Start doc) b). by destruct (in_engine _ b) as [[?|?] ?]. Qed.
Lemma engine_stop_call b :
  eng (EngineStop b).2 = (Engine.Stop (with_core (world b) (eng b))).2 ∧ ap_sup (EngineStop b).2 = ap_sup b.
Proof. simpl. pose proof (in_engine_eng Engine.Stop b). by destruct (in_engine _ b) as [[?|?] ?]. Qed.
Lemma ap_call b hp : eng (APStart hp b).2 = eng b.
Proof. simpl. pose proof (in_sup_sup (Supervisor.Start paths hp) b) as [_ <-]. by destruct (in_sup _ b) as [[[? ?]|?] ?]. Qed.
Lemma ap_stop_call b :
  ap_sup (APStop b).2 = (Supervisor.Stop paths (with_sys (world b) (ap_sup b))).2 ∧ eng (APStop b).2 = eng b.
Proof. simpl. pose proof (in_sup_sup (Supervisor.Stop paths) b). by destruct (in_sup _ b) as [[[|? ?]|?] ?]. Qed.
Lemma ap_query_call b iface :
  ap_sup (APQuery iface b).2 = (Supervisor.Status paths iface (with_sys (world b) (ap_sup b))).2 ∧ eng (APQuery iface b).2 = eng b.
Proof. simpl. pose proof (in_sup_sup (Supervisor.Status paths iface) b). by destruct (in_sup _ b) as [[?|?] ?]. Qed.

Lemma apart_from_engine (J : Engine.Engine K I → Prop) : host_preserves (λ b : Appliance K I, J (eng b)).
Proof.
  split_and!; intros; try apply (on_world_preserves (λ e _, J e)). intros b Hb. by rewrite (proj2 (ap_query_call b iface)).
Qed.

Lemma apart_from_ap : host_preserves ap_idle.
Proof.
  split_and!; intros; try apply (on_world_preserves (λ _ s,
    ∀ kind, SupervisorFacts.file_left (Supervisor.conf_of paths kind) (Supervisor.calls s) = false)).
  intros b Hf. destruct (ap_query_call b iface) as [E _]. unfold ap_idle. rewrite E.
  intros kind. by apply SupervisorFacts.status_leaves_files, Hf.
Qed.

#[export] Instance appliance_idles : Idles sound engine_idle ap_idle.
Proof.
  split.
  - apply (apart_from_engine EngineFacts.engine_inv).
  - split; [intros doc|]; intros b Hb; unfold sound in *.
    + rewrite (proj1 (engine_call b doc)). by apply EngineFacts.start_inv.
    + rewrite (proj1 (engine_stop_call b)). by apply EngineFacts.stop_inv.
  - split; [intros hp|]; intros b Hb; unfold sound in *; [by rewrite ap_call|by rewrite (proj2 (ap_stop_call b))].
  - intros b _. unfold engine_idle. rewrite (proj1 (engine_stop_call b)). apply EngineFacts.stop_holds_nothing.
  - intros b _. unfold ap_idle. rewrite (proj1 (ap_stop_call b)). intros; apply SupervisorFacts.stop_leaves_no_file.
  - apply (apart_from_engine (λ e, Engine.inst e = None ∧ Engine.tun e = None)).
  - apply apart_from_ap.
  - split; [intros hp|]; intros b Hb; unfold engine_idle in *; [by rewrite ap_call|by rewrite (proj2 (ap_stop_call b))].
  - split; [intros doc|]; intros b Hb; unfold ap_idle in *;
      [by rewrite (proj2 (engine_call b doc))|by rewrite (proj2 (engine_stop_call b))].
Qed.


End Assembly.

(** ** The measured machine, assembled

    The Raspberry Pi of the recorded answers, with the files and processes of the
    supervisor's small machine: the interface is on the air exactly while hostapd
    lives. *)
Module Day.
Import ServiceDemo SupervisorFacts.Box.
Definition World : Type := Pi * SupervisorFacts.Box.Box.

Definition on_air (b : SupervisorFacts.Box.Box) : bool := bool_decide (100 ∈ SupervisorFacts.Box.procs b).

Definition on_box {A} (f : SupervisorFacts.Box.Box → A * SupervisorFacts.Box.Box) (w : World) : A * World :=
  let '(a, b) := f w.2 in (a, (w.1, b)).

#[local] Instance world_runner : Runner World := λ c w,
  let '(r, p) := pi_answer c (MkPi (pi_released w.1) (on_air w.2) (pi_engine w.1)) in (r, (p, w.2)).

#[local] Instance world_system : Supervisor.System World := {|
  Supervisor.SysRun n a := on_box (Supervisor.SysRun n a);
  Supervisor.WriteFile p c m := on_box (Supervisor.WriteFile p c m);
  Supervisor.ReadFile p := on_box (Supervisor.ReadFile p);
  Supervisor.Remove p := on_box (Supervisor.Remove p);
  Supervisor.ProcessAlive p := on_box (Supervisor.ProcessAlive p);
  Supervisor.SignalProcess p s := on_box (Supervisor.SignalProcess p s);
  Supervisor.SysSleep d := on_box (Supervisor.SysSleep d);
  Supervisor.SysNow w := Supervisor.SysNow w.2
|}.

(** An instance is the document it was built from. *)
#[local] Instance world_core : Engine.Core World string := {|
  Engine.LoadJSONConfig doc w := (Ok (Engine.MkCoreConfig [Engine.AppOther] [Engine.InTun "xray0"]), [], w);
  Engine.core_New _ w := (Ok "xray"%string, [], w);
  Engine.inst_Start _ w := (None, ["started"%string], w);
  Engine.inst_Close _ w := (None, [], w);
  Engine.lookupLinkIndex _ _ := None;
  Engine.deleteLink _ w := (None, w);
  Engine.tunDescriptors _ := [];
  Engine.closeDescriptor _ w := (None, w);
  Engine.ctx_Err _ := None;
  Engine.core_now _ := 0;
  Engine.core_wait w := w
|}.

Definition on_pi {A} (f : Pi → A * Pi) (w : World) : A * World := let '(a, p) := f w.1 in (a, (p, w.2)).

#[local] Instance world_host : Host World string := {|
  CheckSupport _ := None;
  Now _ := 1000;
  ParseLink := ParseLink (K := Pi);
  lk_protocol := lk_protocol (K := Pi);
  lk_network := lk_network (K := Pi);
  lk_security := lk_security (K := Pi);
  lk_address := lk_address (K := Pi);
  lk_port := lk_port (K := Pi);
  ThroughLoopback := ThroughLoopback (K := Pi);
  Build o := Some (Itoa (SOCKS_Port _ o));
  Resolve h := on_pi (Resolve h);
  Probe a p := on_pi (Probe a p);
  NetListen p := on_pi (NetListen p);
  StartSNI a p i o := on_pi (StartSNI a p i o);
  CloseSNI f := on_pi (CloseSNI f);
  Sleep d := on_pi (Sleep d);
  ToASCII s := Some s;
  RandRead _ := Err "unused"%string;
  class_text _ := FaultUnknown;
  class_journal _ := FaultUnknown
|}.

#[local] Instance world_exchanges : Exchanges World := λ u port, on_pi (Exchange u port).

#[local] Existing Instances appliance_runner appliance_host appliance_exchanges.
#[local] Instance day_engine : Service.Engine (Appliance World string) := appliance_engine (λ _, None).
#[local] Instance day_ap : AccessPoint (Appliance World string) := appliance_ap Supervisor.DefaultPaths.

Definition day (rs : list request) : St (Appliance World string) :=
  session cfg key (λ pl, on_probes linux_probes) (assemble (fresh, SupervisorFacts.Box.empty)) blank rs.

(** The access point goes on the air, holds one instance and its files; a stop
    leaves neither. *)
Example a_day_assembled :
  let s := day [RStart req] in let s' := day [RStart req; RStop] in
  (running (svc s) = true ∧ Engine.inst (eng (machine s)) = Some "xray"%string ∧
   SupervisorFacts.Box.procs (world (machine s)).2 = [200; 100]) ∧
  (running (svc s') = false ∧ Engine.history (eng (machine s')) = [Engine.ENew "xray"%string; Engine.EClose "xray"%string] ∧
   SupervisorFacts.Box.procs (world (machine s')).2 = [] ∧ SupervisorFacts.Box.files (world (machine s')).2 = ∅).
Proof. vm_compute. split_and!; reflexivity. Qed.

End Day.
