(* ===== verification/Qr.v ===== *)
(** * The join code's QR encoder (internal/panel/qr)

    qr.go, tables.go and svg.go. A symbol's modules are one slice: writing
    outside it panics in Go, so what draws is in the option monad, [None] being
    the panic. Codewords are bytes as integers. *)

From S2P Require Import Prelude GoStrings Bytes Text.

Local Open Scope Z_scope.

(** ** Loops *)

(** [for i := a; i < b; i++] *)
Definition span (a b : Z) : list Z := seqZ a (b - a).

Fixpoint loop {S A} (f : S → A → option S) (l : list A) (s : S) : option S :=
  match l with
  | [] => Some s
  | a :: l => s ← f s a; loop f l s
  end.

(** ** tables.go *)

Record versionCode := MkVersion {
  totalCodewords : nat;
  ecWords : nat;
  blocks1 : nat;
  words1 : nat;
  blocks2 : nat;
  words2 : nat
}.

Definition maxVersion : nat := 12.

Definition dataCodewords (c : versionCode) : nat := blocks1 c * words1 c + blocks2 c * words2 c.

Definition countBits (version : nat) : nat := if (version <=? 9)%nat then 8 else 16.

Definition byteCapacity (c : versionCode) (version : nat) : Z :=
  Z.quot (Z.of_nat (dataCodewords c) * 8 - 4 - Z.of_nat (countBits version)) 8.

(** Index 0 is unused. *)
Definition versions : list versionCode :=
  [MkVersion 0 0 0 0 0 0;
   MkVersion 26 10 1 16 0 0;
   MkVersion 44 16 1 28 0 0;
   MkVersion 70 26 1 44 0 0;
   MkVersion 100 18 2 32 0 0;
   MkVersion 134 24 2 43 0 0;
   MkVersion 172 16 4 27 0 0;
   MkVersion 196 18 4 31 0 0;
   MkVersion 242 22 2 38 2 39;
   MkVersion 292 22 3 36 2 37;
   MkVersion 346 26 4 43 1 44;
   MkVersion 404 30 1 50 4 51;
   MkVersion 466 22 6 36 2 37].

Definition remainderBits : list nat := [0; 0; 7; 7; 7; 7; 7; 0; 0; 0; 0; 0; 0]%nat.

Definition alignment : list (list Z) :=
  [[]; []; [6; 18]; [6; 22]; [6; 26]; [6; 30]; [6; 34]; [6; 22; 38]; [6; 24; 42]; [6; 26; 46]; [6; 28; 50]; [6; 30; 54];
   [6; 32; 58]].

(** ** Reed-Solomon over GF(256) *)

Definition gfPrimitive : Z := 0x11D.

(** The first loop of init: [n] rounds from [i] with [x] = 2^i. *)
Fixpoint gf_init (n i : nat) (x : Z) (exp log : list Z) : list Z * list Z :=
  match n with
  | O => (exp, log)
  | S n =>
      let exp := <[i := u8 x]> exp in
      let log := <[Z.to_nat x := Z.of_nat i]> log in
      let x := Z.shiftl x 1 in
      gf_init n (S i) (if negb (Z.land x 0x100 =? 0) then Z.lxor x gfPrimitive else x) exp log
  end.

(** The second loop: [n] rounds from [i]. *)
Fixpoint gf_double (n i : nat) (exp : list Z) : list Z :=
  match n with
  | O => exp
  | S n => gf_double n (S i) (<[i := nth (i - 255) exp 0]> exp)
  end.

Definition gf_tables : list Z * list Z := gf_init 255 0 1 (replicate 512 0) (replicate 256 0).
Definition gfExp : list Z := Eval vm_compute in gf_double 257 255 (fst gf_tables).
Definition gfLog : list Z := Eval vm_compute in snd gf_tables.

(** On bytes both indices are in range. *)
Definition gfMul (a b : Z) : Z :=
  if (a =? 0) || (b =? 0) then 0
  else nth (Z.to_nat (nth (Z.to_nat a) gfLog 0) + Z.to_nat (nth (Z.to_nat b) gfLog 0)) gfExp 0.

(** [b[i] ^= v] *)
Definition xor_at (b : list Z) (i : nat) (v : Z) : list Z := alter (λ c, Z.lxor c v) i b.

(** One factor of generatorPoly: the body of its outer loop. *)
Definition gen_step (poly : list Z) (i : nat) : list Z :=
  foldl (λ next '(j, c), xor_at (xor_at next j c) (S j) (gfMul c (nth i gfExp 0)))
    (replicate (S (length poly)) 0) (imap pair poly).

Definition generatorPoly (n : nat) : list Z := foldl gen_step [1] (seq 0 n).

(** The body of reedSolomon's loop. *)
Definition rs_step (gen rem : list Z) (i : nat) : list Z :=
  let lead := nth i rem 0 in
  if lead =? 0 then rem
  else foldl (λ rem '(j, g), xor_at rem (i + j) (gfMul g lead)) rem (imap pair gen).

Definition reedSolomon (data : list Z) (n : nat) : list Z :=
  drop (length data) (foldl (rs_step (generatorPoly n)) (data ++ replicate n 0) (seq 0 (length data))).

(** ** The matrix *)

Record Matrix := MkMatrix { size : Z; mods : list bool }.

Definition in_symbol (m : Matrix) (x y : Z) : bool := negb ((x <? 0) || (y <? 0) || (size m <=? x) || (size m <=? y)).

Definition At (m : Matrix) (x y : Z) : bool :=
  if in_symbol m x y then nth (Z.to_nat (y * size m + x)) (mods m) false else false.

(** A write panics unless the slice has that index. *)
Definition set (m : Matrix) (x y : Z) (dark : bool) : option Matrix :=
  let i := y * size m + x in
  if i <? 0 then None
  else _ ← mods m !! Z.to_nat i; Some (MkMatrix (size m) (<[Z.to_nat i := dark]> (mods m))).

Definition newMatrix (version : nat) : Matrix :=
  let size := 17 + 4 * Z.of_nat version in MkMatrix size (replicate (Z.to_nat (size * size)) false).

(** ** The bit stream *)

(** bitBuf.push; [bytes] grows by a zero byte every eighth bit. *)
Record bitBuf := MkBits { bytes : list Z; nbits : nat }.

Definition push_bit (b : bitBuf) (bit : bool) : bitBuf :=
  let bs := if (nbits b mod 8 =? 0)%nat then bytes b ++ [0] else bytes b in
  let bs := if bit then alter (λ c, Z.lor c (Z.shiftl 1 (7 - Z.of_nat (nbits b mod 8)))) (nbits b / 8)%nat bs else bs in
  MkBits bs (S (nbits b)).

Definition value_bits (value : Z) (n : nat) : list bool := (λ i, Z.testbit value (Z.of_nat i)) <$> rev (seq 0 n).

Definition push (b : bitBuf) (value : Z) (n : nat) : bitBuf := foldl push_bit b (value_bits value n).

Definition modeByte : Z := 4.

(** The pad codewords, [i] counting them. *)
Fixpoint pad_codewords (n i : nat) (bs : list Z) : list Z :=
  match n with
  | O => bs
  | S n => pad_codewords n (S i) (bs ++ [if (i mod 2 =? 0)%nat then 0xEC else 0x11])
  end.

Definition encodeData (data : list Z) (version dataCodewords : nat) : list Z :=
  let b := push (MkBits [] 0) modeByte 4 in
  let b := push b (Z.of_nat (length data)) (countBits version) in
  let b := foldl (λ b c, push b c 8) b data in
  let b := push b 0 (Nat.min 4 (dataCodewords * 8 - nbits b)) in
  let rem := (nbits b mod 8)%nat in
  let b := if (rem =? 0)%nat then b else push b 0 (8 - rem) in
  pad_codewords (dataCodewords - length (bytes b)) 0 (bytes b).

(** ** Blocks *)

(** One of the two loops that cut blocks off, [n] of [words] codewords. *)
Fixpoint cut_blocks (n words : nat) (data : list Z) (off : nat) : option (list (list Z) * nat) :=
  match n with
  | O => Some ([], off)
  | S n =>
      blk ← slice data off (off + words);
      '(blks, off) ← cut_blocks n words data (off + words);
      Some (blk :: blks, off)
  end.

(** The [i]th codeword of each block that has one. *)
Definition column {A} (blks : list (list A)) (i : nat) : list A := omap (λ b, b !! i) blks.

Definition interleave (data : list Z) (c : versionCode) : option (list Z) :=
  '(l1, off) ← cut_blocks (blocks1 c) (words1 c) data 0;
  '(l2, _) ← cut_blocks (blocks2 c) (words2 c) data off;
  let blocks := (l1 ++ l2)%list in
  let ec := (λ b, reedSolomon b (ecWords c)) <$> blocks in
  ecs ← mapM (λ i, mapM (λ b, b !! i) ec) (seq 0 (ecWords c));
  Some (concat (column blocks <$> seq 0 (Nat.max (words1 c) (words2 c))) ++ concat ecs)%list.

(** ** Function patterns *)

(** The symbol and the record of its function modules, drawn together. *)
Definition Sheets : Type := Matrix * Matrix.

Definition draw_both (s : Sheets) (x y : Z) (dark : bool) : option Sheets :=
  m ← set (fst s) x y dark; fn ← set (snd s) x y true; Some (m, fn).

(** [fn.set(x, y, true)] *)
Definition reserve (s : Sheets) (x y : Z) : option Sheets := fn ← set (snd s) x y true; Some (fst s, fn).

Definition finder_dark (dx dy : Z) : bool :=
  let inRing := (0 <=? dx) && (dx <=? 6) && (0 <=? dy) && (dy <=? 6) && ((dx =? 0) || (dx =? 6) || (dy =? 0) || (dy =? 6)) in
  let inCore := (2 <=? dx) && (dx <=? 4) && (2 <=? dy) && (dy <=? 4) in
  inRing || inCore.

Definition drawFinder (ox oy : Z) (s : Sheets) : option Sheets :=
  loop (λ s dy, loop (λ s dx,
    let x := ox + dx in
    let y := oy + dy in
    if negb (in_symbol (fst s) x y) then Some s else draw_both s x y (finder_dark dx dy)) (span (-1) 8) s) (span (-1) 8) s.

Definition drawAlignment (cx cy : Z) (s : Sheets) : option Sheets :=
  loop (λ s dy, loop (λ s dx,
    let dark := (dx =? -2) || (dx =? 2) || (dy =? -2) || (dy =? 2) || ((dx =? 0) && (dy =? 0)) in
    draw_both s (cx + dx) (cy + dy) dark) (span (-2) 3) s) (span (-2) 3) s.

Definition draw_timing (size : Z) (s : Sheets) : option Sheets :=
  loop (λ s i, let dark := i mod 2 =? 0 in s ← draw_both s i 6 dark; draw_both s 6 i dark) (span 8 (size - 8)) s.

Definition draw_alignments (size : Z) (centres : list Z) (s : Sheets) : option Sheets :=
  loop (λ s cy, loop (λ s cx,
    if ((cx =? 6) && (cy =? 6)) || ((cx =? 6) && (cy =? size - 7)) || ((cx =? size - 7) && (cy =? 6)) then Some s
    else drawAlignment cx cy s) centres s) centres s.

Definition reserve_format (size : Z) (s : Sheets) : option Sheets :=
  s ← loop (λ s i, if negb (i =? 6) then s ← reserve s i 8; reserve s 8 i else Some s) (span 0 9) s;
  loop (λ s i, s ← reserve s (size - 1 - i) 8; reserve s 8 (size - 1 - i)) (span 0 8) s.

Definition reserve_version (size : Z) (s : Sheets) : option Sheets :=
  loop (λ s i, loop (λ s j, s ← reserve s (size - 11 + j) i; reserve s i (size - 11 + j)) (span 0 3) s) (span 0 6) s.

Definition drawFunctionPatterns (s : Sheets) (version : nat) : option Sheets :=
  let size := size (fst s) in
  s ← loop (λ s '(x, y), drawFinder x y s) [(0, 0); (size - 7, 0); (0, size - 7)] s;
  s ← draw_timing size s;
  centres ← alignment !! version;
  s ← draw_alignments size centres s;
  s ← draw_both s 8 (size - 8) true;
  s ← reserve_format size s;
  if (7 <=? version)%nat then reserve_version size s else Some s.

(** ** Data placement *)

(** The values [right] takes, each with the direction of its pair of columns. *)
Fixpoint rights (fuel : nat) (rt : Z) (up : bool) : list (Z * bool) :=
  match fuel with
  | O => []
  | S fuel =>
      if 1 <=? rt then
        let rt := if rt =? 6 then 5 else rt in
        (rt, up) :: rights fuel (rt - 2) (negb up)
      else []
  end.

(** The modules of a pair of columns in the order of the two inner loops. *)
Definition column_visits (size : Z) '((rt, up) : Z * bool) : list (Z * Z) :=
  i ← span 0 size;
  dx ← [0; 1];
  [(rt - dx, if up then size - 1 - i else i)].

Definition visits (size : Z) : list (Z * Z) := rights (Z.to_nat size) (size - 1) true ≫= column_visits size.

(** [codewords[bit/8]&(1<<uint(7-bit%8)) != 0] *)
Definition codeword_bit (codewords : list Z) (bit : nat) : option bool :=
  c ← codewords !! (bit / 8)%nat; Some (Z.testbit c (7 - Z.of_nat (bit mod 8))).

(** One module; the flag is the early return. *)
Definition place_one (fn : Matrix) (codewords : list Z) (total : nat) (st : Matrix * nat * bool) (p : Z * Z) :
    option (Matrix * nat * bool) :=
  let '(m, bit, returned) := st in
  let '(x, y) := p in
  if returned then Some st
  else if At fn x y then Some st
  else
    dark ← (if (bit <? length codewords * 8)%nat then codeword_bit codewords bit else Some false);
    m ← set m x y dark;
    Some (m, S bit, (total <=? S bit)%nat).

Definition placeData (m fn : Matrix) (codewords : list Z) (remainder : nat) : option Matrix :=
  '(m, _, _) ← loop (place_one fn codewords (length codewords * 8 + remainder)) (visits (size m)) (m, O, false);
  Some m.

(** ** Masking *)

Definition maskFn (n x y : Z) : bool :=
  let '(i, j) := (y, x) in
  match n with
  | 0 => (i + j) mod 2 =? 0
  | 1 => i mod 2 =? 0
  | 2 => j mod 3 =? 0
  | 3 => (i + j) mod 3 =? 0
  | 4 => (i / 2 + j / 3) mod 2 =? 0
  | 5 => (i * j) mod 2 + (i * j) mod 3 =? 0
  | 6 => ((i * j) mod 2 + (i * j) mod 3) mod 2 =? 0
  | 7 => ((i + j) mod 2 + (i * j) mod 3) mod 2 =? 0
  | _ => false
  end.

(** ** Format and version information *)

(** The shift register of both codes: from bit [hi] down to bit [lo]. *)
Definition bch_rem (rem poly hi lo : Z) : Z :=
  foldl (λ rem i, if Z.testbit rem i then Z.lxor rem (Z.shiftl poly (i - lo)) else rem) rem (rev (span lo (hi + 1))).

Definition formatBits (mask : Z) : Z :=
  let data := Z.lor (Z.shiftl 0 3) mask in
  let rem := bch_rem (Z.shiftl data 10) 0x537 14 10 in
  Z.lxor (Z.lor (Z.shiftl data 10) rem) 0x5412.

Definition drawFormat (mask : Z) (m : Matrix) : option Matrix :=
  let get := Z.testbit (formatBits mask) in
  let size := size m in
  m ← loop (λ m i, set m 8 i (get i)) (span 0 6) m;
  m ← set m 8 7 (get 6);
  m ← set m 8 8 (get 7);
  m ← set m 7 8 (get 8);
  m ← loop (λ m i, set m (14 - i) 8 (get i)) (span 9 15) m;
  m ← loop (λ m i, set m (size - 1 - i) 8 (get i)) (span 0 8) m;
  m ← loop (λ m i, set m 8 (size - 15 + i) (get i)) (span 8 15) m;
  set m 8 (size - 8) true.

Definition versionBits (version : nat) : Z :=
  let rem := bch_rem (Z.shiftl (Z.of_nat version) 12) 0x1F25 17 12 in
  Z.lor (Z.shiftl (Z.of_nat version) 12) rem.

Definition drawVersion (version : nat) (m : Matrix) : option Matrix :=
  let size := size m in
  loop (λ m i,
    let bit := Z.testbit (versionBits version) i in
    let '(a, b) := (i / 3, i mod 3) in
    m ← set m (size - 11 + b) a bit;
    set m a (size - 11 + b) bit) (span 0 18) m.

(** ** Choosing the mask *)

Definition apply_mask (n : Z) (fn m : Matrix) : option Matrix :=
  loop (λ cand y, loop (λ cand x,
    if negb (At fn x y) && maskFn n x y then set cand x y (negb (At cand x y)) else Some cand)
    (span 0 (size m)) cand) (span 0 (size m)) m.

Definition penaltyRun : Z := 3.
Definition penaltyBlock : Z := 3.
Definition penaltyFinder : Z := 40.
Definition penaltyBalance : Z := 10.
Definition penaltyRunStart : Z := 5.

(** The penalty of one finished run. *)
Definition run_penalty (run : Z) : Z := if penaltyRunStart <=? run then penaltyRun + (run - penaltyRunStart) else 0.

(** [scan] of penaltyRuns, over one line. *)
Definition scan_line (size : Z) (get : Z → bool) : Z :=
  let '(run, total) := foldl (λ '(run, total) b,
    if Bool.eqb (get b) (get (b - 1)) then (run + 1, total) else (1, total + run_penalty run)) (1, 0) (span 1 size) in
  total + run_penalty run.

Definition sum (l : list Z) : Z := foldr Z.add 0 l.

Definition penaltyRuns (m : Matrix) : Z :=
  sum ((λ y, scan_line (size m) (λ x, At m x y)) <$> span 0 (size m)) +
  sum ((λ x, scan_line (size m) (λ y, At m x y)) <$> span 0 (size m)).

Definition penaltyBlocks (m : Matrix) : Z :=
  sum ((λ y, sum ((λ x,
    let v := At m x y in
    if Bool.eqb (At m (x + 1) y) v && Bool.eqb (At m x (y + 1)) v && Bool.eqb (At m (x + 1) (y + 1)) v
    then penaltyBlock else 0) <$> span 0 (size m - 1))) <$> span 0 (size m - 1)).

Definition finderLike : list (list bool) :=
  [[true; false; true; true; true; false; true; false; false; false; false];
   [false; false; false; false; true; false; true; true; true; false; true]].

Definition check_line (size : Z) (get : Z → bool) : Z :=
  sum ((λ b, sum ((λ want,
    if forallb (λ '(k, w), Bool.eqb (get (b + Z.of_nat k)) w) (imap pair want) then penaltyFinder else 0) <$> finderLike))
    <$> span 0 (size - 10)).

Definition penaltyFinderLike (m : Matrix) : Z :=
  sum ((λ y, check_line (size m) (λ x, At m x y)) <$> span 0 (size m)) +
  sum ((λ x, check_line (size m) (λ y, At m x y)) <$> span 0 (size m)).

Definition penaltyDarkRatio (m : Matrix) : Z :=
  let dark := Z.of_nat (length (List.filter id (mods m))) in
  let percent := Z.quot (dark * 100) (size m * size m) in
  Z.quot (Z.abs (percent - 50)) 5 * penaltyBalance.

Definition penalty (m : Matrix) : Z := penaltyRuns m + penaltyBlocks m + penaltyFinderLike m + penaltyDarkRatio m.

(** One candidate: masked, with its format and version information. *)
Definition candidate (m fn : Matrix) (version : nat) (n : Z) : option Matrix :=
  cand ← apply_mask n fn m;
  cand ← drawFormat n cand;
  if (7 <=? version)%nat then drawVersion version cand else Some cand.

(** The best so far, with its score and its mask; none before the first. *)
Definition better (best : option (Matrix * Z * Z)) (cand : Matrix) (n : Z) : option (Matrix * Z * Z) :=
  let s := penalty cand in
  match best with
  | Some (_, bestScore, _) => if (bestScore <? 0) || (s <? bestScore) then Some (cand, s, n) else best
  | None => Some (cand, s, n)
  end.

Definition chooseMask (m fn : Matrix) (version : nat) : option (Matrix * Z) :=
  best ← loop (λ best n, cand ← candidate m fn version n; Some (better best cand n)) (span 0 8) None;
  '(m, _, n) ← best;
  Some (m, n).

(** ** Encode *)

Inductive qr_error := ErrEmpty | ErrTooLong.

Fixpoint choose_from (vs : list nat) (n : Z) : option (res qr_error nat) :=
  match vs with
  | [] => Some (Err ErrTooLong)
  | v :: vs =>
      c ← versions !! v;
      if n <=? byteCapacity c v then Some (Ok v) else choose_from vs n
  end.

Definition chooseVersion (n : Z) : option (res qr_error nat) := choose_from (seq 1 maxVersion) n.

(** The symbol of a version that holds the data. *)
Definition build (data : list Z) (v : nat) : option Matrix :=
  code ← versions !! v;
  codewords ← interleave (encodeData data v (dataCodewords code)) code;
  '(m, fn) ← drawFunctionPatterns (newMatrix v, newMatrix v) v;
  remainder ← remainderBits !! v;
  m ← placeData m fn codewords remainder;
  '(best, bestMask) ← chooseMask m fn v;
  best ← drawFormat bestMask best;
  if (7 <=? v)%nat then drawVersion v best else Some best.

Definition Encode (data : list Z) : option (res qr_error Matrix) :=
  if (length data =? 0)%nat then Some (Err ErrEmpty)
  else
    r ← chooseVersion (Z.of_nat (length data));
    match r with
    | Err e => Some (Err e)
    | Ok v => m ← build data v; Some (Ok m)
    end.

(** ** svg.go *)

Definition QuietZone : Z := 4.

Definition q : string := String dquote "".

Definition svg_path (m : Matrix) : string :=
  String.concat "" (y ← span 0 (size m); x ← span 0 (size m);
    if At m x y then [("M" ++ Itoa (x + QuietZone) ++ " " ++ Itoa (y + QuietZone) ++ "h1v1h-1z")%string] else []).

Definition SVG (m : Matrix) : string :=
  let n := Itoa (size m + 2 * QuietZone) in
  ("<svg xmlns=" ++ q ++ "http://www.w3.org/2000/svg" ++ q ++ " viewBox=" ++ q ++ "0 0 " ++ n ++ " " ++ n ++ q ++
   " shape-rendering=" ++ q ++ "crispEdges" ++ q ++ " class=" ++ q ++ "qr" ++ q ++ " focusable=" ++ q ++ "false" ++ q ++
   " aria-hidden=" ++ q ++ "true" ++ q ++ ">" ++
   "<rect width=" ++ q ++ n ++ q ++ " height=" ++ q ++ n ++ q ++ " class=" ++ q ++ "qr-bg" ++ q ++ "/>" ++
   "<path class=" ++ q ++ "qr-fg" ++ q ++ " fill=" ++ q ++ "currentColor" ++ q ++ " d=" ++ q ++
   svg_path m ++ q ++ "/></svg>")%string.

Definition hex_digit (c : ascii) : bool :=
  let n := nat_of_ascii c in
  ((48 <=? n) && (n <=? 57) || (97 <=? n) && (n <=? 102) || (65 <=? n) && (n <=? 70))%nat.

Definition isHexRun (s : list ascii) : bool := forallb hex_digit s && negb (length s =? 0)%nat.

Definition backslash : ascii := "092"%char.

Definition special (c : ascii) : bool :=
  Ascii.eqb c backslash || Ascii.eqb c ";" || Ascii.eqb c "," || Ascii.eqb c ":" || Ascii.eqb c dquote.

Definition escape_char (c : ascii) : list ascii := if special c then [backslash; c] else [c].

Definition escapeWiFi (s : list ascii) : list ascii :=
  match s with
  | [] => s
  | _ =>
      let quoted := if isHexRun s then [dquote] else [] in
      (quoted ++ (s ≫= escape_char) ++ quoted)%list
  end.

Definition WiFiJoin (ssid passphrase : list ascii) (hidden : bool) : list ascii :=
  (to_l "WIFI:T:WPA;S:" ++ escapeWiFi ssid ++ to_l ";P:" ++ escapeWiFi passphrase ++ to_l ";H:" ++
   to_l (if hidden then "true" else "false") ++ to_l ";;")%list.
