(* ===== verification/QrStream.v ===== *)
(** * A strict reader of the join code, and its error correction

    First what a symbol is, read strictly. Then the encoder's arithmetic: the tables of tables.go are GF(256), and a block followed by its error
    correction codewords is a codeword of the Reed-Solomon code: it vanishes at
    every root of the generator polynomial. *)

From S2P Require Import Prelude Bytes Qr.

Local Open Scope Z_scope.

(** ** A strict reader of QR symbols

    What ISO/IEC 18004 says a byte-mode symbol of level M and of the versions 1 to
    12 is, written without the encoder, its tables included: where the function
    modules are and what they hold, the published words of the format and version
    information, the order of the data modules, the masks, the blocks and their
    Reed-Solomon code, and the bit stream. Of the encoder it uses only the type of a
    symbol and its accessor. [scan] takes a symbol only if all of it is right. *)


(** *** Function modules *)

Definition side (v : nat) : Z := 17 + 4 * Z.of_nat v.

(** Largest coordinate difference *)
Definition dist (p c : Z * Z) : Z := Z.max (Z.abs (fst p - fst c)) (Z.abs (snd p - snd c)).

(** The centres of the finders, the corners' neighbours three modules in. *)
Definition finder_centres (v : nat) : list (Z * Z) := [(3, 3); (side v - 4, 3); (3, side v - 4)].

(** The rows and columns of the alignment patterns: none in version 1; then the
    first line at 6, the last seven modules in from the far edge, and from version 7
    one between them, counted back from the last by the least even step that covers
    the distance. *)
Definition alignment_lines (v : nat) : list Z :=
  if (v <? 2)%nat then []
  else
    let n := Z.of_nat (v / 7) + 1 in
    let last := side v - 7 in
    let step := 2 * ((last - 6 + 2 * n - 1) / (2 * n)) in
    6 :: ((λ i, last - step * i) <$> rev (span 0 n)).

(** Every crossing but the three at the finders. *)
Definition alignment_centres (v : nat) : list (Z * Z) :=
  List.filter (λ c, forallb (λ f, 5 <? dist c f) (finder_centres v))
    (y ← alignment_lines v; x ← alignment_lines v; [(x, y)]).

Definition near (r : Z) (p : Z * Z) (cs : list (Z * Z)) : option (Z * Z) := List.find (λ c, dist p c <=? r) cs.

(** The modules the standard fixes: finders with their separators, alignment
    patterns, timing lines and the dark module. *)
Definition pattern (v : nat) : Z * Z → option bool :=
  let n := side v in
  let finders := finder_centres v in
  let alignments := alignment_centres v in
  λ p,
    match near 4 p finders with
    | Some c => Some (negb (dist p c =? 2) && negb (dist p c =? 4))
    | None =>
        match near 2 p alignments with
        | Some c => Some (negb (dist p c =? 1))
        | None =>
            if (fst p =? 6) || (snd p =? 6) then Some (Z.even (fst p + snd p))
            else if (fst p =? 8) && (snd p =? n - 8) then Some true
            else None
        end
    end.

(** Where the bits of the format word are, lowest bit first, twice. *)
Definition format_one : list (Z * Z) :=
  [(8, 0); (8, 1); (8, 2); (8, 3); (8, 4); (8, 5); (8, 7); (8, 8); (7, 8); (5, 8); (4, 8); (3, 8); (2, 8); (1, 8); (0, 8)].
Definition format_two (v : nat) : list (Z * Z) :=
  ((λ i, (side v - i, 8)) <$> [1; 2; 3; 4; 5; 6; 7; 8]) ++ ((λ i, (8, side v - i)) <$> [7; 6; 5; 4; 3; 2; 1]).

(** Where the bits of the version word are, lowest bit first, twice. *)
Definition version_one (v : nat) : list (Z * Z) := a ← [0; 1; 2; 3; 4; 5]; b ← [11; 10; 9]; [(side v - b, a)].
Definition version_two (v : nat) : list (Z * Z) := prod_swap <$> version_one v.

(** The published words: level M with the masks 0 to 7, and the versions from 7. *)
Definition format_words : list Z := [0x5412; 0x5125; 0x5E7C; 0x5B4B; 0x45F9; 0x40CE; 0x4F97; 0x4AA0].
Definition version_word (v : nat) : Z := nth (v - 7) [0x07C94; 0x085BC; 0x09A99; 0x0A4D3; 0x0BBF6; 0x0C762] 0.

Definition information (v : nat) : list (Z * Z) :=
  format_one ++ format_two v ++ (if (7 <=? v)%nat then version_one v ++ version_two v else []).

Definition function_module (v : nat) : Z * Z → bool :=
  let fixed := pattern v in
  let info := information v in
  λ p,
    match fixed p with
    | Some _ => true
    | None => existsb (λ c, (fst p =? fst c) && (snd p =? snd c)) info
    end.

Definition modules (v : nat) : list (Z * Z) := y ← span 0 (side v); x ← span 0 (side v); [(x, y)].

(** *** Data modules, in order *)

(** The columns from the right without the timing column, two at a time. *)
Fixpoint pairs (l : list Z) : list (Z * Z) :=
  match l with
  | a :: b :: l => (a, b) :: pairs l
  | _ => []
  end.

Definition columns (v : nat) : list (Z * Z) := pairs (List.filter (λ x, negb (x =? 6)) (rev (span 0 (side v)))).

Definition strip (v : nat) (i : nat) '((a, b) : Z * Z) : list (Z * Z) :=
  y ← (if Nat.even i then rev (span 0 (side v)) else span 0 (side v)); [(a, y); (b, y)].

Definition data_modules (v : nat) : list (Z * Z) :=
  let is_function := function_module v in
  List.filter (λ p, negb (is_function p)) (concat (imap (strip v) (columns v))).

(** The conditions of the eight masks, by row and column. *)
Definition mask_conditions : list (Z → Z → bool) :=
  [λ i j, Z.even (i + j); λ i _, Z.even i; λ _ j, j mod 3 =? 0; λ i j, (i + j) mod 3 =? 0;
   λ i j, Z.even (i / 2 + j / 3); λ i j, (i * j) mod 2 + (i * j) mod 3 =? 0;
   λ i j, Z.even ((i * j) mod 2 + (i * j) mod 3); λ i j, Z.even ((i + j) mod 2 + (i * j) mod 3)].

Definition mask_at (n : nat) (p : Z * Z) : bool :=
  match mask_conditions !! n with Some c => c (snd p) (fst p) | None => false end.

(** *** Bits and bytes *)

Definition to_int (bs : list bool) : Z := foldl (λ n b, 2 * n + Z.b2z b) 0 bs.
Definition from_low (bs : list bool) : Z := to_int (rev bs).

Fixpoint to_bytes (n : nat) (bs : list bool) : list Z :=
  match n with
  | O => []
  | S n => to_int (take 8 bs) :: to_bytes n (drop 8 bs)
  end.

Definition byte_bits (c : Z) : list bool := Z.testbit c <$> [7; 6; 5; 4; 3; 2; 1; 0].

(** *** Blocks *)

(** The blocks of level M as the standard's table has them, from version 1: how
    many, of how many codewords, how many of them data. *)
Definition std_blocks : list (list (nat * nat * nat)) :=
  [[(1, 26, 16)]; [(1, 44, 28)]; [(1, 70, 44)]; [(2, 50, 32)]; [(2, 67, 43)]; [(4, 43, 27)]; [(4, 49, 31)];
   [(2, 60, 38); (2, 61, 39)]; [(3, 58, 36); (2, 59, 37)]; [(4, 69, 43); (1, 70, 44)]; [(1, 80, 50); (4, 81, 51)];
   [(6, 58, 36); (2, 59, 37)]]%nat.

(** The data codewords of each block, and the error correction codewords of each. *)
Definition data_lengths (t : list (nat * nat * nat)) : list nat := t ≫= λ '(n, _, k), replicate n k.
Definition ec_lengths (t : list (nat * nat * nat)) : list nat := t ≫= λ '(n, c, k), replicate n (c - k)%nat.
Definition total (lens : list nat) : nat := foldr Nat.add 0%nat lens.

(** The number of the block each codeword of the stream belongs to: the first of
    every block, then the second, and so on while a block has one. *)
Definition owners (lens : list nat) : list nat :=
  i ← seq 0 (foldr Nat.max 0%nat lens); List.filter (λ b, (i <? nth b lens O)%nat) (seq 0 (length lens)).

Definition pick {A} (b : nat) (os : list nat) (l : list A) : list A :=
  omap (λ '(o, a), if (o =? b)%nat then Some a else None) (zip os l).

Definition blocks_of {A} (lens : list nat) (l : list A) : list (list A) := (λ b, pick b (owners lens) l) <$> seq 0 (length lens).

(** *** The code *)

(** Multiplication in GF(256) by shifting and reducing. *)
Definition xtime (a : Z) : Z := if 128 <=? a then Z.lxor (2 * a) 0x11D else 2 * a.
Definition shifts (a : Z) : list (Z * Z) := (λ k, (k, Nat.iter (Z.to_nat k) xtime a)) <$> span 0 8.
Definition by_bits (t : list (Z * Z)) (b : Z) : Z := foldr (λ '(k, g) acc, Z.lxor (if Z.testbit b k then g else 0) acc) 0 t.
Definition std_mul (a b : Z) : Z := by_bits (shifts a) b.

Definition std_eval (p : list Z) (x : Z) : Z := foldl (λ acc c, Z.lxor (std_mul acc x) c) 0 p.
Definition std_roots (n : nat) : list Z := (λ i, Nat.iter i xtime 1) <$> seq 0 n.

Definition is_codeword (n : nat) (block : list Z) : bool := forallb (λ x, std_eval block x =? 0) (std_roots n).

(** *** The reader *)

Definition at_ (m : Matrix) (p : Z * Z) : bool := At m (fst p) (snd p).

Definition read_format (v : nat) (m : Matrix) : option nat :=
  let word := from_low (at_ m <$> format_one) in
  if word =? from_low (at_ m <$> format_two v) then fst <$> List.find (λ '(_, w), w =? word) (imap pair format_words) else None.

Definition version_right (v : nat) (m : Matrix) : bool :=
  (v <? 7)%nat || (from_low (at_ m <$> version_one v) =? version_word v) && (from_low (at_ m <$> version_two v) =? version_word v).

Definition patterns_right (v : nat) (m : Matrix) : bool :=
  let fixed := pattern v in
  forallb (λ p, match fixed p with Some b => Bool.eqb (at_ m p) b | None => true end) (modules v).

(** The bit stream: byte mode, a count, the bytes. *)
Definition read_bits (v : nat) (bs : list bool) : option (list Z) :=
  let width := if (v <? 10)%nat then 8%nat else 16%nat in
  if negb (to_int (take 4 bs) =? 4) then None
  else
    let n := Z.to_nat (to_int (take width (drop 4 bs))) in
    let body := drop (4 + width) bs in
    if (length body <? 8 * n)%nat then None else Some (to_bytes n body).

Definition read_codewords (v : nat) (dlens elens : list nat) (stream : list Z) : option (list Z) :=
  let blocks := blocks_of dlens (take (total dlens) stream) in
  let ecs := blocks_of elens (drop (total dlens) stream) in
  if forallb (λ nb, is_codeword nb.1 nb.2) (zip elens (zip_with app blocks ecs)) then read_bits v (concat blocks ≫= byte_bits) else None.

Definition scan (m : Matrix) : option (list Z) :=
  let v := Z.to_nat ((size m - 17) / 4) in
  t ← std_blocks !! pred v;
  if (v =? 0)%nat || negb (size m =? side v) || negb (patterns_right v m) || negb (version_right v m) then None
  else
    n ← read_format v m;
    let bs := (λ p, xorb (at_ m p) (mask_at n p)) <$> data_modules v in
    read_codewords v (data_lengths t) (ec_lengths t) (to_bytes (length bs / 8) bs).


(** ** The field *)

Definition lg (a : Z) : nat := Z.to_nat (nth (Z.to_nat a) gfLog 0).
Definition ex (i : nat) : Z := nth i gfExp 0.

Lemma gfMul_zero_l b : gfMul 0 b = 0.
Proof. done. Qed.
Lemma gfMul_zero_r a : gfMul a 0 = 0.
Proof. unfold gfMul. by rewrite orb_true_r. Qed.
Lemma gfMul_comm a b : gfMul a b = gfMul b a.
Proof. unfold gfMul. by rewrite orb_comm, Nat.add_comm. Qed.

Lemma byte_all (f : Z → bool) : forallb f (span 0 256) = true → ∀ a, byte_ok a → f a = true.
Proof.
  intros Hf a Ha. rewrite forallb_forall in Hf. apply Hf. apply list_elem_of_In. unfold span. apply elem_of_seqZ.
  unfold byte_ok in Ha. lia.
Qed.

Lemma nat_all (f : nat → bool) n : forallb f (seq 0 n) = true → ∀ i, (i < n)%nat → f i = true.
Proof. intros Hf i Hi. rewrite forallb_forall in Hf. apply Hf. apply in_seq. lia. Qed.

Lemma ex_lg a : byte_ok a → a ≠ 0 → ex (lg a) = a ∧ (lg a < 255)%nat.
Proof.
  intros Ha Hz. assert ((a =? 0) || (ex (lg a) =? a) && (lg a <? 255)%nat = true) as Hc.
  { apply (byte_all (λ a, (a =? 0) || (ex (lg a) =? a) && (lg a <? 255)%nat)); [vm_compute; reflexivity|done]. }
  apply orb_true_iff in Hc as [Hc|Hc]; breflect; [done|lia].
Qed.

Lemma ex_facts i : (i < 510)%nat → byte_ok (ex i) ∧ ex i ≠ 0 ∧ lg (ex i) = (i mod 255)%nat ∧ ex (i mod 255) = ex i.
Proof.
  intros Hi. assert ((0 <=? ex i) && (ex i <? 256) && negb (ex i =? 0) && (lg (ex i) =? i mod 255)%nat &&
    (ex (i mod 255) =? ex i) = true) as Hc.
  { apply (nat_all (λ i, (0 <=? ex i) && (ex i <? 256) && negb (ex i =? 0) && (lg (ex i) =? i mod 255)%nat &&
      (ex (i mod 255) =? ex i)) 510); [vm_compute; reflexivity|done]. }
  breflect. unfold byte_ok. lia.
Qed.

Lemma gfMul_ex a b : a ≠ 0 → b ≠ 0 → gfMul a b = ex (lg a + lg b).
Proof. intros Ha Hb. unfold gfMul. by rewrite (proj2 (Z.eqb_neq a 0)), (proj2 (Z.eqb_neq b 0)) by done. Qed.

Lemma gfMul_byte a b : byte_ok a → byte_ok b → byte_ok (gfMul a b).
Proof.
  intros Ha Hb. destruct (decide (a = 0)) as [->|Ea]; [by rewrite gfMul_zero_l|].
  destruct (decide (b = 0)) as [->|Eb]; [by rewrite gfMul_zero_r|]. rewrite gfMul_ex by done.
  destruct (ex_lg a), (ex_lg b); [done..|]. apply ex_facts. lia.
Qed.

Lemma gfMul_log a b : byte_ok a → byte_ok b → a ≠ 0 → b ≠ 0 → gfMul a b ≠ 0 ∧ lg (gfMul a b) = ((lg a + lg b) mod 255)%nat.
Proof.
  intros Ha Hb Ea Eb. rewrite gfMul_ex by done. destruct (ex_lg a), (ex_lg b); [done..|].
  destruct (ex_facts (lg a + lg b)) as (_ & ? & ? & _); [lia|done].
Qed.

(** Multiplying three is reading the table at the sum of the three logarithms. *)
Lemma gfMul_three a b c : byte_ok a → byte_ok b → byte_ok c → a ≠ 0 → b ≠ 0 → c ≠ 0 →
  gfMul (gfMul a b) c = ex ((lg a + lg b + lg c) mod 255).
Proof.
  intros Ha Hb Hc Ea Eb Ec. destruct (gfMul_log a b) as [En El]; [done..|]. rewrite gfMul_ex, El by done.
  destruct (ex_lg c); [done..|]. pose proof (Nat.mod_upper_bound (lg a + lg b) 255).
  destruct (ex_facts ((lg a + lg b) mod 255 + lg c)) as (_ & _ & _ & <-); [lia|]. f_equal.
  by rewrite Nat.Div0.add_mod_idemp_l.
Qed.

Lemma gfMul_assoc a b c : byte_ok a → byte_ok b → byte_ok c → gfMul (gfMul a b) c = gfMul a (gfMul b c).
Proof.
  intros Ha Hb Hc.
  destruct (decide (a = 0)) as [->|Ea]; [by rewrite !gfMul_zero_l|].
  destruct (decide (b = 0)) as [->|Eb]; [by rewrite gfMul_zero_r, !gfMul_zero_l, gfMul_zero_r|].
  destruct (decide (c = 0)) as [->|Ec]; [by rewrite !gfMul_zero_r|].
  rewrite (gfMul_comm a (gfMul b c)), !gfMul_three by done. f_equal. f_equal. lia.
Qed.

(** The tables are the field of the standard. *)
Lemma gfMul_std a b : byte_ok a → byte_ok b → gfMul a b = std_mul a b.
Proof.
  intros Ha Hb.
  assert (forallb (λ a, let t := shifts a in forallb (λ b, gfMul a b =? by_bits t b) (span 0 256)) (span 0 256) = true) as Hc
    by (vm_compute; reflexivity).
  apply Z.eqb_eq. apply (byte_all (λ b, gfMul a b =? by_bits (shifts a) b)); [|done].
  exact (byte_all (λ a, forallb (λ b, gfMul a b =? by_bits (shifts a) b) (span 0 256)) Hc a Ha).
Qed.

Lemma by_bits_lxor t b c : by_bits t (Z.lxor b c) = Z.lxor (by_bits t b) (by_bits t c).
Proof.
  induction t as [|[k g] t IH]; [done|]. cbn [by_bits foldr]. fold (by_bits t (Z.lxor b c)) (by_bits t b) (by_bits t c).
  rewrite IH, Z.lxor_spec. generalize (by_bits t b) as u, (by_bits t c) as v. intros u v.
  apply Z.bits_inj'. intros n _. rewrite !Z.lxor_spec.
  destruct (Z.testbit b k), (Z.testbit c k); simpl; rewrite ?Z.bits_0; by destruct (Z.testbit g n), (Z.testbit u n), (Z.testbit v n).
Qed.

Lemma lxor_byte a b : byte_ok a → byte_ok b → byte_ok (Z.lxor a b).
Proof.
  unfold byte_ok. intros Ha Hb. assert (0 ≤ Z.lxor a b) as Hp by (apply Z.lxor_nonneg; lia). split; [done|].
  destruct (decide (Z.lxor a b = 0)) as [->|Hz]; [lia|].
  apply (Z.log2_lt_pow2 _ 8); [lia|]. pose proof (Z.log2_lxor a b ltac:(lia) ltac:(lia)).
  assert (∀ z, 0 ≤ z < 256 → Z.log2 z < 8) as Hl.
  { intros z Hz'. destruct (decide (z = 0)) as [->|]; [done|]. apply Z.log2_lt_pow2; lia. }
  pose proof (Hl a Ha). pose proof (Hl b Hb). lia.
Qed.

Lemma gfMul_lxor a b c : byte_ok a → byte_ok b → byte_ok c → gfMul a (Z.lxor b c) = Z.lxor (gfMul a b) (gfMul a c).
Proof. intros Ha Hb Hc. rewrite !gfMul_std; [apply by_bits_lxor|auto using lxor_byte..]. Qed.

Lemma gfMul_lxor_l a b c : byte_ok a → byte_ok b → byte_ok c → gfMul (Z.lxor a b) c = Z.lxor (gfMul a c) (gfMul b c).
Proof. intros Ha Hb Hc. rewrite !(gfMul_comm _ c). by apply gfMul_lxor. Qed.

(** ** Polynomials, highest power first *)

Definition eval (p : list Z) (x : Z) : Z := foldl (λ acc c, Z.lxor (gfMul acc x) c) 0 p.

Lemma eval_snoc p c x : eval (p ++ [c]) x = Z.lxor (gfMul (eval p x) x) c.
Proof. unfold eval. by rewrite foldl_app. Qed.

Lemma eval_byte p x : byte_ok x → bytes_ok p → byte_ok (eval p x).
Proof.
  intros Hx. induction p as [|c p IH] using rev_ind; intros Hp; [done|]. apply Forall_app in Hp as [Hp Hc].
  inversion Hc; subst. rewrite eval_snoc. auto using lxor_byte, gfMul_byte.
Qed.

Lemma eval_scale a p x : byte_ok a → byte_ok x → bytes_ok p → eval (gfMul a <$> p) x = gfMul a (eval p x).
Proof.
  intros Ha Hx. induction p as [|c p IH] using rev_ind; intros Hp; [by rewrite gfMul_zero_r|].
  apply Forall_app in Hp as [Hp Hc]. inversion Hc; subst. rewrite fmap_app. cbn [fmap list_fmap]. rewrite !eval_snoc, IH by done.
  rewrite gfMul_lxor, gfMul_assoc; auto using eval_byte, gfMul_byte.
Qed.

Definition add_poly (p r : list Z) : list Z := zip_with Z.lxor p r.

Lemma eval_add p r x : length p = length r → byte_ok x → bytes_ok p → bytes_ok r →
  eval (add_poly p r) x = Z.lxor (eval p x) (eval r x).
Proof.
  intros Hl Hx. revert r Hl. induction p as [|c p IH] using rev_ind; intros r Hl Hp Hr.
  { by destruct r. }
  destruct r as [|d r _] using rev_ind; [rewrite length_app in Hl; simpl in Hl; lia|].
  rewrite !length_app in Hl. simpl in Hl. assert (length p = length r) as Hl' by lia.
  apply Forall_app in Hp as [Hp Hc]. apply Forall_app in Hr as [Hr Hd]. inversion Hc; inversion Hd; subst.
  unfold add_poly. rewrite zip_with_app by done. cbn [zip_with]. fold (add_poly p r). rewrite !eval_snoc, IH by done.
  rewrite gfMul_lxor_l by auto using eval_byte. apply Z.bits_inj'. intros n _. rewrite !Z.lxor_spec.
  by destruct (Z.testbit (gfMul (eval p x) x) n), (Z.testbit (gfMul (eval r x) x) n), (Z.testbit c n), (Z.testbit d n).
Qed.

Lemma eval_zeros_l k p x : eval (replicate k 0 ++ p) x = eval p x.
Proof.
  unfold eval. rewrite foldl_app. f_equal. induction k as [|k IH]; [done|]. cbn [replicate foldl]. by rewrite gfMul_zero_l.
Qed.

(** A factor of x^k does not remove a root. *)
Lemma eval_zeros_r k p x : eval p x = 0 → eval (p ++ replicate k 0) x = 0.
Proof.
  intros Hp. induction k as [|k IH]; [by rewrite app_nil_r|]. rewrite replicate_S_end, app_assoc, eval_snoc, IH. done.
Qed.

Lemma eval_zeros k x : eval (replicate k 0) x = 0.
Proof. by apply (eval_zeros_r k []). Qed.

(** ** The division *)

(** [p] xored into [b] from index [i] on. *)
Fixpoint xor_from (i : nat) (p b : list Z) : list Z :=
  match p with
  | [] => b
  | c :: p => xor_from (S i) p (xor_at b i c)
  end.

Lemma foldl_xor_from (f : Z → Z) i o gen b :
  foldl (λ b '(j, g), xor_at b (i + j) (f g)) b (imap (λ j, pair (o + j)%nat) gen) = xor_from (i + o) (f <$> gen) b.
Proof.
  revert o b. induction gen as [|g gen IH]; intros o b; [done|]. cbn [fmap list_fmap xor_from imap foldl].
  rewrite Nat.add_0_r. replace (S (i + o)) with (i + S o)%nat by lia. rewrite <- IH. f_equal. apply imap_ext.
  intros j x _. simpl. f_equal. lia.
Qed.

(** The shifted polynomial that is added, as long as the slice. *)
Definition shifted (i : nat) (p : list Z) (n : nat) : list Z := replicate i 0 ++ p ++ replicate (n - i - length p) 0.

Lemma length_shifted i p n : (i + length p ≤ n)%nat → length (shifted i p n) = n.
Proof. intros. unfold shifted. rewrite !length_app, !length_replicate. lia. Qed.

Lemma add_zeros_l p : add_poly (replicate (length p) 0) p = p.
Proof. induction p as [|c p IH]; [done|]. cbn. unfold add_poly in IH. by rewrite IH. Qed.
Lemma add_zeros_r p : add_poly p (replicate (length p) 0) = p.
Proof. induction p as [|c p IH]; [done|]. cbn. unfold add_poly in IH. by rewrite IH, Z.lxor_0_r. Qed.

Lemma xor_at_add b i c : (i < length b)%nat → xor_at b i c = add_poly b (shifted i [c] (length b)).
Proof.
  revert i. induction b as [|d b IH]; intros i Hi; simpl in Hi; [lia|]. destruct i as [|i].
  - unfold xor_at, shifted. cbn [alter list_alter replicate app length]. unfold add_poly. cbn [zip_with]. f_equal.
    replace (S (length b) - 0 - 1)%nat with (length b) by lia. symmetry. apply add_zeros_r.
  - change (xor_at (d :: b) (S i) c) with (d :: xor_at b i c). rewrite IH by lia. unfold shifted, add_poly. simpl.
    by rewrite Z.lxor_0_r.
Qed.

Lemma add_poly_assoc a b c : add_poly (add_poly a b) c = add_poly a (add_poly b c).
Proof.
  revert b c. induction a as [|x a IH]; intros [|y b] [|z c]; cbn; [done..|]. unfold add_poly in IH. by rewrite IH, Z.lxor_assoc.
Qed.

Lemma length_add a b : length a = length b → length (add_poly a b) = length a.
Proof. intros. unfold add_poly. rewrite length_zip_with. lia. Qed.

Lemma add_shifted i c p n : (i + S (length p) ≤ n)%nat →
  add_poly (shifted i [c] n) (shifted (S i) p n) = shifted i (c :: p) n.
Proof.
  revert n. induction i as [|i IH]; intros n Hn; destruct n as [|n]; try (simpl in Hn; lia).
  - unfold shifted, add_poly. cbn. rewrite Z.lxor_0_r. f_equal. rewrite Nat.sub_0_r.
    replace n with (length (p ++ replicate (n - length p) 0)) at 1 by (rewrite length_app, length_replicate; lia).
    apply add_zeros_l.
  - specialize (IH n ltac:(lia)). unfold shifted, add_poly in *. cbn in *. by rewrite <- IH.
Qed.

Lemma xor_from_add i p b : (i + length p ≤ length b)%nat → xor_from i p b = add_poly b (shifted i p (length b)).
Proof.
  revert i b. induction p as [|c p IH]; intros i b Hb.
  - unfold shifted. cbn. rewrite <- replicate_add. replace (i + _)%nat with (length b) by (simpl in Hb; lia). by rewrite add_zeros_r.
  - cbn [xor_from]. simpl in Hb. assert (length (xor_at b i c) = length b) as El by apply length_alter.
    rewrite IH by (rewrite El; lia). rewrite El, xor_at_add, add_poly_assoc, add_shifted by lia. done.
Qed.

Lemma eval_shifted i p n x : eval p x = 0 → eval (shifted i p n) x = 0.
Proof. intros Hp. unfold shifted. rewrite eval_zeros_l. by apply eval_zeros_r. Qed.

Lemma bytes_shifted i p n : bytes_ok p → bytes_ok (shifted i p n).
Proof. intros Hp. unfold shifted. apply Forall_app; split; [|apply Forall_app; split; [done|]]; by apply Forall_replicate. Qed.

Lemma bytes_add p r : bytes_ok p → bytes_ok r → bytes_ok (add_poly p r).
Proof.
  intros Hp. revert r. induction Hp as [|c p Hc Hp IH]; intros r Hr; [constructor|]. destruct Hr as [|d r Hd Hr]; [constructor|].
  constructor; [by apply lxor_byte|by apply IH].
Qed.

(** What a step of the division keeps: the length, the bytes, the values at the
    roots, the zeros it has made; and it makes one more. *)
Section Division.
Context (gen : list Z) (roots : list Z).
Hypothesis gen_bytes : bytes_ok (1 :: gen).
Hypothesis roots_bytes : bytes_ok roots.
Hypothesis gen_roots : Forall (λ x, eval (1 :: gen) x = 0) roots.

Definition divided (n t : nat) (orig b : list Z) : Prop :=
  length b = n ∧ bytes_ok b ∧ take t b = replicate t 0 ∧ Forall (λ x, eval b x = eval orig x) roots.

Lemma rs_step_add b i : rs_step (1 :: gen) b i =
  if nth i b 0 =? 0 then b else xor_from i ((λ g, gfMul g (nth i b 0)) <$> (1 :: gen)) b.
Proof.
  unfold rs_step. cbv zeta. destruct (nth i b 0 =? 0); [done|].
  pose proof (foldl_xor_from (λ g, gfMul g (nth i b 0)) i 0 (1 :: gen) b) as Hx. rewrite Nat.add_0_r in Hx. exact Hx.
Qed.

Lemma nth_byte b i : bytes_ok b → byte_ok (nth i b 0).
Proof. intros Hb. revert i. induction Hb as [|c b Hc Hb IH]; intros [|i]; done || apply IH. Qed.

Lemma rs_step_divided n t orig b : (t + S (length gen) ≤ n)%nat → divided n t orig b → divided n (S t) orig (rs_step (1 :: gen) b t).
Proof.
  intros Ht (Hl & Hb & Hz & Hr). rewrite rs_step_add. set (lead := nth t b 0). pose proof (nth_byte b t Hb) as Hlead.
  assert (∃ c, b !! t = Some c) as [c Hc] by (apply lookup_lt_is_Some; lia).
  assert (lead = c) as Elead by (unfold lead; by apply nth_lookup_Some).
  destruct (lead =? 0) eqn:E; breflect.
  { split_and!; [done..| |done]. rewrite (take_S_r _ _ c) by done. rewrite Hz, replicate_S_end. congruence. }
  set (p := (λ g, gfMul g lead) <$> (1 :: gen)). assert (length p = S (length gen)) as Elp by (unfold p; by rewrite length_fmap).
  assert (p = gfMul lead <$> (1 :: gen)) as Ep by (apply list_fmap_ext; intros; apply gfMul_comm).
  assert (bytes_ok p) as Hpb.
  { unfold p. apply Forall_fmap. eapply Forall_impl; [exact gen_bytes|]. intros g Hg. by apply gfMul_byte. }
  rewrite xor_from_add by (rewrite Elp; lia). rewrite Hl. unfold divided.
  assert (length b = length (shifted t p n)) as Els by (rewrite length_shifted; lia).
  split_and!; [by rewrite length_add| by apply bytes_add, bytes_shifted| |].
  - assert (take t (add_poly b (shifted t p n)) = replicate t 0) as Htake.
    { unfold add_poly. rewrite zip_with_take, Hz. unfold shifted. rewrite take_app_length' by (by rewrite length_replicate).
      pose proof (add_zeros_l (replicate t 0)) as Ha. by rewrite length_replicate in Ha. }
    rewrite (take_S_r _ _ 0), Htake, <- replicate_S_end; [done|]. unfold add_poly. rewrite lookup_zip_with, Hc. simpl.
    unfold shifted. rewrite lookup_app_r by (by rewrite length_replicate). rewrite length_replicate, Nat.sub_diag. unfold p. simpl.
    assert (gfMul 1 lead = lead) as ->.
    { rewrite gfMul_comm. apply Z.eqb_eq. apply (byte_all (λ a, gfMul a 1 =? a)); [vm_compute; reflexivity|done]. }
    by rewrite Elead, Z.lxor_nilpotent.
  - apply Forall_forall. intros x Hin. pose proof (proj1 (Forall_forall _ _) roots_bytes x Hin) as Hx.
    pose proof (proj1 (Forall_forall _ _) Hr x Hin) as Ex. pose proof (proj1 (Forall_forall _ _) gen_roots x Hin) as Eg. simpl in Ex, Eg.
    rewrite eval_add; auto using bytes_shifted. rewrite eval_shifted, Z.lxor_0_r; [done|].
    rewrite Ep, eval_scale, Eg by done. apply gfMul_zero_r.
Qed.

Lemma rs_loop_divided n t0 t orig b : (t0 + t + length gen ≤ n)%nat → divided n t0 orig b →
  divided n (t0 + t) orig (foldl (rs_step (1 :: gen)) b (seq t0 t)).
Proof.
  revert t0 b. induction t as [|t IH]; intros t0 b Ht Hb; simpl; [by rewrite Nat.add_0_r|].
  replace (t0 + S t)%nat with (S t0 + t)%nat by lia. apply IH; [lia|]. apply rs_step_divided; [lia|done].
Qed.
End Division.

(** The roots of the code with [n] error correction codewords. *)
Definition code_roots (n : nat) : list Z := ex <$> seq 0 n.

Definition codeword (n : nat) (block : list Z) : Prop := bytes_ok block ∧ Forall (λ x, eval block x = 0) (code_roots n).

(** The widths the version table uses. *)
Definition gen_ok (n : nat) : bool :=
  let g := generatorPoly n in
  (length g =? S n)%nat && (nth 0 g 0 =? 1) && forallb (λ c, (0 <=? c) && (c <? 256)) g &&
  forallb (λ x, eval g x =? 0) (code_roots n) && forallb (λ c, (0 <=? c) && (c <? 256)) (code_roots n).

(** A block followed by its error correction codewords is a codeword. *)
Lemma reedSolomon_codeword data n : gen_ok n = true → bytes_ok data →
  length (reedSolomon data n) = n ∧ codeword n (data ++ reedSolomon data n).
Proof.
  unfold gen_ok. cbv zeta. intros Hg Hd. rewrite !andb_true_iff in Hg. destruct Hg as ((((Hlen & Hhead) & Hg1) & Hg2) & Hg3). breflect.
  assert (∀ l, forallb (λ c, (0 <=? c) && (c <? 256)) l = true → bytes_ok l) as Hbytes.
  { intros l Hl. apply Forall_forall. intros c Hc. rewrite forallb_forall in Hl. specialize (Hl c ltac:(by apply list_elem_of_In)).
    breflect. unfold byte_ok. lia. }
  pose proof (Hbytes _ Hg1) as Hgb. pose proof (Hbytes _ Hg3) as Hrb.
  assert (Forall (λ x, eval (generatorPoly n) x = 0) (code_roots n)) as Hroots.
  { apply Forall_forall. intros x Hx. rewrite forallb_forall in Hg2. specialize (Hg2 x ltac:(by apply list_elem_of_In)). by breflect. }
  unfold reedSolomon. destruct (generatorPoly n) as [|g0 gen]; [done|]. simpl in *. subst g0.
  set (orig := (data ++ replicate n 0)%list). set (final := foldl _ orig _).
  assert (divided (code_roots n) (length data + n) (length data) orig final) as (Hl & Hb & Hz & He).
  { apply (rs_loop_divided gen (code_roots n) Hgb Hrb Hroots _ 0); [lia|]. split_and!; [|apply Forall_app; split; [done|]|done|].
    - unfold orig. by rewrite length_app, length_replicate.
    - by apply Forall_replicate.
    - by apply Forall_forall. }
  set (ec := drop (length data) final). assert (length ec = n) as Elen by (unfold ec; rewrite length_drop; lia). split; [done|].
  assert (final = replicate (length data) 0 ++ ec) as Ef by (unfold ec; rewrite <- Hz; by rewrite take_drop).
  assert (bytes_ok ec) as Hec by (unfold ec; by apply Forall_drop). split; [by apply Forall_app|].
  assert (data ++ ec = add_poly orig final)%list as ->.
  { rewrite Ef. unfold orig, add_poly. rewrite zip_with_app by (by rewrite length_replicate). f_equal; symmetry.
    - apply add_zeros_r.
    - rewrite <- Elen. apply add_zeros_l. }
  apply Forall_forall. intros x Hx. rewrite Forall_forall in He. unfold bytes_ok in Hrb. rewrite Forall_forall in Hrb.
  assert (bytes_ok orig) as Ho by (apply Forall_app; split; [done|by apply Forall_replicate]).
  rewrite eval_add, He, Z.lxor_nilpotent; auto. unfold orig. rewrite length_app, length_replicate. lia.
Qed.

(** ** The code of the standard *)

Lemma eval_std p x : byte_ok x → bytes_ok p → std_eval p x = eval p x.
Proof.
  intros Hx. induction p as [|c p IH] using rev_ind; intros Hp; [done|]. apply Forall_app in Hp as [Hp _].
  unfold std_eval. rewrite foldl_app. fold (std_eval p x). cbn [foldl]. rewrite IH, eval_snoc, gfMul_std by auto using eval_byte. done.
Qed.

(** Every width of the version table. *)
Lemma widths_ok v c : versions !! v = Some c → (1 ≤ v)%nat →
  gen_ok (ecWords c) = true ∧ std_roots (ecWords c) = code_roots (ecWords c).
Proof.
  assert (forallb (λ c, gen_ok (ecWords c) && bool_decide (std_roots (ecWords c) = code_roots (ecWords c))) (tail versions) = true) as Hc
    by (vm_compute; reflexivity).
  intros Hv H1. destruct v as [|v]; [lia|]. rewrite forallb_forall in Hc.
  specialize (Hc c ltac:(apply list_elem_of_In, list_elem_of_lookup; by exists v)). breflect. by split.
Qed.

Lemma reedSolomon_right v c data : versions !! v = Some c → (1 ≤ v)%nat → bytes_ok data →
  length (reedSolomon data (ecWords c)) = ecWords c ∧ bytes_ok (reedSolomon data (ecWords c)) ∧
  is_codeword (ecWords c) (data ++ reedSolomon data (ecWords c)) = true.
Proof.
  intros Hv H1 Hd. destruct (widths_ok v c Hv H1) as [Hg Hr].
  destruct (reedSolomon_codeword data (ecWords c) Hg Hd) as (Hl & Hb & He). split; [done|]. pose proof Hb as Hb'.
  apply Forall_app in Hb' as [_ Hec]. split; [done|]. unfold is_codeword. rewrite Hr. apply forallb_forall. intros x Hx.
  apply list_elem_of_In in Hx. rewrite Forall_forall in He. apply Z.eqb_eq. rewrite eval_std; [by apply He| |done].
  unfold code_roots in Hx. apply list_elem_of_fmap in Hx as (i & -> & Hi). apply elem_of_seq in Hi. apply ex_facts.
  unfold gen_ok in Hg. assert (forallb (λ c, (ecWords c <=? 30)%nat) versions = true) as Hw by (vm_compute; reflexivity).
  rewrite forallb_forall in Hw. specialize (Hw c ltac:(apply list_elem_of_In, list_elem_of_lookup; eauto)). breflect. lia.
Qed.

(** * The join code's codewords read back

    The bit stream, the padding, and the interleaved blocks with their error
    correction: what [read_codewords] makes of what [interleave] produced. *)

(** ** Bits *)

Lemma value_bits_succ v n : value_bits v (S n) = Z.testbit v (Z.of_nat n) :: value_bits v n.
Proof. unfold value_bits. by rewrite seq_S, rev_app_distr. Qed.

Lemma length_value_bits v n : length (value_bits v n) = n.
Proof. unfold value_bits. by rewrite length_fmap, length_rev, length_seq. Qed.

Lemma length_byte_bits l : length (l ≫= byte_bits) = (8 * length l)%nat.
Proof.
  induction l as [|c l IH]; [done|]. cbn [mbind list_bind]. rewrite length_app, IH. simpl. lia.
Qed.

Lemma to_int_snoc l b : to_int (l ++ [b]) = 2 * to_int l + Z.b2z b.
Proof. unfold to_int. by rewrite foldl_app. Qed.

Lemma to_int_cons b l : to_int (b :: l) = Z.b2z b * 2 ^ Z.of_nat (length l) + to_int l.
Proof.
  induction l as [|c l IH] using rev_ind; [cbn; lia|]. rewrite app_comm_cons, !to_int_snoc, IH, length_app. simpl.
  rewrite Nat2Z.inj_add, Z.pow_add_r by lia. simpl. lia.
Qed.

Lemma to_int_value v n : to_int (value_bits v n) = v mod 2 ^ Z.of_nat n.
Proof.
  induction n as [|n IH]; [cbn; by rewrite Z.mod_1_r|]. rewrite value_bits_succ, to_int_cons, length_value_bits, IH.
  rewrite Nat2Z.inj_succ, Z.pow_succ_r by lia. rewrite Z.mul_comm, (Z.mul_comm 2).
  rewrite Z.rem_mul_r by lia. rewrite Z.testbit_spec' by lia. lia.
Qed.

Lemma to_int_byte c : byte_ok c → to_int (byte_bits c) = c.
Proof. intros Hc. change (byte_bits c) with (value_bits c 8). rewrite to_int_value. by apply Z.mod_small. Qed.

Lemma to_bytes_bits l rest : bytes_ok l → to_bytes (length l) ((l ≫= byte_bits) ++ rest) = l.
Proof.
  induction 1 as [|c l Hc Hl IH]; [done|]. cbn [length to_bytes mbind list_bind]. rewrite <- app_assoc.
  assert (length (byte_bits c) = 8%nat) as El by reflexivity.
  rewrite take_app_length', drop_app_length' by done. by rewrite to_int_byte, IH.
Qed.

(** ** Pushing bits *)

Lemma set_bit_byte c r : byte_ok c → (r < 8)%nat →
  byte_ok (Z.lor c (Z.shiftl 1 (7 - Z.of_nat r))) ∧
  byte_bits (Z.lor c (Z.shiftl 1 (7 - Z.of_nat r))) = <[r := true]> (byte_bits c).
Proof.
  intros Hc Hr. set (P := λ c r, let d := Z.lor c (Z.shiftl 1 (7 - Z.of_nat r)) in
    (0 <=? d) && (d <? 256) && bool_decide (byte_bits d = <[r := true]> (byte_bits c))).
  assert (forallb (λ c, forallb (P c) (seq 0 8)) (span 0 256) = true) as Hall by (vm_compute; reflexivity).
  pose proof (nat_all (P c) 8 (byte_all _ Hall c Hc) r Hr) as Hp. clear Hall. unfold P in Hp. cbv zeta in Hp. breflect.
  split; [split; assumption|assumption].
Qed.

Lemma next_byte i : (8 ≤ i)%nat → (i / 8 = S ((i - 8) / 8) ∧ i mod 8 = (i - 8) mod 8)%nat.
Proof.
  intros Hi. assert (i = (i - 8) + 1 * 8)%nat as Ei by lia. rewrite Ei at 1 3.
  rewrite Nat.div_add, Nat.Div0.mod_add by lia. lia.
Qed.

Lemma set_bit_bytes bs i : bytes_ok bs → (i < 8 * length bs)%nat →
  let bs' := alter (λ c, Z.lor c (Z.shiftl 1 (7 - Z.of_nat (i mod 8)))) (i / 8)%nat bs in
  bytes_ok bs' ∧ bs' ≫= byte_bits = <[i := true]> (bs ≫= byte_bits).
Proof.
  intros Hb. revert i. induction Hb as [|c bs Hc Hb IH]; intros i Hi; [simpl in Hi; lia|]. cbv zeta.
  assert (length (byte_bits c) = 8%nat) as El by reflexivity.
  destruct (decide (i < 8)%nat) as [Hs|Hs].
  - rewrite Nat.div_small, Nat.mod_small by done. cbn [alter list_alter mbind list_bind].
    destruct (set_bit_byte c i Hc Hs) as [H1 H2]. split; [by constructor|]. rewrite H2, insert_app_l by lia. done.
  - specialize (IH (i - 8)%nat ltac:(simpl in Hi; lia)) as [H1 H2].
    destruct (next_byte i ltac:(lia)) as [E1 E2].
    rewrite E1, E2. cbn [alter list_alter mbind list_bind]. split; [by constructor|]. rewrite H2.
    rewrite insert_app_r_alt by lia. by rewrite El.
Qed.

(** The buffer holds [s]: those bits, then zeros up to a whole byte. *)
Definition holds_bits (b : bitBuf) (s : list bool) : Prop :=
  bytes_ok (bytes b) ∧ nbits b = length s ∧ ∃ k, (k < 8)%nat ∧ bytes b ≫= byte_bits = s ++ replicate k false.

Lemma whole_bytes b s k : bytes b ≫= byte_bits = s ++ replicate k false → (length s + k = 8 * length (bytes b))%nat.
Proof. intros E. apply (f_equal length) in E. rewrite length_byte_bits, length_app, length_replicate in E. lia. Qed.

(** Room for one more bit. *)
Lemma grow_bits b s : holds_bits b s →
  let bs := if (nbits b mod 8 =? 0)%nat then bytes b ++ [0] else bytes b in
  bytes_ok bs ∧ ∃ k, (k < 8)%nat ∧ bs ≫= byte_bits = s ++ false :: replicate k false.
Proof.
  intros (Hb & Hn & k & Hk & E). pose proof (whole_bytes _ _ _ E) as Hw. cbv zeta. destruct (_ =? _)%nat eqn:Em; breflect.
  - assert (k = 0)%nat as ->.
    { rewrite Hn in Em. apply Nat.Div0.mod_divides in Em as [d Hd]. lia. }
    split; [apply Forall_app; split; [done|by repeat constructor]|]. exists 7%nat. split; [lia|].
    rewrite bind_app, E. by rewrite app_nil_r.
  - split; [done|]. destruct k as [|k].
    + destruct Em. rewrite Hn. replace (length s) with (length (bytes b) * 8)%nat by lia. apply Nat.Div0.mod_mul.
    + exists k. split; [lia|]. done.
Qed.

Lemma push_bit_holds b s bit : holds_bits b s → holds_bits (push_bit b bit) (s ++ [bit]).
Proof.
  intros Hh. pose proof Hh as (_ & Hn & _). destruct (grow_bits b s Hh) as (Hb & k & Hk & E). unfold push_bit. cbv zeta in *.
  set (bs := if (nbits b mod 8 =? 0)%nat then (bytes b ++ [0])%list else bytes b) in *.
  assert (holds_bits (MkBits (if bit then alter (λ c, Z.lor c (Z.shiftl 1 (7 - Z.of_nat (nbits b mod 8)))) (nbits b / 8)%nat bs else bs)
    (S (nbits b))) (s ++ [bit])) as Hr; [|exact Hr].
  assert (length s + S k = 8 * length bs)%nat as Hw.
  { apply (f_equal length) in E. rewrite length_byte_bits, length_app in E. simpl in E. rewrite length_replicate in E. lia. }
  destruct bit.
  - destruct (set_bit_bytes bs (nbits b) Hb ltac:(lia)) as [H1 H2]. split_and!; cbn [bytes nbits]; [done|rewrite length_app; simpl; lia|].
    exists k. split; [done|]. rewrite H2, E, Hn. rewrite insert_app_r_alt by done. rewrite Nat.sub_diag. simpl. by rewrite <- app_assoc.
  - split_and!; cbn [bytes nbits]; [done|rewrite length_app; simpl; lia|]. exists k. split; [done|]. by rewrite E, <- app_assoc.
Qed.

Lemma push_holds b s value n : holds_bits b s → holds_bits (push b value n) (s ++ value_bits value n).
Proof.
  unfold push. generalize (value_bits value n) as l. intros l. revert b s. induction l as [|bit l IH]; intros b s Hb; simpl.
  { by rewrite app_nil_r. }
  rewrite cons_middle, app_assoc. by apply IH, push_bit_holds.
Qed.

Lemma push_bytes_holds data b s : holds_bits b s → holds_bits (foldl (λ b c, push b c 8) b data) (s ++ (data ≫= byte_bits)).
Proof.
  revert b s. induction data as [|c data IH]; intros b s Hb; cbn [foldl mbind list_bind]; [by rewrite app_nil_r|].
  rewrite app_assoc. apply IH. by apply push_holds.
Qed.

Lemma holds_empty : holds_bits (MkBits [] 0) [].
Proof. split_and!; [constructor|done|]. exists 0%nat. split; [lia|done]. Qed.

Lemma pad_app n i bs : ∃ pads, pad_codewords n i bs = bs ++ pads ∧ length pads = n ∧ bytes_ok pads.
Proof.
  revert i bs. induction n as [|n IH]; intros i bs; cbn [pad_codewords]; [exists []; rewrite app_nil_r; by repeat constructor|].
  destruct (IH (S i) (bs ++ [if (i mod 2 =? 0)%nat then 0xEC else 0x11])) as (pads & -> & Hl & Hp). eexists. rewrite <- app_assoc. split; [done|].
  split; [simpl; lia|]. constructor; [|done]. unfold byte_ok. destruct (_ =? _)%nat; lia.
Qed.

(** ** The whole stream *)

Definition header (version n : nat) : list bool := value_bits modeByte 4 ++ value_bits (Z.of_nat n) (countBits version).

Lemma encodeData_stream data v dc :
  bytes_ok data → (4 + countBits v + 8 * length data ≤ 8 * dc)%nat →
  bytes_ok (encodeData data v dc) ∧ length (encodeData data v dc) = dc ∧
  ∃ rest, encodeData data v dc ≫= byte_bits = header v (length data) ++ (data ≫= byte_bits) ++ rest.
Proof.
  intros Hd Hfit. unfold encodeData. cbv zeta.
  pose proof (push_holds _ _ modeByte 4 holds_empty) as H1. pose proof (push_holds _ _ (Z.of_nat (length data)) (countBits v) H1) as H2.
  pose proof (push_bytes_holds data _ _ H2) as H3. set (b := foldl _ _ _) in *. clearbody b.
  rewrite app_nil_l in H3. fold (header v (length data)) in H3. set (s := header v (length data) ++ (data ≫= byte_bits)) in *.
  assert (length s = 4 + countBits v + 8 * length data)%nat as Els.
  { unfold s, header. rewrite !length_app, !length_value_bits, length_byte_bits. lia. }
  pose proof (push_holds _ _ 0 (Nat.min 4 (dc * 8 - nbits b)) H3) as H4. set (b4 := push b 0 _) in *.
  set (t := value_bits 0 _) in *. assert (length s + length t ≤ 8 * dc)%nat as Elt.
  { unfold t. rewrite length_value_bits. destruct H3 as (_ & Hn & _). lia. }
  clearbody t b4. clear H1 H2 H3 b.
  assert (∃ b5 u, b5 = (if (nbits b4 mod 8 =? 0)%nat then b4 else push b4 0 (8 - nbits b4 mod 8)) ∧
    bytes_ok (bytes b5) ∧ bytes b5 ≫= byte_bits = s ++ u ∧ (length (bytes b5) ≤ dc)%nat) as (b5 & u & <- & Hb5 & Hu & Hl5).
  { destruct (nbits b4 mod 8 =? 0)%nat eqn:Em; breflect.
    - destruct H4 as (Hb & Hn & k & Hk & E). exists b4, (t ++ replicate k false)%list. split_and!; [done|done|by rewrite E, <- app_assoc|].
      pose proof (whole_bytes _ _ _ E). rewrite length_app in *. lia.
    - pose proof (push_holds _ _ 0 (8 - nbits b4 mod 8) H4) as H5. destruct H4 as (_ & Hn4 & _). destruct H5 as (Hb & Hn & k & Hk & E).
      eexists _, _. split; [done|]. split_and!; [done|rewrite E, <- !app_assoc; done|]. pose proof (whole_bytes _ _ _ E) as Hw.
      rewrite !length_app, length_value_bits in Hw. rewrite length_app in Hn4. rewrite Hn4 in *.
      pose proof (Nat.div_mod_eq (length s + length t) 8). lia. }
  destruct (pad_app (dc - length (bytes b5)) 0 (bytes b5)) as (pads & -> & Hpl & Hpb).
  split_and!; [by apply Forall_app|rewrite length_app; lia|]. rewrite bind_app, Hu. exists (u ++ (pads ≫= byte_bits))%list.
  unfold s. by rewrite <- !app_assoc.
Qed.

(** Reading the stream gives the data back. *)
Lemma read_bits_header v data rest : bytes_ok data → (1 ≤ v)%nat → Z.of_nat (length data) < 2 ^ Z.of_nat (countBits v) →
  read_bits v (header v (length data) ++ (data ≫= byte_bits) ++ rest) = Some data.
Proof.
  intros Hd Hv Hn. unfold read_bits. cbv zeta.
  assert ((if (v <? 10)%nat then 8 else 16)%nat = countBits v) as ->.
  { unfold countBits. destruct (v <? 10)%nat eqn:E1, (v <=? 9)%nat eqn:E2; breflect; try done; lia. }
  unfold header. rewrite <- !app_assoc. set (R := ((data ≫= byte_bits) ++ rest)%list).
  set (A := value_bits modeByte 4). set (B := value_bits (Z.of_nat (length data)) (countBits v)).
  assert (length A = 4%nat ∧ length B = countBits v) as [EA EB] by (split; apply length_value_bits).
  rewrite <- drop_drop, (drop_app_length' A _ 4), (take_app_length' A _ 4), (take_app_length' B), (drop_app_length' B) by done.
  unfold A, B. rewrite !to_int_value, Z.mod_small by done. change (modeByte =? 4) with true. cbn [negb].
  rewrite Z.mod_small by lia. rewrite Nat2Z.id, (proj2 (Nat.ltb_ge _ _)); [f_equal; by apply to_bytes_bits|].
  unfold R. rewrite length_app, length_byte_bits. lia.
Qed.

(** ** Blocks *)

Fixpoint split_by {A} (lens : list nat) (l : list A) : list (list A) :=
  match lens with
  | [] => []
  | n :: lens => take n l :: split_by lens (drop n l)
  end.


Definition weave {A} (lens : list nat) (l : list A) : list A :=
  concat (column (split_by lens l) <$> seq 0 (foldr Nat.max 0%nat lens)).

(** Splitting, weaving and picking move codewords about without looking at them. *)
Lemma split_by_fmap {A B} (f : A → B) lens (l : list A) : split_by lens (fmap (M := list) f l) = fmap (M := list) f <$> split_by lens l.
Proof. revert l. induction lens as [|n lens IH]; intros l; [done|]. cbn. by rewrite <- fmap_take, <- fmap_drop, IH. Qed.

Lemma column_fmap {A B} (f : A → B) (blks : list (list A)) i : column (fmap (M := list) f <$> blks) i = f <$> column blks i.
Proof.
  unfold column. induction blks as [|b blks IH]; [done|]. cbn. rewrite list_lookup_fmap. destruct (b !! i); cbn; by rewrite <- IH.
Qed.

Lemma weave_fmap {A B} (f : A → B) lens (l : list A) : weave lens (fmap (M := list) f l) = f <$> weave lens l.
Proof.
  unfold weave. rewrite split_by_fmap. induction (seq 0 _) as [|i js IH]; [done|]. cbn. by rewrite column_fmap, fmap_app, <- IH.
Qed.

Lemma pick_fmap {A B} (f : A → B) b os (l : list A) : pick b os (fmap (M := list) f l) = f <$> pick b os l.
Proof.
  unfold pick. revert l. induction os as [|o os IH]; intros [|a l]; [done..|]. cbn. destruct (o =? b)%nat; cbn; by rewrite <- IH.
Qed.

Lemma blocks_of_fmap {A B} (f : A → B) lens (l : list A) : blocks_of lens (fmap (M := list) f l) = fmap (M := list) f <$> blocks_of lens l.
Proof. unfold blocks_of. rewrite <- list_fmap_compose. apply list_fmap_ext. intros. simpl. apply pick_fmap. Qed.

(** So it is enough to follow the positions. *)
Definition weave_ok (lens : list nat) : bool :=
  let l := seq 0 (total lens) in
  bool_decide (blocks_of lens (weave lens l) = split_by lens l) && (length (weave lens l) =? total lens)%nat.

Lemma positions (l : list Z) : l = (λ i, nth i l 0) <$> seq 0 (length l).
Proof.
  apply list_eq. intros i. rewrite list_lookup_fmap. destruct (decide (i < length l)%nat) as [Hi|Hi].
  - rewrite lookup_seq_lt by done. simpl. destruct (l !! i) as [c|] eqn:E; [|apply lookup_ge_None in E; lia].
    by rewrite (nth_lookup_Some _ _ 0 _ E).
  - rewrite lookup_seq_ge by lia. simpl. apply lookup_ge_None. lia.
Qed.

Lemma weave_back lens (l : list Z) : weave_ok lens = true → length l = total lens →
  blocks_of lens (weave lens l) = split_by lens l ∧ length (weave lens l) = total lens.
Proof.
  intros Hw Hl. unfold weave_ok in Hw. cbv zeta in Hw. breflect. rewrite (positions l), Hl.
  rewrite weave_fmap, blocks_of_fmap, split_by_fmap, length_fmap. by split; [f_equal|].
Qed.

Lemma weave_bytes lens l : bytes_ok l → bytes_ok (weave lens l).
Proof.
  intros Hl. rewrite (positions l), weave_fmap. apply Forall_fmap, Forall_forall. intros i _. by apply nth_byte.
Qed.

Lemma split_by_app {A} l1 l2 (l : list A) : split_by (l1 ++ l2) l = split_by l1 l ++ split_by l2 (drop (total l1) l).
Proof.
  revert l. induction l1 as [|n l1 IH]; intros l; [done|]. cbn. by rewrite IH, drop_drop.
Qed.

Lemma total_replicate n w : total (replicate n w) = (n * w)%nat.
Proof. induction n as [|n IH]; [done|]. cbn. unfold total in IH. by rewrite IH. Qed.

Lemma concat_split {A} lens (l : list A) : length l = total lens → concat (split_by lens l) = l.
Proof.
  revert l. induction lens as [|n lens IH]; intros l Hl; [by destruct l|]. cbn in *. fold (total lens) in Hl.
  rewrite IH by (rewrite length_drop; lia). apply take_drop.
Qed.

Lemma split_concat {A} (bs : list (list A)) : split_by (length <$> bs) (concat bs) = bs.
Proof. induction bs as [|b bs IH]; [done|]. cbn. rewrite take_app_length, drop_app_length. by f_equal. Qed.

Lemma length_split {A} lens (l : list A) : length l = total lens → length <$> split_by lens l = lens.
Proof.
  revert l. induction lens as [|n lens IH]; intros l Hl; [done|]. cbn in *. fold (total lens) in Hl.
  rewrite IH by (rewrite length_drop; lia). rewrite length_take. f_equal. lia.
Qed.

Lemma cut_blocks_spec n words data off : (off + n * words ≤ length data)%nat →
  cut_blocks n words data off = Some (split_by (replicate n words) (drop off data), (off + n * words)%nat).
Proof.
  revert off. induction n as [|n IH]; intros off Hl; cbn [cut_blocks]; [by rewrite Nat.add_0_r|].
  rewrite slice_is_Some by lia. cbn [mbind option_bind]. rewrite IH by lia. cbn. rewrite drop_drop.
  f_equal. f_equal; [|lia]. do 2 f_equal. lia.
Qed.

Lemma mapM_column (blks : list (list Z)) i : Forall (λ b, (i < length b)%nat) blks → mapM (λ b, b !! i) blks = Some (column blks i).
Proof.
  intros Hb. apply mapM_Some. unfold column. induction Hb as [|b blks Hi Hb IH]; [constructor|]. cbn.
  destruct (b !! i) eqn:E; [by constructor|]. apply lookup_ge_None in E. lia.
Qed.

Lemma mapM_columns (blks : list (list Z)) n e : Forall (λ b, length b = e) blks → (n ≤ e)%nat →
  mapM (λ i, mapM (λ b, b !! i) blks) (seq 0 n) = Some (column blks <$> seq 0 n).
Proof.
  intros Hb Hn. apply mapM_Some. assert (∀ i, i ∈ seq 0 n → mapM (λ b, b !! i) blks = Some (column blks i)) as Hc.
  { intros i Hi. apply mapM_column. eapply Forall_impl; [exact Hb|]. intros b E. apply elem_of_seq in Hi. simpl in *. lia. }
  clear Hn. induction (seq 0 n) as [|i js IH]; [constructor|]. cbn. constructor; [apply Hc; set_solver|apply IH; set_solver].
Qed.

(** What the table has to satisfy. *)
(** The encoder's blocks, as the reader counts them. *)
Definition block_lengths (c : versionCode) : list nat := replicate (blocks1 c) (words1 c) ++ replicate (blocks2 c) (words2 c).
Definition correction_lengths (c : versionCode) : list nat := replicate (blocks1 c + blocks2 c) (ecWords c).

Definition version_ok (c : versionCode) : bool :=
  weave_ok (block_lengths c) && weave_ok (correction_lengths c) &&
  (foldr Nat.max 0%nat (block_lengths c) =? Nat.max (words1 c) (words2 c))%nat &&
  (foldr Nat.max 0%nat (correction_lengths c) =? ecWords c)%nat && (total (block_lengths c) =? dataCodewords c)%nat &&
  (dataCodewords c + total (correction_lengths c) =? totalCodewords c)%nat.

(** The table of tables.go is the standard's. *)
Lemma versions_standard v c : versions !! v = Some c → (1 ≤ v)%nat →
  ∃ t, std_blocks !! pred v = Some t ∧ block_lengths c = data_lengths t ∧ correction_lengths c = ec_lengths t.
Proof.
  intros Hv H1. assert (v < 13)%nat as H2 by (apply lookup_lt_Some in Hv; exact Hv).
  do 13 (destruct v as [|v]; [first [lia|injection Hv as <-; eexists; split; [reflexivity|split; reflexivity]]|]). lia.
Qed.

Lemma versions_ok v c : versions !! v = Some c → version_ok c = true.
Proof.
  intros Hv. assert (forallb version_ok versions = true) as Hall by (vm_compute; reflexivity).
  rewrite forallb_forall in Hall. apply Hall, list_elem_of_In, list_elem_of_lookup. by exists v.
Qed.

(** The stream of a version, and what the reader makes of it. *)
Lemma interleave_reads v c data bs :
  versions !! v = Some c → (1 ≤ v)%nat → bytes_ok data → length data = dataCodewords c → data ≫= byte_bits = bs →
  ∃ stream, interleave data c = Some stream ∧ bytes_ok stream ∧ length stream = totalCodewords c ∧
    read_codewords v (block_lengths c) (correction_lengths c) stream = read_bits v bs.
Proof.
  intros Hv H1 Hd Hl <-. pose proof (versions_ok v c Hv) as Hok. unfold version_ok in Hok. breflect.
  rename select (weave_ok (block_lengths c) = true) into Hw1. rename select (weave_ok (correction_lengths c) = true) into Hw2.
  rename select (foldr Nat.max _ (block_lengths c) = _) into Hm1. rename select (foldr Nat.max _ (correction_lengths c) = _) into Hm2.
  set (blocks := split_by (block_lengths c) data). set (ec := (λ b, reedSolomon b (ecWords c)) <$> blocks).
  assert (concat blocks = data) as Ecat by (apply concat_split; lia).
  assert (length blocks = blocks1 c + blocks2 c)%nat as Enb.
  { rewrite <- (length_fmap length). unfold blocks. rewrite length_split by lia. unfold block_lengths.
    by rewrite length_app, !length_replicate. }
  assert (Forall bytes_ok blocks) as Hbb.
  { apply Forall_forall. intros b Hb. apply Forall_forall. intros x Hx. unfold bytes_ok in Hd. rewrite Forall_forall in Hd.
    apply Hd. rewrite <- Ecat. apply list_elem_of_In, in_concat. exists b. by rewrite <- !list_elem_of_In. }
  assert (Forall (λ b, length b = ecWords c ∧ bytes_ok b) ec) as Hec.
  { apply Forall_fmap. eapply Forall_impl; [exact Hbb|]. intros b Hb. destruct (reedSolomon_right v c b Hv H1 Hb) as (? & ? & _). by split. }
  assert (correction_lengths c = length <$> ec) as Elens.
  { unfold correction_lengths. rewrite <- Enb. unfold ec. rewrite <- list_fmap_compose. clear -Hv H1 Hbb.
    induction Hbb as [|b bs Hb Hbs IH]; [done|]. cbn. rewrite IH. f_equal. symmetry. by apply (reedSolomon_right v). }
  assert (ec = split_by (correction_lengths c) (concat ec)) as Esplit by (rewrite Elens; symmetry; apply split_concat).
  assert (length (concat ec) = total (correction_lengths c)) as Elec.
  { rewrite Elens. clear. induction ec as [|b bs IH]; [done|]. cbn. unfold total in IH. by rewrite length_app, IH. }
  destruct (weave_back (block_lengths c) data Hw1) as [Hb1 Hl1]; [lia|]. destruct (weave_back (correction_lengths c) (concat ec) Hw2 Elec) as [Hb2 Hl2].
  exists (weave (block_lengths c) data ++ weave (correction_lengths c) (concat ec)). split_and!.
  - unfold interleave. assert (total (block_lengths c) = blocks1 c * words1 c + blocks2 c * words2 c)%nat as Et by done.
    rewrite !cut_blocks_spec by (unfold dataCodewords in *; lia). cbn [mbind option_bind]. rewrite !cut_blocks_spec by (unfold dataCodewords in *; lia).
    cbn [mbind option_bind]. rewrite drop_0, Nat.add_0_l.
    assert (split_by (replicate (blocks1 c) (words1 c)) data ++
      split_by (replicate (blocks2 c) (words2 c)) (drop (blocks1 c * words1 c) data) = blocks) as ->.
    { unfold blocks, block_lengths. by rewrite split_by_app, total_replicate. }
    fold ec. rewrite (mapM_columns ec (ecWords c) (ecWords c)); [|eapply Forall_impl; [exact Hec|by intros b []]|lia].
    cbn. unfold weave. rewrite <- Esplit. fold blocks. by rewrite Hm1, Hm2.
  - apply Forall_app; split; apply weave_bytes; [done|]. apply Forall_concat. eapply Forall_impl; [exact Hec|by intros b []].
  - rewrite length_app. lia.
  - unfold read_codewords. cbv zeta. rewrite take_app_length', drop_app_length' by lia. rewrite Hb1, Hb2, <- Esplit. fold blocks.
    rewrite (proj2 (forallb_forall _ _)); [by rewrite Ecat|]. intros [n b] Hnb. cbn [fst snd].
    pose proof (in_combine_l _ _ _ _ Hnb) as Hn. apply in_combine_r, list_elem_of_In in Hnb as Hb.
    assert (n = ecWords c) as -> by (unfold correction_lengths in Hn; by apply list_elem_of_In, elem_of_replicate in Hn as [? _]).
    clear -Hv H1 Hbb Hb. unfold ec in Hb. clear ec. induction Hbb as [|b' bs Hb' Hbs IH]; [by apply not_elem_of_nil in Hb|]. cbn in Hb.
    apply elem_of_cons in Hb as [->|Hb]; [|by apply IH]. by apply (reedSolomon_right v).
Qed.
