(* ===== verification/QrFacts.v ===== *)
(** * What the join code says

    Every symbol Encode draws is one the strict reader of [QrStream] takes, and it
    reads the encoded bytes out of it. The geometry of each version is checked by
    computation; the data, the error correction and the choice of the mask are
    general. *)

From S2P Require Import Prelude Bytes Qr QrStream GoStrings Text.

Local Open Scope Z_scope.

(** ** Writing modules *)

Definition wf (m : Matrix) : Prop := 0 ≤ size m ∧ Z.of_nat (length (mods m)) = size m * size m.

Definition inside (n : Z) (p : Z * Z) : Prop := 0 ≤ fst p < n ∧ 0 ≤ snd p < n.

Lemma in_symbol_inside m p : in_symbol m (fst p) (snd p) = true ↔ inside (size m) p.
Proof. unfold in_symbol, inside. rewrite negb_true_iff, !orb_false_iff, !Z.ltb_ge, !Z.leb_gt. lia. Qed.

Definition rank (n : Z) (p : Z * Z) : Z := snd p * n + fst p.

Lemma rank_inj n p p' : inside n p → inside n p' → rank n p = rank n p' → p = p'.
Proof.
  destruct p as [x y], p' as [x' y']. unfold inside, rank. simpl. intros Hp Hp' E.
  assert (y = y') as -> by nia. f_equal. lia.
Qed.

Lemma rank_bound n p : inside n p → 0 ≤ rank n p < n * n.
Proof. destruct p as [x y]. unfold inside, rank. simpl. nia. Qed.

Lemma at_inside m p : inside (size m) p → at_ m p = nth (Z.to_nat (rank (size m) p)) (mods m) false.
Proof. intros Hp. unfold at_, At. by rewrite (proj2 (in_symbol_inside m p) Hp). Qed.

Lemma at_outside m p : ¬ inside (size m) p → at_ m p = false.
Proof. intros Hp. unfold at_, At. destruct (in_symbol _ _ _) eqn:E; [|done]. by apply in_symbol_inside in E. Qed.

Lemma nth_insert (l : list bool) i j b : (i < length l)%nat → nth j (<[i := b]> l) false = if (i =? j)%nat then b else nth j l false.
Proof.
  intros Hi. destruct (i =? j)%nat eqn:E; breflect.
  - subst j. by apply nth_lookup_Some, list_lookup_insert_eq.
  - rewrite !nth_lookup. by rewrite list_lookup_insert_ne.
Qed.

(** One module written. *)
Definition written (m m' : Matrix) (p : Z * Z) (b : bool) : Prop :=
  wf m' ∧ size m' = size m ∧ at_ m' p = b ∧ ∀ p', p' ≠ p → at_ m' p' = at_ m p'.

Lemma set_written m p b : wf m → inside (size m) p → ∃ m', set m (fst p) (snd p) b = Some m' ∧ written m m' p b.
Proof.
  intros (Hs & Hl) Hp. pose proof (rank_bound _ _ Hp) as Hr. unfold set. cbv zeta. fold (rank (size m) p).
  assert (Z.to_nat (rank (size m) p) < length (mods m))%nat as Hn by lia.
  rewrite (proj2 (Z.ltb_ge _ _)) by lia. destruct (proj2 (lookup_lt_is_Some _ _) Hn) as [b0 ->]. simpl. eexists. split; [done|].
  split_and!; simpl; [split; simpl; [done|by rewrite length_insert]|done| |].
  - rewrite at_inside by done. simpl. rewrite nth_insert by done. by rewrite Nat.eqb_refl.
  - intros p' Hne. destruct (decide (inside (size m) p')) as [Hi|Hi].
    + rewrite !at_inside by done. simpl. rewrite nth_insert by done. destruct (_ =? _)%nat eqn:E; [|done]. breflect.
      destruct Hne. pose proof (rank_bound _ _ Hi). symmetry. apply (rank_inj (size m)); [done..|lia].
    + by rewrite !at_outside.
Qed.

#[local] Instance inside_dec n p : Decision (inside n p).
Proof. unfold inside. apply _. Defined.

(** ** A list of writes *)

Definition write_all (l : list (Z * Z * bool)) (m : Matrix) : option Matrix := loop (λ m '(x, y, b), set m x y b) l m.

Definition last_write (l : list (Z * Z * bool)) (p : Z * Z) : option bool :=
  foldl (λ acc w, if (fst p =? fst (fst w)) && (snd p =? snd (fst w)) then Some (snd w) else acc) None l.

Lemma loop_app {S A} (f : S → A → option S) l1 l2 s : loop f (l1 ++ l2) s = loop f l1 s ≫= loop f l2.
Proof. revert s. induction l1 as [|a l1 IH]; intros s; [done|]. cbn. destruct (f s a); [|done]. apply IH. Qed.

Lemma loop_fmap {S A B} (f : S → B → option S) (g : A → B) l s : loop (λ s a, f s (g a)) l s = loop f (g <$> l) s.
Proof. revert s. induction l as [|a l IH]; intros s; [done|]. cbn. destruct (f s (g a)); [|done]. apply IH. Qed.

Lemma loop_bind {S A B} (f : S → B → option S) (g : A → list B) l s : loop (λ s a, loop f (g a) s) l s = loop f (l ≫= g) s.
Proof. revert s. induction l as [|a l IH]; intros s; [done|]. cbn. rewrite loop_app. destruct (loop f (g a) s); [|done]. apply IH. Qed.

Lemma loop_ext {S A} (f g : S → A → option S) l s : (∀ s a, f s a = g s a) → loop f l s = loop g l s.
Proof. intros E. revert s. induction l as [|a l IH]; intros s; [done|]. cbn. rewrite E. destruct (g s a); [|done]. apply IH. Qed.

Lemma last_write_snoc l w p :
  last_write (l ++ [w]) p = if (fst p =? fst (fst w)) && (snd p =? snd (fst w)) then Some (snd w) else last_write l p.
Proof. unfold last_write. by rewrite foldl_app. Qed.

Lemma write_all_spec l m : wf m → Forall (λ w, inside (size m) (fst w)) l →
  ∃ m', write_all l m = Some m' ∧ wf m' ∧ size m' = size m ∧ ∀ p, at_ m' p = default (at_ m p) (last_write l p).
Proof.
  intros Hm. induction l as [|[[x y] b] l IH] using rev_ind; intros Hl; [by exists m|].
  apply Forall_app in Hl as [Hl Hw]. inversion_clear Hw. destruct (IH Hl) as (m1 & E1 & Hm1 & Hs1 & Ha1).
  destruct (set_written m1 (x, y) b Hm1) as (m2 & E2 & Hm2 & Hs2 & Hb & Ho); [by rewrite Hs1|]. exists m2.
  unfold write_all in *. rewrite loop_app, E1. cbn. cbn in E2. rewrite E2. split_and!; [done|done|congruence|].
  intros p. rewrite last_write_snoc. simpl. destruct ((fst p =? x) && (snd p =? y)) eqn:E; breflect.
  - destruct p as [x' y']. simpl in *. subst. done.
  - rewrite Ho, Ha1; [done|]. intros ->. simpl in E. by rewrite !Z.eqb_refl in E.
Qed.

(** ** Format and version information as writes *)

Definition format_writes (n : Z) (mask : Z) : list (Z * Z * bool) :=
  let get := Z.testbit (formatBits mask) in
  ((λ i, (8, i, get i)) <$> span 0 6) ++ [(8, 7, get 6)] ++ [(8, 8, get 7)] ++ [(7, 8, get 8)] ++
  ((λ i, (14 - i, 8, get i)) <$> span 9 15) ++ ((λ i, (n - 1 - i, 8, get i)) <$> span 0 8) ++
  ((λ i, (8, n - 15 + i, get i)) <$> span 8 15) ++ [(8, n - 8, true)].

Definition version_writes (n : Z) (v : nat) : list (Z * Z * bool) :=
  i ← span 0 18;
  let bit := Z.testbit (versionBits v) i in
  [(n - 11 + i mod 3, i / 3, bit); (i / 3, n - 11 + i mod 3, bit)].

Lemma write_one x y b m : write_all [(x, y, b)] m = set m x y b.
Proof. unfold write_all. cbn. by destruct (set m x y b). Qed.

Lemma write_app l1 l2 m : write_all (l1 ++ l2) m = write_all l1 m ≫= write_all l2.
Proof. apply loop_app. Qed.

Lemma write_loop (f : Z → Z * Z * bool) l m :
  loop (λ m i, set m (fst (fst (f i))) (snd (fst (f i))) (snd (f i))) l m = write_all (f <$> l) m.
Proof. unfold write_all. rewrite <- loop_fmap. apply loop_ext. intros s a. by destruct (f a) as [[??]?]. Qed.

Lemma bind_ext {A B} (o o' : option A) (f g : A → option B) : o = o' → (∀ a, f a = g a) → o ≫= f = o' ≫= g.
Proof. intros -> E. by destruct o'; cbn. Qed.

Lemma drawFormat_writes mask m : drawFormat mask m = write_all (format_writes (size m) mask) m.
Proof.
  unfold drawFormat, format_writes. cbv zeta. set (n := size m). set (get := Z.testbit (formatBits mask)).
  do 7 (rewrite write_app; apply bind_ext; [symmetry; first [apply write_one|etransitivity; [symmetry; apply write_loop|reflexivity]]|intros ?]).
  symmetry. apply write_one.
Qed.

Lemma drawVersion_writes v m : drawVersion v m = write_all (version_writes (size m) v) m.
Proof.
  unfold drawVersion, version_writes, write_all. cbv zeta. rewrite <- loop_bind. apply loop_ext. intros s i. cbn.
  destruct (set s _ _ _) as [s1|]; [|done]. cbn. by destruct (set s1 _ _ _).
Qed.

(** The information of a version, drawn twice as chooseMask and Encode do. *)
Definition info_writes (v : nat) (mask : Z) : list (Z * Z * bool) :=
  format_writes (side v) mask ++ (if (7 <=? v)%nat then version_writes (side v) v else []).

Definition draw_info (v : nat) (mask : Z) (m : Matrix) : option Matrix :=
  m ← drawFormat mask m; if (7 <=? v)%nat then drawVersion v m else Some m.

(** ** The mask *)

(** Changing each module of a list from its own value. *)
Lemma point_loop (c : Z * Z → bool) (g : Z * Z → bool → bool) l m :
  wf m → NoDup l → Forall (inside (size m)) l →
  ∃ m', loop (λ m p, if c p then set m (fst p) (snd p) (g p (at_ m p)) else Some m) l m = Some m' ∧ wf m' ∧ size m' = size m ∧
    (∀ p, p ∈ l → at_ m' p = if c p then g p (at_ m p) else at_ m p) ∧ (∀ p, p ∉ l → at_ m' p = at_ m p).
Proof.
  intros Hm Hn. revert m Hm. induction Hn as [|p l Hp Hn IH]; intros m Hm Hi.
  { exists m. split_and!; [done|done|done| |done]. intros p Hp. by apply not_elem_of_nil in Hp. }
  inversion_clear Hi as [|? ? Hin Hrest]. cbn [loop].
  assert (∃ m1, (if c p then set m (fst p) (snd p) (g p (at_ m p)) else Some m) = Some m1 ∧
    written m m1 p (if c p then g p (at_ m p) else at_ m p)) as (m1 & -> & Hm1 & Hs1 & Hb & Ho).
  { destruct (c p); [by apply set_written|]. by exists m. }
  cbn. destruct (IH m1 Hm1) as (m2 & E2 & Hm2 & Hs2 & Hin2 & Hout2); [by rewrite Hs1|]. exists m2.
  split_and!; [done|done|congruence| |].
  - intros q Hq. apply elem_of_cons in Hq as [->|Hq]; [by rewrite Hout2|]. rewrite Hin2, Ho by set_solver. done.
  - intros q Hq. rewrite Hout2, Ho by set_solver. done.
Qed.

Lemma apply_mask_loop n fn m v : size m = side v → apply_mask n fn m =
  loop (λ m p, if negb (at_ fn p) && maskFn n (fst p) (snd p) then set m (fst p) (snd p) (negb (at_ m p)) else Some m) (modules v) m.
Proof.
  intros Hs. unfold apply_mask, modules. rewrite Hs, <- loop_bind. apply loop_ext. intros s y. rewrite <- loop_bind. apply loop_ext.
  intros s' x. unfold at_. cbn. destruct (_ && _); [by destruct (set s' x y _)|done].
Qed.

(** ** Placing the codewords *)

Definition data_bit (codewords : list Z) (k : nat) : bool :=
  if (k <? length codewords * 8)%nat then default false (codeword_bit codewords k) else false.

Lemma place_one_eq fn cws total_ m bit r p : place_one fn cws total_ (m, bit, r) p =
  if r then Some (m, bit, r)
  else if at_ fn p then Some (m, bit, r)
  else dark ← (if (bit <? length cws * 8)%nat then codeword_bit cws bit else Some false);
       m ← set m (fst p) (snd p) dark;
       Some (m, S bit, (total_ <=? S bit)%nat).
Proof. by destruct p. Qed.

Lemma place_loop fn cws total_ vs m bit :
  wf m → NoDup vs → Forall (inside (size m)) vs →
  let free := List.filter (λ p, negb (at_ fn p)) vs in
  (bit + length free = total_)%nat →
  ∃ m', loop (place_one fn cws total_) vs (m, bit, (total_ <=? bit)%nat) = Some (m', total_, true) ∧ wf m' ∧ size m' = size m ∧
    (∀ k p, free !! k = Some p → at_ m' p = data_bit cws (bit + k)) ∧ (∀ p, p ∉ free → at_ m' p = at_ m p).
Proof.
  intros Hm Hn. revert m bit Hm. induction Hn as [|p vs Hp Hn IH]; intros m bit Hm Hi free Ht.
  { unfold free in *. simpl in *. exists m. replace bit with total_ by lia. rewrite Nat.leb_refl. by split_and!. }
  inversion_clear Hi as [|? ? Hin Hrest]. cbn [loop]. rewrite place_one_eq.
  unfold free in *. cbn [List.filter] in *. clear free. destruct (at_ fn p) eqn:Ef; cbn [negb] in *.
  { specialize (IH m bit Hm Hrest Ht). destruct (total_ <=? bit)%nat; cbn [mbind option_bind]; exact IH. }
  cbn [length] in Ht. rewrite (proj2 (Nat.leb_gt _ _)) by lia.
  assert ((if (bit <? length cws * 8)%nat then codeword_bit cws bit else Some false) = Some (data_bit cws bit)) as ->.
  { unfold data_bit. destruct (bit <? length cws * 8)%nat eqn:Eb; breflect; [|done]. unfold codeword_bit.
    destruct (cws !! (bit / 8)%nat) eqn:Ec; [done|]. apply lookup_ge_None in Ec.
    assert (bit / 8 < length cws)%nat by (apply Nat.Div0.div_lt_upper_bound; lia). lia. }
  cbn [mbind option_bind]. destruct (set_written m p (data_bit cws bit) Hm Hin) as (m1 & E1 & Hm1 & Hs1 & Hb & Ho).
  rewrite E1. cbn [mbind option_bind].
  destruct (IH m1 (S bit) Hm1) as (m2 & E2 & Hm2 & Hs2 & Hin2 & Hout2); [by rewrite Hs1|lia|]. exists m2.
  assert (p ∉ List.filter (λ p, negb (at_ fn p)) vs) as Hnot.
  { rewrite list_elem_of_In, filter_In, <- list_elem_of_In. by intros []. }
  split_and!; [done|done|congruence| |].
  - intros [|k] q Hq; cbn in Hq; [simplify_eq; by rewrite Hout2, Nat.add_0_r|]. rewrite (Hin2 k q Hq). f_equal. lia.
  - intros q Hq. rewrite Hout2, Ho by set_solver. done.
Qed.

Lemma placeData_spec m fn cws rem :
  wf m → NoDup (visits (size m)) → Forall (inside (size m)) (visits (size m)) →
  let free := List.filter (λ p, negb (at_ fn p)) (visits (size m)) in
  length free = (length cws * 8 + rem)%nat → free ≠ [] →
  ∃ m', placeData m fn cws rem = Some m' ∧ wf m' ∧ size m' = size m ∧
    at_ m' <$> free = data_bit cws <$> seq 0 (length free) ∧ (∀ p, p ∉ free → at_ m' p = at_ m p).
Proof.
  intros Hm Hn Hi free Hf Hne. destruct (place_loop fn cws (length cws * 8 + rem) (visits (size m)) m 0 Hm Hn Hi)
    as (m' & E & Hm' & Hs' & Hin & Hout); [done|]. rewrite (proj2 (Nat.leb_gt _ _)) in E by (destruct free; [done|simpl in Hf; lia]).
  exists m'. unfold placeData. rewrite E. split_and!; [done|done|done| |done]. apply list_eq. intros k. rewrite !list_lookup_fmap.
  destruct (free !! k) as [p|] eqn:Ek.
  - rewrite lookup_seq_lt by (by eapply lookup_lt_Some). simpl. f_equal. by apply Hin.
  - rewrite lookup_seq_ge; [done|]. by apply lookup_ge_None.
Qed.

(** ** The geometry of a version, by computation *)

(** The step at which the walk reaches a module. *)
Definition step_rank (n : Z) (p : Z * Z) : Z :=
  let k := n - 1 - fst p - (if fst p <? 6 then 1 else 0) in
  (k / 2) * (2 * n) + 2 * (if Z.even (k / 2) then n - 1 - snd p else snd p) + k mod 2.

Definition inside_b (n : Z) (p : Z * Z) : bool := (0 <=? fst p) && (fst p <? n) && (0 <=? snd p) && (snd p <? n).

Definition agrees (v : nat) : Z * Z → bool → bool :=
  let fixed := pattern v in λ p b, match fixed p with Some c => Bool.eqb b c | None => true end.

(** Equality of lists by a boolean comparison of their elements. *)
Fixpoint same {A} (eqb : A → A → bool) (l1 l2 : list A) : bool :=
  match l1, l2 with
  | [], [] => true
  | a :: l1, b :: l2 => eqb a b && same eqb l1 l2
  | _, _ => false
  end.

Lemma same_eq {A} (eqb : A → A → bool) l1 l2 : (∀ a b, eqb a b = true → a = b) → same eqb l1 l2 = true → l1 = l2.
Proof.
  intros He. revert l2. induction l1 as [|a l1 IH]; intros [|b l2]; simpl; try done. intros E. breflect. f_equal; auto.
Qed.

(** A list of the integers from [k] on. *)
Fixpoint counts (k : Z) (l : list Z) : bool :=
  match l with
  | [] => true
  | z :: l => (z =? k) && counts (k + 1) l
  end.

Lemma counts_lookup k l i z : counts k l = true → l !! i = Some z → z = k + Z.of_nat i.
Proof.
  revert k i. induction l as [|y l IH]; intros k i; [done|]. simpl. intros E. breflect. destruct i as [|i]; simpl.
  - intros [= ->]. lia.
  - intros Hi. rewrite (IH (k + 1) i) by done. lia.
Qed.

Definition pair_eqb (p q : Z * Z) : bool := (fst p =? fst q) && (snd p =? snd q).

Definition sheets_ok (v : nat) : bool :=
  match drawFunctionPatterns (newMatrix v, newMatrix v) v with
  | Some (m0, fn) =>
      (size m0 =? side v) && (size fn =? side v) && same Bool.eqb (mods fn) (function_module v <$> modules v) &&
      (length (mods m0) =? length (modules v))%nat && (let ok := agrees v in forallb (λ '(p, b), ok p b) (zip (modules v) (mods m0)))
  | None => false
  end.

Definition walk_ok (v : nat) : bool :=
  let n := side v in
  counts 0 (rank n <$> modules v) && (Z.of_nat (length (modules v)) =? n * n) && forallb (inside_b n) (modules v) &&
  same pair_eqb (visits n) (concat (imap (strip v) (columns v))) &&
  counts 0 (step_rank n <$> visits n) && forallb (inside_b n) (visits n).

Definition count_ok (v : nat) : bool :=
  match versions !! v, remainderBits !! v with
  | Some c, Some r => (length (data_modules v) =? totalCodewords c * 8 + r)%nat && (0 <? totalCodewords c)%nat
  | _, _ => false
  end.

(** The word the writes leave at these places. *)
Definition reads_word (W : list (Z * Z * bool)) (l : list (Z * Z)) (word : Z) : bool :=
  forallb (λ p, match last_write W p with Some _ => true | None => false end) l &&
  (from_low ((λ p, default false (last_write W p)) <$> l) =? word).

Definition info_ok (v n : nat) : bool :=
  let W := info_writes v (Z.of_nat n) ++ info_writes v (Z.of_nat n) in
  let is_function := function_module v in
  let ok := agrees v in
  forallb (λ w, inside_b (side v) (fst w) && is_function (fst w) && ok (fst w) (snd w)) W &&
  reads_word W format_one (nth n format_words 0) && reads_word W (format_two v) (nth n format_words 0) &&
  ((v <? 7)%nat || reads_word W (version_one v) (version_word v) && reads_word W (version_two v) (version_word v)) &&
  bool_decide (fst <$> List.find (λ '(_, w), w =? nth n format_words 0) (imap pair format_words) = Some n).

Lemma sheets_all : forallb sheets_ok (seq 1 12) = true.
Proof. vm_compute. reflexivity. Qed.
Lemma walk_all : forallb walk_ok (seq 1 12) = true.
Proof. vm_compute. reflexivity. Qed.
Lemma count_all : forallb count_ok (seq 1 12) = true.
Proof. vm_compute. reflexivity. Qed.
Lemma info_all : forallb (λ v, forallb (info_ok v) (seq 0 8)) (seq 1 12) = true.
Proof. vm_compute. reflexivity. Qed.

(** ** What the checks give *)

Section Version.
Context (v : nat) (Hv : v ∈ seq 1 12).

Lemma all_versions (f : nat → bool) : forallb f (seq 1 12) = true → f v = true.
Proof. intros Hf. rewrite forallb_forall in Hf. by apply Hf, list_elem_of_In. Qed.

Lemma inside_b_spec n p : inside_b n p = true → inside n p.
Proof. unfold inside_b, inside. intros E. breflect. lia. Qed.

Lemma pair_eqb_eq p q : pair_eqb p q = true → p = q.
Proof. destruct p, q. unfold pair_eqb. simpl. intros E. breflect. by subst. Qed.

Lemma walk_facts :
  (∀ i p, modules v !! i = Some p → rank (side v) p = Z.of_nat i) ∧ Z.of_nat (length (modules v)) = side v * side v ∧
  Forall (inside (side v)) (modules v) ∧ visits (side v) = concat (imap (strip v) (columns v)) ∧
  NoDup (visits (side v)) ∧ Forall (inside (side v)) (visits (side v)).
Proof.
  pose proof (all_versions _ walk_all) as Hw. unfold walk_ok in Hw. cbv zeta in Hw. rewrite !andb_true_iff in Hw.
  destruct Hw as (((((H1 & H2) & H3) & H4) & H5) & H6). split_and!.
  - intros i p Hi. rewrite (counts_lookup 0 (rank (side v) <$> modules v) i (rank (side v) p) H1); [lia|].
    by rewrite list_lookup_fmap, Hi.
  - by apply Z.eqb_eq.
  - apply Forall_forall. intros p Hp. rewrite forallb_forall in H3. apply inside_b_spec, H3. by apply list_elem_of_In.
  - exact (same_eq pair_eqb _ _ pair_eqb_eq H4).
  - apply (NoDup_fmap_1 (step_rank (side v))). apply NoDup_alt. intros i j z Hi Hj.
    apply (counts_lookup 0 _ _ _ H5) in Hi. apply (counts_lookup 0 _ _ _ H5) in Hj. lia.
  - apply Forall_forall. intros p Hp. rewrite forallb_forall in H6. apply inside_b_spec, H6. by apply list_elem_of_In.
Qed.

Lemma modules_lookup p : inside (side v) p → modules v !! Z.to_nat (rank (side v) p) = Some p.
Proof.
  intros Hp. destruct walk_facts as (Hr & Hl & Hin & _). pose proof (rank_bound _ _ Hp) as Hb.
  destruct (proj2 (lookup_lt_is_Some (modules v) (Z.to_nat (rank (side v) p)))) as [q Hq]; [lia|]. rewrite Hq. f_equal.
  pose proof (proj1 (Forall_forall _ _) Hin q ltac:(apply list_elem_of_lookup; eauto)) as Hiq.
  apply (rank_inj (side v)); [done..|]. rewrite (Hr _ _ Hq). lia.
Qed.

Lemma side_nonneg : 0 ≤ side v.
Proof. unfold side. lia. Qed.

(** The drawn patterns are the standard's. *)
Lemma sheets_facts : ∃ m0 fn, drawFunctionPatterns (newMatrix v, newMatrix v) v = Some (m0, fn) ∧
  wf m0 ∧ size m0 = side v ∧ size fn = side v ∧
  (∀ p, inside (side v) p → at_ fn p = function_module v p) ∧
  (∀ p b, inside (side v) p → pattern v p = Some b → at_ m0 p = b).
Proof.
  pose proof (all_versions _ sheets_all) as Hs. unfold sheets_ok in Hs.
  destruct (drawFunctionPatterns _ _) as [[m0 fn]|]; [|done]. cbv zeta in Hs. rewrite !andb_true_iff in Hs.
  destruct Hs as ((((H1 & H2) & H3) & H4) & H5). apply Z.eqb_eq in H1, H2. apply Nat.eqb_eq in H4.
  apply same_eq in H3; [|by intros [] []]. destruct walk_facts as (_ & Hlen & _). exists m0, fn.
  split_and!; [done|split; [rewrite H1; apply side_nonneg|rewrite H4, H1; done]|done|done| |].
  - intros p Hp. rewrite at_inside by (by rewrite H2). rewrite H2, H3. apply nth_lookup_Some.
    by rewrite list_lookup_fmap, modules_lookup.
  - intros p b Hp Hb. rewrite at_inside by (by rewrite H1). rewrite H1. rewrite forallb_forall in H5.
    pose proof (modules_lookup p Hp) as Hm. destruct (mods m0 !! Z.to_nat (rank (side v) p)) as [c|] eqn:Ec.
    2:{ apply lookup_ge_None in Ec. apply lookup_lt_Some in Hm. lia. }
    rewrite (nth_lookup_Some _ _ false _ Ec). specialize (H5 (p, c)). cbv beta iota in H5. unfold agrees in H5. cbv zeta in H5.
    rewrite Hb in H5. apply Bool.eqb_prop, H5.
    apply list_elem_of_In, list_elem_of_lookup. exists (Z.to_nat (rank (side v) p)). by rewrite lookup_zip_with, Hm, Ec.
Qed.

Lemma count_facts c r : versions !! v = Some c → remainderBits !! v = Some r →
  length (data_modules v) = (totalCodewords c * 8 + r)%nat ∧ (0 < totalCodewords c)%nat.
Proof. intros Hc Hr. pose proof (all_versions _ count_all) as Hk. unfold count_ok in Hk. rewrite Hc, Hr in Hk. by breflect. Qed.

Lemma data_modules_eq : data_modules v = List.filter (λ p, negb (function_module v p)) (visits (side v)).
Proof. destruct walk_facts as (_ & _ & _ & -> & _). done. Qed.

Lemma info_facts n : (n < 8)%nat →
  let W := info_writes v (Z.of_nat n) ++ info_writes v (Z.of_nat n) in
  Forall (λ w, inside (side v) (fst w) ∧ function_module v (fst w) = true ∧ agrees v (fst w) (snd w) = true) W ∧
  reads_word W format_one (nth n format_words 0) = true ∧ reads_word W (format_two v) (nth n format_words 0) = true ∧
  ((v < 7)%nat ∨ reads_word W (version_one v) (version_word v) = true ∧ reads_word W (version_two v) (version_word v) = true) ∧
  fst <$> List.find (λ '(_, w), w =? nth n format_words 0) (imap pair format_words) = Some n.
Proof.
  intros Hn. pose proof (nat_all _ 8 (all_versions _ info_all) n Hn) as Hi. unfold info_ok in Hi. cbv zeta in *.
  rewrite !andb_true_iff in Hi. destruct Hi as ((((H1 & H2) & H3) & H4) & H5). split_and!; [|done|done| |].
  - apply Forall_forall. intros w Hw. rewrite forallb_forall in H1. specialize (H1 w ltac:(by apply list_elem_of_In)).
    rewrite !andb_true_iff in H1. destruct H1 as ((? & ?) & ?). auto using inside_b_spec.
  - apply orb_true_iff in H4 as [H4|H4]; [left; by apply Nat.ltb_lt|right]. by apply andb_true_iff in H4.
  - by apply bool_decide_eq_true in H5.
Qed.
End Version.

(** ** Choosing the mask *)

Lemma sum_nonneg l : Forall (λ z, 0 ≤ z) l → 0 ≤ sum l.
Proof. unfold sum. induction 1; simpl; lia. Qed.

Lemma sum_fmap_nonneg {A} (f : A → Z) l : (∀ a, 0 ≤ f a) → 0 ≤ sum (f <$> l).
Proof. intros Hf. apply sum_nonneg, Forall_fmap, Forall_forall. intros a _. apply Hf. Qed.

Lemma run_penalty_nonneg run : 0 ≤ run_penalty run.
Proof. unfold run_penalty, penaltyRunStart, penaltyRun. destruct (_ <=? _) eqn:E; breflect; lia. Qed.

Lemma scan_line_nonneg n get : 0 ≤ scan_line n get.
Proof.
  unfold scan_line. assert (∀ l run total_, 0 ≤ total_ → 0 ≤ snd (foldl (λ '(run, total_) b,
    if Bool.eqb (get b) (get (b - 1)) then (run + 1, total_) else (1, total_ + run_penalty run)) (run, total_) l)) as Hl.
  { induction l as [|b l IH]; intros run total_ Ht; simpl; [done|]. destruct (Bool.eqb _ _); apply IH; [done|].
    pose proof (run_penalty_nonneg run). lia. }
  specialize (Hl (span 1 n) 1 0 ltac:(lia)). destruct (foldl _ _ _) as [run total_]. simpl in Hl. pose proof (run_penalty_nonneg run). lia.
Qed.

Lemma penalty_nonneg m : 0 ≤ penalty m.
Proof.
  assert (0 ≤ penaltyRuns m) by (apply Z.add_nonneg_nonneg; apply sum_fmap_nonneg; intros; apply scan_line_nonneg).
  assert (0 ≤ penaltyBlocks m).
  { apply sum_fmap_nonneg. intros y. apply sum_fmap_nonneg. intros x. cbv zeta. unfold penaltyBlock. destruct (_ && _); lia. }
  assert (0 ≤ penaltyFinderLike m).
  { assert (∀ n get, 0 ≤ check_line n get) as Hc.
    { intros n get. apply sum_fmap_nonneg. intros b. apply sum_fmap_nonneg. intros w. unfold penaltyFinder. destruct (forallb _ _); lia. }
    apply Z.add_nonneg_nonneg; apply sum_fmap_nonneg; intros; apply Hc. }
  assert (0 ≤ penaltyDarkRatio m).
  { unfold penaltyDarkRatio, penaltyBalance. cbv zeta. apply Z.mul_nonneg_nonneg; [|lia]. apply Z.quot_pos; lia. }
  unfold penalty. lia.
Qed.

(** The best of the candidates seen so far. *)
Definition best_of (m fn : Matrix) (v : nat) (l : list Z) (best : option (Matrix * Z * Z)) : Prop :=
  match best with
  | None => l = []
  | Some (cand, s, n) => n ∈ l ∧ candidate m fn v n = Some cand ∧ s = penalty cand ∧
      ∀ n' cand', n' ∈ l → candidate m fn v n' = Some cand' → s ≤ penalty cand'
  end.

Lemma choose_loop m fn v done_ l best :
  Forall (λ n, is_Some (candidate m fn v n)) l → best_of m fn v done_ best →
  ∃ best', loop (λ best n, cand ← candidate m fn v n; Some (better best cand n)) l best = Some best' ∧
    best_of m fn v (done_ ++ l) best'.
Proof.
  intros Hl. revert done_ best. induction Hl as [|n l [cand Ec] Hl IH]; intros done_ best Hb; simpl.
  { exists best. by rewrite app_nil_r. }
  rewrite Ec. cbn. rewrite cons_middle, app_assoc. apply IH. unfold better. cbv zeta.
  destruct best as [[[c0 s0] n0]|]; simpl in Hb |- *.
  - destruct Hb as (Hin & Hc0 & -> & Hmin). pose proof (penalty_nonneg c0). rewrite (proj2 (Z.ltb_ge _ _)) by lia. simpl.
    destruct (penalty cand <? penalty c0) eqn:Es; breflect; simpl.
    + split_and!; [set_solver|done|done|]. intros n' cand' Hn' Hc'. apply elem_of_app in Hn' as [Hn'|Hn'].
      * specialize (Hmin n' cand' Hn' Hc'). lia.
      * apply list_elem_of_singleton in Hn' as ->. simplify_eq. lia.
    + split_and!; [set_solver|done|done|]. intros n' cand' Hn' Hc'. apply elem_of_app in Hn' as [Hn'|Hn']; [by eapply Hmin|].
      apply list_elem_of_singleton in Hn' as ->. simplify_eq. lia.
  - subst done_. split_and!; [set_solver|done|done|]. intros n' cand' Hn' Hc'. apply list_elem_of_singleton in Hn' as ->. simplify_eq. lia.
Qed.

(** The mask chosen is one of the eight, and none of the others costs less. *)
Lemma chooseMask_spec m fn v : Forall (λ n, is_Some (candidate m fn v n)) (span 0 8) →
  ∃ n cand, 0 ≤ n < 8 ∧ chooseMask m fn v = Some (cand, n) ∧ candidate m fn v n = Some cand ∧
    ∀ n' cand', 0 ≤ n' < 8 → candidate m fn v n' = Some cand' → penalty cand ≤ penalty cand'.
Proof.
  intros Hc. destruct (choose_loop m fn v [] (span 0 8) None Hc eq_refl) as (best & E & Hb). simpl in Hb.
  destruct best as [[[cand s] n]|]; [|done]. destruct Hb as (Hin & Hcand & -> & Hmin). exists n, cand.
  assert (∀ z, z ∈ span 0 8 ↔ 0 ≤ z < 8) as Hspan by (intros z; unfold span; rewrite elem_of_seqZ; lia).
  split_and!; [by apply Hspan..| |done|].
  - unfold chooseMask. rewrite E. done.
  - intros n' cand' Hn'. apply Hmin. by apply Hspan.
Qed.

(** ** The codewords in the symbol *)

Lemma bits_lookup cws k : (cws ≫= byte_bits) !! k = codeword_bit cws k.
Proof.
  revert k. induction cws as [|c cws IH]; intros k; [by destruct k|]. cbn [mbind list_bind].
  assert (length (byte_bits c) = 8%nat) as El by reflexivity. unfold codeword_bit.
  destruct (decide (k < 8)%nat) as [Hk|Hk].
  - rewrite lookup_app_l by lia. rewrite Nat.div_small, Nat.mod_small by done. cbn. unfold byte_bits, value_bits.
    do 8 (destruct k as [|k]; [done|]). lia.
  - rewrite lookup_app_r by lia. rewrite El, IH. unfold codeword_bit. destruct (next_byte k ltac:(lia)) as [-> ->]. done.
Qed.

Lemma data_bits cws r : data_bit cws <$> seq 0 (length cws * 8 + r) = (cws ≫= byte_bits) ++ replicate r false.
Proof.
  apply list_eq. intros k. rewrite list_lookup_fmap. pose proof (length_byte_bits cws) as El.
  destruct (decide (k < length cws * 8)%nat) as [Hk|Hk].
  - rewrite lookup_seq_lt, lookup_app_l by lia. simpl. rewrite bits_lookup. unfold data_bit. rewrite (proj2 (Nat.ltb_lt _ _)) by done.
    rewrite <- bits_lookup. destruct (proj2 (lookup_lt_is_Some (cws ≫= byte_bits) k)) as [b ->]; [lia|done].
  - rewrite lookup_app_r by lia. destruct (decide (k < length cws * 8 + r)%nat) as [Hr|Hr].
    + rewrite lookup_seq_lt, lookup_replicate_2 by lia. simpl. unfold data_bit. by rewrite (proj2 (Nat.ltb_ge _ _)) by lia.
    + rewrite lookup_seq_ge by lia. symmetry. apply lookup_ge_None. rewrite length_replicate. lia.
Qed.

(** ** The whole symbol *)

Lemma last_write_app l1 l2 p : last_write (l1 ++ l2) p = match last_write l2 p with Some b => Some b | None => last_write l1 p end.
Proof.
  induction l2 as [|w l2 IH] using rev_ind; [by rewrite app_nil_r|]. rewrite app_assoc, !last_write_snoc.
  destruct (_ && _); [done|exact IH].
Qed.

Lemma last_write_in l p b : last_write l p = Some b → (p, b) ∈ l.
Proof.
  induction l as [|[[x y] c] l IH] using rev_ind; [done|]. rewrite last_write_snoc. simpl. destruct (_ && _) eqn:E.
  - intros [= ->]. breflect. destruct p as [x' y']. simpl in *. subst. set_solver.
  - intros H. apply IH in H. set_solver.
Qed.

Lemma maskFn_mask_at n p : (n < 8)%nat → maskFn (Z.of_nat n) (fst p) (snd p) = mask_at n p.
Proof.
  intros Hn. destruct p as [x y]. unfold mask_at.
  do 8 (destruct n as [|n]; [cbn -[Z.even Z.modulo Z.div Z.add Z.mul]; by rewrite ?Zeven_mod|]). lia.
Qed.

Section Symbol.
Context (v : nat) (Hv : v ∈ seq 1 12).

Lemma draw_info_spec n m : (n < 8)%nat → wf m → size m = side v →
  ∃ m', draw_info v (Z.of_nat n) m = Some m' ∧ wf m' ∧ size m' = side v ∧
    ∀ p, at_ m' p = default (at_ m p) (last_write (info_writes v (Z.of_nat n)) p).
Proof.
  intros Hn Hm Hs. destruct (info_facts v Hv n Hn) as [Hw _]. apply Forall_app in Hw as [Hw _].
  assert (Forall (λ w, inside (size m) (fst w)) (info_writes v (Z.of_nat n))) as Hin.
  { rewrite Hs. eapply Forall_impl; [exact Hw|]. by intros w (? & _). }
  destruct (write_all_spec (info_writes v (Z.of_nat n)) m Hm Hin) as (m' & E & Hm' & Hs' & Ha). exists m'.
  split_and!; [|done|congruence|done]. rewrite <- E. unfold info_writes, draw_info. rewrite drawFormat_writes, Hs.
  unfold info_writes in Hin. rewrite write_app. apply Forall_app in Hin as [Hin _].
  destruct (write_all_spec _ m Hm Hin) as (m1 & E1 & _ & Hs1 & _). rewrite E1. cbn [mbind option_bind].
  destruct (7 <=? v)%nat; [|done]. by rewrite drawVersion_writes, Hs1, Hs.
Qed.

(** A candidate: the masked data, under the information. *)
Lemma candidate_spec n m fn : (n < 8)%nat → wf m → size m = side v → (∀ p, inside (side v) p → at_ fn p = function_module v p) →
  ∃ cand, candidate m fn v (Z.of_nat n) = Some cand ∧ wf cand ∧ size cand = side v ∧
    ∀ p, inside (side v) p → at_ cand p =
      default (if function_module v p then at_ m p else xorb (at_ m p) (mask_at n p)) (last_write (info_writes v (Z.of_nat n)) p).
Proof.
  intros Hn Hm Hs Hfn. destruct (walk_facts v Hv) as (Hrank & _ & Hmod & _).
  assert (NoDup (modules v)) as Hnd.
  { apply NoDup_alt. intros i j p Hi Hj. apply Hrank in Hi, Hj. lia. }
  destruct (point_loop (λ p, negb (at_ fn p) && maskFn (Z.of_nat n) (fst p) (snd p)) (λ _, negb) (modules v) m Hm Hnd)
    as (m1 & E1 & Hm1 & Hs1 & Hin1 & _); [by rewrite Hs|].
  destruct (draw_info_spec n m1 Hn Hm1) as (cand & E2 & Hc & Hsc & Ha); [congruence|]. exists cand. split_and!; [|done|done|].
  - unfold candidate. rewrite (apply_mask_loop _ _ _ v Hs), E1. exact E2.
  - intros p Hp. rewrite Ha. f_equal. rewrite Hin1 by (apply list_elem_of_lookup; eexists; by apply modules_lookup).
    rewrite Hfn, maskFn_mask_at by done. destruct (function_module v p); [done|]. simpl. destruct (mask_at n p); [by rewrite xorb_true_r|by rewrite xorb_false_r].
Qed.

Lemma word_read W m l word : reads_word W l word = true → (∀ p b, last_write W p = Some b → at_ m p = b) → from_low (at_ m <$> l) = word.
Proof.
  unfold reads_word. intros Hw Hm. apply andb_true_iff in Hw as [Hl Hw]. apply Z.eqb_eq in Hw. rewrite <- Hw. f_equal. clear Hw.
  induction l as [|p l IH]; [done|]. simpl in Hl. apply andb_true_iff in Hl as [Hp Hl]. cbn. f_equal; [|by apply IH].
  destruct (last_write W p) as [b|] eqn:E; [|done]. by apply Hm.
Qed.

Lemma information_reads m n W : (n < 8)%nat → W = info_writes v (Z.of_nat n) ++ info_writes v (Z.of_nat n) →
  (∀ p b, last_write W p = Some b → at_ m p = b) → read_format v m = Some n ∧ version_right v m = true.
Proof.
  intros Hn -> Hm. destruct (info_facts v Hv n Hn) as (_ & H1 & H2 & H3 & H4). cbv zeta in *. split.
  - unfold read_format. cbv zeta. rewrite (word_read _ m _ _ H1 Hm), (word_read _ m _ _ H2 Hm), Z.eqb_refl. exact H4.
  - unfold version_right. destruct H3 as [H3|[H3 H3']]; [by rewrite (proj2 (Nat.ltb_lt _ _))|].
    rewrite (word_read _ m _ _ H3 Hm), (word_read _ m _ _ H3' Hm), Z.eqb_refl. by rewrite orb_true_r.
Qed.

Lemma version_of_side : Z.to_nat ((side v - 17) / 4) = v.
Proof. unfold side. replace (17 + 4 * Z.of_nat v - 17) with (Z.of_nat v * 4) by lia. rewrite Z.div_mul by lia. lia. Qed.

(** A symbol with these modules is read as its codewords. *)
Lemma scan_symbol m n c cws r m0 :
  versions !! v = Some c → remainderBits !! v = Some r → (n < 8)%nat → size m = side v → bytes_ok cws → length cws = totalCodewords c →
  (∀ p b, inside (side v) p → pattern v p = Some b → at_ m0 p = b) →
  at_ m0 <$> data_modules v = (cws ≫= byte_bits) ++ replicate r false →
  (∀ p, inside (side v) p → at_ m p = default (if function_module v p then at_ m0 p else xorb (at_ m0 p) (mask_at n p))
     (last_write (info_writes v (Z.of_nat n) ++ info_writes v (Z.of_nat n)) p)) →
  scan m = read_codewords v (block_lengths c) (correction_lengths c) cws.
Proof.
  intros Hc Hrem Hn Hs Hb Hl Hpat Hdata Ha. destruct (info_facts v Hv n Hn) as (HW & _). cbv zeta in HW.
  set (W := info_writes v (Z.of_nat n) ++ info_writes v (Z.of_nat n)) in *. rewrite Forall_forall in HW.
  destruct (information_reads m n W Hn eq_refl) as [Hfmt Hver].
  { intros p b Hp. destruct (HW _ (last_write_in _ _ _ Hp)) as (Hin & _). by rewrite Ha, Hp. }
  assert (1 ≤ v)%nat as Hv1 by (apply elem_of_seq in Hv; lia). destruct (versions_standard v c Hc Hv1) as (t & Et & -> & ->).
  unfold scan. rewrite Hs, version_of_side. cbv zeta. rewrite Et. cbn [mbind option_bind].
  rewrite (proj2 (Nat.eqb_neq v 0)), Z.eqb_refl, Hver, Hfmt by lia.
  assert (patterns_right v m = true) as ->.
  { unfold patterns_right. cbv zeta. apply forallb_forall. intros p Hp. apply list_elem_of_In in Hp.
    destruct (walk_facts v Hv) as (_ & _ & Hmod & _). rewrite Forall_forall in Hmod. specialize (Hmod p Hp).
    destruct (pattern v p) as [b|] eqn:Eb; [|done]. rewrite Ha by done.
    assert (function_module v p = true) as -> by (unfold function_module; cbv zeta; by rewrite Eb).
    destruct (last_write W p) as [b'|] eqn:Ew; simpl.
    - destruct (HW _ (last_write_in _ _ _ Ew)) as (_ & _ & Hag). unfold agrees in Hag. simpl in Hag. by rewrite Eb in Hag.
    - rewrite (Hpat p b) by done. apply Bool.eqb_reflx. }
  cbn [negb orb mbind option_bind]. f_equal.
  assert ((λ p, xorb (at_ m p) (mask_at n p)) <$> data_modules v = at_ m0 <$> data_modules v) as ->.
  { apply list_fmap_ext. intros i p Hi. apply list_elem_of_lookup_2 in Hi. rewrite data_modules_eq in Hi by done.
    apply list_elem_of_In, filter_In in Hi as [Hvis Hnf]. apply negb_true_iff in Hnf. apply list_elem_of_In in Hvis.
    destruct (walk_facts v Hv) as (_ & _ & _ & _ & _ & Hvin). rewrite Forall_forall in Hvin. rewrite Ha, Hnf by (by apply Hvin).
    destruct (last_write W p) as [b'|] eqn:Ew; simpl.
    - destruct (HW _ (last_write_in _ _ _ Ew)) as (_ & Hf & _). simpl in Hf. congruence.
    - by rewrite xorb_assoc, xorb_nilpotent, xorb_false_r. }
  destruct (count_facts v Hv c r Hc Hrem) as [Hcnt _]. rewrite Hdata.
  assert (length ((cws ≫= byte_bits) ++ replicate r false) = totalCodewords c * 8 + r)%nat as -> by (by rewrite <- Hdata, length_fmap).
  assert (r < 8)%nat as Hr8.
  { assert (forallb (λ r, (r <? 8)%nat) remainderBits = true) as Hall by (vm_compute; reflexivity). rewrite forallb_forall in Hall.
    apply Nat.ltb_lt, Hall, list_elem_of_In. by eapply list_elem_of_lookup_2. }
  rewrite Nat.div_add_l, (Nat.div_small r 8), Nat.add_0_r, <- Hl by lia. by apply to_bytes_bits.
Qed.

(** The smallest version holds what was asked of it. *)
Lemma capacity_fits c n : Z.of_nat n <= byteCapacity c v → (4 + countBits v + 8 * n ≤ 8 * dataCodewords c)%nat ∨ n = 0%nat.
Proof.
  unfold byteCapacity. intros Hn. destruct (decide (n = 0%nat)) as [|Hz]; [by right|left].
  destruct (decide (0 ≤ Z.of_nat (dataCodewords c) * 8 - 4 - Z.of_nat (countBits v))) as [Hp|Hp].
  - rewrite Z.quot_div_nonneg in Hn by lia. pose proof (Z.mul_div_le (Z.of_nat (dataCodewords c) * 8 - 4 - Z.of_nat (countBits v)) 8). lia.
  - assert (Z.quot (Z.of_nat (dataCodewords c) * 8 - 4 - Z.of_nat (countBits v)) 8 <= 0); [|lia].
    rewrite <- (Z.opp_involutive (Z.of_nat (dataCodewords c) * 8 - 4 - Z.of_nat (countBits v))), Z.quot_opp_l by lia.
    pose proof (Z.quot_pos (- (Z.of_nat (dataCodewords c) * 8 - 4 - Z.of_nat (countBits v))) 8). lia.
Qed.

Lemma count_small c : versions !! v = Some c → byteCapacity c v < 2 ^ Z.of_nat (countBits v).
Proof.
  intros Hc. assert (forallb (λ v, match versions !! v with Some c => byteCapacity c v <? 2 ^ Z.of_nat (countBits v) | None => true end)
    (seq 1 12) = true) as Hall by (vm_compute; reflexivity).
  apply (all_versions v Hv) in Hall. rewrite Hc in Hall. by breflect.
Qed.
End Symbol.

Lemma build_scans v c data : v ∈ seq 1 12 → versions !! v = Some c → bytes_ok data → data ≠ [] →
  Z.of_nat (length data) <= byteCapacity c v → ∃ m, build data v = Some m ∧ scan m = Some data.
Proof.
  intros Hv Hc Hd Hne Hcap. assert (1 ≤ v ∧ v < 13)%nat as Hv1 by (apply elem_of_seq in Hv; lia).
  destruct (capacity_fits v c (length data) Hcap) as [Hfit|Hz]; [|by apply nil_length_inv in Hz].
  destruct (encodeData_stream data v (dataCodewords c) Hd Hfit) as (Hsb & Hsl & rest & Ebits).
  destruct (interleave_reads v c _ _ Hc (proj1 Hv1) Hsb Hsl Ebits) as (cws & Ei & Hcb & Hcl & Hread).
  rewrite (read_bits_header v data rest Hd (proj1 Hv1)) in Hread by (pose proof (count_small v Hv c Hc); lia).
  destruct (sheets_facts v Hv) as (m0 & fn & Ef & Hm0 & Hs0 & Hsfn & Hfn & Hpat).
  destruct (walk_facts v Hv) as (_ & _ & _ & _ & Hnd & Hvin).
  assert (∃ r, remainderBits !! v = Some r) as [r Er] by (apply lookup_lt_is_Some; simpl; lia).
  destruct (count_facts v Hv c r Hc Er) as [Hcnt Hpos].
  assert (List.filter (λ p, negb (at_ fn p)) (visits (side v)) = data_modules v) as Efree.
  { rewrite data_modules_eq by done. apply List.filter_ext_in. intros p Hp. apply list_elem_of_In in Hp.
    rewrite Forall_forall in Hvin. by rewrite Hfn by (by apply Hvin). }
  destruct (placeData_spec m0 fn cws r Hm0) as (m1 & E1 & Hm1 & Hs1 & Hin1 & Hout1);
    [by rewrite Hs0|by rewrite Hs0|rewrite Hs0, Efree; lia|rewrite Hs0, Efree; intros E; rewrite E in Hcnt; simpl in Hcnt; lia|].
  rewrite Hs0, Efree in Hin1, Hout1. rewrite Hcnt, <- Hcl, data_bits in Hin1.
  destruct (chooseMask_spec m1 fn v) as (n & cand & Hn & Ech & Ecand & _).
  { apply Forall_forall. intros n Hn. unfold span in Hn. apply elem_of_seqZ in Hn.
    destruct (candidate_spec v Hv (Z.to_nat n) m1 fn) as (cand & E & _); [lia|done|congruence|done|]. rewrite Z2Nat.id in E by lia. eauto. }
  destruct (candidate_spec v Hv (Z.to_nat n) m1 fn) as (cand' & E' & Hwc & Hsc & Hac); [lia|done|congruence|done|].
  rewrite Z2Nat.id in E' by lia. rewrite Ecand in E'. injection E' as <-.
  destruct (draw_info_spec v Hv (Z.to_nat n) cand) as (m2 & E2 & Hm2 & Hs2 & Ha2); [lia|done|done|].
  exists m2. split.
  - unfold build. rewrite Hc. cbn [mbind option_bind]. rewrite Ei. cbn [mbind option_bind]. rewrite Ef. cbn [mbind option_bind].
    rewrite Er. cbn [mbind option_bind]. rewrite E1. cbn [mbind option_bind]. rewrite Ech. cbn [mbind option_bind].
    rewrite Z2Nat.id in E2 by lia. exact E2.
  - rewrite (scan_symbol v Hv m2 (Z.to_nat n) c cws r m1); [exact Hread|done|done|lia|done|done|done| |done|].
    + intros p b Hp Hb. rewrite Hout1; [by apply Hpat|]. rewrite data_modules_eq by done. rewrite list_elem_of_In, filter_In.
      unfold function_module. cbv zeta. rewrite Hb. by intros [_ ?].
    + intros p Hp. rewrite Ha2, Hac, last_write_app by done. by destruct (last_write _ p).
Qed.

Lemma choose_from_spec vs n : Forall (λ v, is_Some (versions !! v)) vs →
  match choose_from vs n with
  | Some (Ok v) => v ∈ vs ∧ ∃ c, versions !! v = Some c ∧ n <= byteCapacity c v
  | Some (Err e) => e = ErrTooLong ∧ Forall (λ v, ∀ c, versions !! v = Some c → byteCapacity c v < n) vs
  | None => False
  end.
Proof.
  induction 1 as [|v vs [c Hc] Hvs IH]; [by simpl|]. cbn [choose_from]. rewrite Hc. cbn [mbind option_bind].
  destruct (n <=? byteCapacity c v) eqn:E; breflect; [split; [set_solver|eauto]|].
  destruct (choose_from vs n) as [[v'|e]|]; [|split|done].
  - destruct IH as [? ?]. split; [set_solver|done].
  - by destruct IH.
  - constructor; [|by destruct IH]. intros c' Hc'. simplify_eq. lia.
Qed.

Lemma symbol_scans data : bytes_ok data →
  match Encode data with
  | Some (Ok m) => (0 < length data ≤ 287)%nat ∧ scan m = Some data
  | Some (Err ErrEmpty) => data = []
  | Some (Err ErrTooLong) => (287 < length data)%nat
  | None => False
  end.
Proof.
  intros Hd. unfold Encode. destruct (length data =? 0)%nat eqn:E0; breflect; [by apply nil_length_inv|].
  unfold chooseVersion. pose proof (choose_from_spec (seq 1 maxVersion) (Z.of_nat (length data))) as Hch.
  specialize (Hch ltac:(by repeat constructor)). destruct (choose_from _ _) as [[v|e]|]; [| |done]; cbn [mbind option_bind].
  - destruct Hch as (Hv & c & Hc & Hcap). destruct (build_scans v c data Hv Hc Hd) as (m & -> & Hs); [by intros ->|done|].
    cbn [mbind option_bind]. split; [|done].
    assert (forallb (λ v, match versions !! v with Some c => byteCapacity c v <=? 287 | None => true end) (seq 1 12) = true) as Hall
      by (vm_compute; reflexivity).
    apply (all_versions v Hv) in Hall. rewrite Hc in Hall. breflect. lia.
  - destruct Hch as [-> Hbig]. rewrite Forall_forall in Hbig. specialize (Hbig 12%nat ltac:(by apply elem_of_seq; unfold maxVersion; lia) _ eq_refl).
    replace (byteCapacity _ 12) with 287 in Hbig by (vm_compute; reflexivity). lia.
Qed.

(** C15. What the join code holds is what a scanner reads: whatever the bytes,
    Encode never panics; up to 287 of them it draws a symbol that a reader built
    from the standard, with the standard's tables of blocks and alignment patterns
    and none of the encoder's, takes, with every function pattern, both copies of the
    format and version information and every Reed-Solomon block right, and reads the
    same bytes from; it refuses none and more than 287, and nothing else. *)
Theorem encode_scans data : bytes_ok data →
  match Encode data with
  | Some (Ok m) => (0 < length data ≤ 287)%nat ∧ scan m = Some data
  | Some (Err ErrEmpty) => data = []
  | Some (Err ErrTooLong) => (287 < length data)%nat
  | None => False
  end.
Proof. apply symbol_scans. Qed.

Lemma encode_scans_witness : match Encode [72; 105] with
  | Some (Ok m) => (0 < 2 ≤ 287)%nat ∧ scan m = Some [72; 105]
  | Some (Err ErrEmpty) => [72; 105] = []
  | Some (Err ErrTooLong) => (287 < 2)%nat
  | None => False
  end.
Proof. apply (encode_scans [72; 105]). by repeat constructor. Defined.

(** * What a phone makes of the join code

    svg.go's WiFiJoin against a reader of WIFI: strings: fields separated by
    semicolons, a backslash takes the next character as it is, and a value in
    double quotes is text and not a key. *)

(** ** The reader *)

(** The characters of a value with whether each was escaped, up to the semicolon. *)
Fixpoint read_value (l : list ascii) : option (list (bool * ascii) * list ascii) :=
  match l with
  | [] => None
  | c :: l =>
      if Ascii.eqb c ";" then Some ([], l)
      else if Ascii.eqb c backslash then
        match l with
        | [] => None
        | d :: l => '(v, rest) ← read_value l; Some ((true, d) :: v, rest)
        end
      else '(v, rest) ← read_value l; Some ((false, c) :: v, rest)
  end.

Definition bare_quote (t : bool * ascii) : bool := negb (fst t) && Ascii.eqb (snd t) dquote.

(** The text of a value, without the quotes around it. *)
Definition unquote (ts : list (bool * ascii)) : list ascii :=
  match ts with
  | t :: rest =>
      if bare_quote t && match last rest with Some u => bare_quote u | None => false end
      then snd <$> take (length rest - 1) rest else snd <$> ts
  | [] => []
  end.

Definition strip_prefix (p : string) (l : list ascii) : option (list ascii) :=
  if bool_decide (take (length (to_l p)) l = to_l p) then Some (drop (length (to_l p)) l) else None.

(** Network name, passphrase and whether the network is hidden. *)
Definition read_join (l : list ascii) : option (list ascii * list ascii * bool) :=
  l ← strip_prefix "WIFI:T:WPA;S:" l;
  '(ssid, l) ← read_value l;
  l ← strip_prefix "P:" l;
  '(pass, l) ← read_value l;
  l ← strip_prefix "H:" l;
  '(hidden, l) ← read_value l;
  _ ← guard (l = [";"%char]);
  let h := snd <$> hidden in
  if bool_decide (h = to_l "true") then Some (unquote ssid, unquote pass, true)
  else if bool_decide (h = to_l "false") then Some (unquote ssid, unquote pass, false)
  else None.

(** ** Reading back *)

Lemma read_value_escaped s rest : read_value ((s ≫= escape_char) ++ ";"%char :: rest) = Some ((λ c, (special c, c)) <$> s, rest).
Proof.
  induction s as [|c s IH]; [done|]. cbn [mbind list_bind fmap list_fmap]. rewrite <- app_assoc. unfold escape_char at 1.
  destruct (special c) eqn:Ec.
  - cbn [app read_value]. change (Ascii.eqb backslash ";") with false. change (Ascii.eqb backslash backslash) with true.
    cbv iota. by rewrite IH.
  - unfold special in Ec. rewrite !orb_false_iff in Ec. destruct Ec as ((((E1 & E2) & _) & _) & _).
    cbn [app read_value]. rewrite E1, E2, IH. done.
Qed.

Lemma hex_plain c : hex_digit c = true → special c = false.
Proof. by destruct c as [[] [] [] [] [] [] [] []]. Qed.

Lemma hex_run_plain s : isHexRun s = true → (s ≫= escape_char) = s ∧ (λ c, (special c, c)) <$> s = pair false <$> s ∧ s ≠ [].
Proof.
  unfold isHexRun. intros E. apply andb_true_iff in E as [E Hn].
  split_and!; [| |by intros ->]; clear Hn; (induction s as [|c s IH]; [done|]); simpl in E; apply andb_true_iff in E as [Ec E];
    apply hex_plain in Ec.
  - cbn [mbind list_bind]. unfold escape_char at 1. rewrite Ec. simpl. by f_equal; apply IH.
  - cbn [fmap list_fmap]. rewrite Ec. by f_equal; apply IH.
Qed.

(** A value that was not quoted does not look quoted. *)
Lemma unquote_escaped s : unquote ((λ c, (special c, c)) <$> s) = s.
Proof.
  assert (∀ c, bare_quote (special c, c) = false) as Hb by by intros [[] [] [] [] [] [] [] []].
  destruct s as [|c s]; [done|]. cbn [fmap list_fmap unquote]. rewrite Hb. cbn [andb]. f_equal. clear. induction s as [|d s IH]; [done|].
  cbn. by f_equal.
Qed.

Lemma read_value_app s t rest vs : read_value (t ++ rest) = Some vs → Forall (λ c, special c = false) s →
  read_value (s ++ t ++ rest) = Some ((pair false <$> s) ++ fst vs, snd vs).
Proof.
  intros Ht Hs. induction Hs as [|c s Hc Hs IH]; [by rewrite app_nil_l, Ht; destruct vs|].
  unfold special in Hc. rewrite !orb_false_iff in Hc. destruct Hc as ((((E1 & E2) & _) & _) & _). cbn [app read_value].
  rewrite E2, E1, IH. done.
Qed.

(** Every value reads back, whatever it holds. *)
Lemma value_reads s rest : ∃ ts, read_value (escapeWiFi s ++ ";"%char :: rest) = Some (ts, rest) ∧ unquote ts = s.
Proof.
  unfold escapeWiFi. destruct s as [|c s']; [by exists []|]. set (s := c :: s'). cbv zeta. destruct (isHexRun s) eqn:Eh.
  - destruct (hex_run_plain s Eh) as (Ee & Et & Hne). rewrite Ee. exists ((false, dquote) :: (pair false <$> s) ++ [(false, dquote)]). split.
    + assert (read_value ([dquote] ++ ";"%char :: rest) = Some ([(false, dquote)], rest)) as Hq by done.
      rewrite <- app_assoc, <- app_assoc. cbn [app read_value]. change (Ascii.eqb dquote ";") with false.
      change (Ascii.eqb dquote backslash) with false. cbv iota.
      pose proof (read_value_app s [dquote] (";"%char :: rest) _ Hq) as Hr. cbn [app fst snd] in Hr. rewrite Hr; [done|].
      clear -Eh. unfold isHexRun in Eh. apply andb_true_iff in Eh as [Eh _]. rewrite forallb_forall in Eh. apply Forall_forall.
      intros d Hd. apply hex_plain, Eh. by apply list_elem_of_In.
    + cbn [unquote]. rewrite last_snoc. change (bare_quote (false, dquote)) with true. cbn [andb].
      rewrite length_app, length_fmap. simpl length. replace (S (length s') + 1 - 1)%nat with (length (pair (A := bool) (B := ascii) false <$> s)) by (rewrite length_fmap; simpl; lia).
      rewrite take_app_length. clear. induction s as [|d s IH]; [done|]. cbn. by f_equal.
  - exists ((λ c, (special c, c)) <$> s). rewrite app_nil_r. split; [apply read_value_escaped|apply unquote_escaped].
Qed.

Lemma strip_prefix_app p l : strip_prefix p (to_l p ++ l) = Some l.
Proof. unfold strip_prefix. rewrite take_app_length, drop_app_length. by rewrite bool_decide_eq_true_2. Qed.

(** The join string reads back as the network it was built for. *)
Lemma join_reads ssid pass hidden : read_join (WiFiJoin ssid pass hidden) = Some (ssid, pass, hidden).
Proof.
  unfold read_join, WiFiJoin. rewrite strip_prefix_app. cbn [mbind option_bind].
  set (tail_ := (to_l "H:" ++ to_l (if hidden then "true" else "false") ++ to_l ";;")%list).
  destruct (value_reads ssid (to_l "P:" ++ escapeWiFi pass ++ ";"%char :: tail_)) as (t1 & E1 & U1).
  destruct (value_reads pass tail_) as (t2 & E2 & U2).
  change (to_l ";P:" ++ escapeWiFi pass ++ to_l ";H:" ++ to_l (if hidden then "true" else "false") ++ to_l ";;")
    with (";"%char :: to_l "P:" ++ escapeWiFi pass ++ ";"%char :: tail_). rewrite E1. cbn [mbind option_bind].
  rewrite strip_prefix_app. cbn [mbind option_bind]. rewrite E2. cbn [mbind option_bind]. unfold tail_. rewrite strip_prefix_app.
  cbn [mbind option_bind]. destruct hidden; cbn; by rewrite U1, U2.
Qed.

(** ** The code on the page *)

Definition to_codes (l : list ascii) : list Z := (λ c, Z.of_nat (nat_of_ascii c)) <$> l.
Definition of_codes (l : list Z) : list ascii := (λ b, ascii_of_nat (Z.to_nat b)) <$> l.

Lemma of_to_codes l : of_codes (to_codes l) = l.
Proof.
  unfold of_codes, to_codes. rewrite <- list_fmap_compose. induction l as [|c l IH]; [done|]. cbn in *.
  by rewrite IH, Nat2Z.id, ascii_nat_embedding.
Qed.

Lemma to_codes_bytes l : bytes_ok (to_codes l).
Proof.
  apply Forall_fmap, Forall_forall. intros c _. unfold byte_ok. simpl. pose proof (nat_ascii_bounded c). lia.
Qed.

Lemma escape_length s : (length (escapeWiFi s) ≤ Nat.max (2 * length s) (length s + 2))%nat.
Proof.
  assert (∀ s, length (s ≫= escape_char) ≤ 2 * length s)%nat as Hl.
  { clear. induction s as [|c s IH]; [done|]. cbn [mbind list_bind]. rewrite length_app. unfold escape_char at 1. destruct (special c); simpl; lia. }
  unfold escapeWiFi. destruct s as [|c s']; [simpl; lia|]. set (s := c :: s'). cbv zeta. specialize (Hl s).
  destruct (isHexRun s) eqn:E.
  - destruct (hex_run_plain s E) as (-> & _). rewrite !length_app. simpl. lia.
  - rewrite !length_app. simpl length at 1 3. lia.
Qed.

Lemma join_length ssid pass hidden : (length ssid ≤ 32)%nat → (length pass ≤ 63)%nat → (0 < length (WiFiJoin ssid pass hidden) ≤ 216)%nat.
Proof.
  intros Hs Hp. pose proof (escape_length ssid). pose proof (escape_length pass). unfold WiFiJoin. rewrite !length_app.
  assert (length (to_l (if hidden then "true" else "false")) ≤ 5)%nat by (destruct hidden; simpl; lia). simpl length at 1 3 5 7.
  change (length (to_l "WIFI:T:WPA;S:")) with 13%nat. change (length (to_l ";P:")) with 3%nat. change (length (to_l ";H:")) with 3%nat.
  change (length (to_l ";;")) with 2%nat. lia.
Qed.

(** The code on the page joins the right network: for every network name of up
    to 32 bytes and passphrase of up to 63, whatever characters they hold, the code
    can be drawn, and a phone that scans it and reads the join string by its rules
    gets exactly that name, that passphrase and that visibility. *)
Theorem join_code_joins ssid pass hidden :
  (length ssid ≤ 32)%nat → (length pass ≤ 63)%nat →
  ∃ m, Encode (to_codes (WiFiJoin ssid pass hidden)) = Some (Ok m) ∧
    (codes ← scan m; read_join (of_codes codes)) = Some (ssid, pass, hidden).
Proof.
  intros Hs Hp. pose proof (join_length ssid pass hidden Hs Hp) as Hl.
  assert (length (to_codes (WiFiJoin ssid pass hidden)) = length (WiFiJoin ssid pass hidden)) as El by apply length_fmap.
  pose proof (symbol_scans _ (to_codes_bytes (WiFiJoin ssid pass hidden))) as He.
  destruct (Encode _) as [[m|[]]|]; [|rewrite He in El; simpl in El; lia|lia|done].
  exists m. split; [done|]. destruct He as [_ ->]. cbn [mbind option_bind]. rewrite of_to_codes. apply join_reads.
Qed.

Lemma join_code_joins_witness : ∃ m, Encode (to_codes (WiFiJoin (to_l "Caf;1") (to_l "deadbeef") false)) = Some (Ok m) ∧
  (codes ← scan m; read_join (of_codes codes)) = Some (to_l "Caf;1", to_l "deadbeef", false).
Proof. apply (join_code_joins (to_l "Caf;1") (to_l "deadbeef") false); simpl; lia. Defined.

(** ** Symbols another encoder drew *)

(** Two of the repository's fixtures, written by libqrencode: the reader takes
    them, so it is not made to fit this encoder. *)
Module Fixtures.

Definition of_rows (rows : list string) : Matrix :=
  MkMatrix (Z.of_nat (length rows)) (rows ≫= λ r, (λ c, Ascii.eqb c "#") <$> to_l r).

Definition hello : Matrix := of_rows
  ["#######.#..#..#######";
   "#.....#.####..#.....#";
   "#.###.#...#.#.#.###.#";
   "#.###.#.#.#.#.#.###.#";
   "#.###.#....#..#.###.#";
   "#.....#....##.#.....#";
   "#######.#.#.#.#######";
   "........#..##........";
   "#.##.###.#.##.#..#.##";
   ".##.##.#.######..##..";
   "#...#.#..#.#.......##";
   "#.##...#...#..####.#.";
   ".#.######...#..#..#.#";
   "........####..#...#.#";
   "#######.#..##..#.....";
   "#.....#.#.#....#####.";
   "#.###.#.....######.##";
   "#.###.#.#.##..#.####.";
   "#.###.#.##..#.##..#..";
   "#.....#...#..#.##...#";
   "#######.#.#..#.#....."].

Example hello_scans : scan hello = Some (to_codes (to_l "HELLO")).
Proof. vm_compute. reflexivity. Qed.

Definition wifi_long : Matrix := of_rows
  ["#######.##.#######..###...#.#.#..#..#.#######";
   "#.....#...#.#.#....#.#.#..#...#..#.#..#.....#";
   "#.###.#.#...#.##..###.#.##.#.###.#.#..#.###.#";
   "#.###.#..###...#.#..#.##..##...#.#.##.#.###.#";
   "#.###.#...####.#.#..#####.#.###.#.###.#.###.#";
   "#.....#.#.....###...#...#.#..##.......#.....#";
   "#######.#.#.#.#.#.#.#.#.#.#.#.#.#.#.#.#######";
   ".........###...#.#..#...###.#...#............";
   "#.#...##.#.##..#.##.######..#.#.####...#..#.#";
   "##.##..###.##.#.##.##...#..#.#.#.#.#.#..###..";
   "..#...#...#....#..###.#.##.###.####.#.##....#";
   "...#.#.####.#.#.##.###.##..##..#.#......##.##";
   "##.#####.##...#...##.#.##.###.#.#.##..#.#...#";
   "######.##...##.#######..##...#.###.#.#.#....#";
   "#.....#######.##.###..#.##.#.#.#.#.###.##.#.#";
   ".....#.#..#..#####.#...#....#......#....##.#.";
   "##########.##..##.#.#..##.#.#.#.#.#.#.#.##.##";
   ".#.###.#####.#.##.#.....##.#.#..##.#.#.#....#";
   "...#.##....###.#.###....##.##..#.#...#.##.#.#";
   "..###..###...#.#.#.#.#.#.#..#.#.#..#....##.#.";
   "#..#######.##.##..#.######..##..#.########.##";
   "#.#.#...##.##...#.#.#...##.#.#.#.#.##...#.#.#";
   "....#.#.#..##...#..##.#.##.###.###..#.#.#.#.#";
   "..#.#...#####.#...#.#...###.#...#...#...##.##";
   "..#.########.#.....######.#.#.#.#.#.#######.#";
   "#.#....#.#.##...#..####..#.#.#.#.....#.#...#.";
   "##.##.######.#...###.###.#.#.#.##..##.#.##..#";
   "#####.....#####.##..##.#.......###.##.####.##";
   ".##.#.#.#.###..###..#.#.#.#.#.####.#..#..#..#";
   "###....##.#.#.#...#...##.#.###...#..........#";
   ".#.#.###.#..###..###.##..#.#.#.#.#.####.#.#.#";
   "####.#.#####...#####.#.#....#..##..####.##.#.";
   "#..#######....#.#...#.###.#.#..##.##.###.#.##";
   "####.......##.##...##.####.#.#.###.#..##....#";
   "....#.#......###.###.#.#.#.##..###.#..#.#.#.#";
   ".####..#..#..##...#..###....#...#...#.#..#.#.";
   "#..##.##...##.###..######.#.#.#.#.########.##";
   "........#.####.####.#...##.#.#.#.#..#...##.##";
   "#######.#.....####..#.#.##.###.###..#.#.##..#";
   "#.....#...####.#.#.##...##..#...#.#.#...##...";
   "#.###.#.....#.##..#######...#.#.#...#######.#";
   "#.###.#..##....#..##...#.#...#.#.#..#...#.###";
   "#.###.#.#..#.#....###..##..###.##.#.#.#.#...#";
   "#.....#..##.#..#.#..##..#..##...##.#.#.#.....";
   "#######.###.##...#.####.#.###.#.#..###.###..#"].

Example wifi_long_scans : scan wifi_long = Some (to_codes (to_l "WIFI:T:WPA;S:Caspian-guest-network-abcdefgh;P:aaaaaaaaaaaaaaaaaaaaaaaaaaaaaaaaaaaaaaaaaaaaaaaaaaaaaaaaaaaaaaa;H:false;;")).
Proof. vm_compute. reflexivity. Qed.

End Fixtures.
