(* ===== verification/PanelView.v ===== *)
(** * What the panel says (internal/panel: words.go, events.go, hotspot.go, subscription.go, listen.go, view.go,
    identifiers.go)

    Problems and sentences as message keys, the ring of events, the checks of the
    hotspot form and of the addresses the panel listens on, the headers a provider
    sends, and the page: one record per fill function, in the order the functions
    run. Durations are nanoseconds. A time of day is printed in the zone of the
    machine, which is the parameter [clock] of the functions that print one. *)

From S2P Require Import Prelude GoStrings Netip Text Bytes Base64 GoTime StateError Messages.
From S2P Require Import Session.
From S2P Require Json Facts LogRing Qr Redact HotspotConf Link State Privsvc Service.

Local Open Scope Z_scope.

#[local] Existing Instance Privsvc.PFault_eq_dec.

(** ** words.go *)

Definition stage_String (s : ConfigStage) : string :=
  match s with StageParse => "parse" | StageEngine => "engine" | StageServer => "server" | StageNone => "none" end.

Definition plain (headline advice : string) : Problem := MkProblem StageNone headline advice [] "".

(** Problem.Empty *)
Definition Empty (p : Problem) : bool := (Headline p =? "")%string && (Advice p =? "")%string.

(** Problem.TextIn *)
Definition TextIn (l : string) (p : Problem) : string :=
  let head := T l (Headline p) [] in
  let advice := T l (Advice p) [] in
  if (Headline p =? "")%string then advice
  else if (Advice p =? "")%string then head
  else (head ++ " " ++ advice)%string.

Definition HeadlineIn (l : string) (p : Problem) : string := T l (Headline p) [].

(** SubscriptionProblem; None is a nil error *)
Definition SubscriptionProblem (err : option State.state_error) : Problem :=
  let p h := MkProblem StageParse h MsgSubscriptionAdvice [] "" in
  match err with
  | None => no_problem
  | Some State.ErrSubscriptionNotHTTPS => p MsgSubscriptionNotHTTPS
  | Some State.ErrSubscriptionNoHost => p MsgSubscriptionNoHost
  | Some State.ErrSubscriptionIPLiteral => p MsgSubscriptionIPLiteral
  | Some State.ErrSubscriptionUserinfo => p MsgSubscriptionUserinfo
  | Some State.ErrSubscriptionTooLong => p MsgSubscriptionTooLong
  | Some _ => p MsgSubscriptionMalformed
  end.

Definition ParseProblem (err : option Link.link_error) : Problem :=
  let p a := MkProblem StageParse MsgParseHeadline a [] "" in
  match err with
  | None => no_problem
  | Some Link.ErrEmpty => MkProblem StageParse MsgParseEmpty MsgParseEmptyAdvice [] ""
  | Some (Link.ErrUnsupportedScheme _) => p MsgParseScheme
  | Some Link.ErrNoLink => p MsgParseNoLink
  | Some Link.ErrBadUUID => p MsgParseUUID
  | Some Link.ErrBadAddress => p MsgParseAddress
  | Some Link.ErrBadPort => p MsgParsePort
  | Some Link.ErrBadReality => p MsgParseReality
  | Some Link.ErrUnsupportedTransport => p MsgParseTransport
  | Some _ => p MsgParseOther
  end.

Definition EngineProblem : Problem := MkProblem StageEngine MsgEngineHeadline MsgEngineAdvice [] "".
Definition insecureProblem : Problem := MkProblem StageEngine MsgEngineInsecureHeadline MsgEngineInsecureAdvice [] "".
Definition cipherProblem : Problem := MkProblem StageEngine MsgEngineCipherHeadline MsgEngineCipherAdvice [] "".

(** EngineRejection, of the text of the error *)
Definition EngineRejection (msg : string) : Problem :=
  match Privsvc.ReasonOf msg with
  | Privsvc.ReasonInsecureRemoved => insecureProblem
  | Privsvc.ReasonCipherRemoved => cipherProblem
  | _ => EngineProblem
  end.

Definition ServerProblem : Problem := MkProblem StageServer MsgServerHeadline MsgServerAdvice [] "".

(** Fault.Key. A fault is one of the declared ones, so the last branch of the
    switch, MsgFaultUnrecognised, is for a value from another version. *)
Definition FaultKey (f : Privsvc.PFault) : string :=
  match f with
  | Privsvc.FaultSNISpoofInvalid => MsgSNISpoofInvalid
  | Privsvc.FaultSNISpoofUnsupported => MsgSNISpoofUnsupported
  | Privsvc.FaultSNISpoofUnavailable => MsgSNISpoofUnavailable
  | Privsvc.FaultNone => ""
  | Privsvc.FaultNoAPAdapter => MsgFaultNoAPAdapter
  | Privsvc.FaultHotspotInterfaceBusy => MsgFaultIfaceBusy
  | Privsvc.FaultNotRunning => MsgFaultNotRunning
  | Privsvc.FaultRadioBlocked => MsgFaultRadioBlocked
  | Privsvc.FaultNoInternetInterface => MsgFaultNoInternet
  | Privsvc.FaultChannelRefused => MsgFaultChannel
  | Privsvc.FaultHotspotFailed => MsgFaultHotspot
  | Privsvc.FaultDHCPFailed => MsgFaultDHCP
  | Privsvc.FaultEngineRejectedConfig => MsgEngineHeadline
  | Privsvc.FaultInsecureRemoved => MsgEngineInsecureHeadline
  | Privsvc.FaultCipherRemoved => MsgEngineCipherHeadline
  | Privsvc.FaultPortInUse => MsgFaultPortInUse
  | Privsvc.FaultServerNoAnswer => MsgServerHeadline
  | Privsvc.FaultClockImplausible => MsgFaultClock
  | Privsvc.FaultPermissionDenied => MsgFaultPermission
  | Privsvc.FaultSoftwareMissing => MsgFaultSoftware
  | Privsvc.FaultUnavailable => MsgFaultUnavailable
  | Privsvc.FaultIPv6Unsupported => MsgFaultIPv6Unsupported
  | Privsvc.FaultCountryMissing => MsgCountryMissing
  | Privsvc.FaultWindowsTooOld => MsgFaultWindowsTooOld
  | Privsvc.FaultRefreshBadAddress => MsgRefreshBadAddress
  | Privsvc.FaultRefreshNoAnswer => MsgRefreshNoAnswer
  | Privsvc.FaultRefreshTooLarge => MsgRefreshTooLarge
  | Privsvc.FaultRefreshNotHTTPS => MsgRefreshNotHTTPS
  | Privsvc.FaultUnknown => MsgFaultUnknown
  end.

Definition StartProblem (f : Privsvc.PFault) : Problem :=
  match f with
  | Privsvc.FaultNone => no_problem
  | Privsvc.FaultEngineRejectedConfig => EngineProblem
  | Privsvc.FaultInsecureRemoved => insecureProblem
  | Privsvc.FaultCipherRemoved => cipherProblem
  | Privsvc.FaultPortInUse => plain MsgFaultPortInUse MsgFaultPortInUseAdvice
  | Privsvc.FaultServerNoAnswer => ServerProblem
  | Privsvc.FaultCountryMissing => plain MsgCountryMissing MsgCountryAdvice
  | f => plain (FaultKey f) ""
  end.

(** refreshProblem, of handlers.go *)
Definition refreshProblem (f : Privsvc.PFault) : Problem :=
  match f with
  | Privsvc.FaultNotRunning => plain MsgRefreshNotRunning ""
  | Privsvc.FaultRefreshBadAddress => plain MsgRefreshBadAddress MsgRefreshBadAddressAdvice
  | Privsvc.FaultRefreshNoAnswer => plain MsgRefreshNoAnswer MsgRefreshNoAnswerAdvice
  | Privsvc.FaultRefreshTooLarge => plain MsgRefreshTooLarge MsgRefreshTooLargeAdvice
  | Privsvc.FaultRefreshNotHTTPS => plain MsgRefreshNotHTTPS MsgRefreshNotHTTPSAdvice
  | Privsvc.FaultNone | Privsvc.FaultUnknown => plain MsgRefreshFailedOther MsgRefreshFailedOtherAdvice
  | f => StartProblem f
  end.

(** InterfaceKind.Key *)
Definition KindKey (k : Privsvc.InterfaceKind) : string :=
  match k with
  | Privsvc.KindEthernet => MsgKindEthernet
  | Privsvc.KindBuiltinWiFi => MsgKindBuiltinWiFi
  | Privsvc.KindUSBWiFi => MsgKindUSBWiFi
  | Privsvc.KindWiFi => MsgKindWiFi
  | Privsvc.KindUnknown => ""
  end.

(** Detection.KindOf *)
Fixpoint kind_among (l : list Privsvc.InterfaceInfo) (name : string) : Privsvc.InterfaceKind :=
  match l with
  | [] => Privsvc.KindUnknown
  | i :: l => if (Privsvc.ii_Name i =? name)%string then Privsvc.Kind i else kind_among l name
  end.
Definition KindOf (d : Privsvc.Detection) (name : string) : Privsvc.InterfaceKind := kind_among (Privsvc.Interfaces d) name.

Definition interface_words (l : string) (d : Privsvc.Detection) (iface : string) : string :=
  if (iface =? "")%string then T l MsgDetectedNone []
  else
    let k := KindKey (KindOf d iface) in
    if (k =? "")%string then iface else T l k [].

Definition DetectedLineIn (l : string) (d : Privsvc.Detection) : string :=
  T l MsgDetectedLine [AStr (interface_words l d (Privsvc.dt_InternetInterface d));
                       AStr (interface_words l d (Privsvc.HotspotInterface d))].
Definition DetectedLine (d : Privsvc.Detection) : string := DetectedLineIn LangEN d.

Definition DeviceCountLine (l : string) (h : Service.HotspotStatus) : string :=
  let n := Service.hst_Devices h in
  let s := if n =? 0 then T l MsgDevicesNone []
           else if n =? 1 then T l MsgDevicesOne []
           else T l MsgDevicesMany [AInt n] in
  if 0 <? Service.hst_UnreadableLeaseLines h then (s ++ T l MsgDevicesUnreadable [])%string else s.

Definition ns_minute : Z := 60 * 1000000000.
Definition ns_hour : Z := 60 * ns_minute.

(** UptimeWords. The code divides floats: up to the twenty-third hour the whole
    part is exact, and a count of days is the exact one for some eighty days and
    after that except within a nanosecond of a day's end. *)
Definition UptimeWords (l : string) (d : Z) : string :=
  if d <? ns_minute then T l MsgUptimeJustNow []
  else if d <? ns_hour then T l MsgUptimeMinutes [AInt (d / ns_minute)]
  else if d <? 24 * ns_hour then T l MsgUptimeHours [AInt (d / ns_hour)]
  else T l MsgUptimeDays [AInt (d / (24 * ns_hour))].

Definition humanSeconds (l : string) (n : Z) : string :=
  if n <? 60 then T l MsgSeconds [AInt n]
  else if n <? 120 then T l MsgMinute []
  else T l MsgMinutes [AInt ((n + 59) / 60)].

Definition phaseKey (p : Service.EnginePhase) : string :=
  match p with
  | Service.PhaseStopped => MsgPhaseStopped
  | Service.PhaseStarting => MsgPhaseStarting
  | Service.PhaseRunning => MsgPhaseRunning
  | Service.PhaseFailed => MsgPhaseFailed
  end.

(** U+2066 and U+2069 around the text *)
Definition isolateLTR (s : string) : string :=
  if (s =? "")%string then ""
  else (of_l ["226"; "129"; "166"]%char ++ s ++ of_l ["226"; "129"; "169"]%char)%string.

Definition defaultEngineLogLevel : string := "warning".

Definition powerLabel (l : string) (running : bool) : string :=
  if running then T l MsgSwitchOff [] else T l MsgSwitchOn [].
Definition cutLabel (l : string) (cut : bool) : string :=
  if cut then T l MsgCutRestoreButton [] else T l MsgCutButton [].

Definition heroClass (cut connected starting : bool) : string :=
  if cut then "cut" else if connected then "ok" else if starting then "wait" else "off".
Definition powerClass (connected running : bool) : string :=
  if connected then "ok" else if running then "danger" else "go".

Definition nextStep (hasProblem hasConfig hasHotspot cut connected starting : bool) (devices : Z) : string :=
  if cut then MsgNextResume
  else if hasProblem then MsgNextProblem
  else if negb hasConfig then MsgNextAddconfig
  else if negb hasHotspot then MsgNextSetwifi
  else if starting then MsgNextStarting
  else if connected && (0 <? devices) then MsgNextJoined
  else if connected then MsgNextJoin
  else MsgNextSwitchon.

(** ** events.go *)

Inductive EventKind :=
| EventSignedIn | EventSwitchedOn | EventSwitchedOff | EventConnected | EventDisconnected | EventStartFailed
| EventConfigAdded | EventConfigChanged | EventConfigRefreshed | EventRefreshFailed | EventHotspotNamed
| EventAdvancedSaved | EventTrafficCut | EventTrafficRestored | EventRecovered | EventWrongPassword.

(** EventKind.Key: there is no case for EventRecovered. *)
Definition EventKey (k : EventKind) : string :=
  match k with
  | EventSignedIn => MsgEventSignedIn
  | EventSwitchedOn => MsgEventSwitchedOn
  | EventSwitchedOff => MsgEventSwitchedOff
  | EventConnected => MsgEventConnected
  | EventDisconnected => MsgEventDisconnected
  | EventStartFailed => MsgEventStartFailed
  | EventConfigAdded => MsgEventConfigAdded
  | EventConfigChanged => MsgEventConfigChanged
  | EventConfigRefreshed => MsgEventConfigRefreshed
  | EventRefreshFailed => MsgEventRefreshFailed
  | EventHotspotNamed => MsgEventHotspotNamed
  | EventAdvancedSaved => MsgEventAdvancedSaved
  | EventTrafficCut => MsgEventTrafficCut
  | EventTrafficRestored => MsgEventTrafficRestored
  | EventWrongPassword => MsgEventWrongPassword
  | EventRecovered => MsgFaultUnrecognised
  end.

Record Event := MkEvent { ev_Kind : EventKind; ev_At : Time; ev_Fault : Privsvc.PFault }.

(** Event.Sentence *)
Definition Sentence (l : string) (e : Event) : string :=
  let s := T l (EventKey (ev_Kind e)) [] in
  if bool_decide (ev_Fault e = Privsvc.FaultNone) then s else (s ++ " " ++ T l (FaultKey (ev_Fault e)) [])%string.

Definition eventCapacity : nat := 40.

(** A slot that was never written holds the zero event, which has no kind. *)
Record eventLog := MkEvents {
  ring : list (option Event);
  next : nat;
  full : bool;
  observed : bool;      (* the field seen *)
  was_connected : bool  (* the field connected *)
}.

Definition newEventLog : eventLog := MkEvents (replicate eventCapacity None) 0 false false false.

(** add and addLocked; [at_] is the clock's reading *)
Definition add (kind : EventKind) (fault : Privsvc.PFault) (at_ : Time) (l : eventLog) : eventLog :=
  let next' := ((next l + 1) mod length (ring l))%nat in
  MkEvents (<[next l := Some (MkEvent kind at_ fault)]> (ring l)) next' (full l || (next' =? 0)%nat) (observed l) (was_connected l).

Definition observe (st : Service.SystemStatus) (reachable : bool) (at_ : Time) (l : eventLog) : eventLog :=
  if negb reachable then l
  else
    let now := Service.StatusConnected st in
    if negb (observed l) then MkEvents (ring l) (next l) (full l) true now
    else if Bool.eqb now (was_connected l) then l
    else
      let l := MkEvents (ring l) (next l) (full l) (observed l) now in
      add (if now then EventConnected else EventDisconnected) Privsvc.FaultNone at_ l.

(** entries, newest first; [None] for an index out of range or a slot never written *)
Definition entry_at (l : eventLog) (i : nat) : option Event :=
  let n := length (ring l) in
  mjoin (ring l !! Z.to_nat ((Z.of_nat (next l) - 1 - Z.of_nat i + Z.of_nat n * 2) mod Z.of_nat n)).
Definition entries (l : eventLog) : option (list Event) :=
  mapM (entry_at l) (seq 0 (if full l then length (ring l) else next l)).

(** ** hotspot.go *)

(** SuggestPassphrase and SuggestSSID; [rand] is what crypto/rand returns *)
Definition SuggestPassphrase (rand : option (list Z)) : string :=
  match rand with Some buf => HotspotConf.GeneratePassphrase buf | None => "" end.
Definition SuggestSSID (rand : option (list Z)) : string :=
  let p := SuggestPassphrase rand in
  if (String.length p <? 4)%nat then "Caspian" else ("Caspian-" ++ substr_to p 4)%string.

Definition BandChoices : list (string * string) :=
  [(HotspotConf.Band2GHz, MsgAdvBand24); (HotspotConf.Band5GHz, MsgAdvBand5)].
Definition ValidBand (v : string) : bool := (v =? "")%string || existsb (λ b, (b.1 =? v)%string) BandChoices.

Definition hasControlChars (s : string) : bool := existsb Link.IsControl (Link.runes (to_l s)).
(** A rune is a space when its bytes are one of [spaces]. *)
Definition onlySpaces (s : string) : bool := forallb (λ r, bool_decide (r ∈ spaces)) (Link.runes (to_l s)).

Definition ValidateSSID (ssid : string) : Problem :=
  if (ssid =? "")%string then plain MsgSSIDMissing MsgSSIDMissingAdvice
  else if HotspotConf.MaxSSIDLen <? HotspotConf.len ssid then plain MsgSSIDTooLong MsgSSIDTooLongAdvice
  else if negb (ValidString ssid) then plain MsgSSIDBadChars MsgSSIDBadCharsAdvice
  else if hasControlChars ssid then plain MsgSSIDBadChars MsgSSIDBadCharsAdvice
  else if onlySpaces ssid then plain MsgSSIDSpaces MsgSSIDSpacesAdvice
  else no_problem.

Definition isASCIIPrintable (s : string) : bool :=
  forallb (λ c, negb ((HotspotConf.code c <? 0x20) || (0x7e <? HotspotConf.code c))) (to_l s).

Definition ValidatePassphrase (pass : string) : Problem :=
  match HotspotConf.ValidatePassphrase pass with
  | Ok _ => no_problem
  | Err _ =>
      if HotspotConf.len pass <? HotspotConf.MinPassphraseLen then plain MsgPassTooShort MsgPassTooShortAdvice
      else if HotspotConf.MaxPassphraseLen <? HotspotConf.len pass then plain MsgPassTooLong MsgPassTooLongAdvice
      else if negb (isASCIIPrintable pass) then plain MsgPassBadChars MsgPassBadCharsAdvice
      else plain MsgPassRefused MsgPassRefusedAdvice
  end.

(** ** subscription.go *)

(** strings.ToLower makes an i of U+0130; no other rune outside ASCII becomes a
    letter of the four names. *)
Definition lower_name (s : string) : string := ToLower (Link.replaceAll s (of_l ["196"; "176"]%char) "i").

Definition quota_field (name : string) (n : Z) (q : State.Quota) : State.Quota :=
  let name := lower_name (TrimSpace name) in
  if (name =? "upload")%string then State.set_Upload n q
  else if (name =? "download")%string then State.set_Download n q
  else if (name =? "total")%string then State.set_Total n q
  else if (name =? "expire")%string then State.set_Expire n q
  else q.

Definition userinfo_pair (q : State.Quota) (pair : string) : State.Quota :=
  match Text.Cut pair "=" with
  | None => q
  | Some (name, value) =>
      match Atoi (TrimSpace value) with
      | Some n => if n <? 0 then q else quota_field name n q
      | None => q
      end
  end.

Definition parseUserinfo (h : string) : State.Quota := foldl userinfo_pair State.zero_quota (Split h ";").

Definition raw_decode (l : list ascii) : option (list Z) :=
  idx ← mapM (b64_index std_alphabet) (List.filter (λ c, negb (line_end c)) l); lax_sextets idx.

Definition decodeLooseBase64 (s : string) : option string :=
  match Link.padded_decode std_alphabet (to_l s) with
  | Some b => Some (of_l (Json.byte_of <$> b))
  | None => (λ b, of_l (Json.byte_of <$> b)) <$> raw_decode (to_l s)
  end.

Definition maxLabel : nat := 64.

(** cleanLabel: a byte that is no rune, and U+FFFD itself, are left out. *)
Definition cleanLabel (s : string) : string :=
  let kept := List.filter (λ r, negb (bool_decide (r = Link.replacement) || Link.IsControl r)) (Link.runes (to_l s)) in
  let name := TrimSpace (of_l (concat kept)) in
  if (String.length name <=? maxLabel)%nat then name
  else TrimSpace (substr_to name (Link.cut_back maxLabel (to_l name))).

(** labelFromHeaders; a header that was not sent is empty, and [filename] is
    mime.ParseMediaType's filename parameter, empty when there is none and [None]
    when the header does not parse. *)
Definition labelFromHeaders (filename : string → option string) (h : string → string) : string :=
  let title := TrimSpace (h "profile-title"%string) in
  let title := if HasPrefix title "base64:" then default title (decodeLooseBase64 (substr_from title 7)) else title in
  let name := cleanLabel title in
  if negb (name =? "")%string then name
  else match filename (h "content-disposition"%string) with None => "" | Some f => cleanLabel f end.

(** gigabytes: tenths of a thousand million bytes, rounded half away from zero and
    printed with one decimal. The code rounds a float: below a million thousand
    million bytes that is the same tenth. *)
Definition gigabytes (b : Z) : string :=
  let n := (Z.abs b + 50000000) / 100000000 in
  let s := (Itoa (n / 10) ++ "." ++ Itoa (n mod 10) ++ " GB")%string in
  if b <? 0 then ("-" ++ s)%string else s.

(** ** listen.go *)

(** The standard library: net.SplitHostPort and net.JoinHostPort *)
Definition SplitHostPort (hostport : string) : option (string * string) :=
  let l := to_l hostport in
  i ← last_index ":" l;
  let port := of_l (drop (S i) l) in
  match l with
  | "["%char :: _ =>
      e ← index_byte "]" l;
      if negb (S e =? i)%nat then None
      else if existsb (Ascii.eqb "[") (drop 1 l) || existsb (Ascii.eqb "]") (drop (S e) l) then None
      else Some (of_l (drop 1 (take e l)), port)
  | _ =>
      if existsb (Ascii.eqb ":") (take i l) then None
      else if existsb (Ascii.eqb "[") l || existsb (Ascii.eqb "]") l then None
      else Some (of_l (take i l), port)
  end.

Definition JoinHostPort (host port : string) : string :=
  if existsb (Ascii.eqb ":") (to_l host) then ("[" ++ host ++ "]:" ++ port)%string else (host ++ ":" ++ port)%string.

(** net/netip's classes of addresses *)
Definition IsUnspecified (a : Addr) : bool := bool_decide (a = A4 0) || bool_decide (a = A6 0 "").
Definition IsMulticast (a : Addr) : bool :=
  match Unmap a with A4 n => Z.shiftr n 28 =? 0xe | A6 n _ => Z.shiftr n 120 =? 0xff | NoAddr => false end.
Definition IsLinkLocalMulticast (a : Addr) : bool :=
  match Unmap a with
  | A4 n => Z.shiftr n 8 =? 0xe00000
  | A6 n _ => Z.land (Z.shiftr n 112) 0xff0f =? 0xff02
  | NoAddr => false
  end.
Definition IsPrivate (a : Addr) : bool :=
  match Unmap a with
  | A4 n => (Z.shiftr n 24 =? 10) || (Z.shiftr n 20 =? 0xac1) || (Z.shiftr n 16 =? 0xc0a8)
  | A6 n _ => Z.shiftr n 121 =? 0x7e
  | NoAddr => false
  end.

Definition DefaultPort : Z := 8088.
Definition cgnat : Prefix := MkPrefix (A4 0x64400000) 10.

Inductive bind_error := ErrWildcardBind | ErrPublicBind | ErrNoBindAddress | NotAnAddressAndPort | NotAnIP | Multicast | NoUsablePort.

Definition isGloballyRoutable (ip : Addr) : bool :=
  if IsPrivate ip || IsLoopback ip || IsLinkLocalUnicast ip || IsLinkLocalMulticast ip || IsUnspecified ip then false
  else if Is4 ip && Contains_addr cgnat ip then false
  else true.

Definition ValidateBindAddr (addr : string) : res bind_error unit :=
  match SplitHostPort addr with
  | None => Err NotAnAddressAndPort
  | Some (host, portStr) =>
      if (host =? "")%string then Err ErrWildcardBind
      else match ParseAddr host with
           | None => Err NotAnIP
           | Some ip =>
               if IsUnspecified ip then Err ErrWildcardBind
               else if IsMulticast ip then Err Multicast
               else if isGloballyRoutable ip then Err ErrPublicBind
               else match Atoi portStr with
                    | Some port => if (port <? 1) || (65535 <? port) then Err NoUsablePort else Ok tt
                    | None => Err NoUsablePort
                    end
           end
  end.

(** The closure of BindAddrs *)
Definition add_host (port : Z) (host : string) (addrs : list string) : res bind_error (list string) :=
  if (host =? "")%string then Ok addrs
  else
    let a := JoinHostPort host (Itoa port) in
    match ValidateBindAddr a with Err e => Err e | Ok _ => Ok (addrs ++ [a]) end.

Definition BindAddrs (d : Privsvc.Detection) (port : Z) (onLAN : bool) : res bind_error (list string) :=
  let port := if port =? 0 then DefaultPort else port in
  let? addrs := add_host port (Privsvc.HotspotAddress d) [] in
  let? addrs := if onLAN : bool then add_host port (Privsvc.LocalNetworkAddress d) addrs else Ok addrs in
  match addrs with [] => Err ErrNoBindAddress | _ => Ok addrs end.

(** Listen: the address a socket is opened on; New makes the same check of each
    address it is configured with. *)
Definition Listen (addr : string) : res bind_error string := let? _ := ValidateBindAddr addr in Ok addr.

(** ** Where the panel is served (cmd/caspian/serve_panel.go) *)

Definition panelPort : Z := 8088.
Definition loopbackHost : string := "127.0.0.1".

(** the closure of desiredAddrs *)
Definition add_addr (set : gset string) (a : string) : gset string :=
  if (a =? "")%string then set
  else match ValidateBindAddr a with Ok _ => {[a]} ∪ set | Err _ => set end.

(** the order of sort.Strings *)
Definition string_le (a b : string) : Prop := Is_true (String.leb a b).
#[export] Instance string_le_dec : RelDecision string_le := λ a b, _.

(** The addresses to serve: [d] is what the service detected, if it answered. *)
Definition desiredAddrs (d : option Privsvc.Detection) (onLAN : bool) (extra : list string) : list string :=
  let set := add_addr ∅ (JoinHostPort loopbackHost (Itoa panelPort)) in
  let set := foldl add_addr set extra in
  let set := match d with
             | None => set
             | Some d => match BindAddrs d panelPort onLAN with Ok addrs => foldl add_addr set addrs | Err _ => set end
             end in
  merge_sort string_le (elements set).

(** panelListeners.reconcile: what is no longer wanted is closed, then what is new
    is opened; [opens] is what the system answers to net.Listen. *)
Definition open_addr (opens : string → bool) (active : gset string) (a : string) : gset string :=
  if decide (a ∈ active) then active
  else match Listen a with
       | Err _ => active
       | Ok a => if opens a then {[a]} ∪ active else active
       end.
Definition reconcile (opens : string → bool) (want : list string) (active : gset string) : gset string :=
  foldl (open_addr opens) (filter (λ a, a ∈ want) active) want.

(** One look for somewhere to listen: at the start and every bindRefreshInterval. *)
Record Look := MkLook { lk_detected : option Privsvc.Detection; lk_onLAN : bool; lk_opens : string → bool }.
Definition look_again (extra : list string) (active : gset string) (l : Look) : gset string :=
  reconcile (lk_opens l) (desiredAddrs (lk_detected l) (lk_onLAN l) extra) active.

(** servePanel: nothing is opened when a --listen address is refused, or when New
    refuses one of the first addresses. *)
Definition servePanel (extra : list string) (first : Look) (later : list Look) : option (gset string) :=
  let usable a := is_ok (ValidateBindAddr a) in
  if negb (forallb usable extra) then None
  else if negb (forallb usable (desiredAddrs (lk_detected first) (lk_onLAN first) extra)) then None
  else Some (foldl (look_again extra) ∅ (first :: later)).

(** ** identifiers.go *)

(** The random source as the bytes it still has; reading more is an error. *)
Definition ReadFull (n : nat) (random : list Z) : option (list Z * list Z) :=
  if (length random <? n)%nat then None else Some (take n random, drop n random).

Definition hex_text (l : list Z) : list ascii :=
  concat ((λ b, [hex_char (Z.to_nat (b / 16)); hex_char (Z.to_nat (b mod 16))]) <$> l).

Definition randomUUIDv4 (random : list Z) : option (string * list Z) :=
  '(raw, random) ← ReadFull 16 random;
  let raw := <[6%nat := Z.lor (Z.land (default 0 (raw !! 6%nat)) 0x0f) 0x40]> raw in
  let raw := <[8%nat := Z.lor (Z.land (default 0 (raw !! 8%nat)) 0x3f) 0x80]> raw in
  let part i j := hex_text (take (j - i) (drop i raw)) in
  Some (of_l (part 0 4 ++ "-" :: part 4 6 ++ "-" :: part 6 8 ++ "-" :: part 8 10 ++ "-" :: part 10 16)%char%nat, random).

(** crypto/rand.Int below ten: four bits of a byte, until they are one *)
Fixpoint rand_digit (random : list Z) : option (Z * list Z) :=
  match random with
  | [] => None
  | b :: random => let n := Z.land b 0x0f in if n <? 10 then Some (n, random) else rand_digit random
  end.
Fixpoint rand_digits (n : nat) (random : list Z) : option (list Z * list Z) :=
  match n with
  | O => Some ([], random)
  | S n => '(d, random) ← rand_digit random; '(ds, random) ← rand_digits n random; Some (d :: ds, random)
  end.

(** imeiCheckDigit, over the digits' values; [i] is the index of the first *)
Fixpoint luhn_sum (i : nat) (body : list Z) : Z :=
  match body with
  | [] => 0
  | d :: body =>
      (if Nat.odd i then let d := 2 * d in if 9 <? d then d - 9 else d else d) + luhn_sum (S i) body
  end.
Definition imeiCheckDigit (body : list Z) : Z := (10 - luhn_sum 0 body mod 10) mod 10.

Definition digit_char (d : Z) : ascii := ascii_of_nat (Z.to_nat (d + 48)).
Definition randomIMEIShape (random : list Z) : option (string * list Z) :=
  '(body, random) ← rand_digits 14 random;
  Some (of_l (digit_char <$> body ++ [imeiCheckDigit body]), random).

Definition generateIdentifiers (random : list Z) : option (string * string) :=
  '(uuid, random) ← randomUUIDv4 random;
  '(imei, _) ← randomIMEIShape random;
  Some (uuid, imei).

(** ** The requests as text (priv.go) *)

Definition HotspotSpec_String (h : Privsvc.HotspotSpec) : string :=
  ("hotspot ssid=" ++ Quote (Privsvc.hs_SSID h) ++ " interface=" ++ Quote (Privsvc.hs_Interface h) ++ " channel=" ++
   Itoa (Privsvc.hs_Channel h) ++ " band=" ++ Quote (Privsvc.hs_Band h) ++ " country=" ++ Quote (Privsvc.hs_Country h) ++
   " subnet=" ++ Quote (Privsvc.hs_Subnet h) ++ " passphrase=[redacted]")%string.

(** [%+v] of a struct of strings *)
Definition NetworkSpec_text (n : Privsvc.NetworkSpec) : string :=
  ("{InternetInterface:" ++ Privsvc.InternetInterface n ++ " DNSMode:" ++ Privsvc.DNSMode n ++ " OnTunnelDown:" ++
   Privsvc.OnTunnelDown n ++ " ClientIPv6:" ++ Privsvc.ClientIPv6 n ++ "}")%string.

Definition StartRequest_String (r : Privsvc.StartRequest) : string :=
  ("start config=[redacted " ++ Itoa (Z.of_nat (String.length (Privsvc.ConfigJSON r))) ++ " bytes] " ++
   HotspotSpec_String (Privsvc.sr_Hotspot r) ++ " network=" ++ NetworkSpec_text (Privsvc.sr_Network r) ++
   " engine_log_level=" ++ Quote (Privsvc.EngineLogLevel r))%string.
Definition RefreshRequest_String (url : string) : string :=
  ("refresh url=[redacted " ++ Itoa (Z.of_nat (String.length url)) ++ " bytes]")%string.

(** ** view.go *)

(** *** The message area *)

Record pageProblem := MkPageProblem {
  HasProblem : bool;
  ProblemCountry : bool;
  ProblemHeadline : string;
  ProblemAdvice : string;
  ProblemDetail : string
}.
Definition no_page_problem : pageProblem := MkPageProblem false false "" "" "".

Definition setProblem (l : string) (p : Problem) (d : pageProblem) : pageProblem :=
  if Empty p then d
  else MkPageProblem true (Headline p =? MsgCountryMissing)%string
         (if (Headline p =? "")%string then ProblemHeadline d else T l (Headline p) [])
         (if (Advice p =? "")%string then ProblemAdvice d else T l (Advice p) (AdviceArgs p))
         (Detail p).

(** [if !d.HasProblem { d.setProblem(p) }] *)
Definition setProblemOnce (l : string) (p : Problem) (d : pageProblem) : pageProblem :=
  if HasProblem d then d else setProblem l p d.

(** *** The status line and the switch *)

Definition shapeOn : string := "on".
Definition shapeOff : string := "off".
Definition shapeWorking : string := "working".
Definition shapeTrouble : string := "trouble".

Record statusPart := MkStatusPart {
  sp_DetectedLine : string;
  DeviceLine : string;
  sp_EnginePhase : string;
  EngineReason : string;
  TrafficCut : bool;
  Running : bool;
  StatusWord : string;
  StatusShape : string;
  Connected : bool;
  LocalProxy : string;
  AntiDPIShown : bool;
  PowerClass : string;
  HeroClass : string
}.

Definition phase_is (st : Service.SystemStatus) (p : Service.EnginePhase) : bool :=
  match Service.es_Phase (Service.ss_Engine st), p with
  | Service.PhaseStopped, Service.PhaseStopped | Service.PhaseStarting, Service.PhaseStarting
  | Service.PhaseRunning, Service.PhaseRunning | Service.PhaseFailed, Service.PhaseFailed => true
  | _, _ => false
  end.

Definition is_fault (f : Privsvc.PFault) : bool := negb (bool_decide (f = Privsvc.FaultNone)).

(** The switch of fillStatus: the word, the shape, whether connected *)
Definition status_word (st : Service.SystemStatus) (fault : Privsvc.PFault) : string * string * bool :=
  if is_fault fault then (MsgStatusNotWorking, shapeOff, false)
  else if Service.ss_ClientTrafficCut st then (MsgStatusCut, shapeTrouble, false)
  else if Service.StatusConnected st then (MsgStatusConnected, shapeOn, true)
  else if phase_is st Service.PhaseStarting then (MsgStatusStarting, shapeWorking, false)
  else if phase_is st Service.PhaseFailed then (MsgStatusNotConn, shapeOff, false)
  else (MsgStatusOff, shapeOff, false).

Definition fillStatus (l : string) (antiDPIOn : bool) (d : pageProblem) (st : Service.SystemStatus) (fault : Privsvc.PFault) :
    statusPart * pageProblem :=
  let '(word, shape, connected) := status_word st fault in
  let hotspot := Service.ss_Hotspot st in
  let cut := Service.ss_ClientTrafficCut st in
  let running := phase_is st Service.PhaseRunning && Service.hst_Running hotspot in
  let d := if is_fault fault then setProblemOnce l (plain (FaultKey fault) "") d else d in
  let d := if phase_is st Service.PhaseRunning && negb (Service.hst_Running hotspot) && negb (HasProblem d) then
             let f := Service.hst_Fault hotspot in
             setProblem l (plain (if is_fault f then FaultKey f else MsgTunnelNoHotspot) "") d
           else d in
  let df := Privsvc.dt_Fault (Service.ss_Detection st) in
  let d := if negb connected && negb (HasProblem d) && is_fault df then setProblem l (plain (FaultKey df) "") d else d in
  (MkStatusPart (DetectedLineIn l (Service.ss_Detection st)) (DeviceCountLine l hotspot)
     (T l (phaseKey (Service.es_Phase (Service.ss_Engine st))) []) (Service.es_Reason (Service.ss_Engine st))
     cut running (T l word []) shape connected
     (if connected then Service.ss_LocalProxy st else "") (connected && antiDPIOn)
     (powerClass connected running) (heroClass cut connected (phase_is st Service.PhaseStarting)), d).

(** *** The config *)

Record ConfigEntry := MkConfigEntry {
  ce_Index : Z;
  ce_Label : string;
  ce_Name : string;
  ce_Summary : string;
  ce_Selected : bool
}.

(** A row of the advanced tables *)
Record Fact := MkFact { ft_Label : string; ft_Value : string; ft_Words : string }.

Record configPart := MkConfigPart {
  HasConfig : bool;
  AntiDPIOn : bool;
  AntiDPIDecoy : string;
  AntiDPISplits : string;
  ConfigName : string;
  ConfigSummary : string;
  ConfigEntries : list ConfigEntry;
  ConfigDroppedLine : string;
  ConfigEntryReset : bool;
  ConfigFacts : list Fact
}.

Definition droppedLine (l : string) (n : Z) : string :=
  if n <=? 0 then "" else if n =? 1 then T l MsgConfigDroppedOne [] else T l MsgConfigDroppedMany [AInt n].

Definition security_string (s : Link.LSecurity) : string :=
  match s with Link.SecurityNone => "none" | Link.SecurityTLS => "tls" | Link.SecurityReality => "reality" end.

Definition present (l : string) (absent : string) (ok : bool) : string := T l (if ok then MsgAdvPresent else absent) [].

(** [add] of fillConfigFacts: an empty value is no row *)
Definition fact_row (l : string) (k v : string) : list Fact := if (v =? "")%string then [] else [MkFact (T l k []) v ""].

Section Config.
Context {R : Type} `{Link.Conf R}.

Definition fillEntries (l : string) (list_ : Link.List_) (selected : Z) : list ConfigEntry :=
  if (length (Link.Entries list_) <? 2)%nat then []
  else (λ e, MkConfigEntry (Link.e_Index e) (T l MsgConfigEntryNumber [AInt (Link.e_Index e + 1)]) (Link.e_Tag e)
               (Link.e_Protocol e ++ " " ++ Link.e_Address e)%string (Link.e_Index e =? selected)) <$> Link.Entries list_.

Definition fillConfigFacts (l : string) (k : Link.Link R) : list Fact :=
  fact_row l MsgAdvConfigKind (Link.l_Protocol k) ++
  fact_row l MsgAdvConfigServer (Link.l_Address k ++ ":" ++ Itoa (Link.l_Port k))%string ++
  fact_row l MsgAdvConfigTransport (Link.l_Network k) ++
  fact_row l MsgAdvConfigSecurity (security_string (Link.l_Security k)) ++
  fact_row l MsgAdvConfigSNI (Link.l_ServerName k) ++
  fact_row l MsgAdvConfigFP (Link.l_Fingerprint k) ++
  fact_row l MsgAdvConfigFlow (Link.l_Flow k) ++
  match Link.l_Security k with
  | Link.SecurityReality =>
      let r := Link.l_Reality k in
      [MkFact (T l MsgAdvRealityKey []) "" (present l MsgAdvAbsent (Link.HasPublicKey r));
       MkFact (T l MsgAdvRealityShortID []) "" (present l MsgAdvNotSet (Link.HasShortID r));
       MkFact (T l MsgAdvRealityPQV []) "" (present l MsgAdvNotSet (Link.HasMldsa65Verify r))]
  | _ => []
  end ++
  (if 1 <? Link.l_Count k
   then [MkFact (T l MsgAdvConfigCount []) "" (T l MsgAdvConfigCount [AInt (Link.l_Count k); AInt (Link.l_Index k + 1)])]
   else []).

(** fillConfig; [None] is a panic: of link's, or of the nil list beside a nil error *)
Definition fillConfig (l : string) (proxy : State.ProxyConfig) (d : pageProblem) : option (configPart * pageProblem) :=
  let has := State.IsConfigured proxy in
  let sni := State.SpoofSNI proxy in
  let tcp := State.TCPSplit proxy in
  let tls := State.TLSRecordSplit proxy in
  let on := negb (sni =? "")%string || tcp || tls in
  let splits := Join ((if tcp then [T l MsgTCPSplit []] else []) ++ (if tls then [T l MsgTLSRecordSplit []] else [])) ", " in
  let part := MkConfigPart has on sni splits in
  if negb has then Some (part "" "" [] "" false [], d)%string
  else
    let name := State.Label proxy in
    r ← Link.ParseAll (State.Raw proxy);
    match r with
    | Err None => None
    | Err (Some e) => Some (part name "" [] "" false [], setProblemOnce l (ParseProblem (Some e)) d)%string
    | Ok list_ =>
        let dropped := droppedLine l (Link.l_Dropped list_) in
        s ← Link.Select (State.Raw proxy) (State.Selected proxy);
        match s with
        | Err e =>
            Some (part name "" (fillEntries l list_ (-1)) dropped false [], setProblemOnce l (ParseProblem (Some e)) d)%string
        | Ok (k, clamped) =>
            Some (part name (Link.l_Protocol k ++ " " ++ Link.l_Address k)%string (fillEntries l list_ (Link.l_Index k)) dropped
                    clamped (fillConfigFacts l k), d)
        end
    end.

End Config.

(** *** The subscription *)

(** Nanoseconds since the zero time; [es_Since] of the engine's state is one. *)
Definition instant (t : Time) : Z :=
  ((minutes t - minutes zero_time) * 60 + t_sec t) * 1000000000 + t_nano t.

(** time.Time.Sub, which saturates *)
Definition since (now at_ : Z) : Z := Z.max (- 2 ^ 63) (Z.min (now - at_) (2 ^ 63 - 1)).

Definition ago (l : string) (d : Z) : string :=
  if d <? ns_minute then T l MsgRefreshWhenJustNow []
  else if d <? ns_hour then T l MsgRefreshWhenMinutes [AInt (d / ns_minute)]
  else if d <? 24 * ns_hour then T l MsgRefreshWhenHours [AInt (d / ns_hour)]
  else T l MsgRefreshWhenDays [AInt (d / (24 * ns_hour))].

(** The sum of two int64 *)
Definition add64 (a b : Z) : Z := let s := (a + b) mod 2 ^ 64 in if s <? 2 ^ 63 then s else s - 2 ^ 64.

(** time.Unix(n, 0).UTC().Format(2006-01-02), for a year of four digits *)
Definition unix_day (n : Z) : string :=
  let '(y, m, d) := date_of (day_number 1970 1 1 + n / 86400) in of_l (date_text (MkTime y m d 0 0 0 0 0)).

Record subscriptionPart := MkSubscriptionPart {
  SubscriptionSet : bool;
  RefreshLive : bool;
  RefreshDisabledWhy : string;
  RefreshLine : string;
  RefreshUsedLine : string;
  RefreshExpiresLine : string
}.

Definition fillSubscription (l : string) (entries_ : list ConfigEntry) (proxy : State.ProxyConfig) (st : Service.SystemStatus)
    (fault : Privsvc.PFault) (now : Time) : subscriptionPart :=
  if (State.SubscriptionURL proxy =? "")%string then MkSubscriptionPart false false "" "" "" ""
  else
    let live := negb (is_fault fault) && phase_is st Service.PhaseRunning in
    let why := if live then ""%string else T l MsgConfigRefreshDisabled [] in
    if IsZero (State.RefreshedAt proxy) then MkSubscriptionPart true live why "" "" ""
    else
      let n := match Z.of_nat (length entries_) with 0 => 1 | n => n end in
      let count := if 1 <? n then T l MsgRefreshEntriesMany [AInt n] else T l MsgRefreshEntriesOne [] in
      let q := State.pQuota proxy in
      MkSubscriptionPart true live why
        (T l MsgRefreshLine [AStr (ago l (since (instant now) (instant (State.RefreshedAt proxy)))); AStr count])
        (if 0 <? State.Total q
         then T l MsgRefreshUsed [AStr (isolateLTR (gigabytes (add64 (State.Upload q) (State.Download q))));
                                  AStr (isolateLTR (gigabytes (State.Total q)))]
         else "")
        (if 0 <? State.Expire q then T l MsgRefreshExpires [AStr (isolateLTR (unix_day (State.Expire q - 1)))] else "").

(** *** The tiles, the hotspot, the events *)

Record Tile := MkTile { tl_Label : string; tl_Value : string; tl_ValueLTR : string; tl_Shape : string }.

Definition fillTiles (l : string) (s : statusPart) (hasConfig : bool) (name summary : string) (st : Service.SystemStatus)
    (fault : Privsvc.PFault) (now : Time) : list Tile :=
  let since_ := Service.es_Since (Service.ss_Engine st) in
  [MkTile (T l MsgTileStatus []) (StatusWord s) "" (StatusShape s);
   MkTile (T l MsgTileDevices []) (Itoa (Service.hst_Devices (Service.ss_Hotspot st))) "" "";
   (if negb hasConfig then MkTile (T l MsgTileConfig []) (T l MsgTileConfigNone []) "" ""
    else if negb (name =? "")%string then MkTile (T l MsgTileConfig []) name "" ""
    else MkTile (T l MsgTileConfig []) "" summary "");
   MkTile (T l MsgTileUptime [])
     (if negb (is_fault fault) && Service.StatusConnected st && negb (since_ =? 0)
      then UptimeWords l (since (instant now) since_) else T l MsgTileUptimeOff []) "" ""].

Record hotspotPart := MkHotspotPart {
  HotspotReady : bool;
  hp_SSID : string;
  hp_Passphrase : string;
  QR : string;
  QRProblem : string;
  SuggestedSSID : string;
  SuggestedPassphrase : string
}.

(** fillHotspot; [None] where the encoder indexes out of range *)
Definition fillHotspot (l : string) (randSSID randPass : option (list Z)) (h : State.HotspotConfig) : option hotspotPart :=
  let ssid := State.hSSID h in
  let pass := State.hPassphrase h in
  if (ssid =? "")%string || State.secret_zero pass
  then Some (MkHotspotPart false ssid pass "" "" (SuggestSSID randSSID) (SuggestPassphrase randPass))
  else
    r ← Qr.Encode (List.map (λ c, Z.of_nat (nat_of_ascii c)) (Qr.WiFiJoin (to_l ssid) (to_l pass) false));
    Some (match r with
          | Err _ => MkHotspotPart true ssid pass "" (T l MsgWifiQRFailed []) "" ""
          | Ok m => MkHotspotPart true ssid pass (Qr.SVG m) "" "" ""
          end).

Definition fillNextStep (l : string) (d : pageProblem) (hasConfig hasHotspot cut connected starting : bool) (devices : Z) : string :=
  T l (nextStep (HasProblem d) hasConfig hasHotspot cut connected starting devices) [].

Record EventLine := MkEventLine { el_At : string; el_Text : string }.
Definition fillEvents (clock : Time → string) (l : string) (es : list Event) : list EventLine :=
  (λ e, MkEventLine (clock (ev_At e)) (Sentence l e)) <$> es.

(** *** The advanced section *)

Record IfaceChoice := MkIfaceChoice { ic_Name : string; ic_Kind : string; ic_Note : string; ic_CanHost : bool }.
Definition iface_choice (l : string) (i : Privsvc.InterfaceInfo) : IfaceChoice :=
  let k := KindKey (Privsvc.Kind i) in
  MkIfaceChoice (Privsvc.ii_Name i) (if (k =? "")%string then ""%string else T l k [])
    (if negb (Privsvc.CanHostAP i) then T l MsgAdvCannotHostAP []
     else if Privsvc.HasDefaultRoute i then T l MsgAdvInUse [] else "") (Privsvc.CanHostAP i).

Record advancedPart := MkAdvancedPart {
  ap_current : State.Advanced;         (* CurrentInternet, CurrentHotspot, CurrentBand, CurrentCountry, CurrentSubnet, PanelOnLAN *)
  CurrentChannel : string;
  PlaceCountry : string;
  PlaceSubnet : string;
  ap_ChannelPinned : bool;
  AutoInternet : string; AutoHotspot : string; AutoChannel : string; AutoBand : string; AutoLogLevel : string;
  ap_Interfaces : list IfaceChoice;
  ap_Channels : list (string * bool);  (* the value and whether it is selected *)
  ap_Bands : list (string * string * bool);
  ap_LogLevels : list (string * bool);
  FixedFacts : list Fact;
  ap_EngineLog : list (string * string);
  EngineDropped : Z
}.

Fixpoint auto_band (l : string) (bands : list (string * string)) (band : string) : string :=
  match bands with
  | [] => T l MsgAdvAutoPlain []
  | b :: bands => if (b.1 =? band)%string then T l MsgAdvAuto [AStr (T l b.2 [])] else auto_band l bands band
  end.

Definition fillAdvanced (clock_s : Z → string) (l : string) (adv : State.Advanced) (det : Privsvc.Detection)
    (log : list LogRing.LogEntry) (dropped : Z) : advancedPart :=
  MkAdvancedPart adv
    (if State.aChannel adv =? 0 then ""%string else Itoa (State.aChannel adv))
    (Privsvc.dt_Country det) (Privsvc.dt_Subnet det) (Privsvc.dt_ChannelPinned det)
    (T l MsgAdvAuto [AStr (isolateLTR (Privsvc.dt_InternetInterface det))])
    (T l MsgAdvAuto [AStr (isolateLTR (Privsvc.HotspotInterface det))])
    (if Privsvc.dt_Channel det =? 0 then T l MsgAdvAutoPlain []
     else T l MsgAdvAuto [AStr (isolateLTR (Itoa (Privsvc.dt_Channel det)))])
    (auto_band l BandChoices (Privsvc.dt_Band det))
    (T l MsgAdvAuto [AStr (isolateLTR defaultEngineLogLevel)])
    (iface_choice l <$> Privsvc.Interfaces det)
    ((λ ch, (Itoa ch, State.aChannel adv =? ch)) <$> Privsvc.dt_UsableChannels det)
    ((λ b, (b.1, T l b.2 [], (State.aBand adv =? b.1)%string)) <$> BandChoices)
    ((λ lv, (lv, (State.aEngineLogLevel adv =? lv)%string)) <$> Privsvc.EngineLogLevels)
    [MkFact (T l MsgAdvDNSLabel []) "" (T l MsgAdvDNSValue []); MkFact (T l MsgAdvDropLabel []) "" (T l MsgAdvDropValue [])]
    ((λ e, (clock_s (LogRing.At e), LogRing.Text e)) <$> log)
    (if dropped <? 2 ^ 63 then dropped else dropped - 2 ^ 64).

(** *** The page *)

Record page := MkPage {
  pg_Notice : string;
  pg_Problem : pageProblem;
  pg_SetupIncomplete : bool;
  pg_Config : configPart;
  pg_Subscription : subscriptionPart;
  pg_Status : statusPart;
  pg_Tiles : list Tile;
  pg_Hotspot : hotspotPart;
  pg_Events : list EventLine;
  pg_NextStep : string;
  pg_Advanced : advancedPart
}.

Section Page.
Context {R : Type} `{Link.Conf R}.

(** The body of handleIndex after the status was polled: what a session's message,
    the stored settings, the status, the events and the engine's log make of the
    page; [rands] are the two suggestions' random bytes, and the clock is read twice. *)
Definition index_page (clock : Time → string) (clock_s : Z → string) (l : string) (flash_ : Problem * string) (store : State.Store)
    (st : Service.SystemStatus) (fault : Privsvc.PFault) (now now' : Time) (rands : option (list Z) * option (list Z))
    (es : list Event) (log : list LogRing.LogEntry * Z) : option page :=
  let s := State.cur store in
  let proxy := State.Proxy s in
  let d := setProblem l flash_.1 no_page_problem in
  let notice := if (flash_.2 =? "")%string then ""%string else T l flash_.2 [] in
  '(cfg, d) ← fillConfig l proxy d;
  let sub := fillSubscription l (ConfigEntries cfg) proxy st fault now in
  let '(status, d) := fillStatus l (AntiDPIOn cfg) d st fault in
  let tiles := fillTiles l status (HasConfig cfg) (ConfigName cfg) (ConfigSummary cfg) st fault now' in
  hot ← fillHotspot l rands.1 rands.2 (State.Hotspot s);
  let next_ := fillNextStep l d (HasConfig cfg) (negb (State.hSSID (State.Hotspot s) =? "")%string)
                 (Service.ss_ClientTrafficCut st) (Connected status) (phase_is st Service.PhaseStarting)
                 (Service.hst_Devices (Service.ss_Hotspot st)) in
  Some (MkPage notice d (State.NeedsSetup store) cfg sub status tiles hot (fillEvents clock l es) next_
          (fillAdvanced clock_s l (State.sAdvanced s) (Service.ss_Detection st) log.1 log.2)).

End Page.

(** *** The status the page polls *)

Record statusJSON := MkStatusJSON {
  js_Connected : bool;
  js_Running : bool;
  js_HeroClass : string;
  js_PowerClass : string;
  js_NextStep : string;
  js_Word : string;
  js_Shape : string;
  js_Devices : Z;
  js_DeviceLine : string;
  js_Detected : string;
  js_LocalProxy : string;
  js_AntiDPI : bool;
  js_Problem : string;
  js_HasConfig : bool;
  js_Uptime : string;
  js_PowerLabel : string;
  js_TrafficCut : bool;
  js_CutLabel : string;
  js_CutBanner : string;
  js_Events : list string
}.

Definition newStatusJSON (l : string) (proxy : State.ProxyConfig) (st : Service.SystemStatus) (fault : Privsvc.PFault)
    (hasConfig hasHotspot : bool) (now : Time) (es : list Event) : statusJSON :=
  let antiDPI := negb (State.SpoofSNI proxy =? "")%string || State.TCPSplit proxy || State.TLSRecordSplit proxy in
  let '(s, d) := fillStatus l antiDPI no_page_problem st fault in
  let tiles := fillTiles l s hasConfig "" "" st fault now in
  let starting := phase_is st Service.PhaseStarting in
  let cut := Service.ss_ClientTrafficCut st in
  MkStatusJSON (Connected s) (Running s) (heroClass (TrafficCut s) (Connected s) starting) (powerClass (Connected s) (Running s))
    (fillNextStep l d hasConfig hasHotspot cut (Connected s) starting (Service.hst_Devices (Service.ss_Hotspot st)))
    (StatusWord s) (StatusShape s) (Service.hst_Devices (Service.ss_Hotspot st)) (DeviceLine s) (sp_DetectedLine s)
    (LocalProxy s) (AntiDPIShown s)
    (TrimSpace (TrimSpace (ProblemHeadline d ++ " " ++ ProblemAdvice d)%string))
    hasConfig (match tiles !! 3%nat with Some t => tl_Value t | None => "" end)
    (powerLabel l (Running s)) cut (cutLabel l cut) (T l MsgCutBanner []) (Sentence l <$> es).

(** The body of handleStatusJSON *)
Definition status_json (l : string) (store : State.Store) (st : Service.SystemStatus) (fault : Privsvc.PFault) (now : Time)
    (es : list Event) : statusJSON :=
  let s := State.cur store in
  newStatusJSON l (State.Proxy s) st fault (State.IsConfigured (State.Proxy s)) (negb (State.hSSID (State.Hotspot s) =? "")%string)
    now es.
