(* ===== verification/Panel.v ===== *)
(** * The panel's requests (internal/panel: handlers.go, sni.go, panel.go)

    What every private request does to the box: the stored settings, the calls made
    of the privileged service, the events, and the message left for the next page.
    The privileged service is the class [Privileged]; the engine's loader, which
    Validate asks whether a document can be loaded, is the parameter [load_error].
    The calls made are recorded in order. A request ends with an answer for its
    session, or with a panic. *)

From S2P Require Import Prelude GoStrings Netip Text GoTime StateError Messages Session PanelView.
From S2P Require Facts Url Hello Redact Link State Privsvc Refresh LogRing Service Auth.

Local Open Scope Z_scope.
Local Open Scope svc_scope.

(** ** The interface of the privileged service (priv.go) *)

Class Privileged (K : Type) := {
  pDetect : K → res Privsvc.PFault Privsvc.Detection * K;
  pStatus : K → res Privsvc.PFault Service.SystemStatus * K;
  pStart : Privsvc.StartRequest → K → res Privsvc.PFault unit * K;
  pStop : K → res Privsvc.PFault unit * K;
  pEngineLog : K → res Privsvc.PFault (list LogRing.LogEntry * Z) * K;
  pCut : K → res Privsvc.PFault unit * K;
  pRestore : K → res Privsvc.PFault unit * K;
  pRecover : Privsvc.StartRequest → K → res Privsvc.PFault unit * K;
  pRefresh : string → K → res Privsvc.PFault Refresh.RefreshReply * K
}.

Inductive call :=
| CDetect | CStatus | CStart (r : Privsvc.StartRequest) | CStop | CEngineLog | CCut | CRestore
| CRecover (r : Privsvc.StartRequest) | CRefresh (url : string).

(** ** The box *)

Record Box (K : Type) := MkBox {
  store : State.Store;
  sys : State.Sys;
  priv : K;
  events : eventLog;
  calls : list call;
  readings : nat         (* how often the clock was read *)
}.
Arguments MkBox {K}. Arguments store {K}. Arguments sys {K}. Arguments priv {K}. Arguments events {K}.
Arguments calls {K}. Arguments readings {K}.

(** The message set for the session before the redirect home, or a panic. *)
Inductive exit := Answer (p : Problem) (notice : string) | Panic.

Definition PM (K A : Type) : Type := SE (Box K) exit A.

Definition maxBodyBytes : Z := 262144.   (* 256 << 10 *)

(** maxLabel cuts bytes. *)
Definition typed_label (s : string) : string :=
  let label := TrimSpace s in if (maxLabel <? String.length label)%nat then substr_to label maxLabel else label.

Definition settings (b : State.Store) : State.State := State.cur b.

Definition zero_status : Service.SystemStatus :=
  Service.MkSystemStatus (Service.MkEngineState Service.PhaseStopped "" 0)
    (Service.MkHotspotStatus false "" 0 0 Privsvc.FaultNone) Privsvc.no_detection false "" 0.

(** strings.ToUpper, as far as isCountryCode can tell: outside ASCII only U+0131 and
    U+017F become a capital letter of it. *)
Definition upper_ascii (c : ascii) : ascii :=
  let n := nat_of_ascii c in if (97 <=? n)%nat && (n <=? 122)%nat then ascii_of_nat (n - 32) else c.
Definition ToUpper (s : string) : string :=
  of_l (upper_ascii <$> to_l (Link.replaceAll (Link.replaceAll s (of_l ["196"; "177"]%char) "i") (of_l ["197"; "191"]%char) "s")).

Definition isCountryCode (s : string) : bool :=
  (String.length s =? 2)%nat && forallb HotspotConf.upper_letter (to_l s).

(** ** validateOverrides *)

Fixpoint ap_capable (l : list Privsvc.InterfaceInfo) (name : string) : bool :=
  match l with
  | [] => false
  | i :: l => if (Privsvc.ii_Name i =? name)%string then Privsvc.CanHostAP i else ap_capable l name
  end.
Definition known (det : Privsvc.Detection) (name : string) : bool :=
  existsb (λ i, (Privsvc.ii_Name i =? name)%string) (Privsvc.Interfaces det).

Definition check_subnet (subnet : string) : Problem :=
  if (subnet =? "")%string then no_problem
  else match ParsePrefix subnet with
       | None => plain MsgAdvBadSubnet MsgAdvBadSubnetAdvice
       | Some p =>
           if negb (Is4 (p_addr p)) then plain MsgAdvSubnetV4 MsgAdvSubnetV4Advice
           else if 30 <? Bits p then plain MsgAdvSubnetSmall MsgAdvSubnetSmallAdvice
           else no_problem
       end.

Definition validateOverrides (det : Privsvc.Detection) (internet hotspotIf : string) (channel : Z)
    (band country subnet logLevel : string) : Problem :=
  if negb (internet =? "")%string && negb (known det internet) then plain MsgAdvBadInternet MsgAdvBadInternetAdvice
  else if negb (hotspotIf =? "")%string && negb (known det hotspotIf) then plain MsgAdvBadHotspot MsgAdvBadHotspotAdvice
  else if negb (hotspotIf =? "")%string && negb (ap_capable (Privsvc.Interfaces det) hotspotIf) then
    plain MsgAdvNoAP MsgAdvNoAPAdvice
  else if negb (channel =? 0) && negb (existsb (Z.eqb channel) (Privsvc.dt_UsableChannels det)) then
    plain MsgAdvBadChannel MsgAdvBadChannelAdvice
  else if negb (ValidBand band) then plain MsgAdvBadBand MsgAdvBadBandAdvice
  else if negb (country =? "")%string && negb (isCountryCode country) then plain MsgAdvBadCountry MsgAdvBadCountryAdvice
  else
    let p := check_subnet subnet in
    if negb (Empty p) then p
    else if negb (Privsvc.ValidEngineLogLevel logLevel) then plain MsgAdvBadLogLevel MsgAdvBadLogLevelAdvice
    else no_problem.

(** ** The request for the privileged service *)

Definition start_request (st : State.State) (cfg : list ascii) : Privsvc.StartRequest :=
  let a := State.sAdvanced st in
  Privsvc.MkStartRequest (State.SpoofSNI (State.Proxy st)) (State.TCPSplit (State.Proxy st)) (State.TLSRecordSplit (State.Proxy st))
    (of_l cfg)
    (Privsvc.MkHotspotSpec (State.hSSID (State.Hotspot st)) (State.hPassphrase (State.Hotspot st)) (State.HotspotInterface a)
       (State.aChannel a) (State.aBand a) (State.aCountry a) (State.aSubnet a))
    (Privsvc.MkNetworkSpec (State.InternetInterface a) (State.DNSMode a) (State.OnTunnelDown a) (State.ClientIPv6 a))
    (State.aEngineLogLevel a).

(** The edit handleAdvanced hands to Update *)
Definition edit_advanced (internet hotspotIf band : string) (connectionsOnly : bool) (channel : Z) (country subnet logLevel : string)
    (onLAN : bool) (st : State.State) : res State.state_error State.State :=
  let a := State.set_aBand band (State.set_HotspotInterface hotspotIf (State.set_InternetInterface internet (State.sAdvanced st))) in
  Ok (State.set_sAdvanced
        (if connectionsOnly then a
         else State.set_PanelOnLAN onLAN (State.set_aEngineLogLevel logLevel (State.set_aSubnet subnet
                (State.set_aCountry country (State.set_aChannel channel a))))) st).

Section Panel.
Context {K R : Type} `{Privileged K} `{Link.Conf R}.
Context (toASCII : string → option string) (euid : Z).
Context (load_error : string → option string).
Context (filename : string → option string).
Context (time_now : nat → Time).

Local Abbreviation M := (PM K).

(** ** Pieces *)

Definition tick : M Time := λ b,
  (Ok (time_now (readings b)), MkBox (store b) (sys b) (priv b) (events b) (calls b) (S (readings b))).

Definition ask {A} (c : call) (f : K → res Privsvc.PFault A * K) : M (res Privsvc.PFault A) := λ b,
  let '(r, k) := f (priv b) in (Ok r, MkBox (store b) (sys b) k (events b) (calls b ++ [c]) (readings b)).

(** The store's Update; an edit that reads the clock reads it first. *)
Definition update (fn : State.State → res State.state_error State.State) : M (res State.state_error unit) :=
  now <-- tick;;
  λ b, let '(r, st, w) := State.Update toASCII euid fn (UTC now) (store b) (sys b) in
       (Ok r, MkBox st w (priv b) (events b) (calls b) (readings b)).

Definition add_event (kind : EventKind) (f : Privsvc.PFault) : M unit :=
  now <-- tick;;
  λ b, (Ok tt, MkBox (store b) (sys b) (priv b) (add kind f now (events b)) (calls b) (readings b)).

Definition observe_status (st : Service.SystemStatus) (reachable : bool) : M unit :=
  now <-- tick;;
  λ b, (Ok tt, MkBox (store b) (sys b) (priv b) (observe st reachable now (events b)) (calls b) (readings b)).

Definition Snapshot : M State.State := λ b, (Ok (settings (store b)), b).

(** sess.setFlash(p, notice); p.home(w, r); return *)
Definition leave {A} (p : Problem) (notice : string) : M A := raise (Answer p notice).
Definition leave_if {A} (p : Problem) (m : M A) : M A := if Empty p then m else leave p "".

Definition no_panic {A} (o : option A) : M A := match o with Some a => ret a | None => raise Panic end.

(** engine.Validate: the error's text, as its Error method gives it *)
Definition Validate (doc : list ascii) : option string :=
  (λ msg, "validate: " ++ Redact.Redact msg)%string <$> load_error (of_l doc).

(** EngineRejection with engineDetail *)
Definition rejection (msg : string) : Problem :=
  let p := EngineRejection msg in
  MkProblem (Stage p) (Headline p) (Advice p) (AdviceArgs p) (Redact.Redact msg).

(** Panel.status *)
Definition status : M (Service.SystemStatus * Privsvc.PFault) :=
  r <-- ask CStatus pStatus;;
  ret (match r with
       | Err f => (zero_status, match f with Privsvc.FaultUnknown => Privsvc.FaultUnavailable | f => f end)
       | Ok st => (st, Privsvc.FaultNone)
       end).

(** ** Starting *)

Definition bringUp (st : State.State) (c : Privsvc.StartRequest → call)
    (via : Privsvc.StartRequest → K → res Privsvc.PFault unit * K) : M Problem :=
  r <-- no_panic (Link.Select (State.Raw (State.Proxy st)) (State.Selected (State.Proxy st)));;
  match r with
  | Err e => ret (ParseProblem (Some e))
  | Ok (l, _) =>
      match Link.XrayConfig l with
      | Err _ => ret EngineProblem
      | Ok cfg =>
          match Validate cfg with
          | Some msg => ret (rejection msg)
          | None =>
              let req := start_request st cfg in
              r <-- ask (c req) (via req);;
              match r with
              | Err f => add_event EventStartFailed f;;; ret (StartProblem f)
              | Ok _ => ret no_problem
              end
          end
      end
  end.

Definition startNow (st : State.State) : M Problem := bringUp st CStart pStart.
Definition recoverNow (st : State.State) : M Problem := bringUp st CRecover pRecover.

(** Stop, then start on the settings as they are now stored *)
Definition restart (notice : string) : M exit :=
  r <-- ask CStop pStop;;
  match r with
  | Err f => leave (StartProblem f) ""
  | Ok _ =>
      st <-- Snapshot;;
      p <-- startNow st;;
      leave_if p (ret (Answer no_problem notice))
  end.

Definition afterConfigChange (saved reconnected : string) : M exit :=
  sf <-- status;;
  if negb (is_fault sf.2) && phase_is sf.1 Service.PhaseRunning then restart reconnected
  else ret (Answer no_problem saved).

(** ** The handlers *)

Definition handleCut (r : Auth.Request) : M exit :=
  let cut := (Auth.PostFormValue r "cut" =? "1")%string in
  res <-- (if cut then ask CCut pCut else ask CRestore pRestore);;
  match res with
  | Err f => leave (StartProblem f) ""
  | Ok _ =>
      add_event (if cut then EventTrafficCut else EventTrafficRestored) Privsvc.FaultNone;;;
      ret (Answer no_problem (if cut then MsgNoticeCut else MsgNoticeRestored))
  end.

Definition handlePower (r : Auth.Request) : M exit :=
  if negb (Auth.PostFormValue r "on" =? "1")%string then
    res <-- ask CStop pStop;;
    match res with
    | Err f => leave (StartProblem f) ""
    | Ok _ => add_event EventSwitchedOff Privsvc.FaultNone;;; ret (Answer no_problem MsgNoticeOff)
    end
  else
    st <-- Snapshot;;
    if negb (State.IsConfigured (State.Proxy st)) then leave (plain MsgNoConfigYet MsgNoConfigYetAdvice) ""
    else if (State.hSSID (State.Hotspot st) =? "")%string || State.secret_zero (State.hPassphrase (State.Hotspot st)) then
      leave (plain MsgNoHotspotYet MsgNoHotspotYetAdvice) ""
    else
      p <-- startNow st;;
      leave_if p (add_event EventSwitchedOn Privsvc.FaultNone;;; ret (Answer no_problem MsgNoticeOn)).

Definition handleRecover (r : Auth.Request) : M exit :=
  st <-- Snapshot;;
  p <-- recoverNow st;;
  if negb (Empty p) then add_event EventRecovered Privsvc.FaultUnknown;;; leave p ""
  else add_event EventRecovered Privsvc.FaultNone;;; ret (Answer no_problem MsgNoticeRecovered).

(** handleConfig, the part about the subscription address *)
Definition save_address (raw u : string) : M unit :=
  if (u =? "")%string then ret tt
  else
    r <-- update (State.SetSubscriptionURL u);;
    match r with
    | Err e => leave (SubscriptionProblem (Some e)) ""
    | Ok _ => if (raw =? "")%string then leave no_problem MsgNoticeSubscriptionSaved else ret tt
    end.

Definition handleConfig (r : Auth.Request) : M exit :=
  let raw := TrimSpace (Auth.PostFormValue r "config") in
  let label := typed_label (Auth.PostFormValue r "label") in
  save_address raw (TrimSpace (Auth.PostFormValue r "subscription_url"));;;
  st <-- Snapshot;;
  let replacing := State.IsConfigured (State.Proxy st) in
  p <-- no_panic (Link.Parse raw);;
  match p with
  | Err e => leave (ParseProblem (Some e)) ""
  | Ok l =>
      match Link.XrayConfig l with
      | Err _ => leave EngineProblem ""
      | Ok cfg =>
          match Validate cfg with
          | Some msg => leave (rejection msg) ""
          | None =>
              now <-- tick;;
              s <-- update (State.SetProxyConfig raw (Link.l_Protocol l) label (UTC now));;
              match s with
              | Err _ => leave (plain MsgSaveConfigFailed MsgSaveFailedAdvice) ""
              | Ok _ =>
                  add_event (if replacing then EventConfigChanged else EventConfigAdded) Privsvc.FaultNone;;;
                  afterConfigChange MsgNoticeConfigSaved MsgNoticeConfigReconn
              end
          end
      end
  end.

Definition bad_entry : Problem := plain MsgSelectBadEntry MsgSelectBadEntryAdvice.

Definition handleSelect (r : Auth.Request) : M exit :=
  st <-- Snapshot;;
  let proxy := State.Proxy st in
  if negb (State.IsConfigured proxy) then leave (plain MsgNoConfigYet MsgNoConfigYetAdvice) ""
  else match Atoi (Auth.PostFormValue r "entry") with
       | None => leave bad_entry ""
       | Some i =>
           if i <? 0 then leave bad_entry ""
           else
             p <-- no_panic (Link.ParseAll (State.Raw proxy));;
             match p with
             | Err None => raise Panic
             | Err (Some e) => leave (ParseProblem (Some e)) ""
             | Ok list_ =>
                 if negb (existsb (λ e, Link.e_Index e =? i) (Link.Entries list_)) then leave bad_entry ""
                 else if i =? State.Selected proxy then ret (Answer no_problem MsgNoticeEntrySelected)
                 else
                   s <-- update (State.SelectProxyEntry i);;
                   match s with
                   | Err _ => leave (plain MsgSaveSelectFailed MsgSaveFailedAdvice) ""
                   | Ok _ =>
                       add_event EventConfigChanged Privsvc.FaultNone;;;
                       afterConfigChange MsgNoticeEntrySelected MsgNoticeEntryReconn
                   end
             end
       end.

Definition is_on (s : string) : bool := (s =? "on")%string.

Definition handleSNI (r : Auth.Request) : M exit :=
  match Hello.NormalizeName toASCII (Auth.PostFormValue r "spoof_sni") with
  | Err _ => leave (plain MsgSNISpoofInvalid "") ""
  | Ok name =>
      let tcp := Auth.PostFormValue r "tcp_split" in
      let tls := Auth.PostFormValue r "tls_record_split" in
      let set s := negb (s =? "")%string in
      if (set tcp && negb (is_on tcp)) || (set tls && negb (is_on tls)) then leave (plain MsgSNISpoofInvalid "") ""
      else
        st <-- Snapshot;;
        p <-- no_panic (Link.Select (State.Raw (State.Proxy st)) (State.Selected (State.Proxy st)));;
        match p with
        | Err e => leave (ParseProblem (Some e)) ""
        | Ok (l, _) =>
            if ((set name || set tcp || set tls) && negb (Privsvc.SupportsTransport (Link.l_Protocol l) (Link.l_Network l))) ||
               ((set tcp || set tls) && match Link.l_Security l with Link.SecurityTLS => false | _ => true end)
            then leave (StartProblem Privsvc.FaultSNISpoofUnsupported) ""
            else
              s <-- update (State.SetDPISettings toASCII name (is_on tcp) (is_on tls));;
              match s with
              | Err _ => leave (plain MsgSaveConfigFailed MsgSaveFailedAdvice) ""
              | Ok _ => afterConfigChange MsgSNISpoofSaved MsgSNISpoofSaved
              end
        end
  end.

(** A refresh that did not finish *)
Definition refresh_failed {A} (p : Problem) : M A := add_event EventRefreshFailed Privsvc.FaultNone;;; leave p "".

Definition header_of (h : list (string * string)) (k : string) : string :=
  match List.find (λ p, (p.1 =? k)%string) h with Some p => p.2 | None => "" end.

Definition handleRefresh (r : Auth.Request) : M exit :=
  st <-- Snapshot;;
  let proxy := State.Proxy st in
  if (State.SubscriptionURL proxy =? "")%string then leave (plain MsgRefreshNoURL MsgRefreshNoURLAdvice) ""
  else
    reply <-- ask (CRefresh (State.SubscriptionURL proxy)) (pRefresh (State.SubscriptionURL proxy));;
    match reply with
    | Err f => refresh_failed (refreshProblem f)
    | Ok reply =>
        if (Refresh.rp_Status reply <? 200) || (299 <? Refresh.rp_Status reply) then
          refresh_failed (MkProblem StageNone MsgRefreshBadStatus MsgRefreshBadStatusAdvice [AInt (Refresh.rp_Status reply)] "")
        else if maxBodyBytes <? Z.of_nat (length (Refresh.rp_Body reply)) then
          refresh_failed (plain MsgRefreshTooLarge MsgRefreshTooLargeAdvice)
        else
          let body := of_l (Refresh.rp_Body reply) in
          let header := header_of (Refresh.rp_Headers reply) in
          let label := State.Label proxy in
          let label := if (label =? "")%string then labelFromHeaders filename header else label in
          p <-- no_panic (Link.Parse body);;
          match p with
          | Err _ => refresh_failed (plain MsgRefreshNotConfig MsgRefreshNotConfigAdvice)
          | Ok l =>
              match Link.XrayConfig l with
              | Err _ => refresh_failed (rejection "the config could not be serialised")
              | Ok cfg =>
                  match Validate cfg with
                  | Some msg => refresh_failed (rejection msg)
                  | None =>
                      let q := parseUserinfo (header "subscription-userinfo"%string) in
                      now <-- tick;;
                      s <-- update (State.RecordRefresh body (Link.l_Protocol l) label q now);;
                      match s with
                      | Err _ => leave (plain MsgSaveConfigFailed MsgSaveFailedAdvice) ""
                      | Ok _ =>
                          add_event EventConfigRefreshed Privsvc.FaultNone;;;
                          afterConfigChange MsgNoticeRefreshed MsgNoticeRefreshReconn
                      end
                  end
              end
          end
    end.

Definition handleHotspot (r : Auth.Request) : M exit :=
  let ssid := TrimSpace (Auth.PostFormValue r "ssid") in
  let pass := Auth.PostFormValue r "passphrase" in
  leave_if (ValidateSSID ssid) (leave_if (ValidatePassphrase pass) (
    s <-- update (State.SetHotspot ssid pass);;
    match s with
    | Err _ => leave (plain MsgSaveHotspotFailed MsgSaveFailedAdvice) ""
    | Ok _ =>
        add_event EventHotspotNamed Privsvc.FaultNone;;;
        sf <-- status;;
        if negb (is_fault sf.2) && Service.hst_Running (Service.ss_Hotspot sf.1) then restart MsgNoticeHotspotRenamed
        else ret (Answer no_problem MsgNoticeHotspotSaved)
    end)).

Definition handleAdvanced (r : Auth.Request) : M exit :=
  det <-- ask CDetect pDetect;;
  match det with
  | Err f => leave (plain (FaultKey f) "") ""
  | Ok det =>
      let value k := TrimSpace (Auth.PostFormValue r k) in
      let internet := value "internet_interface"%string in
      let hotspotIf := value "hotspot_interface"%string in
      let band := value "band"%string in
      let connectionsOnly := (Auth.PostFormValue r "connections_only" =? "1")%string in
      match (let v := value "channel"%string in if (v =? "")%string then Some 0 else Atoi v) with
      | None => leave (plain MsgAdvChannelNaN "") ""
      | Some channel =>
          st <-- Snapshot;;
          let adv := State.sAdvanced st in
          let '(channel, country, subnet, logLevel) :=
            if connectionsOnly then (State.aChannel adv, State.aCountry adv, State.aSubnet adv, State.aEngineLogLevel adv)
            else (channel, ToUpper (value "country"%string), value "subnet"%string, value "engine_log_level"%string) in
          leave_if (validateOverrides det internet hotspotIf channel band country subnet logLevel) (
            s <-- update (edit_advanced internet hotspotIf band connectionsOnly channel country subnet logLevel
                   (Auth.PostFormValue r "panel_on_lan" =? "1")%string);;
            match s with
            | Err _ => leave (plain MsgSaveAdvancedFailed MsgSaveFailedAdvice) ""
            | Ok _ =>
                add_event EventAdvancedSaved Privsvc.FaultNone;;;
                ret (Answer no_problem MsgNoticeAdvancedSaved)
            end)
      end
  end.

(** ** The pages that read *)

(** handleIndex and handleStatusJSON poll the status, observe it, and draw. *)
Definition handleIndex (clock : Time → string) (clock_s : Z → string) (l : string) (advanced : bool) (flash_ : Problem * string)
    (rands : option (list Z) * option (list Z)) : M page :=
  sf <-- status;;
  observe_status sf.1 (negb (is_fault sf.2));;;
  now <-- tick;;
  now' <-- tick;;
  log <-- (if advanced then ask CEngineLog pEngineLog else ret (Ok ([], 0)));;
  let log := match log with Ok log => log | Err _ => ([], 0) end in
  λ b, no_panic (es ← entries (events b);
                 index_page clock clock_s l flash_ (store b) sf.1 sf.2 now now' rands es log) b.

Definition handleStatusJSON (l : string) : M statusJSON :=
  sf <-- status;;
  observe_status sf.1 (negb (is_fault sf.2));;;
  now <-- tick;;
  λ b, no_panic (es ← entries (events b); Some (status_json l (store b) sf.1 sf.2 now es)) b.

(** ** The gate in front of everything (panel.go, ServeHTTP) *)

(** The headers the origin check reads; a header that was not sent is empty. *)
Record Origin := MkOrigin { secFetchSite : string; origin : string; reqHost : string }.

Definition sameOriginPost (o : Origin) : bool :=
  if (secFetchSite o =? "cross-site")%string then false
  else if (origin o =? "")%string || (origin o =? "null")%string then true
  else match Url.Parse (origin o) with
       | None => false
       | Some u => Facts.EqualFold (Url.url_Host u) (reqHost o)
       end.

(** An unsafe request of another origin is refused before any handler; [None] is that
    refusal, a problem page with status 403. *)
Definition ServeHTTP {A} (method : string) (o : Origin) (next : A) : option A :=
  if negb (method =? "GET")%string && negb (method =? "HEAD")%string && negb (sameOriginPost o) then None else Some next.

(** quoteJSON, for the constants of writeJSONError *)
Definition quote_json_char (c : ascii) : list ascii :=
  if Ascii.eqb c dquote || Ascii.eqb c "\" then ["\"%char; c]
  else if Ascii.eqb c "010" then ["\"; "n"]%char
  else if (nat_of_ascii c <? 32)%nat then [" "%char] else [c].
Definition quoteJSON (s : string) : string :=
  of_l (dquote :: concat (quote_json_char <$> to_l s) ++ [dquote]).

(** advancedFlag: the query's value, empty when absent, then the cookie; and the cookie set *)
Definition advancedFlag (query : string) (cookie : option string) : bool * option string :=
  if negb (query =? "")%string then
    let on := (query =? "1")%string in (on, Some (if on then "1"%string else "0"%string))
  else (match cookie with Some v => (v =? "1")%string | None => false end, None).

(** ** Dispatch *)

Inductive post := PPower | PCut | PConfig | PSelect | PSNI | PRefresh | PHotspot | PAdvanced | PRecover.

Definition handler (p : post) : Auth.Request → M exit :=
  match p with
  | PPower => handlePower | PCut => handleCut | PConfig => handleConfig | PSelect => handleSelect | PSNI => handleSNI
  | PRefresh => handleRefresh | PHotspot => handleHotspot | PAdvanced => handleAdvanced | PRecover => handleRecover
  end.

(** What a request that passed the gate does. *)
Definition run (p : post) (r : Auth.Request) (b : Box K) : exit * Box K :=
  match handler p r b with (Ok e, b) | (Err e, b) => (e, b) end.

(** Requests of any browsers, one after another; between them the page may be
    polled, and the privileged service may change on its own. *)
Inductive happening :=
| Post (p : post) (r : Auth.Request)
| Poll (l : string)
| Meanwhile (k : K).

Definition happen (b : Box K) (h : happening) : Box K :=
  match h with
  | Post p r => (run p r b).2
  | Poll l => (handleStatusJSON l b).2
  | Meanwhile k => MkBox (store b) (sys b) k (events b) (calls b) (readings b)
  end.

End Panel.
