(* ===== verification/PanelFacts.v ===== *)
(** * What the panel's requests keep

    Over every sequence of requests: what is stored stays usable, what is started
    was checked, every answer has words in both languages, the page and the polled
    status agree, and the panel listens on no address the outside can reach. *)

From S2P Require Import Prelude GoStrings Netip Text GoTime StateError Messages Session PanelView Panel.
From S2P Require Subnet Detect DetectFacts HotspotConf Hello Redact Link LinkFacts LinkDoc State Privsvc Refresh LogRing Service Auth.

Local Open Scope Z_scope.
Local Open Scope svc_scope.

#[local] Existing Instance Privsvc.PFault_eq_dec.

(** ** Words *)

Definition worded (p : Problem) : Prop :=
  said (Headline p) [] = true ∧
  (said (Advice p) (AdviceArgs p) = true ∨ ∃ n, Advice p = MsgRefreshBadStatusAdvice ∧ AdviceArgs p = [AInt n]).
Definition worded_exit (e : exit) : Prop :=
  match e with Answer p n => worded p ∧ said n [] = true | Panic => False end.

Ltac words := split; [vm_compute; reflexivity | left; vm_compute; reflexivity].

Lemma worded_none : worded no_problem.
Proof. words. Qed.
Lemma worded_parse e : worded (ParseProblem e).
Proof. destruct e as [[]|]; words. Qed.
Lemma worded_subscription e : worded (SubscriptionProblem e).
Proof. destruct e as [[]|]; words. Qed.
Lemma worded_engine : worded EngineProblem.
Proof. words. Qed.
Lemma worded_rejection msg : worded (rejection msg).
Proof. unfold rejection, EngineRejection. destruct (Privsvc.ReasonOf msg); words. Qed.
Lemma worded_start f : worded (StartProblem f).
Proof. destruct f; words. Qed.
Lemma worded_refresh f : worded (refreshProblem f).
Proof. destruct f; words. Qed.
Lemma worded_fault f : worded (plain (FaultKey f) "").
Proof. destruct f; words. Qed.
Lemma worded_ssid s : worded (ValidateSSID s).
Proof. unfold ValidateSSID. repeat case_match; words. Qed.
Lemma worded_pass s : worded (ValidatePassphrase s).
Proof. unfold ValidatePassphrase. repeat case_match; words. Qed.
Lemma worded_subnet s : worded (check_subnet s).
Proof. unfold check_subnet. repeat case_match; words. Qed.
Lemma worded_overrides d i h c b co s lv : worded (validateOverrides d i h c b co s lv).
Proof. unfold validateOverrides. cbv zeta. pose proof (worded_subnet s). repeat case_match; try assumption; words. Qed.

Create HintDb words discriminated.
#[export] Hint Resolve worded_none worded_parse worded_subscription worded_engine worded_rejection worded_start worded_refresh
  worded_fault worded_ssid worded_pass worded_overrides : words.

Section Facts.
Context {K R : Type} `{Privileged K} `{Link.Conf R}.
Context (toASCII : string → option string) (euid : Z).
Context (load_error : string → option string).
Context (filename : string → option string).
Context (time_now : nat → Time).

Local Abbreviation M := (PM K).
Local Abbreviation handler_ := (handler toASCII euid load_error filename time_now).
Local Abbreviation run_ := (run toASCII euid load_error filename time_now).
Local Abbreviation happen_ := (happen toASCII euid load_error filename time_now).

(** A piece of a handler that ends in a value of [Q], or leaves with an answer in
    words. *)
Definition answers {A} (Q : A → Prop) (m : M A) : Prop :=
  ∀ b, match (m b).1 with Ok a => Q a | Err e => worded_exit e end.

Lemma answers_ret {A} (Q : A → Prop) a : Q a → answers Q (ret a).
Proof. intros Ha b. exact Ha. Qed.
Lemma answers_bind {A B} (Q : A → Prop) (Q' : B → Prop) (m : M A) (f : A → M B) :
  answers Q m → (∀ a, Q a → answers Q' (f a)) → answers Q' (bind m f).
Proof.
  intros Hm Hf b. specialize (Hm b). unfold bind. destruct (m b) as [[a|e] b']; [|exact Hm]. exact (Hf a Hm b').
Qed.
Lemma answers_any {A} (m : M A) : (∀ b, ∃ a b', m b = (Ok a, b')) → answers (λ _, True) m.
Proof. intros Hm b. destruct (Hm b) as (a & b' & ->). done. Qed.

Lemma answers_tick : answers (λ _, True) (tick (K := K) time_now).
Proof. by intros b. Qed.
Lemma answers_ask {A} c (f : K → res Privsvc.PFault A * K) : answers (λ _, True) (ask c f).
Proof. intros b. unfold ask. by destruct (f (priv b)). Qed.
Lemma answers_update fn : answers (λ _, True) (update (K := K) toASCII euid time_now fn).
Proof. intros b. unfold update, bind, tick. simpl. by destruct (State.Update _ _ _ _ _ _) as [[r st] w]. Qed.
Lemma answers_event k f : answers (λ _, True) (add_event (K := K) time_now k f).
Proof. by intros b. Qed.
Lemma answers_snapshot : answers (λ _, True) (Snapshot (K := K)).
Proof. by intros b. Qed.
Lemma answers_leave {A} (Q : A → Prop) p n : worded p → said n [] = true → answers Q (leave (K := K) p n).
Proof. intros Hp Hn b. by split. Qed.
Lemma answers_leave_if {A} (Q : A → Prop) p (m : M A) : worded p → answers Q m → answers Q (leave_if p m).
Proof. intros Hp Hm. unfold leave_if. destruct (Empty p); [exact Hm|]. by apply answers_leave. Qed.
Lemma answers_no_panic {A} (Q : A → Prop) (o : option A) : (∃ a, o = Some a ∧ Q a) → answers Q (no_panic o).
Proof. intros (a & -> & Ha). by apply answers_ret. Qed.

(** Choosing and listing never panic. *)
Lemma select_total raw i : ∃ r, Link.Select raw i = Some r.
Proof.
  destruct (Link.parseOutbounds raw) as [p|e] eqn:Hp; [|unfold Link.Select; rewrite Hp; by eexists].
  destruct (LinkFacts.Select_linkAt raw p i Hp) as (j & clamped & Hj & _ & _ & _ & ->).
  destruct (LinkFacts.linkAt_total raw p j Hp Hj) as (r & -> & _). by eexists.
Qed.
Lemma parse_total raw : ∃ r, Link.Parse raw = Some r.
Proof. unfold Link.Parse. destruct (select_total raw 0) as [r ->]. by eexists. Qed.

(** An entry of the list is the one its index chooses. *)
Lemma listed raw : ∃ r, Link.ParseAll raw = Some r ∧
  match r with
  | Ok li => ∀ e, e ∈ Link.Entries li → ∃ l, Link.Select raw (Link.e_Index e) = Some (Ok (l, false))
  | Err None => False
  | Err (Some _) => True
  end.
Proof.
  unfold Link.ParseAll. destruct (Link.parseOutbounds raw) as [p|e] eqn:Hp; [|by eexists].
  destruct (LinkFacts.list_go_spec raw p (length (Link.p_outbounds p)) Hp 0 [] (Link.p_dropped p) None eq_refl) as (first & -> & _ & Hn).
  cbn [mbind option_bind app]. eexists. split; [reflexivity|].
  destruct (omap (LinkFacts.shown raw) (seq 0 (length (Link.p_outbounds p)))) as [|x l] eqn:Eo.
  - destruct (LinkFacts.parsed_shape raw p Hp) as [Hne _].
    destruct (Hn eq_refl ltac:(destruct (Link.p_outbounds p); [done|simpl; lia]) eq_refl) as (e & -> & _). done.
  - intros e He. cbn [Link.Entries] in He. rewrite <- Eo in He. apply list_elem_of_omap in He as (j & Hj%elem_of_seq & Hsh).
    unfold LinkFacts.shown in Hsh. destruct (LinkFacts.Select_linkAt raw p (Z.of_nat j) Hp) as (j' & c & _ & _ & Hc2 & Hc3 & Esel).
    destruct c; [destruct (proj1 Hc3 eq_refl); lia|]. assert (j' = j) as -> by (specialize (Hc2 eq_refl); lia).
    destruct (LinkFacts.linkAt_total raw p j Hp ltac:(lia)) as (r & El & Hl). rewrite Esel, El in Hsh.
    destruct r as [k|]; [|discriminate]. simpl in Hsh. exists k. assert (Link.e_Index e = Z.of_nat j) as ->.
    { destruct (Hl k eq_refl) as (_ & Hi & _). rewrite <- Hi. by assert (e = Link.entry k) as -> by congruence. }
    by rewrite Esel, El.
Qed.

Ltac words_of :=
  match goal with
  | |- True => exact I
  | |- worded_exit (Answer _ _) => split; [first [solve [auto with words nocore] | words] | vm_compute; reflexivity]
  | |- worded _ => first [solve [auto with words nocore] | words]
  end.

Ltac answer_step :=
  first
    [ apply answers_ret; words_of
    | apply answers_leave; [words_of | vm_compute; reflexivity]
    | apply answers_leave_if; [words_of|]
    | match goal with
      | |- answers _ (bind (tick _) _) => apply (answers_bind _ _ _ _ answers_tick); intros ? _
      | |- answers _ (bind (ask _ _) _) => apply (answers_bind _ _ _ _ (answers_ask _ _)); intros ? _
      | |- answers _ (bind (update _ _ _ _) _) => apply (answers_bind _ _ _ _ (answers_update _)); intros ? _
      | |- answers _ (bind (add_event _ _ _) _) => apply (answers_bind _ _ _ _ (answers_event _ _)); intros ? _
      | |- answers _ (bind Snapshot _) => apply (answers_bind _ _ _ _ answers_snapshot); intros ? _
      | |- answers _ (match ?x with _ => _ end) => destruct x
      end ].

Lemma answers_bringUp st c via : answers worded (bringUp (K := K) load_error time_now st c via).
Proof.
  unfold bringUp. eapply answers_bind.
  { apply (answers_no_panic (λ _, True)). destruct (select_total (State.Raw (State.Proxy st)) (State.Selected (State.Proxy st))) as [r ->]. eauto. }
  intros r _. repeat answer_step.
Qed.

Lemma answers_status : answers (λ _, True) (status (K := K)).
Proof. unfold status. repeat answer_step. Qed.

Lemma answers_restart n : said n [] = true → answers worded_exit (restart (K := K) load_error time_now n).
Proof.
  intros Hn. unfold restart. repeat answer_step. eapply answers_bind; [apply answers_bringUp|]. intros p Hp.
  apply answers_leave_if; [exact Hp|]. apply answers_ret. split; [apply worded_none | exact Hn].
Qed.

Lemma answers_after s r : said s [] = true → said r [] = true →
  answers worded_exit (afterConfigChange (K := K) load_error time_now s r).
Proof.
  intros Hs Hr. unfold afterConfigChange. eapply answers_bind; [apply answers_status|]. intros sf _.
  destruct (negb _ && _); [by apply answers_restart|]. apply answers_ret. split; [apply worded_none | exact Hs].
Qed.

Lemma answers_address raw u : answers (λ _, True) (save_address (K := K) toASCII euid time_now raw u).
Proof. unfold save_address. repeat answer_step. Qed.

Lemma answers_refresh_failed {A} (Q : A → Prop) p : worded p → answers Q (refresh_failed (K := K) time_now p).
Proof.
  intros Hp. unfold refresh_failed. apply (answers_bind _ _ _ _ (answers_event _ _)); intros ? _.
  apply answers_leave; [exact Hp | vm_compute; reflexivity].
Qed.

Lemma answers_parse raw : answers (λ _, True) (no_panic (K := K) (Link.Parse raw)).
Proof. apply answers_no_panic. destruct (parse_total raw) as [r ->]. eauto. Qed.
Lemma answers_select raw i : answers (λ _, True) (no_panic (K := K) (Link.Select raw i)).
Proof. apply answers_no_panic. destruct (select_total raw i) as [r ->]. eauto. Qed.

Ltac handler_step :=
  first
    [ answer_step
    | apply answers_after; vm_compute; reflexivity
    | apply answers_restart; vm_compute; reflexivity
    | apply answers_refresh_failed; first [words_of | idtac]
    | match goal with
      | |- answers _ (bind (bringUp _ _ _ _ _) _) => eapply answers_bind; [apply answers_bringUp|]; intros ? ?
      | |- answers _ (bind status _) => apply (answers_bind _ _ _ _ answers_status); intros ? _
      | |- answers _ (bind (save_address _ _ _ _ _) _) => apply (answers_bind _ _ _ _ (answers_address _ _)); intros ? _
      | |- answers _ (bind (no_panic (Link.Parse _)) _) => apply (answers_bind _ _ _ _ (answers_parse _)); intros ? _
      | |- answers _ (bind (no_panic (Link.Select _ _)) _) => apply (answers_bind _ _ _ _ (answers_select _ _)); intros ? _
      | Hp : worded ?p |- answers _ (leave_if ?p _) => apply answers_leave_if; [exact Hp|]
      | Hp : worded ?p |- answers _ (leave ?p _) => apply answers_leave; [exact Hp | vm_compute; reflexivity]
      end ].

Lemma handler_answers p r : answers worded_exit (handler_ p r).
Proof.
  destruct p; cbn [handler].
  - unfold handlePower, startNow. repeat handler_step.
  - unfold handleCut. destruct (_ =? _)%string; repeat handler_step.
  - unfold handleConfig. repeat handler_step.
  - unfold handleSelect. repeat handler_step. eapply answers_bind with (Q := λ r, r ≠ Err None).
    { apply answers_no_panic. destruct (listed (State.Raw (State.Proxy a))) as (li & -> & Hli). eexists. split; [reflexivity|].
      by intros ->. }
    intros li Hli. destruct li as [li|[e|]]; [| |done]; repeat handler_step.
  - unfold handleSNI. repeat handler_step.
  - unfold handleRefresh. repeat handler_step.
    split; [vm_compute; reflexivity | right; eexists; split; reflexivity].
  - unfold handleHotspot. repeat handler_step.
  - unfold handleAdvanced. repeat handler_step.
  - unfold handleRecover, recoverNow. repeat handler_step.
Qed.

(** ** What is stored stays usable *)

(** A text the engine can load: its first entry parses, builds and loads. *)
Definition loads (raw : string) : Prop :=
  ∃ l cfg, Link.Parse raw = Some (Ok l) ∧ Link.XrayConfig l = Ok cfg ∧ load_error (of_l cfg) = None.

Lemma country_alpha c : isCountryCode c = true → Detect.IsUpperAlpha2 c = true.
Proof.
  unfold isCountryCode, Detect.IsUpperAlpha2, to_l. destruct c as [|a [|b [|x c]]]; try discriminate. simpl.
  unfold HotspotConf.upper_letter, HotspotConf.code. by rewrite andb_true_r.
Qed.

(** A name a network can have: one to 32 bytes of UTF-8, no control character, not
    only spaces. *)
Definition name_ok (s : string) : Prop :=
  1 ≤ HotspotConf.len s ≤ 32 ∧ ValidString s = true ∧ hasControlChars s = false ∧ onlySpaces s = false.

Lemma ssid_named s : Empty (ValidateSSID s) = true → name_ok s.
Proof.
  unfold ValidateSSID, name_ok. intros Hv. destruct (String.eqb_spec s "") as [|Hne]; [discriminate|].
  destruct (Z.ltb_spec HotspotConf.MaxSSIDLen (HotspotConf.len s)) as [|Hl]; [discriminate|].
  destruct (ValidString s); [|discriminate]. destruct (hasControlChars s); [discriminate|]. destruct (onlySpaces s); [discriminate|].
  split_and!; try done. destruct s; [done|]. unfold HotspotConf.len. simpl String.length. lia.
Qed.

(** An IPv4 subnet with room for a client. *)
Definition subnet_shaped (s : string) : Prop := ∃ p, ParsePrefix s = Some p ∧ Is4 (p_addr p) = true ∧ Bits p ≤ 30.

Lemma subnet_shape s : Empty (check_subnet s) = true → s = ""%string ∨ subnet_shaped s.
Proof.
  unfold check_subnet, subnet_shaped. destruct (String.eqb_spec s "") as [|]; [by left|]. intros Hv. right.
  destruct (ParsePrefix s) as [p|]; [|discriminate]. exists p. destruct (Is4 (p_addr p)); [|discriminate].
  destruct (Z.ltb_spec 30 (Bits p)); [discriminate|done].
Qed.

Lemma band_one_of v : ValidBand v = true → v = ""%string ∨ v = HotspotConf.Band2GHz ∨ v = HotspotConf.Band5GHz.
Proof.
  unfold ValidBand, BandChoices. cbn [existsb fst]. rewrite !orb_true_iff, !String.eqb_eq.
  by intros [->|[<-|[<-|]]]; auto.
Qed.

Record settings_ok (st : State.State) : Prop := {
  ok_loads : State.IsConfigured (State.Proxy st) = true → loads (State.Raw (State.Proxy st));
  ok_chosen : State.IsConfigured (State.Proxy st) = true →
    ∃ l, Link.Select (State.Raw (State.Proxy st)) (State.Selected (State.Proxy st)) = Some (Ok (l, false));
  ok_hotspot : State.Hotspot st = State.zero_hotspot ∨
    name_ok (State.hSSID (State.Hotspot st)) ∧
    HotspotConf.ValidatePassphrase (State.hPassphrase (State.Hotspot st)) = Ok tt;
  ok_band : let band := State.aBand (State.sAdvanced st) in
    band = ""%string ∨ band = HotspotConf.Band2GHz ∨ band = HotspotConf.Band5GHz;
  ok_country : State.aCountry (State.sAdvanced st) = ""%string ∨ Detect.IsUpperAlpha2 (State.aCountry (State.sAdvanced st)) = true;
  ok_subnet : State.aSubnet (State.sAdvanced st) = ""%string ∨ subnet_shaped (State.aSubnet (State.sAdvanced st));
  ok_level : Privsvc.ValidEngineLogLevel (State.aEngineLogLevel (State.sAdvanced st)) = true;
  ok_policies : State.DNSMode (State.sAdvanced st) = State.DNSModeTunnel ∧
    State.OnTunnelDown (State.sAdvanced st) = State.OnTunnelDownBlock ∧
    State.ClientIPv6 (State.sAdvanced st) = State.ClientIPv6Block
}.

Definition holds (b : Box K) : Prop := settings_ok (settings (store b)).

Lemma default_ok : settings_ok State.defaultState.
Proof. split; [discriminate | discriminate | by left | by left | by left | by left | reflexivity | done]. Qed.

(** The parts of a settings value the invariant looks at *)
Lemma settings_ok_stamp st now : settings_ok st → settings_ok (State.set_UpdatedAt now (State.set_Version State.CurrentVersion st)).
Proof. by intros []. Qed.

Lemma settings_ok_proxy st p : settings_ok st →
  State.Raw p = State.Raw (State.Proxy st) → State.Selected p = State.Selected (State.Proxy st) →
  settings_ok (State.set_Proxy p st).
Proof.
  intros [] Hr Hs. split; try assumption; cbn [State.Proxy State.set_Proxy]; unfold State.IsConfigured in *; rewrite Hr, ?Hs; assumption.
Qed.

Lemma parse_chooses raw l : Link.Parse raw = Some (Ok l) → Link.Select raw 0 = Some (Ok (l, false)).
Proof.
  unfold Link.Parse. intros Hp. destruct (Link.parseOutbounds raw) as [p|e] eqn:E; [|unfold Link.Select in Hp; by rewrite E in Hp].
  destruct (LinkFacts.Select_linkAt raw p 0 E) as (j & c & Hj & _ & _ & Hc3 & Esel). rewrite Esel in *.
  destruct c; [destruct (proj1 Hc3 eq_refl); lia|]. destruct (Link.linkAt p j) as [[k|]|]; simpl in *; congruence.
Qed.

Lemma settings_ok_config st p : settings_ok st → loads (State.Raw p) → State.Selected p = 0 → settings_ok (State.set_Proxy p st).
Proof.
  intros [] Hl Hs. split; try assumption; cbn [State.Proxy State.set_Proxy]; intros _; [exact Hl|].
  destruct Hl as (l & cfg & Hp & _). exists l. rewrite Hs. by apply parse_chooses.
Qed.

(** The steps that leave the settings alone *)
Definition same_settings (b b' : Box K) : Prop := store b' = store b.
#[local] Instance same_settings_pre : PreOrder same_settings.
Proof. split; unfold same_settings; [done | intros a b c H1 H2; congruence]. Qed.

Lemma same_tick : keeps same_settings (tick (K := K) time_now).
Proof. by intros b. Qed.
Lemma panel_same_ask {A} c (f : K → res Privsvc.PFault A * K) : keeps same_settings (ask c f).
Proof. intros b. unfold ask. by destruct (f (priv b)). Qed.
Lemma same_event k f : keeps same_settings (add_event (K := K) time_now k f).
Proof. by intros b. Qed.
Lemma same_snapshot : keeps same_settings (Snapshot (K := K)).
Proof. by intros b. Qed.
Lemma same_no_panic {A} (o : option A) : keeps same_settings (no_panic (K := K) o).
Proof. destruct o; by intros b. Qed.
Lemma same_leave {A} p n : keeps same_settings (leave (K := K) (A := A) p n).
Proof. by intros b. Qed.
Lemma same_leave_if {A} p (m : M A) : keeps same_settings m → keeps same_settings (leave_if p m).
Proof. unfold leave_if. intros Hm. destruct (Empty p); [exact Hm|]. apply same_leave. Qed.
#[local] Hint Resolve same_tick panel_same_ask same_event same_snapshot same_no_panic same_leave same_leave_if : keeps.

Lemma same_bringUp st c via : keeps same_settings (bringUp (K := K) load_error time_now st c via).
Proof. unfold bringUp. repeat keeps_step. Qed.
#[local] Hint Resolve same_bringUp : keeps.
Lemma panel_same_status : keeps same_settings (status (K := K)).
Proof. unfold status. repeat keeps_step. Qed.
#[local] Hint Resolve panel_same_status : keeps.
Lemma same_restart n : keeps same_settings (restart (K := K) load_error time_now n).
Proof. unfold restart, startNow. repeat keeps_step. Qed.
#[local] Hint Resolve same_restart : keeps.
Lemma same_after s r : keeps same_settings (afterConfigChange (K := K) load_error time_now s r).
Proof. unfold afterConfigChange. repeat keeps_step. Qed.
#[local] Hint Resolve same_after : keeps.
Lemma same_refresh_failed {A} p : keeps same_settings (refresh_failed (K := K) (A := A) time_now p).
Proof. unfold refresh_failed. repeat keeps_step. Qed.
#[local] Hint Resolve same_refresh_failed : keeps.
Lemma same_observe st ok : keeps same_settings (observe_status (K := K) time_now st ok).
Proof. by intros b. Qed.
#[local] Hint Resolve same_observe : keeps.
Lemma same_json l : keeps same_settings (handleStatusJSON (K := K) time_now l).
Proof.
  unfold handleStatusJSON. do 3 (apply keeps_bind; [apply _ | solve [auto with keeps] | intros ?]).
  intros b. apply same_no_panic.
Qed.
Lemma same_index clock clock_s l adv fl rands :
  keeps same_settings (handleIndex (K := K) time_now clock clock_s l adv fl rands).
Proof.
  unfold handleIndex. do 4 (apply keeps_bind; [apply _ | solve [auto with keeps] | intros ?]).
  apply keeps_bind; [apply _ | repeat keeps_step | intros log]. intros b. apply same_no_panic.
Qed.

(** From settings of [Φ], the invariant afterwards, however the piece ends *)
Definition stays_from {A} (Φ : State.State → Prop) (m : M A) : Prop :=
  hoare (λ b, Φ (settings (store b))) m (λ _ b, settings_ok (settings (store b))) (λ b, settings_ok (settings (store b))).
Definition stays {A} (m : M A) : Prop := stays_from settings_ok m.

Lemma stays_weaken {A} (Φ Ψ : State.State → Prop) (m : M A) : (∀ s, Φ s → Ψ s) → stays_from Ψ m → stays_from Φ m.
Proof. intros Hw Hm b Hb. exact (Hm b (Hw _ Hb)). Qed.
Lemma stays_same {A} (m : M A) : keeps same_settings m → stays m.
Proof. intros Hm b Hb. specialize (Hm b). unfold same_settings in Hm. destruct (m b) as [[a|e] b']; simpl in *; by rewrite Hm. Qed.
Lemma stays_bind_same {A B} Φ (m : M A) (f : A → M B) : (∀ s, Φ s → settings_ok s) → keeps same_settings m →
  (∀ a, stays_from Φ (f a)) → stays_from Φ (bind m f).
Proof.
  intros Hw Hm Hf b Hb. specialize (Hm b). unfold same_settings in Hm. unfold bind.
  destruct (m b) as [[a|e] b']; simpl in *; [apply Hf|]; rewrite Hm; auto.
Qed.
Lemma stays_bind {A B} Φ (m : M A) (f : A → M B) : stays_from Φ m → (∀ a, stays (f a)) → stays_from Φ (bind m f).
Proof. intros Hm Hf b Hb. specialize (Hm b Hb). unfold bind. destruct (m b) as [[a|e] b']; [by apply Hf | exact Hm]. Qed.
Lemma stays_snapshot {B} (f : State.State → M B) :
  (∀ st, settings_ok st → stays_from (eq st) (f st)) → stays (bind Snapshot f).
Proof. intros Hf b Hb. unfold bind, Snapshot. by apply (Hf _ Hb). Qed.
Lemma stays_no_panic {A B} Φ (o : option A) (f : A → M B) : (∀ s, Φ s → settings_ok s) →
  (∀ a, o = Some a → stays_from Φ (f a)) → stays_from Φ (bind (no_panic o) f).
Proof. intros Hw Hf. destruct o as [a|]; intros b Hb; [by apply (Hf a) | simpl; auto]. Qed.
Lemma stays_leave_if {A} Φ p (m : M A) : (∀ s, Φ s → settings_ok s) → (Empty p = true → stays_from Φ m) → stays_from Φ (leave_if p m).
Proof. intros Hw Hm. unfold leave_if. destruct (Empty p); [by apply Hm|]. intros b Hb. simpl. auto. Qed.

(** An update whose edit keeps the invariant keeps it. *)
Lemma stays_update (Φ : State.State → Prop) fn : (∀ s, Φ s → settings_ok s) → (∀ st st', Φ st → fn st = Ok st' → settings_ok st') →
  stays_from Φ (update (K := K) toASCII euid time_now fn).
Proof.
  intros Hw Hfn b Hb. unfold update, bind, tick. simpl. unfold State.Update, State.next_state.
  destruct (fn (State.cur (store b))) as [st'|] eqn:Ef; [|by apply Hw]. simpl. pose proof (Hfn _ _ Hb Ef) as Hst.
  destruct (State.validate _ _) as [[]|]; [|by apply Hw]. simpl.
  destruct (State.writeAtomic _ _ _) as [[[]|] w]; [by apply settings_ok_stamp | by apply Hw].
Qed.

(** *** The edits *)

Ltac ok_eq E := match type of E with Ok ?x = Ok ?y => assert (y = x) as -> by (injection E; auto) end.

Lemma edit_address u st st' : settings_ok st → State.SetSubscriptionURL u st = Ok st' → settings_ok st'.
Proof.
  intros Hst. unfold State.SetSubscriptionURL, State.edit_proxy. destruct (State.validateSubscriptionURL u) as [[]|]; [|discriminate]. simpl. intros E.
  ok_eq E. by apply settings_ok_proxy.
Qed.

Lemma edit_config raw scheme label now st st' : loads raw → settings_ok st →
  State.SetProxyConfig raw scheme label now st = Ok st' → settings_ok st'.
Proof.
  intros Hl Hst. unfold State.SetProxyConfig, State.edit_proxy. destruct (raw =? "")%string; [discriminate|]. simpl. intros E.
  ok_eq E. by apply settings_ok_config.
Qed.

Lemma edit_refresh raw scheme label q now st st' : loads raw → settings_ok st →
  State.RecordRefresh raw scheme label q now st = Ok st' → settings_ok st'.
Proof.
  intros Hl Hst. unfold State.RecordRefresh, State.edit_proxy.
  destruct (raw =? "")%string; [discriminate|]. destruct (negb _); [discriminate|]. destruct (_ || _); [discriminate|]. simpl. intros E.
  ok_eq E. by apply settings_ok_config.
Qed.

Lemma edit_selected i l st st' : Link.Select (State.Raw (State.Proxy st)) i = Some (Ok (l, false)) → settings_ok st →
  State.SelectProxyEntry i st = Ok st' → settings_ok st'.
Proof.
  intros Hl Hst. unfold State.SelectProxyEntry, State.edit_proxy. destruct (i <? 0); [discriminate|]. destruct (negb _); [discriminate|]. simpl. intros E.
  ok_eq E.
  destruct Hst. split; try assumption. intros _. by exists l.
Qed.

Lemma edit_dpi name tcp tls st st' : settings_ok st → State.SetDPISettings toASCII name tcp tls st = Ok st' → settings_ok st'.
Proof.
  intros Hst. unfold State.SetDPISettings, State.edit_proxy. destruct (Hello.NormalizeName toASCII name) as [n|]; [|discriminate].
  destruct (negb _); [discriminate|]. simpl. intros E.
  ok_eq E. by apply settings_ok_proxy.
Qed.

Lemma edit_hotspot ssid pass st st' : Empty (ValidateSSID ssid) = true → HotspotConf.ValidatePassphrase pass = Ok tt →
  settings_ok st → State.SetHotspot ssid pass st = Ok st' → settings_ok st'.
Proof.
  intros Hs Hp [] E. unfold State.SetHotspot in E.
  ok_eq E. split; try assumption. right. split; [by apply ssid_named|done].
Qed.

Lemma passphrase_empty p : Empty (ValidatePassphrase p) = true → HotspotConf.ValidatePassphrase p = Ok tt.
Proof. unfold ValidatePassphrase. destruct (HotspotConf.ValidatePassphrase p) as [[]|]; [done|]. by repeat case_match. Qed.

Lemma overrides_ok det i h c band country subnet level :
  Empty (validateOverrides det i h c band country subnet level) = true →
  ValidBand band = true ∧ (country = ""%string ∨ isCountryCode country = true) ∧ Empty (check_subnet subnet) = true ∧
  Privsvc.ValidEngineLogLevel level = true.
Proof.
  unfold validateOverrides. cbv zeta. intros Hv.
  repeat match type of Hv with Empty (if ?x then plain _ _ else _) = true => destruct x eqn:?; [discriminate Hv|] end.
  destruct (Empty (check_subnet subnet)) eqn:Em; simpl negb in Hv; cbv iota in Hv; [|congruence].
  destruct (Privsvc.ValidEngineLogLevel level); [|discriminate Hv]. split_and!; try done.
  - by destruct (ValidBand band).
  - destruct (country =? "")%string eqn:Ec; [left; by apply String.eqb_eq | right]. by destruct (isCountryCode country).
Qed.

Lemma edit_advanced_ok i h band conn c country subnet level lan st st' :
  ValidBand band = true → (country = ""%string ∨ isCountryCode country = true) → Empty (check_subnet subnet) = true →
  Privsvc.ValidEngineLogLevel level = true →
  settings_ok st → edit_advanced i h band conn c country subnet level lan st = Ok st' → settings_ok st'.
Proof.
  intros Hb Hc Hs Hl [] E. unfold edit_advanced in E.
  apply band_one_of in Hb. apply subnet_shape in Hs.
  assert (country = ""%string ∨ Detect.IsUpperAlpha2 country = true) as Hc' by (destruct Hc; [by left|right; by apply country_alpha]).
  ok_eq E. destruct conn; split; assumption.
Qed.

(** *** The handlers *)

Lemma stays_address raw u : stays (save_address (K := K) toASCII euid time_now raw u).
Proof.
  unfold save_address. destruct (u =? "")%string; [by apply stays_same, keeps_ret; apply _|].
  apply stays_bind; [apply stays_update; [done|]; intros; by eapply edit_address|]. intros r. apply stays_same. repeat keeps_step.
Qed.

(** After the update nothing changes the settings. *)
Lemma stays_saved {B} (Φ : State.State → Prop) fn (f : res State.state_error unit → M B) :
  (∀ s, Φ s → settings_ok s) → (∀ st st', Φ st → fn st = Ok st' → settings_ok st') → (∀ r, keeps same_settings (f r)) →
  stays_from Φ (bind (update toASCII euid time_now fn) f).
Proof. intros Hw Hfn Hf. apply stays_bind; [by apply stays_update|]. intros r. by apply stays_same. Qed.

Ltac stays_same_step := solve [apply stays_same; repeat keeps_step].

Lemma validated cfg : Validate load_error cfg = None → load_error (of_l cfg) = None.
Proof. unfold Validate. by destruct (load_error (of_l cfg)). Qed.

Lemma handler_stays p r : stays (handler_ p r).
Proof.
  destruct p; cbn [handler].
  - unfold handlePower, startNow. stays_same_step.
  - unfold handleCut. stays_same_step.
  - unfold handleConfig. apply stays_bind; [apply stays_address|]. intros _.
    apply stays_bind_same; [done | auto with keeps|]. intros st. apply stays_no_panic; [done|]. intros [l|e] Hp; [|stays_same_step].
    destruct (Link.XrayConfig l) as [cfg|] eqn:Ex; [|stays_same_step]. destruct (Validate load_error cfg) eqn:Ev; [stays_same_step|].
    apply stays_bind_same; [done | auto with keeps|]. intros now. apply stays_saved; [done| |intros s; repeat keeps_step].
    intros st1 st2 H1 H2. eapply edit_config; [|exact H1|exact H2]. exists l, cfg. split_and!; auto using validated.
  - unfold handleSelect. apply stays_snapshot. intros st Hst. apply (stays_weaken _ (λ s, settings_ok s ∧ s = st)); [by intros ? <-|].
    assert (∀ s, settings_ok s ∧ s = st → settings_ok s) as Hw by (by intros s [? _]).
    assert (∀ A (m : M A), keeps same_settings m → stays_from (λ s, settings_ok s ∧ s = st) m) as Hs.
    { intros A m Hm. apply (stays_weaken _ settings_ok); [done|]. by apply stays_same. }
    destruct (negb _); [apply Hs; repeat keeps_step|]. destruct (Atoi _) as [i|]; [|apply Hs; repeat keeps_step].
    destruct (i <? 0); [apply Hs; repeat keeps_step|]. apply stays_no_panic; [done|]. intros a Ha.
    destruct (listed (State.Raw (State.Proxy st))) as (li & Eli & Hli). rewrite Eli in Ha. assert (a = li) as -> by congruence.
    destruct li as [li|[e|]]; [|apply Hs; repeat keeps_step|done].
    destruct (existsb _ _) eqn:Ein; [|apply Hs; repeat keeps_step]. simpl. destruct (i =? _); [apply Hs; repeat keeps_step|].
    apply stays_saved; [done| |intros s; repeat keeps_step]. intros st1 st2 [H1 ->] H2.
    apply existsb_exists in Ein as (e & He%list_elem_of_In & Ei%Z.eqb_eq). destruct (Hli e He) as [l Hl]. rewrite Ei in Hl.
    by eapply edit_selected.
  - unfold handleSNI. destruct (Hello.NormalizeName _ _) as [name|]; [|stays_same_step]. destruct (_ || _); [stays_same_step|].
    apply stays_bind_same; [done | auto with keeps|]. intros st. apply stays_no_panic; [done|]. intros [[l c]|e] _; [|stays_same_step].
    destruct (_ || _); [stays_same_step|]. apply stays_saved; [done| |intros s; repeat keeps_step]. intros st1 st2. apply edit_dpi.
  - unfold handleRefresh. apply stays_bind_same; [done | auto with keeps|]. intros st. destruct (_ =? _)%string; [stays_same_step|].
    apply stays_bind_same; [done | auto with keeps|]. intros [reply|f]; [|stays_same_step].
    destruct (_ || _); [stays_same_step|]. destruct (_ <? _); [stays_same_step|]. cbv zeta.
    apply stays_no_panic; [done|]. intros [l|e] Hp; [|stays_same_step].
    destruct (Link.XrayConfig l) as [cfg|] eqn:Ex; [|stays_same_step]. destruct (Validate load_error cfg) eqn:Ev; [stays_same_step|].
    apply stays_bind_same; [done | auto with keeps|]. intros now. apply stays_saved; [done| |intros s; repeat keeps_step].
    intros st1 st2 H1 H2. eapply edit_refresh; [|exact H1|exact H2]. exists l, cfg. split_and!; auto using validated.
  - unfold handleHotspot. apply stays_leave_if; [done|]. intros Hs. apply stays_leave_if; [done|]. intros Hp%passphrase_empty.
    apply stays_saved; [done| |intros s; repeat keeps_step]. intros st1 st2. by apply edit_hotspot.
  - unfold handleAdvanced. apply stays_bind_same; [done | auto with keeps|]. intros [det|f]; [|stays_same_step].
    cbv zeta. destruct (if (_ =? _)%string then _ else _) as [c|]; [|stays_same_step].
    apply stays_bind_same; [done | auto with keeps|]. intros st.
    destruct (if (_ =? _)%string then _ else _) as [[[channel country] subnet] level].
    apply stays_leave_if; [done|]. intros (Hb & Hc & Hs & Hl)%overrides_ok. apply stays_saved; [done| |intros s; repeat keeps_step].
    intros st1 st2. by apply edit_advanced_ok.
  - unfold handleRecover, recoverNow. stays_same_step.
Qed.

Lemma happen_holds h b : holds b → holds (happen_ b h).
Proof.
  intros Hb. destruct h as [p r|l|k]; simpl.
  - pose proof (handler_stays p r b Hb) as Hs. unfold run. by destruct (handler_ p r b) as [[e|e] b'].
  - unfold holds. by rewrite (same_json l b).
  - exact Hb.
Qed.

(** ** What is started *)

Definition starts (c : call) : option Privsvc.StartRequest :=
  match c with CStart r | CRecover r => Some r | _ => None end.
Definition no_start (c : call) : Prop := starts c = None.

(** The request of the stored choice: the entry parses, builds and loads. *)
Definition vetted (st : State.State) (r : Privsvc.StartRequest) : Prop :=
  ∃ l clamped cfg, Link.Select (State.Raw (State.Proxy st)) (State.Selected (State.Proxy st)) = Some (Ok (l, clamped)) ∧
    Link.XrayConfig l = Ok cfg ∧ load_error (of_l cfg) = None ∧ r = start_request st cfg.

(** The calls since [l0]: none of them a start; or one start, the last, of the settings
    as they are stored, and alone or right after the status and the stop. *)
Definition not_yet (l0 : list call) (pre : list call → Prop) (b : Box K) : Prop :=
  ∃ new, calls b = l0 ++ new ∧ Forall no_start new ∧ pre new.
Definition at_most_one (l0 : list call) (b : Box K) : Prop :=
  not_yet l0 (λ _, True) b ∨
  ∃ new c r, calls b = l0 ++ new ++ [c] ∧ Forall no_start new ∧ starts c = Some r ∧ vetted (settings (store b)) r ∧
    (new = [] ∨ ∃ new', new = new' ++ [CStatus; CStop]).

Definition after_stop (new : list call) : Prop := new = [] ∨ ∃ new', new = new' ++ [CStatus; CStop].
Definition ends_status (new : list call) : Prop := ∃ new', new = new' ++ [CStatus].
Definition anything (new : list call) : Prop := True.

Local Abbreviation traces l0 pre m := (hoare (not_yet l0 pre) m (λ _, at_most_one l0) (at_most_one l0)).

Lemma not_yet_done l0 pre b : not_yet l0 pre b → at_most_one l0 b.
Proof. intros (new & E & Hn & _). left. by exists new. Qed.

(** The pieces that make no call *)
Definition same_calls (b b' : Box K) : Prop := calls b' = calls b.
#[local] Instance same_calls_pre : PreOrder same_calls.
Proof. split; unfold same_calls; [done | intros a b c H1 H2; congruence]. Qed.

Lemma silent_tick : keeps same_calls (tick (K := K) time_now).
Proof. by intros b. Qed.
Lemma silent_update fn : keeps same_calls (update (K := K) toASCII euid time_now fn).
Proof. intros b. unfold update, bind, tick. simpl. by destruct (State.Update _ _ _ _ _ _) as [[r st] w]. Qed.
Lemma silent_event k f : keeps same_calls (add_event (K := K) time_now k f).
Proof. by intros b. Qed.
Lemma silent_snapshot : keeps same_calls (Snapshot (K := K)).
Proof. by intros b. Qed.
Lemma silent_no_panic {A} (o : option A) : keeps same_calls (no_panic (K := K) o).
Proof. destruct o; by intros b. Qed.
Lemma silent_leave {A} p n : keeps same_calls (leave (K := K) (A := A) p n).
Proof. by intros b. Qed.
#[local] Hint Resolve silent_tick silent_update silent_event silent_snapshot silent_no_panic silent_leave : keeps.
Lemma silent_address raw u : keeps same_calls (save_address (K := K) toASCII euid time_now raw u).
Proof. unfold save_address. repeat keeps_step. Qed.
#[local] Hint Resolve silent_address : keeps.

Lemma traces_silent {A} l0 pre (m : M A) : keeps same_calls m → traces l0 pre m.
Proof.
  intros Hm b Hb. specialize (Hm b). unfold same_calls in Hm. apply not_yet_done in Hb as Hd.
  assert (at_most_one l0 (m b).2) as Hx.
  { left. destruct Hb as (new & E & Hn & Hp). exists new. by rewrite Hm. }
  by destruct (m b) as [[a|e] b'].
Qed.
Lemma traces_bind_silent {A B} l0 pre (m : M A) (f : A → M B) : keeps same_calls m → (∀ a, traces l0 pre (f a)) → traces l0 pre (bind m f).
Proof.
  intros Hm Hf b Hb. specialize (Hm b). unfold same_calls in Hm. unfold bind. assert (not_yet l0 pre (m b).2) as Hn.
  { destruct Hb as (new & E & Hn & Hp). exists new. by rewrite Hm. }
  destruct (m b) as [[a|e] b']; [by apply Hf | by eapply not_yet_done].
Qed.
Lemma traces_ask {A B} l0 (pre pre' : list call → Prop) c (f : K → res Privsvc.PFault A * K) (g : res Privsvc.PFault A → M B) :
  no_start c → (∀ new, pre new → pre' (new ++ [c])) → (∀ r, traces l0 pre' (g r)) → traces l0 pre (bind (ask c f) g).
Proof.
  intros Hc Hp Hg b (new & E & Hn & Hpre). unfold bind, ask. destruct (f (priv b)) as [r k]. apply Hg.
  exists (new ++ [c]). simpl. rewrite E, app_assoc. split_and!; auto. by apply Forall_app_2; [|constructor].
Qed.
Lemma traces_weaken {A} l0 (pre pre' : list call → Prop) (m : M A) : (∀ new, pre new → pre' new) → traces l0 pre' m → traces l0 pre m.
Proof. intros Hw Hm b (new & E & Hn & Hp). apply Hm. exists new. auto. Qed.

(** Starting on the settings as they are stored; what follows it makes no call and
    changes no settings. *)
Local Abbreviation traces_on l0 pre st m :=
  (hoare (λ b, not_yet l0 pre b ∧ settings (store b) = st) m (λ _, at_most_one l0) (at_most_one l0)).

Lemma traces_snapshot {B} l0 pre (f : State.State → M B) :
  (∀ st, traces_on l0 pre st (f st)) → traces l0 pre (bind Snapshot f).
Proof. intros Hf b Hb. unfold bind, Snapshot. by apply Hf. Qed.
Lemma traces_on_any {A} l0 pre st (m : M A) : traces l0 pre m → traces_on l0 pre st m.
Proof. intros Hm b [Hb _]. by apply Hm. Qed.

Lemma traces_start {B} l0 st c via (f : Problem → M B) : (∀ r, starts (c r) = Some r) →
  (∀ p, keeps same_calls (f p)) → (∀ p, keeps same_settings (f p)) →
  traces_on l0 after_stop st (bind (bringUp (K := K) load_error time_now st c via) f).
Proof.
  intros Hc Hf1 Hf2.
  assert (∀ p b, at_most_one l0 b → match f p b with (Ok _, b') => at_most_one l0 b' | (Err _, b') => at_most_one l0 b' end) as Hend.
  { intros p b Hb. specialize (Hf1 p b). specialize (Hf2 p b). unfold same_calls, same_settings in *.
    assert (at_most_one l0 (f p b).2) by (unfold at_most_one, not_yet; rewrite Hf1, Hf2; exact Hb). by destruct (f p b) as [[?|?] ?]. }
  intros b [Hb <-]. apply not_yet_done in Hb as Hd. unfold bind at 1, bringUp. unfold bind at 1.
  destruct (Link.Select _ _) as [[[l cl]|e]|] eqn:Es; simpl; [|by apply Hend|exact Hd].
  destruct (Link.XrayConfig l) as [cfg|] eqn:Ex; [|by apply Hend].
  destruct (Validate load_error cfg) eqn:Ev; [by apply Hend|].
  unfold bind at 1, ask. destruct (via _ _) as [r k].
  assert (∀ ev n, at_most_one l0 (MkBox (store b) (sys b) k ev (calls b ++ [c (start_request (settings (store b)) cfg)]) n)) as Hone.
  { intros ev n. right. destruct Hb as (new & E & Hn & Hp). exists new, (c (start_request (settings (store b)) cfg)), (start_request (settings (store b)) cfg).
    simpl. rewrite E, app_assoc. split_and!; auto. exists l, cl, cfg. split_and!; auto using validated. }
  destruct r as [[]|fl]; apply Hend, Hone.
Qed.

(** *** The handlers *)

Lemma silent_leave_if {A} p (m : M A) : keeps same_calls m → keeps same_calls (leave_if p m).
Proof. unfold leave_if. intros Hm. destruct (Empty p); [exact Hm|]. apply silent_leave. Qed.
#[local] Hint Resolve silent_leave_if : keeps.

Lemma traces_restart l0 n : traces l0 ends_status (restart (K := K) load_error time_now n).
Proof.
  unfold restart, startNow. apply (traces_ask _ _ after_stop); [done| |].
  { intros new [new' ->]. right. exists new'. by rewrite <- app_assoc. }
  intros [[]|f]; [|apply traces_silent; repeat keeps_step].
  apply traces_snapshot. intros st. apply traces_start; [done| |]; intros p; repeat keeps_step.
Qed.

Lemma traces_status {B} l0 (f : Service.SystemStatus * Privsvc.PFault → M B) :
  (∀ sf, traces l0 ends_status (f sf)) → traces l0 anything (bind status f).
Proof.
  intros Hf b Hb. unfold status, bind. unfold ask. destruct (pStatus (priv b)) as [r k]. simpl. apply Hf.
  destruct Hb as (new & E & Hn & _). exists (new ++ [CStatus]). simpl. rewrite E, app_assoc.
  split_and!; [done | by apply Forall_app_2; [|constructor] | by exists new].
Qed.

Lemma traces_after l0 s r : traces l0 anything (afterConfigChange (K := K) load_error time_now s r).
Proof.
  unfold afterConfigChange. apply traces_status. intros sf. destruct (_ && _); [apply traces_restart|].
  apply traces_silent. repeat keeps_step.
Qed.

Ltac trace_step :=
  first
    [ apply traces_after
    | apply traces_bind_silent; [solve [auto with keeps]|intros ?]
    | apply (traces_ask _ _ anything); [done|done|intros ?]
    | match goal with
      | |- hoare _ (match ?x with _ => _ end) _ _ => destruct x
      end
    | solve [apply traces_silent; repeat keeps_step] ].

Lemma handler_traces p r l0 : traces l0 (λ new, new = []) (handler_ p r).
Proof.
  assert (∀ A (m : M A), traces l0 anything m → traces l0 (λ new, new = []) m) as Hany.
  { intros A m. by apply traces_weaken. }
  assert (∀ A (m : M A), traces l0 after_stop m → traces l0 (λ new, new = []) m) as Hnil.
  { intros A m. apply traces_weaken. intros ? ->. by left. }
  destruct p; cbn [handler].
  - apply Hnil. unfold handlePower, startNow. destruct (negb _).
    + apply (traces_weaken _ _ anything); [done|]. repeat trace_step.
    + apply traces_snapshot. intros st. destruct (negb _); [apply traces_on_any; trace_step|].
      destruct (_ || _); [apply traces_on_any; trace_step|]. apply traces_start; [done| |]; intros p; repeat keeps_step.
  - apply Hany. unfold handleCut. destruct (_ =? _)%string; repeat trace_step.
  - apply Hany. unfold handleConfig. repeat trace_step.
  - apply Hany. unfold handleSelect. repeat trace_step.
  - apply Hany. unfold handleSNI. repeat trace_step.
  - apply Hany. unfold handleRefresh, refresh_failed. repeat trace_step.
  - apply Hany. unfold handleHotspot, leave_if. repeat trace_step. apply traces_status. intros sf.
    destruct (_ && _); [apply traces_restart | trace_step].
  - apply Hany. unfold handleAdvanced, leave_if. repeat trace_step.
  - apply Hnil. unfold handleRecover, recoverNow. apply traces_snapshot. intros st.
    apply traces_start; [done| |]; intros p; repeat keeps_step.
Qed.

(** ** The claims about requests *)

(** C8. What is stored keeps its shape over any requests, polls and changes of the
    service: the first entry of the stored text parses, builds and loads in the
    engine; the entry chosen, which may be another, is one the text has; the
    hotspot is unset, or its name is one to 32 bytes of UTF-8 without control
    characters and its password one hostapd takes; the band is one of the two, the
    country two capital letters, the subnet an IPv4 prefix no longer than a /30 and
    the log level one the engine has, or each is unset; and the policies for DNS, a
    lost tunnel and IPv6 are the blocking ones. A subnet of that shape need not be
    private, which the service asks as well (public_subnet_never_starts). *)
Theorem settings_stay_usable b hs : settings_ok (settings (store b)) → settings_ok (settings (store (foldl happen_ b hs))).
Proof. revert b. induction hs as [|h hs IH]; intros b Hb; simpl; [exact Hb|]. by apply IH, happen_holds. Qed.

(** C7. Nothing is started unchecked: a request makes at most one start or recovery,
    as its last call; it is of the entry that is stored and chosen when the request
    ends, which parsed, built and loaded in the engine before the call was made, and
    carries the stored settings; and a request that replaces a running tunnel starts
    it right after asking for the status and stopping it. *)
Theorem nothing_starts_unchecked p r b :
  let b' := (run_ p r b).2 in
  ∃ new, calls b' = calls b ++ new ∧
    (Forall no_start new ∨
     ∃ before c req, new = before ++ [c] ∧ Forall no_start before ∧ starts c = Some req ∧ vetted (settings (store b')) req ∧
       (before = [] ∨ ∃ before', before = before' ++ [CStatus; CStop])).
Proof.
  cbv zeta. pose proof (handler_traces p r (calls b) b) as Ht.
  assert (not_yet (calls b) (λ new, new = []) b) as Hini by (exists []; by rewrite app_nil_r).
  specialize (Ht Hini). unfold run. assert (at_most_one (calls b) (match handler_ p r b with (Ok e, b0) | (Err e, b0) => (e, b0) end).2) as Hd
    by (by destruct (handler_ p r b) as [[e|e] b']).
  destruct Hd as [(new & E & Hn & _)|(new & c & req & E & Hn & Hc & Hv & Hb)].
  - exists new. split; [exact E | by left].
  - exists (new ++ [c]). split; [exact E|]. right. exists new, c, req. split_and!; auto.
Qed.

(** A key reads as its message in the language, the arguments in place. *)
Definition reads (l k : string) (args : list arg) : Prop :=
  k = ""%string ∨ ∃ s o, find_key k (messages (if Valid l then l else DefaultLang)) = Some s ∧
    fill (to_l s) args = Some o ∧ T l k args = of_l o.

Lemma said_readable l k args : said k args = true → reads l k args.
Proof. intros Hs. destruct (decide (k = ""%string)) as [->|Hk]; [by left|]. right. by apply said_reads. Qed.

(** C27. Every request is answered in words: none panics, whatever was stored, posted or
    answered by the service; and the headline, the advice and the notice it leaves
    each have a message in the reader's language that takes exactly the arguments
    given, the advice about a provider's refusal excepted. *)
Theorem answers_in_words p r b l : ∃ pr n, (run_ p r b).1 = Answer pr n ∧ reads l (Headline pr) [] ∧ reads l n [] ∧
  (reads l (Advice pr) (AdviceArgs pr) ∨ Advice pr = MsgRefreshBadStatusAdvice).
Proof.
  pose proof (handler_answers p r b) as Ha. unfold run. destruct (handler_ p r b) as [[e|e] b']; simpl in *;
    (destruct e as [pr n|]; [|done]; destruct Ha as [[Hh Hadv] Hn]; exists pr, n; split_and!; auto using said_readable;
     destruct Hadv as [Hadv|(z & Hadv & _)]; auto using said_readable).
Qed.
End Facts.

(** ** The events *)

Inductive event_op :=
| OAdd (k : EventKind) (f : Privsvc.PFault) (at_ : Time)
| OObserve (st : Service.SystemStatus) (reachable : bool) (at_ : Time).

Definition event_step (l : eventLog) (o : event_op) : eventLog :=
  match o with OAdd k f t => add k f t l | OObserve st ok t => observe st ok t l end.

(** All that happened, newest first, and the connection as it was last seen *)
Definition history_step (h : list Event * option bool) (o : event_op) : list Event * option bool :=
  match o with
  | OAdd k f t => (MkEvent k t f :: h.1, h.2)
  | OObserve st ok t =>
      if negb ok then h
      else
        let now := Service.StatusConnected st in
        match h.2 with
        | None => (h.1, Some now)
        | Some c =>
            if Bool.eqb now c then h
            else (MkEvent (if now then EventConnected else EventDisconnected) t Privsvc.FaultNone :: h.1, Some now)
        end
  end.

(** The slot of the [i]th newest event *)
Definition slot (n i : nat) : nat := Z.to_nat ((Z.of_nat n - 1 - Z.of_nat i) mod 40).

Record ring_holds (l : eventLog) (hist : list Event) : Prop := {
  ring_length : length (ring l) = eventCapacity;
  ring_next : next l = (length hist mod 40)%nat;
  ring_full : full l = (40 <=? length hist)%nat;
  ring_slots i e : (i < 40)%nat → hist !! i = Some e → ring l !! slot (length hist) i = Some (Some e)
}.

Lemma slot_lt n i : (slot n i < 40)%nat.
Proof. unfold slot. pose proof (Z.mod_pos_bound (Z.of_nat n - 1 - Z.of_nat i) 40 ltac:(lia)). lia. Qed.
Lemma slot_new n : slot (S n) 0 = (n mod 40)%nat.
Proof. unfold slot. rewrite <- (Nat2Z.id (n mod 40)), Nat2Z.inj_mod. f_equal. f_equal. lia. Qed.
Lemma slot_old n i : slot (S n) (S i) = slot n i.
Proof. unfold slot. do 2 f_equal. lia. Qed.
Lemma slot_other n i : (i < 39)%nat → slot n i ≠ (n mod 40)%nat.
Proof.
  intros Hi E. unfold slot in E. apply (f_equal Z.of_nat) in E. rewrite Nat2Z.inj_mod in E.
  pose proof (Z.mod_pos_bound (Z.of_nat n - 1 - Z.of_nat i) 40 ltac:(lia)). rewrite Z2Nat.id in E by lia.
  assert ((Z.of_nat n - 1 - Z.of_nat i - Z.of_nat n) mod 40 = 0) as E2.
  { rewrite Zminus_mod, E, <- Zminus_mod, Z.sub_diag. done. }
  replace (Z.of_nat n - 1 - Z.of_nat i - Z.of_nat n) with (- (1 + Z.of_nat i)) in E2 by lia.
  apply Z.mod_divide in E2 as [q Hq]; lia.
Qed.

Lemma add_holds l hist k f t : ring_holds l hist → ring_holds (add k f t l) (MkEvent k t f :: hist).
Proof.
  intros [Hl Hn Hf Hs]. unfold add. rewrite Hl. unfold eventCapacity in *.
  assert (((next l + 1) mod 40)%nat = (S (length hist) mod 40)%nat) as En.
  { rewrite Hn, Nat.Div0.add_mod_idemp_l. f_equal. lia. }
  split; cbn [ring next full length].
  - by rewrite length_insert.
  - exact En.
  - rewrite En, Hf. destruct (40 <=? length hist)%nat eqn:E1.
    + apply Nat.leb_le in E1. rewrite orb_true_l. symmetry. apply Nat.leb_le. lia.
    + apply Nat.leb_gt in E1. rewrite orb_false_l. destruct (decide (length hist = 39%nat)) as [->|Hne]; [done|].
      rewrite Nat.mod_small by lia. destruct (_ <=? _)%nat eqn:E2; [apply Nat.leb_le in E2; lia | done].
  - intros [|i] e Hi He.
    + simpl in He. rewrite slot_new, Hn. assert (e = MkEvent k t f) as -> by congruence.
      apply list_lookup_insert_eq. rewrite Hl. apply Nat.mod_upper_bound. lia.
    + simpl in He. rewrite slot_old, list_lookup_insert_ne; [apply Hs; [lia|exact He]|]. rewrite Hn. apply not_eq_sym, slot_other. lia.
Qed.

Lemma entries_holds l hist : ring_holds l hist → entries l = Some (take 40 hist).
Proof.
  intros [Hl Hn Hf Hs]. unfold entries, eventCapacity in *. rewrite Hl.
  assert ((if full l then 40%nat else next l) = length (take 40 hist)) as ->.
  { rewrite Hf, Hn, length_take. destruct (40 <=? length hist)%nat eqn:E; [apply Nat.leb_le in E; lia|].
    apply Nat.leb_gt in E. rewrite Nat.mod_small by lia. lia. }
  apply mapM_Some. apply Forall2_same_length_lookup_2; [by rewrite length_seq|].
  intros i x e Hx He. apply lookup_seq in Hx as [-> Hlt]. rewrite lookup_take_lt in He by (rewrite length_take in Hlt; lia).
  unfold entry_at. rewrite Hl. assert (i < 40)%nat as Hi by (rewrite length_take in Hlt; lia).
  replace (Z.to_nat _) with (slot (length hist) i); [by rewrite (Hs i e Hi He)|].
  unfold slot. f_equal. rewrite Hn, Nat2Z.inj_mod. change (Z.of_nat 40) with 40.
  rewrite (Z.mod_eq (Z.of_nat (length hist)) 40) by lia.
  replace (_ - _ - 1 - _ + 40 * 2) with (Z.of_nat (length hist) - 1 - Z.of_nat i + (2 - Z.of_nat (length hist) / 40) * 40) by lia.
  by rewrite Z_mod_plus_full.
Qed.

Definition log_holds (l : eventLog) (h : list Event * option bool) : Prop :=
  ring_holds l h.1 ∧ match h.2 with None => observed l = false | Some c => observed l = true ∧ was_connected l = c end.

Lemma event_step_holds l h o : log_holds l h → log_holds (event_step l o) (history_step h o).
Proof.
  intros [Hr Hc]. destruct o as [k f t|st ok t]; simpl; [split; [by apply add_holds | exact Hc]|].
  unfold observe. destruct ok; simpl; [|by split]. destruct h as [hist [c|]]; simpl in *.
  - destruct Hc as [Ho Hc]. rewrite Ho, Hc. simpl. destruct (Bool.eqb _ c); [split; [exact Hr | done]|].
    split; [|done]. apply add_holds. destruct Hr. by split.
  - rewrite Hc. simpl. split; [|done]. destruct Hr. by split.
Qed.

(** C29. The events area shows the last forty things that happened, newest first,
    whatever was recorded and whatever the polls saw: every recorded event is there
    in order, and a change of the connection between two polls that reached the
    service is there once, however many polls saw it. *)
Theorem events_are_the_last_forty ops :
  entries (foldl event_step newEventLog ops) = Some (take 40 (foldl history_step ([], None) ops).1).
Proof.
  assert (log_holds newEventLog ([], None)) as H0 by (split; [split; [done|done|done|done]|done]).
  revert H0. generalize newEventLog, (@nil Event, @None bool). induction ops as [|o ops IH]; intros l h Hl; simpl.
  - by apply entries_holds, Hl.
  - by apply IH, event_step_holds.
Qed.

(** ** Where the panel listens *)

(** The addresses the outside cannot reach, as intervals: the private and shared
    ranges, loopback and link-local *)
Definition local_only (a : Addr) : Prop :=
  match Unmap a with
  | A4 n => 0x0a000000 ≤ n < 0x0b000000 ∨ 0xac100000 ≤ n < 0xac200000 ∨ 0xc0a80000 ≤ n < 0xc0a90000 ∨
            0x7f000000 ≤ n < 0x80000000 ∨ 0xa9fe0000 ≤ n < 0xa9ff0000 ∨ 0x64400000 ≤ n < 0x64800000
  | A6 n _ => n = 1 ∨ 0xfc * 2 ^ 120 ≤ n < 0xfe * 2 ^ 120 ∨ 0xfe80 * 2 ^ 112 ≤ n < 0xfec0 * 2 ^ 112
  | NoAddr => False
  end.

Lemma shiftr_range n k v lo hi : 0 ≤ k → lo = v * 2 ^ k → hi = (v + 1) * 2 ^ k → (Z.shiftr n k =? v) = true → lo ≤ n < hi.
Proof.
  intros Hk -> -> E%Z.eqb_eq. rewrite Z.shiftr_div_pow2 in E by lia. pose proof (Z.pow_pos_nonneg 2 k ltac:(lia) Hk).
  pose proof (Z.div_mod n (2 ^ k) ltac:(lia)) as Hd. pose proof (Z.mod_pos_bound n (2 ^ k) ltac:(lia)). rewrite E in Hd. lia.
Qed.
Ltac in_range k v lo hi E := apply (shiftr_range _ k v lo hi) in E; [|done|reflexivity|reflexivity].

Lemma multicast_local n : 0 ≤ n < 2 ^ 128 → (Z.land (Z.shiftr n 112) 0xff0f =? 0xff02) = true → (Z.shiftr n 120 =? 0xff) = true.
Proof.
  intros Hn E%Z.eqb_eq. apply Z.eqb_eq. apply (f_equal (λ z, Z.shiftr z 8)) in E. rewrite Z.shiftr_land, Z.shiftr_shiftr in E by lia.
  change (Z.shiftr 0xff0f 8) with (Z.ones 8) in E. rewrite Z.land_ones in E by lia. change (112 + 8) with 120 in E.
  rewrite Z.mod_small in E; [exact E|]. rewrite Z.shiftr_div_pow2 by lia. split; [apply Z.div_pos; lia|]. apply Z.div_lt_upper_bound; [lia|]. change (2 ^ 128) with (2 ^ 120 * 2 ^ 8) in Hn. lia.
Qed.

Lemma cgnat_range n : Contains_addr cgnat (A4 n) = true → 0x64400000 ≤ n < 0x64800000.
Proof.
  change (Contains_addr cgnat (A4 n)) with (Z.shiftr (Z.lxor n 0x64400000) 22 =? 0). intros E%Z.eqb_eq.
  rewrite Z.shiftr_lxor in E. apply Z.lxor_eq, Z.eqb_eq in E. by in_range 22 0x191 0x64400000 0x64800000 E.
Qed.

(** An address that is no wildcard, no multicast and not routable from outside *)
Lemma not_routable ip : Subnet.addr_ok ip → IsUnspecified ip = false → IsMulticast ip = false → isGloballyRoutable ip = false → local_only ip.
Proof.
  intros Hok Hu Hm Hg. unfold isGloballyRoutable in Hg. rewrite Hu, orb_false_r in Hg.
  unfold local_only, IsPrivate, IsLoopback, IsLinkLocalUnicast, IsLinkLocalMulticast, IsMulticast in *.
  assert (Is4 ip = true → Unmap ip = ip) as H4 by (by destruct ip).
  assert (∀ n z, Unmap ip = A6 n z → 0 ≤ n < 2 ^ 128) as H6.
  { intros n z. unfold Unmap. destruct (Is4In6 ip); [discriminate|]. intros ->. exact Hok. }
  destruct (Unmap ip) as [|n|n z] eqn:Eu.
  - assert (ip = NoAddr) as -> by (unfold Unmap in Eu; destruct (Is4In6 ip); congruence). discriminate Hg.
  - destruct (Z.shiftr n 24 =? 10) eqn:E1; [in_range 24 10 0x0a000000 0x0b000000 E1; by left|].
    destruct (Z.shiftr n 20 =? 0xac1) eqn:E2; [in_range 20 0xac1 0xac100000 0xac200000 E2; by right; left|].
    destruct (Z.shiftr n 16 =? 0xc0a8) eqn:E3; [in_range 16 0xc0a8 0xc0a80000 0xc0a90000 E3; by do 2 right; left|].
    destruct (Z.shiftr n 24 =? 127) eqn:E4; [in_range 24 127 0x7f000000 0x80000000 E4; by do 3 right; left|].
    destruct (Z.shiftr n 16 =? 0xa9fe) eqn:E5; [in_range 16 0xa9fe 0xa9fe0000 0xa9ff0000 E5; by do 4 right; left|].
    destruct (Z.shiftr n 8 =? 0xe00000) eqn:E6.
    { in_range 8 0xe00000 0xe0000000 0xe0000100 E6. apply Z.eqb_neq in Hm. rewrite Z.shiftr_div_pow2 in Hm by lia. exfalso. apply Hm.
      symmetry. apply (Z.div_unique n (2 ^ 28) 14 (n - 14 * 2 ^ 28)); lia. }
    cbn [orb] in Hg. destruct (Is4 ip) eqn:Ei; [|discriminate]. rewrite <- (H4 eq_refl) in Hg. cbn [andb] in Hg.
    destruct (Contains_addr cgnat (A4 n)) eqn:Ec; [|discriminate]. apply cgnat_range in Ec. by do 5 right.
  - destruct (Z.shiftr n 121 =? 0x7e) eqn:E1; [in_range 121 0x7e (0xfc * 2 ^ 120) (0xfe * 2 ^ 120) E1; by right; left|].
    destruct (n =? 1) eqn:E2; [apply Z.eqb_eq in E2; by left|].
    destruct (Z.shiftr n 118 =? 0x3fa) eqn:E3; [in_range 118 0x3fa (0xfe80 * 2 ^ 112) (0xfec0 * 2 ^ 112) E3; by right; right|].
    destruct (Z.land _ _ =? _) eqn:E4; [rewrite (multicast_local n (H6 n z eq_refl) E4) in Hm; discriminate|].
    cbn [orb] in Hg. destruct (Is4 ip) eqn:Ei; [|discriminate]. by rewrite <- (H4 eq_refl) in Ei.
Qed.

(** A text the panel may listen on: an address of this network and a port *)
Definition listens_on (addr : string) : Prop :=
  ∃ host portStr ip port, SplitHostPort addr = Some (host, portStr) ∧ ParseAddr host = Some ip ∧ local_only ip ∧
    Atoi portStr = Some port ∧ 1 ≤ port ≤ 65535.

Lemma bind_addr_local addr : ValidateBindAddr addr = Ok tt → listens_on addr.
Proof.
  unfold ValidateBindAddr. destruct (SplitHostPort addr) as [[host ps]|] eqn:Es; [|discriminate].
  destruct (host =? "")%string; [discriminate|]. destruct (ParseAddr host) as [ip|] eqn:Ep; [|discriminate].
  destruct (IsUnspecified ip) eqn:Eu; [discriminate|]. destruct (IsMulticast ip) eqn:Em; [discriminate|].
  destruct (isGloballyRoutable ip) eqn:Eg; [discriminate|]. destruct (Atoi ps) as [port|] eqn:Ea; [|discriminate].
  destruct ((port <? 1) || (65535 <? port)) eqn:Er; [discriminate|]. intros _. apply orb_false_iff in Er as [R1%Z.ltb_ge R2%Z.ltb_ge].
  exists host, ps, ip, port. split_and!; auto. apply not_routable; auto. by eapply DetectFacts.ParseAddr_ok.
Qed.

Lemma add_host_in port host addrs l : add_host port host addrs = Ok l →
  ∀ a, a ∈ l → a ∈ addrs ∨ listens_on a ∧ host ≠ ""%string ∧ a = JoinHostPort host (Itoa port).
Proof.
  unfold add_host. destruct (host =? "")%string eqn:E; [intros [= <-]; auto|].
  destruct (ValidateBindAddr _) as [[]|] eqn:Ev; [|discriminate]. intros [= <-] a [Ha|Ha%list_elem_of_singleton]%elem_of_app; [auto|].
  right. subst a. split_and!; [by apply bind_addr_local | by apply String.eqb_neq | done].
Qed.

(** The addresses of a detection: of the hotspot and, when the panel was opened on
    the local network, of the machine there; none is an error, not an empty list. *)
Lemma bind_addrs_local d port onLAN l : BindAddrs d port onLAN = Ok l →
  l ≠ [] ∧ ∀ a, a ∈ l → listens_on a ∧
    let p := Itoa (if port =? 0 then DefaultPort else port) in
    a = JoinHostPort (Privsvc.HotspotAddress d) p ∨ onLAN = true ∧ a = JoinHostPort (Privsvc.LocalNetworkAddress d) p.
Proof.
  unfold BindAddrs. cbv zeta. set (q := if port =? 0 then DefaultPort else port).
  destruct (add_host q (Privsvc.HotspotAddress d) []) as [l1|] eqn:E1; [|discriminate]. simpl.
  pose proof (add_host_in _ _ _ _ E1) as H1. destruct onLAN.
  - destruct (add_host q (Privsvc.LocalNetworkAddress d) l1) as [l2|] eqn:E2; [|discriminate]. simpl.
    pose proof (add_host_in _ _ _ _ E2) as H2. destruct l2 as [|x l2]; [discriminate|]. intros [= <-]. split; [done|].
    intros a Ha. destruct (H2 a Ha) as [Hb|(Hb & _ & ->)]; [|auto]. destruct (H1 a Hb) as [Hc|(Hc & _ & ->)]; [by apply elem_of_nil in Hc|auto].
  - simpl. destruct l1 as [|x l1]; [discriminate|]. intros [= <-]. split; [done|].
    intros a Ha. destruct (H1 a Ha) as [Hc|(Hc & _ & ->)]; [by apply elem_of_nil in Hc|auto].
Qed.

(** *** What is served *)

Lemma add_addr_in set a x : x ∈ add_addr set a ↔ x ∈ set ∨ x = a ∧ a ≠ ""%string ∧ ValidateBindAddr a = Ok tt.
Proof.
  unfold add_addr. destruct (String.eqb_spec a "") as [->|Hne]; [naive_solver|].
  destruct (ValidateBindAddr a) as [[]|]; set_solver.
Qed.
Lemma add_addrs_in l set x : x ∈ foldl add_addr set l ↔ x ∈ set ∨ x ∈ l ∧ x ≠ ""%string ∧ ValidateBindAddr x = Ok tt.
Proof.
  revert set. induction l as [|a l IH]; intros set; simpl; [set_solver|]. rewrite IH, add_addr_in, elem_of_cons. naive_solver.
Qed.

(** Where an address to serve may come from. *)
Definition served_for (extra : list string) (l : Look) (a : string) : Prop :=
  a = "127.0.0.1:8088"%string ∨ a ∈ extra ∨
  ∃ d, lk_detected l = Some d ∧
    (a = JoinHostPort (Privsvc.HotspotAddress d) "8088" ∨
     lk_onLAN l = true ∧ a = JoinHostPort (Privsvc.LocalNetworkAddress d) "8088").

Lemma desired_local extra l a : a ∈ desiredAddrs (lk_detected l) (lk_onLAN l) extra →
  ValidateBindAddr a = Ok tt ∧ served_for extra l a.
Proof.
  unfold desiredAddrs. rewrite (merge_sort_Permutation _ _), elem_of_elements. unfold served_for.
  assert (∀ x, x ∈ foldl add_addr (add_addr ∅ (JoinHostPort loopbackHost (Itoa panelPort))) extra →
    ValidateBindAddr x = Ok tt ∧ (x = "127.0.0.1:8088"%string ∨ x ∈ extra)) as Hbase.
  { intros x. rewrite add_addrs_in, add_addr_in. intros [[Hx|(-> & _ & Hv)]|(Hx & _ & Hv)]; [set_solver|auto..]. }
  destruct (lk_detected l) as [d|]; [|intros Ha; destruct (Hbase a Ha) as [? [?|?]]; auto].
  destruct (BindAddrs d panelPort (lk_onLAN l)) as [addrs|] eqn:Eb; [|intros Ha; destruct (Hbase a Ha) as [? [?|?]]; auto].
  rewrite add_addrs_in. intros [Ha|(Ha & _ & Hv)]; [destruct (Hbase a Ha) as [? [?|?]]; auto|]. split; [done|].
  destruct (bind_addrs_local _ _ _ _ Eb) as [_ Hl]. destruct (Hl a Ha) as [_ Hw]. right; right. by exists d.
Qed.

(** After a look, exactly the wanted addresses that were open or could be opened. *)
Lemma open_addrs_in opens want active x : (∀ a, a ∈ want → ValidateBindAddr a = Ok tt) →
  x ∈ foldl (open_addr opens) active want ↔ x ∈ active ∨ x ∈ want ∧ opens x = true.
Proof.
  revert active. induction want as [|a want IH]; intros active Hv; simpl; [set_solver|].
  rewrite IH by (intros; apply Hv; by constructor). unfold open_addr, Listen. rewrite (Hv a) by constructor. simpl.
  destruct (decide (a ∈ active)); [set_solver|]. destruct (opens a) eqn:Eo; [set_solver|].
  rewrite elem_of_cons. split; [intros [?|[? ?]]; auto|]. intros [?|[[->|?] ?]]; [auto|congruence|auto].
Qed.

Lemma look_again_in extra active l x : x ∈ look_again extra active l ↔
  x ∈ desiredAddrs (lk_detected l) (lk_onLAN l) extra ∧ (x ∈ active ∨ lk_opens l x = true).
Proof.
  unfold look_again, reconcile. rewrite open_addrs_in by (intros a Ha; by apply desired_local in Ha as [? _]).
  rewrite elem_of_filter. tauto.
Qed.


(** ** The page and the polled status *)

Lemma setProblem_set l p d : HasProblem d = true → HasProblem (setProblem l p d) = true.
Proof. unfold setProblem. by destruct (Empty p). Qed.
Lemma fault_problem l f d : f ≠ Privsvc.FaultNone → HasProblem (setProblemOnce l (plain (FaultKey f) "") d) = true.
Proof. unfold setProblemOnce. destruct (HasProblem d) eqn:E; [done|]. by destruct f. Qed.

Lemma status_problem l on d st fault :
  (HasProblem d = true → (fillStatus l on d st fault).2 = d) ∧
  (fault ≠ Privsvc.FaultNone → HasProblem (fillStatus l on d st fault).2 = true).
Proof.
  unfold fillStatus. destruct (status_word st fault) as [[word shape] c]. cbn [snd]. split.
  - intros Hd. unfold setProblemOnce. rewrite Hd. by destruct (is_fault fault); rewrite Hd; cbn [negb]; rewrite !andb_false_r; cbn [andb]; rewrite ?Hd;
      cbn [negb]; rewrite ?andb_false_r.
  - intros Hf. assert (is_fault fault = true) as -> by (unfold is_fault; by rewrite bool_decide_eq_false_2).
    rewrite (fault_problem l fault d Hf). cbn [negb]. rewrite !andb_false_r. rewrite (fault_problem l fault d Hf). cbn [negb].
    rewrite !andb_false_r. cbn [andb]. by rewrite fault_problem.
Qed.

(** The status part does not look at the message area. *)
Lemma status_part l on d d' st fault : (fillStatus l on d st fault).1 = (fillStatus l on d' st fault).1.
Proof. unfold fillStatus. by destruct (status_word st fault) as [[word shape] c]. Qed.

(** C28. The status line tells the truth: it says connected exactly when the service
    answered, the engine and the hotspot run and traffic is not cut; only then does
    it show the local proxy's address or the line about the decoy; the switch and
    the bar follow: a cut is never green, the switch looks off exactly when the box
    does not run, and a service that cannot be asked is always a message. *)
Theorem status_tells_truth l on d st fault :
  let '(s, d') := fillStatus l on d st fault in
  (Connected s = true ↔ fault = Privsvc.FaultNone ∧ Service.es_Phase (Service.ss_Engine st) = Service.PhaseRunning ∧
     Service.hst_Running (Service.ss_Hotspot st) = true ∧ Service.ss_ClientTrafficCut st = false) ∧
  (StatusShape s = shapeOn ↔ Connected s = true) ∧
  (Connected s = false → LocalProxy s = ""%string ∧ AntiDPIShown s = false) ∧
  (HeroClass s = "cut"%string ↔ Service.ss_ClientTrafficCut st = true) ∧ (HeroClass s = "ok"%string ↔ Connected s = true) ∧
  (PowerClass s = "ok"%string ↔ Connected s = true) ∧ (PowerClass s = "go"%string ↔ Running s = false) ∧
  (fault ≠ Privsvc.FaultNone → HasProblem d' = true) ∧ (HasProblem d = true → d' = d).
Proof.
  destruct (status_problem l on d st fault) as [Hp1 Hp2]. destruct (fillStatus l on d st fault) as [s d'] eqn:E. simpl in Hp1, Hp2.
  assert (s = (fillStatus l on d st fault).1) as -> by (by rewrite E). clear E.
  split_and!; auto; unfold fillStatus, status_word, phase_is, is_fault, Service.StatusConnected, shapeOn, shapeOff, shapeWorking, shapeTrouble;
    (destruct (decide (fault = Privsvc.FaultNone)) as [->|Hf];
       [rewrite ?bool_decide_eq_true_2 by done | rewrite ?bool_decide_eq_false_2 by done]);
    destruct (Service.es_Phase _), (Service.hst_Running _), (Service.ss_ClientTrafficCut st); simpl; intuition congruence.
Qed.

Section Pages.
Context {R : Type} `{Link.Conf R}.

Lemma config_part l proxy d cfg d' : fillConfig l proxy d = Some (cfg, d') →
  AntiDPIOn cfg = negb (State.SpoofSNI proxy =? "")%string || State.TCPSplit proxy || State.TLSRecordSplit proxy ∧
  HasConfig cfg = State.IsConfigured proxy.
Proof.
  unfold fillConfig. destruct (State.IsConfigured proxy); simpl; [|by intros [= <- <-]].
  destruct (Link.ParseAll _) as [[li|[e|]]|]; simpl; [|by intros [= <- <-]|discriminate|discriminate].
  destruct (Link.Select _ _) as [[[k c]|e]|]; simpl; [by intros [= <- <-]..|discriminate].
Qed.

(** The page and the status it polls never disagree: for the same settings, status
    and events they show the same word, shape, switch, bar, device count, proxy
    address, anti-DPI line, time up and events; and when neither the last request
    nor the stored config left a message, the same next step. *)
Theorem poll_agrees_with_page clock clock_s l fl store_ st fault now now' rands es log pg :
  index_page clock clock_s l fl store_ st fault now now' rands es log = Some pg →
  let js := status_json l store_ st fault now' es in
  let s := pg_Status pg in
  js_Connected js = Connected s ∧ js_Running js = Running s ∧ js_HeroClass js = HeroClass s ∧ js_PowerClass js = PowerClass s ∧
  js_Word js = StatusWord s ∧ js_Shape js = StatusShape s ∧ js_DeviceLine js = DeviceLine s ∧ js_Detected js = sp_DetectedLine s ∧
  js_LocalProxy js = LocalProxy s ∧ js_AntiDPI js = AntiDPIShown s ∧ js_TrafficCut js = TrafficCut s ∧
  js_HasConfig js = HasConfig (pg_Config pg) ∧ Some (js_Uptime js) = tl_Value <$> (pg_Tiles pg !! 3%nat) ∧
  js_Events js = el_Text <$> pg_Events pg ∧
  (Empty fl.1 = true → (∃ cfg, fillConfig l (State.Proxy (State.cur store_)) no_page_problem = Some (cfg, no_page_problem)) →
   js_NextStep js = pg_NextStep pg).
Proof.
  unfold index_page, status_json, newStatusJSON. cbv zeta.
  destruct (fillConfig l _ (setProblem l fl.1 no_page_problem)) as [[cfg d]|] eqn:Ec; [|discriminate]. cbn [mbind option_bind].
  destruct (config_part _ _ _ _ _ Ec) as [Ea Eh]. rewrite <- Ea, <- Eh.
  destruct (fillStatus l (AntiDPIOn cfg) d st fault) as [s d1] eqn:Es.
  destruct (fillStatus l (AntiDPIOn cfg) no_page_problem st fault) as [s2 d2] eqn:Es2.
  assert (s2 = s) as -> by (pose proof (status_part l (AntiDPIOn cfg) no_page_problem d st fault) as Hx; rewrite Es, Es2 in Hx; exact Hx).
  destruct (fillHotspot _ _ _ _) as [hot|]; [|discriminate]. cbn [mbind option_bind]. intros Epg.
  match type of Epg with Some ?x = _ => assert (pg = x) as -> by congruence end.
  cbn [pg_Status pg_Config pg_Tiles pg_Events pg_NextStep js_Connected js_Running js_HeroClass js_PowerClass js_Word js_Shape js_DeviceLine
       js_Detected js_LocalProxy js_AntiDPI js_TrafficCut js_HasConfig js_Uptime js_Events js_NextStep].
  assert (s = (fillStatus l (AntiDPIOn cfg) d st fault).1) as Hs by (by rewrite Es).
  split_and!; try reflexivity; try (rewrite Hs; unfold fillStatus; by destruct (status_word st fault) as [[? ?] ?]).
  - unfold fillEvents. by rewrite <- list_fmap_compose.
  - intros He [cfg' Ec']. assert (d = no_page_problem) as ->; [|congruence].
    unfold setProblem in Ec. rewrite He in Ec. congruence.
Qed.
End Pages.

(** ** The form, the settings and the privileged side *)

(** A control byte of a valid text is a rune of its own. *)
Lemma control_rune s c : ValidString s = true → c ∈ to_l s → (nat_of_ascii c < 128)%nat → [c] ∈ Link.runes (to_l s).
Proof.
  intros Hv Hc Ha. pose proof (LinkFacts.concat_runes (to_l s) 0 Hv) as E. simpl in E. rewrite drop_0 in E.
  rewrite <- E in Hc. apply list_elem_of_In, in_concat in Hc as (r & Hr%list_elem_of_In & Hc%list_elem_of_In). fold (Link.runes (to_l s)) in Hr.
  pose proof (LinkFacts.runes_good (to_l s) 0) as Hg. rewrite Forall_forall in Hg. specialize (Hg r Hr). destruct r as [|d r]; [by apply elem_of_nil in Hc|].
  apply elem_of_cons in Hc as [->|Hc].
  - assert (length (d :: r) = 1%nat) as Hl; [|by destruct r].
    pose proof (LinkFacts.good_width _ Hg []) as Hw. rewrite app_nil_r in Hw.
    pose proof (LinkFacts.good_width _ (LinkFacts.ascii_good d Ha) r) as Hd. simpl app in Hd. rewrite Hd in Hw. by rewrite <- Hw.
  - destruct (LinkFacts.good_head _ Hg d r eq_refl) as [_ Hf]. rewrite Forall_forall in Hf. specialize (Hf c Hc).
    by rewrite LinkFacts.start_ascii in Hf.
Qed.

(** What the hotspot form takes, the hotspot can be started with: a name and a
    password the panel accepts pass every check internal/hotspot makes of them
    before it writes a configuration. *)
Theorem form_accepted_by_hotspot ssid pass : Empty (ValidateSSID ssid) = true → Empty (ValidatePassphrase pass) = true →
  ∀ iface uplink cc ch band dir mobile,
    let c := HotspotConf.MkAP iface uplink ssid pass cc ch band dir in
    HotspotConf.validate mobile c =
      (let? _ := (if mobile then
                    HotspotConf.err_if ((iface =? "")%string || (255 <? HotspotConf.len iface) || negb (ValidString iface))
                      "hotspot: invalid Windows adapter alias" (HotspotConf.noControlChars "interface" iface)
                  else HotspotConf.validConfigToken "interface" iface) in
       let? _ := HotspotConf.validCountryCode cc in
       let? _ := HotspotConf.validChannel band ch in
       if negb mobile && negb (dir =? "")%string then HotspotConf.validAbsPath "hostapd control directory" dir else Ok tt).
Proof.
  intros Hs Hp%passphrase_empty iface uplink cc ch band dir mobile c. subst c. unfold HotspotConf.validate.
  cbn [HotspotConf.ap_Interface HotspotConf.ap_SSID HotspotConf.Passphrase HotspotConf.CountryCode HotspotConf.ap_Channel HotspotConf.ap_Band
       HotspotConf.ControlDir]. rewrite Hp. destruct (if mobile then _ else _) as [[]|]; [|reflexivity].
  unfold ValidateSSID in Hs. destruct (ssid =? "")%string; [discriminate|]. destruct (_ <? _); [discriminate|].
  destruct (ValidString ssid) eqn:Ev; [|discriminate]. destruct (hasControlChars ssid) eqn:Ec; [discriminate|].
  assert (HotspotConf.noControlChars "network name" ssid = Ok tt) as ->; [|reflexivity].
  unfold HotspotConf.noControlChars. destruct (existsb _ (to_l ssid)) eqn:Ex; [|done].
  apply existsb_exists in Ex as (c & Hc%list_elem_of_In & Hx). unfold HotspotConf.code in Hx.
  assert (Link.IsControl [c] = true) as Hctl.
  { assert (Link.IsControl [c] = (nat_of_ascii c <? 32)%nat || (nat_of_ascii c =? 127)%nat) as -> by (by destruct c as [[] [] [] [] [] [] [] []]).
    apply orb_true_iff in Hx as [Hx%Z.ltb_lt|Hx%Z.eqb_eq]; apply orb_true_iff; [left; apply Nat.ltb_lt | right; apply Nat.eqb_eq]; lia. }
  assert (existsb Link.IsControl (Link.runes (to_l ssid)) = true) as Hy; [|unfold hasControlChars in Ec; congruence].
  apply existsb_exists. exists [c]. split; [|exact Hctl]. apply list_elem_of_In, control_rune; auto.
  apply orb_true_iff in Hx as [Hx%Z.ltb_lt|Hx%Z.eqb_eq]; lia.
Qed.

Section Requests.
Context {R : Type} `{Link.Conf R}.
Context (load_error : string → option string).

(** C25. What the panel stores the privileged side takes: from settings that keep the
    invariant, with a named hotspot and a subnet that is left to Caspian or is
    private and no larger than a /8, the request the panel sends passes every check
    validate.go makes of a request on its own. *)
Theorem stored_settings_accepted st cfg : settings_ok load_error st → State.Hotspot st ≠ State.zero_hotspot →
  State.aSubnet (State.sAdvanced st) = ""%string ∨
    (∃ p, ParsePrefix (State.aSubnet (State.sAdvanced st)) = Some p ∧ Privsvc.IsPrivate4 (p_addr p) = true ∧ 8 ≤ Bits p) →
  Privsvc.validateStatic (start_request st cfg) = Ok tt.
Proof.
  intros [_ _ Hh Hb Hc Hs Hl (Hp1 & Hp2 & Hp3)] Hnz Hsub. destruct Hh as [?|[Hssid Hpass]]; [done|].
  unfold Privsvc.validateStatic, start_request, Privsvc.refuse_if.
  cbn [Privsvc.sr_Hotspot Privsvc.sr_Network Privsvc.EngineLogLevel Privsvc.DNSMode Privsvc.OnTunnelDown Privsvc.ClientIPv6
       Privsvc.hs_Passphrase Privsvc.hs_SSID Privsvc.hs_Country Privsvc.hs_Band Privsvc.hs_Subnet].
  rewrite Hl, Hp1, Hp2, Hp3, Hpass. cbn [negb is_ok State.DNSModeTunnel State.OnTunnelDownBlock State.ClientIPv6Block String.eqb Ascii.eqb Bool.eqb].
  destruct Hssid as ([Hlen1 Hlen2] & _).
  destruct (String.eqb_spec (State.hSSID (State.Hotspot st)) "") as [En|_]; [by rewrite En in Hlen1|].
  rewrite (proj2 (Z.ltb_ge HotspotConf.MaxSSIDLen _) Hlen2).
  assert (negb (State.aCountry (State.sAdvanced st) =? "")%string && negb (Detect.IsUpperAlpha2 (State.aCountry (State.sAdvanced st))) = false) as ->.
  { destruct Hc as [-> | Hc]; [done|]. by rewrite Hc, andb_false_r. }
  assert (negb (State.aBand (State.sAdvanced st) =? "")%string &&
    negb ((State.aBand (State.sAdvanced st) =? HotspotConf.Band2GHz)%string || (State.aBand (State.sAdvanced st) =? HotspotConf.Band5GHz)%string) = false) as ->.
  { by destruct Hb as [->|[->| ->]]. }
  destruct Hsub as [-> | (p & Ep & Hpriv & Hbits)]; [done|]. destruct (_ =? "")%string; [done|]. rewrite Ep.
  assert (Is4 (p_addr p) = true) as -> by (by destruct (p_addr p)). rewrite Hpriv.
  assert ((30 <? Bits p) = false) as ->.
  { apply Z.ltb_ge. destruct Hs as [Es|(q & Eq & _ & Hq)]; [by rewrite Es in Ep|]. by assert (q = p) as -> by congruence. }
  by rewrite (proj2 (Z.ltb_ge (Bits p) 8)).
Qed.
End Requests.

(** ** Identifiers, requests as text, other origins *)

Lemma luhn_app l1 l2 : ∀ i, luhn_sum i (l1 ++ l2) = luhn_sum i l1 + luhn_sum (i + length l1) l2.
Proof.
  induction l1 as [|d l1 IH]; intros i; cbn [app luhn_sum length]; [by rewrite Nat.add_0_r|]. rewrite IH.
  replace (S i + length l1)%nat with (i + S (length l1))%nat by lia. lia.
Qed.

Lemma rand_digit_bound random d rest : rand_digit random = Some (d, rest) → 0 ≤ d < 10.
Proof.
  induction random as [|b random IH]; simpl; [discriminate|]. destruct (Z.land b 15 <? 10) eqn:E; [|exact IH].
  intros [= <- <-]. apply Z.ltb_lt in E. split; [apply Z.land_nonneg; lia | lia].
Qed.
Lemma rand_digits_shape n : ∀ random ds rest, rand_digits n random = Some (ds, rest) → length ds = n ∧ Forall (λ d, 0 ≤ d < 10) ds.
Proof.
  induction n as [|n IH]; intros random ds rest; simpl; [intros [= <- <-]; done|].
  destruct (rand_digit random) as [[d r1]|] eqn:E1; [|discriminate]. simpl.
  destruct (rand_digits n r1) as [[ds' r2]|] eqn:E2; [|discriminate]. simpl. intros [= <- <-].
  destruct (IH _ _ _ E2) as [Hl Hf]. split; [simpl; lia|]. constructor; [by eapply rand_digit_bound | exact Hf].
Qed.

(** An IMEI-shaped value is fifteen digits whose Luhn sum is a multiple of ten. *)
Lemma imei_checks random imei rest : randomIMEIShape random = Some (imei, rest) →
  ∃ ds, imei = of_l (digit_char <$> ds) ∧ length ds = 15%nat ∧ Forall (λ d, 0 ≤ d < 10) ds ∧ luhn_sum 0 ds mod 10 = 0.
Proof.
  unfold randomIMEIShape. destruct (rand_digits 14 random) as [[body r1]|] eqn:E; [|discriminate]. simpl. intros Eq.
  assert (imei = of_l (digit_char <$> body ++ [imeiCheckDigit body])) as -> by congruence.
  destruct (rand_digits_shape _ _ _ _ E) as [Hl Hf]. exists (body ++ [imeiCheckDigit body]).
  pose proof (Z.mod_pos_bound (10 - luhn_sum 0 body mod 10) 10 ltac:(lia)). split_and!; [done | rewrite length_app; simpl; lia | |].
  - apply Forall_app_2; [exact Hf|]. constructor; [|done]. unfold imeiCheckDigit. lia.
  - rewrite luhn_app, Hl. change (luhn_sum (0 + 14) [imeiCheckDigit body]) with (imeiCheckDigit body + 0). unfold imeiCheckDigit.
    rewrite Z.add_0_r, Zplus_mod_idemp_r. replace (luhn_sum 0 body + (10 - luhn_sum 0 body mod 10)) with (10 * (luhn_sum 0 body / 10) + 1 * 10);
      [rewrite Z_mod_plus_full, Z.mul_comm; apply Z_mod_mult|].
    pose proof (Z.div_mod (luhn_sum 0 body) 10 ltac:(lia)). lia.
Qed.

(** A request printed says nothing of the password, the address or the document but their length. *)
Lemma request_text_hides a b : Privsvc.hs_SSID (Privsvc.sr_Hotspot a) = Privsvc.hs_SSID (Privsvc.sr_Hotspot b) →
  Privsvc.sr_Network a = Privsvc.sr_Network b → Privsvc.EngineLogLevel a = Privsvc.EngineLogLevel b →
  String.length (Privsvc.ConfigJSON a) = String.length (Privsvc.ConfigJSON b) →
  (∃ p, Privsvc.sr_Hotspot a = Privsvc.MkHotspotSpec (Privsvc.hs_SSID (Privsvc.sr_Hotspot b)) p (Privsvc.hs_Interface (Privsvc.sr_Hotspot b))
     (Privsvc.hs_Channel (Privsvc.sr_Hotspot b)) (Privsvc.hs_Band (Privsvc.sr_Hotspot b)) (Privsvc.hs_Country (Privsvc.sr_Hotspot b))
     (Privsvc.hs_Subnet (Privsvc.sr_Hotspot b))) →
  StartRequest_String a = StartRequest_String b.
Proof. intros _ En El Ec [p Eh]. unfold StartRequest_String. rewrite En, El, Ec, Eh. reflexivity. Qed.

(** A form posted from another site, by its own word or by the browser's, is refused. *)
Lemma cross_site_refused {A} o (next_ : A) : sameOriginPost o = false → ServeHTTP "POST" o next_ = None.
Proof. intros E. unfold ServeHTTP. by rewrite E. Qed.
Example other_origins :
  sameOriginPost (MkOrigin "cross-site" "" "10.62.0.1:8088") = false ∧
  sameOriginPost (MkOrigin "" "http://evil.example" "10.62.0.1:8088") = false ∧
  sameOriginPost (MkOrigin "same-origin" "http://10.62.0.1:8088" "10.62.0.1:8088") = true ∧
  sameOriginPost (MkOrigin "" "null" "10.62.0.1:8088") = true.
Proof. vm_compute. done. Qed.

(** ** What the words come to in places *)

(** The advice about a provider's refusal has no place for the status it is given. *)
Example refused_refresh_advice :
  T LangEN MsgRefreshBadStatusAdvice [AInt 503] = (T LangEN MsgRefreshBadStatusAdvice [] ++ "%!(EXTRA int=503)")%string.
Proof. vm_compute. reflexivity. Qed.

(** The row that counts the entries prints its sentence, unfilled, as its label. *)
Lemma count_label_unfilled {R} `{Link.Conf R} (k : Link.Link R) : 1 < Link.l_Count k →
  ∃ f, f ∈ fillConfigFacts LangEN k ∧ ft_Label f = "Caspian found %d entries and is using entry %d."%string.
Proof.
  intros Hk. unfold fillConfigFacts. rewrite (proj2 (Z.ltb_lt _ _) Hk). eexists. split; [|].
  { do 8 (apply elem_of_app; right). apply list_elem_of_singleton. reflexivity. }
  vm_compute. reflexivity.
Qed.

(** A recovery that worked is recorded, and read, as a fault nobody recognises. *)
Lemma recovery_reads_as_trouble l t :
  Sentence l (MkEvent EventRecovered t Privsvc.FaultNone) = T l MsgFaultUnrecognised [].
Proof. done. Qed.

(** A subnet the panel saves and the service refuses whatever else is stored. *)
Lemma public_subnet_never_starts st cfg : State.aSubnet (State.sAdvanced st) = "8.8.8.0/24"%string →
  Empty (check_subnet "8.8.8.0/24") = true ∧ Privsvc.validateStatic (start_request st cfg) ≠ Ok tt.
Proof.
  intros Hs. split; [done|]. unfold Privsvc.validateStatic, start_request, Privsvc.refuse_if.
  cbn [Privsvc.sr_Hotspot Privsvc.hs_Subnet]. rewrite Hs.
  match goal with |- context [if ("8.8.8.0/24" =? "")%string then ?x else ?y] =>
    replace (if ("8.8.8.0/24" =? "")%string then x else y) with (Privsvc.fail (A := unit) "hotspot subnet" Privsvc.FaultUnknown) by reflexivity end.
  repeat match goal with |- (if ?x then _ else _) ≠ _ => destruct x; [discriminate|] end. discriminate.
Qed.

(** The sum of a provider's two figures can pass int64, and shows as less than nothing. *)
Example usage_wraps : gigabytes (add64 (2 ^ 63 - 1) 1) = "-9223372036.9 GB"%string.
Proof. vm_compute. reflexivity. Qed.

(** A typed name is cut in the middle of a letter. *)
Example label_cut_inside_a_rune :
  let typed := of_l (replicate 63 "a"%char ++ ["195"; "169"]%char) in
  ValidString typed = true ∧ ValidString (typed_label typed) = false.
Proof. vm_compute. done. Qed.

(** ** A box *)

(** A service that only remembers whether it runs *)
Definition sim_detection : Privsvc.Detection :=
  Privsvc.MkDetection "eth0" "wlan0" [Privsvc.MkInterfaceInfo "wlan0" Privsvc.KindBuiltinWiFi true false] 6 "2.4GHz" "GB" [1; 6; 11]
    false "10.62.0.0/24" "10.62.0.1" "192.168.1.20" Privsvc.FaultNone 0.
Definition sim_status (on : bool) : Service.SystemStatus :=
  Service.MkSystemStatus (Service.MkEngineState (if on then Service.PhaseRunning else Service.PhaseStopped) "" 0)
    (Service.MkHotspotStatus on "" 2 0 Privsvc.FaultNone) sim_detection false "127.0.0.1:10808" 0.
Definition sim : Privileged bool := {|
  pDetect k := (Ok sim_detection, k);
  pStatus k := (Ok (sim_status k), k);
  pStart _ _ := (Ok tt, true);
  pStop _ := (Ok tt, false);
  pEngineLog k := (Ok ([], 0), k);
  pCut k := (Ok tt, k);
  pRestore k := (Ok tt, k);
  pRecover _ _ := (Ok tt, true);
  pRefresh _ k := (Err Privsvc.FaultRefreshNoAnswer, k)
|}.

Definition form (kv : list (string * string)) : Auth.Request := Auth.MkRequest "POST" "/" true None None true (list_to_map kv) "10.62.0.7".
Definition pasted : string :=
  LinkDoc.pasted (LinkDoc.put "protocol" "trojan") (LinkDoc.at_server "vpn.example.org") (LinkDoc.put "security" "none").
Definition noon (_ : nat) : Time := MkTime 2026 5 4 12 0 0 0 0.
Definition empty_disk : State.Sys :=
  State.MkSys (State.MkFs (State.Found (State.MkMeta true State.dirMode (Some 0))) [] ∅ []) [] ["1"; "2"]%string [].
Definition first_box : Box bool := MkBox State.asFirstRun empty_disk false newEventLog [] 0.
Definition sim_happen : Box bool → happening → Box bool :=
  happen (H := sim) (H0 := LinkDoc.demo_conf) (λ _, None) 0 (λ _, None) (λ _, None) noon.
Definition first_evening : list (happening (K := bool)) :=
  [Post PConfig (form [("config", pasted)]); Post PHotspot (form [("ssid", "Caspian-home"); ("passphrase", "correct horse battery")]);
   Post PPower (form [("on", "1")]); Poll LangEN]%string.

Lemma settings_stay_usable_witness :
  settings_ok (H0 := LinkDoc.demo_conf) (λ _, None) (settings (store (foldl sim_happen first_box first_evening))).
Proof. apply settings_stay_usable. apply default_ok. Defined.

(** The evening ends with one start, of what was pasted. *)
Example first_evening_starts :
  let b := foldl sim_happen first_box first_evening in
  length (omap starts (calls b)) = 1%nat ∧ State.Raw (State.Proxy (settings (store b))) = pasted ∧ priv b = true.
Proof. vm_compute. done. Qed.

Definition named : State.State := State.set_Hotspot (State.MkHotspotConfig "Caspian-home" "correct horse battery") State.defaultState.
Lemma panel_named_ok : settings_ok (H0 := LinkDoc.demo_conf) (λ _, None) named.
Proof. by eapply edit_hotspot; [..|apply default_ok|reflexivity]. Qed.

Lemma stored_settings_accepted_witness : Privsvc.validateStatic (start_request named (to_l "{}")) = Ok tt.
Proof. apply (stored_settings_accepted (H := LinkDoc.demo_conf) (λ _, None)); [exact panel_named_ok | discriminate | left; reflexivity]. Defined.

Lemma form_accepted_by_hotspot_witness :
  HotspotConf.validate false (HotspotConf.MkAP "wlan0" "eth0" "Caspian-home" "correct horse battery" "GB" 6 HotspotConf.Band2GHz "") = Ok tt.
Proof. refine (eq_trans (form_accepted_by_hotspot "Caspian-home" "correct horse battery" eq_refl eq_refl _ _ _ _ _ _ _) _). vm_compute. reflexivity. Defined.


Lemma poll_agrees_with_page_witness :
  ∃ pg, index_page (H := LinkDoc.demo_conf) (λ _, "12:00"%string) (λ _, ""%string) LangFA (no_problem, ""%string) State.asFirstRun (sim_status true)
          Privsvc.FaultNone (noon 0) (noon 1) (None, None) [] ([], 0) = Some pg ∧
    js_NextStep (status_json LangFA State.asFirstRun (sim_status true) Privsvc.FaultNone (noon 1) []) = pg_NextStep pg.
Proof.
  destruct (index_page (H := LinkDoc.demo_conf) (λ _, "12:00"%string) (λ _, ""%string) LangFA (no_problem, ""%string) State.asFirstRun
              (sim_status true) Privsvc.FaultNone (noon 0) (noon 1) (None, None) [] ([], 0)) as [pg|] eqn:E; [|discriminate E].
  exists pg. split; [reflexivity|]. apply (poll_agrees_with_page _ _ _ _ _ _ _ _ _ _ _ _ _ E); [reflexivity|].
  eexists. reflexivity.
Defined.
