(* ===== verification/InternetSharing.v ===== *)
(** * The access point of macOS (internal/hotspot/internetsharing.go)

    Apple's Internet Sharing, driven through its preferences file, scutil and
    launchctl, and read back from the bridge. The driver's own memory is the last
    plan and the radio it switched on. Everything asked of the machine is recorded
    with what came back, so that what an operation saw can be spoken of. *)

From S2P Require Import Prelude GoStrings StateError Bytes Base64 Netip Text Json JsonStruct Regex.
From S2P Require Import Facts Parse HotspotConf Supervisor.
From S2P Require Link.

Local Open Scope Z_scope.
Local Open Scope svc_scope.

(** System.RunInput, and whether the caller's context has ended *)
Class SystemInput (K : Type) := {
  RunInput : string → string → list string → K → res string SResult * K;
  CtxErr : K → option string
}.

(** A call of the System interface and its outcome. *)
Inductive Asked :=
| ARun (name : string) (args : list string) (r : res string SResult)
| AInput (stdin name : string) (args : list string) (r : res string SResult)
| ARead (path : string) (r : res read_error string)
| AWrite (path content : string) (r : option string)
| ASleep (d : Z) (r : option string).

Record InternetSharingPaths := MkSharingPaths {
  NATPrefs : string;
  NetworkPrefs : string;
  LeaseFile : string;
  Bridge : string;
  Networksetup : string;
  Scutil : string;
  Plutil : string;
  Ifconfig : string;
  Launchctl : string
}.

Definition DefaultInternetSharingPaths : InternetSharingPaths :=
  MkSharingPaths "/Library/Preferences/SystemConfiguration/com.apple.nat.plist"
    "/Library/Preferences/SystemConfiguration/preferences.plist" "/var/db/dhcpd_leases" "bridge100"
    "/usr/sbin/networksetup" "/usr/sbin/scutil" "/usr/bin/plutil" "/sbin/ifconfig" "/bin/launchctl".

Definition natPrefsName : string := "com.apple.nat.plist".
Definition networkSharingJob : string := "system/com.apple.NetworkSharing".

(** ** What the tools print *)

Definition ParseAirportPower (out : string) : option bool :=
  let line := TrimSpace out in
  if HasSuffix line ": On" then Some true else if HasSuffix line ": Off" then Some false else None.

(** The JSON of preferences.plist: services and the device of each. A map that is
    there already is added to; null empties it. *)
Definition device_codec : Codec string :=
  struct_codec [field "DeviceName" string_codec never id (λ x _, x)] false.
Definition service_codec : Codec string :=
  struct_codec [field "Interface" device_codec never id (λ x _, x)] false.

Definition read_service (m : gmap string string) (kv : list ascii * json) : option (gmap string string) :=
  dev ← dec service_codec (snd kv) ""%string; Some (<[of_l (fst kv) := dev]> m).
Fixpoint read_services (ms : list (list ascii * json)) (m : gmap string string) : option (gmap string string) :=
  match ms with
  | [] => Some m
  | kv :: ms => m ← read_service m kv; read_services ms m
  end.
Definition services_codec : Codec (gmap string string) :=
  MkCodec (λ _, None) (λ j old, match j with JObj ms => read_services ms old | JNull => Some ∅ | _ => None end).
Definition prefs_codec : Codec (gmap string string) :=
  struct_codec [field "NetworkServices" services_codec never id (λ x _, x)] false.

Definition least (best : string) (ids : list string) : string :=
  foldl (λ best id, if String.ltb id best then id else best) best ids.

(** The order in which Go ranges over the services is [range]. The text of
    encoding/json's own error is left out. *)
Definition ServiceForInterface (range : gmap string string → list (string * string)) (prefsJSON iface : string) : res string string :=
  match j ← Unmarshal (to_l prefsJSON); dec prefs_codec j ∅ with
  | None => Err "hotspot: internet sharing: the network services could not be read"%string
  | Some services =>
      match fst <$> List.filter (λ kv, (snd kv =? iface)%string) (range services) with
      | [] => Err ("hotspot: internet sharing: no network service uses " ++ iface ++ ", so macOS cannot share from it")%string
      | first :: rest => Ok (least first rest)
      end
  end.

(** The word flags, an equals sign, hexadecimal digits, and in angle brackets a
    group of upper-case letters, digits, underscores and commas. *)
Definition hexc (c : ascii) : bool := digit c || in_range "a" "f" c || in_range "A" "F" c.
Definition flagc (c : ascii) : bool := in_range "A" "Z" c || digit c || Ascii.eqb c "_" || Ascii.eqb c ",".
Fixpoint chars (l : list ascii) (r : re) : re :=
  match l with [] => r | c :: l => Cat (Cls (Ascii.eqb c)) (chars l r) end.
Definition ifconfigFlags : re :=
  chars (to_l "flags=") (Cat (Cls hexc) (Cat (Star hexc) (Cat (Cls (Ascii.eqb "<")) (Cat Open (Cat (Star flagc) (Cls (Ascii.eqb ">"))))))).

(** The group: from where it opened to the byte before the match's last. *)
Definition flags_of (out : string) : option string :=
  match find ifconfigFlags None (to_l out) with
  | Some (open :: _, rest) => Some (of_l (take (List.length open - List.length rest - 1) open))
  | _ => None
  end.

Definition inet_line (raw : string) : option Addr :=
  match Fields raw with
  | f0 :: f1 :: _ => if (f0 =? "inet")%string then ParseAddr f1 else None
  | _ => None
  end.

Definition ParseIfconfigBrief (out : string) : bool * list Addr :=
  (match flags_of out with
   | Some fl => existsb (λ f, (f =? "UP")%string) (Split fl ",")
   | None => false
   end, omap inet_line (Split out newline_byte)).

(** bridgeUp, from what ifconfig printed: the loop keeps the first IPv4 address
    and ends at the gateway. *)
Fixpoint bridge_loop (gw first : Addr) (addrs : list Addr) : Addr * option Addr :=
  match addrs with
  | [] => (first, None)
  | a :: addrs =>
      let first := if Is4 a && negb (addr_valid first) then a else first in
      if addr_valid gw && bool_decide (a = gw) then (first, Some a) else bridge_loop gw first addrs
  end.

Definition bridge_state (gw : Addr) (r : res string SResult) : bool * Addr :=
  match r with
  | Err _ => (false, NoAddr)
  | Ok r =>
      if negb (r_ExitCode r =? 0) then (false, NoAddr)
      else
        let '(up, addrs) := ParseIfconfigBrief (r_Stdout r) in
        match bridge_loop gw NoAddr addrs with
        | (_, Some a) => (up, a)
        | (first, None) => if negb (addr_valid gw) then (up && addr_valid first, first) else (false, first)
        end
  end.

(** ** The lease file *)

(** strconv.ParseInt(s, 16, 64) *)
Definition hex_digits (l : list ascii) : option Z :=
  match l with
  | [] => None
  | _ => ds ← mapM hex_value l; Some (foldl (λ v d, 16 * v + d) 0 ds)
  end.
Definition ParseHex (s : string) : option Z :=
  let in64 v := if (- 2 ^ 63 <=? v) && (v <? 2 ^ 63) then Some v else None in
  match to_l s with
  | "-"%char :: l => v ← hex_digits l; in64 (- v)
  | "+"%char :: l => v ← hex_digits l; in64 v
  | l => v ← hex_digits l; in64 v
  end.

(** time.Unix: the second at which time.Time is zero *)
Definition zero_second : Z := -62135596800.

Definition dhcpd_lease (ip : Addr) (cur : gmap string string) : Lease :=
  let at_ k := default ""%string (cur !! k) in
  let hw := at_ "hw_address"%string in
  let hw := match Cut hw "," with Some (_, rest) => rest | None => hw end in
  MkLease (match ParseHex (TrimPrefix (at_ "lease"%string) "0x") with
           | Some secs => if secs =? zero_second then None else Some secs
           | None => None
           end)
    (ToLower hw) ip (at_ "name"%string) (at_ "identifier"%string).

Record dhcpd := MkDhcpd { dh_cur : option (gmap string string); dh_leases : list Lease; dh_malformed : Z }.

Definition dhcpd_flush (st : dhcpd) : dhcpd :=
  match dh_cur st with
  | None => st
  | Some cur =>
      match ParseAddr (default ""%string (cur !! "ip_address"%string)) with
      | None => MkDhcpd None (dh_leases st) (dh_malformed st + 1)
      | Some ip => MkDhcpd None (dh_leases st ++ [dhcpd_lease ip cur]) (dh_malformed st)
      end
  end.

Definition dhcpd_line (st : dhcpd) (raw : string) : dhcpd :=
  let line := TrimSpace raw in
  if (line =? "{")%string then let st := dhcpd_flush st in MkDhcpd (Some ∅) (dh_leases st) (dh_malformed st)
  else if (line =? "}")%string then dhcpd_flush st
  else match dh_cur st with
       | None => st
       | Some cur =>
           match Cut line "=" with
           | Some (k, v) => MkDhcpd (Some (<[TrimSpace k := TrimSpace v]> cur)) (dh_leases st) (dh_malformed st)
           | None => st
           end
       end.

Definition ParseDHCPDLeases (data : string) : list Lease * Z :=
  let st := dhcpd_flush (foldl dhcpd_line (MkDhcpd None [] 0) (Split data newline_byte)) in
  (dh_leases st, dh_malformed st).

(** ** The preferences *)

(** The range loop writes each rune back; bytes that are no rune become U+FFFD. *)
Definition xml_rune (r : list ascii) : list ascii :=
  if bool_decide (r = ["&"%char]) then to_l "&amp;"
  else if bool_decide (r = ["<"%char]) then to_l "&lt;"
  else if bool_decide (r = [">"%char]) then to_l "&gt;"
  else if bool_decide (r = [dquote]) then to_l "&quot;"
  else r.
Definition xmlEscape (s : string) : string := of_l (concat (xml_rune <$> Link.runes (to_l s))).

(** The value of a rune *)
Definition rune_value (r : list ascii) : Z :=
  match (λ c, Z.of_nat (nat_of_ascii c)) <$> r with
  | [a] => a
  | [a; b] => Z.lor (Z.shiftl (Z.land a 31) 6) (Z.land b 63)
  | [a; b; c] => Z.lor (Z.shiftl (Z.land a 15) 12) (Z.lor (Z.shiftl (Z.land b 63) 6) (Z.land c 63))
  | [a; b; c; d] => Z.lor (Z.shiftl (Z.land a 7) 18) (Z.lor (Z.shiftl (Z.land b 63) 12) (Z.lor (Z.shiftl (Z.land c 63) 6) (Z.land d 63)))
  | _ => 0xFFFD
  end.

(** utf16.Encode *)
Definition utf16_units (r : Z) : list Z :=
  if r <? 0x10000 then [r]
  else let v := r - 0x10000 in [0xD800 + Z.land (Z.shiftr v 10) 0x3FF; 0xDC00 + Z.land v 0x3FF].
Definition unit_bytes (u : Z) : list Z := [u mod 256; Z.shiftr u 8 mod 256].
Definition utf16_bytes (s : string) : list Z := concat (unit_bytes <$> concat (utf16_units ∘ rune_value <$> Link.runes (to_l s))).
Definition utf16LEBase64 (s : string) : string := of_l (std_encode (utf16_bytes s)).

Definition subnetEnd (p : Prefix) : Addr :=
  let p := Masked p in
  let a := p_addr p in
  if negb (Is4 a) || (Bits p <? 0) || (32 <? Bits p) then a
  else A4 (Z.lor (value a) (Z.shiftr (2 ^ 32 - 1) (Bits p))).

Definition prefixMask (p : Prefix) : string :=
  let bits := Bits p in
  if (bits <? 0) || (32 <? bits) then "255.255.255.0"
  else
    let m := if 0 <? bits then Z.shiftl (2 ^ 32 - 1) (32 - bits) mod 2 ^ 32 else 0 in
    (Itoa (Z.shiftr m 24) ++ "." ++ Itoa (Z.land (Z.shiftr m 16) 0xff) ++ "." ++ Itoa (Z.land (Z.shiftr m 8) 0xff) ++ "." ++
     Itoa (Z.land m 0xff))%string.

Definition inquote (s : string) : string := String dquote (s ++ String dquote "").
Definition tabs (d : nat) (s : string) : string := (of_l (replicate d tab) ++ s)%string.
Definition element (d : nat) (tag text : string) : string := tabs d ("<" ++ tag ++ ">" ++ text ++ "</" ++ tag ++ ">")%string.

Definition mark (d : nat) (tag : string) : string := tabs d ("<" ++ tag ++ ">")%string.

Definition prefs_head : list string :=
  [mark 0 ("?xml version=" ++ inquote "1.0" ++ " encoding=" ++ inquote "UTF-8" ++ "?");
   mark 0 ("!DOCTYPE plist PUBLIC " ++ inquote "-//Apple//DTD PLIST 1.0//EN" ++ " " ++
           inquote "http://www.apple.com/DTDs/PropertyList-1.0.dtd");
   mark 0 ("plist version=" ++ inquote "1.0")]%string.

(** The lines of the file: [air] and [on] are the two Enabled values. *)
Definition prefs_lines (plan : HotspotPlan) (service : string) (air on : Z) : list string :=
  let ap := AP plan in
  let subnet := d_Subnet (DNS plan) in
  [mark 0 "dict"; element 1 "key" "NAT"; mark 1 "dict";
   element 2 "key" "AirPort"; mark 2 "dict";
   element 3 "key" "40BitEncrypt"; element 3 "integer" "0";
   element 3 "key" "Channel"; element 3 "integer" (Itoa (ap_Channel ap));
   element 3 "key" "Enabled"; element 3 "integer" (Itoa air);
   element 3 "key" "NetworkName"; element 3 "string" (xmlEscape (ap_SSID ap));
   element 3 "key" "NetworkPassword"; element 3 "data" (utf16LEBase64 (Passphrase ap));
   mark 2 "/dict";
   element 2 "key" "Enabled"; element 2 "integer" (Itoa on);
   element 2 "key" "NatPortMapDisabled"; mark 2 "false/";
   element 2 "key" "PrimaryInterface"; mark 2 "dict";
   element 3 "key" "Device"; element 3 "string" (xmlEscape (ap_Uplink ap));
   element 3 "key" "Enabled"; element 3 "integer" "0";
   element 3 "key" "HardwareKey"; element 3 "string" "";
   element 3 "key" "PrimaryUserReadable"; element 3 "string" (xmlEscape (ap_Uplink ap));
   mark 2 "/dict";
   element 2 "key" "PrimaryService"; element 2 "string" (xmlEscape service);
   element 2 "key" "SharingDevices"; mark 2 "array"; element 3 "string" (xmlEscape (ap_Interface ap)); mark 2 "/array";
   element 2 "key" "SharingNetworkMask"; element 2 "string" (prefixMask subnet);
   element 2 "key" "SharingNetworkNumberEnd"; element 2 "string" (addr_String (subnetEnd subnet));
   element 2 "key" "SharingNetworkNumberStart"; element 2 "string" (addr_String (p_addr (Masked subnet)));
   mark 1 "/dict"; mark 0 "/dict"; mark 0 "/plist"]%string.

Definition prefs_text (plan : HotspotPlan) (service : string) (air on : Z) : string :=
  text_of (prefs_head ++ prefs_lines plan service air on).

Definition renderNATPrefs (plan : HotspotPlan) (service : string) (enabled : bool) : string :=
  let on := if enabled then 1 else 0 in prefs_text plan service on on.

(** *** Switching sharing off in a file somebody else wrote *)

Definition natDictTokens : re :=
  Alt (Cat (Cls (Ascii.eqb "<")) (Alt (Cat (Cls (Ascii.eqb "/")) (chars (to_l "dict>") Eps)) (chars (to_l "dict>") Eps)))
    (chars (to_l "<key>Enabled</key>") Eps).
(** ^\s*<integer>[01]</integer>: matched at the start only *)
Definition natEnabledValue : re :=
  Cat (Star spacec) (chars (to_l "<integer>") (Cat (Cls (in_range "0" "1")) (chars (to_l "</integer>") Eps))).

(** strings.Replace with n = 1 *)
Fixpoint replace_first (old new l : list ascii) : list ascii :=
  match strip old l with
  | Some rest => new ++ rest
  | None => match l with [] => [] | c :: l => c :: replace_first old new l end
  end.

(** strings.Index, as the text after the occurrence *)
Fixpoint after_first (sub l : list ascii) : option (list ascii * list ascii) :=
  match strip sub l with
  | Some rest => Some (sub, rest)
  | None => match l with [] => None | c :: l => '(pre, rest) ← after_first sub l; Some (c :: pre, rest) end
  end.

(** The loop over the tokens, from the text not yet searched: what the rest of the
    file becomes. [skip] counts the bytes of the last match still to be passed. *)
Fixpoint disable_go (skip : nat) (depth : Z) (l : list ascii) : list ascii :=
  match l with
  | [] => []
  | c :: l' =>
      match skip with
      | S k => c :: disable_go k depth l'
      | O =>
          match match_here natDictTokens None l with
          | None => c :: disable_go 0 depth l'
          | Some (_, rest) =>
              let n := (List.length l - List.length rest)%nat in
              let tok := of_l (take n l) in
              if (tok =? "<dict>")%string then c :: disable_go (n - 1) (depth + 1) l'
              else if (tok =? "</dict>")%string then
                if depth - 1 =? 0 then l else c :: disable_go (n - 1) (depth - 1) l'
              else if depth =? 1 then
                match match_here natEnabledValue None rest with
                | Some (_, rest') =>
                    take n l ++ replace_first (to_l "<integer>1</integer>") (to_l "<integer>0</integer>")
                                  (take (List.length rest - List.length rest') rest) ++ rest'
                | None => l
                end
              else c :: disable_go (n - 1) depth l'
          end
      end
  end.

Definition disableInNATPrefs (xml : string) : string :=
  match after_first (to_l "<key>NAT</key>") (to_l xml) with
  | None => xml
  | Some (pre, rest) => of_l (pre ++ disable_go 0 0 rest)
  end.

(** ** The driver *)

Record Sharing (K : Type) := MkSharing {
  sh_sys : K;
  sh_plan : option HotspotPlan;
  poweredOn : string;
  asked : list Asked
}.
Arguments MkSharing {K}. Arguments sh_sys {K}. Arguments sh_plan {K}. Arguments poweredOn {K}. Arguments asked {K}.

Definition StartSettle : Z := 500000000.
Definition StartTries : nat := 30.
Definition no_status (reason : string) : HStatus := MkHStatus false (no_proc "") (no_proc "") (no_radio_state "") [] 0 reason.

Section Driver.
Context {K : Type} `{System K} `{SystemInput K} (paths : InternetSharingPaths).
Context (range : gmap string string → list (string * string)).

Definition ask {E A} (f : K → A * K) (note : A → Asked) : SE (Sharing K) E A := λ s,
  let '(a, k) := f (sh_sys s) in (Ok a, MkSharing k (sh_plan s) (poweredOn s) (asked s ++ [note a])).
Definition run {E} (name : string) (args : list string) : SE (Sharing K) E (res string SResult) :=
  ask (SysRun name args) (ARun name args).
Definition run_input {E} (stdin name : string) (args : list string) : SE (Sharing K) E (res string SResult) :=
  ask (RunInput stdin name args) (AInput stdin name args).
Definition read_file {E} (path : string) : SE (Sharing K) E (res read_error string) := ask (ReadFile path) (ARead path).
Definition write_file {E} (path content : string) : SE (Sharing K) E (option string) :=
  ask (WriteFile path content 0x1a4) (AWrite path content).
Definition pause : SE (Sharing K) string unit :=
  e <-- ask (SysSleep StartSettle) (ASleep StartSettle);; match e with Some msg => raise msg | None => ret tt end.

Definition set_powered {E} (dev : string) : SE (Sharing K) E unit := λ s,
  (Ok tt, MkSharing (sh_sys s) (sh_plan s) dev (asked s)).
Definition set_plan {E} (plan : HotspotPlan) : SE (Sharing K) E unit := λ s,
  (Ok tt, MkSharing (sh_sys s) (Some plan) (poweredOn s) (asked s)).

(** An error of [m] ends the caller with a status that says [reason]. *)
Definition otherwise {A} (reason : string) (m : SE (Sharing K) string A) : SE (Sharing K) (HStatus * string) A := λ s,
  let '(r, s) := m s in
  (match r with Ok a => Ok a | Err msg => Err (no_status reason, msg) end, s).

Definition stderr_of (r : res string SResult) : string := match r with Ok r => TrimSpace (r_Stderr r) | Err _ => "" end.
Definition worked (r : res string SResult) : bool := match r with Ok r => r_ExitCode r =? 0 | Err _ => false end.

Definition radioPower {E} (dev : string) : SE (Sharing K) E (option bool) :=
  if (dev =? "")%string then ret None
  else
    r <-- run (Networksetup paths) ["-getairportpower"; dev]%string;;
    ret (match r with
         | Ok r => if r_ExitCode r =? 0 then ParseAirportPower (r_Stdout r) else None
         | Err _ => None
         end).

Definition ensureRadioOn (dev : string) : SE (Sharing K) string unit :=
  on <-- radioPower dev;;
  match on with
  | Some true => ret tt
  | _ =>
      r <-- run (Networksetup paths) ["-setairportpower"; dev; "on"]%string;;
      match r with
      | Err msg => raise ("hotspot: internet sharing: switching the radio on: " ++ msg)%string
      | Ok res =>
          if negb (r_ExitCode res =? 0) then
            raise ("hotspot: internet sharing: networksetup exited " ++ Itoa (r_ExitCode res) ++ " switching the radio on: " ++
                   stderr_of r)%string
          else set_powered dev
      end
  end.

Definition uplinkService (uplink : string) : SE (Sharing K) string string :=
  r <-- run (Plutil paths) ["-convert"; "json"; "-o"; "-"; NetworkPrefs paths]%string;;
  match r with
  | Err msg => raise ("hotspot: internet sharing: reading the network services: " ++ msg)%string
  | Ok res =>
      if negb (r_ExitCode res =? 0) then
        raise ("hotspot: internet sharing: plutil exited " ++ Itoa (r_ExitCode res) ++ " reading the network services: " ++
               stderr_of r)%string
      else lift_res (ServiceForInterface range (r_Stdout res) uplink)
  end.

Definition nudge_script : string := text_of ["get NAT"; "set NAT"; "commit"; "apply"; "quit"]%string.

Definition nudge : SE (Sharing K) string unit :=
  r <-- run_input nudge_script (Scutil paths) ["--prefs"; natPrefsName]%string;;
  match r with
  | Err msg => raise ("hotspot: internet sharing: telling configd about the preferences: " ++ msg)%string
  | Ok res =>
      if negb (r_ExitCode res =? 0)
      then raise ("hotspot: internet sharing: scutil exited " ++ Itoa (r_ExitCode res) ++ ": " ++ stderr_of r)%string
      else ret tt
  end.

Definition bridgeUp {E} (gw : Addr) : SE (Sharing K) E (bool * Addr) :=
  r <-- run (Ifconfig paths) [Bridge paths];; ret (bridge_state gw r).

Fixpoint await_loop (n : nat) (gw : Addr) (want : bool) : SE (Sharing K) string unit :=
  match n with
  | O =>
      raise (if want then "hotspot: internet sharing: " ++ Bridge paths ++ " did not come up carrying " ++ addr_String gw
             else "hotspot: internet sharing: " ++ Bridge paths ++ " is still up")%string
  | S n =>
      s <-- get;;
      match CtxErr (sh_sys s) with
      | Some msg => raise msg
      | None =>
          up <-- bridgeUp gw;;
          if Bool.eqb up.1 want then ret tt else pause;;; await_loop n gw want
      end
  end.
Definition awaitBridge (gw : Addr) (want : bool) : SE (Sharing K) string unit := await_loop StartTries gw want.

Definition writeIfChanged (path content : string) : SE (Sharing K) string bool :=
  cur <-- read_file path;;
  if match cur with Ok b => (b =? content)%string | Err _ => false end then ret false
  else
    e <-- write_file path content;;
    match e with
    | Some msg => raise ("hotspot: internet sharing: writing " ++ path ++ ": " ++ msg)%string
    | None => ret true
    end.

Definition readPrefsXML {E} : SE (Sharing K) E (option string) :=
  r <-- run (Plutil paths) ["-convert"; "xml1"; "-o"; "-"; NATPrefs paths]%string;;
  ret (match r with Ok res => if r_ExitCode res =? 0 then Some (r_Stdout res) else None | Err _ => None end).

Definition kickstart {E} : SE (Sharing K) E (res string SResult) :=
  run (Launchctl paths) ["kickstart"; "-k"; networkSharingJob]%string.

(** Waiting, and once more after a kickstart of the daemon. *)
Definition awaitTwice (gw : Addr) (want : bool) : SE (Sharing K) string unit :=
  r <-- attempt_ (awaitBridge gw want);;
  match r with
  | Ok _ => ret tt
  | Err msg =>
      k <-- kickstart;;
      match k with
      | Ok _ => awaitBridge gw want
      | Err _ => raise msg
      end
  end.

Definition of_subnet (plan : option HotspotPlan) (leases : list Lease) : list Lease :=
  match plan with
  | Some plan => List.filter (λ l, Contains_addr (d_Subnet (DNS plan)) (l_IP l)) leases
  | None => leases
  end.

Definition Status {E} (iface : string) : SE (Sharing K) E HStatus :=
  s <-- get;;
  let plan := sh_plan s in
  let gw := match plan with Some plan => d_Gateway (DNS plan) | None => NoAddr end in
  b <-- bridgeUp gw;;
  let '(up, addr) := b in
  power <-- radioPower iface;;
  let radio := match power with
               | Some power => MkRadioState false (negb power) false false ""
               | None => no_radio_state ""
               end in
  if up then
    data <-- read_file (LeaseFile paths);;
    s <-- get;;
    let '(leases, malformed) := match data with Ok data => ParseDHCPDLeases data | Err _ => ([], 0) end in
    ret (MkHStatus true (MkProc true 0 true "") (MkProc true 0 false "") radio
           (ActiveLeases (of_subnet plan leases) (SysNow (sh_sys s))) malformed "")
  else
    ret (MkHStatus false (no_proc "") (no_proc "") radio [] 0
           (match plan with
            | None => "Internet Sharing is not running."
            | Some _ =>
                if addr_valid addr then
                  "Internet Sharing is serving " ++ addr_String addr ++ ", not the network this appliance configured."
                else "Internet Sharing has not brought the network up."
            end)%string).

(** Start, its off transition: the network on the air is another one. *)
Definition retire_previous (plan : HotspotPlan) (service : string) : SE (Sharing K) (HStatus * string) unit :=
  current <-- read_file (NATPrefs paths);;
  match current with
  | Err _ => ret tt
  | Ok current =>
      if (current =? renderNATPrefs plan service true)%string then ret tt
      else
        up <-- bridgeUp NoAddr;;
        if negb up.1 then ret tt
        else
          otherwise "" (writeIfChanged (NATPrefs paths) (renderNATPrefs plan service false));;;
          otherwise "" nudge;;;
          otherwise "The previous Wi-Fi network did not stop. The new Wi-Fi password has not been applied."
            (awaitBridge NoAddr false)
  end.

Definition Start (plan : HotspotPlan) : SE (Sharing K) (HStatus * string) HStatus :=
  let dev := ap_Interface (AP plan) in
  let gw := d_Gateway (DNS plan) in
  if (dev =? "")%string then
    raise (no_status "The plan names no Wi-Fi interface.", "hotspot: internet sharing: the plan names no Wi-Fi interface"%string)
  else if (ap_Uplink (AP plan) =? "")%string then
    raise (no_status "The plan names no internet interface to share.",
           "hotspot: internet sharing: the plan names no uplink interface"%string)
  else
    otherwise "The Wi-Fi radio is switched off and could not be switched on." (ensureRadioOn dev);;;
    service <-- otherwise "The internet interface is not a network service macOS knows." (uplinkService (ap_Uplink (AP plan)));;
    retire_previous plan service;;;
    set_plan plan;;;
    changed <-- otherwise "The Internet Sharing preferences could not be written."
                  (writeIfChanged (NATPrefs paths) (renderNATPrefs plan service true));;
    already <-- (if changed then ret false else up <-- bridgeUp gw;; ret up.1);;
    if already then Status dev
    else
      otherwise "macOS did not accept the request to start Internet Sharing." nudge;;;
      otherwise "Internet Sharing did not bring the network up. The preferences were written and macOS was asked twice."
        (awaitTwice gw true);;;
      Status dev.

(** The errors of Stop, joined, are their list. *)
Definition collect {E} (m : SE (Sharing K) string unit) : SE (Sharing K) E (list string) := λ s,
  let '(r, s) := m s in (Ok (match r with Ok _ => [] | Err msg => [msg] end), s).

(** What Stop writes: from the plan of this process, or from the file. *)
Definition off_text {E} (plan : option HotspotPlan) : SE (Sharing K) E (option string) := λ s,
  let from_file := xml <-- readPrefsXML;;
                   ret (match xml with
                        | Some xml => if (disableInNATPrefs xml =? "")%string then None else Some (disableInNATPrefs xml)
                        | None => None
                        end) in
  match plan with
  | None => from_file s
  | Some plan =>
      let '(r, s) := uplinkService (ap_Uplink (AP plan)) s in
      match r with
      | Ok service => (Ok (Some (renderNATPrefs plan service false)), s)
      | Err _ => from_file s
      end
  end.

Definition Stop {E} : SE (Sharing K) E (list string) :=
  s <-- get;;
  let plan := sh_plan s in
  let powered := poweredOn s in
  set_powered "";;;
  rendered <-- off_text plan;;
  e1 <-- match rendered with
         | None => ret []
         | Some rendered =>
             e1 <-- collect (writeIfChanged (NATPrefs paths) rendered;;; ret tt);;
             e2 <-- collect nudge;;
             e3 <-- collect (awaitTwice NoAddr false);;
             ret (e1 ++ e2 ++ e3)
         end;;
  e2 <-- (if (powered =? "")%string then ret []
          else
            r <-- run (Networksetup paths) ["-setairportpower"; powered; "off"]%string;;
            ret (if worked r then []
                 else ["hotspot: internet sharing: switching the radio back off: " ++
                       (match r with Err msg => msg | Ok _ => "<nil>" end) ++ " " ++ stderr_of r]%string));;
  ret (e1 ++ e2).
End Driver.
