(* ===== verification/SharingFacts.v ===== *)
(** * What the access point of macOS guarantees

    The preferences file read back by a strict reader of property lists, whatever
    names and passwords hold; the lease file and the services counted and chosen
    whatever their order; every call the driver makes; and what a start or a stop
    that reported success had seen. *)

From S2P Require Import Prelude GoStrings StateError Bytes Base64 Netip Text Json JsonFacts JsonStruct Regex.
From S2P Require Import Facts Parse HotspotConf HotspotFacts Supervisor.
From S2P Require Link LinkFacts LinkDoc Nft.
From S2P Require Import InternetSharing.

Local Open Scope Z_scope.
Local Open Scope svc_scope.

(** ** What the preferences say

    A strict reader of property lists: the text is cut at its tags, a dictionary is
    keys and values in turn, character references are the four XML has names for. *)

Inductive token := Tag (t : list ascii) | Chars (t : list ascii) | Broken.

Fixpoint lex (inside : bool) (cur : list ascii) (l : list ascii) : list token :=
  match l with
  | [] => if inside then [Broken] else [Chars cur]
  | c :: l =>
      if Ascii.eqb c "<" then if inside then [Broken] else Chars cur :: lex true [] l
      else if Ascii.eqb c ">" && inside then Tag cur :: lex false [] l
      else lex inside (cur ++ [c]) l
  end.

Definition entity (l : list ascii) : option (ascii * list ascii) :=
  match strip (to_l "amp;") l, strip (to_l "lt;") l, strip (to_l "gt;") l, strip (to_l "quot;") l with
  | Some r, _, _, _ => Some ("&"%char, r)
  | _, Some r, _, _ => Some ("<"%char, r)
  | _, _, Some r, _ => Some (">"%char, r)
  | _, _, _, Some r => Some (dquote, r)
  | _, _, _, _ => None
  end.
Fixpoint unescape_go (fuel : nat) (l : list ascii) : option (list ascii) :=
  match fuel, l with
  | _, [] => Some []
  | O, _ => None
  | S fuel, c :: l =>
      if Ascii.eqb c "&" then match entity l with Some (c, r) => cons c <$> unescape_go fuel r | None => None end
      else cons c <$> unescape_go fuel l
  end.
Definition unescape (l : list ascii) : option (list ascii) := unescape_go (List.length l) l.

Inductive plist :=
| PDict (l : list (string * plist))
| PArray (l : list plist)
| PString (s : string)
| PInteger (s : string)
| PData (s : string)
| PFalse.

(** Blanks between tags. *)
Fixpoint blanks (ts : list token) : list token :=
  match ts with
  | Chars t :: ts' => if forallb spacec t then blanks ts' else ts
  | _ => ts
  end.
Definition tag_is (t : list ascii) (name : string) : bool := (of_l t =? name)%string.

Section Reader.
(** What character references stand for. *)
Variable refs : list ascii → option (list ascii).

Fixpoint read_value (fuel : nat) (ts : list token) {struct fuel} : option (plist * list token) :=
  match fuel with
  | O => None
  | S fuel =>
      match blanks ts with
      | Tag open :: Chars text :: Tag close :: rest =>
          if tag_is open "string" && tag_is close "/string" then t ← refs text; Some (PString (of_l t), rest)
          else if tag_is open "integer" && tag_is close "/integer" then Some (PInteger (of_l text), rest)
          else if tag_is open "data" && tag_is close "/data" then Some (PData (of_l text), rest)
          else if tag_is open "dict" then '(l, rest) ← read_dict fuel (Chars text :: Tag close :: rest); Some (PDict l, rest)
          else if tag_is open "array" then '(l, rest) ← read_array fuel (Chars text :: Tag close :: rest); Some (PArray l, rest)
          else if tag_is open "false/" then Some (PFalse, Chars text :: Tag close :: rest)
          else None
      | _ => None
      end
  end
with read_dict (fuel : nat) (ts : list token) {struct fuel} : option (list (string * plist) * list token) :=
  match fuel with
  | O => None
  | S fuel =>
      match blanks ts with
      | Tag open :: rest =>
          if tag_is open "/dict" then Some ([], rest)
          else match rest with
               | Chars key :: Tag close :: rest =>
                   if tag_is open "key" && tag_is close "/key" then
                     '(v, rest) ← read_value fuel rest; '(l, rest) ← read_dict fuel rest; Some ((of_l key, v) :: l, rest)
                   else None
               | _ => None
               end
      | _ => None
      end
  end
with read_array (fuel : nat) (ts : list token) {struct fuel} : option (list plist * list token) :=
  match fuel with
  | O => None
  | S fuel =>
      match blanks ts with
      | Tag open :: rest =>
          if tag_is open "/array" then Some ([], rest)
          else '(v, rest) ← read_value fuel (Tag open :: rest); '(l, rest) ← read_array fuel rest; Some (v :: l, rest)
      | _ => None
      end
  end.

(** The prolog, and the one value of the document. *)
Fixpoint prolog (ts : list token) : list token :=
  match ts with
  | Chars t :: ts' => if forallb spacec t then prolog ts' else ts
  | Tag ("?"%char :: _) :: ts' | Tag ("!"%char :: _) :: ts' => prolog ts'
  | _ => ts
  end.
Definition read_tokens (ts : list token) : option plist :=
  match prolog ts with
  | Tag t :: ts' =>
      if HasPrefix (of_l t) "plist " then
        '(v, rest) ← read_value (List.length ts) ts';
        match blanks rest with
        | Tag t :: rest => if tag_is t "/plist" then match blanks rest with [] => Some v | _ => None end else None
        | _ => None
        end
      else None
  | _ => None
  end.
End Reader.
Definition read_plist (text : string) : option plist := read_tokens unescape (lex false [] (to_l text)).

(** The dictionary the lines of the file spell. *)
Definition written_tree (plan : HotspotPlan) (service : string) (air on : Z) : plist :=
  let ap := AP plan in
  let subnet := d_Subnet (DNS plan) in
  PDict [("NAT", PDict
    [("AirPort", PDict
       [("40BitEncrypt", PInteger "0"); ("Channel", PInteger (Itoa (ap_Channel ap))); ("Enabled", PInteger (Itoa air));
        ("NetworkName", PString (ap_SSID ap)); ("NetworkPassword", PData (utf16LEBase64 (Passphrase ap)))]);
     ("Enabled", PInteger (Itoa on)); ("NatPortMapDisabled", PFalse);
     ("PrimaryInterface", PDict
       [("Device", PString (ap_Uplink ap)); ("Enabled", PInteger "0"); ("HardwareKey", PString "");
        ("PrimaryUserReadable", PString (ap_Uplink ap))]);
     ("PrimaryService", PString service); ("SharingDevices", PArray [PString (ap_Interface ap)]);
     ("SharingNetworkMask", PString (prefixMask subnet)); ("SharingNetworkNumberEnd", PString (addr_String (subnetEnd subnet)));
     ("SharingNetworkNumberStart", PString (addr_String (p_addr (Masked subnet))))])]%string.

(** What the file is meant to say, apart from how the code computes it: the subnet is
    the network of [b] bits around the address [n]. Its mask is what is left of the
    32-bit words above its size, its first address the multiple of the size at or
    below [n], its last the one before the next multiple; each is written as four
    decimal numbers. The password is one UTF-16 unit per character, low byte first. *)
Definition quad (n : Z) : string :=
  (Itoa (n / 16777216) ++ "." ++ Itoa (n / 65536 mod 256) ++ "." ++ Itoa (n / 256 mod 256) ++ "." ++ Itoa (n mod 256))%string.
Definition size (b : Z) : Z := 2 ^ (32 - b).
Definition first_of (n b : Z) : Z := n / size b * size b.
Definition last_of (n b : Z) : Z := first_of n b + size b - 1.
Definition wide (s : string) : list Z := concat ((λ c, [code c; 0]) <$> to_l s).

Definition prefs_tree (plan : HotspotPlan) (n b : Z) (service : string) (air on : Z) : plist :=
  let ap := AP plan in
  PDict [("NAT", PDict
    [("AirPort", PDict
       [("40BitEncrypt", PInteger "0"); ("Channel", PInteger (Itoa (ap_Channel ap))); ("Enabled", PInteger (Itoa air));
        ("NetworkName", PString (ap_SSID ap)); ("NetworkPassword", PData (of_l (std_encode (wide (Passphrase ap)))))]);
     ("Enabled", PInteger (Itoa on)); ("NatPortMapDisabled", PFalse);
     ("PrimaryInterface", PDict
       [("Device", PString (ap_Uplink ap)); ("Enabled", PInteger "0"); ("HardwareKey", PString "");
        ("PrimaryUserReadable", PString (ap_Uplink ap))]);
     ("PrimaryService", PString service); ("SharingDevices", PArray [PString (ap_Interface ap)]);
     ("SharingNetworkMask", PString (quad (2 ^ 32 - size b))); ("SharingNetworkNumberEnd", PString (quad (last_of n b)));
     ("SharingNetworkNumberStart", PString (quad (first_of n b)))])]%string.

(** *** Text without tags *)

Definition untagged (l : list ascii) : Prop := Forall (λ c, c ≠ "<"%char) l.

Lemma lex_text cur t rest : untagged t → lex false cur (t ++ "<"%char :: rest) = Chars (cur ++ t) :: lex true [] rest.
Proof.
  intros Ht. revert cur. induction Ht as [|c t Hc Ht IH]; intros cur; simpl; [by rewrite app_nil_r|].
  rewrite (proj2 (Ascii.eqb_neq c "<") Hc). rewrite andb_false_r. by rewrite IH, <- (assoc (++)).
Qed.

Lemma Itoa_safe z : Forall (λ c, is_digit c = true ∨ c = "-"%char) (to_l (Itoa z)).
Proof.
  assert (∀ z, 0 ≤ z → Forall (λ c, is_digit c = true ∨ c = "-"%char) (to_l (Itoa z))) as Hn.
  { intros y Hy. destruct (Itoa_nonneg y Hy) as (d & ds & -> & Hall & _). eapply Forall_impl; [exact Hall|]. auto. }
  destruct (Z.le_gt_cases 0 z) as [Hz|Hz]; [auto|]. rewrite Itoa_neg by done. constructor; [auto|]. apply Hn. lia.
Qed.
Lemma untagged_Itoa z : untagged (to_l (Itoa z)).
Proof. eapply Forall_impl; [apply Itoa_safe|]. intros c [Hc| ->]; [|done]. by intros ->. Qed.

(** Bytes of a rune of several bytes are not ASCII. *)
Lemma good_not_ascii c d l : LinkFacts.good (c :: d :: l) → ¬ (nat_of_ascii c < 128)%nat.
Proof.
  intros Hg Ha. pose proof (LinkFacts.good_width _ Hg []) as Hw. rewrite app_nil_r, rune_width_ascii in Hw by done. simpl in Hw. lia.
Qed.
Lemma not_start_high c : Link.RuneStart c = false → (128 ≤ nat_of_ascii c)%nat.
Proof. destruct c as [[] [] [] [] [] [] [] []]; vm_compute; try done; lia. Qed.

Lemma good_high c d l : LinkFacts.good (c :: d :: l) → Forall (λ c, (128 ≤ nat_of_ascii c)%nat) (c :: d :: l).
Proof.
  intros Hg. constructor; [pose proof (good_not_ascii _ _ _ Hg); lia|]. destruct (LinkFacts.good_head _ Hg _ _ eq_refl) as [_ Hl].
  eapply Forall_impl; [exact Hl|]. apply not_start_high.
Qed.

Lemma xml_rune_long c d l : xml_rune (c :: d :: l) = c :: d :: l.
Proof. unfold xml_rune. by rewrite !bool_decide_eq_false_2 by done. Qed.

Lemma untagged_rune r : LinkFacts.good r → untagged (xml_rune r).
Proof.
  intros Hg. destruct r as [|c [|d l]]; [by destruct (LinkFacts.good_ne _ Hg)| |].
  - unfold xml_rune. repeat case_bool_decide; try by (repeat constructor; done). repeat constructor. by intros ->.
  - rewrite xml_rune_long. eapply Forall_impl; [apply (good_high _ _ _ Hg)|]. intros x Hx ->. vm_compute in Hx. lia.
Qed.

Lemma untagged_concat ls : Forall untagged ls → untagged (concat ls).
Proof. induction 1; [constructor|]. by apply Forall_app. Qed.

Lemma untagged_escape s : untagged (to_l (xmlEscape s)).
Proof.
  unfold xmlEscape. rewrite to_of_l. apply untagged_concat, Forall_fmap. eapply Forall_impl; [apply LinkFacts.runes_good|]. apply untagged_rune.
Qed.

Lemma std_chars_untagged l : bytes_ok l → untagged (std_encode l).
Proof.
  intros Hl. apply Forall_app. split; [|unfold padding; repeat case_match; repeat constructor; done].
  apply Forall_forall. intros c Hc. destruct (b64_encode_chars std_alphabet l c Hl Hc) as (n & Hn & ->).
  assert (forallb (λ n, negb (Ascii.eqb (b64_char std_alphabet (Z.of_nat n)) "<")) (seq 0 64) = true) as Hf by (vm_compute; reflexivity).
  rewrite forallb_forall in Hf. specialize (Hf (Z.to_nat n)). rewrite Z2Nat.id in Hf by lia.
  apply Ascii.eqb_neq, negb_true_iff, Hf, in_seq. lia.
Qed.

Lemma utf16_bytes_ok s : bytes_ok (utf16_bytes s).
Proof.
  unfold utf16_bytes. generalize (concat (utf16_units ∘ rune_value <$> Link.runes (to_l s))). intros l. induction l as [|u l IH]; [constructor|].
  simpl. repeat constructor; try (apply Z.mod_pos_bound; lia). exact IH.
Qed.
Lemma untagged_password s : untagged (to_l (utf16LEBase64 s)).
Proof. unfold utf16LEBase64. rewrite to_of_l. apply std_chars_untagged, utf16_bytes_ok. Qed.

(** *** Character references *)

Lemma unescape_plain_go fuel c l : c ≠ "&"%char → unescape_go (S fuel) (c :: l) = cons c <$> unescape_go fuel l.
Proof. intros Hc. cbn [unescape_go]. by rewrite (proj2 (Ascii.eqb_neq c "&") Hc). Qed.

Lemma unescape_enough l : ∀ fuel fuel' r, unescape_go fuel l = Some r → (fuel ≤ fuel')%nat → unescape_go fuel' l = Some r.
Proof.
  intros fuel. revert l. induction fuel as [|f IH]; intros l f' r Hr Hf; [destruct l; [by destruct f'|discriminate Hr]|].
  destruct f' as [|f']; [lia|]. destruct l as [|c l]; [exact Hr|]. destruct (decide (c = "&"%char)) as [->|Hc].
  - cbn [unescape_go Ascii.eqb Bool.eqb] in Hr |- *. destruct (entity l) as [[c r']|]; [|discriminate Hr].
    destruct (unescape_go f r') as [x|] eqn:E; [|discriminate Hr]. by rewrite (IH _ f' _ E) by lia.
  - rewrite unescape_plain_go in Hr |- * by done. destruct (unescape_go f l) as [x|] eqn:E; [|discriminate Hr]. by rewrite (IH _ f' _ E) by lia.
Qed.

Lemma unescape_high p l fuel : Forall (λ c, c ≠ "&"%char) p → unescape_go (List.length p + fuel) (p ++ l) = app p <$> unescape_go fuel l.
Proof.
  induction 1 as [|c p Hc Hp IH]; [simpl; by destruct (unescape_go fuel l)|]. cbn [List.length app Nat.add].
  rewrite unescape_plain_go, IH by done. by destruct (unescape_go fuel l).
Qed.

Lemma unescape_rune r l fuel x : LinkFacts.good r → unescape_go fuel l = Some x →
  unescape_go (List.length (xml_rune r) + fuel) (xml_rune r ++ l) = Some (r ++ x).
Proof.
  intros Hg Hx. destruct r as [|c [|d r]]; [by destruct (LinkFacts.good_ne _ Hg)| |].
  - assert (∀ n, unescape_go (n + fuel) l = Some x) as Hn by (intros n; apply (unescape_enough l fuel); [exact Hx|lia]).
    unfold xml_rune. repeat case_bool_decide; simplify_eq.
    + change (cons "&"%char <$> unescape_go (4 + fuel) l = Some (["&"%char] ++ x)). by rewrite Hn.
    + change (cons "<"%char <$> unescape_go (3 + fuel) l = Some (["<"%char] ++ x)). by rewrite Hn.
    + change (cons ">"%char <$> unescape_go (3 + fuel) l = Some ([">"%char] ++ x)). by rewrite Hn.
    + change (cons dquote <$> unescape_go (5 + fuel) l = Some ([dquote] ++ x)). by rewrite Hn.
    + cbn [List.length app Nat.add]. rewrite unescape_plain_go by (by intros ->). by rewrite Hx.
  - rewrite xml_rune_long, unescape_high, Hx; [done|]. eapply Forall_impl; [apply (good_high _ _ _ Hg)|]. intros y Hy ->. vm_compute in Hy. lia.
Qed.

Lemma unescape_runes rs : Forall LinkFacts.good rs →
  unescape_go (List.length (concat (xml_rune <$> rs))) (concat (xml_rune <$> rs)) = Some (concat rs).
Proof.
  induction 1 as [|r rs Hr Hrs IH]; [done|]. cbn [fmap list_fmap concat]. rewrite length_app. by apply unescape_rune.
Qed.
Lemma unescape_escape s : ValidString s = true → unescape (to_l (xmlEscape s)) = Some (to_l s).
Proof.
  intros Hv. unfold xmlEscape, unescape. rewrite to_of_l, unescape_runes by apply LinkFacts.runes_good.
  f_equal. exact (LinkFacts.concat_runes (to_l s) 0 Hv).
Qed.
Lemma unescape_none l : Forall (λ c, c ≠ "&"%char) l → unescape l = Some l.
Proof. intros Hl. unfold unescape. rewrite <- (app_nil_r l) at 2. rewrite <- (Nat.add_0_r (List.length l)), unescape_high by done. simpl. by rewrite app_nil_r. Qed.

(** *** The tokens of the file *)

Inductive line := Element (d : nat) (tag text : string) | Mark (d : nat) (tag : string).
Definition line_text (l : line) : string :=
  match l with Element d tag text => element d tag text | Mark d tag => mark d tag end.
Definition tag_ok (tag : string) : bool := forallb (λ c, negb (Ascii.eqb c "<") && negb (Ascii.eqb c ">")) (to_l tag).
Definition line_ok (l : line) : Prop :=
  match l with Element _ tag text => tag_ok tag = true ∧ untagged (to_l text) | Mark _ tag => tag_ok tag = true end.

Fixpoint line_tokens (cur : list ascii) (ls : list line) : list token :=
  match ls with
  | [] => [Chars cur]
  | Element d tag text :: ls =>
      Chars (cur ++ replicate d tab) :: Tag (to_l tag) :: Chars (to_l text) :: Tag (to_l ("/" ++ tag)) :: line_tokens [newline_byte] ls
  | Mark d tag :: ls => Chars (cur ++ replicate d tab) :: Tag (to_l tag) :: line_tokens [newline_byte] ls
  end.

Lemma lex_tag cur t rest : forallb (λ c, negb (Ascii.eqb c "<") && negb (Ascii.eqb c ">")) t = true →
  lex true cur (t ++ ">"%char :: rest) = Tag (cur ++ t) :: lex false [] rest.
Proof.
  revert cur. induction t as [|c t IH]; intros cur Ht; simpl; [by rewrite app_nil_r|]. simpl in Ht.
  apply andb_true_iff in Ht as [Hc Ht]. apply andb_true_iff in Hc as [H1 H2]. apply negb_true_iff in H1, H2. rewrite H1, H2. simpl.
  by rewrite IH, <- (assoc (++)).
Qed.

Lemma untagged_tabs d : untagged (replicate d tab).
Proof. induction d; by constructor. Qed.
Lemma lex_text0 cur t rest : untagged t → lex false cur (t ++ rest) = lex false (cur ++ t) rest.
Proof.
  intros Ht. revert cur. induction Ht as [|c t Hc Ht IH]; intros cur; simpl; [by rewrite app_nil_r|].
  rewrite (proj2 (Ascii.eqb_neq c "<") Hc), andb_false_r. by rewrite IH, <- (assoc (++)).
Qed.

Lemma to_l_mark d tag rest : to_l (mark d tag) ++ rest = replicate d tab ++ "<"%char :: to_l tag ++ ">"%char :: rest.
Proof.
  unfold mark, tabs. rewrite !to_l_app, to_of_l. rewrite <- !(assoc (++)). reflexivity.
Qed.
Lemma to_l_element d tag text rest :
  to_l (element d tag text) ++ rest =
  replicate d tab ++ "<"%char :: to_l tag ++ ">"%char :: to_l text ++ "<"%char :: to_l ("/" ++ tag) ++ ">"%char :: rest.
Proof.
  unfold element, tabs. rewrite !to_l_app, to_of_l. rewrite <- !(assoc (++)). reflexivity.
Qed.

Lemma lex_line l cur rest : line_ok l → lex false cur (to_l (line_text l) ++ newline_byte :: rest) =
  match l with
  | Element d tag text => [Chars (cur ++ replicate d tab); Tag (to_l tag); Chars (to_l text); Tag (to_l ("/" ++ tag))]
  | Mark d tag => [Chars (cur ++ replicate d tab); Tag (to_l tag)]
  end ++ lex false [newline_byte] rest.
Proof.
  destruct l as [d tag text|d tag]; cbn [line_text line_ok].
  - intros [Ht Hx]. rewrite to_l_element, lex_text by apply untagged_tabs. rewrite lex_tag by done.
    rewrite lex_text by done. rewrite lex_tag by exact Ht. done.
  - intros Ht. rewrite to_l_mark, lex_text by apply untagged_tabs. by rewrite lex_tag.
Qed.

Lemma text_of_line l ls : to_l (text_of (l :: ls)) = to_l l ++ newline_byte :: to_l (text_of ls).
Proof.
  assert (∀ l ls, String.concat "" (l :: ls) = l ++ String.concat "" ls)%string as Hc.
  { intros x [|y r]; simpl; [by rewrite append_nil_r|done]. }
  unfold text_of. cbn [fmap list_fmap]. rewrite Hc, !to_l_app, <- (assoc (++)). done.
Qed.

Lemma lex_lines ls cur : Forall line_ok ls → lex false cur (to_l (text_of (line_text <$> ls))) = line_tokens cur ls.
Proof.
  intros Hl. revert cur. induction Hl as [|l ls Ho Hl IH]; intros cur; [done|]. cbn [fmap list_fmap].
  rewrite text_of_line, lex_line, IH by done. by destruct l.
Qed.

Definition prefs_layout (chan air ssid pw on dev svc ifc msk en st : string) : list line :=
  [Mark 0 ("?xml version=" ++ inquote "1.0" ++ " encoding=" ++ inquote "UTF-8" ++ "?");
   Mark 0 ("!DOCTYPE plist PUBLIC " ++ inquote "-//Apple//DTD PLIST 1.0//EN" ++ " " ++
           inquote "http://www.apple.com/DTDs/PropertyList-1.0.dtd");
   Mark 0 ("plist version=" ++ inquote "1.0");
   Mark 0 "dict"; Element 1 "key" "NAT"; Mark 1 "dict"; Element 2 "key" "AirPort"; Mark 2 "dict";
   Element 3 "key" "40BitEncrypt"; Element 3 "integer" "0"; Element 3 "key" "Channel"; Element 3 "integer" chan;
   Element 3 "key" "Enabled"; Element 3 "integer" air; Element 3 "key" "NetworkName"; Element 3 "string" ssid;
   Element 3 "key" "NetworkPassword"; Element 3 "data" pw; Mark 2 "/dict";
   Element 2 "key" "Enabled"; Element 2 "integer" on; Element 2 "key" "NatPortMapDisabled"; Mark 2 "false/";
   Element 2 "key" "PrimaryInterface"; Mark 2 "dict"; Element 3 "key" "Device"; Element 3 "string" dev;
   Element 3 "key" "Enabled"; Element 3 "integer" "0"; Element 3 "key" "HardwareKey"; Element 3 "string" "";
   Element 3 "key" "PrimaryUserReadable"; Element 3 "string" dev; Mark 2 "/dict";
   Element 2 "key" "PrimaryService"; Element 2 "string" svc;
   Element 2 "key" "SharingDevices"; Mark 2 "array"; Element 3 "string" ifc; Mark 2 "/array";
   Element 2 "key" "SharingNetworkMask"; Element 2 "string" msk;
   Element 2 "key" "SharingNetworkNumberEnd"; Element 2 "string" en;
   Element 2 "key" "SharingNetworkNumberStart"; Element 2 "string" st;
   Mark 1 "/dict"; Mark 0 "/dict"; Mark 0 "/plist"]%string.

Lemma prefs_layout_text plan service air on :
  let ap := AP plan in
  let subnet := d_Subnet (DNS plan) in
  prefs_text plan service air on =
  text_of (line_text <$> prefs_layout (Itoa (ap_Channel ap)) (Itoa air) (xmlEscape (ap_SSID ap)) (utf16LEBase64 (Passphrase ap)) (Itoa on)
             (xmlEscape (ap_Uplink ap)) (xmlEscape service) (xmlEscape (ap_Interface ap)) (prefixMask subnet)
             (addr_String (subnetEnd subnet)) (addr_String (p_addr (Masked subnet)))).
Proof. reflexivity. Qed.

Section Reads.
Context (refs : list ascii → option (list ascii)).

Lemma value_string f ws t t' rest : forallb spacec ws = true → refs t = Some t' →
  read_value refs (S f) (Chars ws :: Tag (to_l "string") :: Chars t :: Tag (to_l ("/" ++ "string")) :: rest) = Some (PString (of_l t'), rest).
Proof. intros Hw Ht. cbn [read_value blanks]. rewrite Hw. cbn -[read_value read_dict read_array]. by rewrite Ht. Qed.
Lemma value_integer f ws t rest : forallb spacec ws = true →
  read_value refs (S f) (Chars ws :: Tag (to_l "integer") :: Chars t :: Tag (to_l ("/" ++ "integer")) :: rest) = Some (PInteger (of_l t), rest).
Proof. intros Hw. cbn [read_value blanks]. by rewrite Hw. Qed.
Lemma value_data f ws t rest : forallb spacec ws = true →
  read_value refs (S f) (Chars ws :: Tag (to_l "data") :: Chars t :: Tag (to_l ("/" ++ "data")) :: rest) = Some (PData (of_l t), rest).
Proof. intros Hw. cbn [read_value blanks]. by rewrite Hw. Qed.
Lemma value_false f ws t close rest : forallb spacec ws = true →
  read_value refs (S f) (Chars ws :: Tag (to_l "false/") :: Chars t :: Tag close :: rest) = Some (PFalse, Chars t :: Tag close :: rest).
Proof. intros Hw. cbn [read_value blanks]. by rewrite Hw. Qed.
Lemma value_dict f ws t close rest l rest' : forallb spacec ws = true → read_dict refs f (Chars t :: Tag close :: rest) = Some (l, rest') →
  read_value refs (S f) (Chars ws :: Tag (to_l "dict") :: Chars t :: Tag close :: rest) = Some (PDict l, rest').
Proof. intros Hw Hd. cbn [read_value blanks]. rewrite Hw. cbn -[read_value read_dict read_array]. by rewrite Hd. Qed.
Lemma value_array f ws t close rest l rest' : forallb spacec ws = true → read_array refs f (Chars t :: Tag close :: rest) = Some (l, rest') →
  read_value refs (S f) (Chars ws :: Tag (to_l "array") :: Chars t :: Tag close :: rest) = Some (PArray l, rest').
Proof. intros Hw Hd. cbn [read_value blanks]. rewrite Hw. cbn -[read_value read_dict read_array]. by rewrite Hd. Qed.
Lemma dict_entry f ws k v l rest rest' rest'' : forallb spacec ws = true → read_value refs f rest = Some (v, rest') →
  read_dict refs f rest' = Some (l, rest'') →
  read_dict refs (S f) (Chars ws :: Tag (to_l "key") :: Chars k :: Tag (to_l ("/" ++ "key")) :: rest) = Some ((of_l k, v) :: l, rest'').
Proof. intros Hw Hv Hd. cbn [read_dict blanks]. rewrite Hw. cbn -[read_value read_dict read_array]. rewrite Hv. cbn -[read_value read_dict read_array]. by rewrite Hd. Qed.
Lemma dict_end f ws rest : forallb spacec ws = true →
  read_dict refs (S f) (Chars ws :: Tag (to_l "/dict") :: rest) = Some ([], rest).
Proof. intros Hw. cbn [read_dict blanks]. by rewrite Hw. Qed.
Lemma array_item f ws tag rest v rest' l rest'' : forallb spacec ws = true → tag_is tag "/array" = false →
  read_value refs f (Tag tag :: rest) = Some (v, rest') → read_array refs f rest' = Some (l, rest'') →
  read_array refs (S f) (Chars ws :: Tag tag :: rest) = Some (v :: l, rest'').
Proof. intros Hw Ht Hv Hd. cbn [read_array blanks]. rewrite Hw. cbn [blanks]. rewrite Ht, Hv. cbn -[read_value read_dict read_array]. by rewrite Hd. Qed.
Lemma array_end f ws rest : forallb spacec ws = true →
  read_array refs (S f) (Chars ws :: Tag (to_l "/array") :: rest) = Some ([], rest).
Proof. intros Hw. cbn [read_array blanks]. by rewrite Hw. Qed.
(** In an array the blanks are already passed. *)
Lemma item_string f t t' rest : refs t = Some t' →
  read_value refs (S f) (Tag (to_l "string") :: Chars t :: Tag (to_l ("/" ++ "string")) :: rest) = Some (PString (of_l t'), rest).
Proof. intros Ht. cbn -[read_value read_dict read_array]. cbn [read_value blanks]. cbn -[read_value read_dict read_array]. by rewrite Ht. Qed.
Lemma read_document c1 t1 c2 t2 c3 t3 ts v e1 e2 :
  forallb spacec c1 = true → forallb spacec c2 = true → forallb spacec c3 = true → head t1 = Some "?"%char → head t2 = Some "!"%char →
  head t3 = Some "p"%char → HasPrefix (of_l t3) "plist " = true →
  read_value refs (6 + List.length ts) ts = Some (v, [Chars e1; Tag (to_l "/plist"); Chars e2]) →
  forallb spacec e1 = true → forallb spacec e2 = true →
  read_tokens refs (Chars c1 :: Tag t1 :: Chars c2 :: Tag t2 :: Chars c3 :: Tag t3 :: ts) = Some v.
Proof.
  intros H1 H2 H3 E1 E2 E3 Hp Hv He1 He2. destruct t1 as [|x1 t1]; [done|]. destruct t2 as [|x2 t2]; [done|]. destruct t3 as [|x3 t3]; [done|].
  simpl in E1, E2, E3. injection E1 as ->. injection E2 as ->. injection E3 as ->. unfold read_tokens. cbn [prolog].
  rewrite H1, H2, H3. rewrite Hp. change (List.length _) with (6 + List.length ts)%nat. rewrite Hv.
  cbn -[forallb]. rewrite He1. cbn -[forallb]. by rewrite He2.
Qed.
End Reads.

Ltac read_step :=
  first
    [ eapply dict_entry; [reflexivity| |]
    | eapply value_string; [reflexivity|eassumption]
    | eapply value_integer; reflexivity
    | eapply value_data; reflexivity
    | eapply value_false; reflexivity
    | eapply value_dict; [reflexivity|]
    | eapply value_array; [reflexivity|]
    | eapply dict_end; reflexivity
    | eapply array_end; reflexivity
    | eapply array_item; [reflexivity|reflexivity|eapply item_string; eassumption|] ].

(** Reading the tokens, for any texts between them. *)
Lemma layout_reads (refs : list ascii → option (list ascii)) (l_chan l_air l_ssid l_pw l_on l_dev l_svc l_ifc l_msk l_en l_st : list ascii)
    (ssid dev svc ifc msk en st : list ascii) :
  refs l_ssid = Some ssid → refs l_dev = Some dev → refs l_svc = Some svc → refs l_ifc = Some ifc →
  refs l_msk = Some msk → refs l_en = Some en → refs l_st = Some st → refs (to_l "") = Some [] →
  read_tokens refs (line_tokens [] (prefs_layout (of_l l_chan) (of_l l_air) (of_l l_ssid) (of_l l_pw) (of_l l_on) (of_l l_dev) (of_l l_svc)
    (of_l l_ifc) (of_l l_msk) (of_l l_en) (of_l l_st))) =
  Some (PDict [("NAT", PDict
    [("AirPort", PDict
       [("40BitEncrypt", PInteger "0"); ("Channel", PInteger (of_l l_chan)); ("Enabled", PInteger (of_l l_air));
        ("NetworkName", PString (of_l ssid)); ("NetworkPassword", PData (of_l l_pw))]);
     ("Enabled", PInteger (of_l l_on)); ("NatPortMapDisabled", PFalse);
     ("PrimaryInterface", PDict
       [("Device", PString (of_l dev)); ("Enabled", PInteger "0"); ("HardwareKey", PString (of_l []));
        ("PrimaryUserReadable", PString (of_l dev))]);
     ("PrimaryService", PString (of_l svc)); ("SharingDevices", PArray [PString (of_l ifc)]);
     ("SharingNetworkMask", PString (of_l msk)); ("SharingNetworkNumberEnd", PString (of_l en));
     ("SharingNetworkNumberStart", PString (of_l st))])])%string.
Proof.
  intros Hssid Hdev Hsvc Hifc Hmsk Hen Hst Hno. unfold prefs_layout. cbn [line_tokens]. rewrite !to_of_l.
  eapply read_document; [reflexivity..| | |].
  - cbn [List.length Nat.add app replicate]. repeat read_step.
  - reflexivity.
  - reflexivity.
Qed.

(** *** The file reads back *)

Definition numeric (l : list ascii) : Prop := Forall (λ c, is_digit c = true ∨ c = "-"%char ∨ c = "."%char) l.

Ltac numeric_literal :=
  repeat (apply Forall_cons; split; [first [left; reflexivity | right; right; reflexivity]|]); apply Forall_nil; exact Logic.I.

Lemma numeric_app a b : numeric a → numeric b → numeric (a ++ b).
Proof. intros. by apply Forall_app. Qed.
Lemma numeric_Itoa z : numeric (to_l (Itoa z)).
Proof. eapply Forall_impl; [apply Itoa_safe|]. naive_solver. Qed.
Lemma numeric_dot : numeric (to_l ".").
Proof. numeric_literal. Qed.
Lemma numeric_untagged l : numeric l → untagged l.
Proof. intros Hl. eapply Forall_impl; [exact Hl|]. intros c [Hc|[->| ->]]; [|done..]. by intros ->. Qed.
Lemma numeric_unescape l : numeric l → unescape l = Some l.
Proof. intros Hl. apply unescape_none. eapply Forall_impl; [exact Hl|]. intros c [Hc|[->| ->]]; [|done..]. by intros ->. Qed.

Lemma numeric_dotted n : numeric (to_l (dotted n)).
Proof. unfold dotted. rewrite !to_l_app. repeat apply numeric_app; first [apply numeric_Itoa|apply numeric_dot]. Qed.
Lemma numeric_mask p : numeric (to_l (prefixMask p)).
Proof.
  unfold prefixMask. destruct (_ || _); [numeric_literal|]. rewrite !to_l_app.
  repeat apply numeric_app; first [apply numeric_Itoa|apply numeric_dot].
Qed.

Definition subnet4 (p : Prefix) : Prop := prefix_valid p = true ∧ Is4 (p_addr p) = true.

Lemma subnet4_texts p : subnet4 p → numeric (to_l (addr_String (subnetEnd p))) ∧ numeric (to_l (addr_String (p_addr (Masked p)))).
Proof.
  intros [Hv H4]. destruct p as [[|n|n z] bits]; [discriminate| |discriminate].
  assert (∃ m, Masked (MkPrefix (A4 n) bits) = MkPrefix (A4 m) bits) as [m Hm] by (unfold Masked; rewrite Hv; by eexists).
  assert (∃ e, subnetEnd (MkPrefix (A4 n) bits) = A4 e) as [e ->] by (unfold subnetEnd; rewrite Hm; cbn [p_addr]; case_match; by eexists).
  rewrite Hm. split; apply numeric_dotted.
Qed.

Record plan_ok (plan : HotspotPlan) (service : string) : Prop := {
  ok_ssid : ValidString (ap_SSID (AP plan)) = true;
  ok_uplink : ValidString (ap_Uplink (AP plan)) = true;
  ok_iface : ValidString (ap_Interface (AP plan)) = true;
  ok_service : ValidString service = true;
  ok_subnet : subnet4 (d_Subnet (DNS plan))
}.

Lemma prefs_reads plan service air on : plan_ok plan service →
  read_plist (prefs_text plan service air on) = Some (written_tree plan service air on).
Proof.
  intros [Hs Hu Hi Hv Hn]. destruct (subnet4_texts _ Hn) as [He Hst]. unfold read_plist. rewrite prefs_layout_text, lex_lines.
  - rewrite <- (of_to_l (Itoa (ap_Channel (AP plan)))), <- (of_to_l (Itoa air)), <- (of_to_l (Itoa on)), <- (of_to_l (xmlEscape _)),
      <- (of_to_l (utf16LEBase64 _)), <- (of_to_l (xmlEscape (ap_Uplink _))), <- (of_to_l (xmlEscape service)),
      <- (of_to_l (xmlEscape (ap_Interface _))), <- (of_to_l (prefixMask _)), <- (of_to_l (addr_String (subnetEnd _))),
      <- (of_to_l (addr_String (p_addr _))).
    erewrite layout_reads; [|by apply unescape_escape|by apply unescape_escape|by apply unescape_escape|by apply unescape_escape
      |apply numeric_unescape, numeric_mask|by apply numeric_unescape|by apply numeric_unescape|done].
    unfold written_tree. by rewrite !of_to_l.
  - unfold prefs_layout. repeat (apply Forall_cons; split); try apply Forall_nil; try done; try (split; [done|]);
      first [apply untagged_Itoa|apply untagged_escape|apply untagged_password|apply numeric_untagged, numeric_mask|by apply numeric_untagged|repeat (constructor; [done|]); constructor].
Qed.

(** *** Switching off in place *)

Lemma disable_plain d t z : untagged t → disable_go 0 d (t ++ z) = t ++ disable_go 0 d z.
Proof.
  induction 1 as [|c t Hc Ht IH]; [done|]. cbn [app disable_go]. assert (match_here natDictTokens None (c :: t ++ z) = None) as ->.
  { unfold match_here, natDictTokens. cbn [rmatch chars to_l]. assert (Ascii.eqb "<" c = false) as Hn by (apply Ascii.eqb_neq; congruence).
    cbn [rmatch]. rewrite Hn. change (to_l "<key>Enabled</key>") with ("<"%char :: to_l "key>Enabled</key>"). cbn [chars rmatch]. by rewrite Hn. }
  by rewrite IH.
Qed.

Lemma disable_skip t : ∀ d z, disable_go (List.length t) d (t ++ z) = t ++ disable_go 0 d z.
Proof. induction t as [|c t IH]; intros d z; [done|]. cbn [List.length app disable_go]. by rewrite IH. Qed.

(** The loop at a token. *)
Lemma disable_at c t d z : match_here natDictTokens None ((c :: t) ++ z) = Some ([], z) →
  disable_go 0 d ((c :: t) ++ z) =
  (if (of_l (c :: t) =? "<dict>")%string then (c :: t) ++ disable_go 0 (d + 1) z
   else if (of_l (c :: t) =? "</dict>")%string then if d - 1 =? 0 then (c :: t) ++ z else (c :: t) ++ disable_go 0 (d - 1) z
   else if d =? 1 then
     match match_here natEnabledValue None z with
     | Some (_, rest') =>
         (c :: t) ++ replace_first (to_l "<integer>1</integer>") (to_l "<integer>0</integer>")
                       (take (List.length z - List.length rest') z) ++ rest'
     | None => (c :: t) ++ z
     end
   else (c :: t) ++ disable_go 0 d z).
Proof.
  intros Hm. cbn [app disable_go]. cbn [app] in Hm. rewrite Hm.
  replace (List.length (c :: t ++ z) - List.length z)%nat with (S (List.length t)) by (cbn [List.length]; rewrite length_app; lia).
  change (c :: t ++ z) with ((c :: t) ++ z). rewrite (take_app_length' (c :: t) z (S (List.length t)) eq_refl). cbn [Nat.sub]. rewrite Nat.sub_0_r, !disable_skip.
  repeat case_match; done.
Qed.

Lemma disable_open d z : disable_go 0 d (to_l "<dict>" ++ z) = to_l "<dict>" ++ disable_go 0 (d + 1) z.
Proof. exact (disable_at "<" (to_l "dict>") d z eq_refl). Qed.
Lemma disable_close d z : d ≠ 1 → disable_go 0 d (to_l "</dict>" ++ z) = to_l "</dict>" ++ disable_go 0 (d - 1) z.
Proof.
  intros Hd. etransitivity; [exact (disable_at "<" (to_l "/dict>") d z eq_refl)|].
  cbn [of_l String.string_of_list_ascii to_l String.list_ascii_of_string String.eqb Ascii.eqb Bool.eqb]. 
  by rewrite (proj2 (Z.eqb_neq (d - 1) 0)) by lia.
Qed.
Lemma disable_deep d z : d ≠ 1 → disable_go 0 d (to_l "<key>Enabled</key>" ++ z) = to_l "<key>Enabled</key>" ++ disable_go 0 d z.
Proof.
  intros Hd. etransitivity; [exact (disable_at "<" (to_l "key>Enabled</key>") d z eq_refl)|].
  cbn [of_l String.string_of_list_ascii to_l String.list_ascii_of_string String.eqb Ascii.eqb Bool.eqb]. 
  by rewrite (proj2 (Z.eqb_neq d 1)) by lia.
Qed.

Definition enabled_at (on : string) : list ascii := newline_byte :: to_l (element 2 "integer" on).
Lemma disable_here z : disable_go 0 1 (to_l "<key>Enabled</key>" ++ enabled_at "1" ++ z) = to_l "<key>Enabled</key>" ++ enabled_at "0" ++ z.
Proof.
  etransitivity; [exact (disable_at "<" (to_l "key>Enabled</key>") 1 (enabled_at "1" ++ z) eq_refl)|].
  change (match_here natEnabledValue None (enabled_at "1" ++ z)) with (Some (@nil (list ascii), z)).
  rewrite length_app, Nat.add_sub, take_app_length. reflexivity.
Qed.

(** One line passed over, and the depth after it. *)
Definition passes (d : Z) (l : string) (d' : Z) : Prop :=
  ∀ z, disable_go 0 d (to_l l ++ newline_byte :: z) = to_l l ++ newline_byte :: disable_go 0 d' z.

Lemma passes_tabs n d t d' z : disable_go 0 d (t ++ newline_byte :: z) = t ++ disable_go 0 d' (newline_byte :: z) →
  disable_go 0 d ((replicate n tab ++ t) ++ newline_byte :: z) = (replicate n tab ++ t) ++ newline_byte :: disable_go 0 d' z.
Proof.
  intros Ht. rewrite <- (assoc (++)), disable_plain by apply untagged_tabs. rewrite Ht, <- (assoc (++)). reflexivity.
Qed.

Lemma to_l_tabs n s : to_l (tabs n s) = replicate n tab ++ to_l s.
Proof. unfold tabs. by rewrite to_l_app, to_of_l. Qed.

Lemma passes_open n d : passes d (mark n "dict") (d + 1).
Proof. intros z. unfold mark. rewrite to_l_tabs. apply passes_tabs. exact (disable_open d (newline_byte :: z)). Qed.
Lemma passes_close n d : d ≠ 1 → passes d (mark n "/dict") (d - 1).
Proof. intros Hd z. unfold mark. rewrite to_l_tabs. apply passes_tabs. exact (disable_close d (newline_byte :: z) Hd). Qed.
Lemma passes_deep n d : d ≠ 1 → passes d (element n "key" "Enabled") d.
Proof. intros Hd z. unfold element. rewrite to_l_tabs. apply passes_tabs. exact (disable_deep d (newline_byte :: z) Hd). Qed.

Lemma passes_text n d tag text : untagged (to_l text) → tag ∈ ["integer"; "string"; "data"]%string → passes d (element n tag text) d.
Proof.
  intros Ht Htag z. unfold element. rewrite to_l_tabs. apply passes_tabs. rewrite !to_l_app.
  change (to_l "</") with (to_l "<" ++ to_l "/"). rewrite <- !(assoc (++)).
  assert (∀ z, disable_go 0 d (to_l "<" ++ to_l tag ++ to_l ">" ++ z) = to_l "<" ++ to_l tag ++ to_l ">" ++ disable_go 0 d z) as H1
    by (intros z'; repeat (apply elem_of_cons in Htag as [->|Htag]; [reflexivity|]); by apply elem_of_nil in Htag).
  assert (∀ z, disable_go 0 d (to_l "<" ++ to_l "/" ++ to_l tag ++ to_l ">" ++ z) =
    to_l "<" ++ to_l "/" ++ to_l tag ++ to_l ">" ++ disable_go 0 d z) as H2
    by (intros z'; repeat (apply elem_of_cons in Htag as [->|Htag]; [reflexivity|]); by apply elem_of_nil in Htag).
  by rewrite H1, disable_plain, H2.
Qed.

Lemma disable_value z :
  disable_go 0 1 (to_l (element 2 "key" "Enabled") ++ newline_byte :: to_l (element 2 "integer" (Itoa 1)) ++ newline_byte :: z) =
  to_l (element 2 "key" "Enabled") ++ newline_byte :: to_l (element 2 "integer" (Itoa 0)) ++ newline_byte :: z.
Proof.
  exact (eq_trans (disable_plain 1 [tab; tab] _ ltac:(by repeat constructor)) (f_equal (app [tab; tab]) (disable_here (newline_byte :: z)))).
Qed.

Lemma text_of_app a b : to_l (text_of (a ++ b)) = to_l (text_of a) ++ to_l (text_of b).
Proof. induction a as [|l ls IH]; [done|]. cbn [app]. rewrite !text_of_line, IH. by rewrite <- (assoc (++)). Qed.

Lemma passes_lines ls d d' (z : list string) : 
  (fix go ls d := match ls with [] => d = d' | l :: ls => ∃ d1, passes d l d1 ∧ go ls d1 end) ls d →
  disable_go 0 d (to_l (text_of (ls ++ z))) = to_l (text_of ls) ++ disable_go 0 d' (to_l (text_of z)).
Proof.
  revert d. induction ls as [|l ls IH]; intros d; [by intros ->|]. intros (d1 & Hl & Hr). cbn [app]. rewrite !text_of_line, Hl, (IH _ Hr).
  by rewrite <- (assoc (++)).
Qed.

Lemma disable_prefs plan service : disableInNATPrefs (prefs_text plan service 1 1) = prefs_text plan service 1 0.
Proof.
  set (ap := AP plan).
  set (before := [mark 1 "dict"; element 2 "key" "AirPort"; mark 2 "dict"; element 3 "key" "40BitEncrypt"; element 3 "integer" "0";
    element 3 "key" "Channel"; element 3 "integer" (Itoa (ap_Channel ap)); element 3 "key" "Enabled"; element 3 "integer" (Itoa 1);
    element 3 "key" "NetworkName"; element 3 "string" (xmlEscape (ap_SSID ap));
    element 3 "key" "NetworkPassword"; element 3 "data" (utf16LEBase64 (Passphrase ap)); mark 2 "/dict"]).
  set (head := prefs_head ++ [mark 0 "dict"]).
  set (after := drop 18 (prefs_lines plan service 1 1)).
  assert (∀ on, prefs_text plan service 1 on =
    text_of (head ++ element 1 "key" "NAT" :: before ++ element 2 "key" "Enabled" :: element 2 "integer" (Itoa on) :: after)) as Ht by reflexivity.
  rewrite !Ht. clearbody after. unfold disableInNATPrefs.
  assert (∀ r, to_l (text_of (head ++ element 1 "key" "NAT" :: r)) =
    to_l (text_of head) ++ [tab] ++ to_l "<key>NAT</key>" ++ newline_byte :: to_l (text_of r)) as Hh.
  { intros r. unfold head, prefs_head. cbn [app]. rewrite !text_of_line. reflexivity. }
  rewrite !Hh.
  assert (∀ r, after_first (to_l "<key>NAT</key>") (to_l (text_of head) ++ [tab] ++ to_l "<key>NAT</key>" ++ r) =
    Some (to_l (text_of head) ++ [tab] ++ to_l "<key>NAT</key>", r)) as Ha by (intros r; reflexivity).
  rewrite Ha. clear Ha. rewrite <- (of_to_l (text_of (head ++ _))). f_equal. rewrite Hh, <- !(assoc (++)). do 3 f_equal.
  change (newline_byte :: to_l (text_of (before ++ ?r))) with ([newline_byte] ++ to_l (text_of (before ++ r))).
  rewrite (disable_plain 0 [newline_byte]) by (by repeat constructor). cbn [app]. f_equal.
  rewrite (passes_lines before 0 1).
  - rewrite text_of_app. f_equal. rewrite !text_of_line. apply disable_value.
  - subst before. exists 1. split; [exact (passes_open 1 0)|]. exists 1. split; [intros z; reflexivity|]. exists 2. split; [exact (passes_open 2 1)|].
    do 3 (exists 2; split; [intros z; reflexivity|]). exists 2. split; [apply passes_text; [apply untagged_Itoa|by left]|].
    exists 2. split; [by apply passes_deep|]. exists 2. split; [apply passes_text; [apply untagged_Itoa|by left]|].
    exists 2. split; [intros z; reflexivity|]. exists 2. split; [apply passes_text; [apply untagged_escape|right; by left]|].
    exists 2. split; [intros z; reflexivity|]. exists 2. split; [apply passes_text; [apply untagged_password|right; right; by left]|].
    exists 1. split; [by apply (passes_close 2 2)|]. reflexivity.
Qed.

(** The password is its bytes in UTF-16, low byte first. *)
Lemma runes_ascii l : Forall (λ c, (nat_of_ascii c < 128)%nat) l → Link.runes l = (λ c, [c]) <$> l.
Proof.
  intros Hl. destruct (LinkFacts.runes_concat ((λ c, [c]) <$> l)) as [Hr _].
  { apply Forall_fmap. eapply Forall_impl; [exact Hl|]. intros c Hc. by apply LinkFacts.ascii_good. }
  rewrite <- Hr. f_equal. clear. induction l as [|c l IH]; [done|]. simpl. by f_equal.
Qed.

Lemma password_bytes s : Forall (λ c, (nat_of_ascii c < 128)%nat) (to_l s) →
  utf16_bytes s = wide s.
Proof.
  intros Hs. unfold utf16_bytes, wide. rewrite runes_ascii by done. induction Hs as [|c l Hc Hl IH]; [done|]. cbn [fmap list_fmap concat].
  rewrite fmap_app, concat_app. cbn [compose]. unfold rune_value. cbn [fmap list_fmap]. unfold utf16_units, compose. fold (code c).
  assert (0 ≤ code c < 128) as Hb by (unfold code; lia). rewrite (proj2 (Z.ltb_lt _ _)) by lia. cbn [fmap list_fmap concat app unit_bytes].
  unfold unit_bytes. rewrite Z.mod_small by lia. rewrite Z.shiftr_div_pow2, Z.div_small by lia. cbn [app]. do 2 f_equal.
  exact IH.
Qed.

(** What the code computes of the subnet, against its definition by size. *)
Lemma dotted_quad n : dotted n = quad n.
Proof. unfold dotted, quad. by rewrite !Z.shiftr_div_pow2 by lia. Qed.

Lemma mask_quad a b : 0 ≤ b ≤ 32 → prefixMask (MkPrefix a b) = quad (2 ^ 32 - size b).
Proof.
  intros Hb. assert (b ∈ seqZ 0 33) as Hin by (apply elem_of_seqZ; lia).
  assert (forallb (λ b, prefixMask (MkPrefix NoAddr b) =? quad (2 ^ 32 - size b))%string (seqZ 0 33) = true) as Hall
    by (vm_compute; reflexivity).
  rewrite forallb_forall in Hall. apply String.eqb_eq, (Hall b). by apply list_elem_of_In.
Qed.

Lemma last_bits n k : 0 ≤ k → Z.lor (n / 2 ^ k * 2 ^ k) (Z.ones k) = n / 2 ^ k * 2 ^ k + 2 ^ k - 1.
Proof.
  intros Hk. rewrite <- Z.shiftl_mul_pow2 by lia.
  assert (Z.land (Z.shiftl (n / 2 ^ k) k) (Z.ones k) = 0) as H0
    by (rewrite Z.land_ones, Z.shiftl_mul_pow2 by lia; apply Z.mod_mul; lia).
  rewrite <- Z.lxor_lor, <- Z.add_nocarry_lxor by done. rewrite Z.ones_equiv. lia.
Qed.

Lemma subnet_texts n b : 0 ≤ b ≤ 32 →
  addr_String (p_addr (Masked (MkPrefix (A4 n) b))) = quad (first_of n b) ∧
  addr_String (subnetEnd (MkPrefix (A4 n) b)) = quad (last_of n b).
Proof.
  intros Hb. assert (Masked (MkPrefix (A4 n) b) = MkPrefix (A4 (first_of n b)) b) as Hm.
  { unfold Masked, prefix_valid. cbn [p_addr Bits addr_valid BitLen]. rewrite !(proj2 (Z.leb_le _ _)) by lia. cbn [andb mask].
    unfold first_of, size. by rewrite Z.shiftl_mul_pow2, Z.shiftr_div_pow2 by lia. }
  split; [rewrite Hm; apply dotted_quad|]. unfold subnetEnd. rewrite Hm. cbn [p_addr Bits Is4 negb orb value].
  rewrite !(proj2 (Z.ltb_ge _ _)) by lia. cbn [orb addr_String]. rewrite dotted_quad. f_equal. unfold last_of, first_of, size.
  rewrite <- last_bits by lia. f_equal. rewrite Z.shiftr_div_pow2 by lia.
  assert (2 ^ 32 = 2 ^ b * 2 ^ (32 - b)) as E by (rewrite <- Z.pow_add_r by lia; f_equal; lia).
  rewrite Z.ones_equiv. assert (0 < 2 ^ b) by lia. assert (0 < 2 ^ (32 - b)) by lia.
  symmetry. apply (Z.div_unique _ _ _ (2 ^ b - 1)); nia.
Qed.

Lemma tree_meant plan n b service air on : d_Subnet (DNS plan) = MkPrefix (A4 n) b → 0 ≤ b ≤ 32 →
  Forall (λ c, (nat_of_ascii c < 128)%nat) (to_l (Passphrase (AP plan))) →
  written_tree plan service air on = prefs_tree plan n b service air on.
Proof.
  intros En Hb Hp. unfold written_tree, prefs_tree. cbv zeta. rewrite En. destruct (subnet_texts n b Hb) as [-> ->].
  rewrite mask_quad by done. unfold utf16LEBase64. by rewrite password_bytes.
Qed.

(** C31. The preferences say what was planned and nothing else. For a plan whose names
    (the network's, the two interfaces', the service's) are valid UTF-8, whatever
    characters they hold, whose password is ASCII and whose subnet is an IPv4 network
    of [b] bits around the address [n], a strict reader of property lists reads out of
    the rendered file the dictionary that was meant: the mask, the first and the last
    address are those of the network by arithmetic on its size, and the password is
    its characters as 16-bit units. The file this code rendered, switched off in place
    by this code, reads as the same dictionary with its own switch off and the
    radio's left as it was; nothing is said here of a file somebody else wrote. *)
Theorem prefs_read_back plan n b service : plan_ok plan service →
  Forall (λ c, (nat_of_ascii c < 128)%nat) (to_l (Passphrase (AP plan))) →
  d_Subnet (DNS plan) = MkPrefix (A4 n) b →
  (∀ enabled : bool, read_plist (renderNATPrefs plan service enabled) =
     Some (let on := if enabled then 1 else 0 in prefs_tree plan n b service on on)) ∧
  read_plist (disableInNATPrefs (renderNATPrefs plan service true)) = Some (prefs_tree plan n b service 1 0) ∧
  std_decode (std_encode (wide (Passphrase (AP plan)))) = Some (wide (Passphrase (AP plan))).
Proof.
  intros Hok Hp En. pose proof (ok_subnet _ _ Hok) as [Hv _]. rewrite En in Hv. unfold prefix_valid in Hv.
  cbn [p_addr Bits addr_valid BitLen andb] in Hv. assert (0 ≤ b ≤ 32) as Hb by lia. split_and!.
  - intros enabled. cbv zeta. rewrite <- tree_meant by done. exact (prefs_reads plan service _ _ Hok).
  - unfold renderNATPrefs. cbv zeta. rewrite disable_prefs, <- tree_meant by done. exact (prefs_reads plan service _ _ Hok).
  - rewrite <- password_bytes by done. apply std_round_trip, utf16_bytes_ok.
Qed.

(** ** What ifconfig printed *)

(** An answer that shows the bridge up and carrying the gateway, by its text: a flags
    group with UP in it, and a line whose first word is inet and whose second is the
    gateway's address, or any IPv4 address where there is no gateway to look for. *)
Definition flags_up (out : string) : Prop :=
  ∃ u hex fl v, to_l out = u ++ to_l "flags=" ++ hex ++ "<"%char :: fl ++ ">"%char :: v ∧
    hex ≠ [] ∧ Forall hexc hex ∧ Forall flagc fl ∧ "UP"%string ∈ Split (of_l fl) ",".
Definition shows_up (gw : Addr) (r : res string SResult) : Prop :=
  ∃ p, r = Ok p ∧ r_ExitCode p = 0 ∧ flags_up (r_Stdout p) ∧
    ∃ line t more a, line ∈ Split (r_Stdout p) newline_byte ∧ Fields line = "inet"%string :: t :: more ∧ ParseAddr t = Some a ∧
      if addr_valid gw then a = gw else Is4 a = true.

Lemma rmatch_chars {X} l r : ∀ caps pv s (k : list (list ascii) → option ascii → list ascii → option X) x,
  rmatch (chars l r) caps pv s k = Some x → ∃ pv' s', s = l ++ s' ∧ rmatch r caps pv' s' k = Some x.
Proof.
  induction l as [|c l IH]; intros caps pv s k x Hm; [by exists pv, s|]. cbn [chars rmatch] in Hm.
  destruct s as [|d s]; [done|]. destruct (Ascii.eqb c d) eqn:E; [|done]. apply Ascii.eqb_eq in E as <-.
  apply IH in Hm as (pv' & s' & -> & Hm). by exists pv', s'.
Qed.

Lemma den_star_run p pv s pv' s' : den (Star p) pv s pv' s' → ∃ u, s = u ++ s' ∧ Forall p u.
Proof.
  remember (Star p) as r eqn:Er. induction 1; try discriminate; simplify_eq; [by exists []|].
  destruct IHden as (u & -> & Hu); [done|]. exists (c :: u). split; [done|]. constructor; [by apply Is_true_eq_left|done].
Qed.

Lemma find_at r s : ∀ pv m, find r pv s = Some m → ∃ u t pv', s = u ++ t ∧ match_here r pv' t = Some m.
Proof.
  induction s as [|c s IH]; intros pv m Hf; cbn [find] in Hf.
  - destruct (match_here r pv []) eqn:E; simplify_eq. by exists [], [], pv.
  - destruct (match_here r pv (c :: s)) eqn:E; simplify_eq; [by exists [], (c :: s), pv|].
    apply IH in Hf as (u & t & pv' & -> & Hm). by exists (c :: u), t, pv'.
Qed.

Lemma flags_text out fl : flags_of out = Some fl →
  ∃ u hex v, to_l out = u ++ to_l "flags=" ++ hex ++ "<"%char :: to_l fl ++ ">"%char :: v ∧ hex ≠ [] ∧ Forall hexc hex ∧ Forall flagc (to_l fl).
Proof.
  unfold flags_of. destruct (find ifconfigFlags None (to_l out)) as [[[|open caps] rest]|] eqn:Ef; try discriminate. intros [= <-].
  apply find_at in Ef as (u & t & pv & -> & Hm). unfold match_here, ifconfigFlags in Hm. apply rmatch_chars in Hm as (pv1 & s1 & -> & Hm).
  cbn [rmatch] in Hm. destruct s1 as [|h s1]; [done|]. destruct (hexc h) eqn:Eh; [|done].
  apply star_sound in Hm as (pv2 & s2 & (hs & -> & Hhs)%den_star_run & Hm). destruct s2 as [|c s2]; [done|].
  destruct (Ascii.eqb "<" c) eqn:Ec; [|done]. apply Ascii.eqb_eq in Ec as <-.
  apply star_sound in Hm as (pv3 & s3 & (fl & -> & Hfl)%den_star_run & Hm). destruct s3 as [|c s3]; [done|].
  destruct (Ascii.eqb ">" c) eqn:Ec; [|done]. apply Ascii.eqb_eq in Ec as <-. injection Hm as <- <- <-.
  exists u, (h :: hs), s3. rewrite length_app. cbn [List.length].
  replace (List.length fl + S (List.length s3) - List.length s3 - 1)%nat with (List.length fl) by lia.
  rewrite take_app_length, to_of_l. split_and!; [done|done|by constructor; [apply Is_true_eq_left|]|done].
Qed.

Lemma bridge_loop_in gw addrs : ∀ first, match bridge_loop gw first addrs with
  | (_, Some a) => a = gw ∧ addr_valid gw = true ∧ a ∈ addrs
  | (f, None) => f = first ∨ Is4 f = true ∧ f ∈ addrs
  end.
Proof.
  induction addrs as [|a addrs IH]; intros first; [by left|]. cbn [bridge_loop].
  destruct (addr_valid gw && bool_decide (a = gw)) eqn:E.
  { apply andb_true_iff in E as [? ?%bool_decide_eq_true]. split_and!; [done|done|left]. }
  specialize (IH (if Is4 a && negb (addr_valid first) then a else first)). destruct (bridge_loop _ _ addrs) as [f [b|]].
  - destruct IH as (? & ? & ?). split_and!; [done|done|by right].
  - destruct IH as [->|[? ?]]; [|right; split; [done|by right]].
    destruct (Is4 a) eqn:E4; cbn [andb]; [|by left]. destruct (addr_valid first); cbn [negb]; [by left|]. right. split; [done|left].
Qed.

Lemma bridge_shows_up gw r : (bridge_state gw r).1 = true → shows_up gw r.
Proof.
  destruct r as [p|e]; [|discriminate]. unfold bridge_state. destruct (r_ExitCode p =? 0) eqn:Ex; [|discriminate]. cbn [negb].
  destruct (ParseIfconfigBrief (r_Stdout p)) as [up addrs] eqn:Ep. unfold ParseIfconfigBrief in Ep. injection Ep as Eu Ea.
  intros Hs. exists p. split; [done|]. split; [lia|].
  assert (up = true ∧ ∃ a, a ∈ addrs ∧ if addr_valid gw then a = gw else Is4 a = true) as (-> & a & Hin & Ha).
  { pose proof (bridge_loop_in gw addrs NoAddr) as Hb. destruct (bridge_loop gw NoAddr addrs) as [f [b|]]; cbn [fst] in Hs.
    - split; [done|]. exists b. destruct Hb as (-> & Hg & ?). split; [done|]. by rewrite Hg.
    - destruct (addr_valid gw); [discriminate|]. cbn [negb fst] in Hs. apply andb_true_iff in Hs as [-> Hf]. split; [done|]. exists f.
      destruct Hb as [->|[? ?]]; [discriminate|done]. }
  split.
  - destruct (flags_of (r_Stdout p)) as [fl|] eqn:Ef; [|discriminate]. destruct (flags_text _ _ Ef) as (u & hex & v & Et & ? & ? & ?).
    apply existsb_exists in Eu as (w & Hw & ->%String.eqb_eq). exists u, hex, (to_l fl), v. rewrite of_to_l.
    split_and!; [done..|]. by apply list_elem_of_In.
  - subst addrs. apply list_elem_of_omap in Hin as (line & Hl & Hi). unfold inet_line in Hi.
    destruct (Fields line) as [|f0 [|t more]] eqn:El; try discriminate. destruct (f0 =? "inet")%string eqn:E0; [|discriminate].
    apply String.eqb_eq in E0 as ->. by exists line, t, more, a.
Qed.

(** ** The lease file and the services *)

Definition opens (raw : string) : bool := (TrimSpace raw =? "{")%string.
Definition open_record (st : dhcpd) : Z := match dh_cur st with Some _ => 1 | None => 0 end.

Lemma flush_counts st : Z.of_nat (List.length (dh_leases (dhcpd_flush st))) + dh_malformed (dhcpd_flush st) =
  Z.of_nat (List.length (dh_leases st)) + dh_malformed st + open_record st ∧ dh_cur (dhcpd_flush st) = None.
Proof.
  unfold dhcpd_flush, open_record. destruct (dh_cur st) as [cur|] eqn:E; [|split; [lia|done]].
  destruct (ParseAddr _); simpl; (split; [|done]); [rewrite length_app; simpl; lia|lia].
Qed.

Lemma line_counts st raw : let st' := dhcpd_line st raw in
  Z.of_nat (List.length (dh_leases st')) + dh_malformed st' + open_record st' =
  Z.of_nat (List.length (dh_leases st)) + dh_malformed st + open_record st + (if opens raw then 1 else 0).
Proof.
  cbv zeta. unfold dhcpd_line, opens. destruct (flush_counts st) as [Hf Hn].
  destruct (TrimSpace raw =? "{")%string; [change (open_record (MkDhcpd _ _ _)) with 1; cbn [dh_leases dh_malformed]; lia|].
  destruct (TrimSpace raw =? "}")%string; [assert (open_record (dhcpd_flush st) = 0) as -> by (unfold open_record; by rewrite Hn); lia|].
  unfold open_record. destruct (dh_cur st) as [cur|] eqn:E; [|rewrite E; lia]. destruct (Cut _ _) as [[k v]|]; simpl; rewrite ?E; lia.
Qed.

(** Every record of the lease file is counted once: as a lease or as malformed. *)
Theorem lease_records_counted data : let '(leases, malformed) := ParseDHCPDLeases data in
  Z.of_nat (List.length leases) + malformed = Z.of_nat (List.length (List.filter opens (Split data newline_byte))).
Proof.
  unfold ParseDHCPDLeases. assert (∀ ls st, let st' := foldl dhcpd_line st ls in
    Z.of_nat (List.length (dh_leases st')) + dh_malformed st' + open_record st' =
    Z.of_nat (List.length (dh_leases st)) + dh_malformed st + open_record st + Z.of_nat (List.length (List.filter opens ls))) as Hl.
  { induction ls as [|l ls IH]; intros st; cbv zeta; [simpl; lia|]. cbn [foldl List.filter]. specialize (IH (dhcpd_line st l)). cbv zeta in IH.
    rewrite IH. pose proof (line_counts st l) as Hc. cbv zeta in Hc. rewrite Hc. destruct (opens l); cbn [List.length]; lia. }
  specialize (Hl (Split data newline_byte) (MkDhcpd None [] 0)). cbv zeta in Hl. change (open_record (MkDhcpd None [] 0)) with 0 in Hl.
  cbn [dh_leases dh_malformed List.length Z.of_nat] in Hl.
  destruct (flush_counts (foldl dhcpd_line (MkDhcpd None [] 0) (Split data newline_byte))) as [Hf _]. lia.
Qed.

Lemma least_in best ids : least best ids = best ∨ least best ids ∈ ids.
Proof.
  revert best. induction ids as [|i ids IH]; intros best; [by left|]. cbn [least foldl]. destruct (IH (if String.ltb i best then i else best)) as [E|E].
  - unfold least in E. rewrite E. destruct (String.ltb i best); [right; left|by left].
  - right. by right.
Qed.

Lemma ltb_key a b : String.ltb a b = Link.key_lt (to_l a) (to_l b).
Proof. unfold Link.key_lt. by rewrite !of_to_l. Qed.
Lemma str_irrefl a : String.ltb a a = false.
Proof. rewrite ltb_key. apply LinkDoc.key_lt_irrefl. Qed.
Lemma str_asym a b : String.ltb a b = true → String.ltb b a = false.
Proof.
  rewrite !ltb_key. intros H1. destruct (Link.key_lt (to_l b) (to_l a)) eqn:E; [|done].
  pose proof (LinkDoc.key_lt_trans _ _ _ H1 E) as H2. by rewrite LinkDoc.key_lt_irrefl in H2.
Qed.
Lemma str_total a b c : String.ltb a b = false → String.ltb b c = false → String.ltb a c = false.
Proof.
  intros H1 H2. destruct (decide (a = b)) as [->|Hn]; [done|]. rewrite ltb_key in H1.
  apply LinkDoc.key_lt_total in H1; [|by intros ?%(f_equal of_l); rewrite !of_to_l in *].
  destruct (String.ltb a c) eqn:E; [|done]. rewrite ltb_key in E, H2. by rewrite (LinkDoc.key_lt_trans _ _ _ H1 E) in H2.
Qed.

Lemma least_le best ids x : x ∈ best :: ids → String.ltb x (least best ids) = false.
Proof.
  revert best x. induction ids as [|i ids IH]; intros best x Hx; [apply list_elem_of_singleton in Hx as ->; apply str_irrefl|].
  cbn [least foldl]. fold (least (if String.ltb i best then i else best) ids).
  pose proof (IH (if String.ltb i best then i else best) (if String.ltb i best then i else best) (list_elem_of_here _ _)) as Hbest.
  apply elem_of_cons in Hx as [->|Hx]; [|apply elem_of_cons in Hx as [->|Hx]].
  - destruct (String.ltb i best) eqn:E; [|done]. eapply str_total; [|exact Hbest].
    by apply str_asym.
  - destruct (String.ltb i best) eqn:E; [done|]. by eapply str_total.
  - by apply IH; right.
Qed.

(** Which service is used does not depend on the order of the map: it is the first
    in the order of their names of those whose device is the uplink. *)
Lemma service_least range prefsJSON iface id : (∀ m : gmap string string, range m ≡ₚ map_to_list m) →
  ServiceForInterface range prefsJSON iface = Ok id →
  ∃ services, (j ← Unmarshal (to_l prefsJSON); dec prefs_codec j ∅) = Some services ∧
    services !! id = Some iface ∧ ∀ id', services !! id' = Some iface → String.ltb id' id = false.
Proof.
  intros Hr. unfold ServiceForInterface. destruct (Unmarshal (to_l prefsJSON) ≫= _) as [services|]; [|discriminate].
  destruct (fst <$> List.filter _ (range services)) as [|first rest] eqn:E; [discriminate|]. intros [= <-].
  assert (∀ x, x ∈ first :: rest ↔ services !! x = Some iface) as Hin.
  { intros x. rewrite <- E, list_elem_of_fmap. setoid_rewrite list_elem_of_In. setoid_rewrite filter_In.
    setoid_rewrite <- list_elem_of_In. setoid_rewrite Hr. split.
    - intros ([k v] & -> & Hm & Heq). simpl in Heq. apply String.eqb_eq in Heq as ->. by apply elem_of_map_to_list in Hm.
    - intros Hm. exists (x, iface). split_and!; [done|by apply elem_of_map_to_list|simpl; apply String.eqb_refl]. }
  exists services. split_and!; [done| |].
  - apply Hin. destruct (least_in first rest) as [->|Hl]; [left|by right].
  - intros id' Hid. by apply least_le, Hin.
Qed.

(** ** What an operation saw *)

Section Driven.
Context {K : Type} `{System K} `{SystemInput K} (paths : InternetSharingPaths).
Context (range : gmap string string → list (string * string)).

Abbreviation SK := (Sharing K).

(** What was asked grew by calls of a kind. *)
Definition grows (P : Asked → Prop) (s s' : SK) : Prop := ∃ new, asked s' = asked s ++ new ∧ Forall P new.
#[local] Instance grows_refl P : Reflexive (grows P).
Proof. intros s. exists []. by rewrite app_nil_r. Qed.
#[local] Instance grows_trans P : Transitive (grows P).
Proof. intros s1 s2 s3 (n1 & E1 & H1) (n2 & E2 & H2). exists (n1 ++ n2). rewrite E2, E1, (assoc (++)). split; [done|by apply Forall_app]. Qed.

(** And the driver's own memory stayed as it was. *)
Definition stays (P : Asked → Prop) (s s' : SK) : Prop := grows P s s' ∧ sh_plan s' = sh_plan s ∧ poweredOn s' = poweredOn s.
#[local] Instance stays_refl P : Reflexive (stays P).
Proof. by intros s. Qed.
#[local] Instance stays_trans P : Transitive (stays P).
Proof. intros s1 s2 s3 (G1 & E1 & F1) (G2 & E2 & F2). split_and!; [by etransitivity|congruence..]. Qed.

Lemma stays_ask P {E A} (f : K → A * K) note : (∀ a, P (note a)) → keeps (stays P) (ask (E := E) f note).
Proof. intros Hp s. unfold ask. destruct (f (sh_sys s)) as [a k]. split_and!; [|done..]. exists [note a]. split; [done|]. by constructor. Qed.
Lemma calm P {E A} (m : SE SK E A) : keeps (stays P) m → keeps (grows P) m.
Proof. intros Hm s. apply Hm. Qed.
Lemma keeps_ask P {E A} (f : K → A * K) note : (∀ a, P (note a)) → keeps (grows P) (ask (E := E) f note).
Proof. intros Hp. by apply calm, stays_ask. Qed.
Lemma keeps_otherwise P {A} reason (m : SE SK string A) : keeps (grows P) m → keeps (grows P) (otherwise reason m).
Proof. intros Hm s. specialize (Hm s). unfold otherwise. by destruct (m s). Qed.
Lemma keeps_collect P {E} (m : SE SK string unit) : keeps (grows P) m → keeps (grows P) (collect (E := E) m).
Proof. intros Hm s. specialize (Hm s). unfold collect. by destruct (m s). Qed.
Lemma keeps_powered P {E} dev : keeps (grows P) (set_powered (E := E) dev).
Proof. intros s. exists []. by rewrite app_nil_r. Qed.
Lemma keeps_plan P {E} plan : keeps (grows P) (set_plan (E := E) plan).
Proof. intros s. exists []. by rewrite app_nil_r. Qed.

(** *** The calls it makes, and no others *)

Definition airport (args : list string) : Prop :=
  ∃ dev, args = ["-getairportpower"; dev]%string ∨ args = ["-setairportpower"; dev; "on"]%string ∨ args = ["-setairportpower"; dev; "off"]%string.

Definition permitted (a : Asked) : Prop :=
  match a with
  | ARun name args _ =>
      name = Networksetup paths ∧ airport args ∨
      name = Plutil paths ∧ args ∈ [["-convert"; "json"; "-o"; "-"; NetworkPrefs paths]; ["-convert"; "xml1"; "-o"; "-"; NATPrefs paths]]%string ∨
      name = Ifconfig paths ∧ args = [Bridge paths] ∨
      name = Launchctl paths ∧ args = ["kickstart"; "-k"; networkSharingJob]%string
  | AInput stdin name args _ => stdin = nudge_script ∧ name = Scutil paths ∧ args = ["--prefs"; natPrefsName]%string
  | ARead path _ => path = NATPrefs paths ∨ path = LeaseFile paths
  | AWrite path _ _ => path = NATPrefs paths
  | ASleep d _ => d = StartSettle
  end.
(** Everything but a write. *)
Definition looks (a : Asked) : Prop := match a with AWrite _ _ _ => False | _ => True end.

Section Kind.
Variable P : Asked → Prop.
Hypothesis Prun : ∀ name args r, permitted (ARun name args r) → P (ARun name args r).
Hypothesis Pinput : ∀ i name args r, permitted (AInput i name args r) → P (AInput i name args r).
Hypothesis Pread : ∀ path r, permitted (ARead path r) → P (ARead path r).
Hypothesis Psleep : ∀ d r, permitted (ASleep d r) → P (ASleep d r).

Ltac grow := repeat first [progress intros | apply stays_ask; intros | keeps_step].

Lemma stays_radio {E} dev : keeps (stays P) (radioPower paths (E := E) dev).
Proof. unfold radioPower, run. grow. apply Prun. left. split; [done|]. exists dev. auto. Qed.
Lemma grows_ensure dev : keeps (grows P) (ensureRadioOn paths dev).
Proof.
  unfold ensureRadioOn, run. apply keeps_bind; [apply _|apply calm, stays_radio|]. intros on.
  assert (∀ r, P (ARun (Networksetup paths) ["-setairportpower"%string; dev; "on"%string] r)) as Ha
    by (intros r; apply Prun; left; split; [done|]; exists dev; auto).
  destruct on as [[]|]; repeat first [progress intros | by apply keeps_ask | apply keeps_powered | keeps_step].
Qed.
Lemma stays_uplink up : keeps (stays P) (uplinkService paths range up).
Proof. unfold uplinkService, run. grow. apply Prun. right. left. split; [done|]. left. Qed.
Lemma stays_nudge : keeps (stays P) (nudge paths).
Proof. unfold nudge, run_input. grow. by apply Pinput. Qed.
Lemma stays_bridge {E} gw : keeps (stays P) (bridgeUp paths (E := E) gw).
Proof. unfold bridgeUp, run. grow. apply Prun. right. right. by left. Qed.
Lemma stays_loop n gw want : keeps (stays P) (await_loop paths n gw want).
Proof.
  induction n as [|n IH]; cbn [await_loop]; [grow|]. apply keeps_bind; [apply _|grow|]. intros s. destruct (CtxErr (sh_sys s)); [grow|].
  apply keeps_bind; [apply _|apply stays_bridge|]. intros up. destruct (Bool.eqb up.1 want); [grow|].
  apply keeps_bind; [apply _| |intros _; exact IH]. unfold pause. grow. by apply Psleep.
Qed.
Lemma stays_kick {E} : keeps (stays P) (kickstart paths (E := E)).
Proof. unfold kickstart, run. grow. apply Prun. do 3 right. done. Qed.
Lemma stays_twice gw want : keeps (stays P) (awaitTwice paths gw want).
Proof.
  unfold awaitTwice, awaitBridge. apply keeps_bind; [apply _|apply keeps_attempt, stays_loop|]. intros [[]|msg]; [grow|].
  apply keeps_bind; [apply _|apply stays_kick|]. intros [r|r]; [apply stays_loop|grow].
Qed.
Lemma stays_xml {E} : keeps (stays P) (readPrefsXML paths (E := E)).
Proof. unfold readPrefsXML, run. grow. apply Prun. right. left. split; [done|]. right. left. Qed.
Lemma stays_status {E} iface : keeps (stays P) (Status paths (E := E) iface).
Proof.
  unfold Status. apply keeps_bind; [apply _|grow|]. intros s. apply keeps_bind; [apply _|apply stays_bridge|]. intros [up addr].
  apply keeps_bind; [apply _|apply stays_radio|]. intros power. destruct up; [|grow]. unfold read_file. grow. apply Pread. by right.
Qed.
End Kind.

Ltac permit := let a := fresh in intros; first [assumption | match goal with H : permitted _ |- _ => exact H end].

Lemma grows_write path content : path = NATPrefs paths → keeps (grows permitted) (writeIfChanged path content).
Proof.
  intros Hp. unfold writeIfChanged, read_file, write_file. apply keeps_bind; [apply _|apply keeps_ask; intros a; by left|]. intros cur.
  destruct (match cur with Ok b => _ | Err _ => _ end); [apply keeps_ret; apply _|].
  apply keeps_bind; [apply _|by apply keeps_ask|]. intros [e|]; [apply keeps_raise; apply _|apply keeps_ret; apply _].
Qed.

Lemma grows_retire plan service : keeps (grows permitted) (retire_previous paths plan service).
Proof.
  unfold retire_previous. apply keeps_bind; [apply _|apply keeps_ask; intros a; by left|]. intros [current|e]; [|apply keeps_ret; apply _].
  destruct (current =? _)%string; [apply keeps_ret; apply _|]. apply keeps_bind; [apply _|apply calm, stays_bridge; permit|]. intros up.
  destruct (negb up.1); [apply keeps_ret; apply _|].
  apply keeps_bind; [apply _|by apply keeps_otherwise, grows_write|]. intros _. apply keeps_bind; [apply _|apply keeps_otherwise, calm, stays_nudge; permit|].
  intros _. apply keeps_otherwise, calm, stays_loop; permit.
Qed.

Lemma grows_start plan : keeps (grows permitted) (Start paths range plan).
Proof.
  unfold Start. cbv zeta. destruct (ap_Interface _ =? "")%string; [apply keeps_raise; apply _|].
  destruct (ap_Uplink _ =? "")%string; [apply keeps_raise; apply _|].
  apply keeps_bind; [apply _|apply keeps_otherwise, grows_ensure; permit|]. intros _.
  apply keeps_bind; [apply _|apply keeps_otherwise, calm, stays_uplink; permit|]. intros service.
  apply keeps_bind; [apply _|apply grows_retire|]. intros _. apply keeps_bind; [apply _|apply keeps_plan|]. intros _.
  apply keeps_bind; [apply _|by apply keeps_otherwise, grows_write|]. intros changed.
  apply keeps_bind; [apply _| |].
  { destruct changed; [apply keeps_ret; apply _|]. apply keeps_bind; [apply _|apply calm, stays_bridge; permit|]. intros up. apply keeps_ret; apply _. }
  intros already. destruct already; [apply calm, stays_status; permit|].
  apply keeps_bind; [apply _|apply keeps_otherwise, calm, stays_nudge; permit|]. intros _.
  apply keeps_bind; [apply _|apply keeps_otherwise, calm, stays_twice; permit|]. intros _. apply calm, stays_status; permit.
Qed.

Lemma grows_off_text {E} (P : Asked → Prop) plan : (∀ name args r, permitted (ARun name args r) → P (ARun name args r)) →
  keeps (grows P) (off_text paths range (E := E) plan).
Proof.
  intros HP s. assert (∀ f : option string → option string, keeps (grows P) (xml <-- readPrefsXML paths (E := E);; ret (f xml))) as Hx.
  { intros f. apply keeps_bind; [apply _|by apply calm, stays_xml|]. intros xml. apply keeps_ret; apply _. }
  unfold off_text. destruct plan as [plan|]; [|apply Hx]. pose proof (calm P _ (stays_uplink P HP (ap_Uplink (AP plan))) s) as Hu.
  destruct (uplinkService paths range (ap_Uplink (AP plan)) s) as [[service|e] s1]; [exact Hu|]. etransitivity; [exact Hu|apply Hx].
Qed.

Lemma grows_stop {E} : keeps (grows permitted) (Stop paths range (E := E)).
Proof.
  unfold Stop. apply keeps_bind; [apply _|apply keeps_get; apply _|]. intros s. cbv zeta. apply keeps_bind; [apply _|apply keeps_powered|]. intros _.
  apply keeps_bind; [apply _|apply grows_off_text; permit|]. intros rendered. apply keeps_bind; [apply _| |].
  { destruct rendered as [text|]; [|apply keeps_ret; apply _].
    apply keeps_bind; [apply _| |].
    { apply keeps_collect, keeps_bind; [apply _|by apply grows_write|]. intros _. apply keeps_ret; apply _. }
    intros e1. apply keeps_bind; [apply _|apply keeps_collect, calm, stays_nudge; permit|]. intros e2.
    apply keeps_bind; [apply _|apply keeps_collect, calm, stays_twice; permit|]. intros e3. apply keeps_ret; apply _. }
  intros e1. apply keeps_bind; [apply _| |intros e2; apply keeps_ret; apply _]. destruct (poweredOn s =? "")%string; [apply keeps_ret; apply _|].
  apply keeps_bind; [apply _| |intros r; apply keeps_ret; apply _]. apply keeps_ask. intros r. left. split; [done|]. exists (poweredOn s). auto.
Qed.

(** What the driver asks of the machine, whatever it answers: the radio's switch,
    three readings, the daemon's restart, the fixed script of scutil, and one file,
    which is the only thing that holds the name or the password. *)
Theorem sharing_calls_permitted plan iface s :
  grows permitted s (Start paths range plan s).2 ∧ grows permitted s (Stop paths range (E := string) s).2 ∧
  grows permitted s (Status paths (E := string) iface s).2.
Proof. split_and!; [apply grows_start|apply grows_stop|apply calm, stays_status; permit]. Qed.

(** *** What success means *)

Definition ifconfig (r : res string SResult) : Asked := ARun (Ifconfig paths) [Bridge paths] r.

(** What a file last was, as far as the calls tell. *)
Definition file_step (path : string) (st : option string) (a : Asked) : option string :=
  match a with
  | ARead p (Ok b) => if (p =? path)%string then Some b else st
  | AWrite p c e => if (p =? path)%string then match e with None => Some c | Some _ => None end else st
  | _ => st
  end.
Definition file_now (path : string) (l : list Asked) : option string := foldl (file_step path) None l.

Lemma bind_inv {S E A B} (m : SE S E A) (f : A → SE S E B) s b s' : bind m f s = (Ok b, s') → ∃ a s1, m s = (Ok a, s1) ∧ f a s1 = (Ok b, s').
Proof. unfold bind. destruct (m s) as [[a|e] s1]; [|discriminate]. intros Hf. by exists a, s1. Qed.
Lemma otherwise_inv {A} reason (m : SE SK string A) s a s' : otherwise reason m s = (Ok a, s') → m s = (Ok a, s').
Proof. unfold otherwise. destruct (m s) as [[x|e] s1]; [|discriminate]. by intros [= -> ->]. Qed.
Lemma attempt_inv {A} (m : SE SK string A) s r s' : attempt_ m s = (Ok r, s') → m s = (r, s').
Proof. unfold attempt_. destruct (m s) as [x s1]. by intros [= -> ->]. Qed.
Lemma ends {E A} P (m : SE SK E A) s r s' : keeps (stays P) m → m s = (r, s') → stays P s s'.
Proof. intros Hm E'. specialize (Hm s). by rewrite E' in Hm. Qed.

Lemma bridge_inv {E} gw s up s' : bridgeUp paths (E := E) gw s = (Ok up, s') →
  ∃ r, asked s' = asked s ++ [ifconfig r] ∧ up = bridge_state gw r ∧ sh_plan s' = sh_plan s ∧ poweredOn s' = poweredOn s.
Proof.
  unfold bridgeUp, run, ask, bind. destruct (SysRun _ _ _) as [r k]. cbn [ret]. intros Hb. injection Hb as <- <-. by exists r.
Qed.

(** A wait that ended well ended with the reading it waited for. *)
Definition saw (gw : Addr) (want : bool) (s s' : SK) : Prop :=
  ∃ n r, asked s' = asked s ++ n ++ [ifconfig r] ∧ Forall looks n ∧ (bridge_state gw r).1 = want ∧ sh_plan s' = sh_plan s ∧ poweredOn s' = poweredOn s.

Lemma saw_later gw want s s1 s' : stays looks s s1 → saw gw want s1 s' → saw gw want s s'.
Proof.
  intros ((n1 & E1 & L1) & Hp & Hq) (n & r & E2 & L2 & Hb & Hp' & Hq'). exists (n1 ++ n), r. rewrite E2, E1, <- !(assoc (++)).
  split_and!; [done|by apply Forall_app|done|congruence..].
Qed.

Lemma looks_any {E A} (m : SE SK E A) : (∀ P, (∀ name args r, permitted (ARun name args r) → P (ARun name args r)) →
  (∀ i name args r, permitted (AInput i name args r) → P (AInput i name args r)) → (∀ path r, permitted (ARead path r) → P (ARead path r)) →
  (∀ d r, permitted (ASleep d r) → P (ASleep d r)) → keeps (stays P) m) → keeps (stays looks) m.
Proof. intros Hm. by apply Hm. Qed.

Lemma loop_saw n gw want s s' : await_loop paths n gw want s = (Ok tt, s') → saw gw want s s'.
Proof.
  revert s. induction n as [|n IH]; intros s; cbn [await_loop]; [discriminate|]. intros (s0 & s1 & Hg & Hr)%bind_inv.
  injection Hg as <- <-. destruct (CtxErr (sh_sys s)); [discriminate|]. apply bind_inv in Hr as (up & s2 & Hb & Hr).
  pose proof (ends looks _ _ _ _ (stays_bridge looks ltac:(done) gw) Hb) as Hst. apply bridge_inv in Hb as (r & Ea & -> & Hp & Hq).
  destruct (Bool.eqb (bridge_state gw r).1 want) eqn:Ew.
  - injection Hr as <-. exists [], r. apply eqb_prop in Ew. by split_and!.
  - apply bind_inv in Hr as ([] & s3 & Hz & Hr). eapply saw_later; [exact Hst|]. eapply saw_later; [|by apply IH].
    eapply ends; [|exact Hz]. unfold pause. apply keeps_bind; [apply _|by apply stays_ask|]. intros [e|]; [apply keeps_raise|apply keeps_ret]; apply _.
Qed.

Lemma twice_saw gw want s s' : awaitTwice paths gw want s = (Ok tt, s') → saw gw want s s'.
Proof.
  unfold awaitTwice, awaitBridge. intros (r & s1 & H1%attempt_inv & Hr)%bind_inv. destruct r as [[]|msg].
  - injection Hr as <-. by eapply loop_saw.
  - apply bind_inv in Hr as (k & s2 & Hk & Hr). destruct k as [k|e]; [|discriminate].
    eapply saw_later; [by eapply ends; [apply (stays_loop looks)|]|]. eapply saw_later; [by eapply ends; [apply (stays_kick looks)|]|]. by eapply loop_saw.
Qed.

Lemma write_inv path content s b s' : writeIfChanged path content s = (Ok b, s') →
  ∃ n, asked s' = asked s ++ n ∧ file_now path n = Some content ∧ sh_plan s' = sh_plan s ∧ poweredOn s' = poweredOn s.
Proof.
  unfold writeIfChanged, read_file, write_file, ask, bind. destruct (ReadFile path (sh_sys s)) as [cur k]. cbn [sh_sys sh_plan poweredOn asked].
  destruct (match cur with Ok b => _ | Err _ => _ end) eqn:Ec.
  - intros [= <- <-]. exists [ARead path cur]. destruct cur as [c|]; [|discriminate]. apply String.eqb_eq in Ec as ->.
    split_and!; [done| |done..]. unfold file_now. simpl. by rewrite String.eqb_refl.
  - cbn [sh_sys sh_plan poweredOn asked]. destruct (WriteFile path content 420 k) as [[e|] k']; [intros Hx; discriminate Hx|]. intros Hx. injection Hx as <- <-.
    exists [ARead path cur; AWrite path content None]. split_and!; [by rewrite <- (assoc (++))| |done..].
    unfold file_now. simpl. by rewrite String.eqb_refl.
Qed.

Lemma file_forgets path n : ∀ st st',
  foldl (file_step path) st n = foldl (file_step path) st' n ∨ foldl (file_step path) st n = st ∧ foldl (file_step path) st' n = st'.
Proof.
  induction n as [|a n IH]; intros st st'; [by right|]. cbn [foldl].
  assert (file_step path st a = file_step path st' a ∨ file_step path st a = st ∧ file_step path st' a = st') as [->|[-> ->]].
  { destruct a; simpl; repeat case_match; auto. }
  - by left.
  - apply IH.
Qed.
Lemma file_now_later path a n c : file_now path n = Some c → file_now path (a ++ n) = Some c.
Proof.
  unfold file_now. rewrite foldl_app. intros Hn. destruct (file_forgets path n (foldl (file_step path) None a) None) as [->|[_ E]]; [done|].
  by rewrite E in Hn.
Qed.

Definition services_asked (r : res string SResult) : Asked :=
  ARun (Plutil paths) ["-convert"; "json"; "-o"; "-"; NetworkPrefs paths]%string r.

Lemma uplink_inv up s service s' : uplinkService paths range up s = (Ok service, s') →
  ∃ p, asked s' = asked s ++ [services_asked (Ok p)] ∧ ServiceForInterface range (r_Stdout p) up = Ok service ∧
    sh_plan s' = sh_plan s ∧ poweredOn s' = poweredOn s.
Proof.
  unfold uplinkService, run, ask, bind. destruct (SysRun _ _ _) as [[p|e] k]; [|intros Hx; discriminate Hx]. cbv beta iota zeta.
  destruct (r_ExitCode p =? 0); [|intros Hx; discriminate Hx]. cbn [negb]. unfold lift_res.
  destruct (ServiceForInterface range (r_Stdout p) up) as [x|] eqn:E; [|intros Hx; discriminate Hx].
  intros Hx. injection Hx as <- <-. exists p. by split_and!.
Qed.

Lemma grows_of {E A} P (m : SE SK E A) s r s' : keeps (grows P) m → m s = (r, s') → grows P s s'.
Proof. intros Hm E'. specialize (Hm s). by rewrite E' in Hm. Qed.

(** C32. A start that reports success saw the network: the file with the plan was in
    place, for a service of the uplink, and after that, with nothing more written,
    ifconfig was run on the bridge, exited with zero, and printed a flags group with
    the word UP in it and an inet line with the gateway's address on it (with any
    IPv4 address, where the plan names no gateway). *)
Theorem start_saw_the_network plan s st s' : Start paths range plan s = (Ok st, s') →
  ∃ service p before after r,
    asked s' = asked s ++ before ++ after ∧ services_asked (Ok p) ∈ before ∧
    ServiceForInterface range (r_Stdout p) (ap_Uplink (AP plan)) = Ok service ∧
    file_now (NATPrefs paths) before = Some (renderNATPrefs plan service true) ∧ Forall looks after ∧
    ifconfig r ∈ after ∧ shows_up (d_Gateway (DNS plan)) r ∧ sh_plan s' = Some plan.
Proof.
  unfold Start. cbv zeta. destruct (ap_Interface _ =? "")%string; [discriminate|]. destruct (ap_Uplink _ =? "")%string; [discriminate|].
  intros (? & s1 & H1%otherwise_inv & Hr)%bind_inv. apply bind_inv in Hr as (service & s2 & H2%otherwise_inv & Hr).
  apply bind_inv in Hr as (? & s3 & H3 & Hr). apply bind_inv in Hr as (? & s4 & H4 & Hr). injection H4 as _ <-.
  apply bind_inv in Hr as (changed & s5 & H5%otherwise_inv & Hr). apply bind_inv in Hr as (already & s6 & H6 & Hr).
  destruct (grows_of permitted _ _ _ _ (grows_ensure permitted ltac:(auto) _) H1) as (n1 & E1 & _).
  destruct (uplink_inv _ _ _ _ H2) as (p & E2 & Hs & _). destruct (grows_of permitted _ _ _ _ (grows_retire plan service) H3) as (n3 & E3 & _).
  destruct (write_inv _ _ _ _ _ H5) as (n5 & E5 & Hf & Hp5 & _). cbn [asked sh_plan] in E5, Hp5.
  assert (∃ after r, asked s' = asked s5 ++ after ∧ Forall looks after ∧ ifconfig r ∈ after ∧ (bridge_state (d_Gateway (DNS plan)) r).1 = true ∧
    sh_plan s' = sh_plan s5) as (after & r & Ea & Hl & Hin & Hb & Hp).
  { destruct already.
    - destruct changed; [discriminate|]. apply bind_inv in H6 as (up & s7 & H7 & H8). injection H8 as Hup <-.
      destruct (bridge_inv _ _ _ _ H7) as (r & E7 & -> & Hp7 & _).
      destruct (ends looks _ _ _ _ (stays_status looks ltac:(done) ltac:(done) _) Hr) as ((n8 & E8 & L8) & Hp8 & _).
      exists ([ifconfig r] ++ n8), r. rewrite E8, E7, <- (assoc (++)). split_and!; [done|by constructor|left|done|congruence].
    - assert (stays looks s5 s6) as ((n6 & E6 & L6) & Hp6 & _).
      { destruct changed; [injection H6 as <-; reflexivity|]. apply bind_inv in H6 as (up & s7 & H7 & H8). injection H8 as _ <-.
        by eapply ends; [apply (stays_bridge looks)|]. }
      apply bind_inv in Hr as (? & s7 & H7%otherwise_inv & Hr). apply bind_inv in Hr as ([] & s8 & H8%otherwise_inv & Hr).
      destruct (ends looks _ _ _ _ (stays_nudge looks ltac:(done)) H7) as ((n7 & E7 & L7) & Hp7 & _).
      apply twice_saw in H8 as (n8 & r & E8 & L8 & Hb & Hp8 & _).
      destruct (ends looks _ _ _ _ (stays_status looks ltac:(done) ltac:(done) _) Hr) as ((n9 & E9 & L9) & Hp9 & _).
      exists (n6 ++ n7 ++ (n8 ++ [ifconfig r]) ++ n9), r. rewrite E9, E8, E7, E6, <- !(assoc (++)).
      split_and!; [done| |set_solver|done|congruence]. rewrite !Forall_app. split_and!; auto. by constructor. }
  exists service, p, (n1 ++ [services_asked (Ok p)] ++ n3 ++ n5), after, r. rewrite Ea, E5, E3, E2, E1, <- !(assoc (++)).
  split_and!; [done|set_solver|done| |done..|by apply bridge_shows_up|congruence]. by do 3 apply file_now_later.
Qed.

Definition xml_asked (r : res string SResult) : Asked :=
  ARun (Plutil paths) ["-convert"; "xml1"; "-o"; "-"; NATPrefs paths]%string r.

(** The text that switches sharing off: of the plan this process started, or the
    file's own with its switch off. *)
Definition off_by (plan : option HotspotPlan) (calls : list Asked) (text : string) : Prop :=
  (∃ pl service, plan = Some pl ∧ text = renderNATPrefs pl service false) ∨
  (∃ p, xml_asked (Ok p) ∈ calls ∧ text = disableInNATPrefs (r_Stdout p)).
(** There was none to be had. *)
Definition no_file (calls : list Asked) : Prop :=
  ∃ r, xml_asked r ∈ calls ∧ (worked r = false ∨ ∃ p, r = Ok p ∧ disableInNATPrefs (r_Stdout p) = ""%string).

Lemma xml_inv {E} s o s' : (xml <-- readPrefsXML paths (E := E);;
    ret (match xml with
         | Some xml => if (disableInNATPrefs xml =? "")%string then None else Some (disableInNATPrefs xml)
         | None => None
         end)) s = (Ok o, s') →
  ∃ r, asked s' = asked s ++ [xml_asked r] ∧ sh_plan s' = sh_plan s ∧ poweredOn s' = poweredOn s ∧
    match o with
    | Some text => ∃ p, r = Ok p ∧ text = disableInNATPrefs (r_Stdout p)
    | None => worked r = false ∨ ∃ p, r = Ok p ∧ disableInNATPrefs (r_Stdout p) = ""%string
    end.
Proof.
  intros (xml & s1 & H1 & H2)%bind_inv. unfold readPrefsXML, run, ask, bind in H1. destruct (SysRun _ _ _) as [r k]. injection H1 as <- <-.
  injection H2 as <- <-. exists r. split_and!; [done..|]. destruct r as [p|e]; [|by left]. unfold worked. destruct (r_ExitCode p =? 0); [|by left].
  destruct (disableInNATPrefs (r_Stdout p) =? "")%string eqn:E0; [right|]; exists p; [by apply String.eqb_eq in E0|done].
Qed.

Lemma off_text_inv {E} plan s o s' : off_text paths range (E := E) plan s = (Ok o, s') →
  ∃ n, asked s' = asked s ++ n ∧ Forall looks n ∧ sh_plan s' = sh_plan s ∧ poweredOn s' = poweredOn s ∧
    match o with Some text => off_by plan n text | None => no_file n end.
Proof.
  unfold off_text. destruct plan as [plan|].
  - destruct (uplinkService paths range (ap_Uplink (AP plan)) s) as [[service|e] s1] eqn:Eu.
    + intros Hx. injection Hx as <- <-. destruct (uplink_inv _ _ _ _ Eu) as (p & Ea & _ & Hp & Hq). eexists. split_and!; [exact Ea|by constructor|done..|].
      left. by exists plan, service.
    + intros (r & Ea & Hp & Hq & Ho)%xml_inv. destruct (ends looks _ _ _ _ (stays_uplink looks ltac:(done) _) Eu) as ((n & En & Ln) & Hp' & Hq').
      exists (n ++ [xml_asked r]). rewrite Ea, En, <- (assoc (++)). split_and!; [done|apply Forall_app; split; [done|by constructor]|congruence..|].
      destruct o as [text|]; [destruct Ho as (p & -> & ->); right; exists p; split; [set_solver|done]|exists r; split; [set_solver|done]].
  - intros (r & Ea & Hp & Hq & Ho)%xml_inv. exists [xml_asked r]. split_and!; [done|by constructor|done..|].
    destruct o as [text|]; [destruct Ho as (p & -> & ->); right; exists p; split; [set_solver|done]|exists r; split; [set_solver|done]].
Qed.

Lemma collect_inv {E} (m : SE SK string unit) s e s' : collect (E := E) m s = (Ok e, s') → e = [] → m s = (Ok tt, s').
Proof. unfold collect. destruct (m s) as [[[]|msg] s1]; intros Hx; injection Hx as <- <-; [done|discriminate]. Qed.

(** A stop that reports no error: the radio this driver switched on is off again, as
    its last act; and the file was switched off and after that, with nothing more
    written, the bridge was read as gone, unless there was no file to be had. *)
Theorem stop_gave_back s s' : Stop paths range (E := string) s = (Ok [], s') →
  poweredOn s' = ""%string ∧ sh_plan s' = sh_plan s ∧
  ∃ middle final, asked s' = asked s ++ middle ++ final ∧
    (if (poweredOn s =? "")%string then final = []
     else ∃ r, final = [ARun (Networksetup paths) ["-setairportpower"; poweredOn s; "off"]%string r] ∧ worked r = true) ∧
    ((∃ text before after r, middle = before ++ after ++ [ifconfig r] ∧ off_by (sh_plan s) before text ∧
        file_now (NATPrefs paths) before = Some text ∧ Forall looks after ∧ (bridge_state NoAddr r).1 = false) ∨
     Forall looks middle ∧ no_file middle).
Proof.
  unfold Stop. cbv zeta. intros (s0 & s1 & Hg & Hr)%bind_inv. injection Hg as <- <-. apply bind_inv in Hr as (? & s2 & H2 & Hr). injection H2 as _ <-.
  apply bind_inv in Hr as (rendered & s3 & H3 & Hr). apply off_text_inv in H3 as (n3 & E3 & L3 & Hp3 & Hq3 & Ho).
  cbn [asked sh_plan poweredOn] in E3, Hp3, Hq3. apply bind_inv in Hr as (e1 & s4 & H4 & Hr). apply bind_inv in Hr as (e2 & s5 & H5 & Hr).
  injection Hr as He <-. apply app_eq_nil in He as [-> ->].
  assert (sh_plan s4 = sh_plan s ∧ poweredOn s4 = ""%string ∧ ∃ middle, asked s4 = asked s ++ middle ∧
    ((∃ text before after r, middle = before ++ after ++ [ifconfig r] ∧ off_by (sh_plan s) before text ∧
        file_now (NATPrefs paths) before = Some text ∧ Forall looks after ∧ (bridge_state NoAddr r).1 = false) ∨
     Forall looks middle ∧ no_file middle)) as (Hp4 & Hq4 & middle & E4 & Hm).
  { destruct rendered as [text|].
    - apply bind_inv in H4 as (e1 & t1 & G1 & H4). apply bind_inv in H4 as (e2 & t2 & G2 & H4). apply bind_inv in H4 as (e3 & t3 & G3 & H4).
      injection H4 as He <-. apply app_eq_nil in He as [-> He]. apply app_eq_nil in He as [-> ->].
      apply collect_inv in G1; [|done]. apply collect_inv in G2; [|done]. apply collect_inv in G3; [|done].
      apply bind_inv in G1 as (b & t0 & G1 & G0). injection G0 as <-. apply write_inv in G1 as (n1 & Ew & Hf & Hpw & Hqw).
      destruct (ends looks _ _ _ _ (stays_nudge looks ltac:(done)) G2) as ((n2 & En & Ln) & Hpn & Hqn).
      apply twice_saw in G3 as (n & r & Ea & La & Hb & Hpa & Hqa). split_and!; [congruence..|].
      exists ((n3 ++ n1) ++ (n2 ++ n) ++ [ifconfig r]). split; [rewrite Ea, En, Ew, E3, <- !(assoc (++)); done|]. left.
      exists text, (n3 ++ n1), (n2 ++ n), r. split_and!; [done| |by apply file_now_later|by apply Forall_app|done].
      destruct Ho as [Ho|(p & Hp & ->)]; [by left|]. right. exists p. split; [set_solver|done].
    - injection H4 as <-. split_and!; [done..|]. exists n3. split; [done|]. by right. }
  destruct (poweredOn s =? "")%string eqn:Ep.
  - injection H5 as <-. split_and!; [done..|]. exists middle, []. by rewrite app_nil_r.
  - unfold run, ask, bind in H5. destruct (SysRun _ _ _) as [r k]. cbn [ret] in H5. injection H5 as Hw <-. cbn [poweredOn sh_plan asked].
    split_and!; [done..|]. exists middle, [ARun (Networksetup paths) ["-setairportpower"; poweredOn s; "off"]%string r].
    rewrite E4, <- (assoc (++)). split_and!; [done| |done]. exists r. split; [done|]. by destruct (worked r).
Qed.
End Driven.

(** ** A Mac *)

Module Mac.
Record Machine := MkMachine { files : gmap string string; radio : bool; radio_readable : bool; bridge : bool }.

Definition ok (out : string) : res string SResult := Ok (MkSResult 0 out "").
Definition failed : res string SResult := Ok (MkSResult 1 "" "no").
Definition shared (m : Machine) : bool :=
  match files m !! NATPrefs DefaultInternetSharingPaths with
  | Some text => match read_plist text with
                 | Some (PDict [(_, PDict l)]) => existsb (λ kv, (fst kv =? "Enabled")%string && match snd kv with PInteger "1" => true | _ => false end) l
                 | _ => false
                 end
  | None => false
  end.
Definition services : string :=
  (Nft.txt "{^NetworkServices^: {^0A-1^: {^Interface^: {^DeviceName^: ^en0^}}, ^7C-2^: {^Interface^: {^DeviceName^: ^en5^}}}}").
Definition bridge_block : string :=
  text_of ["bridge100: flags=8a63<UP,BROADCAST,SMART,RUNNING,SIMPLEX,MULTICAST> mtu 1500"; tabs 1 "inet 10.83.51.1 netmask 0xffffff00"]%string.

Definition sys_run (name : string) (args : list string) (m : Machine) : res string SResult * Machine :=
  match args with
  | ["-getairportpower"; _]%string => (if radio_readable m then ok (if radio m then "Wi-Fi Power (en0): On" else "Wi-Fi Power (en0): Off") else failed, m)
  | ["-setairportpower"; _; v]%string => (ok "", MkMachine (files m) (v =? "on")%string (radio_readable m) (bridge m))
  | ["-convert"; "json"; _; _; _]%string => (ok services, m)
  | ["-convert"; "xml1"; _; _; path]%string => (match files m !! path with Some t => ok t | None => failed end, m)
  | ["bridge100"]%string => (if bridge m then ok bridge_block else failed, m)
  | _ => (failed, m)
  end.

#[export] Instance mac : System Machine := {|
  SysRun := sys_run;
  WriteFile := λ p c _ m, (None, MkMachine (<[p := c]> (files m)) (radio m) (radio_readable m) (bridge m));
  ReadFile := λ p m, (match files m !! p with Some t => Ok t | None => Err NotExist end, m);
  Remove := λ p m, (None, MkMachine (delete p (files m)) (radio m) (radio_readable m) (bridge m));
  ProcessAlive := λ _ m, (Ok false, m);
  SignalProcess := λ _ _ m, (None, m);
  SysSleep := λ _ m, (None, m);
  SysNow := λ _, 1756951201
|}.
#[export] Instance mac_input : SystemInput Machine := {|
  RunInput := λ _ _ _ m, (ok "", MkMachine (files m) (radio m) (radio_readable m) (shared m));
  CtxErr := λ _, None
|}.

Definition plan : HotspotPlan :=
  MkHotspotPlan (MkAP "en0" "en5" "Caf& <dict>" "correct horse" "DE" 36 "5GHz" "")
    (MkDNS "en0" (MkPrefix (A4 0x0A533300) 24) (A4 0x0A533301) NoAddr NoAddr 0 "" (NoAddr, 0) 0 "" "" false) no_radio "" "" false.
Definition driver (m : Machine) : Sharing Machine := MkSharing m None "" [].
Definition start (s : Sharing Machine) := Start DefaultInternetSharingPaths map_to_list plan s.
Definition stop (s : Sharing Machine) := Stop DefaultInternetSharingPaths map_to_list (E := string) s.
Definition quiet_mac : Machine := MkMachine ∅ false true false.
Definition started : Sharing Machine := (start (driver quiet_mac)).2.

(** The network comes up with the radio, and both go down again. *)
Example mac_round : is_ok (start (driver quiet_mac)).1 = true ∧ bridge (sh_sys started) = true ∧ radio (sh_sys started) = true ∧
  (stop started).1 = Ok [] ∧ bridge (sh_sys (stop started).2) = false ∧ radio (sh_sys (stop started).2) = false.
Proof. vm_compute. by split_and!. Qed.

(** A radio whose state could not be read is taken for one that was off: it was on
    before the start, and the stop switches it off. *)
Example radio_not_given_back :
  let m := MkMachine ∅ true false false in
  let s := (stop (start (driver m)).2) in s.1 = Ok [] ∧ radio m = true ∧ radio (sh_sys s.2) = false.
Proof. vm_compute. by split_and!. Qed.

(** After a restart of the service, a file that cannot be read makes the stop report
    success with the network still up. *)
Example stop_without_a_file :
  let m := MkMachine ∅ true true true in (stop (driver m)).1 = Ok [] ∧ bridge (sh_sys (stop (driver m)).2) = true.
Proof. vm_compute. by split_and!. Qed.

Lemma prefs_read_back_witness :
  read_plist (disableInNATPrefs (renderNATPrefs plan "7C-2" true)) = Some (prefs_tree plan 0x0A533300 24 "7C-2" 1 0).
Proof.
  refine (proj1 (proj2 (prefs_read_back plan 0x0A533300 24 "7C-2" _ _ _))).
  - split; try (vm_compute; reflexivity). split; vm_compute; reflexivity.
  - vm_compute. repeat constructor.
  - reflexivity.
Defined.

Definition status_of (r : res (HStatus * string) HStatus) : HStatus := match r with Ok st => st | Err (st, _) => st end.
Lemma start_saw_the_network_witness :
  ∃ service p before after r, asked started = [] ++ before ++ after ∧
    services_asked DefaultInternetSharingPaths (Ok p) ∈ before ∧
    ServiceForInterface map_to_list (r_Stdout p) "en5" = Ok service ∧
    file_now (NATPrefs DefaultInternetSharingPaths) before = Some (renderNATPrefs plan service true) ∧ Forall looks after ∧
    ifconfig DefaultInternetSharingPaths r ∈ after ∧ shows_up (A4 0x0A533301) r ∧ sh_plan started = Some plan.
Proof.
  refine (start_saw_the_network DefaultInternetSharingPaths map_to_list plan (driver quiet_mac) (status_of (start (driver quiet_mac)).1) started _).
  vm_compute. reflexivity.
Defined.
End Mac.
