(* ===== verification/MobileHotspot.v ===== *)
(** * The access point of Windows (internal/hotspot/mobilehotspot.go)

    Mobile Hotspot, driven through a helper program that reads one JSON request on
    its standard input and answers with one line of JSON. Everything asked of the
    machine is recorded with what came back, as in [InternetSharing]. *)

From S2P Require Import Prelude GoStrings StateError Netip Text Json JsonFacts JsonStruct.
From S2P Require Import Facts Parse HotspotConf Supervisor InternetSharing.
From S2P Require LinkFacts SharingFacts Nft.

Local Open Scope Z_scope.
Local Open Scope svc_scope.

(** ** The helper's language *)

Record TetheringRequest := MkRequest {
  t_Op : string;
  t_Uplink : string;
  t_Adapter : string;
  t_SSID : string;
  t_Passphrase : string;
  t_Band : string
}.

Definition request_fields : list (Field TetheringRequest) :=
  [field "op" string_codec never t_Op (λ x r, MkRequest x (t_Uplink r) (t_Adapter r) (t_SSID r) (t_Passphrase r) (t_Band r));
   field "uplink" string_codec empty_text t_Uplink (λ x r, MkRequest (t_Op r) x (t_Adapter r) (t_SSID r) (t_Passphrase r) (t_Band r));
   field "adapter" string_codec empty_text t_Adapter (λ x r, MkRequest (t_Op r) (t_Uplink r) x (t_SSID r) (t_Passphrase r) (t_Band r));
   field "ssid" string_codec empty_text t_SSID (λ x r, MkRequest (t_Op r) (t_Uplink r) (t_Adapter r) x (t_Passphrase r) (t_Band r));
   field "passphrase" string_codec empty_text t_Passphrase (λ x r, MkRequest (t_Op r) (t_Uplink r) (t_Adapter r) (t_SSID r) x (t_Band r));
   field "band" string_codec empty_text t_Band (λ x r, MkRequest (t_Op r) (t_Uplink r) (t_Adapter r) (t_SSID r) (t_Passphrase r) x)].
Definition request_codec : Codec TetheringRequest := struct_codec request_fields false.
Definition no_request : TetheringRequest := MkRequest "" "" "" "" "" "".

Record TetheringClient := MkClient { tc_MAC : string; tc_Hostnames : list string }.

Record TetheringReply := MkReply {
  t_OK : bool;
  t_State : string;
  tr_SSID : string;
  tr_Band : string;
  t_Clients : list TetheringClient;
  t_Error : string;
  t_Code : string
}.

Definition client_codec : Codec TetheringClient :=
  struct_codec
    [field "mac" string_codec never tc_MAC (λ x c, MkClient x (tc_Hostnames c));
     field "hostnames" (slice_codec string_codec ""%string) empty_slice tc_Hostnames (λ x c, MkClient (tc_MAC c) x)] false.

Definition reply_codec : Codec TetheringReply :=
  struct_codec
    [field "ok" bool_codec never t_OK (λ x r, MkReply x (t_State r) (tr_SSID r) (tr_Band r) (t_Clients r) (t_Error r) (t_Code r));
     field "state" string_codec never t_State (λ x r, MkReply (t_OK r) x (tr_SSID r) (tr_Band r) (t_Clients r) (t_Error r) (t_Code r));
     field "ssid" string_codec empty_text tr_SSID (λ x r, MkReply (t_OK r) (t_State r) x (tr_Band r) (t_Clients r) (t_Error r) (t_Code r));
     field "band" string_codec empty_text tr_Band (λ x r, MkReply (t_OK r) (t_State r) (tr_SSID r) x (t_Clients r) (t_Error r) (t_Code r));
     field "clients" (slice_codec client_codec (MkClient "" [])) empty_slice t_Clients
       (λ x r, MkReply (t_OK r) (t_State r) (tr_SSID r) (tr_Band r) x (t_Error r) (t_Code r));
     field "error" string_codec empty_text t_Error (λ x r, MkReply (t_OK r) (t_State r) (tr_SSID r) (tr_Band r) (t_Clients r) x (t_Code r));
     field "code" string_codec empty_text t_Code (λ x r, MkReply (t_OK r) (t_State r) (tr_SSID r) (tr_Band r) (t_Clients r) (t_Error r) x)] false.
Definition no_reply : TetheringReply := MkReply false "" "" "" [] "" "".

Definition tetheringBand (b : string) : string :=
  if (b =? Band5GHz)%string then "5" else if (b =? Band2GHz)%string then "2.4" else "auto".

Definition mobileHotspotReason (rep : TetheringReply) : string :=
  let code_is l := existsb (String.eqb (t_Code rep)) l in
  if code_is ["WiFiDeviceOff"]%string then "The Wi-Fi radio is switched off."
  else if code_is ["NetworkLimitedConnectivity"]%string then
    "Windows refused to share a connection it does not consider connected to the internet."
  else if code_is ["RadioRestriction"; "BandInterference"]%string then
    "The radio cannot host the network on the band that was asked for while joined to its current network."
  else if code_is ["DisabledByGroupPolicy"; "DisabledByOperator"; "DisabledBySku"; "DisabledBySystemCapability"]%string then
    "Mobile Hotspot is disabled on this computer by policy."
  else if code_is ["DisabledByHardwareLimitation"]%string then
    "No Wi-Fi adapter on this computer can host a hotspot: the driver does not support Wi-Fi Direct."
  else if negb (t_Error rep =? "")%string then ("Windows reported: " ++ t_Error rep)%string
  else if (t_State rep =? "transition")%string then "Windows is still switching the hotspot."
  else if (t_State rep =? "off")%string then "Mobile Hotspot is off."
  else "Mobile Hotspot is not running.".

(** What the helper printed, read. The text of encoding/json's own error is left
    out. *)
Definition reply_of (r : SResult) : res string TetheringReply :=
  let line := TrimSpace (r_Stdout r) in
  if (line =? "")%string then
    Err ("hotspot: mobile hotspot: the helper exited " ++ Itoa (r_ExitCode r) ++ " and printed nothing: " ++ TrimSpace (r_Stderr r))%string
  else
    let line := match IndexByte line newline_byte with Some i => substr_to line i | None => line end in
    match j ← Unmarshal (to_l line); dec reply_codec j no_reply with
    | Some rep => Ok rep
    | None => Err "hotspot: mobile hotspot: the helper's answer could not be read"%string
    end.

(** The line the helper reads; a struct of strings can always be written. *)
Definition request_line (req : TetheringRequest) : string :=
  match enc request_codec req with Some j => of_l (Marshal j ++ [newline_byte]) | None => "" end.

(** ** The driver *)

Record Mobile (K : Type) := MkMobile { m_sys : K; m_plan : option HotspotPlan; m_asked : list Asked }.
Arguments MkMobile {K}. Arguments m_sys {K}. Arguments m_plan {K}. Arguments m_asked {K}.

Definition StartSettle : Z := 500000000.
Definition StartTries : nat := 40.

Definition lease_of (c : TetheringClient) : Lease :=
  MkLease None (ToLower (tc_MAC c)) NoAddr (match tc_Hostnames c with h :: _ => h | [] => "" end) "".

(** Status, from the helper's answer: the status, the name on the air and the error. *)
Definition status_from (r : res string TetheringReply) : HStatus * string * option string :=
  match r with
  | Err msg => (no_status "The hotspot helper did not answer.", ""%string, Some msg)
  | Ok rep =>
      let on := t_OK rep && (t_State rep =? "on")%string in
      (MkHStatus on (MkProc on 0 on "") (MkProc on 0 false "") (no_radio_state "") (lease_of <$> t_Clients rep) 0
         (if on then "" else mobileHotspotReason rep), tr_SSID rep, None)
  end.

Section Driver.
Context {K : Type} `{System K} `{SystemInput K} (Helper : string).

Definition ask {E A} (f : K → A * K) (note : A → Asked) : SE (Mobile K) E A := λ s,
  let '(a, k) := f (m_sys s) in (Ok a, MkMobile k (m_plan s) (m_asked s ++ [note a])).
Definition set_plan {E} (plan : HotspotPlan) : SE (Mobile K) E unit := λ s, (Ok tt, MkMobile (m_sys s) (Some plan) (m_asked s)).
Definition otherwise {A} (reason : string) (m : SE (Mobile K) string A) : SE (Mobile K) (HStatus * string) A := λ s,
  let '(r, s) := m s in
  (match r with Ok a => Ok a | Err msg => Err (no_status reason, msg) end, s).

Definition call (req : TetheringRequest) : SE (Mobile K) string TetheringReply :=
  if (Helper =? "")%string then raise "hotspot: mobile hotspot: no helper path was configured"%string
  else
    r <-- ask (RunInput (request_line req) Helper [t_Op req]) (AInput (request_line req) Helper [t_Op req]);;
    match r with
    | Err msg => raise ("hotspot: mobile hotspot: running the helper: " ++ msg)%string
    | Ok r => lift_res (reply_of r)
    end.

(** A request about the network of the last plan, if there was one. *)
Definition about (op : string) (plan : option HotspotPlan) : TetheringRequest :=
  match plan with
  | Some plan => MkRequest op (ap_Uplink (AP plan)) (ap_Interface (AP plan)) "" "" ""
  | None => MkRequest op "" "" "" "" ""
  end.

Definition Status {E} : SE (Mobile K) E (HStatus * string * option string) := λ s,
  let '(r, s) := call (about "status" (m_plan s)) s in (Ok (status_from r), s).

Definition is_up (st : HStatus * string * option string) : bool :=
  match st with (st, _, None) => h_Running st | _ => false end.

(** The readings after a start, and the last one. *)
Fixpoint await_on (n : nat) : SE (Mobile K) (HStatus * string) HStatus :=
  st <-- Status;;
  match n with
  | O => raise (st.1.1, "hotspot: mobile hotspot: the hotspot did not come on"%string)
  | S n =>
      if is_up st then ret st.1.1
      else
        e <-- ask (SysSleep StartSettle) (ASleep StartSettle);;
        match e with Some msg => raise (no_status "", msg) | None => await_on n end
  end.

Definition start_request (plan : HotspotPlan) : TetheringRequest :=
  let ap := AP plan in
  MkRequest "start" (ap_Uplink ap) (ap_Interface ap) (ap_SSID ap) (Passphrase ap) (tetheringBand (ap_Band ap)).

Definition Start (plan : HotspotPlan) : SE (Mobile K) (HStatus * string) HStatus :=
  if (ap_Uplink (AP plan) =? "")%string then
    raise (no_status "The plan names no internet connection to share.",
           "hotspot: mobile hotspot: the plan names no uplink interface"%string)
  else
    set_plan plan;;;
    st <-- Status;;
    if is_up st && (st.1.2 =? ap_SSID (AP plan))%string then ret st.1.1
    else
      rep <-- otherwise "Windows could not be asked to start the hotspot." (call (start_request plan));;
      if negb (t_OK rep) then
        raise (no_status (mobileHotspotReason rep), ("hotspot: mobile hotspot: " ++ t_Error rep)%string)
      else await_on StartTries.

Definition Stop : SE (Mobile K) string unit :=
  s <-- get;;
  rep <-- call (about "stop" (m_plan s));;
  if negb (t_OK rep) && negb (t_State rep =? "off")%string
  then raise ("hotspot: mobile hotspot: stopping: " ++ t_Error rep)%string
  else ret tt.
End Driver.

(** ** The request is read as it was made *)

Definition request_ok (r : TetheringRequest) : Prop :=
  ValidString (t_Op r) = true ∧ ValidString (t_Uplink r) = true ∧ ValidString (t_Adapter r) = true ∧ ValidString (t_SSID r) = true ∧
  ValidString (t_Passphrase r) = true ∧ ValidString (t_Band r) = true.

Lemma tethering_faithful r : request_ok r → faithful request_codec 1 (λ old, old = no_request) r.
Proof.
  intros (H1 & H2 & H3 & H4 & H5 & H6). apply faithful_struct; [distinct_names| |by eexists|].
  - intros old ->. unfold request_fields, no_request. follow_fields_by 0%nat ltac:(fun Ho => lazymatch type of Ho with
      | never _ = true => discriminate Ho
      | empty_text _ = true => apply String.eqb_eq in Ho; rewrite Ho; reflexivity
      end). by destruct r.
  - unfold request_fields. plain_fields.
Qed.

(** No byte of a written string is a control character, so the request is one line. *)
Definition one_line (l : list ascii) : Prop := Forall (λ c, c ≠ newline_byte) l.
Lemma one_line_app a b : one_line a → one_line b → one_line (a ++ b).
Proof. intros. by apply Forall_app. Qed.
Lemma one_line_cons c l : c ≠ newline_byte → one_line l → one_line (c :: l).
Proof. by constructor. Qed.

Lemma one_line_esc html c : one_line (esc_byte html c).
Proof. destruct html, c as [[] [] [] [] [] [] [] []]; vm_compute; repeat constructor; discriminate. Qed.
Lemma one_line_rune s : (1 < rune_width s)%nat → one_line (take (rune_width s) s).
Proof.
  intros Hw. pose proof (LinkFacts.long_good s Hw) as Hg. destruct (LinkFacts.long_rune s Hw) as (c & l & E & _ & _ & Hne & _). rewrite E in *.
  destruct l as [|d l]; [done|]. eapply Forall_impl; [apply (SharingFacts.good_high _ _ _ Hg)|]. intros x Hx ->. vm_compute in Hx. lia.
Qed.
Lemma one_line_quote html fuel : ∀ s, one_line (quote_go fuel html s).
Proof.
  induction fuel as [|fuel IH]; intros s; [constructor|]. destruct s as [|c s]; [constructor|]. cbn [quote_go].
  destruct (nat_of_ascii c <? 128)%nat; [apply one_line_app; [apply one_line_esc|apply IH]|].
  destruct (line_separator (c :: s)) as [n|] eqn:El.
  - apply one_line_app; [|apply IH]. assert (n = 8232 ∨ n = 8233) as Hn.
    { unfold line_separator in El. repeat case_match; simplify_eq; auto. }
    destruct Hn as [->| ->]; vm_compute; repeat constructor; discriminate.
  - apply one_line_app; [|apply IH]. destruct (Nat.eqb_spec (rune_width (c :: s)) 1) as [E|E].
    + vm_compute; repeat constructor; discriminate.
    + apply one_line_rune. pose proof (rune_width_bounds (c :: s) ltac:(done)). lia.
Qed.
Lemma one_line_quoted html s : one_line (quoted html s).
Proof. apply one_line_cons; [done|]. apply one_line_app; [apply one_line_quote|by constructor]. Qed.

Lemma one_line_object ms : Forall (λ kv, ∃ s, snd kv = JStr s) ms → one_line (Marshal (JObj ms)).
Proof.
  intros Hm. unfold Marshal. cbn [print].
  assert (Forall one_line (List.map (λ p : list ascii * json, match p with (k, y) => member true compact 0 k (print true compact 1 y) end) ms)) as Hs.
  { induction Hm as [|[k v] ms [s Hs] Hm IH]; [constructor|]. simpl in Hs. subst v. constructor; [|exact IH]. unfold member.
    apply one_line_app; [apply one_line_quoted|]. apply one_line_cons; [done|]. apply one_line_quoted. }
  unfold bracket. destruct Hs as [|x xs Hx Hxs]; [by repeat constructor|]. apply one_line_cons; [done|]. cbn [nl compact app].
  apply one_line_app; [exact Hx|]. apply one_line_app; [|by repeat constructor].
  induction Hxs as [|y ys Hy Hys IH]; [constructor|]. cbn [List.map concat]. apply one_line_cons; [done|]. by apply one_line_app.
Qed.

Lemma request_members r : ∃ ms, enc request_codec r = Some (JObj ms) ∧ Forall (λ kv, ∃ s, snd kv = JStr s) ms.
Proof.
  unfold request_codec, struct_codec, request_fields. cbn [enc write_fields]. unfold members, field, never, empty_text. cbn [f_put f_name enc string_codec].
  repeat (destruct (_ =? "")%string); cbn; eexists; (split; [reflexivity|]); repeat constructor; eauto.
Qed.

(** The helper is asked for exactly what was meant, in one line: whatever a
    network's name and password hold, what is written on its standard input is one
    line of JSON that reads back as the request. *)
Theorem request_reads_back r : request_ok r →
  ∃ body, request_line r = of_l (body ++ [newline_byte]) ∧ one_line body ∧
    (j ← Unmarshal body; dec request_codec j no_request) = Some r.
Proof.
  intros Hr. destruct (request_members r) as (ms & Em & Hm). destruct (tethering_faithful r Hr) as (j & Ej & Hp & Hd).
  exists (Marshal j). unfold request_line. rewrite Ej. rewrite Em in Ej. injection Ej as <-. split_and!; [done|by apply one_line_object|].
  rewrite (Unmarshal_Marshal _ 1) by (done || (unfold maxNestingDepth; lia)). cbn [mbind option_bind]. by apply Hd.
Qed.

(** ** What success means *)

Section Driven.
Context {K : Type} `{System K} `{SystemInput K} (Helper : string).

(** The calls it makes: the helper, for one of three things; only the request to
    start holds the name and the password, and on standard input. *)
Definition permitted (a : Asked) : Prop :=
  match a with
  | AInput stdin name args _ =>
      name = Helper ∧ ((∃ op plan, op ∈ ["status"; "stop"]%string ∧ args = [op] ∧ stdin = request_line (about op plan)) ∨
                       (∃ plan, args = ["start"%string] ∧ stdin = request_line (start_request plan)))
  | ASleep d _ => d = StartSettle
  | _ => False
  end.

Definition asks (s s' : Mobile K) : Prop := ∃ new, m_asked s' = m_asked s ++ new ∧ Forall permitted new.
#[local] Instance asks_refl : Reflexive asks.
Proof. intros s. exists []. by rewrite app_nil_r. Qed.
#[local] Instance asks_trans : Transitive asks.
Proof. intros s1 s2 s3 (n1 & E1 & H1) (n2 & E2 & H2). exists (n1 ++ n2). rewrite E2, E1, (assoc (++)). split; [done|by apply Forall_app]. Qed.

Lemma mobile_keeps_ask {E A} (f : K → A * K) note : (∀ a, permitted (note a)) → keeps asks (ask (E := E) f note).
Proof. intros Hp s. unfold ask. destruct (f (m_sys s)) as [a k]. exists [note a]. split; [done|]. by constructor. Qed.

Lemma call_asks req : (∀ r, permitted (AInput (request_line req) Helper [t_Op req] r)) → keeps asks (call Helper req).
Proof.
  intros Hp. unfold call. destruct (Helper =? "")%string; [apply keeps_raise; apply _|]. apply keeps_bind; [apply _|by apply mobile_keeps_ask|].
  intros [r|e]; [apply keeps_lift|apply keeps_raise]; apply _.
Qed.
Lemma about_permitted op plan r : op ∈ ["status"; "stop"]%string → permitted (AInput (request_line (about op plan)) Helper [t_Op (about op plan)] r).
Proof. intros Ho. split; [done|]. left. exists op, plan. by destruct plan. Qed.

Lemma status_asks {E} : keeps asks (Status Helper (E := E)).
Proof.
  intros s. unfold Status. pose proof (call_asks (about "status" (m_plan s)) (λ r, about_permitted _ _ r ltac:(left)) s) as Hc.
  by destruct (call Helper (about "status" (m_plan s)) s).
Qed.
Lemma await_asks n : keeps asks (await_on Helper n).
Proof.
  induction n as [|n IH]; cbn [await_on]; (apply keeps_bind; [apply _|apply status_asks|]); intros st; [apply keeps_raise; apply _|].
  destruct (is_up st); [apply keeps_ret; apply _|]. apply keeps_bind; [apply _|by apply mobile_keeps_ask|]. intros [e|]; [apply keeps_raise; apply _|exact IH].
Qed.
Lemma start_asks plan : keeps asks (Start Helper plan).
Proof.
  unfold Start. destruct (ap_Uplink _ =? "")%string; [apply keeps_raise; apply _|].
  apply keeps_bind; [apply _|intros s; exists []; by rewrite app_nil_r|]. intros _. apply keeps_bind; [apply _|apply status_asks|]. intros st.
  destruct (is_up st && _); [apply keeps_ret; apply _|]. apply keeps_bind; [apply _| |].
  - intros s. pose proof (call_asks (start_request plan)) as Hc. unfold otherwise.
    assert (asks s (call Helper (start_request plan) s).2) as Ha by (apply Hc; intros r; split; [done|]; right; by exists plan).
    by destruct (call Helper (start_request plan) s).
  - intros rep. destruct (negb (t_OK rep)); [apply keeps_raise; apply _|apply await_asks].
Qed.
Lemma stop_asks : keeps asks (Stop Helper).
Proof.
  unfold Stop. apply keeps_bind; [apply _|apply keeps_get; apply _|]. intros s. apply keeps_bind; [apply _| |].
  - apply call_asks. intros r. apply about_permitted. set_solver.
  - intros rep. destruct (_ && _); [apply keeps_raise|apply keeps_ret]; apply _.
Qed.

(** The status request, answered. *)
Definition answered (plan : option HotspotPlan) (r : SResult) : Asked := AInput (request_line (about "status" plan)) Helper ["status"%string] (Ok r).

Lemma status_up {E} s st s' : Status Helper (E := E) s = (Ok st, s') → is_up st = true →
  h_Running st.1.1 = true ∧ m_plan s' = m_plan s ∧ ∃ r rep, m_asked s' = m_asked s ++ [answered (m_plan s) r] ∧ reply_of r = Ok rep ∧
    t_OK rep = true ∧ t_State rep = "on"%string ∧ tr_SSID rep = st.1.2.
Proof.
  unfold Status, call. destruct (Helper =? "")%string; [intros Hx; injection Hx as <- <-; discriminate|].
  unfold ask, bind. destruct (RunInput _ _ _ _) as [[r|e] k]; [|intros Hx; injection Hx as <- <-; discriminate]. cbv beta iota zeta. unfold lift_res.
  destruct (reply_of r) as [rep|e] eqn:Er; [|intros Hx; injection Hx as <- <-; discriminate]. intros Hx. injection Hx as <- <-.
  cbn [status_from is_up h_Running fst snd]. intros [Hok Hon%String.eqb_eq]%andb_true_iff.
  rewrite Hok, Hon. split_and!; [done..|]. exists r, rep. split_and!; auto. cbn [m_asked]. by destruct (m_plan s).
Qed.

Lemma call_plan req s r s' : call Helper req s = (r, s') → m_plan s' = m_plan s.
Proof.
  unfold call. destruct (Helper =? "")%string; [by intros [= <- <-]|]. unfold ask, bind. destruct (RunInput _ _ _ _) as [[x|e] k]; cbv beta iota zeta.
  - unfold lift_res. destruct (reply_of x); intros Hx; injection Hx as <- <-; done.
  - intros Hx; injection Hx as <- <-; done.
Qed.
Lemma status_plan {E} s r s' : Status Helper (E := E) s = (r, s') → m_plan s' = m_plan s ∧ asks s s'.
Proof.
  intros Hs. pose proof (status_asks (E := E) s) as Ha. rewrite Hs in Ha. split; [|exact Ha]. unfold Status in Hs.
  destruct (call Helper (about "status" (m_plan s)) s) as [x s1] eqn:Ec. injection Hs as _ <-. by eapply call_plan.
Qed.

Definition read_on (plan : option HotspotPlan) (s : Mobile K) (st : HStatus) (s' : Mobile K) (name : string) : Prop :=
  h_Running st = true ∧ m_plan s' = plan ∧ ∃ before r rep, m_asked s' = m_asked s ++ before ++ [answered plan r] ∧ Forall permitted before ∧
    reply_of r = Ok rep ∧ t_OK rep = true ∧ t_State rep = "on"%string ∧ tr_SSID rep = name.

Lemma await_reads n s st s' : await_on Helper n s = (Ok st, s') → ∃ name, read_on (m_plan s) s st s' name.
Proof.
  revert s. induction n as [|n IH]; intros s; cbn [await_on]; intros (x & s1 & H1 & Hr)%SharingFacts.bind_inv; [discriminate|].
  destruct (is_up x) eqn:Eu.
  - injection Hr as <- <-. destruct (status_up _ _ _ H1 Eu) as (Hh & Hp & r & rep & Ea & Hrest). exists x.1.2. split_and!; [done..|].
    exists [], r, rep. by split_and!; try apply Hrest.
  - destruct (status_plan _ _ _ H1) as [Hp1 (n1 & E1 & F1)]. apply SharingFacts.bind_inv in Hr as (e & s2 & H2 & Hr). destruct e as [msg|]; [discriminate|].
    assert (m_plan s2 = m_plan s1 ∧ ∃ d, m_asked s2 = m_asked s1 ++ [ASleep StartSettle d]) as [Hp2 [d E2]].
    { unfold ask in H2. destruct (SysSleep _ _) as [d k]. injection H2 as _ <-. split; [done|]. by exists d. }
    destruct (IH _ Hr) as (name & Hh & Hp & before & r & rep & Ea & Fb & Hrest). exists name. split_and!; [done|congruence|].
    exists (n1 ++ [ASleep StartSettle d] ++ before), r, rep. rewrite Ea, E2, E1, <- !(assoc (++)). rewrite Hp2, Hp1.
    split_and!; [done| |apply Hrest..]. rewrite !Forall_app. split_and!; auto. by constructor.
Qed.

Lemma started_reads plan s s2 st s' x :
  Status Helper (E := HStatus * string) (MkMobile (m_sys s) (Some plan) (m_asked s)) = (Ok x, s2) →
  (rep <-- otherwise "Windows could not be asked to start the hotspot." (call Helper (start_request plan));;
   if negb (t_OK rep) then raise (no_status (mobileHotspotReason rep), ("hotspot: mobile hotspot: " ++ t_Error rep)%string)
   else await_on Helper StartTries) s2 = (Ok st, s') →
  h_Running st = true ∧ m_plan s' = Some plan ∧
  ∃ before r rep, m_asked s' = m_asked s ++ before ++ [answered (Some plan) r] ∧ Forall permitted before ∧ reply_of r = Ok rep ∧
    t_OK rep = true ∧ t_State rep = "on"%string ∧
    (before = [] ∧ tr_SSID rep = ap_SSID (AP plan) ∨
     ∃ r0 rep0, AInput (request_line (start_request plan)) Helper ["start"%string] (Ok r0) ∈ before ∧ reply_of r0 = Ok rep0 ∧ t_OK rep0 = true).
Proof.
  intros H2 (rep0 & s3 & H3 & Hr)%SharingFacts.bind_inv. destruct (status_plan _ _ _ H2) as [Hp2 (n2 & E2 & F2)]. cbn [m_plan m_asked] in Hp2, E2.
  assert (m_plan s3 = m_plan s2 ∧ ∃ r0, m_asked s3 = m_asked s2 ++ [AInput (request_line (start_request plan)) Helper ["start"%string] (Ok r0)] ∧
    reply_of r0 = Ok rep0) as [Hp3 (r0 & E3 & Hr0)].
  { unfold otherwise, call in H3. destruct (Helper =? "")%string; [discriminate|]. unfold ask, bind in H3.
    destruct (RunInput _ _ _ _) as [[r0|e] k]; [|discriminate]. unfold lift_res in H3. destruct (reply_of r0) eqn:Er; [|discriminate].
    injection H3 as <- <-. split; [done|]. by exists r0. }
  destruct (t_OK rep0) eqn:Eo; [|discriminate]. destruct (await_reads _ _ _ _ Hr) as (name & Hh & Hp & before & r & rep & Ea & Fb & Hrest).
  split_and!; [done|congruence|]. exists (n2 ++ [AInput (request_line (start_request plan)) Helper ["start"%string] (Ok r0)] ++ before), r, rep.
  rewrite Ea, E3, E2, <- !(assoc (++)). rewrite Hp3, Hp2. destruct Hrest as (? & ? & ? & _). split_and!; try done.
  - rewrite !Forall_app. split_and!; auto. constructor; [|done]. split; [done|]. right. by exists plan.
  - right. exists r0, rep0. split_and!; [set_solver|done..].
Qed.

(** C33. A start that reports success read it back: the last thing asked was the
    status, and the helper answered that the hotspot is on; either that was the only
    thing asked and the name on the air is the plan's, or the helper had been given
    the plan and said it was done. Every call was to the helper, and the plan is
    kept for the stop. *)
Theorem start_read_it_on plan s st s' : Start Helper plan s = (Ok st, s') →
  h_Running st = true ∧ m_plan s' = Some plan ∧
  ∃ before r rep, m_asked s' = m_asked s ++ before ++ [answered (Some plan) r] ∧ Forall permitted before ∧ reply_of r = Ok rep ∧
    t_OK rep = true ∧ t_State rep = "on"%string ∧
    (before = [] ∧ tr_SSID rep = ap_SSID (AP plan) ∨
     ∃ r0 rep0, AInput (request_line (start_request plan)) Helper ["start"%string] (Ok r0) ∈ before ∧ reply_of r0 = Ok rep0 ∧ t_OK rep0 = true).
Proof.
  unfold Start. destruct (ap_Uplink _ =? "")%string; [discriminate|]. intros (u & s1 & H1 & Hr)%SharingFacts.bind_inv. injection H1 as _ <-.
  apply SharingFacts.bind_inv in Hr as (x & s2 & H2 & Hr). destruct (is_up x) eqn:Eu; cbn [andb] in Hr;
    [destruct (x.1.2 =? ap_SSID (AP plan))%string eqn:En|].
  - injection Hr as <- <-. destruct (status_up _ _ _ H2 Eu) as (Hh & Hp & r & rep & Ea & Hrest). split_and!; [done..|].
    exists [], r, rep. destruct Hrest as (? & ? & ? & Hn). split_and!; try done. left. split; [done|]. by rewrite Hn; apply String.eqb_eq.
  - by eapply started_reads.
  - by eapply started_reads.
Qed.
End Driven.

(** ** A Windows machine *)

Module Windows.
(** Mobile Hotspot: its name and password, and whether it is on; [slow] readings
    still say that it is switching. *)
Record Machine := MkMachine { name : string; password : string; on : bool; slow : nat }.

Definition answer (ok : bool) (state ssid : string) : string :=
  (Nft.txt ("{^ok^:" ++ (if ok then "true" else "false") ++ ",^state^:^" ++ state ++ "^,^ssid^:^" ++ ssid ++ "^}"))%string.
Definition reply (text : string) : res string SResult := Ok (MkSResult 0 text "").

Definition helper (stdin : string) (m : Machine) : res string SResult * Machine :=
  match j ← Unmarshal (to_l stdin); dec request_codec j no_request with
  | None => (reply "", m)
  | Some r =>
      if (t_Op r =? "start")%string then (reply (answer true "transition" (t_SSID r)), MkMachine (t_SSID r) (t_Passphrase r) true (slow m))
      else if (t_Op r =? "stop")%string then (reply (answer true "off" ""), MkMachine "" "" false 0)
      else if on m then
        match slow m with
        | S n => (reply (answer true "transition" (name m)), MkMachine (name m) (password m) true n)
        | O => (reply (answer true "on" (name m)), m)
        end
      else (reply (answer true "off" ""), m)
  end.

#[export] Instance windows : System Machine := {|
  SysRun := λ _ _ m, (reply "", m);
  WriteFile := λ _ _ _ m, (None, m);
  ReadFile := λ _ m, (Err NotExist, m);
  Remove := λ _ m, (None, m);
  ProcessAlive := λ _ m, (Ok false, m);
  SignalProcess := λ _ _ m, (None, m);
  SysSleep := λ _ m, (None, m);
  SysNow := λ _, 0
|}.
#[export] Instance windows_input : SystemInput Machine := {| RunInput := λ stdin _ _ m, helper stdin m; CtxErr := λ _, None |}.

Definition plan (password : string) : HotspotPlan :=
  MkHotspotPlan (MkAP "Wi-Fi" "Ethernet" "Caspian" password "DE" 0 "5GHz" "")
    (MkDNS "" NoPrefix NoAddr NoAddr NoAddr 0 "" (NoAddr, 0) 0 "" "" false) no_radio "" "" false.
Definition driver (m : Machine) : Mobile Machine := MkMobile m None [].
Definition start (m : Machine) (password : string) := Start "caspian-tethering.exe" (plan password) (driver m).
Definition off_machine : Machine := MkMachine "" "" false 3.
Definition started : Mobile Machine := (start off_machine "correct horse").2.
Definition status_of (r : res (HStatus * string) HStatus) : HStatus := match r with Ok st => st | Err (st, _) => st end.

(** A hotspot of that name that is on already is taken for the one asked for: the
    start reports success and the password on the air is still the old one. *)
Example new_password_not_applied :
  let m := MkMachine "Caspian" "old password" true 0 in
  is_ok (start m "new password").1 = true ∧ password (m_sys (start m "new password").2) = "old password"%string.
Proof. vm_compute. by split_and!. Qed.

(** The reading after the last wait says that the hotspot is on, and the start is an
    error all the same. *)
Example late_start_is_an_error :
  let m := MkMachine "" "" false 40 in
  match (start m "correct horse").1 with Err (st, _) => h_Running st = true | Ok _ => False end.
Proof. vm_compute. done. Qed.

Lemma start_read_it_on_witness :
  h_Running (status_of (start off_machine "correct horse").1) = true ∧ m_plan started = Some (plan "correct horse") ∧
  ∃ before r rep, m_asked started = [] ++ before ++ [answered "caspian-tethering.exe" (Some (plan "correct horse")) r] ∧
    Forall (permitted "caspian-tethering.exe") before ∧ reply_of r = Ok rep ∧ t_OK rep = true ∧ t_State rep = "on"%string ∧
    (before = [] ∧ tr_SSID rep = "Caspian"%string ∨
     ∃ r0 rep0, AInput (request_line (start_request (plan "correct horse"))) "caspian-tethering.exe" ["start"%string] (Ok r0) ∈ before ∧
       reply_of r0 = Ok rep0 ∧ t_OK rep0 = true).
Proof.
  refine (start_read_it_on "caspian-tethering.exe" (plan "correct horse") (driver off_machine) (status_of (start off_machine "correct horse").1) started _).
  vm_compute. reflexivity.
Defined.

Lemma request_reads_back_witness :
  ∃ body, request_line (start_request (plan "correct horse")) = of_l (body ++ [newline_byte]) ∧ one_line body ∧
    (j ← Unmarshal body; dec request_codec j no_request) = Some (start_request (plan "correct horse")).
Proof. apply (request_reads_back (start_request (plan "correct horse"))). vm_compute. by split_and!. Defined.
End Windows.
