(* ===== verification/SimKernel.v ===== *)
(** * The simulated kernel (internal/netcfg/simulated_kernel.go)

    The machine the repository tests its steps against: a Runner that keeps
    addresses, routes, rules, knobs and interfaces, and refuses what a Linux
    kernel refuses. On it the inverse of every step of a Linux plan is a true
    inverse: when the steps all succeed, their inverses, newest first, all
    succeed and give back the machine.

    A Go map from names to sets, or to booleans that are only ever set to true
    or read with a default, is kept as the set of what is in it. The order in
    which Go walks a map is the parameter [walk]. *)

From S2P Require Import Prelude GoStrings Netip Text Facts Command Subnet Plan Nft Steps.
From S2P Require Import Parse PlanFacts StepsFacts Detect DetectFacts.
From S2P Require Json JsonFacts HotspotFacts ServiceDemo Desktop.

Local Open Scope string_scope.

(** ** The machine *)

Record simRule := MkSimRule { priority : string; selector : string }.
#[export] Instance simRule_eq_dec : EqDecision simRule.
Proof. solve_decision. Defined.

Record Mach := MkMach {
  addrs : gset (string * string);     (* device, prefix *)
  routes : gset (string * string);    (* table, prefix *)
  rules : list simRule;
  sim_sysctl : gmap string string;
  ifaces : gset string;
  unmanaged : gset string;
  iftype : gmap string string;
  macs : gmap string string;
  assoc : gmap string string;
  up : gset string;
  ifacePhy : gmap string string;
  nft : Z;
  ruleset : string
}.

(** What the driver refuses. *)
Record Conf := MkConf {
  RefuseSetType : string;
  InheritsParentMAC : bool;
  RefuseLinkUp : string;
  RefuseIfaceAdd : string
}.

Record SimulatedKernel (R : Type) := MkSim { mach : Mach; sim_cmds : list Command; Reads : option R; conf : Conf }.
Arguments MkSim {R}. Arguments mach {R}. Arguments sim_cmds {R}. Arguments Reads {R}. Arguments conf {R}.

Definition set_addrs x (m : Mach) := MkMach x (routes m) (rules m) (sim_sysctl m) (ifaces m) (unmanaged m) (iftype m) (macs m) (assoc m) (up m) (ifacePhy m) (nft m) (ruleset m).
Definition set_routes x (m : Mach) := MkMach (addrs m) x (rules m) (sim_sysctl m) (ifaces m) (unmanaged m) (iftype m) (macs m) (assoc m) (up m) (ifacePhy m) (nft m) (ruleset m).
Definition set_rules x (m : Mach) := MkMach (addrs m) (routes m) x (sim_sysctl m) (ifaces m) (unmanaged m) (iftype m) (macs m) (assoc m) (up m) (ifacePhy m) (nft m) (ruleset m).
Definition set_knobs x (m : Mach) := MkMach (addrs m) (routes m) (rules m) x (ifaces m) (unmanaged m) (iftype m) (macs m) (assoc m) (up m) (ifacePhy m) (nft m) (ruleset m).
Definition set_unmanaged x (m : Mach) := MkMach (addrs m) (routes m) (rules m) (sim_sysctl m) (ifaces m) x (iftype m) (macs m) (assoc m) (up m) (ifacePhy m) (nft m) (ruleset m).
Definition set_iftype x (m : Mach) := MkMach (addrs m) (routes m) (rules m) (sim_sysctl m) (ifaces m) (unmanaged m) x (macs m) (assoc m) (up m) (ifacePhy m) (nft m) (ruleset m).
Definition set_up x (m : Mach) := MkMach (addrs m) (routes m) (rules m) (sim_sysctl m) (ifaces m) (unmanaged m) (iftype m) (macs m) (assoc m) x (ifacePhy m) (nft m) (ruleset m).

Definition empty_machine : Mach := MkMach ∅ ∅ [] ∅ ∅ ∅ ∅ ∅ ∅ ∅ ∅ 0 "".
Definition add_existing (m : Mach) (n : string) : Mach :=
  MkMach (addrs m) (routes m) (rules m) (sim_sysctl m) ({[n]} ∪ ifaces m) (unmanaged m) (<[n := "managed"]> (iftype m)) (macs m)
    (assoc m) ({[n]} ∪ up m) (ifacePhy m) (nft m) (ruleset m).
Definition NewSimulatedKernel (existingIfaces : list string) : Mach := foldl add_existing empty_machine existingIfaces.

(** [None] is the panic of an unknown kind. *)
Definition Preload (kind a b : string) (m : Mach) : option Mach :=
  if kind =? "addr" then Some (set_addrs ({[(a, b)]} ∪ addrs m) m)
  else if kind =? "route" then Some (set_routes ({[(a, b)]} ∪ routes m) m)
  else if kind =? "rule" then Some (set_rules (rules m ++ [MkSimRule a b])%list m)
  else if kind =? "sysctl" then Some (set_knobs (<[a := b]> (sim_sysctl m)) m)
  else if kind =? "iface" then Some (add_existing m a)
  else if kind =? "mac" then
    Some (MkMach (addrs m) (routes m) (rules m) (sim_sysctl m) (ifaces m) (unmanaged m) (iftype m) (<[a := b]> (macs m)) (assoc m) (up m) (ifacePhy m) (nft m) (ruleset m))
  else if kind =? "assoc" then
    Some (MkMach (addrs m) (routes m) (rules m) (sim_sysctl m) (ifaces m) (unmanaged m) (iftype m) (macs m) (<[a := b]> (assoc m)) (up m) (ifacePhy m) (nft m) (ruleset m))
  else if kind =? "ifacephy" then
    Some (MkMach (addrs m) (routes m) (rules m) (sim_sysctl m) (ifaces m) (unmanaged m) (iftype m) (macs m) (assoc m) (up m) (<[a := b]> (ifacePhy m)) (nft m) (ruleset m))
  else None.

(** sort.Strings: by bytes. *)
Definition sort_strings (l : list string) : list string := merge_sort (λ a b, Is_true (String.leb a b)) l.

Definition Snapshot (m : Mach) : list string :=
  sort_strings
    (((λ '(dev, p), ("addr " ++ dev ++ " " ++ p)%string) <$> elements (addrs m)) ++
     ((λ '(table, p), ("route " ++ table ++ " " ++ p)%string) <$> elements (routes m)) ++
     ((λ r, ("rule " ++ priority r ++ " " ++ selector r)%string) <$> rules m) ++
     ((λ '(kn, v), ("sysctl " ++ kn ++ "=" ++ v)%string) <$> map_to_list (sim_sysctl m)) ++
     ((λ n, ("iface " ++ n)%string) <$> elements (ifaces m)) ++
     ((λ n, ("unmanaged " ++ n)%string) <$> elements (unmanaged m)) ++
     ((λ '(n, t), ("iftype " ++ n ++ "=" ++ t)%string) <$> map_to_list (iftype m)))%list.

Definition Rules (m : Mach) : list string := (λ r, priority r ++ ": " ++ selector r) <$> rules m.
Definition Commands {R} (k : SimulatedKernel R) : list Command := sim_cmds k.
Definition Lines {R} (k : SimulatedKernel R) : list string := CommandLine <$> sim_cmds k.

(** ** Answers *)

Definition simExists : string := "RTNETLINK answers: File exists".
Definition simNoEntry : string := "RTNETLINK answers: No such file or directory".
Definition simNoDev : string := "Cannot find device".
Definition simIwExists : string := "command failed: Invalid exchange (-52)".
Definition simIwNoDev : string := "command failed: No such device (-19)".

Abbreviation answer := (Result * error)%type.
Definition simFail (msg : string) : answer := (MkResult "" msg 2, Some msg).
Definition sim_out (out : string) : answer := (MkResult out "" 0, None).
Definition sim_ok : answer := sim_out "".

(** What a part of the kernel does with a command: answer it, leave it to the
    scenario's reads, or stop with an index out of range. *)
Inductive outcome := Did (a : answer) (m : Mach) | Defer | Panicked.

(** argAfter *)
Fixpoint argAfter (args : list string) (key : string) : string :=
  match args with
  | a :: ((b :: _) as rest) => if a =? key then b else argAfter rest key
  | _ => ""
  end.

Definition arg (i : nat) (a : list string) : string := default "" (a !! i).
Definition at_least (n : nat) (a : list string) : bool := (n <=? List.length a)%nat.

Definition runNft (c : Command) (m : Mach) : outcome :=
  if at_least 2 (Args c) && (arg 0 (Args c) =? "list") then
    if ruleset m =? "" then
      let msg := "Error: No such file or directory" in Did (MkResult "" msg 1, Some msg) m
    else Did (sim_out (ruleset m)) m
  else
    Did sim_ok (MkMach (addrs m) (routes m) (rules m) (sim_sysctl m) (ifaces m) (unmanaged m) (iftype m) (macs m) (assoc m) (up m)
      (ifacePhy m) (nft m + 1) (if Contains (Stdin c) "firewall teardown" then "" else Stdin c)).

Definition runSysctl (a : list string) (m : Mach) : outcome :=
  if at_least 2 a && (arg 0 a =? "-w") then
    match Cut (arg 1 a) "=" with
    | None => Did (simFail "sysctl: malformed setting") m
    | Some (key, val) => Did sim_ok (set_knobs (<[key := val]> (sim_sysctl m)) m)
    end
  else
    let b := Join (omap (λ a, if HasPrefix a "-" then None
                              else (λ v, a ++ " = " ++ v ++ nl) <$> sim_sysctl m !! a) a) "" in
    if b =? "" then Defer else Did (sim_out b) m.

Definition runNmcli (a : list string) (m : Mach) : outcome :=
  let n := List.length a in
  if at_least 5 a && (arg 0 a =? "device") && (arg 1 a =? "set") && (arg 3 a =? "managed") then
    let name := arg 2 a in
    if negb (bool_decide (name ∈ ifaces m)) then Did (simFail ("Error: Device '" ++ name ++ "' not found.")) m
    else Did sim_ok (set_unmanaged (if arg 4 a =? "no" then {[name]} ∪ unmanaged m else unmanaged m ∖ {[name]}) m)
  else if at_least 2 a && (arg (n - 2) a =? "device") && (arg (n - 1) a =? "status") then
    Did (sim_out (Join ((λ n, n ++ ":" ++ (if bool_decide (n ∈ unmanaged m) then "unmanaged" else "connected") ++ nl)
                          <$> sort_strings (elements (ifaces m))) "")) m
  else Did sim_ok m.

Section Kernel.
Context (walk : gmap string string → list (string * string)) (cf : Conf).

(** The address a created interface takes: of the first other interface of the
    radio that has one. *)
Definition inherited (m : Mach) (name phy : string) (phys : gmap string string) : gmap string string :=
  if InheritsParentMAC cf then
    match List.find (λ '(other, ph), negb (other =? name) && (ph =? phy) && negb (default "" (macs m !! other) =? "")) (walk phys) with
    | Some (other, _) => <[name := default "" (macs m !! other)]> (macs m)
    | None => macs m
    end
  else macs m.

Definition runIw (a : list string) (m : Mach) : outcome :=
  if (List.length a =? 3)%nat && (arg 0 a =? "dev") && (arg 2 a =? "link") then
    let name := arg 1 a in
    if negb (bool_decide (name ∈ ifaces m)) then Did (simFail simIwNoDev) m
    else
      let ssid := default "" (assoc m !! name) in
      if ssid =? "" then Did (sim_out ("Not connected." ++ nl)) m
      else Did (sim_out ("Connected to 12:34:56:78:9a:bc (on " ++ name ++ ")" ++ nl ++ "	SSID: " ++ ssid ++ nl ++
                         "	freq: 2457" ++ nl)) m
  else if at_least 5 a && (arg 0 a =? "dev") && (arg 2 a =? "set") && (arg 3 a =? "type") then
    let name := arg 1 a in
    if negb (RefuseSetType cf =? "") then Did (simFail (RefuseSetType cf)) m
    else if negb (bool_decide (name ∈ ifaces m)) then Did (simFail simIwNoDev) m
    else Did sim_ok (set_iftype (<[name := arg 4 a]> (iftype m)) m)
  else if at_least 5 a && (arg 0 a =? "phy") && (arg 2 a =? "interface") && (arg 3 a =? "add") then
    let name := arg 4 a in
    if negb (RefuseIfaceAdd cf =? "") then Did (simFail (RefuseIfaceAdd cf)) m
    else if bool_decide (name ∈ ifaces m) then Did (simFail simIwExists) m
    else match a !! 6%nat with
         | None => Panicked
         | Some t =>
             let phys := <[name := arg 1 a]> (ifacePhy m) in
             Did sim_ok (MkMach (addrs m) (routes m) (rules m) (sim_sysctl m) ({[name]} ∪ ifaces m) (unmanaged m)
               (<[name := t]> (iftype m)) (inherited m name (arg 1 a) phys) (assoc m) (up m) phys (nft m) (ruleset m))
         end
  else if at_least 3 a && (arg 0 a =? "dev") && (arg 2 a =? "del") then
    let name := arg 1 a in
    if negb (bool_decide (name ∈ ifaces m)) then Did (simFail simIwNoDev) m
    else Did sim_ok (MkMach (addrs m) (routes m) (rules m) (sim_sysctl m) (ifaces m ∖ {[name]}) (unmanaged m ∖ {[name]})
           (delete name (iftype m)) (delete name (macs m)) (delete name (assoc m)) (up m ∖ {[name]}) (delete name (ifacePhy m))
           (nft m) (ruleset m))
  else Defer.

Definition runLinkUp (name : string) (m : Mach) : outcome :=
  if negb (bool_decide (name ∈ ifaces m)) then Did (simFail simNoDev) m
  else
    let mac := default "" (macs m !! name) in
    if negb (mac =? "") &&
       existsb (λ '(other, x), negb (other =? name) && (x =? mac) && bool_decide (other ∈ up m)) (map_to_list (macs m))
    then Did (simFail "RTNETLINK answers: Name not unique on network") m
    else
      let phy := default "" (ifacePhy m !! name) in
      if negb (RefuseLinkUp cf =? "") && negb (phy =? "") &&
         existsb (λ '(other, ph), negb (other =? name) && (ph =? phy) && bool_decide (other ∈ up m)) (map_to_list (ifacePhy m))
      then Did (simFail (RefuseLinkUp cf)) m
      else Did sim_ok (set_up ({[name]} ∪ up m) m).

Definition quote_byte : string := String "034" "".
Definition runLinkShowDev (name : string) (m : Mach) : outcome :=
  if negb (bool_decide (name ∈ ifaces m)) then
    let msg := "Device " ++ quote_byte ++ name ++ quote_byte ++ " does not exist." in Did (MkResult "" msg 1, Some msg) m
  else Did (sim_out (name ++ "  DOWN  <BROADCAST,MULTICAST>" ++ nl)) m.

Definition runIPAddr (a : list string) (m : Mach) : outcome :=
  if negb (at_least 4 a) then Did sim_ok m
  else
    let verb := arg 1 a in
    let prefix := arg 2 a in
    let dev := argAfter a "dev" in
    if (dev =? "") || negb (bool_decide (dev ∈ ifaces m)) then Did (simFail simNoDev) m
    else if verb =? "add" then
      if bool_decide ((dev, prefix) ∈ addrs m) then Did (simFail simExists) m
      else Did sim_ok (set_addrs ({[(dev, prefix)]} ∪ addrs m) m)
    else if verb =? "del" then
      if negb (bool_decide ((dev, prefix) ∈ addrs m)) then Did (simFail simNoEntry) m
      else Did sim_ok (set_addrs (addrs m ∖ {[(dev, prefix)]}) m)
    else Did sim_ok m.

Definition runIPRoute (family : string) (a : list string) (m : Mach) : outcome :=
  if negb (at_least 3 a) then Did sim_ok m
  else
    let verb := arg 1 a in
    let prefix := family ++ arg 2 a in
    let table := argAfter a "table" in
    let table := if table =? "" then "main" else table in
    if verb =? "add" then
      if bool_decide ((table, prefix) ∈ routes m) then Did (simFail simExists) m
      else Did sim_ok (set_routes ({[(table, prefix)]} ∪ routes m) m)
    else if verb =? "del" then
      if negb (bool_decide ((table, prefix) ∈ routes m)) then Did (simFail simNoEntry) m
      else Did sim_ok (set_routes (routes m ∖ {[(table, prefix)]}) m)
    else Did sim_ok m.

(** The loop of nextFreePriority; [fuel] is one more than the rules. *)
Fixpoint free_from (rs : list simRule) (fuel : nat) (p : Z) : Z :=
  match fuel with
  | O => p
  | S fuel => if existsb (λ r, priority r =? Itoa p) rs then free_from rs fuel (p - 1) else p
  end.
Definition nextFreePriority (m : Mach) : string := Itoa (free_from (rules m) (S (List.length (rules m))) 32765).

(** Everything but the priority and its value. *)
Fixpoint selector_of (a : list string) : list string :=
  match a with
  | [] => []
  | x :: a => if x =? "priority" then match a with [] => [] | _ :: a => selector_of a end else x :: selector_of a
  end.

Fixpoint remove_first (r : simRule) (l : list simRule) : option (list simRule) :=
  match l with
  | [] => None
  | x :: l => if bool_decide (x = r) then Some l else (cons x) <$> remove_first r l
  end.

Definition runIPRule (a : list string) (m : Mach) : outcome :=
  if negb (at_least 2 a) then Did sim_ok m
  else
    let verb := arg 1 a in
    let prio := argAfter a "priority" in
    let sel := Join (selector_of (drop 2 a)) " " in
    if verb =? "add" then
      if prio =? "" then Did sim_ok (set_rules (rules m ++ [MkSimRule (nextFreePriority m) sel])%list m)
      else if bool_decide (MkSimRule prio sel ∈ rules m) then Did (simFail simExists) m
      else Did sim_ok (set_rules (rules m ++ [MkSimRule prio sel])%list m)
    else if verb =? "del" then
      match remove_first (MkSimRule prio sel) (rules m) with
      | None => Did (simFail simNoEntry) m
      | Some l => Did sim_ok (set_rules l m)
      end
    else if (verb =? "show") || (verb =? "list") then
      Did (sim_out (Join ((λ r, priority r ++ ":	" ++ selector r ++ nl) <$> rules m) "")) m
    else Did sim_ok m.

(** The flags before the object, and whether one of them is -6. *)
Fixpoint strip_flags (a : list string) (family : string) : string * list string :=
  match a with
  | x :: a' => if HasPrefix x "-" then strip_flags a' (if x =? "-6" then "v6:" else family) else (family, a)
  | [] => (family, [])
  end.

Definition runIP (args : list string) (m : Mach) : outcome :=
  let '(family, a) := strip_flags args "" in
  match a with
  | [] => Did sim_ok m
  | obj :: _ =>
      let isRead := negb (at_least 2 a) || (arg 1 a =? "show") || (arg 1 a =? "list") in
      if obj =? "link" then
        if at_least 4 a && isRead && (arg 2 a =? "dev") then runLinkShowDev (arg 3 a) m
        else if isRead then Defer
        else if at_least 5 a && (arg 1 a =? "set") && (arg 2 a =? "dev") && (arg (List.length a - 1) a =? "up")
        then runLinkUp (arg 3 a) m
        else Did sim_ok m
      else if (obj =? "address") || (obj =? "addr") then if isRead then Defer else runIPAddr a m
      else if obj =? "route" then if isRead then Defer else runIPRoute family a m
      else if obj =? "rule" then runIPRule a m
      else Defer
  end.

(** Run after the command was validated and recorded. *)
Definition dispatch (c : Command) (m : Mach) : outcome :=
  if Path c =? BinNft then runNft c m
  else if Path c =? BinSysctl then runSysctl (Args c) m
  else if Path c =? BinNmcli then runNmcli (Args c) m
  else if Path c =? BinIw then runIw (Args c) m
  else if Path c =? BinIP then runIP (Args c) m
  else Did (MkResult "" "" 0, Some ("netcfg: SimulatedKernel does not model " ++ Quote (Path c))) m.
End Kernel.

Section Running.
Context {R : Type} `{Runner R} (walk : gmap string string → list (string * string)).

(** SimulatedKernel.Run; [None] is a panic. *)
Definition sim_run (c : Command) (k : SimulatedKernel R) : option (answer * SimulatedKernel R) :=
  match ValidateCommand c with
  | Err e => Some ((MkResult "" "" 0, Some (command_error_text e)), k)
  | Ok _ =>
      let logged := (sim_cmds k ++ [c])%list in
      match dispatch walk (conf k) c (mach k) with
      | Did a m => Some (a, MkSim m logged (Reads k) (conf k))
      | Panicked => None
      | Defer =>
          match Reads k with
          | None => Some (sim_ok, MkSim (mach k) logged None (conf k))
          | Some rd => let '(a, rd) := Run c rd in Some (a, MkSim (mach k) logged (Some rd) (conf k))
          end
      end
  end.

(** One command after another, while they succeed. *)
Fixpoint run_all (cs : list Command) (k : SimulatedKernel R) : option (SimulatedKernel R) :=
  match cs with
  | [] => Some k
  | c :: cs => match sim_run c k with Some ((_, None), k) => run_all cs k | _ => None end
  end.
End Running.

(** ** What commands do

    The commands of a Linux plan as operations on the machine; [None] is a
    refusal, which changes nothing. *)

Inductive op :=
| AddAddr (dev prefix : string)
| DelAddr (dev prefix : string)
| AddRoute (table prefix : string)
| DelRoute (table prefix : string)
| AddRule (r : simRule)
| DelRule (r : simRule)
| SetKnob (key val : string)
| Load (text : string)
| Release (name : string)
| GiveBack (name : string)
| Create (phy name type : string)
| Remove (name : string)
| LinkUp (name : string).

Section Operations.
Context (walk : gmap string string → list (string * string)) (cf : Conf).

Definition when {A} (b : bool) (x : A) : option A := if b then Some x else None.

Definition exec (o : op) (m : Mach) : option Mach :=
  match o with
  | AddAddr d p => when (bool_decide (d ∈ ifaces m) && negb (bool_decide ((d, p) ∈ addrs m))) (set_addrs ({[(d, p)]} ∪ addrs m) m)
  | DelAddr d p => when (bool_decide (d ∈ ifaces m) && bool_decide ((d, p) ∈ addrs m)) (set_addrs (addrs m ∖ {[(d, p)]}) m)
  | AddRoute t p => when (negb (bool_decide ((t, p) ∈ routes m))) (set_routes ({[(t, p)]} ∪ routes m) m)
  | DelRoute t p => when (bool_decide ((t, p) ∈ routes m)) (set_routes (routes m ∖ {[(t, p)]}) m)
  | AddRule r => when (negb (bool_decide (r ∈ rules m))) (set_rules (rules m ++ [r])%list m)
  | DelRule r => (λ l, set_rules l m) <$> remove_first r (rules m)
  | SetKnob key val => Some (set_knobs (<[key := val]> (sim_sysctl m)) m)
  | Load text =>
      Some (MkMach (addrs m) (routes m) (rules m) (sim_sysctl m) (ifaces m) (unmanaged m) (iftype m) (macs m) (assoc m) (up m)
        (ifacePhy m) (nft m + 1) (if Contains text "firewall teardown" then "" else text))
  | Release n => when (bool_decide (n ∈ ifaces m)) (set_unmanaged ({[n]} ∪ unmanaged m) m)
  | GiveBack n => when (bool_decide (n ∈ ifaces m)) (set_unmanaged (unmanaged m ∖ {[n]}) m)
  | Create phy n t => match runIw walk cf ["phy"; phy; "interface"; "add"; n; "type"; t] m with Did (_, None) m => Some m | _ => None end
  | Remove n => match runIw walk cf ["dev"; n; "del"] m with Did (_, None) m => Some m | _ => None end
  | LinkUp n => match runLinkUp cf n m with Did (_, None) m => Some m | _ => None end
  end.

Fixpoint exec_all (os : list op) (m : Mach) : option Mach :=
  match os with [] => Some m | o :: os => (m ← exec o m; exec_all os m) end.

Lemma exec_all_app a b m : exec_all (a ++ b)%list m = (m' ← exec_all a m; exec_all b m').
Proof.
  revert m. induction a as [|o a IH]; intros m; [done|]. simpl. destruct (exec o m); [|done]. simpl. apply IH.
Qed.

(** Nothing is kept of an interface that is not there. *)
Definition tidy (m : Mach) : Prop := ∀ n, n ∉ ifaces m →
  (n ∉ unmanaged m) ∧ iftype m !! n = None ∧ macs m !! n = None ∧ assoc m !! n = None ∧ ifacePhy m !! n = None.

(** Two machines that agree but for which interfaces are up, the firewall, and
    the management of the interfaces of [D]. *)
Record alike (D : gset string) (m1 m2 : Mach) : Prop := {
  al_addrs : addrs m1 = addrs m2;
  al_routes : routes m1 = routes m2;
  al_rules : rules m1 = rules m2;
  al_sysctl : sim_sysctl m1 = sim_sysctl m2;
  al_ifaces : ifaces m1 = ifaces m2;
  al_iftype : iftype m1 = iftype m2;
  al_macs : macs m1 = macs m2;
  al_assoc : assoc m1 = assoc m2;
  al_phy : ifacePhy m1 = ifacePhy m2;
  al_unmanaged : unmanaged m1 ∖ D = unmanaged m2 ∖ D
}.

#[global] Instance alike_equiv D : Equivalence (alike D).
Proof.
  split; [by split|intros ? ? []; by split|intros ? ? ? [] []; split; congruence].
Qed.

Lemma alike_snapshot m1 m2 : alike ∅ m1 m2 → Snapshot m1 = Snapshot m2.
Proof.
  intros [Ha Hr Hru Hs Hi Hit _ _ _ Hu]. rewrite !difference_empty_L in Hu. unfold Snapshot. congruence.
Qed.

(** A sequence of steps, each an operation and perhaps its inverse, that can be
    undone: [D] are the interfaces created before it, [T] those whose management
    was changed, [S] the knobs that were written. *)
Section Undoing.
Context (m0 : Mach).

Inductive undoable : gset string → gset string → gset string → list (op * option op) → Prop :=
| U_nil D T S : undoable D T S []
| U_addr D T S d p l : undoable D T S l → undoable D T S ((AddAddr d p, Some (DelAddr d p)) :: l)
| U_station D T S d p l : undoable D T S l → undoable D T S ((DelAddr d p, Some (AddAddr d p)) :: l)
| U_route D T S t p l : undoable D T S l → undoable D T S ((AddRoute t p, Some (DelRoute t p)) :: l)
| U_rule D T S r l : undoable D T S l → undoable D T S ((AddRule r, Some (DelRule r)) :: l)
| U_knob D T S k v w l : k ∉ S → sim_sysctl m0 !! k = Some w → undoable D T ({[k]} ∪ S) l →
    undoable D T S ((SetKnob k v, Some (SetKnob k w)) :: l)
| U_load D T S a b l : undoable D T S l → undoable D T S ((Load a, Some (Load b)) :: l)
| U_release D T S n l : n ∉ T → n ∉ unmanaged m0 → undoable D ({[n]} ∪ T) S l →
    undoable D T S ((Release n, Some (GiveBack n)) :: l)
| U_release_created D T S n l : n ∈ D → undoable D ({[n]} ∪ T) S l → undoable D T S ((Release n, None) :: l)
| U_up D T S n l : undoable D T S l → undoable D T S ((LinkUp n, None) :: l)
| U_create D T S phy n t l : undoable ({[n]} ∪ D) ({[n]} ∪ T) S l →
    undoable D T S ((Create phy n t, Some (Remove n)) :: l).

Definition undos (l : list (op * option op)) : list op := rev (omap snd l).

(** What is still as it was. *)
Definition untouched (T S : gset string) (m : Mach) : Prop :=
  (∀ k, k ∉ S → sim_sysctl m !! k = sim_sysctl m0 !! k) ∧ (∀ n, n ∉ T → n ∈ unmanaged m → n ∈ unmanaged m0).

Lemma when_Some {A} b (x y : A) : when b x = Some y ↔ b = true ∧ x = y.
Proof. unfold when. destruct b; naive_solver. Qed.

Lemma create_eq phy n t m : exec (Create phy n t) m =
  when ((RefuseIfaceAdd cf =? "") && negb (bool_decide (n ∈ ifaces m)))
    (MkMach (addrs m) (routes m) (rules m) (sim_sysctl m) ({[n]} ∪ ifaces m) (unmanaged m) (<[n := t]> (iftype m))
       (inherited walk cf m n phy (<[n := phy]> (ifacePhy m))) (assoc m) (up m) (<[n := phy]> (ifacePhy m)) (nft m) (ruleset m)).
Proof. cbn. destruct (RefuseIfaceAdd cf =? ""); cbn; [|done]. by destruct (bool_decide (n ∈ ifaces m)). Qed.

Lemma remove_eq n m : exec (Remove n) m =
  when (bool_decide (n ∈ ifaces m))
    (MkMach (addrs m) (routes m) (rules m) (sim_sysctl m) (ifaces m ∖ {[n]}) (unmanaged m ∖ {[n]}) (delete n (iftype m))
       (delete n (macs m)) (delete n (assoc m)) (up m ∖ {[n]}) (delete n (ifacePhy m)) (nft m) (ruleset m)).
Proof. cbn. by destruct (bool_decide (n ∈ ifaces m)). Qed.

Lemma up_only n m m' : exec (LinkUp n) m = Some m' → n ∈ ifaces m ∧ m' = set_up ({[n]} ∪ up m) m.
Proof.
  cbn. unfold runLinkUp. destruct (bool_decide (n ∈ ifaces m)) eqn:E; cbn; [|done].
  repeat (destruct (_ && _); cbn; [done|]). intros [= <-]. by breflect.
Qed.

(** An inherited address is the new interface's alone. *)
Lemma inherited_other m n phy phys x : x ≠ n → inherited walk cf m n phy phys !! x = macs m !! x.
Proof.
  intros Hx. unfold inherited. destruct (InheritsParentMAC cf); [|done]. destruct (List.find _ _) as [[o ph]|]; [|done].
  by rewrite lookup_insert_ne.
Qed.

Lemma exec_tidy o m m' : exec o m = Some m' → tidy m → tidy m'.
Proof.
  intros He Ht n Hn.
  destruct o; try (cbn in He; rewrite ?when_Some in He; ((injection He as <-) || destruct He as [_ <-]); exact (Ht n Hn)).
  - cbn in He. destruct (remove_first _ _); [|done]. injection He as <-. exact (Ht n Hn).
  - cbn in He. apply when_Some in He as [Hb <-]. breflect. cbn in *. destruct (Ht n Hn) as (? & ? & ? & ? & ?). split_and!; try done. set_solver.
  - cbn in He. apply when_Some in He as [Hb <-]. cbn in *. destruct (Ht n Hn) as (? & ? & ? & ? & ?). split_and!; try done. set_solver.
  - rewrite create_eq in He. apply when_Some in He as [Hb <-]. cbn in *. apply not_elem_of_union in Hn as [Hne Hn].
    apply not_elem_of_singleton in Hne. destruct (Ht n Hn) as (? & ? & ? & ? & ?). rewrite inherited_other, !lookup_insert_ne by done. done.
  - rewrite remove_eq in He. apply when_Some in He as [Hb <-]. cbn in *. destruct (decide (n = name)) as [->|Hne].
    + rewrite !lookup_delete_eq. split_and!; try done. set_solver.
    + destruct (Ht n ltac:(set_solver)) as (? & ? & ? & ? & ?). rewrite !lookup_delete_ne by done. split_and!; try done. set_solver.
  - apply up_only in He as [_ ->]. exact (Ht n Hn).
Qed.

(** Undoing one operation on a machine like the one it left. *)
Lemma insert_inverse {A} `{Countable A} (x : A) (s : gset A) : x ∉ s → ({[x]} ∪ s) ∖ {[x]} = s.
Proof. set_solver. Qed.
Lemma delete_inverse {A} `{Countable A} (x : A) (s : gset A) : x ∈ s → {[x]} ∪ s ∖ {[x]} = s.
Proof. intros Hx. apply set_eq. intros y. rewrite elem_of_union, elem_of_difference, elem_of_singleton. destruct (decide (y = x)); naive_solver. Qed.

Lemma remove_last r l : r ∉ l → remove_first r (l ++ [r])%list = Some l.
Proof.
  induction l as [|x l IH]; intros Hn; simpl; [by rewrite bool_decide_true|].
  rewrite bool_decide_false by set_solver. rewrite IH by set_solver. done.
Qed.

Lemma delete_new {A} (n : string) (x : A) (m : gmap string A) : m !! n = None → delete n (<[n := x]> m) = m.
Proof. intros Hn. by rewrite delete_insert_eq, delete_id. Qed.

(** [u] undoes on any machine like the one [o] left. *)
Definition inverse_at (D D' : gset string) (o u : op) (m : Mach) : Prop :=
  ∀ m1 m3, exec o m = Some m1 → alike D' m3 m1 → ∃ m4, exec u m3 = Some m4 ∧ alike D m4 m.

(** Reads the fields of a machine off the one it is like. *)
Ltac like m Hal := destruct m, Hal; cbn -[exec] in *; subst.
Ltac ran He := cbn in He; apply when_Some in He as [?Hb <-]; breflect.
(** The guards of the inverse hold; what it leaves is like the machine before. *)
Ltac undone := eexists; split; [cbn; rewrite ?bool_decide_true, ?bool_decide_false by set_solver; reflexivity|split; cbn; try done].

Lemma addr_inverse D d p m : inverse_at D D (AddAddr d p) (DelAddr d p) m.
Proof. intros m1 m3 He Hal. ran He. like m3 Hal. undone. by apply insert_inverse. Qed.
Lemma station_inverse D d p m : inverse_at D D (DelAddr d p) (AddAddr d p) m.
Proof. intros m1 m3 He Hal. ran He. like m3 Hal. undone. by apply delete_inverse. Qed.
Lemma route_inverse D t p m : inverse_at D D (AddRoute t p) (DelRoute t p) m.
Proof. intros m1 m3 He Hal. ran He. like m3 Hal. undone. by apply insert_inverse. Qed.
Lemma rule_inverse D r m : inverse_at D D (AddRule r) (DelRule r) m.
Proof. intros m1 m3 He Hal. ran He. like m3 Hal. eexists. split; [cbn; by rewrite remove_last|by split]. Qed.
Lemma knob_inverse D k v w m : sim_sysctl m !! k = Some w → inverse_at D D (SetKnob k v) (SetKnob k w) m.
Proof.
  intros Hw m1 m3 He Hal. injection He as <-. like m3 Hal. eexists. split; [done|split; cbn; try done].
  by rewrite insert_insert_eq, insert_id.
Qed.
Lemma load_inverse D a b m : inverse_at D D (Load a) (Load b) m.
Proof. intros m1 m3 He Hal. injection He as <-. like m3 Hal. eexists. split; [done|by split]. Qed.
Lemma release_inverse D n m : n ∉ unmanaged m → inverse_at D D (Release n) (GiveBack n) m.
Proof. intros Hn m1 m3 He Hal. ran He. like m3 Hal. undone. set_solver. Qed.

Lemma create_inverse D phy n t m : tidy m → inverse_at D ({[n]} ∪ D) (Create phy n t) (Remove n) m.
Proof.
  intros Ht m1 m3 He Hal. rewrite create_eq in He. apply when_Some in He as [Hb <-]. breflect.
  destruct (Ht n ltac:(done)) as (H1 & H2 & H3 & H4 & H5). like m3 Hal. eexists.
  split; [rewrite remove_eq; cbn; rewrite bool_decide_true by set_solver; reflexivity|]. split; cbn; try done.
  - by apply insert_inverse.
  - by apply delete_new.
  - apply map_eq. intros x. destruct (decide (x = n)) as [->|Hx]; [by rewrite lookup_delete_eq|].
    by rewrite lookup_delete_ne, inherited_other by done.
  - by apply delete_id.
  - by apply delete_new.
  - set_solver.
Qed.

(** Operations without an inverse leave a machine like the one before. *)
Lemma up_alike D n m m1 : exec (LinkUp n) m = Some m1 → alike D m1 m.
Proof. intros [_ ->]%up_only. by split. Qed.
Lemma release_alike D n m m1 : n ∈ D → exec (Release n) m = Some m1 → alike D m1 m.
Proof. intros Hn He. ran He. split; cbn; try done. set_solver. Qed.

(** What an operation leaves untouched. *)
Definition touched_knobs (o : op) : gset string := match o with SetKnob k _ => {[k]} | _ => ∅ end.
Definition touched_names (o : op) : gset string := match o with Release n | GiveBack n | Remove n => {[n]} | _ => ∅ end.
Lemma exec_untouched T S o m m' : exec o m = Some m' → untouched T S m →
  untouched (touched_names o ∪ T) (touched_knobs o ∪ S) m'.
Proof.
  intros He [Hk Hu].
  destruct o; cbn [touched_names touched_knobs]; rewrite ?union_empty_l_L;
    try (cbn in He; rewrite ?when_Some in He; ((injection He as <-) || destruct He as [_ <-]); by split).
  - cbn in He. destruct (remove_first _ _); [|done]. injection He as <-. by split.
  - injection He as <-. split; cbn; [|done]. intros k Hn. rewrite lookup_insert_ne by set_solver. apply Hk. set_solver.
  - ran He. split; cbn; [done|]. set_solver.
  - ran He. split; cbn; [done|]. set_solver.
  - rewrite create_eq in He. apply when_Some in He as [_ <-]. by split.
  - rewrite remove_eq in He. apply when_Some in He as [_ <-]. split; cbn; [done|]. set_solver.
  - apply up_only in He as [_ ->]. by split.
Qed.

Lemma untouched_mono T S T' S' m : T ⊆ T' → S ⊆ S' → untouched T S m → untouched T' S' m.
Proof. intros HT HS [Hk Hu]. split; [intros k Hn; apply Hk; set_solver|intros n Hn; apply Hu; set_solver]. Qed.

Lemma undos_cons o u l : undos ((o, u) :: l) = (undos l ++ match u with Some u => [u] | None => [] end)%list.
Proof. unfold undos. cbn. destruct u; cbn; [done|by rewrite app_nil_r]. Qed.

Lemma undo_step D T S o u l m mn m2 D' T' S' :
  inverse_at D D' o u m →
  (∀ m1 mn, untouched T' S' m1 → tidy m1 → exec_all (fst <$> l) m1 = Some mn → ∀ m2, alike D' m2 mn →
     ∃ m3, exec_all (undos l) m2 = Some m3 ∧ alike D' m3 m1) →
  touched_names o ∪ T ⊆ T' → touched_knobs o ∪ S ⊆ S' →
  untouched T S m → tidy m → exec_all (o :: (fst <$> l)) m = Some mn → alike D' m2 mn →
  ∃ m3, exec_all (undos ((o, Some u) :: l)) m2 = Some m3 ∧ alike D m3 m.
Proof.
  intros Hinv IH HT HS Hun Htd He Hal. cbn [exec_all] in He. destruct (exec o m) as [m1|] eqn:E; [|done]. cbn [mbind option_bind] in He.
  destruct (IH m1 mn (untouched_mono _ _ _ _ _ HT HS (exec_untouched _ _ _ _ _ E Hun)) (exec_tidy _ _ _ E Htd) He m2 Hal) as (m3 & E3 & Hal3).
  destruct (Hinv m1 m3 E Hal3) as (m4 & E4 & Hal4). exists m4. split; [|done].
  rewrite undos_cons, exec_all_app, E3. cbn [mbind option_bind exec_all]. by rewrite E4.
Qed.

(** Steps that all succeeded are undone by their inverses, newest first: each
    succeeds, and the machine is like the one before. *)
Lemma undo_all D T S l : undoable D T S l → ∀ m mn, untouched T S m → tidy m → exec_all (fst <$> l) m = Some mn →
  ∀ m2, alike D m2 mn → ∃ m3, exec_all (undos l) m2 = Some m3 ∧ alike D m3 m.
Proof.
  assert (Hskip : ∀ D o l m m1 m2, (∃ m3, exec_all (undos l) m2 = Some m3 ∧ alike D m3 m1) → alike D m1 m →
    ∃ m3, exec_all (undos ((o, None) :: l)) m2 = Some m3 ∧ alike D m3 m).
  { intros D' o l' m m1 m2 (m3 & E & Hal) Hm. exists m3. rewrite undos_cons, app_nil_r. split; [done|by etrans]. }
  induction 1; intros m mn Hun Htd He m2 Hal.
  - injection He as <-. by exists m2.
  - eapply (undo_step D T S); [apply addr_inverse|exact IHundoable|set_solver..|exact Hun|exact Htd|exact He|exact Hal].
  - eapply (undo_step D T S); [apply station_inverse|exact IHundoable|set_solver..|exact Hun|exact Htd|exact He|exact Hal].
  - eapply (undo_step D T S); [apply route_inverse|exact IHundoable|set_solver..|exact Hun|exact Htd|exact He|exact Hal].
  - eapply (undo_step D T S); [apply rule_inverse|exact IHundoable|set_solver..|exact Hun|exact Htd|exact He|exact Hal].
  - eapply (undo_step D T S); [apply knob_inverse; rewrite (proj1 Hun); done|exact IHundoable|set_solver..|exact Hun|exact Htd|exact He|exact Hal].
  - eapply (undo_step D T S); [apply load_inverse|exact IHundoable|set_solver..|exact Hun|exact Htd|exact He|exact Hal].
  - eapply (undo_step D T S); [apply release_inverse; intros Hin; by apply (proj2 Hun) in Hin|exact IHundoable|set_solver..|exact Hun|exact Htd|exact He|exact Hal].
  - change ((m1 ← exec (Release n) m; exec_all (fst <$> l) m1) = Some mn) in He. destruct (exec (Release n) m) as [m1|] eqn:E; [|done]. cbn [mbind option_bind] in He.
    apply (Hskip D _ _ _ m1); [|by eapply release_alike]. eapply IHundoable; [|by eapply exec_tidy|exact He|exact Hal].
    eapply untouched_mono; [..|by eapply exec_untouched]; set_solver.
  - change ((m1 ← exec (LinkUp n) m; exec_all (fst <$> l) m1) = Some mn) in He. destruct (exec (LinkUp n) m) as [m1|] eqn:E; [|done]. cbn [mbind option_bind] in He.
    apply (Hskip D _ _ _ m1); [|by eapply up_alike]. eapply IHundoable; [|by eapply exec_tidy|exact He|exact Hal].
    eapply untouched_mono; [..|by eapply exec_untouched]; set_solver.
  - eapply (undo_step D T S _ _ _ m mn m2 ({[n]} ∪ D) ({[n]} ∪ T) S); [by apply create_inverse|exact IHundoable|set_solver..|exact Hun|exact Htd|exact He|].
    destruct Hal as [? ? ? ? ? ? ? ? ? Hu]. split; try done. set_solver.
Qed.

Lemma undoable_app D T S a b : undoable D T S a → (∀ D' T' S', D ⊆ D' → undoable D' T' S' b) → undoable D T S (a ++ b)%list.
Proof.
  induction 1; intros Hb; cbn [app]; [by apply Hb|..];
    (constructor; try done; apply IHundoable; intros D' T' S' HD; apply Hb; set_solver).
Qed.
End Undoing.
End Operations.

(** ** The commands of a plan as operations *)

(** The words [ip] reads as keywords; no name, address or number of a plan is one. *)
Definition keywords : list string := [""; "dev"; "table"; "priority"].
Definition word (w : string) : bool := negb (existsb (String.eqb w) keywords).

Lemma word_spec w : word w = true → (w =? "") = false ∧ (w =? "dev") = false ∧ (w =? "table") = false ∧ (w =? "priority") = false.
Proof.
  unfold word. cbn [existsb keywords]. rewrite negb_true_iff, !orb_false_iff. tauto.
Qed.

Section Denotes.
Context (walk : gmap string string → list (string * string)).

(** The command does the operation, or fails and changes nothing where it is refused. *)
Definition does (c : Command) (o : op) : Prop := ∀ cf m,
  match exec walk cf o m with
  | Some m' => ∃ r, dispatch walk cf c m = Did (r, None) m'
  | None => ∃ r e, dispatch walk cf c m = Did (r, Some e) m
  end.

Ltac words := repeat match goal with
  | H : word ?w = true |- _ => let a := fresh in let b := fresh in let c := fresh in let d := fresh in
      destruct (word_spec w H) as (a & b & c & d); clear H
  end.
Ltac rewrite_words := repeat match goal with H : (?w =? ?k) = false |- context [?w =? ?k] => rewrite H end.
Ltac decides := repeat match goal with |- context [bool_decide ?P] => destruct (bool_decide P) end; cbn; eauto.

Lemma does_addr_add d p why : word d = true → word p = true → does (ipCmd why ["address"; "add"; p; "dev"; d]) (AddAddr d p).
Proof. intros Hd Hp cf m. words. cbn. unfold runIPAddr. cbn. rewrite_words. cbn. rewrite_words. decides. Qed.
Lemma does_addr_del d p why : word d = true → word p = true → does (ipCmd why ["address"; "del"; p; "dev"; d]) (DelAddr d p).
Proof. intros Hd Hp cf m. words. cbn. unfold runIPAddr. cbn. rewrite_words. cbn. rewrite_words. decides. Qed.

(** The table a route command names. *)
Definition table_of (rest : list string) : string := if argAfter rest "table" =? "" then "main" else argAfter rest "table".
Lemma argAfter_after rest : match rest with [] => "" | _ :: _ => argAfter rest "table" end = argAfter rest "table".
Proof. by destruct rest. Qed.

Lemma does_route_add family a p rest why : strip_flags a "" = (family, "route" :: "add" :: p :: rest) →
  word p = true → does (ipCmd why a) (AddRoute (table_of rest) (family ++ p)).
Proof.
  intros Ha Hp cf m. words. cbn. unfold runIP. rewrite Ha. cbn. unfold runIPRoute. cbn. rewrite_words.
  rewrite argAfter_after. unfold table_of. decides.
Qed.
Lemma does_route_del family a p rest why : strip_flags a "" = (family, "route" :: "del" :: p :: rest) →
  word p = true → does (ipCmd why a) (DelRoute (table_of rest) (family ++ p)).
Proof.
  intros Ha Hp cf m. words. cbn. unfold runIP. rewrite Ha. cbn. unfold runIPRoute. cbn. rewrite_words.
  rewrite argAfter_after. unfold table_of. decides.
Qed.

(** A rule at an explicit priority. *)
Definition rule_of (what value table prio : string) : simRule := MkSimRule prio (Join [what; value; "lookup"; table] " ").
Lemma does_rule_add what v t prio why : word what = true → word v = true → word t = true → word prio = true →
  does (ipCmd why ["rule"; "add"; what; v; "lookup"; t; "priority"; prio]) (AddRule (rule_of what v t prio)).
Proof.
  intros Hw Hv Ht Hp cf m. words. cbn. unfold runIPRule. cbn. repeat (rewrite_words; cbn). unfold rule_of. cbn. decides.
Qed.
Lemma does_rule_del what v t prio why : word what = true → word v = true → word t = true → word prio = true →
  does (ipCmd why ["rule"; "del"; what; v; "lookup"; t; "priority"; prio]) (DelRule (rule_of what v t prio)).
Proof.
  intros Hw Hv Ht Hp cf m. words. cbn. unfold runIPRule. cbn. repeat (rewrite_words; cbn). unfold rule_of. cbn.
  destruct (remove_first _ _); cbn; eauto.
Qed.

Lemma does_link_up n why : does (ipCmd why ["link"; "set"; "dev"; n; "up"]) (LinkUp n).
Proof.
  intros cf m. cbn. unfold runLinkUp. repeat (match goal with |- context [if ?b then Did _ _ else _] => destruct b end; cbn; eauto).
Qed.
Lemma does_load text why : does (MkCommand BinNft ["-f"; "-"] text why) (Load text).
Proof. intros cf m. cbn. eauto. Qed.
Lemma does_release n why : does (cmd BinNmcli ["device"; "set"; n; "managed"; "no"] why) (Release n).
Proof. intros cf m. cbn. unfold runNmcli. cbn. decides. Qed.
Lemma does_give_back n why : does (cmd BinNmcli ["device"; "set"; n; "managed"; "yes"] why) (GiveBack n).
Proof. intros cf m. cbn. unfold runNmcli. cbn. decides. Qed.
Lemma does_create phy n t why : does (cmd BinIw ["phy"; phy; "interface"; "add"; n; "type"; t] why) (Create phy n t).
Proof. intros cf m. cbn. unfold runIw. cbn. repeat (match goal with |- context [if ?b then Did _ _ else _] => destruct b end; cbn; eauto). Qed.
Lemma does_remove n why : does (cmd BinIw ["dev"; n; "del"] why) (Remove n).
Proof. intros cf m. cbn. unfold runIw. cbn. decides. Qed.

(** A knob of the plan: its name holds no equals sign. *)
Lemma does_set_knob key v why : Cut (key ++ "=" ++ v) "=" = Some (key, v) → does (cmd BinSysctl ["-w"; key ++ "=" ++ v] why) (SetKnob key v).
Proof. intros Hc cf m. cbn. unfold runSysctl. cbn. rewrite Hc. eauto. Qed.
End Denotes.

(** ** A plan's steps *)

Section PlanSteps.
Context (walk : gmap string string → list (string * string)) (m0 : Mach).

(** A step is an operation with its inverse, or one without. *)
Definition means (s : Step) (x : op * option op) : Prop :=
  does walk (Do s) (fst x) ∧
  match snd x with
  | Some u => IsZero (Undo s) = false ∧ does walk (Undo s) u
  | None => IsZero (Undo s) = true
  end.

(** Steps of the first kinds can be undone whatever came before. *)
Definition plain_op (x : op * option op) : Prop :=
  match x with
  | (AddAddr d p, Some (DelAddr d' p')) | (DelAddr d p, Some (AddAddr d' p')) => d' = d ∧ p' = p
  | (AddRoute t p, Some (DelRoute t' p')) => t' = t ∧ p' = p
  | (AddRule r, Some (DelRule r')) => r' = r
  | (Load _, Some (Load _)) | (LinkUp _, None) => True
  | _ => False
  end.

Lemma plain_undoable D T S a b : Forall plain_op a → undoable m0 D T S b → undoable m0 D T S (a ++ b)%list.
Proof.
  intros Ha Hb. induction Ha as [|[o u] a Hx Ha IH]; [done|]. simpl.
  destruct o, u as [[]|]; try done; simpl in Hx; try destruct Hx; subst; by constructor.
Qed.

Definition plain_step (s : Step) : Prop := ∃ x, means s x ∧ plain_op x.
Lemma plain_steps steps : Forall plain_step steps → ∃ l, Forall2 means steps l ∧ Forall plain_op l.
Proof. induction 1 as [|s steps (x & Hm & Hp) _ (l & Fl & Fp)]; [by exists []|]. exists (x :: l). by split; constructor. Qed.

Lemma plain_pair op why do undo o u : does walk do o → does walk undo u → IsZero undo = false → plain_op (o, Some u) →
  plain_step (step op why do undo).
Proof. intros Ho Hu Hz Hp. by exists (o, Some u). Qed.

(** *** Routes *)

Lemma pin_plain p s :
  word (prefix_String (PrefixFrom s (if Is6 s then 128 else 32))) = true →
  word (addr_String (if Is6 s then UplinkV6Gw p else UplinkGateway p)) = true →
  word (if Is6 s then (if UplinkV6Dev p =? "" then Uplink p else UplinkV6Dev p) else Uplink p) = true →
  plain_step (pin_step p s).
Proof.
  intros Hp Hg Hd. unfold pin_step, hostRouteArgs.
  set (pfx := prefix_String _) in *. set (dev := if Is6 s then (if UplinkV6Dev p =? "" then Uplink p else UplinkV6Dev p) else Uplink p) in *.
  set (gwa := if Is6 s then UplinkV6Gw p else UplinkGateway p) in *. set (gw := addr_String gwa) in *.
  set (onlink := if Is6 s then negb (addr_valid gwa) else UplinkOnLink p). set (family := if Is6 s then "v6:" else "").
  assert (Ht : ∀ rest, table_of ((if negb onlink && addr_valid gwa then ["via"; gw] else []) ++
    "dev" :: dev :: rest)%list = table_of rest).
  { intros rest. destruct (word_spec gw Hg) as (_ & _ & G & _), (word_spec dev Hd) as (_ & _ & Dv & _). unfold table_of.
    destruct (_ && _); destruct rest; cbn; by rewrite ?G, ?Dv. }
  eapply (plain_pair _ _ _ _ (AddRoute (table_of ["proto"; "static"; "metric"; Itoa pinnedRouteMetric]) (family ++ pfx))
                             (DelRoute (table_of ["metric"; Itoa pinnedRouteMetric]) (family ++ pfx))).
  - rewrite <- (Ht ["proto"; "static"; "metric"; Itoa pinnedRouteMetric]). apply does_route_add; [|exact Hp].
    subst family. by destruct (Is6 s).
  - rewrite <- (Ht ["metric"; Itoa pinnedRouteMetric]). apply does_route_del; [|exact Hp]. subst family. by destruct (Is6 s).
  - done.
  - done.
Qed.

(** *** Words that are no keywords *)

Lemma word_with c w : c ∈ to_l w → Forall (λ k, c ∉ to_l k) keywords → word w = true.
Proof.
  intros Hc Hk. unfold word. apply negb_true_iff, not_true_iff_false. rewrite existsb_exists. intros (k & Hin & ->%String.eqb_eq).
  rewrite Forall_forall in Hk. by apply (Hk k); [apply list_elem_of_In|].
Qed.

Lemma prefix_word q : word (prefix_String q) = true.
Proof.
  unfold prefix_String. destruct (negb _); [done|]. apply (word_with "/").
  - rewrite !HotspotFacts.to_l_app. set_solver.
  - repeat (apply Forall_cons; split); try apply Forall_nil_2; vm_compute; set_solver.
Qed.

Lemma number_word z : word (Itoa z) = true.
Proof.
  destruct (decide (z < 0)%Z) as [Hz|Hz]; [rewrite JsonFacts.Itoa_neg by done; done|].
  destruct (JsonFacts.Itoa_nonneg z ltac:(lia)) as (d & ds & E & Hd & _ & _).
  apply Forall_cons in Hd as [Hd _]. apply (word_with d); [rewrite E; left|].
  assert (Hk : Forall (λ k, Forall (λ c, Json.is_digit c = false) (to_l k)) keywords) by (repeat constructor).
  eapply Forall_impl; [exact Hk|]. cbn. intros k Hf Hin. rewrite Forall_forall in Hf. specialize (Hf d Hin). congruence.
Qed.

(** *** The groups of steps *)

(** The names in a plan's commands. *)
Definition names_ok (p : Plan) : bool :=
  forallb word [Hotspot (hot p); Tun p; Uplink p; (if UplinkV6Dev p =? "" then Uplink p else UplinkV6Dev p);
                addr_String (UplinkGateway p); addr_String (UplinkV6Gw p)].

Section Groups.
Context (p : Plan) (Hnames : names_ok p = true).

Lemma names : word (Hotspot (hot p)) = true ∧ word (Tun p) = true ∧ word (Uplink p) = true ∧
  word (if UplinkV6Dev p =? "" then Uplink p else UplinkV6Dev p) = true ∧ word (addr_String (UplinkGateway p)) = true ∧
  word (addr_String (UplinkV6Gw p)) = true.
Proof. unfold names_ok in Hnames. cbn [forallb] in Hnames. rewrite !andb_true_iff in Hnames. tauto. Qed.

Lemma servers_plain : Forall plain_step (ServerRouteSteps p).
Proof.
  unfold ServerRouteSteps. apply Forall_fmap, Forall_forall. intros s _. destruct names as (_ & _ & H3 & H4 & H5 & H6).
  apply pin_plain; [apply prefix_word|by destruct (Is6 s)..].
Qed.

Lemma addr_plain op why1 why2 why3 d q : word d = true → word q = true →
  plain_step (step op why1 (ipCmd why2 ["address"; "add"; q; "dev"; d]) (ipCmd why3 ["address"; "del"; q; "dev"; d])).
Proof. intros. eapply plain_pair; [by apply does_addr_add|by apply does_addr_del|done|done]. Qed.

Lemma tunnel_addr_plain : Forall plain_step (TunnelAddrSteps p).
Proof.
  unfold TunnelAddrSteps. destruct (negb _); constructor; [|constructor]. apply addr_plain; [apply names|apply prefix_word].
Qed.

Lemma hotspot_addr_plain : Forall plain_step (HotspotAddrSteps p).
Proof.
  unfold HotspotAddrSteps. destruct (_ || _); [constructor|]. constructor.
  - exists (LinkUp (Hotspot (hot p)), None). split; [|done]. split; [apply does_link_up|done].
  - constructor; [|constructor]. apply addr_plain; [apply names|apply prefix_word].
Qed.

Lemma station_plain : Forall plain_step (station_addr_step (Hotspot (hot p)) <$> HotspotStationPrefixes p).
Proof.
  apply Forall_fmap, Forall_forall. intros q _. eapply plain_pair; [apply does_addr_del|apply does_addr_add|done|done];
    (apply names || apply prefix_word).
Qed.

Lemma route_plain op why1 why2 why3 q rest rest' : word q = true → table_of rest = table_of rest' →
  plain_step (step op why1 (ipCmd why2 ("route" :: "add" :: q :: rest)) (ipCmd why3 ("route" :: "del" :: q :: rest'))).
Proof.
  intros Hq Ht. eapply plain_pair; [by apply (does_route_add walk "" _ q rest)|by apply (does_route_del walk "" _ q rest')|done|].
  cbn. by rewrite Ht.
Qed.

Lemma policy_rule_plain op why1 why2 why3 what v t prio : word what = true → word v = true → word t = true → word prio = true →
  plain_step (step op why1 (ipCmd why2 ["rule"; "add"; what; v; "lookup"; t; "priority"; prio])
                           (ipCmd why3 ["rule"; "del"; what; v; "lookup"; t; "priority"; prio])).
Proof. intros. eapply plain_pair; [by apply does_rule_add|by apply does_rule_del|done|done]. Qed.

Lemma table_rest d rest : word d = true → table_of ("dev" :: d :: rest) = table_of rest.
Proof. intros (_ & _ & E & _)%word_spec. unfold table_of. destruct rest; cbn; by rewrite ?E. Qed.

Lemma tunnel_route_plain : Forall plain_step (TunnelRouteSteps p).
Proof.
  destruct names as (Hh & Ht & _). unfold TunnelRouteSteps. destruct (Strategy (Opts p)).
  - repeat (apply Forall_cons; split); [..|by apply Forall_nil_2];
      [apply route_plain; [apply prefix_word|by rewrite !table_rest]|apply route_plain; [done|by rewrite !table_rest]|..];
      apply policy_rule_plain; first [apply prefix_word|apply number_word|done].
  - repeat (apply Forall_cons; split); [..|by apply Forall_nil_2]; apply route_plain; (done || by rewrite !table_rest).
Qed.
End Groups.
End PlanSteps.

(** ** Running and undoing a plan *)

(** A decidable fact about closed terms. *)
Ltac closed_fact := apply (bool_decide_unpack _); vm_compute; exact I.

Section Whole.
Context {R : Type} `{Runner R} (walk : gmap string string → list (string * string)).

Lemma run_did c o (k k' : SimulatedKernel R) r : does walk c o → sim_run walk c k = Some ((r, None), k') →
  exec walk (conf k) o (mach k) = Some (mach k') ∧ conf k' = conf k.
Proof.
  intros Hd. unfold sim_run. destruct (ValidateCommand c); [|done]. specialize (Hd (conf k) (mach k)).
  destruct (exec _ _ _ _) as [m|].
  - destruct Hd as [r' ->]. by intros [= <- <-].
  - by destruct Hd as (r' & e & ->).
Qed.

Lemma run_does c o (k : SimulatedKernel R) m : does walk c o → ValidateCommand c = Ok tt → exec walk (conf k) o (mach k) = Some m →
  ∃ r k', sim_run walk c k = Some ((r, None), k') ∧ mach k' = m ∧ conf k' = conf k.
Proof.
  intros Hd Hv He. unfold sim_run. rewrite Hv. specialize (Hd (conf k) (mach k)). rewrite He in Hd. destruct Hd as [r ->].
  by eexists _, _.
Qed.

Lemma run_all_exec cs os : Forall2 (does walk) cs os → ∀ (k k' : SimulatedKernel R), run_all walk cs k = Some k' →
  exec_all walk (conf k) os (mach k) = Some (mach k') ∧ conf k' = conf k.
Proof.
  induction 1 as [|c o cs os Hc Hcs IH]; intros k k' Hr; cbn [run_all] in Hr; [by simplify_eq|].
  destruct (sim_run walk c k) as [[[r [e|]] k1]|] eqn:E; [done| |done]. destruct (run_did _ _ _ _ _ Hc E) as [He Hcf].
  destruct (IH _ _ Hr) as [He' Hcf']. cbn [exec_all]. rewrite He. cbn [mbind option_bind]. rewrite <- Hcf. split; [done|congruence].
Qed.

Lemma exec_run_all cs os : Forall2 (does walk) cs os → Forall (λ c, ValidateCommand c = Ok tt) cs → ∀ (k : SimulatedKernel R) m,
  exec_all walk (conf k) os (mach k) = Some m → ∃ k', run_all walk cs k = Some k' ∧ mach k' = m.
Proof.
  induction 1 as [|c o cs os Hc Hcs IH]; intros Hv k m He; [injection He as <-; by exists k|].
  apply Forall_cons in Hv as [Hv Hvs]. cbn [exec_all] in He. destruct (exec walk (conf k) o (mach k)) as [m1|] eqn:E; [|done].
  cbn [mbind option_bind] in He. destruct (run_does _ _ _ _ Hc Hv E) as (r & k1 & E1 & <- & Ecf). rewrite <- Ecf in He.
  destruct (IH Hvs k1 m He) as (k' & Ek & Em). exists k'. split; [|done]. cbn [run_all]. by rewrite E1.
Qed.

(** The inverses, newest first; a step without one is passed over. *)
Definition inverses (steps : list Step) : list Command :=
  rev (omap (λ s, if IsZero (Undo s) then None else Some (Undo s)) steps).

Lemma means_does steps l : Forall2 (means walk) steps l →
  Forall2 (does walk) (Do <$> steps) (fst <$> l) ∧ Forall2 (does walk) (inverses steps) (undos l).
Proof.
  intros Hm. split.
  - induction Hm as [|s x steps l [Hd _] _ IH]; [constructor|]. by constructor.
  - unfold inverses, undos. rewrite !rev_alt. apply Forall2_reverse. induction Hm as [|s [o u] steps l [_ Hu] _ IH]; [constructor|]. cbn in *. destruct u as [u|].
    + destruct Hu as [-> Hu]. by constructor.
    + by rewrite Hu.
Qed.

(** *** The steps of a plan can be undone *)

Lemma Cut_at key v : "="%char ∉ to_l key → Cut (key ++ "=" ++ v) "=" = Some (key, v).
Proof.
  intros Hk. unfold Cut, IndexByte, substr_to, substr_from. rewrite HotspotFacts.to_l_app, HotspotFacts.to_l_app. cbn [to_l app].
  change (to_l "=") with ["="%char]. cbn [app]. rewrite HotspotFacts.index_byte_skip by done. f_equal. f_equal.
  - rewrite take_app_length. apply String.string_of_list_ascii_of_string.
  - rewrite drop_app_ge by lia. replace (S (List.length (to_l key)) - List.length (to_l key))%nat with 1%nat by lia. cbn.
    rewrite drop_0. apply String.string_of_list_ascii_of_string.
Qed.

Lemma knob_means key v w cur why : "="%char ∉ to_l key → cur !! key = Some w →
  means walk (sysctlStep key v cur why) (SetKnob key v, Some (SetKnob key w)).
Proof.
  intros Hk Hc. unfold sysctlStep. rewrite Hc. split; [by apply does_set_knob, Cut_at|]. split; [done|by apply does_set_knob, Cut_at].
Qed.

(** A created interface is not NetworkManager's. *)
Lemma virtual_not_managed f servers o p : PlanNetwork f servers o = Ok p → HotspotManager (hot p) = ManagedByNetworkManager →
  HotspotIsVirtual (hot p) = false.
Proof.
  intros Hp Hm. destruct (plan_radio _ _ _ _ Hp) as (c & h0 & _ & _ & Hacc & Hbr).
  apply acceptHotspot_inv in Hacc as (h1 & E1 & Eq & Eq'). rewrite Hbr in E1. injection E1 as <-. injection Eq as _ _ Ev _.
  injection Eq' as _ _ Em _ _ _. rewrite Ev. rewrite Em in Hm. clear -Hbr Hm.
  unfold accept_branch, takeOver, beside_station in Hbr. repeat (destruct_match_in Hbr; try done); simplify_eq; simpl in *; done.
Qed.

(** Before the plan is applied: what detection read of the knobs is what they
    are, nothing is kept of interfaces that are not there, and an interface
    NetworkManager runs is not released. *)
Definition as_read (p : Plan) (cur : gmap string string) (m : Mach) : Prop :=
  tidy m ∧ (∀ key, key ∈ BaseSysctlKnobs → is_Some (cur !! key) ∧ sim_sysctl m !! key = cur !! key) ∧
  (HotspotManager (hot p) = ManagedByNetworkManager → Hotspot (hot p) ∉ unmanaged m).

Lemma plan_steps_undoable f servers o p cur m :
  PlanNetwork f servers o = Ok p → names_ok p = true → HotspotTakenOver (hot p) = false → as_read p cur m →
  ∃ l, Forall2 (means walk) (linuxPreEngineSteps p cur ++ linuxPostEngineSteps p cur)%list
         ((Load (RulesetFor p ForwardNormal), Some (Load RulesetTeardown)) :: l) ∧ undoable m ∅ ∅ ∅ l.
Proof.
  intros Hp Hn Hto (_ & Hknobs & Hman).
  assert (Hplain : ∃ l, Forall2 (means walk) ((station_addr_step (Hotspot (hot p)) <$> HotspotStationPrefixes p) ++ HotspotAddrSteps p ++
    ServerRouteSteps p ++ TunnelAddrSteps p ++ TunnelRouteSteps p)%list l ∧ Forall plain_op l).
  { apply plain_steps. rewrite !Forall_app. split_and!;
      [by apply station_plain|by apply hotspot_addr_plain|by apply servers_plain|by apply tunnel_addr_plain|by apply tunnel_route_plain]. }
  destruct Hplain as (lp & Fp & Pp).
  assert (Hrel : ∃ lv, Forall2 (means walk) (VirtualIfaceSteps p ++ HotspotReleaseSteps p ++ HotspotAddrSteps p ++ ServerRouteSteps p ++
    TunnelAddrSteps p ++ TunnelRouteSteps p)%list lv ∧ ∀ S, undoable m ∅ ∅ S lv).
  { assert (Ha : ∀ D T S, undoable m D T S lp) by (intros; rewrite <- (app_nil_r lp); apply plain_undoable; [done|constructor]).
    destruct (names p Hn) as (Hh & _). apply word_spec in Hh as (Hh & _).
    unfold HotspotReleaseSteps, VirtualIfaceSteps. rewrite Hh, Hto. cbn [negb orb]. rewrite !app_nil_r.
    destruct (bool_decide _) eqn:Em; breflect.
    - rewrite (virtual_not_managed _ _ _ _ Hp Em). cbn [negb orb app]. exists ((Release (Hotspot (hot p)), Some (GiveBack (Hotspot (hot p)))) :: lp). split.
      + constructor; [|exact Fp]. split; [apply does_release|]. split; [done|apply does_give_back].
      + intros S. by apply U_release; [set_solver|auto|].
    - cbn [app]. destruct (_ || _); [by exists lp|]. cbn [app]. destruct (pNetworkManagerPresent p); cbn [app].
      + exists ((Create (HotspotPhy (hot p)) (Hotspot (hot p)) "__ap", Some (Remove (Hotspot (hot p)))) :: (Release (Hotspot (hot p)), None) :: lp).
        split; [constructor; [|constructor; [|exact Fp]]|].
        * split; [apply does_create|]. split; [done|apply does_remove].
        * split; [apply does_release|done].
        * intros S. apply U_create, U_release_created; [set_solver|done].
      + exists ((Create (HotspotPhy (hot p)) (Hotspot (hot p)) "__ap", Some (Remove (Hotspot (hot p)))) :: lp). split; [constructor; [|exact Fp]|].
        * split; [apply does_create|]. split; [done|apply does_remove].
        * intros S. by apply U_create. }
  destruct Hrel as (lv & Fv & Uv).
  assert (Hk : ∀ key, key ∈ BaseSysctlKnobs → ∃ w, cur !! key = Some w ∧ sim_sysctl m !! key = Some w).
  { intros key Hin. destruct (Hknobs key Hin) as [[w Hw] E]. exists w. split; [done|congruence]. }
  destruct (Hk "net.ipv4.ip_forward") as (w1 & C1 & M1); [closed_fact|].
  destruct (Hk "net.ipv4.conf.all.rp_filter") as (w2 & C2 & M2); [closed_fact|].
  destruct (Hk "net.ipv4.conf.default.rp_filter") as (w3 & C3 & M3); [closed_fact|].
  destruct (Hk "net.ipv6.conf.all.forwarding") as (w4 & C4 & M4); [closed_fact|].
  exists ((SetKnob "net.ipv4.ip_forward" "1", Some (SetKnob "net.ipv4.ip_forward" w1)) ::
    (SetKnob "net.ipv4.conf.all.rp_filter" (Itoa (RPFilter (Opts p))), Some (SetKnob "net.ipv4.conf.all.rp_filter" w2)) ::
    (SetKnob "net.ipv4.conf.default.rp_filter" (Itoa (RPFilter (Opts p))), Some (SetKnob "net.ipv4.conf.default.rp_filter" w3)) ::
    (SetKnob "net.ipv6.conf.all.forwarding" (match IPv6 (Opts p) with IPv6Block => "0" | IPv6Forward => "1" end),
       Some (SetKnob "net.ipv6.conf.all.forwarding" w4)) :: lv).
  split.
  - unfold linuxPreEngineSteps, linuxPostEngineSteps. cbn [app]. constructor.
    { split; [apply does_load|]. split; [done|apply does_load]. }
    unfold SysctlSteps. cbn [app]. repeat (apply Forall2_cons; split); [..|rewrite <- !app_assoc; exact Fv];
      try (apply knob_means; [closed_fact|done]).
    destruct (IPv6 (Opts p)); (apply knob_means; [closed_fact|done]).
  - repeat (apply U_knob; [closed_fact|done|]). apply Uv.
Qed.

Lemma load_last l b m m3 cf : exec_all walk cf (undos l ++ [Load b])%list m = Some m3 →
  ruleset m3 = if Contains b "firewall teardown" then "" else b.
Proof. rewrite exec_all_app. destruct (exec_all walk cf (undos l) m); [|done]. by intros [= <-]. Qed.

(** C17. On the simulated kernel, for a Linux plan that takes over no interface and
    whose names are no keywords of ip, from a machine that is tidy, has the knobs at
    the values read and does not already leave the hotspot's interface unmanaged, and
    when every inverse of the plan is a command the runner lets through: if the steps
    all succeed in order, their inverses, newest first, all succeed too, and the
    addresses, routes, rules, knobs, interfaces, their types, hardware addresses,
    associations, radios and managers are then as they were, so that Snapshot prints
    the same, with no firewall left. Which links are up is not compared: setting a
    link up has no inverse. *)
Theorem plan_undone f servers o p cur (k kn : SimulatedKernel R) :
  PlanNetwork f servers o = Ok p → pPlatform p ∈ [PlatformUnset; PlatformLinux] → names_ok p = true →
  HotspotTakenOver (hot p) = false → as_read p cur (mach k) →
  Forall (λ c, ValidateCommand c = Ok tt) (inverses (AllSteps p cur)) →
  run_all walk (Do <$> AllSteps p cur) k = Some kn →
  ∃ k', run_all walk (inverses (AllSteps p cur)) kn = Some k' ∧ alike ∅ (mach k') (mach k) ∧
    Snapshot (mach k') = Snapshot (mach k) ∧ ruleset (mach k') = "".
Proof.
  intros Hp Hpl Hn Hto Hread Hvalid Hrun.
  assert (Hs : AllSteps p cur = (linuxPreEngineSteps p cur ++ linuxPostEngineSteps p cur)%list).
  { unfold AllSteps, PreEngineSteps, PostEngineSteps. apply elem_of_cons in Hpl as [->|Hpl]; [done|].
    by apply list_elem_of_singleton in Hpl as ->. }
  rewrite Hs in *. destruct (plan_steps_undoable _ _ _ _ _ _ Hp Hn Hto Hread) as (l & Fm & Ul). destruct (means_does _ _ Fm) as [Hd Hu].
  destruct (run_all_exec _ _ Hd _ _ Hrun) as [He Hcf].
  pose proof (U_load (mach k) ∅ ∅ ∅ (RulesetFor p ForwardNormal) RulesetTeardown l Ul) as Ul'.
  destruct (undo_all walk (conf k) (mach k) ∅ ∅ ∅ _ Ul' (mach k) (mach kn) ltac:(by split) (proj1 Hread) He (mach kn) ltac:(done))
    as (m3 & E3 & Hal).
  rewrite <- Hcf in E3. destruct (exec_run_all _ _ Hu Hvalid kn m3 E3) as (k' & Ek & <-).
  exists k'. split_and!; [done|done|by apply alike_snapshot|]. rewrite undos_cons in E3. apply load_last in E3. rewrite E3. by vm_compute.
Qed.
End Whole.

(** ** The priority of a rule added without one *)

Definition taken (rs : list simRule) (p : Z) : Prop := Itoa p ∈ priority <$> rs.

Lemma taken_spec rs p : existsb (λ r, priority r =? Itoa p) rs = true ↔ taken rs p.
Proof.
  unfold taken. rewrite existsb_exists, list_elem_of_fmap. split.
  - intros (r & Hr & E%String.eqb_eq). exists r. split; [done|by apply list_elem_of_In].
  - intros (r & E & Hr). exists r. split; [by apply list_elem_of_In|]. by apply String.eqb_eq.
Qed.

Lemma free_from_spec rs fuel : ∀ p, let q := free_from rs fuel p in
  (q ≤ p ∧ (∀ x, q < x ≤ p → taken rs x) ∧ (taken rs q → q = p - Z.of_nat fuel))%Z.
Proof.
  induction fuel as [|fuel IH]; intros p; cbn [free_from]; [split_and!; try lia; intros; lia|].
  destruct (existsb _ rs) eqn:E.
  - apply taken_spec in E. destruct (IH (p - 1)%Z) as (H1 & H2 & H3). split_and!; [lia| |].
    + intros x Hx. destruct (decide (x = p)) as [->|]; [done|apply H2; lia].
    + intros Ht. specialize (H3 Ht). lia.
  - split_and!; try lia. intros Ht%taken_spec. congruence.
Qed.

(** A rule added without a priority gets the greatest number up to 32765 that no
    rule has: the search ends, whatever the rules. *)
Theorem next_free_priority m : ∃ q, nextFreePriority m = Itoa q ∧ (q ≤ 32765)%Z ∧ ¬ taken (rules m) q ∧
  ∀ x, (q < x ≤ 32765)%Z → taken (rules m) x.
Proof.
  unfold nextFreePriority. set (rs := rules m). set (n := List.length rs).
  pose proof (free_from_spec rs (S n) 32765) as Hs. cbv zeta in Hs. destruct Hs as (H1 & H2 & H3).
  exists (free_from rs (S n) 32765). split_and!; [done|done| |done]. intros Ht. specialize (H3 Ht).
  assert (Hnd : NoDup ((λ i, Itoa (32765 - Z.of_nat i)) <$> seq 0 (S n))).
  { apply NoDup_fmap_2_strong; [|apply NoDup_seq]. intros i j _ _ E%ServiceDemo.Itoa_inj. lia. }
  assert (Hsub : (λ i, Itoa (32765 - Z.of_nat i)) <$> seq 0 (S n) ⊆+ priority <$> rs).
  { apply NoDup_submseteq; [done|]. intros w (i & -> & Hi)%list_elem_of_fmap. apply elem_of_seq in Hi. apply H2. lia. }
  apply submseteq_length in Hsub. rewrite !length_fmap, length_seq in Hsub. lia.
Qed.

(** ** A machine *)

Lemma empty_tidy : tidy empty_machine.
Proof. by intros n _. Qed.
Lemma existing_tidy n m : tidy m → tidy (add_existing m n).
Proof.
  intros Ht x Hx. cbn in *. apply not_elem_of_union in Hx as [Hn Hx]. apply not_elem_of_singleton in Hn.
  destruct (Ht x Hx) as (? & ? & ? & ? & ?). split_and!; try done. by rewrite lookup_insert_ne.
Qed.
Lemma new_tidy names : tidy (NewSimulatedKernel names).
Proof.
  unfold NewSimulatedKernel. generalize empty_tidy. generalize empty_machine. induction names as [|n names IH]; intros m Hm; [done|].
  apply IH. by apply existing_tidy.
Qed.

Module Simulated.
Definition pi_facts : Facts := match DetectFacts.Captured.planned with Ok (f, _) => f | Err _ => MkFacts [] [] [] [] [] false false ∅ 0 end.
Definition pi_plan : Plan := match DetectFacts.Captured.planned with Ok (_, p) => p | Err _ => Desktop.Desktops.no_plan end.
Definition quiet : Conf := MkConf "" false "" "".

(** The recorded machine: its interfaces, the tunnel's device and its knobs. *)
Definition pi : SimulatedKernel RecordingRunner :=
  MkSim (set_knobs (Sysctl pi_facts) (NewSimulatedKernel ["eth0"; "wlan0"; "xray0"])) [] None quiet.
Definition pi_steps : list Step := AllSteps pi_plan (Sysctl pi_facts).
Definition pi_applied : SimulatedKernel RecordingRunner := default pi (run_all map_to_list (Do <$> pi_steps) pi).

(** The plan changes the machine. *)
Example pi_changes : List.length pi_steps = 15%nat ∧ List.length (Snapshot (mach pi)) = 10%nat ∧
  Snapshot (mach pi_applied) =
    ["addr ap0 10.83.51.1/24"; "addr xray0 198.18.51.1/30"; "iface ap0"; "iface eth0"; "iface wlan0"; "iface xray0";
     "iftype ap0=__ap"; "iftype eth0=managed"; "iftype wlan0=managed"; "iftype xray0=managed"; "route 8410 10.83.51.0/24";
     "route 8410 default"; "route main 203.0.113.10/32"; "rule 8409 fwmark 0x20da lookup 8410";
     "rule 8410 from 10.83.51.0/24 lookup 8410"; "sysctl net.ipv4.conf.all.rp_filter=2";
     "sysctl net.ipv4.conf.default.rp_filter=2"; "sysctl net.ipv4.ip_forward=1"; "sysctl net.ipv6.conf.all.forwarding=0";
     "unmanaged ap0"].
Proof. vm_compute. repeat split. Qed.

Lemma pi_as_read : as_read pi_plan (Sysctl pi_facts) (mach pi).
Proof.
  split_and!.
  - intros n Hn. exact (new_tidy ["eth0"; "wlan0"; "xray0"] n Hn).
  - intros key Hk. split; [|done].
    apply elem_of_cons in Hk as [->|Hk]; [closed_fact|]. apply elem_of_cons in Hk as [->|Hk]; [closed_fact|].
    apply elem_of_cons in Hk as [->|Hk]; [closed_fact|]. apply list_elem_of_singleton in Hk as ->. closed_fact.
  - intros _. closed_fact.
Qed.

Lemma plan_undone_witness :
  run_all map_to_list (Do <$> AllSteps pi_plan (Sysctl pi_facts)) pi = Some pi_applied ∧
  ∃ k', run_all map_to_list (inverses (AllSteps pi_plan (Sysctl pi_facts))) pi_applied = Some k' ∧ alike ∅ (mach k') (mach pi) ∧
    Snapshot (mach k') = Snapshot (mach pi) ∧ ruleset (mach k') = "".
Proof.
  assert (E : run_all map_to_list (Do <$> AllSteps pi_plan (Sysctl pi_facts)) pi = Some pi_applied) by (vm_compute; reflexivity).
  split; [exact E|].
  apply (plan_undone map_to_list pi_facts [quad 203 0 113 10] DefaultOptions pi_plan (Sysctl pi_facts) pi pi_applied).
  - vm_compute. reflexivity.
  - closed_fact.
  - vm_compute. reflexivity.
  - vm_compute. reflexivity.
  - exact pi_as_read.
  - vm_compute. repeat constructor.
  - exact E.
Defined.

(** ** Three things the comments do not say *)

(** An interface is added with its type, and without it the simulation indexes
    past the arguments. *)
Example short_add_panics :
  sim_run map_to_list (cmd BinIw ["phy"; "phy0"; "interface"; "add"; "ap0"] "") pi = None.
Proof. vm_compute. reflexivity. Qed.

(** The priority is the greatest free number, not one below the lowest rule. *)
Example priority_above_the_lowest :
  nextFreePriority (set_rules [MkSimRule "100" "from all lookup main"] empty_machine) = "32765".
Proof. vm_compute. reflexivity. Qed.

(** Of the two refusals of rtnetlink only one reads as something already there. *)
Example no_entry_is_not_exists :
  IsAlreadyExists (fst (simFail simExists)) (snd (simFail simExists)) = true ∧
  IsAlreadyExists (fst (simFail simNoEntry)) (snd (simFail simNoEntry)) = false ∧
  IsNotFound (fst (simFail simNoEntry)) (snd (simFail simNoEntry)) = true.
Proof. by vm_compute. Qed.
End Simulated.
